(* ===== verification/_CoqProject ===== *)
-Q . S2P
Prelude.v
Wire.v
Codec.v
StreamDecoder.v
Capabilities.v
PacketMessages.v
Ipv4.v
NetworkPolicy.v
NetworkName.v
NetworkMessages.v
Crypto.v
PacketCipher.v
Ethernet.v
RoutedNetwork.v
Multicast.v
Limits.v
AuditEvent.v
RelayStore.v
StoreInvariant.v
Double.v
ForwardingQuota.v
Candidates.v
UserAccess.v
NetworkManagement.v
JoinTarget.v
NetworkService.v
ServiceAccess.v
ServiceSafety.v
ServiceRouting.v
ServicePeers.v
ServiceManagement.v
ServiceScenario.v
Handshake.v
ControlChannel.v
ChannelScenario.v
Stun.v
Punch.v
Connectivity.v
PathDiagnostics.v
PathQuality.v
LanDiscovery.v
GameDiagnostics.v
PacketBridge.v
BridgeSafety.v
BridgeDelivery.v
BridgeScenario.v
VirtualNetwork.v
ClientCache.v
QuicSend.v
RelayClient.v
ClientSafety.v
ClientSession.v
ClientScenario.v
Directory.v
RelayHealth.v
RelayPool.v
RelayServer.v
RelayServerSafety.v
RelayServerScenario.v
Config.v
LocalControl.v
LocalService.v
LocalCandidates.v
DirectQuic.v
PeerPath.v
PeerPathSafety.v
RelaySession.v
Logger.v
RegionalRelay.v
Startup.v
