(* ===== verification/Prelude.v ===== *)
(** * LanLink: a verification development

    LanLink is a virtual LAN.  Devices hold an Ed25519 identity, authenticate to a relay over QUIC or TLS and join
    networks; the relay keeps accounts, memberships, addresses and policies in SQLite, hands out peer states and
    forwards packets; members encrypt IPv4 packets end to end under a network key its owner draws and seals for
    each member, and open direct QUIC connections to each other where the NATs allow it.  A service on each machine
    runs the client behind a virtual adapter and answers a user interface over a local pipe.

    ** How the code is modelled

    - Bytes are [list byte], machine integers are [Z] with their wrap-around written out, [std::map] and SQLite tables are
      [gmap]s, iterated in the order of their keys.  A C++ exception is [Throw] with its class; code that
      keeps what it did before throwing returns the new state beside the result.
    - A class with state is a record and its methods are state-passing functions, in a small monad where state, errors and
      outputs are threaded through many calls.  A critical section is one step; what other threads do
      while no lock is held is an argument, constrained only by the invariant they keep.
    - Clocks, random draws, what the operating system, MsQuic or OpenSSL answer are arguments.  Cryptography is the classes
      [Crypto], [TokenMac] and [PasswordHash], with documented laws in [CryptoLaws] and an executable instance
      ([toy_crypto]) at which the examples are evaluated.  Names are those of the code; a record's fields carry a
      prefix where two records share one.

    ** Files, and the sources they translate

    Bytes and messages (include/lanlink/protocol, src/protocol):
    - [Prelude]: results, bytes, big-endian integers and tactics; [Wire]: the readers and writers of binary.hpp, with the hints for codecs;
    - [Codec], [StreamDecoder]: frames and their reassembly (codec.cpp, stream_decoder.cpp);
    - [Capabilities], [PacketMessages], [NetworkPolicy], [NetworkName], [NetworkMessages], [AuditEvent], [UserAccess], [NetworkManagement],
      [PathDiagnostics], [GameDiagnostics], [LocalControl]: the messages, their validity rules and codecs; [JoinTarget]: invitations and
      secrets as text; [Ipv4]: header inspection, checksums, fragmentation.

    Keys (src/auth): [Crypto] (identity.cpp, device_keys.cpp, network_keys.cpp), [PacketCipher] (packet_crypto.cpp), [Handshake]
    (handshake.cpp), [Directory] and [RelayHealth] (directory.cpp, relay_health.cpp).

    The relay: [RelayStore] and [StoreInvariant] (storage/relay_store.cpp), [Double] and [ForwardingQuota] (relay/forwarding_quota.cpp),
    [NetworkService] and [ServiceAccess] (relay/network_service.cpp) with the theorems of [ServiceSafety], [ServiceRouting], [ServicePeers]
    and [ServiceManagement], [ControlChannel] (relay/network_control_channel.cpp), [RelayServer] and [RelayServerSafety] ([QuicRelayServer] of
    transport/quic.cpp), [RegionalRelay] (the same with an upstream authority, and transport/relay_bridge.cpp), [Startup] (apps/relay/main.cpp).

    The client: [Limits], [QuicSend] (transport/resource_limits.cpp, reconnect.cpp, sends of quic.cpp and tls.cpp), [ClientCache], [RelayClient],
    [ClientSafety] and [ClientSession] ([QuicRelayClient] of quic.cpp), [RelaySession] (session/relay_session.cpp, relay_packet_path.cpp),
    [RelayPool] (transport/relay_pool.cpp, relay_probe.cpp), [Config] and [Logger] (core/config.cpp, logger.cpp), [LocalService] (apps/service/client_runtime.cpp).

    Peer to peer (src/p2p): [Candidates], [LocalCandidates], [Stun], [Punch], [Connectivity], [PathQuality], [DirectQuic], and
    [PeerPath] with [PeerPathSafety] (session/peer_packet_path.cpp), which puts them together.

    The virtual network (src/network, transport/packet_bridge.cpp): [Ethernet], [RoutedNetwork], [Multicast], [LanDiscovery], [PacketBridge] with
    [BridgeSafety] and [BridgeDelivery], and [VirtualNetwork], which drives adapter, bridge and path from the session's snapshots.

    [ServiceScenario], [ChannelScenario], [RelayServerScenario], [ClientScenario] and [BridgeScenario] evaluate the definitions on small
    histories, at which the theorems are applied.

    ** What the theorems show

    - Codecs: each decoder accepts exactly the encodings of valid values ([messages_exact], [network_policy_exact], [join_texts_exact]); stream
      reassembly is greedy parsing of the whole stream however it is cut ([push_all_refines]); configuration files ([configuration_exact]).
    - Authority: who changes memberships and policies, how often secrets may be guessed and who receives keys ([membership_authorized], [policy_change_authorized],
      [key_distribution_authorized], [membership_change_rotates_key]); every frame acts in the name of the device that authenticated on its
      connection ([handshake_authentic], [channel_refines_service], [relay_serves_authenticated], and through a regional
      relay, which adds nothing of its own, [regional_relay_transparent]) and what is sent to whom
      ([routing_exact], [fanout_forwarded_once], [channel_disclosure], [peer_state_exact]).
    - Consistency of state under any sequence of operations: the database ([store_consistent]), the client ([client_state_consistent]), the
      checklist ([connectivity_nominates]); limits and quotas ([traffic_limits_respected]); the log
      ([log_faithful]).
    - Packets: nonces and replay ([encrypt_decrypt_roundtrip], [decrypt_replay_free]), the bridge under interleaving
      ([bridge_packets_safe]) and end to end ([bridge_delivers]), tunnels and fragments ([tunnels_exact],
      [ipv4_oversize_correct]), the guard on fan-out traffic ([fanout_guarded]), what a session may use ([session_acts_authorized]).
    - Direct paths: [hole_punching], [direct_path_secure], [peer_paths_safe]; the choice of a relay: [relay_choice_trusted].
    - Answers: every request gets one ([control_channel_answers], [handshake_outcomes], [local_requests_answered]); the program comes up as
      configured ([startup_exact]); the adapter follows the snapshots ([virtual_network_follows]).

    ** Interfaces

    [ControlChannel] is proved against [NetworkService]'s request relation, [RelayServer] against [ControlChannel]'s; [PacketBridge] and
    [RelayClient] against [Crypto]; [VirtualNetwork] against the bridge's [synchronize] and any adapter and path; [DirectQuic] and [PeerPath]
    against any snapshot, and [RelaySession] says which snapshots there are.

    ** Fuel and bounds

    Loops that are not structural carry fuel that is proved enough: the checksum's carries are folded three times (a 32-bit sum
    has no carry left then); the drain of a buffer, the pushes of a chunk, the STUN attributes, the copied options and the fragments take
    one more turn than their input is long, since each turn consumes a byte or stops; a free request id is found within three more
    attempts than there are pending requests (two ids are reserved).  The 32 attempts for a network id are the code's own bound.

    ** Not modelled

    OpenSSL, MsQuic, SQLite, sockets, threads and condition variables as such; the secret files of the operating system
    (secret_store.cpp) and its adapters, pipes and services (wintun_adapter.cpp, linux_tun.cpp and the like), which are calls of the
    system; the
    download of the directory; the user interfaces and the texts they show.  Log messages are left out, and so is
    the certificate of QUIC connections.  SQLite failures other than violated constraints are not modelled. *)
From Stdlib Require Export ZArith Lia Bool List Strings.Byte.
From stdpp Require Export base decidable option list numbers countable gmap strings.
#[global] Set Warnings "-notation-overridden,-clear-no-such-hyp".
Open Scope Z_scope.

(** ** Results of fallible C++ code *)

(** The exception classes the sources throw and catch. *)
Inductive exn :=
| invalid_argument
| runtime_error
| length_error
| overflow_error
| logic_error.

#[global] Instance exn_eq_dec : EqDecision exn.
Proof. solve_decision. Defined.

Inductive result (A : Type) :=
| Ok (a : A)
| Throw (e : exn).
Arguments Ok {A} a.
Arguments Throw {A} e.

#[global] Instance result_eq_dec `{EqDecision A} : EqDecision (result A).
Proof. solve_decision. Defined.

Lemma Ok_inj {A} (a b : A) : Ok a = Ok b -> a = b.
Proof. by intros [= ->]. Qed.

Declare Scope lanlink_scope.
Delimit Scope lanlink_scope with lanlink.

Notation "'let*' p := m 'in' k" :=
  (match m with Ok p => k | Throw e => Throw e end)
  (at level 10, p pattern, m at level 100, k at level 200,
   format "'[v' 'let*'  p  :=  m  'in' '/' k ']'") : lanlink_scope.
Notation "'check!' b 'else' e 'in' k" :=
  (if (b : bool) then k else Throw e)
  (at level 10, b at level 100, e at level 9, k at level 200,
   format "'[v' 'check!'  b  'else'  e  'in' '/' k ']'") : lanlink_scope.
Open Scope lanlink_scope.

Definition is_ok {A} (r : result A) : bool :=
  match r with Ok _ => true | Throw _ => false end.

(** Splits a hypothesis [H : m = Ok v] along the binds and guards of [m]. *)
Ltac ok_inv H :=
  repeat
    (match type of H with
     | (match ?m with Ok _ => _ | Throw _ => _ end) = Ok _ =>
         let E := fresh "E" in destruct m eqn:E in H; [|discriminate H]
     | (if ?b then Throw _ else _) = Ok _ =>
         let E := fresh "G" in destruct b eqn:E in H; [discriminate H|]
     | (if ?b then _ else Throw _) = Ok _ =>
         let E := fresh "G" in destruct b eqn:E in H; [|discriminate H]
     | (match ?p with (_, _) => _ end) = Ok _ =>
         let a := fresh "x" in let r := fresh "r" in destruct p as [a r]
     | Ok _ = Ok _ => apply Ok_inj in H
     | Throw _ = Ok _ => discriminate H
     end; cbn beta iota in * ).

(** Turns boolean conditions in the context into propositions. *)
Ltac bool_prop :=
  repeat match goal with
  | H : _ && _ = true |- _ => apply andb_true_iff in H as [? ?]
  | H : _ || _ = false |- _ => apply orb_false_iff in H as [? ?]
  | H : negb _ = true |- _ => apply negb_true_iff in H
  | H : negb _ = false |- _ => apply negb_false_iff in H
  | H : bool_decide _ = true |- _ => apply bool_decide_eq_true in H
  | H : bool_decide _ = false |- _ => apply bool_decide_eq_false in H
  | H : (_ =? _) = true |- _ => apply Z.eqb_eq in H
  | H : (_ =? _) = false |- _ => apply Z.eqb_neq in H
  | H : (_ <? _) = true |- _ => apply Z.ltb_lt in H
  | H : (_ <? _) = false |- _ => apply Z.ltb_ge in H
  | H : (_ <=? _) = true |- _ => apply Z.leb_le in H
  | H : (_ <=? _) = false |- _ => apply Z.leb_gt in H
  | H : (_ >? _) = true |- _ => rewrite Z.gtb_ltb in H; apply Z.ltb_lt in H
  | H : (_ >? _) = false |- _ => rewrite Z.gtb_ltb in H; apply Z.ltb_ge in H
  | H : (_ >=? _) = true |- _ => rewrite Z.geb_leb in H; apply Z.leb_le in H
  | H : (_ >=? _) = false |- _ => rewrite Z.geb_leb in H; apply Z.leb_gt in H
  end.

(** Evaluates the leading guard of the goal with a fact provable by [tac]. *)
Tactic Notation "guard_true" "by" tactic3(tac) :=
  match goal with
  | |- context [if ?b then _ else _] =>
      let G := fresh in assert (G : b = true) by tac; rewrite G; clear G; cbv iota
  end.
Tactic Notation "guard_false" "by" tactic3(tac) :=
  match goal with
  | |- context [if ?b then _ else _] =>
      let G := fresh in assert (G : b = false) by tac; rewrite G; clear G; cbv iota
  end.

(** ** Bytes *)

#[global] Instance byte_eq_dec : EqDecision byte := Byte.byte_eq_dec.
#[global] Program Instance byte_countable : Countable byte :=
  inj_countable Byte.to_N Byte.of_N Byte.of_to_N.

(** [std::to_integer<unsigned char>] and [static_cast<unsigned char>]. *)
Definition b2z (b : byte) : Z := Z.of_N (Byte.to_N b).
Definition z2b (z : Z) : byte :=
  match Byte.of_N (Z.to_N (z mod 256)) with Some b => b | None => x00 end.

Lemma b2z_range b : 0 <= b2z b < 256.
Proof. unfold b2z. pose proof (Byte.to_N_bounded b). lia. Qed.

Lemma b2z_z2b z : b2z (z2b z) = z mod 256.
Proof.
  unfold z2b, b2z. pose proof (Z.mod_pos_bound z 256 eq_refl).
  destruct (Byte.of_N _) as [b|] eqn:E.
  - apply Byte.to_of_N in E. rewrite E. lia.
  - apply Byte.of_N_None_iff in E. lia.
Qed.

Lemma z2b_b2z b : z2b (b2z b) = b.
Proof.
  unfold z2b, b2z. rewrite Z.mod_small by apply b2z_range.
  rewrite N2Z.id, Byte.of_to_N. reflexivity.
Qed.

Lemma b2z_inj a b : b2z a = b2z b -> a = b.
Proof. intros H. rewrite <- (z2b_b2z a), <- (z2b_b2z b), H. reflexivity. Qed.

Lemma z2b_mod z : z2b (z mod 256) = z2b z.
Proof. apply b2z_inj. rewrite !b2z_z2b. apply Z.mod_mod. lia. Qed.

Abbreviation bytes := (list byte).

(** Sizes are [Z], so that they compare with machine integers. *)
Definition len {A} (l : list A) : Z := Z.of_nat (length l).

Lemma len_nonneg {A} (l : list A) : 0 <= len l.
Proof. unfold len. lia. Qed.
Lemma len_app {A} (l k : list A) : len (l ++ k) = len l + len k.
Proof. unfold len. rewrite length_app. lia. Qed.
Lemma len_cons {A} (x : A) l : len (x :: l) = 1 + len l.
Proof. unfold len. cbn [length]. lia. Qed.
Lemma len_nil {A} : len (@nil A) = 0.
Proof. reflexivity. Qed.

(** [bytes[i]] on a span whose size was checked before. *)
Definition at_ (l : bytes) (i : nat) : byte := nth i l x00.
Definition at_z (l : bytes) (i : nat) : Z := b2z (at_ l i).

Lemma at_z_range l i : 0 <= at_z l i < 256.
Proof. apply b2z_range. Qed.

(** [std::all_of(..., byte == 0)]. *)
Definition is_zero (l : bytes) : bool := forallb (fun b => bool_decide (b = x00)) l.

Lemma is_zero_replicate n : is_zero (replicate n x00) = true.
Proof. induction n; [reflexivity|]. cbn. exact IHn. Qed.

Lemma is_zero_iff l : is_zero l = true <-> l = replicate (length l) x00.
Proof.
  split.
  - unfold is_zero. induction l as [|b l IH]; [done|]. cbn.
    intros H. bool_prop. subst. f_equal. auto.
  - intros ->. apply is_zero_replicate.
Qed.

(** The bytes of a string literal. *)
Definition str (s : string) : bytes := String.list_byte_of_string s.

(** ** Big-endian integers *)

(** The loops [for (index = sizeof(T); index > 0; --index) push(value >> 8*(index-1))]. *)
Fixpoint put_be (n : nat) (v : Z) : bytes :=
  match n with
  | O => []
  | S n' => z2b (Z.shiftr v (8 * Z.of_nat n')) :: put_be n' v
  end.

(** The loops [result = static_cast<T>((result << 8) | byte)], [sizeof(T) = w]. *)
Definition get_be (w : nat) (bs : bytes) : Z :=
  foldl (fun r b => Z.lor (Z.shiftl r 8) (b2z b) mod 2 ^ (8 * Z.of_nat w)) 0 bs.

(** The value those loops compute, without the truncations. *)
Definition be_step (r : Z) (b : byte) : Z := r * 256 + b2z b.
Definition be_value (bs : bytes) : Z := foldl be_step 0 bs.

Lemma be_foldl_split bs r :
  foldl be_step r bs = r * 256 ^ Z.of_nat (length bs) + be_value bs.
Proof.
  revert r. induction bs as [|b bs IH]; intros r; unfold be_value; cbn [foldl length].
  - rewrite Z.pow_0_r. lia.
  - rewrite (IH (be_step r b)), (IH (be_step 0 b)). unfold be_step.
    rewrite Nat2Z.inj_succ, Z.pow_succ_r by lia. ring.
Qed.

Lemma be_value_cons b bs : be_value (b :: bs) = b2z b * 256 ^ Z.of_nat (length bs) + be_value bs.
Proof. unfold be_value at 1. cbn [foldl]. rewrite be_foldl_split. unfold be_step. ring. Qed.

Lemma be_value_app a b : be_value (a ++ b) = be_value a * 256 ^ Z.of_nat (length b) + be_value b.
Proof. unfold be_value at 1. rewrite foldl_app. apply be_foldl_split. Qed.

Lemma be_value_snoc bs b : be_value (bs ++ [b]) = be_value bs * 256 + b2z b.
Proof. rewrite be_value_app. cbn. unfold be_value, be_step. cbn. lia. Qed.

Lemma be_value_range bs : 0 <= be_value bs < 256 ^ Z.of_nat (length bs).
Proof.
  induction bs as [|b bs IH] using rev_ind; [cbn; lia|].
  rewrite be_value_snoc, length_app. cbn [length].
  rewrite Nat2Z.inj_add, Z.pow_add_r by lia. pose proof (b2z_range b). change (256 ^ Z.of_nat 1) with 256. lia.
Qed.

Lemma pow_256 n : 256 ^ Z.of_nat n = 2 ^ (8 * Z.of_nat n).
Proof. rewrite Z.pow_mul_r by lia. reflexivity. Qed.

Lemma shift_or_byte r b : 0 <= r -> Z.lor (Z.shiftl r 8) (b2z b) = r * 256 + b2z b.
Proof.
  intros Hr. pose proof (b2z_range b) as Hb.
  rewrite Z.shiftl_mul_pow2 by lia. change (2 ^ 8) with 256.
  rewrite <- Z.lxor_lor; [rewrite <- Z.add_nocarry_lxor; [reflexivity|]|];
    apply Z.bits_inj'; intros i Hi; rewrite Z.land_spec, Z.bits_0;
    (destruct (Z.ltb_spec i 8);
     [change 256 with (2 ^ 8); rewrite Z.mul_pow2_bits_low by lia; reflexivity
     |rewrite (Z.bits_above_log2 (b2z b) i); [apply andb_false_r|lia|];
      destruct (Z.eq_dec (b2z b) 0) as [->|]; [cbn; lia|];
      apply Z.log2_lt_pow2; [lia|]; assert (2 ^ 8 <= 2 ^ i) by (apply Z.pow_le_mono_r; lia); lia]).
Qed.

Lemma get_be_value w bs : (length bs <= w)%nat -> get_be w bs = be_value bs.
Proof.
  induction bs as [|b bs IH] using rev_ind; intros Hl; [reflexivity|].
  rewrite length_app in Hl. cbn [length] in Hl.
  unfold get_be. rewrite foldl_app. cbn [foldl]. fold (get_be w bs).
  rewrite IH by lia. pose proof (be_value_range bs) as R. rewrite shift_or_byte by lia.
  rewrite be_value_snoc. apply Z.mod_small.
  rewrite <- be_value_snoc, <- pow_256. pose proof (be_value_range (bs ++ [b])) as R2.
  rewrite length_app in R2. cbn [length] in R2.
  assert (256 ^ Z.of_nat (length bs + 1) <= 256 ^ Z.of_nat w) by (apply Z.pow_le_mono_r; lia). lia.
Qed.

Lemma length_put_be n v : length (put_be n v) = n.
Proof. induction n; cbn; congruence. Qed.

Lemma be_value_put n v : be_value (put_be n v) = v mod 2 ^ (8 * Z.of_nat n).
Proof.
  induction n as [|n IH]; [cbn; rewrite Z.mod_1_r; reflexivity|].
  cbn [put_be]. rewrite be_value_cons, length_put_be, IH, b2z_z2b, pow_256.
  rewrite Z.shiftr_div_pow2 by lia.
  replace (8 * Z.of_nat (S n)) with (8 * Z.of_nat n + 8) by lia.
  rewrite (Z.pow_add_r 2 (8 * Z.of_nat n) 8) by lia. change (2 ^ 8) with 256.
  rewrite Z.rem_mul_r by lia. ring.
Qed.

Lemma be_value_inj a b : length a = length b -> be_value a = be_value b -> a = b.
Proof.
  revert b. induction a as [|x a IH]; intros [|y b] Hl; try discriminate; [done|].
  cbn in Hl. injection Hl as Hl. rewrite !be_value_cons, Hl. intros H.
  pose proof (be_value_range a) as Ra. pose proof (be_value_range b) as Rb. rewrite Hl in Ra.
  assert (b2z x = b2z y) by nia. f_equal; [by apply b2z_inj|]. apply IH; [done|]. nia.
Qed.

Lemma put_be_mod n v w : v mod 2 ^ (8 * Z.of_nat n) = w mod 2 ^ (8 * Z.of_nat n) -> put_be n v = put_be n w.
Proof.
  intros H. apply be_value_inj; [by rewrite !length_put_be|]. by rewrite !be_value_put.
Qed.

Lemma put_be_value n bs : length bs = n -> put_be n (be_value bs) = bs.
Proof.
  intros H. apply be_value_inj; [by rewrite length_put_be|].
  rewrite be_value_put, Z.mod_small; [done|]. rewrite <- pow_256, <- H. apply be_value_range.
Qed.

Arguments put_be : simpl never.

(** ** Splitting byte strings *)

Lemma take_app_len {A} (a b : list A) n : n = length a -> take n (a ++ b) = a.
Proof. intros ->. apply take_app_length. Qed.
Lemma drop_app_len {A} (a b : list A) n : n = length a -> drop n (a ++ b) = b.
Proof. intros ->. apply drop_app_length. Qed.

Lemma at_app_l a b i : (i < length a)%nat -> at_ (a ++ b) i = at_ a i.
Proof. intros. unfold at_. by apply app_nth1. Qed.
Lemma at_app_r a b i : (length a <= i)%nat -> at_ (a ++ b) i = at_ b (i - length a).
Proof. intros. unfold at_. by apply app_nth2. Qed.

(** A machine word of [n] bytes. *)
Definition word (n : nat) (v : Z) : Prop := 0 <= v < 2 ^ (8 * Z.of_nat n).
Arguments word n v : simpl never.

Lemma word_1 v : word 1 v <-> 0 <= v < 256.
Proof. done. Qed.
Lemma word_2 v : word 2 v <-> 0 <= v < 65536.
Proof. done. Qed.
Lemma word_4 v : word 4 v <-> 0 <= v < 4294967296.
Proof. done. Qed.
Lemma word_8 v : word 8 v <-> 0 <= v < 18446744073709551616.
Proof. done. Qed.

(** Ranges of machine words as linear arithmetic. *)
Ltac words := rewrite ?word_1, ?word_2, ?word_4, ?word_8 in *.

Lemma word_mod n v : word n v -> v mod 2 ^ (8 * Z.of_nat n) = v.
Proof. apply Z.mod_small. Qed.

Lemma word_be_value bs n : length bs = n -> word n (be_value bs).
Proof. intros <-. unfold word. rewrite <- pow_256. apply be_value_range. Qed.

Lemma get_put_be n v : word n v -> get_be n (put_be n v) = v.
Proof.
  intros H. rewrite get_be_value by (rewrite length_put_be; lia).
  rewrite be_value_put. by apply word_mod.
Qed.

Lemma put_get_be n bs : length bs = n -> put_be n (get_be n bs) = bs.
Proof. intros H. rewrite get_be_value by lia. by apply put_be_value. Qed.

Lemma word_get_be n bs : length bs = n -> word n (get_be n bs).
Proof. intros H. rewrite get_be_value by lia. by apply word_be_value. Qed.

(** ** Reading and writing integers inside a span *)

(** [for (i < count) value = (value << 8) | bytes[offset + i]] in a [w]-byte type. *)
Definition get_at (w : nat) (bs : bytes) (offset count : nat) : Z :=
  foldl (fun v i => Z.lor (Z.shiftl v 8) (at_z bs (offset + i)) mod 2 ^ (8 * Z.of_nat w)) 0 (seq 0 count).

(** [for (i < count) bytes[offset + i] = value >> 8*(count-i-1)]. *)
Definition put_at (bs : bytes) (offset : nat) (value : Z) (count : nat) : bytes :=
  foldl (fun bs i => <[(offset + i)%nat := z2b (Z.shiftr value (8 * Z.of_nat (count - i - 1)))]> bs)
    bs (seq 0 count).

Lemma at_drop bs off i : at_ (drop off bs) i = at_ bs (off + i).
Proof. unfold at_. revert off. induction bs as [|b bs IH]; intros [|off]; cbn; [by destruct i|by destruct i|done|apply IH]. Qed.

Lemma at_take bs n i : (i < n)%nat -> at_ (take n bs) i = at_ bs i.
Proof.
  unfold at_. revert n i. induction bs as [|b bs IH]; intros [|n] i H; cbn; try lia; try by destruct i.
  destruct i; [done|]. apply IH. lia.
Qed.

Lemma foldl_ext_in {A B} (f g : A -> B -> A) a l :
  (forall x b, b ∈ l -> f x b = g x b) -> foldl f a l = foldl g a l.
Proof.
  revert a. induction l as [|b l IH]; intros a H; [done|]. cbn. rewrite H by left.
  apply IH. intros x c Hc. apply H. by right.
Qed.

Lemma foldl_at {A} (f : A -> byte -> A) a bs :
  foldl (fun x i => f x (at_ bs i)) a (seq 0 (length bs)) = foldl f a bs.
Proof.
  induction bs as [|b bs IH] using rev_ind; [done|].
  rewrite length_app. cbn [length]. rewrite seq_app, !foldl_app. cbn [seq foldl].
  rewrite at_app_r by lia. rewrite Nat.add_0_l, Nat.sub_diag. cbn [at_ nth].
  f_equal. rewrite <- IH. apply foldl_ext_in. intros x i Hi.
  apply elem_of_seq in Hi. by rewrite at_app_l by lia.
Qed.

Lemma get_at_be w bs off count :
  (off + count <= length bs)%nat -> get_at w bs off count = get_be w (take count (drop off bs)).
Proof.
  intros H. unfold get_at, get_be.
  set (s := take count (drop off bs)).
  assert (Hs : length s = count) by (unfold s; rewrite length_take, length_drop; lia).
  rewrite <- (foldl_at (fun r b => Z.lor (Z.shiftl r 8) (b2z b) mod 2 ^ (8 * Z.of_nat w))), Hs.
  apply foldl_ext_in. intros x i Hi. apply elem_of_seq in Hi.
  unfold at_z, s. by rewrite at_take, at_drop by lia.
Qed.

Lemma get_at_value w bs off count :
  (off + count <= length bs)%nat -> (count <= w)%nat ->
  get_at w bs off count = be_value (take count (drop off bs)).
Proof.
  intros H Hw. rewrite get_at_be by done. apply get_be_value.
  rewrite length_take, length_drop. lia.
Qed.

(** Reading a field at a known position of a concatenation. *)
Lemma get_at_app w pre field post off count :
  off = length pre -> count = length field -> (count <= w)%nat ->
  get_at w (pre ++ field ++ post) off count = be_value field.
Proof.
  intros -> -> Hw. rewrite get_at_value; [|rewrite !length_app; lia|done].
  by rewrite drop_app_length, take_app_length.
Qed.

Lemma insert_app_mid {A} (pre : list A) x y post :
  <[length pre := y]> (pre ++ x :: post) = pre ++ y :: post.
Proof. rewrite insert_app_r_alt by lia. by rewrite Nat.sub_diag. Qed.

Lemma foldl_put_spec value count n pre mid post :
  (n <= count)%nat -> length mid = n ->
  foldl (fun bs i => <[(length pre + i)%nat := z2b (Z.shiftr value (8 * Z.of_nat (count - i - 1)))]> bs)
    (pre ++ mid ++ post) (seq 0 n)
  = pre ++ take n (put_be count value) ++ post.
Proof.
  revert mid post. induction n as [|n IH]; intros mid post Hn Hm.
  - by destruct mid.
  - destruct (exists_last (l := mid)) as (m & x & ->); [by destruct mid|].
    rewrite length_app in Hm. cbn in Hm.
    rewrite seq_S, foldl_app, <- app_assoc. cbn [foldl app]. rewrite IH by lia.
    rewrite Nat.add_0_l.
    assert (L : length (take n (put_be count value)) = n) by (rewrite length_take, length_put_be; lia).
    rewrite app_assoc, <- L at 1.
    replace (length pre + length (take n (put_be count value)))%nat
      with (length (pre ++ take n (put_be count value))) by (rewrite length_app; lia).
    rewrite insert_app_mid, <- app_assoc. f_equal.
    assert (P : forall c k, (k < c)%nat ->
       take (S k) (put_be c value) = take k (put_be c value) ++ [z2b (Z.shiftr value (8 * Z.of_nat (c - k - 1)))]).
    { clear. induction c as [|c IHc]; intros k Hk; [lia|]. unfold put_be; fold put_be.
      destruct k; cbn [take app]; [do 3 f_equal; lia|]. f_equal. rewrite IHc by lia.
      do 4 f_equal; lia. }
    rewrite P by lia. by rewrite <- app_assoc.
Qed.

Lemma put_at_spec bs off value count :
  (off + count <= length bs)%nat ->
  put_at bs off value count = take off bs ++ put_be count value ++ drop (off + count) bs.
Proof.
  intros H. pose proof (take_drop off bs) as E. pose proof (take_drop count (drop off bs)) as E2.
  rewrite drop_drop in E2. rewrite <- E2 in E.
  assert (L : length (take off bs) = off) by (rewrite length_take; lia).
  assert (Lm : length (take count (drop off bs)) = count) by (rewrite length_take, length_drop; lia).
  clear E2. set (pre := take off bs) in *. set (post := drop (off + count) bs) in *.
  set (mid := take count (drop off bs)) in *. clearbody pre mid post. subst bs off.
  unfold put_at. rewrite foldl_put_spec by done.
  by rewrite (take_ge (put_be count value)) by (rewrite length_put_be; lia).
Qed.

Lemma length_put_at bs off value count : length (put_at bs off value count) = length bs.
Proof.
  unfold put_at. generalize (seq 0 count) as l. intros l. revert bs.
  induction l as [|i l IH]; intros bs; [done|]. cbn [foldl]. rewrite IH. apply length_insert.
Qed.

(** ** Slices: [payload.subspan(off, n)] *)

Definition slice (off n : nat) (bs : bytes) : bytes := take n (drop off bs).

Lemma length_slice off n bs : (off + n <= length bs)%nat -> length (slice off n bs) = n.
Proof. intros. unfold slice. rewrite length_take, length_drop. lia. Qed.

Lemma slice_here a b n : length a = n -> slice 0 n (a ++ b) = a.
Proof. intros <-. unfold slice. rewrite drop_0. apply take_app_length. Qed.

Lemma slice_skip a b k off n : length a = k -> (k <= off)%nat -> slice off n (a ++ b) = slice (off - k) n b.
Proof. intros <- H. unfold slice. by rewrite drop_app_ge. Qed.

Lemma slice_all bs n : length bs = n -> slice 0 n bs = bs.
Proof. intros <-. unfold slice. by rewrite drop_0, firstn_all. Qed.

Lemma slice_join off n m bs : slice off n bs ++ slice (off + n) m bs = slice off (n + m) bs.
Proof. unfold slice. rewrite <- drop_drop. apply take_take_drop. Qed.

Lemma slice_join_app off n off' m bs rest :
  off' = (off + n)%nat -> slice off n bs ++ slice off' m bs ++ rest = slice off (n + m) bs ++ rest.
Proof. intros ->. by rewrite app_assoc, slice_join. Qed.

Lemma get_at_slice w bs off n :
  (off + n <= length bs)%nat -> (n <= w)%nat -> get_at w bs off n = be_value (slice off n bs).
Proof. apply get_at_value. Qed.

Lemma put_be_slice off n bs :
  (off + n <= length bs)%nat -> put_be n (be_value (slice off n bs)) = slice off n bs.
Proof. intros. apply put_be_value. by apply length_slice. Qed.

Lemma word_slice off n bs : (off + n <= length bs)%nat -> word n (be_value (slice off n bs)).
Proof. intros. apply word_be_value. by apply length_slice. Qed.

Lemma at_slice bs off n i : (i < n)%nat -> at_ (slice off n bs) i = at_ bs (off + i).
Proof. intros. unfold slice. by rewrite at_take, at_drop. Qed.

Lemma slice_one off bs : (off < length bs)%nat -> slice off 1 bs = [at_ bs off].
Proof.
  intros H. pose proof (length_slice off 1 bs ltac:(lia)) as L.
  destruct (slice off 1 bs) as [|b [|]] eqn:E; cbn in L; try lia.
  pose proof (at_slice bs off 1 0 ltac:(lia)) as A. rewrite E, Nat.add_0_r in A. by rewrite <- A.
Qed.

Lemma slice_cons off n bs :
  (off + S n <= length bs)%nat -> slice off (S n) bs = at_ bs off :: slice (off + 1) n bs.
Proof. intros H. rewrite <- (slice_join off 1 n), slice_one by lia. reflexivity. Qed.

Lemma slice_split off n m bs : slice off (n + m) bs = slice off n bs ++ slice (off + n) m bs.
Proof. by rewrite slice_join. Qed.

Lemma byte_const b z : b2z b = z -> b = z2b z.
Proof. intros <-. by rewrite z2b_b2z. Qed.

Lemma be_value_put_word n v : word n v -> be_value (put_be n v) = v.
Proof. intros H. rewrite be_value_put. by apply word_mod. Qed.

(** Solves arithmetic on the lengths of concatenations. *)
Ltac len_solve := unfold len in *; rewrite ?length_app, ?length_put_be; cbn; lia.

(** The length of a piece: an integer field, an array of known length or a literal. *)
Ltac piece_len a :=
  match a with
  | put_be ?w _ => constr:(w)
  | _ => match goal with H : length a = ?k |- _ => constr:(k) end
  | _ => let k := eval cbv in (length a) in constr:(k)
  end.

(** Evaluates slices of a concatenation whose pieces have known lengths. *)
Ltac slice_eval :=
  repeat match goal with
  | |- context [slice ?off ?n (?a ++ ?b)] =>
      let k := piece_len a in
      first
        [ rewrite (slice_here a b n) by (first [assumption|apply length_put_be|reflexivity])
        | rewrite (slice_skip a b k off n)
            by (first [assumption|apply length_put_be|reflexivity|lia]); cbn [Nat.sub] ]
  end.

(** Joins adjacent slices of the same byte string back together. *)
Ltac slice_join_all :=
  repeat (rewrite slice_join_app by (reflexivity || lia));
  repeat (rewrite slice_join); cbn [Nat.add].

(** ** Loops that may throw *)

(** [for (x : l) out.push_back(f(x))]. *)
Fixpoint map_result {A B} (f : A -> result B) (l : list A) : result (list B) :=
  match l with
  | [] => Ok []
  | x :: l => let* y := f x in let* l := map_result f l in Ok (y :: l)
  end.

(** [for (x : l) acc = f(x, acc)]. *)
Fixpoint fold_result {A B} (f : A -> B -> result B) (l : list A) (acc : B) : result B :=
  match l with
  | [] => Ok acc
  | x :: l => let* acc := f x acc in fold_result f l acc
  end.

(** What a loop collects, when each iteration adds [adds x]. *)
Lemma fold_result_collects {A B C} (f : A -> B -> result B) (view : B -> C -> Prop) (adds : A -> C -> Prop) l :
  (forall x acc acc', f x acc = Ok acc' -> forall y, view acc' y <-> view acc y \/ adds x y) ->
  forall acc acc', fold_result f l acc = Ok acc' ->
  forall y, view acc' y <-> view acc y \/ exists x, x ∈ l /\ adds x y.
Proof.
  intros F. induction l as [|x l IH]; intros acc acc' H y; cbn in H.
  - apply Ok_inj in H as <-. split; [by left|]. intros [?|(x & Hx & _)]; [done|]. by apply not_elem_of_nil in Hx.
  - destruct (f x acc) as [b|] eqn:E; [|done]. rewrite (IH _ _ H), (F _ _ _ E). clear -E. split.
    + intros [[V|V]|(z & Hz & V)]; [by left|right; exists x; split; [left|done]|right; exists z; split; [by right|done]].
    + intros [V|(z & Hz & V)]; [by left; left|]. apply elem_of_cons in Hz as [->|Hz]; [by left; right|].
      right. by exists z.
Qed.

(** What every iteration of a loop that does not throw checked. *)
Lemma fold_result_checked {A B} (f : A -> B -> result B) (P : A -> Prop) l :
  (forall x acc acc', f x acc = Ok acc' -> P x) ->
  forall acc acc', fold_result f l acc = Ok acc' -> forall x, x ∈ l -> P x.
Proof.
  intros F. induction l as [|z l IH]; intros acc acc' H x Hx; [by apply not_elem_of_nil in Hx|].
  cbn in H. destruct (f z acc) as [b|] eqn:E; [|done]. apply elem_of_cons in Hx as [->|Hx]; eauto.
Qed.
