(* ===== verification/Wire.v ===== *)
(** The byte-level readers and writers the protocol codecs are built from:
    [protocol::BinaryReader]/[BinaryWriter] (include/lanlink/protocol/binary.hpp)
    and the [Reader] of src/protocol/network_messages.cpp.  A writer only ever
    appends, so a [BinaryWriter] is the byte list built so far. *)
From S2P Require Import Prelude.

(** ** [BinaryReader]: the unread span *)
Module BinaryReader.
Definition t := bytes.

Definition bytes_ (count : Z) (data : t) : result (bytes * t) :=
    if count >? len data then Throw invalid_argument
    else Ok (take (Z.to_nat count) data, drop (Z.to_nat count) data).

Definition get (w : nat) (data : t) : result (Z * t) :=
    let* (value, data) := bytes_ (Z.of_nat w) data in
    Ok (get_be w value, data).

Definition array (n : nat) (data : t) : result (bytes * t) := bytes_ (Z.of_nat n) data.

Definition finish (data : t) : result unit :=
    match data with [] => Ok tt | _ => Throw invalid_argument end.

Lemma bytes_app a rest n : n = len a -> bytes_ n (a ++ rest) = Ok (a, rest).
Proof.
    intros ->. unfold bytes_, len. rewrite length_app.
    destruct (Z.gtb_spec (Z.of_nat (length a)) (Z.of_nat (length a + length rest))); [lia|].
    rewrite Nat2Z.id, take_app_length, drop_app_length. reflexivity.
Qed.

Lemma array_app a rest n : length a = n -> array n (a ++ rest) = Ok (a, rest).
Proof. intros H. apply bytes_app. unfold len. lia. Qed.

Lemma get_app w v rest : word w v -> get w (put_be w v ++ rest) = Ok (v, rest).
Proof.
    intros H. unfold get. rewrite bytes_app by (unfold len; rewrite length_put_be; lia).
    by rewrite get_put_be.
Qed.

Lemma bytes_inv n data a r :
    bytes_ n data = Ok (a, r) -> data = a ++ r /\ (0 <= n -> len a = n).
Proof.
    unfold bytes_. destruct (Z.gtb_spec n (len data)) as [|Hle]; [discriminate|].
    intros H. injection H as <- <-. split; [symmetry; apply take_drop|].
    intros Hn. unfold len in *. rewrite length_take. lia.
Qed.

Lemma array_inv n data a r : array n data = Ok (a, r) -> data = a ++ r /\ length a = n.
Proof.
    intros H. apply bytes_inv in H as [-> H]. split; [done|]. unfold len in H. lia.
Qed.

Lemma get_inv w data v r :
    get w data = Ok (v, r) -> data = put_be w v ++ r /\ word w v.
Proof.
    unfold get. destruct (bytes_ _ _) as [[a r']|] eqn:E; [|discriminate].
    intros H. injection H as <- <-. apply bytes_inv in E as [-> Hl]. unfold len in Hl.
    assert (length a = w) by lia. split; [by rewrite put_get_be|by apply word_get_be].
Qed.

(** [for (i < n) result.push_back(f(reader))]. *)
Fixpoint read_n {A} (n : nat) (f : t -> result (A * t)) (data : t) : result (list A * t) :=
  match n with
  | O => Ok ([], data)
  | S n =>
      let* (a, data) := f data in
      let* (l, data) := read_n n f data in
      Ok (a :: l, data)
  end.

Lemma read_n_app {A} (f : t -> result (A * t)) (g : A -> bytes) l rest :
  (forall a rest, a ∈ l -> f (g a ++ rest) = Ok (a, rest)) ->
  read_n (length l) f (concat (map g l) ++ rest) = Ok (l, rest).
Proof.
  induction l as [|a l IH]; intros H; [done|]. cbn [map concat length read_n].
  rewrite <- app_assoc, H by left. rewrite IH; [done|]. intros b r Hb. apply H. by right.
Qed.

Lemma read_n_inv {A} (f : t -> result (A * t)) (g : A -> bytes) (P : A -> Prop) :
  (forall data a r, f data = Ok (a, r) -> data = g a ++ r /\ P a) ->
  forall n data l r, read_n n f data = Ok (l, r) ->
  data = concat (map g l) ++ r /\ length l = n /\ Forall P l.
Proof.
  intros H. induction n as [|n IH]; intros data l r E; cbn [read_n] in E.
  { apply Ok_inj in E. by injection E as <- <-. }
  destruct (f data) as [[a d1]|] eqn:E1; [|done]. destruct (read_n n f d1) as [[l' d2]|] eqn:E2; [|done].
  apply Ok_inj in E. injection E as <- <-. apply H in E1 as [-> Pa].
  apply IH in E2 as (-> & <- & Pl). cbn [map concat length]. rewrite <- app_assoc. auto.
Qed.

(** The same for fields whose writer may refuse a value. *)
Lemma read_n_put {A} (f : t -> result (A * t)) (g : A -> result bytes) (P : A -> Prop) :
  (forall a bs rest, P a -> g a = Ok bs -> f (bs ++ rest) = Ok (a, rest)) ->
  forall l bs rest, Forall P l -> map_result g l = Ok bs -> read_n (length l) f (concat bs ++ rest) = Ok (l, rest).
Proof.
  intros H l. induction l as [|a l IH]; intros bs rest F E; cbn [map_result] in E; ok_inv E; subst bs; [done|].
  apply Forall_cons in F as [Pa F]. cbn [concat length read_n]. rewrite <- app_assoc.
  rewrite (H a _ _ Pa E0). by rewrite (IH _ _ F E1).
Qed.

Lemma read_n_put_inv {A} (f : t -> result (A * t)) (g : A -> result bytes) (P : A -> Prop) :
  (forall data a r, f data = Ok (a, r) -> P a /\ forall bs, g a = Ok bs -> data = bs ++ r) ->
  forall n data l r, read_n n f data = Ok (l, r) ->
  length l = n /\ Forall P l /\ forall bs, map_result g l = Ok bs -> data = concat bs ++ r.
Proof.
  intros H n. induction n as [|n IH]; intros data l r E; cbn [read_n] in E; ok_inv E; injection E as <- <-.
  { split; [done|]. split; [constructor|]. intros bs E. cbn in E. by apply Ok_inj in E as <-. }
  apply H in E0 as [Pa D]. apply IH in E1 as (<- & F & G). split; [done|]. split; [by constructor|].
  intros bs E. cbn [map_result] in E. ok_inv E. subst bs. cbn [concat]. rewrite <- app_assoc. rewrite (D _ E0). f_equal. by apply G.
Qed.

Lemma finish_inv data : finish data = Ok tt -> data = [].
Proof. by destruct data. Qed.
End BinaryReader.

(** ** [Reader]: a payload and an offset into it *)
Module Reader.
Record t := mk { payload_ : bytes; offset_ : Z }.

Definition init (payload : bytes) : t := mk payload 0.

Definition require (size : Z) (r : t) : result unit :=
    if size >? len (payload_ r) - offset_ r then Throw runtime_error else Ok tt.

Definition window (size : Z) (r : t) : bytes :=
    take (Z.to_nat size) (drop (Z.to_nat (offset_ r)) (payload_ r)).

Definition read_integer (w : nat) (r : t) : result (Z * t) :=
    let* _ := require (Z.of_nat w) r in
    Ok (get_be w (window (Z.of_nat w) r), mk (payload_ r) (offset_ r + Z.of_nat w)).

Definition read_array (n : nat) (r : t) : result (bytes * t) :=
    let* _ := require (Z.of_nat n) r in
    Ok (window (Z.of_nat n) r, mk (payload_ r) (offset_ r + Z.of_nat n)).

Definition read_string (size : Z) (r : t) : result (bytes * t) :=
    let* _ := require size r in
    if size =? 0 then Ok ([], r)
    else Ok (window size r, mk (payload_ r) (offset_ r + size)).

Definition remaining (r : t) : bytes := drop (Z.to_nat (offset_ r)) (payload_ r).

Definition require_finished (r : t) : result unit :=
    if negb (offset_ r =? len (payload_ r)) then Throw runtime_error else Ok tt.

(** [reads r bs]: the offset is inside the payload and [bs] is unread. *)
Definition reads (r : t) (bs : bytes) : Prop :=
    0 <= offset_ r <= len (payload_ r) /\ remaining r = bs.

Lemma reads_init bs : reads (init bs) bs.
Proof. split; [cbn; pose proof (len_nonneg bs); lia|reflexivity]. Qed.

Lemma reads_len r bs : reads r bs -> len bs = len (payload_ r) - offset_ r.
Proof. intros [H <-]. unfold remaining, len in *. rewrite length_drop. lia. Qed.

Lemma window_take r bs n : reads r bs -> window n r = take (Z.to_nat n) bs.
Proof. intros [_ <-]. reflexivity. Qed.

Lemma reads_advance r bs n :
    reads r bs -> 0 <= n <= len bs ->
    reads (mk (payload_ r) (offset_ r + n)) (drop (Z.to_nat n) bs).
Proof.
    intros H Hn. pose proof (reads_len r bs H) as L. destruct H as [Ho <-].
    split; cbn; [lia|]. unfold remaining. cbn. rewrite drop_drop. f_equal. lia.
Qed.

Lemma require_spec r bs n :
    reads r bs -> require n r = if n >? len bs then Throw runtime_error else Ok tt.
Proof. intros H. unfold require. by rewrite (reads_len r bs H). Qed.

Lemma read_array_app r a rest n :
    reads r (a ++ rest) -> length a = n ->
    exists r', read_array n r = Ok (a, r') /\ reads r' rest.
Proof.
    intros H Hl. unfold read_array. rewrite (require_spec _ _ _ H), len_app.
    assert (len a = Z.of_nat n) by (unfold len; lia). pose proof (len_nonneg rest).
    destruct (Z.gtb_spec (Z.of_nat n) (len a + len rest)); [lia|].
    eexists. split; [rewrite (window_take _ _ _ H), Nat2Z.id, take_app_len by done; reflexivity|].
    pose proof (reads_advance _ _ (Z.of_nat n) H) as A. rewrite len_app in A.
    rewrite Nat2Z.id, drop_app_len in A by done. apply A. lia.
Qed.

Lemma read_integer_array w r :
    read_integer w r = let* (a, r') := read_array w r in Ok (get_be w a, r').
Proof. unfold read_integer, read_array. by destruct (require _ r). Qed.

Lemma read_integer_app r w v rest :
    reads r (put_be w v ++ rest) -> word w v ->
    exists r', read_integer w r = Ok (v, r') /\ reads r' rest.
Proof.
    intros H Hw. destruct (read_array_app _ _ _ w H (length_put_be w v)) as (r' & E & R).
    exists r'. split; [|done]. by rewrite read_integer_array, E, get_put_be.
Qed.

Lemma read_string_array n r bs :
    reads r bs -> 0 <= n -> read_string n r = read_array (Z.to_nat n) r.
Proof.
    intros H Hn. unfold read_string, read_array. rewrite Z2Nat.id by done.
    destruct (require n r); [|done]. destruct (Z.eqb_spec n 0) as [->|]; [|done].
    unfold window. rewrite Z.add_0_r. destruct r. reflexivity.
Qed.

Lemma read_string_app r a rest n :
    reads r (a ++ rest) -> n = len a ->
    exists r', read_string n r = Ok (a, r') /\ reads r' rest.
Proof.
    intros H ->. rewrite (read_string_array _ _ _ H) by apply len_nonneg.
    apply read_array_app; [done|]. unfold len. lia.
Qed.

Lemma read_array_inv r bs n a r' :
    reads r bs -> read_array n r = Ok (a, r') ->
    exists rest, bs = a ++ rest /\ length a = n /\ reads r' rest.
Proof.
    intros H. unfold read_array. rewrite (require_spec _ _ _ H).
    destruct (Z.gtb_spec (Z.of_nat n) (len bs)) as [|Hle]; [discriminate|].
    intros E. injection E as <- <-. exists (drop n bs).
    rewrite (window_take _ _ _ H), Nat2Z.id. split; [symmetry; apply take_drop|].
    split; [unfold len in Hle; rewrite length_take; lia|].
    pose proof (reads_advance _ _ (Z.of_nat n) H ltac:(lia)) as A. by rewrite Nat2Z.id in A.
Qed.

Lemma read_integer_inv r bs w v r' :
    reads r bs -> read_integer w r = Ok (v, r') ->
    exists rest, bs = put_be w v ++ rest /\ word w v /\ reads r' rest.
Proof.
    intros H. rewrite read_integer_array.
    destruct (read_array w r) as [[a r1]|] eqn:E; [|discriminate]. intros X. injection X as <- <-.
    destruct (read_array_inv _ _ _ _ _ H E) as (rest & -> & Hl & R).
    exists rest. rewrite put_get_be by done. eauto using word_get_be.
Qed.

Lemma read_string_inv r bs n a r' :
    reads r bs -> 0 <= n -> read_string n r = Ok (a, r') ->
    exists rest, bs = a ++ rest /\ len a = n /\ reads r' rest.
Proof.
    intros H Hn. rewrite (read_string_array _ _ _ H Hn). intros E.
    destruct (read_array_inv _ _ _ _ _ H E) as (rest & -> & Hl & R).
    exists rest. split; [done|]. split; [unfold len; lia|done].
Qed.

Lemma require_finished_spec r bs :
    reads r bs -> require_finished r = match bs with [] => Ok tt | _ => Throw runtime_error end.
Proof.
    intros H. pose proof (reads_len _ _ H) as L. unfold require_finished.
    destruct bs as [|b bs].
    - rewrite len_nil in L. destruct (Z.eqb_spec (offset_ r) (len (payload_ r))); [done|]. lia.
    - rewrite len_cons in L. pose proof (len_nonneg bs).
      destruct (Z.eqb_spec (offset_ r) (len (payload_ r))); [lia|done].
Qed.

Lemma require_finished_inv r bs u : reads r bs -> require_finished r = Ok u -> bs = [].
Proof. intros H. rewrite (require_finished_spec _ _ H). by destruct bs. Qed.

Lemma remaining_reads r bs : reads r bs -> remaining r = bs.
Proof. by intros []. Qed.
End Reader.

(** ** Automation for decoders *)

(** One forward step of a [Reader] decoder over a payload in encoded form. *)
Ltac rd_step :=
  match goal with
  | H : Reader.reads ?r (?a ++ ?rest) |- context [Reader.read_array ?n ?r] =>
      let r' := fresh "r" in let E := fresh "E" in let H' := fresh "R" in
      destruct (Reader.read_array_app r a rest n H) as (r' & E & H');
      [auto with wire|rewrite E; clear E H; cbv beta iota]
  | H : Reader.reads ?r (put_be ?w ?v ++ ?rest) |- context [Reader.read_integer ?w ?r] =>
      let r' := fresh "r" in let E := fresh "E" in let H' := fresh "R" in
      destruct (Reader.read_integer_app r w v rest H) as (r' & E & H');
      [auto with wire|rewrite E; clear E H; cbv beta iota]
  | H : Reader.reads ?r (?a ++ ?rest) |- context [Reader.read_string ?n ?r] =>
      let r' := fresh "r" in let E := fresh "E" in let H' := fresh "R" in
      destruct (Reader.read_string_app r a rest n H) as (r' & E & H');
      [auto with wire|rewrite E; clear E H; cbv beta iota]
  | H : Reader.reads ?r ?bs |- context [Reader.require_finished ?r] =>
      rewrite (Reader.require_finished_spec r bs H); cbv beta iota
  end.

(** One backward step: what a successful read says about the payload. *)
Ltac rd_inv_step :=
  match goal with
  | H : Reader.reads ?r ?bs, E : Reader.read_array ?n ?r = Ok (_, _) |- _ =>
      let rest := fresh "rest" in
      destruct (Reader.read_array_inv _ _ _ _ _ H E) as (rest & ? & ? & ?); clear E H; subst bs
  | H : Reader.reads ?r ?bs, E : Reader.read_integer ?n ?r = Ok (_, _) |- _ =>
      let rest := fresh "rest" in
      destruct (Reader.read_integer_inv _ _ _ _ _ H E) as (rest & ? & ? & ?); clear E H; subst bs
  | H : Reader.reads ?r ?bs, E : Reader.read_string ?n ?r = Ok (_, _), W : word _ ?n |- _ =>
      let rest := fresh "rest" in
      destruct (Reader.read_string_inv _ _ _ _ _ H (proj1 W) E) as (rest & ? & ? & ?); clear E H; subst bs
  | H : Reader.reads ?r ?bs, E : Reader.require_finished ?r = Ok _ |- _ =>
      pose proof (Reader.require_finished_inv _ _ _ H E); clear E H; subst bs
  | E : BinaryReader.array _ _ = Ok (_, _) |- _ =>
      apply BinaryReader.array_inv in E as [? ?]
  | E : BinaryReader.get _ _ = Ok (_, _) |- _ =>
      apply BinaryReader.get_inv in E as [? ?]
  | E : BinaryReader.finish _ = Ok _ |- _ =>
      let u := fresh in destruct (BinaryReader.finish _) as [u|] eqn:?; [destruct u|discriminate E]
  end.

Create HintDb wire.
#[export] Hint Resolve length_put_be word_be_value word_get_be len_nonneg Reader.reads_init : wire.
#[export] Hint Extern 1 (word _ _) => (unfold word; cbn; lia) : wire.
#[export] Hint Extern 2 (_ = len _) => (unfold len; lia) : wire.

Lemma app_tail_nil {A} (a b : list A) : a ++ b = a ++ b ++ [].
Proof. by rewrite app_nil_r. Qed.

(** ** Automation for [BinaryReader] decoders *)

(** Turns every successful read in the context into the shape of the data it read. *)
Ltac br_inv :=
  repeat match goal with
  | E : BinaryReader.get _ ?d = Ok (_, _) |- _ => apply BinaryReader.get_inv in E as [-> ?]
  | E : BinaryReader.array _ ?d = Ok (_, _) |- _ => apply BinaryReader.array_inv in E as [-> ?]
  | E : BinaryReader.finish ?d = Ok ?u |- _ => destruct u; apply BinaryReader.finish_inv in E as ->
  end.

(** Reads the fields at the head of a concatenation of well-typed fields. *)
Ltac br_read :=
  repeat first
    [ rewrite BinaryReader.get_app by (first [assumption | words; lia])
    | rewrite BinaryReader.array_app by (first [assumption | reflexivity]) ].
