(* ===== verification/Codec.v ===== *)
(** The wire frame: [MessageType], [Frame], [encode_frame] and [decode_frame]
    (include/lanlink/protocol/message.hpp, codec.hpp, src/protocol/codec.cpp). *)
From S2P Require Import Prelude.

(** ** Message types *)

(** The enumerators of [MessageType]; [unassigned_type raw] is a value of the
    underlying [uint16_t] that has no enumerator, as a [static_cast] can build. *)
Inductive MessageType :=
| client_hello | server_hello | heartbeat | heartbeat_ack | disconnect | client_auth | auth_result
| network_create_request | network_list_request | network_join_request | network_leave_request
| network_invite_request | network_approve_request | network_kick_request
| network_peer_state_request | network_key_publish_request
| peer_candidates_send | user_access_request | network_management_request | relay_health_request
| relay_health_result | network_management_result | user_access_result
| peer_candidates_forward | peer_candidates_ack | network_packet_send
| network_operation_result | network_list_result | network_event
| network_peer_state_result | network_peer_state_update | network_peer_state_revoked
| network_key_envelope | network_packet_forward | error
| unassigned_type (raw : Z).

#[global] Instance MessageType_eq_dec : EqDecision MessageType.
Proof. solve_decision. Defined.

(** [static_cast<std::uint16_t>(type)]. *)
Definition message_type_value (t : MessageType) : Z :=
  match t with
  | client_hello => 0x0001 | server_hello => 0x0002 | heartbeat => 0x0003
  | heartbeat_ack => 0x0004 | disconnect => 0x0005 | client_auth => 0x0006 | auth_result => 0x0007
  | network_create_request => 0x0100 | network_list_request => 0x0101
  | network_join_request => 0x0102 | network_leave_request => 0x0103
  | network_invite_request => 0x0104 | network_approve_request => 0x0105
  | network_kick_request => 0x0106 | network_peer_state_request => 0x0107
  | network_key_publish_request => 0x0108 | peer_candidates_send => 0x010a
  | user_access_request => 0x010b | network_management_request => 0x010c
  | relay_health_request => 0x010d | relay_health_result => 0x018c
  | network_management_result => 0x018b | user_access_result => 0x018a
  | peer_candidates_forward => 0x0188 | peer_candidates_ack => 0x0189
  | network_packet_send => 0x0109 | network_operation_result => 0x0180
  | network_list_result => 0x0181 | network_event => 0x0182
  | network_peer_state_result => 0x0183 | network_peer_state_update => 0x0184
  | network_peer_state_revoked => 0x0185 | network_key_envelope => 0x0186
  | network_packet_forward => 0x0187 | error => 0x00ff
  | unassigned_type raw => raw
  end.

(** [static_cast<MessageType>(raw_type)]. *)
Definition message_type_cast (raw : Z) : MessageType :=
  match raw with
  | 0x0001 => client_hello | 0x0002 => server_hello | 0x0003 => heartbeat
  | 0x0004 => heartbeat_ack | 0x0005 => disconnect | 0x0006 => client_auth | 0x0007 => auth_result
  | 0x0100 => network_create_request | 0x0101 => network_list_request
  | 0x0102 => network_join_request | 0x0103 => network_leave_request
  | 0x0104 => network_invite_request | 0x0105 => network_approve_request
  | 0x0106 => network_kick_request | 0x0107 => network_peer_state_request
  | 0x0108 => network_key_publish_request | 0x010a => peer_candidates_send
  | 0x010b => user_access_request | 0x010c => network_management_request
  | 0x010d => relay_health_request | 0x018c => relay_health_result
  | 0x018b => network_management_result | 0x018a => user_access_result
  | 0x0188 => peer_candidates_forward | 0x0189 => peer_candidates_ack
  | 0x0109 => network_packet_send | 0x0180 => network_operation_result
  | 0x0181 => network_list_result | 0x0182 => network_event
  | 0x0183 => network_peer_state_result | 0x0184 => network_peer_state_update
  | 0x0185 => network_peer_state_revoked | 0x0186 => network_key_envelope
  | 0x0187 => network_packet_forward | 0x00ff => error
  | _ => unassigned_type raw
  end.

Definition is_known_message_type (t : MessageType) : bool :=
  match t with unassigned_type _ => false | _ => true end.

Definition message_type_name (t : MessageType) : string :=
  match t with
  | relay_health_request => "relay_health_request" | relay_health_result => "relay_health_result"
  | network_management_request => "network_management_request"
  | network_management_result => "network_management_result"
  | user_access_request => "user_access_request" | user_access_result => "user_access_result"
  | peer_candidates_send => "peer_candidates_send"
  | peer_candidates_forward => "peer_candidates_forward"
  | peer_candidates_ack => "peer_candidates_ack"
  | client_hello => "client_hello" | server_hello => "server_hello" | heartbeat => "heartbeat"
  | heartbeat_ack => "heartbeat_ack" | disconnect => "disconnect" | client_auth => "client_auth"
  | auth_result => "auth_result" | network_create_request => "network_create_request"
  | network_list_request => "network_list_request" | network_join_request => "network_join_request"
  | network_leave_request => "network_leave_request"
  | network_invite_request => "network_invite_request"
  | network_approve_request => "network_approve_request"
  | network_kick_request => "network_kick_request"
  | network_peer_state_request => "network_peer_state_request"
  | network_key_publish_request => "network_key_publish_request"
  | network_packet_send => "network_packet_send"
  | network_operation_result => "network_operation_result"
  | network_list_result => "network_list_result" | network_event => "network_event"
  | network_peer_state_result => "network_peer_state_result"
  | network_peer_state_update => "network_peer_state_update"
  | network_peer_state_revoked => "network_peer_state_revoked"
  | network_key_envelope => "network_key_envelope"
  | network_packet_forward => "network_packet_forward" | error => "error"
  | unassigned_type _ => "unknown"
  end.

(** ** Frames *)

Definition frame_magic : bytes := [x4c; x4e; x4c; x4b].
Definition protocol_version : Z := 5.
Definition frame_header_size : Z := 16.
Definition max_payload_size : Z := 1024 * 1024.

Record Frame := mk_frame { type_ : MessageType; request_id : Z; payload : bytes }.

#[global] Instance Frame_eq_dec : EqDecision Frame.
Proof. solve_decision. Defined.

(** The C++ types of the fields: [request_id] is a [uint32_t]. *)
Definition wf_frame (f : Frame) : Prop := word 4 (request_id f).

Definition encode_frame (f : Frame) : result bytes :=
  check! is_known_message_type (type_ f) else invalid_argument in
  check! negb ((len (payload f) >? max_payload_size) || (len (payload f) >? 2 ^ 32 - 1))
    else length_error in
  Ok (frame_magic ++ put_be 2 protocol_version ++ put_be 2 (message_type_value (type_ f)) ++
      put_be 4 (request_id f) ++ put_be 4 (len (payload f)) ++ payload f).

Inductive DecodeStatus :=
| complete | need_more_data | invalid_magic | unsupported_version
| unknown_message_type | payload_too_large.

#[global] Instance DecodeStatus_eq_dec : EqDecision DecodeStatus.
Proof. solve_decision. Defined.

Record DecodeResult :=
  mk_decode { status : DecodeStatus; frame : option Frame; consumed : Z; required : Z }.

Definition decode_frame (bs : bytes) : DecodeResult :=
  if len bs <? frame_header_size then mk_decode need_more_data None 0 frame_header_size
  else if negb (bool_decide (take 4 bs = frame_magic)) then mk_decode invalid_magic None 0 0
  else if negb (get_at 2 bs 4 2 =? protocol_version) then mk_decode unsupported_version None 0 0
  else
    let type := message_type_cast (get_at 2 bs 6 2) in
    if negb (is_known_message_type type) then mk_decode unknown_message_type None 0 0
    else
      let request_id := get_at 4 bs 8 4 in
      let payload_size := get_at 4 bs 12 4 in
      if payload_size >? max_payload_size then mk_decode payload_too_large None 0 0
      else
        let total_size := frame_header_size + payload_size in
        if len bs <? total_size then mk_decode need_more_data None 0 total_size
        else
          mk_decode complete
            (Some (mk_frame type request_id (take (Z.to_nat payload_size) (drop 16 bs))))
            total_size total_size.

Definition decode_status_name (s : DecodeStatus) : string :=
  match s with
  | complete => "complete" | need_more_data => "need_more_data" | invalid_magic => "invalid_magic"
  | unsupported_version => "unsupported_version" | unknown_message_type => "unknown_message_type"
  | payload_too_large => "payload_too_large"
  end.

(** ** Lemmas *)

Lemma message_type_cast_value t : is_known_message_type t = true -> message_type_cast (message_type_value t) = t.
Proof. destruct t; by try discriminate. Qed.

Lemma message_type_value_cast raw : message_type_value (message_type_cast raw) = raw.
Proof.
  destruct raw as [|p|p]; try reflexivity.
  do 9 (try (destruct p as [p|p|]; try reflexivity)).
Qed.

Lemma message_type_value_word t : is_known_message_type t = true -> word 2 (message_type_value t).
Proof. unfold word. destruct t; try discriminate; cbn; lia. Qed.

(** The 16-byte header as five fields. *)
Definition header (ty rid size : Z) : bytes :=
  frame_magic ++ put_be 2 protocol_version ++ put_be 2 ty ++ put_be 4 rid ++ put_be 4 size.

Lemma length_header ty rid size : length (header ty rid size) = 16%nat.
Proof. reflexivity. Qed.

Lemma len_header ty rid size : len (header ty rid size) = 16.
Proof. reflexivity. Qed.

(** What [decode_frame] reads from a buffer that starts with a header. *)
Lemma decode_frame_header ty rid size body :
  word 2 ty -> word 4 rid -> word 4 size ->
  decode_frame (header ty rid size ++ body) =
    if negb (is_known_message_type (message_type_cast ty)) then mk_decode unknown_message_type None 0 0
    else if size >? max_payload_size then mk_decode payload_too_large None 0 0
    else if len body <? size then mk_decode need_more_data None 0 (16 + size)
    else mk_decode complete (Some (mk_frame (message_type_cast ty) rid (take (Z.to_nat size) body)))
           (16 + size) (16 + size).
Proof.
  intros Ht Hr Hs. unfold decode_frame.
  assert (L : len (header ty rid size ++ body) = 16 + len body).
  { rewrite len_app. unfold len. rewrite length_header. reflexivity. }
  pose proof (len_nonneg body). rewrite L.
  guard_false by (apply Z.ltb_ge; unfold frame_header_size; lia).
  change (take 4 (header ty rid size ++ body)) with frame_magic. rewrite bool_decide_true by done. cbn [negb].
  assert (G : forall pre field post w off count,
    header ty rid size = pre ++ field ++ post -> off = length pre -> count = length field -> (count <= w)%nat ->
    get_at w (header ty rid size ++ body) off count = be_value field).
  { intros pre field post w off count -> ? ? Hw. rewrite <- !app_assoc. by apply get_at_app. }
  rewrite (G frame_magic (put_be 2 5) (put_be 2 ty ++ put_be 4 rid ++ put_be 4 size) 2%nat 4%nat 2%nat)
    by (done || cbn; lia).
  change (be_value (put_be 2 5)) with 5. cbn [negb Z.eqb Pos.eqb protocol_version].
  rewrite (G (frame_magic ++ put_be 2 5) (put_be 2 ty) (put_be 4 rid ++ put_be 4 size) 2%nat 6%nat 2%nat)
    by (done || cbn; lia).
  rewrite (G (frame_magic ++ put_be 2 5 ++ put_be 2 ty) (put_be 4 rid) (put_be 4 size) 4%nat 8%nat 4%nat)
    by (done || cbn; lia).
  rewrite (G (frame_magic ++ put_be 2 5 ++ put_be 2 ty ++ put_be 4 rid) (put_be 4 size) [] 4%nat 12%nat 4%nat)
    by (rewrite ?app_nil_r; done || cbn; lia).
  rewrite !be_value_put, !word_mod by done.
  destruct (negb (is_known_message_type _)); [done|]. destruct (size >? max_payload_size); [done|].
  unfold frame_header_size. replace (16 + len body <? 16 + size) with (len body <? size)
    by (destruct (Z.ltb_spec (len body) size), (Z.ltb_spec (16 + len body) (16 + size)); lia || done).
  reflexivity.
Qed.

(** Every buffer of at least 16 bytes either misses the magic or version or starts with a header. *)
Lemma header_split bs :
  16 <= len bs -> take 4 bs = frame_magic -> get_at 2 bs 4 2 = protocol_version ->
  exists ty rid size body, bs = header ty rid size ++ body /\ word 2 ty /\ word 4 rid /\ word 4 size.
Proof.
  intros L M V. unfold len in L.
  do 16 (destruct bs as [|? bs]; [cbn in L; lia|]). clear L.
  cbn [take] in M. unfold frame_magic in M. injection M as -> -> -> ->.
  rewrite get_at_value in V by (cbn; lia). cbn [take drop] in V.
  match type of V with context [be_value [?a; ?b]] =>
    pose proof (put_be_value 2 [a; b] eq_refl) as P; rewrite V in P end.
  match goal with |- context [x4b :: ?v1 :: ?v2 :: ?t1 :: ?t2 :: ?r1 :: ?r2 :: ?r3 :: ?r4 :: ?s1 :: ?s2 :: ?s3 :: ?s4 :: ?rest] =>
    exists (be_value [t1; t2]), (be_value [r1; r2; r3; r4]), (be_value [s1; s2; s3; s4]), rest;
    split; [|split; [by apply word_be_value|split; by apply word_be_value]] end.
  unfold header. rewrite !put_be_value by done. rewrite P. reflexivity.
Qed.

Lemma decode_short bs : len bs < 16 -> decode_frame bs = mk_decode need_more_data None 0 16.
Proof. intros H. unfold decode_frame. guard_true by (apply Z.ltb_lt; exact H). reflexivity. Qed.

Lemma encode_frame_ok f bs :
  encode_frame f = Ok bs ->
  is_known_message_type (type_ f) = true /\ len (payload f) <= max_payload_size /\
  bs = header (message_type_value (type_ f)) (request_id f) (len (payload f)) ++ payload f.
Proof.
  unfold encode_frame. intros H. ok_inv H. bool_prop.
  split; [done|]. split; [lia|]. subst bs. unfold header. by rewrite <- !app_assoc.
Qed.

(** Encoding is total on known types and small payloads. *)
Lemma encode_frame_total f :
  is_known_message_type (type_ f) = true -> len (payload f) <= max_payload_size ->
  encode_frame f = Ok (header (message_type_value (type_ f)) (request_id f) (len (payload f)) ++ payload f).
Proof.
  intros Hk Hl. unfold encode_frame. rewrite Hk.
  guard_true by (apply negb_true_iff, orb_false_iff; unfold max_payload_size in *;
                 split; rewrite Z.gtb_ltb; apply Z.ltb_ge; lia).
  unfold header. by rewrite <- !app_assoc.
Qed.

Lemma decode_encoded f bs rest :
  wf_frame f -> encode_frame f = Ok bs ->
  decode_frame (bs ++ rest) = mk_decode complete (Some f) (len bs) (len bs).
Proof.
  intros Hw H. apply encode_frame_ok in H as (Hk & Hl & ->).
  pose proof (len_nonneg (payload f)). unfold max_payload_size in Hl.
  rewrite <- app_assoc, decode_frame_header;
    [|by apply message_type_value_word|done|unfold word; cbn; lia].
  rewrite message_type_cast_value, Hk by done. cbn [negb].
  guard_false by (rewrite Z.gtb_ltb; apply Z.ltb_ge; unfold max_payload_size; lia).
  guard_false by (rewrite len_app; pose proof (len_nonneg rest); apply Z.ltb_ge; lia).
  rewrite take_app_len by (unfold len; lia).
  assert (E : len (header (message_type_value (type_ f)) (request_id f) (len (payload f)) ++ payload f)
              = 16 + len (payload f)) by (rewrite len_app; unfold len; rewrite length_header; lia).
  rewrite E. by destruct f.
Qed.

(** The cases of [decode_frame], with the shape of the buffer in each of them. *)
Lemma decode_cases bs d :
  decode_frame bs = d ->
  match status d with
  | complete =>
      exists f body rest, d = mk_decode complete (Some f) (16 + len body) (16 + len body) /\
        wf_frame f /\ payload f = body /\ encode_frame f = Ok (header (message_type_value (type_ f)) (request_id f) (len body) ++ body) /\
        bs = (header (message_type_value (type_ f)) (request_id f) (len body) ++ body) ++ rest
  | need_more_data =>
      len bs < required d <= 16 + max_payload_size /\ frame d = None /\ consumed d = 0
  | _ => frame d = None /\ consumed d = 0 /\ 16 <= len bs
  end.
Proof.
  intros <-. destruct (Z.lt_ge_cases (len bs) 16) as [Hs|Hs].
  { rewrite decode_short by done. cbn. unfold max_payload_size. split_and!; done || lia. }
  destruct (decide (take 4 bs = frame_magic)) as [M|M];
    [destruct (decide (get_at 2 bs 4 2 = protocol_version)) as [V|V]|].
  - destruct (header_split bs Hs M V) as (ty & rid & size & body & -> & Ht & Hr & Hz).
    rewrite decode_frame_header by done.
    destruct (is_known_message_type (message_type_cast ty)) eqn:K; [|done]. cbn [negb].
    destruct (Z.gtb_spec size max_payload_size) as [|Hm]; [done|].
    unfold word in Hz. cbn in Hz.
    destruct (Z.ltb_spec (len body) size) as [Hb|Hb].
    + cbn [status required frame consumed]. split; [|done]. rewrite len_app.
      unfold len at 1. rewrite length_header. unfold max_payload_size in *. lia.
    + cbn [status]. set (p := take (Z.to_nat size) body).
      assert (Lp : len p = size) by (unfold p, len in *; rewrite length_take; lia).
      exists (mk_frame (message_type_cast ty) rid p), p, (drop (Z.to_nat size) body).
      cbn [type_ request_id payload]. rewrite message_type_value_cast, Lp.
      split; [done|]. split; [done|]. split; [done|]. split.
      * rewrite encode_frame_total; cbn [type_ request_id payload]; [|done|lia].
        by rewrite message_type_value_cast, Lp.
      * rewrite <- app_assoc. unfold p. by rewrite take_drop.
  - unfold decode_frame. guard_false by (apply Z.ltb_ge; exact Hs).
    rewrite bool_decide_true by done. cbn [negb].
    guard_true by (apply negb_true_iff, Z.eqb_neq; exact V). done.
  - unfold decode_frame. guard_false by (apply Z.ltb_ge; exact Hs).
    rewrite bool_decide_false by done. done.
Qed.

(** A buffer that is already rejected stays rejected when more bytes arrive. *)
Lemma decode_error_stable bs rest :
  status (decode_frame bs) <> need_more_data ->
  status (decode_frame (bs ++ rest)) = status (decode_frame bs).
Proof.
  intros Hn. destruct (Z.lt_ge_cases (len bs) 16) as [Hs|Hs].
  { by rewrite decode_short in Hn. }
  assert (L4 : take 4 (bs ++ rest) = take 4 bs) by (apply take_app_le; unfold len in Hs; lia).
  assert (G4 : get_at 2 (bs ++ rest) 4 2 = get_at 2 bs 4 2).
  { unfold len in Hs. rewrite !get_at_value by (rewrite ?length_app; lia).
    rewrite drop_app_le, take_app_le by (rewrite ?length_drop; lia). done. }
  pose proof (len_nonneg rest).
  destruct (decide (take 4 bs = frame_magic)) as [M|M];
    [destruct (decide (get_at 2 bs 4 2 = protocol_version)) as [V|V]|].
  - destruct (header_split bs Hs M V) as (ty & rid & size & body & -> & Ht & Hr & Hz).
    rewrite <- app_assoc. rewrite !decode_frame_header by done. rewrite decode_frame_header in Hn by done.
    destruct (negb _); [done|]. destruct (size >? max_payload_size); [done|].
    destruct (Z.ltb_spec (len body) size); [done|].
    guard_false by (apply Z.ltb_ge; rewrite len_app; lia). done.
  - unfold decode_frame. do 2 (guard_false by (apply Z.ltb_ge; rewrite ?len_app; unfold frame_header_size; lia)).
    rewrite L4, G4. rewrite !bool_decide_true by done. cbn [negb].
    guard_true by (apply negb_true_iff, Z.eqb_neq; exact V). done.
  - unfold decode_frame. do 2 (guard_false by (apply Z.ltb_ge; rewrite ?len_app; unfold frame_header_size; lia)).
    rewrite L4. rewrite !bool_decide_false by done. done.
Qed.

(** ** Correctness of the frame codec *)

(** [decode_frame] accepts exactly the encodings of well-typed frames: it
    completes with frame [f] after [n] bytes if and only if the first [n] bytes
    of the buffer are what [encode_frame] produces for [f].  This is the round
    trip in both directions: encoding then decoding gives the frame back whatever
    follows it, and no second byte string decodes to the same frame. *)
Lemma decode_frame_exact (bs : bytes) (f : Frame) (n : Z) :
  decode_frame bs = mk_decode complete (Some f) n n <->
  wf_frame f /\ n = len (take (Z.to_nat n) bs) /\ encode_frame f = Ok (take (Z.to_nat n) bs).
Proof.
  split.
  - intros H. pose proof (decode_cases _ _ H) as (f' & body & rest & E & Hw & Hp & He & ->).
    injection E as <- -> _. set (w := header _ _ _ ++ body) in *.
    assert (L : len w = 16 + len body) by (unfold w; rewrite len_app; unfold len; rewrite length_header; lia).
    rewrite take_app_len by (unfold len in *; lia). auto.
  - intros (Hw & Hn & He). rewrite <- (take_drop (Z.to_nat n) bs) at 1.
    rewrite (decode_encoded f _ _ Hw He), <- Hn. reflexivity.
Qed.
