(* ===== verification/StreamDecoder.v ===== *)
(** [FrameStreamDecoder] (include/lanlink/protocol/stream_decoder.hpp,
    src/protocol/stream_decoder.cpp): reassembles frames from arbitrary chunks of
    a byte stream.  [parse_stream] is the specification: greedy decoding of the
    whole stream at once. *)
From S2P Require Import Prelude Codec.

(** ** The decoder object *)

Record StreamDecoder := mk_decoder { buffer_ : bytes; read_offset_ : Z }.

Definition maximum_frame_size : Z := frame_header_size + max_payload_size.

(** The inner loop: decodes frames from the unread part of [buffer] until it is
    empty, incomplete or invalid.  [None] is running out of fuel. *)
Fixpoint drain (fuel : nat) (buffer : bytes) (read_offset : Z) (frames : list Frame)
    : option (Z * list Frame * result unit) :=
  match fuel with
  | O => None
  | S fuel =>
      if read_offset <? len buffer then
        let unread := drop (Z.to_nat read_offset) buffer in
        match decode_frame unread with
        | mk_decode complete (Some f) consumed _ =>
            drain fuel buffer (read_offset + consumed) (frames ++ [f])
        | mk_decode need_more_data _ _ _ => Some (read_offset, frames, Ok tt)
        | _ => Some (read_offset, frames, Throw runtime_error)
        end
      else Some (read_offset, frames, Ok tt)
  end.

(** The buffer management after the inner loop. *)
Definition compact (buffer : bytes) (read_offset : Z) : StreamDecoder :=
  if read_offset =? len buffer then mk_decoder [] 0
  else if read_offset >? len buffer / 2 then mk_decoder (drop (Z.to_nat read_offset) buffer) 0
  else mk_decoder buffer read_offset.

(** The outer loop over the bytes not yet copied into the buffer.  The state is
    returned with the result because a throwing [push] leaves its buffer changed. *)
Fixpoint push_loop (fuel : nat) (d : StreamDecoder) (bs : bytes) (frames : list Frame)
    : option (result (list Frame) * StreamDecoder) :=
  match fuel with
  | O => None
  | S fuel =>
      match bs with
      | [] => Some (Ok frames, d)
      | _ =>
          let buffered := len (buffer_ d) - read_offset_ d in
          let available := maximum_frame_size - buffered in
          if available =? 0 then Some (Throw runtime_error, d)
          else
            let count := Z.to_nat (Z.min available (len bs)) in
            let buffer := buffer_ d ++ take count bs in
            match drain (S (length buffer)) buffer (read_offset_ d) frames with
            | None => None
            | Some (off, frames, Throw e) => Some (Throw e, mk_decoder buffer off)
            | Some (off, frames, Ok _) => push_loop fuel (compact buffer off) (drop count bs) frames
            end
      end
  end.

(** Every iteration copies at least one byte, so [length bs] iterations suffice. *)
Definition push (d : StreamDecoder) (bs : bytes) : option (result (list Frame) * StreamDecoder) :=
  push_loop (S (length bs)) d bs [].

Definition reset (d : StreamDecoder) : StreamDecoder := mk_decoder [] 0.

Definition buffered_size (d : StreamDecoder) : Z := len (buffer_ d) - read_offset_ d.

(** ** Specification: one-shot greedy decoding *)

Definition unread (d : StreamDecoder) : bytes := drop (Z.to_nat (read_offset_ d)) (buffer_ d).

(** The decoder's invariant: at most half of the buffer is already read and what
    is unread is an incomplete frame. *)
Definition decoder_inv (d : StreamDecoder) : Prop :=
  (0 <= read_offset_ d /\ 2 * read_offset_ d <= len (buffer_ d)) /\ status (decode_frame (unread d)) = need_more_data.

(** [parse_stream s fs r]: [s] is the frames [fs] followed by the incomplete rest
    [inl rest], or by bytes no frame can start with ([inr status]). *)
Inductive parse_stream : bytes -> list Frame -> bytes + DecodeStatus -> Prop :=
| parse_partial s :
    status (decode_frame s) = need_more_data -> parse_stream s [] (inl s)
| parse_invalid s st :
    status (decode_frame s) = st -> st <> need_more_data -> st <> complete ->
    parse_stream s [] (inr st)
| parse_frame s f n fs r :
    decode_frame s = mk_decode complete (Some f) n n ->
    parse_stream (drop (Z.to_nat n) s) fs r -> parse_stream s (f :: fs) r.

(** ** Lemmas *)

Lemma complete_shape bs :
  status (decode_frame bs) = complete ->
  exists f n, decode_frame bs = mk_decode complete (Some f) n n /\ 16 <= n <= len bs.
Proof.
  intros H. pose proof (decode_cases bs _ eq_refl) as C. rewrite H in C.
  destruct C as (f & body & rest & E & _ & _ & _ & Hbs). exists f, (16 + len body).
  split; [done|]. rewrite Hbs, !len_app, len_header.
  pose proof (len_nonneg body). pose proof (len_nonneg rest). lia.
Qed.

Lemma decode_empty : status (decode_frame []) = need_more_data.
Proof. reflexivity. Qed.

Lemma need_more_bound bs : status (decode_frame bs) = need_more_data -> len bs < maximum_frame_size.
Proof.
  intros H. pose proof (decode_cases bs _ eq_refl) as C. rewrite H in C.
  destruct C as [[C1 C2] _]. unfold maximum_frame_size, frame_header_size. lia.
Qed.

Lemma decode_complete_app s rest f n :
  decode_frame s = mk_decode complete (Some f) n n ->
  decode_frame (s ++ rest) = mk_decode complete (Some f) n n.
Proof.
  intros H. pose proof (decode_cases _ _ H) as (f' & body & tl & E & Hw & _ & He & ->).
  injection E as <- -> _. rewrite <- app_assoc. rewrite (decode_encoded f _ _ Hw He).
  by rewrite len_app, len_header.
Qed.

(** Parsing a longer stream continues where parsing the prefix stopped. *)
Lemma parse_app s t fs r gs q :
  parse_stream s fs (inl r) -> parse_stream (r ++ t) gs q -> parse_stream (s ++ t) (fs ++ gs) q.
Proof.
  intros H. remember (inl r) as x eqn:Ex. induction H as [s H|s st H|s f n fs x H Hp IH]; intros G.
  - by injection Ex as ->.
  - discriminate.
  - cbn. eapply parse_frame; [by apply decode_complete_app|].
    destruct (complete_shape s) as (f' & n' & E & L); [by rewrite H|].
    rewrite H in E. injection E as <- <-. rewrite drop_app_le by (unfold len in L; lia). auto.
Qed.

Lemma parse_app_invalid s t fs st :
  parse_stream s fs (inr st) -> parse_stream (s ++ t) fs (inr st).
Proof.
  intros H. remember (inr st) as x eqn:Ex. induction H as [s H|s st' H Hn Hc|s f n fs x H Hp IH].
  - discriminate.
  - injection Ex as ->. apply parse_invalid; [|done..].
    rewrite decode_error_stable; [done|by rewrite H].
  - eapply parse_frame; [by apply decode_complete_app|].
    destruct (complete_shape s) as (f' & n' & E & L); [by rewrite H|].
    rewrite H in E. injection E as <- <-. rewrite drop_app_le by (unfold len in L; lia). auto.
Qed.

Lemma parse_stream_det s fs r fs' r' :
  parse_stream s fs r -> parse_stream s fs' r' -> fs = fs' /\ r = r'.
Proof.
  intros H. revert fs' r'. induction H as [s H|s st H Hn Hc|s f n fs x H Hp IH]; intros fs' r' G;
    inversion G as [s2 H2|s2 st2 H2 Hn2 Hc2|s2 f2 n2 fs2 x2 H2 Hp2]; subst; try done;
    try (rewrite H2 in *; done); try (rewrite H in *; done).
  rewrite H in H2. injection H2 as <- <-. destruct (IH _ _ Hp2) as [-> ->]. done.
Qed.

Lemma drain_spec fuel buffer off frames :
  0 <= off <= len buffer -> (Z.to_nat (len buffer - off) < fuel)%nat ->
  exists off' fs res,
    drain fuel buffer off frames = Some (off', frames ++ fs, res) /\ off <= off' <= len buffer /\
    match res with
    | Ok _ => parse_stream (drop (Z.to_nat off) buffer) fs (inl (drop (Z.to_nat off') buffer)) /\
        status (decode_frame (drop (Z.to_nat off') buffer)) = need_more_data
    | Throw e => e = runtime_error /\ exists st, parse_stream (drop (Z.to_nat off) buffer) fs (inr st)
    end.
Proof.
  revert off frames. induction fuel as [|fuel IH]; intros off frames Ho Hf; [lia|]. cbn [drain].
  destruct (Z.ltb_spec off (len buffer)) as [Hlt|Hge].
  2:{ exists off, [], (Ok tt). rewrite app_nil_r. assert (off = len buffer) by lia.
      rewrite (drop_ge buffer) by (unfold len in *; lia). split_and!; try done; try lia. by apply parse_partial. }
  set (u := drop (Z.to_nat off) buffer) in *.
  assert (Lu : len u = len buffer - off) by (unfold u, len; rewrite length_drop; unfold len in *; lia).
  destruct (status (decode_frame u)) eqn:St.
  1:{ destruct (complete_shape u St) as (f & n & E & Hn). rewrite E.
      destruct (IH (off + n) (frames ++ [f])) as (off' & fs & res & D & Hb & R); [lia|lia|].
      exists off', (f :: fs), res. rewrite <- app_assoc in D. split; [exact D|]. split; [lia|].
      assert (Du : drop (Z.to_nat n) u = drop (Z.to_nat (off + n)) buffer)
        by (unfold u; rewrite drop_drop; f_equal; lia).
      destruct res as [[]|e].
      - destruct R as [R1 R2]. split; [|done]. eapply parse_frame; [exact E|]. by rewrite Du.
      - destruct R as [-> [st R]]. split; [done|]. exists st. eapply parse_frame; [exact E|]. by rewrite Du. }
  1:{ exists off, [], (Ok tt). rewrite app_nil_r.
      split; [destruct (decode_frame u) as [[] ? ? ?]; by try discriminate|].
      split_and!; try done; try lia. by apply parse_partial. }
  all: exists off, [], (Throw runtime_error); rewrite app_nil_r;
    (split; [destruct (decode_frame u) as [[] ? ? ?]; by try discriminate|]);
    (split; [lia|]); (split; [done|]); eexists; by apply parse_invalid.
Qed.

Lemma compact_spec buffer off :
  0 <= off <= len buffer ->
  unread (compact buffer off) = drop (Z.to_nat off) buffer /\
  0 <= read_offset_ (compact buffer off) /\
  2 * read_offset_ (compact buffer off) <= len (buffer_ (compact buffer off)).
Proof.
  intros H. unfold compact. destruct (Z.eqb_spec off (len buffer)) as [->|].
  - cbn. rewrite drop_ge by (unfold len; lia). done.
  - destruct (Z.gtb_spec off (len buffer / 2)); cbn;
      [|pose proof (Z.mul_div_le (len buffer) 2); split; [done|lia]].
    split; [done|]. pose proof (len_nonneg (drop (Z.to_nat off) buffer)). lia.
Qed.

Lemma push_loop_spec fuel d bs frames :
  decoder_inv d -> (length bs < fuel)%nat ->
  exists fs res d', push_loop fuel d bs frames = Some (res, d') /\
    match res with
    | Ok out => out = frames ++ fs /\ decoder_inv d' /\ parse_stream (unread d ++ bs) fs (inl (unread d'))
    | Throw e => e = runtime_error /\ exists st, parse_stream (unread d ++ bs) fs (inr st)
    end.
Proof.
  revert d bs frames. induction fuel as [|fuel IH]; intros d bs frames Hd Hf; [lia|].
  destruct bs as [|b bs]; cbn [push_loop].
  { exists [], (Ok frames), d. rewrite !app_nil_r. split_and!; try done. apply parse_partial, Hd. }
  destruct Hd as [Ho Hn]. pose proof (need_more_bound _ Hn) as Hb. pose proof (len_nonneg (buffer_ d)) as Hz.
  assert (Lu : len (unread d) = len (buffer_ d) - read_offset_ d)
    by (unfold unread, len; rewrite length_drop; unfold len in *; lia).
  guard_false by (apply Z.eqb_neq; lia).
  set (all := b :: bs) in *. assert (La : 1 <= len all) by (unfold all; rewrite len_cons; pose proof (len_nonneg bs); lia).
  set (count := Z.to_nat (Z.min (maximum_frame_size - (len (buffer_ d) - read_offset_ d)) (len all))).
  assert (Hc : (1 <= count <= length all)%nat) by (unfold count, len in *; lia).
  set (buffer := buffer_ d ++ take count all).
  assert (Lb : len buffer = len (buffer_ d) + Z.of_nat count)
    by (unfold buffer; rewrite len_app; unfold len; rewrite length_take; lia).
  destruct (drain_spec (S (length buffer)) buffer (read_offset_ d) frames) as (off & fs & res & D & Hoff & R);
    [lia|unfold len in *; lia|]. rewrite D.
  assert (Eu : drop (Z.to_nat (read_offset_ d)) buffer = unread d ++ take count all)
    by (unfold buffer, unread; rewrite drop_app_le by (unfold len in *; lia); done).
  rewrite Eu in R.
  assert (Es : unread d ++ all = (unread d ++ take count all) ++ drop count all)
    by (rewrite <- app_assoc, take_drop; done).
  destruct res as [[]|e].
  - destruct R as [R1 R2]. destruct (compact_spec buffer off) as [Cu Co]; [lia|].
    destruct (IH (compact buffer off) (drop count all) (frames ++ fs)) as (gs & res & d' & P & Q).
    { split; [done|]. by rewrite Cu. } { rewrite length_drop. lia. }
    exists (fs ++ gs), res, d'. split; [exact P|]. rewrite Es. rewrite Cu in Q. destruct res as [out|e].
    + destruct Q as (-> & Q2 & Q3). rewrite app_assoc. split_and!; try done. by eapply parse_app.
    + destruct Q as (-> & st & Q3). split; [done|]. exists st. by eapply parse_app.
  - destruct R as (-> & st & R). exists fs, (Throw runtime_error), (mk_decoder buffer off).
    split; [done|]. split; [done|]. exists st. rewrite Es. by apply parse_app_invalid.
Qed.

Lemma decoder_inv_init : decoder_inv (mk_decoder [] 0).
Proof. split; [by cbn|reflexivity]. Qed.

Lemma buffer_bound d : decoder_inv d -> len (buffer_ d) < 2 * maximum_frame_size.
Proof.
  intros [Ho Hn]. apply need_more_bound in Hn. unfold unread, len in *. rewrite length_drop in Hn. lia.
Qed.

(** Feeding a list of chunks one [push] after another. *)
Fixpoint push_all (d : StreamDecoder) (chunks : list bytes) : option (result (list Frame) * StreamDecoder) :=
  match chunks with
  | [] => Some (Ok [], d)
  | c :: chunks =>
      match push d c with
      | Some (Ok fs, d) =>
          match push_all d chunks with
          | Some (Ok gs, d) => Some (Ok (fs ++ gs), d)
          | r => r
          end
      | r => r
      end
  end.

Lemma push_all_spec chunks : forall d,
  decoder_inv d ->
  exists res d', push_all d chunks = Some (res, d') /\
    match res with
    | Ok fs => decoder_inv d' /\ parse_stream (unread d ++ concat chunks) fs (inl (unread d'))
    | Throw e => e = runtime_error /\ exists fs st, parse_stream (unread d ++ concat chunks) fs (inr st)
    end.
Proof.
  induction chunks as [|c chunks IH]; intros d Hd; cbn [push_all concat].
  { exists (Ok []), d. rewrite app_nil_r. split_and!; try done. apply parse_partial, Hd. }
  destruct (push_loop_spec (S (length c)) d c [] Hd) as (fs & res & d1 & P & R); [lia|].
  unfold push. rewrite P. destruct res as [out|e].
  - destruct R as (-> & Hd1 & R). cbn [app] in *.
    destruct (IH d1 Hd1) as (res & d2 & P2 & R2). rewrite P2. destruct res as [gs|e].
    + destruct R2 as [R2 R3]. exists (Ok (fs ++ gs)), d2. split_and!; try done.
      rewrite app_assoc. by eapply parse_app.
    + destruct R2 as (-> & gs & st & R2). exists (Throw runtime_error), d2. split_and!; try done.
      exists (fs ++ gs), st. rewrite app_assoc. by eapply parse_app.
  - destruct R as (-> & st & R). exists (Throw runtime_error), d1. split_and!; try done.
    exists fs, st. rewrite app_assoc. by apply parse_app_invalid.
Qed.

(** A sequence of encoded frames parses into exactly these frames. *)
Lemma parse_encoded fs bss :
  Forall2 (fun f bs => wf_frame f /\ encode_frame f = Ok bs) fs bss ->
  parse_stream (concat bss) fs (inl []).
Proof.
  induction 1 as [|f bs fs bss [Hw He] _ IH]; cbn [concat]; [by apply parse_partial|].
  eapply parse_frame; [by apply decode_encoded|].
  rewrite drop_app_len; [done|]. unfold len. lia.
Qed.

Lemma empty_state d : decoder_inv d -> unread d = [] -> d = mk_decoder [] 0.
Proof.
  destruct d as [buf off]. unfold decoder_inv, unread. cbn. intros [Ho _] H.
  apply (f_equal length) in H. rewrite length_drop in H. cbn in H. unfold len in Ho.
  assert (off = 0) as -> by lia. destruct buf; [done|]. cbn in H. lia.
Qed.

(** ** Correctness of stream reassembly *)

(** [FrameStreamDecoder] refines one-shot parsing: whatever chunks the bytes
    of a stream arrive in, the pushes terminate, return exactly the frames greedy
    decoding of the whole stream gives, keep the incomplete rest unread, and never
    hold 2 * (16 + 1 MiB) bytes or more; they throw only when no frame can start at
    the first byte after the frames of the stream. *)
Lemma push_all_parses (chunks : list bytes) :
  exists res d', push_all (mk_decoder [] 0) chunks = Some (res, d') /\
    match res with
    | Ok fs => parse_stream (concat chunks) fs (inl (unread d')) /\
        decoder_inv d' /\ len (buffer_ d') < 2 * maximum_frame_size
    | Throw e => e = runtime_error /\ exists fs st, parse_stream (concat chunks) fs (inr st)
    end.
Proof.
  destruct (push_all_spec chunks _ decoder_inv_init) as (res & d' & E & R). exists res, d'.
  split; [done|]. destruct res; [|done]. destruct R as [Hd R]. auto using buffer_bound.
Qed.

(** The sender's frames survive any segmentation: if the bytes received are
    the encodings of [fs] one after another, cut into chunks anywhere, then the
    pushes together return exactly [fs] and leave the decoder empty. *)
Lemma push_all_segments (fs : list Frame) (bss chunks : list bytes) :
  Forall2 (fun f bs => wf_frame f /\ encode_frame f = Ok bs) fs bss ->
  concat chunks = concat bss ->
  push_all (mk_decoder [] 0) chunks = Some (Ok fs, mk_decoder [] 0).
Proof.
  intros H C. apply parse_encoded in H. rewrite <- C in H.
  destruct (push_all_spec chunks _ decoder_inv_init) as (res & d' & E & R). cbn [unread buffer_ read_offset_ app] in R.
  rewrite E. destruct res as [gs|e].
  - destruct R as [Hd R]. destruct (parse_stream_det _ _ _ _ _ H R) as [<- U]. injection U as U.
    by rewrite (empty_state d') by done.
  - destruct R as (_ & gs & st & R). by destruct (parse_stream_det _ _ _ _ _ H R).
Qed.

(** C11: [FrameStreamDecoder] refines one-shot parsing.  Whatever chunks the bytes of a stream arrive
    in, the pushes terminate, return exactly the frames greedy decoding of the whole stream gives,
    keep the incomplete rest unread, and never hold 2 * (16 + 1 MiB) bytes or more; they throw only
    when no frame can start at the first byte after the frames of the stream.  In particular the
    sender's frames survive any segmentation: if the bytes received are the encodings of [fs] one
    after another, the pushes together return exactly [fs] and leave the decoder empty.  The frames themselves are coded exactly:
    [decode_frame] completes with [f] after [n] bytes if and only if the first [n] bytes of the buffer are
    what [encode_frame] produces for the well-typed frame [f]. *)
Theorem push_all_refines (chunks : list bytes) :
  (exists res d', push_all (mk_decoder [] 0) chunks = Some (res, d') /\
    match res with
    | Ok fs => parse_stream (concat chunks) fs (inl (unread d')) /\
        decoder_inv d' /\ len (buffer_ d') < 2 * maximum_frame_size
    | Throw e => e = runtime_error /\ exists fs st, parse_stream (concat chunks) fs (inr st)
    end) /\
  (forall (fs : list Frame) (bss : list bytes),
     Forall2 (fun f bs => wf_frame f /\ encode_frame f = Ok bs) fs bss -> concat chunks = concat bss ->
     push_all (mk_decoder [] 0) chunks = Some (Ok fs, mk_decoder [] 0)) /\
  (forall (bs : bytes) (f : Frame) (n : Z),
     decode_frame bs = mk_decode complete (Some f) n n <->
     wf_frame f /\ n = len (take (Z.to_nat n) bs) /\ encode_frame f = Ok (take (Z.to_nat n) bs)).
Proof. split_and!; [apply push_all_parses|intros fs bss; apply push_all_segments|apply decode_frame_exact]. Qed.

Lemma push_all_refines_witness :
  let f := mk_frame heartbeat 7 [x01; x02] in
  let g := mk_frame disconnect 8 [] in
  push_all (mk_decoder [] 0)
    [header 3 7 2; []; [x01]; x02 :: take 5 (header 5 8 0); drop 5 (header 5 8 0)] =
  Some (Ok [f; g], mk_decoder [] 0).
Proof.
  apply (proj1 (proj2 (push_all_refines _)) _ [header 3 7 2 ++ [x01; x02]; header 5 8 0]).
  - repeat constructor; cbn; unfold word; cbn; lia.
  - vm_compute. reflexivity.
Defined.
