(* ===== verification/Capabilities.v ===== *)
(** Capability negotiation (include/lanlink/protocol/capabilities.hpp,
    src/protocol/capabilities.cpp): the offer and selection payloads exchanged
    when a session starts and the choice both sides make from the two offers. *)
From S2P Require Import Prelude Codec.

Inductive Capability :=
| negotiation | structured_diagnostics | peer_candidates | direct_quic | candidate_generations
| user_accounts | password_networks | invitation_codes | managed_networks.

Definition capability_bit (c : Capability) : Z :=
  match c with
  | negotiation => 1 | structured_diagnostics => 2 | peer_candidates => 4 | direct_quic => 8
  | candidate_generations => 16 | user_accounts => 32 | password_networks => 64
  | invitation_codes => 128 | managed_networks => 256
  end.

Definition capability_request_id : Z := 0xffffffff.

Definition supported_capabilities : Z :=
  foldl Z.lor 0 (map capability_bit
    [negotiation; structured_diagnostics; peer_candidates; direct_quic; candidate_generations;
     user_accounts; password_networks; invitation_codes; managed_networks]).

Record CapabilityOffer := mk_offer { minimum_version : Z; maximum_version : Z; offered : Z }.

Definition default_offer : CapabilityOffer :=
  mk_offer protocol_version protocol_version supported_capabilities.

Record NegotiatedCapabilities := mk_selection { wire_version : Z; features : Z; legacy : bool }.

Definition default_selection : NegotiatedCapabilities := mk_selection protocol_version 0 true.

Definition supports (s : NegotiatedCapabilities) (c : Capability) : bool :=
  negb (legacy s) && negb (Z.land (features s) (capability_bit c) =? 0).

Definition magic : bytes := [x4c; x43; x41; x50].

Definition validate (o : CapabilityOffer) : result unit :=
  if (minimum_version o =? 0) || (minimum_version o >? maximum_version o)
  then Throw invalid_argument else Ok tt.

Definition is_capability_payload (payload : bytes) : bool :=
  (len payload >=? 4) && bool_decide (take 4 payload = magic).

Definition encode_capability_offer (o : CapabilityOffer) : result bytes :=
  let* _ := validate o in
  Ok (magic ++ [x01; x00] ++ put_be 2 (minimum_version o) ++ put_be 2 (maximum_version o) ++
      put_be 8 (offered o)).

Definition decode_capability_offer (payload : bytes) : result CapabilityOffer :=
  check! is_capability_payload payload && (len payload =? 18) &&
         bool_decide (at_ payload 4 = x01) && bool_decide (at_ payload 5 = x00)
    else invalid_argument in
  let result := mk_offer (get_at 8 payload 6 2 mod 2 ^ 16) (get_at 8 payload 8 2 mod 2 ^ 16)
                  (get_at 8 payload 10 8) in
  let* _ := validate result in
  Ok result.

Definition negotiate_capabilities (local remote : CapabilityOffer) : result NegotiatedCapabilities :=
  let* _ := validate local in
  let* _ := validate remote in
  let low := Z.max (minimum_version local) (minimum_version remote) in
  let high := Z.min (maximum_version local) (maximum_version remote) in
  if low >? high then Ok default_selection
  else Ok (mk_selection high (Z.land (offered local) (offered remote)) false).

Definition encode_capability_selection (s : NegotiatedCapabilities) : result bytes :=
  if (wire_version s =? 0) || (legacy s && negb (features s =? 0)) then Throw invalid_argument
  else Ok (magic ++ [x01; if legacy s then x02 else x01] ++ put_be 2 (wire_version s) ++ put_be 8 (features s)).

Definition decode_capability_selection (payload : bytes) : result NegotiatedCapabilities :=
  check! is_capability_payload payload && (len payload =? 16) && bool_decide (at_ payload 4 = x01) &&
         (bool_decide (at_ payload 5 = x01) || bool_decide (at_ payload 5 = x02))
    else invalid_argument in
  let result := mk_selection (get_at 8 payload 6 2 mod 2 ^ 16) (get_at 8 payload 8 8)
                  (bool_decide (at_ payload 5 = x02)) in
  let* _ := encode_capability_selection result in
  Ok result.

(** The field types. *)
Definition wf_offer (o : CapabilityOffer) : Prop :=
  word 2 (minimum_version o) /\ word 2 (maximum_version o) /\ word 8 (offered o).
Definition wf_selection (s : NegotiatedCapabilities) : Prop :=
  word 2 (wire_version s) /\ word 8 (features s).

(** ** Lemmas *)

Lemma word_2_mod v : word 2 v -> v mod 2 ^ 16 = v.
Proof. apply Z.mod_small. Qed.

(** The common six-byte prefix of both payloads. *)
Lemma prefix_split payload a b :
  (6 <= length payload)%nat -> is_capability_payload payload = true ->
  at_ payload 4 = a -> at_ payload 5 = b -> slice 0 6 payload = magic ++ [a; b].
Proof.
  intros L M <- <-. unfold is_capability_payload in M. bool_prop.
  change (slice 0 6 payload) with (slice 0 (4 + (1 + 1)) payload).
  rewrite <- !slice_join, !slice_one by (cbn; lia). cbn [Nat.add app]. f_equal. done.
Qed.

Lemma is_capability_payload_magic rest : is_capability_payload (magic ++ rest) = true.
Proof.
  unfold is_capability_payload. rewrite len_app. pose proof (len_nonneg rest).
  apply andb_true_iff. split; [|by apply bool_decide_eq_true].
  rewrite Z.geb_leb. apply Z.leb_le. change (len magic) with 4. lia.
Qed.

Lemma validate_swap o : validate o = Ok tt <-> minimum_version o <> 0 /\ minimum_version o <= maximum_version o.
Proof.
  unfold validate. destruct (Z.eqb_spec (minimum_version o) 0), (Z.gtb_spec (minimum_version o) (maximum_version o));
    cbn; split; intros ?; try discriminate; try done; lia.
Qed.

Lemma negotiate_inv a b s :
  negotiate_capabilities a b = Ok s ->
  let low := Z.max (minimum_version a) (minimum_version b) in
  let high := Z.min (maximum_version a) (maximum_version b) in
  validate a = Ok tt /\ validate b = Ok tt /\
  s = if low >? high then default_selection else mk_selection high (Z.land (offered a) (offered b)) false.
Proof.
  unfold negotiate_capabilities. destruct (validate a) as [[]|]; [|done].
  destruct (validate b) as [[]|]; [|done]. cbv zeta. destruct (_ >? _); intros H; by simplify_eq.
Qed.

Lemma word_land a b n : word n a -> word n b -> word n (Z.land a b).
Proof.
  intros Ha Hb. unfold word in *.
  assert (E : Z.land a b = Z.land a b mod 2 ^ (8 * Z.of_nat n)).
  { rewrite <- Z.land_ones by lia. rewrite <- Z.land_assoc, (Z.land_ones b) by lia.
    by rewrite (Z.mod_small b) by lia. }
  rewrite E. apply Z.mod_pos_bound. lia.
Qed.

(** ** Correctness *)

(** The offer codec is exact: a payload decodes to an offer if and only if it
    is the encoding of that well-typed offer. *)
Lemma capability_offer_exact (payload : bytes) (o : CapabilityOffer) :
  decode_capability_offer payload = Ok o <-> wf_offer o /\ encode_capability_offer o = Ok payload.
Proof.
  split.
  - unfold decode_capability_offer, encode_capability_offer. intros H. ok_inv H. bool_prop. subst o.
    unfold len in *. assert (L : length payload = 18%nat) by lia.
    rewrite !get_at_slice in * by lia.
    pose proof (word_slice 6 2 payload ltac:(lia)) as W1.
    pose proof (word_slice 8 2 payload ltac:(lia)) as W2.
    pose proof (word_slice 10 8 payload ltac:(lia)) as W3.
    rewrite !word_2_mod in * by done. split; [done|]. destruct (validate _) as [[]|]; [|done].
    cbn [minimum_version maximum_version offered].
    rewrite !put_be_slice by lia. f_equal.
    rewrite app_assoc, <- (prefix_split payload x01 x00) by (done || lia).
    slice_join_all. by apply slice_all.
  - intros [(W1 & W2 & W3) H]. unfold encode_capability_offer in H. unfold decode_capability_offer.
    destruct (validate o) as [[]|] eqn:V; [|done]. apply Ok_inj in H as <-.
    guard_true by (rewrite is_capability_payload_magic; reflexivity).
    rewrite !get_at_slice by len_solve. slice_eval.
    rewrite (slice_all (put_be 8 _)) by apply length_put_be.
    rewrite !be_value_put_word, !word_2_mod by done.
    destruct o as [a b f]. cbn [minimum_version maximum_version offered] in *. by rewrite V.
Qed.

(** The selection codec is exact in the same sense. *)
Lemma capability_selection_exact (payload : bytes) (s : NegotiatedCapabilities) :
  decode_capability_selection payload = Ok s <->
  wf_selection s /\ encode_capability_selection s = Ok payload.
Proof.
  split.
  - unfold decode_capability_selection. intros H. ok_inv H. bool_prop. subst s. unfold len in *.
    assert (L : length payload = 16%nat) by lia. rewrite !get_at_slice in * by lia.
    pose proof (word_slice 6 2 payload ltac:(lia)) as W1.
    pose proof (word_slice 8 8 payload ltac:(lia)) as W2.
    rewrite !word_2_mod in * by done. split; [done|]. rewrite E. f_equal.
    unfold encode_capability_selection in E. destruct (_ || _) eqn:G in E; [done|]. apply Ok_inj in E as <-.
    cbn [wire_version features legacy]. rewrite !put_be_slice by lia.
    replace (if bool_decide _ then x02 else x01) with (at_ payload 5)
      by (match goal with H : _ || _ = true |- _ => apply orb_true_iff in H as [?|?] end; bool_prop;
          match goal with H : at_ payload 5 = _ |- _ => by rewrite H end).
    rewrite app_assoc, <- (prefix_split payload x01 (at_ payload 5)) by (done || lia).
    slice_join_all. by apply slice_all.
  - intros [[W1 W2] H]. unfold decode_capability_selection. pose proof H as H0.
    unfold encode_capability_selection in H. destruct (_ || _) eqn:G in H; [done|]. apply Ok_inj in H as <-.
    guard_true by (rewrite is_capability_payload_magic; cbn; by destruct (legacy s)).
    rewrite !get_at_slice by len_solve. slice_eval.
    rewrite (slice_all (put_be 8 _)) by apply length_put_be.
    rewrite !be_value_put_word, !word_2_mod by done.
    replace (bool_decide _) with (legacy s) by (cbn; by destruct (legacy s)).
    destruct s. cbn [wire_version features legacy] in *. by rewrite H0.
Qed.

(** Negotiation is sound and agreed: both sides compute the same selection
    whichever offer is local; when the version ranges overlap it is the highest
    version both ranges contain with exactly the features both offer, and when they
    do not it is the legacy selection; either way the selection can be encoded. *)
Lemma negotiation_agreed (a b : CapabilityOffer) (s : NegotiatedCapabilities) :
  wf_offer a -> wf_offer b -> negotiate_capabilities a b = Ok s ->
  negotiate_capabilities b a = Ok s /\ is_ok (encode_capability_selection s) = true /\ wf_selection s /\
  if legacy s
  then s = default_selection /\
       (forall v, ~ (minimum_version a <= v <= maximum_version a /\ minimum_version b <= v <= maximum_version b))
  else (minimum_version a <= wire_version s <= maximum_version a /\
        minimum_version b <= wire_version s <= maximum_version b /\
        forall v, minimum_version a <= v <= maximum_version a ->
                  minimum_version b <= v <= maximum_version b -> v <= wire_version s) /\
       (forall c, supports s c = true <->
          Z.land (offered a) (capability_bit c) <> 0 /\ Z.land (offered b) (capability_bit c) <> 0).
Proof.
  intros (Wa1 & Wa2 & Wa3) (Wb1 & Wb2 & Wb3) H. apply negotiate_inv in H as (Va & Vb & ->). split.
  - unfold negotiate_capabilities. rewrite Va, Vb, Z.max_comm, Z.min_comm, Z.land_comm. by destruct (_ >? _).
  - apply validate_swap in Va as [Va Ra], Vb as [Vb Rb]. words.
    destruct (Z.gtb_spec (Z.max (minimum_version a) (minimum_version b)) (Z.min (maximum_version a) (maximum_version b))).
    + split; [done|]. split; [by split|]. split; [done|]. lia.
    + unfold encode_capability_selection, wf_selection. cbn [legacy wire_version features andb].
      rewrite orb_false_r. split; [destruct (Z.eqb_spec (Z.min (maximum_version a) (maximum_version b)) 0); [lia|done]|].
      split; [split; [words; lia|apply word_land; by words]|]. split; [split_and!; lia|].
      intros c. unfold supports. cbn [legacy features negb andb]. rewrite negb_true_iff, Z.eqb_neq.
      assert (B : exists k, 0 <= k /\ capability_bit c = 2 ^ k).
      { destruct c; [exists 0|exists 1|exists 2|exists 3|exists 4|exists 5|exists 6|exists 7|exists 8]; done. }
      destruct B as (k & Hk & ->).
      assert (P : forall x, Z.land x (2 ^ k) <> 0 <-> Z.testbit x k = true).
      { intros x. rewrite Z.land_comm. destruct (Z.testbit x k) eqn:T; split; intros Hx; try done.
        - intros E. apply (f_equal (fun z => Z.testbit z k)) in E.
          by rewrite Z.land_spec, T, Z.pow2_bits_true, Z.bits_0 in E by lia.
        - exfalso. apply Hx. apply Z.bits_inj'. intros i Hi. rewrite Z.land_spec, Z.bits_0.
          destruct (Z.eq_dec i k) as [->|]; [by rewrite T, andb_false_r|].
          by rewrite Z.pow2_bits_false by lia. }
      rewrite !P, Z.land_spec, andb_true_iff. done.
Qed.

(** The offer and selection codecs are exact: a payload decodes to an offer (or to a
    selection) if and only if it is the encoding of that well-typed value, and no
    payload is both an offer and a selection. *)
Lemma capability_payloads_exact (payload : bytes) :
  (forall o, decode_capability_offer payload = Ok o <-> wf_offer o /\ encode_capability_offer o = Ok payload) /\
  (forall s, decode_capability_selection payload = Ok s <-> wf_selection s /\ encode_capability_selection s = Ok payload) /\
  (forall o s, decode_capability_offer payload = Ok o -> decode_capability_selection payload = Ok s -> False).
Proof.
  split; [intros o; apply capability_offer_exact|]. split; [intros s; apply capability_selection_exact|].
  intros o s H1 H2. unfold decode_capability_offer in H1. unfold decode_capability_selection in H2.
  ok_inv H1. ok_inv H2. bool_prop. lia.
Qed.
