(* ===== verification/PacketMessages.v ===== *)
(** Encrypted packets on the wire (include/lanlink/protocol/packet_messages.hpp,
    src/protocol/packet_messages.cpp). *)
From S2P Require Import Prelude.

Definition network_id_size : nat := 16.
Definition device_id_size : nat := 32.
Definition min_virtual_ipv4_packet_size : Z := 20.
Definition max_virtual_ipv4_packet_size : Z := 65535.
Definition packet_nonce_size : nat := 12.
Definition packet_tag_size : nat := 16.
Definition encrypted_packet_header_size : nat := network_id_size + 4 + 8 + 4 + packet_nonce_size + 2.
Definition header_size : nat := encrypted_packet_header_size.
Definition fixed_size : nat := header_size + packet_tag_size.

Record EncryptedNetworkPacket := mk_packet {
  network_id : bytes;
  destination_ipv4 : Z;
  key_epoch : Z;
  sequence : Z;
  nonce : bytes;
  ciphertext : bytes;
  tag : bytes
}.

#[global] Instance EncryptedNetworkPacket_eq_dec : EqDecision EncryptedNetworkPacket.
Proof. solve_decision. Defined.

Record ForwardedNetworkPacket := mk_forwarded {
  sender_device_id : bytes;
  packet : EncryptedNetworkPacket
}.

(** The field types: arrays of fixed length and unsigned integers. *)
Definition wf_packet (p : EncryptedNetworkPacket) : Prop :=
  length (network_id p) = network_id_size /\ word 4 (destination_ipv4 p) /\ word 8 (key_epoch p) /\
  word 4 (sequence p) /\ length (nonce p) = packet_nonce_size /\ length (tag p) = packet_tag_size.

Definition wf_forwarded (p : ForwardedNetworkPacket) : Prop :=
  length (sender_device_id p) = device_id_size /\ wf_packet (packet p).

(** [read_integer]: bounds-checked, big-endian, [sizeof(Integer) = w]. *)
Definition read_integer (w : nat) (payload : bytes) (offset : nat) : result Z :=
  if (Z.of_nat offset >? len payload) || (Z.of_nat w >? len payload - Z.of_nat offset)
  then Throw runtime_error
  else Ok (get_at w payload offset w).

Definition valid_packet (p : EncryptedNetworkPacket) : bool :=
  let has_network := negb (is_zero (network_id p)) in
  if negb has_network || (destination_ipv4 p =? 0) ||
     ((destination_ipv4 p >=? 0xf0000000) && negb (destination_ipv4 p =? 0xffffffff)) ||
     (key_epoch p =? 0) || (sequence p =? 0) ||
     (len (ciphertext p) <? min_virtual_ipv4_packet_size) ||
     (len (ciphertext p) >? max_virtual_ipv4_packet_size)
  then false
  else forallb (fun index => bool_decide (at_ (nonce p) (8 + index) =
                                          z2b (Z.shiftr (sequence p) (8 * (3 - Z.of_nat index)))))
         (seq 0 4).

Definition encode_encrypted_network_packet_header (p : EncryptedNetworkPacket) : result bytes :=
  check! valid_packet p else invalid_argument in
  Ok (network_id p ++ put_be 4 (destination_ipv4 p) ++ put_be 8 (key_epoch p) ++
      put_be 4 (sequence p) ++ nonce p ++ put_be 2 (len (ciphertext p))).

Definition encode_encrypted_network_packet (p : EncryptedNetworkPacket) : result bytes :=
  let* header := encode_encrypted_network_packet_header p in
  Ok (header ++ ciphertext p ++ tag p).

Definition decode_encrypted_network_packet (payload : bytes) : result EncryptedNetworkPacket :=
  check! negb ((len payload <? Z.of_nat fixed_size + min_virtual_ipv4_packet_size) ||
               (len payload >? Z.of_nat fixed_size + max_virtual_ipv4_packet_size)) else runtime_error in
  let* size := read_integer 2 payload (header_size - 2) in
  check! len payload =? Z.of_nat fixed_size + size else runtime_error in
  let* destination := read_integer 4 payload network_id_size in
  let* epoch := read_integer 8 payload (network_id_size + 4) in
  let* seq := read_integer 4 payload (network_id_size + 12) in
  let p := mk_packet (slice 0 network_id_size payload) destination epoch seq
             (slice (network_id_size + 16) packet_nonce_size payload)
             (slice header_size (Z.to_nat size) payload)
             (slice (header_size + Z.to_nat size) packet_tag_size payload) in
  check! valid_packet p else runtime_error in
  Ok p.

Definition encode_forwarded_network_packet (p : ForwardedNetworkPacket) : result bytes :=
  check! negb (is_zero (sender_device_id p)) else invalid_argument in
  let* encrypted := encode_encrypted_network_packet (packet p) in
  Ok (sender_device_id p ++ encrypted).

Definition decode_forwarded_network_packet (payload : bytes) : result ForwardedNetworkPacket :=
  check! negb (len payload <? Z.of_nat device_id_size + Z.of_nat fixed_size + min_virtual_ipv4_packet_size)
    else runtime_error in
  let sender := slice 0 device_id_size payload in
  check! negb (is_zero sender) else runtime_error in
  let* packet := decode_encrypted_network_packet (drop device_id_size payload) in
  Ok (mk_forwarded sender packet).

(** ** Lemmas *)

Lemma read_integer_ok w payload off :
  (off + w <= length payload)%nat -> read_integer w payload off = Ok (be_value (slice off w payload)).
Proof.
  intros H. unfold read_integer, len.
  guard_false by (apply orb_false_iff; rewrite !Z.gtb_ltb, !Z.ltb_ge; lia).
  by rewrite get_at_slice by lia.
Qed.

Lemma valid_packet_ciphertext p :
  valid_packet p = true -> 20 <= len (ciphertext p) <= 65535.
Proof.
  unfold valid_packet. intros H. destruct (_ || _) eqn:G in H; [done|]. bool_prop.
  unfold min_virtual_ipv4_packet_size, max_virtual_ipv4_packet_size in *. lia.
Qed.

(** Both fixed headers as one concatenation. *)
Lemma encode_encrypted_inv p bs :
  encode_encrypted_network_packet p = Ok bs ->
  valid_packet p = true /\
  bs = network_id p ++ put_be 4 (destination_ipv4 p) ++ put_be 8 (key_epoch p) ++
       put_be 4 (sequence p) ++ nonce p ++ put_be 2 (len (ciphertext p)) ++ ciphertext p ++ tag p.
Proof.
  unfold encode_encrypted_network_packet, encode_encrypted_network_packet_header.
  destruct (valid_packet p); [|done]. intros H. apply Ok_inj in H as <-. by rewrite <- !app_assoc.
Qed.

Lemma slice_end a n : slice 0 n (a : bytes) = take n a.
Proof. reflexivity. Qed.

Lemma decode_encrypted_encoded p bs :
  wf_packet p -> encode_encrypted_network_packet p = Ok bs -> decode_encrypted_network_packet bs = Ok p.
Proof.
  intros (Hn & Hd & He & Hs & Ho & Ht) H. apply encode_encrypted_inv in H as (V & ->).
  pose proof (valid_packet_ciphertext p V) as C. unfold decode_encrypted_network_packet.
  set (bs := _ ++ _). unfold network_id_size, packet_nonce_size, packet_tag_size in *.
  assert (L : length bs = (62 + length (ciphertext p))%nat).
  { unfold bs. rewrite !length_app, !length_put_be. lia. }
  unfold len in C.
  unfold fixed_size, header_size, encrypted_packet_header_size, min_virtual_ipv4_packet_size,
    max_virtual_ipv4_packet_size, network_id_size, packet_nonce_size, packet_tag_size in *.
  guard_true by (apply negb_true_iff, orb_false_iff; rewrite Z.gtb_ltb, !Z.ltb_ge; unfold len; lia).
  rewrite !read_integer_ok by (cbn; lia). cbn [Nat.add Nat.sub].
  remember (length (ciphertext p)) as c eqn:Hc. symmetry in Hc.
  assert (S : be_value (slice 44 2 bs) = Z.of_nat c).
  { unfold bs. slice_eval. rewrite be_value_put_word; unfold len; [lia|words; lia]. }
  rewrite S. guard_true by (apply Z.eqb_eq; unfold len; lia). rewrite Nat2Z.id.
  assert (F : slice 0 16 bs = network_id p /\ be_value (slice 16 4 bs) = destination_ipv4 p /\
              be_value (slice 20 8 bs) = key_epoch p /\ be_value (slice 28 4 bs) = sequence p /\
              slice 32 12 bs = nonce p /\ slice 46 c bs = ciphertext p /\ slice (46 + c) 16 bs = tag p).
  { unfold bs. slice_eval. rewrite !be_value_put_word by done. split_and!; try done.
    replace (46 + c - _ - _ - _ - _ - _ - _ - _)%nat with 0%nat by lia. by apply slice_all. }
  cbn [Nat.add] in F. destruct F as (-> & -> & -> & -> & -> & -> & ->).
  destruct p. cbn [network_id destination_ipv4 key_epoch sequence nonce ciphertext tag]. by rewrite V.
Qed.

Lemma decode_encrypted_inv bs p :
  decode_encrypted_network_packet bs = Ok p -> wf_packet p /\ encode_encrypted_network_packet p = Ok bs.
Proof.
  unfold decode_encrypted_network_packet. intros H. destruct (negb _) eqn:G; [|done]. bool_prop.
  unfold fixed_size, header_size, encrypted_packet_header_size, min_virtual_ipv4_packet_size,
    max_virtual_ipv4_packet_size, network_id_size, packet_nonce_size, packet_tag_size, len in *.
  cbn [Nat.add Nat.sub] in *. rewrite !read_integer_ok in H by lia.
  pose proof (word_slice 44 2 bs ltac:(lia)) as W. set (size := be_value (slice 44 2 bs)) in *.
  destruct (_ =? _) eqn:G; [|done]. bool_prop. words.
  match type of H with context [mk_packet ?a ?b ?c ?d ?e ?f ?g] => set (q := mk_packet a b c d e f g) in * end.
  destruct (valid_packet q) eqn:V; [|done]. apply Ok_inj in H as <-. split.
  - unfold wf_packet, q, network_id_size, packet_nonce_size, packet_tag_size.
    cbn [network_id destination_ipv4 key_epoch sequence nonce ciphertext tag].
    rewrite !length_slice by lia. split_and!; done || (apply word_slice; lia).
  - unfold encode_encrypted_network_packet, encode_encrypted_network_packet_header. rewrite V.
    unfold q. cbn [network_id destination_ipv4 key_epoch sequence nonce ciphertext tag].
    unfold len. rewrite length_slice, Z2Nat.id by lia. unfold size at 1.
    rewrite !put_be_slice by lia. f_equal. rewrite <- !app_assoc.
    slice_join_all. rewrite slice_all by lia. done.
Qed.

Lemma encode_encrypted_len p bs :
  wf_packet p -> encode_encrypted_network_packet p = Ok bs -> len bs = 62 + len (ciphertext p).
Proof.
  intros (Hn & Hd & He & Hs & Ho & Ht) H. apply encode_encrypted_inv in H as (_ & ->).
  unfold network_id_size, packet_nonce_size, packet_tag_size in *. unfold len.
  rewrite !length_app, !length_put_be. lia.
Qed.

(** ** Correctness *)

(** The encrypted-packet codec is exact: a payload decodes to [p] if and only
    if [p] is well typed and the payload is its encoding.  In particular only
    packets that pass [valid_packet] (non-zero network, unicast or broadcast
    destination, non-zero epoch and sequence, nonce bound to the sequence, 20 to
    65535 bytes of ciphertext) can be decoded. *)
Lemma encrypted_packet_exact (payload : bytes) (p : EncryptedNetworkPacket) :
  decode_encrypted_network_packet payload = Ok p <->
  wf_packet p /\ encode_encrypted_network_packet p = Ok payload.
Proof.
  split; [apply decode_encrypted_inv|]. intros [W H]. by apply decode_encrypted_encoded.
Qed.

(** The forwarded-packet codec, which prefixes the sender's device id, is
    exact in the same sense. *)
Lemma forwarded_packet_exact (payload : bytes) (p : ForwardedNetworkPacket) :
  decode_forwarded_network_packet payload = Ok p <->
  wf_forwarded p /\ encode_forwarded_network_packet p = Ok payload.
Proof.
  unfold decode_forwarded_network_packet, encode_forwarded_network_packet, wf_forwarded. split.
  - intros H. ok_inv H. subst p. cbn [sender_device_id packet].
    apply decode_encrypted_inv in E as [W E]. rewrite E. bool_prop.
    unfold len, fixed_size, header_size, encrypted_packet_header_size, device_id_size,
      min_virtual_ipv4_packet_size in *. cbn in *.
    split; [split; [apply length_slice; lia|done]|]. rewrite G0. cbn.
    f_equal. unfold slice. by rewrite drop_0, take_drop.
  - intros [[L W] H]. ok_inv H. subst payload.
    pose proof (encode_encrypted_len _ _ W E) as Ln. apply decode_encrypted_encoded in E as D; [|done].
    apply encode_encrypted_inv in E as [V _]. apply valid_packet_ciphertext in V.
    guard_true by (apply negb_true_iff, Z.ltb_ge; rewrite len_app, Ln; unfold len in *; rewrite L;
                   unfold min_virtual_ipv4_packet_size, device_id_size, fixed_size, header_size,
                     encrypted_packet_header_size, network_id_size, packet_nonce_size, packet_tag_size; lia).
    rewrite slice_here by done. rewrite G. rewrite drop_app_len by done. rewrite D.
    by destruct p.
Qed.

(** The packet codecs are exact: a payload decodes to an encrypted packet if and only
    if it is the encoding of that well-typed packet, and likewise for a forwarded packet,
    which prefixes the sender's device id.  Only packets that pass [valid_packet] (non-zero
    network, destination, epoch and sequence, nonce bound to the sequence, 20 to 65535 bytes
    of ciphertext) are ever decoded. *)
Lemma packet_codecs_exact (payload : bytes) :
  (forall p, decode_encrypted_network_packet payload = Ok p <-> wf_packet p /\ encode_encrypted_network_packet p = Ok payload) /\
  (forall p, decode_forwarded_network_packet payload = Ok p <-> wf_forwarded p /\ encode_forwarded_network_packet p = Ok payload) /\
  (forall p, decode_encrypted_network_packet payload = Ok p -> valid_packet p = true).
Proof.
  split; [intros p; apply encrypted_packet_exact|]. split; [intros p; apply forwarded_packet_exact|].
  intros p H. apply encrypted_packet_exact in H as [_ H]. by apply encode_encrypted_inv in H as [V _].
Qed.
