(* ===== verification/Ipv4.v ===== *)
(** IPv4 packets (include/lanlink/protocol/ipv4.hpp, ipv4_fanout.hpp,
    src/protocol/ipv4.cpp): header inspection, the internet checksum,
    fragmentation and the ICMP "fragmentation needed" reply. *)
From S2P Require Import Prelude.

(** ** Address predicates *)

(** [0xffffffffU << (32U - prefix_length)] and [~mask] in [uint32_t]. *)
Definition ipv4_mask (prefix_length : Z) : Z := Z.shiftl 0xffffffff (32 - prefix_length) mod 2 ^ 32.
Definition not32 (v : Z) : Z := Z.lxor v 0xffffffff.

Definition is_ipv4_subnet (subnet prefix_length : Z) : bool :=
  (prefix_length >? 0) && (prefix_length <=? 30) &&
  (Z.land subnet (not32 (ipv4_mask prefix_length)) =? 0).

Definition is_ipv4_host (address subnet prefix_length : Z) : bool :=
  if negb (is_ipv4_subnet subnet prefix_length) then false
  else
    let mask := ipv4_mask prefix_length in
    negb (address =? subnet) && negb (address =? Z.lor subnet (not32 mask)) &&
    (address <? 0xe0000000) && (Z.land address mask =? subnet).

Definition is_ipv4_multicast (address : Z) : bool := Z.land address 0xf0000000 =? 0xe0000000.

Definition is_ipv4_scoped_multicast (address : Z) : bool :=
  (Z.land address 0xff000000 =? 0xef000000) || (address =? 0xe00000fb) || (address =? 0xe00000fc).

Definition is_ipv4_fanout_destination (destination subnet prefix_length : Z) : bool :=
  if negb (is_ipv4_subnet subnet prefix_length) then false
  else
    let mask := ipv4_mask prefix_length in
    (destination =? 0xffffffff) || is_ipv4_scoped_multicast destination ||
    (destination =? Z.lor subnet (not32 mask)).

(** ** Checksum *)

(** The accumulation loop over a [uint32_t]. *)
Fixpoint sum_words (sum : Z) (bs : bytes) : Z :=
  match bs with
  | [] => sum
  | [a] => (sum + Z.shiftl (b2z a) 8) mod 2 ^ 32
  | a :: b :: rest => sum_words (((sum + Z.shiftl (b2z a) 8) mod 2 ^ 32 + b2z b) mod 2 ^ 32) rest
  end.

(** [while (sum >> 16U) sum = (sum & 0xffffU) + (sum >> 16U)]. *)
Fixpoint fold_carries (fuel : nat) (sum : Z) : Z :=
  match fuel with
  | O => sum
  | S fuel =>
      if negb (Z.shiftr sum 16 =? 0)
      then fold_carries fuel (Z.land sum 0xffff + Z.shiftr sum 16)
      else sum
  end.

Definition internet_checksum (bs : bytes) : Z :=
  not32 (fold_carries 3 (sum_words 0 bs)) mod 2 ^ 16.

Definition ihl (packet : bytes) : nat := Z.to_nat (Z.land (at_z packet 0) 15 * 4).

Definition update_ipv4_checksum (packet : bytes) : result bytes :=
  check! negb (len packet <? 20) else invalid_argument in
  let header := ihl packet in
  check! negb ((Z.of_nat header <? 20) || (Z.of_nat header >? len packet)) else invalid_argument in
  let packet := <[10%nat := x00]> (<[11%nat := x00]> packet) in
  Ok (put_at packet 10 (internet_checksum (take header packet)) 2).

(** ** Options *)

(** The scan of [copied_options]; [None] is running out of fuel. *)
Fixpoint copied_loop (fuel : nat) (packet : bytes) (header offset : nat) (acc : bytes)
    : option (result bytes) :=
  match fuel with
  | O => None
  | S fuel =>
      if (offset <? header)%nat then
        let type := at_z packet offset in
        if type =? 0 then Some (Ok acc)
        else if type =? 1 then copied_loop fuel packet header (offset + 1) acc
        else if (header <? offset + 2)%nat then Some (Throw invalid_argument)
        else
          let size := at_z packet (offset + 1) in
          if (size <? 2) || (size >? Z.of_nat (header - offset)) then Some (Throw invalid_argument)
          else
            let acc := if negb (Z.land type 0x80 =? 0)
                       then acc ++ slice offset (Z.to_nat size) packet else acc in
            copied_loop fuel packet header (offset + Z.to_nat size) acc
      else Some (Ok acc)
  end.

(** [while (result.size() % 4) result.push_back(0)]. *)
Definition pad4 (bs : bytes) : bytes := bs ++ replicate ((4 - length bs mod 4) mod 4) x00.

Definition copied_options (packet : bytes) (header : nat) : result bytes :=
  match copied_loop (S header) packet header 20 [] with
  | Some r => let* result := r in Ok (pad4 result)
  | None => Throw logic_error
  end.

(** ** Inspection *)

Record Ipv4Header := mk_ipv4 {
  ip_header_size : Z;
  source : Z;
  destination : Z;
  fragment_offset : Z;
  more_fragments : bool;
  dont_fragment : bool
}.

Definition inspect_ipv4 (packet : bytes) : result Ipv4Header :=
  check! negb ((len packet <? 20) || (len packet >? 65535) || negb (Z.shiftr (at_z packet 0) 4 =? 4))
    else invalid_argument in
  let header := ihl packet in
  check! negb ((Z.of_nat header <? 20) || (Z.of_nat header >? len packet) ||
               negb (get_at 4 packet 2 2 =? len packet) || bool_decide (at_ packet 8 = x00) ||
               negb (internet_checksum (take header packet) =? 0)) else invalid_argument in
  let* _ := copied_options packet header in
  let flags := get_at 4 packet 6 2 in
  let offset := Z.land flags 0x1fff * 8 in
  let more := negb (Z.land flags 0x2000 =? 0) in
  let df := negb (Z.land flags 0x4000 =? 0) in
  let payload := len packet - Z.of_nat header in
  check! negb (negb (Z.land flags 0x8000 =? 0) || (df && (more || negb (offset =? 0))) ||
               ((more || negb (offset =? 0)) && (payload =? 0)) || (more && negb (payload mod 8 =? 0)) ||
               (offset + payload >? 65535 - Z.of_nat header)) else invalid_argument in
  Ok (mk_ipv4 (Z.of_nat header) (get_at 4 packet 12 4) (get_at 4 packet 16 4) (offset mod 2 ^ 16) more df).

(** ** Fragmentation *)

(** One iteration: the fragment that carries [count] payload bytes from [offset]. *)
Definition make_fragment (packet : bytes) (info : Ipv4Header) (options : bytes)
    (offset header count remaining : Z) : result bytes :=
  let hs := Z.to_nat (ip_header_size info) in
  let fragment := slice 0 20 packet ++
    (if offset =? 0 then slice 20 (hs - 20) packet else options) ++
    slice (hs + Z.to_nat offset) (Z.to_nat count) packet in
  let fragment := <[0%nat := z2b (Z.lor 0x40 (header / 4))]> fragment in
  let fragment := put_at fragment 2 (len fragment) 2 in
  let fragment := put_at fragment 6
    (Z.lor ((fragment_offset info + offset) / 8)
           (if (count <? remaining) || more_fragments info then 0x2000 else 0)) 2 in
  update_ipv4_checksum fragment.

Fixpoint fragment_loop (fuel : nat) (packet : bytes) (mtu : Z) (info : Ipv4Header) (options : bytes)
    (offset : Z) (result : list bytes) : option (Prelude.result (list bytes)) :=
  match fuel with
  | O => None
  | S fuel =>
      if offset <? len packet - ip_header_size info then
        let header := if offset =? 0 then ip_header_size info else 20 + len options in
        let remaining := len packet - ip_header_size info - offset in
        let count := if remaining <=? mtu - header then remaining else (mtu - header) / 8 * 8 in
        if count =? 0 then Some (Throw invalid_argument)
        else
          match make_fragment packet info options offset header count remaining with
          | Throw e => Some (Throw e)
          | Ok fragment =>
              fragment_loop fuel packet mtu info options (offset + count) (result ++ [fragment])
          end
      else Some (Ok result)
  end.

Definition fragment_ipv4 (packet : bytes) (mtu : Z) : result (list bytes) :=
  check! negb (mtu <? 68) else invalid_argument in
  let* info := inspect_ipv4 packet in
  if len packet <=? mtu then Ok [packet]
  else
    check! negb (dont_fragment info) else length_error in
    let* options := copied_options packet (Z.to_nat (ip_header_size info)) in
    match fragment_loop (S (length packet)) packet mtu info options 0 [] with
    | Some r => r
    | None => Throw logic_error
    end.

(** ** The ICMP reply *)

Definition ipv4_fragmentation_needed (original : bytes) (router mtu : Z) : result (option bytes) :=
  let* info := inspect_ipv4 original in
  if negb (dont_fragment info) || negb (fragment_offset info =? 0) || (source info =? 0) ||
     (source info >=? 0xe0000000) || (destination info >=? 0xe0000000) || (router =? 0) ||
     (router >=? 0xe0000000)
  then Ok None
  else
    let type := at_z original (Z.to_nat (ip_header_size info)) in
    if bool_decide (at_ original 9 = x01) && (len original >? ip_header_size info) &&
       ((type =? 3) || (type =? 4) || (type =? 5) || (type =? 11) || (type =? 12))
    then Ok None
    else
      let quote := Z.min (len original) (ip_header_size info + 8) in
      let packet := replicate 28 x00 in
      let packet := <[9%nat := x01]> (<[8%nat := x40]> (<[0%nat := x45]> packet)) in
      let packet := put_at (put_at packet 12 router 4) 16 (source info) 4 in
      let packet := put_at (<[21%nat := x04]> (<[20%nat := x03]> packet)) 26 mtu 2 in
      let packet := packet ++ take (Z.to_nat quote) original in
      let packet := put_at packet 2 (len packet) 2 in
      let packet := put_at packet 22 (internet_checksum (drop 20 packet)) 2 in
      let* packet := update_ipv4_checksum packet in
      Ok (Some packet).

(** ** Address arithmetic *)

Lemma ipv4_mask_ldiff p :
  0 < p <= 32 -> ipv4_mask p = Z.ldiff (Z.ones 32) (Z.ones (32 - p)) /\
                 not32 (ipv4_mask p) = Z.ones (32 - p).
Proof.
  intros H.
  assert (C : forallb (fun p => bool_decide (ipv4_mask p = Z.ldiff (Z.ones 32) (Z.ones (32 - p)) /\
                 not32 (ipv4_mask p) = Z.ones (32 - p))) (seqZ 1 32) = true) by (vm_compute; reflexivity).
  rewrite forallb_forall in C. apply (bool_decide_eq_true_1 _), C. apply list_elem_of_In, elem_of_seqZ. lia.
Qed.

Lemma land_mask a p : word 4 a -> 0 < p <= 32 -> Z.land a (ipv4_mask p) = a / 2 ^ (32 - p) * 2 ^ (32 - p).
Proof.
  intros Ha Hp. destruct (ipv4_mask_ldiff p Hp) as [-> _].
  rewrite <- Z.shiftr_div_pow2, <- Z.shiftl_mul_pow2, <- Z.ldiff_ones_r by lia.
  replace a with (Z.land a (Z.ones 32)) at 2
    by (rewrite Z.land_ones by lia; apply Z.mod_small; words; lia).
  apply Z.bits_inj'. intros i Hi. rewrite !Z.land_spec, !Z.ldiff_spec, !Z.land_spec. by rewrite andb_assoc.
Qed.

Lemma is_ipv4_subnet_spec subnet p :
  is_ipv4_subnet subnet p = true <-> 0 < p <= 30 /\ subnet mod 2 ^ (32 - p) = 0.
Proof.
  unfold is_ipv4_subnet. rewrite !andb_true_iff, Z.gtb_lt, Z.leb_le, Z.eqb_eq. split.
  - intros [[H1 H2] H3]. split; [lia|]. destruct (ipv4_mask_ldiff p) as [_ E]; [lia|].
    by rewrite E, Z.land_ones in H3 by lia.
  - intros [Hp Hs]. split; [lia|]. destruct (ipv4_mask_ldiff p) as [_ ->]; [lia|].
    by rewrite Z.land_ones by lia.
Qed.

Lemma ipv4_broadcast subnet p :
  is_ipv4_subnet subnet p = true -> Z.lor subnet (not32 (ipv4_mask p)) = subnet + 2 ^ (32 - p) - 1.
Proof.
  intros H. apply is_ipv4_subnet_spec in H as [Hp Hs].
  destruct (ipv4_mask_ldiff p ltac:(lia)) as [_ ->]. pose proof (Z.add_lor_land subnet (Z.ones (32 - p))) as E.
  rewrite (Z.land_ones subnet), Hs, Z.ones_equiv in E by lia. rewrite Z.ones_equiv. lia.
Qed.

(** A host address is strictly between the subnet and its broadcast address. *)
Lemma is_ipv4_host_spec address subnet p :
  word 4 address ->
  is_ipv4_host address subnet p = true <->
  is_ipv4_subnet subnet p = true /\ subnet < address < subnet + 2 ^ (32 - p) - 1 /\ address < 0xe0000000.
Proof.
  intros Ha. unfold is_ipv4_host. destruct (is_ipv4_subnet subnet p) eqn:S; cbn [negb]; [|by split; [|intros []]].
  rewrite (ipv4_broadcast _ _ S). apply is_ipv4_subnet_spec in S as [Hp Hs].
  rewrite !andb_true_iff, !negb_true_iff, !Z.eqb_neq, Z.ltb_lt, Z.eqb_eq, land_mask by (done || lia).
  assert (0 < 2 ^ (32 - p)) by (apply Z.pow_pos_nonneg; lia).
  pose proof (Z.div_mod address (2 ^ (32 - p))). pose proof (Z.mod_pos_bound address (2 ^ (32 - p))).
  split.
  - intros [[[N1 N2] N3] N4]. split; [done|]. lia.
  - intros (_ & R & U). split; [split; [lia|done]|].
    assert (E : subnet = subnet / 2 ^ (32 - p) * 2 ^ (32 - p))
      by (pose proof (Z.div_mod subnet (2 ^ (32 - p))); lia).
    set (m := 2 ^ (32 - p)) in *. set (q := subnet / m) in *. rewrite E. f_equal. symmetry.
    apply Z.div_unique with (address - q * m); lia.
Qed.

(** ** The internet checksum *)

(** The sum of the 16-bit words, the last one padded with zero. *)
Fixpoint word_sum (bs : bytes) : Z :=
  match bs with
  | [] => 0
  | [a] => b2z a * 256
  | a :: b :: rest => b2z a * 256 + b2z b + word_sum rest
  end.

(** Induction over a byte string two bytes at a time. *)
Lemma pair_ind (P : bytes -> Prop) :
  P [] -> (forall a, P [a]) -> (forall a b l, P l -> P (a :: b :: l)) -> forall l, P l.
Proof.
  intros H0 H1 H2. assert (G : forall n l, (length l <= n)%nat -> P l).
  { induction n as [|n IH]; intros [|a [|b l]] L; cbn in L; auto; try lia. apply H2, IH. lia. }
  intros l. by apply (G (length l)).
Qed.

Lemma word_sum_bound bs : 0 <= 2 * word_sum bs <= 65535 * (len bs + 1).
Proof.
  induction bs as [|a|a b l IH] using pair_ind; unfold len in *; cbn [word_sum length];
    try pose proof (b2z_range a); try pose proof (b2z_range b); lia.
Qed.

Lemma word_sum_app a b : Nat.Even (length a) -> word_sum (a ++ b) = word_sum a + word_sum b.
Proof.
  induction a as [|x|x y l IH] using pair_ind; intros E; cbn [word_sum app]; [lia| |].
  - destruct E as [k E]. cbn in E. lia.
  - rewrite IH; [lia|]. destruct E as [k E]. cbn in E. exists (k - 1)%nat. lia.
Qed.

Lemma word_sum_put_be v : word 2 v -> word_sum (put_be 2 v) = v.
Proof.
  intros H. rewrite <- (be_value_put_word 2 v H) at 2. unfold put_be. cbn [word_sum].
  rewrite !be_value_cons. unfold be_value. cbn. lia.
Qed.

Lemma sum_words_spec bs sum :
  0 <= sum -> sum + word_sum bs < 2 ^ 32 -> sum_words sum bs = sum + word_sum bs.
Proof.
  revert sum. induction bs as [|a|a b l IH] using pair_ind; intros sum H0 H; cbn [sum_words word_sum] in *; [lia| |].
  all: rewrite Z.shiftl_mul_pow2 by lia; pose proof (b2z_range a).
  - change (2 ^ 8) with 256. rewrite Z.mod_small; lia.
  - change (2 ^ 8) with 256 in *. pose proof (b2z_range b). pose proof (word_sum_bound l). pose proof (len_nonneg l).
    rewrite (Z.mod_small (sum + b2z a * 256)), Z.mod_small by lia. rewrite IH; lia.
Qed.

(** The fold loop stops within three rounds, keeps the sum modulo 65535 and is
    zero only for zero. *)
Lemma fold_carries_spec sum :
  0 <= sum < 2 ^ 32 ->
  let r := fold_carries 3 sum in
  0 <= r <= 65535 /\ r mod 65535 = sum mod 65535 /\ (r = 0 <-> sum = 0).
Proof.
  assert (Step : forall s, 0 <= s -> Z.land s 0xffff + Z.shiftr s 16 = s mod 65536 + s / 65536).
  { intros s Hs. change 0xffff with (Z.ones 16). by rewrite Z.land_ones, Z.shiftr_div_pow2 by lia. }
  assert (Mod : forall s, (s mod 65536 + s / 65536) mod 65535 = s mod 65535).
  { intros s. rewrite (Z.div_mod s 65536) at 3 by lia.
    replace (65536 * (s / 65536) + s mod 65536) with (s mod 65536 + s / 65536 + s / 65536 * 65535) by lia.
    by rewrite Z.mod_add by lia. }
  assert (End : forall s, (Z.shiftr s 16 =? 0) = true -> 0 <= s -> s <= 65535).
  { intros s E Hs. apply Z.eqb_eq in E. rewrite Z.shiftr_div_pow2 in E by lia.
    apply Z.div_small_iff in E; lia. }
  intros H. cbn [fold_carries].
  assert (B : forall s, 0 <= s -> 0 <= s mod 65536 < 65536 /\ 0 <= s / 65536 /\ s = 65536 * (s / 65536) + s mod 65536).
  { intros s Hs. pose proof (Z.mod_pos_bound s 65536). pose proof (Z.div_pos s 65536).
    pose proof (Z.div_mod s 65536). lia. }
  destruct (Z.shiftr sum 16 =? 0) eqn:E1; cbn [negb]; [apply End in E1; lia|].
  rewrite Step by lia. set (s1 := sum mod 65536 + sum / 65536). pose proof (B sum) as B0.
  assert (H1 : 0 <= s1 <= 131070) by (unfold s1; pose proof (Z.div_lt_upper_bound sum 65536 65536); lia).
  assert (Z1 : s1 = 0 <-> sum = 0) by (unfold s1; lia).
  destruct (Z.shiftr s1 16 =? 0) eqn:E2; cbn [negb];
    [apply End in E2; [|lia]; split; [lia|]; split; [apply Mod|done]|].
  rewrite Step by lia. set (s2 := s1 mod 65536 + s1 / 65536). pose proof (B s1) as B1.
  assert (H2 : 0 <= s2 <= 65535) by (unfold s2; pose proof (Z.div_lt_upper_bound s1 65536 2); lia).
  assert (Z2 : s2 = 0 <-> s1 = 0) by (unfold s2; lia).
  assert (M2 : s2 mod 65535 = sum mod 65535) by (unfold s2; rewrite Mod; apply Mod).
  replace (Z.shiftr s2 16 =? 0) with true; cbn [negb]; [split; [lia|split; [done|tauto]]|].
  symmetry. apply Z.eqb_eq. rewrite Z.shiftr_div_pow2 by lia. apply Z.div_small. lia.
Qed.

Lemma high_bits_16 r i : 0 <= r <= 65535 -> 16 <= i -> Z.testbit r i = false.
Proof.
  intros H Hi. destruct (Z.eq_dec r 0) as [->|]; [apply Z.bits_0|].
  apply Z.bits_above_log2; [lia|]. apply Z.log2_lt_pow2; [lia|].
  assert (2 ^ 16 <= 2 ^ i) by (apply Z.pow_le_mono_r; lia). lia.
Qed.

Lemma not32_low r : 0 <= r <= 65535 -> not32 r mod 2 ^ 16 = 65535 - r.
Proof.
  intros H. unfold not32. rewrite <- Z.land_ones by lia. change 0xffffffff with (Z.ones 32).
  assert (E : Z.land (Z.lxor r (Z.ones 32)) (Z.ones 16) = Z.lxor r (Z.ones 16)).
  { apply Z.bits_inj'. intros i Hi. rewrite Z.land_spec, !Z.lxor_spec, !Z.testbit_ones by lia.
    destruct (Z.leb_spec 0 i), (Z.ltb_spec i 16), (Z.ltb_spec i 32); try lia; cbn;
      rewrite ?(high_bits_16 r i) by lia; done || by destruct (Z.testbit r i). }
  rewrite E. pose proof (Z.add_nocarry_lxor (Z.lxor r (Z.ones 16)) r) as A.
  rewrite Z.lxor_assoc, (Z.lxor_comm (Z.ones 16) r), <- Z.lxor_assoc, Z.lxor_nilpotent, Z.lxor_0_l in A.
  assert (D : Z.land (Z.lxor r (Z.ones 16)) r = 0).
  { apply Z.bits_inj'. intros i Hi. rewrite Z.land_spec, Z.lxor_spec, Z.bits_0, Z.testbit_ones by lia.
    destruct (Z.leb_spec 0 i), (Z.ltb_spec i 16); try lia; cbn;
      rewrite ?(high_bits_16 r i) by lia; done || by destruct (Z.testbit r i). }
  specialize (A D). change (Z.ones 16) with 65535 in *. lia.
Qed.

(** The checksum is the complement of the ones'-complement sum. *)
Lemma internet_checksum_spec bs :
  len bs <= 65535 ->
  exists r, internet_checksum bs = 65535 - r /\ 0 <= r <= 65535 /\
    r mod 65535 = word_sum bs mod 65535 /\ (r = 0 <-> word_sum bs = 0).
Proof.
  intros L. pose proof (word_sum_bound bs) as B. unfold internet_checksum.
  rewrite sum_words_spec by lia. destruct (fold_carries_spec (0 + word_sum bs)) as (R & M & Z); [lia|].
  eexists. split; [by apply not32_low|]. rewrite Z.add_0_l in *. done.
Qed.

Lemma internet_checksum_word bs : len bs <= 65535 -> word 2 (internet_checksum bs).
Proof. intros L. destruct (internet_checksum_spec bs L) as (r & -> & R & _). words. lia. Qed.

(** A positive sum that is a multiple of 65535 verifies. *)
Lemma checksum_verifies bs :
  len bs <= 65535 -> word_sum bs mod 65535 = 0 -> word_sum bs <> 0 -> internet_checksum bs = 0.
Proof.
  intros L M N. destruct (internet_checksum_spec bs L) as (r & -> & R & E & Z). rewrite M in E.
  apply Z.mod_divide in E as [k E]; [|lia]. lia.
Qed.

(** Writing the checksum of data whose checksum field is zero makes it verify. *)
Lemma checksum_fill pre post :
  Nat.Even (length pre) -> len (pre ++ [x00; x00] ++ post) <= 65535 ->
  internet_checksum (pre ++ put_be 2 (internet_checksum (pre ++ [x00; x00] ++ post)) ++ post) = 0.
Proof.
  intros Ev L. destruct (internet_checksum_spec _ L) as (r & -> & R & M & Z).
  assert (W : forall v, word 2 v -> word_sum (pre ++ put_be 2 v ++ post) = word_sum pre + v + word_sum post).
  { intros v Hv. rewrite word_sum_app by done.
    rewrite word_sum_app by (rewrite length_put_be; by exists 1%nat). rewrite word_sum_put_be by done. lia. }
  assert (W0 := W 0 ltac:(by words)). change (put_be 2 0) with [x00; x00] in W0. rewrite W0 in *.
  pose proof (word_sum_bound pre) as B1. pose proof (word_sum_bound post) as B2.
  assert (V : word 2 (65535 - r)) by (words; lia).
  apply checksum_verifies; [|rewrite W by done..].
  - revert L. unfold len. rewrite !length_app, length_put_be. done.
  - replace (word_sum pre + (65535 - r) + word_sum post)
      with (word_sum pre + 0 + word_sum post - r + 1 * 65535) by lia.
    rewrite Z.mod_add by lia. rewrite Zminus_mod, M, Z.sub_diag. done.
  - assert (r = 65535 -> word_sum pre + 0 + word_sum post <> 0) by (intros ->; lia). lia.
Qed.

#[local] Opaque internet_checksum.

Lemma ihl_bound p : (ihl p <= 60)%nat.
Proof.
  unfold ihl. change 15 with (Z.ones 4). rewrite Z.land_ones by lia.
  pose proof (Z.mod_pos_bound (at_z p 0) (2 ^ 4)). lia.
Qed.

Lemma ihl_mod4 p : (ihl p mod 4 = 0)%nat.
Proof.
  unfold ihl. change 15 with (Z.ones 4). rewrite Z.land_ones by lia.
  pose proof (Z.mod_pos_bound (at_z p 0) (2 ^ 4)).
  rewrite Z2Nat.inj_mul by lia. apply Nat.Div0.mod_mul.
Qed.

Lemma ihl_app a b : a <> [] -> ihl (a ++ b) = ihl a.
Proof. destruct a; [done|]. reflexivity. Qed.

(** [update_ipv4_checksum] only rewrites bytes 10 and 11, so that the header verifies. *)
Lemma update_ipv4_checksum_spec p :
  (20 <= ihl p <= length p)%nat ->
  exists c, update_ipv4_checksum p = Ok (take 10 p ++ put_be 2 c ++ drop 12 p) /\
    internet_checksum (take (ihl p) (take 10 p ++ put_be 2 c ++ drop 12 p)) = 0.
Proof.
  intros H. unfold update_ipv4_checksum, len.
  guard_true by (apply negb_true_iff, Z.ltb_ge; lia).
  guard_true by (apply negb_true_iff, orb_false_iff; rewrite Z.gtb_ltb, !Z.ltb_ge; lia).
  assert (Z : <[10%nat := x00]> (<[11%nat := x00]> p) = take 10 p ++ [x00; x00] ++ drop 12 p).
  { rewrite list_insert_insert_ne by lia. change [x00; x00] with (put_be 2 0).
    change 12%nat with (10 + 2)%nat. rewrite <- put_at_spec by lia. reflexivity. }
  rewrite Z. set (A := take 10 p). assert (LA : length A = 10%nat) by (unfold A; rewrite length_take; lia).
  set (B := drop 12 p). assert (LB : length B = (length p - 12)%nat) by (unfold B; rewrite length_drop; lia).
  assert (T : forall m, length m = 2%nat -> take (ihl p) (A ++ m ++ B) = A ++ m ++ take (ihl p - 12) B).
  { intros m Lm. rewrite app_assoc, take_app_ge, <- app_assoc by (rewrite length_app; lia).
    by rewrite length_app, LA, Lm. }
  eexists. split.
  - rewrite put_at_spec by (rewrite !length_app, LA; cbn; lia). rewrite take_app_len by done.
    rewrite (app_assoc A [x00; x00] B), drop_app_len by (rewrite length_app, LA; done). done.
  - rewrite <- (app_assoc A), (T [x00; x00] eq_refl), (T (put_be 2 _) (length_put_be _ _)).
    rewrite checksum_fill; [done|rewrite LA; by exists 5%nat|].
    pose proof (ihl_bound p). unfold len. rewrite !length_app, length_take, LA, LB. cbn. lia.
Qed.

(** ** The options area *)

Definition wf_option (o : bytes) : Prop :=
  exists t sz body, o = t :: sz :: body /\ 2 <= b2z t /\ b2z sz = len o.

Definition is_copied (o : bytes) : bool := negb (Z.land (at_z o 0) 0x80 =? 0).

(** [options_ok area c]: [area] is a well-formed options area and [c] is what a
    fragment copies from it. *)
Inductive options_ok : bytes -> bytes -> Prop :=
| options_nil : options_ok [] []
| options_end rest : options_ok (x00 :: rest) []
| options_nop rest c : options_ok rest c -> options_ok (x01 :: rest) c
| options_one o rest c :
    wf_option o -> options_ok rest c -> options_ok (o ++ rest) (if is_copied o then o ++ c else c).

Lemma copied_loop_sound packet header : (header <= length packet)%nat ->
  forall fuel offset acc, (offset <= header)%nat -> (header - offset < fuel)%nat ->
  exists r, copied_loop fuel packet header offset acc = Some r /\
    match r with
    | Ok res => exists c, res = acc ++ c /\ options_ok (slice offset (header - offset) packet) c
    | Throw e => e = invalid_argument
    end.
Proof.
  intros Hh. induction fuel as [|fuel IH]; intros offset acc Ho Hf; [lia|]. cbn [copied_loop].
  destruct (Nat.ltb_spec offset header) as [Hlt|Hge].
  2:{ eexists. split; [done|]. exists []. rewrite app_nil_r. replace (header - offset)%nat with 0%nat by lia.
      split; [done|constructor]. }
  unfold at_z. destruct (Z.eqb_spec (b2z (at_ packet offset)) 0) as [E0|N0].
  { eexists. split; [done|]. exists []. rewrite app_nil_r. split; [done|].
    replace (header - offset)%nat with (S (header - offset - 1)) by lia.
    rewrite slice_cons by lia. rewrite (byte_const _ _ E0). constructor. }
  destruct (Z.eqb_spec (b2z (at_ packet offset)) 1) as [E1|N1].
  { destruct (IH (offset + 1)%nat acc) as (r & -> & R); [lia..|]. exists r. split; [done|].
    destruct r as [res|]; [|done]. destruct R as (c & -> & R). exists c. split; [done|].
    replace (header - offset)%nat with (S (header - (offset + 1))) by lia.
    rewrite slice_cons by lia. rewrite (byte_const _ _ E1). by constructor. }
  destruct (Nat.ltb_spec header (offset + 2)); [by eexists|].
  set (sz := b2z (at_ packet (offset + 1))). destruct (_ || _) eqn:G; [by eexists|].
  bool_prop. pose proof (b2z_range (at_ packet offset)).
  set (acc' := if negb _ then _ else _). destruct (IH (offset + Z.to_nat sz)%nat acc') as (r & -> & R); [lia..|].
  exists r. split; [done|]. destruct r as [res|]; [|done]. destruct R as (c & -> & R).
  set (o := slice offset (Z.to_nat sz) packet) in *.
  assert (Lo : length o = Z.to_nat sz) by (apply length_slice; lia).
  assert (Wo : wf_option o).
  { assert (exists k, Z.to_nat sz = S (S k)) as [k Hk] by (exists (Z.to_nat sz - 2)%nat; lia).
    exists (at_ packet offset), (at_ packet (offset + 1)), (slice (offset + 1 + 1) k packet).
    split; [|unfold len; rewrite Lo; split; [lia|fold sz; lia]].
    unfold o. rewrite Hk. by rewrite !slice_cons by lia. }
  exists (if is_copied o then o ++ c else c). split.
  - unfold acc', is_copied, at_z. replace (at_ o 0) with (at_ packet offset)
      by (unfold o; rewrite at_slice, Nat.add_0_r by lia; done).
    destruct (negb _); [by rewrite app_assoc|done].
  - replace (header - offset)%nat with (Z.to_nat sz + (header - (offset + Z.to_nat sz)))%nat by lia.
    rewrite slice_split. by apply options_one.
Qed.

Lemma slice_app_inv off n bs a b :
  (off + n <= length bs)%nat -> slice off n bs = a ++ b ->
  n = (length a + length b)%nat /\ slice off (length a) bs = a /\
  slice (off + length a) (length b) bs = b.
Proof.
  intros H E. pose proof (f_equal length E) as L. rewrite length_slice, length_app in L by done.
  split; [done|]. rewrite L, slice_split in E. apply app_inj_1 in E; [done|]. apply length_slice. lia.
Qed.

Lemma copied_loop_complete packet header area c :
  options_ok area c -> (header <= length packet)%nat ->
  forall fuel offset acc, (offset <= header)%nat -> (header - offset < fuel)%nat ->
  slice offset (header - offset) packet = area ->
  copied_loop fuel packet header offset acc = Some (Ok (acc ++ c)).
Proof.
  intros H Hh. induction H as [|rest|rest c H IH|o rest c Wo H IH];
    intros [|fuel] offset acc Ho Hf E; try lia; cbn [copied_loop].
  - apply (f_equal length) in E. rewrite length_slice in E by lia. cbn in E.
    replace (offset <? header)%nat with false by (symmetry; apply Nat.ltb_ge; lia). by rewrite app_nil_r.
  - apply (slice_app_inv _ _ _ [x00]) in E as (L & E & _); [|lia].
    replace (offset <? header)%nat with true by (symmetry; apply Nat.ltb_lt; cbn in L; lia).
    cbn [length] in E. rewrite slice_one in E by (cbn in L; lia). unfold at_z. injection E as ->. by rewrite app_nil_r.
  - apply (slice_app_inv _ _ _ [x01]) in E as (L & E & E2); [|lia]. cbn [length] in *.
    replace (offset <? header)%nat with true by (symmetry; apply Nat.ltb_lt; lia).
    rewrite slice_one in E by lia. unfold at_z. injection E as ->. cbn [b2z Z.eqb].
    change (b2z x01 =? 0) with false. change (b2z x01 =? 1) with true. cbv iota. apply IH; [lia..|].
    by replace (header - (offset + 1))%nat with (length rest) by lia.
  - destruct Wo as (t & sz & body & -> & Ht & Hsz). pose proof E as E0.
    apply slice_app_inv in E as (L & E & E2); [|lia]. cbn [length] in L, E.
    replace (offset <? header)%nat with true by (symmetry; apply Nat.ltb_lt; lia).
    pose proof E as E1. rewrite !slice_cons in E1 by lia. injection E1 as E1t E1s _.
    rewrite !len_cons in Hsz. unfold at_z, len in *. rewrite E1t, E1s.
    destruct (Z.eqb_spec (b2z t) 0), (Z.eqb_spec (b2z t) 1); try lia.
    replace (header <? offset + 2)%nat with false by (symmetry; apply Nat.ltb_ge; lia).
    replace (_ || _) with false
      by (symmetry; apply orb_false_iff; rewrite Z.gtb_ltb, !Z.ltb_ge; lia).
    assert (S : slice offset (Z.to_nat (b2z sz)) packet = t :: sz :: body)
      by (rewrite <- E; f_equal; lia).
    rewrite S, IH; [|lia|lia|etransitivity; [|exact E2]; cbn [length]; f_equal; lia].
    unfold is_copied, at_z. cbn [at_ nth]. destruct (negb _); [|done]. by rewrite <- app_assoc.
Qed.

Lemma options_ok_zeros n : options_ok (replicate n x00) [].
Proof. destruct n; constructor. Qed.

(** What is copied is itself a well-formed options area, from which everything is copied again. *)
Lemma options_ok_copied area c n : options_ok area c -> options_ok (c ++ replicate n x00) c.
Proof.
  induction 1 as [|rest|rest c H IH|o rest c Wo H IH]; cbn [app]; auto using options_ok_zeros.
  destruct (is_copied o) eqn:C; [|done]. rewrite <- app_assoc. pose proof (options_one o _ _ Wo IH) as O.
  by rewrite C in O.
Qed.

Lemma options_ok_length area c : options_ok area c -> (length c <= length area)%nat.
Proof.
  induction 1 as [|rest|rest c H IH|o rest c Wo H IH]; cbn [length]; try lia.
  rewrite length_app. destruct (is_copied o); rewrite ?length_app; lia.
Qed.

Lemma length_pad4 c : (length (pad4 c) mod 4 = 0)%nat /\ (length c <= length (pad4 c) < length c + 4)%nat.
Proof.
  unfold pad4. rewrite length_app, length_replicate.
  pose proof (Nat.div_mod_eq (length c) 4) as D. pose proof (Nat.mod_upper_bound (length c) 4).
  set (q := (length c / 4)%nat) in *. set (r := (length c mod 4)%nat) in *. split.
  - assert (C : exists k, (length c + (4 - r) mod 4 = k * 4)%nat).
    { destruct r as [|[|[|[|]]]]; [exists q|exists (q + 1)%nat|exists (q + 1)%nat|exists (q + 1)%nat|]; cbn in *; lia. }
    destruct C as [k ->]. apply Nat.Div0.mod_mul.
  - pose proof (Nat.mod_upper_bound (4 - r) 4). lia.
Qed.

Lemma pad4_le c n : (length c <= n)%nat -> (n mod 4 = 0)%nat -> (length (pad4 c) <= n)%nat.
Proof.
  intros H Hn. pose proof (length_pad4 c) as [M L]. pose proof (Nat.div_mod_eq n 4).
  pose proof (Nat.div_mod_eq (length (pad4 c)) 4). lia.
Qed.

Lemma copied_options_sound packet header opts :
  (20 <= header <= length packet)%nat -> copied_options packet header = Ok opts ->
  exists c, opts = pad4 c /\ options_ok (slice 20 (header - 20) packet) c.
Proof.
  intros H E. unfold copied_options in E.
  destruct (copied_loop_sound packet header ltac:(lia) (S header) 20 [] ltac:(lia) ltac:(lia)) as (r & L & R).
  rewrite L in E. destruct r as [res|]; [|done]. destruct R as (c & -> & R). apply Ok_inj in E as <-. by exists c.
Qed.

Lemma copied_options_complete packet header area c :
  (20 <= header <= length packet)%nat -> slice 20 (header - 20) packet = area -> options_ok area c ->
  copied_options packet header = Ok (pad4 c).
Proof.
  intros H E O. unfold copied_options.
  rewrite (copied_loop_complete packet header area c O) by (done || lia). done.
Qed.

(** ** Packets by fields *)

(** The first twelve bytes of a header and the whole packet, field by field. *)
Definition fields12 (b0 b1 : byte) (total : Z) (b4 b5 : byte) (flags : Z) (b8 b9 : byte) (ck : Z) : bytes :=
  [b0; b1] ++ put_be 2 total ++ [b4; b5] ++ put_be 2 flags ++ [b8; b9] ++ put_be 2 ck.
Definition ip_packet b0 b1 total b4 b5 flags b8 b9 ck (addrs opts body : bytes) : bytes :=
  fields12 b0 b1 total b4 b5 flags b8 b9 ck ++ addrs ++ opts ++ body.

Lemma length_ip_packet b0 b1 total b4 b5 flags b8 b9 ck addrs opts body :
  length addrs = 8%nat ->
  length (ip_packet b0 b1 total b4 b5 flags b8 b9 ck addrs opts body) = (20 + length opts + length body)%nat.
Proof. intros H. unfold ip_packet. rewrite !length_app, H. change (length (fields12 _ _ _ _ _ _ _ _ _)) with 12%nat. lia. Qed.

(** The version and header-length byte. *)
Lemma version_byte k :
  0 <= k <= 15 -> Z.land (b2z (z2b (Z.lor 0x40 k))) 15 = k /\ Z.shiftr (b2z (z2b (Z.lor 0x40 k))) 4 = 4.
Proof.
  intros H.
  assert (C : forallb (fun k => bool_decide (Z.land (b2z (z2b (Z.lor 0x40 k))) 15 = k /\
                Z.shiftr (b2z (z2b (Z.lor 0x40 k))) 4 = 4)) (seqZ 0 16) = true) by (vm_compute; reflexivity).
  rewrite forallb_forall in C. apply (bool_decide_eq_true_1 _), C. apply list_elem_of_In, elem_of_seqZ. lia.
Qed.

(** The flags-and-offset word. *)
Lemma flags_word o (more : bool) :
  0 <= o < 65536 -> o mod 8 = 0 ->
  let fl := Z.lor (o / 8) (if more then 0x2000 else 0) in
  word 2 fl /\ Z.land fl 0x1fff * 8 = o /\ negb (Z.land fl 0x2000 =? 0) = more /\
  Z.land fl 0x4000 = 0 /\ Z.land fl 0x8000 = 0.
Proof.
  intros Ho Hm fl. assert (A : Z.land (o / 8) 0x1fff = o / 8).
  { change 0x1fff with (Z.ones 13). rewrite Z.land_ones by lia. apply Z.mod_small.
    split; [apply Z.div_pos; lia|]. apply Z.div_lt_upper_bound; lia. }
  assert (M : forall m, Z.land 0x1fff m = 0 -> Z.land (o / 8) m = 0).
  { intros m Hz. by rewrite <- A, <- Z.land_assoc, Hz, Z.land_0_r. }
  assert (O : o = o / 8 * 8) by (pose proof (Z.div_mod o 8); lia).
  assert (B : 0 <= o / 8 < 8192) by lia.
  assert (L : forall m, Z.land fl m = Z.lor (Z.land (o / 8) m) (Z.land (if more then 0x2000 else 0) m))
    by (intros; apply Z.land_lor_distr_l).
  rewrite !L, A, (M 0x2000), (M 0x4000), (M 0x8000) by done. repeat split.
  - apply Z.lor_nonneg. destruct more; lia.
  - pose proof (Z.add_lor_land (o / 8) (if more then 0x2000 else 0)) as E. fold fl in E.
    replace (Z.land (o / 8) (if more then 0x2000 else 0)) with 0 in E by (destruct more; rewrite ?M, ?Z.land_0_r; done).
    change (2 ^ (8 * Z.of_nat 2)) with 65536. destruct more; lia.
  - destruct more; cbn; rewrite ?Z.lor_0_r; lia.
  - by destruct more.
  - by destruct more.
  - by destruct more.
Qed.

Lemma ip_packet_reads b0 b1 total b4 b5 flags b8 b9 ck addrs opts body :
  length addrs = 8%nat -> word 2 total -> word 2 flags ->
  let p := ip_packet b0 b1 total b4 b5 flags b8 b9 ck addrs opts body in
  at_ p 0 = b0 /\ at_ p 1 = b1 /\ get_at 4 p 2 2 = total /\ at_ p 4 = b4 /\ at_ p 5 = b5 /\
  get_at 4 p 6 2 = flags /\ at_ p 8 = b8 /\ at_ p 9 = b9 /\
  get_at 4 p 12 4 = be_value (take 4 addrs) /\ get_at 4 p 16 4 = be_value (drop 4 addrs) /\
  slice 20 (length opts) p = opts /\ drop (20 + length opts) p = body.
Proof.
  intros La Ht Hf p. assert (Lp := length_ip_packet b0 b1 total b4 b5 flags b8 b9 ck addrs opts body La). fold p in Lp.
  do 8 (destruct addrs as [|? addrs]; [discriminate La|]). destruct addrs; [|discriminate La].
  rewrite !get_at_slice by lia. unfold p, ip_packet, fields12.
  split_and!; try reflexivity.
  - change (be_value (slice 2 2 _)) with (be_value (put_be 2 total)). by apply be_value_put_word.
  - change (be_value (slice 6 2 _)) with (be_value (put_be 2 flags)). by apply be_value_put_word.
  - rewrite <- !app_assoc. by slice_eval.
  - rewrite !app_assoc. apply drop_app_len. rewrite !length_app, !length_put_be. cbn [length]. lia.
Qed.

(** A packet built field by field passes [inspect_ipv4], which returns its fields. *)
Lemma inspect_ip_packet b1 total b4 b5 off (more : bool) b8 b9 ck (addrs opts body c : bytes) :
  let h := 20 + len opts in
  let p := ip_packet (z2b (Z.lor 0x40 (h / 4))) b1 total b4 b5
             (Z.lor (off / 8) (if more then 0x2000 else 0)) b8 b9 ck addrs opts body in
  length addrs = 8%nat -> total = h + len body -> total <= 65535 -> h <= 60 -> h mod 4 = 0 ->
  0 <= off -> off mod 8 = 0 -> off + len body <= 65535 - h ->
  ((more || negb (off =? 0)) = true -> 0 < len body) -> (more = true -> len body mod 8 = 0) ->
  b8 <> x00 -> options_ok opts c -> internet_checksum (take (Z.to_nat h) p) = 0 ->
  inspect_ipv4 p = Ok (mk_ipv4 h (be_value (take 4 addrs)) (be_value (drop 4 addrs)) off more false).
Proof.
  intros h p La Et Ht Hh H4 Ho H8 Hb Hne Hm8 Httl Hopt Hck.
  pose proof (len_nonneg opts). pose proof (len_nonneg body).
  destruct (flags_word off more) as (Wf & F1 & F2 & F3 & F4); [lia|done|].
  set (fl := Z.lor (off / 8) (if more then 0x2000 else 0)) in *.
  destruct (ip_packet_reads (z2b (Z.lor 0x40 (h / 4))) b1 total b4 b5 fl b8 b9 ck addrs opts body La) as
    (R0 & _ & R2 & _ & _ & R6 & R8 & _ & Rs & Rd & Ro & _); [words; lia|done|].
  change (ip_packet _ _ _ _ _ _ _ _ _ _ _ _) with p in R0, R2, R6, R8, Rs, Rd, Ro.
  assert (Lp : len p = total)
    by (unfold p, len; rewrite length_ip_packet by done; unfold h, len in *; lia).
  destruct (version_byte (h / 4)) as [V1 V2]; [split; [apply Z.div_pos; lia|apply Z.div_le_upper_bound; lia]|].
  assert (Eh : ihl p = Z.to_nat h).
  { unfold ihl, at_z. rewrite R0, V1. f_equal. pose proof (Z.div_mod h 4). lia. }
  unfold inspect_ipv4. rewrite Eh, Lp, R2, R6, R8, Rs, Rd, Hck. unfold at_z. rewrite R0, V2.
  guard_true by (apply negb_true_iff, orb_false_iff; split; [|done]; apply orb_false_iff;
                 rewrite Z.gtb_ltb, !Z.ltb_ge; lia).
  rewrite Z2Nat.id by lia.
  guard_true by (rewrite Z.eqb_refl, bool_decide_eq_false_2 by done; apply negb_true_iff;
                 rewrite !orb_false_r; apply orb_false_iff; rewrite Z.gtb_ltb, !Z.ltb_ge; lia).
  rewrite (copied_options_complete p (Z.to_nat h) opts c);
    [|unfold len in *; lia|etransitivity; [|exact Ro]; f_equal; unfold h, len; lia|done].
  rewrite F1, F2, F3, F4. cbn [Z.eqb negb orb andb].
  guard_true by (apply negb_true_iff; rewrite !orb_false_iff; split; [split|];
    [ destruct (more || negb (off =? 0)) eqn:X; [|done]; cbn; apply Z.eqb_neq; specialize (Hne eq_refl); lia
    | destruct more; [|done]; cbn; apply negb_false_iff, Z.eqb_eq; rewrite <- (Hm8 eq_refl); f_equal; lia
    | rewrite Z.gtb_ltb; apply Z.ltb_ge; lia ]).
  rewrite (Z.mod_small off) by lia. done.
Qed.

(** The same for an unfragmented packet without options, with don't-fragment set or not. *)
Lemma inspect_plain_packet (df : bool) b1 total b4 b5 b8 b9 ck (addrs body : bytes) :
  let p := ip_packet x45 b1 total b4 b5 (if df then 0x4000 else 0) b8 b9 ck addrs [] body in
  length addrs = 8%nat -> total = 20 + len body -> total <= 65535 -> b8 <> x00 ->
  internet_checksum (take 20 p) = 0 ->
  inspect_ipv4 p = Ok (mk_ipv4 20 (be_value (take 4 addrs)) (be_value (drop 4 addrs)) 0 false df).
Proof.
  intros p La Et Ht Httl Hck. pose proof (len_nonneg body).
  destruct (ip_packet_reads x45 b1 total b4 b5 (if df then 0x4000 else 0) b8 b9 ck addrs [] body La) as
    (R0 & _ & R2 & _ & _ & R6 & R8 & _ & Rs & Rd & _); [words; lia|words; destruct df; lia|].
  change (ip_packet _ _ _ _ _ _ _ _ _ _ _ _) with p in R0, R2, R6, R8, Rs, Rd.
  assert (Lp : len p = total) by (unfold p, len; rewrite length_ip_packet by done; unfold len in *; cbn [length]; lia).
  assert (Eh : ihl p = 20%nat) by (unfold ihl, at_z; by rewrite R0).
  unfold inspect_ipv4. rewrite Eh, Lp, R2, R6, R8, Rs, Rd, Hck. unfold at_z. rewrite R0.
  guard_true by (apply negb_true_iff, orb_false_iff; split; [|done]; apply orb_false_iff;
                 rewrite Z.gtb_ltb, !Z.ltb_ge; lia).
  guard_true by (rewrite Z.eqb_refl, bool_decide_eq_false_2 by done; apply negb_true_iff;
                 rewrite !orb_false_r; apply orb_false_iff; rewrite Z.gtb_ltb, !Z.ltb_ge; lia).
  rewrite (copied_options_complete p 20 [] []) by (solve [unfold len in *; lia | done | constructor]).
  destruct df; (guard_true by (apply negb_true_iff; change ((0 + (total - 20) >? 65515) = false); lia)); done.
Qed.

(** What a successful inspection says about the packet. *)
Lemma inspect_ipv4_inv p info :
  inspect_ipv4 p = Ok info ->
  20 <= len p <= 65535 /\ ip_header_size info = Z.of_nat (ihl p) /\ (20 <= ihl p <= length p)%nat /\
  source info = get_at 4 p 12 4 /\ destination info = get_at 4 p 16 4 /\ at_ p 8 <> x00 /\
  (exists c, copied_options p (ihl p) = Ok (pad4 c) /\ options_ok (slice 20 (ihl p - 20) p) c) /\
  0 <= fragment_offset info /\ fragment_offset info mod 8 = 0 /\
  fragment_offset info + len p <= 65535 /\
  (more_fragments info = true -> (len p - Z.of_nat (ihl p)) mod 8 = 0) /\
  (dont_fragment info = true -> fragment_offset info = 0 /\ more_fragments info = false).
Proof.
  unfold inspect_ipv4. intros H. ok_inv H. bool_prop.
  assert (Hi : (20 <= ihl p <= length p)%nat) by (unfold len in *; lia).
  apply copied_options_sound in E as E'; [|done]. destruct E' as (c & -> & O).
  set (off := Z.land (get_at 4 p 6 2) 0x1fff * 8) in *.
  assert (B : 0 <= off <= 65528).
  { unfold off. change 0x1fff with (Z.ones 13). rewrite Z.land_ones by lia.
    pose proof (Z.mod_pos_bound (get_at 4 p 6 2) (2 ^ 13)). lia. }
  subst info. cbn [ip_header_size source destination fragment_offset more_fragments dont_fragment].
  rewrite (Z.mod_small off) by lia. split_and!; try done; try lia.
  - by exists c.
  - unfold off. apply Z.mod_mul. lia.
Qed.

Definition fragment_flags (info : Ipv4Header) (offset count remaining : Z) : bool :=
  (count <? remaining) || more_fragments info.

(** The bytes of one fragment. *)
Lemma make_fragment_shape p0 p1 p2 p3 p4 p5 p6 p7 p8 p9 p10 p11 addrs rest info options offset header count remaining :
  let packet := [p0; p1; p2; p3; p4; p5; p6; p7; p8; p9; p10; p11] ++ addrs ++ rest in
  let hs := Z.to_nat (ip_header_size info) in
  let opts := if offset =? 0 then slice 20 (hs - 20) packet else options in
  let body := slice (hs + Z.to_nat offset) (Z.to_nat count) packet in
  length addrs = 8%nat -> header = 20 + len opts -> header <= 60 -> header mod 4 = 0 ->
  exists ck,
    let f := ip_packet (z2b (Z.lor 0x40 (header / 4))) p1 (header + len body) p4 p5
               (Z.lor ((fragment_offset info + offset) / 8)
                      (if fragment_flags info offset count remaining then 0x2000 else 0))
               p8 p9 ck addrs opts body in
    make_fragment packet info options offset header count remaining = Ok f /\
    internet_checksum (take (Z.to_nat header) f) = 0.
Proof.
  intros packet hs opts body La Eh Hh H4. unfold make_fragment. fold hs. fold opts. fold body.
  assert (S20 : slice 0 20 packet = [p0; p1; p2; p3; p4; p5; p6; p7; p8; p9; p10; p11] ++ addrs).
  { unfold packet. rewrite app_assoc. apply slice_here. rewrite length_app, La. done. }
  rewrite S20. set (fl := Z.lor (_ / 8) _). set (b0 := z2b (Z.lor 0x40 (header / 4))).
  set (f0 := <[0%nat := b0]> (_ : bytes)).
  assert (E0 : f0 = [b0; p1; p2; p3; p4; p5; p6; p7; p8; p9; p10; p11] ++ addrs ++ opts ++ body)
    by (unfold f0; by rewrite <- !app_assoc).
  assert (L0 : len f0 = header + len body).
  { rewrite E0. unfold len in *. rewrite !length_app, La. cbn [length]. lia. }
  rewrite L0. rewrite (put_at_spec f0) by (rewrite E0, !length_app; cbn; lia).
  rewrite E0. cbn [take drop app Nat.add]. set (tl := addrs ++ opts ++ body).
  rewrite put_at_spec by (cbn [length]; rewrite length_app, length_put_be; cbn [length]; lia).
  set (f2 := take 6 _ ++ _).
  assert (E2 : f2 = [b0; p1] ++ put_be 2 (header + len body) ++ [p4; p5] ++ put_be 2 fl ++ [p8; p9; p10; p11] ++ tl)
    by reflexivity.
  assert (Ei : ihl f2 = Z.to_nat header).
  { rewrite E2. unfold ihl, at_z. cbn [app at_ nth]. unfold b0. pose proof (len_nonneg opts).
    destruct (version_byte (header / 4)) as [-> _]; [split; [apply Z.div_pos; lia|apply Z.div_le_upper_bound; lia]|].
    f_equal. pose proof (Z.div_mod header 4). lia. }
  destruct (update_ipv4_checksum_spec f2) as (ck & U & C).
  { rewrite Ei, E2. unfold tl, len in *. rewrite !length_app, !length_put_be, La. cbn [length]. lia. }
  assert (E3 : take 10 f2 ++ put_be 2 ck ++ drop 12 f2 =
               ip_packet b0 p1 (header + len body) p4 p5 fl p8 p9 ck addrs opts body) by reflexivity.
  exists ck. rewrite Ei, E3 in C. rewrite E3 in U. split; [exact U|exact C].
Qed.

Lemma header_bytes (packet : bytes) :
  20 <= len packet ->
  exists p0 p1 p2 p3 p4 p5 p6 p7 p8 p9 p10 p11 (addrs rest : bytes),
    packet = [p0; p1; p2; p3; p4; p5; p6; p7; p8; p9; p10; p11] ++ addrs ++ rest /\ length addrs = 8%nat.
Proof.
  unfold len. intros Hl. do 12 (destruct packet as [|? packet]; [cbn in Hl; lia|]).
  do 12 eexists. exists (take 8 packet), (drop 8 packet). rewrite take_drop. split; [done|].
  rewrite length_take. cbn in Hl. lia.
Qed.

(** ** What fragmentation promises *)

(** [f] is a valid packet of at most [mtu] bytes that carries [body] at fragment
    offset [off] with options [opts]; its other header fields are [packet]'s. *)
Definition fragment_of (packet : bytes) (info : Ipv4Header) (mtu off : Z) (more : bool)
    (opts body f : bytes) : Prop :=
  inspect_ipv4 f = Ok (mk_ipv4 (20 + len opts) (source info) (destination info) off more false) /\
  len f <= mtu /\ slice 20 (length opts) f = opts /\ drop (20 + length opts) f = body /\
  Forall (fun i => at_ f i = at_ packet i) [1; 4; 5; 8; 9]%nat.

(** [fragments_of ... opts off body fs]: [fs] are fragments that carry [body]
    from offset [off] on without gaps or overlap; all but the last have
    more-fragments set and a multiple of eight bytes; the first has options [opts]
    and the others [next]. *)
Inductive fragments_of (packet : bytes) (info : Ipv4Header) (mtu : Z) (next : bytes)
    : bytes -> Z -> bytes -> list bytes -> Prop :=
| fragments_last opts off body f :
    fragment_of packet info mtu off (more_fragments info) opts body f ->
    fragments_of packet info mtu next opts off body [f]
| fragments_more opts off body rest f fs :
    fragment_of packet info mtu off true opts body f -> 0 < len body -> len body mod 8 = 0 ->
    fragments_of packet info mtu next next (off + len body) rest fs ->
    fragments_of packet info mtu next opts off (body ++ rest) (f :: fs).

Section Fragmentation.
Context (packet : bytes) (info : Ipv4Header) (mtu : Z) (c : bytes).
Hypothesis Hinspect : inspect_ipv4 packet = Ok info.
Hypothesis Hmtu : 68 <= mtu.
Hypothesis Hbig : mtu < len packet.
Hypothesis Hopts : options_ok (slice 20 (ihl packet - 20) packet) c.

Let h := ip_header_size info.
Let size := len packet - h.
Let opts_at (offset : Z) : bytes := if offset =? 0 then slice 20 (Z.to_nat h - 20) packet else pad4 c.
Let header_at (offset : Z) : Z := if offset =? 0 then h else 20 + len (pad4 c).
Let count_at (offset : Z) : Z :=
  if size - offset <=? mtu - header_at offset then size - offset else (mtu - header_at offset) / 8 * 8.
Let body_at (offset : Z) : bytes := slice (Z.to_nat h + Z.to_nat offset) (Z.to_nat (count_at offset)) packet.

Lemma header_at_spec offset :
  header_at offset = 20 + len (opts_at offset) /\ 20 <= header_at offset <= h /\ h <= 60 /\
  header_at offset mod 4 = 0 /\ exists c', options_ok (opts_at offset) c'.
Proof.
  destruct (inspect_ipv4_inv _ _ Hinspect) as (_ & Eh & Hh & _). unfold header_at, opts_at.
  pose proof (ihl_bound packet). pose proof (ihl_mod4 packet) as M. fold h in Eh.
  assert (Hle : (length c <= ihl packet - 20)%nat)
    by (apply options_ok_length in Hopts; rewrite length_slice in Hopts by lia; done).
  assert (M20 : ((ihl packet - 20) mod 4 = 0)%nat).
  { pose proof (Nat.div_mod_eq (ihl packet) 4). replace (ihl packet - 20)%nat with ((ihl packet / 4 - 5) * 4)%nat by lia.
    apply Nat.Div0.mod_mul. }
  pose proof (pad4_le c _ Hle M20). pose proof (length_pad4 c) as [M4 _].
  destruct (Z.eqb_spec offset 0).
  - unfold len. rewrite length_slice by lia. rewrite Eh, Nat2Z.id. split_and!; try lia; [|by exists c].
    change 4 with (Z.of_nat 4). rewrite <- Nat2Z.inj_mod, M. done.
  - unfold len in *. split_and!; try lia.
    + rewrite <- Zplus_mod_idemp_r. change 4 with (Z.of_nat 4) at 1.
      rewrite <- Nat2Z.inj_mod, M4. done.
    + exists c. by apply options_ok_copied with (area := slice 20 (ihl packet - 20) packet).
Qed.

Lemma count_at_spec offset :
  0 <= offset < size -> offset mod 8 = 0 ->
  0 < count_at offset <= size - offset /\ header_at offset + count_at offset <= mtu /\
  (count_at offset < size - offset -> count_at offset mod 8 = 0) /\ len (body_at offset) = count_at offset.
Proof.
  intros Ho H8. destruct (header_at_spec offset) as (_ & Hh & H60 & _).
  destruct (inspect_ipv4_inv _ _ Hinspect) as (_ & Eh & Hi & _). fold h in Eh.
  assert (D : 8 * ((mtu - header_at offset) / 8) <= mtu - header_at offset < 8 * ((mtu - header_at offset) / 8) + 8)
    by (pose proof (Z.div_mod (mtu - header_at offset) 8); pose proof (Z.mod_pos_bound (mtu - header_at offset) 8); lia).
  assert (C : 0 < count_at offset <= size - offset /\ header_at offset + count_at offset <= mtu).
  { unfold count_at. destruct (Z.leb_spec (size - offset) (mtu - header_at offset)); lia. }
  split; [lia|]. split; [lia|]. split.
  - unfold count_at. destruct (Z.leb_spec (size - offset) (mtu - header_at offset)); [lia|]. intros _. apply Z.mod_mul. lia.
  - unfold body_at, len, size in *. rewrite length_slice; unfold len in *; lia.
Qed.

(** One iteration of the loop produces the fragment of [body_at offset]. *)
Lemma make_fragment_ok offset :
  0 <= offset < size -> offset mod 8 = 0 ->
  exists f,
    make_fragment packet info (pad4 c) offset (header_at offset) (count_at offset) (size - offset) = Ok f /\
    fragment_of packet info mtu (fragment_offset info + offset)
      ((count_at offset <? size - offset) || more_fragments info) (opts_at offset) (body_at offset) f.
Proof.
  intros Ho H8. destruct (header_at_spec offset) as (Eh & Hh & H60 & H4 & c' & Oc).
  destruct (count_at_spec offset Ho H8) as (Hc & Hm & Hc8 & Lb).
  destruct (inspect_ipv4_inv _ _ Hinspect) as (Hl & Ehs & Hi & Es & Ed & Httl & _ & Fo & F8 & Fb & Fm & _).
  fold h in Ehs. pose proof (header_bytes packet) as Hp. specialize (Hp ltac:(lia)).
  destruct Hp as (p0 & p1 & p2 & p3 & p4 & p5 & p6 & p7 & p8 & p9 & p10 & p11 & addrs & rest & Ep & La).
  pose proof (make_fragment_shape p0 p1 p2 p3 p4 p5 p6 p7 p8 p9 p10 p11 addrs rest info (pad4 c) offset
    (header_at offset) (count_at offset) (size - offset) La) as S. cbv zeta in S. rewrite <- Ep in S.
  fold h in S. fold (opts_at offset) in S. fold (body_at offset) in S.
  destruct S as (ck & M & C); [done|lia|done|].
  set (more := (count_at offset <? size - offset) || more_fragments info).
  change (fragment_flags info offset (count_at offset) (size - offset)) with more in M, C.
  eexists. split; [exact M|]. unfold fragment_of. rewrite <- Eh.
  assert (Em : more = true -> len (body_at offset) mod 8 = 0).
  { intros Hmo. rewrite Lb. destruct (Z.ltb_spec (count_at offset) (size - offset)); [by apply Hc8|].
    cbn in Hmo. assert (count_at offset = size - offset) as -> by lia. unfold more in Hmo.
    replace (count_at offset <? size - offset) with false in Hmo by (symmetry; apply Z.ltb_ge; lia).
    unfold size. rewrite Ehs. apply Fm in Hmo. rewrite Zminus_mod, Hmo, H8. done. }
  set (p := ip_packet _ _ _ _ _ _ _ _ _ _ _ _) in *.
  assert (Ltot : len p = header_at offset + len (body_at offset))
    by (rewrite Eh; unfold p, len; rewrite length_ip_packet by done; lia).
  assert (So : source info = be_value (take 4 addrs) /\ destination info = be_value (drop 4 addrs)).
  { rewrite Es, Ed, !get_at_slice by (unfold len in Hl; lia). rewrite Ep. clear -La.
    do 8 (destruct addrs as [|? addrs]; [discriminate La|]). by destruct addrs. }
  destruct So as [-> ->].
  assert (In : inspect_ipv4 p = Ok (mk_ipv4 (header_at offset) (be_value (take 4 addrs)) (be_value (drop 4 addrs))
                    (fragment_offset info + offset) more false)).
  { unfold p. pose proof (inspect_ip_packet p1 (header_at offset + len (body_at offset)) p4 p5
      (fragment_offset info + offset) more p8 p9 ck addrs (opts_at offset) (body_at offset) c') as I.
    cbv zeta in I. rewrite <- Eh in I. apply I; clear I; [exact La|reflexivity|unfold size in *; lia|lia|
      exact H4|lia| |unfold size in *; lia|lia|exact Em| |exact Oc|exact C].
    - rewrite Zplus_mod, F8, H8. done.
    - intros ->. apply Httl. by rewrite Ep. }
  split; [exact In|]. split; [lia|].
  destruct (inspect_ipv4_inv _ _ In) as (Lp & _).
  destruct (ip_packet_reads (z2b (Z.lor 0x40 (header_at offset / 4))) p1
    (header_at offset + len (body_at offset)) p4 p5
    (Z.lor ((fragment_offset info + offset) / 8) (if more then 0x2000 else 0)) p8 p9 ck addrs
    (opts_at offset) (body_at offset) La) as
    (_ & R1 & _ & R4 & R5 & _ & R8 & R9 & _ & _ & Ro & Rb).
  { words. lia. } { apply flags_word; [unfold size in *; lia|]. by rewrite Zplus_mod, F8, H8. }
  split; [exact Ro|]. split; [exact Rb|].
  repeat constructor; rewrite Ep; [exact R1|exact R4|exact R5|exact R8|exact R9].
Qed.

Lemma fragment_loop_ok fuel : forall offset acc,
  0 <= offset < size -> offset mod 8 = 0 -> size - offset < Z.of_nat fuel ->
  exists fs, fragment_loop fuel packet mtu info (pad4 c) offset acc = Some (Ok (acc ++ fs)) /\
    fragments_of packet info mtu (pad4 c) (opts_at offset) (fragment_offset info + offset)
      (drop (Z.to_nat h + Z.to_nat offset) packet) fs.
Proof.
  induction fuel as [|fuel IH]; intros offset acc Ho H8 Hf; [lia|]. cbn [fragment_loop].
  fold h. fold size. fold (header_at offset). fold (count_at offset).
  destruct (count_at_spec offset Ho H8) as (Hc & Hm & Hc8 & Lb).
  destruct (inspect_ipv4_inv _ _ Hinspect) as (_ & Eh & Hh & _). fold h in Eh.
  destruct (make_fragment_ok offset Ho H8) as (f & M & F).
  destruct (Z.ltb_spec offset size); [|lia]. destruct (Z.eqb_spec (count_at offset) 0); [lia|]. rewrite M.
  destruct (Z.ltb_spec (count_at offset) (size - offset)) as [Hlt|Hge].
  - destruct (IH (offset + count_at offset) (acc ++ [f])) as (fs & E & G);
      [lia|by rewrite Zplus_mod, H8, (Hc8 Hlt)|lia|].
    exists (f :: fs). rewrite <- app_assoc in E. split; [exact E|].
    assert (D : drop (Z.to_nat h + Z.to_nat offset) packet =
                body_at offset ++ drop (Z.to_nat h + Z.to_nat (offset + count_at offset)) packet).
    { unfold body_at, slice. rewrite <- (take_drop (Z.to_nat (count_at offset)) (drop _ packet)) at 1.
      rewrite drop_drop. do 2 f_equal. lia. }
    rewrite D. apply fragments_more; [exact F|lia|rewrite Lb; auto|].
    rewrite Lb. replace (opts_at (offset + count_at offset)) with (pad4 c) in G
      by (unfold opts_at; destruct (Z.eqb_spec (offset + count_at offset) 0); [lia|done]).
    by rewrite <- Z.add_assoc.
  - exists [f]. destruct fuel as [|fuel]; [lia|]. cbn [fragment_loop]. fold h. fold size.
    destruct (Z.ltb_spec (offset + count_at offset) size); [lia|]. split; [done|].
    apply fragments_last. cbn in F. replace (drop _ packet) with (body_at offset); [exact F|].
    unfold body_at, slice. apply take_ge. rewrite length_drop. unfold size, len in *. lia.
Qed.
End Fragmentation.

(** ** Correctness *)

(** Fragmentation is correct.  For an MTU of at least 68 and a packet that
    [inspect_ipv4] accepts, [fragment_ipv4] terminates; it returns the packet itself
    when it fits, throws only when it does not fit and must not be fragmented, and
    otherwise returns fragments that each pass [inspect_ipv4], fit the MTU, keep the
    addresses and the other header fields, and carry the payload without gap or
    overlap from the packet's own offset, with more-fragments set on all but the
    last, the original options on the first and the copied ones on the others. *)
Lemma fragment_ipv4_spec (packet : bytes) (info : Ipv4Header) (mtu : Z) :
  68 <= mtu -> inspect_ipv4 packet = Ok info ->
  if len packet <=? mtu then fragment_ipv4 packet mtu = Ok [packet]
  else if dont_fragment info then fragment_ipv4 packet mtu = Throw length_error
  else exists fs next,
    fragment_ipv4 packet mtu = Ok fs /\
    copied_options packet (Z.to_nat (ip_header_size info)) = Ok next /\
    fragments_of packet info mtu next
      (slice 20 (Z.to_nat (ip_header_size info) - 20) packet) (fragment_offset info)
      (drop (Z.to_nat (ip_header_size info)) packet) fs.
Proof.
  intros Hm I. unfold fragment_ipv4. guard_true by (apply negb_true_iff, Z.ltb_ge; lia). rewrite I.
  destruct (Z.leb_spec (len packet) mtu) as [|Hb]; [done|].
  destruct (dont_fragment info); [done|]. cbn [negb].
  destruct (inspect_ipv4_inv _ _ I) as (Hl & Eh & Hh & _ & _ & _ & (c & Ec & Oc) & Fo & _).
  rewrite Eh, Nat2Z.id, Ec. pose proof (ihl_bound packet).
  destruct (fragment_loop_ok packet info mtu c I Hm Hb Oc (S (length packet)) 0 []) as (fs & E & F);
    [rewrite Eh; unfold len in *; lia|done|rewrite Eh; unfold len in *; lia|].
  exists fs, (pad4 c). rewrite E. cbn in F. rewrite Eh, Nat2Z.id, Nat.add_0_r, Z.add_0_r in F. done.
Qed.

(** A 24-byte header with one copied option, fragmented to an MTU of 68. *)
Definition sample_packet : bytes :=
  match update_ipv4_checksum
    ([x46; x00] ++ put_be 2 104 ++ [x12; x34; x00; x00; x40; x11; x00; x00; x0a; x00; x00; x01;
      x0a; x00; x00; x02; x88; x04; x00; x07] ++ replicate 80 x55) with
  | Ok p => p | Throw _ => [] end.

(** The reply before and after its two checksums are filled in. *)
Lemma icmp_shape router src mtu (quote : bytes) :
  let p := replicate 28 x00 in
  let p := <[9%nat := x01]> (<[8%nat := x40]> (<[0%nat := x45]> p)) in
  let p := put_at (put_at p 12 router 4) 16 src 4 in
  let p := put_at (<[21%nat := x04]> (<[20%nat := x03]> p)) 26 mtu 2 in
  forall total ick,
  put_at (put_at (p ++ quote) 2 total 2) 22 ick 2 =
  ip_packet x45 x00 total x00 x00 0 x40 x01 0 (put_be 4 router ++ put_be 4 src) []
    ([x03; x04] ++ put_be 2 ick ++ ([x00; x00] ++ put_be 2 mtu ++ quote)) /\
  drop 20 (put_at (p ++ quote) 2 total 2) = [x03; x04] ++ [x00; x00] ++ ([x00; x00] ++ put_be 2 mtu ++ quote).
Proof. intros. split; reflexivity. Qed.

(** The ICMP reply is well formed.  For a packet [inspect_ipv4] accepts,
    [ipv4_fragmentation_needed] never throws; it answers only unfragmented
    don't-fragment packets between unicast addresses, and the answer is itself a valid
    IPv4 packet from the router to the sender, a destination-unreachable message of
    code 4 whose ICMP checksum verifies, that carries the MTU and quotes the original
    header and eight bytes of payload. *)
Lemma ipv4_fragmentation_needed_spec (original : bytes) (info : Ipv4Header) (router mtu : Z) :
  inspect_ipv4 original = Ok info -> word 4 router -> word 2 mtu ->
  exists r, ipv4_fragmentation_needed original router mtu = Ok r /\
  match r with
  | None => True
  | Some p =>
      inspect_ipv4 p = Ok (mk_ipv4 20 router (source info) 0 false false) /\ at_ p 9 = x01 /\
      slice 20 2 p = [x03; x04] /\ get_at 2 p 26 2 = mtu /\ internet_checksum (drop 20 p) = 0 /\
      drop 28 p = take (Z.to_nat (ip_header_size info) + 8) original /\
      dont_fragment info = true /\ fragment_offset info = 0 /\
      0 < source info < 0xe0000000 /\ destination info < 0xe0000000 /\ 0 < router < 0xe0000000
  end.
Proof.
  intros I Wr Wm. unfold ipv4_fragmentation_needed. rewrite I.
  destruct (inspect_ipv4_inv _ _ I) as (Hl & Eh & Hh & Es & _). pose proof (ihl_bound original) as Hb.
  assert (Ws : word 4 (source info)) by (rewrite Es, get_at_slice by (unfold len in Hl; lia); apply word_slice; unfold len in Hl; lia).
  destruct (_ || _) eqn:G; [by exists None|]. bool_prop.
  destruct (_ && _) eqn:G2; [by exists None|]. clear G2.
  set (quote := take _ original).
  assert (Lq : (length quote <= 68)%nat) by (unfold quote; rewrite length_take, Eh; lia).
  assert (Eq : quote = take (Z.to_nat (ip_header_size info) + 8) original).
  { unfold quote. rewrite Eh. destruct (Z.min_spec (len original) (Z.of_nat (ihl original) + 8)) as [[? ->]|[? ->]].
    - rewrite !take_ge; unfold len in *; (done || lia).
    - f_equal. lia. }
  cbv zeta. set (base := put_at (<[21%nat := x04]> _) 26 mtu 2).
  destruct (icmp_shape router (source info) mtu quote (len (base ++ quote))
    (internet_checksum (drop 20 (put_at (base ++ quote) 2 (len (base ++ quote)) 2)))) as [Sh Dr].
  fold base in Sh, Dr. rewrite Sh. clear Sh. rewrite Dr. clear Dr.
  set (tl := [x00; x00] ++ put_be 2 mtu ++ quote) in *.
  set (ick := internet_checksum _). set (body := [x03; x04] ++ put_be 2 ick ++ tl).
  assert (Lt : len (base ++ quote) = 20 + len body) by (unfold body, tl, len; rewrite !length_app, !length_put_be;
        change (length base) with 28%nat; cbn [length]; lia).
  rewrite Lt. set (addrs := put_be 4 router ++ put_be 4 (source info)).
  assert (Lbody : len body <= 76) by (unfold body, tl, len; rewrite !length_app, !length_put_be; cbn [length]; lia).
  pose proof (len_nonneg body).
  destruct (update_ipv4_checksum_spec (ip_packet x45 x00 (20 + len body) x00 x00 0 x40 x01 0 addrs [] body)) as (ck & U & C).
  { change (ihl _) with 20%nat. rewrite length_ip_packet by done. lia. }
  change (take 10 _ ++ put_be 2 ck ++ drop 12 _) with
    (ip_packet x45 x00 (20 + len body) x00 x00 0 x40 x01 ck addrs [] body) in U, C.
  change (ihl _) with 20%nat in C.
  rewrite U. eexists. split; [reflexivity|]. set (p := ip_packet _ _ _ _ _ _ _ _ ck _ _ _) in *.
  assert (D20 : drop 20 p = body) by reflexivity.
  split_and!; try lia; try done.
  - pose proof (inspect_ip_packet x00 (20 + len body) x00 x00 0 false x40 x01 ck addrs [] body []) as P.
    change (inspect_ipv4 p = Ok (mk_ipv4 (20 + len (@nil byte)) router (source info) 0 false false)).
    rewrite <- (be_value_put_word 4 router Wr), <- (be_value_put_word 4 (source info) Ws).
    apply P; clear P; change (len (@nil byte)) with 0; try done; try lia; constructor.
  - rewrite get_at_slice by (unfold p; rewrite ?length_ip_packet by done; unfold body, tl; rewrite ?length_app, ?length_put_be; cbn [length]; lia).
    change (slice 26 2 p) with (put_be 2 mtu). by apply be_value_put_word.
  - rewrite D20. unfold body, ick. apply checksum_fill; [by exists 1%nat|].
    unfold tl, len. rewrite !length_app, !length_put_be. cbn [length]. lia.
  - words. lia.
  - words. lia.
Qed.

(** The sample packet with don't-fragment set. *)
Definition sample_df_packet : bytes :=
  match update_ipv4_checksum
    ([x45; x00] ++ put_be 2 100 ++ [x12; x34; x40; x00; x40; x11; x00; x00; x0a; x00; x00; x01;
      x0a; x00; x00; x02] ++ replicate 80 x55) with
  | Ok p => p | Throw _ => [] end.

(** C27: packets larger than the MTU are handled correctly.  For an MTU of at least 68 and a packet that
    [inspect_ipv4] accepts, [fragment_ipv4] terminates; it returns the packet itself when it fits,
    throws only when it does not fit and must not be fragmented, and otherwise returns fragments
    that each pass [inspect_ipv4], fit the MTU, keep the addresses and the other header fields, and
    carry the payload without gap or overlap from the packet's own offset, with more-fragments set
    on all but the last, the original options on the first and the copied ones on the others.
    [ipv4_fragmentation_needed] never throws; it answers only unfragmented don't-fragment packets
    between unicast addresses, and the answer is itself a valid IPv4 packet from the router to the
    sender, a destination-unreachable message of code 4 whose ICMP checksum verifies, that carries
    the MTU and quotes the original header and eight bytes of payload. *)
Theorem ipv4_oversize_correct (packet : bytes) (info : Ipv4Header) (mtu router : Z) :
  68 <= mtu -> inspect_ipv4 packet = Ok info ->
  (if len packet <=? mtu then fragment_ipv4 packet mtu = Ok [packet]
   else if dont_fragment info then fragment_ipv4 packet mtu = Throw length_error
   else exists fs next,
     fragment_ipv4 packet mtu = Ok fs /\
     copied_options packet (Z.to_nat (ip_header_size info)) = Ok next /\
     fragments_of packet info mtu next
       (slice 20 (Z.to_nat (ip_header_size info) - 20) packet) (fragment_offset info)
       (drop (Z.to_nat (ip_header_size info)) packet) fs) /\
  (word 4 router -> word 2 mtu ->
   exists r, ipv4_fragmentation_needed packet router mtu = Ok r /\
   match r with
   | None => True
   | Some p =>
       inspect_ipv4 p = Ok (mk_ipv4 20 router (source info) 0 false false) /\ at_ p 9 = x01 /\
       slice 20 2 p = [x03; x04] /\ get_at 2 p 26 2 = mtu /\ internet_checksum (drop 20 p) = 0 /\
       drop 28 p = take (Z.to_nat (ip_header_size info) + 8) packet /\
       dont_fragment info = true /\ fragment_offset info = 0 /\
       0 < source info < 0xe0000000 /\ destination info < 0xe0000000 /\ 0 < router < 0xe0000000
   end).
Proof. intros M I. split; [by apply fragment_ipv4_spec|]. intros R W. by apply ipv4_fragmentation_needed_spec. Qed.

Lemma ipv4_oversize_correct_witness :
  (exists fs next, fragment_ipv4 sample_packet 68 = Ok fs /\
    copied_options sample_packet 24 = Ok next /\
    fragments_of sample_packet (mk_ipv4 24 0x0a000001 0x0a000002 0 false false) 68 next
      [x88; x04; x00; x07] 0 (replicate 80 x55) fs) /\
  (exists r, ipv4_fragmentation_needed sample_df_packet 0x0a0000fe 68 = Ok r /\ is_Some r).
Proof.
  split.
  - exact (proj1 (ipv4_oversize_correct sample_packet (mk_ipv4 24 0x0a000001 0x0a000002 0 false false) 68 0
      ltac:(lia) ltac:(vm_compute; reflexivity))).
  - destruct (ipv4_oversize_correct sample_df_packet
      (mk_ipv4 20 0x0a000001 0x0a000002 0 false true) 68 0x0a0000fe) as [_ H];
      [lia|vm_compute; reflexivity|]. destruct H as (r & E & _); [words; lia|words; lia|].
    exists r. split; [exact E|]. destruct r as [p|]; [by exists p|]. vm_compute in E. discriminate E.
Defined.

