(* ===== verification/NetworkPolicy.v ===== *)
(** Network access policies (include/lanlink/protocol/network_policy.hpp,
    src/protocol/network_policy.cpp): topology, access rules, groups, roles,
    gateways and routed subnets, with their wire format. *)
From S2P Require Import Prelude Wire Ipv4.

Inductive NetworkTopology := mesh | hub_spoke | unassigned_topology (raw : Z).
Inductive AccessRole := member | administrator | restricted | unassigned_role (raw : Z).

#[global] Instance NetworkTopology_eq_dec : EqDecision NetworkTopology.
Proof. solve_decision. Defined.
#[global] Instance AccessRole_eq_dec : EqDecision AccessRole.
Proof. solve_decision. Defined.

Definition topology_value (t : NetworkTopology) : Z :=
  match t with mesh => 0 | hub_spoke => 1 | unassigned_topology raw => raw end.
Definition topology_cast (raw : Z) : NetworkTopology :=
  match raw with 0 => mesh | 1 => hub_spoke | _ => unassigned_topology raw end.
Definition role_value (r : AccessRole) : Z :=
  match r with member => 0 | administrator => 1 | restricted => 2 | unassigned_role raw => raw end.
Definition role_cast (raw : Z) : AccessRole :=
  match raw with 0 => member | 1 => administrator | 2 => restricted | _ => unassigned_role raw end.

(** [auth::DeviceId{}]. *)
Definition zero_device : bytes := replicate 32 x00.

Record PolicySubject := mk_subject { subject_device : bytes; subject_group : bytes }.
Record AccessRule := mk_rule { first : PolicySubject; second : PolicySubject; allow : bool }.
Record MemberPolicy := mk_member { member_device : bytes; role : AccessRole; member_group : bytes }.
Record GatewayNode := mk_gateway { gateway_device : bytes; approved : bool }.
Record RoutedSubnet := mk_route { gateway : bytes; address : Z; prefix : Z; route_group : bytes }.
Record NetworkPolicy := mk_policy {
  revision : Z;
  managed : bool;
  topology : NetworkTopology;
  hubs : list bytes;
  rules : list AccessRule;
  groups : list bytes;
  members : list MemberPolicy;
  gateways : list GatewayNode;
  routes : list RoutedSubnet
}.

#[global] Instance PolicySubject_eq_dec : EqDecision PolicySubject.
Proof. solve_decision. Defined.
#[global] Instance AccessRule_eq_dec : EqDecision AccessRule.
Proof. solve_decision. Defined.
#[global] Instance MemberPolicy_eq_dec : EqDecision MemberPolicy.
Proof. solve_decision. Defined.
#[global] Instance GatewayNode_eq_dec : EqDecision GatewayNode.
Proof. solve_decision. Defined.
#[global] Instance RoutedSubnet_eq_dec : EqDecision RoutedSubnet.
Proof. solve_decision. Defined.
#[global] Instance NetworkPolicy_eq_dec : EqDecision NetworkPolicy.
Proof. solve_decision. Defined.

Definition default_policy : NetworkPolicy := mk_policy 0 false mesh [] [] [] [] [] [].

(** ** Subnets *)

Definition subnet_contains (subnet prefix address : Z) : bool :=
  (prefix >? 0) && (prefix <=? 32) && (Z.land address (ipv4_mask prefix) =? subnet).

Definition subnets_overlap (a ap b bp : Z) : bool :=
  if (ap =? 0) || (ap >? 32) || (bp =? 0) || (bp >? 32) then true
  else
    let mask := ipv4_mask (Z.min ap bp) in
    Z.land a mask =? Z.land b mask.

Definition private_routed_subnet (a p : Z) : bool :=
  if (p <? 8) || (p >? 30) || negb (subnet_contains a p a) then false
  else ((p >=? 8) && subnet_contains 0x0a000000 8 a) ||
       ((p >=? 12) && subnet_contains 0xac100000 12 a) ||
       ((p >=? 16) && subnet_contains 0xc0a80000 16 a).

(** ** Decisions *)

Definition find_member (p : NetworkPolicy) (d : bytes) : option MemberPolicy :=
  find (fun m => bool_decide (member_device m = d)) (members p).

Definition policy_role (p : NetworkPolicy) (d : bytes) : AccessRole :=
  match find_member p d with Some m => role m | None => member end.

Definition policy_group (p : NetworkPolicy) (d : bytes) : bytes :=
  match find_member p d with Some m => member_group m | None => str "members" end.

Definition matches (p : NetworkPolicy) (s : PolicySubject) (d : bytes) : bool :=
  if negb (bool_decide (subject_device s = zero_device)) then bool_decide (subject_device s = d)
  else bool_decide (subject_group s = []) || bool_decide (subject_group s = policy_group p d).

Definition rule_matches (p : NetworkPolicy) (a b : bytes) (r : AccessRule) : bool :=
  (matches p (first r) a && matches p (second r) b) || (matches p (first r) b && matches p (second r) a).

Fixpoint scan_rules (p : NetworkPolicy) (a b : bytes) (rules : list AccessRule) (allowed : bool) : bool :=
  match rules with
  | [] => allowed
  | r :: rules =>
      if rule_matches p a b r
      then if negb (allow r) then false else scan_rules p a b rules true
      else scan_rules p a b rules allowed
  end.

Definition policy_allows (p : NetworkPolicy) (a b : bytes) : bool :=
  if bool_decide (a = b) || bool_decide (a = zero_device) || bool_decide (b = zero_device) then false
  else if negb (managed p) then true
  else if bool_decide (topology p = hub_spoke) && negb (bool_decide (a ∈ hubs p)) &&
          negb (bool_decide (b ∈ hubs p)) then false
  else scan_rules p a b (rules p) false.

Definition policy_fanout_allows (p : NetworkPolicy) (a b : bytes) : bool :=
  policy_allows p a b &&
  (negb (managed p) || (negb (bool_decide (policy_role p a = restricted)) &&
                        negb (bool_decide (policy_role p b = restricted)))).

Definition route_allows (p : NetworkPolicy) (r : RoutedSubnet) (member : bytes) : bool :=
  managed p && negb (bool_decide (policy_role p member = restricted)) &&
  (bool_decide (route_group r = []) || bool_decide (policy_group p member = route_group r)) &&
  policy_allows p member (gateway r) &&
  existsb (fun g => bool_decide (gateway_device g = gateway r) && approved g) (gateways p).

(** ** Wire format *)

Definition text_char (c : byte) : bool :=
  let c := b2z c in
  ((c >=? 97) && (c <=? 122)) || ((c >=? 65) && (c <=? 90)) || ((c >=? 48) && (c <=? 57)) ||
  (c =? 95) || (c =? 45).

Definition put_text (value : bytes) : result bytes :=
  check! (len value <=? 32) && forallb text_char value else invalid_argument in
  Ok (put_be 1 (len value) ++ value).

Definition get_text (r : BinaryReader.t) : result (bytes * BinaryReader.t) :=
  let* (size, r) := BinaryReader.get 1 r in
  BinaryReader.bytes_ size r.

Definition put_subject (s : PolicySubject) : result bytes :=
  check! bool_decide (subject_device s = zero_device) || bool_decide (subject_group s = [])
    else invalid_argument in
  let* t := put_text (subject_group s) in
  Ok (subject_device s ++ t).

Definition get_subject (r : BinaryReader.t) : result (PolicySubject * BinaryReader.t) :=
  let* (d, r) := BinaryReader.array 32 r in
  let* (g, r) := get_text r in
  Ok (mk_subject d g, r).

Definition flag (b : bool) : Z := if b then 1 else 0.

Fixpoint put_hubs (ids : gset bytes) (l : list bytes) : result bytes :=
  match l with
  | [] => Ok []
  | d :: l =>
      check! negb (bool_decide (d = zero_device)) && negb (bool_decide (d ∈ ids)) else invalid_argument in
      let* rest := put_hubs ({[d]} ∪ ids) l in
      Ok (d ++ rest)
  end.

Fixpoint put_rules (l : list AccessRule) : result bytes :=
  match l with
  | [] => Ok []
  | r :: l =>
      let* a := put_subject (first r) in
      let* b := put_subject (second r) in
      let* rest := put_rules l in
      Ok (a ++ b ++ put_be 1 (flag (allow r)) ++ rest)
  end.

(** Also returns the set [groups] built by the loop. *)
Fixpoint put_groups (known : gset bytes) (l : list bytes) : result (bytes * gset bytes) :=
  match l with
  | [] => Ok ([], known)
  | g :: l =>
      check! negb (bool_decide (g = [])) && negb (bool_decide (g = str "members")) &&
             negb (bool_decide (g ∈ known)) else invalid_argument in
      let* t := put_text g in
      let* (rest, known) := put_groups ({[g]} ∪ known) l in
      Ok (t ++ rest, known)
  end.

Fixpoint put_members (known ids : gset bytes) (l : list MemberPolicy) : result bytes :=
  match l with
  | [] => Ok []
  | m :: l =>
      check! negb (bool_decide (member_device m = zero_device)) && negb (bool_decide (member_device m ∈ ids)) &&
             (role_value (role m) <=? role_value restricted) && bool_decide (member_group m ∈ known)
        else invalid_argument in
      let* t := put_text (member_group m) in
      let* rest := put_members known ({[member_device m]} ∪ ids) l in
      Ok (member_device m ++ put_be 1 (role_value (role m)) ++ t ++ rest)
  end.

Definition group_known (known : gset bytes) (g : bytes) : bool :=
  bool_decide (g = []) || bool_decide (g ∈ known).

Fixpoint put_gateways (ids : gset bytes) (l : list GatewayNode) : result bytes :=
  match l with
  | [] => Ok []
  | g :: l =>
      check! negb (bool_decide (gateway_device g = zero_device)) && negb (bool_decide (gateway_device g ∈ ids))
        else invalid_argument in
      let* rest := put_gateways ({[gateway_device g]} ∪ ids) l in
      Ok (gateway_device g ++ put_be 1 (flag (approved g)) ++ rest)
  end.

(** [before] are the routes with a smaller index. *)
Fixpoint put_routes (known : gset bytes) (gws : list GatewayNode) (before l : list RoutedSubnet) : result bytes :=
  match l with
  | [] => Ok []
  | r :: l =>
      check! private_routed_subnet (address r) (prefix r) && group_known known (route_group r)
        else invalid_argument in
      check! existsb (fun g => bool_decide (gateway_device g = gateway r) && approved g) gws
        else invalid_argument in
      check! forallb (fun q => negb (subnets_overlap (address r) (prefix r) (address q) (prefix q))) before
        else invalid_argument in
      let* t := put_text (route_group r) in
      let* rest := put_routes known gws (before ++ [r]) l in
      Ok (gateway r ++ put_be 4 (address r) ++ put_be 1 (prefix r) ++ t ++ rest)
  end.

Definition encode_network_policy (p : NetworkPolicy) : result bytes :=
  check! bool_decide (topology p = mesh) || bool_decide (topology p = hub_spoke) else invalid_argument in
  check! (len (hubs p) <=? 32) && (len (rules p) <=? 64) && (len (groups p) <=? 16) &&
         (len (members p) <=? 254) && (len (gateways p) <=? 16) && (len (routes p) <=? 32)
    else invalid_argument in
  check! managed p || (bool_decide (topology p = mesh) && bool_decide (hubs p = []) &&
         bool_decide (rules p = []) && bool_decide (groups p = []) && bool_decide (members p = []) &&
         bool_decide (gateways p = []) && bool_decide (routes p = [])) else invalid_argument in
  let* h := put_hubs ∅ (hubs p) in
  let* r := put_rules (rules p) in
  let* (g, known) := put_groups {[str "members"]} (groups p) in
  let* m := put_members known ∅ (members p) in
  check! forallb (fun r => group_known known (subject_group (first r)) &&
                           group_known known (subject_group (second r))) (rules p) else invalid_argument in
  let* gw := put_gateways ∅ (gateways p) in
  let* rt := put_routes known (gateways p) [] (routes p) in
  Ok (put_be 1 1 ++ put_be 8 (revision p) ++ put_be 1 (flag (managed p)) ++
      put_be 1 (topology_value (topology p)) ++ put_be 1 (len (hubs p)) ++ h ++
      put_be 1 (len (rules p)) ++ r ++ put_be 1 (len (groups p)) ++ g ++
      put_be 2 (len (members p)) ++ m ++ put_be 1 (len (gateways p)) ++ gw ++
      put_be 1 (len (routes p)) ++ rt).

Definition get_flag (r : BinaryReader.t) : result (bool * BinaryReader.t) :=
  let* (f, r) := BinaryReader.get 1 r in
  check! f <=? 1 else invalid_argument in
  Ok (negb (f =? 0), r).

Definition get_rule (r : BinaryReader.t) : result (AccessRule * BinaryReader.t) :=
  let* (a, r) := get_subject r in
  let* (b, r) := get_subject r in
  let* (f, r) := get_flag r in
  Ok (mk_rule a b f, r).

Definition get_member (r : BinaryReader.t) : result (MemberPolicy * BinaryReader.t) :=
  let* (d, r) := BinaryReader.array 32 r in
  let* (v, r) := BinaryReader.get 1 r in
  let* (g, r) := get_text r in
  Ok (mk_member d (role_cast v) g, r).

Definition get_gateway (r : BinaryReader.t) : result (GatewayNode * BinaryReader.t) :=
  let* (d, r) := BinaryReader.array 32 r in
  let* (f, r) := get_flag r in
  Ok (mk_gateway d f, r).

Definition get_route (r : BinaryReader.t) : result (RoutedSubnet * BinaryReader.t) :=
  let* (d, r) := BinaryReader.array 32 r in
  let* (a, r) := BinaryReader.get 4 r in
  let* (p, r) := BinaryReader.get 1 r in
  let* (g, r) := get_text r in
  Ok (mk_route d a p g, r).

(** [count = get<T>(); require(count <= limit); for (i < count) push_back(f(r))]. *)
Definition get_list {A} (w : nat) (limit : Z) (f : BinaryReader.t -> result (A * BinaryReader.t))
    (r : BinaryReader.t) : result (list A * BinaryReader.t) :=
  let* (count, r) := BinaryReader.get w r in
  check! count <=? limit else invalid_argument in
  BinaryReader.read_n (Z.to_nat count) f r.

Definition decode_network_policy (bs : bytes) : result NetworkPolicy :=
  check! len bs <=? 32768 else invalid_argument in
  let* (version, r) := BinaryReader.get 1 bs in
  check! version =? 1 else invalid_argument in
  let* (rev, r) := BinaryReader.get 8 r in
  let* (mgd, r) := get_flag r in
  let* (top, r) := BinaryReader.get 1 r in
  let* (hs, r) := get_list 1 32 (BinaryReader.array 32) r in
  let* (rs, r) := get_list 1 64 get_rule r in
  let* (gs, r) := get_list 1 16 get_text r in
  let* (ms, r) := get_list 2 254 get_member r in
  let* (gws, r) := get_list 1 16 get_gateway r in
  let* (rts, r) := get_list 1 32 get_route r in
  let* _ := BinaryReader.finish r in
  let p := mk_policy rev mgd (topology_cast top) hs rs gs ms gws rts in
  let* _ := encode_network_policy p in
  Ok p.

(** ** Field types *)

Definition wf_text (t : bytes) : Prop := word 1 (len t).
Definition wf_subject (s : PolicySubject) : Prop := length (subject_device s) = 32%nat /\ wf_text (subject_group s).
Definition wf_rule (r : AccessRule) : Prop := wf_subject (first r) /\ wf_subject (second r).
Definition wf_member (m : MemberPolicy) : Prop :=
  length (member_device m) = 32%nat /\ (word 1 (role_value (role m)) /\ role_cast (role_value (role m)) = role m) /\
  wf_text (member_group m).
Definition wf_gateway (g : GatewayNode) : Prop := length (gateway_device g) = 32%nat.
Definition wf_route (r : RoutedSubnet) : Prop :=
  length (gateway r) = 32%nat /\ word 4 (address r) /\ word 1 (prefix r) /\ wf_text (route_group r).

(** The C++ types of a policy: fixed-size device ids, unsigned fields, and string
    sizes that fit the length byte (longer strings are refused by [put_text]). *)
Definition wf_policy (p : NetworkPolicy) : Prop :=
  word 8 (revision p) /\ Forall (fun d => length d = 32%nat) (hubs p) /\ Forall wf_rule (rules p) /\
  Forall wf_text (groups p) /\ Forall wf_member (members p) /\ Forall wf_gateway (gateways p) /\
  Forall wf_route (routes p).

(** ** The bytes written, without the checks *)

Definition text_bytes (t : bytes) : bytes := put_be 1 (len t) ++ t.
Definition subject_bytes (s : PolicySubject) : bytes := subject_device s ++ text_bytes (subject_group s).
Definition rule_bytes (r : AccessRule) : bytes :=
  subject_bytes (first r) ++ subject_bytes (second r) ++ put_be 1 (flag (allow r)).
Definition member_bytes (m : MemberPolicy) : bytes :=
  member_device m ++ put_be 1 (role_value (role m)) ++ text_bytes (member_group m).
Definition gateway_bytes (g : GatewayNode) : bytes := gateway_device g ++ put_be 1 (flag (approved g)).
Definition route_bytes (r : RoutedSubnet) : bytes :=
  gateway r ++ put_be 4 (address r) ++ put_be 1 (prefix r) ++ text_bytes (route_group r).
Definition list_bytes {A} (w : nat) (g : A -> bytes) (l : list A) : bytes :=
  put_be w (len l) ++ concat (map g l).
Definition policy_bytes (p : NetworkPolicy) : bytes :=
  put_be 1 1 ++ put_be 8 (revision p) ++ put_be 1 (flag (managed p)) ++
  put_be 1 (topology_value (topology p)) ++ list_bytes 1 id (hubs p) ++ list_bytes 1 rule_bytes (rules p) ++
  list_bytes 1 text_bytes (groups p) ++ list_bytes 2 member_bytes (members p) ++
  list_bytes 1 gateway_bytes (gateways p) ++ list_bytes 1 route_bytes (routes p).

Lemma put_text_inv t bs : put_text t = Ok bs -> bs = text_bytes t /\ len t <= 32.
Proof. unfold put_text. intros H. ok_inv H. bool_prop. by subst. Qed.

Lemma put_subject_inv s bs : put_subject s = Ok bs -> bs = subject_bytes s /\ len (subject_group s) <= 32.
Proof. unfold put_subject. intros H. ok_inv H. apply put_text_inv in E as [-> L]. by subst. Qed.

Lemma put_hubs_inv l : forall ids bs, put_hubs ids l = Ok bs -> bs = concat (map id l).
Proof.
  induction l as [|d l IH]; intros ids bs H; cbn [put_hubs] in H; ok_inv H; [by subst|].
  apply IH in E as ->. by subst.
Qed.

Lemma put_rules_inv l : forall bs, put_rules l = Ok bs ->
  bs = concat (map rule_bytes l) /\
  Forall (fun r => len (subject_group (first r)) <= 32 /\ len (subject_group (second r)) <= 32) l.
Proof.
  induction l as [|r l IH]; intros bs H; cbn [put_rules] in H; ok_inv H; [by subst|].
  apply put_subject_inv in E as [-> ?], E0 as [-> ?]. apply IH in E1 as [-> ?]. subst.
  unfold rule_bytes. cbn [map concat]. rewrite <- !app_assoc. auto.
Qed.

Lemma put_groups_inv l : forall known bs known', put_groups known l = Ok (bs, known') ->
  bs = concat (map text_bytes l) /\ Forall (fun g => len g <= 32) l /\ known' = list_to_set l ∪ known.
Proof.
  induction l as [|g l IH]; intros known bs known' H; cbn [put_groups] in H; ok_inv H.
  { simplify_eq. split_and!; [done|done|set_solver]. }
  apply put_text_inv in E as [-> ?]. apply IH in E0 as (-> & ? & ->). simplify_eq.
  split_and!; auto. set_solver.
Qed.

Lemma put_members_inv known l : forall ids bs, put_members known ids l = Ok bs ->
  bs = concat (map member_bytes l) /\ Forall (fun m => len (member_group m) <= 32) l.
Proof.
  induction l as [|m l IH]; intros ids bs H; cbn [put_members] in H; ok_inv H; [by subst|].
  apply put_text_inv in E as [-> ?]. apply IH in E0 as [-> ?]. subst.
  unfold member_bytes. cbn [map concat]. rewrite <- !app_assoc. auto.
Qed.

Lemma put_gateways_inv l : forall ids bs, put_gateways ids l = Ok bs -> bs = concat (map gateway_bytes l).
Proof.
  induction l as [|g l IH]; intros ids bs H; cbn [put_gateways] in H; ok_inv H; [by subst|].
  apply IH in E as ->. subst. unfold gateway_bytes. cbn [map concat]. by rewrite <- !app_assoc.
Qed.

Lemma put_routes_inv known gws l : forall before bs, put_routes known gws before l = Ok bs ->
  bs = concat (map route_bytes l) /\ Forall (fun r => len (route_group r) <= 32) l.
Proof.
  induction l as [|r l IH]; intros before bs H; cbn [put_routes] in H; ok_inv H; [by subst|].
  apply put_text_inv in E as [-> ?]. apply IH in E0 as [-> ?]. subst.
  unfold route_bytes. cbn [map concat]. rewrite <- !app_assoc. auto.
Qed.

Lemma encode_policy_bytes p bs :
  encode_network_policy p = Ok bs ->
  bs = policy_bytes p /\ (topology p = mesh \/ topology p = hub_spoke) /\
  len (hubs p) <= 32 /\ len (rules p) <= 64 /\ len (groups p) <= 16 /\ len (members p) <= 254 /\
  len (gateways p) <= 16 /\ len (routes p) <= 32 /\
  Forall (fun r => len (subject_group (first r)) <= 32 /\ len (subject_group (second r)) <= 32) (rules p) /\
  Forall (fun g => len g <= 32) (groups p) /\ Forall (fun m => len (member_group m) <= 32) (members p) /\
  Forall (fun r => len (route_group r) <= 32) (routes p).
Proof.
  unfold encode_network_policy. intros H. ok_inv H.
  apply put_hubs_inv in E as ->. apply put_rules_inv in E0 as [-> Br].
  apply put_groups_inv in E1 as (-> & Bg & ->). apply put_members_inv in E2 as [-> Bm].
  apply put_gateways_inv in E3 as ->. apply put_routes_inv in E4 as [-> Bt]. subst bs.
  split; [unfold policy_bytes, list_bytes; by rewrite <- !app_assoc|].
  match goal with H : bool_decide (topology p = mesh) || _ = true |- _ => apply orb_true_iff in H as [H|H] end;
    bool_prop; auto 20.
Qed.

(** ** Reading back what was written *)

Lemma get_text_app t rest : wf_text t -> get_text (text_bytes t ++ rest) = Ok (t, rest).
Proof.
  intros H. unfold get_text, text_bytes. rewrite <- app_assoc, BinaryReader.get_app by done.
  by apply BinaryReader.bytes_app.
Qed.
Lemma get_text_inv data t r : get_text data = Ok (t, r) -> data = text_bytes t ++ r /\ wf_text t.
Proof.
  unfold get_text. intros H. ok_inv H. apply BinaryReader.get_inv in E as [-> W].
  apply BinaryReader.bytes_inv in H as [-> L]. unfold text_bytes, wf_text.
  rewrite L by (words; lia). by rewrite <- app_assoc.
Qed.

Lemma get_subject_app s rest : wf_subject s -> get_subject (subject_bytes s ++ rest) = Ok (s, rest).
Proof.
  intros [H1 H2]. unfold get_subject, subject_bytes. rewrite <- app_assoc, BinaryReader.array_app by done.
  rewrite get_text_app by done. by destruct s.
Qed.
Lemma get_subject_inv data s r : get_subject data = Ok (s, r) -> data = subject_bytes s ++ r /\ wf_subject s.
Proof.
  unfold get_subject. intros H. ok_inv H. apply BinaryReader.array_inv in E as [-> L].
  apply get_text_inv in E0 as [-> W]. simplify_eq. unfold subject_bytes. by rewrite <- app_assoc.
Qed.

Lemma get_flag_app b rest : get_flag (put_be 1 (flag b) ++ rest) = Ok (b, rest).
Proof. unfold get_flag. rewrite BinaryReader.get_app by (by destruct b). by destruct b. Qed.
Lemma get_flag_inv data b r : get_flag data = Ok (b, r) -> data = put_be 1 (flag b) ++ r.
Proof.
  unfold get_flag. intros H. ok_inv H. apply BinaryReader.get_inv in E as [-> W]. bool_prop. simplify_eq.
  words. assert (x = 0 \/ x = 1) as [->| ->] by lia; done.
Qed.

Lemma get_rule_app r rest : wf_rule r -> get_rule (rule_bytes r ++ rest) = Ok (r, rest).
Proof.
  intros [H1 H2]. unfold get_rule, rule_bytes. rewrite <- !app_assoc, !get_subject_app, get_flag_app by done.
  by destruct r.
Qed.
Lemma get_rule_inv data x r : get_rule data = Ok (x, r) -> data = rule_bytes x ++ r /\ wf_rule x.
Proof.
  unfold get_rule. intros H. ok_inv H. apply get_subject_inv in E as [-> ?], E0 as [-> ?].
  apply get_flag_inv in E1 as ->. simplify_eq. unfold rule_bytes. by rewrite <- !app_assoc.
Qed.

Lemma role_value_cast raw : role_value (role_cast raw) = raw.
Proof. destruct raw as [|p|p]; try done. do 2 (destruct p as [p|p|]; try done). Qed.
Lemma topology_value_cast raw : topology_value (topology_cast raw) = raw.
Proof. destruct raw as [|p|p]; try done. by destruct p. Qed.

Lemma get_member_app m rest : wf_member m -> get_member (member_bytes m ++ rest) = Ok (m, rest).
Proof.
  intros (H1 & (H2 & H3) & H4). unfold get_member, member_bytes.
  rewrite <- !app_assoc, BinaryReader.array_app, BinaryReader.get_app, get_text_app, H3 by done. by destruct m.
Qed.
Lemma get_member_inv data x r : get_member data = Ok (x, r) -> data = member_bytes x ++ r /\ wf_member x.
Proof.
  unfold get_member. intros H. ok_inv H. apply BinaryReader.array_inv in E as [-> ?].
  apply BinaryReader.get_inv in E0 as [-> ?]. apply get_text_inv in E1 as [-> ?]. simplify_eq.
  unfold member_bytes, wf_member. cbn [member_device role member_group]. rewrite role_value_cast, <- !app_assoc. done.
Qed.

Lemma get_gateway_app g rest : wf_gateway g -> get_gateway (gateway_bytes g ++ rest) = Ok (g, rest).
Proof.
  intros H. unfold get_gateway, gateway_bytes. rewrite <- app_assoc, BinaryReader.array_app, get_flag_app by done.
  by destruct g.
Qed.
Lemma get_gateway_inv data x r : get_gateway data = Ok (x, r) -> data = gateway_bytes x ++ r /\ wf_gateway x.
Proof.
  unfold get_gateway. intros H. ok_inv H. apply BinaryReader.array_inv in E as [-> ?].
  apply get_flag_inv in E0 as ->. simplify_eq. unfold gateway_bytes. by rewrite <- app_assoc.
Qed.

Lemma get_route_app x rest : wf_route x -> get_route (route_bytes x ++ rest) = Ok (x, rest).
Proof.
  intros (H1 & H2 & H3 & H4). unfold get_route, route_bytes.
  rewrite <- !app_assoc, BinaryReader.array_app, !BinaryReader.get_app, get_text_app by done. by destruct x.
Qed.
Lemma get_route_inv data x r : get_route data = Ok (x, r) -> data = route_bytes x ++ r /\ wf_route x.
Proof.
  unfold get_route. intros H. ok_inv H. apply BinaryReader.array_inv in E as [-> ?].
  apply BinaryReader.get_inv in E0 as [-> ?], E1 as [-> ?]. apply get_text_inv in E2 as [-> ?]. simplify_eq.
  unfold route_bytes, wf_route. by rewrite <- !app_assoc.
Qed.

Lemma get_list_app {A} w limit f (g : A -> bytes) (P : A -> Prop) l rest :
  (forall a rest, P a -> f (g a ++ rest) = Ok (a, rest)) -> Forall P l -> len l <= limit -> word w (len l) ->
  get_list w limit f (list_bytes w g l ++ rest) = Ok (l, rest).
Proof.
  intros Hf HP Hl Hw. unfold get_list, list_bytes. rewrite <- app_assoc, BinaryReader.get_app by done.
  guard_true by (by apply Z.leb_le). unfold len. rewrite Nat2Z.id. apply BinaryReader.read_n_app.
  intros a r Ha. apply Hf. rewrite Forall_forall in HP. auto.
Qed.
Lemma get_list_inv {A} w limit f (g : A -> bytes) (P : A -> Prop) data l r :
  (forall data a r, f data = Ok (a, r) -> data = g a ++ r /\ P a) ->
  get_list w limit f data = Ok (l, r) -> data = list_bytes w g l ++ r /\ Forall P l.
Proof.
  intros Hf H. unfold get_list in H. ok_inv H. apply BinaryReader.get_inv in E as [-> W].
  apply (BinaryReader.read_n_inv f g P Hf) in H as (-> & L & F). unfold list_bytes.
  replace x with (len l) by (unfold len, word in *; lia). by rewrite <- app_assoc.
Qed.

Lemma concat_bound {A} (g : A -> bytes) k l :
  Forall (fun a => len (g a) <= k) l -> len (concat (map g l)) <= k * len l.
Proof.
  induction 1 as [|a l H _ IH]; cbn [map concat]; [unfold len; cbn; lia|]. rewrite len_app, len_cons. lia.
Qed.

Lemma list_bytes_bound {A} w (g : A -> bytes) k n l :
  Forall (fun a => len (g a) <= k) l -> len l <= n -> 0 <= k -> len (list_bytes w g l) <= Z.of_nat w + k * n.
Proof.
  intros H Hn Hk. apply concat_bound in H. unfold list_bytes. rewrite len_app.
  assert (len (put_be w (len l)) = Z.of_nat w) by (unfold len; by rewrite length_put_be). nia.
Qed.

Lemma len_text_bytes t : len (text_bytes t) = 1 + len t.
Proof. unfold text_bytes. rewrite len_app. reflexivity. Qed.

Lemma len_subject_bytes s : wf_subject s -> len (subject_bytes s) = 33 + len (subject_group s).
Proof.
  intros [H _]. unfold subject_bytes. rewrite len_app, len_text_bytes. unfold len at 1. rewrite H. lia.
Qed.

Ltac solve_bytes_bound :=
  rewrite !len_app, ?len_text_bytes; unfold len in *; rewrite ?length_put_be; lia.

(** The encoding always fits the decoder's size limit. *)
Lemma encode_policy_bound p bs : wf_policy p -> encode_network_policy p = Ok bs -> len bs <= 32768.
Proof.
  intros (_ & Wh & Wr & Wg & Wm & Wgw & Wrt) H.
  apply encode_policy_bytes in H as (-> & _ & Hh & Hr & Hg & Hm & Hgw & Hrt & Br & Bg & Bm & Brt).
  assert (B1 : len (list_bytes 1 id (hubs p)) <= 1 + 32 * 32).
  { apply list_bytes_bound; [|done|lia]. eapply Forall_impl; [exact Wh|]. unfold id, len. cbn. lia. }
  assert (B2 : len (list_bytes 1 rule_bytes (rules p)) <= 1 + 131 * 64).
  { apply list_bytes_bound; [|done|lia]. rewrite Forall_forall in *. intros r Hin.
    destruct (Wr r Hin) as [W1 W2]. destruct (Br r Hin) as [G1 G2]. unfold rule_bytes.
    rewrite !len_app, !len_subject_bytes by done. change (len (put_be 1 _)) with 1. lia. }
  assert (B3 : len (list_bytes 1 text_bytes (groups p)) <= 1 + 33 * 16).
  { apply list_bytes_bound; [|done|lia]. eapply Forall_impl; [exact Bg|]. intros g; cbn. rewrite len_text_bytes. lia. }
  assert (B4 : len (list_bytes 2 member_bytes (members p)) <= 2 + 66 * 254).
  { apply list_bytes_bound; [|done|lia]. rewrite Forall_forall in *. intros m Hin.
    destruct (Wm m Hin) as [W _]. specialize (Bm m Hin). unfold member_bytes. solve_bytes_bound. }
  assert (B5 : len (list_bytes 1 gateway_bytes (gateways p)) <= 1 + 33 * 16).
  { apply list_bytes_bound; [|done|lia]. rewrite Forall_forall in *. intros g Hin.
    specialize (Wgw g Hin). unfold gateway_bytes, wf_gateway in *. solve_bytes_bound. }
  assert (B6 : len (list_bytes 1 route_bytes (routes p)) <= 1 + 70 * 32).
  { apply list_bytes_bound; [|done|lia]. rewrite Forall_forall in *. intros r Hin.
    destruct (Wrt r Hin) as [W _]. specialize (Brt r Hin). unfold route_bytes. solve_bytes_bound. }
  unfold policy_bytes. rewrite !len_app. change (len (put_be 1 _)) with 1. change (len (put_be 8 _)) with 8. lia.
Qed.

Lemma decode_policy_bytes p :
  wf_policy p -> len (policy_bytes p) <= 32768 -> is_ok (encode_network_policy p) = true ->
  decode_network_policy (policy_bytes p) = Ok p.
Proof.
  intros (Wv & Wh & Wr & Wg & Wm & Wgw & Wrt) L E.
  destruct (encode_network_policy p) as [bs|] eqn:E1; [|done]. clear E.
  pose proof (encode_policy_bytes _ _ E1) as (_ & Top & Hh & Hr & Hg & Hm & Hgw & Hrt & _).
  unfold decode_network_policy. guard_true by (by apply Z.leb_le). unfold policy_bytes.
  assert (W1 : forall {A} (l : list A) n, len l <= n -> n <= 255 -> word 1 (len l))
    by (intros A l n H1 H2; pose proof (len_nonneg l); words; lia).
  rewrite !BinaryReader.get_app by (done || (words; lia)). cbn [Z.eqb Pos.eqb]. rewrite get_flag_app.
  rewrite BinaryReader.get_app by (by destruct Top as [-> | ->]).
  rewrite (get_list_app 1 32 _ id (fun d => length d = 32%nat));
    [|intros; by apply BinaryReader.array_app|done|done|by eapply W1].
  rewrite (get_list_app 1 64 _ rule_bytes wf_rule); [|apply get_rule_app|done|done|by eapply W1].
  rewrite (get_list_app 1 16 _ text_bytes wf_text); [|apply get_text_app|done|done|by eapply W1].
  rewrite (get_list_app 2 254 _ member_bytes wf_member);
    [|apply get_member_app|done|done|pose proof (len_nonneg (members p)); words; lia].
  rewrite (get_list_app 1 16 _ gateway_bytes wf_gateway); [|apply get_gateway_app|done|done|by eapply W1].
  rewrite <- (app_nil_r (list_bytes 1 route_bytes (routes p))).
  rewrite (get_list_app 1 32 _ route_bytes wf_route); [|apply get_route_app|done|done|by eapply W1].
  cbn [BinaryReader.finish].
  assert (Et : topology_cast (topology_value (topology p)) = topology p) by (by destruct Top as [-> | ->]).
  rewrite Et. destruct p. cbn [revision managed topology hubs rules groups members gateways routes] in *. by rewrite E1.
Qed.

Lemma network_policy_codec (bs : bytes) (p : NetworkPolicy) :
  decode_network_policy bs = Ok p <-> wf_policy p /\ encode_network_policy p = Ok bs.
Proof.
  split.
  - unfold decode_network_policy. intros H. ok_inv H.
    rename E10 into Enc. apply BinaryReader.get_inv in E as [-> ?], E0 as [-> ?], E2 as [-> ?].
    apply get_flag_inv in E1 as ->.
    apply (get_list_inv 1 32 _ id (fun d => length d = 32%nat)) in E3 as [-> ?]; [|apply BinaryReader.array_inv].
    apply (get_list_inv 1 64 _ rule_bytes wf_rule) in E4 as [-> ?]; [|apply get_rule_inv].
    apply (get_list_inv 1 16 _ text_bytes wf_text) in E5 as [-> ?]; [|apply get_text_inv].
    apply (get_list_inv 2 254 _ member_bytes wf_member) in E6 as [-> ?]; [|apply get_member_inv].
    apply (get_list_inv 1 16 _ gateway_bytes wf_gateway) in E7 as [-> ?]; [|apply get_gateway_inv].
    apply (get_list_inv 1 32 _ route_bytes wf_route) in E8 as [-> ?]; [|apply get_route_inv].
    subst p. split; [by split_and!|]. apply encode_policy_bytes in Enc as Eb. destruct Eb as [-> _].
    rewrite Enc. f_equal. unfold policy_bytes. cbn [revision managed topology hubs rules groups members gateways routes].
    bool_prop. subst. rewrite topology_value_cast.
    destruct a. apply BinaryReader.finish_inv in E9 as ->. by rewrite app_nil_r.
  - intros [W H]. pose proof (encode_policy_bound _ _ W H). pose proof (encode_policy_bytes _ _ H) as [-> _].
    apply decode_policy_bytes; [done|done|by rewrite H].
Qed.

(** ** Correctness of the codec *)


(** ** Subnet arithmetic *)

Lemma subnet_contains_spec s p a :
  word 4 a ->
  subnet_contains s p a = true <-> 0 < p <= 32 /\ a / 2 ^ (32 - p) * 2 ^ (32 - p) = s.
Proof.
  intros Ha. unfold subnet_contains. rewrite !andb_true_iff, Z.gtb_lt, Z.leb_le, Z.eqb_eq. split.
  - intros [[H1 H2] H3]. rewrite land_mask in H3 by (done || lia). done.
  - intros [Hp E]. rewrite land_mask by (done || lia). done.
Qed.

Lemma div_pow2_mono a b j k :
  0 <= j <= k -> a / 2 ^ j = b / 2 ^ j -> a / 2 ^ k = b / 2 ^ k.
Proof.
  intros H E. replace k with (j + (k - j)) by lia. rewrite Z.pow_add_r by lia.
  rewrite <- !Z.div_div by (apply Z.pow_nonzero || apply Z.pow_pos_nonneg; lia). by rewrite E.
Qed.

Lemma contains_div s p x : 0 < 2 ^ p -> x / 2 ^ p * 2 ^ p = s -> s / 2 ^ p = x / 2 ^ p.
Proof. intros Hp <-. apply Z.div_mul. lia. Qed.

(** Two subnets overlap exactly when some address is in both. *)
Lemma subnets_overlap_spec a ap b bp :
  word 4 a -> word 4 b -> subnet_contains a ap a = true -> subnet_contains b bp b = true ->
  subnets_overlap a ap b bp = true <->
  exists x, word 4 x /\ subnet_contains a ap x = true /\ subnet_contains b bp x = true.
Proof.
  intros Ha Hb Ca Cb. apply subnet_contains_spec in Ca as [Hap Ea]; [|done].
  apply subnet_contains_spec in Cb as [Hbp Eb]; [|done]. unfold subnets_overlap.
  assert (P : forall k, 0 < 2 ^ Z.max 0 k) by (intros; apply Z.pow_pos_nonneg; lia).
  guard_false by (rewrite !orb_false_iff, !Z.gtb_ltb, !Z.ltb_ge, !Z.eqb_neq; lia).
  rewrite Z.eqb_eq, !land_mask by (done || lia).
  assert (Pa := P (32 - ap)). assert (Pb := P (32 - bp)). rewrite Z.max_r in Pa, Pb by lia.
  split.
  - intros E. destruct (Z.le_ge_cases ap bp) as [L|L].
    + rewrite Z.min_l in E by lia. exists b. rewrite !subnet_contains_spec by done. rewrite <- E. by rewrite Ea, Eb.
    + rewrite Z.min_r in E by lia. exists a. rewrite !subnet_contains_spec by done. rewrite E. by rewrite Ea, Eb.
  - intros (x & Hx & C1 & C2). apply subnet_contains_spec in C1 as [_ C1], C2 as [_ C2]; [|done..].
    f_equal. apply contains_div in C1, C2; [|done..].
    transitivity (x / 2 ^ (32 - Z.min ap bp)); [|symmetry]; eapply div_pow2_mono; try eassumption; lia.
Qed.

(** A routed subnet lies inside one of the private ranges. *)
Lemma private_routed_subnet_inv a p x :
  word 4 a -> word 4 x -> private_routed_subnet a p = true -> subnet_contains a p x = true ->
  subnet_contains a p a = true /\ 8 <= p <= 30 /\
  (subnet_contains 0x0a000000 8 x = true \/ subnet_contains 0xac100000 12 x = true \/
   subnet_contains 0xc0a80000 16 x = true).
Proof.
  intros Ha Hx H C. unfold private_routed_subnet in H. destruct (_ || _ || negb _) eqn:G in H; [done|].
  bool_prop. split; [done|]. split; [lia|].
  apply subnet_contains_spec in C as [Hp C]; [|done].
  assert (T : forall s q, q <= p -> 0 < q -> subnet_contains s q a = true -> subnet_contains s q x = true).
  { intros s q Hq Hq0 Hs. apply subnet_contains_spec in Hs as [_ Hs]; [|done].
    apply subnet_contains_spec; [done|]. split; [lia|]. rewrite <- Hs. f_equal.
    apply contains_div in C; [|apply Z.pow_pos_nonneg; lia]. symmetry. eapply div_pow2_mono; [|exact C]. lia. }
  apply orb_true_iff in H as [H|H]; [apply orb_true_iff in H as [H|H]|];
    apply andb_true_iff in H as [Hq Hs]; rewrite Z.geb_leb in Hq; apply Z.leb_le in Hq.
  - left. by apply T; [lia..|].
  - right; left. by apply T; [lia..|].
  - right; right. by apply T; [lia..|].
Qed.

(** What [put_routes] checks of each route. *)
Lemma put_routes_checks known gws l : forall before bs, put_routes known gws before l = Ok bs ->
  forall j r, l !! j = Some r ->
  private_routed_subnet (address r) (prefix r) = true /\
  (exists g, g ∈ gws /\ gateway_device g = gateway r /\ approved g = true) /\
  forall i q, (before ++ l) !! i = Some q -> (i < length before + j)%nat ->
    subnets_overlap (address r) (prefix r) (address q) (prefix q) = false.
Proof.
  induction l as [|r0 l IH]; intros before bs H j r Hj; [done|]. cbn [put_routes] in H. ok_inv H.
  destruct j as [|j]; cbn in Hj.
  - injection Hj as <-. bool_prop. split; [done|]. split.
    + apply existsb_exists in G0 as (g & Hg & E2). bool_prop. exists g. split; [by apply list_elem_of_In|done].
    + intros i q Hq Hi. rewrite lookup_app_l in Hq by lia. rewrite forallb_forall in G1.
      apply negb_true_iff, G1, list_elem_of_In. by eapply list_elem_of_lookup_2.
  - destruct (IH _ _ E0 _ _ Hj) as (? & ? & D). split_and!; [done|done|].
    intros i q Hq Hi. apply (D i q); [|rewrite length_app; cbn; lia]. by rewrite <- app_assoc.
Qed.

Lemma scan_rules_spec p a b l allowed :
  scan_rules p a b l allowed = true <->
  (allowed = true \/ exists r, r ∈ l /\ rule_matches p a b r = true) /\
  (forall r, r ∈ l -> rule_matches p a b r = true -> allow r = true).
Proof.
  revert allowed. induction l as [|r l IH]; intros allowed; cbn [scan_rules].
  { split; [intros ->; split; [by left|intros r Hr; inversion Hr]|].
    intros [[H|(r & Hr & _)] _]; [done|inversion Hr]. }
  destruct (rule_matches p a b r) eqn:M.
  - destruct (allow r) eqn:A; cbn [negb].
    + rewrite IH. split.
      * intros [_ H]. split; [right; exists r; split; [left|done]|].
        intros q Hq Mq. apply elem_of_cons in Hq as [->|Hq]; auto.
      * intros [_ H]. split; [by left|]. intros q Hq. apply H. by right.
    + split; [done|]. intros [_ H]. specialize (H r). rewrite A in H. by apply H; [left|].
  - rewrite IH. split.
    + intros [H1 H2]. split.
      * destruct H1 as [H1|(q & Hq & Mq)]; [by left|right; exists q; split; [by right|done]].
      * intros q Hq Mq. apply elem_of_cons in Hq as [->|Hq]; [congruence|auto].
    + intros [H1 H2]. split.
      * destruct H1 as [H1|(q & Hq & Mq)]; [by left|right]. apply elem_of_cons in Hq as [->|Hq]; [congruence|eauto].
      * intros q Hq. apply H2. by right.
Qed.

(** ** Correctness of the decisions *)

(** The declarative reading of an access decision. *)
Lemma policy_allows_iff (p : NetworkPolicy) (a b : bytes) :
  policy_allows p a b = true <->
  a <> b /\ a <> zero_device /\ b <> zero_device /\
  (managed p = false \/
   ((topology p = hub_spoke -> a ∈ hubs p \/ b ∈ hubs p) /\
    (exists r, r ∈ rules p /\ rule_matches p a b r = true) /\
    (forall r, r ∈ rules p -> rule_matches p a b r = true -> allow r = true))).
Proof.
  unfold policy_allows. destruct (bool_decide (a = b) || _ || _) eqn:G.
  { split; [done|]. intros (H1 & H2 & H3 & _).
    rewrite !orb_true_iff, !bool_decide_eq_true in G. tauto. }
  bool_prop. destruct (managed p); cbn [negb]; [|tauto].
  destruct (_ && _ && _) eqn:G.
  { split; [done|]. intros (_ & _ & _ & [?|(Hh & _)]); [done|]. bool_prop. destruct (Hh ltac:(done)); done. }
  rewrite scan_rules_spec.
  assert (Hub : topology p = hub_spoke -> a ∈ hubs p \/ b ∈ hubs p).
  { intros T. rewrite T, bool_decide_eq_true_2 in G by done. cbn in G.
    destruct (bool_decide (a ∈ hubs p)) eqn:E1; [bool_prop; auto|].
    destruct (bool_decide (b ∈ hubs p)) eqn:E2; [bool_prop; auto|done]. }
  split.
  - intros [[?|Hr] Hd]; [done|]. split_and!; auto.
  - intros (_ & _ & _ & [?|(_ & Hr & Hd)]); [done|]. auto.
Qed.

Lemma rule_matches_comm p a b r : rule_matches p a b r = rule_matches p b a r.
Proof. unfold rule_matches. by rewrite orb_comm. Qed.

Lemma scan_rules_comm p a b l allowed : scan_rules p a b l allowed = scan_rules p b a l allowed.
Proof.
  revert allowed. induction l as [|r l IH]; intros allowed; [done|]. cbn [scan_rules].
  rewrite rule_matches_comm, !IH. done.
Qed.

Lemma policy_allows_comm p a b : policy_allows p a b = policy_allows p b a.
Proof.
  unfold policy_allows. rewrite scan_rules_comm.
  assert (E : bool_decide (a = b) = bool_decide (b = a)) by (apply bool_decide_ext; split; congruence).
  rewrite E. destruct (bool_decide (b = a)), (bool_decide (a = zero_device)), (bool_decide (b = zero_device)),
    (managed p), (bool_decide (topology p = hub_spoke)), (bool_decide (a ∈ hubs p)), (bool_decide (b ∈ hubs p)); done.
Qed.

(** Decisions do not depend on the direction, and fan-out never exceeds unicast. *)
Lemma policy_symmetric (p : NetworkPolicy) (a b : bytes) :
  policy_allows p a b = policy_allows p b a /\
  policy_fanout_allows p a b = policy_fanout_allows p b a /\
  implb (policy_fanout_allows p a b) (policy_allows p a b) = true.
Proof.
  unfold policy_fanout_allows. rewrite (policy_allows_comm p a b). split; [done|]. split.
  - f_equal. f_equal. apply andb_comm.
  - destruct (policy_allows p b a); cbn [andb implb]; [by destruct (_ || _)|done].
Qed.

(** Routed subnets are unambiguous: in a policy that can be encoded, at most
    one route contains any given address, that route lies inside a private range, and
    its gateway is an approved one. *)
Lemma encoded_routes_unambiguous (p : NetworkPolicy) (bs : bytes) (x : Z) (i j : nat) (r q : RoutedSubnet) :
  wf_policy p -> encode_network_policy p = Ok bs -> word 4 x ->
  routes p !! i = Some r -> routes p !! j = Some q ->
  subnet_contains (address r) (prefix r) x = true -> subnet_contains (address q) (prefix q) x = true ->
  i = j /\ r = q /\
  (subnet_contains 0x0a000000 8 x = true \/ subnet_contains 0xac100000 12 x = true \/
   subnet_contains 0xc0a80000 16 x = true) /\
  exists g, g ∈ gateways p /\ gateway_device g = gateway r /\ approved g = true.
Proof.
  intros (_ & _ & _ & _ & _ & _ & Wr) H Hx Hi Hj Cr Cq. unfold encode_network_policy in H. ok_inv H. clear H.
  match goal with H : put_routes _ _ _ _ = Ok _ |- _ => pose proof (put_routes_checks _ _ _ _ _ H) as K end.
  destruct (K _ _ Hi) as (Pr & Gr & Dr). destruct (K _ _ Hj) as (Pq & Gq & Dq). cbn [app length Nat.add] in *.
  rewrite Forall_forall in Wr.
  destruct (Wr r) as (_ & Wa & _); [by eapply list_elem_of_lookup_2|].
  destruct (Wr q) as (_ & Wb & _); [by eapply list_elem_of_lookup_2|].
  destruct (private_routed_subnet_inv _ _ _ Wa Hx Pr Cr) as (Ar & _ & Rx).
  destruct (private_routed_subnet_inv _ _ _ Wb Hx Pq Cq) as (Aq & _ & _).
  assert (Eij : i = j).
  { destruct (Nat.lt_trichotomy i j) as [L|[L|L]]; [|done|]; exfalso.
    - specialize (Dq _ _ Hi L). pose proof (proj2 (subnets_overlap_spec _ _ _ _ Wb Wa Aq Ar)) as O.
      rewrite O in Dq; [done|eauto].
    - specialize (Dr _ _ Hj L). pose proof (proj2 (subnets_overlap_spec _ _ _ _ Wa Wb Ar Aq)) as O.
      rewrite O in Dr; [done|eauto]. }
  subst j. rewrite Hi in Hj. injection Hj as <-. auto.
Qed.

(** C18: the policy codec is exact and access decisions follow the documented rule.  A byte string
    decodes to a policy if and only if it is the encoding of that well-typed policy (so every policy
    that can be encoded stays within the decoder's 32768-byte limit); in a policy that decodes at most
    one route contains any given address, that route lies inside a private range, and its gateway is
    an approved one.  Two distinct real devices may talk when the network is unmanaged, or when, in a
    hub-and-spoke network, one of them is a hub, some rule matches the pair in either order, and every
    rule that matches it allows ("deny wins, otherwise a matching allow is required").  Unicast and
    fan-out permission are the same in both directions, and fan-out never exceeds unicast. *)
Theorem network_policy_exact (bs : bytes) (p : NetworkPolicy) (a b : bytes) :
  (decode_network_policy bs = Ok p <-> wf_policy p /\ encode_network_policy p = Ok bs) /\
  (decode_network_policy bs = Ok p -> forall (x : Z) (i j : nat) (r q : RoutedSubnet),
     word 4 x -> routes p !! i = Some r -> routes p !! j = Some q ->
     subnet_contains (address r) (prefix r) x = true -> subnet_contains (address q) (prefix q) x = true ->
     i = j /\ r = q /\
     (subnet_contains 0x0a000000 8 x = true \/ subnet_contains 0xac100000 12 x = true \/
      subnet_contains 0xc0a80000 16 x = true) /\
     exists g, g ∈ gateways p /\ gateway_device g = gateway r /\ approved g = true) /\
  (policy_allows p a b = true <->
   a <> b /\ a <> zero_device /\ b <> zero_device /\
   (managed p = false \/
    ((topology p = hub_spoke -> a ∈ hubs p \/ b ∈ hubs p) /\
     (exists r, r ∈ rules p /\ rule_matches p a b r = true) /\
     (forall r, r ∈ rules p -> rule_matches p a b r = true -> allow r = true)))) /\
  policy_allows p a b = policy_allows p b a /\
  policy_fanout_allows p a b = policy_fanout_allows p b a /\
  implb (policy_fanout_allows p a b) (policy_allows p a b) = true.
Proof.
  split; [apply network_policy_codec|]. split; [|split; [apply policy_allows_iff|apply policy_symmetric]]. intros D x i j r q. apply network_policy_codec in D as [W E].
  by apply (encoded_routes_unambiguous p bs).
Qed.

Lemma network_policy_exact_witness :
  let d := x01 :: replicate 31 x00 in
  let r := mk_route d 0xc0a80100 24 [] in
  let p := mk_policy 3 true mesh [] [] [] [] [mk_gateway d true] [mk_route d 0x0a000000 8 []; r] in
  subnet_contains 0xc0a80000 16 0xc0a80105 = true /\ routes p !! 1%nat = Some r.
Proof.
  set (d := x01 :: replicate 31 x00). set (r := mk_route d 0xc0a80100 24 []).
  set (p := mk_policy 3 true mesh [] [] [] [] [mk_gateway d true] [mk_route d 0x0a000000 8 []; r]).
  destruct (encode_network_policy p) as [bs|] eqn:E; [|vm_compute in E; discriminate E].
  assert (W : wf_policy p).
  { split; [words; cbn; lia|]. split_and!; try by apply Forall_nil_2. { by apply Forall_singleton. }
    apply Forall_cons. split; [|apply Forall_singleton]; repeat split; vm_compute; (reflexivity || discriminate). }
  destruct (network_policy_exact bs p d d) as (X & U & _). specialize (U (proj2 X (conj W E))).
  destruct (U 0xc0a80105 1%nat 1%nat r r) as (_ & _ & [H|[H|H]] & _);
    [words; lia|reflexivity|reflexivity|reflexivity|reflexivity|..].
  - vm_compute in H. discriminate H.
  - vm_compute in H. discriminate H.
  - split; [exact H|reflexivity].
Defined.
