(* ===== verification/NetworkName.v ===== *)
(** Network names: [valid_network_name] of src/protocol/network_messages.cpp and
    its specification, well-formed UTF-8 without control characters. *)
From S2P Require Import Prelude.

Definition max_network_name_size : Z := 128.

(** The loop over the continuation bytes: [None] is [return false]. *)
Fixpoint continuation (name : bytes) (offset : nat) (indices : list nat) (code_point : Z) : option Z :=
  match indices with
  | [] => Some code_point
  | index :: indices =>
      let next := at_z name (offset + index) in
      if negb (Z.land next 0xc0 =? 0x80) then None
      else continuation name offset indices (Z.lor (Z.shiftl code_point 6) (Z.land next 0x3f))
  end.

(** One iteration of the loop over the name; [Some] is the next offset. *)
Definition name_step (name : bytes) (offset : nat) : option nat :=
  let first := at_z name offset in
  match
    (if first <=? 0x7f then Some (first, 0%nat)
     else if (first >=? 0xc2) && (first <=? 0xdf) then Some (Z.land first 0x1f, 1%nat)
     else if (first >=? 0xe0) && (first <=? 0xef) then Some (Z.land first 0x0f, 2%nat)
     else if (first >=? 0xf0) && (first <=? 0xf4) then Some (Z.land first 0x07, 3%nat)
     else None)
  with
  | None => None
  | Some (code_point, count) =>
      if Z.of_nat count >? len name - Z.of_nat offset - 1 then None
      else
        match continuation name offset (seq 1 count) code_point with
        | None => None
        | Some code_point =>
            let overlong := ((count =? 1)%nat && (code_point <? 0x80)) ||
                            ((count =? 2)%nat && (code_point <? 0x800)) ||
                            ((count =? 3)%nat && (code_point <? 0x10000)) in
            let surrogate := (code_point >=? 0xd800) && (code_point <=? 0xdfff) in
            let control := (code_point <? 0x20) || ((code_point >=? 0x7f) && (code_point <=? 0x9f)) in
            if overlong || surrogate || (code_point >? 0x10ffff) || control then None
            else Some (offset + (count + 1))%nat
        end
  end.

Fixpoint name_loop (fuel : nat) (name : bytes) (offset : nat) : option bool :=
  match fuel with
  | O => None
  | S fuel =>
      if (offset <? length name)%nat then
        match name_step name offset with
        | None => Some false
        | Some offset => name_loop fuel name offset
        end
      else Some true
  end.

(** Every iteration advances, so the fuel suffices ([name_loop_spec]). *)
Definition valid_network_name (name : bytes) : bool :=
  if bool_decide (name = []) || (len name >? max_network_name_size) then false
  else match name_loop (S (length name)) name 0 with Some b => b | None => false end.

(** ** Specification *)

(** The UTF-8 encoding of a code point (RFC 3629, section 3). *)
Definition utf8_encode (c : Z) : bytes :=
  if c <? 0x80 then [z2b c]
  else if c <? 0x800 then [z2b (0xc0 + c / 64); z2b (0x80 + c mod 64)]
  else if c <? 0x10000 then [z2b (0xe0 + c / 4096); z2b (0x80 + c / 64 mod 64); z2b (0x80 + c mod 64)]
  else [z2b (0xf0 + c / 262144); z2b (0x80 + c / 4096 mod 64); z2b (0x80 + c / 64 mod 64); z2b (0x80 + c mod 64)].

(** A Unicode scalar value that is not a C0 or C1 control character. *)
Definition printable (c : Z) : Prop :=
  0x20 <= c <= 0x10ffff /\ ~ 0x7f <= c <= 0x9f /\ ~ 0xd800 <= c <= 0xdfff.

(** ** Lemmas *)

Lemma lor_shift a b k : 0 <= k -> 0 <= b < 2 ^ k -> Z.lor (Z.shiftl a k) b = a * 2 ^ k + b.
Proof.
  intros Hk Hb. pose proof (Z.add_lor_land (Z.shiftl a k) b) as E.
  replace (Z.land (Z.shiftl a k) b) with 0 in E; [rewrite Z.shiftl_mul_pow2 in *; lia|].
  symmetry. apply Z.bits_inj'. intros i Hi. rewrite Z.land_spec, Z.bits_0.
  destruct (Z.lt_ge_cases i k); [by rewrite Z.shiftl_spec_low|].
  destruct (Z.eq_dec b 0) as [->|]; [by rewrite Z.bits_0, andb_false_r|].
  rewrite (Z.bits_above_log2 b i); [apply andb_false_r|lia|].
  apply Z.log2_lt_pow2; [lia|]. assert (2 ^ k <= 2 ^ i) by (apply Z.pow_le_mono_r; lia). lia.
Qed.

Lemma continuation_byte b : Z.land (b2z b) 0xc0 = 0x80 <-> 0x80 <= b2z b < 0xc0.
Proof.
  assert (C : forallb (fun z => Bool.eqb (Z.land z 0xc0 =? 0x80) ((0x80 <=? z) && (z <? 0xc0))) (seqZ 0 256) = true)
    by (vm_compute; reflexivity).
  rewrite forallb_forall in C. specialize (C (b2z b)). pose proof (b2z_range b).
  rewrite eqb_true_iff in C. rewrite <- Z.eqb_eq, C by (apply list_elem_of_In, elem_of_seqZ; lia).
  rewrite andb_true_iff, Z.leb_le, Z.ltb_lt. done.
Qed.

Lemma continuation_inv name offset l : forall cp cp',
  continuation name offset l cp = Some cp' ->
  Forall (fun i => 0x80 <= at_z name (offset + i) < 0xc0) l /\
  cp' = foldl (fun c i => c * 64 + at_z name (offset + i) mod 64) cp l.
Proof.
  induction l as [|i l IH]; intros cp cp' H; cbn [continuation] in H; [by simplify_eq|].
  destruct (negb _) eqn:G; [done|]. bool_prop. apply IH in H as [F ->]. cbn [foldl].
  unfold at_z in *. apply continuation_byte in G. split; [by constructor|]. f_equal.
  change 0x3f with (Z.ones 6). rewrite Z.land_ones by lia. rewrite lor_shift; [done|lia|]. apply Z.mod_pos_bound. lia.
Qed.

Lemma continuation_ok name offset l cp :
  Forall (fun i => 0x80 <= at_z name (offset + i) < 0xc0) l ->
  continuation name offset l cp = Some (foldl (fun c i => c * 64 + at_z name (offset + i) mod 64) cp l).
Proof.
  revert cp. induction l as [|i l IH]; intros cp F; [done|]. inversion F as [|? ? F1 F2]; subst.
  cbn [continuation foldl]. unfold at_z in *.
  guard_false by (apply negb_false_iff, Z.eqb_eq, continuation_byte; done).
  rewrite IH by done. f_equal. f_equal. change 0x3f with (Z.ones 6). rewrite Z.land_ones by lia.
  apply lor_shift; [lia|]. apply Z.mod_pos_bound. lia.
Qed.

Lemma byte_at name i z : at_z name i = z mod 256 -> at_ name i = z2b z.
Proof. unfold at_z. intros H. apply b2z_inj. by rewrite b2z_z2b. Qed.

Lemma slice_bytes name off n :
  (off + n <= length name)%nat -> slice off n name = map (fun i => at_ name (off + i)) (seq 0 n).
Proof.
  revert off. induction n as [|n IH]; intros off H; [done|].
  rewrite slice_cons, IH by lia. cbn [seq map]. rewrite Nat.add_0_r. f_equal. rewrite <- seq_shift, map_map. apply map_ext.
  intros i. f_equal. lia.
Qed.

Ltac zdiv := Z.div_mod_to_equations; lia.

(** A successful step reads the encoding of one printable code point. *)
Lemma name_step_sound name offset offset' :
  (offset < length name)%nat -> name_step name offset = Some offset' ->
  exists c, printable c /\ (offset < offset' <= length name)%nat /\
    slice offset (offset' - offset) name = utf8_encode c.
Proof.
  intros Ho H. unfold name_step in H. set (f := at_z name offset) in *.
  pose proof (at_z_range name offset) as Rf. fold f in Rf.
  assert (Key : forall cp0 count,
    Z.of_nat count <= len name - Z.of_nat offset - 1 ->
    forall cp, continuation name offset (seq 1 count) cp0 = Some cp ->
    offset' = (offset + (count + 1))%nat -> printable cp ->
    map (fun i => at_ name (offset + i)) (seq 0 (S count)) = utf8_encode cp ->
    exists c, printable c /\ (offset < offset' <= length name)%nat /\ slice offset (offset' - offset) name = utf8_encode c).
  { intros cp0 count Hc cp Hcp -> Hp E. exists cp. unfold len in Hc. split; [done|]. split; [lia|].
    replace (offset + (count + 1) - offset)%nat with (S count) by lia. rewrite slice_bytes by lia. done. }

  destruct (Z.leb_spec f 0x7f);
    [|destruct ((f >=? 0xc2) && (f <=? 0xdf)) eqn:G1;
      [|destruct ((f >=? 0xe0) && (f <=? 0xef)) eqn:G2;
        [|destruct ((f >=? 0xf0) && (f <=? 0xf4)) eqn:G3; [|done]]]]; bool_prop;
    (destruct (_ >? _) eqn:Gl in H; [done|]; bool_prop;
     destruct (continuation _ _ _ _) as [cp|] eqn:C in H; [|done];
     destruct (_ || _) eqn:G in H; [done|]; injection H as <-;
     apply (Key _ _ Gl _ C eq_refl); apply continuation_inv in C as [F ->];
     cbn [seq foldl] in *; rewrite ?Forall_cons in F; cbn [andb orb Nat.eqb] in G; bool_prop).
  - unfold printable. lia.
  - unfold utf8_encode. cbn [map]. guard_true by (apply Z.ltb_lt; lia). rewrite Nat.add_0_r. unfold f, at_z. by rewrite z2b_b2z.
  - unfold printable. lia.
  - destruct F as (F1 & _). set (n1 := at_z name (offset + 1)) in *.
    change 0x1f with (Z.ones 5) in *. rewrite Z.land_ones in * by lia. change (2 ^ 5) with 32 in *.
    unfold utf8_encode. guard_false by (apply Z.ltb_ge; lia). guard_true by (apply Z.ltb_lt; zdiv).
    cbn [map]. rewrite Nat.add_0_r. f_equal; [|f_equal]; apply byte_at; fold f n1; zdiv.
  - unfold printable. lia.
  - destruct F as (F1 & F2 & _). set (n1 := at_z name (offset + 1)) in *. set (n2 := at_z name (offset + 2)) in *.
    change 0x0f with (Z.ones 4) in *. rewrite Z.land_ones in * by lia. change (2 ^ 4) with 16 in *.
    unfold utf8_encode. do 2 (guard_false by (apply Z.ltb_ge; lia)). guard_true by (apply Z.ltb_lt; zdiv).
    cbn [map]. rewrite Nat.add_0_r. f_equal; [|f_equal; [|f_equal]]; apply byte_at; fold f n1 n2; zdiv.
  - unfold printable. lia.
  - destruct F as (F1 & F2 & F3 & _). set (n1 := at_z name (offset + 1)) in *.
    set (n2 := at_z name (offset + 2)) in *. set (n3 := at_z name (offset + 3)) in *.
    change 0x07 with (Z.ones 3) in *. rewrite Z.land_ones in * by lia. change (2 ^ 3) with 8 in *.
    unfold utf8_encode. do 3 (guard_false by (apply Z.ltb_ge; lia)).
    cbn [map]. rewrite Nat.add_0_r. f_equal; [|f_equal; [|f_equal; [|f_equal]]]; apply byte_at; fold f n1 n2 n3; zdiv.
Qed.

Lemma at_z_z2b name i z : at_ name i = z2b z -> 0 <= z < 256 -> at_z name i = z.
Proof. intros H R. unfold at_z. rewrite H, b2z_z2b. by apply Z.mod_small. Qed.

(** The encoding of a printable code point is accepted. *)
Lemma name_step_complete name offset c :
  printable c -> (offset + length (utf8_encode c) <= length name)%nat ->
  slice offset (length (utf8_encode c)) name = utf8_encode c ->
  name_step name offset = Some (offset + length (utf8_encode c))%nat.
Proof.
  intros (Hc & Hctl & Hsur) L E. rewrite slice_bytes in E by done. unfold name_step, len.
  unfold utf8_encode in *. destruct (Z.ltb_spec c 0x80); [|destruct (Z.ltb_spec c 0x800);
    [|destruct (Z.ltb_spec c 0x10000)]]; cbn [length seq map] in *; rewrite Nat.add_0_r in E.
  - injection E as E0. apply at_z_z2b in E0; [|lia]. rewrite E0. guard_true by lia. guard_false by (rewrite Z.gtb_ltb; apply Z.ltb_ge; lia). cbn [seq continuation].
    cbn [Nat.eqb andb orb]. guard_false by lia. done.
  - injection E as E0 E1. apply at_z_z2b in E0, E1; [|zdiv..]. rewrite E0.
    guard_false by zdiv. guard_true by zdiv. guard_false by (rewrite Z.gtb_ltb; apply Z.ltb_ge; lia). cbn [seq].
    rewrite continuation_ok by (repeat constructor; zdiv). cbn [foldl].
    replace (_ * 64 + _) with c by (rewrite E1; change 0x1f with (Z.ones 5); rewrite Z.land_ones by lia;
      change (2 ^ 5) with 32; zdiv).
    cbn [Nat.eqb andb orb]. guard_false by lia. done.
  - injection E as E0 E1 E2. apply at_z_z2b in E0, E1, E2; [|zdiv..]. rewrite E0.
    guard_false by zdiv. guard_false by zdiv. guard_true by zdiv. guard_false by (rewrite Z.gtb_ltb; apply Z.ltb_ge; lia). cbn [seq].
    rewrite continuation_ok by (repeat constructor; zdiv). cbn [foldl].
    replace (_ * 64 + _) with c by (rewrite E1, E2; change 0x0f with (Z.ones 4); rewrite Z.land_ones by lia;
      change (2 ^ 4) with 16; zdiv).
    cbn [Nat.eqb andb orb]. guard_false by lia. done.
  - injection E as E0 E1 E2 E3. apply at_z_z2b in E0, E1, E2, E3; [|zdiv..]. rewrite E0.
    do 3 (guard_false by zdiv). guard_true by zdiv. guard_false by (rewrite Z.gtb_ltb; apply Z.ltb_ge; lia). cbn [seq].
    rewrite continuation_ok by (repeat constructor; zdiv). cbn [foldl].
    replace (_ * 64 + _) with c by (rewrite E1, E2, E3; change 0x07 with (Z.ones 3); rewrite Z.land_ones by lia;
      change (2 ^ 3) with 8; zdiv).
    cbn [Nat.eqb andb orb]. guard_false by lia. done.
Qed.

Lemma utf8_encode_nonempty c : (0 < length (utf8_encode c))%nat.
Proof. unfold utf8_encode. repeat (destruct (_ <? _)); cbn; lia. Qed.

Lemma name_loop_sound name : forall fuel offset,
  (offset <= length name)%nat -> (length name - offset < fuel)%nat ->
  exists b, name_loop fuel name offset = Some b /\
    (b = true -> exists cs, Forall printable cs /\ drop offset name = concat (map utf8_encode cs)).
Proof.
  induction fuel as [|fuel IH]; intros offset Ho Hf; [lia|]. cbn [name_loop].
  destruct (Nat.ltb_spec offset (length name)) as [Hlt|Hge].
  2:{ eexists. split; [done|]. intros _. exists []. rewrite drop_ge by lia. by constructor. }
  destruct (name_step name offset) as [o|] eqn:E; [|by eexists].
  destruct (name_step_sound _ _ _ Hlt E) as (c & Pc & Hb & S).
  destruct (IH o) as (b & -> & R); [lia..|]. exists b. split; [done|]. intros Eb.
  destruct (R Eb) as (cs & Pcs & D). exists (c :: cs). split; [by constructor|]. cbn [map concat].
  rewrite <- S, <- D. unfold slice. rewrite <- (take_drop (o - offset) (drop offset name)) at 1.
  rewrite drop_drop. do 2 f_equal. lia.
Qed.

Lemma name_loop_complete name cs : forall fuel offset,
  Forall printable cs -> drop offset name = concat (map utf8_encode cs) ->
  (offset <= length name)%nat -> (length name - offset < fuel)%nat ->
  name_loop fuel name offset = Some true.
Proof.
  induction cs as [|c cs IH]; intros [|fuel] offset P D Ho Hf; try lia; cbn [name_loop]; cbn [map concat] in D;
    pose proof (f_equal length D) as L; rewrite length_drop in L.
  - cbn in L. by replace (offset <? length name)%nat with false by (symmetry; apply Nat.ltb_ge; lia).
  - rewrite length_app in L. pose proof (utf8_encode_nonempty c). inversion P as [|? ? Pc Pcs]; subst.
    replace (offset <? length name)%nat with true by (symmetry; apply Nat.ltb_lt; lia).
    rewrite (name_step_complete name offset c Pc); [|lia|unfold slice; rewrite D; by apply take_app_len].
    apply IH; [done| |lia|lia]. rewrite <- drop_drop, D. by apply drop_app_len.
Qed.

(** [valid_network_name] accepts exactly the names of 1 to 128 bytes that are
    the UTF-8 encoding of a sequence of Unicode scalar values without control
    characters: overlong forms, surrogates, truncated sequences and stray
    continuation bytes are all refused, and the loop always terminates. *)
Lemma valid_network_name_utf8 (name : bytes) :
  valid_network_name name = true <->
  1 <= len name <= 128 /\ exists cs, Forall printable cs /\ name = concat (map utf8_encode cs).
Proof.
  unfold valid_network_name, max_network_name_size. split.
  - destruct (_ || _) eqn:G; [done|]. bool_prop. intros Hv.
    destruct (name_loop_sound name (S (length name)) 0 ltac:(lia) ltac:(lia)) as (b & E & R).
    rewrite E in Hv. subst b. destruct (R eq_refl) as (cs & P & D). rewrite drop_0 in D. split; [|by exists cs].
    destruct name; [done|]. rewrite len_cons in *. pose proof (len_nonneg name). lia.
  - intros (L & cs & P & E). guard_false by (apply orb_false_iff; split;
      [apply bool_decide_eq_false; intros ->; unfold len in L; cbn in L; lia|lia]).
    rewrite (name_loop_complete name cs); [done|done|by rewrite drop_0|lia|lia].
Qed.
