(* ===== verification/NetworkMessages.v ===== *)
(** The control messages about networks
    (include/lanlink/protocol/network_messages.hpp, src/protocol/network_messages.cpp). *)
From S2P Require Import PacketMessages.
From S2P Require Import Prelude Wire NetworkName NetworkPolicy.

Definition network_id_size : nat := 16.
Definition network_device_id_size : nat := 32.
Definition public_key_size : nat := 32.
Definition encryption_public_key_size : nat := 32.
Definition nonce_size : nat := 32.
Definition signature_size : nat := 64.
Definition network_key_nonce_size : nat := 12.
Definition network_key_size : nat := 32.
Definition network_key_tag_size : nat := 16.
Definition max_network_list_entries : Z := 1024.
Definition max_network_peer_entries : Z := 253.
Definition network_selection_size : nat := network_id_size.
Definition network_member_size : nat := network_id_size + network_device_id_size.
Definition network_operation_result_size : nat := 1 + 2 + network_id_size.
Definition network_event_size : nat := 1 + network_id_size + network_device_id_size.
Definition peer_pool_first : Z := 0x0a400000.
Definition peer_pool_end : Z := 0x0a800000.
Definition peer_subnet_size : Z := 256.
Definition key_envelope_size : nat :=
  network_id_size + 8 + 2 * network_device_id_size + 2 * encryption_public_key_size +
  network_key_nonce_size + network_key_size + network_key_tag_size + signature_size.

(** ** Enumerations *)

Inductive NetworkRole := role_member | role_owner | unassigned_network_role (raw : Z).
Inductive NetworkOperation :=
| op_create | op_list | op_join | op_leave | op_invite | op_approve | op_kick | op_peer_state | op_key_publish
| unassigned_operation (raw : Z).
Inductive NetworkResultCode :=
| success | pending_approval | invalid_request | not_found | already_exists | not_member
| permission_denied | invite_required | target_not_found | limit_reached | conflict | internal_error
| unassigned_code (raw : Z).
Inductive NetworkEventKind :=
| invited | join_requested | member_joined | member_left | member_kicked | unassigned_kind (raw : Z).

#[global] Instance NetworkRole_eq_dec : EqDecision NetworkRole.
Proof. solve_decision. Defined.
#[global] Instance NetworkOperation_eq_dec : EqDecision NetworkOperation.
Proof. solve_decision. Defined.
#[global] Instance NetworkResultCode_eq_dec : EqDecision NetworkResultCode.
Proof. solve_decision. Defined.
#[global] Instance NetworkEventKind_eq_dec : EqDecision NetworkEventKind.
Proof. solve_decision. Defined.

Definition network_role_value (r : NetworkRole) : Z :=
  match r with role_member => 0 | role_owner => 1 | unassigned_network_role raw => raw end.
Definition network_role_cast (raw : Z) : NetworkRole :=
  match raw with 0 => role_member | 1 => role_owner | _ => unassigned_network_role raw end.

Definition operation_value (o : NetworkOperation) : Z :=
  match o with
  | op_create => 1 | op_list => 2 | op_join => 3 | op_leave => 4 | op_invite => 5 | op_approve => 6
  | op_kick => 7 | op_peer_state => 8 | op_key_publish => 9 | unassigned_operation raw => raw
  end.
Definition operation_cast (raw : Z) : NetworkOperation :=
  match raw with
  | 1 => op_create | 2 => op_list | 3 => op_join | 4 => op_leave | 5 => op_invite | 6 => op_approve
  | 7 => op_kick | 8 => op_peer_state | 9 => op_key_publish | _ => unassigned_operation raw
  end.

Definition code_value (c : NetworkResultCode) : Z :=
  match c with
  | success => 0 | pending_approval => 1 | invalid_request => 2 | not_found => 3 | already_exists => 4
  | not_member => 5 | permission_denied => 6 | invite_required => 7 | target_not_found => 8
  | limit_reached => 9 | conflict => 10 | internal_error => 11 | unassigned_code raw => raw
  end.
Definition code_cast (raw : Z) : NetworkResultCode :=
  match raw with
  | 0 => success | 1 => pending_approval | 2 => invalid_request | 3 => not_found | 4 => already_exists
  | 5 => not_member | 6 => permission_denied | 7 => invite_required | 8 => target_not_found
  | 9 => limit_reached | 10 => conflict | 11 => internal_error | _ => unassigned_code raw
  end.

Definition kind_value (k : NetworkEventKind) : Z :=
  match k with
  | invited => 1 | join_requested => 2 | member_joined => 3 | member_left => 4 | member_kicked => 5
  | unassigned_kind raw => raw
  end.
Definition kind_cast (raw : Z) : NetworkEventKind :=
  match raw with
  | 1 => invited | 2 => join_requested | 3 => member_joined | 4 => member_left | 5 => member_kicked
  | _ => unassigned_kind raw
  end.

Definition is_known_network_operation (o : NetworkOperation) : bool :=
  match o with unassigned_operation _ => false | _ => true end.
Definition is_known_network_result_code (c : NetworkResultCode) : bool :=
  match c with unassigned_code _ => false | _ => true end.
Definition is_known_network_event_kind (k : NetworkEventKind) : bool :=
  match k with unassigned_kind _ => false | _ => true end.

Definition network_operation_name (o : NetworkOperation) : string :=
  match o with
  | op_create => "create" | op_list => "list" | op_join => "join" | op_leave => "leave"
  | op_invite => "invite" | op_approve => "approve" | op_kick => "kick" | op_peer_state => "peer_state"
  | op_key_publish => "key_publish" | unassigned_operation _ => "unknown"
  end.
Definition network_result_code_name (c : NetworkResultCode) : string :=
  match c with
  | success => "success" | pending_approval => "pending_approval" | invalid_request => "invalid_request"
  | not_found => "not_found" | already_exists => "already_exists" | not_member => "not_member"
  | permission_denied => "permission_denied" | invite_required => "invite_required"
  | target_not_found => "target_not_found" | limit_reached => "limit_reached" | conflict => "conflict"
  | internal_error => "internal_error" | unassigned_code _ => "unknown"
  end.
Definition network_event_kind_name (k : NetworkEventKind) : string :=
  match k with
  | invited => "invited" | join_requested => "join_requested" | member_joined => "member_joined"
  | member_left => "member_left" | member_kicked => "member_kicked" | unassigned_kind _ => "unknown"
  end.

(** ** Messages *)

Record NetworkCreateRequest := mk_create { create_name : bytes }.
Record NetworkSelectionRequest := mk_network_selection { selection_id : bytes }.
Record NetworkMemberRequest := mk_member_request { member_network_id : bytes; member_device_id : bytes }.
Record NetworkOperationResult := mk_operation_result {
  operation : NetworkOperation; code : NetworkResultCode; result_network_id : bytes }.
Record NetworkSummary := mk_summary {
  summary_id : bytes; owner_device_id : bytes; summary_role : NetworkRole;
  created_at_ms : Z; member_count : Z; summary_name : bytes }.
Record NetworkListResult := mk_list_result { networks : list NetworkSummary }.
Record NetworkEvent := mk_event { kind : NetworkEventKind; event_network_id : bytes; event_device_id : bytes }.

Record SignedDeviceKey := mk_signed_key {
  identity_public_key : bytes; encryption_public_key : bytes; client_nonce : bytes;
  server_nonce : bytes; key_signature : bytes }.
Record NetworkPeer := mk_peer { peer_device_id : bytes; ipv4_address : Z; signed_key : option SignedDeviceKey }.
Record NetworkPeerState := mk_peer_state {
  state_network_id : bytes; state_revision : Z; subnet_address : Z; prefix_length : Z;
  own_address : Z; peers : list NetworkPeer; state_owner : bytes; state_key_epoch : Z;
  policy : option NetworkPolicy }.
#[global] Instance SignedDeviceKey_eq_dec : EqDecision SignedDeviceKey.
Proof. solve_decision. Defined.
#[global] Instance NetworkPeer_eq_dec : EqDecision NetworkPeer.
Proof. solve_decision. Defined.
#[global] Instance NetworkPeerState_eq_dec : EqDecision NetworkPeerState.
Proof. solve_decision. Defined.
Record NetworkPeerRevocation := mk_revocation { revoked_network_id : bytes; revocation_revision : Z }.
Record NetworkKeyEnvelope := mk_envelope {
  env_network_id : bytes; env_epoch : Z; env_owner : bytes; env_recipient : bytes;
  env_owner_key : bytes; env_recipient_key : bytes; env_nonce : bytes; env_ciphertext : bytes;
  env_tag : bytes; env_signature : bytes }.
Record NetworkKeyPublishRequest := mk_publish { envelopes : list NetworkKeyEnvelope }.

(** ** Requests *)

Definition encode_network_create_request (r : NetworkCreateRequest) : result bytes :=
  check! valid_network_name (create_name r) else invalid_argument in
  Ok (put_be 2 (len (create_name r)) ++ create_name r).

Definition decode_network_create_request (payload : bytes) : result NetworkCreateRequest :=
  let reader := Reader.init payload in
  let* (name_size, reader) := Reader.read_integer 2 reader in
  let* (name, reader) := Reader.read_string name_size reader in
  let* _ := Reader.require_finished reader in
  check! valid_network_name name else runtime_error in
  Ok (mk_create name).

Definition encode_network_list_request : result bytes := Ok [].

Definition decode_network_list_request (payload : bytes) : result unit :=
  check! bool_decide (payload = []) else runtime_error in
  Ok tt.

Definition encode_network_selection_request (r : NetworkSelectionRequest) : result bytes :=
  check! negb (is_zero (selection_id r)) else invalid_argument in
  Ok (selection_id r).

Definition decode_network_selection_request (payload : bytes) : result NetworkSelectionRequest :=
  check! len payload =? Z.of_nat network_selection_size else runtime_error in
  let reader := Reader.init payload in
  let* (id, reader) := Reader.read_array network_id_size reader in
  let* _ := Reader.require_finished reader in
  check! negb (is_zero id) else runtime_error in
  Ok (mk_network_selection id).

Definition encode_network_member_request (r : NetworkMemberRequest) : result bytes :=
  check! negb (is_zero (member_network_id r)) else invalid_argument in
  check! negb (is_zero (member_device_id r)) else invalid_argument in
  Ok (member_network_id r ++ member_device_id r).

Definition decode_network_member_request (payload : bytes) : result NetworkMemberRequest :=
  check! len payload =? Z.of_nat network_member_size else runtime_error in
  let reader := Reader.init payload in
  let* (network, reader) := Reader.read_array network_id_size reader in
  let* (device, reader) := Reader.read_array network_device_id_size reader in
  let* _ := Reader.require_finished reader in
  check! negb (is_zero network) else runtime_error in
  check! negb (is_zero device) else runtime_error in
  Ok (mk_member_request network device).

(** ** Results *)

(** The checks of [validate_result_for_encode] and [validate_result_for_decode],
    which differ only in the exception [e]. *)
Definition validate_result (e : exn) (r : NetworkOperationResult) : result unit :=
  check! is_known_network_operation (operation r) else e in
  check! is_known_network_result_code (code r) else e in
  check! negb (bool_decide (code r = pending_approval) && negb (bool_decide (operation r = op_join))) else e in
  let zero_id := is_zero (result_network_id r) in
  if bool_decide (operation r = op_list) then check! zero_id else e in Ok tt
  else if bool_decide (operation r = op_create) && negb (bool_decide (code r = success))
  then check! zero_id else e in Ok tt
  else check! negb zero_id else e in Ok tt.

Definition validate_result_for_encode := validate_result invalid_argument.
Definition validate_result_for_decode := validate_result runtime_error.

Definition encode_network_operation_result (r : NetworkOperationResult) : result bytes :=
  let* _ := validate_result_for_encode r in
  Ok (put_be 1 (operation_value (operation r)) ++ put_be 2 (code_value (code r)) ++ result_network_id r).

Definition decode_network_operation_result (payload : bytes) : result NetworkOperationResult :=
  check! len payload =? Z.of_nat network_operation_result_size else runtime_error in
  let reader := Reader.init payload in
  let* (o, reader) := Reader.read_integer 1 reader in
  let* (c, reader) := Reader.read_integer 2 reader in
  let* (id, reader) := Reader.read_array network_id_size reader in
  let* _ := Reader.require_finished reader in
  let r := mk_operation_result (operation_cast o) (code_cast c) id in
  let* _ := validate_result_for_decode r in
  Ok r.

Definition validate_summary (e : exn) (s : NetworkSummary) : result unit :=
  check! negb (is_zero (summary_id s)) else e in
  check! negb (is_zero (owner_device_id s)) else e in
  check! bool_decide (summary_role s = role_member) || bool_decide (summary_role s = role_owner) else e in
  check! negb (created_at_ms s <? 0) else e in
  check! negb (member_count s =? 0) else e in
  check! valid_network_name (summary_name s) else e in
  Ok tt.

Definition validate_summary_for_encode := validate_summary invalid_argument.
Definition validate_summary_for_decode := validate_summary runtime_error.

Definition contains_network_id (l : list NetworkSummary) (id : bytes) : bool :=
  existsb (fun s => bool_decide (summary_id s = id)) l.

(** [created_at_ms] is an [int64_t]; the cast to [uint64_t] is the identity on what passes the check. *)
Definition append_summary (s : NetworkSummary) : result bytes :=
  let* _ := validate_summary_for_encode s in
  Ok (summary_id s ++ owner_device_id s ++ put_be 1 (network_role_value (summary_role s)) ++
      put_be 8 (created_at_ms s) ++ put_be 4 (member_count s) ++ put_be 2 (len (summary_name s)) ++
      summary_name s).

Definition read_summary (reader : Reader.t) : result (NetworkSummary * Reader.t) :=
  let* (id, reader) := Reader.read_array network_id_size reader in
  let* (owner, reader) := Reader.read_array network_device_id_size reader in
  let* (role, reader) := Reader.read_integer 1 reader in
  let* (timestamp, reader) := Reader.read_integer 8 reader in
  check! negb (timestamp >? 2 ^ 63 - 1) else runtime_error in
  let* (count, reader) := Reader.read_integer 4 reader in
  let* (name_size, reader) := Reader.read_integer 2 reader in
  let* (name, reader) := Reader.read_string name_size reader in
  let s := mk_summary id owner (network_role_cast role) timestamp count name in
  let* _ := validate_summary_for_decode s in
  Ok (s, reader).

Fixpoint append_summaries (validated l : list NetworkSummary) : result bytes :=
  match l with
  | [] => Ok []
  | s :: l =>
      check! negb (contains_network_id validated (summary_id s)) else invalid_argument in
      let* b := append_summary s in
      let* rest := append_summaries (validated ++ [s]) l in
      Ok (b ++ rest)
  end.

Definition encode_network_list_result (r : NetworkListResult) : result bytes :=
  check! negb (len (networks r) >? max_network_list_entries) else length_error in
  let* entries := append_summaries [] (networks r) in
  Ok (put_be 2 (len (networks r)) ++ entries).

Fixpoint read_summaries (n : nat) (seen : list NetworkSummary) (reader : Reader.t)
    : result (list NetworkSummary * Reader.t) :=
  match n with
  | O => Ok (seen, reader)
  | S n =>
      let* (s, reader) := read_summary reader in
      check! negb (contains_network_id seen (summary_id s)) else runtime_error in
      read_summaries n (seen ++ [s]) reader
  end.

Definition decode_network_list_result (payload : bytes) : result NetworkListResult :=
  let reader := Reader.init payload in
  let* (count, reader) := Reader.read_integer 2 reader in
  check! negb (count >? max_network_list_entries) else runtime_error in
  let* (l, reader) := read_summaries (Z.to_nat count) [] reader in
  let* _ := Reader.require_finished reader in
  Ok (mk_list_result l).

Definition encode_network_event (e : NetworkEvent) : result bytes :=
  check! is_known_network_event_kind (kind e) else invalid_argument in
  check! negb (is_zero (event_network_id e)) else invalid_argument in
  check! negb (is_zero (event_device_id e)) else invalid_argument in
  Ok (put_be 1 (kind_value (kind e)) ++ event_network_id e ++ event_device_id e).

Definition decode_network_event (payload : bytes) : result NetworkEvent :=
  check! len payload =? Z.of_nat network_event_size else runtime_error in
  let reader := Reader.init payload in
  let* (k, reader) := Reader.read_integer 1 reader in
  let* (network, reader) := Reader.read_array network_id_size reader in
  let* (device, reader) := Reader.read_array network_device_id_size reader in
  let* _ := Reader.require_finished reader in
  check! is_known_network_event_kind (kind_cast k) else runtime_error in
  check! negb (is_zero network) else runtime_error in
  check! negb (is_zero device) else runtime_error in
  Ok (mk_event (kind_cast k) network device).

Definition encode_network_peer_revocation (r : NetworkPeerRevocation) : result bytes :=
  check! negb (is_zero (revoked_network_id r)) else invalid_argument in
  Ok (revoked_network_id r ++ put_be 8 (revocation_revision r)).

Definition decode_network_peer_revocation (payload : bytes) : result NetworkPeerRevocation :=
  let reader := Reader.init payload in
  let* (id, reader) := Reader.read_array network_id_size reader in
  let* (rev, reader) := Reader.read_integer 8 reader in
  let* _ := Reader.require_finished reader in
  check! negb (is_zero id) else runtime_error in
  Ok (mk_revocation id rev).

(** ** Peer state *)

(** The loop over the peers with the two sets it fills. *)
Fixpoint valid_peers (subnet : Z) (device_ids : gset bytes) (addresses : gset Z) (l : list NetworkPeer) : bool :=
  match l with
  | [] => true
  | p :: l =>
      if is_zero (peer_device_id p) || (ipv4_address p <=? subnet) ||
         (ipv4_address p >=? subnet + peer_subnet_size - 1) ||
         bool_decide (peer_device_id p ∈ device_ids) || bool_decide (ipv4_address p ∈ addresses)
      then false
      else valid_peers subnet ({[peer_device_id p]} ∪ device_ids) ({[ipv4_address p]} ∪ addresses) l
  end.

Definition valid_peer_state (s : NetworkPeerState) : bool :=
  if is_zero (state_network_id s) || negb (prefix_length s =? 24) ||
     negb (Bool.eqb (is_zero (state_owner s)) (state_key_epoch s =? 0)) ||
     (subnet_address s <? peer_pool_first) || (subnet_address s >=? peer_pool_end) ||
     negb (subnet_address s mod peer_subnet_size =? 0) ||
     (own_address s <=? subnet_address s) ||
     (own_address s >=? subnet_address s + peer_subnet_size - 1) ||
     (len (peers s) >? max_network_peer_entries)
  then false
  else valid_peers (subnet_address s) ∅ {[own_address s]} (peers s).

Definition append_peer (p : NetworkPeer) : bytes :=
  peer_device_id p ++ put_be 4 (ipv4_address p) ++
  match signed_key p with
  | None => put_be 1 0
  | Some k => put_be 1 1 ++ identity_public_key k ++ encryption_public_key k ++ client_nonce k ++
              server_nonce k ++ key_signature k
  end.

Definition encode_network_peer_state (s : NetworkPeerState) : result bytes :=
  check! valid_peer_state s else invalid_argument in
  let* extension := match policy s with
                    | None => Ok []
                    | Some p => encode_network_policy p
                    end in
  Ok (state_network_id s ++ put_be 8 (state_revision s) ++ put_be 4 (subnet_address s) ++
      put_be 1 (prefix_length s) ++ put_be 4 (own_address s) ++ put_be 2 (len (peers s)) ++
      concat (map append_peer (peers s)) ++ state_owner s ++ put_be 8 (state_key_epoch s) ++ extension).

Definition read_peer (reader : Reader.t) : result (NetworkPeer * Reader.t) :=
  let* (device, reader) := Reader.read_array network_device_id_size reader in
  let* (address, reader) := Reader.read_integer 4 reader in
  let* (has_key, reader) := Reader.read_integer 1 reader in
  check! negb (has_key >? 1) else runtime_error in
  if has_key =? 1 then
    let* (identity, reader) := Reader.read_array public_key_size reader in
    let* (encryption, reader) := Reader.read_array encryption_public_key_size reader in
    let* (client, reader) := Reader.read_array nonce_size reader in
    let* (server, reader) := Reader.read_array nonce_size reader in
    let* (signature, reader) := Reader.read_array signature_size reader in
    Ok (mk_peer device address (Some (mk_signed_key identity encryption client server signature)), reader)
  else Ok (mk_peer device address None, reader).

Fixpoint read_peers (n : nat) (reader : Reader.t) : result (list NetworkPeer * Reader.t) :=
  match n with
  | O => Ok ([], reader)
  | S n =>
      let* (p, reader) := read_peer reader in
      let* (l, reader) := read_peers n reader in
      Ok (p :: l, reader)
  end.

Definition decode_network_peer_state (payload : bytes) : result NetworkPeerState :=
  let reader := Reader.init payload in
  let* (id, reader) := Reader.read_array network_id_size reader in
  let* (rev, reader) := Reader.read_integer 8 reader in
  let* (subnet, reader) := Reader.read_integer 4 reader in
  let* (prefix, reader) := Reader.read_integer 1 reader in
  let* (own, reader) := Reader.read_integer 4 reader in
  let* (count, reader) := Reader.read_integer 2 reader in
  check! negb (count >? max_network_peer_entries) else runtime_error in
  let* (l, reader) := read_peers (Z.to_nat count) reader in
  let* (owner, reader) := Reader.read_array network_device_id_size reader in
  let* (epoch, reader) := Reader.read_integer 8 reader in
  let* pol := (if negb (bool_decide (Reader.remaining reader = []))
               then let* p := decode_network_policy (Reader.remaining reader) in Ok (Some p)
               else let* _ := Reader.require_finished reader in Ok None) in
  let s := mk_peer_state id rev subnet prefix own l owner epoch pol in
  check! valid_peer_state s else runtime_error in
  Ok s.

(** ** Key distribution *)

Definition encode_network_key_envelope (e : NetworkKeyEnvelope) : result bytes :=
  check! negb (is_zero (env_network_id e) || (env_epoch e =? 0) || is_zero (env_owner e) ||
               is_zero (env_recipient e) || bool_decide (env_owner e = env_recipient e) ||
               is_zero (env_owner_key e) || is_zero (env_recipient_key e)) else invalid_argument in
  Ok (env_network_id e ++ put_be 8 (env_epoch e) ++ env_owner e ++ env_recipient e ++ env_owner_key e ++
      env_recipient_key e ++ env_nonce e ++ env_ciphertext e ++ env_tag e ++ env_signature e).

Definition decode_network_key_envelope (payload : bytes) : result NetworkKeyEnvelope :=
  check! len payload =? Z.of_nat key_envelope_size else runtime_error in
  let reader := Reader.init payload in
  let* (id, reader) := Reader.read_array network_id_size reader in
  let* (epoch, reader) := Reader.read_integer 8 reader in
  let* (owner, reader) := Reader.read_array network_device_id_size reader in
  let* (recipient, reader) := Reader.read_array network_device_id_size reader in
  let* (okey, reader) := Reader.read_array encryption_public_key_size reader in
  let* (rkey, reader) := Reader.read_array encryption_public_key_size reader in
  let* (nonce, reader) := Reader.read_array network_key_nonce_size reader in
  let* (ciphertext, reader) := Reader.read_array network_key_size reader in
  let* (tag, reader) := Reader.read_array network_key_tag_size reader in
  let* (signature, reader) := Reader.read_array signature_size reader in
  let* _ := Reader.require_finished reader in
  let e := mk_envelope id epoch owner recipient okey rkey nonce ciphertext tag signature in
  match encode_network_key_envelope e with
  | Throw invalid_argument => Throw runtime_error
  | Throw x => Throw x
  | Ok _ => Ok e
  end.

Fixpoint encode_envelopes (l : list NetworkKeyEnvelope) : result bytes :=
  match l with
  | [] => Ok []
  | e :: l =>
      let* wire := encode_network_key_envelope e in
      let* rest := encode_envelopes l in
      Ok (wire ++ rest)
  end.

Definition encode_network_key_publish_request (r : NetworkKeyPublishRequest) : result bytes :=
  check! negb (bool_decide (envelopes r = []) || (len (envelopes r) >? max_network_peer_entries))
    else invalid_argument in
  let* wire := encode_envelopes (envelopes r) in
  Ok (put_be 2 (len (envelopes r)) ++ wire).

(** [decode_network_key_envelope(payload.subspan(2 + index * size, size))] for each index. *)
Fixpoint decode_envelopes (payload : bytes) (indices : list nat) : result (list NetworkKeyEnvelope) :=
  match indices with
  | [] => Ok []
  | index :: indices =>
      let* e := decode_network_key_envelope (slice (2 + index * key_envelope_size) key_envelope_size payload) in
      let* l := decode_envelopes payload indices in
      Ok (e :: l)
  end.

Definition decode_network_key_publish_request (payload : bytes) : result NetworkKeyPublishRequest :=
  check! negb (len payload <? 2) else runtime_error in
  let* (count, _) := Reader.read_integer 2 (Reader.init (take 2 payload)) in
  check! negb ((count =? 0) || (count >? max_network_peer_entries) ||
               negb (len payload =? 2 + count * Z.of_nat key_envelope_size)) else runtime_error in
  let* l := decode_envelopes payload (seq 0 (Z.to_nat count)) in
  Ok (mk_publish l).

(** ** Field types *)

Definition wf_network_selection (r : NetworkSelectionRequest) : Prop := length (selection_id r) = network_id_size.
Definition wf_member_request (r : NetworkMemberRequest) : Prop :=
  length (member_network_id r) = network_id_size /\ length (member_device_id r) = network_device_id_size.
Definition wf_operation_result (r : NetworkOperationResult) : Prop :=
  length (result_network_id r) = network_id_size.
Definition wf_summary (s : NetworkSummary) : Prop :=
  length (summary_id s) = network_id_size /\ length (owner_device_id s) = network_device_id_size /\
  - 2 ^ 63 <= created_at_ms s < 2 ^ 63 /\ word 4 (member_count s).
Definition wf_event (e : NetworkEvent) : Prop :=
  length (event_network_id e) = network_id_size /\ length (event_device_id e) = network_device_id_size.
Definition wf_revocation (r : NetworkPeerRevocation) : Prop :=
  length (revoked_network_id r) = network_id_size /\ word 8 (revocation_revision r).
Definition wf_signed_key (k : SignedDeviceKey) : Prop :=
  length (identity_public_key k) = public_key_size /\
  length (encryption_public_key k) = encryption_public_key_size /\
  length (client_nonce k) = nonce_size /\ length (server_nonce k) = nonce_size /\
  length (key_signature k) = signature_size.
Definition wf_peer (p : NetworkPeer) : Prop :=
  length (peer_device_id p) = network_device_id_size /\ word 4 (ipv4_address p) /\
  match signed_key p with None => True | Some k => wf_signed_key k end.
Definition wf_peer_state (s : NetworkPeerState) : Prop :=
  length (state_network_id s) = network_id_size /\ word 8 (state_revision s) /\ word 4 (subnet_address s) /\
  word 1 (prefix_length s) /\ word 4 (own_address s) /\ Forall wf_peer (peers s) /\
  length (state_owner s) = network_device_id_size /\ word 8 (state_key_epoch s) /\
  match policy s with None => True | Some p => wf_policy p end.
Definition wf_envelope (e : NetworkKeyEnvelope) : Prop :=
  length (env_network_id e) = network_id_size /\ word 8 (env_epoch e) /\
  length (env_owner e) = network_device_id_size /\ length (env_recipient e) = network_device_id_size /\
  length (env_owner_key e) = encryption_public_key_size /\
  length (env_recipient_key e) = encryption_public_key_size /\
  length (env_nonce e) = network_key_nonce_size /\ length (env_ciphertext e) = network_key_size /\
  length (env_tag e) = network_key_tag_size /\ length (env_signature e) = signature_size.

(** ** Lemmas *)

Lemma valid_name_len name : valid_network_name name = true -> 1 <= len name <= 128.
Proof.
  unfold valid_network_name, max_network_name_size. destruct (_ || _) eqn:G; [done|]. bool_prop. intros _.
  destruct name; [done|]. rewrite len_cons in *. pose proof (len_nonneg name). lia.
Qed.

Lemma operation_value_cast raw : operation_value (operation_cast raw) = raw.
Proof. destruct raw as [|p|p]; try done. do 4 (try (destruct p as [p|p|]; try done)). Qed.
Lemma operation_cast_value o : is_known_network_operation o = true -> operation_cast (operation_value o) = o /\ word 1 (operation_value o).
Proof. by destruct o. Qed.
Lemma code_value_cast raw : code_value (code_cast raw) = raw.
Proof. destruct raw as [|p|p]; try done. do 4 (try (destruct p as [p|p|]; try done)). Qed.
Lemma code_cast_value c : is_known_network_result_code c = true -> code_cast (code_value c) = c /\ word 2 (code_value c).
Proof. by destruct c. Qed.
Lemma kind_value_cast raw : kind_value (kind_cast raw) = raw.
Proof. destruct raw as [|p|p]; try done. do 3 (try (destruct p as [p|p|]; try done)). Qed.
Lemma kind_cast_value k : is_known_network_event_kind k = true -> kind_cast (kind_value k) = k /\ word 1 (kind_value k).
Proof. by destruct k. Qed.
Lemma network_role_value_cast raw : network_role_value (network_role_cast raw) = raw.
Proof. destruct raw as [|p|p]; try done. by destruct p. Qed.

Lemma validate_result_iff e e' r : validate_result e r = Ok tt <-> validate_result e' r = Ok tt.
Proof.
  unfold validate_result. cbv zeta. repeat match goal with |- context [if ?b then _ else _] => destruct b end; done.
Qed.

Lemma validate_summary_iff e e' s : validate_summary e s = Ok tt <-> validate_summary e' s = Ok tt.
Proof.
  unfold validate_summary. repeat match goal with |- context [if ?b then _ else _] => destruct b end; done.
Qed.

Ltac reader_start payload := pose proof (Reader.reads_init payload).

(** The four request codecs (create, list, select, name a member) are exact:
    each decoder accepts exactly what its encoder produces for a well-typed request. *)
Lemma network_requests_exact :
  (forall bs r, decode_network_create_request bs = Ok r <-> encode_network_create_request r = Ok bs) /\
  (forall bs, decode_network_list_request bs = Ok tt <-> encode_network_list_request = Ok bs) /\
  (forall bs r, decode_network_selection_request bs = Ok r <->
     wf_network_selection r /\ encode_network_selection_request r = Ok bs) /\
  (forall bs r, decode_network_member_request bs = Ok r <->
     wf_member_request r /\ encode_network_member_request r = Ok bs).
Proof.
  split; [|split; [|split]].
  - intros bs r. unfold decode_network_create_request, encode_network_create_request. split.
    + intros H. reader_start bs. ok_inv H. repeat rd_inv_step. subst r. cbn [create_name].
      rewrite G. subst. by rewrite app_nil_r.
    + intros H. ok_inv H. apply valid_name_len in G as L. subst bs. rewrite <- (app_nil_r (create_name r)) at 2.
      match goal with |- context [Reader.init ?p] => reader_start p end.
      repeat rd_step. rewrite G. by destruct r.
  - intros bs. unfold decode_network_list_request, encode_network_list_request. split.
    + intros H. ok_inv H. bool_prop. by subst.
    + intros H. by apply Ok_inj in H as <-.
  - intros bs r. unfold decode_network_selection_request, encode_network_selection_request, wf_network_selection. split.
    + intros H. reader_start bs. ok_inv H. repeat rd_inv_step. subst r. cbn [selection_id]. rewrite G0. by rewrite app_nil_r.
    + intros [L H]. ok_inv H. subst bs. guard_true by (apply Z.eqb_eq; unfold len; by rewrite L).
      rewrite <- (app_nil_r (selection_id r)).
      match goal with |- context [Reader.init ?p] => reader_start p end.
      repeat rd_step. rewrite G. by destruct r.
  - intros bs r. unfold decode_network_member_request, encode_network_member_request, wf_member_request. split.
    + intros H. reader_start bs. ok_inv H. repeat rd_inv_step. subst r. cbn [member_network_id member_device_id].
      rewrite G0, G1. by rewrite app_nil_r.
    + intros [[L1 L2] H]. ok_inv H. subst bs.
      guard_true by (apply Z.eqb_eq; rewrite len_app; unfold len; by rewrite L1, L2).
      rewrite <- (app_nil_r (member_device_id r)).
      match goal with |- context [Reader.init ?p] => reader_start p end.
      repeat rd_step. rewrite G, G0. by destruct r.
Qed.

(** ** Lists of summaries *)

Definition summary_bytes (s : NetworkSummary) : bytes :=
  summary_id s ++ owner_device_id s ++ put_be 1 (network_role_value (summary_role s)) ++
  put_be 8 (created_at_ms s) ++ put_be 4 (member_count s) ++ put_be 2 (len (summary_name s)) ++ summary_name s.

Lemma read_summary_app r s rest :
  Reader.reads r (summary_bytes s ++ rest) -> wf_summary s -> validate_summary_for_encode s = Ok tt ->
  exists r', read_summary r = Ok (s, r') /\ Reader.reads r' rest.
Proof.
  intros H (L1 & L2 & T & C) V. unfold read_summary. unfold summary_bytes in H. rewrite <- !app_assoc in H.
  pose proof V as V'. unfold validate_summary_for_encode, validate_summary in V'. ok_inv V'. bool_prop.
  match goal with H : valid_network_name _ = true |- _ => apply valid_name_len in H end.
  assert (Wr : word 1 (network_role_value (summary_role s)) /\
               network_role_cast (network_role_value (summary_role s)) = summary_role s).
  { match goal with H : _ || _ = true |- _ => apply orb_true_iff in H as [H|H]; bool_prop; rewrite H; done end. }
  destruct Wr as [Wr Er]. assert (Wt : word 8 (created_at_ms s)) by (words; lia).
  do 4 rd_step. guard_true by (apply negb_true_iff; rewrite Z.gtb_ltb; apply Z.ltb_ge; lia).
  do 3 rd_step. rewrite Er. destruct s as [i o rl t c n]. cbn in *.
  apply (validate_summary_iff _ runtime_error) in V. unfold validate_summary_for_decode. rewrite V. eauto.
Qed.

Lemma read_summary_inv r bs s r' :
  Reader.reads r bs -> read_summary r = Ok (s, r') ->
  exists rest, bs = summary_bytes s ++ rest /\ wf_summary s /\ validate_summary_for_encode s = Ok tt /\
    Reader.reads r' rest.
Proof.
  intros H E. unfold read_summary in E. ok_inv E. repeat rd_inv_step. simplify_eq. bool_prop.
  match goal with V : validate_summary_for_decode _ = Ok ?u |- _ => destruct u; apply (validate_summary_iff _ invalid_argument) in V end.
  eexists. split; [|split; [|split; [eassumption|eassumption]]].
  - unfold summary_bytes. cbn [summary_id owner_device_id summary_role created_at_ms member_count summary_name].
    rewrite network_role_value_cast, <- !app_assoc. repeat (f_equal; try done).
  - unfold wf_summary. cbn [summary_id owner_device_id created_at_ms member_count]. words. split_and!; (done || lia).
Qed.

Lemma append_summary_inv s bs :
  append_summary s = Ok bs -> bs = summary_bytes s /\ validate_summary_for_encode s = Ok tt.
Proof. unfold append_summary. intros H. ok_inv H. subst. by destruct a. Qed.

Lemma append_summary_ok s : validate_summary_for_encode s = Ok tt -> append_summary s = Ok (summary_bytes s).
Proof. unfold append_summary. intros ->. done. Qed.

Lemma summaries_app l : forall seen bs rest r,
  Reader.reads r (bs ++ rest) -> Forall wf_summary l -> append_summaries seen l = Ok bs ->
  exists r', read_summaries (length l) seen r = Ok (seen ++ l, r') /\ Reader.reads r' rest.
Proof.
  induction l as [|s l IH]; intros seen bs rest r H W E; cbn [append_summaries] in E; ok_inv E; cbn [length read_summaries].
  - subst. exists r. by rewrite app_nil_r.
  - subst bs. apply append_summary_inv in E0 as [-> V]. rewrite <- app_assoc in H.
    inversion W as [|? ? Ws Wl]; subst. destruct (read_summary_app _ _ _ H Ws V) as (r1 & -> & R1). rewrite G.
    destruct (IH _ _ _ _ R1 Wl E1) as (r2 & -> & R2). exists r2. by rewrite <- app_assoc.
Qed.

Lemma summaries_inv n : forall seen r bs l r',
  Reader.reads r bs -> read_summaries n seen r = Ok (l, r') ->
  exists l' b rest, l = seen ++ l' /\ length l' = n /\ bs = b ++ rest /\ Forall wf_summary l' /\
    append_summaries seen l' = Ok b /\ Reader.reads r' rest.
Proof.
  induction n as [|n IH]; intros seen r bs l r' H E; cbn [read_summaries] in E.
  - apply Ok_inj in E. simplify_eq. exists [], [], bs. rewrite app_nil_r. by split_and!.
  - ok_inv E. destruct (read_summary_inv _ _ _ _ H E0) as (rest & -> & W & V & R).
    destruct (IH _ _ _ _ _ R E) as (l' & b & rest' & -> & <- & -> & W' & A & R').
    eexists (_ :: l'), (summary_bytes _ ++ b), rest'. rewrite <- !app_assoc. split_and!; try done.
    + by constructor.
    + cbn [append_summaries]. rewrite G, append_summary_ok, A by done. done.
Qed.

(** The result codecs (operation result, network list, event, peer revocation)
    are exact in the same sense; duplicate networks, unknown codes and identifiers that
    do not fit the operation are refused on both sides. *)
Lemma network_results_exact :
  (forall bs r, decode_network_operation_result bs = Ok r <->
     wf_operation_result r /\ encode_network_operation_result r = Ok bs) /\
  (forall bs r, decode_network_list_result bs = Ok r <->
     Forall wf_summary (networks r) /\ encode_network_list_result r = Ok bs) /\
  (forall bs e, decode_network_event bs = Ok e <-> wf_event e /\ encode_network_event e = Ok bs) /\
  (forall bs r, decode_network_peer_revocation bs = Ok r <->
     wf_revocation r /\ encode_network_peer_revocation r = Ok bs).
Proof.
  split; [|split; [|split]].
  - intros bs r. unfold decode_network_operation_result, encode_network_operation_result, wf_operation_result. split.
    + intros H. reader_start bs. ok_inv H. repeat rd_inv_step. subst r. cbn [operation code result_network_id].
      rewrite operation_value_cast, code_value_cast. split; [done|].
      match goal with V : validate_result_for_decode _ = Ok ?u |- _ => destruct u; apply (validate_result_iff _ invalid_argument) in V;
        unfold validate_result_for_encode; rewrite V end. by rewrite app_nil_r.
    + intros [L H]. ok_inv H. subst bs. guard_true by (apply Z.eqb_eq; rewrite !len_app; unfold len; rewrite L, !length_put_be; done).
      rewrite <- (app_nil_r (result_network_id r)).
      match goal with |- context [Reader.init ?p] => reader_start p end.
      destruct a. pose proof E as V. unfold validate_result_for_encode, validate_result in V. ok_inv V.
      match goal with H : is_known_network_operation _ = true |- _ => apply operation_cast_value in H as [Eo Wo] end.
      match goal with H : is_known_network_result_code _ = true |- _ => apply code_cast_value in H as [Ec Wc] end.
      repeat rd_step. rewrite Eo, Ec. destruct r as [o c i]. cbn in *.
      apply (validate_result_iff _ runtime_error) in E. unfold validate_result_for_decode. by rewrite E.
  - intros bs r. unfold decode_network_list_result, encode_network_list_result. split.
    + intros H. reader_start bs. ok_inv H. rd_inv_step.
      match goal with R : Reader.reads ?r _, E : read_summaries _ _ ?r = Ok _ |- _ =>
        destruct (summaries_inv _ _ _ _ _ _ R E) as (l' & b & rest' & -> & Ln & -> & W & A & R'); clear E R end.
      rd_inv_step. subst r. cbn [networks app]. split; [done|]. words.
      replace (len l') with x by (unfold len; lia). rewrite G, A. by rewrite app_nil_r.
    + intros [W H]. ok_inv H. subst bs. rewrite <- (app_nil_r a).
      match goal with |- context [Reader.init ?p] => reader_start p end. bool_prop.
      assert (word 2 (len (networks r))) by (pose proof (len_nonneg (networks r)); unfold max_network_list_entries in *; words; lia).
      rd_step. guard_true by (apply negb_true_iff; rewrite Z.gtb_ltb; apply Z.ltb_ge; lia).
      unfold len at 1. rewrite Nat2Z.id.
      match goal with R : Reader.reads ?r _ |- _ => destruct (summaries_app _ _ _ _ _ R W E) as (r2 & -> & R2) end.
      rd_step. by destruct r.
  - intros bs e. unfold decode_network_event, encode_network_event, wf_event. split.
    + intros H. reader_start bs. ok_inv H. repeat rd_inv_step. subst e. cbn [kind event_network_id event_device_id].
      rewrite G0, G1, G2, kind_value_cast. by rewrite app_nil_r.
    + intros [[L1 L2] H]. ok_inv H. subst bs.
      guard_true by (apply Z.eqb_eq; rewrite !len_app; unfold len; rewrite L1, L2, length_put_be; done).
      rewrite <- (app_nil_r (event_device_id e)).
      match goal with |- context [Reader.init ?p] => reader_start p end.
      apply kind_cast_value in G as K. destruct K as [Ek Wk]. repeat rd_step. rewrite Ek, G, G0, G1. by destruct e.
  - intros bs r. unfold decode_network_peer_revocation, encode_network_peer_revocation, wf_revocation. split.
    + intros H. reader_start bs. ok_inv H. repeat rd_inv_step. subst r. cbn [revoked_network_id revocation_revision].
      rewrite G. by rewrite app_nil_r.
    + intros [[L1 W] H]. ok_inv H. subst bs. rewrite <- (app_nil_r (put_be 8 _)).
      match goal with |- context [Reader.init ?p] => reader_start p end.
      repeat rd_step. rewrite G. by destruct r.
Qed.

(** ** Peer state *)

Lemma read_peer_app r p rest :
  Reader.reads r (append_peer p ++ rest) -> wf_peer p ->
  exists r', read_peer r = Ok (p, r') /\ Reader.reads r' rest.
Proof.
  intros H (L & W & K). unfold read_peer. unfold append_peer in H. destruct p as [d a [k|]]; cbn in *.
  - destruct K as (K1 & K2 & K3 & K4 & K5). rewrite <- !app_assoc in H.
    do 3 rd_step. cbn [Z.gtb Z.compare Pos.compare Pos.compare_cont negb Z.eqb Pos.eqb].
    repeat rd_step. destruct k. cbn. eauto.
  - rewrite <- !app_assoc in H. do 3 rd_step. cbn. eauto.
Qed.

Lemma read_peer_inv r bs p r' :
  Reader.reads r bs -> read_peer r = Ok (p, r') ->
  exists rest, bs = append_peer p ++ rest /\ wf_peer p /\ Reader.reads r' rest.
Proof.
  intros H E. unfold read_peer in E.
  destruct (Reader.read_array _ r) as [[d r1]|] eqn:E1; [|done].
  destruct (Reader.read_integer 4 r1) as [[a r2]|] eqn:E2; [|done].
  destruct (Reader.read_integer 1 r2) as [[k r3]|] eqn:E3; [|done]. repeat rd_inv_step.
  destruct (negb _) eqn:G in E; [|done]. bool_prop. destruct (Z.eqb_spec k 1) as [->|N].
  - ok_inv E. repeat rd_inv_step. simplify_eq. eexists. split; [|split; [|eassumption]].
    + unfold append_peer. cbn. by rewrite <- !app_assoc.
    + by split_and!.
  - apply Ok_inj in E. simplify_eq. eexists. split; [|split; [|eassumption]]; [|done].
    unfold append_peer. cbn [peer_device_id ipv4_address signed_key].
    words. assert (k = 0) as -> by lia. by rewrite <- !app_assoc.
Qed.

Lemma read_peers_app l : forall rest r,
  Reader.reads r (concat (map append_peer l) ++ rest) -> Forall wf_peer l ->
  exists r', read_peers (length l) r = Ok (l, r') /\ Reader.reads r' rest.
Proof.
  induction l as [|p l IH]; intros rest r H W; cbn [length read_peers map concat] in *; [by exists r|].
  rewrite <- app_assoc in H. inversion W as [|? ? Wp Wl]; subst.
  destruct (read_peer_app _ _ _ H Wp) as (r1 & -> & R1). destruct (IH _ _ R1 Wl) as (r2 & -> & R2). eauto.
Qed.

Lemma read_peers_inv n : forall r bs l r',
  Reader.reads r bs -> read_peers n r = Ok (l, r') ->
  exists rest, bs = concat (map append_peer l) ++ rest /\ length l = n /\ Forall wf_peer l /\ Reader.reads r' rest.
Proof.
  induction n as [|n IH]; intros r bs l r' H E; cbn [read_peers] in E.
  - apply Ok_inj in E. simplify_eq. eauto.
  - ok_inv E. simplify_eq. destruct (read_peer_inv _ _ _ _ H E0) as (rest & -> & W & R).
    destruct (IH _ _ _ _ R E1) as (rest' & -> & <- & W' & R'). exists rest'. cbn [map concat].
    rewrite <- app_assoc. auto.
Qed.

Lemma policy_encoding_nonempty p bs : encode_network_policy p = Ok bs -> bs <> [].
Proof. intros H. apply encode_policy_bytes in H as [-> _]. done. Qed.

Lemma valid_peer_state_count s : valid_peer_state s = true -> len (peers s) <= 253.
Proof.
  unfold valid_peer_state. destruct (_ || _) eqn:G; [done|]. bool_prop. intros _.
  unfold max_network_peer_entries in *. lia.
Qed.

(** The peer-state codec is exact, with the optional policy extension at its
    end: a payload decodes to a state if and only if it is the encoding of that
    well-typed state, and the state then passes [valid_peer_state]. *)
Lemma network_peer_state_exact (bs : bytes) (s : NetworkPeerState) :
  decode_network_peer_state bs = Ok s <-> wf_peer_state s /\ encode_network_peer_state s = Ok bs.
Proof.
  unfold decode_network_peer_state, encode_network_peer_state. split.
  - intros H. reader_start bs. ok_inv H. do 6 rd_inv_step.
    match goal with R : Reader.reads ?r _, E : read_peers _ ?r = Ok _ |- _ =>
      destruct (read_peers_inv _ _ _ _ _ R E) as (rest' & -> & Ln & W & R'); clear E R end.
    do 2 rd_inv_step. words.
    match goal with R : Reader.reads ?r ?bs |- _ => rewrite (Reader.remaining_reads _ _ R) in * end.
    match goal with E : (if _ then _ else _) = Ok ?pol |- _ => rename E into Ep; rename pol into pol' end.
    match goal with G : valid_peer_state _ = true |- _ => rename G into V end. subst s.
    destruct (bool_decide _) eqn:Gr in Ep; cbn [negb] in Ep; ok_inv Ep; subst pol'.
    + bool_prop. split; [by split_and!|].
      cbn [policy state_network_id state_revision subnet_address prefix_length own_address peers state_owner state_key_epoch].
      rewrite V. f_equal. subst.
      match goal with |- context [put_be 2 (len ?l)] => match goal with L : length l = Z.to_nat ?x |- _ =>
        replace (len l) with x by (unfold len; lia) end end. by rewrite !app_nil_r.
    + match goal with D : decode_network_policy _ = Ok _ |- _ =>
        apply network_policy_codec in D as [Wp Ee] end.
      split; [by split_and!|].
      cbn [policy state_network_id state_revision subnet_address prefix_length own_address peers state_owner state_key_epoch].
      rewrite V, Ee. f_equal.
      match goal with |- context [put_be 2 (len ?l)] => match goal with L : length l = Z.to_nat ?x |- _ =>
        replace (len l) with x by (unfold len; lia) end end. done.
  - intros [(L1 & W1 & W2 & W3 & W4 & Wp & L2 & W5 & Wpol) H]. ok_inv H. subst bs.
    pose proof (valid_peer_state_count _ G) as C.
    match goal with |- context [Reader.init ?p] => reader_start p end.
    assert (word 2 (len (peers s))) by (pose proof (len_nonneg (peers s)); words; lia).
    do 6 rd_step. guard_true by (apply negb_true_iff; rewrite Z.gtb_ltb; apply Z.ltb_ge; unfold max_network_peer_entries; lia).
    unfold len at 1. rewrite Nat2Z.id.
    match goal with R : Reader.reads ?r _ |- _ => destruct (read_peers_app _ _ _ R Wp) as (rr & -> & RR); clear R end.
    do 2 rd_step. match goal with R : Reader.reads ?r ?bs |- _ => rewrite (Reader.remaining_reads _ _ R) end.
    destruct s as [id rev sub pre own l owner ep [pol|]]; cbn in *.
    + rewrite bool_decide_eq_false_2 by (by eapply policy_encoding_nonempty). cbn [negb].
      assert (D : decode_network_policy a = Ok pol) by (by apply network_policy_codec). rewrite D. by rewrite G.
    + apply Ok_inj in E as <-. cbn. rd_step. by rewrite G.
Qed.

(** ** Key distribution *)

Lemma envelope_length e bs :
  wf_envelope e -> encode_network_key_envelope e = Ok bs -> length bs = key_envelope_size.
Proof.
  intros (L1 & _ & L3 & L4 & L5 & L6 & L7 & L8 & L9 & L10) H. unfold encode_network_key_envelope in H. ok_inv H. subst bs.
  rewrite !length_app, length_put_be, L1, L3, L4, L5, L6, L7, L8, L9, L10. reflexivity.
Qed.

Lemma envelope_exact bs e :
  decode_network_key_envelope bs = Ok e <-> wf_envelope e /\ encode_network_key_envelope e = Ok bs.
Proof.
  split.
  - unfold decode_network_key_envelope. intros H. reader_start bs. ok_inv H. repeat rd_inv_step.
    match type of H with match encode_network_key_envelope ?x with _ => _ end = _ => set (q := x) in * end.
    destruct (encode_network_key_envelope q) as [w|[]] eqn:E; try discriminate H. apply Ok_inj in H as <-.
    split; [by split_and!|]. unfold encode_network_key_envelope in *. ok_inv E. subst w. rewrite G0. by rewrite app_nil_r.
  - intros [W H]. pose proof (envelope_length _ _ W H) as Ln. pose proof H as H0.
    destruct W as (L1 & W2 & L3 & L4 & L5 & L6 & L7 & L8 & L9 & L10).
    unfold encode_network_key_envelope in H0. ok_inv H0. unfold decode_network_key_envelope.
    guard_true by (apply Z.eqb_eq; unfold len; by rewrite Ln).
    rewrite <- (app_nil_r bs). rewrite <- H0 at 1. rewrite <- !app_assoc.
    match goal with |- context [Reader.init ?p] => reader_start p end.
    repeat rd_step. destruct e. cbn in *. rewrite H. done.
Qed.

Lemma encode_envelopes_length l : forall bs, Forall wf_envelope l -> encode_envelopes l = Ok bs ->
  length bs = (length l * key_envelope_size)%nat.
Proof.
  induction l as [|e l IH]; intros bs W H; cbn [encode_envelopes] in H; ok_inv H; [by subst|].
  inversion W; subst. rewrite length_app, (envelope_length _ _ ltac:(eassumption) E), (IH _ ltac:(done) E0). done.
Qed.

Lemma envelopes_app l : forall pre bs, Forall wf_envelope l -> encode_envelopes l = Ok bs ->
  forall off, length pre = (2 + off * key_envelope_size)%nat ->
  decode_envelopes (pre ++ bs) (seq off (length l)) = Ok l.
Proof.
  induction l as [|e l IH]; intros pre bs W H off Hp; [done|]. cbn [encode_envelopes] in H. ok_inv H. subst bs.
  inversion W as [|? ? We Wl]; subst. cbn [length seq decode_envelopes].
  pose proof (envelope_length _ _ We E) as Le.
  rewrite (slice_skip pre _ _ _ _ Hp) by lia. rewrite Nat.sub_diag, slice_here by done.
  rewrite (proj2 (envelope_exact _ _)) by done. rewrite app_assoc, IH; [done|done|done|].
  rewrite length_app, Hp, Le. lia.
Qed.

Lemma envelopes_inv payload n : forall off l,
  decode_envelopes payload (seq off n) = Ok l -> (2 + (off + n) * key_envelope_size <= length payload)%nat ->
  length l = n /\ Forall wf_envelope l /\
  encode_envelopes l = Ok (slice (2 + off * key_envelope_size) (n * key_envelope_size) payload).
Proof.
  induction n as [|n IH]; intros off l H L; cbn [seq decode_envelopes] in H; ok_inv H; subst l; [done|].
  apply envelope_exact in E as [We Ee]. apply IH in E0 as (<- & Wl & El); [|lia].
  split; [done|]. split; [by constructor|]. cbn [encode_envelopes]. rewrite Ee, El. f_equal.
  change (S (length a0) * key_envelope_size)%nat with (key_envelope_size + length a0 * key_envelope_size)%nat.
  rewrite slice_split. do 2 f_equal. lia.
Qed.

(** The key-distribution codecs are exact: an envelope and a publish request of
    1 to 253 envelopes decode exactly from their encodings. *)
Lemma network_keys_exact :
  (forall bs e, decode_network_key_envelope bs = Ok e <-> wf_envelope e /\ encode_network_key_envelope e = Ok bs) /\
  (forall bs r, decode_network_key_publish_request bs = Ok r <->
     Forall wf_envelope (envelopes r) /\ encode_network_key_publish_request r = Ok bs).
Proof.
  split; [apply envelope_exact|]. intros bs r.
  unfold decode_network_key_publish_request, encode_network_key_publish_request. split.
  - intros H. ok_inv H. bool_prop.
    destruct (Reader.read_integer_inv _ _ _ _ _ (Reader.reads_init _) E) as (rest & Tx & Wx & _). words.
    unfold len in *. assert (L : length bs = (2 + Z.to_nat x * key_envelope_size)%nat) by lia.
    destruct (envelopes_inv bs (Z.to_nat x) 0 a E0) as (Ll & W & El); [lia|]. subst r. cbn [envelopes].
    split; [done|]. guard_true by (apply negb_true_iff, orb_false_iff; split;
      [apply bool_decide_eq_false; intros ->; cbn in Ll; lia|lia]).
    rewrite El. replace (Z.of_nat (length a)) with x by lia. f_equal.
    assert (T : take 2 bs = put_be 2 x).
    { apply (f_equal length) in Tx as Lt. rewrite length_app, length_put_be, length_take in Lt.
      assert (rest = []) as -> by (apply length_zero_iff_nil; lia). by rewrite app_nil_r in Tx. }
    rewrite <- T. unfold slice. cbn [Nat.mul]. rewrite (take_ge (drop _ bs)) by (rewrite length_drop; lia).
    apply take_drop.
  - intros [W H]. ok_inv H. bool_prop. subst bs.
    pose proof (encode_envelopes_length _ _ W E) as Le. pose proof (len_nonneg (envelopes r)).
    assert (Wl : word 2 (len (envelopes r))) by (unfold max_network_peer_entries in *; words; lia).
    guard_true by (apply negb_true_iff, Z.ltb_ge; rewrite len_app; pose proof (len_nonneg a); unfold len; rewrite length_put_be; lia).
    rewrite take_app_len by done. rewrite <- (app_nil_r (put_be 2 _)) at 1.
    match goal with |- context [Reader.init ?p] => reader_start p end. rd_step.
    guard_true by (apply negb_true_iff; rewrite !orb_false_iff, negb_false_iff; rewrite len_app;
      destruct (envelopes r) as [|e0 l0] eqn:En; [done|]; rewrite <- En in *;
      assert (len (envelopes r) = 1 + len l0) by (by rewrite En, len_cons); pose proof (len_nonneg l0);
      unfold len in *; rewrite length_put_be; split; [split; lia|]; apply Z.eqb_eq; lia).
    unfold len at 2. rewrite Nat2Z.id. rewrite envelopes_app; [by destruct r|done|done|done].
Qed.

(** Every message codec between a device and the relay is exact.  A request (create, list,
    selection, member), a result (operation result, network list, event), a peer state with
    its optional policy, a peer revocation, a sealed key, a key publication, an encrypted packet and
    a forwarded packet decode from a payload if and only if the payload is the encoding of that
    well-typed value: nothing the encoders refuse is accepted and no value has two encodings.  Only
    packets that pass [valid_packet] (non-zero network, destination, epoch and sequence, nonce bound
    to the sequence, 20 to 65535 bytes of ciphertext) are ever decoded. *)
Lemma network_messages_exact (bs : bytes) :
  (forall r, decode_network_create_request bs = Ok r <-> encode_network_create_request r = Ok bs) /\
  (decode_network_list_request bs = Ok tt <-> encode_network_list_request = Ok bs) /\
  (forall r, decode_network_selection_request bs = Ok r <-> wf_network_selection r /\ encode_network_selection_request r = Ok bs) /\
  (forall r, decode_network_member_request bs = Ok r <-> wf_member_request r /\ encode_network_member_request r = Ok bs) /\
  (forall r, decode_network_operation_result bs = Ok r <-> wf_operation_result r /\ encode_network_operation_result r = Ok bs) /\
  (forall r, decode_network_list_result bs = Ok r <-> Forall wf_summary (networks r) /\ encode_network_list_result r = Ok bs) /\
  (forall e, decode_network_event bs = Ok e <-> wf_event e /\ encode_network_event e = Ok bs) /\
  (forall s, decode_network_peer_state bs = Ok s <-> wf_peer_state s /\ encode_network_peer_state s = Ok bs) /\
  (forall r, decode_network_peer_revocation bs = Ok r <-> wf_revocation r /\ encode_network_peer_revocation r = Ok bs) /\
  (forall e, decode_network_key_envelope bs = Ok e <-> wf_envelope e /\ encode_network_key_envelope e = Ok bs) /\
  (forall r, decode_network_key_publish_request bs = Ok r <-> Forall wf_envelope (envelopes r) /\ encode_network_key_publish_request r = Ok bs) /\
  (forall p, decode_encrypted_network_packet bs = Ok p <-> wf_packet p /\ encode_encrypted_network_packet p = Ok bs) /\
  (forall p, decode_forwarded_network_packet bs = Ok p <-> wf_forwarded p /\ encode_forwarded_network_packet p = Ok bs) /\
  (forall p, decode_encrypted_network_packet bs = Ok p -> valid_packet p = true).
Proof.
  pose proof (packet_codecs_exact bs) as (P1 & P2 & P3). pose proof network_requests_exact as (Q1 & Q2 & Q3 & Q4). pose proof network_results_exact as (R1 & R2 & R3 & R4).
  pose proof network_keys_exact as [K1 K2].
  split_and!; intros; first [apply Q1 | apply Q2 | apply Q3 | apply Q4 | apply R1 | apply R2 | apply R3 | apply R4 | apply K1
    | apply K2 | apply network_peer_state_exact | apply P1 | apply P2 | by apply P3].
Qed.
