(* ===== verification/Crypto.v ===== *)
(** The cryptographic primitives the sources call (OpenSSL), as an interface, and
    the key handling built on it: device identities and transcripts
    (src/auth/identity.cpp), signed device keys (src/auth/device_keys.cpp) and
    the sealing of network keys (src/auth/network_keys.cpp). *)
From S2P Require Import Prelude NetworkMessages.

(** ** The interface *)

(** [None] is a failure of the library call. *)
Class Crypto := {
  sha256 : bytes -> option bytes;
  ed25519_verify : bytes -> bytes -> bytes -> option bool;          (* public key, message, signature *)
  ed25519_sign : bytes -> bytes -> option bytes;                    (* secret key, message *)
  ed25519_public : bytes -> bytes;
  hkdf_sha256 : bytes -> bytes -> bytes -> option bytes;            (* salt, key, info *)
  aes_gcm_seal : bytes -> bytes -> bytes -> bytes -> option (bytes * bytes); (* key, nonce, aad, plaintext *)
  aes_gcm_open : bytes -> bytes -> bytes -> bytes -> bytes -> option bytes;  (* key, nonce, aad, ciphertext, tag *)
  x25519 : bytes -> bytes -> option bytes;                          (* secret key, public key *)
  x25519_public : bytes -> bytes
}.

(** Documented behaviour of the primitives. *)
Class CryptoLaws (C : Crypto) := {
  sha256_length : forall m d, sha256 m = Some d -> length d = 32%nat;
  sign_length : forall sk m s, ed25519_sign sk m = Some s -> length s = 64%nat;
  sign_verifies : forall sk m s, ed25519_sign sk m = Some s -> ed25519_verify (ed25519_public sk) m s = Some true;
  seal_opens : forall k n a p c t, aes_gcm_seal k n a p = Some (c, t) -> aes_gcm_open k n a c t = Some p;
  seal_lengths : forall k n a p c t, aes_gcm_seal k n a p = Some (c, t) -> length c = length p /\ length t = 16%nat;
  x25519_public_length : forall a, length (x25519_public a) = 32%nat;
  x25519_agrees : forall a b, x25519 a (x25519_public b) = x25519 b (x25519_public a)
}.

Section Keys.
Context {C : Crypto}.

(** ** Identities *)

Definition transcript_prefix : bytes := str "lanlink-auth-v2".

Definition make_device_id (public_key : bytes) : result bytes :=
  match sha256 public_key with Some d => Ok d | None => Throw runtime_error end.

Definition make_auth_transcript (public_key encryption_key client server : bytes) : bytes :=
  transcript_prefix ++ public_key ++ encryption_key ++ client ++ server.

Definition verify_signature (public_key message signature : bytes) : result bool :=
  match ed25519_verify public_key message signature with Some b => Ok b | None => Throw runtime_error end.

Definition verify_signed_device_key (key : SignedDeviceKey) (expected : bytes) : result bool :=
  if is_zero expected || is_zero (encryption_public_key key) then Ok false
  else
    let* id := make_device_id (identity_public_key key) in
    if negb (bool_decide (id = expected)) then Ok false
    else
      let transcript := make_auth_transcript (identity_public_key key) (encryption_public_key key)
                          (client_nonce key) (server_nonce key) in
      verify_signature (identity_public_key key) transcript (key_signature key).

(** ** X25519 key agreement *)

Definition derive_shared_secret (secret peer_public_key : bytes) : result bytes :=
  match x25519 secret peer_public_key with
  | None => Throw runtime_error
  | Some shared => if negb (len shared =? 32) || is_zero shared then Throw runtime_error else Ok shared
  end.

(** ** Sealing network keys *)

Definition wrap_domain : bytes := str "lanlink-network-key-wrap-v1".
Definition signature_domain : bytes := str "lanlink-network-key-envelope-v1".
Definition authenticated_header_size : nat :=
  network_id_size + 8 + 2 * network_device_id_size + 2 * encryption_public_key_size + network_key_nonce_size.

(** [vector::resize]. *)
Definition resize (n : nat) (bs : bytes) : bytes := take n bs ++ replicate (n - length bs) x00.

Definition authenticated_header (e : NetworkKeyEnvelope) : result bytes :=
  let* bs := encode_network_key_envelope e in
  Ok (resize authenticated_header_size bs).

Definition signed_transcript (e : NetworkKeyEnvelope) : result bytes :=
  let* wire := encode_network_key_envelope e in
  Ok (signature_domain ++ resize (length wire - signature_size) wire).

Definition derive_wrapping_key (shared header : bytes) : result bytes :=
  match hkdf_sha256 header shared wrap_domain with
  | None => Throw runtime_error
  | Some k => if negb (len k =? 32) then Throw runtime_error else Ok k
  end.

(** Fills [ciphertext] and [tag] of the envelope. *)
Definition encrypt_key (key wrapping_key header : bytes) (e : NetworkKeyEnvelope) : result NetworkKeyEnvelope :=
  match aes_gcm_seal wrapping_key (env_nonce e) header key with
  | None => Throw runtime_error
  | Some (c, t) =>
      if negb (len c =? Z.of_nat network_key_size) then Throw runtime_error
      else Ok (mk_envelope (env_network_id e) (env_epoch e) (env_owner e) (env_recipient e)
                 (env_owner_key e) (env_recipient_key e) (env_nonce e) c t (env_signature e))
  end.

Definition decrypt_key (e : NetworkKeyEnvelope) (wrapping_key header : bytes) : result bytes :=
  match aes_gcm_open wrapping_key (env_nonce e) header (env_ciphertext e) (env_tag e) with
  | None => Throw runtime_error
  | Some p => if negb (len p =? 32) then Throw runtime_error else Ok p
  end.

Definition verify_network_key_envelope (e : NetworkKeyEnvelope) (owner_signing_public_key : bytes) : result bool :=
  let* id := make_device_id owner_signing_public_key in
  if negb (bool_decide (id = env_owner e)) then Ok false
  else
    match signed_transcript e with
    | Throw invalid_argument => Ok false
    | Throw x => Throw x
    | Ok t => verify_signature owner_signing_public_key t (env_signature e)
    end.

Definition zeros (n : nat) : bytes := replicate n x00.

(** [random_nonce] is what [RAND_bytes] delivers, [None] its failure. *)
Definition seal_network_key (identity_secret encryption_secret : bytes) (recipient_key : SignedDeviceKey)
    (recipient_id network_id : bytes) (epoch : Z) (network_key : bytes) (random_nonce : option bytes)
    : result NetworkKeyEnvelope :=
  let* verified := verify_signed_device_key recipient_key recipient_id in
  check! verified && negb (epoch =? 0) else invalid_argument in
  let* owner_id := make_device_id (ed25519_public identity_secret) in
  check! negb (bool_decide (owner_id = recipient_id)) else invalid_argument in
  match random_nonce with
  | None => Throw runtime_error
  | Some nonce =>
      let e := mk_envelope network_id epoch owner_id recipient_id (x25519_public encryption_secret)
                 (encryption_public_key recipient_key) nonce (zeros network_key_size)
                 (zeros network_key_tag_size) (zeros signature_size) in
      let* header := authenticated_header e in
      let* shared := derive_shared_secret encryption_secret (env_recipient_key e) in
      let* wrapping_key := derive_wrapping_key shared header in
      let* e := encrypt_key network_key wrapping_key header e in
      let* transcript := signed_transcript e in
      match ed25519_sign identity_secret transcript with
      | None => Throw runtime_error
      | Some s =>
          Ok (mk_envelope (env_network_id e) (env_epoch e) (env_owner e) (env_recipient e)
                (env_owner_key e) (env_recipient_key e) (env_nonce e) (env_ciphertext e) (env_tag e) s)
      end
  end.

Definition open_network_key (encryption_secret : bytes) (e : NetworkKeyEnvelope) (owner_key : SignedDeviceKey)
    (recipient_id : bytes) : result bytes :=
  if negb (bool_decide (env_recipient e = recipient_id)) ||
     negb (bool_decide (env_recipient_key e = x25519_public encryption_secret))
  then Throw runtime_error
  else
    let* verified := verify_signed_device_key owner_key (env_owner e) in
    check! verified && bool_decide (encryption_public_key owner_key = env_owner_key e) else runtime_error in
    let* valid := verify_network_key_envelope e (identity_public_key owner_key) in
    check! valid else runtime_error in
    let* header := authenticated_header e in
    let* shared := derive_shared_secret encryption_secret (env_owner_key e) in
    let* wrapping_key := derive_wrapping_key shared header in
    decrypt_key e wrapping_key header.

(** ** The authenticated part of an envelope does not depend on what is filled in later *)

Lemma resize_prefix n a b : (n <= length a)%nat -> resize n (a ++ b) = take n a.
Proof.
  intros H. unfold resize. rewrite take_app_le by done. rewrite length_app.
  replace (n - (length a + length b))%nat with 0%nat by lia. by rewrite app_nil_r.
Qed.

Definition envelope_ok (e : NetworkKeyEnvelope) : bool := is_ok (encode_network_key_envelope e).

Lemma authenticated_header_spec e :
  wf_envelope e -> envelope_ok e = true ->
  authenticated_header e = Ok (env_network_id e ++ put_be 8 (env_epoch e) ++ env_owner e ++ env_recipient e ++
    env_owner_key e ++ env_recipient_key e ++ env_nonce e).
Proof.
  intros (L1 & _ & L3 & L4 & L5 & L6 & L7 & _) O. unfold envelope_ok, authenticated_header in *.
  destruct (encode_network_key_envelope e) as [bs|] eqn:E; [|done]. f_equal.
  unfold encode_network_key_envelope in E. ok_inv E. subst bs. clear O G.
  match goal with |- resize _ ?x = ?y => assert (S : exists t, x = y ++ t) end.
  { eexists. rewrite <- !app_assoc. reflexivity. }
  destruct S as [t ->].
  assert (L : length (env_network_id e ++ put_be 8 (env_epoch e) ++ env_owner e ++ env_recipient e ++
    env_owner_key e ++ env_recipient_key e ++ env_nonce e) = authenticated_header_size).
  { rewrite !length_app, length_put_be, L1, L3, L4, L5, L6, L7. reflexivity. }
  rewrite resize_prefix by lia. rewrite <- L. apply firstn_all.
Qed.

Lemma envelope_ok_ext e e' :
  env_network_id e = env_network_id e' -> env_epoch e = env_epoch e' -> env_owner e = env_owner e' ->
  env_recipient e = env_recipient e' -> env_owner_key e = env_owner_key e' ->
  env_recipient_key e = env_recipient_key e' -> envelope_ok e = envelope_ok e'.
Proof.
  intros E1 E2 E3 E4 E5 E6. unfold envelope_ok, encode_network_key_envelope.
  rewrite E1, E2, E3, E4, E5, E6. by destruct (negb _).
Qed.

Lemma signed_transcript_spec e :
  wf_envelope e -> envelope_ok e = true ->
  signed_transcript e = Ok (signature_domain ++ env_network_id e ++ put_be 8 (env_epoch e) ++ env_owner e ++
    env_recipient e ++ env_owner_key e ++ env_recipient_key e ++ env_nonce e ++ env_ciphertext e ++ env_tag e).
Proof.
  intros W O. pose proof W as (L1 & _ & L3 & L4 & L5 & L6 & L7 & L8 & L9 & L10).
  unfold envelope_ok, signed_transcript in *.
  destruct (encode_network_key_envelope e) as [bs|] eqn:E; [|done]. pose proof (envelope_length _ _ W E) as Lb.
  unfold encode_network_key_envelope in E. ok_inv E. clear O G. do 2 f_equal.
  match goal with |- _ = ?y => assert (S : bs = y ++ env_signature e) by (rewrite <- E, <- !app_assoc; done) end.
  rewrite S at 2. rewrite S in Lb |- *. rewrite length_app in *. rewrite resize_prefix by (rewrite L10; lia).
  rewrite L10. rewrite Nat.add_sub. apply firstn_all.
Qed.

(** A sealed network key opens to the same key. *)
Lemma seal_opens_key {L : CryptoLaws C}
    (identity_secret owner_secret recipient_secret recipient_id network_id network_key nonce : bytes)
    (epoch : Z) (recipient_key owner_key : SignedDeviceKey) (owner_id : bytes) (e : NetworkKeyEnvelope) :
  length network_id = network_id_size -> word 8 epoch -> length recipient_id = network_device_id_size ->
  length nonce = network_key_nonce_size -> length network_key = network_key_size ->
  encryption_public_key recipient_key = x25519_public recipient_secret ->
  identity_public_key owner_key = ed25519_public identity_secret ->
  encryption_public_key owner_key = x25519_public owner_secret ->
  make_device_id (ed25519_public identity_secret) = Ok owner_id ->
  verify_signed_device_key owner_key owner_id = Ok true ->
  seal_network_key identity_secret owner_secret recipient_key recipient_id network_id epoch network_key
    (Some nonce) = Ok e ->
  wf_envelope e /\ open_network_key recipient_secret e owner_key recipient_id = Ok network_key.
Proof.
  intros Ln We Lr Lo Lk Er Ei Eo Em Vo H. unfold seal_network_key in H. rewrite Em in H.
  destruct (verify_signed_device_key recipient_key recipient_id) as [vr|]; [|done].
  destruct (vr && negb (epoch =? 0)) eqn:G1 in H; [|done]. destruct (negb _) eqn:G2 in H; [|done].
  cbn [env_recipient_key] in H.
  match type of H with context [authenticated_header ?x] => set (e0 := x) in * end.
  assert (Lid : length owner_id = network_device_id_size).
  { unfold make_device_id in Em. destruct (sha256 _) as [d|] eqn:Es; [|done]. injection Em as <-. by eapply sha256_length. }
  assert (W0 : wf_envelope e0) by (split_and!; cbn; rewrite ?Er, ?length_replicate; auto using x25519_public_length).
  destruct (authenticated_header e0) as [header|] eqn:Eh; [|done].
  destruct (derive_shared_secret owner_secret _) as [shared|] eqn:Esh in H; [|done].
  destruct (derive_wrapping_key shared header) as [wk|] eqn:Ew; [|done].
  assert (O0 : envelope_ok e0 = true).
  { unfold envelope_ok. unfold authenticated_header in Eh. by destruct (encode_network_key_envelope e0). }
  rewrite authenticated_header_spec in Eh by done. apply Ok_inj in Eh.
  unfold encrypt_key in H. destruct (aes_gcm_seal _ _ _ _) as [[c t]|] eqn:Esl in H; [|done].
  destruct (negb (len c =? _)) eqn:G3 in H; [done|].
  match type of H with context [signed_transcript ?x] => set (e1 := x) in * end.
  pose proof (seal_lengths _ _ _ _ _ _ Esl) as [Lc Lt].
  assert (W1 : wf_envelope e1).
  { destruct W0 as (? & ? & ? & ? & ? & ? & ? & _). split_and!; try done; cbn; by rewrite ?Lc, ?length_replicate. }
  assert (O1 : envelope_ok e1 = true) by (rewrite <- O0; by apply envelope_ok_ext).
  rewrite (signed_transcript_spec e1 W1 O1) in H. destruct (ed25519_sign identity_secret _) as [s|] eqn:Esg in H; [|done].
  apply Ok_inj in H as <-. set (e2 := mk_envelope _ _ _ _ _ _ _ _ _ s).
  assert (W2 : wf_envelope e2).
  { destruct W1 as (? & ? & ? & ? & ? & ? & ? & ? & ? & _). split_and!; try done. cbn. by eapply sign_length. }
  split; [done|]. assert (O2 : envelope_ok e2 = true) by (rewrite <- O0; by apply envelope_ok_ext).
  unfold open_network_key. cbn [env_recipient env_recipient_key env_owner env_owner_key e2 e1 e0].
  rewrite Er, !bool_decide_eq_true_2 by done. cbn [negb orb]. rewrite Vo, ?bool_decide_eq_true_2 by done. cbn [andb].
  unfold verify_network_key_envelope. rewrite Ei, Em. rewrite bool_decide_eq_true_2 by done. cbn [negb].
  rewrite (signed_transcript_spec e2 W2 O2). unfold verify_signature.
  assert (V : ed25519_verify (ed25519_public identity_secret)
    (signature_domain ++ env_network_id e2 ++ put_be 8 (env_epoch e2) ++ env_owner e2 ++ env_recipient e2 ++
     env_owner_key e2 ++ env_recipient_key e2 ++ env_nonce e2 ++ env_ciphertext e2 ++ env_tag e2) (env_signature e2)
    = Some true) by (by apply sign_verifies).
  rewrite V. rewrite (authenticated_header_spec e2 W2 O2). unfold derive_shared_secret in *.
  rewrite <- x25519_agrees, <- Er.
  destruct (x25519 owner_secret _) as [sh|] in Esh |- *; [|done].
  destruct (negb (len sh =? 32) || is_zero sh); [done|]. apply Ok_inj in Esh as ->.
  assert (Hh : env_network_id e2 ++ put_be 8 (env_epoch e2) ++ env_owner e2 ++ env_recipient e2 ++
     env_owner_key e2 ++ env_recipient_key e2 ++ env_nonce e2 = header) by (by rewrite <- Eh).
  rewrite Hh, Ew. unfold decrypt_key. cbn [env_nonce env_ciphertext env_tag e2 e1].
  rewrite (seal_opens _ _ _ _ _ _ Esl). unfold len. by rewrite Lk.
Qed.
End Keys.

(** ** A concrete instance *)

(** Functions without secrecy that satisfy the laws, to evaluate the definitions on. *)
Definition toy_crypto : Crypto := {|
  sha256 m := Some (resize 32 m);
  ed25519_verify pk m s := Some (bool_decide (s = resize 64 (pk ++ m)));
  ed25519_sign sk m := Some (resize 64 (sk ++ m));
  ed25519_public sk := sk;
  hkdf_sha256 salt key info := Some (resize 32 (key ++ salt ++ info));
  aes_gcm_seal k n a p := Some (p, resize 16 (k ++ n));
  aes_gcm_open k n a c t := if bool_decide (t = resize 16 (k ++ n)) then Some c else None;
  x25519 a b := Some (replicate 32 x07);
  x25519_public a := resize 32 a
|}.

Lemma length_resize n bs : length (resize n bs) = n.
Proof. unfold resize. rewrite length_app, length_take, length_replicate. lia. Qed.

#[global] Instance toy_laws : CryptoLaws toy_crypto.
Proof.
  constructor; cbn [sha256 ed25519_verify ed25519_sign ed25519_public aes_gcm_seal aes_gcm_open x25519
    x25519_public toy_crypto]; intros; simplify_eq; rewrite ?bool_decide_eq_true_2 by done; auto using length_resize.
Qed.

Definition toy_signed_key (secret : bytes) : SignedDeviceKey :=
  mk_signed_key secret secret (replicate 32 x02) (replicate 32 x03)
    (resize 64 (secret ++ make_auth_transcript secret secret (replicate 32 x02) (replicate 32 x03))).
