(* ===== verification/PacketCipher.v ===== *)
(** [NetworkPacketCipher] (include/lanlink/auth/packet_crypto.hpp,
    src/auth/packet_crypto.cpp): per-network encryption of IPv4 packets, with
    per-sender keys, nonces bound to sequence numbers and a 64-entry replay window. *)
From S2P Require Import Prelude Ipv4 NetworkPolicy NetworkMessages PacketMessages Crypto.

Definition key_domain : bytes := str "lanlink-virtual-packet-key-v1".
Definition aad_domain : bytes := str "lanlink-virtual-packet-aad-v1".

Definition read_ipv4 (packet : bytes) (offset : nat) : Z := get_at 4 packet offset 4.

(** Source and destination of a packet. *)
Definition ipv4_addresses (packet : bytes) : result (Z * Z) :=
  check! negb ((len packet <? min_virtual_ipv4_packet_size) || (len packet >? max_virtual_ipv4_packet_size) ||
               negb (Z.shiftr (at_z packet 0) 4 =? 4)) else invalid_argument in
  let header_length := Z.land (at_z packet 0) 0x0f * 4 in
  let total_length := Z.lor (Z.shiftl (at_z packet 2) 8) (at_z packet 3) in
  check! negb ((header_length <? min_virtual_ipv4_packet_size) || (header_length >? len packet) ||
               negb (total_length =? len packet)) else invalid_argument in
  Ok (read_ipv4 packet 12, read_ipv4 packet 16).

Definition accept_sequence (sequence highest bitmap : Z) : bool :=
  if sequence >? highest then true
  else
    let distance := highest - sequence in
    (distance <? 64) && (Z.land bitmap (Z.shiftl 1 distance) =? 0).

Record PeerReceiver := mk_receiver {
  session_public_key : bytes;
  receiver_ipv4 : Z;
  encryption_key : bytes;
  nonce_prefix : bytes;
  highest_sequence : Z;
  seen_sequences : Z;
  initialized : bool;
  fanout_allowed : bool
}.

Record Cipher := mk_cipher {
  network_id_ : bytes;
  key_epoch_ : Z;
  network_key_ : bytes;
  own_device_id_ : bytes;
  own_session_public_key_ : bytes;
  own_ipv4_address_ : Z;
  subnet_address_ : Z;
  prefix_length_ : Z;
  managed_ : bool;
  outgoing_key_ : bytes;
  outgoing_nonce_prefix_ : bytes;
  next_sequence_ : Z;
  peers_ : gmap bytes PeerReceiver
}.

Definition set_peers (c : Cipher) (peers : gmap bytes PeerReceiver) : Cipher :=
  mk_cipher (network_id_ c) (key_epoch_ c) (network_key_ c) (own_device_id_ c) (own_session_public_key_ c)
    (own_ipv4_address_ c) (subnet_address_ c) (prefix_length_ c) (managed_ c) (outgoing_key_ c)
    (outgoing_nonce_prefix_ c) (next_sequence_ c) peers.

Definition set_next (c : Cipher) (next : Z) : Cipher :=
  mk_cipher (network_id_ c) (key_epoch_ c) (network_key_ c) (own_device_id_ c) (own_session_public_key_ c)
    (own_ipv4_address_ c) (subnet_address_ c) (prefix_length_ c) (managed_ c) (outgoing_key_ c)
    (outgoing_nonce_prefix_ c) next (peers_ c).

Section Cipher.
Context {C : Crypto}.

Definition derive_sender_key (network_key network_id : bytes) (epoch : Z) (sender session : bytes) : result bytes :=
  match hkdf_sha256 (network_id ++ put_be 8 epoch) network_key (key_domain ++ sender ++ session) with
  | None => Throw runtime_error
  | Some k => if negb (len k =? 32) then Throw runtime_error else Ok k
  end.

Definition authenticated_data (p : EncryptedNetworkPacket) (sender session : bytes) (source_ipv4 : Z) : result bytes :=
  let* header := encode_encrypted_network_packet_header p in
  Ok (aad_domain ++ header ++ sender ++ session ++ put_be 4 source_ipv4).

(** Fills [ciphertext] and [tag] of a packet whose ciphertext has the plaintext's size. *)
Definition encrypt_packet (plaintext key aad : bytes) (p : EncryptedNetworkPacket) : result EncryptedNetworkPacket :=
  match aes_gcm_seal key (nonce p) aad plaintext with
  | None => Throw runtime_error
  | Some (c, t) =>
      if negb (len c =? len (ciphertext p)) then Throw runtime_error
      else Ok (mk_packet (network_id p) (destination_ipv4 p) (key_epoch p) (sequence p) (nonce p) c t)
  end.

Definition decrypt_packet (p : EncryptedNetworkPacket) (key aad : bytes) : result bytes :=
  match aes_gcm_open key (nonce p) aad (ciphertext p) (tag p) with
  | None => Throw runtime_error
  | Some pt => if negb (len pt =? len (ciphertext p)) then Throw runtime_error else Ok pt
  end.

(** The constructor; [random_prefix] is what [RAND_bytes] delivers. *)
Definition make_cipher (nid : bytes) (epoch : Z) (nkey own_id : bytes) (own_key : SignedDeviceKey)
    (own_ipv4 : Z) (random_prefix : option bytes) : result Cipher :=
  let session := encryption_public_key own_key in
  let* outgoing := derive_sender_key nkey nid epoch own_id session in
  check! negb (is_zero nid || (epoch =? 0)) else invalid_argument in
  let* verified := verify_signed_device_key own_key own_id in
  check! verified && negb ((own_ipv4 =? 0) || (own_ipv4 >=? 0xe0000000)) else invalid_argument in
  match random_prefix with
  | None => Throw runtime_error
  | Some prefix =>
      Ok (mk_cipher nid epoch nkey own_id session own_ipv4 0 0 false outgoing prefix 0 ∅)
  end.

(** The loop of [update_peers] over the peers of the new state. *)
Fixpoint update_loop (c : Cipher) (pol : option NetworkPolicy) (l : list NetworkPeer)
    (updated : gmap bytes PeerReceiver) : result (gmap bytes PeerReceiver) :=
  match l with
  | [] => Ok updated
  | p :: l =>
      match signed_key p with
      | None => update_loop c pol l updated
      | Some k =>
          if match pol with Some pl => negb (policy_allows pl (own_device_id_ c) (peer_device_id p)) | None => false end
          then update_loop c pol l updated
          else
            check! negb (bool_decide (peer_device_id p = own_device_id_ c)) else invalid_argument in
            let* verified := verify_signed_device_key k (peer_device_id p) in
            check! verified else invalid_argument in
            let session := encryption_public_key k in
            let* receiver :=
              match peers_ c !! peer_device_id p with
              | Some r =>
                  if bool_decide (session_public_key r = session) && (receiver_ipv4 r =? ipv4_address p)
                  then Ok r
                  else let* key := derive_sender_key (network_key_ c) (network_id_ c) (key_epoch_ c)
                                     (peer_device_id p) session in
                       Ok (mk_receiver session (ipv4_address p) key (replicate 8 x00) 0 0 false true)
              | None =>
                  let* key := derive_sender_key (network_key_ c) (network_id_ c) (key_epoch_ c)
                                (peer_device_id p) session in
                  Ok (mk_receiver session (ipv4_address p) key (replicate 8 x00) 0 0 false true)
              end in
            let updated := match updated !! peer_device_id p with
                           | Some _ => updated
                           | None => <[peer_device_id p := receiver]> updated
                           end in
            update_loop c pol l updated
      end
  end.

Definition set_fanout (b : bool) (r : PeerReceiver) : PeerReceiver :=
  mk_receiver (session_public_key r) (receiver_ipv4 r) (encryption_key r) (nonce_prefix r)
    (highest_sequence r) (seen_sequences r) (initialized r) b.

(** Throwing leaves the cipher as it was. *)
Definition update_peers (c : Cipher) (s : NetworkPeerState) : result Cipher :=
  check! negb (negb (bool_decide (state_network_id s = network_id_ c)) ||
               negb (state_key_epoch s =? key_epoch_ c) || negb (own_address s =? own_ipv4_address_ c))
    else invalid_argument in
  let* _ := encode_network_peer_state s in
  let* updated := update_loop c (policy s) (peers s) ∅ in
  let updated := map_imap (fun id r => Some (set_fanout
    (match policy s with None => true | Some pl => policy_fanout_allows pl (own_device_id_ c) id end) r)) updated in
  Ok (mk_cipher (network_id_ c) (key_epoch_ c) (network_key_ c) (own_device_id_ c) (own_session_public_key_ c)
        (own_ipv4_address_ c) (subnet_address s) (prefix_length s)
        (match policy s with Some pl => managed pl | None => false end)
        (outgoing_key_ c) (outgoing_nonce_prefix_ c) (next_sequence_ c) updated).

(** [encrypt] returns the cipher with the result: a late throw keeps the consumed sequence number. *)
Definition encrypt (c : Cipher) (ipv4_packet : bytes) : result EncryptedNetworkPacket * Cipher :=
  match ipv4_addresses ipv4_packet with
  | Throw e => (Throw e, c)
  | Ok (source, destination) =>
      if negb (source =? own_ipv4_address_ c) || (destination =? 0) || (destination =? own_ipv4_address_ c)
      then (Throw invalid_argument, c)
      else
        let fanout := is_ipv4_fanout_destination destination (subnet_address_ c) (prefix_length_ c) in
        if managed_ c &&
           ((negb fanout && negb (bool_decide (map_Exists (fun _ r => receiver_ipv4 r = destination) (peers_ c)))) ||
            (fanout && negb (bool_decide (map_Exists (fun _ r => fanout_allowed r = true) (peers_ c)))))
        then (Throw invalid_argument, c)
        else if (negb fanout && negb (is_ipv4_host destination (subnet_address_ c) (prefix_length_ c))) ||
                (fanout && bool_decide (at_ ipv4_packet 8 = x00))
        then (Throw invalid_argument, c)
        else if next_sequence_ c =? 2 ^ 32 - 1 then (Throw overflow_error, c)
        else
          let seq := next_sequence_ c + 1 in
          let c := set_next c seq in
          let p := mk_packet (network_id_ c) destination (key_epoch_ c) seq
                     (outgoing_nonce_prefix_ c ++ put_be 4 seq) (replicate (length ipv4_packet) x00)
                     (replicate packet_tag_size x00) in
          (let* aad := authenticated_data p (own_device_id_ c) (own_session_public_key_ c) (own_ipv4_address_ c) in
           encrypt_packet ipv4_packet (outgoing_key_ c) aad p, c)
  end.

(** The receiver after it accepted [p]. *)
Definition record_sequence (r : PeerReceiver) (p : EncryptedNetworkPacket) : PeerReceiver :=
  if negb (initialized r)
  then mk_receiver (session_public_key r) (receiver_ipv4 r) (encryption_key r) (take 8 (nonce p))
         (sequence p) 1 true (fanout_allowed r)
  else if sequence p >? highest_sequence r
  then
    let distance := sequence p - highest_sequence r in
    mk_receiver (session_public_key r) (receiver_ipv4 r) (encryption_key r) (nonce_prefix r) (sequence p)
      (if distance >=? 64 then 1 else Z.lor (Z.shiftl (seen_sequences r) distance mod 2 ^ 64) 1)
      (initialized r) (fanout_allowed r)
  else
    mk_receiver (session_public_key r) (receiver_ipv4 r) (encryption_key r) (nonce_prefix r) (highest_sequence r)
      (Z.lor (seen_sequences r) (Z.shiftl 1 (highest_sequence r - sequence p)))
      (initialized r) (fanout_allowed r).

Definition decrypt (c : Cipher) (p : EncryptedNetworkPacket) (sender : bytes) : result bytes * Cipher :=
  let r :=
    let* _ := encode_encrypted_network_packet_header p in
    check! bool_decide (network_id p = network_id_ c) && (key_epoch p =? key_epoch_ c) else runtime_error in
    let fanout := is_ipv4_fanout_destination (destination_ipv4 p) (subnet_address_ c) (prefix_length_ c) in
    check! (destination_ipv4 p =? own_ipv4_address_ c) || fanout else runtime_error in
    match peers_ c !! sender with
    | None => Throw runtime_error
    | Some receiver =>
        check! negb (fanout && negb (fanout_allowed receiver)) else runtime_error in
        check! negb (initialized receiver &&
                 (negb (bool_decide (take 8 (nonce p) = nonce_prefix receiver)) ||
                  negb (accept_sequence (sequence p) (highest_sequence receiver) (seen_sequences receiver))))
          else runtime_error in
        let* aad := authenticated_data p sender (session_public_key receiver) (receiver_ipv4 receiver) in
        let* plaintext := decrypt_packet p (encryption_key receiver) aad in
        let addresses_match :=
          match ipv4_addresses plaintext with
          | Ok (source, destination) =>
              (source =? receiver_ipv4 receiver) && (destination =? destination_ipv4 p) &&
              (negb (is_ipv4_fanout_destination destination (subnet_address_ c) (prefix_length_ c)) ||
               negb (bool_decide (at_ plaintext 8 = x00)))
          | Throw _ => false
          end in
        check! addresses_match else runtime_error in
        Ok (plaintext, receiver)
    end in
  match r with
  | Throw e => (Throw e, c)
  | Ok (plaintext, receiver) =>
      (Ok plaintext, set_peers c (<[sender := record_sequence receiver p]> (peers_ c)))
  end.
End Cipher.

(** ** The replay window against the set of accepted sequence numbers *)

(** [A] is the set of sequence numbers accepted with receiver [r]. *)
Definition receiver_inv (A : gset Z) (r : PeerReceiver) : Prop :=
  if initialized r
  then highest_sequence r ∈ A /\ (forall s, s ∈ A -> s <= highest_sequence r) /\
       (forall d, 0 <= d < 64 -> Z.testbit (seen_sequences r) d = bool_decide (highest_sequence r - d ∈ A))
  else A = ∅.

Lemma land_bit_zero a k : 0 <= k -> (Z.land a (Z.shiftl 1 k) =? 0) = negb (Z.testbit a k).
Proof.
  intros Hk. rewrite Z.shiftl_1_l. destruct (Z.testbit a k) eqn:T; cbn [negb].
  - apply Z.eqb_neq. intros E. apply (f_equal (fun z => Z.testbit z k)) in E.
    by rewrite Z.land_spec, T, Z.pow2_bits_true, Z.bits_0 in E by lia.
  - apply Z.eqb_eq. apply Z.bits_inj'. intros i Hi. rewrite Z.land_spec, Z.bits_0.
    destruct (Z.eq_dec i k) as [->|]; [by rewrite T|]. by rewrite Z.pow2_bits_false, andb_false_r by lia.
Qed.

(** The window accepts exactly the fresh sequence numbers less than 64 behind the highest. *)
Lemma accept_sequence_spec A r s :
  receiver_inv A r -> initialized r = true ->
  accept_sequence s (highest_sequence r) (seen_sequences r) = true <-> (s ∉ A) /\ highest_sequence r - s < 64.
Proof.
  unfold receiver_inv. intros H I. rewrite I in H. destruct H as (_ & Hle & Hb). unfold accept_sequence.
  destruct (Z.gtb_spec s (highest_sequence r)).
  - split; [|done]. intros _. split; [|lia]. intros Hs. apply Hle in Hs. lia.
  - rewrite andb_true_iff, Z.ltb_lt, land_bit_zero, negb_true_iff by lia. split.
    + intros [H1 H2]. rewrite Hb in H2 by lia. bool_prop. by replace (_ - (_ - s)) with s in H2 by lia.
    + intros [H1 H2]. split; [done|]. rewrite Hb by lia. apply bool_decide_eq_false.
      by replace (_ - (_ - s)) with s by lia.
Qed.

Lemma record_sequence_inv A r p :
  receiver_inv A r ->
  (initialized r = true -> accept_sequence (sequence p) (highest_sequence r) (seen_sequences r) = true) ->
  receiver_inv ({[sequence p]} ∪ A) (record_sequence r p).
Proof.
  intros H Hacc. unfold record_sequence. destruct (initialized r) eqn:I; cbn [negb].
  - specialize (Hacc eq_refl). pose proof (proj1 (accept_sequence_spec A r _ H I) Hacc) as [Hf Hw].
    unfold receiver_inv in *. rewrite I in *. destruct H as (Hm & Hle & Hb).
    destruct (Z.gtb_spec (sequence p) (highest_sequence r)) as [Hgt|Hng]; cbn [initialized highest_sequence seen_sequences].
    + split; [set_solver|]. split; [intros s Hs; apply elem_of_union in Hs as [Hs|Hs];
        [apply elem_of_singleton in Hs; lia|apply Hle in Hs; lia]|].
      intros d Hd. destruct (Z.geb_spec (sequence p - highest_sequence r) 64) as [Hf64|Hn64].
      * destruct (Z.eq_dec d 0) as [->|Hd0].
        { symmetry. apply bool_decide_eq_true. rewrite Z.sub_0_r. set_solver. }
        replace (Z.testbit 1 d) with false by (symmetry; change 1 with (2 ^ 0); apply Z.pow2_bits_false; lia).
        symmetry. apply bool_decide_eq_false. intros Hin. apply elem_of_union in Hin as [Hin|Hin];
          [apply elem_of_singleton in Hin; lia|apply Hle in Hin; lia].
      * rewrite Z.lor_spec, Z.mod_pow2_bits_low, Z.shiftl_spec by lia. destruct (Z.eq_dec d 0) as [->|Hd0].
        { rewrite orb_true_r. symmetry. apply bool_decide_eq_true. rewrite Z.sub_0_r. set_solver. }
        replace (Z.testbit 1 d) with false by (symmetry; change 1 with (2 ^ 0); apply Z.pow2_bits_false; lia).
        rewrite orb_false_r. set (delta := sequence p - highest_sequence r) in *.
        destruct (Z.lt_ge_cases d delta) as [Hlt|Hge].
        -- rewrite Z.testbit_neg_r by lia. symmetry. apply bool_decide_eq_false. intros Hin.
           apply elem_of_union in Hin as [Hin|Hin]; [apply elem_of_singleton in Hin; lia|apply Hle in Hin; lia].
        -- rewrite Hb by lia. apply bool_decide_ext. replace (highest_sequence r - (d - delta)) with (sequence p - d) by lia.
           split; [set_solver|]. intros Hin. apply elem_of_union in Hin as [Hin|Hin]; [apply elem_of_singleton in Hin; lia|done].
    + split; [set_solver|]. split; [intros s Hs; apply elem_of_union in Hs as [Hs|Hs];
        [apply elem_of_singleton in Hs; lia|apply Hle in Hs; lia]|].
      intros d Hd. rewrite Z.lor_spec, Z.shiftl_1_l, Hb by lia. set (delta := highest_sequence r - sequence p) in *.
      destruct (Z.eq_dec d delta) as [->|Hne].
      * rewrite Z.pow2_bits_true, orb_true_r by lia. symmetry. apply bool_decide_eq_true.
        replace (highest_sequence r - delta) with (sequence p) by lia. set_solver.
      * rewrite Z.pow2_bits_false, orb_false_r by lia. apply bool_decide_ext. split; [set_solver|].
        intros Hin. apply elem_of_union in Hin as [Hin|Hin]; [apply elem_of_singleton in Hin; lia|done].
  - unfold receiver_inv in *. rewrite I in H. subst A. cbn [initialized highest_sequence seen_sequences].
    split; [set_solver|]. split; [intros s Hs; apply elem_of_union in Hs as [Hs|Hs]; [apply elem_of_singleton in Hs; lia|set_solver]|].
    intros d Hd. destruct (Z.eq_dec d 0) as [->|Hd0].
    { symmetry. apply bool_decide_eq_true. rewrite Z.sub_0_r. set_solver. }
    replace (Z.testbit 1 d) with false by (symmetry; change 1 with (2 ^ 0); apply Z.pow2_bits_false; lia).
    symmetry. apply bool_decide_eq_false. intros Hin. apply elem_of_union in Hin as [Hin|Hin]; [apply elem_of_singleton in Hin; lia|set_solver].
Qed.

Section Reachability.
Context {C : Crypto}.

(** ** Reachable ciphers, with the sequence numbers accepted so far *)

(** A peer update keeps the accepted set of a sender whose session key and address stay. *)
Definition accepted_after_update (c c' : Cipher) (g : bytes -> gset Z) (s : bytes) : gset Z :=
  match peers_ c !! s, peers_ c' !! s with
  | Some r, Some r' =>
      if bool_decide (session_public_key r = session_public_key r') && (receiver_ipv4 r =? receiver_ipv4 r')
      then g s else ∅
  | _, _ => ∅
  end.

Inductive reach : Cipher -> (bytes -> gset Z) -> Prop :=
| reach_new nid epoch nkey own key ip rnd c :
    make_cipher nid epoch nkey own key ip rnd = Ok c -> reach c (fun _ => ∅)
| reach_update c g s c' :
    reach c g -> update_peers c s = Ok c' -> reach c' (accepted_after_update c c' g)
| reach_encrypt c g pkt r c' : reach c g -> encrypt c pkt = (r, c') -> reach c' g
| reach_rejected c g p sender e c' : reach c g -> decrypt c p sender = (Throw e, c') -> reach c' g
| reach_accepted c g p sender pt c' :
    reach c g -> decrypt c p sender = (Ok pt, c') ->
    reach c' (fun s => if bool_decide (s = sender) then {[sequence p]} ∪ g s else g s).

Definition cipher_inv (c : Cipher) (g : bytes -> gset Z) : Prop :=
  forall s r, peers_ c !! s = Some r -> receiver_inv (g s) r.

Lemma update_loop_spec c pol l : forall updated m,
  update_loop c pol l updated = Ok m ->
  forall id r, m !! id = Some r ->
    updated !! id = Some r \/ peers_ c !! id = Some r \/
    (initialized r = false /\
     forall r0, peers_ c !! id = Some r0 ->
       ~ (session_public_key r0 = session_public_key r /\ receiver_ipv4 r0 = receiver_ipv4 r)).
Proof.
  induction l as [|p l IH]; intros updated m H id r Hm; cbn [update_loop] in H; [ok_inv H; subst; by left|].
  destruct (signed_key p) as [k|]; [|eauto].
  destruct (match pol with Some _ => _ | None => false end); [eauto|]. ok_inv H.
  destruct (IH _ _ H id r Hm) as [Hu|Hr]; [|by right].
  destruct (updated !! peer_device_id p) eqn:U; [by left|].
  destruct (decide (id = peer_device_id p)) as [->|Hne]; [|rewrite lookup_insert_ne in Hu by done; by left].
  rewrite lookup_insert_eq in Hu. injection Hu as <-. right.
  destruct (peers_ c !! peer_device_id p) as [r0|] eqn:P.
  - destruct (bool_decide _ && _) eqn:B in E0.
    + apply Ok_inj in E0 as <-. by left.
    + right. ok_inv E0. subst. split; [done|]. intros r1 Er1. injection Er1 as <-. cbn.
      intros [Es Ei]. by rewrite Es, Ei, bool_decide_eq_true_2, Z.eqb_refl in B by done.
  - right. ok_inv E0. subst. done.
Qed.

Lemma update_peers_inv c s c' g : cipher_inv c g -> update_peers c s = Ok c' ->
  cipher_inv c' (accepted_after_update c c' g).
Proof.
  intros Hc H id r' Hr. pose proof Hr as Hr0. unfold update_peers in H. ok_inv H. subst c'. cbn [peers_] in *.
  rewrite map_lookup_imap in Hr. destruct (a0 !! id) as [r|] eqn:Er; [|done]. cbn in Hr. injection Hr as <-.
  destruct (update_loop_spec _ _ _ _ _ E0 id r Er) as [Hu|[Hp|[Hi Hn]]].
  - by rewrite lookup_empty in Hu.
  - unfold accepted_after_update. cbn [peers_]. rewrite Hp, Hr0. cbn [session_public_key receiver_ipv4 set_fanout].
    rewrite bool_decide_eq_true_2, Z.eqb_refl by done. cbn [andb]. exact (Hc _ _ Hp).
  - match goal with |- receiver_inv (accepted_after_update c ?c' g id) _ =>
      assert (Ea : accepted_after_update c c' g id = ∅) end.
    { unfold accepted_after_update. cbn [peers_]. destruct (peers_ c !! id) as [r0|] eqn:P; [|done]. rewrite Hr0.
      cbn [session_public_key receiver_ipv4 set_fanout]. destruct (_ && _) eqn:B; [|done]. bool_prop.
      exfalso. by apply (Hn r0). }
    rewrite Ea. unfold receiver_inv. cbn. by rewrite Hi.
Qed.

Lemma encrypt_peers c pkt r c' : encrypt c pkt = (r, c') -> peers_ c' = peers_ c.
Proof.
  unfold encrypt. intros H. repeat case_match; simplify_eq; done.
Qed.

(** What a successful [decrypt] says. *)
Lemma decrypt_ok c p sender pt c' :
  decrypt c p sender = (Ok pt, c') ->
  exists r, peers_ c !! sender = Some r /\
    c' = set_peers c (<[sender := record_sequence r p]> (peers_ c)) /\
    (initialized r = true -> take 8 (nonce p) = nonce_prefix r /\
       accept_sequence (sequence p) (highest_sequence r) (seen_sequences r) = true) /\
    (exists aad, authenticated_data p sender (session_public_key r) (receiver_ipv4 r) = Ok aad /\
       decrypt_packet p (encryption_key r) aad = Ok pt) /\
    ipv4_addresses pt = Ok (receiver_ipv4 r, destination_ipv4 p) /\
    network_id p = network_id_ c /\ key_epoch p = key_epoch_ c.
Proof.
  unfold decrypt. intros H.
  match type of H with (match ?m with _ => _ end) = _ => destruct m as [[pt' r]|] eqn:E end; [|discriminate H].
  injection H as <- <-. destruct (encode_encrypted_network_packet_header p); [|done].
  destruct (bool_decide _ && _) eqn:G1 in E; [|done]. destruct (_ || _) eqn:G2 in E; [|done].
  destruct (peers_ c !! sender) as [r0|]; [|done]. exists r0. ok_inv E. simplify_eq. bool_prop. split; [done|].
  split; [done|]. split.
  - intros I. rewrite I in *. cbn [andb] in *. bool_prop. done.
  - split; [by eexists|]. destruct (ipv4_addresses _) as [[src dst]|]; [|done]. bool_prop. by subst.
Qed.

Lemma decrypt_throw c p sender e c' : decrypt c p sender = (Throw e, c') -> c' = c.
Proof. unfold decrypt. intros H. repeat case_match; by simplify_eq. Qed.

Lemma reach_inv c g : reach c g -> cipher_inv c g.
Proof.
  induction 1 as [nid epoch nkey own key ip rnd c H|c g s c' _ IH H|c g pkt r c' _ IH H
                 |c g p sender e c' _ IH H|c g p sender pt c' _ IH H].
  - unfold make_cipher in H. ok_inv H. destruct rnd; [|done]. ok_inv H. subst c.
    intros s r Hr. cbn in Hr. by rewrite lookup_empty in Hr.
  - by eapply update_peers_inv.
  - intros s q Hq. rewrite (encrypt_peers _ _ _ _ H) in Hq. eauto.
  - apply decrypt_throw in H as ->. done.
  - destruct (decrypt_ok _ _ _ _ _ H) as (r & Hp & -> & Ha & _). intros s q Hq. cbn [peers_ set_peers] in Hq.
    destruct (bool_decide (s = sender)) eqn:B; bool_prop.
    + subst s. rewrite lookup_insert_eq in Hq. injection Hq as <-. apply record_sequence_inv; [by apply IH|].
      intros I. by apply Ha.
    + rewrite lookup_insert_ne in Hq by done. eauto.
Qed.

(** C5: no packet is accepted twice.  In every reachable cipher, whatever mix of
    peer updates, encryptions and received packets led to it, a packet that [decrypt]
    accepts carries a sequence number that was never accepted from that sender since its
    session key or address last changed; a packet that passes every other check is
    rejected by the window only if its number was already accepted, lies 64 or more
    behind the highest, or comes with another nonce prefix. *)
Theorem decrypt_replay_free (c : Cipher) (g : bytes -> gset Z) (p : EncryptedNetworkPacket) (sender : bytes) :
  reach c g ->
  (forall pt c', decrypt c p sender = (Ok pt, c') -> sequence p ∉ g sender) /\
  (forall r, peers_ c !! sender = Some r -> initialized r = true ->
     accept_sequence (sequence p) (highest_sequence r) (seen_sequences r) = true <->
     (sequence p ∉ g sender) /\ highest_sequence r - sequence p < 64).
Proof.
  intros H. apply reach_inv in H. split.
  - intros pt c' D. destruct (decrypt_ok _ _ _ _ _ D) as (r & Hp & _ & Ha & _). apply H in Hp.
    destruct (initialized r) eqn:I.
    + by apply (accept_sequence_spec _ r); [..|apply Ha].
    + unfold receiver_inv in Hp. rewrite I in Hp. rewrite Hp. set_solver.
  - intros r Hr I. by apply accept_sequence_spec; [apply H|].
Qed.
End Reachability.

Section Sending.
Context {C : Crypto}.

(** ** Sending *)

Lemma encrypt_inv c pkt r c' :
  encrypt c pkt = (r, c') ->
  c' = c /\ is_ok r = false \/ c' = set_next c (next_sequence_ c + 1) /\ next_sequence_ c <> 2 ^ 32 - 1.
Proof.
  unfold encrypt. intros H. repeat case_match; simplify_eq; auto; bool_prop; auto.
Qed.

(** The packet before encryption. *)
Definition blank_packet (c : Cipher) (destination : Z) (size : nat) : EncryptedNetworkPacket :=
  mk_packet (network_id_ c) destination (key_epoch_ c) (next_sequence_ c + 1)
    (outgoing_nonce_prefix_ c ++ put_be 4 (next_sequence_ c + 1)) (replicate size x00) (replicate packet_tag_size x00).

Lemma encrypt_ok c pkt p c' :
  encrypt c pkt = (Ok p, c') ->
  exists destination aad ct t,
    ipv4_addresses pkt = Ok (own_ipv4_address_ c, destination) /\
    (is_ipv4_fanout_destination destination (subnet_address_ c) (prefix_length_ c) = true -> at_ pkt 8 <> x00) /\
    c' = set_next c (next_sequence_ c + 1) /\ next_sequence_ c <> 2 ^ 32 - 1 /\
    authenticated_data (blank_packet c destination (length pkt)) (own_device_id_ c)
      (own_session_public_key_ c) (own_ipv4_address_ c) = Ok aad /\
    aes_gcm_seal (outgoing_key_ c) (outgoing_nonce_prefix_ c ++ put_be 4 (next_sequence_ c + 1)) aad pkt = Some (ct, t) /\
    p = mk_packet (network_id_ c) destination (key_epoch_ c) (next_sequence_ c + 1)
          (outgoing_nonce_prefix_ c ++ put_be 4 (next_sequence_ c + 1)) ct t.
Proof.
  unfold encrypt. intros H. destruct (ipv4_addresses pkt) as [[src dst]|] eqn:E; [|done].
  destruct (negb (src =? _) || _ || _) eqn:G1; [done|]. destruct (managed_ c && _); [done|].
  destruct (_ || _) eqn:G2 in H; [done|]. destruct (next_sequence_ c =? _) eqn:G3; [done|].
  injection H as H <-.
  change (authenticated_data (mk_packet _ _ _ _ _ _ _) _ _ _) with
    (authenticated_data (blank_packet c dst (length pkt)) (own_device_id_ c) (own_session_public_key_ c) (own_ipv4_address_ c)) in H.
  destruct (authenticated_data _ _ _ _) as [aad|] eqn:Ea; [|done]. unfold encrypt_packet in H.
  cbn [nonce network_id destination_ipv4 key_epoch sequence] in H.
  change (outgoing_key_ (set_next _ _)) with (outgoing_key_ c) in H.
  change (outgoing_nonce_prefix_ (set_next _ _)) with (outgoing_nonce_prefix_ c) in H.
  destruct (aes_gcm_seal _ _ _ _) as [[ct t]|] eqn:Es; [|done]. destruct (negb _) in H; [done|]. apply Ok_inj in H as <-.
  bool_prop. exists dst, aad, ct, t. subst src. split_and!; try done.
  intros F. rewrite F in *. cbn in *. by bool_prop.
Qed.

(** Encrypting one packet after another; failures are skipped. *)
Fixpoint encrypt_many (c : Cipher) (pkts : list bytes) : list EncryptedNetworkPacket * Cipher :=
  match pkts with
  | [] => ([], c)
  | k :: pkts =>
      let (r, c) := encrypt c k in
      let (ps, c) := encrypt_many c pkts in
      (match r with Ok p => p :: ps | Throw _ => ps end, c)
  end.

Lemma encrypt_many_sequences pkts : forall c,
  0 <= next_sequence_ c <= 2 ^ 32 - 1 ->
  0 <= next_sequence_ (snd (encrypt_many c pkts)) <= 2 ^ 32 - 1 /\
  Forall (fun p => next_sequence_ c < sequence p <= 2 ^ 32 - 1 /\
                   nonce p = outgoing_nonce_prefix_ c ++ put_be 4 (sequence p)) (fst (encrypt_many c pkts)) /\
  NoDup (map sequence (fst (encrypt_many c pkts))).
Proof.
  induction pkts as [|k pkts IH]; intros c Hc; cbn [encrypt_many]; [split; [done|split; constructor]|].
  destruct (encrypt c k) as [r c1] eqn:E. pose proof (encrypt_inv _ _ _ _ E) as Inv.
  assert (Hn : 0 <= next_sequence_ c1 <= 2 ^ 32 - 1 /\ next_sequence_ c <= next_sequence_ c1 /\
               outgoing_nonce_prefix_ c1 = outgoing_nonce_prefix_ c).
  { destruct Inv as [[-> _]|[-> N]]; cbn [next_sequence_ outgoing_nonce_prefix_ set_next]; [done|]. split; [lia|]. split; [lia|done]. }
  destruct Hn as (H1 & H2 & H3). specialize (IH c1 H1).
  destruct (encrypt_many c1 pkts) as [ps c2]. cbn [fst snd] in *. destruct IH as (B & F & N). rewrite H3 in F.
  destruct r as [p|e]; cbn [fst snd]; split; [done| |done|].
  - destruct (encrypt_ok _ _ _ _ E) as (d & aad & ct & t & _ & _ & -> & Hne & _ & _ & ->).
    cbn [next_sequence_ set_next] in *. split.
    + constructor; [cbn; split; [lia|done]|]. eapply Forall_impl; [exact F|]. cbn. intros q [? ?]. split; [lia|done].
    + cbn [map sequence]. constructor; [|done]. intros Hin. apply list_elem_of_In, in_map_iff in Hin as (q & Eq & Hq).
      rewrite Forall_forall in F. apply list_elem_of_In in Hq. apply F in Hq as [Hq _]. lia.
  - split; [|done]. eapply Forall_impl; [exact F|]. cbn. intros q [? ?]. split; [lia|done].
Qed.

(** Nonces never repeat under one key.  However many packets a cipher encrypts,
    all the nonces it uses are distinct (its random prefix followed by strictly new
    32-bit sequence numbers), and the sequence counter never wraps: encryption throws
    once it is exhausted. *)
Lemma encrypt_many_nonces (c : Cipher) (pkts : list bytes) :
  0 <= next_sequence_ c <= 2 ^ 32 - 1 ->
  NoDup (map nonce (fst (encrypt_many c pkts))) /\
  0 <= next_sequence_ (snd (encrypt_many c pkts)) <= 2 ^ 32 - 1.
Proof.
  intros H. destruct (encrypt_many_sequences pkts c H) as (B & F & N). split; [|done].
  assert (G : forall l, Forall (fun p => next_sequence_ c < sequence p <= 2 ^ 32 - 1 /\
                   nonce p = outgoing_nonce_prefix_ c ++ put_be 4 (sequence p)) l ->
    NoDup (map sequence l) -> NoDup (map nonce l)); [|by apply G].
  induction l as [|p l IH]; cbn [map]; intros Fl Nl; [constructor|].
  inversion Fl as [|? ? [Hp Ep] Fl']; subst. inversion Nl as [|? ? Nin Nl']; subst. constructor; [|auto].
  intros Hin. apply Nin. apply list_elem_of_In, in_map_iff in Hin as (q & Eq & Hq). apply list_elem_of_In, in_map_iff. exists q.
  split; [|done]. rewrite Forall_forall in Fl'. apply list_elem_of_In in Hq. apply Fl' in Hq as [Hq Eq']. rewrite Ep, Eq' in Eq.
  apply app_inv_head in Eq. apply (f_equal be_value) in Eq. rewrite !be_value_put_word in Eq by (words; lia). done.
Qed.

(** ** From sender to receiver *)

Lemma authenticated_data_ext p q sender session ip :
  network_id p = network_id q -> destination_ipv4 p = destination_ipv4 q -> key_epoch p = key_epoch q ->
  sequence p = sequence q -> nonce p = nonce q -> len (ciphertext p) = len (ciphertext q) ->
  authenticated_data p sender session ip = authenticated_data q sender session ip.
Proof.
  intros E1 E2 E3 E4 E5 E6. unfold authenticated_data, encode_encrypted_network_packet_header, valid_packet.
  by rewrite E1, E2, E3, E4, E5, E6.
Qed.

(** What one member encrypts, another decrypts. *)
Lemma decrypt_encrypted {L : CryptoLaws C} (a b a' : Cipher) (pkt : bytes)
    (p : EncryptedNetworkPacket) (r : PeerReceiver) :
  encrypt a pkt = (Ok p, a') ->
  network_id_ b = network_id_ a -> key_epoch_ b = key_epoch_ a ->
  subnet_address_ b = subnet_address_ a -> prefix_length_ b = prefix_length_ a ->
  length (outgoing_nonce_prefix_ a) = 8%nat ->
  peers_ b !! own_device_id_ a = Some r ->
  session_public_key r = own_session_public_key_ a -> receiver_ipv4 r = own_ipv4_address_ a ->
  encryption_key r = outgoing_key_ a ->
  (is_ipv4_fanout_destination (destination_ipv4 p) (subnet_address_ b) (prefix_length_ b) = true -> fanout_allowed r = true) ->
  (destination_ipv4 p = own_ipv4_address_ b \/
   is_ipv4_fanout_destination (destination_ipv4 p) (subnet_address_ b) (prefix_length_ b) = true) ->
  (initialized r = true ->
     nonce_prefix r = outgoing_nonce_prefix_ a /\
     accept_sequence (sequence p) (highest_sequence r) (seen_sequences r) = true) ->
  decrypt b p (own_device_id_ a) =
    (Ok pkt, set_peers b (<[own_device_id_ a := record_sequence r p]> (peers_ b))).
Proof.
  intros H En Ee Es Ep Lp Hr Ks Ki Kk Kf Hd Ha.
  destruct (encrypt_ok _ _ _ _ H) as (d & aad & ct & t & Eadr & Httl & _ & _ & Eaad & Eseal & ->).
  cbn [destination_ipv4 sequence] in Hd, Ha, Kf. set (p := mk_packet _ _ _ _ _ ct t).
  pose proof (seal_lengths _ _ _ _ _ _ Eseal) as [Lc _].
  assert (Ead : authenticated_data p (own_device_id_ a) (own_session_public_key_ a) (own_ipv4_address_ a) = Ok aad).
  { rewrite <- Eaad. apply authenticated_data_ext; try done. unfold len. cbn. by rewrite length_replicate, Lc. }
  unfold decrypt.
  assert (Eh : exists h, encode_encrypted_network_packet_header p = Ok h).
  { unfold authenticated_data in Ead. destruct (encode_encrypted_network_packet_header p); [by eexists|done]. }
  destruct Eh as [h ->]. cbn [network_id key_epoch destination_ipv4 p].
  guard_true by (by rewrite bool_decide_eq_true_2, Ee, Z.eqb_refl by done).
  guard_true by (destruct Hd as [->| ->]; [by rewrite Z.eqb_refl|apply orb_true_r]). rewrite Hr.
  guard_true by (destruct (is_ipv4_fanout_destination d _ _); [by rewrite Kf|done]).
  guard_true by (apply negb_true_iff; destruct (initialized r); [|done]; destruct (Ha eq_refl) as [-> Hacc];
                 change (sequence p) with (next_sequence_ a + 1); unfold p; cbn [nonce]; rewrite Hacc, take_app_len, bool_decide_eq_true_2 by done; done).
  rewrite Ks, Ki, Ead. unfold decrypt_packet. cbn [nonce ciphertext tag p]. rewrite Kk, (seal_opens _ _ _ _ _ _ Eseal).
  guard_false by (apply negb_false_iff, Z.eqb_eq; unfold len; by rewrite Lc). rewrite Eadr, !Z.eqb_refl. cbn [andb].
  rewrite Es, Ep. destruct (is_ipv4_fanout_destination d (subnet_address_ a) (prefix_length_ a)); [|done].
  rewrite bool_decide_eq_false_2 by (by apply Httl). done.
Qed.

(** ** The members of one network *)

(** What a cipher is constructed with; the prefix is what [RAND_bytes] delivered. *)
Record Member := mk_member {
  mb_network : bytes; mb_epoch : Z; mb_key : bytes; mb_device : bytes; mb_signed : SignedDeviceKey; mb_address : Z; mb_prefix : bytes }.

(** The packets accepted from a sender are kept while its session key and address stay. *)
Definition kept_after_update (c c' : Cipher) (g : bytes -> list EncryptedNetworkPacket) (d : bytes) : list EncryptedNetworkPacket :=
  match peers_ c !! d, peers_ c' !! d with
  | Some r, Some r' =>
      if bool_decide (session_public_key r = session_public_key r') && (receiver_ipv4 r =? receiver_ipv4 r') then g d else []
  | _, _ => []
  end.
(** The ciphers a member reaches, with the last state it followed and the packets it accepted from each sender. *)
Inductive member_reach (m : Member) : Cipher -> option NetworkPeerState -> (bytes -> list EncryptedNetworkPacket) -> Prop :=
| mr_new c : length (mb_prefix m) = 8%nat ->
    make_cipher (mb_network m) (mb_epoch m) (mb_key m) (mb_device m) (mb_signed m) (mb_address m) (Some (mb_prefix m)) = Ok c ->
    member_reach m c None (fun _ => [])
| mr_update c s g st c' : member_reach m c s g -> update_peers c st = Ok c' -> member_reach m c' (Some st) (kept_after_update c c' g)
| mr_encrypt c s g pkt r c' : member_reach m c s g -> encrypt c pkt = (r, c') -> member_reach m c' s g
| mr_rejected c s g p sender e c' : member_reach m c s g -> decrypt c p sender = (Throw e, c') -> member_reach m c' s g
| mr_accepted c s g p sender pt c' : member_reach m c s g -> decrypt c p sender = (Ok pt, c') ->
    member_reach m c' s (fun d => if bool_decide (d = sender) then p :: g d else g d).

(** The state's policy lets the two exchange packets, and fan-out packets. *)
Definition may_talk (st : NetworkPeerState) (me peer : bytes) : Prop :=
  match policy st with Some pl => policy_allows pl me peer = true | None => True end.
Definition may_fan_out (st : NetworkPeerState) (me peer : bytes) : bool :=
  match policy st with Some pl => policy_fanout_allows pl me peer | None => true end.

Definition sequences (l : list EncryptedNetworkPacket) : gset Z := list_to_set (map sequence l).
Definition window_inv (l : list EncryptedNetworkPacket) (r : PeerReceiver) : Prop :=
  receiver_inv (sequences l) r /\ (initialized r = true -> forall q, q ∈ l -> take 8 (nonce q) = nonce_prefix r).
Definition keyed (m : Member) (d : bytes) (r : PeerReceiver) : Prop :=
  derive_sender_key (mb_key m) (mb_network m) (mb_epoch m) d (session_public_key r) = Ok (encryption_key r).
(** The member has a receiver for each peer of the state that has a key and may talk to it. *)
Definition receives_from (m : Member) (c : Cipher) (st : NetworkPeerState) : Prop :=
  forall p k, p ∈ peers st -> signed_key p = Some k -> may_talk st (mb_device m) (peer_device_id p) ->
    exists r, peers_ c !! peer_device_id p = Some r /\ session_public_key r = encryption_public_key k /\ receiver_ipv4 r = ipv4_address p /\
      fanout_allowed r = may_fan_out st (mb_device m) (peer_device_id p).
Record member_inv (m : Member) (c : Cipher) (s : option NetworkPeerState) (g : bytes -> list EncryptedNetworkPacket) : Prop := mk_member_inv {
  mi_args : network_id_ c = mb_network m /\ key_epoch_ c = mb_epoch m /\ network_key_ c = mb_key m /\ own_device_id_ c = mb_device m /\
    own_session_public_key_ c = encryption_public_key (mb_signed m) /\ own_ipv4_address_ c = mb_address m /\ outgoing_nonce_prefix_ c = mb_prefix m /\
    length (mb_prefix m) = 8%nat;
  mi_outgoing : derive_sender_key (mb_key m) (mb_network m) (mb_epoch m) (mb_device m) (encryption_public_key (mb_signed m)) = Ok (outgoing_key_ c);
  mi_next : 0 <= next_sequence_ c <= 2 ^ 32 - 1;
  mi_window : forall d r, peers_ c !! d = Some r -> window_inv (g d) r /\ keyed m d r;
  mi_state : forall st, s = Some st -> subnet_address_ c = subnet_address st /\ prefix_length_ c = prefix_length st /\ receives_from m c st }.

Lemma update_loop_keyed (m : Member) c pol l : network_key_ c = mb_key m -> network_id_ c = mb_network m -> key_epoch_ c = mb_epoch m ->
  (forall d r, peers_ c !! d = Some r -> keyed m d r) -> forall updated next, update_loop c pol l updated = Ok next ->
  (forall d r, updated !! d = Some r -> keyed m d r) -> forall d r, next !! d = Some r -> keyed m d r.
Proof.
  intros E1 E2 E3 Old. induction l as [|p l IH]; intros updated next H Up; cbn [update_loop] in H; [ok_inv H; by subst|].
  destruct (signed_key p) as [k|]; [|eauto]. destruct (match pol with Some _ => _ | None => false end); [eauto|]. ok_inv H.
  apply (IH _ _ H). intros d r. destruct (updated !! peer_device_id p) eqn:U; [apply Up|].
  destruct (decide (d = peer_device_id p)) as [->|N]; [|rewrite lookup_insert_ne by done; apply Up]. rewrite lookup_insert_eq. intros [= <-].
  destruct (peers_ c !! peer_device_id p) as [r0|] eqn:P; [destruct (bool_decide _ && _) in E0; [apply Ok_inj in E0 as <-; by apply Old|]|];
    ok_inv E0; subst; unfold keyed; cbn; by rewrite <- E1, <- E2, <- E3.
Qed.
Lemma update_loop_complete c pol l : forall updated next, update_loop c pol l updated = Ok next -> NoDup (map peer_device_id l) ->
  (forall p, p ∈ l -> updated !! peer_device_id p = None) ->
  (forall d r, updated !! d = Some r -> next !! d = Some r) /\
  forall p k, p ∈ l -> signed_key p = Some k -> match pol with Some pl => policy_allows pl (own_device_id_ c) (peer_device_id p) = true | None => True end ->
    exists r, next !! peer_device_id p = Some r /\ session_public_key r = encryption_public_key k /\ receiver_ipv4 r = ipv4_address p.
Proof.
  induction l as [|p l IH]; intros updated next H N Fr; cbn [update_loop] in H.
  { ok_inv H. subst. split; [done|]. intros p k Hp. by apply not_elem_of_nil in Hp. }
  cbn in N. apply NoDup_cons in N as [Np N].
  assert (Rest : update_loop c pol l updated = Ok next -> (forall d r, updated !! d = Some r -> next !! d = Some r) /\
    forall q k, q ∈ l -> signed_key q = Some k -> match pol with Some pl => policy_allows pl (own_device_id_ c) (peer_device_id q) = true | None => True end ->
    exists r, next !! peer_device_id q = Some r /\ session_public_key r = encryption_public_key k /\ receiver_ipv4 r = ipv4_address q).
  { intros H'. apply (IH _ _ H' N). intros q Hq. apply Fr. by right. }
  destruct (signed_key p) as [k|] eqn:K.
  2:{ destruct (Rest H) as [R1 R2]. split; [done|]. intros q k [->|Hq]%elem_of_cons; [congruence|by apply R2]. }
  destruct (match pol with Some _ => _ | None => false end) eqn:A.
  { destruct (Rest H) as [R1 R2]. split; [done|]. intros q k' [->|Hq]%elem_of_cons; [|by apply R2]. destruct pol as [pl|]; [|done].
    intros _ T. by rewrite T in A. }
  ok_inv H. rewrite (Fr p) in H by (by left). destruct (IH _ _ H N) as [R1 R2].
  { intros q Hq. rewrite lookup_insert_ne; [apply Fr; by right|]. intros Eq. apply Np. rewrite Eq. by apply list_elem_of_fmap_2. }
  split.
  - intros d r Hd. apply R1. rewrite lookup_insert_ne; [done|]. intros Eq. rewrite <- Eq, (Fr p) in Hd by (by left). done.
  - intros q k' [->|Hq]%elem_of_cons; [|by apply R2]. rewrite K. intros [= <-] _. exists a0. split; [apply R1, lookup_insert_eq|].
    destruct (peers_ c !! peer_device_id p) as [r0|]; [destruct (bool_decide _ && _) eqn:B in E0; [apply Ok_inj in E0 as <-; by bool_prop|]|]; ok_inv E0; by subst.
Qed.
Lemma valid_peers_distinct subnet l : forall ids addresses, valid_peers subnet ids addresses l = true ->
  NoDup (map peer_device_id l) /\ forall p, p ∈ l -> peer_device_id p ∉ ids.
Proof.
  induction l as [|p l IH]; intros ids addresses H; cbn in H; [split; [constructor|intros p Hp; by apply not_elem_of_nil in Hp]|].
  destruct (_ || _) eqn:G in H; [done|]. rewrite !orb_false_iff in G. destruct G as [[_ G] _]. apply bool_decide_eq_false in G.
  destruct (IH _ _ H) as [N D]. cbn. split.
  - constructor; [|done]. intros X. apply list_elem_of_fmap in X as (q & E & Hq). apply (D q Hq). rewrite <- E. set_solver.
  - intros q [->|Hq]%elem_of_cons; [done|]. specialize (D q Hq). set_solver.
Qed.

Lemma window_keeps l r p : window_inv l r -> (initialized r = true -> take 8 (nonce p) = nonce_prefix r /\
    accept_sequence (sequence p) (highest_sequence r) (seen_sequences r) = true) -> window_inv (p :: l) (record_sequence r p).
Proof.
  intros [W P] H. split; [unfold sequences; cbn; apply record_sequence_inv; [done|]; intros I; by apply H|].
  unfold record_sequence. destruct (initialized r) eqn:I; cbn [negb].
  - destruct (H eq_refl) as [H1 _]. destruct (sequence p >? _); cbn; intros _ q [->|Hq]%elem_of_cons; by auto.
  - cbn. intros _ q [->|Hq]%elem_of_cons; [done|]. unfold receiver_inv in W. rewrite I in W. exfalso.
    assert (X : sequence q ∈ sequences l) by (unfold sequences; apply elem_of_list_to_set; by apply list_elem_of_fmap_2). rewrite W in X. set_solver.
Qed.
Lemma update_member m c s g st c' : member_inv m c s g -> update_peers c st = Ok c' -> member_inv m c' (Some st) (kept_after_update c c' g).
Proof.
  intros [(A1 & A2 & A3 & A4 & A5 & A6 & A7 & A8) Out Nx W _] H. pose proof H as H0. unfold update_peers in H. ok_inv H.
  assert (Ep : forall d r', peers_ c' !! d = Some r' -> exists r, a0 !! d = Some r /\ r' = set_fanout (may_fan_out st (own_device_id_ c) d) r).
  { subst c'. cbn [peers_]. intros d r'. rewrite map_lookup_imap. destruct (a0 !! d) as [r|]; [|done]. cbn. intros [= <-]. by exists r. }
  assert (Va : valid_peer_state st = true) by (unfold encode_network_peer_state in E; by ok_inv E).
  assert (Nd : NoDup (map peer_device_id (peers st))).
  { unfold valid_peer_state in Va. destruct (_ || _) in Va; [done|]. by apply valid_peers_distinct in Va as [? _]. }
  destruct (update_loop_complete _ _ _ _ _ E0 Nd ltac:(intros p _; apply lookup_empty)) as [_ Cp]. split; try (subst c'; by cbn).
  - intros d r' Hr. pose proof Hr as Hr'. apply Ep in Hr as (r & Er & ->). split.
    + assert (U : peers_ c !! d = Some r \/ initialized r = false /\ forall r0, peers_ c !! d = Some r0 ->
        ~ (session_public_key r0 = session_public_key r /\ receiver_ipv4 r0 = receiver_ipv4 r)).
      { destruct (update_loop_spec _ _ _ _ _ E0 d r Er) as [X|X]; [by rewrite lookup_empty in X|done]. }
      unfold kept_after_update. rewrite Hr'. cbn [session_public_key receiver_ipv4 set_fanout]. destruct U as [P|[I Ne]].
      * rewrite P, bool_decide_eq_true_2, Z.eqb_refl by done. cbn [andb]. by apply (W d r).
      * assert (K0 : window_inv [] (set_fanout (may_fan_out st (own_device_id_ c) d) r)) by (split; [unfold receiver_inv; cbn; by rewrite I|cbn; congruence]).
        destruct (peers_ c !! d) as [r0|] eqn:P; [|done]. destruct (_ && _) eqn:B; [|done]. bool_prop. exfalso. by apply (Ne r0).
    + apply (update_loop_keyed m c (policy st) (peers st) A3 A1 A2 (fun d r Hd => proj2 (W d r Hd)) ∅ a0 E0 ltac:(intros ? ?; by rewrite lookup_empty) d r Er).
  - intros st' [= <-]. split_and!; [by subst c'..|]. intros p k Hp Hk T. rewrite <- A4 in *.
    destruct (Cp p k Hp Hk T) as (r & Er & Es & Ei). exists (set_fanout (may_fan_out st (own_device_id_ c) (peer_device_id p)) r).
    split; [subst c'; cbn [peers_]; by rewrite map_lookup_imap, Er|done].
Qed.
Lemma member_reach_inv m c s g : member_reach m c s g -> member_inv m c s g.
Proof.
  induction 1 as [c Lp H|c s g st c' _ IH H|c s g pkt r c' _ IH H|c s g p sender e c' _ IH H|c s g p sender pt c' _ IH H].
  - unfold make_cipher in H. ok_inv H. subst c. split; cbn; try done.
  - by eapply update_member.
  - destruct IH as [A Out Nx W St]. destruct (encrypt_inv _ _ _ _ H) as [[-> _]|[-> N]]; [done|]. split; cbn; try done. lia.
  - by apply decrypt_throw in H as ->.
  - destruct IH as [A Out Nx W St]. destruct (decrypt_ok _ _ _ _ _ H) as (r & Hp & -> & Ha & _). split; cbn [set_peers peers_]; try done.
    + intros d q. destruct (bool_decide_reflect (d = sender)) as [->|N]; [|rewrite lookup_insert_ne by done; apply W]. rewrite lookup_insert_eq. intros [= <-].
      destruct (W sender r Hp) as [Wi K]. split; [by apply window_keeps|]. unfold keyed, record_sequence in *. destruct (negb _); [done|]. by destruct (_ >? _).
    + intros st E. destruct (St st E) as (S1 & S2 & S3). split_and!; [done..|]. intros q k Hq Hk T. destruct (S3 q k Hq Hk T) as (r' & Er & X).
      cbn [peers_ set_peers]. destruct (decide (peer_device_id q = sender)) as [<-|N]; [|exists r'; by rewrite lookup_insert_ne].
      assert (r' = r) as -> by congruence. exists (record_sequence r p). rewrite lookup_insert_eq. split; [done|]. unfold record_sequence. destruct (negb _); [done|]. by destruct (_ >? _).
Qed.

End Sending.

(** ** Examples: two members of one network *)

Definition alice : bytes := replicate 32 x05.
Definition bob : bytes := replicate 32 x06.
Definition sample_network : bytes := replicate 16 x01.

Definition sample_state (own peer_ip : Z) (peer : bytes) : NetworkPeerState :=
  mk_peer_state sample_network 1 0x0a400000 24 own [mk_peer peer peer_ip (Some (toy_signed_key peer))] alice 3 None.

(** A cipher that has learned its peer. *)
Definition sample_cipher (self : bytes) (own : Z) (peer : bytes) (peer_ip : Z) : result Cipher :=
  let* c := make_cipher (C := toy_crypto) sample_network 3 (replicate 32 x08) self (toy_signed_key self) own
              (Some (replicate 8 x0c)) in
  update_peers (C := toy_crypto) c (sample_state own peer_ip peer).

(** An IPv4 packet from Alice (10.64.0.2) to Bob (10.64.0.3). *)
Definition sample_ipv4 : bytes :=
  [x45; x00; x00; x15; x00; x00; x00; x00; x40; x11; x00; x00; x0a; x40; x00; x02; x0a; x40; x00; x03; x2a].

Definition no_cipher : Cipher := mk_cipher [] 0 [] [] [] 0 0 0 false [] [] 0 ∅.
Definition ok_or {A} (d : A) (r : result A) : A := match r with Ok a => a | Throw _ => d end.

Definition cipher_a : Cipher := ok_or no_cipher (sample_cipher alice 0x0a400002 bob 0x0a400003).
Definition fresh_b : Cipher :=
  ok_or no_cipher (make_cipher (C := toy_crypto) sample_network 3 (replicate 32 x08) bob (toy_signed_key bob)
                     0x0a400003 (Some (replicate 8 x0c))).
Definition cipher_b : Cipher :=
  ok_or no_cipher (update_peers (C := toy_crypto) fresh_b (sample_state 0x0a400003 0x0a400002 alice)).
Definition sent : EncryptedNetworkPacket :=
  ok_or (mk_packet [] 0 0 0 [] [] []) (fst (encrypt (C := toy_crypto) cipher_a sample_ipv4)).
Definition after_sending : Cipher := snd (encrypt (C := toy_crypto) cipher_a sample_ipv4).
Definition member_of (self : bytes) (own : Z) : Member :=
  mk_member sample_network 3 (replicate 32 x08) self (toy_signed_key self) own (replicate 8 x0c).
Lemma sample_member self own peer peer_ip c : sample_cipher self own peer peer_ip = Ok c ->
  exists g, member_reach (C := toy_crypto) (member_of self own) c (Some (sample_state own peer_ip peer)) g /\ forall d, g d = [].
Proof.
  unfold sample_cipher. intros H. ok_inv H. eexists. split; [eapply mr_update; [by apply mr_new|done]|].
  intros d. unfold kept_after_update. destruct (peers_ a !! d), (peers_ c !! d); try done. by destruct (_ && _).
Qed.


(** Bob accepts Alice's first packet; the same packet is then refused. *)
Definition after_receiving : Cipher := snd (decrypt (C := toy_crypto) cipher_b sent alice).

Lemma decrypt_replay_free_witness :
  exists g, reach (C := toy_crypto) after_receiving g /\ sequence sent ∈ g alice /\
    forall pt c', decrypt (C := toy_crypto) after_receiving sent alice <> (Ok pt, c').
Proof.
  assert (E0 : make_cipher (C := toy_crypto) sample_network 3 (replicate 32 x08) bob (toy_signed_key bob)
                 0x0a400003 (Some (replicate 8 x0c)) = Ok fresh_b) by (vm_compute; reflexivity).
  assert (Eb : update_peers (C := toy_crypto) fresh_b (sample_state 0x0a400003 0x0a400002 alice) = Ok cipher_b)
    by (vm_compute; reflexivity).
  assert (Ed : decrypt (C := toy_crypto) cipher_b sent alice = (Ok sample_ipv4, after_receiving))
    by (vm_compute; reflexivity).
  pose proof (reach_accepted _ _ _ _ _ _ (reach_update _ _ _ _ (reach_new _ _ _ _ _ _ _ _ E0) Eb) Ed) as R.
  eexists. split; [exact R|].
  pose proof (decrypt_replay_free (C := toy_crypto) _ _ sent alice R) as [N _]. cbv beta in N |- *.
  rewrite bool_decide_eq_true_2 in N |- * by reflexivity.
  split; [apply elem_of_union_l, elem_of_singleton; reflexivity|].
  intros pt c2 D. apply N in D. apply D, elem_of_union_l, elem_of_singleton. reflexivity.
Defined.
