(* ===== verification/Ethernet.v ===== *)
(** * Ethernet frames in the tunnel

    network/ethernet.cpp: the TAP adapter's frames are validated against the virtual
    subnet, wrapped into UDP over IPv4 and unwrapped by the receiver. *)
From S2P Require Import Prelude Ipv4.

Definition tunnel_port : Z := 48042.
Definition ethernet_mtu : Z := 1280.
Definition ethernet_tunnel_header : nat := 32.

Record VirtualNetworkAddress := mk_address {
  va_network_id : bytes; va_address : Z; va_subnet : Z; va_prefix_length : Z }.

#[global] Instance VirtualNetworkAddress_eq_dec : EqDecision VirtualNetworkAddress.
Proof. solve_decision. Defined.

Definition same_mac (frame : bytes) (offset : nat) (mac : bytes) : bool :=
  bool_decide (slice offset 6 frame = mac).

Definition virtual_mac (address : Z) : bytes :=
  [x02; x4c; z2b (Z.shiftr address 24); z2b (Z.shiftr address 16); z2b (Z.shiftr address 8); z2b address].

Definition validate_network (network : VirtualNetworkAddress) : result unit :=
  check! is_ipv4_host (va_address network) (va_subnet network) (va_prefix_length network) else invalid_argument in
  Ok tt.

(** The ARP and IPv4 branches: the protocol address the frame is for. *)
Definition frame_target (frame : bytes) (network : VirtualNetworkAddress) (sender type : Z) : result Z :=
  let host a := is_ipv4_host a (va_subnet network) (va_prefix_length network) in
  if type =? 0x0806 then
    check! negb ((len frame <? 42) || negb (get_at 4 frame 14 2 =? 1) || negb (get_at 4 frame 16 2 =? 0x0800) ||
      negb (bool_decide (at_ frame 18 = x06)) || negb (bool_decide (at_ frame 19 = x04)) ||
      (negb (get_at 4 frame 20 2 =? 1) && negb (get_at 4 frame 20 2 =? 2)) ||
      negb (same_mac frame 22 (virtual_mac sender)) || negb (get_at 4 frame 28 4 =? sender))
      else invalid_argument in
    let target := get_at 4 frame 38 4 in
    check! host target else invalid_argument in
    Ok target
  else if type =? 0x0800 then
    check! negb (len frame <? 34) else invalid_argument in
    let length := get_at 4 frame 16 2 in
    check! negb ((length <? 20) || (length >? len frame - 14)) else invalid_argument in
    let ip := slice 14 (Z.to_nat length) frame in
    let* _ := inspect_ipv4 ip in
    check! get_at 4 ip 12 4 =? sender else invalid_argument in
    let target := get_at 4 ip 16 4 in
    check! host target || is_ipv4_fanout_destination target (va_subnet network) (va_prefix_length network)
      else invalid_argument in
    Ok target
  else Throw invalid_argument.

Definition multicast_mac (target : Z) : bytes :=
  [x01; x00; x5e; z2b (Z.land (Z.shiftr target 16) 0x7f); z2b (Z.shiftr target 8); z2b target].

Definition validate_frame (frame : bytes) (network : VirtualNetworkAddress) (sender : Z) : result Z :=
  check! negb ((len frame <? 14) || (len frame >? ethernet_mtu + 14) ||
    negb (is_ipv4_host sender (va_subnet network) (va_prefix_length network)) ||
    negb (same_mac frame 6 (virtual_mac sender))) else invalid_argument in
  let broadcast := forallb (fun b => bool_decide (b = xff)) (take 6 frame) in
  let destination := get_at 4 frame 2 4 in
  let type := get_at 4 frame 12 2 in
  let* target := frame_target frame network sender type in
  if broadcast then Ok 0xffffffff
  else if (type =? 0x0800) && is_ipv4_scoped_multicast target && same_mac frame 0 (multicast_mac target)
  then Ok 0xffffffff
  else
    check! is_ipv4_host destination (va_subnet network) (va_prefix_length network) &&
           same_mac frame 0 (virtual_mac destination) && (destination =? target) else invalid_argument in
    Ok destination.

Definition encapsulate_ethernet (frame : bytes) (network : VirtualNetworkAddress) : result bytes :=
  let* _ := validate_network network in
  let* target := validate_frame frame network (va_address network) in
  let packet := replicate (ethernet_tunnel_header + length frame) x00 in
  let packet := <[0%nat := x45]> packet in
  let packet := put_at packet 2 (len packet) 2 in
  let packet := <[9%nat := x11]> (<[8%nat := x40]> (<[6%nat := x40]> packet)) in
  let packet := put_at (put_at packet 12 (va_address network) 4) 16 target 4 in
  let packet := put_at (put_at packet 20 tunnel_port 2) 22 tunnel_port 2 in
  let packet := put_at packet 24 (len packet - 20) 2 in
  let packet := <[31%nat := x01]> (<[30%nat := x32]> (<[29%nat := x4c]> (<[28%nat := x4c]> packet))) in
  let packet := take ethernet_tunnel_header packet ++ frame in
  update_ipv4_checksum packet.

Definition decapsulate_ethernet (packet : bytes) (network : VirtualNetworkAddress) : result bytes :=
  let* _ := validate_network network in
  check! negb ((len packet <? Z.of_nat ethernet_tunnel_header + 14) ||
    (len packet >? Z.of_nat ethernet_tunnel_header + ethernet_mtu + 14) ||
    negb (bool_decide (at_ packet 0 = x45)) || negb (bool_decide (at_ packet 9 = x11)) ||
    negb (Z.land (get_at 4 packet 6 2) 0x3fff =? 0) || negb (get_at 4 packet 20 2 =? tunnel_port) ||
    negb (get_at 4 packet 22 2 =? tunnel_port) || negb (get_at 4 packet 24 2 =? len packet - 20) ||
    negb (get_at 4 packet 26 2 =? 0) || negb (bool_decide (at_ packet 28 = x4c)) ||
    negb (bool_decide (at_ packet 29 = x4c)) || negb (bool_decide (at_ packet 30 = x32)) ||
    negb (bool_decide (at_ packet 31 = x01))) else invalid_argument in
  let* _ := inspect_ipv4 packet in
  let frame := drop ethernet_tunnel_header packet in
  let* target := validate_frame frame network (get_at 4 packet 12 4) in
  check! (get_at 4 packet 16 4 =? target) && ((target =? 0xffffffff) || (target =? va_address network))
    else invalid_argument in
  Ok frame.

(** ** The tunnel packet field by field *)

Definition tunnel_body (frame : bytes) : bytes :=
  put_be 2 tunnel_port ++ put_be 2 tunnel_port ++ put_be 2 (12 + len frame) ++ [x00; x00; x4c; x4c; x32; x01] ++ frame.

Definition tunnel_packet (source target ck : Z) (frame : bytes) : bytes :=
  ip_packet x45 x00 (32 + len frame) x00 x00 0x4000 x40 x11 ck (put_be 4 source ++ put_be 4 target) [] (tunnel_body frame).

Lemma tunnel_shape (source target total udp : Z) (n : nat) (frame : bytes) :
  let packet := <[0%nat := x45]> (replicate (ethernet_tunnel_header + n) x00) in
  let packet := put_at packet 2 total 2 in
  let packet := <[9%nat := x11]> (<[8%nat := x40]> (<[6%nat := x40]> packet)) in
  let packet := put_at (put_at packet 12 source 4) 16 target 4 in
  let packet := put_at (put_at packet 20 tunnel_port 2) 22 tunnel_port 2 in
  let packet := put_at packet 24 udp 2 in
  let packet := <[31%nat := x01]> (<[30%nat := x32]> (<[29%nat := x4c]> (<[28%nat := x4c]> packet))) in
  take ethernet_tunnel_header packet ++ frame =
  ip_packet x45 x00 total x00 x00 0x4000 x40 x11 0 (put_be 4 source ++ put_be 4 target) []
    (put_be 2 tunnel_port ++ put_be 2 tunnel_port ++ put_be 2 udp ++ [x00; x00; x4c; x4c; x32; x01] ++ frame).
Proof. reflexivity. Qed.

Lemma length_tunnel_body frame : len (tunnel_body frame) = 12 + len frame.
Proof. unfold tunnel_body. rewrite !len_app. change (len [_; _; _; _; _; _]) with 6. unfold len. rewrite !length_put_be. lia. Qed.

Lemma update_tunnel_packet source target frame :
  exists ck, update_ipv4_checksum (tunnel_packet source target 0 frame) = Ok (tunnel_packet source target ck frame) /\
    internet_checksum (take 20 (tunnel_packet source target ck frame)) = 0.
Proof.
  destruct (update_ipv4_checksum_spec (tunnel_packet source target 0 frame)) as (ck & U & C).
  { change (ihl _) with 20%nat. unfold tunnel_packet. rewrite length_ip_packet by done. lia. }
  by exists ck.
Qed.

(** Encapsulation validates the frame and wraps it. *)
Lemma encapsulate_ok frame a p :
  encapsulate_ethernet frame a = Ok p ->
  exists target ck, validate_network a = Ok tt /\ validate_frame frame a (va_address a) = Ok target /\
    p = tunnel_packet (va_address a) target ck frame /\ internet_checksum (take 20 p) = 0.
Proof.
  unfold encapsulate_ethernet. intros H.
  destruct (validate_network a) as [[]|] eqn:V; [|done]. destruct (validate_frame _ _ _) as [target|] eqn:F; [|done].
  cbv zeta in H. rewrite tunnel_shape in H.
  unfold len in H. rewrite ?length_insert, ?length_put_at, ?length_insert, ?length_put_at, ?length_insert, ?length_replicate in H.
  unfold ethernet_tunnel_header in H.
  replace (Z.of_nat (32 + length frame) - 20) with (12 + len frame) in H by (unfold len; lia).
  replace (Z.of_nat (32 + length frame)) with (32 + len frame) in H by (unfold len; lia).
  destruct (update_tunnel_packet (va_address a) target frame) as (ck & U & C).
  exists target, ck. unfold tunnel_packet, tunnel_body in U. rewrite U in H. apply Ok_inj in H as <-. done.
Qed.

Lemma validate_frame_ext frame a b sender :
  va_subnet a = va_subnet b -> va_prefix_length a = va_prefix_length b ->
  validate_frame frame a sender = validate_frame frame b sender.
Proof. intros H1 H2. unfold validate_frame, frame_target. by rewrite H1, H2. Qed.

(** What a validated frame proves about its sender and destination. *)
Definition frame_from (frame : bytes) (sender : Z) : Prop :=
  slice 6 6 frame = virtual_mac sender /\
  (get_at 4 frame 12 2 = 0x0806 /\ slice 22 6 frame = virtual_mac sender /\ get_at 4 frame 28 4 = sender \/
   get_at 4 frame 12 2 = 0x0800 /\
   exists inner, inspect_ipv4 (slice 14 (Z.to_nat (get_at 4 frame 16 2)) frame) = Ok inner /\ Ipv4.source inner = sender).

Lemma frame_target_inv frame net sender target :
  frame_target frame net sender (get_at 4 frame 12 2) = Ok target ->
  slice 6 6 frame = virtual_mac sender -> frame_from frame sender.
Proof.
  unfold frame_target, frame_from. intros H M. split; [done|].
  destruct (_ =? 0x0806) eqn:T1 in H; [|destruct (_ =? 0x0800) eqn:T2 in H; [|done]]; ok_inv H; bool_prop.
  - left. unfold same_mac in *. bool_prop. done.
  - right. split; [done|]. eexists. split; [eassumption|].
    apply inspect_ipv4_inv in E as (_ & _ & _ & -> & _). done.
Qed.

(** Whom a frame is for: everyone, when its destination is the broadcast address or that of the scoped multicast group its
    IPv4 packet is for; otherwise the one host that its Ethernet destination and its ARP target or IPv4 destination both name. *)
Definition protocol_destination (frame : bytes) (target : Z) : Prop :=
  get_at 4 frame 12 2 = 0x0806 /\ target = get_at 4 frame 38 4 \/
  get_at 4 frame 12 2 = 0x0800 /\
  exists inner, inspect_ipv4 (slice 14 (Z.to_nat (get_at 4 frame 16 2)) frame) = Ok inner /\ destination inner = target.
Inductive addressed (frame : bytes) (net : VirtualNetworkAddress) : Z -> Prop :=
| to_everyone : take 6 frame = replicate 6 xff -> addressed frame net 0xffffffff
| to_group group : get_at 4 frame 12 2 = 0x0800 -> protocol_destination frame group -> is_ipv4_scoped_multicast group = true ->
    take 6 frame = [x01; x00; x5e; z2b (Z.land (Z.shiftr group 16) 0x7f); z2b (Z.shiftr group 8); z2b group] -> addressed frame net 0xffffffff
| to_host host : is_ipv4_host host (va_subnet net) (va_prefix_length net) = true -> word 4 host -> take 6 frame = virtual_mac host ->
    protocol_destination frame host -> addressed frame net host.
Lemma frame_target_protocol frame net sender target :
  frame_target frame net sender (get_at 4 frame 12 2) = Ok target -> protocol_destination frame target.
Proof.
  unfold frame_target, protocol_destination. intros H.
  destruct (_ =? 0x0806) eqn:T1 in H; [|destruct (_ =? 0x0800) eqn:T2 in H; [|done]]; ok_inv H; bool_prop; [by left|]. right. split; [done|].
  eexists. split; [eassumption|]. apply inspect_ipv4_inv in E as (_ & _ & _ & _ & -> & _). done.
Qed.
Lemma broadcast_spec l : length l = 6%nat -> forallb (fun b => bool_decide (b = xff)) l = true -> l = replicate 6 xff.
Proof.
  intros L F. rewrite forallb_forall in F. rewrite <- L. clear L. induction l as [|b l IH]; [done|]. cbn. f_equal; [|apply IH; intros x Hx; apply F; by right].
  specialize (F b (or_introl eq_refl)). by bool_prop.
Qed.
Lemma addressed_target frame net target : addressed frame net target ->
  target = 0xffffffff \/
  is_ipv4_host target (va_subnet net) (va_prefix_length net) = true /\ word 4 target /\ take 6 frame = virtual_mac target.
Proof. intros [E|g _ _ _ _|h A B D _]; [by left|by left|by right]. Qed.

Lemma validate_frame_inv frame net sender target :
  validate_frame frame net sender = Ok target ->
  14 <= len frame <= ethernet_mtu + 14 /\ is_ipv4_host sender (va_subnet net) (va_prefix_length net) = true /\
  frame_from frame sender /\ addressed frame net target.
Proof.
  unfold validate_frame. intros H. ok_inv H. bool_prop. unfold same_mac in *. bool_prop.
  split; [lia|]. split; [done|]. split; [by eapply frame_target_inv|].
  match goal with E : frame_target _ _ _ _ = Ok _ |- _ => apply frame_target_protocol in E as Pd end.
  destruct (forallb _ _) eqn:B; [apply Ok_inj in H as <-; constructor; apply broadcast_spec; [rewrite length_take; unfold len in *; lia|done]|].
  destruct (_ && _ && _) eqn:M; [apply Ok_inj in H as <-; bool_prop; by eapply to_group|]. ok_inv H. bool_prop.
  subst target. apply to_host; try done.
  - rewrite get_at_slice by (unfold len in *; lia). apply word_slice. unfold len in *; lia.
  - congruence.
Qed.

(** The guards of [decapsulate_ethernet] on a packet [encapsulate_ethernet] built. *)
Lemma decapsulate_tunnel_packet source target ck frame net :
  let p := tunnel_packet source target ck frame in
  word 4 source -> word 4 target -> internet_checksum (take 20 p) = 0 ->
  validate_network net = Ok tt -> validate_frame frame net source = Ok target ->
  inspect_ipv4 p = Ok (mk_ipv4 20 source target 0 false true) /\
  decapsulate_ethernet p net =
    if (target =? 0xffffffff) || (target =? va_address net) then Ok frame else Throw invalid_argument.
Proof.
  intros p Ws Wt C N V. pose proof (length_tunnel_body frame) as Lb.
  destruct (validate_frame_inv _ _ _ _ V) as (Hl & _).
  assert (Lp : len p = 32 + len frame).
  { unfold p, tunnel_packet, len in *. rewrite length_ip_packet by done. cbn [length]. lia. }
  assert (I : inspect_ipv4 p = Ok (mk_ipv4 20 source target 0 false true)).
  { pose proof (inspect_plain_packet true x00 (32 + len frame) x00 x00 x40 x11 ck
      (put_be 4 source ++ put_be 4 target) (tunnel_body frame)) as P.
    change (take 4 (put_be 4 source ++ _)) with (put_be 4 source) in P.
    change (drop 4 (put_be 4 source ++ _)) with (put_be 4 target) in P.
    rewrite !be_value_put_word in P by done.
    apply P; try done; unfold ethernet_mtu in Hl; lia. }
  split; [done|].
  unfold decapsulate_ethernet. rewrite N, Lp, I. unfold ethernet_tunnel_header, ethernet_mtu in *.
  rewrite !get_at_slice by (unfold len in *; lia).
  change (slice 12 4 p) with (put_be 4 source). change (slice 16 4 p) with (put_be 4 target).
  change (slice 20 2 p) with (put_be 2 tunnel_port). change (slice 22 2 p) with (put_be 2 tunnel_port).
  change (slice 24 2 p) with (put_be 2 (12 + len frame)). change (slice 26 2 p) with [x00; x00].
  change (slice 6 2 p) with [x40; x00]. change (drop 32 p) with frame.
  rewrite !be_value_put_word by (done || (words; lia)). rewrite V, Z.eqb_refl.
  guard_true by (change (at_ p 0) with x45; change (at_ p 9) with x11; change (at_ p 28) with x4c;
    change (at_ p 29) with x4c; change (at_ p 30) with x32; change (at_ p 31) with x01;
    rewrite !bool_decide_eq_true_2 by done; cbn [negb]; rewrite !orb_false_r; apply negb_true_iff;
    rewrite !orb_false_iff, !negb_false_iff, Z.gtb_ltb, !Z.ltb_ge, Z.eqb_eq; change (Z.of_nat 32) with 32; split_and!; (done || lia)).
  by rewrite Z.eqb_refl.
Qed.

(** Ethernet tunnel round trip.  A frame that [encapsulate_ethernet] accepts on one
    adapter of a virtual subnet becomes a valid, unfragmentable IPv4 packet from that
    adapter's address to the address (or broadcast) the frame is for; any other adapter
    of the subnet unwraps it to the same frame exactly when it is the addressee or the
    frame is a broadcast, and refuses it otherwise. *)
Lemma ethernet_tunnel_unwraps (frame p : bytes) (a b : VirtualNetworkAddress) :
  word 4 (va_address a) -> va_subnet a = va_subnet b -> va_prefix_length a = va_prefix_length b ->
  validate_network b = Ok tt -> encapsulate_ethernet frame a = Ok p ->
  exists target, addressed frame a target /\
    inspect_ipv4 p = Ok (mk_ipv4 20 (va_address a) target 0 false true) /\
    decapsulate_ethernet p b =
      if (target =? 0xffffffff) || (target =? va_address b) then Ok frame else Throw invalid_argument.
Proof.
  intros Wa Es Ep Nb H. apply encapsulate_ok in H as (target & ck & _ & V & -> & C).
  destruct (validate_frame_inv _ _ _ _ V) as (_ & _ & _ & T).
  assert (Wt : word 4 target) by (destruct (addressed_target _ _ _ T) as [->|(_ & ? & _)]; [words; lia|done]).
  exists target. split; [done|]. apply decapsulate_tunnel_packet; try done.
  by rewrite <- (validate_frame_ext frame a b).
Qed.

(** No spoofing through the tunnel.  Whatever bytes arrive, a frame that
    [decapsulate_ethernet] delivers is the payload of a valid IPv4 packet whose source is
    a host of the virtual subnet, its Ethernet source and its ARP or inner IPv4 source
    are that very host, and the packet is for this adapter or a broadcast. *)
Lemma decapsulate_source (p frame : bytes) (net : VirtualNetworkAddress) :
  decapsulate_ethernet p net = Ok frame ->
  exists info, inspect_ipv4 p = Ok info /\ frame = drop ethernet_tunnel_header p /\
    is_ipv4_host (source info) (va_subnet net) (va_prefix_length net) = true /\
    frame_from frame (source info) /\ addressed frame net (destination info) /\
    (destination info = 0xffffffff \/ destination info = va_address net).
Proof.
  unfold decapsulate_ethernet. intros H. destruct (validate_network net) as [[]|]; [|done].
  destruct (negb _) eqn:G in H; [|done]. destruct (inspect_ipv4 p) as [info|] eqn:I; [|done].
  destruct (validate_frame _ _ _) as [target|] eqn:V; [|done]. ok_inv H. bool_prop.
  destruct (inspect_ipv4_inv _ _ I) as (_ & _ & _ & Es & Ed & _).
  apply validate_frame_inv in V as (_ & Hs & F & A). exists info. rewrite Es, Ed. subst target frame.
  split_and!; try done. match goal with O : _ || _ = true |- _ => destruct (orb_prop _ _ O); bool_prop; auto end.
Qed.

(** The Ethernet tunnel.  A frame that [encapsulate_ethernet] accepts on one adapter of a
    virtual subnet becomes a valid, unfragmentable IPv4 packet from that adapter's address to
    the address (or broadcast) the frame is for; any other adapter of the subnet unwraps it to
    the same frame exactly when it is the addressee or the frame is a broadcast, and refuses
    it otherwise.  And whatever bytes arrive, a frame that [decapsulate_ethernet] delivers is
    the payload of a valid IPv4 packet whose source is a host of the virtual subnet, its
    Ethernet source and its ARP or inner IPv4 source are that very host, and the packet is for
    this adapter or a broadcast. *)
Lemma ethernet_tunnel_exact (frame p : bytes) (a b : VirtualNetworkAddress) :
  (word 4 (va_address a) -> va_subnet a = va_subnet b -> va_prefix_length a = va_prefix_length b ->
   validate_network b = Ok tt -> encapsulate_ethernet frame a = Ok p ->
   exists target, addressed frame a target /\
     inspect_ipv4 p = Ok (mk_ipv4 20 (va_address a) target 0 false true) /\
     decapsulate_ethernet p b =
       if (target =? 0xffffffff) || (target =? va_address b) then Ok frame else Throw invalid_argument) /\
  (decapsulate_ethernet p b = Ok frame ->
   exists info, inspect_ipv4 p = Ok info /\ frame = drop ethernet_tunnel_header p /\
     is_ipv4_host (source info) (va_subnet b) (va_prefix_length b) = true /\
     frame_from frame (source info) /\ addressed frame b (destination info) /\
     (destination info = 0xffffffff \/ destination info = va_address b)).
Proof. split; [apply ethernet_tunnel_unwraps|apply decapsulate_source]. Qed.

(** An ARP request of 10.64.0.2 for 10.64.0.3, broadcast, and a unicast reply. *)
Definition net_a : VirtualNetworkAddress := mk_address [] 0x0a400002 0x0a400000 24.
Definition net_b : VirtualNetworkAddress := mk_address [] 0x0a400003 0x0a400000 24.
Definition arp_request : bytes :=
  replicate 6 xff ++ virtual_mac 0x0a400002 ++ [x08; x06; x00; x01; x08; x00; x06; x04; x00; x01] ++
  virtual_mac 0x0a400002 ++ put_be 4 0x0a400002 ++ replicate 6 x00 ++ put_be 4 0x0a400003.
Definition arp_tunnel : bytes :=
  match encapsulate_ethernet arp_request net_a with Ok p => p | Throw _ => [] end.
