(* ===== verification/RoutedNetwork.v ===== *)
(** * Routed subnets

    network/routed_network.cpp and session/network_state.hpp: which subnets behind
    gateways an adapter installs or forwards, and the IPv4-in-IPv4 tunnel to a gateway. *)
From S2P Require Import Ethernet Prelude Ipv4 NetworkPolicy NetworkMessages.

(** ** Snapshots *)

Record NetworkKeySnapshot := mk_key_snapshot { ks_epoch : Z; ks_key : bytes }.
#[global] Instance NetworkKeySnapshot_eq_dec : EqDecision NetworkKeySnapshot.
Proof. solve_decision. Defined.
Record PacketIdentitySnapshot := mk_identity { pi_device_id : bytes; pi_signed_key : SignedDeviceKey }.
Record ActiveNetworkPacketState := mk_active { active_peers : NetworkPeerState; active_key : NetworkKeySnapshot }.
Record NetworkSnapshot := mk_snapshot {
  identity : option PacketIdentitySnapshot; active_networks : list ActiveNetworkPacketState }.

Record AdapterRoute := mk_adapter_route { ar_network : bytes; ar_address : Z; ar_prefix : Z }.
Record AdapterForward := mk_adapter_forward { af_network : bytes; af_subnet : Z; af_prefix : Z; af_member : Z }.
Record RoutingConfiguration := mk_routing { cfg_routes : list AdapterRoute; cfg_forwards : list AdapterForward }.

Definition has_key (peer : NetworkPeer) : bool := match signed_key peer with Some _ => true | None => false end.

(** ** Configuration *)

Definition route_forwards (n : NetworkPeerState) (pol : NetworkPolicy) (route : RoutedSubnet) : list AdapterForward :=
  map (fun peer => mk_adapter_forward (state_network_id n) (address route) (prefix route) (ipv4_address peer))
    (List.filter (fun peer => has_key peer && route_allows pol route (peer_device_id peer)) (peers n)).

(** The body of the innermost loop. *)
Definition collect_route (own : bytes) (accept_routes forward : bool) (n : NetworkPeerState) (pol : NetworkPolicy)
    (route : RoutedSubnet) (acc : RoutingConfiguration) : result RoutingConfiguration :=
  if negb (private_routed_subnet (address route) (prefix route)) ||
     subnets_overlap (address route) (prefix route) 0x0a400000 10 then Throw invalid_argument
  else if bool_decide (gateway route = own) && forward then
    Ok (mk_routing (cfg_routes acc) (cfg_forwards acc ++ route_forwards n pol route))
  else if accept_routes && route_allows pol route own &&
          existsb (fun peer => bool_decide (peer_device_id peer = gateway route) && has_key peer) (peers n) then
    Ok (mk_routing (cfg_routes acc ++ [mk_adapter_route (state_network_id n) (address route) (prefix route)])
          (cfg_forwards acc))
  else Ok acc.

Definition collect_network (own : bytes) (accept_routes forward : bool) (n : ActiveNetworkPacketState)
    (acc : RoutingConfiguration) : result RoutingConfiguration :=
  match policy (active_peers n) with
  | None => Ok acc
  | Some pol => fold_result (collect_route own accept_routes forward (active_peers n) pol) (routes pol) acc
  end.

(** The second pass over the collected routes; [before] are those already checked. *)
Fixpoint check_routes (networks : list ActiveNetworkPacketState) (before l : list AdapterRoute) : result unit :=
  match l with
  | [] => Ok tt
  | r :: l =>
      check! private_routed_subnet (ar_address r) (ar_prefix r) else invalid_argument in
      check! negb (existsb (fun n => subnets_overlap (ar_address r) (ar_prefix r)
                     (subnet_address (active_peers n)) (prefix_length (active_peers n))) networks) else invalid_argument in
      check! negb (existsb (fun q => subnets_overlap (ar_address r) (ar_prefix r) (ar_address q) (ar_prefix q)) before)
        else invalid_argument in
      check_routes networks (before ++ [r]) l
  end.

Definition routing_configuration (snapshot : NetworkSnapshot) (accept_routes forward : bool) : result RoutingConfiguration :=
  match identity snapshot with
  | None => Ok (mk_routing [] [])
  | Some me =>
      let* cfg := fold_result (collect_network (pi_device_id me) accept_routes forward)
                    (active_networks snapshot) (mk_routing [] []) in
      check! negb (len (cfg_forwards cfg) >? 1024) else invalid_argument in
      let* _ := check_routes (active_networks snapshot) [] (cfg_routes cfg) in
      Ok cfg
  end.

(** ** The gateway tunnel *)

Definition safe_routed_ipv4 (packet : bytes) : result bool :=
  let* h := inspect_ipv4 packet in
  Ok (if negb (ip_header_size h =? 20) || (at_z packet 8 <=? 1) then false
      else if bool_decide (at_ packet 9 = x06) || bool_decide (at_ packet 9 = x11) then true
      else if negb (bool_decide (at_ packet 9 = x01)) || negb (fragment_offset h =? 0) || more_fragments h ||
              (len packet <? 28) then false
      else
        let type := at_z packet 20 in
        (type =? 0) || (type =? 3) || (type =? 8) || (type =? 11) || (type =? 12)).

Definition encapsulate_routed_ipv4 (inner : bytes) (src dst : Z) : result bytes :=
  let* _ := inspect_ipv4 inner in
  check! negb (len inner >? 65515) else length_error in
  let outer := <[0%nat := x45]> (replicate 20 x00) in
  let size := len inner + 20 in
  let outer := <[3%nat := z2b size]> (<[2%nat := z2b (Z.shiftr size 8)]> outer) in
  let outer := <[9%nat := x04]> (<[8%nat := x40]> outer) in
  let outer := foldl (fun o (i : nat) =>
      <[(16 + i)%nat := z2b (Z.shiftr dst (24 - Z.of_nat i * 8))]>
        (<[(12 + i)%nat := z2b (Z.shiftr src (24 - Z.of_nat i * 8))]> o)) outer (seq 0 4) in
  let* outer := update_ipv4_checksum outer in
  Ok (outer ++ inner).

Definition decapsulate_routed_ipv4 (outer : bytes) : result bytes :=
  let* h := inspect_ipv4 outer in
  check! negb (negb (bool_decide (at_ outer 9 = x04)) || negb (ip_header_size h =? 20) ||
               negb (fragment_offset h =? 0) || more_fragments h) else invalid_argument in
  let inner := drop 20 outer in
  let* _ := inspect_ipv4 inner in
  Ok inner.

(** ** The tunnel is transparent *)

Lemma routed_shape src dst total : word 2 total ->
  let outer := <[0%nat := x45]> (replicate 20 x00) in
  let outer := <[3%nat := z2b total]> (<[2%nat := z2b (Z.shiftr total 8)]> outer) in
  let outer := <[9%nat := x04]> (<[8%nat := x40]> outer) in
  foldl (fun o (i : nat) =>
      <[(16 + i)%nat := z2b (Z.shiftr dst (24 - Z.of_nat i * 8))]>
        (<[(12 + i)%nat := z2b (Z.shiftr src (24 - Z.of_nat i * 8))]> o)) outer (seq 0 4) =
  ip_packet x45 x00 total x00 x00 0 x40 x04 0 (put_be 4 src ++ put_be 4 dst) [] [].
Proof. intros W. reflexivity. Qed.

(** Gateway tunnel round trip.  Every valid inner packet that leaves room for the
    outer header is wrapped into a valid IPv4 packet from the given source to the given
    gateway, and unwrapping that packet returns the inner packet; a larger one is
    refused. *)
Lemma routed_tunnel_unwraps (inner : bytes) (info : Ipv4Header) (src dst : Z) :
  inspect_ipv4 inner = Ok info -> word 4 src -> word 4 dst ->
  match encapsulate_routed_ipv4 inner src dst with
  | Ok outer =>
      len inner <= 65515 /\ inspect_ipv4 outer = Ok (mk_ipv4 20 src dst 0 false false) /\
      decapsulate_routed_ipv4 outer = Ok inner
  | Throw e => 65515 < len inner /\ e = length_error
  end.
Proof.
  intros I Ws Wd. unfold encapsulate_routed_ipv4. rewrite I. destruct (len inner >? 65515) eqn:G; bool_prop; cbn [negb]; [done|].
  pose proof (len_nonneg inner). cbv zeta. rewrite routed_shape by (words; lia).
  set (addrs := put_be 4 src ++ put_be 4 dst).
  destruct (update_ipv4_checksum_spec (ip_packet x45 x00 (len inner + 20) x00 x00 0 x40 x04 0 addrs [] [])) as (ck & -> & C).
  { change (ihl _) with 20%nat. rewrite length_ip_packet by done. cbn [length]. lia. }
  change (take 10 _ ++ put_be 2 ck ++ drop 12 _) with (ip_packet x45 x00 (len inner + 20) x00 x00 0 x40 x04 ck addrs [] []) in *.
  change (ihl _) with 20%nat in C.
  change (ip_packet x45 x00 _ x00 x00 0 x40 x04 ck addrs [] [] ++ inner)
    with (ip_packet x45 x00 (len inner + 20) x00 x00 0 x40 x04 ck addrs [] inner).
  assert (J : inspect_ipv4 (ip_packet x45 x00 (len inner + 20) x00 x00 0 x40 x04 ck addrs [] inner) =
              Ok (mk_ipv4 20 src dst 0 false false)).
  { pose proof (inspect_plain_packet false x00 (len inner + 20) x00 x00 x40 x04 ck addrs inner) as P.
    change (take 4 addrs) with (put_be 4 src) in P. change (drop 4 addrs) with (put_be 4 dst) in P.
    rewrite !be_value_put_word in P by done. apply P; try done; lia. }
  split; [lia|]. split; [done|]. unfold decapsulate_routed_ipv4. rewrite J.
  change (drop 20 _) with inner. rewrite I. reflexivity.
Qed.

(** The inner packet of the sample. *)
Definition sample_inner : bytes := sample_packet.

(** ** What a configuration contains *)

(** [route] is a routed subnet of the policy of the active network [n]. *)
Definition offered_route (snapshot : NetworkSnapshot) (n : ActiveNetworkPacketState) (pol : NetworkPolicy)
    (route : RoutedSubnet) : Prop :=
  n ∈ active_networks snapshot /\ policy (active_peers n) = Some pol /\ route ∈ routes pol.

(** The forwards and the routes one routed subnet gives rise to. *)
Definition forwards_of (own : bytes) (forward : bool) (n : NetworkPeerState) (pol : NetworkPolicy)
    (route : RoutedSubnet) (f : AdapterForward) : Prop :=
  forward = true /\ gateway route = own /\
  exists peer, peer ∈ peers n /\ has_key peer = true /\ route_allows pol route (peer_device_id peer) = true /\
    f = mk_adapter_forward (state_network_id n) (address route) (prefix route) (ipv4_address peer).
Definition routes_of (own : bytes) (accept_routes : bool) (n : NetworkPeerState) (pol : NetworkPolicy)
    (route : RoutedSubnet) (q : AdapterRoute) : Prop :=
  accept_routes = true /\ route_allows pol route own = true /\
  (exists peer, peer ∈ peers n /\ peer_device_id peer = gateway route /\ has_key peer = true) /\
  q = mk_adapter_route (state_network_id n) (address route) (prefix route).

Lemma route_forwards_elem n pol route f :
  f ∈ route_forwards n pol route <->
  exists peer, peer ∈ peers n /\ has_key peer = true /\ route_allows pol route (peer_device_id peer) = true /\
    f = mk_adapter_forward (state_network_id n) (address route) (prefix route) (ipv4_address peer).
Proof.
  unfold route_forwards. rewrite list_elem_of_In, in_map_iff. setoid_rewrite List.filter_In.
  split.
  - intros (x & <- & I & KR). apply andb_true_iff in KR as [K R]. apply list_elem_of_In in I. by exists x.
  - intros (x & I & K & R & ->). apply list_elem_of_In in I. exists x. by rewrite K, R.
Qed.

(** A gateway is never its own client. *)
Lemma route_allows_not_gateway pol route d : route_allows pol route d = true -> gateway route <> d.
Proof.
  unfold route_allows. intros H E. rewrite E in H. apply andb_true_iff in H as [H _].
  apply andb_true_iff in H as [_ H]. unfold policy_allows in H. by rewrite bool_decide_eq_true_2 in H.
Qed.

Lemma gateway_online n route :
  existsb (fun peer => bool_decide (peer_device_id peer = gateway route) && has_key peer) (peers n) = true <->
  exists peer, peer ∈ peers n /\ peer_device_id peer = gateway route /\ has_key peer = true.
Proof.
  rewrite existsb_exists. setoid_rewrite andb_true_iff. setoid_rewrite bool_decide_eq_true. by setoid_rewrite list_elem_of_In.
Qed.

Lemma collect_route_spec own accept forward n pol route acc acc' :
  collect_route own accept forward n pol route acc = Ok acc' ->
  (private_routed_subnet (address route) (prefix route) = true /\
   subnets_overlap (address route) (prefix route) 0x0a400000 10 = false) /\
  (forall f, f ∈ cfg_forwards acc' <-> f ∈ cfg_forwards acc \/ forwards_of own forward n pol route f) /\
  (forall q, q ∈ cfg_routes acc' <-> q ∈ cfg_routes acc \/ routes_of own accept n pol route q).
Proof.
  unfold collect_route, forwards_of, routes_of. intros H. destruct (_ || _) eqn:G in H; [done|]. bool_prop.
  split; [done|]. destruct (_ && forward) eqn:F in H.
  - apply Ok_inj in H as <-. bool_prop. subst forward. cbn [cfg_forwards cfg_routes].
    setoid_rewrite elem_of_app. setoid_rewrite route_forwards_elem. split; [naive_solver|].
    intros q. split; [auto|]. intros [?|(_ & A & _)]; [done|]. by apply route_allows_not_gateway in A.
  - assert (NF : ~ (forward = true /\ gateway route = own)).
    { intros [-> E]. by rewrite bool_decide_eq_true_2 in F. }
    destruct (_ && _ && _) eqn:K in H; apply Ok_inj in H as <-; cbn [cfg_forwards cfg_routes].
    + apply andb_true_iff in K as [K O]. apply andb_true_iff in K as [A R]. apply gateway_online in O. setoid_rewrite elem_of_app. setoid_rewrite list_elem_of_singleton.
      split; [naive_solver|]. intros q. naive_solver.
    + split; [naive_solver|]. intros q. split; [auto|]. intros [?|(A & R & O & _)]; [done|].
      apply gateway_online in O. rewrite A, R, O in K. done.
Qed.

Lemma collect_network_spec own accept forward n acc acc' :
  collect_network own accept forward n acc = Ok acc' ->
  (forall pol route, policy (active_peers n) = Some pol -> route ∈ routes pol ->
     private_routed_subnet (address route) (prefix route) = true /\
     subnets_overlap (address route) (prefix route) 0x0a400000 10 = false) /\
  (forall f, f ∈ cfg_forwards acc' <-> f ∈ cfg_forwards acc \/
     exists pol route, policy (active_peers n) = Some pol /\ route ∈ routes pol /\
       forwards_of own forward (active_peers n) pol route f) /\
  (forall q, q ∈ cfg_routes acc' <-> q ∈ cfg_routes acc \/
     exists pol route, policy (active_peers n) = Some pol /\ route ∈ routes pol /\
       routes_of own accept (active_peers n) pol route q).
Proof.
  unfold collect_network. intros H. destruct (policy (active_peers n)) as [pol|].
  - split; [|split].
    + intros ? route [= <-]. revert route.
      refine (fold_result_checked _ _ _ _ _ _ H). intros x a a' E. by apply collect_route_spec in E as [? _].
    + intros f. rewrite (fold_result_collects _ (fun c y => y ∈ cfg_forwards c) _ _
        (fun x a a' E => proj1 (proj2 (collect_route_spec _ _ _ _ _ _ _ _ E))) _ _ H). naive_solver.
    + intros q. rewrite (fold_result_collects _ (fun c y => y ∈ cfg_routes c) _ _
        (fun x a a' E => proj2 (proj2 (collect_route_spec _ _ _ _ _ _ _ _ E))) _ _ H). naive_solver.
  - apply Ok_inj in H as <-. naive_solver.
Qed.

Lemma check_routes_spec networks l : forall before,
  check_routes networks before l = Ok tt -> forall i r, l !! i = Some r ->
  private_routed_subnet (ar_address r) (ar_prefix r) = true /\
  (forall n, n ∈ networks -> subnets_overlap (ar_address r) (ar_prefix r)
     (subnet_address (active_peers n)) (prefix_length (active_peers n)) = false) /\
  (forall q, q ∈ before -> subnets_overlap (ar_address r) (ar_prefix r) (ar_address q) (ar_prefix q) = false) /\
  (forall j q, l !! j = Some q -> (j < i)%nat ->
     subnets_overlap (ar_address r) (ar_prefix r) (ar_address q) (ar_prefix q) = false).
Proof.
  induction l as [|x l IH]; intros before H i r Hi; [done|]. cbn in H. ok_inv H. bool_prop.
  destruct i as [|i].
  - injection Hi as ->. split; [done|]. split; [|split; [|lia]].
    + intros n Hn. apply not_true_iff_false. intros O.
      assert (X : existsb (fun n => subnets_overlap (ar_address r) (ar_prefix r)
        (subnet_address (active_peers n)) (prefix_length (active_peers n))) networks = true)
        by (apply existsb_exists; exists n; split; [by apply list_elem_of_In|done]). congruence.
    + intros q Hq. apply not_true_iff_false. intros O.
      assert (X : existsb (fun q => subnets_overlap (ar_address r) (ar_prefix r) (ar_address q) (ar_prefix q)) before = true)
        by (apply existsb_exists; exists q; split; [by apply list_elem_of_In|done]). congruence.
  - destruct (IH _ H i r Hi) as (P & N & B & L). split; [done|]. split; [done|]. split.
    + intros q Hq. apply B, elem_of_app. by left.
    + intros [|j] q Hj Hlt; [|by apply (L j); [done|lia]]. injection Hj as ->.
      apply B, elem_of_app. right. by apply list_elem_of_singleton.
Qed.

(** Two subnets that share an address overlap. *)
Lemma common_address_overlaps a ap b bp x :
  word 4 x -> subnet_contains a ap x = true -> subnet_contains b bp x = true -> subnets_overlap a ap b bp = true.
Proof.
  assert (S : forall s p, word 4 x -> subnet_contains s p x = true -> word 4 s /\ subnet_contains s p s = true).
  { intros s p Hx H. apply subnet_contains_spec in H as [Hp <-]; [|done].
    assert (0 < 2 ^ (32 - p)) by (apply Z.pow_pos_nonneg; lia).
    assert (W : word 4 (x / 2 ^ (32 - p) * 2 ^ (32 - p))).
    { pose proof (Z.div_mod x (2 ^ (32 - p))). pose proof (Z.mod_pos_bound x (2 ^ (32 - p))).
      pose proof (Z.div_pos x (2 ^ (32 - p))). words. nia. }
    split; [done|]. apply subnet_contains_spec; [done|]. split; [done|]. by rewrite Z.div_mul by lia. }
  intros Hx Ha Hb. destruct (S _ _ Hx Ha). destruct (S _ _ Hx Hb). apply subnets_overlap_spec; eauto.
Qed.

(** The routing configuration of an adapter.  It holds exactly the forwards and the
    routes the policies of the active networks allow: a forward for each keyed peer that
    may use a subnet this device is gateway of, a route for each subnet this device may
    use whose gateway is online.  No address is covered by two routes, none of the
    routes covers an address of an active overlay subnet or of the overlay pool, and all
    lie in private ranges. *)
Lemma routing_configuration_spec (snapshot : NetworkSnapshot) (me : PacketIdentitySnapshot)
    (accept_routes forward : bool) (cfg : RoutingConfiguration) :
  identity snapshot = Some me -> routing_configuration snapshot accept_routes forward = Ok cfg ->
  (forall f, f ∈ cfg_forwards cfg <-> exists n pol route, offered_route snapshot n pol route /\
     forwards_of (pi_device_id me) forward (active_peers n) pol route f) /\
  (forall q, q ∈ cfg_routes cfg <-> exists n pol route, offered_route snapshot n pol route /\
     routes_of (pi_device_id me) accept_routes (active_peers n) pol route q) /\
  (forall x i q, word 4 x -> cfg_routes cfg !! i = Some q -> subnet_contains (ar_address q) (ar_prefix q) x = true ->
     subnet_contains 0x0a400000 10 x = false /\
     (forall n, n ∈ active_networks snapshot ->
        subnet_contains (subnet_address (active_peers n)) (prefix_length (active_peers n)) x = false) /\
     (forall j q', cfg_routes cfg !! j = Some q' -> subnet_contains (ar_address q') (ar_prefix q') x = true -> i = j)).
Proof.
  intros Hid H. unfold routing_configuration in H. rewrite Hid in H.
  destruct (fold_result _ _ _) as [c|] eqn:F; [|done]. destruct (negb _); [|done].
  destruct (check_routes _ _ _) as [[]|] eqn:K; [|done]. apply Ok_inj in H as <-.
  assert (Hr : forall q, q ∈ cfg_routes c <-> exists n pol route, offered_route snapshot n pol route /\
     routes_of (pi_device_id me) accept_routes (active_peers n) pol route q).
  { intros q. rewrite (fold_result_collects _ (fun c y => y ∈ cfg_routes c) _ _
      (fun x a a' E => proj2 (proj2 (collect_network_spec _ _ _ _ _ _ E))) _ _ F). cbn [cfg_routes].
    unfold offered_route. split; [intros [N|?]; [by apply not_elem_of_nil in N|]|]; naive_solver. }
  split; [|split; [done|]].
  - intros f. rewrite (fold_result_collects _ (fun c y => y ∈ cfg_forwards c) _ _
      (fun x a a' E => proj1 (proj2 (collect_network_spec _ _ _ _ _ _ E))) _ _ F). cbn [cfg_forwards].
    unfold offered_route. split; [intros [N|?]; [by apply not_elem_of_nil in N|]|]; naive_solver.
  - intros x i q Hx Hi C. pose proof (check_routes_spec _ _ _ K) as S. destruct (S _ _ Hi) as (_ & N & _ & L).
    split; [|split].
    + apply not_true_iff_false. intros O.
      apply list_elem_of_lookup_2, Hr in Hi as (n & pol & route & (In & Ip & Ir) & _ & _ & _ & ->).
      pose proof (fold_result_checked _ _ _ (fun x a a' E => proj1 (collect_network_spec _ _ _ _ _ _ E)) _ _ F n In pol route Ip Ir)
        as [_ Z0]. cbn [ar_address ar_prefix] in C. by rewrite (common_address_overlaps _ _ _ _ x) in Z0.
    + intros n Hn. apply not_true_iff_false. intros O. specialize (N n Hn).
      by rewrite (common_address_overlaps _ _ _ _ x) in N.
    + intros j q' Hj C'. destruct (Nat.lt_trichotomy i j) as [Lt|[Lt|Lt]]; [|done|]; exfalso.
      * destruct (S _ _ Hj) as (_ & _ & _ & L'). specialize (L' _ _ Hi Lt).
        by rewrite (common_address_overlaps _ _ _ _ x) in L'.
      * specialize (L _ _ Hj Lt). by rewrite (common_address_overlaps _ _ _ _ x) in L.
Qed.

(** Bob is the approved gateway of 192.168.1.0/24 in a managed network with Alice. *)
Definition route_alice : bytes := replicate 32 x05.
Definition route_bob : bytes := replicate 32 x06.
Definition sample_key : SignedDeviceKey := mk_signed_key [] [] [] [] [].
Definition sample_policy : NetworkPolicy :=
  mk_policy 1 true mesh [] [mk_rule (mk_subject zero_device []) (mk_subject zero_device []) true] [] []
    [mk_gateway route_bob true] [mk_route route_bob 0xc0a80100 24 []].
Definition sample_snapshot : NetworkSnapshot :=
  mk_snapshot (Some (mk_identity route_alice sample_key))
    [mk_active (mk_peer_state (replicate 16 x01) 1 0x0a400000 24 0x0a400002
       [mk_peer route_bob 0x0a400003 (Some sample_key)] route_alice 1 (Some sample_policy)) (mk_key_snapshot 1 [])].
Definition sample_routing : RoutingConfiguration :=
  mk_routing [mk_adapter_route (replicate 16 x01) 0xc0a80100 24] [].

(** Routed subnets.  The configuration of an adapter holds exactly the forwards and the routes the
    policies of the active networks allow: a forward for each keyed peer that may use a subnet this
    device is gateway of, a route for each subnet this device may use whose gateway is online; no
    address is covered by two routes, and none of the routes covers an address of an active overlay
    subnet or of the overlay pool.  A valid inner packet that leaves room for the outer header is
    wrapped into a valid IPv4 packet from the given source to the given gateway, and unwrapping it
    returns the inner packet; a larger one is refused. *)
Lemma routing_configuration_exact (snapshot : NetworkSnapshot) (me : PacketIdentitySnapshot)
    (accept_routes forward : bool) (cfg : RoutingConfiguration) (inner : bytes) (info : Ipv4Header) (src dst : Z) :
  (identity snapshot = Some me -> routing_configuration snapshot accept_routes forward = Ok cfg ->
   (forall f, f ∈ cfg_forwards cfg <-> exists n pol route, offered_route snapshot n pol route /\
      forwards_of (pi_device_id me) forward (active_peers n) pol route f) /\
   (forall q, q ∈ cfg_routes cfg <-> exists n pol route, offered_route snapshot n pol route /\
      routes_of (pi_device_id me) accept_routes (active_peers n) pol route q) /\
   (forall x i q, word 4 x -> cfg_routes cfg !! i = Some q -> subnet_contains (ar_address q) (ar_prefix q) x = true ->
      subnet_contains 0x0a400000 10 x = false /\
      (forall n, n ∈ active_networks snapshot ->
         subnet_contains (subnet_address (active_peers n)) (prefix_length (active_peers n)) x = false) /\
      (forall j q', cfg_routes cfg !! j = Some q' -> subnet_contains (ar_address q') (ar_prefix q') x = true -> i = j))) /\
  (inspect_ipv4 inner = Ok info -> word 4 src -> word 4 dst ->
   match encapsulate_routed_ipv4 inner src dst with
   | Ok outer =>
       len inner <= 65515 /\ inspect_ipv4 outer = Ok (mk_ipv4 20 src dst 0 false false) /\
       decapsulate_routed_ipv4 outer = Ok inner
   | Throw e => 65515 < len inner /\ e = length_error
   end).
Proof. split; [apply routing_configuration_spec|apply routed_tunnel_unwraps]. Qed.

(** C32: The tunnels are exact.  An Ethernet frame that is accepted on one adapter of a virtual subnet becomes a
    valid, unfragmentable IPv4 packet from that adapter's address to whom the frame is for ([addressed]): 255.255.255.255 when
    its Ethernet destination is the broadcast address or the one of the scoped multicast group its IPv4 packet is for, and
    otherwise the one host that its Ethernet destination and its ARP target or IPv4 destination both name;
    any other adapter of the subnet unwraps it to the same frame exactly when it is the addressee or the frame is
    for everyone, and refuses it otherwise.  Whatever bytes arrive, a frame that is delivered is the payload of
    a valid IPv4 packet whose source is a host of the virtual subnet, its Ethernet source and its ARP or inner IPv4
    source are that very host, and the packet is for whom the frame is, this adapter or everyone.  The routing configuration
    of an adapter holds exactly the forwards and the routes the policies of the active networks allow: a forward
    for each keyed peer that may use a subnet this device is gateway of, a route for each subnet this device may
    use whose gateway is online; no address is covered by two routes, and none of the routes covers an address
    of an active overlay subnet or of the overlay pool.  A valid inner packet that leaves room for the outer
    header is wrapped into a valid IPv4 packet from the given source to the given gateway, and unwrapping it
    returns the inner packet; a larger one is refused. *)
Theorem tunnels_exact (frame p : bytes) (a b : VirtualNetworkAddress)
    (snapshot : NetworkSnapshot) (me : PacketIdentitySnapshot)
    (accept_routes forward : bool) (cfg : RoutingConfiguration) (inner : bytes) (info : Ipv4Header) (src dst : Z) :
  (word 4 (va_address a) -> va_subnet a = va_subnet b -> va_prefix_length a = va_prefix_length b ->
   validate_network b = Ok tt -> encapsulate_ethernet frame a = Ok p ->
   exists target, addressed frame a target /\
     inspect_ipv4 p = Ok (mk_ipv4 20 (va_address a) target 0 false true) /\
     decapsulate_ethernet p b =
       if (target =? 0xffffffff) || (target =? va_address b) then Ok frame else Throw invalid_argument) /\
  (decapsulate_ethernet p b = Ok frame ->
   exists info, inspect_ipv4 p = Ok info /\ frame = drop ethernet_tunnel_header p /\
     is_ipv4_host (source info) (va_subnet b) (va_prefix_length b) = true /\
     frame_from frame (source info) /\ addressed frame b (destination info) /\
     (destination info = 0xffffffff \/ destination info = va_address b)) /\
  (identity snapshot = Some me -> routing_configuration snapshot accept_routes forward = Ok cfg ->
   (forall f, f ∈ cfg_forwards cfg <-> exists n pol route, offered_route snapshot n pol route /\
      forwards_of (pi_device_id me) forward (active_peers n) pol route f) /\
   (forall q, q ∈ cfg_routes cfg <-> exists n pol route, offered_route snapshot n pol route /\
      routes_of (pi_device_id me) accept_routes (active_peers n) pol route q) /\
   (forall x i q, word 4 x -> cfg_routes cfg !! i = Some q -> subnet_contains (ar_address q) (ar_prefix q) x = true ->
      subnet_contains 0x0a400000 10 x = false /\
      (forall n, n ∈ active_networks snapshot ->
         subnet_contains (subnet_address (active_peers n)) (prefix_length (active_peers n)) x = false) /\
      (forall j q', cfg_routes cfg !! j = Some q' -> subnet_contains (ar_address q') (ar_prefix q') x = true -> i = j))) /\
  (inspect_ipv4 inner = Ok info -> word 4 src -> word 4 dst ->
   match encapsulate_routed_ipv4 inner src dst with
   | Ok outer =>
       len inner <= 65515 /\ inspect_ipv4 outer = Ok (mk_ipv4 20 src dst 0 false false) /\
       decapsulate_routed_ipv4 outer = Ok inner
   | Throw e => 65515 < len inner /\ e = length_error
   end).
Proof.
  destruct (ethernet_tunnel_exact frame p a b) as [E1 E2].
  destruct (routing_configuration_exact snapshot me accept_routes forward cfg inner info src dst) as [R1 R2]. split_and!; done.
Qed.

Lemma tunnels_exact_witness :
  (exists target, addressed arp_request net_a target /\
    inspect_ipv4 arp_tunnel = Ok (mk_ipv4 20 0x0a400002 target 0 false true) /\
    decapsulate_ethernet arp_tunnel net_b =
      if (target =? 0xffffffff) || (target =? 0x0a400003) then Ok arp_request else Throw invalid_argument) /\
  (exists info, inspect_ipv4 arp_tunnel = Ok info /\ frame_from arp_request (source info)) /\
  subnet_contains 0x0a400000 10 0xc0a80105 = false /\
  match encapsulate_routed_ipv4 sample_inner 0x0a400002 0x0a400003 with
  | Ok outer => decapsulate_routed_ipv4 outer = Ok sample_inner
  | Throw e => e = length_error
  end.
Proof.
  destruct (tunnels_exact arp_request arp_tunnel net_a net_b sample_snapshot (mk_identity route_alice sample_key) true false sample_routing
    sample_inner (mk_ipv4 24 0x0a000001 0x0a000002 0 false false) 0x0a400002 0x0a400003) as (W & U & R & T). split_and!.
  - apply W; [vm_compute; split; congruence|reflexivity|reflexivity|vm_compute; reflexivity..].
  - destruct U as (info & I & _ & _ & F & _); [vm_compute; reflexivity|]. exact (ex_intro _ info (conj I F)).
  - destruct (R ltac:(reflexivity) ltac:(vm_compute; reflexivity)) as (_ & _ & S).
    exact (proj1 (S 0xc0a80105 0%nat _ ltac:(vm_compute; split; congruence) eq_refl ltac:(vm_compute; reflexivity))).
  - specialize (T ltac:(vm_compute; reflexivity) ltac:(vm_compute; split; congruence) ltac:(vm_compute; split; congruence)).
    destruct (encapsulate_routed_ipv4 _ _ _); apply T.
Defined.
