(* ===== verification/Multicast.v ===== *)
(** * Multicast membership

    network/multicast.cpp: the groups the local host listens to, learned from its IGMP
    reports or from the operating system, with source filters and expiry.  Time points
    are nanoseconds. *)
From S2P Require Import Prelude Ipv4.

Definition seconds (n : Z) : Z := n * 1000000000.

Inductive Report := not_igmp | accepted | rejected.

Record Group := mk_group { exclude : bool; sources : gset Z; updated : Z }.
Record MulticastMembership := mk_membership { groups_ : gmap Z Group; host_groups_ : option (gset Z) }.

#[global] Instance Report_eq_dec : EqDecision Report.
Proof. solve_decision. Defined.

Definition empty_membership : MulticastMembership := mk_membership ∅ None.

(** The ones'-complement sum is all ones. *)
Definition checksum (bs : bytes) : bool := fold_carries 3 (sum_words 0 bs) =? 0xffff.

(** The source addresses of a record; [None] is a rejected report. *)
Fixpoint read_sources (payload : bytes) (offset : nat) (n : nat) (addresses : gset Z) : option (gset Z) :=
  match n with
  | O => Some addresses
  | S n =>
      let address := get_at 4 payload offset 4 in
      if (address =? 0) || (address >=? 0xe0000000) then None
      else read_sources payload (offset + 4) n ({[address]} ∪ addresses)
  end.

(** The group entry after one record. *)
Definition apply_record (record : Z) (addresses : gset Z) (entry : Group) : Group :=
  if record <=? 4 then mk_group ((record =? 2) || (record =? 4)) addresses (updated entry)
  else if negb (Bool.eqb (record =? 5) (exclude entry))
  then mk_group (exclude entry) (addresses ∪ sources entry) (updated entry)
  else mk_group (exclude entry) (sources entry ∖ addresses) (updated entry).

(** The loop over the group records of an IGMPv3 report. *)
Fixpoint read_records (n : nat) (payload : bytes) (now : Z) (offset : nat) (groups : gmap Z Group)
    : option (nat * gmap Z Group) :=
  match n with
  | O => Some (offset, groups)
  | S n =>
      if len payload - Z.of_nat offset <? 8 then None
      else
        let record := get_at 4 payload offset 1 in
        let auxiliary := get_at 4 payload (offset + 1) 1 * 4 in
        let count := get_at 4 payload (offset + 2) 2 in
        let group := get_at 4 payload (offset + 4) 4 in
        if (record <? 1) || (record >? 6) || (count >? 64) || negb (is_ipv4_scoped_multicast group) ||
           (8 + count * 4 + auxiliary >? len payload - Z.of_nat offset) then None
        else
          match read_sources payload (offset + 8) (Z.to_nat count) ∅ with
          | None => None
          | Some addresses =>
              let entry := apply_record record addresses (default (mk_group false ∅ 0) (groups !! group)) in
              if Z.of_nat (size (sources entry)) >? 64 then None
              else read_records n payload now (offset + Z.to_nat (8 + count * 4 + auxiliary))
                     (<[group := mk_group (exclude entry) (sources entry) now]> groups)
          end
  end.

(** The groups after a report; [None] is a rejected report. *)
Definition report_groups (payload : bytes) (destination now : Z) (groups : gmap Z Group) : option (gmap Z Group) :=
  let type := at_z payload 0 in
  if (type =? 0x12) || (type =? 0x16) || (type =? 0x17) then
    let group := get_at 4 payload 4 4 in
    if negb (len payload =? 8) || negb (is_ipv4_scoped_multicast group) ||
       negb (destination =? (if type =? 0x17 then 0xe0000002 else group)) then None
    else Some (<[group := mk_group (negb (type =? 0x17)) ∅ now]> groups)
  else if type =? 0x22 then
    let count := get_at 4 payload 6 2 in
    if negb (destination =? 0xe0000016) || (count >? 64) then None
    else
      match read_records (Z.to_nat count) payload now 8 groups with
      | Some (offset, groups) => if Z.of_nat offset =? len payload then Some groups else None
      | None => None
      end
  else None.

(** [std::erase_if] of the entries older than 260 seconds. *)
Definition live_groups (now : Z) (groups : gmap Z Group) : gmap Z Group :=
  filter (fun e : Z * Group => now - updated (snd e) <= seconds 260) groups.

Definition observe (m : MulticastMembership) (ipv4 : bytes) (now : Z) : Report * MulticastMembership :=
  if (len ipv4 <? 20) || negb (bool_decide (at_ ipv4 9 = x02)) then (not_igmp, m)
  else
    let header := ihl ipv4 in
    if negb (Z.shiftr (at_z ipv4 0) 4 =? 4) || (Z.of_nat header <? 20) || (Z.of_nat header >? len ipv4) ||
       negb (get_at 4 ipv4 2 2 =? len ipv4) || negb (Z.land (get_at 4 ipv4 6 2) 0x3fff =? 0) ||
       negb (bool_decide (at_ ipv4 8 = x01)) then (rejected, m)
    else
      let payload := drop header ipv4 in
      if (len payload <? 8) || negb (checksum payload) then (rejected, m)
      else
        match report_groups payload (get_at 4 ipv4 16 4) now (live_groups now (groups_ m)) with
        | None => (rejected, m)
        | Some groups =>
            if Z.of_nat (size groups) >? 64 then (rejected, m)
            else (accepted, mk_membership groups (host_groups_ m))
        end.

Definition receives (m : MulticastMembership) (group source now : Z) : bool :=
  if negb (is_ipv4_scoped_multicast group) then false
  else
    match host_groups_ m with
    | Some hosts => bool_decide (group ∈ hosts)
    | None =>
        match groups_ m !! group with
        | Some entry =>
            if now - updated entry <=? seconds 260
            then negb (Bool.eqb (exclude entry) (bool_decide (source ∈ sources entry)))
            else (group =? 0xe00000fb) || (group =? 0xeffffffa)
        | None => (group =? 0xe00000fb) || (group =? 0xeffffffa)
        end
    end.

Definition synchronize (m : MulticastMembership) (host_groups : option (list Z)) : MulticastMembership :=
  mk_membership (groups_ m)
    (match host_groups with
     | None => None
     | Some l => Some (foldl (fun hosts group =>
         if is_ipv4_scoped_multicast group && (Z.of_nat (size hosts) <? 256) then {[group]} ∪ hosts else hosts) ∅ l)
     end).

(** ** The source filters of RFC 3376 *)

(** Which sources of which groups are wanted. *)
Definition filter_state := Z -> Z -> bool.

Record IgmpRecord := mk_record { r_type : Z; r_group : Z; r_sources : list Z; r_size : nat }.

Definition record_at (payload : bytes) (offset : nat) : IgmpRecord :=
  let count := Z.to_nat (get_at 4 payload (offset + 2) 2) in
  mk_record (get_at 4 payload offset 1) (get_at 4 payload (offset + 4) 4)
    (map (fun i => get_at 4 payload (offset + 8 + 4 * i) 4) (seq 0 count))
    (8 + 4 * count + 4 * Z.to_nat (get_at 4 payload (offset + 1) 1)).

Fixpoint records_at (n : nat) (payload : bytes) (offset : nat) : list IgmpRecord :=
  match n with
  | O => []
  | S n => let r := record_at payload offset in r :: records_at n payload (offset + r_size r)
  end.

(** IS_IN and TO_IN want exactly the listed sources, IS_EX and TO_EX all others; ALLOW adds
    the listed sources to the wanted ones and BLOCK removes them. *)
Definition filter_record (f : filter_state) (r : IgmpRecord) : filter_state := fun g s =>
  if g =? r_group r then
    let listed := bool_decide (s ∈ r_sources r) in
    if (r_type r =? 1) || (r_type r =? 3) then listed
    else if (r_type r =? 2) || (r_type r =? 4) then negb listed
    else if r_type r =? 5 then f g s || listed
    else f g s && negb listed
  else f g s.

Definition wanted (groups : gmap Z Group) : filter_state := fun g s =>
  match groups !! g with
  | Some e => negb (Bool.eqb (exclude e) (bool_decide (s ∈ sources e)))
  | None => false
  end.

(** ** Reports implement the filters *)

#[global] Instance filter_record_proper :
  Proper (pointwise_relation Z (pointwise_relation Z eq) ==> eq ==> pointwise_relation Z (pointwise_relation Z eq)) filter_record.
Proof. intros f f' E r _ <- g s. unfold filter_record. by rewrite (E g s). Qed.

Lemma foldl_filter_ext l (f f' : filter_state) :
  (forall g s, f g s = f' g s) -> forall g s, foldl filter_record f l g s = foldl filter_record f' l g s.
Proof.
  revert f f'. induction l as [|r l IH]; intros f f' E; [done|]. cbn [foldl]. apply IH.
  intros g s. by apply filter_record_proper.
Qed.

Lemma read_sources_spec payload n : forall offset acc S,
  read_sources payload offset n acc = Some S ->
  forall s, s ∈ S <-> s ∈ acc \/ s ∈ map (fun i => get_at 4 payload (offset + 4 * i) 4) (seq 0 n).
Proof.
  induction n as [|n IH]; intros offset acc S H s; cbn [read_sources] in H.
  - injection H as <-. cbn. rewrite elem_of_nil. tauto.
  - destruct (_ || _) in H; [done|]. rewrite (IH _ _ _ H s). cbn [seq map]. rewrite Nat.mul_0_r, Nat.add_0_r, elem_of_cons.
    rewrite <- seq_shift, map_map.
    rewrite (map_ext (fun i => get_at 4 payload (offset + 4 * Datatypes.S i) 4) (fun i => get_at 4 payload (offset + 4 + 4 * i) 4))
      by (intros i; f_equal; lia).
    rewrite elem_of_union, elem_of_singleton. tauto.
Qed.

(** An entry, filtered by one record, wants what the record's semantics says. *)
Lemma apply_record_filter record addresses (l : list Z) e s :
  1 <= record <= 6 -> (s ∈ addresses <-> s ∈ l) ->
  let e' := apply_record record addresses e in
  negb (Bool.eqb (exclude e') (bool_decide (s ∈ sources e'))) =
  let f := negb (Bool.eqb (exclude e) (bool_decide (s ∈ sources e))) in
  let listed := bool_decide (s ∈ l) in
  if (record =? 1) || (record =? 3) then listed
  else if (record =? 2) || (record =? 4) then negb listed
  else if record =? 5 then f || listed else f && negb listed.
Proof.
  intros R E. rewrite <- (bool_decide_ext _ _ E). clear E. unfold apply_record.
  assert (C : record = 1 \/ record = 2 \/ record = 3 \/ record = 4 \/ record = 5 \/ record = 6) by lia.
  decompose [or] C; subst record; cbn [Z.leb Z.compare Pos.compare Pos.compare_cont Z.eqb Pos.eqb orb exclude sources];
    destruct (exclude e); cbn [Bool.eqb negb exclude sources];
    rewrite ?(bool_decide_ext _ _ (elem_of_union addresses (sources e) s)),
            ?(bool_decide_ext _ _ (elem_of_difference (sources e) addresses s)), ?bool_decide_or, ?bool_decide_and, ?bool_decide_not;
    by destruct (bool_decide (s ∈ addresses)), (bool_decide (s ∈ sources e)).
Qed.

(** The entries a report may leave: live old ones or new ones within bounds. *)
Definition entry_ok (g : Z) (e : Group) : Prop :=
  is_ipv4_scoped_multicast g = true /\ (size (sources e) <= 64)%nat.

Lemma wanted_insert groups g0 e g s :
  wanted (<[g0 := e]> groups) g s =
  if g =? g0 then negb (Bool.eqb (exclude e) (bool_decide (s ∈ sources e))) else wanted groups g s.
Proof.
  unfold wanted. destruct (Z.eqb_spec g g0) as [->|N]; [by rewrite lookup_insert_eq|by rewrite lookup_insert_ne].
Qed.

Lemma wanted_default groups g s :
  negb (Bool.eqb (exclude (default (mk_group false ∅ 0) (groups !! g)))
         (bool_decide (s ∈ sources (default (mk_group false ∅ 0) (groups !! g))))) = wanted groups g s.
Proof. unfold wanted. destruct (groups !! g); [done|]. cbn. by rewrite bool_decide_eq_false_2 by set_solver. Qed.

Lemma read_records_spec payload now n : forall offset groups offset' groups',
  read_records n payload now offset groups = Some (offset', groups') ->
  map_Forall entry_ok groups ->
  map_Forall entry_ok groups' /\
  (forall g e, groups' !! g = Some e -> groups !! g = Some e \/ updated e = now) /\
  forall g s, wanted groups' g s = foldl filter_record (wanted groups) (records_at n payload offset) g s.
Proof.
  induction n as [|n IH]; intros offset groups offset' groups' H OK; cbn [read_records] in H.
  { injection H as _ <-. auto. }
  destruct (_ <? 8) eqn:G0 in H; [done|]. cbv zeta in H. destruct (_ || _) eqn:G in H; [done|]. bool_prop.
  destruct (read_sources _ _ _ _) as [addresses|] eqn:S; [|done].
  set (e := apply_record _ _ _) in H. destruct (_ >? 64) eqn:G2 in H; [done|]. bool_prop.
  set (group := get_at 4 payload (offset + 4) 4) in *.
  destruct (IH _ _ _ _ H) as (I1 & I2 & I3).
  { apply map_Forall_insert_2; [|done]. split; [done|]. cbn [sources]. lia. }
  split; [done|]. split.
  - intros g x Hx. destruct (I2 _ _ Hx) as [Hg|]; [|by right].
    destruct (decide (g = group)) as [->|N]; [rewrite lookup_insert_eq in Hg; injection Hg as <-; by right|].
    rewrite lookup_insert_ne in Hg by done. by left.
  - intros g s. rewrite I3. cbn [records_at foldl].
    replace (offset + r_size (record_at payload offset))%nat with
      (offset + Z.to_nat (8 + get_at 4 payload (offset + 2) 2 * 4 + get_at 4 payload (offset + 1) 1 * 4))%nat
      by (cbn [r_size record_at]; rewrite !get_at_slice by (unfold len in *; lia);
          pose proof (be_value_range (slice (offset + 2) 2 payload)); pose proof (be_value_range (slice (offset + 1) 1 payload)); lia).
    apply foldl_filter_ext. clear g s. intros g s. rewrite wanted_insert. unfold filter_record.
    cbn [r_group record_at exclude sources]. fold group. destruct (Z.eqb_spec g group) as [->|N]; [|done].
    unfold e. rewrite (apply_record_filter _ _ (r_sources (record_at payload offset))); [|lia|].
    + cbv zeta. rewrite wanted_default. done.
    + rewrite (read_sources_spec _ _ _ _ _ S s). cbn [r_sources record_at]. rewrite elem_of_empty. tauto.
Qed.

(** ** Reachable memberships *)

(** What the code does to a membership: reports and host synchronizations in any order. *)
Inductive reachable : MulticastMembership -> Prop :=
| reach_empty : reachable empty_membership
| reach_observe m ipv4 now : reachable m -> reachable (snd (observe m ipv4 now))
| reach_synchronize m host_groups : reachable m -> reachable (synchronize m host_groups).

Definition membership_ok (m : MulticastMembership) : Prop :=
  map_Forall entry_ok (groups_ m) /\ (size (groups_ m) <= 64)%nat /\
  match host_groups_ m with
  | None => True
  | Some hosts => (size hosts <= 256)%nat /\ forall g, g ∈ hosts -> is_ipv4_scoped_multicast g = true
  end.

Lemma live_ok now groups : map_Forall entry_ok groups -> map_Forall entry_ok (live_groups now groups).
Proof. intros H g e Hg. apply map_lookup_filter_Some in Hg as [Hg _]. by apply H. Qed.

(** The filters after an accepted report of either version. *)
Definition report_filter (payload : bytes) (f : filter_state) : filter_state :=
  if at_z payload 0 =? 0x22 then foldl filter_record f (records_at (Z.to_nat (get_at 4 payload 6 2)) payload 8)
  else fun g s => if g =? get_at 4 payload 4 4 then negb (at_z payload 0 =? 0x17) else f g s.

Lemma report_groups_spec payload destination now groups groups' :
  report_groups payload destination now groups = Some groups' -> map_Forall entry_ok groups ->
  map_Forall entry_ok groups' /\
  (forall g e, groups' !! g = Some e -> groups !! g = Some e \/ updated e = now) /\
  forall g s, wanted groups' g s = report_filter payload (wanted groups) g s.
Proof.
  unfold report_groups, report_filter. intros H OK. destruct (_ || _) eqn:T in H.
  - destruct (_ || _) eqn:G in H; [done|]. bool_prop. injection H as <-.
    assert (T2 : (at_z payload 0 =? 0x22) = false).
    { apply Z.eqb_neq. apply orb_true_iff in T as [T|T]; [apply orb_true_iff in T as [T|T]|]; bool_prop; lia. }
    rewrite T2. split; [|split].
    + apply map_Forall_insert_2; [|done]. split; [done|]. cbn [sources]. rewrite size_empty. lia.
    + intros g e He. destruct (decide (g = get_at 4 payload 4 4)) as [->|N].
      * rewrite lookup_insert_eq in He. injection He as <-. by right.
      * rewrite lookup_insert_ne in He by done. by left.
    + intros g s. rewrite wanted_insert. cbn [exclude sources]. rewrite (bool_decide_eq_false_2 (s ∈ ∅)) by set_solver.
      by destruct (_ =? 0x17).
  - destruct (_ =? 0x22); [|done]. destruct (_ || _) in H; [done|].
    destruct (read_records _ _ _ _ _) as [[offset gs]|] eqn:R; [|done]. destruct (_ =? len payload) in H; [|done].
    injection H as <-. by eapply read_records_spec.
Qed.

Lemma observe_spec m ipv4 now :
  membership_ok m ->
  membership_ok (snd (observe m ipv4 now)) /\
  match fst (observe m ipv4 now) with
  | accepted =>
      host_groups_ (snd (observe m ipv4 now)) = host_groups_ m /\
      (forall g e, groups_ (snd (observe m ipv4 now)) !! g = Some e -> now - updated e <= seconds 260) /\
      forall g s, wanted (groups_ (snd (observe m ipv4 now))) g s =
        report_filter (drop (ihl ipv4) ipv4) (wanted (live_groups now (groups_ m))) g s
  | _ => snd (observe m ipv4 now) = m
  end.
Proof.
  intros (OK & Sz & HG). unfold observe. destruct (_ || _); [done|]. destruct (_ || _); [done|]. cbv zeta.
  destruct (_ || _); [done|]. destruct (report_groups _ _ _ _) as [gs|] eqn:R; [|done].
  destruct (_ >? 64) eqn:G; [done|]. bool_prop. cbn [fst snd groups_ host_groups_].
  destruct (report_groups_spec _ _ _ _ _ R (live_ok _ _ OK)) as (A & B & W).
  split; [split; [done|]; split; [cbn [groups_]; lia|done]|]. split; [done|]. split; [|done].
  intros g e He. destruct (B _ _ He) as [L|<-]; [by apply map_lookup_filter_Some in L as [_ L]|unfold seconds; lia].
Qed.

Lemma synchronize_ok m host_groups : membership_ok m -> membership_ok (synchronize m host_groups).
Proof.
  intros (OK & Sz & _). unfold synchronize. split; [done|]. split; [done|]. cbn [host_groups_].
  destruct host_groups as [l|]; [|done].
  assert (I : forall h : gset Z, ((size h <= 256)%nat /\ forall g, g ∈ h -> is_ipv4_scoped_multicast g = true) ->
     (fun h' : gset Z => (size h' <= 256)%nat /\ forall g, g ∈ h' -> is_ipv4_scoped_multicast g = true)
       (foldl (fun hosts group =>
         if is_ipv4_scoped_multicast group && (Z.of_nat (size hosts) <? 256) then {[group]} ∪ hosts else hosts) h l)).
  { induction l as [|x l IH]; intros h Hh; [done|]. cbn [foldl]. apply IH.
    destruct (_ && _) eqn:G; [|done]. bool_prop. destruct Hh as [Hs Hm]. split.
    - pose proof (size_union_alt {[x]} h) as E. rewrite E, size_singleton.
      assert (size (h ∖ {[x]}) <= size h)%nat by (apply subseteq_size; set_solver). lia.
    - intros g [->%elem_of_singleton|Hg]%elem_of_union; [done|by apply Hm]. }
  apply I. split; [rewrite size_empty; lia|set_solver].
Qed.

Lemma reachable_ok m : reachable m -> membership_ok m.
Proof.
  induction 1.
  - split; [apply map_Forall_empty|]. split; [|done]. cbn. rewrite map_size_empty. lia.
  - by apply observe_spec.
  - by apply synchronize_ok.
Qed.

(** Multicast membership.  In every state reachable by reports and host
    synchronizations, at most 64 groups with at most 64 sources each and at most 256 host
    groups are kept, and only scoped multicast groups are ever received.  A report that
    is not accepted changes nothing; an accepted one turns the live source filters into
    those RFC 3376 prescribes for the report (join and leave for the older versions), and
    while no host list overrides them, a group that has a filter is received exactly from
    the sources it wants. *)
Lemma multicast_membership (m : MulticastMembership) (ipv4 : bytes) (now : Z) :
  reachable m ->
  ((size (groups_ m) <= 64)%nat /\ map_Forall (fun _ e => (size (sources e) <= 64)%nat) (groups_ m) /\
   match host_groups_ m with Some hosts => (size hosts <= 256)%nat | None => True end) /\
  (forall g s, is_ipv4_scoped_multicast g = false -> receives m g s now = false) /\
  (let (r, m') := observe m ipv4 now in
   if decide (r = accepted) then
     (forall g s, wanted (groups_ m') g s =
        report_filter (drop (ihl ipv4) ipv4) (wanted (live_groups now (groups_ m))) g s) /\
     (forall g s, host_groups_ m = None -> is_Some (groups_ m' !! g) -> receives m' g s now = wanted (groups_ m') g s)
   else m' = m).
Proof.
  intros Hr. apply reachable_ok in Hr as OK. pose proof OK as (E & Sz & HG). split; [|split].
  - split; [done|]. split; [intros g e He; by apply (E g e He)|]. by destruct (host_groups_ m) as [h|]; [apply HG|].
  - intros g s N. unfold receives. by rewrite N.
  - destruct (observe_spec m ipv4 now OK) as [OK' S]. destruct (observe m ipv4 now) as [r m'] eqn:O.
    cbn [fst snd] in *. destruct r; rewrite ?decide_False, ?decide_True by done; try done.
    destruct S as (Hh & L & W). split; [done|]. intros g s HN [e He]. unfold receives, wanted.
    rewrite Hh, HN, He. destruct (proj1 OK' g e He) as [-> _]. cbn [negb].
    specialize (L _ _ He). apply Z.leb_le in L. by rewrite L.
Qed.

(** The host joins 239.1.2.3 with an IGMPv2 report, then blocks one source. *)
Definition igmp_v2 : bytes :=
  [x46; x00; x00; x20; x00; x00; x00; x00; x01; x02; x00; x00] ++ put_be 4 0x0a400002 ++ put_be 4 0xef010203 ++
  [x94; x04; x00; x00] ++ [x16; x00; xf8; xfa] ++ put_be 4 0xef010203.

