(* ===== verification/Limits.v ===== *)
(** * Budgets and backoff

    transport/resource_limits.cpp (SendBudget), transport/reconnect.cpp and
    p2p/revalidation.hpp: the bounded send queue with room reserved for control frames,
    and the delays between connection attempts. *)
From S2P Require Import Prelude.

(** ** Send budget *)

Record SendQueueLimits := mk_queue_limits {
  limit_bytes : Z; limit_frames : Z; reserved_control_bytes : Z; reserved_control_frames : Z }.

Definition default_queue_limits : SendQueueLimits := mk_queue_limits (4 * 1024 * 1024) 256 (64 * 1024) 8.

(** The shared state of a budget and its tickets. *)
Record BudgetState := mk_budget { budget_limits : SendQueueLimits; used_bytes : Z; used_frames : Z; rejected_ : Z }.

(** A ticket holds its size while it is unreleased; the flag records what it was reserved for. *)
Record Ticket := mk_ticket { ticket_size : Z; ticket_control : bool }.

#[global] Instance Ticket_eq_dec : EqDecision Ticket.
Proof. solve_decision. Defined.

Definition make_budget (limits : SendQueueLimits) : result BudgetState :=
  check! negb ((limit_bytes limits =? 0) || (limit_frames limits =? 0) ||
               (reserved_control_bytes limits >=? limit_bytes limits) ||
               (reserved_control_frames limits >=? limit_frames limits)) else invalid_argument in
  Ok (mk_budget limits 0 0 0).

Definition reserve (s : BudgetState) (size : Z) (control : bool) : option Ticket * BudgetState :=
  let limits := budget_limits s in
  let byte_limit := limit_bytes limits - (if control then 0 else reserved_control_bytes limits) in
  let frame_limit := limit_frames limits - (if control then 0 else reserved_control_frames limits) in
  if (size =? 0) || (size >? byte_limit) || (used_bytes s >? byte_limit - size) || (used_frames s >=? frame_limit)
  then (None, mk_budget limits (used_bytes s) (used_frames s) ((rejected_ s + 1) mod 2 ^ 64))
  else (Some (mk_ticket size control), mk_budget limits ((used_bytes s + size) mod 2 ^ 64) ((used_frames s + 1) mod 2 ^ 64) (rejected_ s)).

(** [Ticket::release], run by the destructor or by a move assignment. *)
Definition release (s : BudgetState) (t : Ticket) : BudgetState :=
  mk_budget (budget_limits s) ((used_bytes s - ticket_size t) mod 2 ^ 64) ((used_frames s - 1) mod 2 ^ 64) (rejected_ s).

(** The budget with the tickets that are alive, in any order of operations.  Moving a ticket
    neither creates nor releases one. *)
Inductive budget_reach (limits : SendQueueLimits) : BudgetState -> list Ticket -> Prop :=
| br_make s : make_budget limits = Ok s -> budget_reach limits s []
| br_reserve s ts size control t s' :
    budget_reach limits s ts -> word 8 size -> reserve s size control = (Some t, s') -> budget_reach limits s' (t :: ts)
| br_reject s ts size control s' :
    budget_reach limits s ts -> word 8 size -> reserve s size control = (None, s') -> budget_reach limits s' ts
| br_release s ts t ts' :
    budget_reach limits s ts -> Permutation ts (t :: ts') -> budget_reach limits (release s t) ts'.

(** The bytes and frames held by the tickets a predicate selects. *)
Fixpoint held (p : Ticket -> bool) (ts : list Ticket) : Z :=
  match ts with [] => 0 | t :: ts => (if p t then ticket_size t else 0) + held p ts end.
Fixpoint held_frames (p : Ticket -> bool) (ts : list Ticket) : Z :=
  match ts with [] => 0 | t :: ts => (if p t then 1 else 0) + held_frames p ts end.

Lemma held_perm p ts ts' : Permutation ts ts' -> held p ts = held p ts' /\ held_frames p ts = held_frames p ts'.
Proof. induction 1; cbn; lia. Qed.

Lemma held_split ts :
  held (fun _ => true) ts = held ticket_control ts + held (fun t => negb (ticket_control t)) ts /\
  held_frames (fun _ => true) ts = held_frames ticket_control ts + held_frames (fun t => negb (ticket_control t)) ts.
Proof. induction ts as [|t ts IH]; [done|]. cbn. destruct (ticket_control t); cbn; lia. Qed.

Definition wf_limits (l : SendQueueLimits) : Prop :=
  word 8 (limit_bytes l) /\ word 8 (limit_frames l) /\ word 8 (reserved_control_bytes l) /\ word 8 (reserved_control_frames l).

Definition budget_inv (l : SendQueueLimits) (s : BudgetState) (ts : list Ticket) : Prop :=
  budget_limits s = l /\ used_bytes s = held (fun _ => true) ts /\ used_frames s = held_frames (fun _ => true) ts /\
  Forall (fun t => 0 < ticket_size t) ts /\ 0 <= held_frames ticket_control ts /\
  0 <= held (fun t => negb (ticket_control t)) ts <= limit_bytes l - reserved_control_bytes l /\
  0 <= held_frames (fun t => negb (ticket_control t)) ts <= limit_frames l - reserved_control_frames l /\
  0 <= held ticket_control ts /\
  used_bytes s <= limit_bytes l /\ used_frames s <= limit_frames l /\
  reserved_control_bytes l < limit_bytes l /\ reserved_control_frames l < limit_frames l.

Lemma budget_reach_inv l s ts : wf_limits l -> budget_reach l s ts -> budget_inv l s ts.
Proof.
  intros (W1 & W2 & W3 & W4). words. induction 1 as [s H|s ts size control t s' _ IH Hs H|s ts size control s' _ IH Hs H|s ts t ts' _ IH P].
  - unfold make_budget in H. ok_inv H. bool_prop. subst s. unfold budget_inv. cbn.
    split_and!; try done; lia.
  - destruct IH as (El & Eb & Ef & Fs & C0 & N1 & N2 & C1 & U1 & U2 & R1 & R2). words.
    unfold reserve in H. rewrite El in H. destruct (_ || _) eqn:G in H; [done|]. injection H as <- <-. bool_prop.
    pose proof (held_split ts) as [S1 S2].
    unfold budget_inv. cbn [budget_limits used_bytes used_frames held held_frames ticket_control ticket_size].
    rewrite !Z.mod_small by (destruct control; lia).
    split_and!; try done; try (apply Forall_cons; split; [cbn; lia|done]); try (destruct control; cbn; lia).
  - destruct IH as (El & Eb & Ef & Rest). unfold reserve in H. destruct (_ || _) in H; [|done]. injection H as <-.
    split; [done|]. split; [done|]. split; [done|]. exact Rest.
  - destruct IH as (El & Eb & Ef & Fs & C0 & N1 & N2 & C1 & U1 & U2 & R1 & R2).
    rewrite P in Fs. apply Forall_cons in Fs as [Ft Fs].
    destruct (held_perm (fun _ => true) _ _ P) as [P1 P2]. destruct (held_perm ticket_control _ _ P) as [P3 P4].
    destruct (held_perm (fun t => negb (ticket_control t)) _ _ P) as [P5 P6].
    pose proof (held_split ts') as [S1 S2].
    assert (K : forall p, 0 <= held p ts' /\ 0 <= held_frames p ts').
    { intros p. clear -Fs. induction Fs as [|x l Hx _ IH]; cbn; [lia|]. destruct (p x); lia. }
    pose proof (K ticket_control). pose proof (K (fun t => negb (ticket_control t))). pose proof (K (fun _ => true)).
    cbn in P1, P2, P3, P4, P5, P6.
    unfold budget_inv, release. cbn [budget_limits used_bytes used_frames].
    rewrite Eb, Ef, P1, P2. rewrite !Z.mod_small by lia.
    split_and!; try done; try (destruct (ticket_control t); cbn in *; lia).
Qed.

(** The send budget.  In every state reachable by reservations, rejections and
    releases in any order, the usage is exactly what the live tickets hold and within the
    limits, and bulk frames never eat into the room reserved for control frames: a
    control frame is granted whenever the live control tickets together with it fit in
    the reserve. *)
Lemma budget_reserves_control (l : SendQueueLimits) (s : BudgetState) (ts : list Ticket) (size : Z) :
  wf_limits l -> budget_reach l s ts ->
  used_bytes s = held (fun _ => true) ts /\ used_frames s = held_frames (fun _ => true) ts /\
  used_bytes s <= limit_bytes l /\ used_frames s <= limit_frames l /\
  (0 < size -> held ticket_control ts + size <= reserved_control_bytes l ->
   held_frames ticket_control ts < reserved_control_frames l ->
   fst (reserve s size true) = Some (mk_ticket size true)).
Proof.
  intros W R. pose proof (held_split ts) as [S1 S2].
  destruct (budget_reach_inv _ _ _ W R) as (El & Eb & Ef & Fs & C0 & N1 & N2 & C1 & U1 & U2 & R1 & R2).
  split_and!; try done. intros P B F. unfold reserve. rewrite El.
  guard_false by (rewrite !orb_false_iff, !Z.gtb_ltb, Z.geb_leb, Z.leb_gt, !Z.ltb_ge, Z.eqb_neq; lia). done.
Qed.

(** A full bulk queue of one frame still grants a control frame. *)
Definition small_limits : SendQueueLimits := mk_queue_limits 100 3 40 2.

(** ** Reconnect backoff *)

(** Delays are milliseconds. *)
Record ReconnectBackoff := mk_backoff { initial_delay_ : Z; maximum_delay_ : Z; current_delay_ : Z }.

Definition make_backoff (initial_delay maximum_delay : Z) : result ReconnectBackoff :=
  check! negb (initial_delay <=? 0) else invalid_argument in
  check! negb (maximum_delay <? initial_delay) else invalid_argument in
  Ok (mk_backoff initial_delay maximum_delay initial_delay).

Definition next_delay (b : ReconnectBackoff) : Z * ReconnectBackoff :=
  let remaining := maximum_delay_ b - current_delay_ b in
  (current_delay_ b, mk_backoff (initial_delay_ b) (maximum_delay_ b) (current_delay_ b + Z.min (current_delay_ b) remaining)).

Definition reset (b : ReconnectBackoff) : ReconnectBackoff :=
  mk_backoff (initial_delay_ b) (maximum_delay_ b) (initial_delay_ b).

Definition current_delay (b : ReconnectBackoff) : Z := current_delay_ b.

(** The first [n] delays from a state. *)
Fixpoint delays (n : nat) (b : ReconnectBackoff) : list Z * ReconnectBackoff :=
  match n with
  | O => ([], b)
  | S n => let (d, b) := next_delay b in let (ds, b) := delays n b in (d :: ds, b)
  end.

Lemma delays_spec n : forall k i m,
  0 < i <= m ->
  delays n (mk_backoff i m (Z.min (i * 2 ^ Z.of_nat k) m)) =
  (map (fun j => Z.min (i * 2 ^ Z.of_nat (k + j)) m) (seq 0 n), mk_backoff i m (Z.min (i * 2 ^ Z.of_nat (k + n)) m)).
Proof.
  induction n as [|n IH]; intros k i m H; cbn [delays seq map]; [by rewrite Nat.add_0_r|].
  unfold next_delay. cbn [current_delay_ maximum_delay_ initial_delay_].
  assert (P : 0 < 2 ^ Z.of_nat k) by (apply Z.pow_pos_nonneg; lia).
  replace (Z.min (i * 2 ^ Z.of_nat k) m + Z.min (Z.min (i * 2 ^ Z.of_nat k) m) (m - Z.min (i * 2 ^ Z.of_nat k) m))
    with (Z.min (i * 2 ^ Z.of_nat (S k)) m) by (rewrite Nat2Z.inj_succ, Z.pow_succ_r by lia; nia).
  rewrite IH by done. rewrite Nat.add_0_r, <- seq_shift, map_map. f_equal; [f_equal|].
  - apply map_ext. intros j. by rewrite Nat.add_succ_r.
  - by rewrite Nat.add_succ_r.
Qed.

(** ** Revalidation backoff *)

(** Time points are nanoseconds; [failures_] is a 32-bit counter kept at most 6. *)
Record RevalidationBackoff := mk_revalidation { failures_ : Z; pending_ : bool; next_ : Z }.

Definition fresh_revalidation : RevalidationBackoff := mk_revalidation 0 false 0.

Definition failed (b : RevalidationBackoff) (now : Z) : RevalidationBackoff :=
  if pending_ b then b
  else mk_revalidation (Z.min ((failures_ b + 1) mod 2 ^ 32) 6) true
         (now + 1000000 * Z.min (1000 * Z.shiftl 1 (Z.min (failures_ b) 5) mod 2 ^ 32) 30000).

Definition started (b : RevalidationBackoff) : RevalidationBackoff := mk_revalidation (failures_ b) false (next_ b).
Definition healthy (b : RevalidationBackoff) : RevalidationBackoff := mk_revalidation 0 false (next_ b).
Definition due (b : RevalidationBackoff) (now : Z) : bool := pending_ b && (now >=? next_ b).

(** [n] failed attempts in a row, each retried before it fails again. *)
Fixpoint after_failures (n : nat) (b : RevalidationBackoff) : RevalidationBackoff :=
  match n with
  | O => b
  | S n => started (failed (after_failures n b) 0)
  end.

Lemma after_failures_spec n t :
  after_failures n (mk_revalidation 0 false t) =
  mk_revalidation (Z.min (Z.of_nat n) 6) false (next_ (after_failures n (mk_revalidation 0 false t))).
Proof.
  induction n as [|n IH]; [done|]. cbn [after_failures]. rewrite IH. unfold failed, started.
  cbn [pending_ failures_ next_]. f_equal. rewrite Z.mod_small by lia. lia.
Qed.

(** The retry schedules.  The k-th reconnect delay after construction or reset is the
    initial delay doubled k times, capped by the maximum, whatever happened before the
    reset; the k-th failure in a row of a direct path that was healthy is retried after
    min(1000 * 2^min(k,5), 30000) milliseconds, a second report of the same failure does
    not postpone the retry, and the retry is due from then on. *)
Lemma backoff_delays (i m : Z) (b0 b : ReconnectBackoff) (r : RevalidationBackoff) (n k : nat) (now : Z) :
  make_backoff i m = Ok b0 -> b = snd (delays n b0) ->
  fst (delays k (reset b)) = map (fun j => Z.min (i * 2 ^ Z.of_nat j) m) (seq 0 k) /\
  current_delay (snd (delays k (reset b))) = Z.min (i * 2 ^ Z.of_nat k) m /\
  (let f := failed (after_failures k (healthy r)) now in
   let at_ := now + 1000000 * Z.min (1000 * 2 ^ Z.min (Z.of_nat k) 5) 30000 in
   next_ f = at_ /\ (forall later, failed f later = f) /\ forall t, due f t = (t >=? at_)).
Proof.
  intros H ->. unfold make_backoff in H. ok_inv H. bool_prop. subst b0.
  assert (E : Z.min (i * 2 ^ Z.of_nat 0) m = i) by (change (2 ^ Z.of_nat 0) with 1; lia).
  assert (R : reset (snd (delays n (mk_backoff i m i))) = mk_backoff i m i).
  { pose proof (delays_spec n 0 i m ltac:(lia)) as D. rewrite E in D. by rewrite D. }
  rewrite R. pose proof (delays_spec k 0 i m ltac:(lia)) as D. rewrite E in D. rewrite D.
  split; [done|]. split; [done|]. cbv zeta. unfold healthy. rewrite after_failures_spec. unfold failed at 1 3 4 5.
  cbn [pending_ failures_ next_].
  assert (N : Z.shiftl 1 (Z.min (Z.min (Z.of_nat k) 6) 5) = 2 ^ Z.min (Z.of_nat k) 5)
    by (rewrite Z.shiftl_mul_pow2 by lia; rewrite Z.mul_1_l; f_equal; lia).
  assert (B : 0 < 2 ^ Z.min (Z.of_nat k) 5 <= 2 ^ 5)
    by (split; [apply Z.pow_pos_nonneg|apply Z.pow_le_mono_r]; lia).
  rewrite N, Z.mod_small by lia. done.
Qed.

(** Sending and retrying are limited.  In every state of the send budget reachable by reservations,
    rejections and releases in any order, the usage is exactly what the live tickets hold and within
    the limits, and bulk frames never eat into the room reserved for control frames: a control
    frame is granted whenever the live control tickets together with it fit in the reserve.  The k-th
    reconnect delay after construction or reset is the initial delay doubled k times, capped by the
    maximum; the k-th failure in a row of a direct path that was healthy is retried after
    min(1000 * 2^min(k,5), 30000) milliseconds, a second report of the same failure does not
    postpone the retry, and the retry is due from then on. *)
Lemma sending_limits (l : SendQueueLimits) (s : BudgetState) (ts : list Ticket) (size : Z)
    (i m : Z) (b0 : ReconnectBackoff) (r : RevalidationBackoff) (n k : nat) (now : Z) :
  (wf_limits l -> budget_reach l s ts ->
   used_bytes s = held (fun _ => true) ts /\ used_frames s = held_frames (fun _ => true) ts /\
   used_bytes s <= limit_bytes l /\ used_frames s <= limit_frames l /\
   (0 < size -> held ticket_control ts + size <= reserved_control_bytes l ->
    held_frames ticket_control ts < reserved_control_frames l ->
    fst (reserve s size true) = Some (mk_ticket size true))) /\
  (make_backoff i m = Ok b0 ->
   let b := reset (snd (delays n b0)) in
   fst (delays k b) = map (fun j => Z.min (i * 2 ^ Z.of_nat j) m) (seq 0 k) /\
   current_delay (snd (delays k b)) = Z.min (i * 2 ^ Z.of_nat k) m) /\
  (let f := failed (after_failures k (healthy r)) now in
   let at_ := now + 1000000 * Z.min (1000 * 2 ^ Z.min (Z.of_nat k) 5) 30000 in
   next_ f = at_ /\ (forall later, failed f later = f) /\ forall t, due f t = (t >=? at_)).
Proof.
  split; [apply budget_reserves_control|]. split.
  - intros H. destruct (backoff_delays i m b0 _ r n k now H eq_refl) as (D & E & _). done.
  - exact (proj2 (proj2 (backoff_delays 1 1 (mk_backoff 1 1 1) _ r n k now eq_refl eq_refl))).
Qed.

