(* ===== verification/AuditEvent.v ===== *)
(** * Audit events

    protocol/audit_event.hpp and .cpp: the records of administrative actions and their
    wire format. *)
From S2P Require Import Prelude Wire NetworkPolicy NetworkMessages.

Inductive AuditKind :=
| network_create | network_join | network_leave | member_invite | member_approve | member_kick
| password_change | invite_issue | invite_revoke | account_create | device_enroll | device_revoke
| gateway_request | policy_change | enrollment_issue | unassigned_audit (raw : Z).

#[global] Instance AuditKind_eq_dec : EqDecision AuditKind.
Proof. solve_decision. Defined.

Definition audit_kind_value (k : AuditKind) : Z :=
  match k with
  | network_create => 1 | network_join => 2 | network_leave => 3 | member_invite => 4 | member_approve => 5
  | member_kick => 6 | password_change => 7 | invite_issue => 8 | invite_revoke => 9 | account_create => 10
  | device_enroll => 11 | device_revoke => 12 | gateway_request => 13 | policy_change => 14
  | enrollment_issue => 15 | unassigned_audit raw => raw
  end.

Definition audit_kind_cast (raw : Z) : AuditKind :=
  match raw with
  | 1 => network_create | 2 => network_join | 3 => network_leave | 4 => member_invite | 5 => member_approve
  | 6 => member_kick | 7 => password_change | 8 => invite_issue | 9 => invite_revoke | 10 => account_create
  | 11 => device_enroll | 12 => device_revoke | 13 => gateway_request | 14 => policy_change
  | 15 => enrollment_issue | _ => unassigned_audit raw
  end.

Record AuditEvent := mk_audit {
  audit_sequence : Z; timestamp_ms : Z; audit_network_id : bytes; audit_actor : bytes; audit_target : bytes;
  audit_kind : AuditKind; audit_result : NetworkResultCode; policy_revision : Z }.

#[global] Instance AuditEvent_eq_dec : EqDecision AuditEvent.
Proof. solve_decision. Defined.

Definition audit_kind_name (k : AuditKind) : string :=
  match k with
  | network_create => "Network created" | network_join => "Member joined or requested access"
  | network_leave => "Member left" | member_invite => "Member invited" | member_approve => "Member approved"
  | member_kick => "Member removed" | password_change => "Network password changed"
  | invite_issue => "Invitation link issued" | invite_revoke => "Invitation links revoked"
  | account_create => "Account created" | device_enroll => "Device enrolled" | device_revoke => "Device revoked"
  | gateway_request => "Gateway requested" | policy_change => "Network policy changed"
  | enrollment_issue => "Device enrollment code issued" | unassigned_audit _ => "Unknown event"
  end.

Definition encode_audit_event (e : AuditEvent) : result bytes :=
  check! negb (bool_decide (audit_actor e = zero_device) || (audit_kind_value (audit_kind e) <? 1) ||
    (audit_kind_value (audit_kind e) >? 15) || negb (is_known_network_result_code (audit_result e)) ||
    (timestamp_ms e >? 2 ^ 63 - 1) || (policy_revision e >? 2 ^ 63 - 1)) else invalid_argument in
  Ok (put_be 8 (audit_sequence e) ++ put_be 8 (timestamp_ms e) ++ audit_network_id e ++ audit_actor e ++
      audit_target e ++ put_be 1 (audit_kind_value (audit_kind e)) ++ put_be 2 (code_value (audit_result e)) ++
      put_be 8 (policy_revision e)).

Definition decode_audit_event (bs : bytes) : result AuditEvent :=
  let* (sequence, r) := BinaryReader.get 8 bs in
  let* (timestamp, r) := BinaryReader.get 8 r in
  let* (network_id, r) := BinaryReader.array 16 r in
  let* (actor, r) := BinaryReader.array 32 r in
  let* (target, r) := BinaryReader.array 32 r in
  let* (kind, r) := BinaryReader.get 1 r in
  let* (code, r) := BinaryReader.get 2 r in
  let* (revision, r) := BinaryReader.get 8 r in
  let* _ := BinaryReader.finish r in
  let e := mk_audit sequence timestamp network_id actor target (audit_kind_cast kind) (code_cast code) revision in
  let* _ := encode_audit_event e in
  Ok e.

(** ** Field types *)

Definition wf_audit_event (e : AuditEvent) : Prop :=
  word 8 (audit_sequence e) /\ word 8 (timestamp_ms e) /\ length (audit_network_id e) = 16%nat /\
  length (audit_actor e) = 32%nat /\ length (audit_target e) = 32%nat /\ word 8 (policy_revision e) /\
  word 1 (audit_kind_value (audit_kind e)) /\ audit_kind_cast (audit_kind_value (audit_kind e)) = audit_kind e /\
  word 2 (code_value (audit_result e)) /\ code_cast (code_value (audit_result e)) = audit_result e.

Lemma audit_kind_value_cast raw : audit_kind_value (audit_kind_cast raw) = raw.
Proof. unfold audit_kind_cast. repeat case_match; subst; reflexivity. Qed.

Lemma encode_audit_length e bs : wf_audit_event e -> encode_audit_event e = Ok bs -> len bs = 107.
Proof.
  intros (_ & _ & L1 & L2 & L3 & _) H. unfold encode_audit_event in H. ok_inv H. subst bs.
  unfold len. rewrite !length_app, !length_put_be, L1, L2, L3. done.
Qed.

(** Audit events decode exactly from their encodings. *)
Lemma audit_event_exact bs e : decode_audit_event bs = Ok e <-> wf_audit_event e /\ encode_audit_event e = Ok bs.
Proof.
  split.
  - unfold decode_audit_event. intros H. ok_inv H. subst e. br_inv.
    match goal with E : encode_audit_event _ = Ok _ |- _ => rewrite E; unfold encode_audit_event in E; rename E into En end.
    ok_inv En. subst. unfold wf_audit_event. cbn in *. rewrite !audit_kind_value_cast, !code_value_cast, ?app_nil_r.
    split; [by split_and!|done].
  - intros [(W1 & W2 & L1 & L2 & L3 & W3 & W4 & E1 & W5 & E2) H]. pose proof H as En. unfold encode_audit_event in H. ok_inv H. subst bs.
    unfold decode_audit_event. rewrite <- (app_nil_r (put_be 8 (policy_revision e))). br_read. cbn [BinaryReader.finish].
    rewrite E1, E2. destruct e. cbn [audit_sequence timestamp_ms audit_network_id audit_actor audit_target audit_kind audit_result
      policy_revision] in *. by rewrite En.
Qed.
