(* ===== verification/RelayStore.v ===== *)
(** * The relay's database

    storage/relay_store.hpp and .cpp.  Each table of the SQLite schema (version 8) is a
    finite map from its primary key to its other columns; an operation is the effect of
    its SQL statements with the constraints, foreign keys, cascades and triggers the
    migrations declare.  A violated constraint is the [std::runtime_error] of
    [throw_sqlite].  Every writing operation is one statement or one transaction, so an
    operation that throws leaves the database unchanged: operations return the new
    database with their result or throw.  Failures of the file system, locking and the
    connection are not modelled. *)
From stdpp Require Import sorting.
From S2P Require Import Prelude Wire Ipv4 NetworkPolicy NetworkMessages AuditEvent.

(** ** Rows *)

Definition virtual_ipv4_pool_first : Z := 0x0a400000.
Definition virtual_ipv4_pool_end : Z := 0x0a800000.
Definition virtual_ipv4_subnet_size : Z := 256.
Definition virtual_ipv4_prefix_length : Z := 24.

Inductive MembershipRole := mr_member | mr_owner.

#[global] Instance MembershipRole_eq_dec : EqDecision MembershipRole.
Proof. solve_decision. Defined.

Definition membership_role_value (r : MembershipRole) : Z := match r with mr_member => 0 | mr_owner => 1 end.

Record DeviceRow := mk_device_row { first_seen_at_ms : Z; last_seen_at_ms : Z }.
Record NetworkRow := mk_network_row { row_name : bytes; row_owner : bytes; row_created_at_ms : Z }.
Record MembershipRow := mk_membership_row { row_role : MembershipRole; row_joined_at_ms : Z }.
Record PasswordVerifier := mk_verifier { pv_salt : bytes; pv_digest : bytes; require_approval : bool }.
Record LinkRow := mk_link { link_network : bytes; link_expires : Z; link_remaining : Z }.
Record AccountRow := mk_account_row { account_owner : bytes; account_name : bytes }.
Record AccountDeviceRow := mk_account_device { ad_account : bytes; ad_label : bytes; ad_revoked : bool }.
Record EnrollmentRow := mk_enrollment { en_digest : bytes; en_expires : Z }.

(** The records queries return. *)
Record DeviceRecord := mk_device_record { dr_id : bytes; dr_first : Z; dr_last : Z }.
Record NetworkRecord := mk_network_record { nr_id : bytes; nr_name : bytes; nr_owner : bytes; nr_created : Z }.
Record MembershipRecord := mk_member_record { mr_network : bytes; mr_device : bytes; mr_role : MembershipRole; mr_joined : Z }.
Record NetworkSubnetRecord := mk_subnet_record { sr_network : bytes; sr_address : Z; sr_prefix : Z }.
Record VirtualIpv4LeaseRecord := mk_lease { lr_network : bytes; lr_device : bytes; lr_address : Z }.
Record InvitationRecord := mk_invitation { ir_network : bytes; ir_device : bytes; ir_at : Z }.
Record JoinRequestRecord := mk_join_request { jr_network : bytes; jr_device : bytes; jr_at : Z }.
Record AccountRecord := mk_account { ac_id : bytes; ac_owner : bytes; ac_name : bytes }.
Record AccountDevice := mk_listed_device { ld_id : bytes; ld_label : bytes; ld_revoked : bool }.

Record Db := mk_db {
  db_devices : gmap bytes DeviceRow;
  db_networks : gmap bytes NetworkRow;
  db_memberships : gmap (bytes * bytes) MembershipRow;
  db_invitations : gmap (bytes * bytes) Z;
  db_join_requests : gmap (bytes * bytes) Z;
  db_subnets : gmap bytes Z;
  db_leases : gmap (bytes * bytes) Z;
  db_links : gmap bytes LinkRow;
  db_access : gmap bytes PasswordVerifier;
  db_policies : gmap bytes bytes;
  db_accounts : gmap bytes AccountRow;
  db_account_devices : gmap bytes AccountDeviceRow;
  db_enrollment : gmap bytes EnrollmentRow;
  db_audit : list AuditEvent;
  db_audit_sequence : Z
}.

Definition empty_db : Db := mk_db ∅ ∅ ∅ ∅ ∅ ∅ ∅ ∅ ∅ ∅ ∅ ∅ ∅ [] 0.

Definition set_devices x (d : Db) : Db :=
  mk_db x (db_networks d) (db_memberships d) (db_invitations d) (db_join_requests d) (db_subnets d) (db_leases d)
    (db_links d) (db_access d) (db_policies d) (db_accounts d) (db_account_devices d) (db_enrollment d) (db_audit d) (db_audit_sequence d).
Definition set_networks x (d : Db) : Db :=
  mk_db (db_devices d) x (db_memberships d) (db_invitations d) (db_join_requests d) (db_subnets d) (db_leases d)
    (db_links d) (db_access d) (db_policies d) (db_accounts d) (db_account_devices d) (db_enrollment d) (db_audit d) (db_audit_sequence d).
Definition set_memberships x (d : Db) : Db :=
  mk_db (db_devices d) (db_networks d) x (db_invitations d) (db_join_requests d) (db_subnets d) (db_leases d)
    (db_links d) (db_access d) (db_policies d) (db_accounts d) (db_account_devices d) (db_enrollment d) (db_audit d) (db_audit_sequence d).
Definition set_invitations x (d : Db) : Db :=
  mk_db (db_devices d) (db_networks d) (db_memberships d) x (db_join_requests d) (db_subnets d) (db_leases d)
    (db_links d) (db_access d) (db_policies d) (db_accounts d) (db_account_devices d) (db_enrollment d) (db_audit d) (db_audit_sequence d).
Definition set_join_requests x (d : Db) : Db :=
  mk_db (db_devices d) (db_networks d) (db_memberships d) (db_invitations d) x (db_subnets d) (db_leases d)
    (db_links d) (db_access d) (db_policies d) (db_accounts d) (db_account_devices d) (db_enrollment d) (db_audit d) (db_audit_sequence d).
Definition set_subnets x (d : Db) : Db :=
  mk_db (db_devices d) (db_networks d) (db_memberships d) (db_invitations d) (db_join_requests d) x (db_leases d)
    (db_links d) (db_access d) (db_policies d) (db_accounts d) (db_account_devices d) (db_enrollment d) (db_audit d) (db_audit_sequence d).
Definition set_leases x (d : Db) : Db :=
  mk_db (db_devices d) (db_networks d) (db_memberships d) (db_invitations d) (db_join_requests d) (db_subnets d) x
    (db_links d) (db_access d) (db_policies d) (db_accounts d) (db_account_devices d) (db_enrollment d) (db_audit d) (db_audit_sequence d).
Definition set_links x (d : Db) : Db :=
  mk_db (db_devices d) (db_networks d) (db_memberships d) (db_invitations d) (db_join_requests d) (db_subnets d) (db_leases d)
    x (db_access d) (db_policies d) (db_accounts d) (db_account_devices d) (db_enrollment d) (db_audit d) (db_audit_sequence d).
Definition set_access x (d : Db) : Db :=
  mk_db (db_devices d) (db_networks d) (db_memberships d) (db_invitations d) (db_join_requests d) (db_subnets d) (db_leases d)
    (db_links d) x (db_policies d) (db_accounts d) (db_account_devices d) (db_enrollment d) (db_audit d) (db_audit_sequence d).
Definition set_policies x (d : Db) : Db :=
  mk_db (db_devices d) (db_networks d) (db_memberships d) (db_invitations d) (db_join_requests d) (db_subnets d) (db_leases d)
    (db_links d) (db_access d) x (db_accounts d) (db_account_devices d) (db_enrollment d) (db_audit d) (db_audit_sequence d).
Definition set_account_tables a ad en (d : Db) : Db :=
  mk_db (db_devices d) (db_networks d) (db_memberships d) (db_invitations d) (db_join_requests d) (db_subnets d) (db_leases d)
    (db_links d) (db_access d) (db_policies d) a ad en (db_audit d) (db_audit_sequence d).
Definition set_audit x n (d : Db) : Db :=
  mk_db (db_devices d) (db_networks d) (db_memberships d) (db_invitations d) (db_join_requests d) (db_subnets d) (db_leases d)
    (db_links d) (db_access d) (db_policies d) (db_accounts d) (db_account_devices d) (db_enrollment d) x n.

(** ** Ordered queries *)

(** Lexicographic order on the sort keys of an ORDER BY clause; a blob of fixed size
    compares as its big-endian value. *)
Fixpoint key_le (a b : list Z) : bool :=
  match a, b with
  | [], _ => true
  | _, [] => false
  | x :: a, y :: b => (x <? y) || ((x =? y) && key_le a b)
  end.

Definition order_by {A} (key : A -> list Z) (l : list A) : list A :=
  merge_sort (fun x y => Is_true (key_le (key x) (key y))) l.

(** The rows of one network of a table keyed by network and device. *)
Definition rows_of {A} (n : bytes) (m : gmap (bytes * bytes) A) : list (bytes * A) :=
  omap (fun e : (bytes * bytes) * A => if bool_decide (fst (fst e) = n) then Some (snd (fst e), snd e) else None) (map_to_list m).

(** The rows of one device of a table keyed by network and device. *)
Definition rows_for {A} (d : bytes) (m : gmap (bytes * bytes) A) : list (bytes * A) :=
  omap (fun e : (bytes * bytes) * A => if bool_decide (snd (fst e) = d) then Some (fst (fst e), snd e) else None) (map_to_list m).

(** ** Checks *)

Definition require_device_id (d : bytes) : result unit := check! negb (is_zero d) else invalid_argument in Ok tt.
Definition require_network_id (n : bytes) : result unit := check! negb (is_zero n) else invalid_argument in Ok tt.
Definition require_timestamp (t : Z) : result unit := check! negb (t <? 0) else invalid_argument in Ok tt.
Definition require_network_name (name : bytes) : result unit :=
  check! negb ((len name =? 0) || (len name >? 128)) else invalid_argument in
  check! negb (existsb (fun c => (b2z c <? 0x20) || (b2z c =? 0x7f)) name) else invalid_argument in
  Ok tt.

(** A constraint of the schema. *)
Definition constraint (b : bool) : result unit := check! b else runtime_error in Ok tt.

Definition present {K A} `{Countable K} (k : K) (m : gmap K A) : bool := bool_decide (is_Some (m !! k)).

Definition read_virtual_address (raw : Z) : result Z :=
  check! negb ((raw <? virtual_ipv4_pool_first) || (raw >=? virtual_ipv4_pool_end)) else runtime_error in Ok raw.

Definition read_subnet (n : bytes) (raw : Z) : result NetworkSubnetRecord :=
  let* address := read_virtual_address raw in
  check! address mod virtual_ipv4_subnet_size =? 0 else runtime_error in
  Ok (mk_subnet_record n address virtual_ipv4_prefix_length).

Definition read_lease (n d : bytes) (raw : Z) : result VirtualIpv4LeaseRecord :=
  let* address := read_virtual_address raw in
  let host := address mod virtual_ipv4_subnet_size in
  check! negb ((host =? 0) || (host =? virtual_ipv4_subnet_size - 1)) else runtime_error in
  Ok (mk_lease n d address).

(** ** Address allocation *)

(** The loop over the occupied addresses in ascending order. *)
Fixpoint scan_free (step : Z) (occupied : list Z) (candidate : Z) : result Z :=
  match occupied with
  | [] => Ok candidate
  | raw :: occupied =>
      let* address := read_virtual_address raw in
      if address >? candidate then Ok candidate
      else if address =? candidate then scan_free step occupied (candidate + step)
      else scan_free step occupied candidate
  end.

Definition network_leases (db : Db) (n : bytes) : list (bytes * Z) := rows_of n (db_leases db).

Definition insert_subnet (db : Db) (n : bytes) : result Db :=
  let* candidate := scan_free virtual_ipv4_subnet_size
    (order_by (fun a => [a]) (map snd (map_to_list (db_subnets db)))) virtual_ipv4_pool_first in
  check! negb (candidate >=? virtual_ipv4_pool_end) else length_error in
  let* _ := constraint (negb (present n (db_subnets db)) &&
    forallb (fun e => negb (snd e =? candidate)) (map_to_list (db_subnets db)) &&
    (candidate >=? 171966464) && (candidate <? 176160768) && (candidate mod 256 =? 0) &&
    present n (db_networks db)) in
  Ok (set_subnets (<[n := candidate]> (db_subnets db)) db).

Definition insert_lease (db : Db) (n d : bytes) : result Db :=
  match db_subnets db !! n with
  | None => Throw runtime_error
  | Some raw =>
      let* base := read_virtual_address raw in
      let* candidate := scan_free 1 (order_by (fun a => [a]) (map snd (network_leases db n))) (base + 1) in
      check! negb (candidate >=? base + virtual_ipv4_subnet_size - 1) else length_error in
      let* _ := constraint (negb (present (n, d) (db_leases db)) &&
        forallb (fun e => negb (snd e =? candidate)) (map_to_list (db_leases db)) &&
        (candidate >=? 171966464) && (candidate <? 176160768) &&
        (1 <=? candidate mod 256) && (candidate mod 256 <=? 254) &&
        present (n, d) (db_memberships db) &&
        bool_decide (db_subnets db !! n = Some (candidate - candidate mod 256))) in
      Ok (set_leases (<[(n, d) := candidate]> (db_leases db)) db)
  end.

(** ** Devices and networks *)

Definition record_device (db : Db) (d : bytes) (seen_at_ms : Z) : result Db :=
  let* _ := require_device_id d in
  let* _ := require_timestamp seen_at_ms in
  let row := match db_devices db !! d with
    | None => mk_device_row seen_at_ms seen_at_ms
    | Some r => mk_device_row (Z.min (first_seen_at_ms r) seen_at_ms) (Z.max (last_seen_at_ms r) seen_at_ms)
    end in
  Ok (set_devices (<[d := row]> (db_devices db)) db).

Definition find_device (db : Db) (d : bytes) : result (option DeviceRecord) :=
  let* _ := require_device_id d in
  Ok (fmap (fun r => mk_device_record d (first_seen_at_ms r) (last_seen_at_ms r)) (db_devices db !! d)).

(** INSERT INTO memberships with its triggers; the primary key is checked by the callers. *)
Definition insert_membership (db : Db) (n d : bytes) (role : MembershipRole) (at_ms : Z) : result Db :=
  let* _ := constraint (present n (db_networks db) && present d (db_devices db) &&
    (bool_decide (role = mr_member) ||
     (bool_decide (fmap row_owner (db_networks db !! n) = Some d) &&
      forallb (fun e => negb (bool_decide (fst (fst e) = n) && bool_decide (row_role (snd e) = mr_owner)))
        (map_to_list (db_memberships db))))) in
  let db := set_memberships (<[(n, d) := mk_membership_row role at_ms]> (db_memberships db)) db in
  let db := set_invitations (delete (n, d) (db_invitations db)) db in
  Ok (set_join_requests (delete (n, d) (db_join_requests db)) db).

Definition create_network (db : Db) (network : NetworkRecord) (password : option PasswordVerifier) : result Db :=
  let n := nr_id network in
  let* _ := require_network_id n in
  let* _ := require_network_name (nr_name network) in
  let* _ := require_device_id (nr_owner network) in
  let* _ := require_timestamp (nr_created network) in
  let* _ := constraint (negb (present n (db_networks db)) && present (nr_owner network) (db_devices db)) in
  let db := set_networks (<[n := mk_network_row (nr_name network) (nr_owner network) (nr_created network)]> (db_networks db)) db in
  let* db := insert_subnet db n in
  let* _ := constraint (negb (present (n, nr_owner network) (db_memberships db))) in
  let* db := insert_membership db n (nr_owner network) mr_owner (nr_created network) in
  let* db := insert_lease db n (nr_owner network) in
  match password with
  | None => Ok db
  | Some p =>
      let* _ := constraint (negb (present n (db_access db))) in
      Ok (set_access (<[n := p]> (db_access db)) db)
  end.

Definition network_record (n : bytes) (r : NetworkRow) : NetworkRecord :=
  mk_network_record n (row_name r) (row_owner r) (row_created_at_ms r).

Definition find_network (db : Db) (n : bytes) : result (option NetworkRecord) :=
  let* _ := require_network_id n in
  Ok (fmap (network_record n) (db_networks db !! n)).

Definition without_network {A} (n : bytes) (m : gmap (bytes * bytes) A) : gmap (bytes * bytes) A :=
  filter (fun e : (bytes * bytes) * A => fst (fst e) <> n) m.

(** DELETE FROM networks with the cascades of the foreign keys. *)
Definition delete_network (db : Db) (n : bytes) : result (bool * Db) :=
  let* _ := require_network_id n in
  if present n (db_networks db) then
    Ok (true, set_networks (delete n (db_networks db))
      (set_memberships (without_network n (db_memberships db))
      (set_invitations (without_network n (db_invitations db))
      (set_join_requests (without_network n (db_join_requests db))
      (set_subnets (delete n (db_subnets db))
      (set_leases (without_network n (db_leases db))
      (set_links (filter (fun e : bytes * LinkRow => link_network (snd e) <> n) (db_links db))
      (set_access (delete n (db_access db)) (set_policies (delete n (db_policies db)) db)))))))))
  else Ok (false, db).

(** ** Policies *)

Definition read_policy (db : Db) (n : bytes) : result NetworkPolicy :=
  match db_policies db !! n with
  | None => Ok default_policy
  | Some doc =>
      check! negb ((len doc =? 0) || (len doc >? 32768)) else runtime_error in
      decode_network_policy doc
  end.

Definition network_policy (db : Db) (n : bytes) : result NetworkPolicy := read_policy db n.

(** ** Audit log *)

Definition last_n {A} (k : nat) (l : list A) : list A := drop (length l - k) l.

Definition append_audit_locked (db : Db) (e : AuditEvent) : result Db :=
  let* _ := encode_audit_event e in
  let sequence := db_audit_sequence db + 1 in
  let e := mk_audit sequence (timestamp_ms e) (audit_network_id e) (audit_actor e) (audit_target e) (audit_kind e)
             (audit_result e) (policy_revision e) in
  let rows := db_audit db ++ [e] in
  let same := List.filter (fun x => bool_decide (audit_network_id x = audit_network_id e)) rows in
  let rows := List.filter (fun x => negb (bool_decide (audit_network_id x = audit_network_id e)) ||
    bool_decide (audit_sequence x ∈ map audit_sequence (last_n 256 same))) rows in
  let rows := List.filter (fun x => timestamp_ms x >=? Z.max 0 (timestamp_ms e - 30 * 24 * 60 * 60 * 1000)) rows in
  Ok (set_audit (last_n (Z.to_nat 10000) rows) sequence db).

Definition append_audit (db : Db) (e : AuditEvent) : result Db := append_audit_locked db e.

Fixpoint check_rows (l : list AuditEvent) : result (list AuditEvent) :=
  match l with
  | [] => Ok []
  | e :: l => let* _ := encode_audit_event e in let* l := check_rows l in Ok (e :: l)
  end.

Definition audit_events (db : Db) (n : bytes) (now_ms : Z) (limit : Z) : result (list AuditEvent) :=
  check! negb ((now_ms <? 0) || (limit >? 256)) else invalid_argument in
  check_rows (take (Z.to_nat limit) (rev (List.filter (fun x => bool_decide (audit_network_id x = n) &&
    (timestamp_ms x >=? Z.max 0 (now_ms - 30 * 24 * 60 * 60 * 1000))) (db_audit db)))).

Definition save_network_policy (db : Db) (n : bytes) (p : NetworkPolicy) (expected : Z) (audit : option AuditEvent)
    : result (bool * Db) :=
  let* doc := encode_network_policy p in
  check! negb ((expected =? 2 ^ 64 - 1) || negb (revision p =? expected + 1)) else invalid_argument in
  let* old := read_policy db n in
  if negb (revision old =? expected) then Ok (false, db)
  else
    let* _ := constraint (present n (db_networks db) && (1 <=? len doc) && (len doc <=? 32768)) in
    let db := set_policies (<[n := doc]> (db_policies db)) db in
    match audit with
    | None => Ok (true, db)
    | Some e => let* db := append_audit_locked db e in Ok (true, db)
    end.

(** ** Members *)

Definition add_member (db : Db) (n d : bytes) (joined_at_ms : Z) : result (bool * Db) :=
  let* _ := require_network_id n in
  let* _ := require_device_id d in
  let* _ := require_timestamp joined_at_ms in
  if present (n, d) (db_memberships db) then Ok (false, db)
  else
    let* db := insert_membership db n d mr_member joined_at_ms in
    let* db := insert_lease db n d in
    Ok (true, db).

(** The policy without the parts that name a device that leaves. *)
Definition forget_device (d : bytes) (p : NetworkPolicy) : NetworkPolicy :=
  mk_policy (revision p) (managed p) (topology p)
    (List.filter (fun h => negb (bool_decide (h = d))) (hubs p))
    (List.filter (fun r => negb (bool_decide (subject_device (first r) = d) || bool_decide (subject_device (second r) = d))) (rules p))
    (groups p)
    (List.filter (fun m => negb (bool_decide (member_device m = d) && negb (bool_decide (role m = restricted)))) (members p))
    (List.filter (fun g => negb (bool_decide (gateway_device g = d))) (gateways p))
    (List.filter (fun r => negb (bool_decide (gateway r = d))) (routes p)).

Definition with_revision (rev : Z) (p : NetworkPolicy) : NetworkPolicy :=
  mk_policy rev (managed p) (topology p) (hubs p) (rules p) (groups p) (members p) (gateways p) (routes p).

Definition remove_member (db : Db) (n d : bytes) : result (bool * Db) :=
  let* _ := require_network_id n in
  let* _ := require_device_id d in
  if bool_decide (fmap row_role (db_memberships db !! (n, d)) = Some mr_member) then
    let db := set_memberships (delete (n, d) (db_memberships db)) (set_leases (delete (n, d) (db_leases db)) db) in
    let* previous := read_policy db n in
    let p := forget_device d previous in
    if bool_decide (p = previous) then Ok (true, db)
    else
      check! negb (revision p =? 2 ^ 64 - 1) else overflow_error in
      let* doc := encode_network_policy (with_revision (revision p + 1) p) in
      let* _ := constraint ((1 <=? len doc) && (len doc <=? 32768)) in
      Ok (true, if present n (db_policies db) then set_policies (<[n := doc]> (db_policies db)) db else db)
  else Ok (false, db).

Definition list_members (db : Db) (n : bytes) : result (list MembershipRecord) :=
  let* _ := require_network_id n in
  Ok (map (fun e => mk_member_record n (fst e) (row_role (snd e)) (row_joined_at_ms (snd e)))
    (order_by (fun e => [- membership_role_value (row_role (snd e)); be_value (fst e)]) (rows_of n (db_memberships db)))).

Definition list_networks_for_device (db : Db) (d : bytes) : result (list NetworkRecord) :=
  let* _ := require_device_id d in
  Ok (order_by (fun r => [nr_created r; be_value (nr_id r)])
    (omap (fun e : bytes * MembershipRow => fmap (network_record (fst e)) (db_networks db !! fst e)) (rows_for d (db_memberships db)))).

Definition find_subnet (db : Db) (n : bytes) : result (option NetworkSubnetRecord) :=
  let* _ := require_network_id n in
  match db_subnets db !! n with
  | None => Ok None
  | Some raw => let* r := read_subnet n raw in Ok (Some r)
  end.

Definition find_virtual_ipv4_lease (db : Db) (n d : bytes) : result (option VirtualIpv4LeaseRecord) :=
  let* _ := require_network_id n in
  let* _ := require_device_id d in
  match db_leases db !! (n, d) with
  | None => Ok None
  | Some raw => let* r := read_lease n d raw in Ok (Some r)
  end.

Definition list_virtual_ipv4_leases (db : Db) (n : bytes) : result (list VirtualIpv4LeaseRecord) :=
  let* _ := require_network_id n in
  map_result (fun e => read_lease n (fst e) (snd e)) (order_by (fun e => [snd e]) (network_leases db n)).

(** ** Invitations and join requests *)

Definition add_invitation (db : Db) (n d : bytes) (invited_at_ms : Z) : result (bool * Db) :=
  let* _ := require_network_id n in
  let* _ := require_device_id d in
  let* _ := require_timestamp invited_at_ms in
  if present (n, d) (db_memberships db) || present (n, d) (db_join_requests db) || present (n, d) (db_invitations db)
  then Ok (false, db)
  else
    let* _ := constraint (present n (db_networks db) && present d (db_devices db)) in
    Ok (true, set_invitations (<[(n, d) := invited_at_ms]> (db_invitations db)) db).

Definition remove_invitation (db : Db) (n d : bytes) : result (bool * Db) :=
  let* _ := require_network_id n in
  let* _ := require_device_id d in
  Ok (present (n, d) (db_invitations db), set_invitations (delete (n, d) (db_invitations db)) db).

Definition find_invitation (db : Db) (n d : bytes) : result (option InvitationRecord) :=
  let* _ := require_network_id n in
  let* _ := require_device_id d in
  Ok (fmap (mk_invitation n d) (db_invitations db !! (n, d))).

Definition list_invitations_for_network (db : Db) (n : bytes) : result (list InvitationRecord) :=
  let* _ := require_network_id n in
  Ok (map (fun e => mk_invitation n (fst e) (snd e)) (order_by (fun e => [snd e; be_value (fst e)]) (rows_of n (db_invitations db)))).

Definition list_invitations_for_device (db : Db) (d : bytes) : result (list InvitationRecord) :=
  let* _ := require_device_id d in
  Ok (map (fun e => mk_invitation (fst e) d (snd e)) (order_by (fun e => [snd e; be_value (fst e)]) (rows_for d (db_invitations db)))).

Definition add_join_request (db : Db) (n d : bytes) (requested_at_ms : Z) : result (bool * Db) :=
  let* _ := require_network_id n in
  let* _ := require_device_id d in
  let* _ := require_timestamp requested_at_ms in
  if present (n, d) (db_memberships db) || present (n, d) (db_invitations db) || present (n, d) (db_join_requests db)
  then Ok (false, db)
  else
    let* _ := constraint (present n (db_networks db) && present d (db_devices db)) in
    Ok (true, set_join_requests (<[(n, d) := requested_at_ms]> (db_join_requests db)) db).

Definition remove_join_request (db : Db) (n d : bytes) : result (bool * Db) :=
  let* _ := require_network_id n in
  let* _ := require_device_id d in
  Ok (present (n, d) (db_join_requests db), set_join_requests (delete (n, d) (db_join_requests db)) db).

Definition find_join_request (db : Db) (n d : bytes) : result (option JoinRequestRecord) :=
  let* _ := require_network_id n in
  let* _ := require_device_id d in
  Ok (fmap (mk_join_request n d) (db_join_requests db !! (n, d))).

Definition list_join_requests_for_network (db : Db) (n : bytes) : result (list JoinRequestRecord) :=
  let* _ := require_network_id n in
  Ok (map (fun e => mk_join_request n (fst e) (snd e)) (order_by (fun e => [snd e; be_value (fst e)]) (rows_of n (db_join_requests db)))).

Definition list_join_requests_for_device (db : Db) (d : bytes) : result (list JoinRequestRecord) :=
  let* _ := require_device_id d in
  Ok (map (fun e => mk_join_request (fst e) d (snd e)) (order_by (fun e => [snd e; be_value (fst e)]) (rows_for d (db_join_requests db)))).

(** ** Invitation links and passwords *)

Definition issue_invite_link (db : Db) (n digest : bytes) (now_ms expires_ms max_uses : Z) : result Db :=
  check! negb ((expires_ms <=? now_ms) || (expires_ms - now_ms >? 86400000) || (max_uses =? 0) || (max_uses >? 100))
    else invalid_argument in
  let links := filter (fun e : bytes * LinkRow => ~ (link_expires (snd e) <= now_ms \/ link_remaining (snd e) = 0)) (db_links db) in
  check! negb (Z.of_nat (size (filter (fun e : bytes * LinkRow => link_network (snd e) = n) links)) >=? 64) else length_error in
  let* _ := constraint (negb (present digest links) && present n (db_networks db)) in
  Ok (set_links (<[digest := mk_link n expires_ms max_uses]> links) db).

Definition redeem_invite_link (db : Db) (n digest actor : bytes) (now_ms : Z) : result (bool * Db) :=
  match db_links db !! digest with
  | Some link =>
      if bool_decide (link_network link = n) && (link_expires link >? now_ms) && (link_remaining link >? 0) then
        let db := set_join_requests (delete (n, actor) (db_join_requests db)) db in
        let* _ := constraint (negb (present (n, actor) (db_memberships db))) in
        let* db :=
          if present (n, actor) (db_invitations db) then Ok db
          else
            let* _ := constraint (present n (db_networks db) && present actor (db_devices db)) in
            Ok (set_invitations (<[(n, actor) := now_ms]> (db_invitations db)) db) in
        Ok (true, set_links (<[digest := mk_link (link_network link) (link_expires link) (link_remaining link - 1)]> (db_links db)) db)
      else Ok (false, db)
  | None => Ok (false, db)
  end.

Definition revoke_invite_links (db : Db) (n : bytes) : Db :=
  set_links (filter (fun e : bytes * LinkRow => link_network (snd e) <> n) (db_links db)) db.

Definition network_password (db : Db) (n : bytes) : option PasswordVerifier := db_access db !! n.

Definition set_network_password (db : Db) (n : bytes) (password : option PasswordVerifier) : result Db :=
  match password with
  | None => Ok (set_access (delete n (db_access db)) db)
  | Some p =>
      let* _ := constraint (present n (db_networks db)) in
      Ok (set_access (<[n := p]> (db_access db)) db)
  end.

(** ** Accounts *)

Definition device_revoked (db : Db) (d : bytes) : bool :=
  match db_account_devices db !! d with Some r => ad_revoked r | None => false end.

Definition account_for_device (db : Db) (d : bytes) : option AccountRecord :=
  match db_account_devices db !! d with
  | Some r =>
      if ad_revoked r then None
      else fmap (fun a => mk_account (ad_account r) (account_owner a) (account_name a)) (db_accounts db !! ad_account r)
  | None => None
  end.

Definition account_rows (db : Db) (account : bytes) : list (bytes * AccountDeviceRow) :=
  List.filter (fun e => bool_decide (ad_account (snd e) = account)) (map_to_list (db_account_devices db)).

Definition account_devices (db : Db) (account : bytes) : list AccountDevice :=
  take 64 (map (fun e => mk_listed_device (fst e) (ad_label (snd e)) (ad_revoked (snd e)))
    (order_by (fun e => [be_value (fst e)]) (account_rows db account))).

Definition create_account (db : Db) (a : AccountRecord) (now_ms : Z) : result Db :=
  let* _ := require_device_id (ac_id a) in
  let* _ := require_device_id (ac_owner a) in
  let* _ := require_timestamp now_ms in
  check! negb ((len (ac_name a) =? 0) || (len (ac_name a) >? 128)) else invalid_argument in
  let* _ := constraint (negb (present (ac_id a) (db_accounts db)) &&
    forallb (fun e => negb (bool_decide (account_owner (snd e) = ac_owner a))) (map_to_list (db_accounts db)) &&
    present (ac_owner a) (db_devices db)) in
  let* _ := constraint (negb (present (ac_owner a) (db_account_devices db))) in
  Ok (set_account_tables (<[ac_id a := mk_account_row (ac_owner a) (ac_name a)]> (db_accounts db))
        (<[ac_owner a := mk_account_device (ac_id a) (ac_name a) false]> (db_account_devices db)) (db_enrollment db) db).

Definition issue_enrollment (db : Db) (account digest : bytes) (expires_ms : Z) : result Db :=
  let* _ := constraint (present account (db_accounts db) &&
    forallb (fun e => negb (bool_decide (en_digest (snd e) = digest)) || bool_decide (fst e = account)) (map_to_list (db_enrollment db))) in
  Ok (set_account_tables (db_accounts db) (db_account_devices db) (<[account := mk_enrollment digest expires_ms]> (db_enrollment db)) db).

Definition find_enrollment (db : Db) (digest : bytes) (now_ms : Z) : option bytes :=
  fmap fst (find (fun e : bytes * EnrollmentRow => bool_decide (en_digest (snd e) = digest) && (en_expires (snd e) >? now_ms))
    (map_to_list (db_enrollment db))).

Definition enroll_device (db : Db) (digest d label : bytes) (now_ms : Z) : result (bool * Db) :=
  let* _ := require_device_id d in
  let* _ := require_timestamp now_ms in
  check! negb ((len label =? 0) || (len label >? 128)) else invalid_argument in
  match find_enrollment db digest now_ms with
  | None => Ok (false, db)
  | Some account =>
      if match db_account_devices db !! d with
         | Some r => negb (bool_decide (ad_account r = account)) || negb (ad_revoked r)
         | None => false
         end
      then Ok (false, db)
      else if Z.of_nat (length (account_rows db account)) >=? 64 then Ok (false, db)
      else
        let* _ := constraint (present d (db_devices db)) in
        Ok (true, set_account_tables (db_accounts db) (<[d := mk_account_device account label false]> (db_account_devices db))
              (filter (fun e : bytes * EnrollmentRow => en_digest (snd e) <> digest) (db_enrollment db)) db)
  end.

Definition revoke_account_device (db : Db) (account d : bytes) : Db :=
  match db_account_devices db !! d with
  | Some r =>
      if bool_decide (ad_account r = account) &&
         forallb (fun e => negb (bool_decide (account_owner (snd e) = d))) (map_to_list (db_accounts db))
      then set_account_tables (db_accounts db) (<[d := mk_account_device (ad_account r) (ad_label r) true]> (db_account_devices db))
             (db_enrollment db) db
      else db
  | None => db
  end.

(** [list_networks] of load_state, the part of the snapshot the service uses. *)
Definition list_networks (db : Db) : list NetworkRecord :=
  map (fun e => network_record (fst e) (snd e)) (order_by (fun e => [be_value (fst e)]) (map_to_list (db_networks db))).

(** ** Queries *)

Lemma key_le_total a b : key_le a b = true \/ key_le b a = true.
Proof.
  revert b. induction a as [|x a IH]; intros [|y b]; cbn; auto.
  destruct (Z.lt_trichotomy x y) as [L|[->|L]].
  - left. apply orb_true_iff. left. lia.
  - rewrite Z.ltb_irrefl, Z.eqb_refl. apply IH.
  - right. apply orb_true_iff. left. lia.
Qed.

Lemma key_le_trans a b c : key_le a b = true -> key_le b c = true -> key_le a c = true.
Proof.
  revert b c. induction a as [|x a IH]; intros [|y b] [|z c]; cbn; try done.
  intros H1 H2. apply orb_true_iff in H1, H2. apply orb_true_iff.
  destruct H1 as [H1|H1], H2 as [H2|H2]; bool_prop; try (left; lia).
  right. apply andb_true_iff. split; [lia|]. eauto.
Qed.

Section Ordering.
Context {A : Type} (key : A -> list Z).
Let R := fun x y : A => Is_true (key_le (key x) (key y)).

#[local] Instance R_total : Total R.
Proof. intros x y. unfold R. rewrite !Is_true_true. apply key_le_total. Qed.
#[local] Instance R_trans : Transitive R.
Proof. intros x y z. unfold R. rewrite !Is_true_true. apply key_le_trans. Qed.

Lemma order_by_perm l : Permutation (order_by key l) l.
Proof. apply merge_sort_Permutation. Qed.

Lemma order_by_sorted l : StronglySorted (fun x y => key_le (key x) (key y) = true) (order_by key l).
Proof.
  pose proof (StronglySorted_merge_sort R l) as H. unfold order_by. fold R.
  induction H as [|x k H IH F]; constructor; [done|]. eapply Forall_impl; [exact F|].
  intros y. unfold R. by rewrite Is_true_true.
Qed.
End Ordering.

(** Distinct addresses in ascending order. *)
Lemma order_addresses l : NoDup l -> StronglySorted Z.lt (order_by (fun a => [a]) l).
Proof.
  intros N. pose proof (order_by_sorted (fun a : Z => [a]) l) as S.
  rewrite <- (order_by_perm (fun a : Z => [a]) l) in N. revert N.
  induction S as [|x k S IH F]; intros N; constructor; apply NoDup_cons in N as [Nx N]; [by apply IH|].
  rewrite Forall_forall in F |- *. intros y Hy. specialize (F y Hy). cbn in F.
  assert (x <> y) by (intros ->; done). apply orb_true_iff in F as [F|F]; bool_prop; lia.
Qed.

Lemma rows_of_elem {A} (n d : bytes) (m : gmap (bytes * bytes) A) (a : A) : (d, a) ∈ rows_of n m <-> m !! (n, d) = Some a.
Proof.
  unfold rows_of. rewrite list_elem_of_omap. split.
  - intros ([[n' d'] a'] & Hin & H). apply elem_of_map_to_list in Hin. cbn in H.
    destruct (bool_decide (n' = n)) eqn:E; [|done]. bool_prop. by simplify_eq.
  - intros H. exists ((n, d), a). split; [by apply elem_of_map_to_list|]. cbn. by rewrite bool_decide_eq_true_2.
Qed.

Lemma rows_for_elem {A} (d n : bytes) (m : gmap (bytes * bytes) A) (a : A) : (n, a) ∈ rows_for d m <-> m !! (n, d) = Some a.
Proof.
  unfold rows_for. rewrite list_elem_of_omap. split.
  - intros ([[n' d'] a'] & Hin & H). apply elem_of_map_to_list in Hin. cbn in H.
    destruct (bool_decide (d' = d)) eqn:E; [|done]. bool_prop. by simplify_eq.
  - intros H. exists ((n, d), a). split; [by apply elem_of_map_to_list|]. cbn. by rewrite bool_decide_eq_true_2.
Qed.

(** The loop finds the first free address, whatever the gaps. *)
Lemma scan_free_spec step l : 0 < step -> forall c,
  StronglySorted Z.lt l ->
  Forall (fun a => virtual_ipv4_pool_first <= a < virtual_ipv4_pool_end /\ c <= a /\ (a - c) mod step = 0) l ->
  exists k : Z, 0 <= k /\ scan_free step l c = Ok (c + step * k) /\
    (forall j, 0 <= j < k -> c + step * j ∈ l) /\ c + step * k ∉ l.
Proof.
  intros Hs. induction l as [|a l IH]; intros c S F.
  { exists 0. rewrite Z.mul_0_r, Z.add_0_r. split; [lia|]. split; [done|]. split; [lia|]. apply not_elem_of_nil. }
  inversion S as [|? ? S' L]; subst. apply Forall_cons in F as [(Hp & Hc & Hm) F]. cbn [scan_free].
  unfold read_virtual_address. guard_true by (apply negb_true_iff, orb_false_iff; rewrite Z.geb_leb, Z.ltb_ge, Z.leb_gt; lia).
  rewrite Forall_forall in L. destruct (a >? c) eqn:G1; bool_prop.
  { exists 0. rewrite Z.mul_0_r, Z.add_0_r. split; [lia|]. split; [done|]. split; [lia|].
    intros [->|Hin]%elem_of_cons; [lia|]. specialize (L _ Hin). lia. }
  guard_true by (apply Z.eqb_eq; lia). assert (a = c) as -> by lia.
  destruct (IH (c + step) S') as (k & Hk & E & J & N).
  { rewrite Forall_forall in F |- *. intros y Hy. destruct (F y Hy) as (Hpy & Hcy & Hmy). specialize (L y Hy).
    split; [done|]. apply Z.mod_divide in Hmy as [q Hq]; [|lia].
    assert (1 <= q) by (clear -L Hq Hs; nia). split; [clear -H Hq Hs; nia|].
    apply Z.mod_divide; [lia|]. exists (q - 1). lia. }
  exists (k + 1). split; [lia|]. replace (c + step * (k + 1)) with (c + step + step * k) by lia. split; [done|]. split.
  - intros j Hj. destruct (Z.eq_dec j 0) as [->|]; [rewrite Z.mul_0_r, Z.add_0_r; by left|].
    right. replace (c + step * j) with (c + step + step * (j - 1)) by lia. apply J. lia.
  - intros [E'|Hin]%elem_of_cons; [clear -E' Hk Hs; nia|]. done.
Qed.
