(* ===== verification/StoreInvariant.v ===== *)
(** * Consistency of the relay's database

    What the tables of [RelayStore] satisfy after any sequence of operations on a fresh
    database, and what address allocation guarantees. *)
From stdpp Require Import sorting.
From S2P Require Import Prelude Wire Ipv4 NetworkPolicy NetworkMessages AuditEvent RelayStore.

Record db_ok (db : Db) : Prop := {
  ok_member n d r : db_memberships db !! (n, d) = Some r ->
    is_Some (db_networks db !! n) /\ is_Some (db_devices db !! d) /\ is_Some (db_leases db !! (n, d));
  ok_owner n w : db_networks db !! n = Some w ->
    exists t, db_memberships db !! (n, row_owner w) = Some (mk_membership_row mr_owner t);
  ok_single_owner n d r w : db_memberships db !! (n, d) = Some r -> row_role r = mr_owner ->
    db_networks db !! n = Some w -> row_owner w = d;
  ok_network_subnet n : is_Some (db_networks db !! n) -> is_Some (db_subnets db !! n);
  ok_subnet n s : db_subnets db !! n = Some s ->
    is_Some (db_networks db !! n) /\ virtual_ipv4_pool_first <= s < virtual_ipv4_pool_end /\ s mod 256 = 0;
  ok_subnet_inj n n' s : db_subnets db !! n = Some s -> db_subnets db !! n' = Some s -> n = n';
  ok_lease n d a : db_leases db !! (n, d) = Some a ->
    is_Some (db_memberships db !! (n, d)) /\ exists s, db_subnets db !! n = Some s /\ s < a < s + 255;
  ok_lease_inj k k' a : db_leases db !! k = Some a -> db_leases db !! k' = Some a -> k = k';
  ok_invitation n d : is_Some (db_invitations db !! (n, d)) ->
    db_memberships db !! (n, d) = None /\ db_join_requests db !! (n, d) = None /\ is_Some (db_networks db !! n);
  ok_join_request n d : is_Some (db_join_requests db !! (n, d)) ->
    db_memberships db !! (n, d) = None /\ is_Some (db_networks db !! n)
}.

(** The tables the invariant speaks about. *)
Definition same_tables (a b : Db) : Prop :=
  db_devices a = db_devices b /\ db_networks a = db_networks b /\ db_memberships a = db_memberships b /\
  db_invitations a = db_invitations b /\ db_join_requests a = db_join_requests b /\
  db_subnets a = db_subnets b /\ db_leases a = db_leases b.

Lemma db_ok_same a b : same_tables a b -> db_ok a -> db_ok b.
Proof.
  intros (E1 & E2 & E3 & E4 & E5 & E6 & E7) []. constructor;
    rewrite <- ?E1, <- ?E2, <- ?E3, <- ?E4, <- ?E5, <- ?E6, <- ?E7; assumption.
Qed.

(** Lookups in updated tables. *)
Ltac lookups :=
  repeat (rewrite ?lookup_insert_is_Some', ?lookup_delete_is_Some, ?lookup_insert_Some, ?lookup_delete_Some,
    ?lookup_insert_None, ?lookup_delete_None in * ).

Lemma present_spec {K A} `{Countable K} (k : K) (m : gmap K A) : present k m = true <-> is_Some (m !! k).
Proof. unfold present. apply bool_decide_eq_true. Qed.
Lemma present_false {K A} `{Countable K} (k : K) (m : gmap K A) : present k m = false <-> m !! k = None.
Proof. unfold present. rewrite bool_decide_eq_false, <- eq_None_not_Some. done. Qed.

Lemma constraint_ok b u : constraint b = Ok u -> b = true.
Proof. unfold constraint. by destruct b. Qed.

Lemma forallb_values {K} `{Countable K} (m : gmap K Z) c :
  forallb (fun e : K * Z => negb (snd e =? c)) (map_to_list m) = true <-> forall k, m !! k <> Some c.
Proof.
  rewrite forallb_forall. split.
  - intros F k Hk. apply elem_of_map_to_list, list_elem_of_In in Hk. specialize (F _ Hk). cbn in F. bool_prop. done.
  - intros F [k a] Hin. apply list_elem_of_In, elem_of_map_to_list in Hin. cbn.
    apply negb_true_iff, Z.eqb_neq. intros ->. by apply (F k).
Qed.

(** ** The statements *)

Lemma insert_subnet_ok db n db' :
  insert_subnet db n = Ok db' ->
  exists c, db' = set_subnets (<[n := c]> (db_subnets db)) db /\
    virtual_ipv4_pool_first <= c < virtual_ipv4_pool_end /\ c mod 256 = 0 /\
    db_subnets db !! n = None /\ (forall k, db_subnets db !! k <> Some c).
Proof.
  unfold insert_subnet. intros H. destruct (scan_free _ _ _) as [c|]; [|done]. destruct (negb _) eqn:G; [|done].
  destruct (constraint _) as [[]|] eqn:C; [|done]. apply Ok_inj in H as <-. apply constraint_ok in C.
  rewrite !andb_true_iff, forallb_values, negb_true_iff, present_false in C.
  exists c. unfold virtual_ipv4_pool_first, virtual_ipv4_pool_end. destruct C as [[[[[C1 C2] C3] C4] C5] C6].
  bool_prop. auto with lia.
Qed.

Lemma insert_lease_ok db n d db' :
  insert_lease db n d = Ok db' ->
  exists c s, db' = set_leases (<[(n, d) := c]> (db_leases db)) db /\
    db_subnets db !! n = Some s /\ s < c < s + 255 /\ db_leases db !! (n, d) = None /\
    (forall k, db_leases db !! k <> Some c) /\ is_Some (db_memberships db !! (n, d)).
Proof.
  unfold insert_lease. intros H. destruct (db_subnets db !! n) as [raw|] eqn:S; [|done].
  destruct (read_virtual_address raw) as [base|]; [|done]. destruct (scan_free _ _ _) as [c|]; [|done].
  destruct (negb _) eqn:G in H; [|done]. destruct (constraint _) as [[]|] eqn:C; [|done]. apply Ok_inj in H as <-.
  apply constraint_ok in C. rewrite !andb_true_iff, forallb_values, negb_true_iff, present_false, present_spec in C.
  destruct C as [[[[[[[C1 C2] C3] C4] C5] C6] C7] C8]. bool_prop. injection C8 as ->.
  exists c, (c - c mod 256). split_and!; try done; lia.
Qed.

Lemma insert_membership_ok db n d role t db' :
  insert_membership db n d role t = Ok db' ->
  db' = set_join_requests (delete (n, d) (db_join_requests db))
          (set_invitations (delete (n, d) (db_invitations db))
             (set_memberships (<[(n, d) := mk_membership_row role t]> (db_memberships db)) db)) /\
  is_Some (db_networks db !! n) /\ is_Some (db_devices db !! d) /\
  (role = mr_member \/ fmap row_owner (db_networks db !! n) = Some d).
Proof.
  unfold insert_membership. intros H. destruct (constraint _) as [[]|] eqn:C; [|done]. apply Ok_inj in H as <-.
  apply constraint_ok in C. rewrite !andb_true_iff, orb_true_iff, !present_spec in C. destruct C as [[C1 C2] C3].
  split; [done|]. split; [done|]. split; [done|]. destruct C3 as [C3|C3]; bool_prop; auto.
Qed.

(** ** Each operation keeps the database consistent *)

Lemma record_device_keeps db d t db' : record_device db d t = Ok db' -> db_ok db -> db_ok db'.
Proof.
  unfold record_device. intros H OK. destruct (require_device_id d) as [[]|]; [|done].
  destruct (require_timestamp t) as [[]|]; [|done]. apply Ok_inj in H as <-.
  destruct OK. constructor; cbn; try done.
  intros n d' r Hr. destruct (ok_member0 _ _ _ Hr) as (? & ? & ?). lookups. auto.
Qed.

Lemma add_membership_keeps db n d t db1 db2 :
  db_memberships db !! (n, d) = None ->
  insert_membership db n d mr_member t = Ok db1 -> insert_lease db1 n d = Ok db2 -> db_ok db -> db_ok db2.
Proof.
  intros Hn H1 H2 OK. apply insert_membership_ok in H1 as (-> & Nn & Dd & _).
  apply insert_lease_ok in H2 as (c & s & -> & Hs & Hc & _ & U & _). cbn in Hs, U. destruct OK. constructor; cbn.
  - intros n' d' r Hr. apply lookup_insert_Some in Hr as [[E _]|[_ Hr]].
    + injection E as <- <-. lookups. auto.
    + destruct (ok_member0 _ _ _ Hr) as (? & ? & ?). lookups. auto.
  - intros n' w Hw. destruct (ok_owner0 _ _ Hw) as [t' Ht]. exists t'. rewrite lookup_insert_ne; [done|]. congruence.
  - intros n' d' r w Hr Hrole Hw. apply lookup_insert_Some in Hr as [[_ <-]|[_ Hr]]; [done|]. eauto.
  - done.
  - done.
  - done.
  - intros n' d' a Ha. apply lookup_insert_Some in Ha as [[E <-]|[_ Ha]].
    + injection E as <- <-. lookups. eauto.
    + destruct (ok_lease0 _ _ _ Ha) as (? & ?). lookups. eauto.
  - intros k k' a Hk Hk'. apply lookup_insert_Some in Hk as [[<- <-]|[_ Hk]], Hk' as [[<- E]|[_ Hk']]; try done; eauto.
    + by apply U in Hk'.
    + subst a. by apply U in Hk.
  - intros n' d' Hi. apply lookup_delete_is_Some in Hi as [Ne Hi]. destruct (ok_invitation0 _ _ Hi) as (? & ? & ?).
    rewrite lookup_insert_ne, lookup_delete_ne by done. auto.
  - intros n' d' Hi. apply lookup_delete_is_Some in Hi as [Ne Hi]. destruct (ok_join_request0 _ _ Hi) as (? & ?).
    rewrite lookup_insert_ne by done. auto.
Qed.

Lemma add_member_keeps db n d t b db' : add_member db n d t = Ok (b, db') -> db_ok db -> db_ok db'.
Proof.
  unfold add_member. intros H OK. destruct (require_network_id n) as [[]|]; [|done].
  destruct (require_device_id d) as [[]|]; [|done]. destruct (require_timestamp t) as [[]|]; [|done].
  destruct (present _ _) eqn:P; [by apply Ok_inj in H as [= <- <-]|]. apply present_false in P.
  destruct (insert_membership _ _ _ _ _) as [db1|] eqn:E1; [|done].
  destruct (insert_lease _ _ _) as [db2|] eqn:E2; [|done]. apply Ok_inj in H as [= <- <-].
  by eapply add_membership_keeps.
Qed.

(** A new network comes with its subnet, its owner's membership and its owner's lease. *)
Lemma create_network_keeps db network password db' :
  create_network db network password = Ok db' -> db_ok db -> db_ok db'.
Proof.
  unfold create_network. intros H OK. set (n := nr_id network) in *. set (o := nr_owner network) in *.
  destruct (require_network_id n) as [[]|]; [|done]. destruct (require_network_name _) as [[]|]; [|done].
  destruct (require_device_id o) as [[]|]; [|done]. destruct (require_timestamp _) as [[]|]; [|done].
  destruct (constraint (negb (present n _) && _)) as [[]|] eqn:C; [|done]. apply constraint_ok in C.
  rewrite andb_true_iff, negb_true_iff, present_false, present_spec in C. destruct C as [Fresh Dev].
  cbv zeta in H. destruct (insert_subnet _ n) as [db1|] eqn:E1; [|done].
  destruct (constraint _) as [[]|] eqn:C2; [|done]. clear C2.
  destruct (insert_membership _ _ _ _ _) as [db2|] eqn:E2; [|done]. destruct (insert_lease _ _ _) as [db3|] eqn:E3; [|done].
  apply insert_subnet_ok in E1 as (s & -> & Rs & As & Ns & Us). apply insert_membership_ok in E2 as (-> & _ & _ & _).
  apply insert_lease_ok in E3 as (c & s' & -> & Hs & Hc & _ & Uc & _). cbn in Hs, Uc, Ns, Us.
  rewrite lookup_insert_eq in Hs. injection Hs as <-.
  assert (NM : forall d, db_memberships db !! (n, d) = None).
  { intros d. destruct (db_memberships db !! (n, d)) as [r|] eqn:E; [|done].
    destruct (ok_member _ OK _ _ _ E) as ([w Hw] & _). congruence. }
  set (final := set_leases _ _) in H.
  assert (K : db_ok final).
  { destruct OK. constructor; unfold final; cbn.
    - intros n' d' r Hr. apply lookup_insert_Some in Hr as [[E _]|[_ Hr]].
      + injection E as <- <-. lookups. auto.
      + destruct (ok_member0 _ _ _ Hr) as (? & ? & ?). lookups. auto.
    - intros n' w Hw. apply lookup_insert_Some in Hw as [[<- <-]|[Ne Hw]].
      + exists (nr_created network). cbn. apply lookup_insert_eq.
      + destruct (ok_owner0 _ _ Hw) as [t Ht]. exists t. rewrite lookup_insert_ne; [done|]. congruence.
    - intros n' d' r w Hr Hrole Hw. apply lookup_insert_Some in Hr as [[E <-]|[_ Hr]].
      + injection E as <- <-. rewrite lookup_insert_eq in Hw. by injection Hw as <-.
      + apply lookup_insert_Some in Hw as [[<- <-]|[_ Hw]]; [by rewrite NM in Hr|eauto].
    - intros n' Hw. lookups. destruct Hw; eauto.
    - intros n' s' Hs'. apply lookup_insert_Some in Hs' as [[<- <-]|[_ Hs']]; lookups; [auto|].
      destruct (ok_subnet0 _ _ Hs') as (? & ? & ?). auto.
    - intros n1 n2 s1 H1 H2. apply lookup_insert_Some in H1 as [[<- <-]|[_ H1]], H2 as [[<- E]|[_ H2]]; try done; eauto.
      + by apply Us in H2.
      + subst s1. by apply Us in H1.
    - intros n' d' a Ha. apply lookup_insert_Some in Ha as [[E <-]|[_ Ha]].
      + injection E as <- <-. split; [by lookups; left|]. exists s. by rewrite lookup_insert_eq.
      + destruct (ok_lease0 _ _ _ Ha) as (? & s' & Hs' & ?). split; [by lookups; right|]. exists s'.
        rewrite lookup_insert_ne; [done|]. intros <-. congruence.
    - intros k k' a Hk Hk'. apply lookup_insert_Some in Hk as [[<- <-]|[_ Hk]], Hk' as [[<- E]|[_ Hk']]; try done; eauto.
      + by apply Uc in Hk'.
      + subst a. by apply Uc in Hk.
    - intros n' d' Hi. apply lookup_delete_is_Some in Hi as [Ne Hi]. destruct (ok_invitation0 _ _ Hi) as (? & ? & ?).
      rewrite lookup_insert_ne, lookup_delete_ne by done. lookups. auto.
    - intros n' d' Hi. apply lookup_delete_is_Some in Hi as [Ne Hi]. destruct (ok_join_request0 _ _ Hi) as (? & ?).
      rewrite lookup_insert_ne by done. lookups. auto. }
  destruct password as [p|]; [|by apply Ok_inj in H as <-].
  destruct (constraint _) as [[]|] in H; [|done]. apply Ok_inj in H as <-. eapply db_ok_same; [|exact K]. done.
Qed.

Lemma remove_member_keeps db n d b db' : remove_member db n d = Ok (b, db') -> db_ok db -> db_ok db'.
Proof.
  unfold remove_member. intros H OK. destruct (require_network_id n) as [[]|]; [|done].
  destruct (require_device_id d) as [[]|]; [|done].
  destruct (bool_decide _) eqn:M in H; [|by apply Ok_inj in H as [= <- <-]]. bool_prop.
  cbv zeta in H. set (db1 := set_memberships _ _) in H.
  assert (K : db_ok db1).
  { destruct (db_memberships db !! (n, d)) as [r|] eqn:Er; [|done]. injection M as M.
    destruct OK. constructor; cbn; try done.
    - intros n' d' r' Hr. apply lookup_delete_Some in Hr as [Ne Hr]. destruct (ok_member0 _ _ _ Hr) as (? & ? & ?). lookups. auto.
    - intros n' w Hw. destruct (ok_owner0 _ _ Hw) as [t Ht]. exists t. rewrite lookup_delete_ne; [done|].
      intros E. rewrite E in Er. rewrite Er in Ht. injection Ht as ->. done.
    - intros n' d' r' w Hr. apply lookup_delete_Some in Hr as [_ Hr]. eauto.
    - intros n' d' a Ha. apply lookup_delete_Some in Ha as [Ne Ha]. destruct (ok_lease0 _ _ _ Ha) as (? & ?). lookups. auto.
    - intros k k' a Hk Hk'. apply lookup_delete_Some in Hk as [_ Hk], Hk' as [_ Hk']. eauto.
    - intros n' d' Hi. destruct (ok_invitation0 _ _ Hi) as (? & ? & ?). lookups. auto.
    - intros n' d' Hi. destruct (ok_join_request0 _ _ Hi) as (? & ?). lookups. auto. }
  destruct (read_policy _ _) as [previous|]; [|done]. destruct (bool_decide _) in H; [by apply Ok_inj in H as [= <- <-]|].
  destruct (negb _) in H; [|done]. destruct (encode_network_policy _) as [doc|]; [|done].
  destruct (constraint _) as [[]|]; [|done]. apply Ok_inj in H as [= <- <-].
  destruct (present _ _); [|done]. eapply db_ok_same; [|exact K]. done.
Qed.

Lemma without_network_Some {A} (n : bytes) (m : gmap (bytes * bytes) A) n' d a :
  without_network n m !! (n', d) = Some a <-> m !! (n', d) = Some a /\ n' <> n.
Proof. unfold without_network. rewrite map_lookup_filter_Some. done. Qed.

Lemma without_network_is_Some {A} (n : bytes) (m : gmap (bytes * bytes) A) n' d :
  is_Some (without_network n m !! (n', d)) <-> is_Some (m !! (n', d)) /\ n' <> n.
Proof. unfold is_Some. setoid_rewrite without_network_Some. naive_solver. Qed.

Lemma without_network_None {A} (n : bytes) (m : gmap (bytes * bytes) A) n' d :
  m !! (n', d) = None -> without_network n m !! (n', d) = None.
Proof. intros H. unfold without_network. apply map_lookup_filter_None. by left. Qed.

Lemma delete_network_keeps db n b db' : delete_network db n = Ok (b, db') -> db_ok db -> db_ok db'.
Proof.
  unfold delete_network. intros H OK. destruct (require_network_id n) as [[]|]; [|done].
  destruct (present _ _) eqn:P; [|by apply Ok_inj in H as [= <- <-]]. apply Ok_inj in H as [= <- <-].
  destruct OK. constructor; cbn.
  - intros n' d' r Hr. apply without_network_Some in Hr as [Hr Ne]. destruct (ok_member0 _ _ _ Hr) as (? & ? & ?).
    rewrite without_network_is_Some. lookups. auto.
  - intros n' w Hw. apply lookup_delete_Some in Hw as [Ne Hw]. destruct (ok_owner0 _ _ Hw) as [t Ht]. exists t.
    by apply without_network_Some.
  - intros n' d' r w Hr Hrole Hw. apply without_network_Some in Hr as [Hr _]. apply lookup_delete_Some in Hw as [_ Hw]. eauto.
  - intros n' Hw. lookups. destruct Hw. auto.
  - intros n' s Hs. apply lookup_delete_Some in Hs as [Ne Hs]. destruct (ok_subnet0 _ _ Hs) as (? & ? & ?). lookups. auto.
  - intros n1 n2 s H1 H2. apply lookup_delete_Some in H1 as [_ H1], H2 as [_ H2]. eauto.
  - intros n' d' a Ha. apply without_network_Some in Ha as [Ha Ne]. destruct (ok_lease0 _ _ _ Ha) as (? & s & Hs & ?).
    rewrite without_network_is_Some. split; [done|]. exists s. by rewrite lookup_delete_ne.
  - intros [n1 d1] [n2 d2] a H1 H2. apply without_network_Some in H1 as [H1 _], H2 as [H2 _]. eauto.
  - intros n' d' Hi. apply without_network_is_Some in Hi as [Hi Ne]. destruct (ok_invitation0 _ _ Hi) as (? & ? & ?).
    rewrite !without_network_None by done. lookups. auto.
  - intros n' d' Hi. apply without_network_is_Some in Hi as [Hi Ne]. destruct (ok_join_request0 _ _ Hi) as (? & ?).
    rewrite without_network_None by done. lookups. auto.
Qed.

(** Adding or removing pending access. *)
Lemma set_invitation_keeps db n d t :
  db_memberships db !! (n, d) = None -> db_join_requests db !! (n, d) = None -> is_Some (db_networks db !! n) ->
  db_ok db -> db_ok (set_invitations (<[(n, d) := t]> (db_invitations db)) db).
Proof.
  intros Hm Hj Hn []. constructor; cbn; try done. intros n' d' Hi. lookups.
  destruct Hi as [E|Hi]; [injection E as <- <-; auto|auto].
Qed.

Lemma set_join_request_keeps db n d t :
  db_memberships db !! (n, d) = None -> db_invitations db !! (n, d) = None -> is_Some (db_networks db !! n) ->
  db_ok db -> db_ok (set_join_requests (<[(n, d) := t]> (db_join_requests db)) db).
Proof.
  intros Hm Hv Hn []. constructor; cbn; try done.
  - intros n' d' Hi. destruct (ok_invitation0 _ _ Hi) as (? & ? & ?). split; [done|]. split; [|done].
    rewrite lookup_insert_ne; [done|]. intros [= <- <-]. rewrite Hv in Hi. by destruct Hi.
  - intros n' d' Hi. lookups. destruct Hi as [E|Hi]; [injection E as <- <-; auto|auto].
Qed.

Lemma clear_invitation_keeps db n d : db_ok db -> db_ok (set_invitations (delete (n, d) (db_invitations db)) db).
Proof. intros []. constructor; cbn; try done. intros n' d' Hi. lookups. destruct Hi. auto. Qed.

Lemma clear_join_request_keeps db n d : db_ok db -> db_ok (set_join_requests (delete (n, d) (db_join_requests db)) db).
Proof.
  intros []. constructor; cbn; try done.
  - intros n' d' Hi. destruct (ok_invitation0 _ _ Hi) as (? & ? & ?). lookups. auto.
  - intros n' d' Hi. lookups. destruct Hi. auto.
Qed.

Lemma add_invitation_keeps db n d t b db' : add_invitation db n d t = Ok (b, db') -> db_ok db -> db_ok db'.
Proof.
  unfold add_invitation. intros H OK. destruct (require_network_id n) as [[]|]; [|done].
  destruct (require_device_id d) as [[]|]; [|done]. destruct (require_timestamp t) as [[]|]; [|done].
  destruct (_ || _) eqn:P in H; [by apply Ok_inj in H as [= <- <-]|].
  rewrite !orb_false_iff, !present_false in P. destruct P as [[P1 P2] P3].
  destruct (constraint _) as [[]|] eqn:C; [|done]. apply constraint_ok in C. rewrite andb_true_iff, !present_spec in C.
  apply Ok_inj in H as [= <- <-]. apply set_invitation_keeps; tauto.
Qed.

Lemma add_join_request_keeps db n d t b db' : add_join_request db n d t = Ok (b, db') -> db_ok db -> db_ok db'.
Proof.
  unfold add_join_request. intros H OK. destruct (require_network_id n) as [[]|]; [|done].
  destruct (require_device_id d) as [[]|]; [|done]. destruct (require_timestamp t) as [[]|]; [|done].
  destruct (_ || _) eqn:P in H; [by apply Ok_inj in H as [= <- <-]|].
  rewrite !orb_false_iff, !present_false in P. destruct P as [[P1 P2] P3].
  destruct (constraint _) as [[]|] eqn:C; [|done]. apply constraint_ok in C. rewrite andb_true_iff, !present_spec in C.
  apply Ok_inj in H as [= <- <-]. apply set_join_request_keeps; tauto.
Qed.

Lemma remove_invitation_keeps db n d b db' : remove_invitation db n d = Ok (b, db') -> db_ok db -> db_ok db'.
Proof.
  unfold remove_invitation. intros H OK. destruct (require_network_id n) as [[]|]; [|done].
  destruct (require_device_id d) as [[]|]; [|done]. apply Ok_inj in H as [= <- <-]. by apply clear_invitation_keeps.
Qed.

Lemma remove_join_request_keeps db n d b db' : remove_join_request db n d = Ok (b, db') -> db_ok db -> db_ok db'.
Proof.
  unfold remove_join_request. intros H OK. destruct (require_network_id n) as [[]|]; [|done].
  destruct (require_device_id d) as [[]|]; [|done]. apply Ok_inj in H as [= <- <-]. by apply clear_join_request_keeps.
Qed.

Lemma redeem_keeps db n digest actor now b db' :
  redeem_invite_link db n digest actor now = Ok (b, db') -> db_ok db -> db_ok db'.
Proof.
  unfold redeem_invite_link. intros H OK. destruct (db_links db !! digest) as [link|]; [|by apply Ok_inj in H as [= <- <-]].
  destruct (_ && _ && _) in H; [|by apply Ok_inj in H as [= <- <-]]. cbv zeta in H.
  set (db1 := set_join_requests _ _) in H. assert (K1 : db_ok db1) by by apply clear_join_request_keeps.
  destruct (constraint _) as [[]|] eqn:C in H; [|done]. apply constraint_ok, negb_true_iff, present_false in C.
  destruct (present _ _) in H.
  - apply Ok_inj in H as [= <- <-]. by eapply db_ok_same; [|exact K1].
  - destruct (constraint _) as [[]|] eqn:C2 in H; [|done]. apply constraint_ok in C2. rewrite andb_true_iff, !present_spec in C2.
    apply Ok_inj in H as [= <- <-]. eapply db_ok_same; [|apply (set_invitation_keeps db1 n actor now)]; try done; [|tauto].
    apply lookup_delete_eq.
Qed.

Lemma append_audit_same db e db' : append_audit_locked db e = Ok db' -> same_tables db db'.
Proof. unfold append_audit_locked. intros H. destruct (encode_audit_event e); [|done]. by apply Ok_inj in H as <-. Qed.

Lemma save_network_policy_same db n p expected audit b db' :
  save_network_policy db n p expected audit = Ok (b, db') -> same_tables db db'.
Proof.
  unfold save_network_policy. intros H. destruct (encode_network_policy p) as [doc|]; [|done].
  destruct (negb _) in H; [|done]. destruct (read_policy _ _) as [old|]; [|done].
  destruct (negb _) in H; [by apply Ok_inj in H as [= <- <-]|]. destruct (constraint _) as [[]|] in H; [|done].
  destruct audit as [e|]; [|by apply Ok_inj in H as [= <- <-]].
  destruct (append_audit_locked _ _) as [db2|] eqn:A; [|done]. apply Ok_inj in H as [= <- <-]. by apply append_audit_same in A.
Qed.

(** ** Reachable databases *)

(** Every operation that writes, with the database it returns when it does not throw. *)
Inductive store_step (db : Db) : Db -> Prop :=
| st_record_device d t db' : record_device db d t = Ok db' -> store_step db db'
| st_create_network network password db' : create_network db network password = Ok db' -> store_step db db'
| st_delete_network n b db' : delete_network db n = Ok (b, db') -> store_step db db'
| st_add_member n d t b db' : add_member db n d t = Ok (b, db') -> store_step db db'
| st_remove_member n d b db' : remove_member db n d = Ok (b, db') -> store_step db db'
| st_add_invitation n d t b db' : add_invitation db n d t = Ok (b, db') -> store_step db db'
| st_remove_invitation n d b db' : remove_invitation db n d = Ok (b, db') -> store_step db db'
| st_add_join_request n d t b db' : add_join_request db n d t = Ok (b, db') -> store_step db db'
| st_remove_join_request n d b db' : remove_join_request db n d = Ok (b, db') -> store_step db db'
| st_issue_invite_link n digest now expires uses db' : issue_invite_link db n digest now expires uses = Ok db' -> store_step db db'
| st_redeem_invite_link n digest actor now b db' : redeem_invite_link db n digest actor now = Ok (b, db') -> store_step db db'
| st_revoke_invite_links n : store_step db (revoke_invite_links db n)
| st_set_network_password n p db' : set_network_password db n p = Ok db' -> store_step db db'
| st_create_account a now db' : create_account db a now = Ok db' -> store_step db db'
| st_issue_enrollment a digest expires db' : issue_enrollment db a digest expires = Ok db' -> store_step db db'
| st_enroll_device digest d label now b db' : enroll_device db digest d label now = Ok (b, db') -> store_step db db'
| st_revoke_account_device a d : store_step db (revoke_account_device db a d)
| st_save_network_policy n p expected audit b db' : save_network_policy db n p expected audit = Ok (b, db') -> store_step db db'
| st_append_audit e db' : append_audit db e = Ok db' -> store_step db db'.

Definition store_reachable (db : Db) : Prop := rtc store_step empty_db db.

Lemma store_step_keeps db db' : store_step db db' -> db_ok db -> db_ok db'.
Proof.
  intros S OK. destruct S as
    [d t db' H|w p db' H|n b db' H|n d t b db' H|n d b db' H|n d t b db' H|n d b db' H|n d t b db' H|n d b db' H
    |n g now ex u db' H|n g a now b db' H|n|n p db' H|a now db' H|a g ex db' H|g d l now b db' H|a d|n p e au b db' H|e db' H].
  - by eapply record_device_keeps.
  - by eapply create_network_keeps.
  - by eapply delete_network_keeps.
  - by eapply add_member_keeps.
  - by eapply remove_member_keeps.
  - by eapply add_invitation_keeps.
  - by eapply remove_invitation_keeps.
  - by eapply add_join_request_keeps.
  - by eapply remove_join_request_keeps.
  - eapply db_ok_same; [|exact OK]. unfold issue_invite_link in H. ok_inv H. by subst db'.
  - by eapply redeem_keeps.
  - by eapply db_ok_same; [|exact OK].
  - eapply db_ok_same; [|exact OK]. unfold set_network_password in H. destruct p; ok_inv H; by subst db'.
  - eapply db_ok_same; [|exact OK]. unfold create_account in H. ok_inv H. by subst db'.
  - eapply db_ok_same; [|exact OK]. unfold issue_enrollment in H. ok_inv H. by subst db'.
  - eapply db_ok_same; [|exact OK]. unfold enroll_device in H. ok_inv H.
    destruct (find_enrollment _ _ _); [|by apply Ok_inj in H as [= <- <-]].
    destruct (match _ with Some _ => _ | None => _ end) in H; [by apply Ok_inj in H as [= <- <-]|].
    destruct (_ >=? 64) in H; [by apply Ok_inj in H as [= <- <-]|]. ok_inv H. by injection H as <- <-.
  - eapply db_ok_same; [|exact OK]. unfold revoke_account_device. destruct (db_account_devices db !! d); [|done].
    by destruct (_ && _).
  - eapply db_ok_same; [|exact OK]. by eapply save_network_policy_same.
  - eapply db_ok_same; [|exact OK]. by eapply append_audit_same.
Qed.

Lemma empty_db_ok : db_ok empty_db.
Proof. constructor; cbn; intros; rewrite ?lookup_empty in *; try done; by destruct H. Qed.

Lemma reachable_db_ok db : store_reachable db -> db_ok db.
Proof.
  unfold store_reachable. intros H. assert (G : forall a b, rtc store_step a b -> db_ok a -> db_ok b).
  { induction 1 as [|a b c S _ IH]; [done|]. intros OK. apply IH. by eapply store_step_keeps. }
  eapply G; [exact H|exact empty_db_ok].
Qed.

(** ** References between the tables *)

(** The foreign keys of the schema that [db_ok] does not imply. *)
Record references_ok (db : Db) : Prop := {
  fk_invitation n d : is_Some (db_invitations db !! (n, d)) -> is_Some (db_devices db !! d);
  fk_join_request n d : is_Some (db_join_requests db !! (n, d)) -> is_Some (db_devices db !! d);
  fk_link g l : db_links db !! g = Some l -> is_Some (db_networks db !! link_network l);
  fk_access n : is_Some (db_access db !! n) -> is_Some (db_networks db !! n);
  fk_policy n : is_Some (db_policies db !! n) -> is_Some (db_networks db !! n);
  fk_account a r : db_accounts db !! a = Some r -> is_Some (db_devices db !! account_owner r);
  fk_account_device d : is_Some (db_account_devices db !! d) -> is_Some (db_devices db !! d);
  fk_device_account d r : db_account_devices db !! d = Some r -> is_Some (db_accounts db !! ad_account r);
  fk_enrollment a : is_Some (db_enrollment db !! a) -> is_Some (db_accounts db !! a)
}.

Lemma filter_is_Some {K A} `{Countable K} (P : K * A -> Prop) `{!forall x, Decision (P x)} (m : gmap K A) k :
  is_Some (filter P m !! k) -> is_Some (m !! k).
Proof. intros [x Hx]. apply map_lookup_filter_Some in Hx as [Hx _]. by exists x. Qed.

(** Every row that is not new keeps its references: the tables referred to only grow, or the rows that
    refer to what went are gone as well. *)
Ltac filtered := repeat match goal with
  | H : is_Some (filter _ _ !! _) |- _ => apply filter_is_Some in H
  | H : filter _ _ !! _ = Some _ |- _ => apply map_lookup_filter_Some in H as [H ?]
  | H : is_Some (without_network _ _ !! _) |- _ => apply without_network_is_Some in H as [H ?]
  end.
Ltac keep_references :=
  constructor; cbn; intros; filtered; cbn in *; lookups; destruct_and?; destruct_or?; destruct_and?; filtered; simplify_eq/=;
  repeat split; first [done|congruence|by eauto|by left; eauto|by right; eauto].

Lemma insert_membership_references db n d role t db' : insert_membership db n d role t = Ok db' -> references_ok db -> references_ok db'.
Proof. intros H []. apply insert_membership_ok in H as (-> & _). keep_references. Qed.
Lemma insert_lease_references db n d db' : insert_lease db n d = Ok db' -> references_ok db -> references_ok db'.
Proof. intros H []. apply insert_lease_ok in H as (c & s & -> & _). keep_references. Qed.
Lemma insert_subnet_references db n db' : insert_subnet db n = Ok db' -> references_ok db -> references_ok db'.
Proof. intros H []. apply insert_subnet_ok in H as (c & -> & _). keep_references. Qed.

Lemma password_references db n p : is_Some (db_networks db !! n) -> references_ok db ->
  references_ok (set_access (<[n := p]> (db_access db)) db).
Proof. intros N []. keep_references. Qed.

Lemma policy_references db n doc : is_Some (db_networks db !! n) -> references_ok db ->
  references_ok (set_policies (<[n := doc]> (db_policies db)) db).
Proof. intros N []. keep_references. Qed.

Lemma create_network_references db network password db' :
  create_network db network password = Ok db' -> references_ok db -> references_ok db'.
Proof.
  unfold create_network. cbv zeta. intros H F. set (n := nr_id network) in *.
  destruct (require_network_id n) as [[]|]; [|done]. destruct (require_network_name _) as [[]|]; [|done].
  destruct (require_device_id _) as [[]|]; [|done]. destruct (require_timestamp _) as [[]|]; [|done].
  destruct (constraint (negb (present n _) && _)) as [[]|] eqn:C; [|done]. clear C.
  set (db0 := set_networks _ db) in H. assert (F0 : references_ok db0) by (destruct F; keep_references).
  destruct (insert_subnet db0 n) as [db1|] eqn:E1; [|done]. destruct (constraint _) as [[]|] eqn:C2 in H; [|done]. clear C2.
  destruct (insert_membership _ _ _ _ _) as [db2|] eqn:E2; [|done]. destruct (insert_lease _ _ _) as [db3|] eqn:E3; [|done].
  assert (F3 : references_ok db3).
  { eapply insert_lease_references, insert_membership_references, insert_subnet_references, F0; eassumption. }
  destruct password as [p|]; [|by apply Ok_inj in H as <-].
  destruct (constraint _) as [[]|] in H; [|done]. apply Ok_inj in H as <-.
  apply password_references; [|exact F3].
  apply insert_membership_ok in E2 as (-> & Net & _). by apply insert_lease_ok in E3 as (c & s' & -> & _).
Qed.

Lemma remove_member_references db n d b db' : remove_member db n d = Ok (b, db') -> references_ok db -> references_ok db'.
Proof.
  unfold remove_member. intros H F. destruct (require_network_id n) as [[]|]; [|done].
  destruct (require_device_id d) as [[]|]; [|done]. destruct (bool_decide _) in H; [|by apply Ok_inj in H as [= <- <-]].
  cbv zeta in H. set (db1 := set_memberships _ _) in H. assert (K : references_ok db1) by (destruct F; keep_references).
  destruct (read_policy _ _) as [previous|]; [|done]. destruct (bool_decide _) in H; [by apply Ok_inj in H as [= <- <-]|].
  destruct (negb _) in H; [|done]. destruct (encode_network_policy _) as [doc|]; [|done].
  destruct (constraint _) as [[]|]; [|done]. apply Ok_inj in H as [= <- <-].
  destruct (present n _) eqn:P; [|done]. apply present_spec, (fk_policy _ K) in P. by apply (policy_references db1).
Qed.

(** A table of rows for a network and a device gains or loses a row. *)
Lemma access_row_references db n d (F : references_ok db) :
  references_ok (set_invitations (delete (n, d) (db_invitations db)) db) /\
  references_ok (set_join_requests (delete (n, d) (db_join_requests db)) db) /\
  (forall t, is_Some (db_devices db !! d) ->
     references_ok (set_invitations (<[(n, d) := t]> (db_invitations db)) db) /\
     references_ok (set_join_requests (<[(n, d) := t]> (db_join_requests db)) db)).
Proof. destruct F. split_and!; [keep_references..|]. intros t D. split; keep_references. Qed.

Lemma pending_references db n d t b db' : references_ok db ->
  add_invitation db n d t = Ok (b, db') \/ remove_invitation db n d = Ok (b, db') \/
  add_join_request db n d t = Ok (b, db') \/ remove_join_request db n d = Ok (b, db') -> references_ok db'.
Proof.
  intros F. destruct (access_row_references db n d F) as (Ri & Rj & A).
  assert (Dev : forall u, constraint (present n (db_networks db) && present d (db_devices db)) = Ok u -> is_Some (db_devices db !! d))
    by (intros u C; apply constraint_ok in C; rewrite andb_true_iff, !present_spec in C; tauto).
  unfold add_invitation, remove_invitation, add_join_request, remove_join_request.
  intros [H|[H|[H|H]]]; ok_inv H; first [by injection H as <- <-|destruct (_ || _) in H; ok_inv H; injection H as <- <-; [done|]].
  all: eapply A, Dev; eassumption.
Qed.

Lemma redeem_references db n digest actor now b db' :
  redeem_invite_link db n digest actor now = Ok (b, db') -> references_ok db -> references_ok db'.
Proof.
  unfold redeem_invite_link. intros H F. destruct (db_links db !! digest) as [link|] eqn:L; [|by apply Ok_inj in H as [= <- <-]].
  destruct (_ && _ && _) in H; [|by apply Ok_inj in H as [= <- <-]]. cbv zeta in H.
  destruct (constraint _) as [[]|] in H; [|done]. pose proof (fk_link _ F _ _ L) as N. destruct F.
  destruct (present _ _) in H; [apply Ok_inj in H as [= <- <-]; keep_references|].
  destruct (constraint _) as [[]|] eqn:C in H; [|done]. apply constraint_ok in C. rewrite andb_true_iff, !present_spec in C.
  cbn in C. apply Ok_inj in H as [= <- <-]. keep_references.
Qed.

(** The account of an enrollment exists. *)
Lemma find_enrollment_account db digest now a : find_enrollment db digest now = Some a -> is_Some (db_enrollment db !! a).
Proof.
  unfold find_enrollment. intros H. apply fmap_Some in H as ([k r] & H & ->). apply find_some in H as [H _].
  apply list_elem_of_In, elem_of_map_to_list in H. by exists r.
Qed.

Lemma accounts_references db db' : references_ok db ->
  (exists a now, create_account db a now = Ok db') \/ (exists a digest expires, issue_enrollment db a digest expires = Ok db') \/
  (exists digest d label now b, enroll_device db digest d label now = Ok (b, db')) \/
  (exists a d, db' = revoke_account_device db a d) -> references_ok db'.
Proof.
  intros F [(a & now & H)|[(a & g & ex & H)|[(g & d & l & now & b & H)|(a & d & ->)]]].
  - unfold create_account in H. ok_inv H. subst db'.
    repeat match goal with C : constraint _ = Ok _ |- _ => apply constraint_ok in C; rewrite ?andb_true_iff, ?present_spec in C end.
    destruct F. keep_references.
  - unfold issue_enrollment in H. ok_inv H. subst db'.
    match goal with C : constraint _ = Ok _ |- _ => apply constraint_ok in C; rewrite andb_true_iff, present_spec in C end.
    destruct F. keep_references.
  - unfold enroll_device in H. ok_inv H. destruct (find_enrollment db g now) as [ac|] eqn:Fe; [|by apply Ok_inj in H as [= <- <-]].
    destruct (match _ with Some _ => _ | None => _ end) in H; [by apply Ok_inj in H as [= <- <-]|].
    destruct (_ >=? 64) in H; [by apply Ok_inj in H as [= <- <-]|]. ok_inv H. injection H as <- <-.
    match goal with C : constraint _ = Ok _ |- _ => apply constraint_ok in C; rewrite present_spec in C end.
    apply find_enrollment_account in Fe. apply (fk_enrollment _ F) in Fe. destruct F. keep_references.
  - unfold revoke_account_device. destruct (db_account_devices db !! d) as [r|] eqn:R; [|done].
    destruct (_ && _); [|done]. pose proof (fk_device_account _ F _ _ R). pose proof (fk_account_device _ F d (mk_is_Some _ _ R)). destruct F. keep_references.
Qed.

Lemma append_audit_references db e db' : append_audit_locked db e = Ok db' -> references_ok db -> references_ok db'.
Proof. unfold append_audit_locked. intros H []. ok_inv H. subst db'. keep_references. Qed.

Lemma save_network_policy_references db n p expected audit b db' :
  save_network_policy db n p expected audit = Ok (b, db') -> references_ok db -> references_ok db'.
Proof.
  unfold save_network_policy. intros H F. destruct (encode_network_policy p) as [doc|]; [|done].
  destruct (negb _) in H; [|done]. destruct (read_policy _ _) as [old|]; [|done].
  destruct (negb _) in H; [by apply Ok_inj in H as [= <- <-]|]. destruct (constraint _) as [[]|] eqn:C in H; [|done].
  apply constraint_ok in C. rewrite !andb_true_iff, present_spec in C. destruct C as [[N _] _]. cbv zeta in H.
  set (db1 := set_policies _ db) in H. assert (F1 : references_ok db1) by by apply policy_references.
  destruct audit as [e|]; [|by apply Ok_inj in H as [= <- <-]].
  destruct (append_audit_locked db1 e) as [db2|] eqn:A; [|done]. apply Ok_inj in H as [= <- <-]. by eapply append_audit_references.
Qed.

Lemma store_step_references db db' : store_step db db' -> references_ok db -> references_ok db'.
Proof.
  intros S F. destruct S as
    [d t db' H|w p db' H|n b db' H|n d t b db' H|n d b db' H|n d t b db' H|n d b db' H|n d t b db' H|n d b db' H
    |n g now ex u db' H|n g a now b db' H|n|n p db' H|a now db' H|a g ex db' H|g d l now b db' H|a d|n p e au b db' H|e db' H].
  - unfold record_device in H. ok_inv H. subst db'. destruct F. keep_references.
  - by eapply create_network_references.
  - unfold delete_network in H. ok_inv H. destruct (present _ _) in H; apply Ok_inj in H as [= <- <-]; [|done]. destruct F. keep_references.
  - unfold add_member in H. ok_inv H. destruct (present _ _) in H; [by apply Ok_inj in H as [= <- <-]|]. ok_inv H. injection H as <- <-.
    eapply insert_lease_references, insert_membership_references; eassumption.
  - by eapply remove_member_references.
  - eapply pending_references; [exact F|eauto].
  - eapply (pending_references _ _ _ 0); [exact F|eauto].
  - eapply pending_references; [exact F|eauto].
  - eapply (pending_references _ _ _ 0); [exact F|eauto].
  - unfold issue_invite_link in H. ok_inv H. subst db'.
    match goal with C : constraint _ = Ok _ |- _ => apply constraint_ok in C; rewrite andb_true_iff, present_spec in C end.
    destruct F. keep_references.
  - by eapply redeem_references.
  - destruct F. unfold revoke_invite_links. keep_references.
  - unfold set_network_password in H. destruct p; ok_inv H; subst db'; [|destruct F; keep_references].
    match goal with C : constraint _ = Ok _ |- _ => apply constraint_ok in C; rewrite present_spec in C end. by apply password_references.
  - eapply accounts_references; [exact F|eauto 8].
  - eapply accounts_references; [exact F|eauto 8].
  - eapply accounts_references; [exact F|eauto 12].
  - eapply accounts_references; [exact F|eauto 12].
  - by eapply save_network_policy_references.
  - by eapply append_audit_references.
Qed.

Lemma reachable_references db : store_reachable db -> references_ok db.
Proof.
  unfold store_reachable. intros H. remember empty_db as e eqn:E.
  assert (F : references_ok e) by (subst e; constructor; cbn; intros; rewrite ?lookup_empty in *; try done; by destruct H0).
  clear E. induction H as [|a b c S _ IH]; [done|]. by eapply IH, store_step_references.
Qed.

(** What a reachable database satisfies. *)
Lemma store_consistency (db : Db) :
  store_reachable db ->
  (forall n w, db_networks db !! n = Some w ->
     (forall d, (exists t, db_memberships db !! (n, d) = Some (mk_membership_row mr_owner t)) <-> d = row_owner w) /\
     exists s, db_subnets db !! n = Some s /\ virtual_ipv4_pool_first <= s < virtual_ipv4_pool_end /\ s mod 256 = 0) /\
  (forall n n' s, db_subnets db !! n = Some s -> db_subnets db !! n' = Some s -> n = n') /\
  (forall n d, is_Some (db_memberships db !! (n, d)) <-> is_Some (db_leases db !! (n, d))) /\
  (forall n d a, db_leases db !! (n, d) = Some a -> exists s, db_subnets db !! n = Some s /\ is_ipv4_host a s 24 = true) /\
  (forall k k' a, db_leases db !! k = Some a -> db_leases db !! k' = Some a -> k = k') /\
  (forall n d, ~ (is_Some (db_memberships db !! (n, d)) /\ is_Some (db_invitations db !! (n, d))) /\
               ~ (is_Some (db_memberships db !! (n, d)) /\ is_Some (db_join_requests db !! (n, d))) /\
               ~ (is_Some (db_invitations db !! (n, d)) /\ is_Some (db_join_requests db !! (n, d)))).
Proof.
  intros H. apply reachable_db_ok in H as OK. split; [|split; [|split; [|split; [|split]]]].
  - intros n w Hw. split.
    + intros d. split; [intros [t Ht]; symmetry; eapply (ok_single_owner _ OK); [exact Ht|done|done]|].
      intros ->. by apply (ok_owner _ OK).
    + destruct (ok_network_subnet _ OK n) as [s Hs]; [eauto|]. exists s. split; [done|]. by apply (ok_subnet _ OK) in Hs as (_ & ? & ?).
  - by apply ok_subnet_inj.
  - intros n d. split; [intros [r Hr]; by apply (ok_member _ OK) in Hr as (_ & _ & ?)|].
    intros [a Ha]. by apply (ok_lease _ OK) in Ha as [? _].
  - intros n d a Ha. apply (ok_lease _ OK) in Ha as (_ & s & Hs & B). exists s. split; [done|].
    apply (ok_subnet _ OK) in Hs as (_ & R & M). unfold virtual_ipv4_pool_first, virtual_ipv4_pool_end in R.
    apply is_ipv4_host_spec; [words; lia|]. rewrite is_ipv4_subnet_spec. change (2 ^ (32 - 24)) with 256. lia.
  - by apply ok_lease_inj.
  - intros n d. split; [|split]; intros [[x Hx] Hy].
    + apply (ok_invitation _ OK) in Hy as (Hm & _). congruence.
    + apply (ok_join_request _ OK) in Hy as (Hm & _). congruence.
    + destruct (ok_invitation _ OK n d) as (_ & Hj & _); [eauto|]. destruct Hy. congruence.
Qed.

(** ** Allocation *)

Lemma nodup_values {K} (l : list (K * Z)) :
  NoDup l -> (forall x y, x ∈ l -> y ∈ l -> snd x = snd y -> x = y) -> NoDup (map snd l).
Proof.
  induction l as [|x l IH]; intros N I; [constructor|]. apply NoDup_cons in N as [Nx N]. cbn. apply NoDup_cons. split.
  - intros H. apply list_elem_of_In, in_map_iff in H as (y & E & Hy). apply list_elem_of_In in Hy.
    rewrite (I y x) in Hy; [done|by right|by left|done].
  - apply IH; [done|]. intros y z Hy Hz. apply I; by right.
Qed.

Lemma nodup_rows_of (n : bytes) (m : gmap (bytes * bytes) Z) : NoDup (rows_of n m).
Proof.
  unfold rows_of. pose proof (NoDup_map_to_list m) as N. revert N. generalize (map_to_list m) as l.
  induction l as [|[[n' d'] a'] l IH]; intros N; [constructor|]. apply NoDup_cons in N as [Nx N]. cbn.
  destruct (bool_decide (n' = n)) eqn:E; [|by apply IH]. bool_prop. subst n'. apply NoDup_cons. split; [|by apply IH].
  intros H. apply list_elem_of_omap in H as ([[n2 d2] a2] & Hin & H2). cbn in H2.
  destruct (bool_decide (n2 = n)) eqn:E2; [|done]. bool_prop. by simplify_eq.
Qed.

Lemma elem_of_map_snd {K} (l : list (K * Z)) a : a ∈ map snd l <-> exists k, (k, a) ∈ l.
Proof.
  rewrite list_elem_of_In, in_map_iff. split.
  - intros ([k b] & E & H). cbn in E. subst b. exists k. by apply list_elem_of_In.
  - intros [k H]. exists (k, a). split; [done|]. by apply list_elem_of_In.
Qed.

(** The first free host address of a subnet. *)
Lemma lease_scan db n s :
  db_ok db -> db_subnets db !! n = Some s ->
  exists k, 0 <= k /\ scan_free 1 (order_by (fun a => [a]) (map snd (network_leases db n))) (s + 1) = Ok (s + 1 + k) /\
    (forall j, 0 <= j < k -> exists d, db_leases db !! (n, d) = Some (s + 1 + j)) /\
    (forall d, db_leases db !! (n, d) <> Some (s + 1 + k)).
Proof.
  intros OK Hs. set (l := map snd (network_leases db n)).
  assert (El : forall a, a ∈ order_by (fun a => [a]) l <-> exists d, db_leases db !! (n, d) = Some a).
  { intros a. rewrite (order_by_perm (fun a : Z => [a]) l). unfold l. rewrite elem_of_map_snd.
    unfold network_leases. by setoid_rewrite rows_of_elem. }
  assert (N : NoDup l).
  { apply nodup_values; [apply nodup_rows_of|]. intros [d1 a1] [d2 a2] H1 H2 E. cbn in E. subst a2.
    apply rows_of_elem in H1, H2. pose proof (ok_lease_inj _ OK _ _ _ H1 H2) as Q. by injection Q as ->. }
  destruct (ok_subnet _ OK _ _ Hs) as (_ & R & M).
  destruct (scan_free_spec 1 (order_by (fun a => [a]) l) ltac:(lia) (s + 1)) as (k & Hk & E & J & F).
  - by apply order_addresses.
  - apply Forall_forall. intros a Ha. apply El in Ha as [d Ha]. destruct (ok_lease _ OK _ _ _ Ha) as (_ & s' & Hs' & B).
    rewrite Hs in Hs'. injection Hs' as <-. rewrite Z.mod_1_r. unfold virtual_ipv4_pool_end in *.
    assert (s <= 0x0a800000 - 256).
    { apply Z.mod_divide in M as [q ->]; [|lia]. lia. }
    lia.
  - exists k. rewrite !Z.mul_1_l in *. split; [done|]. split; [done|]. split.
    + intros j Hj. apply El. specialize (J j Hj). by rewrite Z.mul_1_l in J.
    + intros d Hd. apply F, El. by exists d.
Qed.

(** The first free subnet of the pool. *)
Lemma subnet_scan db :
  db_ok db ->
  exists k, 0 <= k /\
    scan_free virtual_ipv4_subnet_size (order_by (fun a => [a]) (map snd (map_to_list (db_subnets db)))) virtual_ipv4_pool_first
      = Ok (virtual_ipv4_pool_first + 256 * k) /\
    (forall j, 0 <= j < k -> exists n, db_subnets db !! n = Some (virtual_ipv4_pool_first + 256 * j)) /\
    (forall n, db_subnets db !! n <> Some (virtual_ipv4_pool_first + 256 * k)).
Proof.
  intros OK. set (l := map snd (map_to_list (db_subnets db))).
  assert (El : forall a, a ∈ order_by (fun a => [a]) l <-> exists n, db_subnets db !! n = Some a).
  { intros a. rewrite (order_by_perm (fun a : Z => [a]) l). unfold l. rewrite elem_of_map_snd. by setoid_rewrite elem_of_map_to_list. }
  assert (N : NoDup l).
  { apply nodup_values; [apply NoDup_map_to_list|]. intros [n1 a1] [n2 a2] H1 H2 E. cbn in E. subst a2.
    apply elem_of_map_to_list in H1, H2. by rewrite (ok_subnet_inj _ OK _ _ _ H1 H2). }
  destruct (scan_free_spec virtual_ipv4_subnet_size (order_by (fun a => [a]) l) ltac:(done) virtual_ipv4_pool_first) as (k & Hk & E & J & F).
  - by apply order_addresses.
  - apply Forall_forall. intros a Ha. apply El in Ha as [n Ha]. destruct (ok_subnet _ OK _ _ Ha) as (_ & R & M).
    split; [done|]. split; [lia|]. unfold virtual_ipv4_subnet_size, virtual_ipv4_pool_first.
    rewrite Zminus_mod, M. done.
  - exists k. split; [done|]. split; [done|]. split.
    + intros j Hj. apply El. by apply J.
    + intros n Hn. apply F, El. by exists n.
Qed.

Lemma require_ids_ok n d t :
  is_zero n = false -> is_zero d = false -> 0 <= t ->
  require_network_id n = Ok tt /\ require_device_id d = Ok tt /\ require_timestamp t = Ok tt.
Proof.
  intros Hn Hd Ht. unfold require_network_id, require_device_id, require_timestamp. rewrite Hn, Hd.
  split; [done|]. split; [done|]. guard_true by (apply negb_true_iff, Z.ltb_ge; lia). done.
Qed.

Lemma insert_lease_lowest db n d s :
  db_ok db -> db_subnets db !! n = Some s ->
  forall db1, db_subnets db1 = db_subnets db -> db_leases db1 = db_leases db ->
  db_leases db !! (n, d) = None -> is_Some (db_memberships db1 !! (n, d)) ->
  match insert_lease db1 n d with
  | Ok db' => exists a, db' = set_leases (<[(n, d) := a]> (db_leases db)) db1 /\ s < a < s + 255 /\
      (forall x, db_leases db !! (n, x) <> Some a) /\ (forall b, s < b < a -> exists x, db_leases db !! (n, x) = Some b)
  | Throw e => e = length_error /\ forall b, s < b < s + 255 -> exists x, db_leases db !! (n, x) = Some b
  end.
Proof.
  intros OK Hs db1 Es El Hn Hm. destruct (ok_subnet _ OK _ _ Hs) as (_ & R & M).
  destruct (lease_scan db n s OK Hs) as (k & Hk & E & J & F).
  unfold insert_lease. unfold network_leases in *. rewrite Es, El, Hs. unfold read_virtual_address.
  guard_true by (apply negb_true_iff, orb_false_iff; rewrite Z.geb_leb, Z.ltb_ge, Z.leb_gt; lia).
  rewrite E. unfold virtual_ipv4_subnet_size. destruct (_ >=? _) eqn:G; cbn [negb]; bool_prop.
  - split; [done|]. intros b Hb. destruct (J (b - s - 1)) as [x Hx]; [lia|]. exists x. rewrite Hx. f_equal. lia.
  - unfold virtual_ipv4_pool_first, virtual_ipv4_pool_end in R.
    assert (Mc : (s + 1 + k) mod 256 = 1 + k).
    { replace (s + 1 + k) with (s + (1 + k)) by lia. rewrite <- Z.add_mod_idemp_l, M by lia. apply Z.mod_small. lia. }
    assert (Sr : s <= 0x0a800000 - 256) by (apply Z.mod_divide in M as [q ->]; lia).
    unfold constraint. rewrite Mc. guard_true by (rewrite !andb_true_iff; split_and!;
      [ by apply negb_true_iff, present_false | | lia | lia | lia | lia | by apply present_spec
      | apply bool_decide_eq_true_2; f_equal; lia ];
      apply forallb_values; intros [n' d'] Hk'; destruct (ok_lease _ OK _ _ _ Hk') as (_ & s' & Hs' & B);
      assert (s' = s) by (destruct (ok_subnet _ OK _ _ Hs') as (_ & _ & M');
        apply Z.mod_divide in M as [q ->]; [|lia]; apply Z.mod_divide in M' as [q' ->]; lia);
      subst s'; rewrite (ok_subnet_inj _ OK _ _ _ Hs' Hs) in Hk'; by apply (F d')).
    exists (s + 1 + k). split; [done|]. split; [lia|]. split; [done|].
    intros b Hb. destruct (J (b - s - 1)) as [x Hx]; [lia|]. exists x. rewrite Hx. f_equal. lia.
Qed.

Lemma insert_subnet_lowest db n db1 :
  db_ok db -> db_subnets db1 = db_subnets db -> db_subnets db !! n = None -> is_Some (db_networks db1 !! n) ->
  match insert_subnet db1 n with
  | Ok db' => exists k, 0 <= k < 16384 /\
      db' = set_subnets (<[n := virtual_ipv4_pool_first + 256 * k]> (db_subnets db)) db1 /\
      (forall x, db_subnets db !! x <> Some (virtual_ipv4_pool_first + 256 * k)) /\
      (forall j, 0 <= j < k -> exists x, db_subnets db !! x = Some (virtual_ipv4_pool_first + 256 * j))
  | Throw e => e = length_error /\
      forall j, 0 <= j < 16384 -> exists x, db_subnets db !! x = Some (virtual_ipv4_pool_first + 256 * j)
  end.
Proof.
  intros OK Es NS Hn. destruct (subnet_scan db OK) as (k & Hk & E & J & F). unfold insert_subnet. rewrite Es, E.
  destruct (_ >=? _) eqn:G; cbn [negb]; bool_prop; unfold virtual_ipv4_pool_first, virtual_ipv4_pool_end in G.
  { split; [done|]. intros j Hj. apply J. lia. }
  unfold constraint.
  guard_true by (rewrite !andb_true_iff, forallb_values, negb_true_iff, present_false, present_spec;
    split_and!; try done; unfold virtual_ipv4_pool_first; [lia|lia|];
    apply Z.eqb_eq; rewrite (Z.mul_comm 256 k), Z.mod_add by lia; done).
  exists k. split; [lia|]. done.
Qed.

(** The owner of a new network gets the first host address of its subnet. *)
Lemma insert_first_lease db n d s db1 :
  db_ok db -> (forall x, db_memberships db !! (n, x) = None) -> db_leases db1 = db_leases db ->
  db_subnets db1 !! n = Some s -> virtual_ipv4_pool_first <= s < virtual_ipv4_pool_end -> s mod 256 = 0 ->
  (forall x, db_subnets db !! x <> Some s) -> is_Some (db_memberships db1 !! (n, d)) ->
  insert_lease db1 n d = Ok (set_leases (<[(n, d) := s + 1]> (db_leases db)) db1).
Proof.
  intros OK NM El Hs R M F Hm. unfold virtual_ipv4_pool_first, virtual_ipv4_pool_end in R.
  assert (NL : rows_of n (db_leases db) = []).
  { destruct (rows_of n (db_leases db)) as [|[d' a'] l] eqn:Er; [done|].
    assert (Hin : (d', a') ∈ rows_of n (db_leases db)) by (rewrite Er; left). apply rows_of_elem in Hin.
    apply (ok_lease _ OK) in Hin as [[r Hr] _]. by rewrite NM in Hr. }
  unfold insert_lease, network_leases, read_virtual_address. rewrite El, Hs, NL.
  guard_true by (apply negb_true_iff, orb_false_iff; unfold virtual_ipv4_pool_first, virtual_ipv4_pool_end;
    rewrite Z.geb_leb, Z.ltb_ge, Z.leb_gt; lia).
  cbn [map]. change (order_by _ []) with (@nil Z). cbn [scan_free].
  guard_true by (apply negb_true_iff; unfold virtual_ipv4_subnet_size; rewrite Z.geb_leb, Z.leb_gt; lia).
  assert (M1 : (s + 1) mod 256 = 1) by (rewrite <- Z.add_mod_idemp_l, M by lia; done).
  assert (Sr : s <= 0x0a800000 - 256) by (apply Z.mod_divide in M as [q ->]; lia).
  unfold constraint. rewrite M1.
  guard_true by (rewrite !andb_true_iff, forallb_values, negb_true_iff, present_false, present_spec; split_and!;
    [ destruct (db_leases db !! (n, d)) eqn:Ed; [|done]; apply (ok_lease _ OK) in Ed as [[r Hr] _]; by rewrite NM in Hr
    | intros [n' d'] Hk'; destruct (ok_lease _ OK _ _ _ Hk') as (_ & s' & Hs' & B);
      destruct (ok_subnet _ OK _ _ Hs') as (_ & _ & M');
      assert (s' = s) by (apply Z.mod_divide in M as [q0 ->]; [|lia]; apply Z.mod_divide in M' as [q' ->]; lia);
      subst s'; by apply (F n')
    | lia | lia | lia | lia | done | apply bool_decide_eq_true_2; f_equal; lia ]).
  done.
Qed.

Lemma insert_owner_membership db n d t w :
  db_networks db !! n = Some w -> row_owner w = d -> is_Some (db_devices db !! d) ->
  (forall x, db_memberships db !! (n, x) = None) ->
  insert_membership db n d mr_owner t =
  Ok (set_join_requests (delete (n, d) (db_join_requests db))
        (set_invitations (delete (n, d) (db_invitations db))
           (set_memberships (<[(n, d) := mk_membership_row mr_owner t]> (db_memberships db)) db))).
Proof.
  intros Hw Ho Hd NM. unfold insert_membership, constraint. rewrite Hw. cbn [fmap option_fmap option_map]. rewrite Ho.
  guard_true by (rewrite !andb_true_iff, !present_spec, Hw; split; [split; [by eexists|done]|];
    apply orb_true_iff; right; rewrite bool_decide_eq_true_2 by done; cbn [andb]; apply forallb_forall;
    intros [[n' d'] r'] Hin; apply list_elem_of_In, elem_of_map_to_list in Hin; cbn;
    destruct (bool_decide (n' = n)) eqn:En'; [|done]; bool_prop; subst n'; congruence).
  done.
Qed.

(** Addresses are allocated lowest first and only run out when all are taken.  Adding
    a known device to an existing network it is not in succeeds with the lowest host
    address that is free in the network's subnet, and throws [std::length_error] exactly
    when all 254 are leased; creating a network likewise takes the lowest free /24 of the
    pool and gives the owner its first host address, or throws when all 16384 are taken. *)
Lemma allocation_lowest_free (db : Db) (n d : bytes) (t s : Z) (w : NetworkRecord) :
  store_reachable db -> is_zero n = false -> is_zero d = false -> 0 <= t ->
  is_Some (db_devices db !! d) -> nr_id w = n -> nr_owner w = d -> nr_created w = t ->
  (db_subnets db !! n = Some s -> db_memberships db !! (n, d) = None ->
   match add_member db n d t with
   | Ok (joined, db') => joined = true /\ exists a, db_leases db' !! (n, d) = Some a /\ s < a < s + 255 /\
       (forall x, db_leases db !! (n, x) <> Some a) /\ (forall b, s < b < a -> exists x, db_leases db !! (n, x) = Some b)
   | Throw e => e = length_error /\ forall b, s < b < s + 255 -> exists x, db_leases db !! (n, x) = Some b
   end) /\
  (db_networks db !! n = None -> require_network_name (nr_name w) = Ok tt ->
   match create_network db w None with
   | Ok db' => exists k, 0 <= k < 16384 /\ db_subnets db' !! n = Some (virtual_ipv4_pool_first + 256 * k) /\
       db_leases db' !! (n, d) = Some (virtual_ipv4_pool_first + 256 * k + 1) /\
       (forall x, db_subnets db !! x <> Some (virtual_ipv4_pool_first + 256 * k)) /\
       (forall j, 0 <= j < k -> exists x, db_subnets db !! x = Some (virtual_ipv4_pool_first + 256 * j))
   | Throw e => e = length_error /\ forall j, 0 <= j < 16384 -> exists x, db_subnets db !! x = Some (virtual_ipv4_pool_first + 256 * j)
   end).
Proof.
  intros H Zn Zd Ht Dv En Ed Et. apply reachable_db_ok in H as OK.
  destruct (require_ids_ok n d t Zn Zd Ht) as (Q1 & Q2 & Q3). split.
  - intros Hs Hm. unfold add_member. rewrite Q1, Q2, Q3. rewrite (proj2 (present_false _ _) Hm).
    destruct (ok_subnet _ OK _ _ Hs) as (Hn & _). unfold insert_membership, constraint.
    guard_true by (rewrite !andb_true_iff, !present_spec; split; [done|]; by rewrite bool_decide_eq_true_2). cbv zeta.
    assert (Hl : db_leases db !! (n, d) = None).
    { destruct (db_leases db !! (n, d)) eqn:E; [|done]. apply (ok_lease _ OK) in E as [[r Hr] _]. congruence. }
    match goal with |- context [insert_lease ?x n d] =>
      pose proof (insert_lease_lowest db n d s OK Hs x eq_refl eq_refl Hl) as L end.
    cbn in L. rewrite lookup_insert_eq in L. specialize (L (ex_intro _ _ eq_refl)).
    destruct (insert_lease _ n d) as [db'|e]; [|done]. destruct L as (a & -> & L). split; [done|]. exists a. cbn.
    by rewrite lookup_insert_eq.
  - intros Hn Nm. unfold create_network. rewrite En, Ed, Et, Nm, Q1, Q2, Q3. unfold constraint at 1.
    guard_true by (by rewrite andb_true_iff, negb_true_iff, present_false, present_spec). cbv zeta.
    assert (NS : db_subnets db !! n = None).
    { destruct (db_subnets db !! n) eqn:Es; [|done]. apply (ok_subnet _ OK) in Es as ([? ?] & _). congruence. }
    assert (NM : forall x, db_memberships db !! (n, x) = None).
    { intros x. destruct (db_memberships db !! (n, x)) eqn:Ex; [|done]. apply (ok_member _ OK) in Ex as ([? ?] & _). congruence. }
    match goal with |- context [insert_subnet ?x n] =>
      pose proof (insert_subnet_lowest db n x OK eq_refl NS (proj2 (lookup_insert_is_Some' _ _ _ _) (or_introl eq_refl))) as S end.
    destruct (insert_subnet _ n) as [db1|e]; [|done]. destruct S as (k & Hk & -> & F & J).
    set (s0 := virtual_ipv4_pool_first + 256 * k) in *. unfold constraint at 1. cbn [db_memberships set_subnets set_networks].
    rewrite (proj2 (present_false _ _) (NM d)). cbn [negb].
    erewrite insert_owner_membership by (first [apply lookup_insert_eq|done]).
    rewrite (insert_first_lease db n d s0); try done; cbn; rewrite ?lookup_insert_eq; try done.
    + exists k. auto.
    + unfold s0, virtual_ipv4_pool_first, virtual_ipv4_pool_end. lia.
    + unfold s0, virtual_ipv4_pool_first. rewrite (Z.mul_comm 256 k), Z.mod_add by lia. done.
Qed.

(** Every foreign key of the schema, table by table. *)
Lemma foreign_keys (db : Db) : store_reachable db ->
  (forall n w, db_networks db !! n = Some w -> is_Some (db_devices db !! row_owner w)) /\
  (forall n d, is_Some (db_memberships db !! (n, d)) \/ is_Some (db_invitations db !! (n, d)) \/ is_Some (db_join_requests db !! (n, d)) ->
     is_Some (db_networks db !! n) /\ is_Some (db_devices db !! d)) /\
  (forall n, is_Some (db_subnets db !! n) \/ is_Some (db_access db !! n) \/ is_Some (db_policies db !! n) -> is_Some (db_networks db !! n)) /\
  (forall n d, is_Some (db_leases db !! (n, d)) -> is_Some (db_subnets db !! n) /\ is_Some (db_memberships db !! (n, d))) /\
  (forall g l, db_links db !! g = Some l -> is_Some (db_networks db !! link_network l)) /\
  (forall a r, db_accounts db !! a = Some r -> is_Some (db_devices db !! account_owner r)) /\
  (forall d r, db_account_devices db !! d = Some r -> is_Some (db_devices db !! d) /\ is_Some (db_accounts db !! ad_account r)) /\
  (forall a, is_Some (db_enrollment db !! a) -> is_Some (db_accounts db !! a)).
Proof.
  intros R. pose proof (reachable_db_ok _ R) as OK. pose proof (reachable_references _ R) as F. split_and!.
  - intros n w W. destruct (ok_owner _ OK _ _ W) as [t M]. apply (ok_member _ OK _ _ _ M).
  - intros n d [[r M]|[I|J]].
    + destruct (ok_member _ OK _ _ _ M) as (? & ? & _). done.
    + split; [apply (ok_invitation _ OK _ _ I)|apply (fk_invitation _ F _ _ I)].
    + split; [apply (ok_join_request _ OK _ _ J)|apply (fk_join_request _ F _ _ J)].
  - intros n [[s S]|[A|P]]; [apply (ok_subnet _ OK _ _ S)|by apply (fk_access _ F)|by apply (fk_policy _ F)].
  - intros n d [a L]. destruct (ok_lease _ OK _ _ _ L) as (M & s & S & _). split; [by exists s|done].
  - apply (fk_link _ F).
  - apply (fk_account _ F).
  - intros d r D. split; [apply (fk_account_device _ F); by exists r|by apply (fk_device_account _ F d)].
  - apply (fk_enrollment _ F).
Qed.

(** C7: the relay's database stays consistent and allocates the lowest free addresses.  Whatever operations
    run, in whatever order: every network has its owner, and only its owner, as owning member, and has
    a /24 subnet of the pool that no other network has; a device has an address in a network exactly
    when it is a member, the address is a host address of that network's subnet and nobody else's; and
    a device is never at once a member of and invited to, or waiting for, the same network.  Every row
    refers to rows that exist, as the schema's foreign keys say: owners, members, invited and waiting
    devices are recorded devices; memberships, invitations, join requests, subnets, passwords,
    policies and invitation links belong to a network, leases to a subnet and a membership, enrolled
    devices and enrollment codes to an account.  Adding a
    known device to an existing network it is not in succeeds with the lowest host address that is free
    in the network's subnet, and throws [std::length_error] exactly when all 254 are leased; creating a
    network likewise takes the lowest free /24 of the pool and gives the owner its first host address,
    or throws when all 16384 are taken. *)
Theorem store_consistent (db : Db) :
  store_reachable db ->
  (forall n w, db_networks db !! n = Some w ->
     (forall d, (exists t, db_memberships db !! (n, d) = Some (mk_membership_row mr_owner t)) <-> d = row_owner w) /\
     exists s, db_subnets db !! n = Some s /\ virtual_ipv4_pool_first <= s < virtual_ipv4_pool_end /\ s mod 256 = 0) /\
  (forall n n' s, db_subnets db !! n = Some s -> db_subnets db !! n' = Some s -> n = n') /\
  (forall n d, is_Some (db_memberships db !! (n, d)) <-> is_Some (db_leases db !! (n, d))) /\
  (forall n d a, db_leases db !! (n, d) = Some a -> exists s, db_subnets db !! n = Some s /\ is_ipv4_host a s 24 = true) /\
  (forall k k' a, db_leases db !! k = Some a -> db_leases db !! k' = Some a -> k = k') /\
  (forall n d, ~ (is_Some (db_memberships db !! (n, d)) /\ is_Some (db_invitations db !! (n, d))) /\
               ~ (is_Some (db_memberships db !! (n, d)) /\ is_Some (db_join_requests db !! (n, d))) /\
               ~ (is_Some (db_invitations db !! (n, d)) /\ is_Some (db_join_requests db !! (n, d)))) /\
  ((forall n w, db_networks db !! n = Some w -> is_Some (db_devices db !! row_owner w)) /\
   (forall n d, is_Some (db_memberships db !! (n, d)) \/ is_Some (db_invitations db !! (n, d)) \/ is_Some (db_join_requests db !! (n, d)) ->
      is_Some (db_networks db !! n) /\ is_Some (db_devices db !! d)) /\
   (forall n, is_Some (db_subnets db !! n) \/ is_Some (db_access db !! n) \/ is_Some (db_policies db !! n) -> is_Some (db_networks db !! n)) /\
   (forall n d, is_Some (db_leases db !! (n, d)) -> is_Some (db_subnets db !! n) /\ is_Some (db_memberships db !! (n, d))) /\
   (forall g l, db_links db !! g = Some l -> is_Some (db_networks db !! link_network l)) /\
   (forall a r, db_accounts db !! a = Some r -> is_Some (db_devices db !! account_owner r)) /\
   (forall d r, db_account_devices db !! d = Some r -> is_Some (db_devices db !! d) /\ is_Some (db_accounts db !! ad_account r)) /\
   (forall a, is_Some (db_enrollment db !! a) -> is_Some (db_accounts db !! a))) /\
  (forall (n d : bytes) (t s : Z) (w : NetworkRecord), is_zero n = false -> is_zero d = false -> 0 <= t ->
   is_Some (db_devices db !! d) -> nr_id w = n -> nr_owner w = d -> nr_created w = t ->
   (db_subnets db !! n = Some s -> db_memberships db !! (n, d) = None ->
    match add_member db n d t with
    | Ok (joined, db') => joined = true /\ exists a, db_leases db' !! (n, d) = Some a /\ s < a < s + 255 /\
        (forall x, db_leases db !! (n, x) <> Some a) /\ (forall b, s < b < a -> exists x, db_leases db !! (n, x) = Some b)
    | Throw e => e = length_error /\ forall b, s < b < s + 255 -> exists x, db_leases db !! (n, x) = Some b
    end) /\
   (db_networks db !! n = None -> require_network_name (nr_name w) = Ok tt ->
    match create_network db w None with
    | Ok db' => exists k, 0 <= k < 16384 /\ db_subnets db' !! n = Some (virtual_ipv4_pool_first + 256 * k) /\
        db_leases db' !! (n, d) = Some (virtual_ipv4_pool_first + 256 * k + 1) /\
        (forall x, db_subnets db !! x <> Some (virtual_ipv4_pool_first + 256 * k)) /\
        (forall j, 0 <= j < k -> exists x, db_subnets db !! x = Some (virtual_ipv4_pool_first + 256 * j))
    | Throw e => e = length_error /\ forall j, 0 <= j < 16384 -> exists x, db_subnets db !! x = Some (virtual_ipv4_pool_first + 256 * j)
    end)).
Proof.
  intros H. destruct (store_consistency db H) as (? & ? & ? & ? & ? & ?). pose proof (foreign_keys db H) as Fk.
  refine (conj _ (conj _ (conj _ (conj _ (conj _ (conj _ (conj Fk _))))))); try done.
  intros n d t s w. by apply allocation_lowest_free.
Qed.

(** ** A small database *)

Definition owner_id : bytes := replicate 32 x05.
Definition guest_id : bytes := replicate 32 x06.
Definition home_id : bytes := replicate 16 x01.
Definition home : NetworkRecord := mk_network_record home_id (str "home") owner_id 10.

Definition or_db (r : result Db) : Db := match r with Ok d => d | Throw _ => empty_db end.
Definition db_owner : Db := or_db (record_device empty_db owner_id 1).
Definition db_both : Db := or_db (record_device db_owner guest_id 2).
Definition db_home : Db := or_db (create_network db_both home None).

Lemma db_both_reachable : store_reachable db_both.
Proof.
  eapply rtc_l; [apply (st_record_device empty_db owner_id 1 db_owner); vm_compute; reflexivity|].
  eapply rtc_l; [apply (st_record_device db_owner guest_id 2 db_both); vm_compute; reflexivity|]. apply rtc_refl.
Defined.

Lemma db_home_reachable : store_reachable db_home.
Proof.
  eapply rtc_r; [exact db_both_reachable|]. apply (st_create_network db_both home None). vm_compute. reflexivity.
Defined.

Lemma store_consistent_witness :
  (is_Some (db_memberships db_home !! (home_id, owner_id)) <-> is_Some (db_leases db_home !! (home_id, owner_id))) /\
  match add_member db_home home_id guest_id 20 with
  | Ok (joined, db') => joined = true /\ exists a, db_leases db' !! (home_id, guest_id) = Some a /\ 0x0a400000 < a < 0x0a400000 + 255 /\
      (forall x, db_leases db_home !! (home_id, x) <> Some a) /\
      (forall b, 0x0a400000 < b < a -> exists x, db_leases db_home !! (home_id, x) = Some b)
  | Throw e => e = length_error /\ forall b, 0x0a400000 < b < 0x0a400000 + 255 -> exists x, db_leases db_home !! (home_id, x) = Some b
  end.
Proof.
  destruct (store_consistent db_home db_home_reachable) as (_ & _ & T & _ & _ & _ & _ & A). split; [exact (T home_id owner_id)|].
  apply (proj1 (A home_id guest_id 20 0x0a400000 (mk_network_record home_id (str "home") guest_id 20)
    eq_refl eq_refl ltac:(lia) ltac:(vm_compute; eexists; reflexivity) eq_refl eq_refl eq_refl));
    vm_compute; reflexivity.
Defined.

