(* ===== verification/Double.v ===== *)
(** * Doubles

    The IEEE 754 binary64 arithmetic the rate limiters use: the Standard Library's
    executable specification of floating-point operations at precision 53 and exponent
    bound 1024, with round-to-nearest-even. *)
From Stdlib Require Import SpecFloat.
From S2P Require Import Prelude.

Definition double := spec_float.

(** [static_cast<double>] of an integer. *)
Definition d_of_Z (z : Z) : double := binary_normalize 53 1024 z 0 false.
Definition d_add (a b : double) : double := SFadd 53 1024 a b.
Definition d_sub (a b : double) : double := SFsub 53 1024 a b.
Definition d_mul (a b : double) : double := SFmul 53 1024 a b.
Definition d_div (a b : double) : double := SFdiv 53 1024 a b.
Definition d_lt (a b : double) : bool := SFltb a b.

(** [std::min(a, b)]. *)
Definition d_min (a b : double) : double := if d_lt b a then b else a.

(** [std::chrono::duration<double>(ticks).count()] for a duration in nanoseconds. *)
Definition d_seconds (ticks : Z) : double := d_div (d_of_Z ticks) (d_of_Z 1000000000).

(** The order is asymmetric. *)
Lemma d_lt_asym a b : d_lt a b = true -> d_lt b a = false.
Proof.
  unfold d_lt, SFltb.
  destruct a as [s|s| |s m e], b as [s'|s'| |s' m' e']; cbn; try (destruct s); try (destruct s'); try done;
    rewrite (Z.compare_antisym e e'); destruct (e ?= e'); cbn; try done;
    pose proof (Pos.compare_cont_antisym m m' Eq) as H; cbn in H; rewrite <- H; by destruct (Pos.compare_cont Eq m m').
Qed.

Lemma d_lt_irrefl a : d_lt a a = false.
Proof. destruct (d_lt a a) eqn:E; [|done]. by rewrite <- E, (d_lt_asym _ _ E). Qed.

(** The minimum is never above its first argument, the cap. *)
Lemma d_min_cap cap x : d_lt cap (d_min cap x) = false.
Proof. unfold d_min. destruct (d_lt x cap) eqn:E; [by apply d_lt_asym|apply d_lt_irrefl]. Qed.
