(* ===== verification/ForwardingQuota.v ===== *)
(** * Forwarding quotas

    relay/forwarding_quota.hpp and .cpp: token buckets per device, per network and for the
    whole relay that bound what it forwards; and [ControlRateLimit] of
    transport/resource_limits.cpp, the token bucket on one connection's control requests.  Time points are nanoseconds. *)
From S2P Require Import Limits Prelude Double.

Record ForwardingLimits := mk_forwarding_limits {
  device_bytes_per_second : Z; network_bytes_per_second : Z;
  device_deliveries_per_second : Z; network_deliveries_per_second : Z;
  control_per_second : Z; authority_bytes_per_second : Z; authority_deliveries_per_second : Z }.

Definition default_forwarding_limits : ForwardingLimits :=
  mk_forwarding_limits (8 * 1024 * 1024) (32 * 1024 * 1024) 8192 32768 32 (64 * 1024 * 1024) 65536.

Record ForwardingMetrics := mk_metrics {
  admitted_deliveries : Z; admitted_bytes : Z; quota_rejections : Z; control_rejections : Z }.

Record Bucket := mk_bucket { b_bytes : double; b_deliveries : double; b_controls : double; b_updated : Z; b_initialized : bool }.

Definition empty_bucket : Bucket := mk_bucket (d_of_Z 0) (d_of_Z 0) (d_of_Z 0) 0 false.

Record Quota := mk_quota {
  q_limits : ForwardingLimits; q_metrics : ForwardingMetrics;
  q_devices : gmap bytes Bucket; q_networks : gmap bytes Bucket; q_next_prune : Z; q_aggregate : Bucket }.

Definition fresh_quota : Quota :=
  mk_quota default_forwarding_limits (mk_metrics 0 0 0 0) ∅ ∅ 0 empty_bucket.

Definition configure (q : Quota) (l : ForwardingLimits) : result Quota :=
  let g := 1024 * 1024 * 1024 in
  check! negb ((device_bytes_per_second l =? 0) || (device_bytes_per_second l >? g) ||
    (network_bytes_per_second l =? 0) || (network_bytes_per_second l >? g) ||
    (device_deliveries_per_second l =? 0) || (device_deliveries_per_second l >? 1000000) ||
    (network_deliveries_per_second l =? 0) || (network_deliveries_per_second l >? 1000000) ||
    (authority_bytes_per_second l =? 0) || (authority_bytes_per_second l >? g) ||
    (authority_deliveries_per_second l =? 0) || (authority_deliveries_per_second l >? 1000000) ||
    (control_per_second l =? 0) || (control_per_second l >? 10000)) else invalid_argument in
  Ok (mk_quota l (q_metrics q) ∅ ∅ (q_next_prune q) empty_bucket).

(** One component of a bucket after [seconds]. *)
Definition refilled (tokens rate seconds : double) : double :=
  d_min (d_mul rate (d_of_Z 2)) (d_add tokens (d_mul seconds rate)).

Definition refill (b : Bucket) (bytes deliveries controls now : Z) : Bucket :=
  if negb (b_initialized b) then
    mk_bucket (d_mul (d_of_Z bytes) (d_of_Z 2)) (d_mul (d_of_Z deliveries) (d_of_Z 2))
      (d_mul (d_of_Z controls) (d_of_Z 2)) now true
  else if now <=? b_updated b then b
  else
    let seconds := d_seconds (now - b_updated b) in
    mk_bucket (refilled (b_bytes b) (d_of_Z bytes) seconds) (refilled (b_deliveries b) (d_of_Z deliveries) seconds)
      (refilled (b_controls b) (d_of_Z controls) seconds) now (b_initialized b).

Definition prune (q : Quota) (now : Z) : Quota :=
  if now <? q_next_prune q then q
  else
    let fresh (m : gmap bytes Bucket) :=
      filter (fun e : bytes * Bucket => ~ (now > b_updated (snd e) /\ now - b_updated (snd e) > 300 * 1000000000)) m in
    mk_quota (q_limits q) (q_metrics q) (fresh (q_devices q)) (fresh (q_networks q)) (now + 30 * 1000000000) (q_aggregate q).

Definition reject_control (q : Quota) : Quota :=
  mk_quota (q_limits q) (mk_metrics (admitted_deliveries (q_metrics q)) (admitted_bytes (q_metrics q))
    (quota_rejections (q_metrics q)) ((control_rejections (q_metrics q) + 1) mod 2 ^ 64))
    (q_devices q) (q_networks q) (q_next_prune q) (q_aggregate q).

Definition reject_quota (q : Quota) : Quota :=
  mk_quota (q_limits q) (mk_metrics (admitted_deliveries (q_metrics q)) (admitted_bytes (q_metrics q))
    ((quota_rejections (q_metrics q) + 1) mod 2 ^ 64) (control_rejections (q_metrics q)))
    (q_devices q) (q_networks q) (q_next_prune q) (q_aggregate q).

Definition known {A} (k : bytes) (m : gmap bytes A) : bool := bool_decide (is_Some (m !! k)).

Definition device_refill (q : Quota) (b : Bucket) (now : Z) : Bucket :=
  refill b (device_bytes_per_second (q_limits q)) (device_deliveries_per_second (q_limits q)) (control_per_second (q_limits q)) now.
Definition network_refill (q : Quota) (b : Bucket) (now : Z) : Bucket :=
  refill b (network_bytes_per_second (q_limits q)) (network_deliveries_per_second (q_limits q)) (control_per_second (q_limits q)) now.
Definition authority_refill (q : Quota) (b : Bucket) (now : Z) : Bucket :=
  refill b (authority_bytes_per_second (q_limits q)) (authority_deliveries_per_second (q_limits q)) (control_per_second (q_limits q)) now.

Definition control (q : Quota) (actor : bytes) (now : Z) : bool * Quota :=
  let q := prune q now in
  if negb (known actor (q_devices q)) && (Z.of_nat (size (q_devices q)) >=? 4096) then (false, reject_control q)
  else
    let device := device_refill q (default empty_bucket (q_devices q !! actor)) now in
    let store b q := mk_quota (q_limits q) (q_metrics q) (<[actor := b]> (q_devices q)) (q_networks q) (q_next_prune q) (q_aggregate q) in
    if d_lt (b_controls device) (d_of_Z 1) then (false, reject_control (store device q))
    else (true, store (mk_bucket (b_bytes device) (b_deliveries device) (d_sub (b_controls device) (d_of_Z 1))
                         (b_updated device) (b_initialized device)) q).

(** A bucket can pay for [n] deliveries of [bytes] in all, and the bucket once it has. *)
Definition affordable (b : Bucket) (bytes recipients : Z) : bool :=
  negb (d_lt (b_bytes b) (d_of_Z bytes)) && negb (d_lt (b_deliveries b) (d_of_Z recipients)).
Definition spend (b : Bucket) (bytes recipients : Z) : Bucket :=
  mk_bucket (d_sub (b_bytes b) (d_of_Z bytes)) (d_sub (b_deliveries b) (d_of_Z recipients)) (b_controls b) (b_updated b) (b_initialized b).

Definition set_buckets (actor network : bytes) (device shared aggregate : Bucket) (q : Quota) : Quota :=
  mk_quota (q_limits q) (q_metrics q) (<[actor := device]> (q_devices q)) (<[network := shared]> (q_networks q))
    (q_next_prune q) aggregate.

Definition quota_admit (q : Quota) (actor network : bytes) (size_ recipients now : Z) : bool * Quota :=
  let q := prune q now in
  if (size_ =? 0) || (recipients =? 0) || (recipients >? 4096) || (size_ >? (2 ^ 64 - 1) / recipients) ||
     (negb (known actor (q_devices q)) && (Z.of_nat (size (q_devices q)) >=? 4096)) ||
     (negb (known network (q_networks q)) && (Z.of_nat (size (q_networks q)) >=? 4096))
  then (false, reject_quota q)
  else
    let device := device_refill q (default empty_bucket (q_devices q !! actor)) now in
    let shared := network_refill q (default empty_bucket (q_networks q !! network)) now in
    let aggregate := authority_refill q (q_aggregate q) now in
    let bytes := size_ * recipients in
    if negb (affordable device bytes recipients && affordable shared bytes recipients && affordable aggregate bytes recipients)
    then (false, reject_quota (set_buckets actor network device shared aggregate q))
    else
      let q := set_buckets actor network (spend device bytes recipients) (spend shared bytes recipients)
                 (spend aggregate bytes recipients) q in
      let m := q_metrics q in
      (true, mk_quota (q_limits q)
        (mk_metrics ((admitted_deliveries m + recipients) mod 2 ^ 64) ((admitted_bytes m + bytes) mod 2 ^ 64)
           (quota_rejections m) (control_rejections m))
        (q_devices q) (q_networks q) (q_next_prune q) (q_aggregate q)).

(** ** Bounds *)

Inductive quota_reachable : Quota -> Prop :=
| qr_fresh : quota_reachable fresh_quota
| qr_configure q l q' : quota_reachable q -> configure q l = Ok q' -> quota_reachable q'
| qr_control q actor now : quota_reachable q -> quota_reachable (snd (control q actor now))
| qr_admit q actor network size recipients now :
    quota_reachable q -> quota_reachable (snd (quota_admit q actor network size recipients now)).

Definition quota_bounded (q : Quota) : Prop := (size (q_devices q) <= 4096)%nat /\ (size (q_networks q) <= 4096)%nat.

Lemma filter_size {A} (P : bytes * A -> Prop) `{forall x, Decision (P x)} (m : gmap bytes A) :
  (size (filter P m) <= size m)%nat.
Proof. rewrite <- !size_dom. apply subseteq_size, dom_filter_subseteq. Qed.

Lemma insert_size {A} (k : bytes) (a : A) (m : gmap bytes A) :
  negb (known k m) && (Z.of_nat (size m) >=? 4096) = false -> (size m <= 4096)%nat -> (size (<[k := a]> m) <= 4096)%nat.
Proof.
  intros G B. rewrite map_size_insert. unfold known in G. destruct (m !! k) eqn:E; cbn; [done|].
  rewrite bool_decide_eq_false_2 in G by (intros [? ?]; congruence). cbn in G. bool_prop. lia.
Qed.

Lemma prune_bounded q now : quota_bounded q -> quota_bounded (prune q now).
Proof.
  intros [B1 B2]. unfold prune. destruct (_ <? _); [done|]. split; cbn; (etransitivity; [apply filter_size|done]).
Qed.

Lemma admit_bounded q actor network size_ recipients now :
  quota_bounded q -> quota_bounded (snd (quota_admit q actor network size_ recipients now)).
Proof.
  intros B. apply (prune_bounded q now) in B. unfold quota_admit. destruct (_ || _) eqn:G; [exact B|]. bool_prop.
  destruct B as [B1 B2]. cbv zeta. destruct (affordable _ _ _ && _ && _); split; cbn; by apply insert_size.
Qed.

Lemma control_bounded q actor now : quota_bounded q -> quota_bounded (snd (control q actor now)).
Proof.
  intros B. apply (prune_bounded q now) in B. unfold control. destruct (_ && _) eqn:G; [exact B|].
  destruct B as [B1 B2]. cbv zeta. destruct (d_lt _ _); split; cbn; try done; by apply insert_size.
Qed.

Lemma reachable_bounded q : quota_reachable q -> quota_bounded q.
Proof.
  induction 1 as [|q l q' _ IH H| |].
  - split; cbn; rewrite map_size_empty; lia.
  - unfold configure in H. ok_inv H. subst q'. split; cbn; rewrite map_size_empty; lia.
  - by apply control_bounded.
  - by apply admit_bounded.
Qed.

(** The product the code computes in 64 bits does not wrap. *)
Lemma admitted_product size_ recipients :
  0 <= size_ -> 0 < recipients -> size_ <= (2 ^ 64 - 1) / recipients -> size_ * recipients < 2 ^ 64.
Proof. intros H1 H2 H3. pose proof (Z.mul_div_le (2 ^ 64 - 1) recipients H2). nia. Qed.

(** What the relay has counted as forwarded after a call of [admit]. *)
Definition forwarded_after (ok : bool) (q : Quota) (size_ recipients : Z) : Z * Z :=
  if ok then ((admitted_deliveries (q_metrics q) + recipients) mod 2 ^ 64,
              (admitted_bytes (q_metrics q) + size_ * recipients) mod 2 ^ 64)
  else (admitted_deliveries (q_metrics q), admitted_bytes (q_metrics q)).

Lemma prune_fields q now :
  q_limits (prune q now) = q_limits q /\ q_metrics (prune q now) = q_metrics q /\ q_aggregate (prune q now) = q_aggregate q.
Proof. unfold prune. by destruct (_ <? _). Qed.

(** The three buckets a packet is charged to, refilled, as [admit] sees them. *)
Definition charged (q : Quota) (actor network : bytes) (now : Z) : list Bucket :=
  let q := prune q now in
  [device_refill q (default empty_bucket (q_devices q !! actor)) now;
   network_refill q (default empty_bucket (q_networks q !! network)) now;
   authority_refill q (q_aggregate q) now].

Lemma admit_decision q actor network size_ recipients now :
  fst (quota_admit q actor network size_ recipients now) = true ->
  0 <= size_ -> 0 <= recipients ->
  0 < size_ /\ 0 < recipients <= 4096 /\ size_ * recipients < 2 ^ 64 /\
  forallb (fun b => affordable b (size_ * recipients) recipients) (charged q actor network now) = true.
Proof.
  unfold quota_admit, charged. intros H S R. destruct (_ || _) eqn:G in H; [done|]. bool_prop.
  assert (size_ * recipients < 2 ^ 64) by (apply admitted_product; lia).
  split; [lia|]. split; [lia|]. split; [done|]. cbn. cbv zeta in H.
  destruct (affordable _ _ _ && affordable _ _ _ && affordable _ _ _) eqn:A in H; [|done].
  bool_prop. rewrite !andb_true_iff. tauto.
Qed.

Lemma admit_metrics q actor network size_ recipients now :
  let '(ok, q') := quota_admit q actor network size_ recipients now in
  (admitted_deliveries (q_metrics q'), admitted_bytes (q_metrics q')) = forwarded_after ok q size_ recipients /\
  quota_rejections (q_metrics q') =
    (if ok then quota_rejections (q_metrics q) else (quota_rejections (q_metrics q) + 1) mod 2 ^ 64).
Proof.
  unfold quota_admit. destruct (prune_fields q now) as (_ & M & _).
  destruct (_ || _); [cbn; by rewrite M|]. cbv zeta.
  destruct (affordable _ _ _ && _ && _); cbn; by rewrite M.
Qed.

Lemma admit_frame q actor network size_ recipients now d n :
  let q' := snd (quota_admit q actor network size_ recipients now) in
  (d <> actor -> q_devices q' !! d = q_devices (prune q now) !! d) /\
  (n <> network -> q_networks q' !! n = q_networks (prune q now) !! n).
Proof.
  unfold quota_admit. destruct (_ || _); [done|]. cbv zeta.
  destruct (affordable _ _ _ && _ && _); cbn; split; intros ?; by rewrite lookup_insert_ne by congruence.
Qed.

(** Whatever calls the relay has made, it tracks at most 4096 devices and 4096
    networks; a packet it admits has between 1 and 4096 recipients, a byte total that fits
    64 bits, and is within the tokens of the sender's, the network's and the relay's bucket;
    the counters move by exactly that delivery when it is admitted and only the rejection
    counter moves otherwise; and nobody else's bucket is charged. *)
Lemma forwarding_quota q actor network size_ recipients now :
  quota_reachable q -> 0 <= size_ -> 0 <= recipients ->
  let '(ok, q') := quota_admit q actor network size_ recipients now in
  quota_bounded q' /\
  (ok = true -> 0 < size_ /\ 0 < recipients <= 4096 /\ size_ * recipients < 2 ^ 64 /\
     forallb (fun b => affordable b (size_ * recipients) recipients) (charged q actor network now) = true) /\
  (admitted_deliveries (q_metrics q'), admitted_bytes (q_metrics q')) = forwarded_after ok q size_ recipients /\
  quota_rejections (q_metrics q') =
    (if ok then quota_rejections (q_metrics q) else (quota_rejections (q_metrics q) + 1) mod 2 ^ 64) /\
  (forall d, d <> actor -> q_devices q' !! d = q_devices (prune q now) !! d) /\
  (forall n, n <> network -> q_networks q' !! n = q_networks (prune q now) !! n).
Proof.
  intros R S N.
  pose proof (admit_bounded q actor network size_ recipients now (reachable_bounded q R)) as B.
  pose proof (admit_decision q actor network size_ recipients now) as D.
  pose proof (admit_metrics q actor network size_ recipients now) as M.
  pose proof (admit_frame q actor network size_ recipients now) as F.
  destruct (quota_admit _ _ _ _ _ _) as [ok q']. cbn in *. destruct M as [M1 M2].
  split; [exact B|]. split; [intros ->; by apply D|]. split; [exact M1|]. split; [exact M2|].
  split; [intros d; apply (F d [])|intros n; apply (F [] n)].
Qed.

(** ** What a bucket holds

    The account of a bucket on its own terms: it starts with two seconds' worth of tokens, gains [rate] a second up to
    that amount, and pays for what it lets through.  A bucket unused for more than five minutes is forgotten when the
    tables are next cleaned, and starts afresh. *)

Definition standing (q : Quota) (m : gmap bytes Bucket) (k : bytes) (now : Z) : option Bucket :=
  match m !! k with
  | Some b => if bool_decide (q_next_prune q <= now /\ now - b_updated b > 300 * 10 ^ 9) then None else if b_initialized b then Some b else None
  | None => None
  end.
Definition standing_aggregate (q : Quota) : option Bucket := if b_initialized (q_aggregate q) then Some (q_aggregate q) else None.
Definition two_seconds (rate : Z) : double := d_mul (d_of_Z rate) (d_of_Z 2).
Definition tokens_at (part : Bucket -> double) (rate : Z) (o : option Bucket) (now : Z) : double :=
  match o with
  | None => two_seconds rate
  | Some b =>
      if b_updated b <? now then d_min (two_seconds rate) (d_add (part b) (d_mul (d_seconds (now - b_updated b)) (d_of_Z rate)))
      else part b
  end.
(** The bucket has the tokens for [cost] bytes in [n] deliveries, and what is left of it then. *)
Definition can_pay (byte_rate delivery_rate : Z) (o : option Bucket) (now cost n : Z) : Prop :=
  d_lt (tokens_at b_bytes byte_rate o now) (d_of_Z cost) = false /\ d_lt (tokens_at b_deliveries delivery_rate o now) (d_of_Z n) = false.
Definition holds (byte_rate delivery_rate control_rate : Z) (o : option Bucket) (now : Z) (b : Bucket) : Prop :=
  b_bytes b = tokens_at b_bytes byte_rate o now /\ b_deliveries b = tokens_at b_deliveries delivery_rate o now /\
  b_controls b = tokens_at b_controls control_rate o now /\ b_updated b = match o with Some b0 => Z.max now (b_updated b0) | None => now end /\
  b_initialized b = true.
Definition paid (byte_rate delivery_rate control_rate : Z) (o : option Bucket) (now cost n : Z) (b : Bucket) : Prop :=
  exists b0, holds byte_rate delivery_rate control_rate o now b0 /\
    b = mk_bucket (d_sub (b_bytes b0) (d_of_Z cost)) (d_sub (b_deliveries b0) (d_of_Z n)) (b_controls b0) (b_updated b0) (b_initialized b0).

Lemma refill_holds o b x y z now : (o = None -> b_initialized b = false) -> (forall b0, o = Some b0 -> b = b0 /\ b_initialized b = true) ->
  holds x y z o now (refill b x y z now).
Proof.
  intros N S. unfold holds, refill, tokens_at, two_seconds. destruct o as [b0|].
  - destruct (S b0 eq_refl) as [-> I]. rewrite I. cbn [negb]. destruct (Z.leb_spec now (b_updated b0)) as [L|L].
    + replace (b_updated b0 <? now) with false by lia. split_and!; try done. lia.
    + replace (b_updated b0 <? now) with true by lia. cbn. split_and!; try done. lia.
  - by rewrite N.
Qed.
(** The buckets in the tables have all been filled once. *)
Definition filled (m : gmap bytes Bucket) : Prop := forall k b, m !! k = Some b -> b_initialized b = true.
Lemma refill_initialized b x y z now : b_initialized (refill b x y z now) = true.
Proof. unfold refill. destruct (b_initialized b) eqn:I; cbn [negb]; [|done]. by destruct (_ <=? _). Qed.
Lemma filled_insert m k b : filled m -> b_initialized b = true -> filled (<[k := b]> m).
Proof. intros F I k' b' [[_ <-]|[_ H]]%lookup_insert_Some; [done|by eapply F]. Qed.
Lemma prune_filled q now : filled (q_devices q) /\ filled (q_networks q) -> filled (q_devices (prune q now)) /\ filled (q_networks (prune q now)).
Proof.
  intros [D N]. unfold prune. destruct (_ <? _); [done|]. split; intros k b [H _]%map_lookup_filter_Some; [by apply (D k)|by apply (N k)].
Qed.
Lemma reachable_filled q : quota_reachable q -> filled (q_devices q) /\ filled (q_networks q).
Proof.
  induction 1 as [|q l q' _ IH H|q actor now _ IH|q actor network size recipients now _ IH].
  - split; intros k b; cbn; by rewrite lookup_empty.
  - unfold configure in H. ok_inv H. subst q'. split; intros k b; cbn; by rewrite lookup_empty.
  - apply (prune_filled q now) in IH as [D N]. unfold control. destruct (_ && _); [done|]. cbv zeta.
    destruct (d_lt _ _); split; cbn; try done; apply filled_insert; try done; apply refill_initialized.
  - apply (prune_filled q now) in IH as [D N]. unfold quota_admit. destruct (_ || _); [done|]. cbv zeta.
    destruct (affordable _ _ _ && _ && _); split; cbn; apply filled_insert; try done; apply refill_initialized.
Qed.

(** The table as the next call finds it. *)
Definition tracked (q : Quota) (m : gmap bytes Bucket) (now : Z) : gmap bytes Bucket :=
  filter (fun e : bytes * Bucket => is_Some (standing q m (fst e) now)) m.
Lemma tracked_lookup q m now k : filled m -> tracked q m now !! k = standing q m k now.
Proof.
  intros F. unfold tracked. destruct (standing q m k now) as [b|] eqn:S.
  - apply map_lookup_filter_Some. cbn. rewrite S. split; [|done]. unfold standing in S. destruct (m !! k) as [b'|]; [|done]. repeat case_match; congruence.
  - apply map_lookup_filter_None. right. intros b H. cbn. rewrite S. by intros [? ?].
Qed.
Lemma prune_tracked q now : filled (q_devices q) /\ filled (q_networks q) ->
  q_devices (prune q now) = tracked q (q_devices q) now /\ q_networks (prune q now) = tracked q (q_networks q) now.
Proof.
  assert (G : forall m, filled m -> (if now <? q_next_prune q then m
      else filter (fun e : bytes * Bucket => ~ (now > b_updated (snd e) /\ now - b_updated (snd e) > 300 * 1000000000)) m) = tracked q m now).
  { intros m F. apply map_eq. intros k. rewrite tracked_lookup by done. unfold standing. destruct (Z.ltb_spec now (q_next_prune q)) as [L|L].
    - destruct (m !! k) as [b|] eqn:E; [|done]. rewrite bool_decide_eq_false_2 by lia. by rewrite (F _ _ E).
    - destruct (m !! k) as [b|] eqn:E; [|apply map_lookup_filter_None; by left]. destruct (bool_decide_reflect (q_next_prune q <= now /\ now - b_updated b > 300 * 10 ^ 9)).
      + apply map_lookup_filter_None. right. intros b' E' N. rewrite E in E'. injection E' as <-. cbn in N. lia.
      + rewrite (F _ _ E). apply map_lookup_filter_Some. split; [done|]. cbn. lia. }
  intros [D N]. unfold prune. destruct (now <? q_next_prune q) eqn:E; cbn; rewrite <- (G _ D), <- (G _ N); by rewrite ?E.
Qed.
Lemma standing_filled q m k now b : standing q m k now = Some b -> b_initialized b = true.
Proof. unfold standing. repeat case_match; intros [= <-]; done. Qed.

(** The account of one packet: who pays, whether they can, and what is left. *)
Section Account.
Context (q : Quota) (actor network : bytes) (size_ recipients now : Z).
Let l := q_limits q.
Let cost := size_ * recipients.
Definition device_stands : option Bucket := standing q (q_devices q) actor now.
Definition network_stands : option Bucket := standing q (q_networks q) network now.
Definition room (m : gmap bytes Bucket) (k : bytes) : Prop := is_Some (standing q m k now) \/ Z.of_nat (size (tracked q m now)) < 4096.
Definition payable : Prop :=
  0 < size_ /\ 0 < recipients <= 4096 /\ cost < 2 ^ 64 /\ room (q_devices q) actor /\ room (q_networks q) network /\
  can_pay (device_bytes_per_second l) (device_deliveries_per_second l) device_stands now cost recipients /\
  can_pay (network_bytes_per_second l) (network_deliveries_per_second l) network_stands now cost recipients /\
  can_pay (authority_bytes_per_second l) (authority_deliveries_per_second l) (standing_aggregate q) now cost recipients.
Definition all_paid (q' : Quota) : Prop :=
  exists d n, q_devices q' !! actor = Some d /\ q_networks q' !! network = Some n /\
    paid (device_bytes_per_second l) (device_deliveries_per_second l) (control_per_second l) device_stands now cost recipients d /\
    paid (network_bytes_per_second l) (network_deliveries_per_second l) (control_per_second l) network_stands now cost recipients n /\
    paid (authority_bytes_per_second l) (authority_deliveries_per_second l) (control_per_second l) (standing_aggregate q) now cost recipients (q_aggregate q').
Definition none_paid (q' : Quota) : Prop :=
  (forall d, q_devices q' !! actor = Some d ->
     device_stands = Some d \/ holds (device_bytes_per_second l) (device_deliveries_per_second l) (control_per_second l) device_stands now d) /\
  (forall n, q_networks q' !! network = Some n ->
     network_stands = Some n \/ holds (network_bytes_per_second l) (network_deliveries_per_second l) (control_per_second l) network_stands now n) /\
  (q_aggregate q' = q_aggregate q \/
     holds (authority_bytes_per_second l) (authority_deliveries_per_second l) (control_per_second l) (standing_aggregate q) now (q_aggregate q')).

Lemma refills_hold : quota_reachable q ->
  holds (device_bytes_per_second l) (device_deliveries_per_second l) (control_per_second l) device_stands now
    (device_refill (prune q now) (default empty_bucket (q_devices (prune q now) !! actor)) now) /\
  holds (network_bytes_per_second l) (network_deliveries_per_second l) (control_per_second l) network_stands now
    (network_refill (prune q now) (default empty_bucket (q_networks (prune q now) !! network)) now) /\
  holds (authority_bytes_per_second l) (authority_deliveries_per_second l) (control_per_second l) (standing_aggregate q) now
    (authority_refill (prune q now) (q_aggregate (prune q now)) now).
Proof.
  intros R. pose proof (reachable_filled q R) as F. destruct (prune_tracked q now F) as [-> ->]. destruct (prune_fields q now) as (El & _ & Ea).
  destruct F as [Fd Fn]. rewrite !tracked_lookup by done. unfold device_refill, network_refill, authority_refill. rewrite El, Ea.
  split_and!; apply refill_holds.
  - unfold device_stands. by intros ->.
  - unfold device_stands. intros b E. rewrite E. split; [done|]. by eapply standing_filled.
  - unfold network_stands. by intros ->.
  - unfold network_stands. intros b E. rewrite E. split; [done|]. by eapply standing_filled.
  - unfold standing_aggregate. by destruct (b_initialized (q_aggregate q)).
  - unfold standing_aggregate. intros b E. destruct (b_initialized (q_aggregate q)) eqn:I; [|done]. by injection E as <-.
Qed.
Lemma affordable_holds x y z o b : holds x y z o now b -> affordable b cost recipients = true <-> can_pay x y o now cost recipients.
Proof. intros (Eb & Ed & _). unfold affordable, can_pay. rewrite Eb, Ed, andb_true_iff, !negb_true_iff. done. Qed.
Lemma room_spec m k : filled m -> negb (known k (tracked q m now)) && (Z.of_nat (size (tracked q m now)) >=? 4096) = false <-> room m k.
Proof.
  intros F. unfold known, room. rewrite tracked_lookup by done. rewrite andb_false_iff, negb_false_iff, bool_decide_eq_true, Z.geb_leb, Z.leb_gt. done.
Qed.
Lemma admit_account : quota_reachable q -> 0 <= size_ -> 0 <= recipients ->
  let '(ok, q') := quota_admit q actor network size_ recipients now in
  (ok = true <-> payable) /\ (ok = true -> all_paid q') /\ (ok = false -> none_paid q').
Proof.
  intros R S N. destruct (refills_hold R) as (Hd & Hn & Ha). pose proof (reachable_filled q R) as F. destruct (prune_tracked q now F) as [Ed En]. destruct F as [Fd Fn].
  destruct (prune_fields q now) as (_ & _ & Ea).
  unfold quota_admit. destruct (_ || _) eqn:G.
  - split_and!; [|done|].
    + split; [done|]. intros (P1 & P2 & P3 & P4 & P5 & _). exfalso. apply (room_spec _ _ Fd) in P4. apply (room_spec _ _ Fn) in P5.
      rewrite Ed, En, P4, P5, !orb_false_r in G. rewrite !orb_true_iff, !Z.eqb_eq, !Z.gtb_ltb, !Z.ltb_lt in G. destruct G as [[[G|G]|G]|G]; try lia.
      assert (size_ <= (2 ^ 64 - 1) / recipients) by (apply Z.div_le_lower_bound; unfold cost in P3; lia). lia.
    + intros _. split_and!; [| |left; exact Ea].
      * intros d H. cbn in H. rewrite Ed, tracked_lookup in H by done. by left.
      * intros n H. cbn in H. rewrite En, tracked_lookup in H by done. by left.
  - rewrite !orb_false_iff, !Z.eqb_neq, !Z.gtb_ltb, !Z.ltb_ge in G. rewrite Ed, En in G. destruct G as (((((G1 & G2) & G3) & G4) & G5) & G6).
    apply (room_spec _ _ Fd) in G5. apply (room_spec _ _ Fn) in G6. assert (cost < 2 ^ 64) by (apply admitted_product; lia). cbv zeta.
    destruct (affordable _ _ _ && _ && _) eqn:A; cbn [negb].
    + fold cost in A. rewrite !andb_true_iff in A. rewrite (affordable_holds _ _ _ _ _ Hd), (affordable_holds _ _ _ _ _ Hn), (affordable_holds _ _ _ _ _ Ha) in A.
      destruct A as [[A1 A2] A3]. split_and!; [|intros _|done].
      * split; [intros _; unfold payable; split_and!; first [done|lia]|done].
      * unfold all_paid. eexists _, _. cbn. rewrite !lookup_insert_eq. split_and!; [done|done|..]; eexists; (split; [eassumption|done]).
    + split_and!; [|done|intros _].
      * split; [done|]. intros (_ & _ & _ & _ & _ & A1 & A2 & A3). apply (affordable_holds _ _ _ _ _ Hd) in A1. apply (affordable_holds _ _ _ _ _ Hn) in A2.
        apply (affordable_holds _ _ _ _ _ Ha) in A3. unfold cost in *. by rewrite A1, A2, A3 in A.
      * unfold none_paid. cbn. rewrite !lookup_insert_eq. split_and!; [intros d [= <-]|intros n [= <-]|]; by right.
Qed.

Lemma control_account : quota_reachable q ->
  let '(ok, q') := control q actor now in
  (ok = true <-> room (q_devices q) actor /\ d_lt (tokens_at b_controls (control_per_second l) device_stands now) (d_of_Z 1) = false) /\
  (ok = true -> exists d, holds (device_bytes_per_second l) (device_deliveries_per_second l) (control_per_second l) device_stands now d /\
     q_devices q' !! actor = Some (mk_bucket (b_bytes d) (b_deliveries d) (d_sub (b_controls d) (d_of_Z 1)) (b_updated d) (b_initialized d))) /\
  (ok = false -> forall d, q_devices q' !! actor = Some d ->
     device_stands = Some d \/ holds (device_bytes_per_second l) (device_deliveries_per_second l) (control_per_second l) device_stands now d).
Proof.
  intros R. destruct (refills_hold R) as (Hd & _). pose proof (reachable_filled q R) as F. destruct (prune_tracked q now F) as [Ed _]. destruct F as [Fd _].
  unfold control. destruct (_ && _) eqn:G.
  - split_and!; [|done|].
    + split; [done|]. intros [P _]. apply (room_spec _ _ Fd) in P. rewrite Ed in G. congruence.
    + intros _ d H. cbn in H. rewrite Ed, tracked_lookup in H by done. by left.
  - rewrite Ed in G. apply (room_spec _ _ Fd) in G. cbv zeta. pose proof Hd as (_ & _ & Ec & _). rewrite <- Ec. destruct (d_lt _ _) eqn:D.
    + split_and!; [|done|].
      * split; [done|]. by intros [_ ?].
      * intros _ d. cbn. rewrite lookup_insert_eq. intros [= <-]. by right.
    + split_and!; [done|intros _|done]. eexists. split; [exact Hd|]. cbn. by rewrite lookup_insert_eq.
Qed.
End Account.

(** Waiting never takes a bucket above two seconds' worth. *)
Lemma tokens_capped part rate o now : (forall b, o = Some b -> b_updated b < now) -> d_lt (two_seconds rate) (tokens_at part rate o now) = false.
Proof.
  intros H. destruct o as [b|]; [|apply d_lt_irrefl]. unfold tokens_at. specialize (H b eq_refl). replace (b_updated b <? now) with true by lia. apply d_min_cap.
Qed.

(** The verdicts on packets of one mebibyte that one device sends at the given times. *)
Fixpoint admissions (q : Quota) (times : list Z) : list bool :=
  match times with
  | [] => []
  | now :: times => let '(ok, q) := quota_admit q [x01] [x02] (1024 * 1024) 1 now in ok :: admissions q times
  end.

(** ** Control requests of one connection *)

Record ControlRateLimit := mk_rate_limit { rate_ : double; capacity_ : double; tokens_ : double; updated_ : option Z }.

Definition make_rate_limit (requests_per_second : Z) : result ControlRateLimit :=
  let rate := d_of_Z requests_per_second in
  check! negb (requests_per_second =? 0) else invalid_argument in
  Ok (mk_rate_limit rate (d_mul (d_of_Z 4) rate) (d_mul (d_of_Z 4) rate) None).

Definition allow (r : ControlRateLimit) (now : Z) : bool * ControlRateLimit :=
  let tokens := match updated_ r with
    | Some at_ => if now >? at_ then d_min (capacity_ r) (d_add (tokens_ r) (d_mul (d_seconds (now - at_)) (rate_ r))) else tokens_ r
    | None => tokens_ r end in
  let updated := match updated_ r with
    | Some at_ => if now >? at_ then Some now else Some at_
    | None => Some now end in
  if d_lt tokens (d_of_Z 1) then (false, mk_rate_limit (rate_ r) (capacity_ r) tokens updated)
  else (true, mk_rate_limit (rate_ r) (capacity_ r) (d_sub tokens (d_of_Z 1)) updated).

(** The verdicts on a sequence of requests. *)
Fixpoint verdicts (r : ControlRateLimit) (times : list Z) : list bool * ControlRateLimit :=
  match times with
  | [] => ([], r)
  | now :: times =>
      let '(ok, r) := allow r now in
      let '(oks, r) := verdicts r times in
      (ok :: oks, r)
  end.

Definition default_rate_limit : ControlRateLimit :=
  mk_rate_limit (d_of_Z 32) (d_of_Z 128) (d_of_Z 128) None.

Lemma default_rate_limit_made : make_rate_limit 32 = Ok default_rate_limit.
Proof. vm_compute. reflexivity. Qed.

(** The verdicts at one instant depend on the tokens only. *)
Fixpoint burst (n : nat) (tokens : double) : list bool :=
  match n with
  | O => []
  | S n => if d_lt tokens (d_of_Z 1) then false :: burst n tokens else true :: burst n (d_sub tokens (d_of_Z 1))
  end.

Lemma verdicts_instant n a b t now :
  fst (verdicts (mk_rate_limit a b t (Some now)) (replicate n now)) = burst n t.
Proof.
  revert t. induction n as [|n IH]; intros t; [done|].
  cbn [replicate verdicts burst]. unfold allow. cbn [updated_ tokens_ rate_ capacity_].
  replace (now >? now) with false by lia. destruct (d_lt t (d_of_Z 1)).
  - specialize (IH t). by destruct (verdicts _ _); cbn in *; subst.
  - specialize (IH (d_sub t (d_of_Z 1))). by destruct (verdicts _ _); cbn in *; subst.
Qed.

(** At one instant the default limiter lets four seconds' worth of requests through. *)
Lemma default_burst now :
  fst (verdicts default_rate_limit (replicate 140 now)) = replicate 128 true ++ replicate 12 false.
Proof.
  change (replicate 140 now) with (now :: replicate 139 now).
  cbn [verdicts]. unfold allow, default_rate_limit. cbn [updated_ tokens_ rate_ capacity_].
  replace (d_lt (d_of_Z 128) (d_of_Z 1)) with false by (vm_compute; reflexivity).
  pose proof (verdicts_instant 139 (d_of_Z 32) (d_of_Z 128) (d_sub (d_of_Z 128) (d_of_Z 1)) now) as H.
  destruct (verdicts _ _). cbn [fst] in *. subst. vm_compute. reflexivity.
Qed.

(** C33: Traffic is limited.  In every state of the send budget reachable by reservations, rejections and releases in
    any order, the usage is exactly what the live tickets hold and within the limits, and bulk frames never eat
    into the room reserved for control frames: a control frame is granted whenever the live control tickets
    together with it fit in the reserve.  The k-th reconnect delay after construction or reset is the initial delay
    doubled k times, capped by the maximum; the k-th failure in a row of a direct path that was healthy is
    retried after min(1000 * 2^min(k,5), 30000) milliseconds, a second report of the same failure does not
    postpone the retry, and the retry is due from then on.  Whatever calls the relay has made, it tracks at
    most 4096 devices and 4096 networks.  A packet is admitted exactly when it has between 1 and 4096 recipients and a byte
    total that fits 64 bits, the tables have room, and the sender's, the network's and the relay's bucket each hold its bytes
    and its deliveries; each bucket then has exactly that much less, and a refused packet costs nothing.  A bucket starts with
    two seconds' worth of tokens and gains its rate for the time that passed, never above that amount ([tokens_at], in the
    machine's doubles); one unused for five minutes is forgotten.  A control request is admitted exactly when the device's
    bucket holds a token for it, which it costs.  So the default limits let a device send 16 MiB at once and no more, 8 MiB
    a second later and again 16 MiB after an hour.  The counters move by exactly what is admitted, and nobody else's bucket is
    charged.  At one instant a connection's limiter lets 128 control requests through and no more, however long it waited. *)
Theorem traffic_limits_respected (l : SendQueueLimits) (s : BudgetState) (ts : list Ticket) (size : Z)
    (i m : Z) (b0 : ReconnectBackoff) (r : RevalidationBackoff) (n k : nat) (now : Z)
    (q : Quota) (actor network : bytes) (size_ recipients : Z) :
  (wf_limits l -> budget_reach l s ts ->
   used_bytes s = held (fun _ => true) ts /\ used_frames s = held_frames (fun _ => true) ts /\
   used_bytes s <= limit_bytes l /\ used_frames s <= limit_frames l /\
   (0 < size -> held ticket_control ts + size <= reserved_control_bytes l ->
    held_frames ticket_control ts < reserved_control_frames l ->
    fst (reserve s size true) = Some (mk_ticket size true))) /\
  (make_backoff i m = Ok b0 ->
   let b := reset (snd (delays n b0)) in
   fst (delays k b) = map (fun j => Z.min (i * 2 ^ Z.of_nat j) m) (seq 0 k) /\
   current_delay (snd (delays k b)) = Z.min (i * 2 ^ Z.of_nat k) m) /\
  (let f := failed (after_failures k (healthy r)) now in
   let at_ := now + 1000000 * Z.min (1000 * 2 ^ Z.min (Z.of_nat k) 5) 30000 in
   next_ f = at_ /\ (forall later, failed f later = f) /\ forall t, due f t = (t >=? at_)) /\
  (quota_reachable q -> 0 <= size_ -> 0 <= recipients ->
  let '(ok, q') := quota_admit q actor network size_ recipients now in
  quota_bounded q' /\
  (ok = true <-> payable q actor network size_ recipients now) /\
  (ok = true -> all_paid q actor network size_ recipients now q') /\ (ok = false -> none_paid q actor network now q') /\
  (admitted_deliveries (q_metrics q'), admitted_bytes (q_metrics q')) = forwarded_after ok q size_ recipients /\
  quota_rejections (q_metrics q') =
    (if ok then quota_rejections (q_metrics q) else (quota_rejections (q_metrics q) + 1) mod 2 ^ 64) /\
  (forall d, d <> actor -> q_devices q' !! d = standing q (q_devices q) d now) /\
  (forall n, n <> network -> q_networks q' !! n = standing q (q_networks q) n now)) /\
  (quota_reachable q ->
  let '(ok, q') := control q actor now in
  (ok = true <-> room q now (q_devices q) actor /\
     d_lt (tokens_at b_controls (control_per_second (q_limits q)) (device_stands q actor now) now) (d_of_Z 1) = false) /\
  (ok = true -> exists d, holds (device_bytes_per_second (q_limits q)) (device_deliveries_per_second (q_limits q)) (control_per_second (q_limits q))
       (device_stands q actor now) now d /\
     q_devices q' !! actor = Some (mk_bucket (b_bytes d) (b_deliveries d) (d_sub (b_controls d) (d_of_Z 1)) (b_updated d) (b_initialized d)))) /\
  (forall part rate o, (forall b, o = Some b -> b_updated b < now) -> d_lt (two_seconds rate) (tokens_at part rate o now) = false) /\
  admissions fresh_quota (replicate 18 0 ++ replicate 10 (10 ^ 9) ++ replicate 18 (3600 * 10 ^ 9)) =
    replicate 16 true ++ replicate 2 false ++ replicate 8 true ++ replicate 2 false ++ replicate 16 true ++ replicate 2 false /\
  fst (verdicts default_rate_limit (replicate 140 now)) = replicate 128 true ++ replicate 12 false /\
  fst (verdicts default_rate_limit (replicate 130 0 ++ replicate 130 (3600 * 10 ^ 9))) =
    replicate 128 true ++ replicate 2 false ++ replicate 128 true ++ replicate 2 false.
Proof.
  destruct (sending_limits l s ts size i m b0 r n k now) as (A & B & D). split; [exact A|]. split; [exact B|]. split; [exact D|]. split; [|split; [|split; [|split; [|split]]]].
  - intros R S N. pose proof (forwarding_quota q actor network size_ recipients now R S N) as F. pose proof (admit_account q actor network size_ recipients now R S N) as P.
    destruct (quota_admit _ _ _ _ _ _) as [ok q']. destruct F as (F1 & _ & F2 & F3 & F4 & F5). destruct P as (P1 & P2 & P3). pose proof (reachable_filled q R) as Fl.
    destruct (prune_tracked q now Fl) as [Ed En]. destruct Fl as [Fd Fn]. rewrite Ed in F4. rewrite En in F5.
    split_and!; try done; [intros d Nd; by rewrite F4, tracked_lookup|intros x Nx; by rewrite F5, tracked_lookup].
  - intros R. pose proof (control_account q actor network now R) as P. destruct (control _ _ _) as [ok q']. split; apply P.
  - intros part rate o. apply tokens_capped.
  - vm_compute. reflexivity.
  - apply default_burst.
  - vm_compute. reflexivity.
Qed.

Lemma traffic_limits_respected_witness :
  fst (reserve (mk_budget small_limits 60 1 0) 40 true) = Some (mk_ticket 40 true) /\
  fst (delays 4 (reset (snd (delays 2 (mk_backoff 100 500 100))))) = [100; 200; 400; 500] /\
  fst (quota_admit fresh_quota [x01] [x02] 1200 3 5) = true /\
  fst (quota_admit fresh_quota [x01] [x02] (17 * 1024 * 1024) 1 5) = false /\
  quota_bounded (snd (quota_admit fresh_quota [x01] [x02] 1200 3 5)).
Proof.
  assert (R : budget_reach small_limits (mk_budget small_limits 60 1 0) [mk_ticket 60 false]).
  { apply (br_reserve _ (mk_budget small_limits 0 0 0) [] 60 false); [by apply br_make|by vm_compute|reflexivity]. }
  destruct (traffic_limits_respected small_limits (mk_budget small_limits 60 1 0) [mk_ticket 60 false] 40 100 500 (mk_backoff 100 500 100)
    fresh_revalidation 2 4 5 fresh_quota [x01] [x02] 1200 3) as (B & D & _ & Q & _).
  split; [|split; [exact (proj1 (D eq_refl))|]].
  - apply B in R as (_ & _ & _ & _ & T); [apply T; vm_compute; congruence|vm_compute; repeat split; congruence].
  - split; [vm_compute; reflexivity|]. split; [vm_compute; reflexivity|].
    specialize (Q qr_fresh ltac:(lia) ltac:(lia)). destruct (quota_admit _ _ _ _ _ _) as [ok q']. apply Q.
Defined.
