(* ===== verification/Candidates.v ===== *)
(** * Peer candidates

    p2p/candidates.hpp and .cpp: the addresses a device offers a peer for a direct
    connection, the rules an exchange obeys and its encoding (schema 2). *)
From S2P Require Import Prelude Wire.

(** [unassigned_candidate] is an enumeration value without a named constant, which a cast
    from the wire can produce. *)
Inductive CandidateKind := host | server_reflexive | unassigned_candidate (raw : Z).

Definition candidate_kind_value (k : CandidateKind) : Z :=
  match k with host => 1 | server_reflexive => 2 | unassigned_candidate raw => raw end.
Definition candidate_kind_cast (raw : Z) : CandidateKind :=
  if raw =? 1 then host else if raw =? 2 then server_reflexive else unassigned_candidate raw.

Record Endpoint := mk_endpoint { ep_ipv4 : Z; ep_port : Z }.
#[global] Instance Endpoint_eq_dec : EqDecision Endpoint.
Proof. solve_decision. Defined.

Record Candidate := mk_candidate { endpoint : Endpoint; cand_kind : CandidateKind; priority : Z }.

Definition max_candidates : Z := 8.

Record CandidateExchange := mk_exchange {
  x_network_id : bytes; x_sender : bytes; x_recipient : bytes;
  sender_session : bytes; recipient_session : bytes;
  x_key_epoch : Z; generation : Z; response_to_generation : Z; lifetime_ms : Z;
  candidates : list Candidate }.

Definition usable_endpoint (e : Endpoint) (loopback : bool) : bool :=
  let first := Z.shiftr (ep_ipv4 e) 24 in
  negb (ep_port e =? 0) && negb (first =? 0) && (first <? 224) && (loopback || negb (first =? 127)) &&
  negb (Z.land (ep_ipv4 e) 0xffff0000 =? 0xa9fe0000) && negb (ep_ipv4 e =? 0xffffffff).

(** The loop over the candidates with the endpoints seen so far. *)
Fixpoint validate_candidates (seen : list Endpoint) (l : list Candidate) : result unit :=
  match l with
  | [] => Ok tt
  | c :: l =>
      check! negb (negb (usable_endpoint (endpoint c) true) || (priority c =? 0) ||
        match cand_kind c with unassigned_candidate _ => true | _ => false end ||
        bool_decide (endpoint c ∈ seen)) else invalid_argument in
      validate_candidates (endpoint c :: seen) l
  end.

Definition validate (v : CandidateExchange) : result unit :=
  check! negb (is_zero (x_network_id v) || is_zero (x_sender v) || is_zero (x_recipient v) ||
    bool_decide (x_sender v = x_recipient v) || is_zero (sender_session v) || is_zero (recipient_session v) ||
    (x_key_epoch v =? 0) || (generation v =? 0) || (lifetime_ms v <? 1000) || (lifetime_ms v >? 30000) ||
    (len (candidates v) =? 0) || (len (candidates v) >? max_candidates)) else invalid_argument in
  validate_candidates [] (candidates v).

Definition put_candidate (c : Candidate) : bytes :=
  put_be 4 (ep_ipv4 (endpoint c)) ++ put_be 2 (ep_port (endpoint c)) ++
  put_be 1 (candidate_kind_value (cand_kind c)) ++ put_be 4 (priority c).

Definition encode_candidates (v : CandidateExchange) : result bytes :=
  let* _ := validate v in
  Ok (put_be 1 2 ++ x_network_id v ++ x_sender v ++ x_recipient v ++ sender_session v ++ recipient_session v ++
      put_be 8 (x_key_epoch v) ++ put_be 8 (generation v) ++ put_be 8 (response_to_generation v) ++
      put_be 4 (lifetime_ms v) ++ put_be 1 (len (candidates v)) ++ concat (map put_candidate (candidates v))).

Definition get_candidate (r : BinaryReader.t) : result (Candidate * BinaryReader.t) :=
  let* (ipv4, r) := BinaryReader.get 4 r in
  let* (port, r) := BinaryReader.get 2 r in
  let* (kind, r) := BinaryReader.get 1 r in
  let* (prio, r) := BinaryReader.get 4 r in
  Ok (mk_candidate (mk_endpoint ipv4 port) (candidate_kind_cast kind) prio, r).

Definition decode_candidates (bs : bytes) : result CandidateExchange :=
  let* (schema, r) := BinaryReader.get 1 bs in
  check! schema =? 2 else invalid_argument in
  let* (network_id, r) := BinaryReader.array 16 r in
  let* (sender, r) := BinaryReader.array 32 r in
  let* (recipient, r) := BinaryReader.array 32 r in
  let* (ss, r) := BinaryReader.array 32 r in
  let* (rs, r) := BinaryReader.array 32 r in
  let* (epoch, r) := BinaryReader.get 8 r in
  let* (gen, r) := BinaryReader.get 8 r in
  let* (resp, r) := BinaryReader.get 8 r in
  let* (lifetime, r) := BinaryReader.get 4 r in
  let* (count, r) := BinaryReader.get 1 r in
  check! negb (count >? max_candidates) else invalid_argument in
  let* (cs, r) := BinaryReader.read_n (Z.to_nat count) get_candidate r in
  let* _ := BinaryReader.finish r in
  let v := mk_exchange network_id sender recipient ss rs epoch gen resp lifetime cs in
  let* _ := validate v in
  Ok v.

(** ** Field types *)

Definition wf_candidate (c : Candidate) : Prop :=
  word 4 (ep_ipv4 (endpoint c)) /\ word 2 (ep_port (endpoint c)) /\ word 4 (priority c) /\
  word 1 (candidate_kind_value (cand_kind c)) /\ candidate_kind_cast (candidate_kind_value (cand_kind c)) = cand_kind c.

Definition wf_exchange (v : CandidateExchange) : Prop :=
  length (x_network_id v) = 16%nat /\ length (x_sender v) = 32%nat /\ length (x_recipient v) = 32%nat /\
  length (sender_session v) = 32%nat /\ length (recipient_session v) = 32%nat /\
  word 8 (x_key_epoch v) /\ word 8 (generation v) /\ word 8 (response_to_generation v) /\ word 4 (lifetime_ms v) /\
  Forall wf_candidate (candidates v).

Lemma candidate_kind_value_cast raw : candidate_kind_value (candidate_kind_cast raw) = raw.
Proof. unfold candidate_kind_cast. destruct (Z.eqb_spec raw 1); [done|]. by destruct (Z.eqb_spec raw 2). Qed.

Lemma get_candidate_app c rest : wf_candidate c -> get_candidate (put_candidate c ++ rest) = Ok (c, rest).
Proof.
  intros (W1 & W2 & W3 & W4 & E). unfold get_candidate, put_candidate. rewrite <- !app_assoc.
  rewrite !BinaryReader.get_app by done. rewrite E. by destruct c as [[] ? ?].
Qed.

Lemma get_candidate_inv data c r : get_candidate data = Ok (c, r) -> data = put_candidate c ++ r /\ wf_candidate c.
Proof.
  unfold get_candidate. intros H. ok_inv H. injection H as <- <-.
  apply BinaryReader.get_inv in E as [-> ?], E0 as [-> ?], E1 as [-> ?], E2 as [-> ?].
  unfold put_candidate, wf_candidate. cbn [endpoint ep_ipv4 ep_port cand_kind priority].
  rewrite !candidate_kind_value_cast. rewrite <- !app_assoc. done.
Qed.

(** ** What a valid exchange is *)

Definition candidate_ok (c : Candidate) : Prop :=
  usable_endpoint (endpoint c) true = true /\ priority c <> 0 /\ (cand_kind c = host \/ cand_kind c = server_reflexive).

Definition exchange_ok (v : CandidateExchange) : Prop :=
  is_zero (x_network_id v) = false /\ is_zero (x_sender v) = false /\ is_zero (x_recipient v) = false /\
  x_sender v <> x_recipient v /\ is_zero (sender_session v) = false /\ is_zero (recipient_session v) = false /\
  x_key_epoch v <> 0 /\ generation v <> 0 /\ 1000 <= lifetime_ms v <= 30000 /\
  1 <= len (candidates v) <= max_candidates /\
  Forall candidate_ok (candidates v) /\ NoDup (map endpoint (candidates v)).

Lemma validate_candidates_spec seen l :
  validate_candidates seen l = Ok tt <->
  Forall candidate_ok l /\ NoDup (map endpoint l) /\ (forall c, c ∈ l -> endpoint c ∉ seen).
Proof.
  revert seen. induction l as [|c l IH]; intros seen; cbn [validate_candidates].
  { split; [|done]. intros _. split; [constructor|]. split; [constructor|]. intros c Hc. by apply not_elem_of_nil in Hc. }
  destruct (negb _) eqn:G.
  - bool_prop. rewrite IH. cbn [map]. rewrite Forall_cons, NoDup_cons. split.
    + intros (F & N & D). split; [split; [|done]|split; [split; [|done]|]].
      * split; [done|]. split; [done|]. destruct (cand_kind c); auto; done.
      * intros Hin. apply list_elem_of_fmap in Hin as (c' & E & Hc'). apply (D c' Hc'). rewrite <- E. left.
      * intros c' Hc'. apply elem_of_cons in Hc' as [->|Hc']; [done|]. intros X. apply (D c' Hc'). by right.
    + intros ([_ F] & [N1 N] & D). split; [done|]. split; [done|]. intros c' Hc' X.
      apply elem_of_cons in X as [X|X]; [|by apply (D c'); [right|]].
      apply N1. rewrite <- X. by apply list_elem_of_fmap_2.
  - split; [done|]. intros (F & _ & D). apply Forall_cons in F as [(U & P & K) _].
    rewrite U in G. rewrite (bool_decide_eq_false_2 (endpoint c ∈ seen)) in G by (apply D; left).
    destruct (Z.eqb_spec (priority c) 0); [done|]. destruct K as [K|K]; rewrite K in G; done.
Qed.

Lemma validate_spec v : validate v = Ok tt <-> exchange_ok v.
Proof.
  unfold validate, exchange_ok. pose proof (len_nonneg (candidates v)). destruct (negb _) eqn:G.
  - bool_prop. rewrite validate_candidates_spec. split.
    + intros (F & N & _). repeat (split; [first [done|lia]|]). done.
    + intros (_ & _ & _ & _ & _ & _ & _ & _ & _ & _ & F & N). split; [done|]. split; [done|]. intros c _. apply not_elem_of_nil.
  - split; [done|]. intros (H1 & H2 & H3 & H4 & H5 & H6 & H7 & H8 & H9 & H10 & _). exfalso.
    rewrite H1, H2, H3, H5, H6, bool_decide_eq_false_2 in G by done. cbn in G. apply negb_false_iff in G.
    rewrite !orb_true_iff, !Z.eqb_eq, Z.ltb_lt, !Z.gtb_lt in G. unfold max_candidates in *. lia.
Qed.

(** The candidate codec is exact, and every exchange that passes is between two
    distinct devices, lives between one and thirty seconds and names one to eight usable,
    pairwise distinct endpoints of known kinds. *)
Lemma candidates_exact (bs : bytes) (v : CandidateExchange) :
  (decode_candidates bs = Ok v <-> wf_exchange v /\ encode_candidates v = Ok bs) /\
  (is_ok (encode_candidates v) = true <-> exchange_ok v).
Proof.
  split; [split|].
  - unfold decode_candidates. intros H. ok_inv H. bool_prop. subst.
    apply BinaryReader.get_inv in E as [-> ?], E5 as [-> ?], E6 as [-> ?], E7 as [-> ?], E8 as [-> ?], E9 as [-> ?].
    apply BinaryReader.array_inv in E0 as [-> ?], E1 as [-> ?], E2 as [-> ?], E3 as [-> ?], E4 as [-> ?].
    apply (BinaryReader.read_n_inv _ put_candidate wf_candidate get_candidate_inv) in E10 as (-> & L & F).
    destruct a. apply BinaryReader.finish_inv in E11 as ->.
    split; [by split_and!|]. unfold encode_candidates. destruct a0. rewrite E12. cbn. f_equal. rewrite app_nil_r.
    repeat f_equal. words. unfold len. lia.
  - intros [(L1 & L2 & L3 & L4 & L5 & W1 & W2 & W3 & W4 & F) H]. unfold encode_candidates in H.
    destruct (validate v) as [[]|] eqn:V; [|done]. apply Ok_inj in H as <-. unfold decode_candidates.
    apply validate_spec in V as S. destruct S as (_ & _ & _ & _ & _ & _ & _ & _ & _ & S & _).
    unfold max_candidates in *.
    rewrite BinaryReader.get_app by (words; lia). cbn [Z.eqb Pos.eqb].
    rewrite !BinaryReader.array_app by done. rewrite !BinaryReader.get_app by (done || (words; lia)).
    guard_true by (rewrite negb_true_iff, Z.gtb_ltb, Z.ltb_ge; lia).
    unfold len. rewrite Nat2Z.id, <- (app_nil_r (concat _)).
    rewrite BinaryReader.read_n_app by (intros c r Hc; apply get_candidate_app; rewrite Forall_forall in F; auto).
    cbn [BinaryReader.finish]. destruct v. cbn in *. by rewrite V.
  - rewrite <- validate_spec. unfold encode_candidates. destruct (validate v) as [[]|]; done.
Qed.
