(* ===== verification/UserAccess.v ===== *)
(** * Account, password and invitation requests

    protocol/user_access.hpp and .cpp: the requests a client makes about accounts, enrolled
    devices, network passwords and invitation links, their results, and both codecs. *)
From S2P Require Import Prelude Wire NetworkPolicy NetworkMessages RelayStore.

(** [unassigned_action] is an enumeration value without a named constant. *)
Inductive AccessAction :=
| act_account_create | act_account_status | act_enrollment_issue | act_device_enroll | act_device_revoke
| act_password_set | act_password_join | act_invite_issue | act_invite_redeem | act_invite_revoke
| act_network_create_protected | unassigned_action (raw : Z).

#[global] Instance AccessAction_eq_dec : EqDecision AccessAction.
Proof. solve_decision. Defined.

Definition action_value (a : AccessAction) : Z :=
  match a with
  | act_account_create => 1 | act_account_status => 2 | act_enrollment_issue => 3 | act_device_enroll => 4
  | act_device_revoke => 5 | act_password_set => 6 | act_password_join => 7 | act_invite_issue => 8
  | act_invite_redeem => 9 | act_invite_revoke => 10 | act_network_create_protected => 11
  | unassigned_action raw => raw
  end.
Definition action_cast (raw : Z) : AccessAction :=
  match raw with
  | 1 => act_account_create | 2 => act_account_status | 3 => act_enrollment_issue | 4 => act_device_enroll
  | 5 => act_device_revoke | 6 => act_password_set | 7 => act_password_join | 8 => act_invite_issue
  | 9 => act_invite_redeem | 10 => act_invite_revoke | 11 => act_network_create_protected
  | _ => unassigned_action raw
  end.

Record AccessRequest := mk_access_request {
  ar_action : AccessAction; ar_network_id : bytes; ar_device_id : bytes; ar_text : bytes; ar_secret : bytes;
  lifetime_seconds : Z; max_uses : Z; ar_require_approval : bool }.

Record AccessResult := mk_access_result {
  as_action : AccessAction; as_code : NetworkResultCode; as_account_id : bytes; as_network_id : bytes;
  as_text : bytes; as_secret : bytes; as_devices : list AccountDevice }.

Definition check_action (a : AccessAction) : result unit :=
  check! negb ((action_value a <? 1) || (action_value a >? 11)) else invalid_argument in Ok tt.

(** [find_first_of("\0\r\n")]. *)
Definition plain_char (b : byte) : bool :=
  negb (bool_decide (b = x00) || bool_decide (b = x0d) || bool_decide (b = x0a)).

Definition put_string (s : bytes) (limit : Z) : result bytes :=
  check! negb ((len s >? limit) || negb (forallb plain_char s)) else invalid_argument in
  Ok (put_be 2 (len s) ++ s).

Definition get_string (limit : Z) (r : BinaryReader.t) : result (bytes * BinaryReader.t) :=
  let* (size, r) := BinaryReader.get 2 r in
  let* (b, r) := BinaryReader.bytes_ size r in
  check! negb (len b >? limit) else invalid_argument in
  Ok (b, r).

Definition encode_access_request (x : AccessRequest) : result bytes :=
  let* _ := check_action (ar_action x) in
  let* text := put_string (ar_text x) 128 in
  let* secret := put_string (ar_secret x) 256 in
  Ok (put_be 1 1 ++ put_be 1 (action_value (ar_action x)) ++ ar_network_id x ++ ar_device_id x ++ text ++ secret ++
      put_be 4 (lifetime_seconds x) ++ put_be 2 (max_uses x) ++
      (if action_value (ar_action x) >=? action_value act_password_set then put_be 1 (flag (ar_require_approval x)) else [])).

Definition get_approval (a : AccessAction) (r : BinaryReader.t) : result (bool * BinaryReader.t) :=
  if action_value a >=? action_value act_password_set then
    let* (value, r) := BinaryReader.get 1 r in
    check! negb (value >? 1) else invalid_argument in
    Ok (negb (value =? 0), r)
  else Ok (false, r).

Definition decode_access_request (payload : bytes) : result AccessRequest :=
  let* (version, r) := BinaryReader.get 1 payload in
  check! version =? 1 else invalid_argument in
  let* (action, r) := BinaryReader.get 1 r in
  let* (network, r) := BinaryReader.array 16 r in
  let* (device, r) := BinaryReader.array 32 r in
  let* (text, r) := get_string 128 r in
  let* (secret, r) := get_string 256 r in
  let* (lifetime, r) := BinaryReader.get 4 r in
  let* (uses, r) := BinaryReader.get 2 r in
  let* (approval, r) := get_approval (action_cast action) r in
  let* _ := BinaryReader.finish r in
  let x := mk_access_request (action_cast action) network device text secret lifetime uses approval in
  let* _ := encode_access_request x in
  Ok x.

Definition put_device (d : AccountDevice) : result bytes :=
  let* label := put_string (ld_label d) 128 in
  Ok (ld_id d ++ label ++ put_be 1 (flag (ld_revoked d))).

Definition get_device (r : BinaryReader.t) : result (AccountDevice * BinaryReader.t) :=
  let* (id, r) := BinaryReader.array 32 r in
  let* (label, r) := get_string 128 r in
  let* (value, r) := BinaryReader.get 1 r in
  check! negb (value >? 1) else invalid_argument in
  Ok (mk_listed_device id label (negb (value =? 0)), r).

Definition encode_access_result (x : AccessResult) : result bytes :=
  let* _ := check_action (as_action x) in
  check! negb (negb (is_known_network_result_code (as_code x)) || (len (as_devices x) >? 64)) else invalid_argument in
  let* text := put_string (as_text x) 128 in
  let* secret := put_string (as_secret x) 512 in
  let* devices := map_result put_device (as_devices x) in
  Ok (put_be 1 1 ++ put_be 1 (action_value (as_action x)) ++ put_be 2 (code_value (as_code x)) ++ as_account_id x ++
      as_network_id x ++ text ++ secret ++ put_be 1 (len (as_devices x)) ++ concat devices).

Definition decode_access_result (payload : bytes) : result AccessResult :=
  let* (version, r) := BinaryReader.get 1 payload in
  check! version =? 1 else invalid_argument in
  let* (action, r) := BinaryReader.get 1 r in
  let* (code, r) := BinaryReader.get 2 r in
  let* (account, r) := BinaryReader.array 32 r in
  let* (network, r) := BinaryReader.array 16 r in
  let* (text, r) := get_string 128 r in
  let* (secret, r) := get_string 512 r in
  let* (count, r) := BinaryReader.get 1 r in
  check! negb (count >? 64) else invalid_argument in
  let* (devices, r) := BinaryReader.read_n (Z.to_nat count) get_device r in
  let* _ := BinaryReader.finish r in
  let x := mk_access_result (action_cast action) (code_cast code) account network text secret devices in
  let* _ := encode_access_result x in
  Ok x.

(** ** Field types *)

Definition wf_action (a : AccessAction) : Prop := forall raw, a <> unassigned_action raw.

(** The actions whose requests say whether joining needs an approval. *)
Definition approval_actions : list AccessAction :=
  [act_password_set; act_password_join; act_invite_issue; act_invite_redeem; act_invite_revoke; act_network_create_protected].

Definition typed_access_request (x : AccessRequest) : Prop :=
  wf_action (ar_action x) /\ length (ar_network_id x) = 16%nat /\ length (ar_device_id x) = 32%nat /\
  word 4 (lifetime_seconds x) /\ word 2 (max_uses x).
(** The other actions have no approval flag to send: it has its default. *)
Definition wf_access_request (x : AccessRequest) : Prop :=
  typed_access_request x /\ (ar_action x ∉ approval_actions -> ar_require_approval x = false).
Definition without_approval (x : AccessRequest) : AccessRequest :=
  mk_access_request (ar_action x) (ar_network_id x) (ar_device_id x) (ar_text x) (ar_secret x) (lifetime_seconds x) (max_uses x) false.
Definition wf_access_result (x : AccessResult) : Prop :=
  wf_action (as_action x) /\ word 2 (code_value (as_code x)) /\ code_cast (code_value (as_code x)) = as_code x /\
  length (as_account_id x) = 32%nat /\ length (as_network_id x) = 16%nat /\
  Forall (fun d => length (ld_id d) = 32%nat) (as_devices x).

Lemma wf_action_value a : wf_action a -> word 1 (action_value a) /\ action_cast (action_value a) = a.
Proof. intros W. destruct a; try (by exfalso; eapply W); by vm_compute. Qed.
Lemma check_action_cast raw u : check_action (action_cast raw) = Ok u -> wf_action (action_cast raw).
Proof.
  unfold check_action. intros H. ok_inv H. rewrite negb_true_iff, orb_false_iff in G. destruct G as [G1 G2]. bool_prop.
  intros r E. rewrite E in G1, G2. unfold action_cast in E. repeat case_match; simplify_eq; cbn in G1, G2; lia.
Qed.
Lemma approval_carried a : wf_action a -> (action_value a >=? action_value act_password_set) = bool_decide (a ∈ approval_actions).
Proof. intros W. destruct a; try (by exfalso; eapply W); by vm_compute. Qed.

Lemma action_value_cast raw : action_value (action_cast raw) = raw.
Proof. unfold action_cast. repeat case_match; subst; reflexivity. Qed.

(** ** Strings *)

Lemma put_string_ok s limit bs : put_string s limit = Ok bs ->
  bs = put_be 2 (len s) ++ s /\ len s <= limit /\ forallb plain_char s = true.
Proof. unfold put_string. intros H. ok_inv H. bool_prop. split; [done|]. split; [lia|done]. Qed.

Lemma get_string_app s limit bs rest : limit < 65536 -> put_string s limit = Ok bs -> get_string limit (bs ++ rest) = Ok (s, rest).
Proof.
  intros L H. apply put_string_ok in H as (-> & H & _). unfold get_string. rewrite <- app_assoc.
  pose proof (len_nonneg s). rewrite BinaryReader.get_app by (words; lia). rewrite BinaryReader.bytes_app by done.
  by guard_true by (rewrite negb_true_iff, Z.gtb_ltb, Z.ltb_ge; lia).
Qed.

Lemma get_string_inv limit data s r : get_string limit data = Ok (s, r) -> data = put_be 2 (len s) ++ s ++ r.
Proof.
  unfold get_string. intros H. ok_inv H. injection H as <- <-. br_inv.
  apply BinaryReader.bytes_inv in E0 as [-> L]. words. by rewrite L by lia.
Qed.

Lemma flag_inv v : (v >? 1) = false -> word 1 v -> v = flag (negb (v =? 0)).
Proof. intros G W. bool_prop. words. destruct (Z.eqb_spec v 0); cbn; lia. Qed.
Lemma flag_nonzero b : negb (flag b =? 0) = b.
Proof. by destruct b. Qed.
Lemma flag_word b : word 1 (flag b).
Proof. by destruct b. Qed.
#[local] Hint Resolve flag_word : core.
Lemma flag_small b : negb (flag b >? 1) = true.
Proof. by destruct b. Qed.

Lemma get_approval_app a b rest : (bool_decide (a ∈ approval_actions) = false -> b = false) -> wf_action a ->
  get_approval a ((if bool_decide (a ∈ approval_actions) then put_be 1 (flag b) else []) ++ rest) = Ok (b, rest).
Proof.
  intros W K. unfold get_approval. rewrite approval_carried by done. destruct (bool_decide _); [|by rewrite W].
  rewrite BinaryReader.get_app by done. by rewrite flag_small, flag_nonzero.
Qed.
Lemma get_approval_inv a data b r : get_approval a data = Ok (b, r) ->
  data = (if action_value a >=? action_value act_password_set then put_be 1 (flag b) else []) ++ r /\
  ((action_value a >=? action_value act_password_set) = false -> b = false).
Proof.
  unfold get_approval. destruct (_ >=? _); intros H; ok_inv H; injection H as <- <-; [|done].
  br_inv. bool_prop. split; [|done]. do 2 f_equal. apply flag_inv; [by rewrite Z.gtb_ltb, Z.ltb_ge|done].
Qed.

Lemma access_request_exact payload x :
  decode_access_request payload = Ok x <-> wf_access_request x /\ encode_access_request x = Ok payload.
Proof.
  split.
  - unfold decode_access_request. intros H. ok_inv H. bool_prop. subst x. br_inv.
    match goal with E : encode_access_request _ = Ok _ |- _ => rewrite E; rename E into En end.
    repeat match goal with E : get_string _ _ = Ok _ |- _ => apply get_string_inv in E as -> end.
    match goal with E : get_approval _ _ = Ok _ |- _ => apply get_approval_inv in E as [-> A] end.
    unfold encode_access_request in En. ok_inv En. cbn [ar_action ar_network_id ar_device_id ar_text ar_secret lifetime_seconds
      max_uses ar_require_approval] in *.
    repeat match goal with E : put_string _ _ = Ok _ |- _ => apply put_string_ok in E as (-> & _ & _) end.
    match goal with E : check_action _ = Ok _ |- _ => apply check_action_cast in E as K end.
    rewrite approval_carried in * by done. rewrite bool_decide_eq_false in A.
    unfold wf_access_request, typed_access_request. cbn [ar_action ar_network_id ar_device_id ar_text ar_secret lifetime_seconds
      max_uses ar_require_approval]. rewrite !action_value_cast in *. subst.
    split; [by split_and!|]. by rewrite <- !app_assoc, app_nil_r.
  - intros [((K & L1 & L2 & W3 & W4) & A) H]. destruct (wf_action_value _ K) as [W1 W2]. unfold encode_access_request in H. ok_inv H. subst payload.
    unfold decode_access_request. rewrite <- ?app_assoc. br_read. cbn [Z.eqb Pos.eqb].
    rewrite (get_string_app _ 128 _ _ eq_refl E0), (get_string_app _ 256 _ _ eq_refl E1). br_read. rewrite W2.
    rewrite approval_carried by done. rewrite <- bool_decide_eq_false in A.
    rewrite <- (app_nil_r (if bool_decide _ then _ else _)), get_approval_app by done. cbn [BinaryReader.finish].
    destruct x. cbn in *. unfold encode_access_request. cbn. by rewrite E, E0, E1.
Qed.

(** The approval flag of a request that has none to send is lost: it is read as its default. *)
Lemma access_request_approval payload x : typed_access_request x -> encode_access_request x = Ok payload ->
  decode_access_request payload = Ok (if bool_decide (ar_action x ∈ approval_actions) then x else without_approval x).
Proof.
  intros T H. apply access_request_exact. destruct (bool_decide_reflect (ar_action x ∈ approval_actions)) as [I|I].
  - split; [split; [done|by intros []]|done].
  - split; [by split|]. rewrite <- H. unfold encode_access_request, without_approval.
    cbn [ar_action ar_network_id ar_device_id ar_text ar_secret lifetime_seconds max_uses ar_require_approval].
    rewrite approval_carried by apply T. by rewrite bool_decide_eq_false_2.
Qed.

Lemma get_device_app d bs rest : length (ld_id d) = 32%nat -> put_device d = Ok bs -> get_device (bs ++ rest) = Ok (d, rest).
Proof.
  intros L H. unfold put_device in H. ok_inv H. subst bs. unfold get_device. rewrite <- !app_assoc. br_read.
  rewrite (get_string_app _ 128 _ _ eq_refl E), BinaryReader.get_app by done. rewrite flag_small, flag_nonzero. by destruct d.
Qed.
Lemma get_device_inv data d r : get_device data = Ok (d, r) ->
  length (ld_id d) = 32%nat /\ forall bs, put_device d = Ok bs -> data = bs ++ r.
Proof.
  unfold get_device. intros H. ok_inv H. injection H as <- <-. br_inv.
  match goal with E : get_string _ _ = Ok _ |- _ => apply get_string_inv in E as -> end. split; [done|].
  intros bs Hp. unfold put_device in Hp. ok_inv Hp. subst bs. cbn [ld_id ld_label ld_revoked] in *.
  match goal with E : put_string _ _ = Ok _ |- _ => apply put_string_ok in E as (-> & _ & _) end. rewrite <- !app_assoc. bool_prop. do 4 f_equal. f_equal.
  apply flag_inv; [by rewrite Z.gtb_ltb, Z.ltb_ge|done].
Qed.

Lemma access_result_exact payload x :
  decode_access_result payload = Ok x <-> wf_access_result x /\ encode_access_result x = Ok payload.
Proof.
  split.
  - unfold decode_access_result. intros H. ok_inv H. bool_prop. subst x. br_inv.
    match goal with E : encode_access_result _ = Ok _ |- _ => rewrite E; rename E into En end.
    repeat match goal with E : get_string _ _ = Ok _ |- _ => apply get_string_inv in E as -> end.
    match goal with E : BinaryReader.read_n _ _ _ = Ok _ |- _ => apply (BinaryReader.read_n_put_inv _ _ _ get_device_inv) in E as (Ln & F & D) end.
    unfold encode_access_result in En. ok_inv En.
    cbn [as_action as_code as_account_id as_network_id as_text as_secret as_devices] in *.
    repeat match goal with E : put_string _ _ = Ok _ |- _ => apply put_string_ok in E as (-> & _ & _) end.
    rewrite (D _ ltac:(eassumption)).
    match goal with E : check_action _ = Ok _ |- _ => apply check_action_cast in E as K end. unfold wf_access_result. cbn [as_action as_code as_account_id as_network_id as_text as_secret as_devices]. rewrite !action_value_cast, !code_value_cast in *.
    subst. split; [by split_and!|]. rewrite <- !app_assoc, app_nil_r. words.
    repeat match goal with |- Ok _ = Ok _ => f_equal | |- _ ++ _ = _ ++ _ => f_equal end. f_equal. unfold len. lia.
  - intros [(K & W3 & W4 & L1 & L2 & F) H]. destruct (wf_action_value _ K) as [W1 W2]. unfold encode_access_result in H. ok_inv H. subst payload. bool_prop.
    pose proof (len_nonneg (as_devices x)). unfold decode_access_result. rewrite <- ?app_assoc. br_read. cbn [Z.eqb Pos.eqb].
    rewrite (get_string_app _ 128 _ _ eq_refl E0), (get_string_app _ 512 _ _ eq_refl E1). br_read. rewrite W2, W4.
    guard_true by (rewrite negb_true_iff, Z.gtb_ltb, Z.ltb_ge; lia). unfold len at 1. rewrite Nat2Z.id.
    rewrite <- (app_nil_r (concat _)), (BinaryReader.read_n_put _ _ _ get_device_app _ _ _ F E2). cbn [BinaryReader.finish].
    destruct x. cbn in *. unfold encode_access_result. cbn.
    guard_true by (rewrite negb_true_iff, orb_false_iff, negb_false_iff, Z.gtb_ltb, Z.ltb_ge; split; [done|lia]).
    by rewrite E, E0, E1, E2.
Qed.
