(* ===== verification/NetworkManagement.v ===== *)
(** * Network administration messages

    protocol/network_management.hpp and .cpp: the requests to inspect a network, replace its
    policy or ask to be a gateway, their results with pending requests and the audit log, and
    both codecs. *)
From S2P Require Import Capabilities PacketMessages Candidates.
From S2P Require Import Prelude Wire NetworkPolicy NetworkMessages AuditEvent UserAccess.

(** [unassigned_management] is an enumeration value without a named constant. *)
Inductive ManagementAction := inspect | replace_policy | request_gateway | unassigned_management (raw : Z).

#[global] Instance ManagementAction_eq_dec : EqDecision ManagementAction.
Proof. solve_decision. Defined.

Definition management_value (a : ManagementAction) : Z :=
  match a with inspect => 1 | replace_policy => 2 | request_gateway => 3 | unassigned_management raw => raw end.
Definition management_cast (raw : Z) : ManagementAction :=
  match raw with 1 => inspect | 2 => replace_policy | 3 => request_gateway | _ => unassigned_management raw end.

Record ManagementRequest := mk_management_request {
  mq_action : ManagementAction; mq_network_id : bytes; mq_policy : NetworkPolicy }.

Record ManagementResult := mk_management_result {
  ms_action : ManagementAction; ms_network_id : bytes; ms_code : NetworkResultCode; ms_pending : list bytes;
  ms_audit : list AuditEvent; ms_failures : Z; ms_policy : NetworkPolicy }.

Definition validate_management (a : ManagementAction) (id : bytes) : result unit :=
  check! negb ((management_value a <? 1) || (management_value a >? 3) || is_zero id) else invalid_argument in Ok tt.

Definition put_policy (p : NetworkPolicy) : result bytes :=
  let* bs := encode_network_policy p in Ok (put_be 4 (len bs) ++ bs).
Definition get_policy (r : BinaryReader.t) : result (NetworkPolicy * BinaryReader.t) :=
  let* (size, r) := BinaryReader.get 4 r in
  let* (bs, r) := BinaryReader.bytes_ size r in
  let* p := decode_network_policy bs in Ok (p, r).

Definition encode_management_request (q : ManagementRequest) : result bytes :=
  let* _ := validate_management (mq_action q) (mq_network_id q) in
  let* p := put_policy (mq_policy q) in
  Ok (put_be 1 1 ++ put_be 1 (management_value (mq_action q)) ++ mq_network_id q ++ p).

Definition decode_management_request (b : bytes) : result ManagementRequest :=
  let* (version, r) := BinaryReader.get 1 b in
  check! version =? 1 else invalid_argument in
  let* (action, r) := BinaryReader.get 1 r in
  let* (network, r) := BinaryReader.array 16 r in
  let* (p, r) := get_policy r in
  let* _ := BinaryReader.finish r in
  let q := mk_management_request (management_cast action) network p in
  let* _ := encode_management_request q in
  Ok q.

Definition encode_management_result (q : ManagementResult) : result bytes :=
  let* _ := validate_management (ms_action q) (ms_network_id q) in
  check! is_known_network_result_code (ms_code q) else invalid_argument in
  let* p := put_policy (ms_policy q) in
  check! negb (len (ms_pending q) >? max_network_peer_entries) else invalid_argument in
  check! negb (len (ms_audit q) >? 64) else invalid_argument in
  let* events := map_result encode_audit_event (ms_audit q) in
  Ok (put_be 1 1 ++ put_be 1 (management_value (ms_action q)) ++ ms_network_id q ++ put_be 2 (code_value (ms_code q)) ++ p ++
      put_be 2 (len (ms_pending q)) ++ concat (ms_pending q) ++ put_be 1 (len (ms_audit q)) ++ concat events ++
      put_be 8 (ms_failures q)).

Definition get_audit_event (r : BinaryReader.t) : result (AuditEvent * BinaryReader.t) :=
  let* (bs, r) := BinaryReader.bytes_ 107 r in
  let* e := decode_audit_event bs in Ok (e, r).

Definition decode_management_result (b : bytes) : result ManagementResult :=
  let* (version, r) := BinaryReader.get 1 b in
  check! version =? 1 else invalid_argument in
  let* (action, r) := BinaryReader.get 1 r in
  let* (network, r) := BinaryReader.array 16 r in
  let* (code, r) := BinaryReader.get 2 r in
  let* (p, r) := get_policy r in
  let* (count, r) := BinaryReader.get 2 r in
  check! negb (count >? max_network_peer_entries) else invalid_argument in
  let* (pending, r) := BinaryReader.read_n (Z.to_nat count) (BinaryReader.array 32) r in
  let* (events, r) := BinaryReader.get 1 r in
  check! negb (events >? 64) else invalid_argument in
  let* (audit, r) := BinaryReader.read_n (Z.to_nat events) get_audit_event r in
  let* (failures, r) := BinaryReader.get 8 r in
  let* _ := BinaryReader.finish r in
  let q := mk_management_result (management_cast action) network (code_cast code) pending audit failures p in
  let* _ := encode_management_result q in
  Ok q.

(** ** Field types *)

Definition wf_management_action (a : ManagementAction) : Prop := word 1 (management_value a) /\ management_cast (management_value a) = a.
Definition wf_management_request (q : ManagementRequest) : Prop :=
  wf_management_action (mq_action q) /\ length (mq_network_id q) = 16%nat /\ wf_policy (mq_policy q).
Definition wf_management_result (q : ManagementResult) : Prop :=
  wf_management_action (ms_action q) /\ length (ms_network_id q) = 16%nat /\ wf_policy (ms_policy q) /\
  word 2 (code_value (ms_code q)) /\ code_cast (code_value (ms_code q)) = ms_code q /\
  Forall (fun d => length d = 32%nat) (ms_pending q) /\ Forall wf_audit_event (ms_audit q) /\ word 8 (ms_failures q).

Lemma management_value_cast raw : management_value (management_cast raw) = raw.
Proof. unfold management_cast. repeat case_match; subst; reflexivity. Qed.

Lemma get_policy_app p bs rest : wf_policy p -> put_policy p = Ok bs -> get_policy (bs ++ rest) = Ok (p, rest).
Proof.
  intros W H. unfold put_policy in H. ok_inv H. subst bs. unfold get_policy. rewrite <- app_assoc.
  pose proof (encode_policy_bound _ _ W E). pose proof (len_nonneg a).
  rewrite BinaryReader.get_app by (words; lia). rewrite BinaryReader.bytes_app by done.
  assert (D : decode_network_policy a = Ok p) by (by apply network_policy_codec). by rewrite D.
Qed.
Lemma get_policy_inv data p r : get_policy data = Ok (p, r) -> wf_policy p /\ exists bs, put_policy p = Ok bs /\ data = bs ++ r.
Proof.
  unfold get_policy. intros H. ok_inv H. injection H as <- <-. br_inv.
  match goal with E : BinaryReader.bytes_ _ _ = Ok _ |- _ => apply BinaryReader.bytes_inv in E as [-> L] end.
  match goal with E : decode_network_policy _ = Ok _ |- _ => apply network_policy_codec in E as [W Ee] end.
  split; [done|]. unfold put_policy. rewrite Ee. eexists. split; [done|]. rewrite <- app_assoc. words. by rewrite L by lia.
Qed.

Lemma management_request_exact b q :
  decode_management_request b = Ok q <-> wf_management_request q /\ encode_management_request q = Ok b.
Proof.
  split.
  - unfold decode_management_request. intros H. ok_inv H. bool_prop. subst q. br_inv.
    match goal with E : get_policy _ = Ok _ |- _ => apply get_policy_inv in E as (W & p & Ep & ->) end.
    match goal with E : encode_management_request _ = Ok _ |- _ => rewrite E; rename E into En end.
    unfold encode_management_request in En. cbn [mq_policy] in En. rewrite Ep in En. ok_inv En. subst.
    unfold wf_management_request, wf_management_action. cbn. rewrite !management_value_cast, app_nil_r. done.
  - intros [([W1 W2] & L & W3) H]. unfold encode_management_request in H. ok_inv H. subst b.
    unfold decode_management_request. br_read. cbn [Z.eqb Pos.eqb]. rewrite W2.
    match goal with E : put_policy _ = Ok ?p |- _ => rewrite <- (app_nil_r p), (get_policy_app _ _ _ W3 E); rename E into Ep end.
    cbn [BinaryReader.finish]. destruct q. cbn in *. unfold encode_management_request. cbn. by rewrite E, Ep.
Qed.

Lemma get_audit_event_app e bs rest : wf_audit_event e -> encode_audit_event e = Ok bs -> get_audit_event (bs ++ rest) = Ok (e, rest).
Proof.
  intros W H. unfold get_audit_event. rewrite BinaryReader.bytes_app by (symmetry; by eapply encode_audit_length).
  assert (D : decode_audit_event bs = Ok e) by (by apply audit_event_exact). by rewrite D.
Qed.
Lemma get_audit_event_inv data e r : get_audit_event data = Ok (e, r) ->
  wf_audit_event e /\ forall bs, encode_audit_event e = Ok bs -> data = bs ++ r.
Proof.
  unfold get_audit_event. intros H. ok_inv H. injection H as <- <-.
  match goal with E : BinaryReader.bytes_ _ _ = Ok _ |- _ => apply BinaryReader.bytes_inv in E as [-> _] end.
  match goal with E : decode_audit_event _ = Ok _ |- _ => apply audit_event_exact in E as [W Ee] end.
  split; [done|]. intros bs' E'. congruence.
Qed.

Lemma management_result_exact b q :
  decode_management_result b = Ok q <-> wf_management_result q /\ encode_management_result q = Ok b.
Proof.
  split.
  - unfold decode_management_result. intros H. ok_inv H. bool_prop. subst q. br_inv.
    match goal with E : get_policy _ = Ok _ |- _ => apply get_policy_inv in E as (W & p & Ep & ->) end.
    match goal with E : BinaryReader.read_n _ (BinaryReader.array 32) _ = Ok _ |- _ =>
      apply (BinaryReader.read_n_inv _ id (fun d => length d = 32%nat) (BinaryReader.array_inv 32)) in E as (-> & Ld & Fd) end.
    match goal with E : BinaryReader.read_n _ get_audit_event _ = Ok _ |- _ => apply (BinaryReader.read_n_put_inv _ _ _ get_audit_event_inv) in E as (Le & Fe & De) end.
    match goal with E : encode_management_result _ = Ok _ |- _ => rewrite E; rename E into En end.
    unfold encode_management_result in En. cbn [ms_policy ms_audit] in En. rewrite Ep in En. ok_inv En. rewrite (De _ ltac:(eassumption)). subst.
    unfold wf_management_result, wf_management_action. cbn in *. rewrite !management_value_cast, !code_value_cast, ?app_nil_r in *.
    split; [by split_and!|]. rewrite map_id. words. unfold len.
    rewrite Ld, Le, !Z2Nat.id by lia. done.
  - intros [([W1 W2] & L & W3 & W4 & W5 & Fd & Fe & Wf) H]. unfold encode_management_result in H. ok_inv H. subst b. bool_prop.
    pose proof (len_nonneg (ms_pending q)). pose proof (len_nonneg (ms_audit q)). unfold max_network_peer_entries in *.
    unfold decode_management_result. br_read. cbn [Z.eqb Pos.eqb]. rewrite W2, W5.
    match goal with E : put_policy _ = Ok ?p |- _ => rewrite (get_policy_app _ _ _ W3 E); rename E into Ep end.
    match goal with E : map_result encode_audit_event _ = Ok _ |- _ => rename E into Ea end.
    br_read. guard_true by (unfold max_network_peer_entries; rewrite negb_true_iff, Z.gtb_ltb, Z.ltb_ge; lia).
    replace (Z.to_nat (len (ms_pending q))) with (length (ms_pending q)) by (unfold len; lia).
    replace (concat (ms_pending q)) with (concat (map id (ms_pending q))) by (by rewrite map_id).
    rewrite (BinaryReader.read_n_app _ id) by (intros d r Hd; rewrite Forall_forall in Fd; apply BinaryReader.array_app; auto).
    br_read. guard_true by (rewrite negb_true_iff, Z.gtb_ltb, Z.ltb_ge; lia).
    replace (Z.to_nat (len (ms_audit q))) with (length (ms_audit q)) by (unfold len; lia).
    rewrite (BinaryReader.read_n_put _ _ _ get_audit_event_app _ _ _ Fe Ea). rewrite <- (app_nil_r (put_be 8 _)). br_read.
    cbn [BinaryReader.finish]. destruct q. cbn in *. unfold encode_management_result. cbn. rewrite E, G, Ep.
    guard_true by (unfold max_network_peer_entries; rewrite negb_true_iff, Z.gtb_ltb, Z.ltb_ge; lia).
    guard_true by (rewrite negb_true_iff, Z.gtb_ltb, Z.ltb_ge; lia). by rewrite Ea.
Qed.

(** The control codecs are exact.  Access requests and results, management requests and results
    (with the embedded policy, the pending devices and the audit log) and candidate exchanges decode
    from a payload if and only if the payload is the encoding of that well-typed message; the texts
    they carry never contain a NUL or a line break, and every candidate exchange is between two
    distinct devices, lives between one and thirty seconds and names one to eight usable, pairwise
    distinct endpoints of known kinds. *)
Lemma administration_messages_exact (payload : bytes) :
  (forall x, decode_access_request payload = Ok x <-> wf_access_request x /\ encode_access_request x = Ok payload) /\
  (forall x, decode_access_result payload = Ok x <-> wf_access_result x /\ encode_access_result x = Ok payload) /\
  (forall q, decode_management_request payload = Ok q <-> wf_management_request q /\ encode_management_request q = Ok payload) /\
  (forall q, decode_management_result payload = Ok q <-> wf_management_result q /\ encode_management_result q = Ok payload) /\
  (forall x, decode_access_request payload = Ok x ->
     forallb plain_char (ar_text x) = true /\ forallb plain_char (ar_secret x) = true) /\
  (forall x, decode_candidates payload = Ok x <-> wf_exchange x /\ encode_candidates x = Ok payload) /\
  (forall x, is_ok (encode_candidates x) = true <-> exchange_ok x).
Proof.
  split; [intros; apply access_request_exact|]. split; [intros; apply access_result_exact|].
  split; [intros; apply management_request_exact|]. split; [intros; apply management_result_exact|].
  split; [|split; intros x; apply (candidates_exact payload x)].
  intros x H. apply access_request_exact in H as [_ H]. unfold encode_access_request in H. ok_inv H.
  apply put_string_ok in E0 as (_ & _ & P1), E1 as (_ & _ & P2). done.
Qed.

(** The codecs between a device and the relay and the negotiation of capabilities. *)
Lemma control_messages_exact (payload : bytes) :
  (forall r, decode_network_create_request payload = Ok r <-> encode_network_create_request r = Ok payload) /\
  (decode_network_list_request payload = Ok tt <-> encode_network_list_request = Ok payload) /\
  (forall r, decode_network_selection_request payload = Ok r <-> wf_network_selection r /\ encode_network_selection_request r = Ok payload) /\
  (forall r, decode_network_member_request payload = Ok r <-> wf_member_request r /\ encode_network_member_request r = Ok payload) /\
  (forall r, decode_network_operation_result payload = Ok r <-> wf_operation_result r /\ encode_network_operation_result r = Ok payload) /\
  (forall r, decode_network_list_result payload = Ok r <-> Forall wf_summary (networks r) /\ encode_network_list_result r = Ok payload) /\
  (forall e, decode_network_event payload = Ok e <-> wf_event e /\ encode_network_event e = Ok payload) /\
  (forall s, decode_network_peer_state payload = Ok s <-> wf_peer_state s /\ encode_network_peer_state s = Ok payload) /\
  (forall r, decode_network_peer_revocation payload = Ok r <-> wf_revocation r /\ encode_network_peer_revocation r = Ok payload) /\
  (forall e, decode_network_key_envelope payload = Ok e <-> wf_envelope e /\ encode_network_key_envelope e = Ok payload) /\
  (forall r, decode_network_key_publish_request payload = Ok r <-> Forall wf_envelope (envelopes r) /\ encode_network_key_publish_request r = Ok payload) /\
  (forall p, decode_encrypted_network_packet payload = Ok p <-> wf_packet p /\ encode_encrypted_network_packet p = Ok payload) /\
  (forall p, decode_forwarded_network_packet payload = Ok p <-> wf_forwarded p /\ encode_forwarded_network_packet p = Ok payload) /\
  (forall p, decode_encrypted_network_packet payload = Ok p -> valid_packet p = true) /\
  (forall x, decode_access_request payload = Ok x <-> wf_access_request x /\ encode_access_request x = Ok payload) /\
  (forall x, decode_access_result payload = Ok x <-> wf_access_result x /\ encode_access_result x = Ok payload) /\
  (forall q, decode_management_request payload = Ok q <-> wf_management_request q /\ encode_management_request q = Ok payload) /\
  (forall q, decode_management_result payload = Ok q <-> wf_management_result q /\ encode_management_result q = Ok payload) /\
  (forall x, decode_access_request payload = Ok x ->
     forallb plain_char (ar_text x) = true /\ forallb plain_char (ar_secret x) = true) /\
  (forall x, decode_candidates payload = Ok x <-> wf_exchange x /\ encode_candidates x = Ok payload) /\
  (forall x, is_ok (encode_candidates x) = true <-> exchange_ok x) /\
  (forall o, decode_capability_offer payload = Ok o <-> wf_offer o /\ encode_capability_offer o = Ok payload) /\
  (forall s, decode_capability_selection payload = Ok s <-> wf_selection s /\ encode_capability_selection s = Ok payload) /\
  (forall o s, ~ (decode_capability_offer payload = Ok o /\ decode_capability_selection payload = Ok s)) /\
  forall a b s, wf_offer a -> wf_offer b -> negotiate_capabilities a b = Ok s ->
    negotiate_capabilities b a = Ok s /\ is_ok (encode_capability_selection s) = true /\ wf_selection s /\
    if legacy s
    then s = default_selection /\
         (forall v, ~ (minimum_version a <= v <= maximum_version a /\ minimum_version b <= v <= maximum_version b))
    else (minimum_version a <= wire_version s <= maximum_version a /\
          minimum_version b <= wire_version s <= maximum_version b /\
          forall v, minimum_version a <= v <= maximum_version a ->
                    minimum_version b <= v <= maximum_version b -> v <= wire_version s) /\
         (forall c, supports s c = true <->
            Z.land (offered a) (capability_bit c) <> 0 /\ Z.land (offered b) (capability_bit c) <> 0).
Proof.
  pose proof (network_messages_exact payload) as N. pose proof (administration_messages_exact payload) as A.
  destruct (capability_payloads_exact payload) as (O & S & D).
  decompose [and] N. decompose [and] A. split_and!; try done; [intros o s [Ho Hs]; by apply (D o s)|].
  intros a b s. apply negotiation_agreed.
Qed.
