(* ===== verification/JoinTarget.v ===== *)
(** * Invitations and secrets as text

    protocol/join_target.hpp and .cpp: the three spellings of a place to join (a network id, an
    invitation link, an invitation code), and auth/access_secret.hpp and .cpp: passwords and
    access codes.  Text is the list of its bytes.  scrypt (OpenSSL) is the class
    [PasswordHash]; random bytes are an argument. *)
From S2P Require Import NetworkName Prelude RelayStore Crypto.

(** ** Hexadecimal *)

Definition digits : bytes := str "0123456789abcdef".
Definition hex_digit (v : Z) : byte := at_ digits (Z.to_nat v).

Definition digit (c : byte) : result Z :=
  let v := b2z c in
  if (48 <=? v) && (v <=? 57) then Ok (v - 48)
  else if (97 <=? v) && (v <=? 102) then Ok (v - 97 + 10)
  else if (65 <=? v) && (v <=? 70) then Ok (v - 65 + 10)
  else Throw invalid_argument.

Definition hex (bs : bytes) : bytes :=
  concat (map (fun b => [hex_digit (Z.shiftr (b2z b) 4); hex_digit (Z.land (b2z b) 15)]) bs).

(** identity.cpp has the same function under its own name. *)
Definition hex_encode (bs : bytes) : bytes :=
  concat (map (fun b => [hex_digit (Z.shiftr (b2z b) 4); hex_digit (Z.land (b2z b) 15)]) bs).

(** ** Join targets *)

Record JoinTarget := mk_target { target_network : bytes; invitation : bytes }.

Definition blank (c : byte) : bool :=
  bool_decide (c = x20) || bool_decide (c = x0d) || bool_decide (c = x0a) || bool_decide (c = x09).

Fixpoint trim_front (text : bytes) : bytes :=
  match text with c :: rest => if blank c then trim_front rest else text | [] => [] end.
Definition trim_back (text : bytes) : bytes := reverse (trim_front (reverse text)).

Definition starts_with (prefix text : bytes) : bool := bool_decide (take (length prefix) text = prefix).

Definition link_prefix : bytes := str "lanlink://join/".
Definition code_prefix : bytes := str "LL1.".

(** The text after a known prefix, with the separator it announces. *)
Definition split_prefix (text : bytes) : option byte * bytes :=
  if starts_with link_prefix text then (Some x2f, drop 15 text)
  else if starts_with code_prefix text then (Some x2e, drop 4 text)
  else (None, text).

(** [for (i < 16) id[i] = digit(text[2i]) << 4 | digit(text[2i+1])]. *)
Fixpoint read_id (n : nat) (text : bytes) : result bytes :=
  match n with
  | O => Ok []
  | S n =>
      let* a := digit (at_ text 0) in
      let* b := digit (at_ text 1) in
      let* rest := read_id n (drop 2 text) in
      Ok (z2b (Z.lor (Z.shiftl a 4) b) :: rest)
  end.

Definition lower (c : byte) : result byte := let* v := digit c in Ok (hex_digit v).

Definition parse_join_target (text : bytes) : result JoinTarget :=
  let text := trim_back (trim_front text) in
  let (separator, text) := split_prefix text in
  check! match separator with
         | None => len text =? 32
         | Some c => (len text =? 73) && bool_decide (at_ text 32 = c)
         end else invalid_argument in
  let* id := read_id 16 text in
  check! negb (is_zero id) else invalid_argument in
  let* secret := match separator with None => Ok [] | Some _ => map_result lower (drop 33 text) end in
  Ok (mk_target id secret).

Definition make_invite_link (network secret : bytes) : result bytes :=
  let text := link_prefix ++ hex network ++ [x2f] ++ secret in
  let* _ := parse_join_target text in Ok text.
Definition make_invite_code (network secret : bytes) : result bytes :=
  let text := code_prefix ++ hex network ++ [x2e] ++ secret in
  let* _ := parse_join_target text in Ok text.

(** ** Passwords and access codes *)

Class PasswordHash := { scrypt : bytes -> bytes -> option bytes }. (* password, salt *)

Section Secrets.
Context {P : PasswordHash} {C : Crypto}.

Definition derive (password salt : bytes) : result bytes :=
  check! negb ((len password <? 8) || (len password >? 128)) else invalid_argument in
  match scrypt password salt with Some key => Ok key | None => Throw runtime_error end.

(** [salt] is the outcome of [random_nonce()]. *)
Definition protect_password (salt : result bytes) (password : bytes) (approval : bool) : result PasswordVerifier :=
  let* salt := salt in
  let* digest := derive password salt in
  Ok (mk_verifier salt digest approval).

Definition password_matches (password : bytes) (v : PasswordVerifier) : result bool :=
  let* derived := derive password (pv_salt v) in
  Ok (bool_decide (derived = pv_digest v)).

Definition access_digest (secret : bytes) : result bytes :=
  match sha256 secret with
  | Some d => if len d =? 32 then Ok d else Throw runtime_error
  | None => Throw runtime_error
  end.

Definition random_access_code (nonce : result bytes) : result bytes :=
  let* nonce := nonce in Ok (hex_encode (take 20 nonce)).
End Secrets.

(** ** Reading back what was written *)

Lemma nibble_cases (P : Z -> Prop) :
  P 0 -> P 1 -> P 2 -> P 3 -> P 4 -> P 5 -> P 6 -> P 7 -> P 8 -> P 9 -> P 10 -> P 11 -> P 12 -> P 13 -> P 14 -> P 15 ->
  forall v, 0 <= v < 16 -> P v.
Proof.
  intros. assert (v = 0 \/ v = 1 \/ v = 2 \/ v = 3 \/ v = 4 \/ v = 5 \/ v = 6 \/ v = 7 \/ v = 8 \/ v = 9 \/ v = 10 \/ v = 11 \/
    v = 12 \/ v = 13 \/ v = 14 \/ v = 15) as G by lia. by repeat destruct G as [->|G]; [..|subst].
Qed.

Lemma digit_hex v : 0 <= v < 16 -> digit (hex_digit v) = Ok v.
Proof. revert v. by apply nibble_cases. Qed.
Lemma hex_digit_plain v : 0 <= v < 16 -> blank (hex_digit v) = false.
Proof. revert v. by apply nibble_cases. Qed.
Lemma digit_range c v : digit c = Ok v -> 0 <= v < 16.
Proof.
  unfold digit. cbv zeta. intros H.
  destruct ((48 <=? b2z c) && _) eqn:G1; [bool_prop; apply Ok_inj in H; lia|].
  destruct ((97 <=? b2z c) && _) eqn:G2; [bool_prop; apply Ok_inj in H; lia|].
  destruct ((65 <=? b2z c) && _) eqn:G3; [bool_prop; apply Ok_inj in H; lia|done].
Qed.

(** The two halves of a byte. *)
Lemma high_nibble b : 0 <= Z.shiftr (b2z b) 4 < 16.
Proof. pose proof (b2z_range b). rewrite Z.shiftr_div_pow2 by lia. change (2 ^ 4) with 16.
  split; [apply Z.div_pos; lia|apply Z.div_lt_upper_bound; lia].
Qed.
Lemma low_nibble b : 0 <= Z.land (b2z b) 15 < 16.
Proof. change 15 with (Z.ones 4). rewrite Z.land_ones by lia. apply Z.mod_pos_bound. lia. Qed.
Lemma join_nibbles b : z2b (Z.lor (Z.shiftl (Z.shiftr (b2z b) 4) 4) (Z.land (b2z b) 15)) = b.
Proof.
  rewrite <- (z2b_b2z b) at 3. f_equal. change 15 with (Z.ones 4). apply Z.bits_inj'. intros i Hi.
  rewrite Z.lor_spec, Z.land_spec. destruct (Z.ltb_spec i 4).
  - rewrite Z.shiftl_spec_low by lia. rewrite Z.ones_spec_low by lia. by rewrite andb_true_r.
  - rewrite Z.shiftl_spec, Z.shiftr_spec by lia. rewrite Z.ones_spec_high by lia. rewrite andb_false_r, orb_false_r. f_equal. lia.
Qed.

Lemma length_hex bs : length (hex bs) = (2 * length bs)%nat.
Proof. unfold hex. induction bs as [|b bs IH]; [done|]. cbn [map concat length app]. rewrite IH. lia. Qed.

Lemma read_id_hex bs rest : read_id (length bs) (hex bs ++ rest) = Ok bs.
Proof.
  unfold hex. induction bs as [|b bs IH]; [done|]. cbn [length read_id map concat].
  change (at_ _ 0) with (hex_digit (Z.shiftr (b2z b) 4)). change (at_ _ 1) with (hex_digit (Z.land (b2z b) 15)).
  rewrite !digit_hex by (apply high_nibble || apply low_nibble). rewrite <- app_assoc. cbn [app]. match goal with |- context [read_id _ (drop 2 (?a :: ?b :: ?l))] => change (drop 2 (a :: b :: l)) with l end. rewrite IH. by rewrite join_nibbles.
Qed.

Lemma read_id_length n text id : read_id n text = Ok id -> length id = n.
Proof.
  revert text id. induction n as [|n IH]; intros text id H; cbn [read_id] in H; ok_inv H; subst id; [done|].
  cbn [length]. f_equal. eauto.
Qed.

(** Access codes are already in the canonical spelling. *)
Definition canonical (c : byte) : Prop := exists v, 0 <= v < 16 /\ c = hex_digit v.

Lemma lower_canonical c : canonical c -> lower c = Ok c.
Proof. intros (v & Hv & ->). unfold lower. by rewrite digit_hex. Qed.
Lemma lower_range c c' : lower c = Ok c' -> canonical c'.
Proof. unfold lower. intros H. ok_inv H. subst. exists a. split; [by eapply digit_range|done]. Qed.
Lemma hex_canonical bs : Forall canonical (hex bs).
Proof.
  unfold hex. induction bs as [|b bs IH]; cbn [map concat app]; [constructor|].
  constructor; [exists (Z.shiftr (b2z b) 4); split; [apply high_nibble|done]|].
  constructor; [exists (Z.land (b2z b) 15); split; [apply low_nibble|done]|done].
Qed.
Lemma map_lower l : Forall canonical l -> map_result lower l = Ok l.
Proof. induction 1 as [|c l H _ IH]; [done|]. cbn [map_result]. by rewrite (lower_canonical c H), IH. Qed.
Lemma map_lower_range l k : map_result lower l = Ok k -> Forall canonical k /\ length k = length l.
Proof.
  revert k. induction l as [|c l IH]; intros k H; cbn [map_result] in H; ok_inv H; subst k; [done|].
  apply lower_range in E. apply IH in E0 as [F L]. split; [by constructor|]. cbn. by rewrite L.
Qed.

(** ** Blanks around the text *)

Lemma trim_front_blank ws t : forallb blank ws = true -> trim_front (ws ++ t) = trim_front t.
Proof. induction ws as [|c ws IH]; [done|]. cbn. intros H. bool_prop. rewrite H. auto. Qed.

Lemma forallb_reverse {A} (f : A -> bool) l : forallb f (reverse l) = forallb f l.
Proof.
  induction l as [|x l IH]; [done|]. rewrite reverse_cons, forallb_app, IH. cbn. rewrite andb_true_r. apply andb_comm.
Qed.

Lemma trim_front_stop t : forallb (fun c => negb (blank c)) t = true -> trim_front t = t.
Proof. destruct t as [|c t]; [done|]. cbn. intros H. bool_prop. by destruct (blank c). Qed.

Lemma trim_text before body after :
  forallb blank before = true -> forallb blank after = true -> forallb (fun c => negb (blank c)) body = true ->
  body <> [] -> trim_back (trim_front (before ++ body ++ after)) = body.
Proof.
  intros B A T N. rewrite trim_front_blank by done.
  assert (E : trim_front (body ++ after) = body ++ after).
  { destruct body as [|c body]; [done|]. cbn in *. bool_prop. by destruct (blank c). }
  rewrite E. unfold trim_back. rewrite reverse_app, trim_front_blank by (by rewrite forallb_reverse).
  rewrite trim_front_stop by (by rewrite forallb_reverse). apply reverse_involutive.
Qed.

Lemma canonical_plain l : Forall canonical l -> forallb (fun c => negb (blank c)) l = true.
Proof. induction 1 as [|c l (v & Hv & ->) _ IH]; [done|]. cbn [forallb]. by rewrite hex_digit_plain, IH. Qed.

Lemma trim_plain body : forallb (fun c => negb (blank c)) body = true -> body <> [] -> trim_back (trim_front body) = body.
Proof. intros T N. pose proof (trim_text [] body [] eq_refl eq_refl T N) as H. by rewrite app_nil_r in H. Qed.

(** A body without blanks is read the same however it is surrounded. *)
Lemma parse_surrounded before body after :
  forallb blank before = true -> forallb blank after = true -> forallb (fun c => negb (blank c)) body = true -> body <> [] ->
  parse_join_target (before ++ body ++ after) = parse_join_target body.
Proof.
  intros B A T N. unfold parse_join_target. by rewrite (trim_text before body after), (trim_plain body).
Qed.

Lemma prefix_disjoint n rest : Forall canonical n -> n <> [] -> starts_with link_prefix (n ++ rest) = false /\
  starts_with code_prefix (n ++ rest) = false.
Proof.
  destruct n as [|c n]; [done|]. intros [(v & Hv & ->) _]%Forall_cons _. revert v Hv.
  apply nibble_cases; (split; apply bool_decide_eq_false; cbn; intros [=]).
Qed.

Definition spelling (separator : option (bytes * byte)) (n secret : bytes) : bytes :=
  match separator with None => hex n | Some (prefix, c) => prefix ++ hex n ++ [c] ++ secret end.

Lemma parse_spelling sep n secret : sep = None /\ secret = [] \/ (sep = Some (link_prefix, x2f) \/ sep = Some (code_prefix, x2e)) /\ length secret = 40%nat ->
  length n = 16%nat -> is_zero n = false -> Forall canonical secret ->
  parse_join_target (spelling sep n secret) = Ok (mk_target n secret) /\
  forallb (fun c => negb (blank c)) (spelling sep n secret) = true /\ spelling sep n secret <> [].
Proof.
  intros S L Z F. pose proof (length_hex n) as Lh. rewrite L in Lh.
  assert (P : forallb (fun c => negb (blank c)) (spelling sep n secret) = true).
  { pose proof (canonical_plain _ (hex_canonical n)) as H1. pose proof (canonical_plain _ F) as H2.
    destruct S as [[-> ->]|[[->| ->] _]]; cbn [spelling]; rewrite ?forallb_app, ?H1, ?H2; done. }
  assert (N : spelling sep n secret <> []).
  { intros E. apply (f_equal length) in E. revert E.
    destruct S as [[-> ->]|[[->| ->] _]]; cbn [spelling]; rewrite ?length_app, Lh; cbn; lia. }
  split; [|done]. unfold parse_join_target. rewrite (trim_plain _ P N).
  destruct S as [[-> ->]|[S Ls]].
  - cbn [spelling]. unfold split_prefix. destruct (prefix_disjoint (hex n) []) as [D1 D2]; [apply hex_canonical|by intros E; rewrite E in Lh|].
    rewrite app_nil_r in D1, D2. rewrite D1, D2. guard_true by (unfold len; by rewrite Lh).
    rewrite <- (app_nil_r (hex n)), <- L, read_id_hex. by rewrite Z.
  - assert (Body : forall c, at_ (hex n ++ [c] ++ secret) 32 = c /\ drop 33 (hex n ++ [c] ++ secret) = secret /\
      len (hex n ++ [c] ++ secret) = 73).
    { intros c. split; [|split].
      - unfold at_. rewrite app_nth2 by lia. by rewrite Lh.
      - rewrite drop_app, Lh. by rewrite (drop_ge (hex n)) by lia.
      - unfold len. rewrite !length_app, Lh, Ls. done. }
    assert (E : split_prefix (spelling sep n secret) = match sep with
      | Some (_, c) => (Some c, hex n ++ [c] ++ secret) | None => (None, hex n) end) by (by destruct S as [-> | ->]).
    rewrite E. destruct S as [-> | ->]; destruct (Body x2f) as (A1 & A2 & A3); destruct (Body x2e) as (B1 & B2 & B3);
      rewrite ?A1, ?A2, ?A3, ?B1, ?B2, ?B3, bool_decide_eq_true_2 by done; cbn [Z.eqb Pos.eqb andb];
      rewrite <- L, read_id_hex, Z; cbn [negb]; by rewrite (map_lower secret F).
Qed.

(** Invitations survive being copied around.  For any network and any access code the
    relay draws, the link, the code and the bare network id are made, and reading one back,
    with any blanks around it, gives that network and that secret; and whatever text is
    accepted, the result names a non-zero 16-byte network and carries either no secret or
    forty lowercase hexadecimal digits. *)
Lemma invitation_texts (n raw before after : bytes) :
  length n = 16%nat -> is_zero n = false -> (20 <= length raw)%nat ->
  forallb blank before = true -> forallb blank after = true ->
  (exists secret link code,
     random_access_code (Ok raw) = Ok secret /\ make_invite_link n secret = Ok link /\ make_invite_code n secret = Ok code /\
     parse_join_target (before ++ link ++ after) = Ok (mk_target n secret) /\
     parse_join_target (before ++ code ++ after) = Ok (mk_target n secret) /\
     parse_join_target (before ++ hex n ++ after) = Ok (mk_target n [])) /\
  (forall text t, parse_join_target text = Ok t ->
     length (target_network t) = 16%nat /\ is_zero (target_network t) = false /\
     (invitation t = [] \/ length (invitation t) = 40%nat /\ Forall canonical (invitation t))).
Proof.
  intros L Z Lr B A. split.
  - set (secret := hex (take 20 raw)).
    assert (Ls : length secret = 40%nat) by (unfold secret; rewrite length_hex, length_take; lia).
    assert (F : Forall canonical secret) by apply hex_canonical.
    destruct (parse_spelling (Some (link_prefix, x2f)) n secret) as (P1 & T1 & N1); [auto..|].
    destruct (parse_spelling (Some (code_prefix, x2e)) n secret) as (P2 & T2 & N2); [auto..|].
    destruct (parse_spelling None n []) as (P3 & T3 & N3); [auto..|].
    exists secret, (spelling (Some (link_prefix, x2f)) n secret), (spelling (Some (code_prefix, x2e)) n secret).
    split; [done|]. unfold make_invite_link, make_invite_code. cbn [spelling] in *. rewrite P1, P2.
    split; [done|]. split; [done|]. split_and!; by rewrite parse_surrounded.
  - intros text t H. unfold parse_join_target in H. destruct (split_prefix _) as [sep body]. ok_inv H. subst t.
    apply read_id_length in E. bool_prop. split; [done|]. split; [done|]. cbn [invitation].
    destruct sep as [c|]; [right|left; by apply Ok_inj in E0 as <-]. bool_prop.
    apply map_lower_range in E0 as [F Lk]. split; [|done]. rewrite Lk, length_drop. unfold len in *. lia.
Qed.

(** C31: The texts people exchange are read exactly.  A network name is accepted exactly when it has 1 to 128 bytes
    and is the UTF-8 encoding of a sequence of Unicode scalar values without control characters: overlong
    forms, surrogates, truncated sequences and stray continuation bytes are refused, and the loop always
    terminates.  For any network and any access code the relay draws, the link, the code and the bare network id
    are made, and reading one back, with any blanks around it, gives that network and that secret; and whatever
    text is accepted, the result names a non-zero 16-byte network and carries either no secret or forty lowercase
    hexadecimal digits. *)
Theorem join_texts_exact (name n raw before after : bytes) :
  (valid_network_name name = true <->
   1 <= len name <= 128 /\ exists cs, Forall printable cs /\ name = concat (map utf8_encode cs)) /\
  (length n = 16%nat -> is_zero n = false -> (20 <= length raw)%nat ->
  forallb blank before = true -> forallb blank after = true ->
  (exists secret link code,
     random_access_code (Ok raw) = Ok secret /\ make_invite_link n secret = Ok link /\ make_invite_code n secret = Ok code /\
     parse_join_target (before ++ link ++ after) = Ok (mk_target n secret) /\
     parse_join_target (before ++ code ++ after) = Ok (mk_target n secret) /\
     parse_join_target (before ++ hex n ++ after) = Ok (mk_target n [])) /\
  (forall text t, parse_join_target text = Ok t ->
     length (target_network t) = 16%nat /\ is_zero (target_network t) = false /\
     (invitation t = [] \/ length (invitation t) = 40%nat /\ Forall canonical (invitation t)))).
Proof. split; [apply valid_network_name_utf8|apply invitation_texts]. Qed.
Lemma join_texts_exact_witness :
  parse_join_target (str " 0102030405060708090a0b0c0d0e0f10 ") = Ok (mk_target (map z2b [1;2;3;4;5;6;7;8;9;10;11;12;13;14;15;16]) []).
Proof.
  destruct (join_texts_exact (str "lan") (map z2b [1;2;3;4;5;6;7;8;9;10;11;12;13;14;15;16]) (replicate 32 x07) (str " ") (str " "))
    as [_ J].
  destruct J as [(secret & link & code & _ & _ & _ & _ & _ & H) _]; [reflexivity|reflexivity|cbn; lia|reflexivity|reflexivity|].
  exact H.
Defined.
