(* ===== verification/NetworkService.v ===== *)
(** * The relay's network service

    relay/network_service.hpp and .cpp: the operations clients request of the relay, on the
    database of [RelayStore] and the service's own maps.  A handler is a state-passing
    function that may throw; what it did before throwing stays done, as in the code, while a
    store operation that throws leaves the database as it was.  The steady clock is read at
    most once per handler of this file: its value is the argument [clock] (nanoseconds); the one
    handler that reads it twice, [access_request], takes both values in [ServiceAccess].  The network id
    generator is the argument [gen] (attempt number to id).  OpenSSL is the class [Crypto].
    The mutex serialises the handlers.  Administration and account requests
    ([manage_network], [access_request]) are in [ServiceAccess]. *)
From S2P Require Import Prelude Wire Ipv4 NetworkPolicy NetworkMessages PacketMessages Crypto.
From S2P Require Import AuditEvent RelayStore Double ForwardingQuota Candidates.

(** ** State *)

Record ActiveKey := mk_active_key { ak_session_id : bytes; ak_signed_key : SignedDeviceKey }.
Record FanoutBucket := mk_fanout_bucket { fb_tokens : double; fb_updated : Z; fb_initialized : bool }.
Record FanoutReplay := mk_replay {
  fr_epoch : Z; fr_session_key : bytes; fr_nonce_prefix : bytes; fr_highest : Z; fr_seen : Z }.

Record AccessWindow := mk_window { window_start : Z; attempts : Z }.

Record Service := mk_service {
  store_ : Db;
  revisions_ : gmap bytes Z;
  key_epochs_ : gmap bytes Z;
  active_keys_ : gmap bytes ActiveKey;
  management_capable_ : gset bytes;
  sender_fanout_ : gmap (bytes * bytes) FanoutBucket;
  network_fanout_ : gmap bytes FanoutBucket;
  fanout_replay_ : gmap (bytes * bytes) FanoutReplay;
  audit_denials_ : gmap bytes Z;
  audit_write_failures_ : Z;
  quota_ : Quota;
  access_attempts_ : gmap (bytes * bytes) AccessWindow
}.

Definition fresh_service (db : Db) : Service := mk_service db ∅ ∅ ∅ ∅ ∅ ∅ ∅ ∅ 0 fresh_quota ∅.

Definition set_store x (s : Service) : Service :=
  mk_service x (revisions_ s) (key_epochs_ s) (active_keys_ s) (management_capable_ s) (sender_fanout_ s) (network_fanout_ s)
    (fanout_replay_ s) (audit_denials_ s) (audit_write_failures_ s) (quota_ s) (access_attempts_ s).
Definition set_revisions x (s : Service) : Service :=
  mk_service (store_ s) x (key_epochs_ s) (active_keys_ s) (management_capable_ s) (sender_fanout_ s) (network_fanout_ s)
    (fanout_replay_ s) (audit_denials_ s) (audit_write_failures_ s) (quota_ s) (access_attempts_ s).
Definition set_key_epochs x (s : Service) : Service :=
  mk_service (store_ s) (revisions_ s) x (active_keys_ s) (management_capable_ s) (sender_fanout_ s) (network_fanout_ s)
    (fanout_replay_ s) (audit_denials_ s) (audit_write_failures_ s) (quota_ s) (access_attempts_ s).
Definition set_active_keys x (s : Service) : Service :=
  mk_service (store_ s) (revisions_ s) (key_epochs_ s) x (management_capable_ s) (sender_fanout_ s) (network_fanout_ s)
    (fanout_replay_ s) (audit_denials_ s) (audit_write_failures_ s) (quota_ s) (access_attempts_ s).
Definition set_capable x (s : Service) : Service :=
  mk_service (store_ s) (revisions_ s) (key_epochs_ s) (active_keys_ s) x (sender_fanout_ s) (network_fanout_ s)
    (fanout_replay_ s) (audit_denials_ s) (audit_write_failures_ s) (quota_ s) (access_attempts_ s).
Definition set_fanout_buckets x y (s : Service) : Service :=
  mk_service (store_ s) (revisions_ s) (key_epochs_ s) (active_keys_ s) (management_capable_ s) x y
    (fanout_replay_ s) (audit_denials_ s) (audit_write_failures_ s) (quota_ s) (access_attempts_ s).
Definition set_replay x (s : Service) : Service :=
  mk_service (store_ s) (revisions_ s) (key_epochs_ s) (active_keys_ s) (management_capable_ s) (sender_fanout_ s) (network_fanout_ s)
    x (audit_denials_ s) (audit_write_failures_ s) (quota_ s) (access_attempts_ s).
Definition set_denials x y (s : Service) : Service :=
  mk_service (store_ s) (revisions_ s) (key_epochs_ s) (active_keys_ s) (management_capable_ s) (sender_fanout_ s) (network_fanout_ s)
    (fanout_replay_ s) x y (quota_ s) (access_attempts_ s).
Definition set_quota x (s : Service) : Service :=
  mk_service (store_ s) (revisions_ s) (key_epochs_ s) (active_keys_ s) (management_capable_ s) (sender_fanout_ s) (network_fanout_ s)
    (fanout_replay_ s) (audit_denials_ s) (audit_write_failures_ s) x (access_attempts_ s).
Definition set_attempts x (s : Service) : Service :=
  mk_service (store_ s) (revisions_ s) (key_epochs_ s) (active_keys_ s) (management_capable_ s) (sender_fanout_ s) (network_fanout_ s)
    (fanout_replay_ s) (audit_denials_ s) (audit_write_failures_ s) (quota_ s) x.

(** ** Results *)

Record RoutedNetworkEvent := mk_routed_event { event_recipient : bytes; routed_event_ : NetworkEvent }.
Record RoutedPeerStateChange := mk_change {
  change_recipient : bytes; change_state : option NetworkPeerState; change_revocation : NetworkPeerRevocation }.
Record NetworkOperationOutcome := mk_outcome {
  outcome_result : NetworkOperationResult; events : list RoutedNetworkEvent; peer_changes : list RoutedPeerStateChange }.
Record NetworkPeerStateOutcome := mk_state_outcome { state_code : NetworkResultCode; state_ : option NetworkPeerState }.
Record NetworkListOutcome := mk_list_outcome { list_code : NetworkResultCode; list_result : NetworkListResult }.
Record NetworkKeyPublishOutcome := mk_key_outcome {
  key_code : NetworkResultCode; key_network_id : bytes; key_envelopes : list NetworkKeyEnvelope }.
Record RoutedEncryptedPacket := mk_delivery { recipient : bytes; delivery : ForwardedNetworkPacket }.

Definition zero_network : bytes := replicate 16 x00.
Definition no_revocation : NetworkPeerRevocation := mk_revocation zero_network 0.

(** ** Handlers as state-passing functions *)

Definition M (A : Type) : Type := Service -> result A * Service.
Definition ret {A} (a : A) : M A := fun s => (Ok a, s).
Definition throw {A} (e : exn) : M A := fun s => (Throw e, s).
Definition bind {A B} (m : M A) (k : A -> M B) : M B := fun s =>
  match m s with (Ok a, s) => k a s | (Throw e, s) => (Throw e, s) end.
Notation "'let!' x := m 'in' k" := (bind m (fun x => k))
  (at level 10, x name, m at level 100, k at level 200, format "'[v' 'let!'  x  :=  m  'in' '/' k ']'").
Notation "m ;; k" := (bind m (fun _ => k)) : lanlink_scope.

Definition query {A} (f : Service -> result A) : M A := fun s => (f s, s).
Definition modify (f : Service -> Service) : M unit := fun s => (Ok tt, f s).
Definition pure {A} (r : result A) : M A := fun s => (r, s).
(** A read of the store, a write and a write that reports whether it changed a row. *)
Definition reading {A} (f : Db -> result A) : M A := query (fun s => f (store_ s)).
Definition writing (f : Db -> result Db) : M unit := fun s =>
  match f (store_ s) with Ok db => (Ok tt, set_store db s) | Throw e => (Throw e, s) end.
Definition changing (f : Db -> result (bool * Db)) : M bool := fun s =>
  match f (store_ s) with Ok (b, db) => (Ok b, set_store db s) | Throw e => (Throw e, s) end.
(** [try { m } catch (...) { h }]. *)
Definition catch {A} (m : M A) (h : exn -> M A) : M A := fun s =>
  match m s with (Throw e, s) => h e s | r => r end.
(** The loops that collect changes network by network. *)
Fixpoint collect {A B} (f : A -> M (list B)) (l : list A) : M (list B) :=
  match l with
  | [] => ret []
  | x :: l => let! ys := f x in let! zs := collect f l in ret (ys ++ zs)
  end.

(** ** Helpers *)

Definition network_id_generation_attempts : nat := 32.

Definition require_actor_and_time (actor : bytes) (now_ms : Z) : result unit :=
  check! negb (is_zero actor) else invalid_argument in
  check! negb (now_ms <? 0) else invalid_argument in
  Ok tt.

Definition require_selection_request (n : bytes) : result unit :=
  let* _ := encode_network_selection_request (mk_network_selection n) in Ok tt.

Definition valid_member_request (r : NetworkMemberRequest) : result bool :=
  let* _ := require_selection_request (member_network_id r) in
  match encode_network_member_request r with
  | Ok _ => Ok true
  | Throw invalid_argument => Ok false
  | Throw e => Throw e
  end.

Definition operation_outcome (op : NetworkOperation) (c : NetworkResultCode) (n : bytes) : NetworkOperationOutcome :=
  mk_outcome (mk_operation_result op c n) [] [].

Definition list_outcome (c : NetworkResultCode) : NetworkListOutcome := mk_list_outcome c (mk_list_result []).

Definition find_member (members : list MembershipRecord) (d : bytes) : option MembershipRecord :=
  List.find (fun m => bool_decide (mr_device m = d)) members.

Definition routed_event (recipient : bytes) (k : NetworkEventKind) (n subject : bytes) : RoutedNetworkEvent :=
  mk_routed_event recipient (mk_event k n subject).

Definition events_for_members (members : list MembershipRecord) (excluded : option bytes) (k : NetworkEventKind)
    (n subject : bytes) : list RoutedNetworkEvent :=
  omap (fun m => if match excluded with None => true | Some x => negb (bool_decide (mr_device m = x)) end
                 then Some (routed_event (mr_device m) k n subject) else None) members.

Definition network_limit_reached (db : Db) (d : bytes) : result bool :=
  let* l := list_networks_for_device db d in Ok (len l >=? max_network_list_entries).

Definition make_summary (network : NetworkRecord) (actor : bytes) (members : list MembershipRecord) : result NetworkSummary :=
  match find_member members actor with
  | None => Throw runtime_error
  | Some m =>
      check! negb ((len members =? 0) || (len members >? 2 ^ 32 - 1)) else runtime_error in
      Ok (mk_summary (nr_id network) (nr_owner network)
            (if bool_decide (mr_role m = mr_owner) then role_owner else role_member)
            (nr_created network) (len members) (nr_name network))
  end.

Definition peer_of (active : gmap bytes ActiveKey) (l : VirtualIpv4LeaseRecord) : NetworkPeer :=
  mk_peer (lr_device l) (lr_address l) (fmap ak_signed_key (active !! lr_device l)).

Definition assemble_peer_state (subnet : NetworkSubnetRecord) (leases : list VirtualIpv4LeaseRecord) (actor : bytes)
    (revision : Z) (owner_id : bytes) (epoch : Z) (active : gmap bytes ActiveKey) : result NetworkPeerState :=
  match List.find (fun l => bool_decide (lr_device l = actor)) leases with
  | None => Throw runtime_error
  | Some own =>
      check! negb (len leases >? max_network_peer_entries + 1) else runtime_error in
      Ok (mk_peer_state (sr_network subnet) revision (sr_address subnet) (sr_prefix subnet) (lr_address own)
            (map (peer_of active) (List.filter (fun l => negb (bool_decide (lr_device l = actor))) leases))
            owner_id epoch None)
  end.

(** ** Revisions and key epochs *)

Definition revision_for (s : Service) (n : bytes) : Z := default 0 (revisions_ s !! n).

Definition advance_revision (n : bytes) : M Z := fun s =>
  let revision := default 0 (revisions_ s !! n) in
  if revision =? 2 ^ 64 - 1 then (Throw overflow_error, s)
  else (Ok (revision + 1), set_revisions (<[n := revision + 1]> (revisions_ s)) s).

Definition key_epoch_for (s : Service) (n : bytes) : Z := default 1 (key_epochs_ s !! n).

Definition advance_key_epoch (n : bytes) : M unit := fun s =>
  let epoch := default 0 (key_epochs_ s !! n) in
  if epoch =? 2 ^ 64 - 1 then (Throw overflow_error, s)
  else (Ok tt, set_key_epochs (<[n := epoch + 1]> (key_epochs_ s)) s).

(** ** Permissions *)

Definition device_allowed (s : Service) (d : bytes) : bool := negb (device_revoked (store_ s) d).

Definition can_manage_network (n actor : bytes) (s : Service) : result bool :=
  let* network := find_network (store_ s) n in
  match network with
  | None => Ok false
  | Some network =>
      if negb (device_allowed s actor) then Ok false
      else if bool_decide (nr_owner network = actor) then Ok true
      else
        let* policy := network_policy (store_ s) n in
        if negb (managed policy && bool_decide (actor ∈ management_capable_ s)) then Ok false
        else
          let* lease := find_virtual_ipv4_lease (store_ s) n actor in
          Ok (match lease with
              | None => false
              | Some _ => bool_decide (policy_role policy actor = administrator)
              end)
  end.

Definition traffic_allowed (n a b : bytes) (fanout : bool) (s : Service) : result bool :=
  let* policy := network_policy (store_ s) n in
  Ok ((negb (managed policy) || (bool_decide (a ∈ management_capable_ s) && bool_decide (b ∈ management_capable_ s))) &&
      (if fanout then policy_fanout_allows policy a b else policy_allows policy a b)).

(** ** Peer states *)

Definition without_key (p : NetworkPeer) : NetworkPeer := mk_peer (peer_device_id p) (ipv4_address p) None.

(** The state with the policy of a managed network, and keys of capable peers only. *)
Definition managed_state (s : Service) (policy : NetworkPolicy) (st : NetworkPeerState) : NetworkPeerState :=
  mk_peer_state (state_network_id st) (state_revision st) (subnet_address st) (prefix_length st) (own_address st)
    (map (fun p => if bool_decide (peer_device_id p ∈ management_capable_ s) then p else without_key p) (peers st))
    (state_owner st) (state_key_epoch st) (Some policy).

Definition make_peer_state (n actor : bytes) (revision : Z) (s : Service) : result NetworkPeerState :=
  let* subnet := find_subnet (store_ s) n in
  let* network := find_network (store_ s) n in
  match subnet, network with
  | Some subnet, Some network =>
      let* leases := list_virtual_ipv4_leases (store_ s) n in
      let* st := assemble_peer_state subnet leases actor revision (nr_owner network) (key_epoch_for s n) (active_keys_ s) in
      let* policy := network_policy (store_ s) n in
      Ok (if managed policy then managed_state s policy st else st)
  | _, _ => Throw runtime_error
  end.

Definition changes_for_members (n : bytes) (revision : Z) (s : Service) : result (list RoutedPeerStateChange) :=
  let* subnet := find_subnet (store_ s) n in
  let* network := find_network (store_ s) n in
  match subnet, network with
  | Some _, Some _ =>
      let* leases := list_virtual_ipv4_leases (store_ s) n in
      map_result (fun l => let* st := make_peer_state n (lr_device l) revision s in
                           Ok (mk_change (lr_device l) (Some st) no_revocation)) leases
  | _, _ => Throw runtime_error
  end.

(** ** Audit *)

Definition audit_locked (clock : Z) (k : AuditKind) (actor target n : bytes) (c : NetworkResultCode) (now_ms revision : Z)
    : M unit := fun s =>
  let write s :=
    match append_audit (store_ s) (mk_audit 0 (now_ms mod 2 ^ 64) n actor target k c revision) with
    | Ok db => (Ok tt, set_store db s)
    | Throw _ => (Ok tt, set_denials (audit_denials_ s) ((audit_write_failures_ s + 1) mod 2 ^ 64) s)
    end in
  if negb (bool_decide (c = success)) && negb (bool_decide (c = pending_approval)) then
    let denials := filter (fun e : bytes * Z => ~ (clock - snd e >= 60 * 1000000000)) (audit_denials_ s) in
    match denials !! actor with
    | Some prior =>
        if clock - prior <? 1000000000 then (Ok tt, set_denials denials (audit_write_failures_ s) s)
        else write (set_denials (<[actor := clock]> denials) (audit_write_failures_ s) s)
    | None =>
        if Z.of_nat (size denials) >=? 256 then (Ok tt, set_denials denials (audit_write_failures_ s) s)
        else write (set_denials (<[actor := clock]> denials) (audit_write_failures_ s) s)
    end
  else write s.

Definition audit_kind_of (op : NetworkOperation) : option AuditKind :=
  match op with
  | op_create => Some network_create | op_join => Some network_join | op_leave => Some network_leave
  | op_invite => Some member_invite | op_approve => Some member_approve | op_kick => Some member_kick
  | _ => None
  end.

Definition audit_network_outcome (clock : Z) (actor : bytes) (out : NetworkOperationOutcome) (now_ms : Z) : M unit :=
  let r := outcome_result out in
  match audit_kind_of (operation r) with
  | None => ret tt
  | Some k =>
      let target := match events out with [] => actor | e :: _ => event_device_id (routed_event_ e) end in
      audit_locked clock k actor target (result_network_id r) (code r) now_ms 0
  end.

(** The end of a successful handler. *)
Definition audited (clock : Z) (actor : bytes) (now_ms : Z) (out : NetworkOperationOutcome) : M NetworkOperationOutcome :=
  audit_network_outcome clock actor out now_ms ;; ret out.

(** The two shapes of the handlers' catch clauses. *)
Definition guarded (op : NetworkOperation) (n : bytes) (m : M NetworkOperationOutcome) : M NetworkOperationOutcome :=
  catch m (fun _ => ret (operation_outcome op internal_error n)).
Definition guarded_limit (op : NetworkOperation) (n : bytes) (m : M NetworkOperationOutcome) : M NetworkOperationOutcome :=
  catch m (fun e => ret (operation_outcome op (if bool_decide (e = length_error) then limit_reached else internal_error) n)).

(** ** Devices and their keys *)

Definition record_authenticated_device (actor : bytes) (now_ms : Z) : M unit :=
  pure (require_actor_and_time actor now_ms) ;;
  let! allowed := query (fun s => Ok (device_allowed s actor)) in
  if negb allowed then throw runtime_error else writing (fun db => record_device db actor now_ms).

(** The loop over an actor's networks after its key changed. *)
Definition announce_key (actor : bytes) (networks : list NetworkRecord) : M (list RoutedPeerStateChange) :=
  collect (fun network =>
    (if bool_decide (nr_owner network = actor) then advance_key_epoch (nr_id network) else ret tt) ;;
    let! revision := advance_revision (nr_id network) in
    query (changes_for_members (nr_id network) revision)) networks.

Section Handlers.
Context {C : Crypto}.

Definition publish_device_key (actor session_id : bytes) (key : SignedDeviceKey) (now_ms : Z) : M (list RoutedPeerStateChange) :=
  pure (require_actor_and_time actor now_ms) ;;
  let! valid := pure (if is_zero session_id then Ok false else verify_signed_device_key key actor) in
  if negb valid then throw invalid_argument
  else
    writing (fun db => record_device db actor now_ms) ;;
    let! allowed := query (fun s => Ok (device_allowed s actor)) in
    if negb allowed then throw runtime_error
    else
      modify (fun s => set_active_keys (<[actor := mk_active_key session_id key]> (active_keys_ s)) s) ;;
      let! networks := reading (fun db => list_networks_for_device db actor) in
      announce_key actor networks.

Definition remove_device_key (actor session_id : bytes) : M (list RoutedPeerStateChange) := fun s =>
  match active_keys_ s !! actor with
  | None => (Ok [], s)
  | Some found =>
      if negb (bool_decide (ak_session_id found = session_id)) then (Ok [], s)
      else
        (modify (fun s =>
          set_replay (filter (fun e : (bytes * bytes) * FanoutReplay => snd (fst e) <> actor) (fanout_replay_ s))
          (set_fanout_buckets (filter (fun e : (bytes * bytes) * FanoutBucket => snd (fst e) <> actor) (sender_fanout_ s)) (network_fanout_ s)
          (set_capable (management_capable_ s ∖ {[actor]}) (set_active_keys (delete actor (active_keys_ s)) s)))) ;;
        let! networks := reading (fun db => list_networks_for_device db actor) in
        announce_key actor networks) s
  end.

Definition set_management_capable (actor : bytes) (capable : bool) : M (list RoutedPeerStateChange) :=
  modify (fun s => set_capable (if capable then {[actor]} ∪ management_capable_ s else management_capable_ s ∖ {[actor]}) s) ;;
  let! networks := reading (fun db => list_networks_for_device db actor) in
  collect (fun network =>
    let! policy := reading (fun db => network_policy db (nr_id network)) in
    if managed policy then
      let! revision := advance_revision (nr_id network) in
      query (changes_for_members (nr_id network) revision)
    else ret []) networks.

(** ** Routing *)

Definition replenish (now : Z) (capacity per_second : Z) (b : FanoutBucket) : FanoutBucket :=
  let tokens :=
    if negb (fb_initialized b) then d_of_Z capacity
    else if now >? fb_updated b
    then d_min (d_of_Z capacity) (d_add (fb_tokens b) (d_mul (d_seconds (now - fb_updated b)) (d_of_Z per_second)))
    else fb_tokens b in
  mk_fanout_bucket tokens now true.

Definition empty_fanout_bucket : FanoutBucket := mk_fanout_bucket (d_of_Z 0) 0 false.
Definition empty_replay : FanoutReplay := mk_replay 0 (replicate 32 x00) (replicate 8 x00) 0 0.

(** The window of a sender for this epoch and session key. *)
Definition current_replay (r : FanoutReplay) (epoch : Z) (session_key : bytes) : FanoutReplay :=
  if negb (fr_epoch r =? epoch) || negb (bool_decide (fr_session_key r = session_key))
  then mk_replay epoch session_key (replicate 8 x00) 0 0 else r.

Definition replayed (r : FanoutReplay) (p : EncryptedNetworkPacket) : bool :=
  negb (fr_highest r =? 0) &&
  (negb (bool_decide (take 8 (nonce p) = fr_nonce_prefix r)) ||
   ((sequence p <=? fr_highest r) &&
    ((fr_highest r - sequence p >=? 64) || negb (Z.land (fr_seen r) (Z.shiftl 1 (fr_highest r - sequence p)) =? 0)))).

Definition record_fanout (r : FanoutReplay) (p : EncryptedNetworkPacket) : FanoutReplay :=
  let prefix := if fr_highest r =? 0 then take 8 (nonce p) else fr_nonce_prefix r in
  if sequence p >? fr_highest r then
    let distance := sequence p - fr_highest r in
    mk_replay (fr_epoch r) (fr_session_key r) prefix (sequence p)
      (if distance >=? 64 then 1 else Z.lor (Z.shiftl (fr_seen r) distance mod 2 ^ 64) 1)
  else mk_replay (fr_epoch r) (fr_session_key r) prefix (fr_highest r)
         (Z.lor (fr_seen r) (Z.shiftl 1 (fr_highest r - sequence p))).

(** The members a fan-out packet goes to. *)
Fixpoint fanout_recipients (actor n : bytes) (leases : list VirtualIpv4LeaseRecord) (s : Service) : result (list bytes) :=
  match leases with
  | [] => Ok []
  | l :: leases =>
      let* eligible :=
        if bool_decide (lr_device l = actor) then Ok false
        else if negb (known (lr_device l) (active_keys_ s)) then Ok false
        else traffic_allowed n actor (lr_device l) true s in
      let* rest := fanout_recipients actor n leases s in
      Ok (if (eligible : bool) then lr_device l :: rest else rest)
  end.

(** Taking tokens and recording the packet, or dropping it. *)
Definition forward_fanout (clock : Z) (actor : bytes) (p : EncryptedNetworkPacket) (replay : FanoutReplay)
    (recipients : list bytes) : M (list RoutedEncryptedPacket) := fun s =>
  let n := network_id p in
  let count := len recipients in
  let sender_bucket := replenish clock 16 8 (default empty_fanout_bucket (sender_fanout_ s !! (n, actor))) in
  let network_bucket := replenish clock 256 128 (default empty_fanout_bucket (network_fanout_ s !! n)) in
  let put a b := set_fanout_buckets (<[(n, actor) := a]> (sender_fanout_ s)) (<[n := b]> (network_fanout_ s)) in
  let s := put sender_bucket network_bucket s in
  if d_lt (fb_tokens sender_bucket) (d_of_Z 1) || d_lt (fb_tokens network_bucket) (d_of_Z count) then (Ok [], s)
  else
    match encode_forwarded_network_packet (mk_forwarded actor p) with
    | Throw e => (Throw e, s)
    | Ok bs =>
        let '(admitted, q) := quota_admit (quota_ s) actor n (len bs) count clock in
        let s := set_quota q s in
        if negb admitted then (Ok [], s)
        else
          let take k b := mk_fanout_bucket (d_sub (fb_tokens b) (d_of_Z k)) (fb_updated b) (fb_initialized b) in
          let s := put (take 1 sender_bucket) (take count network_bucket) s in
          (Ok (map (fun d => mk_delivery d (mk_forwarded actor p)) recipients),
           set_replay (<[(n, actor) := record_fanout replay p]> (fanout_replay_ s)) s)
    end.

Definition route_fanout (clock : Z) (actor : bytes) (p : EncryptedNetworkPacket) (own : ActiveKey)
    (leases : list VirtualIpv4LeaseRecord) : M (list RoutedEncryptedPacket) :=
  if len (ciphertext p) >? 1400 then ret []
  else fun s =>
    let n := network_id p in
    let replay := current_replay (default empty_replay (fanout_replay_ s !! (n, actor))) (key_epoch p)
                    (encryption_public_key (ak_signed_key own)) in
    let s := set_replay (<[(n, actor) := replay]> (fanout_replay_ s)) s in
    if replayed replay p then (Ok [], s)
    else
      match fanout_recipients actor n leases s with
      | Throw e => (Throw e, s)
      | Ok [] => (Ok [], s)
      | Ok recipients => forward_fanout clock actor p replay recipients s
      end.

Definition route_unicast (clock : Z) (actor : bytes) (p : EncryptedNetworkPacket) (leases : list VirtualIpv4LeaseRecord)
    : M (list RoutedEncryptedPacket) := fun s =>
  match List.find (fun l => lr_address l =? destination_ipv4 p) leases with
  | None => (Ok [], s)
  | Some l =>
      if negb (known (lr_device l) (active_keys_ s)) then (Ok [], s)
      else
        match traffic_allowed (network_id p) actor (lr_device l) false s with
        | Throw e => (Throw e, s)
        | Ok false => (Ok [], s)
        | Ok true =>
            match encode_forwarded_network_packet (mk_forwarded actor p) with
            | Throw e => (Throw e, s)
            | Ok bs =>
                let '(admitted, q) := quota_admit (quota_ s) actor (network_id p) (len bs) 1 clock in
                (Ok (if admitted then [mk_delivery (lr_device l) (mk_forwarded actor p)] else []), set_quota q s)
            end
        end
  end.

Definition route_encrypted_packet (clock : Z) (actor : bytes) (p : EncryptedNetworkPacket) : M (list RoutedEncryptedPacket) :=
  let! allowed := query (fun s => Ok (negb (is_zero actor) && device_allowed s actor)) in
  if negb allowed then ret []
  else
    pure (encode_encrypted_network_packet p) ;;
    let! network := reading (fun db => find_network db (network_id p)) in
    let! own := query (fun s => Ok (if key_epoch p =? key_epoch_for s (network_id p) then active_keys_ s !! actor else None)) in
    match network, own with
    | Some _, Some own =>
        let! sender := reading (fun db => find_virtual_ipv4_lease db (network_id p) actor) in
        match sender with
        | None => ret []
        | Some sender =>
            if lr_address sender =? destination_ipv4 p then ret []
            else
              let! subnet := reading (fun db => find_subnet db (network_id p)) in
              match subnet with
              | None => ret []
              | Some subnet =>
                  let! leases := reading (fun db => list_virtual_ipv4_leases db (network_id p)) in
                  if is_ipv4_fanout_destination (destination_ipv4 p) (sr_address subnet) (sr_prefix subnet)
                  then route_fanout clock actor p own leases
                  else route_unicast clock actor p leases
              end
        end
    | _, _ => ret []
    end.

(** ** Networks and members *)

(** The attempts to find an unused network id; [attempts] remain. *)
Fixpoint create_attempts (clock : Z) (gen : nat -> result bytes) (attempts : nat) (actor name : bytes) (now_ms : Z)
    (password : option PasswordVerifier) : M NetworkOperationOutcome :=
  match attempts with
  | O => ret (operation_outcome op_create conflict zero_network)
  | S rest =>
      let again := create_attempts clock gen rest actor name now_ms password in
      let! n := pure (gen (network_id_generation_attempts - attempts)%nat) in
      if is_zero n then again
      else
        let! taken := reading (fun db => find_network db n) in
        match taken with
        | Some _ => again
        | None =>
            let! created := fun s =>
              let '(r, s) := writing (fun db => RelayStore.create_network db (mk_network_record n name actor now_ms) password) s in
              (Ok r, s) in
            match created with
            | Throw e =>
                let! found := reading (fun db => find_network db n) in
                match found with Some _ => again | None => throw e end
            | Ok _ =>
                advance_key_epoch n ;;
                let! revision := advance_revision n in
                let! changes := query (changes_for_members n revision) in
                audited clock actor now_ms (mk_outcome (mk_operation_result op_create success n) [] changes)
            end
        end
  end.

Definition create_network_locked (clock : Z) (gen : nat -> result bytes) (actor name : bytes) (now_ms : Z)
    (password : option PasswordVerifier) : M NetworkOperationOutcome :=
  guarded_limit op_create zero_network (
    writing (fun db => record_device db actor now_ms) ;;
    let! full := reading (fun db => network_limit_reached db actor) in
    if (full : bool) then ret (operation_outcome op_create limit_reached zero_network)
    else create_attempts clock gen network_id_generation_attempts actor name now_ms password).

Definition create_network (clock : Z) (gen : nat -> result bytes) (actor : bytes) (request : NetworkCreateRequest) (now_ms : Z)
    : M NetworkOperationOutcome :=
  pure (require_actor_and_time actor now_ms) ;;
  match encode_network_create_request request with
  | Throw invalid_argument => ret (operation_outcome op_create invalid_request zero_network)
  | Throw e => throw e
  | Ok _ => create_network_locked clock gen actor (create_name request) now_ms None
  end.

Definition list_networks (actor : bytes) (now_ms : Z) : M NetworkListOutcome :=
  pure (require_actor_and_time actor now_ms) ;;
  catch (
    writing (fun db => record_device db actor now_ms) ;;
    let! networks := reading (fun db => list_networks_for_device db actor) in
    if len networks >? max_network_list_entries then ret (list_outcome limit_reached)
    else
      let! summaries := reading (fun db => map_result (fun network =>
        let* members := list_members db (nr_id network) in make_summary network actor members) networks) in
      ret (mk_list_outcome success (mk_list_result summaries)))
  (fun _ => ret (list_outcome internal_error)).

(** What a handler does once the membership of [n] has changed: a new key epoch, the events
    [mk_events] computes from the members, a new revision, the members' new states and
    [extra] changes, and the audit entry. *)
Definition announce_members (clock : Z) (actor : bytes) (now_ms : Z) (op : NetworkOperation) (n : bytes)
    (mk_events : list MembershipRecord -> list RoutedNetworkEvent) (extra : Z -> list RoutedPeerStateChange)
    : M NetworkOperationOutcome :=
  advance_key_epoch n ;;
  let! members := reading (fun db => list_members db n) in
  let! revision := advance_revision n in
  let! changes := query (changes_for_members n revision) in
  audited clock actor now_ms (mk_outcome (mk_operation_result op success n) (mk_events members) (changes ++ extra revision)).

Definition join_network_locked (clock : Z) (actor n : bytes) (now_ms : Z) (credential_verified : bool) : M NetworkOperationOutcome :=
  let answer c := ret (operation_outcome op_join c n) in
  guarded_limit op_join n (
    writing (fun db => record_device db actor now_ms) ;;
    let! network := reading (fun db => find_network db n) in
    match network with
    | None => answer not_found
    | Some network =>
        let! members := reading (fun db => list_members db n) in
        match find_member members actor with
        | Some _ => answer already_exists
        | None =>
            let! full := reading (fun db => network_limit_reached db actor) in
            if (full : bool) then answer limit_reached
            else
              let! password := reading (fun db => Ok (network_password db n)) in
              let! invitation := reading (fun db => find_invitation db n actor) in
              let was_invited := match invitation with Some _ => true | None => false end in
              let protected := match password with Some _ => true | None => false end in
              let open := match password with Some p => negb (require_approval p) | None => false end in
              if protected && negb credential_verified && negb was_invited then answer invite_required
              else if was_invited || (credential_verified && open) then
                let! added := changing (fun db => add_member db n actor now_ms) in
                if negb added then answer conflict
                else announce_members clock actor now_ms op_join n
                       (fun members => events_for_members members (Some actor) member_joined n actor) (fun _ => [])
              else
                let! pending := reading (fun db => find_join_request db n actor) in
                match pending with
                | Some _ => answer pending_approval
                | None =>
                    let! added := changing (fun db => add_join_request db n actor now_ms) in
                    if negb added then answer conflict
                    else audited clock actor now_ms
                           (mk_outcome (mk_operation_result op_join pending_approval n)
                              [routed_event (nr_owner network) join_requested n actor] [])
                end
        end
    end).

Definition join_network (clock : Z) (actor : bytes) (request : NetworkSelectionRequest) (now_ms : Z) : M NetworkOperationOutcome :=
  pure (require_actor_and_time actor now_ms) ;;
  pure (require_selection_request (selection_id request)) ;;
  join_network_locked clock actor (selection_id request) now_ms false.

Definition leave_network (clock : Z) (actor : bytes) (request : NetworkSelectionRequest) (now_ms : Z) : M NetworkOperationOutcome :=
  let n := selection_id request in
  let answer c := ret (operation_outcome op_leave c n) in
  pure (require_actor_and_time actor now_ms) ;;
  pure (require_selection_request n) ;;
  guarded op_leave n (
    writing (fun db => record_device db actor now_ms) ;;
    let! network := reading (fun db => find_network db n) in
    match network with
    | None => answer not_found
    | Some network =>
        if bool_decide (nr_owner network = actor) then answer permission_denied
        else
          let! members := reading (fun db => list_members db n) in
          match find_member members actor with
          | None => answer not_member
          | Some _ =>
              let! removed := changing (fun db => remove_member db n actor) in
              if negb removed then answer conflict
              else announce_members clock actor now_ms op_leave n
                     (fun members => events_for_members members None member_left n actor)
                     (fun revision => [mk_change actor None (mk_revocation n revision)])
          end
    end).

(** The checks invite, approve and kick start with: the request is well formed, the network
    exists, the actor manages it and the target device is known. *)
Definition managing (op : NetworkOperation) (catching : M NetworkOperationOutcome -> M NetworkOperationOutcome) (actor : bytes)
    (request : NetworkMemberRequest) (now_ms : Z) (body : NetworkRecord -> M NetworkOperationOutcome) : M NetworkOperationOutcome :=
  let n := member_network_id request in
  let answer c := ret (operation_outcome op c n) in
  pure (require_actor_and_time actor now_ms) ;;
  let! valid := pure (valid_member_request request) in
  if negb valid then answer invalid_request
  else catching (
    writing (fun db => record_device db actor now_ms) ;;
    let! network := reading (fun db => find_network db n) in
    match network with
    | None => answer not_found
    | Some network =>
        let! manager := query (can_manage_network n actor) in
        if negb manager then answer permission_denied
        else
          let! target := reading (fun db => find_device db (member_device_id request)) in
          match target with
          | None => answer target_not_found
          | Some _ => body network
          end
    end).

Definition invite_member (clock : Z) (actor : bytes) (request : NetworkMemberRequest) (now_ms : Z) : M NetworkOperationOutcome :=
  let n := member_network_id request in
  let d := member_device_id request in
  let answer c := ret (operation_outcome op_invite c n) in
  managing op_invite (guarded op_invite n) actor request now_ms (fun _ =>
    let! members := reading (fun db => list_members db n) in
    let! taken := reading (fun db => match find_member members d with
      | Some _ => Ok true
      | None => let* i := find_invitation db n d in Ok (match i with Some _ => true | None => false end)
      end) in
    if (taken : bool) then answer already_exists
    else
      let! pending := reading (fun db => find_join_request db n d) in
      match pending with
      | Some _ => answer conflict
      | None =>
          let! full := reading (fun db => network_limit_reached db d) in
          if (full : bool) then answer limit_reached
          else
            let! added := changing (fun db => add_invitation db n d now_ms) in
            if negb added then answer conflict
            else audited clock actor now_ms
                   (mk_outcome (mk_operation_result op_invite success n) [routed_event d invited n d] [])
      end).

Definition approve_member (clock : Z) (actor : bytes) (request : NetworkMemberRequest) (now_ms : Z) : M NetworkOperationOutcome :=
  let n := member_network_id request in
  let d := member_device_id request in
  let answer c := ret (operation_outcome op_approve c n) in
  managing op_approve (guarded_limit op_approve n) actor request now_ms (fun _ =>
    let! members := reading (fun db => list_members db n) in
    match find_member members d with
    | Some _ => answer already_exists
    | None =>
        let! pending := reading (fun db => find_join_request db n d) in
        match pending with
        | None => answer not_found
        | Some _ =>
            let! full := reading (fun db => network_limit_reached db d) in
            if (full : bool) then answer limit_reached
            else
              let! added := changing (fun db => add_member db n d now_ms) in
              if negb added then answer conflict
              else announce_members clock actor now_ms op_approve n
                     (fun members => events_for_members members (Some actor) member_joined n d) (fun _ => [])
        end
    end).

(** The owner cannot be kicked, and an administrator only by the owner. *)
Definition shielded (db : Db) (n : bytes) (network : NetworkRecord) (actor d : bytes) : result bool :=
  if bool_decide (d = nr_owner network) then Ok true
  else if bool_decide (actor = nr_owner network) then Ok false
  else let* policy := network_policy db n in Ok (bool_decide (policy_role policy d = administrator)).

Definition kick_member (clock : Z) (actor : bytes) (request : NetworkMemberRequest) (now_ms : Z) : M NetworkOperationOutcome :=
  let n := member_network_id request in
  let d := member_device_id request in
  let answer c := ret (operation_outcome op_kick c n) in
  managing op_kick (guarded op_kick n) actor request now_ms (fun network =>
    let! protected := reading (fun db => shielded db n network actor d) in
    if (protected : bool) then answer permission_denied
    else
      let! members := reading (fun db => list_members db n) in
      match find_member members d with
      | None => answer not_member
      | Some _ =>
          let! removed := changing (fun db => remove_member db n d) in
          if negb removed then answer conflict
          else announce_members clock actor now_ms op_kick n
                 (fun members => routed_event d member_kicked n d :: events_for_members members (Some actor) member_kicked n d)
                 (fun revision => [mk_change d None (mk_revocation n revision)])
      end).

(** ** Network keys, peer states and peer exchanges *)

(** The loop over the envelopes; [None] is acceptance. *)
Fixpoint check_envelopes (s : Service) (actor n : bytes) (policy : NetworkPolicy) (own : SignedDeviceKey)
    (recipients : gset bytes) (l : list NetworkKeyEnvelope) : result (option NetworkResultCode) :=
  match l with
  | [] => Ok None
  | e :: l =>
      if negb (bool_decide (env_network_id e = n)) || negb (bool_decide (env_owner e = actor)) ||
         bool_decide (env_recipient e = actor) || bool_decide (env_recipient e ∈ recipients) ||
         negb (bool_decide (encryption_public_key own = env_owner_key e)) then Ok (Some invalid_request)
      else
        let* verified := verify_network_key_envelope e (identity_public_key own) in
        if negb verified then Ok (Some invalid_request)
        else if negb (env_epoch e =? key_epoch_for s n) then Ok (Some conflict)
        else if managed policy && negb (bool_decide (env_recipient e ∈ management_capable_ s)) then Ok (Some permission_denied)
        else
          let* lease := find_virtual_ipv4_lease (store_ s) n (env_recipient e) in
          match lease, active_keys_ s !! env_recipient e with
          | Some _, Some key =>
              if negb (bool_decide (encryption_public_key (ak_signed_key key) = env_recipient_key e)) then Ok (Some target_not_found)
              else check_envelopes s actor n policy own ({[env_recipient e]} ∪ recipients) l
          | _, _ => Ok (Some target_not_found)
          end
  end.

Definition publish_network_keys (actor : bytes) (request : NetworkKeyPublishRequest) (s : Service) : result NetworkKeyPublishOutcome :=
  match envelopes request with
  | [] => Ok (mk_key_outcome invalid_request zero_network [])
  | first :: _ =>
      if is_zero actor || (len (envelopes request) >? max_network_peer_entries)
      then Ok (mk_key_outcome invalid_request zero_network [])
      else
        let n := env_network_id first in
        let answer c := Ok (mk_key_outcome c n []) in
        let* network := find_network (store_ s) n in
        match network with
        | None => answer not_found
        | Some network =>
            let* policy := network_policy (store_ s) n in
            if managed policy && negb (bool_decide (actor ∈ management_capable_ s)) then answer permission_denied
            else if negb (bool_decide (nr_owner network = actor)) then answer permission_denied
            else
              match active_keys_ s !! actor with
              | None => answer permission_denied
              | Some own =>
                  let* refusal := check_envelopes s actor n policy (ak_signed_key own) ∅ (envelopes request) in
                  match refusal with
                  | Some c => answer c
                  | None => Ok (mk_key_outcome success n (envelopes request))
                  end
              end
        end
  end.

Definition peer_state (actor : bytes) (request : NetworkSelectionRequest) (now_ms : Z) : M NetworkPeerStateOutcome :=
  let n := selection_id request in
  pure (require_actor_and_time actor now_ms) ;;
  pure (require_selection_request n) ;;
  catch (
    writing (fun db => record_device db actor now_ms) ;;
    let! network := reading (fun db => find_network db n) in
    match network with
    | None => ret (mk_state_outcome not_found None)
    | Some _ =>
        let! lease := reading (fun db => find_virtual_ipv4_lease db n actor) in
        match lease with
        | None => ret (mk_state_outcome not_member None)
        | Some _ =>
            let! st := query (fun s => make_peer_state n actor (revision_for s n) s) in
            ret (mk_state_outcome success (Some st))
        end
    end)
  (fun _ => ret (mk_state_outcome internal_error None)).

Definition peer_states_for_device (actor : bytes) (s : Service) : result (list RoutedPeerStateChange) :=
  check! negb (is_zero actor) else invalid_argument in
  let* networks := list_networks_for_device (store_ s) actor in
  map_result (fun network =>
    let* st := make_peer_state (nr_id network) actor (revision_for s (nr_id network)) s in
    Ok (mk_change actor (Some st) no_revocation)) networks.

Definition authorize_peer_exchange (actor : bytes) (x : CandidateExchange) (s : Service) : result bool :=
  let n := x_network_id x in
  if negb (device_allowed s actor) || negb (device_allowed s (x_recipient x)) ||
     negb (bool_decide (actor = x_sender x)) || bool_decide (actor = x_recipient x) then Ok false
  else
    let* traffic := traffic_allowed n actor (x_recipient x) false s in
    if negb traffic then Ok false
    else
      let* mine := find_virtual_ipv4_lease (store_ s) n actor in
      match mine with
      | None => Ok false
      | Some _ =>
          let* theirs := find_virtual_ipv4_lease (store_ s) n (x_recipient x) in
          match theirs with
          | None => Ok false
          | Some _ =>
              if negb (key_epoch_for s n =? x_key_epoch x) then Ok false
              else Ok (match active_keys_ s !! actor, active_keys_ s !! x_recipient x with
                       | Some a, Some b =>
                           bool_decide (encryption_public_key (ak_signed_key a) = sender_session x) &&
                           bool_decide (encryption_public_key (ak_signed_key b) = recipient_session x)
                       | _, _ => false
                       end)
          end
      end.

(** [set_forwarding_limits] and [admit_control]. *)
Definition set_forwarding_limits (limits : ForwardingLimits) : M unit := fun s =>
  match configure (quota_ s) limits with Ok q => (Ok tt, set_quota q s) | Throw e => (Throw e, s) end.
Definition admit_control (clock : Z) (actor : bytes) : M bool := fun s =>
  let '(ok, q) := control (quota_ s) actor clock in (Ok ok, set_quota q s).
End Handlers.
