(* ===== verification/ServiceAccess.v ===== *)
(** * Administration and accounts

    relay/network_service.cpp, [manage_network], [allow_access_attempt] and [access_request]:
    inspecting a network, replacing its policy, asking to be a gateway, and the account,
    password and invitation-link requests.  The two output vectors of the handlers are
    returned beside the result (the relay passes both pointers).  An access request may read
    the steady clock twice: [clock] when the attempt is counted, [later] when it is audited;
    [draw] is the outcome of the one [random_nonce()] it may draw. *)
From S2P Require Import Prelude Wire Ipv4 NetworkPolicy NetworkMessages PacketMessages Crypto.
From S2P Require Import AuditEvent RelayStore Double ForwardingQuota Candidates NetworkService.
From S2P Require Import UserAccess NetworkManagement JoinTarget.

(** ** Counting attempts *)

Definition minute : Z := 60 * 1000000000.

(** [try_emplace] and the comparison with the limit, key by key. *)
Fixpoint claim_windows (now : Z) (keys : list ((bytes * bytes) * Z)) (m : gmap (bytes * bytes) AccessWindow)
    : bool * gmap (bytes * bytes) AccessWindow :=
  match keys with
  | [] => (true, m)
  | (k, limit) :: keys =>
      let w := default (mk_window now 0) (m !! k) in
      let m := <[k := w]> m in
      if attempts w >=? limit then (false, m) else claim_windows now keys m
  end.

Definition count_attempt (k : bytes * bytes) (m : gmap (bytes * bytes) AccessWindow) : gmap (bytes * bytes) AccessWindow :=
  match m !! k with Some w => <[k := mk_window (window_start w) (attempts w + 1)]> m | None => m end.

Definition attempt_keys (actor network : bytes) : list ((bytes * bytes) * Z) :=
  [((network, actor), 5); ((zero_network, actor), 10); ((network, zero_device), 20); ((zero_network, zero_device), 40)].

Definition allow_access_attempt (clock : Z) (actor network : bytes) : M bool := fun s =>
  let live := filter (fun e : (bytes * bytes) * AccessWindow => ~ (clock - window_start (snd e) >= minute)) (access_attempts_ s) in
  if Z.of_nat (size live) >? 4092 then (Ok false, set_attempts live s)
  else
    let '(ok, m) := claim_windows clock (attempt_keys actor network) live in
    if ok then (Ok true, set_attempts (foldl (fun m e => count_attempt (fst e) m) m (attempt_keys actor network)) s)
    else (Ok false, set_attempts m s).

(** ** Administration *)

(** A loop that returns at the first element with a result code. *)
Fixpoint first_code {A} (f : A -> result (option NetworkResultCode)) (l : list A) : result (option NetworkResultCode) :=
  match l with
  | [] => Ok None
  | x :: l => let* c := f x in match c with Some c => Ok (Some c) | None => first_code f l end
  end.

(** One check after another. *)
Definition or_code (c : result (option NetworkResultCode)) (k : result (option NetworkResultCode)) : result (option NetworkResultCode) :=
  let* c := c in match c with Some c => Ok (Some c) | None => k end.

Definition refuse_if (b : bool) (c : NetworkResultCode) : option NetworkResultCode := if b then Some c else None.

(** [d] is unset or has an address in the network. *)
Definition member_or_unset (db : Db) (n d : bytes) : result bool :=
  if bool_decide (d = zero_device) then Ok true
  else let* lease := find_virtual_ipv4_lease db n d in Ok (match lease with Some _ => true | None => false end).

Definition gateway_listed (p : NetworkPolicy) (d : bytes) : bool :=
  existsb (fun g => bool_decide (gateway_device g = d)) (gateways p).

Definition with_gateway (d : bytes) (p : NetworkPolicy) : NetworkPolicy :=
  mk_policy (revision p) (managed p) (topology p) (hubs p) (rules p) (groups p) (members p)
    (gateways p ++ [mk_gateway d false]) (routes p).

(** The next policy, or why there is none. *)
Definition proposed_policy (s : Service) (n actor : bytes) (action : ManagementAction) (requested current : NetworkPolicy)
    : result (NetworkPolicy + NetworkResultCode) :=
  if bool_decide (action = request_gateway) then
    if negb (managed current) || bool_decide (policy_role current actor = restricted) then Ok (inr permission_denied)
    else if negb (revision requested =? revision current) then Ok (inr conflict)
    else if gateway_listed current actor then Ok (inr already_exists)
    else if len (gateways current) >=? 16 then Ok (inr limit_reached)
    else Ok (inl (with_gateway actor current))
  else
    let* manager := can_manage_network n actor s in
    Ok (if negb manager then inr permission_denied else inl requested).

Definition check_gateway (db : Db) (n actor : bytes) (action : ManagementAction) (current next : NetworkPolicy) (g : GatewayNode)
    : result (option NetworkResultCode) :=
  let* m := member_or_unset db n (gateway_device g) in
  Ok (if negb m || bool_decide (policy_role next (gateway_device g) = restricted) then Some target_not_found
      else refuse_if (negb (gateway_listed current (gateway_device g)) &&
             (negb (bool_decide (action = request_gateway)) || negb (bool_decide (gateway_device g = actor)) || approved g))
             permission_denied).

Definition check_assignment (db : Db) (n : bytes) (owner : bytes) (a : MemberPolicy) : result (option NetworkResultCode) :=
  let* m := member_or_unset db n (member_device a) in
  let* known := if negb m && bool_decide (role a = restricted)
                then let* d := find_device db (member_device a) in Ok (match d with Some _ => true | None => false end)
                else Ok false in
  Ok (refuse_if ((negb m && negb known) || (bool_decide (member_device a = owner) && negb (bool_decide (role a = NetworkPolicy.member))))
        invalid_request).

(** An administrator who is not the owner changes no role and keeps the network managed. *)
Definition check_roles (current next : NetworkPolicy) : option NetworkResultCode :=
  refuse_if (negb (managed next) ||
    existsb (fun a => negb (bool_decide (role a = policy_role current (member_device a)))) (members next) ||
    existsb (fun a => negb (bool_decide (role a = policy_role next (member_device a)))) (members current)) permission_denied.

(** The routes of the other networks. *)
Definition overlaps_elsewhere (db : Db) (n : bytes) (r : RoutedSubnet) : result (option NetworkResultCode) :=
  first_code (fun other =>
    if bool_decide (nr_id other = n) then Ok None
    else
      let* p := network_policy db (nr_id other) in
      Ok (refuse_if (existsb (fun e => subnets_overlap (address r) (prefix r) (address e) (prefix e)) (routes p))
            conflict)) (RelayStore.list_networks db).

Definition check_route (db : Db) (n : bytes) (subnet : option NetworkSubnetRecord) (r : RoutedSubnet) : result (option NetworkResultCode) :=
  if subnets_overlap (address r) (prefix r) virtual_ipv4_pool_first 10 then Ok (Some conflict)
  else
    let* m := member_or_unset db n (gateway r) in
    if negb m then Ok (Some target_not_found)
    else if match subnet with
            | Some u => subnets_overlap (address r) (prefix r) (sr_address u) (sr_prefix u)
            | None => false
            end then Ok (Some conflict)
    else overlaps_elsewhere db n r.

(** Every check on the next policy, in order. *)
Definition policy_objection (db : Db) (n : bytes) (network : NetworkRecord) (actor : bytes) (action : ManagementAction)
    (requested current next : NetworkPolicy) : result (option NetworkResultCode) :=
  if (negb (bool_decide (action = replace_policy)) && negb (bool_decide (action = request_gateway))) ||
     (bool_decide (topology next = hub_spoke) && bool_decide (hubs next = [])) then Ok (Some invalid_request)
  else
    or_code (first_code (fun hub => let* m := member_or_unset db n hub in Ok (refuse_if (negb m) target_not_found)) (hubs requested)) (
    or_code (first_code (fun r =>
      let* a := member_or_unset db n (subject_device (first r)) in
      if negb a then Ok (Some target_not_found)
      else let* b := member_or_unset db n (subject_device (second r)) in Ok (refuse_if (negb b) target_not_found)) (rules requested)) (
    or_code (first_code (check_gateway db n actor action current next) (gateways next)) (
    or_code (first_code (check_assignment db n (nr_owner network)) (members next)) (
    or_code (Ok (if negb (bool_decide (actor = nr_owner network)) && bool_decide (action = replace_policy)
                 then check_roles current next else None)) (
    let* subnet := find_subnet db n in
    or_code (first_code (check_route db n subnet) (routes next))
      (Ok (refuse_if (negb (revision next =? revision current) || (revision next =? 2 ^ 64 - 1)) conflict))))))).

Definition management_answer (request : ManagementRequest) (c : NetworkResultCode) (pending : list bytes) (events : list AuditEvent)
    (failures : Z) (p : NetworkPolicy) : ManagementResult :=
  mk_management_result (mq_action request) (mq_network_id request) c pending events failures p.

Definition management_kind (a : ManagementAction) : AuditKind :=
  if bool_decide (a = request_gateway) then gateway_request else policy_change.

(** What a manager sees of a network. *)
Definition inspect_network (request : ManagementRequest) (actor : bytes) (now_ms : Z) (p : NetworkPolicy) (s : Service)
    : result ManagementResult :=
  let n := mq_network_id request in
  let* manager := can_manage_network n actor s in
  if (manager : bool) then
    let* requests := list_join_requests_for_network (store_ s) n in
    let* log := audit_events (store_ s) n now_ms 64 in
    Ok (management_answer request success (take (Z.to_nat max_network_peer_entries) (map jr_device requests)) log
          (audit_write_failures_ s) p)
  else Ok (management_answer request success [] [] 0 p).

(** The body of [manage_network] up to the write. *)
Definition manage_network_locked (actor : bytes) (request : ManagementRequest) (now_ms : Z)
    : M (ManagementResult * list RoutedPeerStateChange) :=
  let n := mq_network_id request in
  let action := mq_action request in
  let answer c p := ret (management_answer request c [] [] 0 p, []) in
  let! network := reading (fun db => find_network db n) in
  match network with
  | None => answer not_found default_policy
  | Some network =>
      let! seated := query (fun s =>
        if negb (device_allowed s actor) then Ok false
        else let* lease := find_virtual_ipv4_lease (store_ s) n actor in Ok (match lease with Some _ => true | None => false end)) in
      if negb seated then answer not_member default_policy
      else
        let! current := reading (fun db => network_policy db n) in
        if bool_decide (action = inspect) then
          let! out := query (inspect_network request actor now_ms current) in ret (out, [])
        else
          let! capable := query (fun s => Ok (bool_decide (actor ∈ management_capable_ s))) in
          if negb capable then answer permission_denied current
          else
            let! proposal := query (fun s => proposed_policy s n actor action (mq_policy request) current) in
            match proposal with
            | inr c => answer c current
            | inl next =>
                let! objection := reading (fun db => policy_objection db n network actor action (mq_policy request) current next) in
                match objection with
                | Some c => answer c current
                | None =>
                    let saved_policy := with_revision (revision next + 1) next in
                    let event := mk_audit 0 (now_ms mod 2 ^ 64) n actor actor (management_kind action) success (revision next + 1) in
                    let! saved := changing (fun db => save_network_policy db n saved_policy (revision current) (Some event)) in
                    if negb saved then answer conflict current
                    else
                      advance_key_epoch n ;;
                      let! rev := advance_revision n in
                      let! changes := query (changes_for_members n rev) in
                      ret (management_answer request success [] [] 0 saved_policy, changes)
                end
            end
  end.

(** Denials are audited when the handler returns; it leaves nothing to audit when it throws. *)
Definition manage_network (clock : Z) (actor : bytes) (request : ManagementRequest) (now_ms : Z)
    : M (ManagementResult * list RoutedPeerStateChange) :=
  pure (require_actor_and_time actor now_ms) ;;
  pure (encode_management_request request) ;;
  let! out := manage_network_locked actor request now_ms in
  (if negb (bool_decide (mq_action request = inspect)) && negb (bool_decide (ms_code (fst out) = success))
   then audit_locked clock (management_kind (mq_action request)) actor actor (mq_network_id request) (ms_code (fst out)) now_ms
          (revision (ms_policy (fst out)))
   else ret tt) ;;
  ret out.

(** ** Accounts, passwords and invitation links *)

Section Access.
Context {C : Crypto} {P : PasswordHash}.

Definition AccessOutcome : Type := AccessResult * list RoutedPeerStateChange * list RoutedNetworkEvent.

(** The result with the fields filled in so far. *)
Definition access_answer (request : AccessRequest) (c : NetworkResultCode) (n : bytes) : AccessOutcome :=
  (mk_access_result (ar_action request) c zero_device n [] [] [], [], []).

Definition joined_answer (request : AccessRequest) (n : bytes) (out : NetworkOperationOutcome) : AccessOutcome :=
  (mk_access_result (ar_action request) (code (outcome_result out)) zero_device n [] [] [], peer_changes out, events out).

(** The loop of [device_revoke] over the networks the device was in, and one round of it. *)
Definition expel_from (d : bytes) (network : NetworkRecord) : M (list RoutedPeerStateChange) :=
  let n := nr_id network in
  let! removed := changing (fun db => remove_member db n d) in
  advance_key_epoch n ;;
  let! rev := advance_revision n in
  let! updates := query (changes_for_members n rev) in
  ret (updates ++ [mk_change d None (mk_revocation n rev)]).

Definition expel (d : bytes) (networks : list NetworkRecord) : M (list RoutedPeerStateChange) := collect (expel_from d) networks.

Definition revoke_device (actor : bytes) (request : AccessRequest) : M AccessOutcome :=
  let d := ar_device_id request in
  let! account := reading (fun db => Ok (account_for_device db actor)) in
  let! target := reading (fun db => Ok (account_for_device db d)) in
  match account, target with
  | Some account, Some target =>
      if negb (bool_decide (ac_owner account = actor)) || negb (bool_decide (ac_id target = ac_id account)) || bool_decide (d = actor)
      then ret (access_answer request permission_denied zero_network)
      else
        let! networks := reading (fun db => list_networks_for_device db d) in
        if existsb (fun n => bool_decide (nr_owner n = d)) networks then ret (access_answer request conflict zero_network)
        else
          writing (fun db => Ok (revoke_account_device db (ac_id account) d)) ;;
          let! changes := expel d networks in
          modify (fun s => set_active_keys (delete d (active_keys_ s)) s) ;;
          ret (mk_access_result (ar_action request) success (ac_id account) zero_network [] [] [], changes, [])
  | _, _ => ret (access_answer request permission_denied zero_network)
  end.

Definition create_protected (clock later : Z) (gen : nat -> result bytes) (draw : result bytes) (actor : bytes)
    (request : AccessRequest) (now_ms : Z) : M AccessOutcome :=
  pure (encode_network_create_request (mk_create (ar_text request))) ;;
  let! allowed := allow_access_attempt clock actor zero_network in
  if negb allowed then ret (access_answer request limit_reached zero_network)
  else
    let! verifier := pure (protect_password draw (ar_secret request) (ar_require_approval request)) in
    let! created := create_network_locked later gen actor (ar_text request) now_ms (Some verifier) in
    ret (joined_answer request (result_network_id (outcome_result created)) created).

(** The three requests about invitation links. *)
Definition invitation_request (clock later : Z) (draw : result bytes) (actor : bytes) (request : AccessRequest) (now_ms : Z)
    : M AccessOutcome :=
  let n := ar_network_id request in
  let answer c := ret (access_answer request c n) in
  let! allowed := allow_access_attempt clock actor n in
  if negb allowed then answer limit_reached
  else
    let! network := reading (fun db => find_network db n) in
    if negb (bool_decide (ar_action request = act_invite_redeem)) then
      let! manager := query (fun s => match network with None => Ok false | Some _ => can_manage_network n actor s end) in
      if negb manager then answer permission_denied
      else if bool_decide (ar_action request = act_invite_revoke) then
        writing (fun db => Ok (revoke_invite_links db n)) ;; answer success
      else if (lifetime_seconds request <? 60) || (lifetime_seconds request >? 86400) || (max_uses request =? 0) ||
              (max_uses request >? 100) then answer invalid_request
      else
        let! secret := pure (random_access_code draw) in
        let! digest := pure (access_digest secret) in
        writing (fun db => issue_invite_link db n digest now_ms (now_ms + lifetime_seconds request * 1000) (max_uses request)) ;;
        let! link := pure (make_invite_link n secret) in
        let! text := pure (make_invite_code n secret) in
        ret (mk_access_result (ar_action request) success zero_device n text link [], [], [])
    else if match network with None => true | Some _ => false end || negb (len (ar_secret request) =? 40) then answer permission_denied
    else
      let! lease := reading (fun db => find_virtual_ipv4_lease db n actor) in
      match lease with
      | Some _ => answer already_exists
      | None =>
          let! full := reading (fun db =>
            let* full := network_limit_reached db actor in
            if (full : bool) then Ok true
            else let* members := list_members db n in Ok (len members >=? max_network_peer_entries + 1)) in
          if (full : bool) then answer limit_reached
          else
            let! digest := pure (access_digest (ar_secret request)) in
            let! redeemed := changing (fun db => redeem_invite_link db n digest actor now_ms) in
            if negb redeemed then answer permission_denied
            else
              let! joined := join_network_locked later actor n now_ms false in
              ret (joined_answer request n joined)
      end.

Definition empty_verifier : PasswordVerifier := mk_verifier zero_device zero_device false.

(** Setting a password and joining with one. *)
Definition password_request (clock later : Z) (draw : result bytes) (actor : bytes) (request : AccessRequest) (now_ms : Z)
    : M AccessOutcome :=
  let n := ar_network_id request in
  let answer c := ret (access_answer request c n) in
  let! allowed := allow_access_attempt clock actor n in
  if negb allowed then answer limit_reached
  else
    let! network := reading (fun db => find_network db n) in
    if bool_decide (ar_action request = act_password_set) then
      let! manager := query (fun s => match network with None => Ok false | Some _ => can_manage_network n actor s end) in
      if negb manager then answer permission_denied
      else if bool_decide (ar_secret request = []) then
        writing (fun db => set_network_password db n None) ;; answer success
      else
        let! verifier := pure (protect_password draw (ar_secret request) (ar_require_approval request)) in
        writing (fun db => set_network_password db n (Some verifier)) ;; answer success
    else
      let! verifier := reading (fun db => Ok (network_password db n)) in
      let! matches := pure (password_matches (ar_secret request) (default empty_verifier verifier)) in
      match network, verifier with
      | Some _, Some _ =>
          if negb matches then answer permission_denied
          else
            let! joined := join_network_locked later actor n now_ms true in
            ret (joined_answer request n joined)
      | _, _ => answer permission_denied
      end.

(** What an account request answers at its end. *)
Definition account_answer (request : AccessRequest) (secret : bytes) (account : option AccountRecord) : M AccessOutcome :=
  match account with
  | Some a =>
      let! devices := reading (fun db => Ok (account_devices db (ac_id a))) in
      ret (mk_access_result (ar_action request) success (ac_id a) zero_network (ac_name a) secret devices, [], [])
  | None => ret (mk_access_result (ar_action request) not_found zero_device zero_network [] secret [], [], [])
  end.

Definition account_request (draw : result bytes) (actor : bytes) (request : AccessRequest) (now_ms : Z) : M AccessOutcome :=
  let answer c := ret (access_answer request c zero_network) in
  let! account := reading (fun db => Ok (account_for_device db actor)) in
  match ar_action request with
  | act_account_create =>
      if match account with Some _ => true | None => false end then answer already_exists
      else if bool_decide (ar_text request = []) then answer invalid_request
      else
        let! id := pure draw in
        writing (fun db => create_account db (mk_account id actor (ar_text request)) now_ms) ;;
        let! account := reading (fun db => Ok (account_for_device db actor)) in
        account_answer request [] account
  | act_account_status => account_answer request [] account
  | act_enrollment_issue =>
      match account with
      | Some a =>
          if negb (bool_decide (ac_owner a = actor)) then answer permission_denied
          else
            let! secret := pure (random_access_code draw) in
            let! digest := pure (access_digest secret) in
            writing (fun db => issue_enrollment db (ac_id a) digest (now_ms + 300000)) ;;
            account_answer request secret account
      | None => answer permission_denied
      end
  | act_device_enroll =>
      let! enrolled :=
        if negb (len (ar_secret request) =? 40) then ret false
        else
          let! digest := pure (access_digest (ar_secret request)) in
          changing (fun db => enroll_device db digest actor (ar_text request) now_ms) in
      if negb enrolled then answer permission_denied
      else
        let! account := reading (fun db => Ok (account_for_device db actor)) in
        account_answer request [] account
  | _ => answer invalid_request
  end.

Definition access_request_locked (clock later : Z) (gen : nat -> result bytes) (draw : result bytes) (actor : bytes)
    (request : AccessRequest) (now_ms : Z) : M AccessOutcome :=
  let! allowed := query (fun s => Ok (device_allowed s actor)) in
  if negb allowed then ret (access_answer request permission_denied zero_network)
  else
    writing (fun db => record_device db actor now_ms) ;;
    if bool_decide (ar_action request = act_device_revoke) then revoke_device actor request
    else if bool_decide (ar_action request = act_network_create_protected)
    then create_protected clock later gen draw actor request now_ms
    else if action_value (ar_action request) >=? 8 then invitation_request clock later draw actor request now_ms
    else if bool_decide (ar_action request = act_password_set) || bool_decide (ar_action request = act_password_join)
    then password_request clock later draw actor request now_ms
    else account_request draw actor request now_ms.

Definition access_kind (a : AccessAction) : option AuditKind :=
  match a with
  | act_account_create => Some account_create | act_enrollment_issue => Some enrollment_issue
  | act_device_enroll => Some device_enroll | act_device_revoke => Some device_revoke
  | act_password_set => Some password_change | act_invite_issue => Some invite_issue | act_invite_revoke => Some invite_revoke
  | _ => None
  end.

(** The destructor of [AuditAtExit]: it runs when the handler returns and when it throws, and
    a handler that throws has not set the result code, which is then [success]. *)
Definition audited_at_exit (later : Z) (actor : bytes) (request : AccessRequest) (now_ms : Z) (m : M AccessOutcome) : M AccessOutcome :=
  fun s =>
    let '(r, s) := m s in
    let c := match r with Ok (out, _, _) => as_code out | Throw _ => success end in
    match access_kind (ar_action request) with
    | None => (r, s)
    | Some k =>
        let target := if bool_decide (ar_device_id request = zero_device) then actor else ar_device_id request in
        (r, snd (audit_locked later k actor target (ar_network_id request) c now_ms 0 s))
    end.

Definition access_request (clock later : Z) (gen : nat -> result bytes) (draw : result bytes) (actor : bytes)
    (request : AccessRequest) (now_ms : Z) : M AccessOutcome :=
  pure (require_actor_and_time actor now_ms) ;;
  pure (encode_access_request request) ;;
  audited_at_exit later actor request now_ms (access_request_locked clock later gen draw actor request now_ms).
End Access.
