(* ===== verification/ServiceSafety.v ===== *)
(** * Safety of the network service

    Theorems about [NetworkService]: the database stays consistent, who can change the
    members of a network, what a membership change does to the key epoch, who receives a
    routed packet, and what peer states the relay hands out. *)
From stdpp Require Import sorting.
From S2P Require Import Prelude Wire Ipv4 NetworkPolicy NetworkMessages PacketMessages Crypto.
From S2P Require Import AuditEvent RelayStore StoreInvariant Double ForwardingQuota Candidates NetworkService.
From S2P Require Import UserAccess NetworkManagement JoinTarget ServiceAccess.

Create HintDb service discriminated.

(** Revisions and key epochs only grow, and recorded epochs are positive. *)
Definition counters_grow (s s' : Service) : Prop :=
  (forall n, default 0 (revisions_ s !! n) <= default 0 (revisions_ s' !! n)) /\
  (forall n, default 0 (key_epochs_ s !! n) <= default 0 (key_epochs_ s' !! n)) /\
  ((forall n e, key_epochs_ s !! n = Some e -> 0 < e) -> forall n e, key_epochs_ s' !! n = Some e -> 0 < e).

Lemma counters_same s s' : revisions_ s' = revisions_ s -> key_epochs_ s' = key_epochs_ s -> counters_grow s s'.
Proof. intros E1 E2. unfold counters_grow. rewrite E1, E2. split; [done|]. split; [done|]. auto. Qed.

(** ** What handlers preserve *)

(** A relation between services that the steps common to the handlers respect: reflexive,
    transitive, and true of recording a device, auditing, and advancing a revision or a key
    epoch. *)
Class Tolerant (R : Service -> Service -> Prop) : Prop := {
  tolerant_pre :: PreOrder R;
  tolerant_record s d t db : record_device (store_ s) d t = Ok db -> R s (set_store db s);
  tolerant_audit s e db : append_audit (store_ s) e = Ok db -> R s (set_store db s);
  tolerant_denials s x y : R s (set_denials x y s);
  tolerant_revision s n : R s (set_revisions (<[n := default 0 (revisions_ s !! n) + 1]> (revisions_ s)) s);
  tolerant_epoch s n : R s (set_key_epochs (<[n := default 0 (key_epochs_ s !! n) + 1]> (key_epochs_ s)) s) }.

(** One that any handler respects: also true of every store operation and blind to keys,
    capabilities, buckets, windows and quotas. *)
Class Permissive (R : Service -> Service -> Prop) : Prop := {
  permissive_tolerant :: Tolerant R;
  permissive_store s db : store_step (store_ s) db -> R s (set_store db s);
  permissive_other s s' : store_ s' = store_ s -> revisions_ s' = revisions_ s -> key_epochs_ s' = key_epochs_ s -> R s s' }.

(** One that counting an access attempt respects. *)
Class Counting (R : Service -> Service -> Prop) : Prop :=
  counting clock actor n s : R s (snd (allow_access_attempt clock actor n s)).

Lemma counting_frame (R : Service -> Service -> Prop) : (forall s x, R s (set_attempts x s)) -> Counting R.
Proof.
  intros H clock actor n s. unfold allow_access_attempt. cbv zeta. destruct (_ >? _); [apply H|].
  destruct (claim_windows _ _ _) as [[] m]; apply H.
Qed.

Definition keeps {A} (R : Service -> Service -> Prop) (m : M A) : Prop := forall s, R s (snd (m s)).

Section Keeps.
Context (R : Service -> Service -> Prop) {T : Tolerant R}.

Lemma keeps_ret {A} (a : A) : keeps R (ret a).
Proof. by intros s. Qed.
Lemma keeps_throw {A} e : keeps R (@throw A e).
Proof. by intros s. Qed.
Lemma keeps_pure {A} (r : result A) : keeps R (pure r).
Proof. by intros s. Qed.
Lemma keeps_query {A} (f : Service -> result A) : keeps R (query f).
Proof. by intros s. Qed.
Lemma keeps_reading {A} (f : Db -> result A) : keeps R (reading f).
Proof. by intros s. Qed.
Lemma keeps_modify f : (forall s, R s (f s)) -> keeps R (modify f).
Proof. intros H s. apply H. Qed.
Lemma keeps_bind {A B} (m : M A) (k : A -> M B) : keeps R m -> (forall a, keeps R (k a)) -> keeps R (bind m k).
Proof.
  intros Hm Hk s. unfold bind. specialize (Hm s). destruct (m s) as [[a|e] s']; cbn in *; [|done].
  etransitivity; [exact Hm|apply Hk].
Qed.
Lemma keeps_writing f : (forall s db, f (store_ s) = Ok db -> R s (set_store db s)) -> keeps R (writing f).
Proof. intros H s. unfold writing. destruct (f (store_ s)) eqn:E; cbn; [by apply H|done]. Qed.
Lemma keeps_changing f : (forall s b db, f (store_ s) = Ok (b, db) -> R s (set_store db s)) -> keeps R (changing f).
Proof. intros H s. unfold changing. destruct (f (store_ s)) as [[b db]|] eqn:E; cbn; [by eapply H|done]. Qed.
Lemma keeps_catch {A} (m : M A) h : keeps R m -> (forall e, keeps R (h e)) -> keeps R (catch m h).
Proof.
  intros Hm Hh s. unfold catch. specialize (Hm s). destruct (m s) as [[a|e] s']; cbn in *; [done|].
  etransitivity; [exact Hm|apply Hh].
Qed.
Lemma keeps_collect {A B} (f : A -> M (list B)) l : (forall a, keeps R (f a)) -> keeps R (collect f l).
Proof.
  intros H. induction l as [|a l IH]; cbn [collect]; [apply keeps_ret|].
  apply keeps_bind; [apply H|]. intros ys. apply keeps_bind; [apply IH|]. intros zs. apply keeps_ret.
Qed.
Lemma keeps_attempt (m : M unit) : keeps R m -> keeps R (fun s => let '(r, s') := m s in (Ok r, s')).
Proof. intros H s. specialize (H s). by destruct (m s). Qed.

Lemma keeps_advance_revision n : keeps R (advance_revision n).
Proof. intros s. unfold advance_revision. destruct (_ =? _); [done|apply tolerant_revision]. Qed.
Lemma keeps_advance_key_epoch n : keeps R (advance_key_epoch n).
Proof. intros s. unfold advance_key_epoch. destruct (_ =? _); [done|apply tolerant_epoch]. Qed.
Lemma keeps_record_device d t : keeps R (writing (fun db => record_device db d t)).
Proof. apply keeps_writing. intros. by eapply tolerant_record. Qed.

Lemma keeps_audit_locked clock k actor target n c now_ms revision :
  keeps R (audit_locked clock k actor target n c now_ms revision).
Proof.
  intros s. unfold audit_locked.
  assert (W : forall s', R s' (snd (
    match append_audit (store_ s') (mk_audit 0 (now_ms mod 2 ^ 64) n actor target k c revision) with
    | Ok db => (Ok tt, set_store db s')
    | Throw _ => (Ok tt, set_denials (audit_denials_ s') ((audit_write_failures_ s' + 1) mod 2 ^ 64) s')
    end))).
  { intros s'. destruct (append_audit _ _) eqn:A; [by eapply tolerant_audit|apply tolerant_denials]. }
  destruct (_ && _); [|apply W].
  match goal with |- context [match ?d !! actor with _ => _ end] => destruct (d !! actor) end.
  - destruct (_ <? _); [apply tolerant_denials|]. etransitivity; [apply tolerant_denials|apply W].
  - destruct (_ >=? _); [apply tolerant_denials|]. etransitivity; [apply tolerant_denials|apply W].
Qed.

Lemma keeps_allow {K : Counting R} clock actor n : keeps R (allow_access_attempt clock actor n).
Proof. exact (K clock actor n). Qed.

Lemma keeps_at_exit later actor request now_ms m : keeps R m -> keeps R (audited_at_exit later actor request now_ms m).
Proof.
  intros H s. unfold audited_at_exit. specialize (H s). destruct (m s) as [r s']. cbn in *.
  destruct (access_kind _); [|exact H]. etransitivity; [exact H|apply keeps_audit_locked].
Qed.

Lemma keeps_audited clock actor now_ms out : keeps R (audited clock actor now_ms out).
Proof.
  unfold audited, audit_network_outcome. apply keeps_bind; [|intros; apply keeps_ret].
  destruct (audit_kind_of _); [apply keeps_audit_locked|apply keeps_ret].
Qed.
End Keeps.

#[export] Hint Resolve keeps_ret keeps_throw keeps_pure keeps_query keeps_reading keeps_advance_revision
  keeps_advance_key_epoch keeps_record_device keeps_audited keeps_audit_locked keeps_allow : service.

(** Decomposes a handler along its binds and branches. *)
Ltac steps :=
  repeat (cbv zeta;
    match goal with
    | |- forall _, _ => intros
    | |- keeps _ (bind _ _) => apply keeps_bind; [exact _|..]
    | |- keeps _ (catch _ _) => apply keeps_catch; [exact _|..]
    | |- keeps _ (collect _ _) => apply keeps_collect; [exact _|..]
    | |- keeps _ (modify _) => apply keeps_modify; intros; solve [reflexivity | by apply permissive_other | exact (fun H => H)]
    | |- keeps _ (match ?x with _ => _ end) => destruct x
    | |- keeps _ (fun s => let '(r, s') := _ s in (Ok r, s')) => apply keeps_attempt
    | |- keeps _ _ => solve [eauto with service typeclass_instances nocore]
    end).

Lemma keeps_announce_members R {T : Tolerant R} clock actor now_ms op n ev extra :
  keeps R (announce_members clock actor now_ms op n ev extra).
Proof. unfold announce_members. steps. Qed.
Lemma keeps_announce_key R {T : Tolerant R} actor l : keeps R (announce_key actor l).
Proof. unfold announce_key. steps. Qed.
#[export] Hint Resolve keeps_announce_members keeps_announce_key : service.

(** The store operations the handlers run. *)
Section Writes.
Context (R : Service -> Service -> Prop) {P : Permissive R}.
Lemma keeps_add_member n d t : keeps R (changing (fun db => add_member db n d t)).
Proof. apply keeps_changing; [exact _|]. intros. by eapply permissive_store, st_add_member. Qed.
Lemma keeps_remove_member n d : keeps R (changing (fun db => remove_member db n d)).
Proof. apply keeps_changing; [exact _|]. intros. by eapply permissive_store, st_remove_member. Qed.
Lemma keeps_add_join_request n d t : keeps R (changing (fun db => add_join_request db n d t)).
Proof. apply keeps_changing; [exact _|]. intros. by eapply permissive_store, st_add_join_request. Qed.
Lemma keeps_add_invitation n d t : keeps R (changing (fun db => add_invitation db n d t)).
Proof. apply keeps_changing; [exact _|]. intros. by eapply permissive_store, st_add_invitation. Qed.
Lemma keeps_create_network w p : keeps R (writing (fun db => RelayStore.create_network db w p)).
Proof. apply keeps_writing; [exact _|]. intros. by eapply permissive_store, st_create_network. Qed.
Lemma keeps_save_policy n p e a : keeps R (changing (fun db => save_network_policy db n p e a)).
Proof. apply keeps_changing; [exact _|]. intros. by eapply permissive_store, st_save_network_policy. Qed.
Lemma keeps_redeem n g a t : keeps R (changing (fun db => redeem_invite_link db n g a t)).
Proof. apply keeps_changing; [exact _|]. intros. by eapply permissive_store, st_redeem_invite_link. Qed.
Lemma keeps_enroll g d l t : keeps R (changing (fun db => enroll_device db g d l t)).
Proof. apply keeps_changing; [exact _|]. intros. by eapply permissive_store, st_enroll_device. Qed.
Lemma keeps_issue_link n g t e u : keeps R (writing (fun db => issue_invite_link db n g t e u)).
Proof. apply keeps_writing; [exact _|]. intros. by eapply permissive_store, st_issue_invite_link. Qed.
Lemma keeps_revoke_links n : keeps R (writing (fun db => Ok (revoke_invite_links db n))).
Proof. apply keeps_writing; [exact _|]. intros s db H. apply Ok_inj in H as <-. apply permissive_store, st_revoke_invite_links. Qed.
Lemma keeps_set_password n p : keeps R (writing (fun db => set_network_password db n p)).
Proof. apply keeps_writing; [exact _|]. intros. by eapply permissive_store, st_set_network_password. Qed.
Lemma keeps_create_account a t : keeps R (writing (fun db => create_account db a t)).
Proof. apply keeps_writing; [exact _|]. intros. by eapply permissive_store, st_create_account. Qed.
Lemma keeps_issue_enrollment a g e : keeps R (writing (fun db => issue_enrollment db a g e)).
Proof. apply keeps_writing; [exact _|]. intros. by eapply permissive_store, st_issue_enrollment. Qed.
Lemma keeps_revoke_account a d : keeps R (writing (fun db => Ok (revoke_account_device db a d))).
Proof. apply keeps_writing; [exact _|]. intros s db H. apply Ok_inj in H as <-. apply permissive_store, st_revoke_account_device. Qed.
End Writes.
#[export] Hint Resolve keeps_add_member keeps_remove_member keeps_add_join_request keeps_add_invitation
  keeps_create_network keeps_save_policy keeps_redeem keeps_enroll keeps_issue_link keeps_revoke_links keeps_set_password
  keeps_create_account keeps_issue_enrollment keeps_revoke_account : service.

(** Handlers reach a database through store operations. *)
Definition via_store (s s' : Service) : Prop := rtc store_step (store_ s) (store_ s').

#[export] Instance via_store_tolerant : Tolerant via_store.
Proof.
  unfold via_store. constructor; try done.
  - split; [by intros s|intros a b c H1 H2; by etransitivity].
  - intros. by eapply rtc_once, st_record_device.
  - intros. by eapply rtc_once, st_append_audit.
Qed.

#[export] Instance via_store_counting : Counting via_store.
Proof. apply counting_frame. intros s x. apply rtc_refl. Qed.
#[export] Instance via_store_permissive : Permissive via_store.
Proof.
  constructor; [exact _|intros; by apply rtc_once|]. intros s s' E _ _. unfold via_store. by rewrite E.
Qed.

(** Handlers that do not manage members leave them alone. *)
Definition same_members (s s' : Service) : Prop := db_memberships (store_ s') = db_memberships (store_ s).

#[export] Instance same_members_tolerant : Tolerant same_members.
Proof.
  unfold same_members. constructor; try done.
  - split; [by intros a|intros a b c H1 H2; congruence].
  - unfold record_device. intros s d t db H. ok_inv H. by subst.
  - unfold append_audit, append_audit_locked. intros s e db H. ok_inv H. by subst.
Qed.

#[export] Instance same_members_counting : Counting same_members.
Proof. by apply counting_frame. Qed.

(** Only routing and the end of a session touch the fan-out windows. *)
Definition same_windows (s s' : Service) : Prop := fanout_replay_ s' = fanout_replay_ s.

#[export] Instance same_windows_tolerant : Tolerant same_windows.
Proof. unfold same_windows. constructor; try done. split; [by intros a|intros a b c H1 H2; congruence]. Qed.

#[export] Instance same_windows_counting : Counting same_windows.
Proof. by apply counting_frame. Qed.

Lemma windows_changing f : keeps same_windows (changing f).
Proof. apply keeps_changing; [exact _|done]. Qed.
Lemma windows_writing f : keeps same_windows (writing f).
Proof. apply keeps_writing; [exact _|done]. Qed.
#[export] Hint Resolve windows_changing windows_writing : service.

Lemma lookup_advanced (m : gmap bytes Z) n n' :
  default 0 (<[n := default 0 (m !! n) + 1]> m !! n') = default 0 (m !! n') + (if bool_decide (n = n') then 1 else 0).
Proof.
  destruct (decide (n = n')) as [<-|Ne].
  - by rewrite lookup_insert_eq, bool_decide_eq_true_2.
  - rewrite lookup_insert_ne, bool_decide_eq_false_2 by done. lia.
Qed.

#[export] Instance counters_grow_tolerant : Tolerant counters_grow.
Proof.
  constructor; try (intros; by apply counters_same).
  - split; [intros s; by apply counters_same|]. intros a b c (H1 & H2 & H3) (G1 & G2 & G3). split; [|split; [|intros P; apply G3, H3, P]].
    + intros n. specialize (H1 n). specialize (G1 n). lia.
    + intros n. specialize (H2 n). specialize (G2 n). lia.
  - intros s n. split; [|split; [done|by intros P]]. intros n'. cbn. rewrite lookup_advanced. destruct (bool_decide _); lia.
  - intros s n. split; [done|]. split.
    + intros n'. cbn. rewrite lookup_advanced. destruct (bool_decide _); lia.
    + intros P n' e. cbn. rewrite lookup_insert_Some. intros [[_ <-]|[_ H]]; [|by eapply P].
      destruct (key_epochs_ s !! n) eqn:E; cbn; [apply P in E|]; lia.
Qed.

#[export] Instance counters_grow_counting : Counting counters_grow.
Proof. apply counting_frame. intros. by apply counters_same. Qed.
#[export] Instance counters_grow_permissive : Permissive counters_grow.
Proof. constructor; [exact _|intros; by apply counters_same|]. intros s s' _ E1 E2. by apply counters_same. Qed.

(** ** Requests *)

Inductive Request :=
| rq_record (actor : bytes) (now_ms : Z)
| rq_publish_key (actor session_id : bytes) (key : SignedDeviceKey) (now_ms : Z)
| rq_remove_key (actor session_id : bytes)
| rq_capable (actor : bytes) (capable : bool)
| rq_route (actor : bytes) (p : EncryptedNetworkPacket)
| rq_create (actor : bytes) (request : NetworkCreateRequest) (now_ms : Z)
| rq_list (actor : bytes) (now_ms : Z)
| rq_join (actor : bytes) (request : NetworkSelectionRequest) (now_ms : Z)
| rq_leave (actor : bytes) (request : NetworkSelectionRequest) (now_ms : Z)
| rq_invite (actor : bytes) (request : NetworkMemberRequest) (now_ms : Z)
| rq_approve (actor : bytes) (request : NetworkMemberRequest) (now_ms : Z)
| rq_kick (actor : bytes) (request : NetworkMemberRequest) (now_ms : Z)
| rq_peer_state (actor : bytes) (request : NetworkSelectionRequest) (now_ms : Z)
| rq_limits (limits : ForwardingLimits)
| rq_control (actor : bytes)
| rq_manage (actor : bytes) (request : ManagementRequest) (now_ms : Z)
| rq_access (actor : bytes) (request : AccessRequest) (now_ms later : Z) (draw : result bytes).

Section Service.
Context {C : Crypto} {Pw : PasswordHash}.

(** The service after one request, whether the handler returned or threw. *)
Definition serve (clock : Z) (gen : nat -> result bytes) (r : Request) (s : Service) : Service :=
  match r with
  | rq_record a t => snd (record_authenticated_device a t s)
  | rq_publish_key a i k t => snd (publish_device_key a i k t s)
  | rq_remove_key a i => snd (remove_device_key a i s)
  | rq_capable a b => snd (set_management_capable a b s)
  | rq_route a p => snd (route_encrypted_packet clock a p s)
  | rq_create a q t => snd (create_network clock gen a q t s)
  | rq_list a t => snd (list_networks a t s)
  | rq_join a q t => snd (join_network clock a q t s)
  | rq_leave a q t => snd (leave_network clock a q t s)
  | rq_invite a q t => snd (invite_member clock a q t s)
  | rq_approve a q t => snd (approve_member clock a q t s)
  | rq_kick a q t => snd (kick_member clock a q t s)
  | rq_peer_state a q t => snd (peer_state a q t s)
  | rq_limits l => snd (set_forwarding_limits l s)
  | rq_control a => snd (admit_control clock a s)
  | rq_manage a q t => snd (manage_network clock a q t s)
  | rq_access a q t later draw => snd (access_request clock later gen draw a q t s)
  end.

Inductive service_reachable : Service -> Prop :=
| sr_start db : store_reachable db -> service_reachable (fresh_service db)
| sr_serve s clock gen r : service_reachable s -> service_reachable (serve clock gen r s).

Lemma keeps_create_attempts R {Pm : Permissive R} clock gen k actor name now_ms password :
  keeps R (create_attempts clock gen k actor name now_ms password).
Proof. induction k as [|k IH]; cbn [create_attempts]; steps. Qed.

(** Routing does not write to the database and changes neither keys nor epochs. *)
Definition routing_frame (s s' : Service) : Prop :=
  store_ s' = store_ s /\ key_epochs_ s' = key_epochs_ s /\ active_keys_ s' = active_keys_ s /\
  management_capable_ s' = management_capable_ s /\ revisions_ s' = revisions_ s.

Lemma forward_fanout_frame clock actor p replay l s : routing_frame s (snd (forward_fanout clock actor p replay l s)).
Proof.
  unfold forward_fanout. destruct (_ || _); [done|]. destruct (encode_forwarded_network_packet _); [|done].
  destruct (quota_admit _ _ _ _ _ _) as [[|] q]; done.
Qed.

Lemma route_fanout_frame clock actor p own l s : routing_frame s (snd (route_fanout clock actor p own l s)).
Proof.
  unfold route_fanout. destruct (_ >? _); [done|]. cbv zeta. destruct (replayed _ _); [done|].
  destruct (fanout_recipients _ _ _ _) as [[|d ds]|]; [done| |done].
  match goal with |- routing_frame _ (snd (forward_fanout ?c ?a ?p ?r ?ds ?s')) =>
    destruct (forward_fanout_frame c a p r ds s') as (? & ? & ? & ? & ?) end. done.
Qed.

Lemma route_unicast_frame clock actor p l s : routing_frame s (snd (route_unicast clock actor p l s)).
Proof.
  unfold route_unicast. destruct (List.find _ _) as [x|]; [|done]. destruct (negb _); [done|].
  destruct (traffic_allowed _ _ _ _ _) as [[|]|]; [|done..]. destruct (encode_forwarded_network_packet _); [|done].
  by destruct (quota_admit _ _ _ _ _ _).
Qed.

Lemma route_frame clock actor p s : routing_frame s (snd (route_encrypted_packet clock actor p s)).
Proof.
  unfold route_encrypted_packet, reading, query, pure, ret, bind. destruct (negb _); [done|].
  destruct (encode_encrypted_network_packet p); [|done]. destruct (find_network _ _) as [[w|]|]; [|done..].
  destruct (if key_epoch p =? _ then _ else None) as [own|]; [|done].
  destruct (find_virtual_ipv4_lease _ _ _) as [[l|]|]; [|done..]. destruct (_ =? _); [done|].
  destruct (find_subnet _ _) as [[w'|]|]; [|done..]. destruct (list_virtual_ipv4_leases _ _); [|done].
  destruct (is_ipv4_fanout_destination _ _ _); [apply route_fanout_frame|apply route_unicast_frame].
Qed.

Lemma keeps_create_locked R {Pm : Permissive R} clock gen actor name now_ms password :
  keeps R (create_network_locked clock gen actor name now_ms password).
Proof. unfold create_network_locked, guarded_limit. steps. apply keeps_create_attempts, _. Qed.
Lemma keeps_join_locked R {Pm : Permissive R} clock actor n now_ms cred : keeps R (join_network_locked clock actor n now_ms cred).
Proof. unfold join_network_locked, guarded_limit. steps. Qed.
#[local] Hint Resolve keeps_create_locked keeps_join_locked : service.

Lemma keeps_manage R {Pm : Permissive R} clock actor request now_ms : keeps R (manage_network clock actor request now_ms).
Proof. unfold manage_network, manage_network_locked. steps. Qed.

Lemma keeps_access R {Pm : Permissive R} {K : Counting R} clock later gen draw actor request now_ms :
  keeps R (access_request clock later gen draw actor request now_ms).
Proof.
  unfold access_request. apply keeps_bind; [exact _|steps|]. intros _. apply keeps_bind; [exact _|steps|]. intros _.
  apply keeps_at_exit; [exact _|]. unfold access_request_locked, revoke_device, expel, expel_from, create_protected, invitation_request,
    password_request, account_request, account_answer. steps.
Qed.

(** Every request respects a permissive relation. *)
Lemma serve_keeps R {Pm : Permissive R} {K : Counting R} clock gen r s : R s (serve clock gen r s).
Proof.
  assert (G : forall A (m : M A), keeps R m -> R s (snd (m s))) by (intros A m H; apply H).
  destruct r; cbn [serve].
  - apply G. unfold record_authenticated_device. steps.
  - apply G. unfold publish_device_key. steps.
  - unfold remove_device_key. destruct (active_keys_ s !! actor); [|done]. destruct (negb _); [done|]. apply G. steps.
  - apply G. unfold set_management_capable. steps.
  - destruct (route_frame clock actor p s) as (E1 & E2 & _ & _ & E3). by apply permissive_other.
  - apply G. unfold create_network. steps.
  - apply G. unfold list_networks. steps.
  - apply G. unfold join_network. steps.
  - apply G. unfold leave_network, guarded. steps.
  - apply G. unfold invite_member, managing, guarded. steps.
  - apply G. unfold approve_member, managing, guarded_limit. steps.
  - apply G. unfold kick_member, managing, guarded. steps.
  - apply G. unfold peer_state. steps.
  - unfold set_forwarding_limits. destruct (configure _ _); [by apply permissive_other|done].
  - unfold admit_control. destruct (control _ _ _). by apply permissive_other.
  - apply G, keeps_manage, _.
  - apply G. apply keeps_access; exact _.
Qed.

Lemma service_db_ok s : service_reachable s -> store_reachable (store_ s).
Proof.
  induction 1 as [db H|s clock gen r _ IH]; [exact H|]. unfold store_reachable in *.
  etransitivity; [exact IH|exact (serve_keeps via_store clock gen r s)].
Qed.

(** ** Running handlers *)

Lemma run_pure {A B} (r : result A) (k : A -> M B) s :
  bind (pure r) k s = match r with Ok a => k a s | Throw e => (Throw e, s) end.
Proof. by destruct r. Qed.
Lemma run_query {A B} (f : Service -> result A) (k : A -> M B) s :
  bind (query f) k s = match f s with Ok a => k a s | Throw e => (Throw e, s) end.
Proof. unfold bind, query. by destruct (f s). Qed.
Lemma run_reading {A B} (f : Db -> result A) (k : A -> M B) s :
  bind (reading f) k s = match f (store_ s) with Ok a => k a s | Throw e => (Throw e, s) end.
Proof. exact (run_query (fun s => f (store_ s)) k s). Qed.
Lemma run_modify {B} f (k : unit -> M B) s : bind (modify f) k s = k tt (f s).
Proof. done. Qed.
Lemma run_writing {B} f (k : unit -> M B) s :
  bind (writing f) k s = match f (store_ s) with Ok db => k tt (set_store db s) | Throw e => (Throw e, s) end.
Proof. unfold bind, writing. by destruct (f (store_ s)). Qed.
Lemma run_changing {B} f (k : bool -> M B) s :
  bind (changing f) k s = match f (store_ s) with Ok (b, db) => k b (set_store db s) | Throw e => (Throw e, s) end.
Proof. unfold bind, changing. by destruct (f (store_ s)) as [[b db]|]. Qed.

Lemma snd_guarded op n m s : snd (guarded op n m s) = snd (m s).
Proof. unfold guarded, catch. by destruct (m s) as [[]]. Qed.
Lemma snd_guarded_limit op n m s : snd (guarded_limit op n m s) = snd (m s).
Proof. unfold guarded_limit, catch. by destruct (m s) as [[]]. Qed.

(** Everything but the audit log and its counters is as before. *)
Definition audit_frame (s s' : Service) : Prop :=
  (exists rows k, store_ s' = set_audit rows k (store_ s)) /\ key_epochs_ s' = key_epochs_ s /\
  revisions_ s' = revisions_ s /\ active_keys_ s' = active_keys_ s /\ management_capable_ s' = management_capable_ s.

Lemma audit_frame_refl s : audit_frame s s.
Proof. split; [|done]. exists (db_audit (store_ s)), (db_audit_sequence (store_ s)). by destruct (store_ s). Qed.

Lemma audit_locked_frame clock k actor target n c now_ms revision s :
  fst (audit_locked clock k actor target n c now_ms revision s) = Ok tt /\
  audit_frame s (snd (audit_locked clock k actor target n c now_ms revision s)).
Proof.
  unfold audit_locked.
  set (write := fun s' => match append_audit (store_ s') (mk_audit 0 (now_ms mod 2 ^ 64) n actor target k c revision) with
    | Ok db => (Ok tt, set_store db s')
    | Throw _ => (Ok tt, set_denials (audit_denials_ s') ((audit_write_failures_ s' + 1) mod 2 ^ 64) s')
    end).
  assert (W : forall x y, fst (write (set_denials x y s)) = Ok tt /\ audit_frame s (snd (write (set_denials x y s)))).
  { intros x y. unfold write, append_audit, append_audit_locked. cbn [store_ set_denials].
    destruct (encode_audit_event _); cbn; (split; [done|]); [|by destruct (audit_frame_refl s)].
    split; [|done]. by eexists _, _. }
  assert (Ws : s = set_denials (audit_denials_ s) (audit_write_failures_ s) s) by (by destruct s).
  assert (D : forall x y, audit_frame s (set_denials x y s)) by (intros; by destruct (audit_frame_refl s)).
  destruct (_ && _).
  - match goal with |- context [match ?d !! actor with _ => _ end] => destruct (d !! actor) end.
    + destruct (_ <? _); [split; [done|apply D]|apply W].
    + destruct (_ >=? _); [split; [done|apply D]|apply W].
  - change (fst (write s) = Ok tt /\ audit_frame s (snd (write s))). rewrite Ws at 1 3. apply W.
Qed.

Lemma audited_frame clock actor now_ms out s :
  fst (audited clock actor now_ms out s) = Ok out /\ audit_frame s (snd (audited clock actor now_ms out s)).
Proof.
  unfold audited, audit_network_outcome, bind. destruct (audit_kind_of _) as [k|]; [|split; [done|apply audit_frame_refl]].
  match goal with |- context [audit_locked ?a ?b ?c ?d ?e ?f ?g ?h s] =>
    destruct (audit_locked_frame a b c d e f g h s) as [E F]; destruct (audit_locked a b c d e f g h s) as [r s'] end.
  cbn in E, F. by subst r.
Qed.

(** The key epochs after [advance_key_epoch]. *)
Definition rotated (n : bytes) (epochs : gmap bytes Z) : gmap bytes Z :=
  if default 0 (epochs !! n) =? 2 ^ 64 - 1 then epochs else <[n := default 0 (epochs !! n) + 1]> epochs.

(** What [rotated] does to the epoch in force: a recorded epoch becomes the next one, and the
    first change of a network leaves epoch 1 in force. *)
Lemma rotated_in_force s s' n : key_epochs_ s' !! n = rotated n (key_epochs_ s) !! n -> default 0 (key_epochs_ s !! n) <> 2 ^ 64 - 1 ->
  (is_Some (key_epochs_ s !! n) -> key_epoch_for s' n = key_epoch_for s n + 1) /\
  (key_epochs_ s !! n = None -> key_epoch_for s n = 1 /\ key_epoch_for s' n = 1).
Proof.
  unfold key_epoch_for, rotated. intros -> M. destruct (Z.eqb_spec (default 0 (key_epochs_ s !! n)) (2 ^ 64 - 1)); [done|].
  rewrite lookup_insert_eq. split; [by intros [e ->]|by intros ->].
Qed.

Lemma run_advance_key_epoch {B} n (k : unit -> M B) s :
  bind (advance_key_epoch n) k s =
  if default 0 (key_epochs_ s !! n) =? 2 ^ 64 - 1 then (Throw overflow_error, s)
  else k tt (set_key_epochs (<[n := default 0 (key_epochs_ s !! n) + 1]> (key_epochs_ s)) s).
Proof. unfold bind, advance_key_epoch. by destruct (_ =? _). Qed.
Lemma run_advance_revision {B} n (k : Z -> M B) s :
  bind (advance_revision n) k s =
  if default 0 (revisions_ s !! n) =? 2 ^ 64 - 1 then (Throw overflow_error, s)
  else k (default 0 (revisions_ s !! n) + 1) (set_revisions (<[n := default 0 (revisions_ s !! n) + 1]> (revisions_ s)) s).
Proof. unfold bind, advance_revision. by destruct (_ =? _). Qed.

(** Only the audit log, the key epoch of [n] and the revisions differ. *)
Definition rotation_frame (n : bytes) (s s' : Service) : Prop :=
  (exists rows k, store_ s' = set_audit rows k (store_ s)) /\ key_epochs_ s' = rotated n (key_epochs_ s) /\
  active_keys_ s' = active_keys_ s /\ management_capable_ s' = management_capable_ s.

Lemma announce_members_frame clock actor now_ms op n ev extra s :
  rotation_frame n s (snd (announce_members clock actor now_ms op n ev extra s)).
Proof.
  unfold announce_members, rotation_frame, rotated. rewrite run_advance_key_epoch.
  assert (F1 : exists rows k, store_ s = set_audit rows k (store_ s)) by apply audit_frame_refl.
  destruct (_ =? _); [done|]. rewrite run_reading. destruct (list_members _ _) as [members|]; [|done].
  rewrite run_advance_revision. destruct (_ =? _); [done|].
  rewrite run_query. destruct (changes_for_members _ _ _) as [changes|]; [|done].
  match goal with |- context [snd (audited ?a ?b ?c ?d ?s2)] => destruct (audited_frame a b c d s2) as [_ F] end.
  destruct F as ((rows & k & E) & E2 & _ & E3 & E4). rewrite E, E2, E3, E4. split; [by exists rows, k|]. done.
Qed.

(** ** Who changes the members of a network *)

Definition memberships (s : Service) : gmap (bytes * bytes) MembershipRow := db_memberships (store_ s).

(** The handler either left the members alone or added or removed one and rotated the key. *)
Definition adds (n d : bytes) (row : MembershipRow) (s s' : Service) : Prop :=
  memberships s !! (n, d) = None /\ memberships s' = <[(n, d) := row]> (memberships s) /\
  key_epochs_ s' = rotated n (key_epochs_ s).
Definition removes (n d : bytes) (s s' : Service) : Prop :=
  memberships s' = delete (n, d) (memberships s) /\ key_epochs_ s' = rotated n (key_epochs_ s).

Lemma record_device_shape db d t db' : record_device db d t = Ok db' -> exists x, db' = set_devices x db.
Proof. unfold record_device. intros H. ok_inv H. subst. by eexists. Qed.

Lemma add_member_shape db n d t b db' : add_member db n d t = Ok (b, db') ->
  if b then db_memberships db !! (n, d) = None /\
    db_memberships db' = <[(n, d) := mk_membership_row mr_member t]> (db_memberships db)
  else db' = db.
Proof.
  unfold add_member. intros H. destruct (require_network_id n) as [[]|]; [|done].
  destruct (require_device_id d) as [[]|]; [|done]. destruct (require_timestamp t) as [[]|]; [|done].
  destruct (present (n, d) (db_memberships db)) eqn:P; [by apply Ok_inj in H as [= <- <-]|].
  destruct (insert_membership _ _ _ _ _) as [db1|] eqn:E1; [|done]. destruct (insert_lease _ _ _) as [db2|] eqn:E2; [|done].
  apply Ok_inj in H as [= <- <-]. apply insert_membership_ok in E1 as (-> & _).
  apply insert_lease_ok in E2 as (c & sub & -> & _). split; [by apply present_false|done].
Qed.

Lemma remove_member_shape db n d b db' : remove_member db n d = Ok (b, db') ->
  if b then db_memberships db' = delete (n, d) (db_memberships db) else db' = db.
Proof.
  unfold remove_member. intros H. destruct (require_network_id n) as [[]|]; [|done].
  destruct (require_device_id d) as [[]|]; [|done]. destruct (bool_decide _); [|by apply Ok_inj in H as [= <- <-]].
  destruct (read_policy _ _) as [old|]; [|done]. destruct (bool_decide _); [by apply Ok_inj in H as [= <- <-]|].
  destruct (negb _); [|done]. destruct (encode_network_policy _) as [doc|]; [|done]. destruct (constraint _); [|done].
  apply Ok_inj in H as [= <- <-]. by destruct (present _ _).
Qed.

Lemma add_join_request_shape db n d t b db' : add_join_request db n d t = Ok (b, db') -> db_memberships db' = db_memberships db.
Proof.
  unfold add_join_request. intros H. ok_inv H. destruct (_ || _); [by injection H as <- <-|]. ok_inv H. by injection H as <- <-.
Qed.
Lemma add_invitation_shape db n d t b db' : add_invitation db n d t = Ok (b, db') -> db_memberships db' = db_memberships db.
Proof.
  unfold add_invitation. intros H. ok_inv H. destruct (_ || _); [by injection H as <- <-|]. ok_inv H. by injection H as <- <-.
Qed.

Lemma join_cases clock actor n now_ms cred s :
  let s' := snd (join_network_locked clock actor n now_ms cred s) in
  memberships s' = memberships s \/
  ((is_Some (db_invitations (store_ s) !! (n, actor)) \/
    cred = true /\ exists p, network_password (store_ s) n = Some p /\ require_approval p = false) /\
   exists row, row_role row = mr_member /\ adds n actor row s s').
Proof.
  cbv zeta. unfold join_network_locked. rewrite snd_guarded_limit, run_writing.
  destruct (record_device _ _ _) as [db1|] eqn:R; [|by left]. apply record_device_shape in R as [x ->].
  rewrite run_reading. destruct (find_network _ _) as [[w|]|]; [|by left..].
  rewrite run_reading. destruct (list_members _ _) as [ms|]; [|by left]. destruct (find_member _ _); [by left|].
  rewrite run_reading. destruct (network_limit_reached _ _) as [[]|]; [by left| |by left].
  rewrite !run_reading. cbn [store_ set_store]. destruct (find_invitation _ n actor) as [inv|] eqn:I; [|by left].
  destruct (_ && _); [by left|]. destruct (_ || _) eqn:G.
  - rewrite run_changing. destruct (add_member _ _ _ _) as [[b db2]|] eqn:A; [|by left].
    apply add_member_shape in A. destruct b; cbn [negb]; [|subst db2; by left]. destruct A as [A1 A2]. right. split.
    + apply orb_true_iff in G as [G|G].
      * left. destruct inv; [|done]. unfold find_invitation in I. ok_inv I.
        destruct (db_invitations _ !! (n, actor)) as [t|] eqn:L in I; [|done]. cbn in L. by exists t.
      * right. bool_prop. split; [done|]. cbn in *. destruct (network_password _ _) as [p|]; [|done]. exists p.
        bool_prop. done.
    + match goal with |- context [snd (announce_members ?a ?b ?c ?d ?e ?f ?g ?s2)] =>
        destruct (announce_members_frame a b c d e f g s2) as ((rows & k & E) & K & _) end.
      eexists. split; [|split; [exact A1|]]; [|split]; [|unfold memberships; rewrite E; exact A2|exact K]. done.
  - rewrite run_reading. destruct (find_join_request _ _ _) as [[j|]|]; [by left| |by left].
    rewrite run_changing. destruct (add_join_request _ _ _ _) as [[b db2]|] eqn:A; [|by left]. left.
    assert (E2 : db_memberships db2 = memberships s).
    { by apply add_join_request_shape in A. }
    destruct b; cbn [negb]; [|exact E2].
    match goal with |- context [snd (audited ?a ?b ?c ?d ?s2)] => destruct (audited_frame a b c d s2) as [_ ((rows & k & E) & _)] end.
    unfold memberships. rewrite E. exact E2.
Qed.

(** The change a handler makes once the store reports success. *)
Lemma announced_adds clock actor now_ms op n ev extra (s s2 : Service) d row :
  memberships s !! (n, d) = None -> memberships s2 = <[(n, d) := row]> (memberships s) ->
  key_epochs_ s2 = key_epochs_ s -> adds n d row s (snd (announce_members clock actor now_ms op n ev extra s2)).
Proof.
  intros N E K. destruct (announce_members_frame clock actor now_ms op n ev extra s2) as ((rows & k & E1) & K1 & _).
  split; [done|]. unfold memberships in *. by rewrite E1, K1, K.
Qed.
Lemma announced_removes clock actor now_ms op n ev extra (s s2 : Service) d :
  memberships s2 = delete (n, d) (memberships s) -> key_epochs_ s2 = key_epochs_ s ->
  removes n d s (snd (announce_members clock actor now_ms op n ev extra s2)).
Proof.
  intros E K. destruct (announce_members_frame clock actor now_ms op n ev extra s2) as ((rows & k & E1) & K1 & _).
  split; unfold memberships in *; by rewrite ?E1, ?K1, ?K.
Qed.

Definition owned_by (s : Service) (n d : bytes) : Prop := fmap row_owner (db_networks (store_ s) !! n) = Some d.

Lemma find_network_owner db n w : find_network db n = Ok (Some w) -> fmap row_owner (db_networks db !! n) = Some (nr_owner w).
Proof.
  unfold find_network. intros H. destruct (require_network_id n); [|done].
  destruct (db_networks db !! n); [|done]. by apply Ok_inj in H as [= <-].
Qed.

Lemma leave_cases clock actor request now_ms s :
  let s' := snd (leave_network clock actor request now_ms s) in
  let n := selection_id request in
  memberships s' = memberships s \/ (~ owned_by s n actor /\ removes n actor s s').
Proof.
  cbv zeta. unfold leave_network. rewrite run_pure. destruct (require_actor_and_time _ _); [|by left].
  rewrite run_pure. destruct (require_selection_request _); [|by left]. rewrite snd_guarded, run_writing.
  destruct (record_device _ _ _) as [db1|] eqn:R; [|by left]. apply record_device_shape in R as [x ->].
  rewrite run_reading. destruct (find_network _ _) as [[w|]|] eqn:F; [|by left..]. apply find_network_owner in F.
  destruct (bool_decide _) eqn:O; [by left|]. bool_prop.
  rewrite run_reading. destruct (list_members _ _) as [ms|]; [|by left]. destruct (find_member _ _); [|by left].
  rewrite run_changing. destruct (remove_member _ _ _) as [[b db2]|] eqn:A; [|by left].
  apply remove_member_shape in A. destruct b; cbn [negb]; [|subst db2; by left]. right. split.
  - unfold owned_by. cbn in F. rewrite F. congruence.
  - by apply announced_removes.
Qed.

(** What [managing] has checked when it runs the body. *)
Lemma managing_cases (P : Service -> Prop) op catching actor request now_ms body s :
  (forall m s, snd (catching m s) = snd (m s)) ->
  (forall s', memberships s' = memberships s -> P s') ->
  (forall x w, find_network (store_ s) (member_network_id request) = Ok (Some w) ->
    can_manage_network (member_network_id request) actor s = Ok true ->
    P (snd (body w (set_store (set_devices x (store_ s)) s)))) ->
  P (snd (managing op catching actor request now_ms body s)).
Proof.
  intros Hc Q B. unfold managing. rewrite run_pure. destruct (require_actor_and_time _ _); [|by apply Q].
  rewrite run_pure. destruct (valid_member_request _) as [[]|]; [|by apply Q..]. cbn [negb]. rewrite Hc, run_writing.
  destruct (record_device _ _ _) as [db1|] eqn:R; [|by apply Q]. apply record_device_shape in R as [x ->].
  rewrite run_reading. destruct (find_network _ _) as [[w|]|] eqn:F; [|by apply Q..].
  rewrite run_query. destruct (can_manage_network _ _ _) as [[]|] eqn:Mg; [|by apply Q..]. cbn [negb].
  rewrite run_reading. destruct (find_device _ _) as [[t|]|]; [|by apply Q..].
  by apply B.
Qed.

Lemma approve_cases clock actor request now_ms s :
  let s' := snd (approve_member clock actor request now_ms s) in
  let n := member_network_id request in
  let d := member_device_id request in
  memberships s' = memberships s \/
  (can_manage_network n actor s = Ok true /\ is_Some (db_join_requests (store_ s) !! (n, d)) /\
   exists row, row_role row = mr_member /\ adds n d row s s').
Proof.
  cbv zeta. unfold approve_member. apply managing_cases; [apply snd_guarded_limit|by left|]. intros x w F Mg.
  rewrite run_reading. destruct (list_members _ _) as [ms|]; [|by left].
  destruct (find_member _ _); [by left|]. rewrite run_reading.
  destruct (find_join_request _ _ _) as [[j|]|] eqn:J; [|by left..].
  rewrite run_reading. destruct (network_limit_reached _ _) as [[]|]; [by left| |by left].
  rewrite run_changing. destruct (add_member _ _ _ _) as [[b db2]|] eqn:A; [|by left].
  apply add_member_shape in A. destruct b; cbn [negb]; [|subst db2; by left]. destruct A as [A1 A2].
  right. split; [exact Mg|]. split.
  - unfold find_join_request in J. ok_inv J. cbn in J. destruct (db_join_requests (store_ s) !! _); [by eexists|done].
  - eexists. split; [|by eapply announced_adds; [exact A1|exact A2|]]. done.
Qed.

Lemma kick_cases clock actor request now_ms s :
  let s' := snd (kick_member clock actor request now_ms s) in
  let n := member_network_id request in
  let d := member_device_id request in
  memberships s' = memberships s \/
  (can_manage_network n actor s = Ok true /\ ~ owned_by s n d /\
   (owned_by s n actor \/ exists policy, network_policy (store_ s) n = Ok policy /\ policy_role policy d <> administrator) /\
   removes n d s s').
Proof.
  cbv zeta. unfold kick_member. apply managing_cases; [apply snd_guarded|by left|]. intros x w F Mg.
  rewrite run_reading. destruct (shielded _ _ _ _ _) as [[]|] eqn:S; [by left| |by left].
  rewrite run_reading. destruct (list_members _ _) as [ms|]; [|by left]. destruct (find_member _ _); [|by left].
  rewrite run_changing. destruct (remove_member _ _ _) as [[b db2]|] eqn:A; [|by left].
  apply remove_member_shape in A. destruct b; cbn [negb]; [|subst db2; by left]. right.
  apply find_network_owner in F. fold (owned_by s (member_network_id request) (nr_owner w)) in F.
  unfold shielded in S. destruct (bool_decide _) eqn:O1 in S; [done|]. bool_prop.
  split; [exact Mg|]. split; [unfold owned_by in *; congruence|]. split; [|by apply announced_removes].
  destruct (bool_decide (actor = nr_owner w)) eqn:O2; bool_prop; [left; congruence|right].
  cbn in S. destruct (network_policy _ _) as [policy|]; [|done]. apply Ok_inj in S. bool_prop. by exists policy.
Qed.

Lemma invite_quiet clock actor request now_ms s : memberships (snd (invite_member clock actor request now_ms s)) = memberships s.
Proof.
  unfold invite_member. apply managing_cases; [apply snd_guarded|done|]. intros x w F Mg.
  rewrite run_reading. destruct (list_members _ _) as [ms|]; [|done].
  rewrite run_reading. destruct (match find_member _ _ with Some _ => _ | None => _ end) as [[]|]; [done| |done].
  rewrite run_reading. destruct (find_join_request _ _ _) as [[j|]|]; [done| |done].
  rewrite run_reading. destruct (network_limit_reached _ _) as [[]|]; [done| |done].
  rewrite run_changing. destruct (add_invitation _ _ _ _) as [[b db2]|] eqn:A; [|done].
  apply add_invitation_shape in A. destruct b; cbn [negb]; [|exact A].
  match goal with |- context [snd (audited ?a ?b ?c ?d ?s2)] => destruct (audited_frame a b c d s2) as [_ ((rows & k & E) & _)] end.
  unfold memberships. rewrite E. exact A.
Qed.

Lemma run_attempt {B} f (k : result unit -> M B) s :
  bind (fun s => let '(r, s') := writing f s in (Ok r, s')) k s =
  match f (store_ s) with Ok db => k (Ok tt) (set_store db s) | Throw e => k (Throw e) s end.
Proof. unfold bind, writing. by destruct (f (store_ s)). Qed.

Lemma create_shape db w p db' : RelayStore.create_network db w p = Ok db' ->
  db_networks db !! nr_id w = None /\ db_memberships db !! (nr_id w, nr_owner w) = None /\
  db_memberships db' = <[(nr_id w, nr_owner w) := mk_membership_row mr_owner (nr_created w)]> (db_memberships db) /\
  db_networks db' !! nr_id w = Some (mk_network_row (nr_name w) (nr_owner w) (nr_created w)).
Proof.
  unfold RelayStore.create_network. intros H.
  destruct (require_network_id _); [|done]. destruct (require_network_name _); [|done].
  destruct (require_device_id _); [|done]. destruct (require_timestamp _); [|done].
  destruct (constraint _) eqn:C1; [|done]. destruct (insert_subnet _ _) as [db1|] eqn:E1; [|done].
  destruct (constraint (negb (present (_, _) (db_memberships db1)))) eqn:C2; [|done].
  destruct (insert_membership _ _ _ _ _) as [db2|] eqn:E2; [|done]. destruct (insert_lease _ _ _) as [db3|] eqn:E3; [|done].
  apply insert_subnet_ok in E1 as (c & -> & _). apply insert_membership_ok in E2 as (-> & _).
  apply insert_lease_ok in E3 as (lease & sub & -> & _). apply constraint_ok in C1, C2. bool_prop.
  rewrite present_false in *. cbn in *.
  assert (G : db_memberships db' = <[(nr_id w, nr_owner w) := mk_membership_row mr_owner (nr_created w)]> (db_memberships db) /\
    db_networks db' = <[nr_id w := mk_network_row (nr_name w) (nr_owner w) (nr_created w)]> (db_networks db)).
  { destruct p as [p|]; [destruct (constraint _); [|done]|]; by apply Ok_inj in H as <-. }
  destruct G as [G1 G2]. split; [by apply present_false|]. split; [done|]. split; [done|]. by rewrite G2, lookup_insert_eq.
Qed.

Lemma announce_network_frame clock actor now_ms n s :
  rotation_frame n s (snd ((advance_key_epoch n ;;
    let! revision := advance_revision n in
    let! changes := query (changes_for_members n revision) in
    audited clock actor now_ms (mk_outcome (mk_operation_result op_create success n) [] changes)) s)).
Proof.
  unfold rotation_frame, rotated. rewrite run_advance_key_epoch.
  assert (F1 : exists rows k, store_ s = set_audit rows k (store_ s)) by apply audit_frame_refl.
  destruct (_ =? _); [done|]. rewrite run_advance_revision. destruct (_ =? _); [done|].
  rewrite run_query. destruct (changes_for_members _ _ _) as [changes|]; [|done].
  match goal with |- context [snd (audited ?a ?b ?c ?d ?s2)] => destruct (audited_frame a b c d s2) as [_ F] end.
  destruct F as ((rows & k & E) & E2 & _ & E3 & E4). rewrite E, E2, E3, E4. split; [by exists rows, k|]. done.
Qed.

(** A network [n] of its own, created by [actor]. *)
Definition founds (actor n : bytes) (s s' : Service) : Prop :=
  db_networks (store_ s) !! n = None /\ owned_by s' n actor /\
  exists row, row_role row = mr_owner /\ adds n actor row s s'.

Lemma create_attempts_cases clock gen k actor name now_ms password s :
  let s' := snd (create_attempts clock gen k actor name now_ms password s) in
  memberships s' = memberships s \/ exists n, founds actor n s s'.
Proof.
  cbv zeta. induction k as [|k IH]; cbn [create_attempts]; [by left|]. cbv zeta.
  rewrite run_pure. destruct (gen _) as [n|]; [|by left]. destruct (is_zero n); [exact IH|].
  rewrite run_reading. destruct (find_network _ _) as [[w|]|]; [exact IH| |by left].
  rewrite run_attempt. destruct (RelayStore.create_network _ _ _) as [db1|] eqn:E.
  - apply create_shape in E as (E1 & E2 & E3 & E4). cbn in *. right. exists n.
    match goal with |- founds _ _ _ (snd (_ ?s2)) => destruct (announce_network_frame clock actor now_ms n s2) as ((rows & k' & F1) & F2 & _) end.
    split; [done|]. unfold owned_by, adds, memberships. rewrite F1, F2. cbn.
    split; [by rewrite E4|]. eexists. split; [|done]. done.
  - rewrite run_reading. destruct (find_network _ _) as [[w|]|]; [exact IH|by left..].
Qed.

Lemma create_locked_cases clock gen actor name now_ms password s :
  let s' := snd (create_network_locked clock gen actor name now_ms password s) in
  memberships s' = memberships s \/ exists n, founds actor n s s'.
Proof.
  cbv zeta. unfold create_network_locked. rewrite snd_guarded_limit, run_writing.
  destruct (record_device _ _ _) as [db1|] eqn:R; [|by left]. apply record_device_shape in R as [x ->].
  rewrite run_reading. destruct (network_limit_reached _ _) as [[]|]; [by left| |by left].
  match goal with |- context [create_attempts ?a ?b ?c ?d ?e ?f ?g ?s1] => exact (create_attempts_cases a b c d e f g s1) end.
Qed.

Lemma create_cases clock gen actor request now_ms s :
  let s' := snd (create_network clock gen actor request now_ms s) in
  memberships s' = memberships s \/ exists n, founds actor n s s'.
Proof.
  cbv zeta. unfold create_network. rewrite run_pure. destruct (require_actor_and_time _ _); [|by left].
  destruct (encode_network_create_request request) as [|[]]; [|by left..]. apply create_locked_cases.
Qed.

(** Writes that leave the members alone. *)
Lemma quiet_writing f : (forall db db', f db = Ok db' -> db_memberships db' = db_memberships db) -> keeps same_members (writing f).
Proof. intros H. apply keeps_writing; [exact _|]. intros s db E. unfold same_members. cbn. by apply H. Qed.
Lemma quiet_changing f : (forall db b db', f db = Ok (b, db') -> db_memberships db' = db_memberships db) -> keeps same_members (changing f).
Proof. intros H. apply keeps_changing; [exact _|]. intros s b db E. unfold same_members. cbn. by eapply H. Qed.

Lemma quiet_save_policy n p e a : keeps same_members (changing (fun db => save_network_policy db n p e a)).
Proof. apply quiet_changing. intros db b db' H. apply save_network_policy_same in H as (_ & _ & E & _). done. Qed.
Lemma redeem_shape db n g a t b db' : redeem_invite_link db n g a t = Ok (b, db') ->
  db_memberships db' = db_memberships db /\ db_access db' = db_access db /\
  (b = true -> exists link, db_links db !! g = Some link /\ link_network link = n /\ t < link_expires link /\ 0 < link_remaining link).
Proof.
  unfold redeem_invite_link. intros H. destruct (db_links db !! g) as [link|]; [|by apply Ok_inj in H as [= <- <-]].
  destruct (_ && _ && _) eqn:G in H; [|by apply Ok_inj in H as [= <- <-]]. bool_prop. cbv zeta in H.
  destruct (constraint _) as [[]|] in H; [|done].
  assert (L : exists link', Some link = Some link' /\ link_network link' = n /\ t < link_expires link' /\ 0 < link_remaining link').
  { exists link. done. }
  destruct (present _ _) in H; [by apply Ok_inj in H as [= <- <-]|].
  destruct (constraint _) as [[]|] in H; [|done]. by apply Ok_inj in H as [= <- <-].
Qed.
Lemma quiet_enroll g d l t : keeps same_members (changing (fun db => enroll_device db g d l t)).
Proof.
  apply quiet_changing. intros db b db' H. unfold enroll_device in H. ok_inv H.
  destruct (find_enrollment _ _ _); [|by apply Ok_inj in H as [= <- <-]].
  destruct (match _ with Some _ => _ | None => _ end) in H; [by apply Ok_inj in H as [= <- <-]|].
  destruct (_ >=? 64) in H; [by apply Ok_inj in H as [= <- <-]|]. ok_inv H. by injection H as <- <-.
Qed.
Lemma quiet_issue_link n g t e u : keeps same_members (writing (fun db => issue_invite_link db n g t e u)).
Proof. apply quiet_writing. intros db db' H. unfold issue_invite_link in H. ok_inv H. by subst. Qed.
Lemma quiet_revoke_links n : keeps same_members (writing (fun db => Ok (revoke_invite_links db n))).
Proof. apply quiet_writing. intros db db' H. by apply Ok_inj in H as <-. Qed.
Lemma quiet_set_password n p : keeps same_members (writing (fun db => set_network_password db n p)).
Proof. apply quiet_writing. intros db db' H. unfold set_network_password in H. destruct p; ok_inv H; by subst. Qed.
Lemma quiet_create_account a t : keeps same_members (writing (fun db => create_account db a t)).
Proof. apply quiet_writing. intros db db' H. unfold create_account in H. ok_inv H. by subst. Qed.
Lemma quiet_issue_enrollment a g e : keeps same_members (writing (fun db => issue_enrollment db a g e)).
Proof. apply quiet_writing. intros db db' H. unfold issue_enrollment in H. ok_inv H. by subst. Qed.
#[local] Hint Resolve quiet_save_policy quiet_enroll quiet_issue_link quiet_revoke_links quiet_set_password quiet_create_account
  quiet_issue_enrollment : service.

Lemma quiet_requests clock gen r s :
  match r with rq_create _ _ _ | rq_join _ _ _ | rq_leave _ _ _ | rq_approve _ _ _ | rq_kick _ _ _ | rq_access _ _ _ _ _ => True
  | _ => memberships (serve clock gen r s) = memberships s end.
Proof.
  assert (G : forall A (m : M A), keeps same_members m -> memberships (snd (m s)) = memberships s) by (intros A m H; apply H).
  destruct r; cbn [serve]; try done.
  - apply G. unfold record_authenticated_device. steps.
  - apply G. unfold publish_device_key. steps.
  - unfold remove_device_key. destruct (active_keys_ s !! actor); [|done]. destruct (negb _); [done|]. apply G. steps.
  - apply G. unfold set_management_capable. steps.
  - destruct (route_frame clock actor p s) as [E _]. unfold memberships. by rewrite E.
  - apply G. unfold list_networks. steps.
  - apply invite_quiet.
  - apply G. unfold peer_state. steps.
  - unfold set_forwarding_limits. by destruct (configure _ _).
  - unfold admit_control. by destruct (control _ _ _).
  - apply G. unfold manage_network, manage_network_locked. steps.
Qed.

Definition is_member (s : Service) (n d : bytes) : Prop := is_Some (memberships s !! (n, d)).

(** An invitation link of [n] that [secret] opens, unexpired and not used up. *)
Definition live_link (s : Service) (n secret : bytes) (now_ms : Z) : Prop :=
  exists digest link, access_digest secret = Ok digest /\ db_links (store_ s) !! digest = Some link /\
    link_network link = n /\ now_ms < link_expires link /\ 0 < link_remaining link.

(** The password of [n], given correctly by a device that needs no approval or is invited. *)
Definition password_admits (s : Service) (n d secret : bytes) : Prop :=
  exists v, network_password (store_ s) n = Some v /\ password_matches secret v = Ok true /\
    (require_approval v = false \/ is_Some (db_invitations (store_ s) !! (n, d))).

(** Why a request may make [d] a member of [n]: [d] created it, [d] was invited and joins, a
    manager approves the join request of [d], or [d] holds a live invitation link or the
    network's password. *)
Definition may_add (s s' : Service) (r : Request) (n d : bytes) : Prop :=
  match r with
  | rq_create a _ _ => a = d /\ db_networks (store_ s) !! n = None /\ owned_by s' n d
  | rq_join a q _ => a = d /\ selection_id q = n /\ is_Some (db_invitations (store_ s) !! (n, d))
  | rq_approve a q _ => member_network_id q = n /\ member_device_id q = d /\
      can_manage_network n a s = Ok true /\ is_Some (db_join_requests (store_ s) !! (n, d))
  | rq_access a q t _ _ => a = d /\ device_allowed s d = true /\
      match ar_action q with
      | act_network_create_protected => db_networks (store_ s) !! n = None /\ owned_by s' n d
      | act_invite_redeem => ar_network_id q = n /\ live_link s n (ar_secret q) t
      | act_password_join => ar_network_id q = n /\ password_admits s n d (ar_secret q)
      | _ => False
      end
  | _ => False
  end.

(** [a] owns the account that [d], another device, is enrolled in. *)
Definition account_authority (s : Service) (a d : bytes) : Prop :=
  d <> a /\ exists account target, account_for_device (store_ s) a = Some account /\ ac_owner account = a /\
    account_for_device (store_ s) d = Some target /\ ac_id target = ac_id account.

(** Why a request may end the membership of [d]: it leaves and is not the owner, a manager
    kicks it, which never removes the owner and removes an administrator only for the owner,
    or the owner of its account revokes it. *)
Definition may_remove (s : Service) (r : Request) (n d : bytes) : Prop :=
  match r with
  | rq_leave a q _ => a = d /\ selection_id q = n /\ ~ owned_by s n d
  | rq_kick a q _ => member_network_id q = n /\ member_device_id q = d /\
      can_manage_network n a s = Ok true /\ ~ owned_by s n d /\
      (owned_by s n a \/ exists policy, network_policy (store_ s) n = Ok policy /\ policy_role policy d <> administrator)
  | rq_access a q _ _ _ => ar_action q = act_device_revoke /\ ar_device_id q = d /\ account_authority s a d /\ ~ owned_by s n d
  | _ => False
  end.

(** What a request may do to the membership of [d] in [n]: nothing, or add or remove it for
    the given reason, and then the key epoch moves on. *)
Inductive member_effect (s s' : Service) (n d : bytes) (added removed : Prop) : Prop :=
| me_same : (is_member s' n d <-> is_member s n d) -> member_effect s s' n d added removed
| me_added : ~ is_member s n d -> key_epochs_ s' !! n = rotated n (key_epochs_ s) !! n -> added -> member_effect s s' n d added removed
| me_removed : ~ is_member s' n d -> key_epochs_ s' !! n = rotated n (key_epochs_ s) !! n -> removed ->
    member_effect s s' n d added removed.

Lemma effect_quiet s s' n d A R : memberships s' = memberships s -> member_effect s s' n d A R.
Proof. intros E. apply me_same. unfold is_member. by rewrite E. Qed.

Lemma effect_from s s1 s' n d A R : memberships s1 = memberships s -> key_epochs_ s1 = key_epochs_ s ->
  member_effect s1 s' n d A R -> member_effect s s' n d A R.
Proof.
  intros E K H. destruct H as [H|H1 H2 H3|H1 H2 H3]; unfold is_member in *; rewrite ?E, ?K in *;
    [apply me_same|apply me_added|apply me_removed]; done.
Qed.

Lemma effect_kept {B} (m : M B) s s1 n d A R : memberships s1 = memberships s -> keeps same_members m ->
  member_effect s (snd (m s1)) n d A R.
Proof. intros E H. apply effect_quiet. etransitivity; [apply H|exact E]. Qed.

Lemma effect_transport s s2 s' n d A R : memberships s' = memberships s2 -> key_epochs_ s' = key_epochs_ s2 ->
  member_effect s s2 n d A R -> member_effect s s' n d A R.
Proof.
  intros E K H. unfold is_member in *.
  destruct H as [H|H1 H2 H3|H1 H2 H3]; [apply me_same|apply me_added|apply me_removed]; unfold is_member in *; by rewrite ?E, ?K.
Qed.

Lemma effect_adds s s' n d n0 d0 row (A R : Prop) : adds n0 d0 row s s' -> (n0 = n -> d0 = d -> A) -> member_effect s s' n d A R.
Proof.
  intros (N & E & K) H. destruct (decide ((n0, d0) = (n, d))) as [[= -> ->]|Ne].
  - apply me_added; [unfold is_member; rewrite N; by intros [? [=]]|by rewrite K|auto].
  - apply me_same. unfold is_member. by rewrite E, lookup_insert_ne.
Qed.
Lemma effect_removes s s' n d n0 d0 (A R : Prop) : removes n0 d0 s s' -> (n0 = n -> d0 = d -> R) -> member_effect s s' n d A R.
Proof.
  intros (E & K) H. destruct (decide ((n0, d0) = (n, d))) as [[= -> ->]|Ne].
  - apply me_removed; [unfold is_member; rewrite E, lookup_delete_eq; by intros [? [=]]|by rewrite K|auto].
  - apply me_same. unfold is_member. by rewrite E, lookup_delete_ne.
Qed.

(** *** Access requests *)

Lemma run_allow {B} clock actor n (k : bool -> M B) s : exists b x, bind (allow_access_attempt clock actor n) k s = k b (set_attempts x s).
Proof.
  unfold bind, allow_access_attempt. cbv zeta. destruct (_ >? _); [by eexists false, _|].
  destruct (claim_windows _ _ _) as [[] m]; [by eexists true, _|by eexists false, _].
Qed.

Lemma at_exit_frame later actor request now_ms m s :
  audit_frame (snd (m s)) (snd (audited_at_exit later actor request now_ms m s)).
Proof.
  unfold audited_at_exit. destruct (m s) as [r s']. cbn. destruct (access_kind _); [|apply audit_frame_refl].
  apply audit_locked_frame.
Qed.

(** A device is listed in each of its networks once. *)
Lemma rows_for_nodup {A} (d : bytes) (m : gmap (bytes * bytes) A) : NoDup (map fst (rows_for d m)).
Proof.
  unfold rows_for. pose proof (NoDup_fst_map_to_list m) as N. revert N. generalize (map_to_list m) as l.
  induction l as [|[[n' d'] x] l IH]; intros N; [constructor|]. cbn in N. apply NoDup_cons in N as [Nx N]. cbn.
  destruct (bool_decide (d' = d)) eqn:E; [|by apply IH]. bool_prop. subst d'. cbn. apply NoDup_cons. split; [|by apply IH].
  intros ([n2 x2] & E2 & Hin)%list_elem_of_fmap. apply list_elem_of_omap in Hin as ([[n3 d3] x3] & Hin & H3).
  cbn in *. destruct (bool_decide (d3 = d)) eqn:E3; [|done]. bool_prop. simplify_eq.
  apply Nx, list_elem_of_fmap. eexists. split; [|exact Hin]. done.
Qed.

Lemma networks_for_device_ok db d l : list_networks_for_device db d = Ok l ->
  NoDup (map nr_id l) /\ forall w, w ∈ l -> fmap row_owner (db_networks db !! nr_id w) = Some (nr_owner w).
Proof.
  unfold list_networks_for_device. intros H. ok_inv H. subst l. split.
  - rewrite order_by_perm. pose proof (rows_for_nodup d (db_memberships db)) as N. revert N.
    generalize (rows_for d (db_memberships db)) as rows. induction rows as [|[n x] rows IH]; intros N; [constructor|].
    cbn in N. apply NoDup_cons in N as [Nx N]. cbn. destruct (db_networks db !! n) as [w|] eqn:W; [|by apply IH]. cbn.
    apply NoDup_cons. split; [|by apply IH]. intros (w2 & E2 & Hin)%list_elem_of_fmap.
    apply list_elem_of_omap in Hin as ([n3 x3] & Hin & H3). cbn in H3. destruct (db_networks db !! n3) as [w3|]; [|done].
    injection H3 as <-. cbn in E2. subst n3. apply Nx, list_elem_of_fmap. eexists. split; [|exact Hin]. done.
  - intros w Hw. rewrite order_by_perm in Hw. apply list_elem_of_omap in Hw as ([n x] & Hin & H3). cbn in H3.
    destruct (db_networks db !! n) as [w3|] eqn:W; [|done]. injection H3 as <-. cbn. by rewrite W.
Qed.

Lemma snd_collect {A B} (f : A -> M (list B)) x l s :
  snd (collect f (x :: l) s) = match f x s with (Ok _, s1) => snd (collect f l s1) | (Throw _, s1) => s1 end.
Proof.
  cbn [collect]. unfold bind at 1. destruct (f x s) as [[ys|e] s1]; [|done]. unfold bind. by destruct (collect f l s1) as [[]].
Qed.

Lemma expel_round d w s : let n := nr_id w in let s1 := snd (expel_from d w s) in
  memberships s1 = memberships s /\ (key_epochs_ s1 = key_epochs_ s \/ key_epochs_ s1 = rotated n (key_epochs_ s)) \/
  memberships s1 = delete (n, d) (memberships s) /\ key_epochs_ s1 = rotated n (key_epochs_ s).
Proof.
  cbv zeta. unfold expel_from. rewrite run_changing. destruct (remove_member _ _ _) as [[b db2]|] eqn:A; [|left; auto].
  apply remove_member_shape in A.
  assert (M : memberships (set_store db2 s) = memberships s \/ memberships (set_store db2 s) = delete (nr_id w, d) (memberships s)).
  { destruct b; [by right|left]. by subst db2. }
  assert (G : forall s1, store_ s1 = db2 -> key_epochs_ s1 = rotated (nr_id w) (key_epochs_ s) ->
    memberships s1 = memberships s /\ (key_epochs_ s1 = key_epochs_ s \/ key_epochs_ s1 = rotated (nr_id w) (key_epochs_ s)) \/
    memberships s1 = delete (nr_id w, d) (memberships s) /\ key_epochs_ s1 = rotated (nr_id w) (key_epochs_ s)).
  { intros s1 E K. unfold memberships in *. cbn in M. rewrite E. destruct M as [M|M]; [left|right]; auto. }
  rewrite run_advance_key_epoch. unfold rotated in *. cbn [key_epochs_ set_store].
  destruct (_ =? _); [by apply G|]. rewrite run_advance_revision. destruct (_ =? _); [by apply G|].
  rewrite run_query. destruct (changes_for_members _ _ _); by apply G.
Qed.

Lemma rotated_ne n n' m : n <> n' -> rotated n m !! n' = m !! n'.
Proof. intros Ne. unfold rotated. destruct (_ =? _); [done|]. by rewrite lookup_insert_ne. Qed.
Lemma rotated_at n m m' : m !! n = m' !! n -> rotated n m !! n = rotated n m' !! n.
Proof. intros E. unfold rotated. rewrite E. destruct (_ =? _); [done|]. by rewrite !lookup_insert_eq. Qed.

(** The revocation loop removes the device from the listed networks only and rotates the key
    of each network it removed it from. *)
Lemma expel_effect d nets s : NoDup (map nr_id nets) -> forall n,
  let s' := snd (expel d nets s) in
  (forall x, x <> d -> memberships s' !! (n, x) = memberships s !! (n, x)) /\
  (n ∉ map nr_id nets -> key_epochs_ s' !! n = key_epochs_ s !! n /\ memberships s' !! (n, d) = memberships s !! (n, d)) /\
  (memberships s' !! (n, d) = memberships s !! (n, d) \/
   n ∈ map nr_id nets /\ memberships s' !! (n, d) = None /\ key_epochs_ s' !! n = rotated n (key_epochs_ s) !! n).
Proof.
  revert s. induction nets as [|w nets IH]; intros s N n; [cbn; split; [done|]; split; [done|]; by left|].
  cbn [map] in N. apply NoDup_cons in N as [Nw N]. cbv zeta. unfold expel. rewrite snd_collect. fold (expel d nets).
  pose proof (expel_round d w s) as R. cbv zeta in R. destruct (expel_from d w s) as [r s1]. cbn [snd] in R.
  assert (T : let s' := match r with Ok _ => snd (expel d nets s1) | Throw _ => s1 end in
    (forall x, x <> d -> memberships s' !! (n, x) = memberships s1 !! (n, x)) /\
    (n ∉ map nr_id nets -> key_epochs_ s' !! n = key_epochs_ s1 !! n /\ memberships s' !! (n, d) = memberships s1 !! (n, d)) /\
    (memberships s' !! (n, d) = memberships s1 !! (n, d) \/
     n ∈ map nr_id nets /\ memberships s' !! (n, d) = None /\ key_epochs_ s' !! n = rotated n (key_epochs_ s1) !! n)).
  { destruct r; [exact (IH s1 N n)|]. split; [done|]. split; [done|]. by left. }
  cbv zeta in T. revert T. generalize (match r with Ok _ => snd (expel d nets s1) | Throw _ => s1 end) as s'.
  clear IH r. intros s' (T1 & T2 & T3). cbn [map]. rewrite not_elem_of_cons, elem_of_cons.
  destruct (decide (n = nr_id w)) as [->|Ne].
  - destruct (T2 Nw) as [Te Tm]. rewrite Tm, Te. destruct R as [[R _]|[R K]]; rewrite R in *.
    + split; [done|]. split; [by intros [[] _]|]. by left.
    + split; [|split; [by intros [[] _]|right; rewrite lookup_delete_eq, K; auto]].
      intros x Hx. rewrite T1 by done. rewrite lookup_delete_ne; congruence.
  - assert (Es : key_epochs_ s1 !! n = key_epochs_ s !! n).
    { destruct R as [[_ [->| ->]]|[_ ->]]; rewrite ?rotated_ne by done; done. }
    assert (Ms : forall x, memberships s1 !! (n, x) = memberships s !! (n, x)).
    { intros x. destruct R as [[-> _]|[-> _]]; [done|]. rewrite lookup_delete_ne; congruence. }
    rewrite Ms in *. split; [intros x Hx; rewrite <- Ms; auto|]. split.
    + intros [_ Nn]. rewrite <- Es. auto.
    + destruct T3 as [T3|(T3 & T4 & T5)]; [by left|right]. split; [auto|]. split; [done|]. rewrite T5. by apply rotated_at.
Qed.

Lemma revoke_effect actor request n d s (A R : Prop) :
  (ar_device_id request = d -> account_authority s actor d -> ~ owned_by s n d -> R) ->
  member_effect s (snd (revoke_device actor request s)) n d A R.
Proof.
  intros HR. unfold revoke_device. rewrite !run_reading. set (t := ar_device_id request).
  destruct (account_for_device (store_ s) actor) as [ac|] eqn:Ea; [|by apply effect_quiet].
  destruct (account_for_device (store_ s) t) as [tg|] eqn:Et; [|by apply effect_quiet].
  destruct (_ || _ || _) eqn:G; [by apply effect_quiet|]. bool_prop. rewrite run_reading.
  destruct (list_networks_for_device _ _) as [nets|] eqn:L; [|by apply effect_quiet].
  destruct (existsb _ _) eqn:Ex; [by apply effect_quiet|]. rewrite run_writing.
  apply networks_for_device_ok in L as [N O].
  set (s1 := set_store (revoke_account_device (store_ s) (ac_id ac) t) s).
  assert (M1 : memberships s1 = memberships s).
  { unfold s1, memberships. cbn. unfold revoke_account_device. destruct (db_account_devices _ !! _); [|done]. by destruct (_ && _). }
  destruct (expel_effect t nets s1 N n) as (X1 & _ & X3). cbv zeta in X3, X1. revert X1 X3. unfold bind.
  intros X1 X3. destruct (expel t nets s1) as [r s2]. cbn [snd] in X1, X3.
  apply (effect_transport s s2); [by destruct r..|].
  destruct (decide (d = t)) as [->|Ne]; [|apply me_same; unfold is_member; by rewrite X1, M1].
  destruct X3 as [X3|(Hin & X3 & X4)]; [apply me_same; unfold is_member; by rewrite X3, M1|].
  apply me_removed; [unfold is_member; rewrite X3; by intros [? [=]]|by rewrite X4|].
  apply HR; [done|split; [done|]; by exists ac, tg|].
  apply list_elem_of_fmap in Hin as (w & -> & Hw). unfold owned_by. rewrite (O w Hw). intros [= E].
  assert (existsb (fun n => bool_decide (nr_owner n = t)) nets = true) as X; [|congruence].
  apply existsb_exists. exists w. split; [by apply list_elem_of_In|]. by apply bool_decide_eq_true.
Qed.

Lemma create_protected_effect clock later gen draw actor request now_ms s n d (A R : Prop) :
  let s' := snd (create_protected clock later gen draw actor request now_ms s) in
  (actor = d -> db_networks (store_ s) !! n = None -> owned_by s' n d -> A) -> member_effect s s' n d A R.
Proof.
  cbv zeta. unfold create_protected. rewrite run_pure. destruct (encode_network_create_request _); [|intros; by apply effect_quiet].
  match goal with |- context [bind (allow_access_attempt ?a ?b ?c) ?k s] => destruct (run_allow a b c k s) as (ok & x & ->) end.
  destruct ok; cbn [negb]; [|intros; by apply effect_quiet]. rewrite run_pure.
  destruct (protect_password _ _ _) as [v|]; [|intros; by apply effect_quiet].
  pose proof (create_locked_cases later gen actor (ar_text request) now_ms (Some v) (set_attempts x s)) as F. unfold bind.
  destruct (create_network_locked _ _ _ _ _ _ _) as [r s2]. cbn [snd] in F.
  assert (E : snd (match r with Ok a => ret (joined_answer request (result_network_id (outcome_result a)) a) s2 | Throw e => (Throw e, s2) end) = s2)
    by (by destruct r). rewrite E. intros HA. destruct F as [F|(n0 & F1 & F2 & row & _ & F3)]; [by apply effect_quiet|].
  eapply effect_adds; [exact F3|]. intros <- <-. by apply HA.
Qed.

Lemma join_effect later actor n0 now_ms cred request s0 s n d (A R : Prop) :
  memberships s = memberships s0 -> key_epochs_ s = key_epochs_ s0 ->
  (n0 = n -> actor = d -> is_Some (db_invitations (store_ s) !! (n, d)) \/
     cred = true /\ (exists p, network_password (store_ s) n = Some p /\ require_approval p = false) -> A) ->
  member_effect s0 (snd (bind (join_network_locked later actor n0 now_ms cred) (fun j => ret (joined_answer request n0 j)) s)) n d A R.
Proof.
  intros M K HA. pose proof (join_cases later actor n0 now_ms cred s) as F. unfold bind. cbv zeta in F.
  destruct (join_network_locked _ _ _ _ _ _) as [r s2]. cbn [snd] in F.
  apply (effect_transport s0 s2); [by destruct r..|]. destruct F as [F|(W & row & _ & N & F & K2)]; [apply effect_quiet; congruence|].
  eapply (effect_adds s0 s2 n d n0 actor row).
  - unfold adds. rewrite <- M, <- K. done.
  - intros -> ->. by apply HA.
Qed.

Lemma invitation_effect clock later draw actor request now_ms s n d (A R : Prop) :
  (ar_action request = act_invite_redeem -> ar_network_id request = n -> actor = d -> live_link s n (ar_secret request) now_ms -> A) ->
  member_effect s (snd (invitation_request clock later draw actor request now_ms s)) n d A R.
Proof.
  intros HA. unfold invitation_request.
  match goal with |- context [bind (allow_access_attempt ?a ?b ?c) ?k s] => destruct (run_allow a b c k s) as (ok & x & ->) end.
  destruct ok; cbn [negb]; [|by apply effect_quiet]. rewrite run_reading.
  destruct (find_network _ _) as [w|]; [|by apply effect_quiet].
  destruct (bool_decide (ar_action request = act_invite_redeem)) eqn:Ar; cbn [negb]; bool_prop; [|apply effect_kept; [done|steps]].
  destruct (_ || _); [by apply effect_quiet|]. rewrite run_reading. destruct (find_virtual_ipv4_lease _ _ _) as [[l|]|]; [by apply effect_quiet| |by apply effect_quiet].
  rewrite run_reading. destruct (let* full := network_limit_reached _ _ in _) as [[]|]; [by apply effect_quiet| |by apply effect_quiet].
  rewrite run_pure. destruct (access_digest _) as [digest|] eqn:Dg; [|by apply effect_quiet]. rewrite run_changing.
  destruct (redeem_invite_link _ _ _ _ _) as [[b db2]|] eqn:Rd; [|by apply effect_quiet].
  apply redeem_shape in Rd as (M & _ & Lk). destruct b; cbn [negb]; [|by apply effect_quiet].
  apply join_effect; [done|done|]. intros <- <- _. apply HA; [done..|].
  destruct (Lk eq_refl) as (link & L1 & L2 & L3 & L4). by exists digest, link.
Qed.

Lemma password_effect clock later draw actor request now_ms s n d (A R : Prop) :
  (ar_action request <> act_password_set -> ar_network_id request = n -> actor = d -> password_admits s n d (ar_secret request) -> A) ->
  member_effect s (snd (password_request clock later draw actor request now_ms s)) n d A R.
Proof.
  intros HA. unfold password_request.
  match goal with |- context [bind (allow_access_attempt ?a ?b ?c) ?k s] => destruct (run_allow a b c k s) as (ok & x & ->) end.
  destruct ok; cbn [negb]; [|by apply effect_quiet]. rewrite run_reading.
  destruct (find_network _ _) as [w|]; [|by apply effect_quiet].
  destruct (bool_decide (ar_action request = act_password_set)) eqn:Ar; bool_prop; [apply effect_kept; [done|steps]|].
  rewrite run_reading, run_pure. destruct (password_matches _ _) as [ok|] eqn:Pm; [|by apply effect_quiet].
  destruct w as [w|]; [|by apply effect_quiet]. cbn [store_ set_attempts] in *.
  destruct (network_password (store_ s) (ar_network_id request)) as [v|] eqn:V; [|by apply effect_quiet].
  destruct ok; cbn [negb]; [|by apply effect_quiet]. apply join_effect; [done|done|]. intros <- <- W.
  apply HA; [done..|]. exists v. split; [done|]. split; [exact Pm|]. destruct W as [W|(_ & p & W1 & W2)]; [by right|left].
  cbn in W1. rewrite V in W1. by injection W1 as <-.
Qed.

Lemma access_effect clock later gen draw actor request now_ms s n d :
  let r := rq_access actor request now_ms later draw in
  let s' := snd (access_request clock later gen draw actor request now_ms s) in
  member_effect s s' n d (may_add s s' r n d) (may_remove s r n d).
Proof.
  cbv zeta. unfold access_request. rewrite run_pure. destruct (require_actor_and_time _ _); [|by apply effect_quiet].
  rewrite run_pure. destruct (encode_access_request _); [|by apply effect_quiet].
  set (m := access_request_locked clock later gen draw actor request now_ms).
  destruct (at_exit_frame later actor request now_ms m s) as ((rows & k & E) & K & _).
  apply (effect_transport s (snd (m s))); [unfold memberships; by rewrite E|done|].
  assert (Ow : forall s2, (exists rows k, store_ s2 = set_audit rows k (store_ (snd (m s)))) -> owned_by (snd (m s)) n d -> owned_by s2 n d).
  { intros s2 (rows' & k' & E2). unfold owned_by. by rewrite E2. }
  specialize (Ow _ (ex_intro _ rows (ex_intro _ k E))). cbn [may_add may_remove].
  generalize dependent (snd (audited_at_exit later actor request now_ms m s)). intros s' _ _ Ow.
  revert Ow. unfold m, access_request_locked. rewrite run_query.
  destruct (device_allowed s actor) eqn:Da; cbn [negb]; [|intros; by apply effect_quiet].
  rewrite run_writing. destruct (record_device _ _ _) as [db1|] eqn:Rd; [|intros; by apply effect_quiet].
  apply record_device_shape in Rd as [x ->]. set (s1 := set_store (set_devices x (store_ s)) s). intros Ow.
  apply (effect_from s s1); [done|done|].
  destruct (bool_decide (ar_action request = act_device_revoke)) eqn:A1; bool_prop.
  { apply (revoke_effect actor request n d s1). intros E1 E2 E3. by rewrite A1. }
  destruct (bool_decide (ar_action request = act_network_create_protected)) eqn:A2; bool_prop.
  { apply (create_protected_effect clock later gen draw actor request now_ms s1). intros <- E1 E2. rewrite A2. auto. }
  destruct (action_value (ar_action request) >=? 8).
  { apply (invitation_effect clock later draw actor request now_ms s1). intros E1 <- <- E3. by rewrite E1. }
  destruct (_ || _) eqn:A3.
  { apply (password_effect clock later draw actor request now_ms s1). intros E1 <- <- E3.
    apply orb_true_iff in A3 as [A3|A3]; bool_prop; [done|]. by rewrite A3. }
  apply effect_kept; [done|]. unfold account_request, account_answer. steps.
Qed.

(** The effect of one request on one membership. *)
Lemma member_change clock gen r s n d :
  let s' := serve clock gen r s in member_effect s s' n d (may_add s s' r n d) (may_remove s r n d).
Proof.
  cbv zeta. pose proof (quiet_requests clock gen r s) as Q. destruct r; try (apply effect_quiet; exact Q); clear Q; cbn [serve].
  - destruct (create_cases clock gen actor request now_ms s) as [|(n0 & F1 & F2 & row & _ & F3)]; [by apply effect_quiet|].
    eapply effect_adds; [exact F3|]. by intros <- <-.
  - unfold join_network. rewrite run_pure. destruct (require_actor_and_time _ _); [|by apply effect_quiet]. rewrite run_pure.
    destruct (require_selection_request _); [|by apply effect_quiet].
    destruct (join_cases clock actor (selection_id request) now_ms false s) as [|([I|[? _]] & row & _ & A)]; [by apply effect_quiet| |done].
    eapply effect_adds; [exact A|]. by intros <- <-.
  - destruct (leave_cases clock actor request now_ms s) as [|[O A]]; [by apply effect_quiet|].
    eapply effect_removes; [exact A|]. by intros <- <-.
  - destruct (approve_cases clock actor request now_ms s) as [|(Mg & J & row & _ & A)]; [by apply effect_quiet|].
    eapply effect_adds; [exact A|]. by intros <- <-.
  - destruct (kick_cases clock actor request now_ms s) as [|(Mg & O & Pl & A)]; [by apply effect_quiet|].
    eapply effect_removes; [exact A|]. by intros <- <-.
  - apply access_effect.
Qed.

(** C1: members come and go only as the rules allow.  Whatever request the relay serves, a
    device becomes a member only by creating the network, by joining on an invitation, by a
    manager approving its own pending request, with a live invitation link, or with the
    network's password (and, if that requires approval, an invitation); and it stops being
    one only by leaving (never the owner), by a manager kicking it (never the owner, and an
    administrator only if the owner does it), or when the owner of its account revokes it. *)
Theorem membership_authorized (s : Service) (clock : Z) (gen : nat -> result bytes) (r : Request) (n d : bytes) :
  let s' := serve clock gen r s in
  (is_member s' n d -> ~ is_member s n d -> may_add s s' r n d) /\
  (is_member s n d -> ~ is_member s' n d -> may_remove s r n d).
Proof. cbv zeta. destruct (member_change clock gen r s n d); tauto. Qed.

(** A packet is forwarded only under the network's current key epoch. *)
Lemma route_epoch clock actor p s ds s' :
  route_encrypted_packet clock actor p s = (Ok ds, s') -> ds <> [] -> key_epoch p = key_epoch_for s (network_id p).
Proof.
  unfold route_encrypted_packet. rewrite run_query. destruct (negb _); [by intros [= <- _]|]. rewrite run_pure.
  destruct (encode_encrypted_network_packet p); [|done]. rewrite run_reading. destruct (find_network _ _) as [w|]; [|done].
  rewrite run_query. destruct (key_epoch p =? key_epoch_for s (network_id p)) eqn:E; [by bool_prop|].
  destruct w; by intros [= <- _].
Qed.

(** The counter a change of members leaves behind. *)
Lemma membership_change_epoch (s : Service) (clock : Z) (gen : nat -> result bytes) (r : Request) (n d : bytes) :
  let s' := serve clock gen r s in let e := default 0 (key_epochs_ s !! n) in
  e <> 2 ^ 64 - 1 -> (is_member s' n d <-> ~ is_member s n d) -> key_epochs_ s' !! n = Some (e + 1).
Proof.
  cbv zeta. intros Hm Ch.
  assert (R : rotated n (key_epochs_ s) !! n = Some (default 0 (key_epochs_ s !! n) + 1)).
  { unfold rotated. destruct (Z.eqb_spec (default 0 (key_epochs_ s !! n)) (2 ^ 64 - 1)); [done|]. by rewrite lookup_insert_eq. }
  rewrite <- R. destruct (member_change clock gen r s n d); [tauto|done..].
Qed.

(** C8: a change of members retires the network key.  Whenever a request adds or removes a
    member of a network whose epoch counter is recorded, the epoch afterwards is the next
    one, and from then on the relay forwards no packet encrypted under the old epoch or an
    earlier one, whoever sends it.  The first change of a network after the relay starts,
    when no counter is recorded yet, leaves the epoch in force at 1. *)
Theorem membership_change_rotates_key (s : Service) (clock : Z) (gen : nat -> result bytes) (r : Request) (n d : bytes) :
  let s' := serve clock gen r s in
  default 0 (key_epochs_ s !! n) <> 2 ^ 64 - 1 ->
  (is_member s' n d <-> ~ is_member s n d) ->
  (forall e, key_epochs_ s !! n = Some e ->
     key_epoch_for s' n = key_epoch_for s n + 1 /\
     (forall clock' a p ds s'', route_encrypted_packet clock' a p s' = (Ok ds, s'') ->
        network_id p = n -> key_epoch p <= e -> ds = [])) /\
  (key_epochs_ s !! n = None -> key_epoch_for s n = 1 /\ key_epoch_for s' n = 1).
Proof.
  cbv zeta. intros Hm Ch. pose proof (membership_change_epoch s clock gen r n d Hm Ch) as K'. unfold key_epoch_for.
  rewrite K'. split.
  - intros e K. rewrite K. split; [done|]. intros clock' a p ds s'' R N L. destruct ds as [|x ds]; [done|].
    apply route_epoch in R; [|done]. unfold key_epoch_for in R. rewrite N, K', K in R. cbn in R. lia.
  - intros K. by rewrite K.
Qed.
End Service.
