(* ===== verification/ServiceRouting.v ===== *)
(** * Routing by the network service

    Who receives a packet the relay routes, and that a fan-out packet is not forwarded twice. *)
From stdpp Require Import sorting.
From S2P Require Import Prelude Wire Ipv4 NetworkPolicy NetworkMessages PacketMessages Crypto PacketCipher.
From S2P Require Import AuditEvent RelayStore StoreInvariant Double ForwardingQuota Candidates NetworkService UserAccess NetworkManagement JoinTarget ServiceAccess ServiceSafety.

(** ** The leases of a network *)

Lemma nodup_fst_omap {A B C} `{EqDecision B} (f : (B * A) -> option C) (g : C -> B) (l : list (B * A)) :
  (forall x c, f x = Some c -> g c = fst x) -> NoDup (map fst l) -> NoDup (map g (omap f l)).
Proof.
  intros H. induction l as [|x l IH]; intros N; [constructor|]. cbn in *. apply NoDup_cons in N as [Nx N].
  destruct (f x) as [c|] eqn:E; [|by apply IH]. cbn. constructor; [|by apply IH].
  intros Hin. apply Nx. rewrite (H _ _ E) in Hin. apply list_elem_of_fmap in Hin as (c' & Ec & Hc').
  apply list_elem_of_omap in Hc' as (y & Hy & Ey). rewrite Ec, (H _ _ Ey). by apply list_elem_of_fmap_2.
Qed.

Lemma rows_of_nodup {A} (n : bytes) (m : gmap (bytes * bytes) A) : NoDup (map fst (rows_of n m)).
Proof.
  pose proof (nodup_fst_omap (fun e : (bytes * bytes) * A =>
    if bool_decide (fst (fst e) = n) then Some (snd (fst e), snd e) else None) (fun c => (n, fst c)) (map_to_list m)) as H.
  assert (G : NoDup (map (fun c : bytes * A => (n, fst c)) (rows_of n m))).
  { apply H; [|apply NoDup_fst_map_to_list]. intros [[n' d] a] c E. cbn in E. destruct (bool_decide _) eqn:B; [|done].
    bool_prop. by simplify_eq. }
  apply (NoDup_fmap_1 (pair n)). rewrite <- list_fmap_compose. exact G.
Qed.

Lemma read_virtual_address_inv raw a : read_virtual_address raw = Ok a -> a = raw.
Proof. unfold read_virtual_address. by destruct (negb _); intros [= <-]. Qed.
Lemma read_lease_inv n d raw l : read_lease n d raw = Ok l -> l = mk_lease n d raw.
Proof.
  unfold read_lease. destruct (read_virtual_address raw) as [a|] eqn:E; [|done]. apply read_virtual_address_inv in E as ->.
  by destruct (negb _); intros [= <-].
Qed.
Lemma read_subnet_inv n raw r : read_subnet n raw = Ok r -> r = mk_subnet_record n raw 24.
Proof.
  unfold read_subnet. destruct (read_virtual_address raw) as [a|] eqn:E; [|done]. apply read_virtual_address_inv in E as ->.
  by destruct (_ =? _); intros [= <-].
Qed.

Lemma map_result_lease n l ls : map_result (fun e : bytes * Z => read_lease n (fst e) (snd e)) l = Ok ls ->
  ls = map (fun e => mk_lease n (fst e) (snd e)) l.
Proof.
  revert ls. induction l as [|[d a] l IH]; intros ls H; cbn in H; [by apply Ok_inj in H as <-|]. ok_inv H. subst.
  cbn. rewrite <- (IH _ E0). f_equal. by apply read_lease_inv.
Qed.

Lemma leases_spec db n ls : list_virtual_ipv4_leases db n = Ok ls ->
  (forall l, l ∈ ls <-> lr_network l = n /\ db_leases db !! (n, lr_device l) = Some (lr_address l)) /\ NoDup (map lr_device ls).
Proof.
  unfold list_virtual_ipv4_leases. intros H. destruct (require_network_id n) as [[]|]; [|done]. apply map_result_lease in H as ->. split.
  - intros [n' d a]. cbn. rewrite list_elem_of_fmap. split.
    + intros ([d' a'] & [= -> -> ->] & Hin). rewrite order_by_perm in Hin. by apply rows_of_elem in Hin.
    + intros [-> Hl]. exists (d, a). split; [done|]. rewrite order_by_perm. by apply rows_of_elem.
  - rewrite map_map. cbn. rewrite order_by_perm. apply rows_of_nodup.
Qed.

(** ** Who may receive *)

Definition permitted (s : Service) (n a b : bytes) (fanout : bool) : Prop :=
  exists policy, network_policy (store_ s) n = Ok policy /\
    (managed policy = true -> a ∈ management_capable_ s /\ b ∈ management_capable_ s) /\
    (if fanout then policy_fanout_allows policy a b else policy_allows policy a b) = true.

Lemma traffic_allowed_spec n a b fanout s : traffic_allowed n a b fanout s = Ok true <-> permitted s n a b fanout.
Proof.
  unfold traffic_allowed, permitted. destruct (network_policy (store_ s) n) as [policy|]; [|split; [done|by intros (? & ? & _)]].
  split.
  - intros H. apply Ok_inj in H. bool_prop. exists policy. split; [done|]. split; [|done]. intros Hm. rewrite Hm in *. cbn in *.
    bool_prop. done.
  - intros (p & [= <-] & Hc & ->). rewrite andb_true_r. f_equal. destruct (managed policy); [|done]. cbn.
    destruct (Hc eq_refl). by rewrite !bool_decide_eq_true_2.
Qed.

Lemma known_spec {A} (k : bytes) (m : gmap bytes A) : known k m = true <-> is_Some (m !! k).
Proof. unfold known. apply bool_decide_eq_true. Qed.

Lemma fanout_recipients_spec actor n ls s ds : fanout_recipients actor n ls s = Ok ds ->
  (forall d, d ∈ ds <-> d ∈ map lr_device ls /\ d <> actor /\ is_Some (active_keys_ s !! d) /\ permitted s n actor d true) /\
  (NoDup (map lr_device ls) -> NoDup ds).
Proof.
  revert ds. induction ls as [|l ls IH]; intros ds H; cbn [fanout_recipients] in H.
  { apply Ok_inj in H as <-. split; [|done]. intros d. split; [by intros ?%not_elem_of_nil|by intros [?%not_elem_of_nil _]]. }
  destruct (if bool_decide (lr_device l = actor) then Ok false else _) as [e|] eqn:E; [|done].
  destruct (fanout_recipients actor n ls s) as [rest|] eqn:F; [|done]. apply Ok_inj in H as <-.
  destruct (IH _ eq_refl) as [S N]. clear IH.
  assert (El : e = true <-> lr_device l <> actor /\ is_Some (active_keys_ s !! lr_device l) /\ permitted s n actor (lr_device l) true).
  { rewrite <- traffic_allowed_spec, <- known_spec. destruct (bool_decide _) eqn:B in E; bool_prop.
    { apply Ok_inj in E as <-. split; [done|]. tauto. }
    destruct (known (lr_device l) (active_keys_ s)) eqn:K in E |- *; cbn in E; [|apply Ok_inj in E as <-; intuition congruence].
    rewrite E. split; [by intros ->|]. by intros (_ & _ & ?%Ok_inj). }
  split.
  - intros d. cbn [map]. rewrite elem_of_cons. destruct e.
    + rewrite elem_of_cons, S. destruct El as [El _]. specialize (El eq_refl). split; [intros [->|?]; tauto|]. tauto.
    + rewrite S. split; [tauto|]. intros ([->|?] & H2); [|tauto]. destruct El as [_ El]. by discriminate El.
  - cbn [map]. rewrite NoDup_cons. intros [N1 N2]. destruct e; [|by apply N]. constructor; [|by apply N].
    rewrite S. tauto.
Qed.

Lemma fanout_recipients_replay actor n ls x s : fanout_recipients actor n ls (set_replay x s) = fanout_recipients actor n ls s.
Proof. induction ls as [|l ls IH]; [done|]. cbn [fanout_recipients]. by rewrite IH. Qed.

Section Routing.
Context {C : Crypto} {Pw : PasswordHash}.

Lemma forward_fanout_result clock actor p replay l s ds s' :
  forward_fanout clock actor p replay l s = (Ok ds, s') -> ds = [] \/
  (ds = map (fun d => mk_delivery d (mk_forwarded actor p)) l /\
   fanout_replay_ s' = <[(network_id p, actor) := record_fanout replay p]> (fanout_replay_ s)).
Proof.
  unfold forward_fanout. destruct (_ || _); [intros [= <- _]; by left|].
  destruct (encode_forwarded_network_packet _); [|done]. destruct (quota_admit _ _ _ _ _ _) as [[|] q]; cbn [negb].
  - intros [= <- <-]. by right.
  - intros [= <- _]. by left.
Qed.

(** The window [route_fanout] works with. *)
Definition working_replay (s : Service) (p : EncryptedNetworkPacket) (actor : bytes) (own : ActiveKey) : FanoutReplay :=
  current_replay (default empty_replay (fanout_replay_ s !! (network_id p, actor))) (key_epoch p)
    (encryption_public_key (ak_signed_key own)).

Lemma route_fanout_result clock actor p own ls s ds s' :
  route_fanout clock actor p own ls s = (Ok ds, s') -> ds <> [] ->
  len (ciphertext p) <= 1400 /\ replayed (working_replay s p actor own) p = false /\
  (exists l, fanout_recipients actor (network_id p) ls s = Ok l /\ ds = map (fun d => mk_delivery d (mk_forwarded actor p)) l) /\
  fanout_replay_ s' = <[(network_id p, actor) := record_fanout (working_replay s p actor own) p]> (fanout_replay_ s).
Proof.
  unfold route_fanout. intros H Ne. destruct (_ >? _) eqn:G in H; [by injection H as <- _|]. bool_prop. cbv zeta in H.
  fold (working_replay s p actor own) in H. destruct (replayed _ _) eqn:Rp in H; [by injection H as <- _|].
  set (s1 := set_replay _ s) in H.
  assert (E : fanout_recipients actor (network_id p) ls s1 = fanout_recipients actor (network_id p) ls s)
    by apply fanout_recipients_replay.
  rewrite E in H. destruct (fanout_recipients _ _ _ _) as [l|] eqn:F; [|done].
  destruct l as [|d l]; [by injection H as <- _|]. apply forward_fanout_result in H as [->|[-> R]]; [done|].
  split; [done|]. split; [done|]. split; [by eexists|]. rewrite R. unfold s1. cbn. by rewrite insert_insert_eq.
Qed.

Lemma route_unicast_result clock actor p ls s ds s' :
  route_unicast clock actor p ls s = (Ok ds, s') -> ds <> [] ->
  exists l, l ∈ ls /\ lr_address l = destination_ipv4 p /\ is_Some (active_keys_ s !! lr_device l) /\
    permitted s (network_id p) actor (lr_device l) false /\ ds = [mk_delivery (lr_device l) (mk_forwarded actor p)].
Proof.
  unfold route_unicast. intros H Ne. destruct (List.find _ _) as [l|] eqn:F; [|by injection H as <- _].
  apply find_some in F as [Hin Ha]. apply list_elem_of_In in Hin. bool_prop. exists l.
  destruct (known _ _) eqn:K in H; cbn in H; [|by injection H as <- _]. apply known_spec in K.
  destruct (traffic_allowed _ _ _ _ _) as [[|]|] eqn:T in H; [|by injection H as <- _|done].
  apply traffic_allowed_spec in T. destruct (encode_forwarded_network_packet _); [|done].
  destruct (quota_admit _ _ _ _ _ _) as [[|] q]; injection H as <- _; done.
Qed.

(** What [route_encrypted_packet] has checked when it forwards. *)
Lemma route_inv clock actor p s ds s' :
  route_encrypted_packet clock actor p s = (Ok ds, s') -> ds <> [] ->
  exists own sender sub ls,
    device_allowed s actor = true /\ is_ok (encode_encrypted_network_packet p) = true /\
    key_epoch p = key_epoch_for s (network_id p) /\ active_keys_ s !! actor = Some own /\
    db_leases (store_ s) !! (network_id p, actor) = Some sender /\ sender <> destination_ipv4 p /\
    db_subnets (store_ s) !! network_id p = Some sub /\ list_virtual_ipv4_leases (store_ s) (network_id p) = Ok ls /\
    if is_ipv4_fanout_destination (destination_ipv4 p) sub 24
    then route_fanout clock actor p own ls s = (Ok ds, s')
    else route_unicast clock actor p ls s = (Ok ds, s').
Proof.
  intros H Ne. pose proof (route_epoch _ _ _ _ _ _ H Ne) as Ep. revert H. unfold route_encrypted_packet. rewrite run_query.
  destruct (negb (_ && _)) eqn:G; [by intros [= <- _]|]. bool_prop. rewrite run_pure.
  destruct (encode_encrypted_network_packet p) as [enc|]; [|done].
  rewrite run_reading. destruct (find_network _ _) as [w|]; [|done]. rewrite run_query.
  guard_true by (by apply Z.eqb_eq). destruct w as [w|]; [|by intros [= <- _]].
  destruct (active_keys_ s !! actor) as [own|]; [|by intros [= <- _]].
  rewrite run_reading. unfold find_virtual_ipv4_lease at 1. destruct (require_network_id _); [|done].
  destruct (require_device_id _); [|done]. destruct (db_leases (store_ s) !! (network_id p, actor)) as [raw|]; [|by intros [= <- _]].
  destruct (read_lease _ _ raw) as [l|] eqn:Rl; [|done]. apply read_lease_inv in Rl as ->.
  destruct (_ =? _) eqn:D; [by intros [= <- _]|]. bool_prop. rewrite run_reading. unfold find_subnet at 1.
  destruct (require_network_id _); [|done]. destruct (db_subnets (store_ s) !! network_id p) as [sub|]; [|by intros [= <- _]].
  destruct (read_subnet _ sub) as [rs|] eqn:Rs; [|done]. apply read_subnet_inv in Rs as ->.
  rewrite run_reading. destruct (list_virtual_ipv4_leases _ _) as [ls|]; [|done]. intros F. cbn in F.
  exists own, raw, sub, ls. split; [done|]. split; [done|]. split; [done|]. split; [done|]. split; [done|].
  split; [done|]. split; [done|]. split; [done|]. by destruct (is_ipv4_fanout_destination _ _ _).
Qed.

Lemma lease_member s n d : service_reachable s -> is_member s n d <-> is_Some (db_leases (store_ s) !! (n, d)).
Proof.
  intros R. apply service_db_ok, reachable_db_ok in R. unfold is_member, memberships. split.
  - intros [r Hr]. by destruct (ok_member _ R _ _ _ Hr) as (_ & _ & ?).
  - intros [a Ha]. by destruct (ok_lease _ R _ _ _ Ha) as (? & _).
Qed.

(** C3: the relay forwards a packet only to those entitled to it.  If routing delivers
    anything, the sender is a member with a current session and not revoked, the packet is
    under the current key epoch, each delivery is the packet unchanged with the sender's
    true identity, and no recipient gets it twice.  A fan-out packet (of at most 1400
    bytes) goes to exactly the other members that have a session and whom the policy lets
    the sender reach; any other packet to the one member that holds the destination
    address, if it has a session and the policy allows it. *)
Theorem routing_exact (s s' : Service) (clock : Z) (actor : bytes) (p : EncryptedNetworkPacket) (ds : list RoutedEncryptedPacket) :
  service_reachable s -> route_encrypted_packet clock actor p s = (Ok ds, s') -> ds <> [] ->
  let n := network_id p in
  is_member s n actor /\ is_Some (active_keys_ s !! actor) /\ device_allowed s actor = true /\
  key_epoch p = key_epoch_for s n /\
  (forall x, x ∈ ds -> delivery x = mk_forwarded actor p) /\ NoDup (map recipient ds) /\
  exists sub, db_subnets (store_ s) !! n = Some sub /\
    if is_ipv4_fanout_destination (destination_ipv4 p) sub 24
    then len (ciphertext p) <= 1400 /\
      forall d, d ∈ map recipient ds <->
        d <> actor /\ is_member s n d /\ is_Some (active_keys_ s !! d) /\ permitted s n actor d true
    else exists d, map recipient ds = [d] /\ d <> actor /\ db_leases (store_ s) !! (n, d) = Some (destination_ipv4 p) /\
      is_member s n d /\ is_Some (active_keys_ s !! d) /\ permitted s n actor d false.
Proof.
  intros R H Ne. destruct (route_inv _ _ _ _ _ _ H Ne) as (own & a & sub & ls & Da & _ & Ep & Ow & La & Nd & Su & Ll & F).
  apply leases_spec in Ll as [Le Nl]. cbv zeta.
  split; [apply lease_member; [done|by eexists]|]. split; [by eexists|]. split; [done|]. split; [done|].
  destruct (is_ipv4_fanout_destination _ _ _) eqn:Fo.
  - apply route_fanout_result in F as (Sz & _ & (l & Fr & ->) & _); [|done]. apply fanout_recipients_spec in Fr as [Sp Nd'].
    split; [intros x Hx; by apply list_elem_of_fmap in Hx as (d & -> & _)|]. rewrite map_map. cbn. rewrite map_id.
    split; [by apply Nd'|]. exists sub. split; [done|]. rewrite Fo. split; [done|]. intros d. rewrite Sp, (lease_member s) by done.
    rewrite list_elem_of_fmap. split.
    + intros ((x & -> & Hx) & ? & ? & ?). apply Le in Hx as [_ Hx]. split; [done|]. split; [by eexists|done].
    + intros (? & [b Hb] & ? & ?). split; [|done]. exists (mk_lease (network_id p) d b). split; [done|]. by apply Le.
  - apply route_unicast_result in F as (l & Hl & Ha & Hk & Hp & ->); [|done]. apply Le in Hl as [_ Hl].
    split; [intros x Hx; by apply list_elem_of_singleton in Hx as ->|]. split; [apply NoDup_singleton|].
    exists sub. split; [done|]. rewrite Fo. exists (lr_device l). rewrite <- Ha. split; [done|]. split; [congruence|].
    split; [done|]. split; [apply lease_member; [done|by eexists]|]. done.
Qed.

(** ** Fan-out packets are not forwarded twice *)

(** What routing one packet does to the windows: nothing, open the sender's window for this
    epoch and session, or record the packet in it; and whether it was sent to many. *)
Inductive window_effect (s : Service) (actor : bytes) (p : EncryptedNetworkPacket) : bool -> Service -> Prop :=
| we_none s' : fanout_replay_ s' = fanout_replay_ s -> window_effect s actor p false s'
| we_opened own s' : active_keys_ s !! actor = Some own ->
    fanout_replay_ s' = <[(network_id p, actor) := working_replay s p actor own]> (fanout_replay_ s) ->
    window_effect s actor p false s'
| we_recorded own s' : active_keys_ s !! actor = Some own -> valid_packet p = true ->
    replayed (working_replay s p actor own) p = false ->
    fanout_replay_ s' = <[(network_id p, actor) := record_fanout (working_replay s p actor own) p]> (fanout_replay_ s) ->
    window_effect s actor p true s'.

Definition delivered {A} (r : result (list A)) : bool := match r with Ok (_ :: _) => true | _ => false end.

(** A packet for the broadcast address or a multicast group of its network. *)
Definition to_many (s : Service) (p : EncryptedNetworkPacket) : bool :=
  match db_subnets (store_ s) !! network_id p with
  | Some sub => is_ipv4_fanout_destination (destination_ipv4 p) sub 24
  | None => false
  end.

Lemma forward_fanout_windows clock actor p replay l s :
  let '(r, s') := forward_fanout clock actor p replay l s in
  delivered r = false /\ fanout_replay_ s' = fanout_replay_ s \/
  fanout_replay_ s' = <[(network_id p, actor) := record_fanout replay p]> (fanout_replay_ s) /\ (delivered r = false -> l = []).
Proof.
  unfold forward_fanout. destruct (_ || _); [by left|]. destruct (encode_forwarded_network_packet _); [|by left].
  destruct (quota_admit _ _ _ _ _ _) as [[|] q]; cbn [negb]; [right|by left]. split; [done|]. by destruct l.
Qed.

Lemma route_fanout_windows clock actor p own ls s :
  active_keys_ s !! actor = Some own -> valid_packet p = true ->
  let '(r, s') := route_fanout clock actor p own ls s in window_effect s actor p (delivered r) s'.
Proof.
  intros Ow V. unfold route_fanout. destruct (_ >? _); [by constructor|]. cbv zeta. fold (working_replay s p actor own).
  destruct (replayed _ _) eqn:Rp; [by eapply we_opened|].
  set (s1 := set_replay _ s). destruct (fanout_recipients _ _ _ _) as [[|d l]|]; [by eapply we_opened| |by eapply we_opened].
  pose proof (forward_fanout_windows clock actor p (working_replay s p actor own) (d :: l) s1) as F.
  destruct (forward_fanout _ _ _ _ _ _) as [r s']. destruct F as [[-> F]|[F D]].
  - eapply we_opened; [done|]. by rewrite F.
  - destruct (delivered r); [|by discriminate D]. eapply we_recorded; [done..|]. rewrite F. unfold s1. cbn. by rewrite insert_insert_eq.
Qed.

Lemma route_unicast_windows clock actor p ls s : fanout_replay_ (snd (route_unicast clock actor p ls s)) = fanout_replay_ s.
Proof.
  unfold route_unicast. destruct (List.find _ _); [|done]. destruct (negb _); [done|].
  destruct (traffic_allowed _ _ _ _ _) as [[|]|]; [|done..]. destruct (encode_forwarded_network_packet _); [|done].
  by destruct (quota_admit _ _ _ _ _ _).
Qed.

Lemma route_windows clock actor p s :
  let '(r, s') := route_encrypted_packet clock actor p s in window_effect s actor p (delivered r && to_many s p) s'.
Proof.
  unfold route_encrypted_packet. rewrite run_query. destruct (negb _); [by constructor|]. rewrite run_pure.
  destruct (encode_encrypted_network_packet p) as [enc|] eqn:En; [|by constructor].
  assert (V : valid_packet p = true).
  { unfold encode_encrypted_network_packet, encode_encrypted_network_packet_header in En. by destruct (valid_packet p). }
  rewrite run_reading. destruct (find_network _ _) as [[w|]|]; [|rewrite run_query; by constructor|by constructor].
  rewrite run_query. destruct (_ =? _); [|by constructor].
  destruct (active_keys_ s !! actor) as [own|] eqn:Ow; [|by constructor]. rewrite run_reading.
  destruct (find_virtual_ipv4_lease _ _ _) as [[l|]|]; [|by constructor..]. destruct (_ =? _); [by constructor|].
  rewrite run_reading. unfold find_subnet, to_many. destruct (require_network_id _); [|by constructor].
  destruct (db_subnets _ !! _) as [sub|]; [|by constructor].
  destruct (read_subnet _ sub) as [rs|] eqn:Rs; [|by constructor]. apply read_subnet_inv in Rs as ->. cbn [sr_address sr_prefix].
  rewrite run_reading. destruct (list_virtual_ipv4_leases _ _) as [ls|]; [|by constructor].
  destruct (is_ipv4_fanout_destination _ _ _).
  - pose proof (route_fanout_windows clock actor p own ls s Ow V) as F.
    destruct (route_fanout _ _ _ _ _ _) as [r s']. by rewrite andb_true_r.
  - pose proof (route_unicast_windows clock actor p ls s) as F. destruct (route_unicast _ _ _ _ _) as [r s'].
    rewrite andb_false_r. by constructor.
Qed.

Lemma windows_create clock gen actor name now_ms password :
  keeps same_windows (create_network_locked clock gen actor name now_ms password).
Proof.
  unfold create_network_locked, guarded_limit. steps.
  generalize network_id_generation_attempts. intros n. induction n as [|n IH]; cbn [create_attempts]; steps.
Qed.

Lemma other_windows clock gen r s k :
  match r with rq_route _ _ => True | _ =>
    fanout_replay_ (serve clock gen r s) !! k = fanout_replay_ s !! k \/ fanout_replay_ (serve clock gen r s) !! k = None end.
Proof.
  assert (G : forall A (m : M A), keeps same_windows m ->
    fanout_replay_ (snd (m s)) !! k = fanout_replay_ s !! k \/ fanout_replay_ (snd (m s)) !! k = None).
  { intros A m H. left. by rewrite (H s). }
  destruct r; cbn [serve]; try done.
  - apply G. unfold record_authenticated_device. steps.
  - apply G. unfold publish_device_key. steps.
  - unfold remove_device_key. destruct (active_keys_ s !! actor); [|by left]. destruct (negb _); [by left|].
    rewrite run_modify. match goal with |- context [snd (?m ?s1)] =>
      assert (K : keeps same_windows m) by steps; rewrite (K s1) end.
    cbn. destruct (decide (snd k = actor)).
    + right. apply map_lookup_filter_None. right. intros x _. cbn. tauto.
    + left. destruct (fanout_replay_ s !! k) eqn:L.
      * by apply map_lookup_filter_Some.
      * apply map_lookup_filter_None. by left.
  - apply G. unfold set_management_capable. steps.
  - apply G. unfold create_network. steps. apply windows_create.
  - apply G. unfold list_networks. steps.
  - apply G. unfold join_network, join_network_locked, guarded_limit. steps.
  - apply G. unfold leave_network, guarded. steps.
  - apply G. unfold invite_member, managing, guarded. steps.
  - apply G. unfold approve_member, managing, guarded_limit. steps.
  - apply G. unfold kick_member, managing, guarded. steps.
  - apply G. unfold peer_state. steps.
  - left. unfold set_forwarding_limits. by destruct (configure _ _).
  - left. unfold admit_control. by destruct (control _ _ _).
  - apply G. unfold manage_network, manage_network_locked. steps.
  - apply G. unfold access_request. apply keeps_bind; [exact _|steps|]. intros _. apply keeps_bind; [exact _|steps|]. intros _.
    apply keeps_at_exit; [exact _|]. unfold access_request_locked, revoke_device, expel, expel_from, create_protected,
      invitation_request, password_request, account_request, account_answer, join_network_locked, guarded_limit. steps.
    apply windows_create.
Qed.

(** The epoch and session key a window is for. *)
Definition window_id (s : Service) (k : bytes * bytes) : option (Z * bytes) :=
  fmap (fun r => (fr_epoch r, fr_session_key r)) (fanout_replay_ s !! k).

(** The fan-out packet a request forwarded, by network, sender and sequence number. *)
Definition forwarded_by (clock : Z) (r : Request) (s : Service) : option ((bytes * bytes) * Z) :=
  match r with
  | rq_route a p => if delivered (fst (route_encrypted_packet clock a p s)) && to_many s p
                    then Some ((network_id p, a), sequence p) else None
  | _ => None
  end.

(** Sequence numbers are 32-bit. *)
Definition typed_request (r : Request) : Prop := match r with rq_route _ p => word 4 (sequence p) | _ => True end.

(** The services reachable from the start, each with the sequence numbers of the fan-out
    packets forwarded for a network and sender since that window was opened. *)
Inductive window_reach : Service -> (bytes * bytes -> gset Z) -> Prop :=
| wr_start db : window_reach (fresh_service db) (fun _ => ∅)
| wr_serve s g clock gen r : window_reach s g -> typed_request r ->
    let s' := serve clock gen r s in
    window_reach s' (fun k =>
      let kept := if bool_decide (window_id s' k = window_id s k) then g k else ∅ in
      match forwarded_by clock r s with
      | Some (k', q) => if bool_decide (k' = k) then {[q]} ∪ kept else kept
      | None => kept
      end).

(** The window as one of [PacketCipher]. *)
Definition as_receiver (r : FanoutReplay) : PeerReceiver :=
  mk_receiver [] 0 [] (fr_nonce_prefix r) (fr_highest r) (fr_seen r) (negb (fr_highest r =? 0)) true.

Definition window_ok (A : gset Z) (r : FanoutReplay) : Prop :=
  0 <= fr_highest r /\ (fr_highest r = 0 -> fr_seen r = 0) /\ receiver_inv A (as_receiver r).

Lemma replayed_spec r p : fr_highest r <> 0 -> replayed r p = false ->
  take 8 (nonce p) = fr_nonce_prefix r /\ accept_sequence (sequence p) (fr_highest r) (fr_seen r) = true.
Proof.
  intros H. unfold replayed, accept_sequence. destruct (Z.eqb_spec (fr_highest r) 0); [done|]. cbn [negb andb]. intros G. bool_prop.
  split; [done|]. destruct (Z.gtb_spec (sequence p) (fr_highest r)); [done|].
  destruct (Z.leb_spec (sequence p) (fr_highest r)); [|lia]. cbn in *. bool_prop.
  rewrite andb_true_iff, Z.ltb_lt, Z.eqb_eq. split; [lia|done].
Qed.

Lemma record_fanout_receiver r p : 0 < sequence p -> 0 <= fr_highest r -> (fr_highest r = 0 -> fr_seen r = 0) ->
  as_receiver (record_fanout r p) = record_sequence (as_receiver r) p.
Proof.
  intros Hq Hh Hs. unfold record_fanout, record_sequence, as_receiver. cbn [initialized highest_sequence seen_sequences nonce_prefix].
  destruct (Z.eqb_spec (fr_highest r) 0) as [E|E]; cbn [negb].
  - rewrite (Hs E), E. destruct (Z.gtb_spec (sequence p) 0); [|lia]. cbn [fr_highest fr_seen fr_nonce_prefix].
    destruct (Z.eqb_spec (sequence p) 0); [lia|]. rewrite Z.shiftl_0_l. by destruct (_ >=? _).
  - destruct (Z.gtb_spec (sequence p) (fr_highest r)); cbn [fr_highest fr_seen fr_nonce_prefix].
    + destruct (Z.eqb_spec (sequence p) 0); [lia|]. done.
    + destruct (Z.eqb_spec (fr_highest r) 0); [lia|]. done.
Qed.

Lemma window_record A r p : window_ok A r -> 0 < sequence p -> replayed r p = false ->
  (sequence p ∉ A) /\ window_ok ({[sequence p]} ∪ A) (record_fanout r p).
Proof.
  intros (H1 & H2 & H3) Hq Rp.
  assert (Ac : initialized (as_receiver r) = true -> accept_sequence (sequence p) (highest_sequence (as_receiver r)) (seen_sequences (as_receiver r)) = true).
  { cbn. intros I. bool_prop. by apply replayed_spec. }
  split.
  - destruct (initialized (as_receiver r)) eqn:I; [by apply (accept_sequence_spec A _ _ H3 I), Ac|].
    unfold receiver_inv in H3. rewrite I in H3. subst A. set_solver.
  - unfold window_ok. rewrite record_fanout_receiver by done. split; [|split; [|by apply record_sequence_inv]].
    + unfold record_fanout. destruct (_ >? _); cbn; lia.
    + unfold record_fanout. destruct (_ >? _) eqn:G; cbn; [lia|]. bool_prop. lia.
Qed.

Lemma window_fresh epoch key : window_ok ∅ (mk_replay epoch key (replicate 8 x00) 0 0).
Proof. done. Qed.

Lemma working_id s p actor own :
  (fr_epoch (working_replay s p actor own), fr_session_key (working_replay s p actor own)) =
  (key_epoch p, encryption_public_key (ak_signed_key own)).
Proof.
  unfold working_replay, current_replay. destruct (_ || _) eqn:G; [done|]. bool_prop. by f_equal.
Qed.

Lemma record_fanout_id r p : (fr_epoch (record_fanout r p), fr_session_key (record_fanout r p)) = (fr_epoch r, fr_session_key r).
Proof. unfold record_fanout. by destruct (_ >? _). Qed.

Definition window_sound (s : Service) (g : bytes * bytes -> gset Z) (k : bytes * bytes) : Prop :=
  match fanout_replay_ s !! k with Some r => window_ok (g k) r | None => g k = ∅ end.

(** Opening a window keeps what was forwarded in it, or starts afresh. *)
Lemma working_ok s g p actor own :
  let k := (network_id p, actor) in
  let w := working_replay s p actor own in
  window_sound s g k ->
  window_ok (if bool_decide (Some (fr_epoch w, fr_session_key w) = window_id s k) then g k else ∅) w.
Proof.
  cbv zeta. unfold window_sound, window_id. intros H.
  pose proof (working_id s p actor own) as I. unfold working_replay, current_replay in *.
  destruct (fanout_replay_ s !! (network_id p, actor)) as [r|]; cbn [default from_option fmap option_fmap option_map] in *.
  - destruct (_ || _) eqn:G.
    + rewrite bool_decide_eq_false_2; [apply window_fresh|]. cbn. intros [= E1 E2].
      by rewrite E1, E2, Z.eqb_refl, bool_decide_eq_true_2 in G.
    + by rewrite bool_decide_eq_true_2.
  - rewrite bool_decide_eq_false_2 by done. destruct (_ || _); apply window_fresh.
Qed.

(** Routing keeps the windows sound. *)
Lemma route_sound s s' g a p b :
  (forall k, window_sound s g k) -> word 4 (sequence p) -> window_effect s a p b s' ->
  forall k, window_sound s' (fun k =>
    let kept := if bool_decide (window_id s' k = window_id s k) then g k else ∅ in
    if b && bool_decide ((network_id p, a) = k) then {[sequence p]} ∪ kept else kept) k.
Proof.
  intros S Wq E k. unfold window_sound. cbv zeta.
  assert (Same : fanout_replay_ s' !! k = fanout_replay_ s !! k ->
    match fanout_replay_ s' !! k with
    | Some r => window_ok (if bool_decide (window_id s' k = window_id s k) then g k else ∅) r
    | None => (if bool_decide (window_id s' k = window_id s k) then g k else ∅) = ∅ end).
  { intros F. rewrite bool_decide_eq_true_2 by (unfold window_id; by rewrite F). rewrite F. exact (S k). }
  destruct E as [s' E|own s' Ow E|own s' Ow V Rp E]; cbn [andb].
  - apply Same. by rewrite E.
  - destruct (decide ((network_id p, a) = k)) as [<-|Ne]; [|apply Same; by rewrite E, lookup_insert_ne].
    assert (window_id s' (network_id p, a) = Some (fr_epoch (working_replay s p a own), fr_session_key (working_replay s p a own))) as ->
      by (unfold window_id; by rewrite E, lookup_insert_eq).
    rewrite E, lookup_insert_eq. apply (working_ok s g p a own), S.
  - destruct (decide ((network_id p, a) = k)) as [<-|Ne].
    + rewrite (bool_decide_eq_true_2 ((network_id p, a) = _)) by done.
      assert (window_id s' (network_id p, a) = Some (fr_epoch (working_replay s p a own), fr_session_key (working_replay s p a own))) as ->
        by (unfold window_id; rewrite E, lookup_insert_eq; cbn; by rewrite record_fanout_id).
      rewrite E, lookup_insert_eq. apply window_record; [apply (working_ok s g p a own), S| |done].
      unfold valid_packet in V. destruct (_ || _) eqn:G in V; [done|]. bool_prop. words. lia.
    + rewrite (bool_decide_eq_false_2 ((network_id p, a) = k)) by done. apply Same. by rewrite E, lookup_insert_ne.
Qed.

(** The sets of the reachable services are what the windows record. *)
Lemma window_reach_sound s g : window_reach s g -> forall k, window_sound s g k.
Proof.
  induction 1 as [db|s g clock gen r R IH W s']; intros k; [done|].
  assert (O : fanout_replay_ s' !! k = fanout_replay_ s !! k \/ fanout_replay_ s' !! k = None -> forwarded_by clock r s = None ->
    window_sound s' (fun k => let kept := if bool_decide (window_id s' k = window_id s k) then g k else ∅ in
      match forwarded_by clock r s with
      | Some (k', q) => if bool_decide (k' = k) then {[q]} ∪ kept else kept | None => kept end) k).
  { intros E ->. specialize (IH k). unfold window_sound in *. cbv zeta. destruct E as [E|E].
    - rewrite bool_decide_eq_true_2 by (unfold window_id; by rewrite E). rewrite E. exact IH.
    - rewrite E. destruct (bool_decide _) eqn:B; [|done]. bool_prop. unfold window_id in B. rewrite E in B.
      by destruct (fanout_replay_ s !! k). }
  pose proof (other_windows clock gen r s k) as Q. destruct r; try (by apply O); clear Q O.
  cbn [serve] in s'. pose proof (route_windows clock actor p s) as E. unfold forwarded_by, s'.
  destruct (route_encrypted_packet clock actor p s) as [res s2]. cbn [fst snd] in *.
  pose proof (route_sound s s2 g actor p _ IH W E k) as G. destruct (delivered res && to_many s p); [|exact G].
  unfold window_sound in *. cbn [andb] in G. exact G.
Qed.

End Routing.
