(* ===== verification/ServicePeers.v ===== *)
(** * Peer states and key distribution

    The peer states the relay hands out list exactly the members and can always be encoded;
    key envelopes are distributed only by the owner to current members; revisions and key
    epochs only grow. *)
From stdpp Require Import sorting.
From S2P Require Import Prelude Wire Ipv4 NetworkPolicy NetworkMessages PacketMessages Crypto PacketCipher.
From S2P Require Import AuditEvent RelayStore StoreInvariant Double ForwardingQuota Candidates NetworkService UserAccess NetworkManagement JoinTarget ServiceAccess ServiceSafety ServiceRouting.

(** ** Identifiers in the database are not zero *)

Definition ids_ok (db : Db) : Prop :=
  (forall d, is_Some (db_devices db !! d) -> is_zero d = false) /\ (forall n, is_Some (db_networks db !! n) -> is_zero n = false).

Lemma ids_ok_same a b : db_devices b = db_devices a -> db_networks b = db_networks a -> ids_ok a -> ids_ok b.
Proof. unfold ids_ok. by intros -> ->. Qed.

Lemma same_tables_ids a b : same_tables a b -> ids_ok a -> ids_ok b.
Proof. intros (E1 & E2 & _). by apply ids_ok_same. Qed.

(** Runs an operation that does not write devices or networks. *)
Ltac untouched H :=
  repeat match type of H with
  | (let* _ := constraint _ in _) = Ok _ => destruct (constraint _) as [[]|]; [|discriminate H]
  | context [match ?x with _ => _ end] => destruct x; try discriminate H
  end;
  apply Ok_inj in H; simplify_eq; done.

Lemma add_member_ids db n d t b db' : add_member db n d t = Ok (b, db') -> db_devices db' = db_devices db /\ db_networks db' = db_networks db.
Proof.
  unfold add_member. intros H. destruct (require_network_id n) as [[]|]; [|done].
  destruct (require_device_id d) as [[]|]; [|done]. destruct (require_timestamp t) as [[]|]; [|done].
  destruct (present _ _); [by apply Ok_inj in H as [= <- <-]|].
  destruct (insert_membership _ _ _ _ _) as [db1|] eqn:E1; [|done]. destruct (insert_lease _ _ _) as [db2|] eqn:E2; [|done].
  apply Ok_inj in H as [= <- <-]. apply insert_membership_ok in E1 as (-> & _). by apply insert_lease_ok in E2 as (c & x & -> & _).
Qed.

Lemma remove_member_ids db n d b db' : remove_member db n d = Ok (b, db') -> db_devices db' = db_devices db /\ db_networks db' = db_networks db.
Proof.
  unfold remove_member. intros H. destruct (require_network_id n) as [[]|]; [|done].
  destruct (require_device_id d) as [[]|]; [|done]. destruct (bool_decide _); [|by apply Ok_inj in H as [= <- <-]].
  destruct (read_policy _ _) as [old|]; [|done]. destruct (bool_decide _); [by apply Ok_inj in H as [= <- <-]|].
  destruct (negb _); [|done]. destruct (encode_network_policy _) as [doc|]; [|done]. destruct (constraint _); [|done].
  apply Ok_inj in H as [= <- <-]. by destruct (present _ _).
Qed.

Lemma redeem_ids db n g a now b db' : redeem_invite_link db n g a now = Ok (b, db') ->
  db_devices db' = db_devices db /\ db_networks db' = db_networks db.
Proof.
  unfold redeem_invite_link. intros H. destruct (db_links db !! g) as [link|]; [|by apply Ok_inj in H as [= <- <-]].
  destruct (_ && _ && _) in H; [|by apply Ok_inj in H as [= <- <-]]. cbv zeta in H.
  destruct (constraint _) as [[]|] in H; [|done]. destruct (present _ _) in H; [by apply Ok_inj in H as [= <- <-]|].
  destruct (constraint _) as [[]|] in H; [|done]. by apply Ok_inj in H as [= <- <-].
Qed.

Lemma create_network_ids db w p db' : RelayStore.create_network db w p = Ok db' ->
  is_zero (nr_id w) = false /\ db_devices db' = db_devices db /\ (forall n, is_Some (db_networks db' !! n) -> n = nr_id w \/ is_Some (db_networks db !! n)).
Proof.
  unfold RelayStore.create_network. intros H. unfold require_network_id in H. destruct (is_zero (nr_id w)); [done|]. cbn [negb] in H.
  destruct (require_network_name _); [|done]. destruct (require_device_id _); [|done]. destruct (require_timestamp _); [|done].
  destruct (constraint _); [|done]. destruct (insert_subnet _ _) as [db1|] eqn:E1; [|done]. destruct (constraint _); [|done].
  destruct (insert_membership _ _ _ _ _) as [db2|] eqn:E2; [|done]. destruct (insert_lease _ _ _) as [db3|] eqn:E3; [|done].
  apply insert_subnet_ok in E1 as (c & -> & _). apply insert_membership_ok in E2 as (-> & _).
  apply insert_lease_ok in E3 as (x & y & -> & _). split; [done|].
  assert (G : db_devices db' = db_devices db /\
    db_networks db' = <[nr_id w := mk_network_row (nr_name w) (nr_owner w) (nr_created w)]> (db_networks db)).
  { destruct p as [p|]; [destruct (constraint _); [|done]|]; by apply Ok_inj in H as <-. }
  destruct G as [-> ->]. split; [done|]. intros n Hn. apply lookup_insert_is_Some' in Hn. intuition congruence.
Qed.

Lemma store_step_ids db db' : store_step db db' -> ids_ok db -> ids_ok db'.
Proof.
  intros S OK. destruct S as
    [d t db' H|w p db' H|n b db' H|n d t b db' H|n d b db' H|n d t b db' H|n d b db' H|n d t b db' H|n d b db' H
    |n g now ex u db' H|n g a now b db' H|n|n p db' H|a now db' H|a g ex db' H|g d l now b db' H|a d|n p e au b db' H|e db' H].
  - unfold record_device, require_device_id in H. destruct (is_zero d) eqn:Z; [done|]. cbn in H.
    destruct (require_timestamp t); [|done]. apply Ok_inj in H as <-. destruct OK as [O1 O2]. split; [|exact O2].
    intros d' Hd. cbn in Hd. apply lookup_insert_is_Some' in Hd as [<-|Hd]; [done|auto].
  - apply create_network_ids in H as (Z & E1 & E2). destruct OK as [O1 O2]. split; [by rewrite E1|].
    intros n Hn. apply E2 in Hn as [->|Hn]; auto.
  - unfold delete_network in H. destruct (require_network_id n); [|done].
    destruct (present _ _); apply Ok_inj in H as [= <- <-]; [|done]. destruct OK as [O1 O2]. split; [exact O1|].
    intros n' Hn. cbn in Hn. apply lookup_delete_is_Some in Hn as [_ Hn]. auto.
  - apply add_member_ids in H as [E1 E2]. by eapply ids_ok_same.
  - apply remove_member_ids in H as [E1 E2]. by eapply ids_ok_same.
  - eapply ids_ok_same; [..|exact OK]; unfold add_invitation in H; untouched H.
  - eapply ids_ok_same; [..|exact OK]; unfold remove_invitation in H; untouched H.
  - eapply ids_ok_same; [..|exact OK]; unfold add_join_request in H; untouched H.
  - eapply ids_ok_same; [..|exact OK]; unfold remove_join_request in H; untouched H.
  - eapply ids_ok_same; [..|exact OK]; unfold issue_invite_link in H; untouched H.
  - apply redeem_ids in H as [E1 E2]. by eapply ids_ok_same.
  - done.
  - eapply ids_ok_same; [..|exact OK]; unfold set_network_password in H; untouched H.
  - eapply ids_ok_same; [..|exact OK]; unfold create_account in H; untouched H.
  - eapply ids_ok_same; [..|exact OK]; unfold issue_enrollment in H; untouched H.
  - eapply ids_ok_same; [..|exact OK]; unfold enroll_device in H; untouched H.
  - eapply ids_ok_same; [..|exact OK]; unfold revoke_account_device; destruct (db_account_devices db !! d); try done;
    by destruct (_ && _).
  - eapply same_tables_ids; [|exact OK]. by eapply save_network_policy_same.
  - eapply same_tables_ids; [|exact OK]. by eapply append_audit_same.
Qed.

Lemma reachable_ids db : store_reachable db -> ids_ok db.
Proof.
  assert (G : forall a b, rtc store_step a b -> ids_ok a -> ids_ok b).
  { induction 1 as [|a b c S _ IH]; [done|]. intros OK. apply IH. by eapply store_step_ids. }
  intros H. apply (G _ _ H). split; cbn; intros x [y Hy]; by rewrite lookup_empty in Hy.
Qed.

(** ** The peer state of a member *)

Section Peers.
Context {C : Crypto} {Pw : PasswordHash}.

Lemma reachable_epochs s : service_reachable s -> forall n e, key_epochs_ s !! n = Some e -> 0 < e.
Proof.
  induction 1 as [db _|s clock gen r _ IH]; [cbn; intros n e H; by rewrite lookup_empty in H|].
  by apply (serve_keeps counters_grow clock gen r s).
Qed.

(** A /24 holds at most 254 leases. *)
Lemma distinct_hosts (l : list Z) b : NoDup l -> Forall (fun a => b < a < b + 255) l -> (length l <= 254)%nat.
Proof.
  intros N F. assert (l ⊆+ seqZ (b + 1) 254).
  { apply NoDup_submseteq; [done|]. intros x Hx. rewrite Forall_forall in F. specialize (F x Hx). apply elem_of_seqZ. lia. }
  apply submseteq_length in H. by rewrite length_seqZ in H.
Qed.

Lemma map_result_total {A B} (f : A -> result B) l : Forall (fun a => is_ok (f a) = true) l -> exists k, map_result f l = Ok k.
Proof.
  induction 1 as [|a l H _ [k IH]]; [by exists []|]. cbn. destruct (f a); [|done]. rewrite IH. by eexists.
Qed.

Lemma read_host n d sub a :
  virtual_ipv4_pool_first <= sub < virtual_ipv4_pool_end -> sub mod 256 = 0 -> sub < a < sub + 255 -> is_ok (read_lease n d a) = true.
Proof.
  unfold virtual_ipv4_pool_first, virtual_ipv4_pool_end. intros H1 H2 H3.
  assert (E : exists k, sub = 256 * k) by (exists (sub / 256); apply Z.div_exact; lia). destruct E as [k ->].
  assert (a mod 256 = a - 256 * k) by (symmetry; apply Z.mod_unique with k; lia).
  assert (k < 688128) by lia. unfold read_lease, read_virtual_address, virtual_ipv4_pool_first, virtual_ipv4_pool_end, virtual_ipv4_subnet_size.
  guard_true by (rewrite negb_true_iff, orb_false_iff, Z.geb_leb, Z.ltb_ge, Z.leb_gt; lia).
  guard_true by (rewrite negb_true_iff, orb_false_iff, !Z.eqb_neq; lia). done.
Qed.

(** The subnet and the leases of a network are read without error. *)
Lemma leases_read s n w : service_reachable s -> db_networks (store_ s) !! n = Some w ->
  exists sub ls, db_subnets (store_ s) !! n = Some sub /\ find_subnet (store_ s) n = Ok (Some (mk_subnet_record n sub 24)) /\
    virtual_ipv4_pool_first <= sub < virtual_ipv4_pool_end /\ sub mod 256 = 0 /\
    list_virtual_ipv4_leases (store_ s) n = Ok ls /\ (length ls <= 254)%nat /\ NoDup (map lr_address ls) /\
    Forall (fun l => sub < lr_address l < sub + 255) ls.
Proof.
  intros R Hn. apply service_db_ok in R. assert (Zn : is_zero n = false) by (apply (reachable_ids _ R); by eexists).
  apply reachable_db_ok in R. destruct (ok_network_subnet _ R n) as [sub Su]; [by eexists|].
  destruct (ok_subnet _ R _ _ Su) as (_ & Rg & Md). exists sub.
  assert (Lo : forall d a, db_leases (store_ s) !! (n, d) = Some a -> sub < a < sub + 255).
  { intros d a Ha. destruct (ok_lease _ R _ _ _ Ha) as (_ & sub' & Su' & ?). congruence. }
  assert (Rq : require_network_id n = Ok tt) by (unfold require_network_id; by rewrite Zn).
  destruct (map_result_total (fun e : bytes * Z => read_lease n (fst e) (snd e)) (order_by (fun e => [snd e]) (network_leases (store_ s) n)))
    as [ls Hls].
  { rewrite Forall_forall. intros [d a] Hin. rewrite order_by_perm in Hin. apply rows_of_elem, Lo in Hin. cbn. by eapply read_host. }
  assert (Ll : list_virtual_ipv4_leases (store_ s) n = Ok ls) by (unfold list_virtual_ipv4_leases; by rewrite Rq).
  pose proof (leases_spec _ _ _ Ll) as [Sp Nd]. exists ls.
  assert (Fa : Forall (fun l => sub < lr_address l < sub + 255) ls).
  { rewrite Forall_forall. intros l Hl. apply Sp in Hl as [_ Hl]. by eapply Lo. }
  assert (Na : NoDup (map lr_address ls)).
  { apply NoDup_fmap_2_strong; [|by eapply NoDup_fmap_1]. intros x y Hx Hy E. apply Sp in Hx as [N1 Hx], Hy as [N2 Hy].
    rewrite E in Hx. pose proof (ok_lease_inj _ R _ _ _ Hx Hy) as [= Ed]. destruct x, y; cbn in *; congruence. }
  split; [done|]. split.
  { unfold find_subnet. rewrite Rq, Su. unfold read_subnet, read_virtual_address.
    guard_true by (rewrite negb_true_iff, orb_false_iff, Z.geb_leb, Z.ltb_ge, Z.leb_gt; lia).
    guard_true by (by apply Z.eqb_eq). done. }
  split; [done|]. split; [done|]. split; [done|]. split; [|done].
  rewrite <- (length_map lr_address). apply (distinct_hosts _ sub); [done|]. by apply Forall_map.
Qed.

Lemma valid_peers_ok sub l : forall ids addresses,
  (forall p, p ∈ l -> is_zero (peer_device_id p) = false /\ sub < ipv4_address p < sub + 255 /\
     (peer_device_id p ∉ ids) /\ (ipv4_address p ∉ addresses)) ->
  NoDup (map peer_device_id l) -> NoDup (map ipv4_address l) -> valid_peers sub ids addresses l = true.
Proof.
  induction l as [|p l IH]; intros ids addresses H N1 N2; [done|]. cbn [valid_peers map] in *.
  apply NoDup_cons in N1 as [M1 N1], N2 as [M2 N2]. destruct (H p) as (Z & Rg & D & A); [left|].
  rewrite Z, (bool_decide_eq_false_2 _ D), (bool_decide_eq_false_2 _ A). unfold peer_subnet_size.
  destruct (Z.leb_spec (ipv4_address p) sub); [lia|]. destruct (Z.geb_spec (ipv4_address p) (sub + 256 - 1)); [lia|]. cbn [orb].
  apply IH; [|done..]. intros q Hq. destruct (H q) as (Zq & Rq & Dq & Aq); [by right|]. split; [done|]. split; [done|].
  split; apply not_elem_of_union; (split; [apply not_elem_of_singleton|done]); intros E.
  - apply M1. rewrite <- E. by apply list_elem_of_fmap_2.
  - apply M2. rewrite <- E. by apply list_elem_of_fmap_2.
Qed.

Lemma read_policy_encodes db n policy : network_policy db n = Ok policy -> managed policy = true ->
  is_ok (encode_network_policy policy) = true.
Proof.
  unfold network_policy, read_policy. destruct (db_policies db !! n) as [doc|]; [|by intros [= <-]].
  destruct (negb _); [|done]. intros H _. apply network_policy_codec in H as [_ ->]. done.
Qed.

(** The peers a member is told about, before keys are withheld. *)
Definition listed (s : Service) (actor : bytes) (ls : list VirtualIpv4LeaseRecord) : list NetworkPeer :=
  map (peer_of (active_keys_ s)) (List.filter (fun l => negb (bool_decide (lr_device l = actor))) ls).

(** A peer as the state shows it: its key is withheld in a managed network when the peer
    cannot take part in management. *)
Definition shown (s : Service) (policy : NetworkPolicy) (p : NetworkPeer) : NetworkPeer :=
  if managed policy && negb (bool_decide (peer_device_id p ∈ management_capable_ s)) then without_key p else p.

Lemma filter_elem {A} (f : A -> bool) l x : x ∈ List.filter f l <-> x ∈ l /\ f x = true.
Proof. rewrite !list_elem_of_In. apply filter_In. Qed.

Lemma filter_nodup {A B} (f : A -> bool) (g : A -> B) l : NoDup (map g l) -> NoDup (map g (List.filter f l)).
Proof.
  induction l as [|x l IH]; [done|]. cbn [map List.filter]. intros [N1 N2]%NoDup_cons. destruct (f x); [|by apply IH].
  cbn [map]. constructor; [|by apply IH]. intros (y & E & Hy)%list_elem_of_fmap. apply filter_elem in Hy as [Hy _].
  apply N1. rewrite E. by apply list_elem_of_fmap_2.
Qed.

Lemma shown_fields s policy p : peer_device_id (shown s policy p) = peer_device_id p /\ ipv4_address (shown s policy p) = ipv4_address p.
Proof. unfold shown. by destruct (_ && _). Qed.

(** What [make_peer_state] computes for a member. *)
Lemma make_peer_state_eq s n actor rev policy :
  service_reachable s -> is_member s n actor -> network_policy (store_ s) n = Ok policy ->
  exists sub ls own owner,
    db_leases (store_ s) !! (n, actor) = Some own /\ owned_by s n owner /\
    db_subnets (store_ s) !! n = Some sub /\ virtual_ipv4_pool_first <= sub < virtual_ipv4_pool_end /\ sub mod 256 = 0 /\
    list_virtual_ipv4_leases (store_ s) n = Ok ls /\ (length ls <= 254)%nat /\ NoDup (map lr_address ls) /\
    Forall (fun l => sub < lr_address l < sub + 255) ls /\
    make_peer_state n actor rev s =
      Ok (mk_peer_state n rev sub 24 own (map (shown s policy) (listed s actor ls)) owner (key_epoch_for s n)
            (if managed policy then Some policy else None)).
Proof.
  intros R Mb Po. assert (Lm := proj1 (lease_member s n actor R) Mb).
  assert (Zn : forall n, is_Some (db_networks (store_ s) !! n) -> is_zero n = false)
    by (apply (reachable_ids (store_ s)); by apply service_db_ok).
  pose proof (reachable_db_ok _ (service_db_ok _ R)) as OK.
  destruct Mb as [row Hr]. destruct (ok_member _ OK _ _ _ Hr) as ([w Hw] & _). destruct Lm as [own Ho].
  destruct (leases_read s n w R Hw) as (sub & ls & Su & Fs & Rg & Md & Ll & Le & Na & Fa).
  pose proof (leases_spec _ _ _ Ll) as [Sp _].
  exists sub, ls, own, (row_owner w). unfold owned_by. rewrite Hw.
  split; [done|]. split; [done|]. split; [done|]. split; [done|]. split; [done|]. split; [done|]. split; [done|]. split; [done|].
  split; [done|]. unfold make_peer_state. rewrite Fs. unfold find_network, require_network_id.
  rewrite (Zn n) by (by eexists). cbn [negb]. rewrite Hw. cbn [fmap option_fmap option_map]. rewrite Ll.
  unfold assemble_peer_state. destruct (List.find _ ls) as [l|] eqn:F.
  - apply find_some in F as [Hin E]. apply list_elem_of_In, Sp in Hin as [_ Hin]. bool_prop. rewrite E, Ho in Hin. injection Hin as ->.
    guard_true by (rewrite negb_true_iff, Z.gtb_ltb, Z.ltb_ge; unfold len, max_network_peer_entries; lia).
    rewrite Po. cbn [nr_owner network_record sr_network sr_address sr_prefix]. f_equal. unfold managed_state. cbn.
    fold (listed s actor ls). destruct (managed policy) eqn:Mg; (f_equal; [idtac]).
    + apply map_ext. intros p. unfold shown. rewrite Mg. cbn. by destruct (bool_decide _).
    + rewrite <- (map_id (listed s actor ls)) at 1. apply map_ext. intros p. unfold shown. by rewrite Mg.
  - exfalso. assert (Hin : In (mk_lease n actor own) ls) by (by apply list_elem_of_In, Sp).
    apply (find_none _ _ F) in Hin. cbn in Hin. bool_prop. done.
Qed.

Lemma listed_elem s n actor ls p : list_virtual_ipv4_leases (store_ s) n = Ok ls ->
  p ∈ listed s actor ls <->
  peer_device_id p <> actor /\ db_leases (store_ s) !! (n, peer_device_id p) = Some (ipv4_address p) /\
  signed_key p = fmap ak_signed_key (active_keys_ s !! peer_device_id p).
Proof.
  intros [Sp _]%leases_spec. unfold listed. rewrite list_elem_of_fmap. split.
  - intros (l & -> & Hl). apply filter_elem in Hl as [Hl Ne]. apply Sp in Hl as [_ Hl]. bool_prop. done.
  - intros (Ne & Hl & Hk). exists (mk_lease n (peer_device_id p) (ipv4_address p)). split.
    + destruct p. cbn in *. unfold peer_of. cbn. by rewrite Hk.
    + apply filter_elem. split; [by apply Sp|]. cbn. by rewrite bool_decide_eq_false_2.
Qed.

(** A state with these addresses passes the encoder's checks. *)
Lemma peer_state_encodes n rev sub own l owner epoch opt :
  is_zero n = false -> is_zero owner = false -> 0 < epoch ->
  virtual_ipv4_pool_first <= sub < virtual_ipv4_pool_end -> sub mod 256 = 0 -> sub < own < sub + 255 ->
  (forall p, p ∈ l -> is_zero (peer_device_id p) = false /\ sub < ipv4_address p < sub + 255 /\ ipv4_address p <> own) ->
  NoDup (map peer_device_id l) -> NoDup (map ipv4_address l) ->
  (forall p, opt = Some p -> is_ok (encode_network_policy p) = true) ->
  is_ok (encode_network_peer_state (mk_peer_state n rev sub 24 own l owner epoch opt)) = true.
Proof.
  intros Zn Zo Ep Rg Md Ro Hp N1 N2 Po. unfold virtual_ipv4_pool_first, virtual_ipv4_pool_end in *.
  assert (L : len l <= 253).
  { assert (H : (length (own :: map ipv4_address l) <= 254)%nat); [|cbn in H; rewrite length_map in H; unfold len; lia].
    apply (distinct_hosts _ sub).
    - constructor; [|done]. intros (p & E & Hin)%list_elem_of_fmap. destruct (Hp p Hin) as (_ & _ & Ne). congruence.
    - constructor; [done|]. apply Forall_map, Forall_forall. intros p Hin. apply (Hp p Hin). }
  assert (V : valid_peer_state (mk_peer_state n rev sub 24 own l owner epoch opt) = true).
  { unfold valid_peer_state, peer_pool_first, peer_pool_end, peer_subnet_size, max_network_peer_entries.
    cbn [state_network_id prefix_length state_owner state_key_epoch subnet_address own_address peers].
    rewrite Zn, Zo. destruct (Z.eqb_spec epoch 0); [lia|]. cbn [orb negb Bool.eqb Z.eqb Pos.eqb].
    destruct (Z.ltb_spec sub 171966464); [lia|]. destruct (Z.geb_spec sub 176160768); [lia|].
    rewrite Md. cbn [orb negb Z.eqb]. destruct (Z.leb_spec own sub); [lia|]. destruct (Z.geb_spec own (sub + 256 - 1)); [lia|].
    destruct (Z.gtb_spec (len l) 253); [lia|]. cbn [orb]. apply valid_peers_ok; [|done..]. intros p Hin.
    destruct (Hp p Hin) as (? & ? & ?). split; [done|]. split; [done|]. split; [apply not_elem_of_empty|by apply not_elem_of_singleton]. }
  unfold encode_network_peer_state. rewrite V. cbn [policy]. destruct opt as [p|]; [|done].
  specialize (Po p eq_refl). by destruct (encode_network_policy p).
Qed.

(** What a member is sent of its network. *)
Lemma peer_state_spec (s : Service) (n actor : bytes) (rev : Z) (policy : NetworkPolicy) :
  service_reachable s -> is_member s n actor -> network_policy (store_ s) n = Ok policy ->
  exists st, make_peer_state n actor rev s = Ok st /\ is_ok (encode_network_peer_state st) = true /\
    state_network_id st = n /\ state_revision st = rev /\ state_key_epoch st = key_epoch_for s n /\
    owned_by s n (state_owner st) /\ db_leases (store_ s) !! (n, actor) = Some (own_address st) /\
    NoDup (map peer_device_id (peers st)) /\
    (forall d, d ∈ map peer_device_id (peers st) <-> d <> actor /\ is_member s n d) /\
    (forall p, p ∈ peers st -> db_leases (store_ s) !! (n, peer_device_id p) = Some (ipv4_address p) /\
       signed_key p = if managed policy && negb (bool_decide (peer_device_id p ∈ management_capable_ s)) then None
                      else fmap ak_signed_key (active_keys_ s !! peer_device_id p)).
Proof.
  intros R Mb Po. destruct (make_peer_state_eq s n actor rev policy R Mb Po)
    as (sub & ls & own & owner & Ho & Ow & Su & Rg & Md & Ll & Le & Na & Fa & ->).
  pose proof (reachable_db_ok _ (service_db_ok _ R)) as OK. destruct (reachable_ids _ (service_db_ok _ R)) as [Zd Zn].
  pose proof (fun p => listed_elem s n actor ls p Ll) as El. pose proof (leases_spec _ _ _ Ll) as [_ Nd].
  assert (Dm : forall l, map peer_device_id (map (shown s policy) l) = map peer_device_id l).
  { intros l. rewrite map_map. apply map_ext. intros p. apply shown_fields. }
  assert (Am : forall l, map ipv4_address (map (shown s policy) l) = map ipv4_address l).
  { intros l. rewrite map_map. apply map_ext. intros p. apply shown_fields. }
  assert (N1 : NoDup (map peer_device_id (listed s actor ls))) by (unfold listed; rewrite map_map; by apply filter_nodup).
  assert (N2 : NoDup (map ipv4_address (listed s actor ls))) by (unfold listed; rewrite map_map; by apply filter_nodup).
  assert (Sh : forall p, p ∈ map (shown s policy) (listed s actor ls) -> exists q, p = shown s policy q /\ q ∈ listed s actor ls).
  { intros p Hp. apply list_elem_of_fmap in Hp as (q & -> & Hq). by exists q. }
  assert (Mem : forall d a, db_leases (store_ s) !! (n, d) = Some a -> is_member s n d) by (intros d a Hd; apply lease_member; [done|by eexists]).
  eexists. split; [done|]. cbn. split; [|split; [done|split; [done|split; [done|split; [done|split; [done|split]]]]]].
  - assert (Od : is_zero owner = false).
    { unfold owned_by in Ow. destruct (db_networks (store_ s) !! n) as [w|] eqn:Hw; [|done]. injection Ow as <-.
      destruct (ok_owner _ OK _ _ Hw) as [t Ht]. destruct (ok_member _ OK _ _ _ Ht) as (_ & Dv & _). by apply Zd. }
    apply peer_state_encodes; try done.
    + destruct Mb as [row Hr]. apply Zn. by destruct (ok_member _ OK _ _ _ Hr).
    + unfold key_epoch_for. destruct (key_epochs_ s !! n) eqn:K; [by eapply reachable_epochs|done].
    + rewrite Forall_forall in Fa. apply (Fa (mk_lease n actor own)). by apply (leases_spec _ _ _ Ll).
    + intros p Hp. apply Sh in Hp as (q & -> & Hq). destruct (shown_fields s policy q) as [-> ->].
      apply El in Hq as (Ne & Hl & _). destruct (ok_lease _ OK _ _ _ Hl) as ([row Hrow] & sub' & Su' & Rq).
      destruct (ok_member _ OK _ _ _ Hrow) as (_ & Dv & _). split; [by apply Zd|]. split; [congruence|].
      intros E. rewrite E in Hl. pose proof (ok_lease_inj _ OK _ _ _ Hl Ho). congruence.
    + by rewrite Dm.
    + by rewrite Am.
    + intros p Hp. destruct (managed policy) eqn:Mg; [|done]. injection Hp as <-. by eapply read_policy_encodes.
  - by rewrite Dm.
  - split.
    + intros d. rewrite Dm, list_elem_of_fmap. split.
      * intros (p & -> & Hp). apply El in Hp as (Ne & Hp & _). split; [done|]. by eapply Mem.
      * intros [Ne Hd]. apply lease_member in Hd as [a Hd]; [|done].
        exists (mk_peer d a (fmap ak_signed_key (active_keys_ s !! d))). split; [done|]. by apply El.
    + intros p Hp. apply Sh in Hp as (q & -> & Hq). apply El in Hq as (_ & Hl & Hk).
      destruct (shown_fields s policy q) as [-> ->]. split; [done|]. unfold shown. by destruct (_ && _).
Qed.

(** ** Key distribution *)

(** What an accepted envelope satisfies. *)
Definition envelope_ok (s : Service) (actor n : bytes) (policy : NetworkPolicy) (own : SignedDeviceKey) (e : NetworkKeyEnvelope) : Prop :=
  env_network_id e = n /\ env_owner e = actor /\ env_recipient e <> actor /\ env_epoch e = key_epoch_for s n /\
  env_owner_key e = encryption_public_key own /\ verify_network_key_envelope e (identity_public_key own) = Ok true /\
  (managed policy = true -> env_recipient e ∈ management_capable_ s) /\
  is_Some (db_leases (store_ s) !! (n, env_recipient e)) /\
  exists key, active_keys_ s !! env_recipient e = Some key /\ env_recipient_key e = encryption_public_key (ak_signed_key key).

Lemma check_envelopes_ok s actor n policy own l : forall seen, check_envelopes s actor n policy own seen l = Ok None ->
  Forall (envelope_ok s actor n policy own) l /\ NoDup (map env_recipient l) /\ (forall e, e ∈ l -> env_recipient e ∉ seen).
Proof.
  induction l as [|e l IH]; intros seen H; cbn [check_envelopes] in H.
  { split; [constructor|]. split; [constructor|]. by intros e ?%not_elem_of_nil. }
  destruct (_ || _) eqn:G in H; [done|]. destruct (verify_network_key_envelope _ _) as [[]|] eqn:V; [|done..]. cbn [negb] in H.
  destruct (negb _) eqn:E1 in H; [done|]. destruct (managed policy && _) eqn:E2 in H; [done|].
  unfold find_virtual_ipv4_lease in H. destruct (require_network_id n); [|done]. destruct (require_device_id _); [|done].
  destruct (db_leases (store_ s) !! (n, env_recipient e)) as [raw|] eqn:L; [|done]. destruct (read_lease _ _ raw); [|done].
  destruct (active_keys_ s !! env_recipient e) as [key|] eqn:K; [|done]. destruct (negb _) eqn:E3 in H; [done|].
  apply IH in H as (F & N & D). bool_prop. split; [constructor; [|done]|split].
  - split; [done|]. split; [done|]. split; [done|]. split; [done|]. split; [done|]. split; [done|]. split.
    { intros Mg. rewrite Mg in E2. cbn in E2. bool_prop. done. }
    split; [rewrite L; by eexists|]. by exists key.
  - cbn [map]. constructor; [|done]. intros (x & E & Hx)%list_elem_of_fmap. apply (D x Hx). rewrite <- E. set_solver.
  - intros x Hx. apply elem_of_cons in Hx as [->|Hx]; [done|]. specialize (D x Hx). set_solver.
Qed.

Lemma check_envelopes_refusal s actor n policy own l seen : check_envelopes s actor n policy own seen l <> Ok (Some success).
Proof.
  revert seen. induction l as [|e l IH]; intros seen; cbn [check_envelopes]; [done|].
  destruct (_ || _); [done|]. destruct (verify_network_key_envelope _ _) as [[]|]; [|done..]. cbn [negb].
  destruct (negb _); [done|]. destruct (_ && _); [done|]. destruct (find_virtual_ipv4_lease _ _ _) as [[lease|]|]; [|done..].
  destruct (active_keys_ s !! _); [|done]. destruct (negb _); [done|]. apply IH.
Qed.

(** The relay hands on key envelopes of the owner to members only. *)
Lemma published_keys (s : Service) (actor : bytes) (request : NetworkKeyPublishRequest) (out : NetworkKeyPublishOutcome) :
  service_reachable s -> publish_network_keys actor request s = Ok out ->
  if bool_decide (key_code out = success)
  then key_envelopes out = envelopes request /\ envelopes request <> [] /\ owned_by s (key_network_id out) actor /\
    NoDup (map env_recipient (envelopes request)) /\
    exists own policy, active_keys_ s !! actor = Some own /\ network_policy (store_ s) (key_network_id out) = Ok policy /\
      forall e, e ∈ envelopes request ->
        envelope_ok s actor (key_network_id out) policy (ak_signed_key own) e /\ is_member s (key_network_id out) (env_recipient e)
  else key_envelopes out = [].
Proof.
  intros R H. unfold publish_network_keys in H. destruct (envelopes request) as [|e0 l] eqn:Es; [by apply Ok_inj in H as <-|].
  destruct (_ || _) in H; [by apply Ok_inj in H as <-|]. destruct (find_network _ _) as [[w|]|] eqn:F; [|by apply Ok_inj in H as <-|done].
  apply find_network_owner in F.
  destruct (network_policy _ _) as [policy|] eqn:P; [|done]. destruct (_ && _) in H; [by apply Ok_inj in H as <-|].
  destruct (negb _) eqn:O in H; [by apply Ok_inj in H as <-|]. bool_prop.
  destruct (active_keys_ s !! actor) as [own|]; [|by apply Ok_inj in H as <-].
  destruct (check_envelopes _ _ _ _ _ _ _) as [[c|]|] eqn:Ck; [| |done].
  - apply Ok_inj in H as <-. cbn. by destruct (bool_decide _) eqn:B; bool_prop; [|done]; subst c;
      pose proof (check_envelopes_refusal _ _ _ _ _ _ _ Ck).
  - apply Ok_inj in H as <-. cbn [key_code key_envelopes key_network_id]. rewrite bool_decide_eq_true_2 by done.
    apply check_envelopes_ok in Ck as (Fa & N & _). split; [done|]. split; [done|]. split; [unfold owned_by; congruence|].
    split; [done|]. exists own, policy. split; [done|]. split; [done|]. intros e He. rewrite Forall_forall in Fa.
    specialize (Fa e He). split; [done|]. apply lease_member; [done|]. apply Fa.
Qed.

(** C10: network keys go from the owner to members only, and arrive.  The relay hands on key envelopes
    only if they come from the network's owner with a live session; it then hands on all of
    them, unchanged, one per recipient, each for another member with a live session, sealed
    for that session's key, under the current epoch and with the owner's signature; in a
    managed network each recipient takes part in management.  A refused request hands on
    nothing.  Whatever envelope an owner seals for a recipient, the recipient's encryption
    key opens it, given the owner's own signed device key, and gets back the network key
    that was sealed. *)
Theorem key_distribution_authorized {L : CryptoLaws C} :
  (forall (s : Service) (actor : bytes) (request : NetworkKeyPublishRequest) (out : NetworkKeyPublishOutcome),
    service_reachable s -> publish_network_keys actor request s = Ok out ->
    if bool_decide (key_code out = success)
    then key_envelopes out = envelopes request /\ envelopes request <> [] /\ owned_by s (key_network_id out) actor /\
      NoDup (map env_recipient (envelopes request)) /\
      exists own policy, active_keys_ s !! actor = Some own /\ network_policy (store_ s) (key_network_id out) = Ok policy /\
        forall e, e ∈ envelopes request ->
          envelope_ok s actor (key_network_id out) policy (ak_signed_key own) e /\ is_member s (key_network_id out) (env_recipient e)
    else key_envelopes out = []) /\
  (forall (identity_secret owner_secret recipient_secret recipient_id network_id network_key nonce : bytes)
      (epoch : Z) (recipient_key owner_key : SignedDeviceKey) (owner_id : bytes) (e : NetworkKeyEnvelope),
    length network_id = network_id_size -> word 8 epoch -> length recipient_id = network_device_id_size ->
    length nonce = network_key_nonce_size -> length network_key = network_key_size ->
    encryption_public_key recipient_key = x25519_public recipient_secret ->
    identity_public_key owner_key = ed25519_public identity_secret ->
    encryption_public_key owner_key = x25519_public owner_secret ->
    make_device_id (ed25519_public identity_secret) = Ok owner_id ->
    verify_signed_device_key owner_key owner_id = Ok true ->
    seal_network_key identity_secret owner_secret recipient_key recipient_id network_id epoch network_key
      (Some nonce) = Ok e ->
    wf_envelope e /\ open_network_key recipient_secret e owner_key recipient_id = Ok network_key).
Proof. split; [exact published_keys|intros *; apply seal_opens_key]. Qed.

(** Revisions and key epochs never go back, whatever request the relay serves. *)
Lemma counters_monotone (s : Service) (clock : Z) (gen : nat -> result bytes) (r : Request) (n : bytes) :
  service_reachable s ->
  revision_for s n <= revision_for (serve clock gen r s) n /\ key_epoch_for s n <= key_epoch_for (serve clock gen r s) n.
Proof.
  intros R. destruct (serve_keeps counters_grow clock gen r s) as (G1 & G2 & G3). split; [apply G1|].
  specialize (G2 n). specialize (G3 (reachable_epochs s R) n). unfold key_epoch_for.
  destruct (key_epochs_ s !! n), (key_epochs_ (serve clock gen r s) !! n) as [e|] eqn:E; cbn in *; try lia; try (specialize (G3 e eq_refl); lia).
Qed.

(** C28: the peer state a member receives is exact and can be sent.  In every reachable
    service a member's peer state exists, can be encoded, carries the current key epoch,
    the owner, the member's own address and, exactly, every other member with the address
    it leases; a peer's session key is present exactly when the peer has a session and, in
    a managed network, takes part in management.  The revision and the key epoch it carries
    never go back, whatever request the relay serves. *)
Theorem peer_state_exact (s : Service) (n actor : bytes) (rev : Z) (policy : NetworkPolicy) :
  service_reachable s -> is_member s n actor -> network_policy (store_ s) n = Ok policy ->
  (exists st, make_peer_state n actor rev s = Ok st /\ is_ok (encode_network_peer_state st) = true /\
    state_network_id st = n /\ state_revision st = rev /\ state_key_epoch st = key_epoch_for s n /\
    owned_by s n (state_owner st) /\ db_leases (store_ s) !! (n, actor) = Some (own_address st) /\
    NoDup (map peer_device_id (peers st)) /\
    (forall d, d ∈ map peer_device_id (peers st) <-> d <> actor /\ is_member s n d) /\
    (forall p, p ∈ peers st -> db_leases (store_ s) !! (n, peer_device_id p) = Some (ipv4_address p) /\
       signed_key p = if managed policy && negb (bool_decide (peer_device_id p ∈ management_capable_ s)) then None
                      else fmap ak_signed_key (active_keys_ s !! peer_device_id p))) /\
  (forall clock gen r, revision_for s n <= revision_for (serve clock gen r s) n /\ key_epoch_for s n <= key_epoch_for (serve clock gen r s) n).
Proof. intros R M P. split; [by apply (peer_state_spec s n actor rev policy)|]. intros clock gen r. by apply counters_monotone. Qed.
End Peers.
