(* ===== verification/ServiceManagement.v ===== *)
(** * Who changes the policy of a network

    Theorems about [manage_network] and [allow_access_attempt] of [ServiceAccess]: what a
    policy change requires and cannot do, and how many access attempts are let through. *)
From S2P Require Import Prelude Wire Ipv4 NetworkPolicy NetworkMessages PacketMessages Crypto PacketCipher.
From S2P Require Import AuditEvent RelayStore StoreInvariant Double ForwardingQuota Candidates NetworkService.
From S2P Require Import UserAccess NetworkManagement JoinTarget ServiceAccess ServiceSafety.

(** ** Checks that pass *)

Lemma first_code_none {A} (f : A -> result (option NetworkResultCode)) l :
  first_code f l = Ok None -> forall x, x ∈ l -> f x = Ok None.
Proof.
  induction l as [|y l IH]; cbn [first_code]; intros H x Hx; [by apply not_elem_of_nil in Hx|].
  destruct (f y) as [[c|]|] eqn:E; [done| |done]. apply elem_of_cons in Hx as [->|Hx]; auto.
Qed.

Lemma or_code_none c k : or_code c k = Ok None -> c = Ok None /\ k = Ok None.
Proof. unfold or_code. by destruct c as [[c|]|]. Qed.

Lemma refuse_none b c : refuse_if b c = None -> b = false.
Proof. unfold refuse_if. by destruct b. Qed.

Lemma existsb_false {A} (f : A -> bool) l : existsb f l = false -> forall x, x ∈ l -> f x = false.
Proof.
  intros H x Hx. destruct (f x) eqn:E; [|done]. assert (existsb f l = true) as G; [|congruence].
  apply existsb_exists. exists x. split; [by apply list_elem_of_In|done].
Qed.

(** The role of a listed device is the role of its first entry. *)
Lemma policy_role_listed p d : (exists a, a ∈ members p /\ member_device a = d /\ policy_role p d = role a) \/
  ((forall a, a ∈ members p -> member_device a <> d) /\ policy_role p d = NetworkPolicy.member).
Proof.
  unfold policy_role, NetworkPolicy.find_member. destruct (List.find _ (members p)) as [a|] eqn:F.
  - left. apply List.find_some in F as [F1 F2]. exists a. split; [by apply list_elem_of_In|]. by bool_prop.
  - right. split; [|done]. intros a Ha E. pose proof (List.find_none _ _ F a) as N.
    rewrite <- list_elem_of_In in N. specialize (N Ha). cbn in N. by bool_prop.
Qed.

(** An administrator's policy gives every device the role it had. *)
Lemma check_roles_none current next : check_roles current next = None ->
  managed next = true /\ forall d, policy_role next d = policy_role current d.
Proof.
  unfold check_roles. intros H. apply refuse_none in H. apply orb_false_iff in H as [H H2]. apply orb_false_iff in H as [H0 H1].
  split; [by bool_prop|]. intros d. pose proof (existsb_false _ _ H1) as N1. pose proof (existsb_false _ _ H2) as N2. cbn in N1, N2.
  destruct (policy_role_listed next d) as [(a & Ha & <- & E)|[Un E]].
  - specialize (N1 a Ha). bool_prop. congruence.
  - destruct (policy_role_listed current d) as [(a & Ha & <- & E')|[Uc E']]; [|congruence].
    specialize (N2 a Ha). bool_prop. congruence.
Qed.

(** ** What a policy change is *)

(** A gateway request adds the requester, unapproved; a manager's replacement names no gateway
    that did not ask, and changes no role unless the owner makes it. *)
Definition change_permitted (s : Service) (n actor : bytes) (request : ManagementRequest) (current next : NetworkPolicy) : Prop :=
  mq_action request = request_gateway /\ managed current = true /\ policy_role current actor <> restricted /\
    next = with_gateway actor current \/
  mq_action request = replace_policy /\ next = mq_policy request /\ can_manage_network n actor s = Ok true /\
    (forall g, g ∈ gateways next -> gateway_listed current (gateway_device g) = true) /\
    (owned_by s n actor \/ managed next = true /\ forall d, policy_role next d = policy_role current d).

(** The routes stay clear of the address pool and of every other network's routes. *)
Definition routes_clear (s : Service) (n : bytes) (next : NetworkPolicy) : Prop :=
  forall r, r ∈ routes next -> subnets_overlap (address r) (prefix r) virtual_ipv4_pool_first 10 = false /\
    forall n' p', n' <> n -> is_Some (db_networks (store_ s) !! n') -> network_policy (store_ s) n' = Ok p' ->
      forall e, e ∈ routes p' -> subnets_overlap (address r) (prefix r) (address e) (prefix e) = false.

Lemma overlaps_elsewhere_none db n r : overlaps_elsewhere db n r = Ok None ->
  forall n' p', n' <> n -> is_Some (db_networks db !! n') -> network_policy db n' = Ok p' ->
  forall e, e ∈ routes p' -> subnets_overlap (address r) (prefix r) (address e) (prefix e) = false.
Proof.
  intros H n' p' Ne [w Hw] Hp e He. unfold overlaps_elsewhere in H.
  assert (L : network_record n' w ∈ RelayStore.list_networks db).
  { unfold RelayStore.list_networks. apply list_elem_of_fmap. exists (n', w). split; [done|].
    rewrite order_by_perm. by apply elem_of_map_to_list. }
  pose proof (first_code_none _ _ H _ L) as F. cbn in F. rewrite bool_decide_eq_false_2, Hp in F by done.
  apply Ok_inj, refuse_none in F. exact (existsb_false _ _ F e He).
Qed.

Lemma objection_none s n network actor request current next :
  find_network (store_ s) n = Ok (Some network) ->
  proposed_policy s n actor (mq_action request) (mq_policy request) current = Ok (inl next) ->
  policy_objection (store_ s) n network actor (mq_action request) (mq_policy request) current next = Ok None ->
  change_permitted s n actor request current next /\ routes_clear s n next /\ revision next = revision current /\
  revision next <> 2 ^ 64 - 1.
Proof.
  intros Fn Pr H. unfold policy_objection in H. destruct (_ || _) eqn:G in H; [done|]. apply orb_false_iff in G as [G _].
  apply or_code_none in H as [_ H]. apply or_code_none in H as [_ H]. apply or_code_none in H as [Hg H].
  apply or_code_none in H as [_ H]. apply or_code_none in H as [Hr H]. destruct (find_subnet _ _) as [subnet|]; [|done].
  apply or_code_none in H as [Ht H]. apply Ok_inj, refuse_none in H. apply orb_false_iff in H as [Rv Rm]. bool_prop.
  apply find_network_owner in Fn. split; [|split; [|done]].
  - unfold change_permitted, proposed_policy in *. destruct (bool_decide (mq_action request = request_gateway)) eqn:Ac.
    + left. bool_prop. destruct (_ || _) eqn:G1 in Pr; [done|]. bool_prop. destruct (negb _) in Pr; [done|].
      destruct (gateway_listed _ _) in Pr; [done|]. destruct (_ >=? _) in Pr; [done|]. apply Ok_inj in Pr as [= <-]. done.
    + right. destruct (can_manage_network n actor s) as [[]|] eqn:Mg; [|done..]. apply Ok_inj in Pr as [= <-].
      destruct (bool_decide (mq_action request = replace_policy)) eqn:Ap; [|done]. bool_prop.
      split; [done|]. split; [done|]. split; [done|]. split.
      * intros g Hin. pose proof (first_code_none _ _ Hg g Hin) as F. unfold check_gateway in F.
        destruct (member_or_unset _ _ _) as [m|]; [|done]. apply Ok_inj in F. destruct (_ || _) in F; [done|].
        apply refuse_none in F. rewrite (bool_decide_eq_false_2 _ Ac) in F. cbn in F.
        by destruct (gateway_listed current (gateway_device g)).
      * destruct (bool_decide (actor = nr_owner network)) eqn:O; bool_prop; [left; unfold owned_by; congruence|right].
        apply Ok_inj in Hr. by apply check_roles_none.
  - intros r Hin. pose proof (first_code_none _ _ Ht r Hin) as F. unfold check_route in F.
    destruct (subnets_overlap _ _ virtual_ipv4_pool_first 10); [done|]. split; [done|].
    destruct (member_or_unset _ _ _) as [[]|]; [|done..]. cbn [negb] in F.
    destruct (match subnet with Some _ => _ | None => _ end); [done|]. by apply overlaps_elsewhere_none.
Qed.

Lemma save_shape db n p expected e b db' : save_network_policy db n p expected (Some e) = Ok (b, db') ->
  if b then exists doc, encode_network_policy p = Ok doc /\ 1 <= len doc <= 32768 /\ db_policies db' = <[n := doc]> (db_policies db)
  else db' = db.
Proof.
  unfold save_network_policy. intros H. destruct (encode_network_policy p) as [doc|] eqn:E; [|done].
  destruct (negb _) in H; [|done]. destruct (read_policy db n) as [old|]; [|done].
  destruct (negb _) in H; [by apply Ok_inj in H as [= <- <-]|].
  destruct (constraint _) as [[]|] eqn:C in H; [|done]. apply constraint_ok in C. bool_prop.
  destruct (append_audit_locked _ _) as [db2|] eqn:A; [|done]. apply Ok_inj in H as [= <- <-].
  exists doc. split; [done|]. split; [done|]. unfold append_audit_locked in A. ok_inv A. by subst db2.
Qed.

Lemma read_policy_wf db n p : network_policy db n = Ok p -> wf_policy p.
Proof.
  unfold network_policy, read_policy. destruct (db_policies db !! n) as [doc|]; intros H.
  - ok_inv H. by apply network_policy_codec in H as [W _].
  - apply Ok_inj in H as <-. by repeat split.
Qed.

Lemma wf_next s n actor request current next : length actor = 32%nat -> wf_policy (mq_policy request) -> wf_policy current ->
  change_permitted s n actor request current next -> revision next <> 2 ^ 64 - 1 ->
  wf_policy (with_revision (revision next + 1) next).
Proof.
  intros La Wr Wc Ch Rv.
  assert (W : wf_policy next).
  { destruct Ch as [(_ & _ & _ & ->)|(_ & -> & _)]; [|done]. destruct Wc as (W1 & W2 & W3 & W4 & W5 & W6 & W7).
    split; [done|]. repeat (split; [done|]). split; [|done]. cbn. apply Forall_app. split; [done|]. by constructor. }
  destruct W as (W1 & W2). split; [|exact W2]. cbn [revision with_revision]. words. lia.
Qed.

(** The write at the end of [manage_network]. *)
Lemma managed_write {A} n (f : list RoutedPeerStateChange -> A) s : let s' := snd ((advance_key_epoch n ;; let! r := advance_revision n in
    let! changes := query (changes_for_members n r) in ret (f changes)) s) in
  store_ s' = store_ s /\ key_epochs_ s' = rotated n (key_epochs_ s).
Proof.
  cbv zeta. unfold rotated. rewrite run_advance_key_epoch. destruct (_ =? _); [done|].
  rewrite run_advance_revision. destruct (_ =? _); [done|]. rewrite run_query. by destruct (changes_for_members _ _ _).
Qed.

Lemma audit_policies s s' n : audit_frame s s' -> network_policy (store_ s') n = network_policy (store_ s) n.
Proof. intros ((rows & k & E) & _). by rewrite E. Qed.

(** What the handler does before its audit: the store is as it was, or every check has
    passed, the next policy is written and the key epoch advanced. *)
Definition policy_write (actor : bytes) (request : ManagementRequest) (s s1 : Service) : Prop :=
  let n := mq_network_id request in
  store_ s1 = store_ s \/
  exists network current next doc,
    find_network (store_ s) n = Ok (Some network) /\ device_allowed s actor = true /\
    (exists l, find_virtual_ipv4_lease (store_ s) n actor = Ok (Some l)) /\ actor ∈ management_capable_ s /\
    network_policy (store_ s) n = Ok current /\
    proposed_policy s n actor (mq_action request) (mq_policy request) current = Ok (inl next) /\
    policy_objection (store_ s) n network actor (mq_action request) (mq_policy request) current next = Ok None /\
    encode_network_policy (with_revision (revision next + 1) next) = Ok doc /\ 1 <= len doc <= 32768 /\
    db_policies (store_ s1) = <[n := doc]> (db_policies (store_ s)) /\ key_epochs_ s1 = rotated n (key_epochs_ s).

Lemma manage_locked_cases actor request now_ms s : policy_write actor request s (snd (manage_network_locked actor request now_ms s)).
Proof.
  unfold policy_write, manage_network_locked. cbv zeta. rewrite run_reading. destruct (find_network _ _) as [[network|]|] eqn:Fn; [|by left..].
  rewrite run_query. destruct (device_allowed s actor) eqn:Da; cbn [negb]; [|by left].
  destruct (find_virtual_ipv4_lease _ _ _) as [[l|]|] eqn:Fl; [|by left..]. cbn [negb]. rewrite run_reading.
  destruct (network_policy _ _) as [current|] eqn:Np; [|by left].
  destruct (bool_decide (mq_action request = inspect)); [rewrite run_query; by destruct (inspect_network _ _ _ _ _); left|].
  rewrite run_query. destruct (bool_decide (actor ∈ management_capable_ s)) eqn:Mc; cbn [negb]; [|by left]. bool_prop.
  rewrite run_query. destruct (proposed_policy _ _ _ _ _ _) as [[next|c]|] eqn:Pr; [|by left..].
  rewrite run_reading. destruct (policy_objection _ _ _ _ _ _ _ _) as [[c|]|] eqn:Ob; [by left| |by left]. cbv zeta.
  rewrite run_changing. destruct (save_network_policy _ _ _ _ _) as [[b db2]|] eqn:Sv; [|by left].
  apply save_shape in Sv. destruct b; cbn [negb]; [|left; by subst db2]. destruct Sv as (doc & Ec & Ln & Pt). right.
  exists network, current, next, doc.
  match goal with |- context [snd (bind (advance_key_epoch ?n) ?k ?s1)] =>
    destruct (managed_write n (fun changes => (management_answer request success [] [] 0 (with_revision (revision next + 1) next), changes)) s1)
      as [E K] end.
  rewrite E, K. repeat (split; [first [done | by exists l]|]). done.
Qed.

(** A policy that differs was written with authority. *)
Definition policy_effect (s s' : Service) (actor : bytes) (request : ManagementRequest) (n : bytes) : Prop :=
  network_policy (store_ s') n <> network_policy (store_ s) n ->
  mq_network_id request = n /\ device_allowed s actor = true /\ is_Some (db_leases (store_ s) !! (n, actor)) /\
  actor ∈ management_capable_ s /\
  exists current next, network_policy (store_ s) n = Ok current /\
    network_policy (store_ s') n = Ok (with_revision (revision current + 1) next) /\
    change_permitted s n actor request current next /\ routes_clear s n next /\
    key_epochs_ s' !! n = rotated n (key_epochs_ s) !! n.

Lemma effect_audited s s1 s' actor request n : audit_frame s1 s' -> policy_effect s s1 actor request n -> policy_effect s s' actor request n.
Proof.
  intros F H. unfold policy_effect. rewrite (audit_policies _ _ n F). destruct F as (_ & Ke & _). by rewrite Ke.
Qed.

Lemma policy_written s s1 actor request n : length actor = 32%nat -> wf_policy (mq_policy request) ->
  policy_write actor request s s1 -> policy_effect s s1 actor request n.
Proof.
  intros La Wr M Ch. destruct M as [E|(network & current & next & doc & Fn & Da & (l & Fl) & Mc & Np & Pr & Ob & Ec & Ln & Pt & K)];
    [by rewrite E in Ch|].
  destruct (decide (mq_network_id request = n)) as [<-|Ne].
  2:{ exfalso. apply Ch. unfold network_policy, read_policy. by rewrite Pt, lookup_insert_ne. }
  destruct (objection_none s _ network actor request current next Fn Pr Ob) as (Cp & Rc & Rv & Rm).
  split; [done|]. split; [done|]. split.
  { unfold find_virtual_ipv4_lease in Fl. ok_inv Fl. destruct (db_leases _ !! _); [by eexists|done]. }
  split; [done|]. exists current, next. split; [done|]. split; [|by rewrite K].
  unfold network_policy, read_policy. rewrite Pt, lookup_insert_eq.
  guard_true by (rewrite negb_true_iff, orb_false_iff, Z.eqb_neq, Z.gtb_ltb, Z.ltb_ge; lia).
  rewrite <- Rv. apply network_policy_codec. split; [|done]. eapply wf_next; [done|done|by eapply read_policy_wf|done|done].
Qed.

Section Management.
Context {C : Crypto} {Pw : PasswordHash}.

(** A network's policy changes only as the rules allow.  If a management request changes
    the policy of a network, then it names that network, the actor is a member in good
    standing taking part in management, and the new policy is the next revision of the old
    one.  Either the actor asked to be a gateway, of a managed network in which it is not
    restricted, and is now listed, unapproved; or it manages the network and the policy is the one
    it sent, which lists no gateway that had not asked, and unless the actor owns the network every
    device keeps its role.  No route overlaps the address pool or a route of another
    network, and the network key is rotated. *)
Lemma policy_change_permitted (s : Service) (clock : Z) (gen : nat -> result bytes) (actor : bytes) (request : ManagementRequest)
    (now_ms : Z) (n : bytes) :
  let s' := serve clock gen (rq_manage actor request now_ms) s in
  length actor = 32%nat -> wf_management_request request -> network_policy (store_ s') n <> network_policy (store_ s) n ->
  mq_network_id request = n /\ device_allowed s actor = true /\ is_Some (db_leases (store_ s) !! (n, actor)) /\
  actor ∈ management_capable_ s /\
  exists current next, network_policy (store_ s) n = Ok current /\
    network_policy (store_ s') n = Ok (with_revision (revision current + 1) next) /\
    change_permitted s n actor request current next /\ routes_clear s n next /\
    key_epochs_ s' !! n = rotated n (key_epochs_ s) !! n.
Proof.
  cbv zeta. intros La (_ & _ & Wr). cbn [serve].
  change (policy_effect s (snd (manage_network clock actor request now_ms s)) actor request n).
  unfold manage_network. rewrite run_pure.
  destruct (require_actor_and_time _ _); [|by intros []]. rewrite run_pure. destruct (encode_management_request _); [|by intros []].
  pose proof (manage_locked_cases actor request now_ms s) as M. unfold bind at 1.
  destruct (manage_network_locked actor request now_ms s) as [[out|e] s1]; cbn [snd] in M.
  - (* the audit changes neither policies nor epochs *)
    assert (F : audit_frame s1 (snd (((if negb (bool_decide (mq_action request = inspect)) && negb (bool_decide (ms_code (fst out) = success))
      then audit_locked clock (management_kind (mq_action request)) actor actor (mq_network_id request) (ms_code (fst out)) now_ms
             (revision (ms_policy (fst out))) else ret tt) ;; ret out) s1))).
    { destruct (_ && _); [|apply audit_frame_refl]. unfold bind.
      match goal with |- context [audit_locked ?a ?b ?c ?d ?e ?f ?g ?h s1] =>
        destruct (audit_locked_frame a b c d e f g h s1) as [E F]; destruct (audit_locked a b c d e f g h s1) as [r s2] end.
      cbn in E, F. by subst r. }
    apply (effect_audited _ s1); [exact F|]. exact (policy_written s s1 actor request n La Wr M).
  - exact (policy_written s s1 actor request n La Wr M).
Qed.
End Management.

(** ** Access attempts *)

Definition attempt_limit (k : bytes * bytes) : Z :=
  if bool_decide (k.1 = zero_network) then if bool_decide (k.2 = zero_device) then 40 else 10
  else if bool_decide (k.2 = zero_device) then 20 else 5.

Definition attempts_ok (s : Service) : Prop :=
  Z.of_nat (size (access_attempts_ s)) <= 4096 /\
  forall k w, access_attempts_ s !! k = Some w -> 0 <= attempts w <= attempt_limit k.

(** The windows still open, and how often one was used. *)
Definition live_windows (clock : Z) (s : Service) : gmap (bytes * bytes) AccessWindow :=
  filter (fun e : (bytes * bytes) * AccessWindow => ~ (clock - window_start (snd e) >= minute)) (access_attempts_ s).
Definition used (m : gmap (bytes * bytes) AccessWindow) (k : bytes * bytes) : Z := default 0 (attempts <$> m !! k).

Lemma claim_spec now keys m : let '(ok, m') := claim_windows now keys m in
  (ok = true <-> forall k limit, (k, limit) ∈ keys -> used m k < limit) /\
  (forall k, used m' k = used m k) /\ (ok = true -> forall k limit, (k, limit) ∈ keys -> is_Some (m' !! k)) /\
  (forall k, is_Some (m !! k) -> is_Some (m' !! k)) /\ (size m' <= size m + length keys)%nat.
Proof.
  revert m. induction keys as [|[k limit] keys IH]; intros m; cbn [claim_windows].
  { split; [split; [intros _ k l H; by apply not_elem_of_nil in H|done]|]. split; [done|].
    split; [intros _ k l H; by apply not_elem_of_nil in H|]. split; [done|]. cbn. lia. }
  set (w := default (mk_window now 0) (m !! k)). set (m1 := <[k := w]> m).
  assert (U : forall j, used m1 j = used m j).
  { intros j. unfold used, m1. destruct (decide (j = k)) as [->|]; [|by rewrite lookup_insert_ne].
    rewrite lookup_insert_eq. unfold w. by destruct (m !! k). }
  assert (Wk : attempts w = used m k) by (unfold w, used; by destruct (m !! k)).
  assert (Sz : (size m1 <= S (size m))%nat) by (unfold m1; rewrite map_size_insert; destruct (m !! k); unfold id; lia).
  destruct (attempts w >=? limit) eqn:G; bool_prop.
  - split; [split; [done|intros H; specialize (H k limit (list_elem_of_here _ _)); lia]|]. split; [done|]. split; [done|].
    split; [intros j Hj; apply lookup_insert_is_Some'; by right|]. cbn. lia.
  - specialize (IH m1). destruct (claim_windows now keys m1) as [ok m']. destruct IH as (I1 & I2 & I3 & I4 & I5). split.
    + rewrite I1. split; intros H j l Hj; [|rewrite U; apply H; by right].
      apply elem_of_cons in Hj as [[= -> ->]|Hj]; [lia|]. rewrite <- U. auto.
    + split; [intros j; by rewrite I2, U|]. split.
      * intros O j l Hj. apply elem_of_cons in Hj as [[= -> ->]|Hj]; [|eauto]. apply I4. unfold m1. by rewrite lookup_insert_eq.
      * split; [|cbn; lia]. intros j Hj. apply I4, lookup_insert_is_Some'. by right.
Qed.

Lemma count_used k m j : is_Some (m !! k) -> used (count_attempt k m) j = used m j + (if bool_decide (k = j) then 1 else 0).
Proof.
  intros [w Hw]. unfold count_attempt, used. rewrite Hw. destruct (decide (k = j)) as [<-|Ne].
  - rewrite bool_decide_eq_true_2, lookup_insert_eq, Hw by done. done.
  - rewrite bool_decide_eq_false_2, lookup_insert_ne by done. lia.
Qed.
Lemma count_some k m j : is_Some (m !! j) <-> is_Some (count_attempt k m !! j).
Proof.
  unfold count_attempt. destruct (m !! k) as [w|] eqn:E; [|done]. rewrite lookup_insert_is_Some'. split; [auto|].
  intros [<-|H]; [by rewrite E|done].
Qed.
Lemma count_size k m : size (count_attempt k m) = size m.
Proof. unfold count_attempt. destruct (m !! k) as [w|] eqn:E; [|done]. rewrite map_size_insert, E. done. Qed.

(** Counting the four keys of one attempt. *)
Lemma foldl_count_used keys m j : (forall k l, (k, l) ∈ keys -> is_Some (m !! k)) ->
  used (foldl (fun m e => count_attempt (fst e) m) m keys) j
  = used m j + Z.of_nat (length (List.filter (fun e : (bytes * bytes) * Z => bool_decide (fst e = j)) keys)).
Proof.
  revert m. induction keys as [|[k l] keys IH]; intros m H; cbn [foldl List.filter length]; [lia|].
  rewrite IH.
  - rewrite count_used by (eapply H; left). cbn [fst]. destruct (bool_decide (k = j)); cbn [length]; lia.
  - intros k' l' Hk. apply (proj1 (count_some k m k')). eapply H. by right.
Qed.
Lemma foldl_count_size keys m : size (foldl (fun m (e : (bytes * bytes) * Z) => count_attempt (fst e) m) m keys) = size m.
Proof. revert m. induction keys as [|[k l] keys IH]; intros m; cbn [foldl]; [done|]. by rewrite IH, count_size. Qed.

Lemma used_some m k w : m !! k = Some w -> used m k = attempts w.
Proof. intros H. unfold used. by rewrite H. Qed.

(** An attempt is let through exactly when the table has room and none of the four windows it
    counts in is used up. *)
Lemma allow_spec clock actor n s : let '(r, s') := allow_access_attempt clock actor n s in
  exists ok, r = Ok ok /\
  (ok = true <-> Z.of_nat (size (live_windows clock s)) <= 4092 /\
     forall k limit, (k, limit) ∈ attempt_keys actor n -> used (live_windows clock s) k < limit) /\
  (Z.of_nat (size (live_windows clock s)) <= 4096 -> Z.of_nat (size (access_attempts_ s')) <= 4096) /\
  forall k, used (access_attempts_ s') k = used (live_windows clock s) k +
    if ok then Z.of_nat (length (List.filter (fun e => bool_decide (fst e = k)) (attempt_keys actor n))) else 0.
Proof.
  unfold allow_access_attempt. cbv zeta. fold (live_windows clock s). set (m := live_windows clock s).
  destruct (Z.of_nat (size m) >? 4092) eqn:G; bool_prop.
  { exists false. split; [done|]. split; [split; [done|lia]|]. split; [done|]. intros k. cbn. lia. }
  pose proof (claim_spec clock (attempt_keys actor n) m) as Sp.
  destruct (claim_windows clock (attempt_keys actor n) m) as [ok m']. destruct Sp as (S1 & S2 & S3 & _ & S5). cbn [length attempt_keys] in S5.
  assert (Ok4 : ok = true <-> Z.of_nat (size m) <= 4092 /\ forall k limit, (k, limit) ∈ attempt_keys actor n -> used m k < limit) by tauto.
  destruct ok.
  - exists true. split; [done|]. split; [done|]. split.
    + intros _. cbn [access_attempts_ set_attempts]. rewrite foldl_count_size. lia.
    + intros k. cbn [access_attempts_ set_attempts]. rewrite foldl_count_used by (intros k' l' H; eapply S3; done). by rewrite S2.
  - exists false. split; [done|]. split; [done|]. split; [intros _; cbn; lia|]. intros k. cbn [access_attempts_ set_attempts]. rewrite S2. lia.
Qed.

Lemma open_windows_ok clock s : attempts_ok s -> Z.of_nat (size (live_windows clock s)) <= 4096 /\ forall k, 0 <= used (live_windows clock s) k <= attempt_limit k.
Proof.
  intros [S H]. assert (Sub : live_windows clock s ⊆ access_attempts_ s) by apply map_filter_subseteq. split.
  - apply map_subseteq_size in Sub. lia.
  - intros k. unfold used. destruct (live_windows clock s !! k) as [w|] eqn:L; cbn.
    + apply (H k). by eapply lookup_weaken.
    + unfold attempt_limit. repeat case_bool_decide; lia.
Qed.

Lemma attempts_grow clock actor n s : is_zero actor = false -> attempts_ok s -> attempts_ok (snd (allow_access_attempt clock actor n s)).
Proof.
  intros Za OK. pose proof (allow_spec clock actor n s) as Sp. destruct (allow_access_attempt clock actor n s) as [r s'].
  destruct Sp as (ok & _ & B & Sz & U). destruct (open_windows_ok clock s OK) as [L1 L2]. split; [by apply Sz|]. cbn [snd].
  intros k w Hw. apply used_some in Hw. rewrite <- Hw, U. specialize (L2 k). destruct ok; [|lia].
  assert (Na : actor <> zero_device) by (intros E; rewrite E in Za; discriminate Za).
  destruct (proj1 B eq_refl) as [_ Lim]. unfold attempt_keys in Lim.
  pose proof (Lim (n, actor) 5 ltac:(set_solver)) as Q1. pose proof (Lim (zero_network, actor) 10 ltac:(set_solver)) as Q2.
  pose proof (Lim (n, zero_device) 20 ltac:(set_solver)) as Q3. pose proof (Lim (zero_network, zero_device) 40 ltac:(set_solver)) as Q4.
  destruct k as [kn kd]. unfold attempt_limit, attempt_keys in *. cbn [List.filter fst snd length] in *.
  destruct (decide (kn = zero_network)) as [->|N0], (decide (kd = zero_device)) as [->|D0];
    destruct (decide (n = zero_network)) as [->|Nn]; try (destruct (decide (kn = n)) as [->|]); try (destruct (decide (kd = actor)) as [->|]);
    repeat (case_bool_decide; simplify_eq; cbn [length]); lia.
Qed.

(** Only access requests touch the windows. *)
Definition keep_attempts (s s' : Service) : Prop := attempts_ok s -> attempts_ok s'.

#[local] Instance keep_attempts_tolerant : Tolerant keep_attempts.
Proof. constructor; try (intros; exact (fun H => H)). split; [intros s H; exact H|intros a b c H1 H2 H; auto]. Qed.
Lemma attempts_changing f : keeps keep_attempts (changing f).
Proof. apply keeps_changing; [exact _|intros; exact (fun H => H)]. Qed.
Lemma attempts_writing f : keeps keep_attempts (writing f).
Proof. apply keeps_writing; [exact _|intros; exact (fun H => H)]. Qed.
#[local] Hint Resolve attempts_changing attempts_writing : service.

Lemma attempts_create clock gen actor name now_ms password :
  keeps keep_attempts (create_network_locked clock gen actor name now_ms password).
Proof.
  unfold create_network_locked, guarded_limit. steps.
  generalize network_id_generation_attempts. intros n. induction n as [|n IH]; cbn [create_attempts]; steps.
Qed.
Lemma attempts_join clock actor n now_ms cred : keeps keep_attempts (join_network_locked clock actor n now_ms cred).
Proof. unfold join_network_locked, guarded_limit. steps. Qed.
#[local] Hint Resolve attempts_create attempts_join : service.

Lemma forward_attempts clock actor p replay l s : access_attempts_ (snd (forward_fanout clock actor p replay l s)) = access_attempts_ s.
Proof.
  unfold forward_fanout. destruct (_ || _); [done|]. destruct (encode_forwarded_network_packet _); [|done].
  by destruct (quota_admit _ _ _ _ _ _) as [[|] q].
Qed.
Lemma route_attempts clock actor p s : access_attempts_ (snd (route_encrypted_packet clock actor p s)) = access_attempts_ s.
Proof.
  unfold route_encrypted_packet, reading, query, pure, ret, bind. destruct (negb _); [done|].
  destruct (encode_encrypted_network_packet p); [|done]. destruct (find_network _ _) as [[w|]|]; [|done..].
  destruct (if key_epoch p =? _ then _ else None) as [own|]; [|done].
  destruct (find_virtual_ipv4_lease _ _ _) as [[l|]|]; [|done..]. destruct (_ =? _); [done|].
  destruct (find_subnet _ _) as [[w'|]|]; [|done..]. destruct (list_virtual_ipv4_leases _ _); [|done].
  destruct (is_ipv4_fanout_destination _ _ _).
  - unfold route_fanout. destruct (_ >? _); [done|]. cbv zeta. destruct (replayed _ _); [done|].
    destruct (fanout_recipients _ _ _ _) as [[|d ds]|]; [done| |done]. by rewrite forward_attempts.
  - unfold route_unicast. destruct (List.find _ _) as [x|]; [|done]. destruct (negb _); [done|].
    destruct (traffic_allowed _ _ _ _ _) as [[|]|]; [|done..]. destruct (encode_forwarded_network_packet _); [|done].
    by destruct (quota_admit _ _ _ _ _ _).
Qed.

Section Attempts.
Context {C : Crypto} {Pw : PasswordHash}.

Lemma attempts_access clock later gen draw actor request now_ms :
  keeps keep_attempts (access_request clock later gen draw actor request now_ms).
Proof.
  unfold access_request. destruct (require_actor_and_time actor now_ms) as [[]|] eqn:Ra; [|by intros s H].
  assert (Za : is_zero actor = false) by (unfold require_actor_and_time in Ra; ok_inv Ra; by bool_prop).
  assert (K : forall n, keeps keep_attempts (allow_access_attempt clock actor n)) by (intros n s H; by apply attempts_grow).
  apply keeps_bind; [exact _|steps|]. intros _. apply keeps_bind; [exact _|steps|]. intros _. apply keeps_at_exit; [exact _|].
  unfold access_request_locked, revoke_device, expel, expel_from, create_protected, invitation_request, password_request,
    account_request, account_answer. steps; apply K.
Qed.

Lemma serve_attempts clock gen r s : keep_attempts s (serve clock gen r s).
Proof.
  assert (G : forall A (m : M A), keeps keep_attempts m -> keep_attempts s (snd (m s))) by (intros A m H; apply H).
  assert (I : forall s', access_attempts_ s' = access_attempts_ s -> keep_attempts s s').
  { intros s' E. unfold keep_attempts, attempts_ok. by rewrite E. }
  destruct r; cbn [serve].
  - apply G. unfold record_authenticated_device. steps.
  - apply G. unfold publish_device_key. steps.
  - unfold remove_device_key. destruct (active_keys_ s !! actor); [|by apply I]. destruct (negb _); [by apply I|]. apply G. steps.
  - apply G. unfold set_management_capable. steps.
  - apply I. apply route_attempts.
  - apply G. unfold create_network. steps.
  - apply G. unfold list_networks. steps.
  - apply G. unfold join_network. steps.
  - apply G. unfold leave_network, guarded. steps.
  - apply G. unfold invite_member, managing, guarded. steps.
  - apply G. unfold approve_member, managing, guarded_limit. steps.
  - apply G. unfold kick_member, managing, guarded. steps.
  - apply G. unfold peer_state. steps.
  - apply I. unfold set_forwarding_limits. by destruct (configure _ _).
  - apply I. unfold admit_control. by destruct (control _ _ _).
  - apply G. unfold manage_network, manage_network_locked. steps.
  - apply G, attempts_access.
Qed.

(** Guessing is bounded.  In every reachable relay the table of access windows holds at
    most 4096 entries and no window counts more than its limit: 5 attempts for a device at a
    network, 10 for a device, 20 at a network and 40 in all, per minute.  An attempt is let
    through exactly when the table has room and none of its four open windows is used up,
    and it then counts in them; a refused one counts nowhere. *)
Lemma access_attempts_bounded (s : Service) (clock : Z) (actor n : bytes) :
  service_reachable s ->
  attempts_ok s /\
  let '(r, s') := allow_access_attempt clock actor n s in
  exists ok, r = Ok ok /\
  (ok = true <-> Z.of_nat (size (live_windows clock s)) <= 4092 /\
     forall k limit, (k, limit) ∈ attempt_keys actor n -> used (live_windows clock s) k < limit) /\
  forall k, used (access_attempts_ s') k = used (live_windows clock s) k +
    if ok then Z.of_nat (length (List.filter (fun e => bool_decide (fst e = k)) (attempt_keys actor n))) else 0.
Proof.
  intros R. split.
  - induction R as [db R|s clock' gen r R IH].
    + split; [cbn; rewrite map_size_empty; lia|]. intros k w H. cbn in H. by rewrite lookup_empty in H.
    + by apply serve_attempts.
  - pose proof (allow_spec clock actor n s) as Sp. destruct (allow_access_attempt clock actor n s) as [r s'].
    destruct Sp as (ok & H1 & H2 & _ & H3). by exists ok.
Qed.

(** C9: administration is guarded.  If a management request changes the policy of a network, then it names that network, the actor is a
    member in good standing taking part in management, and the new policy is the next revision of the old one.  Either the
    actor asked to be a gateway, of a managed network in which it is not restricted, and is now listed, unapproved; or it manages
    the network and the policy is the one it sent, which lists no gateway that had not asked, and unless the actor owns the network
    every device keeps its role.  No route overlaps the address pool or a route of another network.  If an epoch counter of
    the network is recorded, the key epoch in force becomes the next one; the first change after the relay starts, when none is,
    leaves epoch 1 in force (the counter's last value is left out: it cannot advance).  Guessing is bounded: in every reachable relay the table of access windows holds at most 4096 entries and no window
    counts more than its limit: 5 attempts for a device at a network, 10 for a device, 20 at a network and 40 in all, per
    minute.  An attempt is let through exactly when the table has room and none of its four open windows is used up, and it then
    counts in them; a refused one counts nowhere. *)
Theorem policy_change_authorized (s : Service) (clock : Z) (gen : nat -> result bytes) (actor : bytes) (request : ManagementRequest)
    (now_ms : Z) (n : bytes) :
  (let s' := serve clock gen (rq_manage actor request now_ms) s in
   length actor = 32%nat -> wf_management_request request -> network_policy (store_ s') n <> network_policy (store_ s) n ->
   mq_network_id request = n /\ device_allowed s actor = true /\ is_Some (db_leases (store_ s) !! (n, actor)) /\
   actor ∈ management_capable_ s /\
   exists current next, network_policy (store_ s) n = Ok current /\
     network_policy (store_ s') n = Ok (with_revision (revision current + 1) next) /\
     change_permitted s n actor request current next /\ routes_clear s n next /\
     (default 0 (key_epochs_ s !! n) <> 2 ^ 64 - 1 ->
      (is_Some (key_epochs_ s !! n) -> key_epoch_for s' n = key_epoch_for s n + 1) /\
      (key_epochs_ s !! n = None -> key_epoch_for s n = 1 /\ key_epoch_for s' n = 1))) /\
  (service_reachable s ->
   attempts_ok s /\
   let '(r, s') := allow_access_attempt clock actor n s in
   exists ok, r = Ok ok /\
   (ok = true <-> Z.of_nat (size (live_windows clock s)) <= 4092 /\
      forall k limit, (k, limit) ∈ attempt_keys actor n -> used (live_windows clock s) k < limit) /\
   forall k, used (access_attempts_ s') k = used (live_windows clock s) k +
     if ok then Z.of_nat (length (List.filter (fun e => bool_decide (fst e = k)) (attempt_keys actor n))) else 0).
Proof.
  split; [|apply access_attempts_bounded]. cbv zeta. intros La W Ch.
  destruct (policy_change_permitted s clock gen actor request now_ms n La W Ch) as (N & D & L & M & current & next & Cu & Nx & P & R & K).
  split_and!; [done..|]. exists current, next. split_and!; [done..|]. by apply rotated_in_force.
Qed.
End Attempts.
