(* ===== verification/ServiceScenario.v ===== *)
(** * A running relay

    A small history of requests on which the definitions of [NetworkService] are evaluated:
    an owner and a guest connect, the guest asks to join, the owner approves it, packets are
    routed and the guest leaves. *)
From S2P Require Import Prelude Wire Ipv4 NetworkPolicy NetworkMessages PacketMessages Crypto PacketCipher.
From S2P Require Import AuditEvent RelayStore StoreInvariant Double ForwardingQuota Candidates NetworkService UserAccess NetworkManagement JoinTarget ServiceAccess ServiceSafety ServiceRouting ServicePeers ServiceManagement.

(** A stand-in for scrypt: the password, padded or cut to 32 bytes. *)
#[local] Instance toy_hash : PasswordHash := {| scrypt password salt := Some (take 32 (password ++ replicate 32 x00)) |}.

#[local] Existing Instance toy_crypto.

Definition no_ids : nat -> result bytes := fun _ => Throw runtime_error.
Definition no_draw : result bytes := Throw runtime_error.
Definition at_time : Z := 1000.
Definition go (r : Request) (s : Service) : Service := serve (C := toy_crypto) at_time no_ids r s.
Definition session : bytes := replicate 16 x07.

Definition svc_start : Service := fresh_service db_home.
Definition svc_owner : Service := go (rq_publish_key owner_id session (toy_signed_key owner_id) 11) svc_start.
Definition svc_both : Service := go (rq_publish_key guest_id session (toy_signed_key guest_id) 12) svc_owner.
Definition svc_pending : Service := go (rq_join guest_id (mk_network_selection home_id) 13) svc_both.
Definition approval : Request := rq_approve owner_id (mk_member_request home_id guest_id) 14.
Definition svc_joined : Service := go approval svc_pending.

Lemma svc_pending_reachable : service_reachable (C := toy_crypto) svc_pending.
Proof.
  unfold svc_pending, go. apply sr_serve. unfold svc_both, go. apply sr_serve. unfold svc_owner, go. apply sr_serve.
  apply sr_start, db_home_reachable.
Defined.
Lemma svc_joined_reachable : service_reachable (C := toy_crypto) svc_joined.
Proof. unfold svc_joined, go. apply sr_serve, svc_pending_reachable. Defined.

(** A packet of the network with the given sequence number, epoch and destination. *)
Definition packet_to (seq epoch dst : Z) : EncryptedNetworkPacket :=
  mk_packet home_id dst epoch seq (replicate 8 x01 ++ put_be 4 seq) (replicate 40 x02) (replicate 16 x03).

Definition unicast : EncryptedNetworkPacket := packet_to 1 2 0x0a400002.
Definition broadcast : EncryptedNetworkPacket := packet_to 7 2 0xffffffff.
Definition deliver_to_guest (p : EncryptedNetworkPacket) : RoutedEncryptedPacket := mk_delivery guest_id (mk_forwarded owner_id p).

Lemma membership_authorized_witness :
  is_member svc_joined home_id guest_id /\ ~ is_member svc_pending home_id guest_id /\
  may_add svc_pending svc_joined approval home_id guest_id.
Proof.
  unfold svc_joined, go.
  assert (J : is_member (serve (C := toy_crypto) at_time no_ids approval svc_pending) home_id guest_id) by (vm_compute; eexists; reflexivity).
  assert (P : ~ is_member svc_pending home_id guest_id) by (vm_compute; intros [x H]; discriminate H).
  split; [exact J|]. split; [exact P|].
  exact (proj1 (membership_authorized (C := toy_crypto) svc_pending at_time no_ids approval home_id guest_id) J P).
Defined.

Lemma membership_change_rotates_key_witness :
  key_epoch_for svc_pending home_id = 1 /\ key_epoch_for svc_joined home_id = 2 /\
  key_epoch_for svc_joined home_id = key_epoch_for svc_pending home_id + 1.
Proof.
  split; [vm_compute; reflexivity|]. split; [vm_compute; reflexivity|].
  assert (K : key_epochs_ svc_pending !! home_id = Some 1) by (vm_compute; reflexivity).
  unfold svc_joined, go.
  refine (proj1 (proj1 (membership_change_rotates_key (C := toy_crypto) svc_pending at_time no_ids approval home_id guest_id _ _) 1 K)).
  - rewrite K. cbn. lia.
  - split; [intros _; vm_compute; intros [x H]; discriminate H|intros _; vm_compute; eexists; reflexivity].
Defined.

Lemma routing_exact_witness :
  fst (route_encrypted_packet at_time owner_id unicast svc_joined) = Ok [deliver_to_guest unicast] /\
  fst (route_encrypted_packet at_time owner_id broadcast svc_joined) = Ok [deliver_to_guest broadcast] /\
  is_member svc_joined home_id owner_id.
Proof.
  split; [vm_compute; reflexivity|]. split; [vm_compute; reflexivity|].
  destruct (route_encrypted_packet at_time owner_id unicast svc_joined) as [r s'] eqn:E.
  assert (F : fst (route_encrypted_packet at_time owner_id unicast svc_joined) = Ok [deliver_to_guest unicast]) by (vm_compute; reflexivity).
  rewrite E in F. cbn [fst] in F. subst r.
  exact (proj1 (routing_exact (C := toy_crypto) svc_joined s' at_time owner_id unicast [deliver_to_guest unicast]
    svc_joined_reachable E ltac:(discriminate))).
Defined.

(** After one broadcast the window is open and the same packet is not forwarded again. *)
Definition svc_sent : Service := go (rq_route owner_id broadcast) svc_joined.
Definition next_broadcast : EncryptedNetworkPacket := packet_to 8 2 0xffffffff.

Lemma broadcast_typed : typed_request (rq_route owner_id broadcast).
Proof. unfold typed_request. split; [discriminate|reflexivity]. Qed.
Lemma broadcast_forwarded : forwarded_by at_time (rq_route owner_id broadcast) svc_joined = Some ((home_id, owner_id), 7).
Proof. vm_compute. reflexivity. Qed.

Lemma window_step s g clock gen r : window_reach s g -> typed_request r ->
  exists g' : bytes * bytes -> gset Z, window_reach (serve clock gen r s) g' /\
    (forall k q, forwarded_by clock r s = Some (k, q) -> q ∈ g' k).
Proof.
  intros R T. eexists. split; [apply (wr_serve s g clock gen r R T)|].
  intros k q F. cbv beta zeta. rewrite F, bool_decide_eq_true_2 by done. set_solver.
Qed.
Lemma svc_joined_window : exists g : bytes * bytes -> gset Z, window_reach (C := toy_crypto) svc_joined g.
Proof.
  assert (N : forall s r, (exists g : bytes * bytes -> gset Z, window_reach (C := toy_crypto) s g) -> typed_request r ->
    exists g : bytes * bytes -> gset Z, window_reach (C := toy_crypto) (go r s) g).
  { intros s r (g & R) T. destruct (window_step s g at_time no_ids r R T) as (g' & R' & _). by exists g'. }
  unfold svc_joined. apply N; [|exact I]. unfold svc_pending. apply N; [|exact I]. unfold svc_both. apply N; [|exact I].
  unfold svc_owner. apply N; [|exact I]. eexists. apply wr_start.
Qed.

Lemma svc_sent_window : exists g : bytes * bytes -> gset Z, window_reach (C := toy_crypto) svc_sent g /\
    (forall k q, forwarded_by at_time (rq_route owner_id broadcast) svc_joined = Some (k, q) -> q ∈ g k).
Proof.
  destruct svc_joined_window as (g0 & R0). unfold svc_sent, go.
  exact (window_step svc_joined g0 at_time no_ids (rq_route owner_id broadcast) R0 broadcast_typed).
Qed.


Lemma peer_state_exact_witness :
  (exists st, make_peer_state home_id guest_id 5 svc_joined = Ok st /\ is_ok (encode_network_peer_state st) = true) /\
  key_epoch_for svc_joined home_id <= key_epoch_for (go (rq_leave guest_id (mk_network_selection home_id) 20) svc_joined) home_id.
Proof.
  destruct (peer_state_exact (C := toy_crypto) svc_joined home_id guest_id 5 default_policy svc_joined_reachable)
    as [(st & H1 & H2 & _) K]; [vm_compute; eexists; reflexivity|vm_compute; reflexivity|].
  split; [exists st; exact (conj H1 H2)|]. exact (proj2 (K at_time no_ids (rq_leave guest_id (mk_network_selection home_id) 20))).
Defined.

Definition sealed_for_guest : NetworkKeyEnvelope :=
  match seal_network_key (C := toy_crypto) owner_id owner_id (toy_signed_key guest_id) guest_id home_id 2 (replicate 32 x08)
          (Some (replicate 12 x09)) with
  | Ok e => e
  | Throw _ => mk_envelope [] 0 [] [] [] [] [] [] [] []
  end.

Lemma key_distribution_authorized_witness :
  NoDup (map env_recipient [sealed_for_guest]) /\
  publish_network_keys (C := toy_crypto) owner_id (mk_publish [sealed_for_guest]) svc_joined
  = Ok (mk_key_outcome success home_id [sealed_for_guest]) /\
  open_network_key (C := toy_crypto) guest_id sealed_for_guest (toy_signed_key owner_id) guest_id = Ok (replicate 32 x08).
Proof.
  assert (P : publish_network_keys (C := toy_crypto) owner_id (mk_publish [sealed_for_guest]) svc_joined
    = Ok (mk_key_outcome success home_id [sealed_for_guest])) by (vm_compute; reflexivity).
  destruct (key_distribution_authorized (C := toy_crypto)) as [D O]. split; [|split; [exact P|]].
  - exact (proj1 (proj2 (proj2 (proj2 (D svc_joined owner_id (mk_publish [sealed_for_guest]) _ svc_joined_reachable P))))).
  - eapply (O owner_id owner_id guest_id guest_id home_id (replicate 32 x08) (replicate 12 x09) 2 (toy_signed_key guest_id) (toy_signed_key owner_id)
      owner_id sealed_for_guest); try (vm_compute; reflexivity). words. lia.
Defined.

(** A relay that restarts forgets its epochs and starts every network at epoch 1 again; the
    first membership change then records epoch 1 as well, so the guest that leaves does not
    retire the key. *)
Definition svc_restarted : Service := fresh_service (store_ svc_joined).
Definition svc_left : Service := go (rq_leave guest_id (mk_network_selection home_id) 20) svc_restarted.

Example restart_epoch_unchanged :
  is_member svc_restarted home_id guest_id /\ ~ is_member svc_left home_id guest_id /\
  key_epoch_for svc_restarted home_id = key_epoch_for svc_left home_id.
Proof.
  split; [vm_compute; eexists; reflexivity|]. split; [vm_compute; intros [x H]; discriminate H|vm_compute; reflexivity].
Qed.

(** The owner takes part in management and puts the network under a policy. *)
Definition svc_capable : Service := go (rq_capable owner_id true) svc_joined.
Definition manage_home : ManagementRequest :=
  mk_management_request replace_policy home_id (mk_policy 0 true mesh [] [] [] [] [] []).

(** The guest guesses a password twice. *)
Definition guess (secret : bytes) : AccessRequest :=
  mk_access_request act_password_join home_id zero_device [] secret 300 1 false.
Definition svc_guessed : Service := go (rq_access guest_id (guess (str "password1")) 31 1001 no_draw) svc_both.

Lemma policy_change_authorized_witness :
  (network_policy (store_ svc_capable) home_id = Ok default_policy /\ can_manage_network home_id owner_id svc_capable = Ok true) /\
  used (live_windows at_time svc_guessed) (home_id, guest_id) = 1 /\ attempts_ok svc_guessed.
Proof.
  assert (D : network_policy (store_ svc_capable) home_id = Ok default_policy) by (vm_compute; reflexivity).
  split; [split; [exact D|]|split; [vm_compute; reflexivity|]].
  - destruct (proj1 (policy_change_authorized svc_capable at_time no_ids owner_id manage_home 30 home_id))
      as (_ & _ & _ & _ & current & next & _ & _ & [(A & _)|(_ & _ & M & _)] & _).
    + reflexivity.
    + split; [|split]; [split; [split; [discriminate|reflexivity]|reflexivity]|reflexivity|].
      split; [split; [discriminate|reflexivity]|]. repeat split; constructor.
    + rewrite D. vm_compute. discriminate.
    + discriminate A.
    + exact M.
  - assert (R : service_reachable svc_guessed).
    { unfold svc_guessed, go. apply sr_serve. unfold svc_both, go. apply sr_serve. unfold svc_owner, go. apply sr_serve.
      apply sr_start, db_home_reachable. }
    assert (B : forall s, service_reachable s -> attempts_ok s)
      by (intros s Rs; exact (proj1 (proj2 (policy_change_authorized s at_time no_ids guest_id manage_home 30 home_id) Rs))).
    exact (B _ R).
Defined.

(** A handler that throws is audited as a success: a password that is too short is not set,
    but the log records a password change. *)
Definition short_password : AccessRequest := mk_access_request act_password_set home_id zero_device [] (str "abc") 300 1 false.
Definition log_of (s : Service) : list (AuditKind * NetworkResultCode) :=
  map (fun e => (audit_kind e, audit_result e)) (db_audit (store_ s)).

Example failed_password_change_logged :
  fst (access_request at_time at_time no_ids (Ok (replicate 32 x05)) owner_id short_password 32 svc_joined) = Throw invalid_argument /\
  db_access (store_ (go (rq_access owner_id short_password 32 at_time (Ok (replicate 32 x05))) svc_joined)) = ∅ /\
  log_of (go (rq_access owner_id short_password 32 at_time (Ok (replicate 32 x05))) svc_joined)
  = log_of svc_joined ++ [(password_change, success)].
Proof. split; [vm_compute; reflexivity|]. split; [vm_compute; reflexivity|vm_compute; reflexivity]. Qed.
