(* ===== verification/Handshake.v ===== *)
(** * Authentication of a device to the relay

    auth/handshake.hpp and .cpp: the four payloads, the client's and the server's state
    machine; auth/identity.cpp: the shared token ([AuthToken]).  An operation returns the new
    state beside its result, since the code keeps what it assigned before it throws.
    HMAC-SHA256 (OpenSSL) is the class [TokenMac]; the outcomes of [RAND_bytes] and the
    clock are arguments.  A device identity and a [DeviceEncryptionKey] are their secrets. *)
From S2P Require Import Prelude Codec NetworkMessages Crypto JoinTarget.

(** [None] is a failure of the library call. *)
Class TokenMac := { hmac_sha256 : bytes -> bytes -> option bytes }. (* key, message *)
Class TokenMacLaws (M : TokenMac) :=
  { hmac_length : forall k m t, hmac_sha256 k m = Some t -> length t = 32%nat }.

Definition token_proof_size : nat := 32.
Definition session_id_size : nat := 32.
Definition client_hello_size : nat := public_key_size + encryption_public_key_size + nonce_size.
Definition server_challenge_size : nat := nonce_size.
Definition client_proof_size : nat := signature_size + token_proof_size.
Definition auth_result_size : nat := 1 + session_id_size.

(** ** Payloads *)

Record ClientHelloPayload := mk_client_hello {
  hello_public_key : bytes; hello_encryption_public_key : bytes; hello_client_nonce : bytes }.
Record ServerChallengePayload := mk_server_challenge { challenge_server_nonce : bytes }.
Record ClientProofPayload := mk_client_proof { proof_signature : bytes; proof_token_proof : bytes }.
Record AuthResultPayload := mk_auth_result { accepted : bool; result_session_id : bytes }.

(** [std::copy_n] at an offset inside the payload. *)
Definition read_array (n : nat) (source : bytes) (offset : nat) : bytes := take n (drop offset source).

Definition encode_client_hello (p : ClientHelloPayload) : bytes :=
  hello_public_key p ++ hello_encryption_public_key p ++ hello_client_nonce p.
Definition decode_client_hello (payload : bytes) : result ClientHelloPayload :=
  check! len payload =? Z.of_nat client_hello_size else runtime_error in
  Ok (mk_client_hello (read_array public_key_size payload 0)
        (read_array encryption_public_key_size payload public_key_size)
        (read_array nonce_size payload (public_key_size + encryption_public_key_size))).

Definition encode_server_challenge (p : ServerChallengePayload) : bytes := challenge_server_nonce p.
Definition decode_server_challenge (payload : bytes) : result ServerChallengePayload :=
  check! len payload =? Z.of_nat server_challenge_size else runtime_error in
  Ok (mk_server_challenge (read_array nonce_size payload 0)).

Definition encode_client_proof (p : ClientProofPayload) : bytes := proof_signature p ++ proof_token_proof p.
Definition decode_client_proof (payload : bytes) : result ClientProofPayload :=
  check! len payload =? Z.of_nat client_proof_size else runtime_error in
  Ok (mk_client_proof (read_array signature_size payload 0) (read_array token_proof_size payload signature_size)).

Definition session_mismatch (accepted empty_session : bool) : bool :=
  (accepted && empty_session) || (negb accepted && negb empty_session).

Definition encode_auth_result (p : AuthResultPayload) : result bytes :=
  check! negb (session_mismatch (accepted p) (is_zero (result_session_id p))) else invalid_argument in
  Ok ((if accepted p then x01 else x00) :: result_session_id p).
Definition decode_auth_result (payload : bytes) : result AuthResultPayload :=
  check! negb (negb (len payload =? Z.of_nat auth_result_size) ||
               (negb (bool_decide (at_ payload 0 = x00)) && negb (bool_decide (at_ payload 0 = x01)))) else runtime_error in
  let r := mk_auth_result (bool_decide (at_ payload 0 = x01)) (read_array session_id_size payload 1) in
  check! negb (session_mismatch (accepted r) (is_zero (result_session_id r))) else runtime_error in
  Ok r.

Definition require_frame (f : Frame) (type : MessageType) (id : Z) : result unit :=
  check! negb (negb (bool_decide (type_ f = type)) || negb (request_id f =? id)) else runtime_error in Ok tt.

Section Handshake.
Context {C : Crypto} {M : TokenMac}.

(** ** The shared token *)

Definition maximum_token_size : Z := 4096.

Definition digest (input : bytes) : result bytes :=
  match sha256 input with Some d => Ok d | None => Throw runtime_error end.

(** [while (back() == '\n' || back() == '\r') pop_back()], from the end. *)
Fixpoint drop_line_ends (reversed : bytes) : bytes :=
  match reversed with
  | c :: rest => if bool_decide (c = x0a) || bool_decide (c = x0d) then drop_line_ends rest else reversed
  | [] => []
  end.

(** [file] is the content of the token file, [None] a file that cannot be read. *)
Definition token_load (path : bytes) (file : option bytes) : result bytes :=
  check! negb (bool_decide (path = [])) else invalid_argument in
  match file with
  | None => Throw runtime_error
  | Some content =>
      check! len content <=? maximum_token_size else runtime_error in
      let bs := reverse (drop_line_ends (reverse content)) in
      check! negb (len bs <? 32) else runtime_error in
      check! negb (bool_decide (x00 ∈ bs) || bool_decide (x0a ∈ bs) || bool_decide (x0d ∈ bs)) else runtime_error in
      digest bs
  end.

Definition token_from_secret (secret : bytes) : result bytes :=
  check! negb ((len secret <? 32) || (len secret >? maximum_token_size)) else invalid_argument in
  digest secret.

Definition token_proof (key message : bytes) : result bytes :=
  match hmac_sha256 key message with
  | Some t => if len t =? Z.of_nat token_proof_size then Ok t else Throw runtime_error
  | None => Throw runtime_error
  end.

Definition token_verify (key message proof : bytes) : result bool :=
  let* expected := token_proof key message in
  Ok (bool_decide (expected = proof)).

(** ** The client *)

Inductive ClientState := cs_ready | cs_waiting_challenge | cs_waiting_result | cs_authenticated | cs_rejected | cs_closed.
#[global] Instance ClientState_eq_dec : EqDecision ClientState.
Proof. solve_decision. Defined.

Record ClientHandshake := mk_client {
  c_identity : bytes; c_token : bytes; c_encryption_key : bytes;
  c_signed_device_key : option SignedDeviceKey;
  c_client_nonce : bytes; c_session_id : bytes; c_request_id : Z; c_state : ClientState }.

(** [encryption_secret] is what [DeviceEncryptionKey::generate] drew. *)
Definition new_client (identity token encryption_secret : bytes) : ClientHandshake :=
  mk_client identity token encryption_secret None (zeros nonce_size) (zeros session_id_size) 0 cs_ready.

Definition identity_sign (secret message : bytes) : result bytes :=
  match ed25519_sign secret message with
  | Some s => if len s =? Z.of_nat signature_size then Ok s else Throw runtime_error
  | None => Throw runtime_error
  end.

Definition begin_handshake (id : Z) (random : option bytes) (c : ClientHandshake) : ClientHandshake * result Frame :=
  match c with
  | mk_client identity token key signed nonce session _ state =>
      if negb (bool_decide (state = cs_ready)) then (c, Throw logic_error)
      else if id =? 0 then (c, Throw invalid_argument)
      else
        match random with
        | None => (mk_client identity token key signed nonce session id state, Throw runtime_error)
        | Some nonce =>
            (mk_client identity token key signed nonce session id cs_waiting_challenge,
             Ok (mk_frame client_hello id
                   (encode_client_hello (mk_client_hello (ed25519_public identity) (x25519_public key) nonce))))
        end
  end.

(** The body of the [try] in [handle_challenge]. *)
Definition make_proof (c : ClientHandshake) (server_nonce : bytes) : result (ClientProofPayload * SignedDeviceKey) :=
  let transcript := make_auth_transcript (ed25519_public (c_identity c)) (x25519_public (c_encryption_key c))
                      (c_client_nonce c) server_nonce in
  let* signature := identity_sign (c_identity c) transcript in
  let* mac := token_proof (c_token c) transcript in
  Ok (mk_client_proof signature mac,
      mk_signed_key (ed25519_public (c_identity c)) (x25519_public (c_encryption_key c))
        (c_client_nonce c) server_nonce signature).

Definition handle_challenge (f : Frame) (c : ClientHandshake) : ClientHandshake * result Frame :=
  match c with
  | mk_client identity token key signed nonce session id state =>
      if negb (bool_decide (state = cs_waiting_challenge)) then (c, Throw logic_error)
      else
        match (let* _ := require_frame f server_hello id in decode_server_challenge (payload f)) with
        | Throw e => (c, Throw e)
        | Ok challenge =>
            match make_proof c (challenge_server_nonce challenge) with
            | Throw e => (mk_client identity token key None nonce session id state, Throw e)
            | Ok (proof, signed) =>
                (mk_client identity token key (Some signed) nonce session id cs_waiting_result,
                 Ok (mk_frame client_auth id (encode_client_proof proof)))
            end
        end
  end.

Definition handle_result (f : Frame) (c : ClientHandshake) : ClientHandshake * result bool :=
  match c with
  | mk_client identity token key signed nonce session id state =>
      if negb (bool_decide (state = cs_waiting_result)) then (c, Throw logic_error)
      else
        match (let* _ := require_frame f auth_result id in decode_auth_result (payload f)) with
        | Throw e => (c, Throw e)
        | Ok r =>
            (if accepted r
             then mk_client identity token key signed (zeros nonce_size) (result_session_id r) id cs_authenticated
             else mk_client identity token key None (zeros nonce_size) (zeros session_id_size) id cs_rejected,
             Ok (accepted r))
        end
  end.

Definition client_authenticated (c : ClientHandshake) : bool := bool_decide (c_state c = cs_authenticated).
Definition client_session_id (c : ClientHandshake) : option bytes :=
  if negb (client_authenticated c) then None else Some (c_session_id c).
Definition client_signed_device_key (c : ClientHandshake) : option SignedDeviceKey :=
  if client_authenticated c then c_signed_device_key c else None.
Definition client_encryption_key (c : ClientHandshake) : result bytes :=
  if negb (client_authenticated c) then Throw logic_error else Ok (c_encryption_key c).
Definition close_client (c : ClientHandshake) : ClientHandshake :=
  mk_client (c_identity c) (c_token c) (c_encryption_key c) None (zeros nonce_size) (zeros session_id_size) 0 cs_closed.

(** ** The server *)

Inductive ServerState := waiting_hello | waiting_proof | authenticated | rejected | timed_out | closed.
#[global] Instance ServerState_eq_dec : EqDecision ServerState.
Proof. solve_decision. Defined.

Record ServerHandshake := mk_server {
  s_token : bytes; s_binding : Z; s_deadline : Z;
  s_public_key : bytes; s_encryption_key : bytes; s_signed_device_key : option SignedDeviceKey;
  s_client_nonce : bytes; s_server_nonce : bytes; s_device_id : bytes; s_session_id : bytes;
  s_request_id : Z; s_state : ServerState }.

Definition new_server (token : bytes) (binding deadline : Z) : result ServerHandshake :=
  check! negb (binding =? 0) else invalid_argument in
  Ok (mk_server token binding deadline (zeros public_key_size) (zeros encryption_public_key_size) None
        (zeros nonce_size) (zeros nonce_size) (zeros network_device_id_size) (zeros session_id_size) 0 waiting_hello).

(** [cleanse] of the keys and nonces of the exchange. *)
Definition cleanse_exchange (s : ServerHandshake) : ServerHandshake :=
  mk_server (s_token s) (s_binding s) (s_deadline s) (zeros public_key_size) (zeros encryption_public_key_size)
    (s_signed_device_key s) (zeros nonce_size) (zeros nonce_size) (s_device_id s) (s_session_id s) (s_request_id s) (s_state s).

Definition expire (now : Z) (s : ServerHandshake) : ServerHandshake * bool :=
  if (bool_decide (s_state s = waiting_hello) || bool_decide (s_state s = waiting_proof)) && (now >=? s_deadline s)
  then (mk_server (s_token s) (s_binding s) (s_deadline s) (zeros public_key_size) (zeros encryption_public_key_size)
          (s_signed_device_key s) (zeros nonce_size) (zeros nonce_size) (s_device_id s) (s_session_id s) 0 timed_out, true)
  else (s, bool_decide (s_state s = timed_out)).

Definition require_active (now : Z) (s : ServerHandshake) : ServerHandshake * result unit :=
  let (s, expired) := expire now s in
  (s, if expired then Throw runtime_error
      else if bool_decide (s_state s = closed) then Throw logic_error else Ok tt).

(** What [handle_hello] requires of the frame before it assigns anything. *)
Definition check_hello (f : Frame) (s : ServerHandshake) : result ClientHelloPayload :=
  check! negb (negb (bool_decide (s_state s = waiting_hello)) || negb (bool_decide (type_ f = client_hello))) else runtime_error in
  check! negb (request_id f =? 0) else runtime_error in
  let* hello := decode_client_hello (payload f) in
  check! negb (is_zero (hello_encryption_public_key hello)) else runtime_error in
  Ok hello.

Definition handle_hello (f : Frame) (now : Z) (random : option bytes) (s : ServerHandshake)
    : ServerHandshake * result Frame :=
  match require_active now s with
  | (s, Throw e) => (s, Throw e)
  | (s, Ok _) =>
      match check_hello f s with
      | Throw e => (s, Throw e)
      | Ok (mk_client_hello public encryption client) =>
          let assigned server id state :=
            mk_server (s_token s) (s_binding s) (s_deadline s) public encryption (s_signed_device_key s)
              client server (s_device_id s) (s_session_id s) id state in
          match random with
          | None => (assigned (s_server_nonce s) (s_request_id s) (s_state s), Throw runtime_error)
          | Some nonce =>
              (assigned nonce (request_id f) waiting_proof,
               Ok (mk_frame server_hello (request_id f) (encode_server_challenge (mk_server_challenge nonce))))
          end
      end
  end.

(** [do result = random_session_id(); while (all_zero(result))] over the outcomes of the
    following calls of [RAND_bytes]; [None]: the loop is still running after all of them. *)
Fixpoint make_nonzero_session_id (draws : list (option bytes)) : option (result bytes) :=
  match draws with
  | [] => None
  | None :: _ => Some (Throw runtime_error)
  | Some d :: rest => if is_zero d then make_nonzero_session_id rest else Some (Ok d)
  end.

(** The two checks of a proof: the signature and the token, both evaluated. *)
Definition check_proof (s : ServerHandshake) (p : ClientProofPayload) : result bool :=
  let transcript := make_auth_transcript (s_public_key s) (s_encryption_key s) (s_client_nonce s) (s_server_nonce s) in
  let* valid_signature := verify_signature (s_public_key s) transcript (proof_signature p) in
  let* valid_token := token_verify (s_token s) transcript (proof_token_proof p) in
  Ok (valid_signature && valid_token).

(** The [catch] of [handle_proof]. *)
Definition abandon (s : ServerHandshake) : ServerHandshake :=
  let s := cleanse_exchange s in
  mk_server (s_token s) (s_binding s) (s_deadline s) (s_public_key s) (s_encryption_key s) (s_signed_device_key s)
    (s_client_nonce s) (s_server_nonce s) (zeros network_device_id_size) (zeros session_id_size) (s_request_id s) rejected.

(** The end of the [try]: the answer is encoded and the exchange forgotten. *)
Definition answer (ok : bool) (s : ServerHandshake) : ServerHandshake * result Frame :=
  match encode_auth_result (mk_auth_result ok (s_session_id s)) with
  | Throw e => (abandon s, Throw e)
  | Ok bs => (cleanse_exchange s, Ok (mk_frame auth_result (s_request_id s) bs))
  end.

Definition accept (p : ClientProofPayload) (device session : bytes) (s : ServerHandshake) : ServerHandshake :=
  mk_server (s_token s) (s_binding s) (s_deadline s) (s_public_key s) (s_encryption_key s)
    (Some (mk_signed_key (s_public_key s) (s_encryption_key s) (s_client_nonce s) (s_server_nonce s) (proof_signature p)))
    (s_client_nonce s) (s_server_nonce s) device session (s_request_id s) authenticated.

Definition reject (s : ServerHandshake) : ServerHandshake :=
  mk_server (s_token s) (s_binding s) (s_deadline s) (s_public_key s) (s_encryption_key s) None
    (s_client_nonce s) (s_server_nonce s) (zeros network_device_id_size) (zeros session_id_size) (s_request_id s) rejected.

(** [None]: the call has not returned, the session id loop is still drawing. *)
Definition handle_proof (f : Frame) (now : Z) (draws : list (option bytes)) (s : ServerHandshake)
    : option (ServerHandshake * result Frame) :=
  match require_active now s with
  | (s, Throw e) => Some (s, Throw e)
  | (s, Ok _) =>
      if negb (bool_decide (s_state s = waiting_proof)) then Some (s, Throw runtime_error)
      else
        match (let* _ := require_frame f client_auth (s_request_id s) in decode_client_proof (payload f)) with
        | Throw e => Some (s, Throw e)
        | Ok proof =>
            match check_proof s proof with
            | Throw e => Some (abandon s, Throw e)
            | Ok false => Some (answer false (reject s))
            | Ok true =>
                match make_device_id (s_public_key s) with
                | Throw e => Some (abandon s, Throw e)
                | Ok device =>
                    match make_nonzero_session_id draws with
                    | None => None
                    | Some (Throw e) => Some (abandon s, Throw e)
                    | Some (Ok session) => Some (answer true (accept proof device session s))
                    end
                end
            end
        end
  end.

Definition server_authenticated (s : ServerHandshake) : bool := bool_decide (s_state s = authenticated).
Definition server_rejected (s : ServerHandshake) : bool := bool_decide (s_state s = rejected).
Definition server_timed_out (s : ServerHandshake) : bool := bool_decide (s_state s = timed_out).
Definition server_session_id (s : ServerHandshake) : result bytes :=
  if negb (server_authenticated s) then Throw logic_error else Ok (s_session_id s).
Definition server_device_id (s : ServerHandshake) : result bytes :=
  if negb (server_authenticated s) then Throw logic_error else Ok (s_device_id s).
Definition server_signed_device_key (s : ServerHandshake) : result SignedDeviceKey :=
  if negb (server_authenticated s) then Throw logic_error
  else match s_signed_device_key s with Some k => Ok k | None => Throw logic_error end.
Definition server_device_id_hex (s : ServerHandshake) : result bytes :=
  let* id := server_device_id s in Ok (hex_encode id).
Definition bound_to (binding : Z) (device session : bytes) (s : ServerHandshake) : bool :=
  server_authenticated s && (s_binding s =? binding) && bool_decide (s_device_id s = device) &&
  bool_decide (s_session_id s = session).
Definition close_server (s : ServerHandshake) : ServerHandshake :=
  mk_server (s_token s) 0 (s_deadline s) (zeros public_key_size) (zeros encryption_public_key_size) None
    (zeros nonce_size) (zeros nonce_size) (zeros network_device_id_size) (zeros session_id_size) 0 closed.

(** ** Payloads are read back exactly *)

Lemma client_hello_decoded h bs :
  decode_client_hello bs = Ok h <->
  bs = encode_client_hello h /\ length (hello_public_key h) = 32%nat /\
  length (hello_encryption_public_key h) = 32%nat /\ length (hello_client_nonce h) = 32%nat.
Proof.
  unfold decode_client_hello, encode_client_hello, read_array. split.
  - intros H. ok_inv H. bool_prop. subst h. cbn [hello_public_key hello_encryption_public_key hello_client_nonce].
    unfold len in *. change (Z.of_nat client_hello_size) with 96 in *.
    unfold public_key_size, encryption_public_key_size, nonce_size. rewrite !length_take, !length_drop, drop_0.
    split_and!; try lia. rewrite (take_ge (drop (32 + 32) bs)) by (rewrite length_drop; lia).
    rewrite <- (drop_drop bs 32 32), take_drop. symmetry. apply take_drop.
  - destruct h as [a b c]. cbn [hello_public_key hello_encryption_public_key hello_client_nonce].
    intros (-> & La & Lb & Lc). guard_true by (unfold len; rewrite !length_app, La, Lb, Lc; reflexivity).
    do 2 f_equal; rewrite ?drop_0.
    + rewrite take_app_length' by done. done.
    + rewrite drop_app_length' by done. rewrite take_app_length' by done. done.
    + rewrite app_assoc, drop_app_length' by (rewrite length_app, La, Lb; done). rewrite take_ge by (rewrite Lc; done). done.
Qed.

Lemma client_proof_decoded p bs :
  decode_client_proof bs = Ok p <->
  bs = encode_client_proof p /\ length (proof_signature p) = 64%nat /\ length (proof_token_proof p) = 32%nat.
Proof.
  unfold decode_client_proof, encode_client_proof, read_array. split.
  - intros H. ok_inv H. bool_prop. subst p. cbn [proof_signature proof_token_proof].
    unfold len in *. change (Z.of_nat client_proof_size) with 96 in *.
    unfold signature_size, token_proof_size. rewrite !length_take, !length_drop, drop_0. split_and!; try lia.
    rewrite (take_ge (drop 64 bs)) by (rewrite length_drop; lia). symmetry. apply take_drop.
  - destruct p as [a b]. cbn [proof_signature proof_token_proof]. intros (-> & La & Lb).
    guard_true by (unfold len; rewrite !length_app, La, Lb; reflexivity).
    do 2 f_equal; rewrite ?drop_0.
    + by rewrite take_app_length'.
    + rewrite drop_app_length' by done. rewrite take_ge by (rewrite Lb; done). done.
Qed.

Lemma server_challenge_decoded n bs :
  decode_server_challenge bs = Ok n <-> bs = encode_server_challenge n /\ length (challenge_server_nonce n) = 32%nat.
Proof.
  unfold decode_server_challenge, encode_server_challenge, read_array. rewrite drop_0. split.
  - intros H. ok_inv H. bool_prop. subst n. cbn [challenge_server_nonce]. unfold len in *.
    change (Z.of_nat server_challenge_size) with 32 in *. rewrite take_ge by (unfold nonce_size; lia). split; [done|lia].
  - destruct n as [a]. cbn [challenge_server_nonce]. intros [-> L].
    guard_true by (unfold len; rewrite L; reflexivity). by rewrite take_ge by (rewrite L; done).
Qed.

Lemma auth_result_decoded r bs :
  decode_auth_result bs = Ok r <-> encode_auth_result r = Ok bs /\ length (result_session_id r) = 32%nat.
Proof.
  unfold decode_auth_result, encode_auth_result, read_array. split.
  - intros H. ok_inv H. bool_prop. subst r. cbn [accepted result_session_id] in *.
    destruct bs as [|b bs]; [done|]. unfold at_ in *. cbn [nth] in *. change (drop 1 (b :: bs)) with bs in *.
    rewrite len_cons in *. unfold len in *. change (Z.of_nat auth_result_size) with 33 in *.
    rewrite take_ge in * by (unfold session_id_size; lia). rewrite G0. cbn [negb]. split; [|lia].
    destruct (andb_false_elim _ _ H1) as [X|X]; bool_prop; by subst b.
  - destruct r as [a s]. cbn [accepted result_session_id]. intros [H L]. ok_inv H. bool_prop. subst bs.
    rewrite len_cons. unfold len, at_. rewrite L.
    destruct a; cbn [nth]; match goal with |- context [drop 1 (?b :: s)] => change (drop 1 (b :: s)) with s end;
      rewrite take_ge by (rewrite L; done); destruct (is_zero s); [discriminate G || reflexivity ..].
Qed.

(** ** Calls in any order *)

Inductive event :=
| ev_hello (f : Frame) (now : Z) (random : option bytes)
| ev_proof (f : Frame) (now : Z) (draws : list (option bytes))
| ev_expire (now : Z)
| ev_close.

(** The state a call leaves, whether it returned or threw. *)
Definition serve (e : event) (s : ServerHandshake) : option ServerHandshake :=
  match e with
  | ev_hello f now random => Some (fst (handle_hello f now random s))
  | ev_proof f now draws => fst <$> handle_proof f now draws s
  | ev_expire now => Some (fst (expire now s))
  | ev_close => Some (close_server s)
  end.

Fixpoint run (es : list event) (s : ServerHandshake) : option ServerHandshake :=
  match es with [] => Some s | e :: es => s' ← serve e s; run es s' end.

Lemma run_snoc es e s : run (es ++ [e]) s = s' ← run es s; serve e s'.
Proof.
  revert s. induction es as [|x es IH]; intros s; cbn.
  - by destruct (serve e s).
  - destruct (serve x s); cbn; [apply IH|done].
Qed.

Definition waiting (s : ServerHandshake) : bool :=
  bool_decide (s_state s = waiting_hello) || bool_decide (s_state s = waiting_proof).

(** The exchange is forgotten. *)
Definition forgotten (s : ServerHandshake) : Prop :=
  s_public_key s = zeros public_key_size /\ s_encryption_key s = zeros encryption_public_key_size /\
  s_client_nonce s = zeros nonce_size /\ s_server_nonce s = zeros nonce_size.

(** What the server did and saw before it accepted. *)
Record hello_accepted (deadline : Z) (f : Frame) (now : Z) (h : ClientHelloPayload) : Prop := {
  ha_time : now < deadline;
  ha_type : type_ f = client_hello;
  ha_hello : decode_client_hello (payload f) = Ok h;
  ha_key : is_zero (hello_encryption_public_key h) = false }.

Record proof_accepted (token : bytes) (deadline : Z) (f : Frame) (now : Z) (nonce : bytes)
    (h : ClientHelloPayload) (p : ClientProofPayload) : Prop := {
  pa_time : now < deadline;
  pa_type : type_ f = client_auth;
  pa_proof : decode_client_proof (payload f) = Ok p;
  pa_signature :
    let transcript := make_auth_transcript (hello_public_key h) (hello_encryption_public_key h) (hello_client_nonce h) nonce in
    verify_signature (hello_public_key h) transcript (proof_signature p) = Ok true;
  pa_token :
    let transcript := make_auth_transcript (hello_public_key h) (hello_encryption_public_key h) (hello_client_nonce h) nonce in
    token_proof token transcript = Ok (proof_token_proof p) }.

Definition key_of (h : ClientHelloPayload) (nonce : bytes) (p : ClientProofPayload) : SignedDeviceKey :=
  mk_signed_key (hello_public_key h) (hello_encryption_public_key h) (hello_client_nonce h) nonce (proof_signature p).

(** What holds of a server after the calls [es]. *)
Definition history (es : list event) (s : ServerHandshake) : Prop :=
  match s_state s with
  | waiting_hello => s_signed_device_key s = None
  | waiting_proof =>
      s_signed_device_key s = None /\
      exists before after f now h,
        es = before ++ ev_hello f now (Some (s_server_nonce s)) :: after /\
        hello_accepted (s_deadline s) f now h /\ s_request_id s = request_id f /\
        s_public_key s = hello_public_key h /\ s_encryption_key s = hello_encryption_public_key h /\
        s_client_nonce s = hello_client_nonce h
  | authenticated =>
      forgotten s /\ is_zero (s_session_id s) = false /\
      exists before between after f now nonce h f' now' draws p,
        es = before ++ ev_hello f now (Some nonce) :: between ++ ev_proof f' now' draws :: after /\
        hello_accepted (s_deadline s) f now h /\ proof_accepted (s_token s) (s_deadline s) f' now' nonce h p /\
        request_id f' = request_id f /\
        s_signed_device_key s = Some (key_of h nonce p) /\ make_device_id (hello_public_key h) = Ok (s_device_id s)
  | _ => forgotten s
  end.

(** A later call that changes nothing keeps the history. *)
Lemma history_weaken es e s : history es s -> history (es ++ [e]) s.
Proof.
  unfold history. destruct (s_state s); try done.
  - intros (N & b & a & f & now & h & -> & H). split; [done|]. exists b, (a ++ [e]), f, now, h.
    rewrite <- app_assoc. done.
  - intros (Fg & Z0 & b & m & a & f & now & n & h & f' & now' & d & p & -> & H). split_and!; [done..|].
    exists b, m, (a ++ [e]), f, now, n, h, f', now', d, p. split; [|done].
    rewrite <- app_assoc. cbn. by rewrite <- app_assoc.
Qed.

Lemma expire_cases now s :
  (waiting s = true /\ s_deadline s <= now /\ snd (expire now s) = true /\ s_state (fst (expire now s)) = timed_out /\
   forgotten (fst (expire now s)) /\ s_request_id (fst (expire now s)) = 0) \/
  (expire now s = (s, bool_decide (s_state s = timed_out)) /\ (waiting s = true -> now < s_deadline s)).
Proof.
  unfold expire, waiting. destruct (bool_decide (s_state s = waiting_hello) || _) eqn:W; cbn [andb].
  - destruct (now >=? s_deadline s) eqn:D; bool_prop; [left|right]; [|done]. by split_and!.
  - right. done.
Qed.

(** [require_active] lets a call go on only in a waiting server before its deadline, or in one
    whose outcome is known. *)
Lemma require_active_cases now s :
  (waiting s = true /\ s_deadline s <= now /\ require_active now s = (fst (expire now s), Throw runtime_error)) \/
  (s_state s = timed_out /\ require_active now s = (s, Throw runtime_error)) \/
  (s_state s = closed /\ require_active now s = (s, Throw logic_error)) \/
  (s_state s <> timed_out /\ s_state s <> closed /\ (waiting s = true -> now < s_deadline s) /\ require_active now s = (s, Ok tt)).
Proof.
  unfold require_active. destruct (expire_cases now s) as [(W & D & X & _)|(-> & D)].
  - left. destruct (expire now s) as [s' b]. cbn in X |- *. by subst b.
  - right. destruct (decide (s_state s = timed_out)) as [T|T]; [left; by rewrite T|].
    rewrite bool_decide_eq_false_2 by done. right.
    destruct (decide (s_state s = closed)) as [K|K]; [left; by rewrite K|]. right.
    by rewrite bool_decide_eq_false_2 by done.
Qed.

Lemma check_hello_ok f s h :
  check_hello f s = Ok h ->
  s_state s = waiting_hello /\ type_ f = client_hello /\ request_id f <> 0 /\
  decode_client_hello (payload f) = Ok h /\ is_zero (hello_encryption_public_key h) = false.
Proof. unfold check_hello. intros H. ok_inv H. bool_prop. by subst. Qed.

Lemma handle_hello_history es s f now random s' r :
  history es s -> handle_hello f now random s = (s', r) -> history (es ++ [ev_hello f now random]) s'.
Proof.
  intros Hs H. unfold handle_hello in H.
  destruct (require_active_cases now s) as [(W & D & E)|[(T & E)|[(T & E)|(T & K & D & E)]]]; rewrite E in H.
  - injection H as <- <-. destruct (expire_cases now s) as [(_ & _ & _ & X & Y & _)|(_ & X)]; [|specialize (X W); lia].
    unfold history. by rewrite X.
  - injection H as <- <-. by apply history_weaken.
  - injection H as <- <-. by apply history_weaken.
  - destruct (check_hello f s) as [[pk ek cn]|] eqn:G; [|injection H as <- <-; by apply history_weaken].
    apply check_hello_ok in G as (St & Ty & Id & De & Ze). unfold history in Hs. rewrite St in Hs.
    assert (W : waiting s = true) by (unfold waiting; by rewrite St).
    destruct random as [nonce|]; injection H as <- <-; unfold history; cbn; [|by rewrite St].
    split; [done|]. exists es, [], f, now, (mk_client_hello pk ek cn). split_and!; try done.
    constructor; auto.
Qed.

Lemma check_proof_ok s p :
  check_proof s p = Ok true ->
  let transcript := make_auth_transcript (s_public_key s) (s_encryption_key s) (s_client_nonce s) (s_server_nonce s) in
  verify_signature (s_public_key s) transcript (proof_signature p) = Ok true /\
  token_proof (s_token s) transcript = Ok (proof_token_proof p).
Proof.
  unfold check_proof, token_verify. intros H. destruct (verify_signature _ _ _) as [b|] eqn:V; [|done].
  destruct (token_proof _ _) as [t|] eqn:T; [|done]. cbn in H. apply Ok_inj in H.
  destruct b; [|done]. cbn in H. apply bool_decide_eq_true in H as ->. done.
Qed.

Lemma make_nonzero_session_id_ok draws d : make_nonzero_session_id draws = Some (Ok d) -> is_zero d = false.
Proof.
  induction draws as [|[x|] draws IH]; cbn; try done. destruct (is_zero x) eqn:E; [apply IH|]. by intros [= <-].
Qed.

(** The answer to an accepted or refused proof can always be encoded. *)
Lemma answer_spec ok s :
  is_zero (s_session_id s) = negb ok ->
  answer ok s = (cleanse_exchange s, Ok (mk_frame auth_result (s_request_id s) ((if ok then x01 else x00) :: s_session_id s))).
Proof. intros H. unfold answer, encode_auth_result. cbn [accepted result_session_id]. rewrite H. by destruct ok. Qed.

Lemma require_frame_ok f type id u : require_frame f type id = Ok u -> type_ f = type /\ request_id f = id.
Proof. unfold require_frame. intros H. ok_inv H. by bool_prop. Qed.

Lemma handle_proof_history es s f now draws s' r :
  history es s -> handle_proof f now draws s = Some (s', r) -> history (es ++ [ev_proof f now draws]) s'.
Proof.
  intros Hs H. unfold handle_proof in H.
  destruct (require_active_cases now s) as [(W & D & E)|[(T & E)|[(T & E)|(T & K & D & E)]]]; rewrite E in H.
  - injection H as <- <-. destruct (expire_cases now s) as [(_ & _ & _ & X & Y & _)|(_ & X)]; [|specialize (X W); lia].
    unfold history. by rewrite X.
  - injection H as <- <-. by apply history_weaken.
  - injection H as <- <-. by apply history_weaken.
  - destruct (negb (bool_decide (s_state s = waiting_proof))) eqn:St; [injection H as <- <-; by apply history_weaken|].
    bool_prop. unfold history in Hs. rewrite St in Hs.
    destruct Hs as (N & before & after & hf & hnow & h & Es & Ha & Id & Pk & Ek & Cn).
    assert (W : waiting s = true) by (unfold waiting; by rewrite St).
    destruct (let* _ := require_frame f client_auth (s_request_id s) in decode_client_proof (payload f)) as [p|] eqn:Q;
      [|injection H as <- <-; apply history_weaken; unfold history; rewrite St; eauto 20].
    destruct (check_proof s p) as [[]|] eqn:Cp.
    + destruct (make_device_id _) as [device|] eqn:Dv; [|by injection H as <- <-].
      destruct (make_nonzero_session_id draws) as [[session|]|] eqn:Se; [|by injection H as <- <-|done].
      apply make_nonzero_session_id_ok in Se. rewrite answer_spec in H by done. injection H as <- <-.
      unfold history. cbn. split; [done|]. split; [done|].
      exists before, after, [], hf, hnow, (s_server_nonce s), h, f, now, draws, p.
      apply check_proof_ok in Cp as [Cs Ct]. rewrite Pk, Ek, Cn in *.
      destruct (require_frame _ _ _) eqn:Rf; [|done]. apply require_frame_ok in Rf as [Ty Ri].
      split_and!; try done; [by rewrite Es, <- app_assoc|constructor; auto|congruence].
    + rewrite answer_spec in H by done. by injection H as <- <-.
    + by injection H as <- <-.
Qed.

Lemma fixed_fields e s s' :
  serve e s = Some s' ->
  s_token s' = s_token s /\ s_deadline s' = s_deadline s /\ (s_state s' <> closed -> s_binding s' = s_binding s).
Proof.
  assert (X : forall now, s_token (fst (expire now s)) = s_token s /\ s_deadline (fst (expire now s)) = s_deadline s /\
    s_binding (fst (expire now s)) = s_binding s) by (intros now; unfold expire; by destruct (_ && _)).
  assert (A : forall ok t, s_token (fst (answer ok t)) = s_token t /\ s_deadline (fst (answer ok t)) = s_deadline t /\
    (s_state (fst (answer ok t)) <> closed -> s_binding (fst (answer ok t)) = s_binding t))
    by (intros ok t; unfold answer; by destruct (encode_auth_result _)).
  destruct e as [f now random|f now draws|now|]; cbn -[answer].
  - unfold handle_hello, require_active. intros [= <-]. destruct (X now) as (<- & <- & <-). destruct (expire now s) as [t b]. cbn.
    destruct b; [done|]. destruct (bool_decide _); [done|]. destruct (check_hello f t) as [[]|]; [|done]. by destruct random.
  - unfold handle_proof, require_active. destruct (X now) as (<- & <- & <-). destruct (expire now s) as [t b]. cbn -[answer].
    destruct b; [by intros [= <-]|]. destruct (bool_decide _); [by intros [= <-]|].
    destruct (negb _); [by intros [= <-]|].
    destruct (let* _ := require_frame f client_auth (s_request_id t) in decode_client_proof (payload f)) as [p|]; [|by intros [= <-]].
    destruct (check_proof t p) as [[]|]; [|by intros [= <-]|by intros [= <-]].
    destruct (make_device_id _); [|by intros [= <-]].
    destruct (make_nonzero_session_id draws) as [[]|]; intros [= <-]; [apply (A true (accept p _ _ t))|done].
  - intros [= <-]. destruct (X now) as (? & ? & ?). done.
  - by intros [= <-].
Qed.

Lemma serve_history es e s s' : history es s -> serve e s = Some s' -> history (es ++ [e]) s'.
Proof.
  intros H. destruct e as [f now random|f now draws|now|]; cbn.
  - destruct (handle_hello f now random s) eqn:E. intros [= <-]. by eapply handle_hello_history.
  - destruct (handle_proof f now draws s) as [[t r]|] eqn:E; [|done]. intros [= <-]. by eapply handle_proof_history.
  - intros [= <-]. destruct (expire_cases now s) as [(_ & _ & _ & X & Y & _)|(-> & _)]; [|by apply history_weaken].
    unfold history. by rewrite X.
  - by intros [= <-].
Qed.

Lemma run_history token binding deadline s0 es s :
  new_server token binding deadline = Ok s0 -> run es s0 = Some s ->
  history es s /\ s_token s = token /\ s_deadline s = deadline /\ (s_state s <> closed -> s_binding s = binding).
Proof.
  intros N. revert s. induction es as [|e es IH] using rev_ind; intros s R.
  - injection R as <-. unfold new_server in N. ok_inv N. by subst s0.
  - rewrite run_snoc in R. destruct (run es s0) as [t|]; [|done]. cbn in R.
    destruct (IH _ eq_refl) as (H & T & D & B). destruct (fixed_fields _ _ _ R) as (T' & D' & B').
    split_and!; [by eapply serve_history|congruence..|]. intros K. rewrite B' by done. apply B.
    intros Ct. destruct K. clear - R Ct. destruct e as [f now random|f now draws|now|]; cbn in R.
    + unfold handle_hello in R. destruct (require_active_cases now t) as [(W & _)|[(? & _)|[(_ & E)|(_ & ? & _)]]]; try congruence.
      * unfold waiting in W. by rewrite Ct in W.
      * rewrite E in R. by injection R as <-.
    + unfold handle_proof in R. destruct (require_active_cases now t) as [(W & _)|[(? & _)|[(_ & E)|(_ & ? & _)]]]; try congruence.
      * unfold waiting in W. by rewrite Ct in W.
      * rewrite E in R. by injection R as <-.
    + unfold expire in R. rewrite Ct in R. by injection R as <-.
    + by injection R as <-.
Qed.

Lemma verified_key h nonce p device :
  make_device_id (hello_public_key h) = Ok device -> is_zero (hello_encryption_public_key h) = false ->
  verify_signature (hello_public_key h) (make_auth_transcript (hello_public_key h) (hello_encryption_public_key h)
    (hello_client_nonce h) nonce) (proof_signature p) = Ok true ->
  verify_signed_device_key (key_of h nonce p) device = Ok (negb (is_zero device)).
Proof.
  intros D Z V. unfold verify_signed_device_key, key_of. cbn -[is_zero]. rewrite Z. destruct (is_zero device); [done|]. cbn -[is_zero].
  rewrite D, bool_decide_eq_true_2 by done. exact V.
Qed.

(** C4: a server is authenticated only by a proof.  Whatever calls were made in whatever order
    on a new server, if it is authenticated then before the deadline it answered a hello with
    a nonce it drew itself, and later, still before the deadline, received a proof for that request
    whose signature verifies under the announced key over exactly the keys and nonces of the
    exchange and whose token proof is the MAC of the same bytes under the server's token; the
    device id, signed key and session it reports are those of that exchange, the signed key is one
    [verify_signed_device_key] accepts, and it is bound to that connection only. *)
Theorem handshake_authentic (token : bytes) (binding deadline : Z) (s0 s : ServerHandshake) (es : list event) :
  new_server token binding deadline = Ok s0 -> run es s0 = Some s -> server_authenticated s = true ->
  exists before between after hello t nonce h proof t' draws p device session,
    es = before ++ ev_hello hello t (Some nonce) :: between ++ ev_proof proof t' draws :: after /\
    hello_accepted deadline hello t h /\ proof_accepted token deadline proof t' nonce h p /\
    request_id proof = request_id hello /\
    server_device_id s = Ok device /\ make_device_id (hello_public_key h) = Ok device /\
    server_session_id s = Ok session /\ is_zero session = false /\
    server_signed_device_key s = Ok (key_of h nonce p) /\
    verify_signed_device_key (key_of h nonce p) device = Ok (negb (is_zero device)) /\
    (forall b d x, bound_to b d x s = true <-> b = binding /\ d = device /\ x = session).
Proof.
  intros N R A. destruct (run_history _ _ _ _ _ _ N R) as (H & <- & <- & B).
  pose proof A as A'. unfold server_authenticated in A'. bool_prop. unfold history in H. rewrite A' in H, B.
  destruct H as (Fg & Z0 & before & between & after & f & now & nonce & h & f' & now' & draws & p & Es & Ha & Pa & Id & Sk & Dv).
  exists before, between, after, f, now, nonce, h, f', now', draws, p, (s_device_id s), (s_session_id s).
  unfold server_device_id, server_session_id, server_signed_device_key, bound_to. rewrite A, Sk, B by done. cbn -[is_zero].
  split_and!; try done.
  - apply verified_key; [done|apply Ha|apply Pa].
  - intros b d x. rewrite !andb_true_iff, !bool_decide_eq_true, Z.eqb_eq. naive_solver.
Qed.

(** ** Calls that fail *)

Lemma active_before_deadline now s :
  waiting s = true -> now < s_deadline s -> require_active now s = (s, Ok tt).
Proof.
  intros W D. destruct (require_active_cases now s) as [(_ & X & _)|[(X & _)|[(X & _)|(_ & _ & _ & ->)]]]; [lia|..|done];
    unfold waiting in W; by rewrite X in W.
Qed.

(** The error of a call on a server whose outcome is known. *)
Definition settled_error (s : ServerHandshake) : exn := if bool_decide (s_state s = closed) then logic_error else runtime_error.

Lemma settled_calls_throw f now random draws s :
  waiting s = false ->
  handle_hello f now random s = (s, Throw (settled_error s)) /\
  handle_proof f now draws s = Some (s, Throw (settled_error s)) /\ fst (expire now s) = s.
Proof.
  intros W. unfold handle_hello, handle_proof, require_active, settled_error, check_hello.
  assert (E : expire now s = (s, bool_decide (s_state s = timed_out))).
  { unfold expire. unfold waiting in W. by rewrite W. }
  rewrite E. unfold waiting in W. bool_prop. destruct (s_state s); done.
Qed.

Lemma late_calls_throw f now random draws s :
  waiting s = true -> s_deadline s <= now ->
  expire now s = (fst (expire now s), true) /\
  handle_hello f now random s = (fst (expire now s), Throw runtime_error) /\
  handle_proof f now draws s = Some (fst (expire now s), Throw runtime_error) /\
  s_state (fst (expire now s)) = timed_out /\ forgotten (fst (expire now s)) /\ s_request_id (fst (expire now s)) = 0.
Proof.
  intros W D. destruct (expire_cases now s) as [(_ & _ & X & Y & Z & R)|(_ & X)]; [|specialize (X W); lia].
  unfold handle_hello, handle_proof, require_active.
  destruct (expire now s) as [t b]. cbn in X, Y, Z, R |- *. subst b. done.
Qed.

Lemma failed_proof_rejects f now draws s s' e :
  handle_proof f now draws s = Some (s', Throw e) -> waiting s = true -> now < s_deadline s ->
  s' = s \/ (s_state s = waiting_proof /\ s' = abandon s).
Proof.
  intros H W D. unfold handle_proof in H. rewrite active_before_deadline in H by done.
  destruct (negb (bool_decide (s_state s = waiting_proof))) eqn:St; [injection H as <- <-; by left|]. bool_prop.
  destruct (let* _ := require_frame f client_auth (s_request_id s) in decode_client_proof (payload f)) as [p|];
    [|injection H as <- <-; by left].
  right. split; [done|]. destruct (check_proof s p) as [[]|]; [|by rewrite answer_spec in H by done|congruence].
  destruct (make_device_id _); [|congruence].
  destruct (make_nonzero_session_id draws) as [[d|]|] eqn:Z; [|congruence..].
  apply make_nonzero_session_id_ok in Z. by rewrite answer_spec in H by done.
Qed.

(** How the server fails.  Once its outcome is known every further frame throws and changes
    nothing.  From the deadline on a waiting server answers no frame: the call throws, the keys and
    nonces of the exchange are zeroed and the state is timed out.  Before the deadline a frame out
    of order throws and changes nothing; a proof that cannot be read changes nothing either,
    and one whose checks throw ends in rejection with everything zeroed.  A proof that
    fails a check is answered by a refusal without a session. *)
Lemma handshake_errors (f : Frame) (now : Z) (random : option bytes) (draws : list (option bytes)) (s : ServerHandshake) :
  (waiting s = false ->
     handle_hello f now random s = (s, Throw (settled_error s)) /\
     handle_proof f now draws s = Some (s, Throw (settled_error s)) /\ fst (expire now s) = s) /\
  (waiting s = true -> s_deadline s <= now -> exists s',
     expire now s = (s', true) /\ handle_hello f now random s = (s', Throw runtime_error) /\
     handle_proof f now draws s = Some (s', Throw runtime_error) /\
     s_state s' = timed_out /\ forgotten s' /\ s_request_id s' = 0) /\
  (waiting s = true -> now < s_deadline s ->
     (s_state s = waiting_hello -> handle_proof f now draws s = Some (s, Throw runtime_error)) /\
     (s_state s = waiting_proof -> handle_hello f now random s = (s, Throw runtime_error)) /\
     (forall s' e, handle_proof f now draws s = Some (s', Throw e) ->
        s' = s \/ (s_state s' = rejected /\ forgotten s' /\ is_zero (s_session_id s') = true /\ is_zero (s_device_id s') = true)) /\
     (forall p, s_state s = waiting_proof -> type_ f = client_auth -> request_id f = s_request_id s ->
        decode_client_proof (payload f) = Ok p -> check_proof s p = Ok false -> exists s' answer,
        handle_proof f now draws s = Some (s', Ok answer) /\ s_state s' = rejected /\ forgotten s' /\
        s_signed_device_key s' = None /\
        decode_auth_result (payload answer) = Ok (mk_auth_result false (zeros session_id_size)))).
Proof.
  split; [|split].
  - apply settled_calls_throw.
  - intros W D. eexists. by apply late_calls_throw.
  - intros W D. pose proof (active_before_deadline now s W D) as A.
    unfold handle_hello at 1. split_and!.
    + intros St. unfold handle_proof. rewrite A, St. done.
    + intros St. rewrite A. unfold check_hello. by rewrite St.
    + intros s' e H. destruct (failed_proof_rejects _ _ _ _ _ _ H W D) as [->|[_ ->]]; [by left|by right].
    + intros p St Ty Id De Cp. unfold handle_proof. rewrite A, St. unfold require_frame. rewrite Ty, Id, Z.eqb_refl.
      rewrite !bool_decide_eq_true_2 by done. cbn [negb orb]. rewrite De, Cp, answer_spec by done. eexists _, _. split_and!; done.
Qed.

(** ** Drawing the session id *)

Lemma make_nonzero_session_id_ends draws :
  is_Some (make_nonzero_session_id draws) <-> Exists (fun d => match d with Some x => is_zero x = false | None => True end) draws.
Proof.
  induction draws as [|[d|] draws IH]; cbn.
  - split; [by intros [? [=]]|]. intros H. inversion H.
  - rewrite Exists_cons. destruct (is_zero d) eqn:Z; [rewrite IH|]; naive_solver.
  - rewrite Exists_cons. split; [by left|]. intros _. by eexists.
Qed.

Lemma make_nonzero_session_id_more draws more r :
  make_nonzero_session_id draws = Some r -> make_nonzero_session_id (draws ++ more) = Some r.
Proof. induction draws as [|[d|] draws IH]; cbn; try done. destruct (is_zero d); [apply IH|done]. Qed.

(** [handle_proof] returns.  It returns as soon as the random source delivers a session id
    that is not all zero or fails, whatever the frame and the server; the outcome then does
    not depend on later draws; and without any such draw it still returns unless the proof is accepted. *)
Lemma handle_proof_returns (f : Frame) (now : Z) (draws more : list (option bytes)) (s : ServerHandshake) :
  (Exists (fun d => match d with Some x => is_zero x = false | None => True end) draws -> is_Some (handle_proof f now draws s)) /\
  (forall r, handle_proof f now draws s = Some r -> handle_proof f now (draws ++ more) s = Some r) /\
  (handle_proof f now draws s = None ->
     Forall (fun d => exists x, d = Some x /\ is_zero x = true) draws /\
     exists p, decode_client_proof (payload f) = Ok p /\ check_proof s p = Ok true).
Proof.
  unfold handle_proof. destruct (require_active_cases now s) as [(_ & _ & E)|[(_ & E)|[(_ & E)|(_ & _ & _ & E)]]];
    rewrite E; try (split_and!; [by eexists|done|done]). clear E.
  destruct (negb _); [split_and!; [by eexists|done|done]|].
  destruct (let* _ := require_frame f client_auth (s_request_id s) in decode_client_proof (payload f)) as [p|] eqn:Q;
    [|split_and!; [by eexists|done|done]].
  destruct (check_proof s p) as [[]|] eqn:Cp; [|split_and!; [by eexists|done|done]..].
  destruct (make_device_id _); [|split_and!; [by eexists|done|done]].
  split_and!.
  - intros X. apply make_nonzero_session_id_ends in X as [r ->]. destruct r; by eexists.
  - intros r. destruct (make_nonzero_session_id draws) as [d|] eqn:Z; [|done].
    by rewrite (make_nonzero_session_id_more _ _ _ Z).
  - destruct (make_nonzero_session_id draws) as [[d|]|] eqn:Z; [done..|]. intros _. split.
    + clear -Z. induction draws as [|[d|] draws IH]; cbn in Z; [constructor| |done].
      destruct (is_zero d) eqn:Zd; [|done]. constructor; eauto.
    + exists p. destruct (require_frame _ _ _); [|done]. done.
Qed.

(** ** A complete exchange *)

Section Exchange.
Context {L : CryptoLaws C} {LM : TokenMacLaws M}.
Variables (identity encryption token token' : bytes) (id : Z) (cn sn : bytes).
Hypothesis (Id : id <> 0) (Lc : length cn = nonce_size) (Ls : length sn = nonce_size).
Hypothesis (Lp : length (ed25519_public identity) = public_key_size) (Ze : is_zero (x25519_public encryption) = false).

Let hello := mk_client_hello (ed25519_public identity) (x25519_public encryption) cn.
Let transcript := make_auth_transcript (ed25519_public identity) (x25519_public encryption) cn sn.

Definition client_after (sent : option SignedDeviceKey) (state : ClientState) : ClientHandshake :=
  mk_client identity token encryption sent cn (zeros session_id_size) id state.

Lemma begin_step :
  begin_handshake id (Some cn) (new_client identity token encryption) =
  (client_after None cs_waiting_challenge, Ok (mk_frame client_hello id (encode_client_hello hello))).
Proof. unfold begin_handshake, new_client. by rewrite (proj2 (Z.eqb_neq id 0)). Qed.

Lemma hello_step binding deadline s0 now :
  new_server token' binding deadline = Ok s0 -> now < deadline ->
  exists s1, handle_hello (mk_frame client_hello id (encode_client_hello hello)) now (Some sn) s0 =
      (s1, Ok (mk_frame server_hello id sn)) /\
    s_state s1 = waiting_proof /\ s_deadline s1 = deadline /\ s_token s1 = token' /\ s_request_id s1 = id /\
    s_public_key s1 = ed25519_public identity /\ s_encryption_key s1 = x25519_public encryption /\
    s_client_nonce s1 = cn /\ s_server_nonce s1 = sn.
Proof.
  intros N D. unfold new_server in N. ok_inv N. subst s0. unfold handle_hello.
  rewrite active_before_deadline by done. unfold check_hello. cbn [s_state type_ request_id payload].
  rewrite !bool_decide_eq_true_2, (proj2 (Z.eqb_neq id 0)) by done. cbn [negb orb].
  rewrite (proj2 (client_hello_decoded hello _)) by (split_and!; [done..|apply x25519_public_length|done]).
  unfold hello at 1. cbn [hello_encryption_public_key]. rewrite Ze. cbn [negb].
  eexists. split; [reflexivity|]. done.
Qed.

Variables (signature mac : bytes).
Hypothesis (Sg : ed25519_sign identity transcript = Some signature) (Mc : hmac_sha256 token transcript = Some mac).

Let proof := mk_client_proof signature mac.

Lemma challenge_step :
  handle_challenge (mk_frame server_hello id sn) (client_after None cs_waiting_challenge) =
  (client_after (Some (key_of hello sn proof)) cs_waiting_result, Ok (mk_frame client_auth id (encode_client_proof proof))).
Proof.
  unfold handle_challenge, client_after, require_frame. cbn [type_ request_id payload].
  rewrite !bool_decide_eq_true_2, Z.eqb_refl by done. cbn [negb orb].
  rewrite (proj2 (server_challenge_decoded (mk_server_challenge sn) sn)) by done.
  unfold make_proof, identity_sign, token_proof.
  cbn [c_identity c_token c_encryption_key c_client_nonce challenge_server_nonce].
  fold transcript. rewrite Sg, Mc. unfold len. by rewrite (sign_length _ _ _ Sg), (hmac_length _ _ _ Mc).
Qed.

Lemma check_step s1 mac' :
  hmac_sha256 token' transcript = Some mac' -> s_token s1 = token' ->
  s_public_key s1 = ed25519_public identity -> s_encryption_key s1 = x25519_public encryption ->
  s_client_nonce s1 = cn -> s_server_nonce s1 = sn -> check_proof s1 proof = Ok (bool_decide (mac' = mac)).
Proof.
  intros M' T Pk Ek Cn Sn. unfold check_proof, verify_signature, token_verify, token_proof.
  rewrite T, Pk, Ek, Cn, Sn. fold transcript. cbn [proof_signature proof_token_proof proof].
  rewrite (sign_verifies _ _ _ Sg), M'. unfold len. by rewrite (hmac_length _ _ _ M').
Qed.

Lemma proof_step s1 now mac' draws session device :
  s_state s1 = waiting_proof -> now < s_deadline s1 -> s_request_id s1 = id -> s_token s1 = token' ->
  s_public_key s1 = ed25519_public identity -> s_encryption_key s1 = x25519_public encryption ->
  s_client_nonce s1 = cn -> s_server_nonce s1 = sn ->
  hmac_sha256 token' transcript = Some mac' -> sha256 (ed25519_public identity) = Some device ->
  make_nonzero_session_id draws = Some (Ok session) ->
  handle_proof (mk_frame client_auth id (encode_client_proof proof)) now draws s1 =
  Some (if bool_decide (mac' = mac)
        then (cleanse_exchange (accept proof device session s1), Ok (mk_frame auth_result id (x01 :: session)))
        else (cleanse_exchange (reject s1), Ok (mk_frame auth_result id (x00 :: zeros session_id_size)))).
Proof.
  intros St D Ri T Pk Ek Cn Sn M' Sh Dr. unfold handle_proof.
  rewrite active_before_deadline by (unfold waiting; rewrite ?St; done). rewrite St. unfold require_frame.
  cbn [type_ request_id payload]. rewrite Ri, !bool_decide_eq_true_2, Z.eqb_refl by done. cbn [negb orb].
  rewrite (proj2 (client_proof_decoded proof _)) by (split_and!; [done|by eapply sign_length|by eapply hmac_length]).
  rewrite (check_step _ _ M' T Pk Ek Cn Sn). destruct (bool_decide (mac' = mac)).
  - unfold make_device_id. rewrite Pk, Sh, Dr. apply make_nonzero_session_id_ok in Dr.
    rewrite answer_spec by done. cbn [accept s_request_id s_session_id]. by rewrite Ri.
  - rewrite answer_spec by done. cbn [reject s_request_id s_session_id]. by rewrite Ri.
Qed.

Lemma result_step ok session :
  length session = session_id_size -> is_zero session = negb ok ->
  handle_result (mk_frame auth_result id ((if ok then x01 else x00) :: session))
    (client_after (Some (key_of hello sn proof)) cs_waiting_result) =
  (if ok then mk_client identity token encryption (Some (key_of hello sn proof)) (zeros nonce_size) session id cs_authenticated
   else mk_client identity token encryption None (zeros nonce_size) (zeros session_id_size) id cs_rejected, Ok ok).
Proof.
  intros Le Z. unfold handle_result, client_after, require_frame. cbn [type_ request_id payload].
  rewrite !bool_decide_eq_true_2, Z.eqb_refl by done. cbn [negb orb].
  rewrite (proj2 (auth_result_decoded (mk_auth_result ok session) _)); [by destruct ok|]. split; [|done].
  unfold encode_auth_result. cbn [accepted result_session_id]. rewrite Z. by destruct ok.
Qed.
End Exchange.

(** C12: how a handshake ends.  A client and a server that exchange their four frames before the deadline agree on the
    outcome: if their tokens give the same MAC both end authenticated, with the same session id and the same signed
    device key, the server knowing the device by the digest of its key; otherwise both end rejected, with neither.
    Once the server's outcome is known every further frame throws and changes nothing.  From the deadline on a waiting
    server answers no frame: the call throws, the keys and nonces of the exchange are zeroed and the state is timed out.
    Before the deadline a frame out of order throws and changes nothing; a proof that cannot be read changes nothing
    either, and one whose checks throw ends in rejection with everything zeroed.  A proof that fails a check is answered
    by a refusal without a session.  [handle_proof] returns as soon as the random source delivers a session id that is
    not all zero or fails; the outcome then does not depend on later draws. *)
Theorem handshake_outcomes {L : CryptoLaws C} {LM : TokenMacLaws M} :
  (forall (identity encryption token token' cn sn device session signature mac mac' : bytes) (id binding deadline t t' : Z)
    (draws : list (option bytes)) (s0 : ServerHandshake),
  let transcript := make_auth_transcript (ed25519_public identity) (x25519_public encryption) cn sn in
  let key := mk_signed_key (ed25519_public identity) (x25519_public encryption) cn sn signature in
  let same := bool_decide (mac' = mac) in
  id <> 0 -> length cn = nonce_size -> length sn = nonce_size ->
  length (ed25519_public identity) = public_key_size -> is_zero (x25519_public encryption) = false ->
  ed25519_sign identity transcript = Some signature ->
  hmac_sha256 token transcript = Some mac -> hmac_sha256 token' transcript = Some mac' ->
  sha256 (ed25519_public identity) = Some device ->
  make_nonzero_session_id draws = Some (Ok session) -> length session = session_id_size ->
  new_server token' binding deadline = Ok s0 -> t < deadline -> t' < deadline ->
  exists f1 f2 f3 f4 c1 c2 c3 s1 s2,
    begin_handshake id (Some cn) (new_client identity token encryption) = (c1, Ok f1) /\
    handle_hello f1 t (Some sn) s0 = (s1, Ok f2) /\
    handle_challenge f2 c1 = (c2, Ok f3) /\
    handle_proof f3 t' draws s1 = Some (s2, Ok f4) /\
    handle_result f4 c2 = (c3, Ok same) /\
    client_session_id c3 = (if same then Some session else None) /\
    client_signed_device_key c3 = (if same then Some key else None) /\
    server_session_id s2 = (if same then Ok session else Throw logic_error) /\
    server_signed_device_key s2 = (if same then Ok key else Throw logic_error) /\
    server_device_id s2 = (if same then Ok device else Throw logic_error) /\
    server_rejected s2 = negb same) /\
  (forall (f : Frame) (now : Z) (random : option bytes) (draws : list (option bytes)) (s : ServerHandshake),
  (waiting s = false ->
     handle_hello f now random s = (s, Throw (settled_error s)) /\
     handle_proof f now draws s = Some (s, Throw (settled_error s)) /\ fst (expire now s) = s) /\
  (waiting s = true -> s_deadline s <= now -> exists s',
     expire now s = (s', true) /\ handle_hello f now random s = (s', Throw runtime_error) /\
     handle_proof f now draws s = Some (s', Throw runtime_error) /\
     s_state s' = timed_out /\ forgotten s' /\ s_request_id s' = 0) /\
  (waiting s = true -> now < s_deadline s ->
     (s_state s = waiting_hello -> handle_proof f now draws s = Some (s, Throw runtime_error)) /\
     (s_state s = waiting_proof -> handle_hello f now random s = (s, Throw runtime_error)) /\
     (forall s' e, handle_proof f now draws s = Some (s', Throw e) ->
        s' = s \/ (s_state s' = rejected /\ forgotten s' /\ is_zero (s_session_id s') = true /\ is_zero (s_device_id s') = true)) /\
     (forall p, s_state s = waiting_proof -> type_ f = client_auth -> request_id f = s_request_id s ->
        decode_client_proof (payload f) = Ok p -> check_proof s p = Ok false -> exists s' answer,
        handle_proof f now draws s = Some (s', Ok answer) /\ s_state s' = rejected /\ forgotten s' /\
        s_signed_device_key s' = None /\
        decode_auth_result (payload answer) = Ok (mk_auth_result false (zeros session_id_size))))) /\
  (forall (f : Frame) (now : Z) (draws more : list (option bytes)) (s : ServerHandshake),
  (Exists (fun d => match d with Some x => is_zero x = false | None => True end) draws -> is_Some (handle_proof f now draws s)) /\
  (forall r, handle_proof f now draws s = Some r -> handle_proof f now (draws ++ more) s = Some r) /\
  (handle_proof f now draws s = None ->
     Forall (fun d => exists x, d = Some x /\ is_zero x = true) draws /\
     exists p, decode_client_proof (payload f) = Ok p /\ check_proof s p = Ok true)).
Proof.
  split; [|split; [exact handshake_errors|exact handle_proof_returns]].
  intros identity encryption token token' cn sn device session signature mac mac' id binding deadline t t' draws s0.
  intros transcript key same Id Lc Ls Lp Ze Sg Mc Mc' Sh Dr Le N D D'.
  destruct (hello_step identity encryption token' id cn sn Id Lc Lp Ze binding deadline s0 t N D)
    as (s1 & H2 & St & Dl & T & Ri & Pk & Ek & Cn & Sn).
  rewrite <- Dl in D'.
  pose proof (proof_step identity encryption token token' id cn sn signature mac Sg Mc s1 t' mac' draws session device
    St D' Ri T Pk Ek Cn Sn Mc' Sh Dr) as H4.
  pose proof (make_nonzero_session_id_ok _ _ Dr) as Zs. fold same in H4.
  pose proof (result_step identity encryption token id cn sn signature mac same
    (if same then session else zeros session_id_size)) as H5.
  eexists _, _, _, (mk_frame auth_result id ((if same then x01 else x00) :: if same then session else zeros session_id_size)), _, _, _, s1,
    (if same then cleanse_exchange (accept (mk_client_proof signature mac) device session s1) else cleanse_exchange (reject s1)).
  split; [by apply begin_step|]. split; [exact H2|]. split; [by eapply challenge_step|].
  split; [rewrite H4; destruct same; reflexivity|].
  split; [apply H5; destruct same; [done|apply length_replicate|done..]|].
  destruct same; split_and!; try done.
  unfold server_signed_device_key. cbn -[zeros]. by rewrite Pk, Ek, Cn, Sn.
Qed.
End Handshake.

(** ** A concrete exchange *)

Definition toy_mac : TokenMac := {| hmac_sha256 key m := Some (resize 32 (key ++ m)) |}.
#[global] Instance toy_mac_laws : TokenMacLaws toy_mac.
Proof. constructor. cbn. intros k m t [= <-]. apply length_resize. Qed.

Section Concrete.
#[local] Existing Instance toy_crypto.
#[local] Existing Instance toy_mac.

Definition hs_device : bytes := replicate 32 x05.
Definition hs_key : bytes := replicate 32 x06.
Definition hs_token : bytes := replicate 32 x07.
Definition hs_cn : bytes := replicate 32 x08.
Definition hs_sn : bytes := replicate 32 x09.
Definition hs_session : bytes := replicate 32 x0a.
Definition hs_transcript : bytes := make_auth_transcript hs_device hs_key hs_cn hs_sn.
Definition hs_signature : bytes := resize 64 (hs_device ++ hs_transcript).
Definition hs_mac : bytes := resize 32 (hs_token ++ hs_transcript).
Definition hs_draws : list (option bytes) := [Some (zeros 32); Some hs_session; None].
Definition hs_hello : Frame := mk_frame client_hello 7 (hs_device ++ hs_key ++ hs_cn).
Definition hs_proof : Frame := mk_frame client_auth 7 (hs_signature ++ hs_mac).
Definition hs_server : ServerHandshake :=
  mk_server hs_token 3 100 (zeros 32) (zeros 32) None (zeros 32) (zeros 32) (zeros 32) (zeros 32) 0 waiting_hello.
(** A hello without randomness, an early proof, then the exchange, then a stray hello. *)
Definition hs_events : list event :=
  [ev_hello hs_hello 1 None; ev_proof hs_proof 2 []; ev_hello hs_hello 3 (Some hs_sn);
   ev_expire 4; ev_proof hs_proof 5 hs_draws; ev_hello hs_hello 200 (Some hs_cn)].
Definition hs_final : ServerHandshake :=
  mk_server hs_token 3 100 (zeros 32) (zeros 32) (Some (mk_signed_key hs_device hs_key hs_cn hs_sn hs_signature))
    (zeros 32) (zeros 32) hs_device hs_session 7 authenticated.

Lemma handshake_authentic_witness :
  run hs_events hs_server = Some hs_final /\ exists session, server_session_id hs_final = Ok session /\ is_zero session = false.
Proof.
  split; [vm_compute; reflexivity|].
  destruct (handshake_authentic hs_token 3 100 hs_server hs_final hs_events) as
    (? & ? & ? & ? & ? & ? & ? & ? & ? & ? & ? & ? & session & _ & _ & _ & _ & _ & _ & S & Z & _);
    [reflexivity|vm_compute; reflexivity|reflexivity|]. exact (ex_intro _ session (conj S Z)).
Defined.

Lemma handshake_outcomes_witness :
  (exists f1 f2 f3 f4 c1 c2 c3 s1 s2,
    begin_handshake 7 (Some hs_cn) (new_client hs_device hs_token hs_key) = (c1, Ok f1) /\
    handle_hello f1 3 (Some hs_sn) hs_server = (s1, Ok f2) /\
    handle_challenge f2 c1 = (c2, Ok f3) /\ handle_proof f3 5 hs_draws s1 = Some (s2, Ok f4) /\
    handle_result f4 c2 = (c3, Ok true)) /\
  (exists s', handle_hello hs_hello 100 (Some hs_sn) hs_server = (s', Throw runtime_error)) /\
  is_Some (handle_proof hs_proof 5 hs_draws hs_server).
Proof.
  destruct (handshake_outcomes (C := toy_crypto) (M := toy_mac)) as (Ho & Er & Re). split_and!.
  - destruct (Ho hs_device hs_key hs_token hs_token hs_cn hs_sn hs_device
      hs_session hs_signature hs_mac hs_mac 7 3 100 3 5 hs_draws hs_server)
      as (f1 & f2 & f3 & f4 & c1 & c2 & c3 & s1 & s2 & H1 & H2 & H3 & H4 & H5 & _); try reflexivity; try lia.
    exists f1, f2, f3, f4, c1, c2, c3, s1, s2. auto.
  - destruct (Er hs_hello 100 (Some hs_sn) [] hs_server) as (_ & Late & _).
    destruct Late as (s' & _ & H & _); [reflexivity|cbn; lia|]. exact (ex_intro _ s' H).
  - apply (Re hs_proof 5 hs_draws [] hs_server). apply Exists_cons_tl, Exists_cons_hd. reflexivity.
Defined.
End Concrete.
