(* ===== verification/ControlChannel.v ===== *)
(** * The relay's control channel

    relay/network_control_channel.hpp and .cpp: the frames of an authenticated connection are
    decoded, passed to the network service in the name of the device that authenticated, and
    its outcome is encoded again: a response for the requester and frames for other devices.
    The channel's own state is what each connected device negotiated.  The wall clock, the
    steady clock and random draws of a request are the record [Ambient]. *)
From S2P Require Import Prelude Wire Codec Capabilities NetworkPolicy NetworkMessages PacketMessages Crypto.
From S2P Require Import RelayStore Candidates NetworkService UserAccess NetworkManagement JoinTarget ServiceAccess ServiceSafety.

Record CapabilitySession := mk_capability_session {
  cap_session : bytes; negotiated : NegotiatedCapabilities; generations : gmap (bytes * bytes) Z }.

Record NetworkControlChannel := mk_channel { service_ : Service; capabilities_ : gmap bytes CapabilitySession }.

Record RoutedControlFrame := mk_routed_frame { recipient_device_id : bytes; frame : Frame }.
Record ControlDispatch := mk_dispatch { response : Frame; dispatch_events : list RoutedControlFrame }.

(** What one request reads from outside: the steady clock (for the admission, in the handler and
    at its end), the time source, the network id generator and the secret it may draw. *)
Record Ambient := mk_ambient {
  admission_clock : Z; clock : Z; later_clock : Z; time_source : Z;
  new_ids : nat -> result bytes; secret_draw : result bytes }.

(** ** Operations on the channel *)

Definition CM (A : Type) : Type := NetworkControlChannel -> result A * NetworkControlChannel.
Definition creturn {A} (a : A) : CM A := fun c => (Ok a, c).
Definition cbind {A B} (m : CM A) (k : A -> CM B) : CM B := fun c =>
  match m c with (Ok a, c) => k a c | (Throw e, c) => (Throw e, c) end.
Notation "'let$' x := m 'in' k" := (cbind m (fun x => k))
  (at level 10, x name, m at level 100, k at level 200, format "'[v' 'let$'  x  :=  m  'in' '/' k ']'").
Definition cpure {A} (r : result A) : CM A := fun c => (r, c).
(** A call of the service. *)
Definition call {A} (m : M A) : CM A := fun c =>
  let (r, s) := m (service_ c) in (r, mk_channel s (capabilities_ c)).
(** A look at the channel, and a change of its own map. *)
Definition look {A} (f : NetworkControlChannel -> result A) : CM A := fun c => (f c, c).
Definition update (f : gmap bytes CapabilitySession -> gmap bytes CapabilitySession) : CM unit := fun c =>
  (Ok tt, mk_channel (service_ c) (f (capabilities_ c))).

(** ** Encoding what the service answers *)

Definition error_response (id : Z) : Frame := mk_frame error id [].

Definition is_network_request (t : MessageType) : bool :=
  match t with
  | network_management_request | user_access_request | peer_candidates_send | network_create_request
  | network_list_request | network_join_request | network_leave_request | network_invite_request
  | network_approve_request | network_kick_request | network_peer_state_request | network_key_publish_request => true
  | _ => false
  end.

Definition capabilities (caps : gmap bytes CapabilitySession) (actor : bytes) : NegotiatedCapabilities :=
  match caps !! actor with None => default_selection | Some x => negotiated x end.

Definition encode_event (routed : RoutedNetworkEvent) : result RoutedControlFrame :=
  let* bs := encode_network_event (routed_event_ routed) in
  Ok (mk_routed_frame (event_recipient routed) (mk_frame network_event 0 bs)).
Definition encode_events (l : list RoutedNetworkEvent) : result (list RoutedControlFrame) := map_result encode_event l.

Definition encode_peer_change (caps : gmap bytes CapabilitySession) (change : RoutedPeerStateChange) : result RoutedControlFrame :=
  let revoke r :=
    let* bs := encode_network_peer_revocation r in
    Ok (mk_routed_frame (change_recipient change) (mk_frame network_peer_state_revoked 0 bs)) in
  match change_state change with
  | Some st =>
      if (match policy st with None => true | Some _ => false end) ||
         supports (capabilities caps (change_recipient change)) managed_networks
      then
        let* bs := encode_network_peer_state st in
        Ok (mk_routed_frame (change_recipient change) (mk_frame network_peer_state_update 0 bs))
      else revoke (mk_revocation (state_network_id st) (state_revision st))
  | None => revoke (change_revocation change)
  end.
Definition encode_peer_changes (caps : gmap bytes CapabilitySession) (l : list RoutedPeerStateChange)
    : result (list RoutedControlFrame) := map_result (encode_peer_change caps) l.

Definition operation_response (id : Z) (outcome : NetworkOperationOutcome) (caps : gmap bytes CapabilitySession)
    : result ControlDispatch :=
  let* bs := encode_network_operation_result (outcome_result outcome) in
  let* evs := encode_events (events outcome) in
  let* changes := encode_peer_changes caps (peer_changes outcome) in
  Ok (mk_dispatch (mk_frame network_operation_result id bs) (evs ++ changes)).

Definition peer_state_response (id : Z) (n : bytes) (outcome : NetworkPeerStateOutcome) (managed_capable : bool)
    : result ControlDispatch :=
  let outcome :=
    match state_ outcome with
    | Some st => if (match policy st with Some _ => true | None => false end) && negb managed_capable
                 then mk_state_outcome permission_denied None else outcome
    | None => outcome
    end in
  match bool_decide (state_code outcome = success), state_ outcome with
  | true, Some st =>
      let* bs := encode_network_peer_state st in Ok (mk_dispatch (mk_frame network_peer_state_result id bs) [])
  | _, _ =>
      let* bs := encode_network_operation_result (mk_operation_result op_peer_state (state_code outcome) n) in
      Ok (mk_dispatch (mk_frame network_operation_result id bs) [])
  end.

Definition list_response (id : Z) (outcome : NetworkListOutcome) : result ControlDispatch :=
  if bool_decide (list_code outcome = success)
  then let* bs := encode_network_list_result (list_result outcome) in Ok (mk_dispatch (mk_frame network_list_result id bs) [])
  else
    let* bs := encode_network_operation_result (mk_operation_result op_list (list_code outcome) zero_network) in
    Ok (mk_dispatch (mk_frame network_operation_result id bs) []).

Definition encode_envelope (e : NetworkKeyEnvelope) : result RoutedControlFrame :=
  let* bs := encode_network_key_envelope e in
  Ok (mk_routed_frame (env_recipient e) (mk_frame network_key_envelope 0 bs)).

Definition key_publish_response (outcome : NetworkKeyPublishOutcome) : result ControlDispatch :=
  let* bs := encode_network_operation_result (mk_operation_result op_key_publish (key_code outcome) (key_network_id outcome)) in
  let* evs := if bool_decide (key_code outcome = success) then map_result encode_envelope (key_envelopes outcome) else Ok [] in
  Ok (mk_dispatch (mk_frame network_operation_result 0 bs) evs).

(** ** Requests *)

Definition now_ms (time_source : Z) : result Z :=
  if time_source <? 0 then Throw runtime_error else Ok time_source.

Definition required_capability (a : AccessAction) : Capability :=
  if (action_value act_invite_issue <=? action_value a) && (action_value a <=? action_value act_invite_revoke)
  then invitation_codes
  else if action_value act_password_set <=? action_value a then password_networks else user_accounts.

(** Both ends of a candidate exchange take part in it. *)
Definition exchanges (x : NegotiatedCapabilities) : bool :=
  supports x peer_candidates && supports x candidate_generations.

Definition max_generations : Z := 128.

(** The part of [peer_candidates_send] under the lock: [None] refuses. *)
Definition claim_generation (caps : gmap bytes CapabilitySession) (actor : bytes) (x : CandidateExchange)
    : option (gmap bytes CapabilitySession) :=
  match caps !! actor, caps !! x_recipient x with
  | Some a, Some b =>
      if negb (exchanges (negotiated a)) || negb (exchanges (negotiated b)) then None
      else
        let key := (x_network_id x, x_recipient x) in
        let refused :=
          match generations a !! key with
          | None => Z.of_nat (size (generations a)) >=? max_generations
          | Some g => g >=? generation x
          end in
        if refused then None
        else Some (<[actor := mk_capability_session (cap_session a) (negotiated a) (<[key := generation x]> (generations a))]> caps)
  | _, _ => None
  end.

Section Channel.
Context {C : Crypto} {Pw : PasswordHash}.

(** [note_authenticated] without and with a key. *)
Definition note_device (actor : bytes) (env : Ambient) : CM unit :=
  let$ t := cpure (now_ms (time_source env)) in
  let$ _ := call (record_authenticated_device actor t) in
  update (insert actor (mk_capability_session (zeros 32) default_selection ∅)).

Definition note_authenticated (actor session_id : bytes) (signed_key : SignedDeviceKey) (env : Ambient)
    : CM (list RoutedControlFrame) :=
  let$ _ := update (insert actor (mk_capability_session session_id default_selection ∅)) in
  let$ _ := call (set_management_capable actor false) in
  let$ t := cpure (now_ms (time_source env)) in
  let$ changes := call (publish_device_key actor session_id signed_key t) in
  look (fun c => encode_peer_changes (capabilities_ c) changes).

Definition note_disconnected (actor session_id : bytes) : CM (list RoutedControlFrame) :=
  let$ _ := update (fun caps =>
    match caps !! actor with
    | Some x => if bool_decide (cap_session x = session_id) then delete actor caps else caps
    | None => caps
    end) in
  let$ changes := call (remove_device_key actor session_id) in
  look (fun c => encode_peer_changes (capabilities_ c) changes).

Definition initial_peer_states (actor : bytes) (c : NetworkControlChannel) : result (list RoutedControlFrame) :=
  let* changes := peer_states_for_device actor (service_ c) in
  encode_peer_changes (capabilities_ c) changes.

Definition refuse (id : Z) : CM ControlDispatch := creturn (mk_dispatch (error_response id) []).

Definition handle_management (actor : bytes) (request : Frame) (env : Ambient) : CM ControlDispatch :=
  let id := request_id request in
  let$ capable := look (fun c => Ok (supports (capabilities (capabilities_ c) actor) managed_networks)) in
  if negb capable then refuse id
  else
    let$ q := cpure (decode_management_request (payload request)) in
    let$ t := cpure (now_ms (time_source env)) in
    let$ out := call (manage_network (clock env) actor q t) in
    let$ bs := cpure (encode_management_result (fst out)) in
    let$ evs := look (fun c => encode_peer_changes (capabilities_ c) (snd out)) in
    creturn (mk_dispatch (mk_frame network_management_result id bs) evs).

Definition handle_access (actor : bytes) (request : Frame) (env : Ambient) : CM ControlDispatch :=
  let id := request_id request in
  let$ access := cpure (decode_access_request (payload request)) in
  let$ capable := look (fun c => Ok (supports (capabilities (capabilities_ c) actor) (required_capability (ar_action access)))) in
  if negb capable then refuse id
  else
    let$ t := cpure (now_ms (time_source env)) in
    let$ out := call (access_request (clock env) (later_clock env) (new_ids env) (secret_draw env) actor access t) in
    let '(answer, changes, network_events) := out in
    let$ evs := look (fun c => encode_peer_changes (capabilities_ c) changes) in
    let$ notifications := cpure (encode_events network_events) in
    let$ bs := cpure (encode_access_result answer) in
    creturn (mk_dispatch (mk_frame user_access_result id bs) (evs ++ notifications)).

Definition handle_candidates (actor : bytes) (request : Frame) : CM ControlDispatch :=
  let id := request_id request in
  let$ x := cpure (decode_candidates (payload request)) in
  let$ authorized := look (fun c => authorize_peer_exchange actor x (service_ c)) in
  if negb authorized then refuse id
  else fun c =>
    match claim_generation (capabilities_ c) actor x with
    | None => refuse id c
    | Some caps =>
        (Ok (mk_dispatch (mk_frame peer_candidates_ack id [])
               [mk_routed_frame (x_recipient x) (mk_frame peer_candidates_forward 0 (payload request))]),
         mk_channel (service_ c) caps)
    end.

Definition handle_offer (actor : bytes) (request : Frame) : CM ControlDispatch :=
  let id := request_id request in
  let$ offer := cpure (decode_capability_offer (payload request)) in
  let$ chosen := cpure (negotiate_capabilities default_offer offer) in
  fun c =>
    match capabilities_ c !! actor with
    | None => refuse id c
    | Some x =>
        (let$ _ := update (insert actor (mk_capability_session (cap_session x) chosen (generations x))) in
         let$ changes := call (set_management_capable actor (supports chosen managed_networks)) in
         let$ bs := cpure (encode_capability_selection chosen) in
         let$ evs := look (fun c => encode_peer_changes (capabilities_ c) changes) in
         creturn (mk_dispatch (mk_frame network_list_result id bs) evs)) c
    end.

(** A membership operation: decode, serve, answer. *)
Definition handle_operation {A} (request : Frame) (env : Ambient) (decode : bytes -> result A)
    (handler : A -> Z -> M NetworkOperationOutcome) : CM ControlDispatch :=
  let$ q := cpure (decode (payload request)) in
  let$ t := cpure (now_ms (time_source env)) in
  let$ out := call (handler q t) in
  look (fun c => operation_response (request_id request) out (capabilities_ c)).

Definition handle_list (actor : bytes) (request : Frame) (env : Ambient) : CM ControlDispatch :=
  let$ _ := cpure (decode_network_list_request (payload request)) in
  let$ t := cpure (now_ms (time_source env)) in
  let$ out := call (NetworkService.list_networks actor t) in
  cpure (list_response (request_id request) out).

Definition handle_peer_state (actor : bytes) (request : Frame) (env : Ambient) : CM ControlDispatch :=
  let$ q := cpure (decode_network_selection_request (payload request)) in
  let$ t := cpure (now_ms (time_source env)) in
  let$ out := call (peer_state actor q t) in
  look (fun c => peer_state_response (request_id request) (selection_id q) out
    (supports (capabilities (capabilities_ c) actor) managed_networks)).

Definition handle_key_publish (actor : bytes) (request : Frame) : CM ControlDispatch :=
  let$ q := cpure (decode_network_key_publish_request (payload request)) in
  look (fun c => let* out := publish_network_keys actor q (service_ c) in key_publish_response out).

(** The body of the [try] in [handle_authenticated]. *)
Definition dispatch (actor : bytes) (request : Frame) (env : Ambient) : CM ControlDispatch :=
  let$ allowed := look (fun c => Ok (device_allowed (service_ c) actor)) in
  if negb allowed then refuse (request_id request)
  else
    match type_ request with
    | network_management_request => handle_management actor request env
    | user_access_request => handle_access actor request env
    | peer_candidates_send => handle_candidates actor request
    | network_list_request =>
        if is_capability_payload (payload request) then handle_offer actor request else handle_list actor request env
    | network_create_request =>
        handle_operation request env decode_network_create_request (NetworkService.create_network (clock env) (new_ids env) actor)
    | network_join_request => handle_operation request env decode_network_selection_request (join_network (clock env) actor)
    | network_leave_request => handle_operation request env decode_network_selection_request (leave_network (clock env) actor)
    | network_invite_request => handle_operation request env decode_network_member_request (invite_member (clock env) actor)
    | network_approve_request => handle_operation request env decode_network_member_request (approve_member (clock env) actor)
    | network_kick_request => handle_operation request env decode_network_member_request (kick_member (clock env) actor)
    | network_peer_state_request => handle_peer_state actor request env
    | network_key_publish_request => handle_key_publish actor request
    | _ => cpure (Throw runtime_error)
    end.

(** [catch] of [invalid_argument], [length_error] and [runtime_error] (which includes
    [overflow_error]). *)
Definition contained (e : exn) : bool := negb (bool_decide (e = logic_error)).
Definition contain (id : Z) (m : CM ControlDispatch) : CM ControlDispatch := fun c =>
  match m c with
  | (Throw e, c') => if contained e then refuse id c' else (Throw e, c')
  | r => r
  end.

(** What a frame must be for the channel to look at it. *)
Definition check_request (actor : bytes) (request : Frame) : result unit :=
  check! negb (is_zero actor) else invalid_argument in
  check! negb ((request_id request =? 0) && negb (bool_decide (type_ request = network_key_publish_request)) &&
               negb (bool_decide (type_ request = peer_candidates_send))) else invalid_argument in
  check! negb (bool_decide (type_ request = network_key_publish_request) && negb (request_id request =? 0)) else invalid_argument in
  check! is_network_request (type_ request) else runtime_error in
  Ok tt.

Definition handle_authenticated (actor : bytes) (request : Frame) (env : Ambient) : CM ControlDispatch :=
  let$ _ := cpure (check_request actor request) in
  let$ admitted := call (admit_control (admission_clock env) actor) in
  if negb admitted then refuse (request_id request)
  else contain (request_id request) (dispatch actor request env).

Definition route_packet (actor payload : bytes) (env : Ambient) : CM (list RoutedEncryptedPacket) :=
  let$ p := cpure (decode_encrypted_network_packet payload) in
  call (route_encrypted_packet (clock env) actor p).
End Channel.

(** ** Which service requests a call makes *)

Definition request_actor (r : Request) : option bytes :=
  match r with
  | rq_record a _ | rq_publish_key a _ _ _ | rq_remove_key a _ | rq_capable a _ | rq_route a _ | rq_create a _ _
  | rq_list a _ | rq_join a _ _ | rq_leave a _ _ | rq_invite a _ _ | rq_approve a _ _ | rq_kick a _ _
  | rq_peer_state a _ _ | rq_control a | rq_manage a _ _ | rq_access a _ _ _ _ => Some a
  | rq_limits _ => None
  end.

Inductive ChannelEvent :=
| ce_device (actor : bytes) (env : Ambient)
| ce_authenticated (actor session_id : bytes) (key : SignedDeviceKey) (env : Ambient)
| ce_disconnected (actor session_id : bytes)
| ce_frame (actor : bytes) (request : Frame) (env : Ambient)
| ce_packet (actor payload : bytes) (env : Ambient).

Definition event_actor (e : ChannelEvent) : bytes :=
  match e with
  | ce_device a _ | ce_authenticated a _ _ _ | ce_disconnected a _ | ce_frame a _ _ | ce_packet a _ _ => a
  end.

Section Theorems.
Context {C : Crypto} {Pw : PasswordHash}.

(** The channel after one call, whether it returned or threw. *)
Definition channel_step (e : ChannelEvent) (c : NetworkControlChannel) : NetworkControlChannel :=
  match e with
  | ce_device a env => snd (note_device a env c)
  | ce_authenticated a i k env => snd (note_authenticated a i k env c)
  | ce_disconnected a i => snd (note_disconnected a i c)
  | ce_frame a f env => snd (handle_authenticated a f env c)
  | ce_packet a p env => snd (route_packet a p env c)
  end.

Inductive channel_reachable : NetworkControlChannel -> Prop :=
| cr_start s : service_reachable s -> channel_reachable (mk_channel s ∅)
| cr_step e c : channel_reachable c -> channel_reachable (channel_step e c).

(** A service request made in the name of [actor], and several of them. *)
Definition acts (actor : bytes) (s s' : Service) : Prop :=
  exists clock gen r, request_actor r = Some actor /\ s' = serve clock gen r s.
Definition by_actor (actor : bytes) : relation Service := rtc (acts actor).

(** What a call of the channel may do: serve requests of its actor, and change its actor's entry. *)
Definition own_business (actor : bytes) (c c' : NetworkControlChannel) : Prop :=
  by_actor actor (service_ c) (service_ c') /\
  forall d, d <> actor -> capabilities_ c' !! d = capabilities_ c !! d.

#[global] Instance own_business_pre actor : PreOrder (own_business actor).
Proof.
  split; [done|]. intros a b c [H1 E1] [H2 E2]. split; [by etransitivity|].
  intros d Hd. by rewrite E2, E1.
Qed.

(** [m] relates every channel to the one it leaves. *)
Definition leaves {A} (R : relation NetworkControlChannel) (m : CM A) : Prop := forall c, R c (snd (m c)).

Section Leaves.
Context (R : relation NetworkControlChannel) {P : PreOrder R}.
Lemma leaves_return {A} (a : A) : leaves R (creturn a).
Proof. by intros c. Qed.
Lemma leaves_pure {A} (r : result A) : leaves R (cpure r).
Proof. by intros c. Qed.
Lemma leaves_look {A} (f : NetworkControlChannel -> result A) : leaves R (look f).
Proof. by intros c. Qed.
Lemma leaves_refuse id : leaves R (refuse id).
Proof. by intros c. Qed.
Lemma leaves_bind {A B} (m : CM A) (k : A -> CM B) : leaves R m -> (forall a, leaves R (k a)) -> leaves R (cbind m k).
Proof.
  intros Hm Hk c. unfold cbind. specialize (Hm c). destruct (m c) as [[a|e] c']; cbn in *; [|done].
  etransitivity; [exact Hm|apply Hk].
Qed.
Lemma leaves_contain id m : leaves R m -> leaves R (contain id m).
Proof.
  intros H c. unfold contain. specialize (H c). destruct (m c) as [[d|e] c']; [done|].
  by destruct (contained e).
Qed.
End Leaves.

(** One that the frames of [actor] respect: true of the service requests it makes, of recording a
    candidate generation and of recording what it negotiated. *)
Class Business (actor : bytes) (R : relation NetworkControlChannel) : Prop := {
  business_pre :: PreOrder R;
  business_call c s' : acts actor (service_ c) s' -> R c (mk_channel s' (capabilities_ c));
  business_claim c x caps : claim_generation (capabilities_ c) actor x = Some caps -> R c (mk_channel (service_ c) caps);
  business_offer c x chosen : capabilities_ c !! actor = Some x ->
    R c (mk_channel (service_ c) (<[actor := mk_capability_session (cap_session x) chosen (generations x)]> (capabilities_ c))) }.

(** One request of the service. *)
Lemma acts_as clock gen r actor s : request_actor r = Some actor -> acts actor s (serve clock gen r s).
Proof. intros H. by exists clock, gen, r. Qed.

Definition no_gen : nat -> result bytes := fun _ => Throw runtime_error.

Lemma leaves_call {A} actor R {B : Business actor R} (m : M A) : (forall s, acts actor s (snd (m s))) -> leaves R (call m).
Proof.
  intros H c. unfold call. specialize (H (service_ c)). destruct (m (service_ c)) as [r s]. by apply business_call.
Qed.

Ltac leave_step :=
  repeat first
    [ progress cbv zeta
    | apply leaves_bind; [exact _| |intros ?]
    | match goal with |- leaves _ (if ?b then _ else _) => destruct b end
    | match goal with |- leaves _ (match ?p with (_, _) => _ end) => destruct p end
    | solve [apply leaves_return; exact _ | apply leaves_pure; exact _ | apply leaves_look; exact _ | apply leaves_refuse; exact _]
    | solve [auto with service] ].

(** Closes [leaves R (call m)] where [m] is how the service serves [r]. *)
Tactic Notation "served" uconstr(clock) uconstr(gen) uconstr(r) :=
  eapply leaves_call; [exact _|]; intros ?; by apply (acts_as clock gen r).

Section Frames.
Context (actor : bytes) (R : relation NetworkControlChannel) {B : Business actor R}.

Lemma leaves_management f env : leaves R (handle_management actor f env).
Proof. unfold handle_management. leave_step. served _ no_gen (rq_manage actor _ _). Qed.
Lemma leaves_access f env : leaves R (handle_access actor f env).
Proof. unfold handle_access. leave_step. served _ _ (rq_access actor _ _ _ _). Qed.
Lemma leaves_candidates f : leaves R (handle_candidates actor f).
Proof.
  unfold handle_candidates. leave_step. intros c.
  destruct (claim_generation _ _ _) eqn:E; [by eapply business_claim|apply leaves_refuse; exact _].
Qed.
Lemma leaves_offer f : leaves R (handle_offer actor f).
Proof.
  unfold handle_offer. cbv zeta. apply leaves_bind; [exact _|leave_step|]. intros offer.
  apply leaves_bind; [exact _|leave_step|]. intros chosen c. destruct (capabilities_ c !! actor) as [x|] eqn:E; [|apply leaves_refuse; exact _].
  etransitivity; [by apply (business_offer c x chosen)|]. unfold cbind at 1, update. cbn -[cbind call cpure look creturn].
  match goal with |- R ?c' (snd (?m ?c')) => generalize c'; change (leaves R m) end.
  leave_step. served 0 no_gen (rq_capable actor _).
Qed.
Lemma leaves_operation {A} f env (decode : bytes -> result A) handler :
  (forall q t s, acts actor s (snd (handler q t s))) -> leaves R (handle_operation f env decode handler).
Proof. intros H. unfold handle_operation. leave_step. eapply leaves_call; [exact _|]. apply H. Qed.
Lemma leaves_list f env : leaves R (handle_list actor f env).
Proof. unfold handle_list. leave_step. served 0 no_gen (rq_list actor _). Qed.
Lemma leaves_peer_state f env : leaves R (handle_peer_state actor f env).
Proof. unfold handle_peer_state. leave_step. served 0 no_gen (rq_peer_state actor _ _). Qed.

Lemma leaves_dispatch f env : leaves R (dispatch actor f env).
Proof.
  unfold dispatch. leave_step. destruct (type_ f); try apply leaves_pure; try exact _.
  - apply leaves_operation. intros q t s. by apply (acts_as (clock env) (new_ids env) (rq_create actor q t)).
  - destruct (is_capability_payload _); [apply leaves_offer|apply leaves_list].
  - apply leaves_operation. intros q t s. by apply (acts_as (clock env) no_gen (rq_join actor q t)).
  - apply leaves_operation. intros q t s. by apply (acts_as (clock env) no_gen (rq_leave actor q t)).
  - apply leaves_operation. intros q t s. by apply (acts_as (clock env) no_gen (rq_invite actor q t)).
  - apply leaves_operation. intros q t s. by apply (acts_as (clock env) no_gen (rq_approve actor q t)).
  - apply leaves_operation. intros q t s. by apply (acts_as (clock env) no_gen (rq_kick actor q t)).
  - apply leaves_peer_state.
  - unfold handle_key_publish. leave_step.
  - apply leaves_candidates.
  - apply leaves_access.
  - apply leaves_management.
Qed.

Lemma leaves_handle f env : leaves R (handle_authenticated actor f env).
Proof.
  unfold handle_authenticated. leave_step; [served _ no_gen (rq_control actor)|].
  refine (leaves_contain R _ _ _). apply leaves_dispatch.
Qed.
End Frames.

(** ** A device acts only in its own name *)

Lemma claim_generation_other caps actor x caps' d :
  claim_generation caps actor x = Some caps' -> d <> actor -> caps' !! d = caps !! d.
Proof.
  unfold claim_generation. intros H Hd. destruct (caps !! actor); [|done]. destruct (caps !! x_recipient x); [|done].
  destruct (_ || _); [done|]. destruct (match _ !! _ with Some _ => _ | None => _ end); [done|].
  injection H as <-. by apply lookup_insert_ne.
Qed.

#[global] Instance own_business_ok actor : Business actor (own_business actor).
Proof.
  constructor; [exact _|..].
  - intros c s' H. split; [by apply rtc_once|done].
  - intros c x caps H. split; [done|]. intros d Hd. cbn. by eapply claim_generation_other.
  - intros c x chosen H. split; [done|]. intros d Hd. cbn. by apply lookup_insert_ne.
Qed.

(** One that every call for [actor] respects: also true of beginning and ending its session. *)
Class Lifecycle (actor : bytes) (R : relation NetworkControlChannel) : Prop := {
  lifecycle_business :: Business actor R;
  lifecycle_begin c i : R c (mk_channel (service_ c) (<[actor := mk_capability_session i default_selection ∅]> (capabilities_ c)));
  lifecycle_end c : R c (mk_channel (service_ c) (delete actor (capabilities_ c))) }.

#[global] Instance own_business_lifecycle actor : Lifecycle actor (own_business actor).
Proof.
  constructor; [exact _|..].
  - intros c i. split; [done|]. intros d Hd. cbn. by apply lookup_insert_ne.
  - intros c. split; [done|]. intros d Hd. cbn. by apply lookup_delete_ne.
Qed.

Lemma channel_respects e R {L : Lifecycle (event_actor e) R} c : R c (channel_step e c).
Proof.
  assert (N : forall i, leaves R (update (insert (event_actor e) (mk_capability_session i default_selection ∅))))
    by (intros i c'; apply lifecycle_begin).
  destruct e as [a env|a i k env|a i|a f env|a p env]; cbn [event_actor channel_step] in *; revert c.
  - change (leaves R (note_device a env)). unfold note_device. leave_step. served 0 no_gen (rq_record a _).
  - change (leaves R (note_authenticated a i k env)). unfold note_authenticated. leave_step.
    + served 0 no_gen (rq_capable a _).
    + served 0 no_gen (rq_publish_key a _ _ _).
  - change (leaves R (note_disconnected a i)). unfold note_disconnected. leave_step.
    + intros c. cbn. destruct (capabilities_ c !! a); [|by destruct c].
      destruct (bool_decide _); [apply lifecycle_end|by destruct c].
    + served 0 no_gen (rq_remove_key a _).
  - apply leaves_handle. exact _.
  - change (leaves R (route_packet a p env)). unfold route_packet. leave_step. served _ no_gen (rq_route a _).
Qed.

Lemma channel_own_business e c : own_business (event_actor e) c (channel_step e c).
Proof. apply channel_respects. exact _. Qed.

Lemma by_actor_reachable actor s s' : by_actor actor s s' -> service_reachable s -> service_reachable s'.
Proof. induction 1 as [|s1 s2 s3 (clock & gen & r & _ & ->) _ IH]; [done|]. intros H. by apply IH, sr_serve. Qed.

Lemma channel_service_reachable c : channel_reachable c -> service_reachable (service_ c).
Proof.
  induction 1 as [s H|e c _ IH]; [done|]. eapply by_actor_reachable; [|exact IH]. apply channel_own_business.
Qed.

(** C2: the control channel refines the service.  Whatever a connection sends, and whether the call
    returns or throws, the relay's service ends in a state it reaches by serving requests in the
    name of the device that authenticated the connection, and no other device's negotiated
    capabilities or candidate generations change.  So every channel reachable from a fresh relay
    holds a reachable service, of which the theorems on the service hold. *)
Theorem channel_refines_service (c : NetworkControlChannel) (e : ChannelEvent) :
  by_actor (event_actor e) (service_ c) (service_ (channel_step e c)) /\
  (forall d, d <> event_actor e -> capabilities_ (channel_step e c) !! d = capabilities_ c !! d) /\
  (channel_reachable c -> service_reachable (service_ c) /\ service_reachable (service_ (channel_step e c))).
Proof.
  destruct (channel_own_business e c) as [B O]. split_and!; [done..|].
  intros H. apply channel_service_reachable in H. split; [done|]. by eapply by_actor_reachable.
Qed.

(** ** What a call returns *)

(** Whatever [m] returns satisfies [Q], with the channel it leaves. *)
Definition yields {A} (Q : A -> NetworkControlChannel -> Prop) (m : CM A) : Prop :=
  forall c a c', m c = (Ok a, c') -> Q a c'.

Lemma yields_bind {A B} (Q : B -> NetworkControlChannel -> Prop) (m : CM A) (k : A -> CM B) :
  (forall a, yields Q (k a)) -> yields Q (cbind m k).
Proof. intros H c b c' E. unfold cbind in E. destruct (m c) as [[a|e] c1]; [|done]. by eapply H. Qed.
Lemma yields_return {A} (Q : A -> NetworkControlChannel -> Prop) a : (forall c, Q a c) -> yields Q (creturn a).
Proof. intros H c b c' E. injection E as <- <-. apply H. Qed.
Lemma yields_pure {A} (Q : A -> NetworkControlChannel -> Prop) r : (forall a c, r = Ok a -> Q a c) -> yields Q (cpure r).
Proof. intros H c b c' E. injection E as E <-. by apply H. Qed.
Lemma yields_look {A} (Q : A -> NetworkControlChannel -> Prop) f : (forall a c, f c = Ok a -> Q a c) -> yields Q (look f).
Proof. intros H c b c' E. injection E as E <-. by apply H. Qed.
(** A look whose value the rest depends on, the channel staying as it was seen. *)
Lemma yields_look_return {A B} (Q : B -> NetworkControlChannel -> Prop) f (g : A -> B) :
  (forall a c, f c = Ok a -> Q (g a) c) -> yields Q (let$ x := look f in creturn (g x)).
Proof. intros H c b c' E. unfold cbind, look in E. destruct (f c) as [a|] eqn:F; [|done]. injection E as <- <-. by apply H. Qed.

Lemma Forall_map_result {A B} (P : B -> Prop) (f : A -> result B) l bs :
  (forall a b, f a = Ok b -> P b) -> map_result f l = Ok bs -> Forall P bs.
Proof.
  intros H. revert bs. induction l as [|a l IH]; intros bs E; cbn in E; ok_inv E; subst bs; [constructor|].
  constructor; eauto.
Qed.

(** A look whose value the rest depends on through steps that leave the channel alone. *)
Lemma yields_look_steps {A B} (Q : B -> NetworkControlChannel -> Prop) f (k : A -> CM B) :
  (forall a c b c', f c = Ok a -> k a c = (Ok b, c') -> Q b c') -> yields Q (let$ x := look f in k x).
Proof. intros H c b c' E. unfold cbind, look in E. destruct (f c) as [a|] eqn:F; [|done]. by eapply H. Qed.
Lemma cpure_bind_ok {A B} (r : result A) (k : A -> CM B) c b c' :
  cbind (cpure r) k c = (Ok b, c') -> exists a, r = Ok a /\ k a c = (Ok b, c').
Proof. unfold cbind, cpure. destruct r as [a|]; [by exists a|done]. Qed.

(** A managed network's policy goes only to a device that takes part in management. *)
Definition policy_gated (caps : gmap bytes CapabilitySession) (d : bytes) (f : Frame) : Prop :=
  type_ f = network_peer_state_update \/ type_ f = network_peer_state_result ->
  exists st, encode_network_peer_state st = Ok (payload f) /\
    (policy st = None \/ supports (capabilities caps d) managed_networks = true).
Definition gated (caps : gmap bytes CapabilitySession) (r : RoutedControlFrame) : Prop :=
  policy_gated caps (recipient_device_id r) (frame r) /\ request_id (frame r) = 0 /\
  type_ (frame r) ∈ [network_event; network_peer_state_update; network_peer_state_revoked; network_key_envelope].
(** A frame for another device, in answer to a frame of type [t]. *)
Definition event_ok (caps : gmap bytes CapabilitySession) (t : MessageType) (r : RoutedControlFrame) : Prop :=
  gated caps r \/ (t = peer_candidates_send /\ type_ (frame r) = peer_candidates_forward /\ request_id (frame r) = 0).

Lemma not_a_state caps d f :
  type_ f <> network_peer_state_update -> type_ f <> network_peer_state_result -> policy_gated caps d f.
Proof. intros H1 H2 [H|H]; done. Qed.

Ltac gate := split; [by apply not_a_state|split; [done|set_solver]].

Lemma encode_peer_changes_gated caps l fs : encode_peer_changes caps l = Ok fs -> Forall (gated caps) fs.
Proof.
  apply Forall_map_result. intros ch f. unfold encode_peer_change.
  destruct (change_state ch) as [st|].
  - destruct (_ || _) eqn:G; intros H; ok_inv H; subst f; [|gate].
    split; [|split; [done|set_solver]]. intros _. exists st. split; [done|]. cbn.
    destruct (policy st); [right|by left]. done.
  - intros H. ok_inv H. subst f. gate.
Qed.
Lemma encode_events_gated caps l fs : encode_events l = Ok fs -> Forall (gated caps) fs.
Proof. apply Forall_map_result. intros e f. unfold encode_event. intros H. ok_inv H. subst f. gate. Qed.
Lemma gated_ok caps t l : Forall (gated caps) l -> Forall (event_ok caps t) l.
Proof. intros F. eapply Forall_impl; [exact F|]. by left. Qed.

(** The frames that may answer a request. *)
Definition response_types (t : MessageType) : list MessageType :=
  error ::
  match t with
  | network_management_request => [network_management_result]
  | user_access_request => [user_access_result]
  | peer_candidates_send => [peer_candidates_ack]
  | network_list_request => [network_list_result; network_operation_result]
  | network_peer_state_request => [network_peer_state_result; network_operation_result]
  | _ => [network_operation_result]
  end.

Definition well_answered (actor : bytes) (f : Frame) (d : ControlDispatch) (c : NetworkControlChannel) : Prop :=
  request_id (response d) = request_id f /\ type_ (response d) ∈ response_types (type_ f) /\
  (type_ (response d) = error -> dispatch_events d = []) /\
  policy_gated (capabilities_ c) actor (response d) /\ Forall (event_ok (capabilities_ c) (type_ f)) (dispatch_events d).

Lemma yields_refuse actor f : yields (well_answered actor f) (refuse (request_id f)).
Proof. apply yields_return. intros c. split_and!; try done; try (by apply not_a_state). set_solver. Qed.

Ltac yield_step :=
  repeat first
    [ progress cbv zeta
    | apply yields_refuse
    | apply yields_look_return; intros ? ? ?
    | apply yields_look; intros ? ? ?
    | apply yields_pure; intros ? ? ?
    | apply yields_return; intros ?
    | match goal with |- yields _ (if ?b then _ else _) => destruct b eqn:? end
    | match goal with |- yields _ (match ?p with (_, _) => _ end) => destruct p end
    | apply yields_bind; intros ? ].
Ltac answered := split_and!; cbn [response dispatch_events type_ request_id payload]; try done; try (by apply not_a_state); try set_solver.

Lemma yields_operation {A} actor f env (decode : bytes -> result A) handler :
  network_operation_result ∈ response_types (type_ f) -> yields (well_answered actor f) (handle_operation f env decode handler).
Proof.
  intros T. unfold handle_operation. yield_step. unfold operation_response in *.
  match goal with H : _ = Ok _ |- _ => ok_inv H; subst end. answered.
  apply gated_ok, Forall_app. split; [by eapply encode_events_gated|by eapply encode_peer_changes_gated].
Qed.

Lemma dispatch_answers actor f env :
  (type_ f = network_key_publish_request -> request_id f = 0) -> yields (well_answered actor f) (dispatch actor f env).
Proof.
  intros K. unfold dispatch. apply yields_bind. intros allowed. destruct (negb allowed); [apply yields_refuse|].
  destruct (type_ f) eqn:T; try (by apply yields_pure); try (apply yields_operation; rewrite T; set_solver).
  - destruct (is_capability_payload _).
    + unfold handle_offer. yield_step. intros c d c'. destruct (capabilities_ c !! actor); [|by apply yields_refuse].
      revert c d c'. match goal with |- forall c d c', ?m c = _ -> _ => change (yields (well_answered actor f) m) end. yield_step.
      unfold well_answered. rewrite T. answered. by eapply gated_ok, encode_peer_changes_gated.
    + unfold handle_list. yield_step. unfold list_response in *. unfold well_answered. rewrite T.
      destruct (bool_decide _); match goal with H : _ = Ok _ |- _ => ok_inv H; subst end; answered.
  - unfold handle_peer_state. yield_step. unfold peer_state_response in *. unfold well_answered. rewrite T. cbv zeta in *.
    match type of H with context [bool_decide (state_code ?o = success)] =>
      assert (G : forall st, state_ o = Some st -> policy st = None \/ supports (capabilities (capabilities_ c) actor) managed_networks = true);
      [|remember o as out eqn:O; clear O] end.
    { intros st. destruct (state_ a1) as [st'|] eqn:S; [|by rewrite S].
      destruct (policy st') eqn:Po; cbn; [destruct (supports _ _) eqn:Su; cbn|]; rewrite ?S; try done; intros [= <-]; auto. }
    destruct (bool_decide (state_code out = success)), (state_ out) as [st|]; ok_inv H; subst; answered.
    intros _. exists st. eauto.
  - unfold handle_key_publish. yield_step. unfold key_publish_response in *. unfold well_answered. rewrite T.
    match goal with H : _ = Ok _ |- _ => ok_inv H; subst end. answered.
    destruct (bool_decide _); [|simplify_eq; constructor].
    eapply gated_ok, Forall_map_result; [|eassumption]. intros e r. unfold encode_envelope. intros X. ok_inv X. subst r. gate.
  - unfold handle_candidates. yield_step. intros c d c'. destruct (claim_generation _ _ _); [|by apply yields_refuse].
    intros [= <- <-]. unfold well_answered. rewrite T. answered. apply Forall_singleton. by right.
  - unfold handle_access. cbv zeta. apply yields_bind. intros q. apply yields_bind. intros capable.
    destruct (negb capable); [apply yields_refuse|]. apply yields_bind. intros t. apply yields_bind. intros [[reply changes] evs].
    apply yields_look_steps. intros fs c d c' E X. apply cpure_bind_ok in X as (ns & En & X).
    apply cpure_bind_ok in X as (bs & _ & X). injection X as <- <-. unfold well_answered. rewrite T. answered.
    apply gated_ok, Forall_app. split; [by eapply encode_peer_changes_gated|by eapply encode_events_gated].
  - unfold handle_management. yield_step. unfold well_answered. rewrite T. answered. by eapply gated_ok, encode_peer_changes_gated.
Qed.

Lemma check_request_ok actor f u :
  check_request actor f = Ok u ->
  is_zero actor = false /\ is_network_request (type_ f) = true /\
  (type_ f = network_key_publish_request -> request_id f = 0) /\
  (type_ f <> network_key_publish_request -> type_ f <> peer_candidates_send -> request_id f <> 0).
Proof.
  unfold check_request. intros H. ok_inv H. bool_prop.
  split_and!; try done.
  - intros T. match goal with H : bool_decide (type_ f = network_key_publish_request) && _ = false |- _ =>
      rewrite bool_decide_eq_true_2 in H by done; cbn [andb] in H end. by bool_prop.
  - intros T1 T2. match goal with H : _ && _ && _ = false |- _ => rewrite !bool_decide_eq_false_2 in H by done; cbn [negb] in H end.
    rewrite !andb_true_r in *. by bool_prop.
Qed.

(** A call of the channel splits into the check, the admission and the contained dispatch. *)
Lemma handle_authenticated_cases actor f env c r c' :
  handle_authenticated actor f env c = (r, c') ->
  let admitted := admit_control (admission_clock env) actor (service_ c) in
  let c1 := mk_channel (snd admitted) (capabilities_ c) in
  (exists e, check_request actor f = Throw e /\ r = Throw e /\ c' = c) \/
  (check_request actor f = Ok tt /\
   ((fst admitted = Ok false /\ r = Ok (mk_dispatch (error_response (request_id f)) []) /\ c' = c1) \/
    (fst admitted = Ok true /\ contain (request_id f) (dispatch actor f env) c1 = (r, c')))).
Proof.
  unfold handle_authenticated, cbind at 1, cpure at 1. destruct (check_request actor f) as [[]|e] eqn:K.
  - intros H. right. split; [done|]. unfold cbind, call in H.
    destruct (admit_control (admission_clock env) actor (service_ c)) as [a s] eqn:A.
    assert (exists b, a = Ok b) as [b ->].
    { unfold admit_control in A. destruct (ForwardingQuota.control _ _ _). injection A as <- _. eauto. }
    destruct b; cbn [negb fst snd] in *; [right|left; by injection H as <- <-]. done.
  - intros [= <- <-]. left. eauto.
Qed.

Lemma contain_cases id m c r c' :
  contain id m c = (r, c') ->
  (exists d, r = Ok d /\ m c = (Ok d, c')) \/
  (exists e, contained e = true /\ r = Ok (mk_dispatch (error_response id) []) /\ m c = (Throw e, c')) \/
  (r = Throw logic_error /\ m c = (Throw logic_error, c')).
Proof.
  unfold contain. intros H. destruct (m c) as [[d|e] c1] eqn:E; [injection H as <- <-; left; eauto|]. right.
  destruct (contained e) eqn:X; [left; injection H as <- <-; eauto|right].
  injection H as <- <-. unfold contained in X. bool_prop. by subst e.
Qed.

(** C29: the control channel answers.  A frame that is no network request, or comes without the request
    id its type needs, is thrown out before anything changes.  Every other frame is answered by
    exactly one response with the request's id, of the type its request calls for or an
    error, and the frames for other devices carry id 0; an error response goes with no other frames.
    Every failure of the service becomes an error response, except a [logic_error], which the
    service has no source of. *)
Theorem control_channel_answers (actor : bytes) (request : Frame) (env : Ambient) (c c' : NetworkControlChannel)
    (r : result ControlDispatch) :
  handle_authenticated actor request env c = (r, c') ->
  match r with
  | Ok d =>
      check_request actor request = Ok tt /\
      request_id (response d) = request_id request /\ type_ (response d) ∈ response_types (type_ request) /\
      Forall (fun f => request_id (frame f) = 0) (dispatch_events d) /\
      (type_ (response d) = error -> dispatch_events d = [])
  | Throw e => (check_request actor request = Throw e /\ c' = c) \/
               (e = logic_error /\ exists c1, dispatch actor request env c1 = (Throw e, c'))
  end.
Proof.
  intros H. apply handle_authenticated_cases in H as [(e & K & -> & ->)|(K & H)]; [by left|].
  assert (E : type_ (error_response (request_id request)) ∈ response_types (type_ request)) by (unfold response_types; set_solver).
  destruct H as [(_ & -> & _)|(_ & H)]; [by split_and!|].
  apply contain_cases in H as [(d & -> & H)|[(e & _ & -> & _)|[-> H]]]; [|by split_and!|right; eauto].
  destruct (check_request_ok _ _ _ K) as (_ & _ & Kp & _).
  destruct (dispatch_answers actor request env Kp _ _ _ H) as (Id & Ty & Er & _ & G). split_and!; try done.
  eapply Forall_impl; [exact G|]. by intros f [(_ & ? & _)|(_ & _ & ?)].
Qed.

(** Policies stay with those who take part.  A peer state that carries the policy of a managed
    network is sent, as an update or as an answer, only to a device that negotiated managed networks
    on its present session: to the requester and in the updates a request causes, on connecting, on
    disconnecting and in the initial states. *)
Lemma policies_withheld (actor session_id : bytes) (request : Frame) (key : SignedDeviceKey) (env : Ambient)
    (c c' : NetworkControlChannel) (d : ControlDispatch) (fs : list RoutedControlFrame) :
  (handle_authenticated actor request env c = (Ok d, c') ->
     policy_gated (capabilities_ c') actor (response d) /\
     Forall (fun f => policy_gated (capabilities_ c') (recipient_device_id f) (frame f)) (dispatch_events d)) /\
  (note_authenticated actor session_id key env c = (Ok fs, c') \/ note_disconnected actor session_id c = (Ok fs, c') \/
   (initial_peer_states actor c = Ok fs /\ c' = c) ->
     Forall (fun f => policy_gated (capabilities_ c') (recipient_device_id f) (frame f)) fs).
Proof.
  assert (W : forall caps l, Forall (gated caps) l -> Forall (fun f => policy_gated caps (recipient_device_id f) (frame f)) l).
  { intros caps l F. eapply Forall_impl; [exact F|]. by intros f (? & _). }
  split.
  - intros H. apply handle_authenticated_cases in H as [(e & _ & X & _)|(K & H)]; [done|].
    destruct H as [(_ & X & _)|(_ & H)]; [injection X as ->; split; [by apply not_a_state|constructor]|].
    apply contain_cases in H as [(d' & [= ->] & H)|[(e & _ & [= ->] & _)|[? _]]]; [|split; [by apply not_a_state|constructor]|done].
    destruct (check_request_ok _ _ _ K) as (_ & _ & Kp & _).
    destruct (dispatch_answers actor request env Kp _ _ _ H) as (_ & _ & _ & P & G). split; [done|].
    eapply Forall_impl; [exact G|]. intros f [(? & _)|(_ & T & _)]; [done|]. apply not_a_state; by rewrite T.
  - assert (Y : forall changes, yields (fun fs c => Forall (gated (capabilities_ c)) fs)
      (look (fun c => encode_peer_changes (capabilities_ c) changes)))
      by (intros changes; apply yields_look; intros; by eapply encode_peer_changes_gated).
    intros [H|[H|[H ->]]]; apply W.
    + revert H. unfold note_authenticated. apply (yields_bind (fun fs c => Forall (gated (capabilities_ c)) fs)). intros _.
      do 3 (apply yields_bind; intros ?). apply Y.
    + revert H. unfold note_disconnected. apply (yields_bind (fun fs c => Forall (gated (capabilities_ c)) fs)). intros _.
      apply yields_bind. intros ?. apply Y.
    + unfold initial_peer_states in H. ok_inv H. by eapply encode_peer_changes_gated.
Qed.

(** ** Candidate generations *)

Definition generation_of (c : NetworkControlChannel) (actor n d : bytes) : option Z :=
  x ← capabilities_ c !! actor; generations x !! (n, d).

(** Recorded generations of [actor] stay recorded and only grow. *)
Definition generations_grow (actor : bytes) (c c' : NetworkControlChannel) : Prop :=
  forall n d g, generation_of c actor n d = Some g -> exists g', generation_of c' actor n d = Some g' /\ g <= g'.

#[global] Instance generations_grow_pre actor : PreOrder (generations_grow actor).
Proof.
  split; [intros c n d g H; exists g; split; [done|lia]|].
  intros a b c H1 H2 n d g H. apply H1 in H as (g1 & H & ?). apply H2 in H as (g2 & H & ?). exists g2. split; [done|lia].
Qed.

Lemma claim_generation_spec caps actor x caps' :
  claim_generation caps actor x = Some caps' ->
  exists a b, caps !! actor = Some a /\ caps !! x_recipient x = Some b /\
    exchanges (negotiated a) = true /\ exchanges (negotiated b) = true /\
    match generations a !! (x_network_id x, x_recipient x) with
    | Some g => g < generation x
    | None => Z.of_nat (size (generations a)) < max_generations
    end /\
    caps' = <[actor := mk_capability_session (cap_session a) (negotiated a)
                         (<[(x_network_id x, x_recipient x) := generation x]> (generations a))]> caps.
Proof.
  unfold claim_generation. intros H. destruct (caps !! actor) as [a|]; [|done]. destruct (caps !! x_recipient x) as [b|]; [|done].
  destruct (_ || _) eqn:E; [done|]. cbv zeta in H.
  destruct (match generations a !! _ with Some _ => _ | None => _ end) eqn:G in H; [done|]. injection H as <-. bool_prop.
  exists a, b. split_and!; try done. destruct (generations a !! _); bool_prop; lia.
Qed.

#[global] Instance generations_grow_ok actor : Business actor (generations_grow actor).
Proof.
  constructor; [exact _|..].
  - intros c s' _ n d g H. exists g. split; [done|lia].
  - intros c x caps H n d g. apply claim_generation_spec in H as (a & b & Ha & _ & _ & _ & Lt & ->).
    unfold generation_of. cbn. rewrite Ha, lookup_insert_eq. cbn. intros G.
    destruct (decide ((x_network_id x, x_recipient x) = (n, d))) as [E|E].
    + rewrite E, G in Lt. rewrite E, lookup_insert_eq. exists (generation x). split; [done|lia].
    + rewrite lookup_insert_ne by done. exists g. split; [done|lia].
  - intros c x chosen H n d g. unfold generation_of. cbn. rewrite H, lookup_insert_eq. cbn. intros G. exists g. split; [done|lia].
Qed.

(** A call that does not begin or end a session of [actor]. *)
Definition same_session (actor : bytes) (e : ChannelEvent) : Prop :=
  match e with
  | ce_device a _ | ce_authenticated a _ _ _ | ce_disconnected a _ => a <> actor
  | ce_frame _ _ _ | ce_packet _ _ _ => True
  end.

Lemma session_generations actor e c : same_session actor e -> generations_grow actor c (channel_step e c).
Proof.
  intros S. destruct (decide (event_actor e = actor)) as [<-|N].
  - destruct e as [a env|a i k env|a i|a f env|a p env]; try done.
    + cbn [channel_step event_actor]. apply leaves_handle, generations_grow_ok.
    + cbn [channel_step event_actor]. revert c. change (leaves (generations_grow a) (route_packet a p env)). unfold route_packet.
      leave_step. served _ no_gen (rq_route a _).
  - destruct (channel_own_business e c) as [_ O]. intros n d g. unfold generation_of. rewrite O by done.
    intros H. exists g. split; [done|lia].
Qed.

Lemma session_generations_run actor es c :
  Forall (same_session actor) es -> generations_grow actor c (foldl (fun c e => channel_step e c) c es).
Proof.
  revert c. induction es as [|e es IH]; intros c F; [reflexivity|]. apply Forall_cons in F as [S F]. cbn.
  etransitivity; [by apply session_generations|by apply IH].
Qed.

(** A frame that carries candidates is sent on only by [handle_candidates]. *)
Lemma forward_source actor f env c d c' r :
  handle_authenticated actor f env c = (Ok d, c') -> r ∈ dispatch_events d -> type_ (frame r) = peer_candidates_forward ->
  exists x c1, capabilities_ c1 = capabilities_ c /\ service_ c1 = service_ c' /\
    decode_candidates (payload f) = Ok x /\ authorize_peer_exchange actor x (service_ c1) = Ok true /\
    claim_generation (capabilities_ c1) actor x = Some (capabilities_ c') /\
    r = mk_routed_frame (x_recipient x) (mk_frame peer_candidates_forward 0 (payload f)).
Proof.
  intros H Hr Tr. apply handle_authenticated_cases in H as [(e & _ & X & _)|(K & H)]; [done|].
  destruct H as [(_ & X & _)|(_ & H)]; [injection X as ->; by apply elem_of_nil in Hr|].
  apply contain_cases in H as [(d' & [= ->] & H)|[(e & _ & [= ->] & _)|[? _]]]; [|by apply elem_of_nil in Hr|done].
  match type of H with dispatch _ _ _ ?x = _ => set (c1 := x) in * end. change (capabilities_ c) with (capabilities_ c1).
  clearbody c1. clear c.
  destruct (decide (type_ f = peer_candidates_send)) as [T|T].
  - revert H. unfold dispatch, cbind at 1, look at 1. cbn iota beta. rewrite T.
    destruct (negb _); [intros [= <- <-]; by apply elem_of_nil in Hr|]. unfold handle_candidates. cbv zeta. intros H.
    apply cpure_bind_ok in H as (x & D & H). unfold cbind, look in H.
    destruct (authorize_peer_exchange _ _ _) as [ok|] eqn:A; [|done].
    destruct ok; [|injection H as <- <-; by apply elem_of_nil in Hr]. cbn [negb] in H.
    destruct (claim_generation _ _ _) as [caps|] eqn:G; [|injection H as <- <-; by apply elem_of_nil in Hr].
    injection H as <- <-. apply list_elem_of_singleton in Hr as ->. by exists x, c1.
  - destruct (check_request_ok _ _ _ K) as (_ & _ & Kp & _).
    destruct (dispatch_answers actor f env Kp _ _ _ H) as (_ & _ & _ & _ & G). rewrite Forall_forall in G.
    destruct (G r Hr) as [(_ & _ & X)|(? & _)]; [|done]. rewrite Tr in X. set_solver.
Qed.

Definition generations_ok (c : NetworkControlChannel) : Prop :=
  forall d x, capabilities_ c !! d = Some x -> Z.of_nat (size (generations x)) <= max_generations.

#[global] Instance generations_ok_lifecycle actor : Lifecycle actor (fun c c' => generations_ok c -> generations_ok c').
Proof.
  constructor; [constructor|..].
  - split; [by intros c|]. intros a b c. auto.
  - intros c s' _ H. exact H.
  - intros c x caps E H. apply claim_generation_spec in E as (a & b & Ha & _ & _ & _ & Lt & ->). intros d y. cbn.
    intros [[<- <-]|[_ Hy]]%lookup_insert_Some; [|by eapply H]. cbn. specialize (H _ _ Ha).
    destruct (generations a !! _) eqn:G; [|rewrite map_size_insert_None by done; lia].
    rewrite map_size_insert_Some; [done|]. by eexists.
  - intros c x chosen E H d y. cbn. intros [[<- <-]|[_ Hy]]%lookup_insert_Some; [exact (H _ _ E)|by eapply H].
  - intros c i H d y. cbn. intros [[<- <-]|[_ Hy]]%lookup_insert_Some; [done|by eapply H].
  - intros c H d y. cbn. intros [_ Hy]%lookup_delete_Some. by eapply H.
Qed.

Lemma generations_bounded c : channel_reachable c -> generations_ok c.
Proof.
  induction 1 as [s H|e c _ IH]; [done|].
  exact (channel_respects e (fun c c' => generations_ok c -> generations_ok c') c IH).
Qed.

(** Candidates are passed on at most once a generation.  The channel sends a candidate frame on
    only for an authorized exchange whose sender is the connection's device, between two devices that
    negotiated candidate generations, unchanged and to the recipient it names.  As long as
    neither a new connection nor a disconnection of the sender comes between, whatever else happens,
    the next frame it sends on for the same network and recipient has a higher generation.  A device
    never has more than 128 generations recorded. *)
Lemma candidates_forwarded (actor : bytes) (f f' : Frame) (env env' : Ambient) (c c1 c2 : NetworkControlChannel)
    (es : list ChannelEvent) (d d' : ControlDispatch) (r r' : RoutedControlFrame) :
  handle_authenticated actor f env c = (Ok d, c1) -> r ∈ dispatch_events d -> type_ (frame r) = peer_candidates_forward ->
  (exists x a b, decode_candidates (payload f) = Ok x /\ x_sender x = actor /\
     authorize_peer_exchange actor x (service_ c1) = Ok true /\
     capabilities_ c !! actor = Some a /\ capabilities_ c !! x_recipient x = Some b /\
     exchanges (negotiated a) = true /\ exchanges (negotiated b) = true /\
     r = mk_routed_frame (x_recipient x) (mk_frame peer_candidates_forward 0 (payload f))) /\
  (Forall (same_session actor) es ->
   handle_authenticated actor f' env' (foldl (fun c e => channel_step e c) c1 es) = (Ok d', c2) ->
   r' ∈ dispatch_events d' -> type_ (frame r') = peer_candidates_forward ->
   forall x x', decode_candidates (payload f) = Ok x -> decode_candidates (payload f') = Ok x' ->
   x_network_id x = x_network_id x' -> x_recipient x = x_recipient x' -> generation x < generation x') /\
  (channel_reachable c -> generations_ok c1).
Proof.
  intros H Hr Tr. destruct (forward_source _ _ _ _ _ _ _ H Hr Tr) as (x & c0 & Ec & Es & D & A & G & ->).
  rewrite Ec in G. rewrite Es in A. pose proof G as G'. apply claim_generation_spec in G' as (a & b & Ha & Hb & Xa & Xb & _ & Ec1).
  split_and!.
  - exists x, a, b. split_and!; try done. unfold authorize_peer_exchange in A.
    destruct (_ || _) eqn:E in A; [done|]. by bool_prop.
  - intros F H' Hr' Tr' y y' Dy Dy' En Er. rewrite D in Dy. injection Dy as <-.
    destruct (forward_source _ _ _ _ _ _ _ H' Hr' Tr') as (x' & c0' & Ec' & _ & D' & _ & G2 & _). rewrite D' in Dy'. injection Dy' as <-.
    rewrite Ec' in G2. apply claim_generation_spec in G2 as (a' & b' & Ha' & _ & _ & _ & Lt & _).
    destruct (session_generations_run actor es c1 F (x_network_id x) (x_recipient x) (generation x)) as (g & Hg & Le).
    { unfold generation_of. rewrite Ec1, lookup_insert_eq. cbn. apply lookup_insert_eq. }
    unfold generation_of in Hg. rewrite Ha' in Hg. cbn in Hg. rewrite <- En, <- Er, Hg in Lt. lia.
  - intros Rc. change c1 with (snd (Ok d, c1)). rewrite <- H.
    apply (generations_bounded (channel_step (ce_frame actor f env) c)). by apply cr_step.
Qed.

(** C13: What the channel passes on.  A peer state that carries the policy of a managed network is sent, as an update
    or as an answer, only to a device that negotiated managed networks on its present session: to the requester
    and in the updates a request causes, on connecting, on disconnecting and in the initial states.  A
    candidate frame is sent on only for an authorized exchange whose sender is the connection's device, between
    two devices that negotiated candidate generations, unchanged and to the recipient it names; as long as neither a
    new connection nor a disconnection of the sender comes between, whatever else happens, the next frame sent on
    for the same network and recipient has a higher generation.  A device never has more than 128 generations
    recorded. *)
Theorem channel_disclosure (actor session_id : bytes) (f f' : Frame) (key : SignedDeviceKey) (env env' : Ambient)
    (c c1 c2 : NetworkControlChannel) (es : list ChannelEvent) (d d' : ControlDispatch) (r r' : RoutedControlFrame)
    (fs : list RoutedControlFrame) :
  (handle_authenticated actor f env c = (Ok d, c1) ->
     policy_gated (capabilities_ c1) actor (response d) /\
     Forall (fun f => policy_gated (capabilities_ c1) (recipient_device_id f) (frame f)) (dispatch_events d)) /\
  (note_authenticated actor session_id key env c = (Ok fs, c1) \/ note_disconnected actor session_id c = (Ok fs, c1) \/
   (initial_peer_states actor c = Ok fs /\ c1 = c) ->
     Forall (fun f => policy_gated (capabilities_ c1) (recipient_device_id f) (frame f)) fs) /\
  (handle_authenticated actor f env c = (Ok d, c1) -> r ∈ dispatch_events d -> type_ (frame r) = peer_candidates_forward ->
  (exists x a b, decode_candidates (payload f) = Ok x /\ x_sender x = actor /\
     authorize_peer_exchange actor x (service_ c1) = Ok true /\
     capabilities_ c !! actor = Some a /\ capabilities_ c !! x_recipient x = Some b /\
     exchanges (negotiated a) = true /\ exchanges (negotiated b) = true /\
     r = mk_routed_frame (x_recipient x) (mk_frame peer_candidates_forward 0 (payload f))) /\
  (Forall (same_session actor) es ->
   handle_authenticated actor f' env' (foldl (fun c e => channel_step e c) c1 es) = (Ok d', c2) ->
   r' ∈ dispatch_events d' -> type_ (frame r') = peer_candidates_forward ->
   forall x x', decode_candidates (payload f) = Ok x -> decode_candidates (payload f') = Ok x' ->
   x_network_id x = x_network_id x' -> x_recipient x = x_recipient x' -> generation x < generation x') /\
  (channel_reachable c -> generations_ok c1)).
Proof.
  destruct (policies_withheld actor session_id f key env c c1 d fs) as [P1 P2]. split_and!; [done|done|].
  apply candidates_forwarded.
Qed.
End Theorems.
