(* ===== verification/ChannelScenario.v ===== *)
(** * A running control channel

    The relay of [ServiceScenario] seen from its connections: owner and guest reconnect,
    negotiate capabilities and exchange candidates. *)
From S2P Require Import Prelude Wire Codec Capabilities NetworkPolicy NetworkMessages PacketMessages Crypto.
From S2P Require Import RelayStore StoreInvariant Candidates NetworkService UserAccess NetworkManagement JoinTarget.
From S2P Require Import ServiceAccess ServiceSafety ServiceScenario ControlChannel.

#[local] Instance plain_hash : PasswordHash := {| scrypt password salt := Some (take 32 (password ++ replicate 32 x00)) |}.
#[local] Existing Instance toy_crypto.

Definition amb : Ambient := mk_ambient 1000 1000 1000 20 no_ids no_draw.
Definition step (e : ChannelEvent) (c : NetworkControlChannel) : NetworkControlChannel := channel_step (C := toy_crypto) e c.

Definition offer_frame : Frame :=
  mk_frame network_list_request 5 (match encode_capability_offer default_offer with Ok bs => bs | Throw _ => [] end).
Definition ch_start : NetworkControlChannel := mk_channel svc_joined ∅.
Definition ch_owner : NetworkControlChannel := step (ce_authenticated owner_id session (toy_signed_key owner_id) amb) ch_start.
Definition ch_guest : NetworkControlChannel := step (ce_authenticated guest_id session (toy_signed_key guest_id) amb) ch_owner.
Definition ch_half : NetworkControlChannel := step (ce_frame owner_id offer_frame amb) ch_guest.
Definition ch_ready : NetworkControlChannel := step (ce_frame guest_id offer_frame amb) ch_half.

Definition exchange (generation : Z) : CandidateExchange :=
  mk_exchange home_id owner_id guest_id owner_id guest_id (key_epoch_for (service_ ch_ready) home_id) generation 0 5000
    [mk_candidate (mk_endpoint 0x0a000005 4000) Candidates.host 7].
Definition exchange_frame (generation : Z) : Frame :=
  mk_frame peer_candidates_send 9 (match encode_candidates (exchange generation) with Ok bs => bs | Throw _ => [] end).
Definition forwarded (generation : Z) : RoutedControlFrame :=
  mk_routed_frame guest_id (mk_frame peer_candidates_forward 0 (payload (exchange_frame generation))).
Definition acknowledged (generation : Z) : ControlDispatch :=
  mk_dispatch (mk_frame peer_candidates_ack 9 []) [forwarded generation].

Definition ch_sent : NetworkControlChannel := step (ce_frame owner_id (exchange_frame 2) amb) ch_ready.
Definition ch_again : NetworkControlChannel := step (ce_frame owner_id (exchange_frame 2) amb) ch_sent.

Lemma result_and_rest {A B} (p : A * B) a : fst p = a -> p = (a, snd p).
Proof. destruct p. by intros <-. Qed.

Lemma ch_start_reachable : channel_reachable (C := toy_crypto) ch_start.
Proof. apply cr_start, svc_joined_reachable. Defined.

Lemma channel_refines_service_witness :
  service_reachable (C := toy_crypto) (service_ (step (ce_authenticated owner_id session (toy_signed_key owner_id) amb) ch_start)).
Proof.
  exact (proj2 (proj2 (proj2 (channel_refines_service (C := toy_crypto) ch_start
    (ce_authenticated owner_id session (toy_signed_key owner_id) amb))) ch_start_reachable)).
Defined.

Lemma control_channel_answers_witness :
  fst (handle_authenticated owner_id (exchange_frame 2) amb ch_ready) = Ok (acknowledged 2) /\
  type_ (response (acknowledged 2)) ∈ response_types peer_candidates_send.
Proof.
  assert (E : fst (handle_authenticated owner_id (exchange_frame 2) amb ch_ready) = Ok (acknowledged 2)) by (vm_compute; reflexivity).
  split; [exact E|].
  exact (proj1 (proj2 (proj2 (control_channel_answers owner_id (exchange_frame 2) amb ch_ready _ _ (result_and_rest _ _ E))))).
Defined.


Lemma channel_disclosure_witness :
  policy_gated (capabilities_ (snd (handle_authenticated owner_id (exchange_frame 2) amb ch_ready))) owner_id (response (acknowledged 2)) /\
  x_sender (exchange 2) = owner_id /\
  (forall x x', decode_candidates (payload (exchange_frame 2)) = Ok x -> decode_candidates (payload (exchange_frame 3)) = Ok x' ->
     x_network_id x = x_network_id x' -> x_recipient x = x_recipient x' -> generation x < generation x').
Proof.
  pose (es := [ce_frame owner_id (exchange_frame 2) amb]).
  assert (E : fst (handle_authenticated owner_id (exchange_frame 2) amb ch_ready) = Ok (acknowledged 2)) by (vm_compute; reflexivity).
  pose (c1 := snd (handle_authenticated owner_id (exchange_frame 2) amb ch_ready)).
  pose (last := handle_authenticated owner_id (exchange_frame 3) amb (foldl (fun c e => channel_step e c) c1 es)).
  assert (E' : fst last = Ok (acknowledged 3)) by (vm_compute; reflexivity).
  destruct (channel_disclosure owner_id session (exchange_frame 2) (exchange_frame 3) (toy_signed_key owner_id) amb amb ch_ready c1 (snd last)
    es (acknowledged 2) (acknowledged 3) (forwarded 2) (forwarded 3) []) as (P & _ & O).
  split; [exact (proj1 (P (result_and_rest _ _ E)))|]. split; [reflexivity|].
  destruct (O (result_and_rest _ _ E)) as (_ & O' & _); [by left|reflexivity|]. clear O. rename O' into O.
  apply O; [by repeat constructor|exact (result_and_rest _ _ E')|by left|reflexivity].
Defined.
