(* ===== verification/Stun.v ===== *)
(** * Server-reflexive candidates

    p2p/stun.hpp and .cpp: the binding request, the parser of the binding response and what is
    made of a datagram that arrives while waiting for it.  The loop around it is in
    [LocalCandidates]; the transaction id [RAND_bytes] draws is an argument. *)
From S2P Require Import Prelude Wire Candidates.

Definition cookie : Z := 0x2112a442.

Definition new_stun_transaction (draw : option bytes) : result bytes :=
  match draw with Some t => Ok t | None => Throw runtime_error end.

Definition stun_binding_request (t : bytes) : bytes := put_be 2 0x0001 ++ put_be 2 0 ++ put_be 4 cookie ++ t.

(** The value of an XOR-MAPPED-ADDRESS attribute. *)
Definition read_mapped (mapped : option Endpoint) (length : Z) (value : bytes) : result Endpoint :=
  check! negb (match mapped with Some _ => true | None => false end || negb (length =? 8)) else invalid_argument in
  let* (reserved, a) := BinaryReader.get 1 value in
  check! reserved =? 0 else invalid_argument in
  let* (family, a) := BinaryReader.get 1 a in
  check! family =? 1 else invalid_argument in
  let* (port, a) := BinaryReader.get 2 a in
  let* (ipv4, a) := BinaryReader.get 4 a in
  let e := mk_endpoint (Z.lxor ipv4 cookie) (Z.lxor port (Z.shiftr cookie 16)) in
  check! usable_endpoint e true else invalid_argument in
  Ok e.

(** The loop over the attributes; [None] is running out of fuel. *)
Fixpoint read_attributes (fuel : nat) (size offset : Z) (r : BinaryReader.t) (mapped : option Endpoint)
    : option (result (option Endpoint * BinaryReader.t)) :=
  match fuel with
  | O => None
  | S fuel =>
      if negb (offset <? size) then Some (Ok (mapped, r))
      else
        match (let* (type, r) := BinaryReader.get 2 r in
               let* (length, r) := BinaryReader.get 2 r in
               let* (value, r) := BinaryReader.bytes_ length r in
               let* (_, r) := BinaryReader.bytes_ ((4 - length mod 4) mod 4) r in
               let offset := offset + (4 + Z.land (length + 3) 0xfffffffc) in
               if type =? 0x0020 then let* e := read_mapped mapped length value in Ok (Some e, offset, r)
               else Ok (mapped, offset, r)) with
        | Throw e => Some (Throw e)
        | Ok (mapped, offset, r) => read_attributes fuel size offset r mapped
        end
  end.

(** The checks before the loop; what is left is the attributes. *)
Definition stun_header (b t : bytes) : result BinaryReader.t :=
    check! negb ((len b <? 20) || (len b >? 1200)) else invalid_argument in
    let* (kind, r) := BinaryReader.get 2 b in
    check! kind =? 0x0101 else invalid_argument in
    let* (size, r) := BinaryReader.get 2 r in
    check! (size mod 4 =? 0) && (size =? len b - 20) else invalid_argument in
    let* (magic, r) := BinaryReader.get 4 r in
    check! magic =? cookie else invalid_argument in
    let* (id, r) := BinaryReader.array 12 r in
    check! bool_decide (id = t) else invalid_argument in
    Ok r.

(** Each attribute takes at least four bytes, so [length b] rounds are more than enough. *)
Definition parse_stun_binding_response (b t : bytes) : option (result Endpoint) :=
  match stun_header b t with
  | Throw e => Some (Throw e)
  | Ok r =>
      match read_attributes (S (length b)) (len b) 20 r None with
      | None => None
      | Some attributes =>
          Some (let* (mapped, r) := attributes in
                let* _ := BinaryReader.finish r in
                match mapped with Some e => Ok e | None => Throw invalid_argument end)
      end
  end.

(** A datagram received while waiting for the answer of [server]: an unexpected or invalid one is
    ignored. *)
Definition stun_answer (server source : Endpoint) (b t : bytes) : option Candidate :=
  if negb (bool_decide (source = server)) then None
  else
    match parse_stun_binding_response b t with
    | Some (Ok e) => Some (mk_candidate e server_reflexive (Z.lor (Z.shiftl 100 24) 255))
    | _ => None
    end.

(** ** The messages the parser accepts *)

Record attribute := mk_attribute { a_type : Z; a_value : bytes; a_padding : bytes }.

Definition wf_attribute (a : attribute) : Prop :=
  word 2 (a_type a) /\ word 2 (len (a_value a)) /\ len (a_padding a) = (4 - len (a_value a) mod 4) mod 4.
Definition put_attribute (a : attribute) : bytes :=
  put_be 2 (a_type a) ++ put_be 2 (len (a_value a)) ++ a_value a ++ a_padding a.
Definition mapped_value (e : Endpoint) : bytes :=
  put_be 1 0 ++ put_be 1 1 ++ put_be 2 (Z.lxor (ep_port e) (Z.shiftr cookie 16)) ++ put_be 4 (Z.lxor (ep_ipv4 e) cookie).

(** Exactly one of the attributes gives an address, and it is [e]. *)
Inductive names (e : Endpoint) : list attribute -> Prop :=
| names_here pad l : Forall (fun a => a_type a <> 0x0020) l -> names e (mk_attribute 0x0020 (mapped_value e) pad :: l)
| names_later a l : a_type a <> 0x0020 -> names e l -> names e (a :: l).

Definition stun_response (t : bytes) (attributes : list attribute) : bytes :=
  let body := concat (map put_attribute attributes) in
  put_be 2 0x0101 ++ put_be 2 (len body) ++ put_be 4 cookie ++ t ++ body.

(** ** Lemmas *)

Lemma round_up v : 0 <= v < 2 ^ 16 -> Z.land (v + 3) 0xfffffffc = v + (4 - v mod 4) mod 4.
Proof.
  intros H. assert (E : Z.land (v + 3) 0xfffffffc = (v + 3) / 4 * 4).
  { replace ((v + 3) / 4 * 4) with (Z.shiftl (Z.shiftr (v + 3) 2) 2) by (rewrite Z.shiftl_mul_pow2, Z.shiftr_div_pow2 by lia; reflexivity).
    apply Z.bits_inj'. intros i Hi. rewrite Z.land_spec. change 0xfffffffc with (Z.shiftl (Z.ones 30) 2).
    destruct (Z.ltb_spec i 2) as [L|L].
    - rewrite !Z.shiftl_spec_low by lia. apply andb_false_r.
    - rewrite !Z.shiftl_spec, Z.shiftr_spec by lia. rewrite Z.sub_add. destruct (Z.ltb_spec (i - 2) 30).
      + rewrite Z.ones_spec_low by lia. apply andb_true_r.
      + rewrite Z.ones_spec_high by lia. rewrite andb_false_r. symmetry. apply Z.bits_above_log2; [lia|].
        apply Z.log2_lt_pow2; [lia|]. assert (2 ^ 16 + 3 < 2 ^ 32) by reflexivity.
        pose proof (Z.pow_le_mono_r 2 32 i). lia. }
  rewrite E. Z.div_mod_to_equations. lia.
Qed.

Lemma lxor_cancel a b : Z.lxor (Z.lxor a b) b = a.
Proof. by rewrite Z.lxor_assoc, Z.lxor_nilpotent, Z.lxor_0_r. Qed.
Lemma word_lxor w a b : (0 < w)%nat -> word w a -> word w b -> word w (Z.lxor a b).
Proof.
  intros Hw Wa Wb. unfold word in *. assert (0 <= Z.lxor a b) by (apply Z.lxor_nonneg; lia). split; [done|].
  destruct (Z.eq_dec (Z.lxor a b) 0) as [->|N]; [apply Z.pow_pos_nonneg; lia|].
  apply Z.log2_lt_pow2; [lia|]. pose proof (Z.log2_lxor a b ltac:(lia) ltac:(lia)).
  assert (L : forall x, 0 <= x < 2 ^ (8 * Z.of_nat w) -> Z.log2 x < 8 * Z.of_nat w).
  { intros x Hx. destruct (Z.eq_dec x 0) as [->|]; [cbn; lia|]. apply Z.log2_lt_pow2; lia. }
  pose proof (L a Wa). pose proof (L b Wb). lia.
Qed.

Definition wf_endpoint (e : Endpoint) : Prop := word 4 (ep_ipv4 e) /\ word 2 (ep_port e).

Lemma read_mapped_spec mapped v e :
  word 2 (len v) ->
  read_mapped mapped (len v) v = Ok e <->
  mapped = None /\ v = mapped_value e /\ wf_endpoint e /\ usable_endpoint e true = true.
Proof.
  intros W. unfold read_mapped, mapped_value. split.
  - intros H. ok_inv H. bool_prop. destruct mapped; [done|]. br_inv. subst e. cbn [ep_port ep_ipv4].
    rewrite !lxor_cancel. rewrite !len_app in *. unfold len in *. rewrite !length_put_be in *.
    split_and!; try done; [|split; cbn; apply word_lxor; try done; try lia; vm_compute; split; congruence].
    subst. do 3 f_equal. match goal with |- _ ++ ?r = _ => assert (r = []) as -> by (apply length_zero_iff_nil; lia) end.
    by rewrite app_nil_r.
  - intros (-> & E & [W4 W2] & U). rewrite E. cbn [orb].
    assert (L : len (put_be 1 0 ++ put_be 1 1 ++ put_be 2 (Z.lxor (ep_port e) (Z.shiftr cookie 16)) ++ put_be 4 (Z.lxor (ep_ipv4 e) cookie)) = 8)
      by (rewrite !len_app; unfold len; rewrite !length_put_be; reflexivity).
    rewrite L. cbn [Z.eqb Pos.eqb negb]. rewrite !BinaryReader.get_app by (words; lia). cbn [Z.eqb Pos.eqb].
    assert (W2' : word 2 (Z.lxor (ep_port e) (Z.shiftr cookie 16))) by (apply word_lxor; [lia|done|vm_compute; split; congruence]).
    assert (W4' : word 4 (Z.lxor (ep_ipv4 e) cookie)) by (apply word_lxor; [lia|done|vm_compute; split; congruence]).
    rewrite !BinaryReader.get_app by done. rewrite <- (app_nil_r (put_be 4 _)), BinaryReader.get_app by done.
    rewrite !lxor_cancel. destruct e as [ip port]. cbn [ep_ipv4 ep_port]. cbn -[usable_endpoint] in U. by rewrite U.
Qed.

(** What the loop makes of a list of attributes. *)
Fixpoint outcome (mapped : option Endpoint) (l : list attribute) (m : option Endpoint) : Prop :=
  match l with
  | [] => m = mapped
  | a :: l =>
      if a_type a =? 0x0020
      then exists e, mapped = None /\ a_value a = mapped_value e /\ wf_endpoint e /\ usable_endpoint e true = true /\ outcome (Some e) l m
      else outcome mapped l m
  end.

Lemma put_attribute_len a : wf_attribute a -> len (put_attribute a) = 4 + Z.land (len (a_value a) + 3) 0xfffffffc.
Proof.
  intros (_ & W & P). unfold put_attribute. rewrite !len_app, P, round_up by (by words).
  unfold len. rewrite !length_put_be. lia.
Qed.

Lemma mapped_value_inj e e' : wf_endpoint e -> wf_endpoint e' -> mapped_value e = mapped_value e' -> e = e'.
Proof.
  intros [W4 W2] [W4' W2'] H.
  assert (K : forall x, wf_endpoint x -> word 2 (Z.lxor (ep_port x) (Z.shiftr cookie 16)) /\ word 4 (Z.lxor (ep_ipv4 x) cookie))
    by (intros x [? ?]; split; (apply word_lxor; [lia|done|vm_compute; split; congruence])).
  destruct (K e) as [K2 K4], (K e') as [K2' K4']; [done..|]. unfold mapped_value in H.
  do 2 (apply app_inj_1 in H as [_ H]; [|by rewrite !length_put_be]). apply app_inj_1 in H as [Hp Hi]; [|by rewrite !length_put_be].
  apply (f_equal (get_be 2)) in Hp. apply (f_equal (get_be 4)) in Hi. rewrite !get_put_be in Hp, Hi by done.
  apply (f_equal (fun v => Z.lxor v (Z.shiftr cookie 16))) in Hp. apply (f_equal (fun v => Z.lxor v cookie)) in Hi.
  rewrite !lxor_cancel in Hp, Hi. destruct e, e'. cbn in *. by subst.
Qed.

Lemma put_attribute_inj a b x y :
  wf_attribute a -> wf_attribute b -> put_attribute a ++ x = put_attribute b ++ y -> a = b /\ x = y.
Proof.
  intros (Wa & La & Pa) (Wb & Lb & Pb) H. unfold put_attribute in H. rewrite <- !app_assoc in H.
  apply (f_equal (BinaryReader.get 2)) in H. rewrite !BinaryReader.get_app in H by done. apply Ok_inj, pair_equal_spec in H as [Et H].
  apply (f_equal (BinaryReader.get 2)) in H. rewrite !BinaryReader.get_app in H by done. apply Ok_inj, pair_equal_spec in H as [El H].
  apply app_inj_1 in H as [Ev H]; [|unfold len in El; lia].
  apply app_inj_1 in H as [Ep ->]; [|rewrite El in Pa; unfold len in *; lia].
  split; [|done]. destruct a, b. cbn in *. by subst.
Qed.

Lemma read_attributes_spec fuel size offset r mapped :
  size - offset = len r -> (length r < fuel)%nat ->
  exists res, read_attributes fuel size offset r mapped = Some res /\
    forall m r', res = Ok (m, r') <->
      r' = [] /\ exists l, Forall wf_attribute l /\ r = concat (map put_attribute l) /\ outcome mapped l m.
Proof.
  revert offset r mapped. induction fuel as [|fuel IH]; intros offset r mapped S F; [lia|]. cbn [read_attributes].
  destruct (Z.ltb_spec offset size) as [Lt|Ge]; cbn [negb].
  2:{ assert (r = []) as -> by (destruct r; [done|rewrite len_cons in S; pose proof (len_nonneg r); lia]).
    eexists. split; [done|]. intros m r'. split.
    - intros [= <- <-]. split; [done|]. by exists [].
    - intros (-> & l & Wl & E & O). destruct l as [|a l]; [cbn in O; by subst m|]. exfalso.
      apply (f_equal length) in E. cbn in E. unfold put_attribute in E. rewrite !length_app, length_put_be in E. lia. }
  destruct (let* (type, r) := BinaryReader.get 2 r in _) as [[[mapped1 offset1] r1]|x] eqn:E.
  - assert (K : exists a, wf_attribute a /\ r = put_attribute a ++ r1 /\ offset1 = offset + len (put_attribute a) /\
      forall l m, outcome mapped (a :: l) m <-> outcome mapped1 l m).
    { ok_inv E. rename x0 into length. br_inv.
      match goal with H : BinaryReader.bytes_ length _ = Ok _ |- _ => apply BinaryReader.bytes_inv in H as [-> Lv] end.
      match goal with H : BinaryReader.bytes_ _ _ = Ok _ |- _ => apply BinaryReader.bytes_inv in H as [-> Lp] end.
      match goal with W : word 2 length |- _ => rename W into Wl; pose proof Wl as Wl'; words end.
      specialize (Lv ltac:(lia)). specialize (Lp ltac:(Z.div_mod_to_equations; lia)). cbv zeta in E. subst length.
      match goal with |- context [put_be 2 ?t ++ _ ++ ?v ++ ?p ++ _] => exists (mk_attribute t v p);
        assert (Wa : wf_attribute (mk_attribute t v p)) by (split_and!; cbn; [done|by words|done]) end.
      rewrite (put_attribute_len _ Wa). cbn [a_value] in *. cbn [outcome a_type a_value].
      destruct (x =? 0x0020) eqn:T.
      - ok_inv E. injection E as <- <- <-. split; [done|]. unfold put_attribute. rewrite <- !app_assoc.
        split; [done|]. split; [done|]. intros l m.
        match goal with R : read_mapped _ _ _ = Ok ?e |- _ => apply read_mapped_spec in R as (-> & Ev & We & U); [|by words]; rename e into e0 end.
        split; [|by exists e0]. intros (e' & _ & Ev' & We' & _ & O).
        assert (e' = e0) as -> by (apply mapped_value_inj; congruence). done.
      - injection E as <- <- <-. split; [done|]. unfold put_attribute. rewrite <- !app_assoc. done. }
    destruct K as (a & Wa & -> & -> & O). rewrite len_app in S. rewrite length_app in F.
    pose proof (len_nonneg (put_attribute a)). 
    assert (P : (0 < length (put_attribute a))%nat) by (unfold put_attribute; rewrite length_app, length_put_be; lia).
    destruct (IH (offset + len (put_attribute a)) r1 mapped1) as (res & R & Sp); [lia|lia|].
    exists res. split; [done|]. intros m r'. rewrite Sp. split; intros (-> & l & Wl & El & Ol); (split; [done|]).
    + subst r1. exists (a :: l). split_and!; [by constructor|done|by apply O].
    + exists (tail l). destruct l as [|b l]; [apply (f_equal length) in El; rewrite length_app in El; cbn in El; lia|].
      apply Forall_cons in Wl as [Wb Wl]. cbn [map concat] in El. apply put_attribute_inj in El as [<- ->]; [|done..].
      split_and!; [done..|]. by apply O.
  - eexists. split; [done|]. intros m r'. split; [done|]. intros (-> & l & Wl & -> & O). exfalso.
    destruct l as [|a l]; [unfold len in S; cbn in S; lia|]. apply Forall_cons in Wl as [(Wt & Wv & Wp) Wl]. cbn [map concat] in E.
    unfold put_attribute in E. rewrite <- !app_assoc in E. rewrite !BinaryReader.get_app in E by done.
    rewrite !BinaryReader.bytes_app in E by (rewrite ?Wp; done). cbn [outcome] in O.
    destruct (a_type a =? 0x0020); [|done]. destruct O as (e & Hm & Hv & We & U & _).
    by rewrite (proj2 (read_mapped_spec mapped (a_value a) e Wv)) in E.
Qed.

Lemma outcome_names l e : outcome None l (Some e) <-> names e l /\ wf_endpoint e /\ usable_endpoint e true = true.
Proof.
  assert (S : forall l x m, outcome (Some x) l m <-> m = Some x /\ Forall (fun a => a_type a <> 0x0020) l).
  { clear. intros l x m. induction l as [|a l IH]; cbn [outcome]; [rewrite Forall_nil; tauto|]. rewrite Forall_cons.
    destruct (Z.eqb_spec (a_type a) 0x0020) as [E|E]; [split; [by intros (? & [=] & _)|tauto]|]. rewrite IH. tauto. }
  induction l as [|a l IH]; cbn [outcome]; [split; [done|intros [H _]; inversion H]|].
  destruct (Z.eqb_spec (a_type a) 0x0020) as [E|E].
  - split.
    + intros (e' & _ & V & W & U & O). apply S in O as [[= <-] F]. split; [|done]. destruct a. cbn in *. subst. by constructor.
    + intros (N & W & U). inversion N; subst; [|done]. exists e. split_and!; try done. by apply S.
  - rewrite IH. split; intros (N & WU); (split; [|done]); [by constructor|]. inversion N; subst; [|done]. by destruct E.
Qed.

Lemma attributes_mod l : Forall wf_attribute l -> len (concat (map put_attribute l)) mod 4 = 0.
Proof.
  induction 1 as [|a l W _ IH]; [done|]. cbn [map concat]. rewrite len_app, put_attribute_len, round_up by (done || destruct W as (_ & ? & _); by words).
  Z.div_mod_to_equations. lia.
Qed.

Definition throws_invalid {A} (r : result A) : Prop := forall x, r = Throw x -> x = invalid_argument.

Lemma bytes_throws n d : throws_invalid (BinaryReader.bytes_ n d).
Proof. intros x. unfold BinaryReader.bytes_. destruct (_ >? _); congruence. Qed.
Lemma get_throws n d : throws_invalid (BinaryReader.get n d).
Proof.
  intros x. unfold BinaryReader.get. destruct (BinaryReader.bytes_ _ d) as [[]|] eqn:E; [done|]. intros [= <-]. by eapply bytes_throws.
Qed.
Lemma throws_bind {A B} (r : result A) (k : A -> result B) :
  throws_invalid r -> (forall a, throws_invalid (k a)) -> throws_invalid (let* a := r in k a).
Proof. intros H K x. destruct r; [apply K|]. intros [= <-]. by apply H. Qed.
Lemma throws_check {A} (b : bool) (k : result A) : throws_invalid k -> throws_invalid (check! b else invalid_argument in k).
Proof. destruct b; [done|]. intros _ x. congruence. Qed.
Lemma throws_ok {A} (a : A) : throws_invalid (Ok a).
Proof. done. Qed.
#[local] Hint Resolve bytes_throws get_throws throws_ok : wire.

Ltac throws :=
  repeat first
    [ solve [auto with wire]
    | apply throws_check
    | match goal with |- throws_invalid (match ?r with Ok _ => _ | Throw _ => _ end) => apply (throws_bind r); [|intros ?] end
    | match goal with |- throws_invalid (match ?p with (_, _) => _ end) => destruct p end
    | progress cbv zeta ].

Lemma read_mapped_throws m l v : throws_invalid (read_mapped m l v).
Proof. unfold read_mapped. throws. Qed.

Lemma read_attributes_throws fuel size offset r m res : read_attributes fuel size offset r m = Some res -> throws_invalid res.
Proof.
  revert offset r m. induction fuel as [|fuel IH]; intros offset r m; cbn [read_attributes]; [done|].
  destruct (negb _); [intros [= <-]; throws|].
  destruct (let* (type, r) := BinaryReader.get 2 r in _) as [[[m1 o1] r1]|x] eqn:E; [apply IH|]. intros [= <-] y [= <-].
  clear IH. revert x E. match goal with |- forall x, ?r = Throw x -> _ => change (throws_invalid r) end. throws.
  destruct (_ =? _); throws.
Qed.

Lemma stun_header_throws b t : throws_invalid (stun_header b t).
Proof. unfold stun_header, BinaryReader.array. throws. Qed.

Lemma stun_header_spec b t r :
  length t = 12%nat ->
  stun_header b t = Ok r <->
  b = put_be 2 0x0101 ++ put_be 2 (len r) ++ put_be 4 cookie ++ t ++ r /\ len b <= 1200 /\ len r mod 4 = 0.
Proof.
  intros Lt.
  assert (Sz : forall x y z, len (put_be 2 x ++ put_be 2 y ++ put_be 4 z ++ t ++ r) = 20 + len r)
    by (intros; rewrite !len_app; unfold len; rewrite !length_put_be, Lt; lia).
  unfold stun_header. split.
  - intros H. ok_inv H. bool_prop. subst r. br_inv. subst. rewrite Sz in *.
    match goal with E : ?x = 20 + len ?r - 20 |- _ => assert (x = len r) as -> by lia end. done.
  - intros (-> & L & Mo). rewrite Sz in *. pose proof (len_nonneg r).
    guard_true by (rewrite negb_true_iff, orb_false_iff, Z.ltb_ge, Z.gtb_ltb, Z.ltb_ge; lia).
    rewrite BinaryReader.get_app by (words; lia). cbn [Z.eqb Pos.eqb]. rewrite BinaryReader.get_app by (words; lia).
    guard_true by (rewrite Mo, andb_true_iff, !Z.eqb_eq; lia).
    rewrite BinaryReader.get_app by (vm_compute; split; congruence). rewrite Z.eqb_refl, BinaryReader.array_app by done.
    by rewrite bool_decide_eq_true_2.
Qed.

(** [b] is a binding success of at most 1200 bytes for the transaction [t], made of well-formed
    attributes of which exactly one is an XOR-MAPPED-ADDRESS, and that one names the usable
    endpoint [e]. *)
Definition binding_success (t b : bytes) (e : Endpoint) : Prop :=
  exists l, b = stun_response t l /\ len b <= 1200 /\ Forall wf_attribute l /\ names e l /\
    wf_endpoint e /\ usable_endpoint e true = true.

Lemma binding_response_exact (b t : bytes) (e : Endpoint) :
  length t = 12%nat ->
  is_Some (parse_stun_binding_response b t) /\
  (parse_stun_binding_response b t = Some (Ok e) <->
     binding_success t b e) /\
  (forall x, parse_stun_binding_response b t = Some (Throw x) -> x = invalid_argument).
Proof.
  intros Lt. unfold parse_stun_binding_response, binding_success. destruct (stun_header b t) as [r|x] eqn:H.
  - apply stun_header_spec in H as (Eb & Lb & Mo); [|done].
    assert (Sz : len b - 20 = len r) by (rewrite Eb, !len_app; unfold len; rewrite !length_put_be, Lt; lia).
    destruct (read_attributes_spec (S (length b)) (len b) 20 r None Sz) as (res & R & Sp); [unfold len in Sz; lia|].
    pose proof (read_attributes_throws _ _ _ _ _ _ R) as Tr. rewrite R. split_and!.
    + by eexists.
    + split.
      * intros X. injection X as X. destruct res as [[m r']|]; [|done]. destruct (proj1 (Sp m r') eq_refl) as (-> & l & W & -> & O).
        destruct m; [|done]. injection X as ->. apply outcome_names in O as (N & We & U). by exists l.
      * intros (l & El & _ & W & N & We & U). assert (r = concat (map put_attribute l)) as ->.
        { rewrite Eb in El. unfold stun_response in El. do 4 (apply app_inj_1 in El as [_ El]; [|by rewrite ?length_put_be]). done. }
        destruct (Sp (Some e) []) as [_ X]. rewrite X; [done|]. split; [done|]. exists l. by rewrite outcome_names.
    + intros x X. injection X as X. revert X. apply throws_bind; [exact Tr|]. intros [m r']. apply throws_bind.
      * intros y. destruct r'; [done|]. by intros [= <-].
      * intros _. destruct m; [done|]. intros y. congruence.
  - split_and!; [by eexists|split; [done|]|intros y [= <-]; by eapply stun_header_throws].
    intros (l & -> & Lb & W & _). exfalso. assert (X : stun_header (stun_response t l) t = Ok (concat (map put_attribute l))).
    { apply stun_header_spec; [done|]. split_and!; [done|done|by apply attributes_mod]. }
    by rewrite X in H.
Qed.

(** C30: the binding response parser is exact, and so is the use made of it.  It terminates on every
    datagram; it accepts one with the endpoint [e] if and only if the datagram is a binding success
    of at most 1200 bytes for this transaction, made of well-formed attributes of which exactly one
    is an XOR-MAPPED-ADDRESS, and that one names the usable IPv4 endpoint [e]; everything else is an
    [invalid_argument], the exception the caller ignores.  A datagram yields a candidate exactly when
    it came from the STUN server's own address and port and is such a response, and the candidate
    is then the server-reflexive endpoint it names, of priority 100 * 2^24 + 255. *)
Theorem stun_response_exact (b t : bytes) (e : Endpoint) :
  length t = 12%nat ->
  is_Some (parse_stun_binding_response b t) /\
  (parse_stun_binding_response b t = Some (Ok e) <-> binding_success t b e) /\
  (forall x, parse_stun_binding_response b t = Some (Throw x) -> x = invalid_argument) /\
  (forall server source c, stun_answer server source b t = Some c <->
     source = server /\ exists e', binding_success t b e' /\ c = mk_candidate e' server_reflexive (100 * 2 ^ 24 + 255)).
Proof.
  intros Lt. destruct (binding_response_exact b t e Lt) as (T & P & X). split_and!; [done..|].
  intros server source c. unfold stun_answer. destruct (bool_decide_reflect (source = server)) as [->|]; cbn [negb]; [|naive_solver].
  split.
  - destruct (parse_stun_binding_response b t) as [[e'|]|] eqn:Q; [|done..]. intros [= <-]. split; [done|]. exists e'.
    split; [by apply (binding_response_exact b t e' Lt)|done].
  - intros (_ & e' & B & ->). by apply (binding_response_exact b t e' Lt) in B as ->.
Qed.

(** A response with an unknown attribute before the address 192.0.2.7:4242. *)
Definition sample_transaction : bytes := replicate 12 x09.
Definition sample_attributes : list attribute :=
  [mk_attribute 0x8022 [x61; x62] [x00; x00]; mk_attribute 0x0020 (mapped_value (mk_endpoint 0xc0000207 4242)) []].

Lemma stun_response_exact_witness :
  parse_stun_binding_response (stun_response sample_transaction sample_attributes) sample_transaction =
    Some (Ok (mk_endpoint 0xc0000207 4242)) /\
  ~ stun_answer (mk_endpoint 0xc0000201 3478) (mk_endpoint 0xc0000202 3478) (stun_response sample_transaction sample_attributes)
      sample_transaction = Some (mk_candidate (mk_endpoint 0xc0000207 4242) server_reflexive 1677721855).
Proof.
  destruct (stun_response_exact (stun_response sample_transaction sample_attributes) sample_transaction
    (mk_endpoint 0xc0000207 4242) eq_refl) as (_ & P & _ & A). split.
  - apply P. exists sample_attributes. split_and!; try (by vm_compute).
    + repeat constructor; vm_compute; congruence.
    + apply names_later; [by vm_compute|]. apply names_here. constructor.
  - intros C. apply A in C as [C _]. discriminate C.
Defined.
