(* ===== verification/Punch.v ===== *)
(** * Opening a direct path

    p2p/punch.hpp and .cpp: the probes two peers send each other's candidates until one is answered
    with a signed echo; p2p/peer_authorization.hpp and .cpp: whether a binding is covered by
    the present network state, and the proofs exchanged over the direct connection.  Signatures are
    those of [Crypto]; the clock (nanoseconds) and the nonce drawn are arguments; the socket loop
    [run_punch] is not modelled. *)
From S2P Require Import Prelude Wire NetworkPolicy NetworkMessages Crypto RoutedNetwork Candidates Handshake.

Record PeerBinding := mk_binding {
  b_network_id : bytes; b_key_epoch : Z; b_local_generation : Z; b_peer_generation : Z;
  b_local_device : bytes; b_peer_device : bytes; b_local_session : bytes; b_peer_session : bytes }.

#[global] Instance PeerBinding_eq_dec : EqDecision PeerBinding.
Proof. solve_decision. Defined.

Definition reversed (b : PeerBinding) : PeerBinding :=
  mk_binding (b_network_id b) (b_key_epoch b) (b_peer_generation b) (b_local_generation b)
    (b_peer_device b) (b_local_device b) (b_peer_session b) (b_local_session b).

Definition encode_binding (b : PeerBinding) : bytes :=
  b_network_id b ++ put_be 8 (b_key_epoch b) ++ put_be 8 (b_local_generation b) ++ put_be 8 (b_peer_generation b) ++
  b_local_device b ++ b_peer_device b ++ b_local_session b ++ b_peer_session b.

Definition decode_binding (bs : bytes) : result PeerBinding :=
  let* (network, r) := BinaryReader.array 16 bs in
  let* (epoch, r) := BinaryReader.get 8 r in
  let* (local_generation, r) := BinaryReader.get 8 r in
  let* (peer_generation, r) := BinaryReader.get 8 r in
  let* (local_device, r) := BinaryReader.array 32 r in
  let* (peer_device, r) := BinaryReader.array 32 r in
  let* (local_session, r) := BinaryReader.array 32 r in
  let* (peer_session, r) := BinaryReader.array 32 r in
  let* _ := BinaryReader.finish r in
  Ok (mk_binding network epoch local_generation peer_generation local_device peer_device local_session peer_session).

Definition wf_binding (b : PeerBinding) : Prop :=
  length (b_network_id b) = 16%nat /\ word 8 (b_key_epoch b) /\ word 8 (b_local_generation b) /\
  word 8 (b_peer_generation b) /\ length (b_local_device b) = 32%nat /\ length (b_peer_device b) = 32%nat /\
  length (b_local_session b) = 32%nat /\ length (b_peer_session b) = 32%nat.

Record ProbeDatagram := mk_probe { p_destination : Endpoint; p_bytes : bytes }.

Record PunchSession := mk_punch {
  u_identity : bytes; u_peer_key : SignedDeviceKey; u_binding : PeerBinding; u_remote : list Candidate;
  u_nonce : bytes; u_deadline : Z; u_next : Z; u_round : Z; u_sent : Z; u_responses : Z;
  u_selected : option Endpoint; u_verified : list Endpoint }.

Definition ms : Z := 1000000.
Definition max_probes : Z := 32.
Definition probe_magic : Z := 0x4c4c5031.
Definition probe_size : Z := 5 + 168 + 64 + 64.

Section Punch.
Context {C : Crypto}.

Definition identity_device_id (secret : bytes) : result bytes := make_device_id (ed25519_public secret).

(** The conditions of the constructor, up to the first that fails. *)
Definition punch_authorized (identity : bytes) (peer : SignedDeviceKey) (b : PeerBinding) (remote : list Candidate) : result bool :=
  let* id := identity_device_id identity in
  if negb (bool_decide (id = b_local_device b)) then Ok false
  else
    let* verified := verify_signed_device_key peer (b_peer_device b) in
    Ok (verified && bool_decide (encryption_public_key peer = b_peer_session b) && negb (b_key_epoch b =? 0) &&
        negb (b_local_generation b =? 0) && negb (b_peer_generation b =? 0) && negb (len remote =? 0) &&
        negb (len remote >? max_candidates)).

Definition new_punch (identity : bytes) (peer : SignedDeviceKey) (b : PeerBinding) (remote : list Candidate) (now : Z)
    (random : option bytes) : result PunchSession :=
  match random with
  | None => Throw runtime_error
  | Some nonce =>
      let* ok := punch_authorized identity peer b remote in
      check! ok else invalid_argument in
      check! forallb (fun c => usable_endpoint (endpoint c) true) remote else invalid_argument in
      Ok (mk_punch identity peer b remote nonce (now + 5000 * ms) now 0 0 0 None [])
  end.

(** The signed part of a probe or of its reply. *)
Definition probe_body (reply : bool) (b : PeerBinding) (nonce echo : bytes) : bytes :=
  put_be 4 probe_magic ++ put_be 1 (if reply then 2 else 1) ++ encode_binding b ++ nonce ++ echo.

Definition message (reply : bool) (echo : bytes) (s : PunchSession) : result bytes :=
  let body := probe_body reply (u_binding s) (u_nonce s) echo in
  let* signature := identity_sign (u_identity s) body in
  Ok (body ++ signature).

Definition finished (now : Z) (s : PunchSession) : bool :=
  match u_selected s with Some _ => true | None => now >=? u_deadline s end.

(** The loop over the candidates while probes are left. *)
Fixpoint send_probes (remote : list Candidate) (bs : bytes) (sent : Z) : list ProbeDatagram * Z :=
  match remote with
  | [] => ([], sent)
  | c :: remote =>
      if sent >=? max_probes then ([], sent)
      else let (ds, sent) := send_probes remote bs (sent + 1) in (mk_probe (endpoint c) bs :: ds, sent)
  end.

Definition set_counters (next round sent responses : Z) (s : PunchSession) : PunchSession :=
  mk_punch (u_identity s) (u_peer_key s) (u_binding s) (u_remote s) (u_nonce s) (u_deadline s) next round sent responses
    (u_selected s) (u_verified s).

Definition tick (now : Z) (s : PunchSession) : PunchSession * result (list ProbeDatagram) :=
  if finished now s || (now <? u_next s) || (u_sent s >=? max_probes) then (s, Ok [])
  else
    match message false (zeros nonce_size) s with
    | Throw e => (s, Throw e)
    | Ok bs =>
        let (ds, sent) := send_probes (u_remote s) bs (u_sent s) in
        (set_counters (now + 50 * Z.shiftl 1 (Z.min (u_round s) 4) * ms) ((u_round s + 1) mod 2 ^ 32) sent (u_responses s) s, Ok ds)
    end.

(** The [try] of [receive] up to the use of the message: its kind, nonce and echo; [Ok None] and
    [Throw] both end the call with nothing. *)
Definition read_probe (s : PunchSession) (bs : bytes) : result (option (Z * bytes * bytes)) :=
  let* (magic, r) := BinaryReader.get 4 bs in
  if negb (magic =? probe_magic) then Ok None
  else
    let* (kind, r) := BinaryReader.get 1 r in
    let* (binding, r) := BinaryReader.bytes_ 168 r in
    let* b := decode_binding binding in
    if negb (bool_decide (b = reversed (u_binding s))) then Ok None
    else
      let* (nonce, r) := BinaryReader.array 32 r in
      let* (echo, r) := BinaryReader.array 32 r in
      let* (signature, r) := BinaryReader.array 64 r in
      let* _ := BinaryReader.finish r in
      if negb (kind =? 1) && negb (kind =? 2) then Ok None
      else
        let* valid := verify_signature (identity_public_key (u_peer_key s)) (take (length bs - 64) bs) signature in
        if valid then Ok (Some (kind, nonce, echo)) else Ok None.

Definition select (source : Endpoint) (s : PunchSession) : PunchSession :=
  mk_punch (u_identity s) (u_peer_key s) (u_binding s) (u_remote s) (u_nonce s) (u_deadline s) (u_next s) (u_round s) (u_sent s)
    (u_responses s) (Some source)
    (if bool_decide (source ∈ u_verified s) then u_verified s else u_verified s ++ [source]).

Definition receive (source : Endpoint) (bs : bytes) (now : Z) (s : PunchSession) : PunchSession * option ProbeDatagram :=
  if (now >=? u_deadline s) || negb (len bs =? probe_size) || (u_responses s >=? max_probes) then (s, None)
  else if negb (existsb (fun c => bool_decide (endpoint c = source)) (u_remote s)) then (s, None)
  else
    match read_probe s bs with
    | Throw _ | Ok None => (s, None)
    | Ok (Some (kind, nonce, echo)) =>
        if kind =? 2 then (if bool_decide (echo = u_nonce s) then select source s else s, None)
        else
          let s := set_counters (u_next s) (u_round s) (u_sent s) (u_responses s + 1) s in
          match message true nonce s with
          | Throw _ => (s, None)
          | Ok reply => (s, Some (mk_probe source reply))
          end
    end.

(** ** Authorization of a peer *)

Definition binding_magic : Z := 0x4c4c4431.
Definition transcript (b : PeerBinding) (sender receiver : bytes) : bytes :=
  put_be 4 binding_magic ++ encode_binding b ++ sender ++ receiver.
Definition fresh (a b : bytes) : bool :=
  negb (bool_decide (a = zeros nonce_size)) && negb (bool_decide (b = zeros nonce_size)) && negb (bool_decide (a = b)).

(** The first network of the snapshot with the binding's id decides. *)
Fixpoint binding_covered (b : PeerBinding) (key : SignedDeviceKey) (local peer : Z) (l : list ActiveNetworkPacketState) : bool :=
  match l with
  | [] => false
  | n :: l =>
      let st := active_peers n in
      if negb (bool_decide (state_network_id st = b_network_id b)) then binding_covered b key local peer l
      else if match policy st with
              | Some p => negb (policy_allows p (b_local_device b) (b_peer_device b))
              | None => false
              end then false
      else if negb (ks_epoch (active_key n) =? b_key_epoch b) || negb (state_key_epoch st =? b_key_epoch b) ||
              negb (own_address st =? local) then false
      else existsb (fun p => bool_decide (peer_device_id p = b_peer_device b) && (ipv4_address p =? peer) &&
                             bool_decide (signed_key p = Some key)) (peers st)
  end.

Definition peer_binding_authorized (b : PeerBinding) (key : SignedDeviceKey) (local peer : Z) (s : NetworkSnapshot) : result bool :=
  match identity s with
  | None => Ok false
  | Some me =>
      if negb (bool_decide (pi_device_id me = b_local_device b)) || (b_local_generation b =? 0) || (b_peer_generation b =? 0) ||
         negb (bool_decide (encryption_public_key (pi_signed_key me) = b_local_session b)) then Ok false
      else
        let* mine := verify_signed_device_key (pi_signed_key me) (b_local_device b) in
        if negb mine || negb (bool_decide (encryption_public_key key = b_peer_session b)) then Ok false
        else
          let* theirs := verify_signed_device_key key (b_peer_device b) in
          if negb theirs then Ok false else Ok (binding_covered b key local peer (active_networks s))
  end.

Definition sign_peer_binding (identity : bytes) (b : PeerBinding) (a c : bytes) : result bytes :=
  let* id := identity_device_id identity in
  check! bool_decide (id = b_local_device b) && fresh a c else invalid_argument in
  identity_sign identity (transcript b a c).

Definition verify_peer_binding (key : SignedDeviceKey) (b : PeerBinding) (a c signature : bytes) : result bool :=
  if negb (fresh a c) || negb (bool_decide (b_local_session b = encryption_public_key key)) then Ok false
  else
    let* valid := verify_signed_device_key key (b_local_device b) in
    if negb valid then Ok false else verify_signature (identity_public_key key) (transcript b a c) signature.

(** ** Codec of the binding *)

Lemma length_encode_binding b : wf_binding b -> length (encode_binding b) = 168%nat.
Proof.
  intros (L1 & _ & _ & _ & L2 & L3 & L4 & L5). unfold encode_binding.
  rewrite !length_app, !length_put_be, L1, L2, L3, L4, L5. reflexivity.
Qed.

Lemma binding_exact bs b : decode_binding bs = Ok b <-> wf_binding b /\ bs = encode_binding b.
Proof.
  unfold decode_binding, encode_binding. split.
  - intros H. ok_inv H. br_inv. subst b. cbn. rewrite app_nil_r. by split_and!.
  - intros ((L1 & W1 & W2 & W3 & L2 & L3 & L4 & L5) & ->). br_read.
    rewrite <- (app_nil_r (b_peer_session b)). br_read. by destruct b.
Qed.

Lemma reversed_reversed b : reversed (reversed b) = b.
Proof. by destruct b. Qed.
Lemma wf_reversed b : wf_binding b -> wf_binding (reversed b).
Proof. intros (? & ? & ? & ? & ? & ? & ? & ?). by split_and!. Qed.

(** ** What a session accepts *)

(** [bs] is a genuine message of the peer of [s]: signed by its identity over the reversed binding. *)
Definition genuine (s : PunchSession) (reply : bool) (nonce echo bs : bytes) : Prop :=
  exists signature, bs = probe_body reply (reversed (u_binding s)) nonce echo ++ signature /\
    length nonce = 32%nat /\ length echo = 32%nat /\ length signature = 64%nat /\
    verify_signature (identity_public_key (u_peer_key s)) (probe_body reply (reversed (u_binding s)) nonce echo) signature = Ok true.

Lemma read_probe_spec s bs kind nonce echo :
  wf_binding (u_binding s) ->
  read_probe s bs = Ok (Some (kind, nonce, echo)) <->
  exists reply, kind = (if reply : bool then 2 else 1) /\ genuine s reply nonce echo bs.
Proof.
  intros Wb. pose proof (length_encode_binding _ (wf_reversed _ Wb)) as Lb. unfold read_probe, genuine, probe_body. split.
  - intros H. ok_inv H. destruct (negb (_ =? probe_magic)) eqn:G1 in H; [done|].
    ok_inv H. destruct (negb (bool_decide _)) eqn:G2 in H; [done|].
    ok_inv H. destruct (negb _ && negb _) eqn:G3 in H; [done|].
    ok_inv H. match goal with V : verify_signature _ _ _ = Ok ?v |- _ => destruct v; [|done] end.
    injection H as -> -> ->. bool_prop. subst.
    match goal with E : BinaryReader.bytes_ 168 _ = Ok _ |- _ => apply BinaryReader.bytes_inv in E as [-> _] end.
    match goal with E : decode_binding _ = Ok _ |- _ => apply binding_exact in E as [_ ->] end. br_inv. subst.
    exists (kind =? 2). assert (K : kind = (if kind =? 2 then 2 else 1)).
    { destruct (andb_false_elim _ _ G3) as [X|X]; bool_prop; by subst kind. }
    split; [done|]. eexists. rewrite <- K. rewrite app_nil_r in *. split; [by rewrite <- !app_assoc|].
    split_and!; try done.
    match goal with V : verify_signature _ ?m _ = Ok true |- verify_signature _ ?m' _ = Ok true => assert (E : m = m') end.
    { rewrite !app_assoc. rewrite take_app_le; rewrite !length_app; [|lia]. apply take_ge. rewrite !length_app. lia. }
    by rewrite <- E.
  - intros (reply & -> & sg & -> & Ln & Le & Ls & V). rewrite <- !app_assoc.
    rewrite BinaryReader.get_app by (vm_compute; split; congruence). rewrite Z.eqb_refl. cbn [negb].
    rewrite BinaryReader.get_app by (destruct reply; vm_compute; split; congruence).
    rewrite BinaryReader.bytes_app by (unfold len; by rewrite Lb).
    rewrite (proj2 (binding_exact _ (reversed (u_binding s)))) by (split; [by apply wf_reversed|done]).
    rewrite bool_decide_eq_true_2 by done. cbn [negb]. br_read.
    rewrite <- (app_nil_r sg), BinaryReader.array_app by done. cbn [BinaryReader.finish].
    replace (negb _ && negb _) with false by (by destruct reply). rewrite app_nil_r.
    match type of V with verify_signature _ ?m _ = Ok true =>
      match goal with |- context [verify_signature _ ?m' _] => assert (E : m' = m) end end.
    { rewrite !app_assoc. rewrite take_app_le; rewrite !length_app; [|lia]. apply take_ge. rewrite !length_app. lia. }
    by rewrite E, V.
Qed.

(** ** Calls in any order *)

Inductive punch_event := pe_tick (now : Z) | pe_receive (source : Endpoint) (bs : bytes) (now : Z).

(** The session after a call and the datagrams it asked to send. *)
Definition punch_step (e : punch_event) (s : PunchSession) : PunchSession * list ProbeDatagram :=
  match e with
  | pe_tick now => let (s, r) := tick now s in (s, match r with Ok ds => ds | Throw _ => [] end)
  | pe_receive source bs now => let (s, r) := receive source bs now s in (s, match r with Some d => [d] | None => [] end)
  end.

Fixpoint punch_run (es : list punch_event) (s : PunchSession) : PunchSession * list ProbeDatagram :=
  match es with
  | [] => (s, [])
  | e :: es => let (s, ds) := punch_step e s in let (s, ds') := punch_run es s in (s, ds ++ ds')
  end.

(** What does not change, and how the counters move with the datagrams sent. *)
Record punch_kept (s s' : PunchSession) (ds : list ProbeDatagram) : Prop := {
  pk_identity : u_identity s' = u_identity s; pk_peer : u_peer_key s' = u_peer_key s; pk_binding : u_binding s' = u_binding s;
  pk_remote : u_remote s' = u_remote s; pk_nonce : u_nonce s' = u_nonce s; pk_deadline : u_deadline s' = u_deadline s;
  pk_count : u_sent s + u_responses s + len ds <= u_sent s' + u_responses s';
  pk_sent : u_sent s <= max_probes -> u_sent s' <= max_probes;
  pk_responses : u_responses s <= max_probes -> u_responses s' <= max_probes;
  pk_targets : Forall (fun d => p_destination d ∈ map endpoint (u_remote s)) ds }.

Lemma punch_kept_trans s1 s2 s3 d1 d2 : punch_kept s1 s2 d1 -> punch_kept s2 s3 d2 -> punch_kept s1 s3 (d1 ++ d2).
Proof.
  intros [] []. constructor; try congruence; auto.
  - rewrite len_app. lia.
  - apply Forall_app. split; [done|]. by rewrite <- pk_remote0.
Qed.
Lemma punch_kept_refl s : punch_kept s s [].
Proof. constructor; try done. rewrite len_nil. lia. Qed.

Lemma send_probes_spec remote bs sent :
  sent <= max_probes ->
  let (ds, sent') := send_probes remote bs sent in
  sent' = sent + len ds /\ sent' <= max_probes /\ Forall (fun d => p_destination d ∈ map endpoint remote /\ p_bytes d = bs) ds.
Proof.
  revert sent. induction remote as [|c remote IH]; intros sent L; cbn [send_probes]; [by rewrite len_nil, Z.add_0_r|].
  destruct (sent >=? max_probes) eqn:G; bool_prop; [by rewrite len_nil, Z.add_0_r|].
  specialize (IH (sent + 1) ltac:(lia)). destruct (send_probes remote bs (sent + 1)) as [ds sent'].
  destruct IH as (-> & L' & F). rewrite len_cons. split_and!; [lia|done|]. constructor; [cbn; split; [by left|done]|].
  eapply Forall_impl; [exact F|]. intros d [? ?]. split; [by right|done].
Qed.

Lemma tick_kept now s : u_sent s <= max_probes ->
  punch_kept s (fst (punch_step (pe_tick now) s)) (snd (punch_step (pe_tick now) s)) /\
  u_verified (fst (tick now s)) = u_verified s /\ u_selected (fst (tick now s)) = u_selected s.
Proof.
  intros L. cbn [punch_step]. unfold tick. destruct (_ || _); [split; [apply punch_kept_refl|done]|].
  destruct (message _ _ _) as [bs|]; [|split; [apply punch_kept_refl|done]].
  pose proof (send_probes_spec (u_remote s) bs (u_sent s) L) as S.
  destruct (send_probes _ _ _) as [ds sent]. destruct S as (-> & L' & F). cbn. split; [|done]. constructor; cbn; try done; [lia|].
  eapply Forall_impl; [exact F|]. by intros d [? _].
Qed.

Lemma receive_kept source bs now s : wf_binding (u_binding s) ->
  punch_kept s (fst (punch_step (pe_receive source bs now) s)) (snd (punch_step (pe_receive source bs now) s)) /\
  (forall e, (e ∈ u_verified (fst (receive source bs now s)) -> e ∈ u_verified s \/ e = source) /\
     (u_selected (fst (receive source bs now s)) = Some e -> u_selected s = Some e \/ e = source) /\
     ((e ∈ u_verified (fst (receive source bs now s)) /\ e ∉ u_verified s \/
       u_selected (fst (receive source bs now s)) = Some e /\ u_selected s <> Some e) ->
      now < u_deadline s /\ e ∈ map endpoint (u_remote s) /\ exists nonce, genuine s true nonce (u_nonce s) bs)).
Proof.
  intros W. cbn [punch_step]. unfold receive.
  assert (N : punch_kept s s [] /\ forall e, (e ∈ u_verified s -> e ∈ u_verified s \/ e = source) /\
    (u_selected s = Some e -> u_selected s = Some e \/ e = source) /\
    ((e ∈ u_verified s /\ e ∉ u_verified s \/ u_selected s = Some e /\ u_selected s <> Some e) ->
      now < u_deadline s /\ e ∈ map endpoint (u_remote s) /\ exists nonce, genuine s true nonce (u_nonce s) bs)).
  { split; [apply punch_kept_refl|]. intros e. split_and!; [by left|by left|tauto]. }
  destruct (_ || _ || _) eqn:G; [exact N|]. destruct (negb (existsb _ _)) eqn:X; [exact N|].
  bool_prop. apply existsb_exists in X as (c & Hc & Ec). apply list_elem_of_In in Hc. bool_prop. subst source.
  destruct (read_probe s bs) as [[[[kind nonce] echo]|]|] eqn:R; [|exact N..].
  apply read_probe_spec in R as (reply & -> & Gn); [|done]. destruct reply; cbn [Z.eqb Pos.eqb].
  - destruct (bool_decide (echo = u_nonce s)) eqn:E; [|exact N]. bool_prop. subst echo. split.
    { constructor; cbn; try done. rewrite len_nil. lia. }
    intros e. cbn. split_and!.
    + destruct (bool_decide _); [by left|]. intros [|]%elem_of_app; [by left|right; set_solver].
    + intros [= ->]. by right.
    + intros New. assert (e = endpoint c) as ->.
      { destruct New as [[V NV]|[[= ->] _]]; [|done]. destruct (bool_decide _); [done|]. apply elem_of_app in V as [|]; [done|set_solver]. }
      split_and!; [done| |by exists nonce]. apply list_elem_of_fmap. by exists c.
  - match goal with |- context [message true nonce ?x] => set (s1 := x) end.
    assert (K1 : forall ds, len ds <= 1 -> Forall (fun d => p_destination d = endpoint c) ds -> punch_kept s s1 ds).
    { intros ds L F. constructor; cbn; try done; [lia|lia|]. eapply Forall_impl; [exact F|].
      intros d ->. apply list_elem_of_fmap. by exists c. }
    destruct (message true nonce s1); cbn [fst snd]; (split; [|exact (proj2 N)]); apply K1; try done. by repeat constructor.
Qed.

(** The datagram that made [e] known, among the calls so far. *)
Definition answered (s : PunchSession) (es : list punch_event) (e : Endpoint) : Prop :=
  e ∈ map endpoint (u_remote s) /\
  exists bs now nonce, pe_receive e bs now ∈ es /\ now < u_deadline s /\ genuine s true nonce (u_nonce s) bs.

Lemma answered_kept s s' ds es e : punch_kept s s' ds -> answered s' es e -> answered s es e.
Proof.
  intros [] (H & bs & now & nonce & Hi & Lt & G). rewrite pk_remote0, pk_deadline0, pk_nonce0 in *.
  split; [done|]. exists bs, now, nonce. split_and!; [done..|]. unfold genuine in *. by rewrite pk_binding0, pk_peer0 in G.
Qed.

Lemma punch_step_kept e s : wf_binding (u_binding s) -> u_sent s <= max_probes ->
  punch_kept s (fst (punch_step e s)) (snd (punch_step e s)) /\
  forall x, (x ∈ u_verified (fst (punch_step e s)) -> x ∈ u_verified s \/ answered s [e] x) /\
    (u_selected (fst (punch_step e s)) = Some x -> u_selected s = Some x \/ answered s [e] x).
Proof.
  intros W L. destruct e as [now|source bs now].
  - destruct (tick_kept now s L) as (K & V & S). split; [exact K|]. intros x. cbn [punch_step].
    destruct (tick now s) as [s' r]. cbn in *. rewrite V, S. auto.
  - destruct (receive_kept source bs now s W) as (K & N). split; [exact K|]. intros x. specialize (N x). revert N. cbn [punch_step].
    destruct (receive source bs now s) as [s' r]. cbn [fst]. intros (Nv & Ns & New). split; intros H.
    + destruct (decide (x ∈ u_verified s)) as [|Nx]; [by left|]. right.
      destruct (Nv H) as [ | ->]; [done|]. destruct New as (Lt & Hr & nonce & G); [left; done|].
      split; [done|]. exists bs, now, nonce. split_and!; try done. by left.
    + destruct (decide (u_selected s = Some x)) as [|Nx]; [by left|]. right.
      destruct (Ns H) as [ | ->]; [done|]. destruct New as (Lt & Hr & nonce & G); [right; done|].
      split; [done|]. exists bs, now, nonce. split_and!; try done. by left.
Qed.

Lemma punch_run_kept es s : wf_binding (u_binding s) -> u_sent s <= max_probes ->
  punch_kept s (fst (punch_run es s)) (snd (punch_run es s)) /\
  forall x, (x ∈ u_verified (fst (punch_run es s)) -> x ∈ u_verified s \/ answered s es x) /\
    (u_selected (fst (punch_run es s)) = Some x -> u_selected s = Some x \/ answered s es x).
Proof.
  revert s. induction es as [|e es IH]; intros s W L; cbn [punch_run]; [split; [apply punch_kept_refl|auto]|].
  destruct (punch_step_kept e s W L) as [K N]. destruct (punch_step e s) as [s1 d1]. cbn [fst snd] in K, N.
  assert (W1 : wf_binding (u_binding s1)) by (by rewrite (pk_binding _ _ _ K)).
  destruct (IH s1 W1 (pk_sent _ _ _ K L)) as [K' N']. destruct (punch_run es s1) as [s2 d2]. cbn [fst snd] in *.
  split; [by eapply punch_kept_trans|].
  assert (M1 : forall x, answered s [e] x -> answered s (e :: es) x).
  { intros x (H & bs & now & n & Hi & Hr). split; [done|]. exists bs, now, n. split; [set_solver|done]. }
  assert (M2 : forall x, answered s1 es x -> answered s (e :: es) x).
  { intros x H. apply (answered_kept _ _ _ _ _ K) in H as (H & bs & now & n & Hi & Hr). split; [done|].
    exists bs, now, n. split; [by right|done]. }
  intros x. destruct (N x), (N' x). split; intros H'; naive_solver.
Qed.

Lemma new_punch_ok identity peer b remote now random s0 :
  new_punch identity peer b remote now random = Ok s0 ->
  exists nonce, random = Some nonce /\ s0 = mk_punch identity peer b remote nonce (now + 5000 * ms) now 0 0 0 None [] /\
    identity_device_id identity = Ok (b_local_device b) /\ verify_signed_device_key peer (b_peer_device b) = Ok true /\
    encryption_public_key peer = b_peer_session b /\ 0 < len remote <= max_candidates.
Proof.
  unfold new_punch, punch_authorized. destruct random as [nonce|]; [|done]. intros H.
  destruct (identity_device_id identity) as [id|]; [|done]. destruct (negb (bool_decide (id = _))) eqn:I; [done|].
  destruct (verify_signed_device_key _ _) as [v|]; [|done]. destruct (_ && _) eqn:G in H; [|done].
  destruct (forallb _ _); [|done]. apply Ok_inj in H as <-. bool_prop. subst. exists nonce. pose proof (len_nonneg remote).
  split_and!; try done; lia.
Qed.

(** A direct endpoint is verified only by a signed echo.  Whatever datagrams arrive and whenever the
    session is driven, every endpoint it verified or selected is one of the peer's candidates, and
    from it came, before the five-second deadline, a reply signed with the identity key of the peer over exactly
    the reversed binding (network, key epoch, generations, devices and session keys) and echoing the nonce
    this session drew.  It never sends more than 32 probes and 32 replies, all to candidates, and it starts only
    for the local device and a peer whose signed key verifies. *)
Lemma punch_authentic (secret : bytes) (peer : SignedDeviceKey) (b : PeerBinding) (remote : list Candidate) (now : Z)
    (random : option bytes) (s0 s : PunchSession) (es : list punch_event) (ds : list ProbeDatagram) :
  wf_binding b -> new_punch secret peer b remote now random = Ok s0 -> punch_run es s0 = (s, ds) ->
  (forall e, u_selected s = Some e \/ e ∈ u_verified s -> answered s0 es e) /\
  random = Some (u_nonce s0) /\ u_deadline s0 = now + 5000 * ms /\
  u_sent s <= max_probes /\ len ds <= 2 * max_probes /\ Forall (fun d => p_destination d ∈ map endpoint remote) ds /\
  identity_device_id secret = Ok (b_local_device b) /\ verify_signed_device_key peer (b_peer_device b) = Ok true.
Proof.
  intros W H R. apply new_punch_ok in H as (nonce & -> & -> & Di & V & _ & _).
  match type of R with punch_run _ ?x = _ => set (s0 := x) in * end.
  destruct (punch_run_kept es s0 W) as [K N]; [done|]. rewrite R in K, N. cbn [fst snd] in K, N. destruct K. cbn in *.
  split_and!; try done; auto.
  - intros e. destruct (N e) as [Nv Ns]. intros [H|H]; [apply Ns in H as [|]|apply Nv in H as [|]]; try done. by apply elem_of_nil in H.
  - by apply pk_sent0.
  - specialize (pk_responses0 ltac:(done)). specialize (pk_sent0 ltac:(done)). lia.
Qed.

Lemma message_genuine s s' reply echo bs {L : CryptoLaws C} :
  wf_binding (u_binding s) -> u_binding s' = reversed (u_binding s) -> length (u_nonce s) = 32%nat -> length echo = 32%nat ->
  identity_public_key (u_peer_key s') = ed25519_public (u_identity s) ->
  message reply echo s = Ok bs -> genuine s' reply (u_nonce s) echo bs /\ len bs = probe_size.
Proof.
  intros W Eb Ln Le Ek H. unfold message, identity_sign in H.
  destruct (ed25519_sign _ _) as [sg|] eqn:E; [|done]. destruct (_ =? _); [|done]. apply Ok_inj in H as <-.
  pose proof (sign_length _ _ _ E). split.
  - exists sg. rewrite Eb, reversed_reversed. split_and!; try done. rewrite Ek. unfold verify_signature. by rewrite (sign_verifies _ _ _ E).
  - unfold probe_body. rewrite !len_app. unfold len. rewrite !length_put_be, length_encode_binding, Ln, Le, H by done. reflexivity.
Qed.

Lemma message_ok s reply echo {L : CryptoLaws C} :
  (forall m, is_Some (ed25519_sign (u_identity s) m)) -> exists bs, message reply echo s = Ok bs.
Proof.
  intros H. unfold message, identity_sign. destruct (H (probe_body reply (u_binding s) (u_nonce s) echo)) as [sg E].
  rewrite E. unfold len. rewrite (sign_length _ _ _ E). by eexists.
Qed.

(** A genuine message from a candidate is taken in before the deadline. *)
Lemma receive_genuine source bs now s reply nonce echo :
  wf_binding (u_binding s) -> genuine s reply nonce echo bs -> len bs = probe_size -> source ∈ map endpoint (u_remote s) ->
  now < u_deadline s -> u_responses s < max_probes ->
  receive source bs now s =
  if reply then (if bool_decide (echo = u_nonce s) then select source s else s, None)
  else let s' := set_counters (u_next s) (u_round s) (u_sent s) (u_responses s + 1) s in
       match message true nonce s' with Throw _ => (s', None) | Ok m => (s', Some (mk_probe source m)) end.
Proof.
  intros W G L Hs D Rp. unfold receive.
  guard_false by (rewrite !orb_false_iff, negb_false_iff, !Z.geb_leb, !Z.leb_gt, Z.eqb_eq; auto).
  guard_false by (apply negb_false_iff, existsb_exists; apply list_elem_of_fmap in Hs as (c & -> & Hc);
    exists c; split; [by apply list_elem_of_In|by apply bool_decide_eq_true]).
  rewrite (proj2 (read_probe_spec s bs (if reply then 2 else 1) nonce echo W)) by eauto. by destruct reply.
Qed.

(** Two honest peers find each other.  If the sessions of both ends hold each other's keys and the same
    exchange seen from both sides, and each knows a candidate of the other, then a probe of one is answered
    by the other and the answer makes the first select the endpoint it came from. *)
Lemma punch_completes {L : CryptoLaws C} (a b : PunchSession) (from_a from_b : Endpoint) (t t' t'' : Z) :
  wf_binding (u_binding a) -> u_binding b = reversed (u_binding a) ->
  identity_public_key (u_peer_key a) = ed25519_public (u_identity b) ->
  identity_public_key (u_peer_key b) = ed25519_public (u_identity a) ->
  length (u_nonce a) = 32%nat -> length (u_nonce b) = 32%nat ->
  (forall m, is_Some (ed25519_sign (u_identity a) m)) -> (forall m, is_Some (ed25519_sign (u_identity b) m)) ->
  from_a ∈ map endpoint (u_remote b) -> from_b ∈ map endpoint (u_remote a) ->
  finished t a = false -> u_next a <= t -> u_sent a < max_probes -> u_responses a < max_probes -> u_responses b < max_probes ->
  t' < u_deadline b -> t'' < u_deadline a ->
  exists a1 a2 b1 ds, tick t a = (a1, Ok ds) /\ ds <> [] /\
    forall d, d ∈ ds -> exists reply,
      receive from_a (p_bytes d) t' b = (b1, Some (mk_probe from_a reply)) /\
      receive from_b reply t'' a1 = (a2, None) /\ u_selected a2 = Some from_b.
Proof.
  intros W Eb Ka Kb Na Nb Sa Sb Ha Hb Fi Nx Se Ra Rb Db Da.
  destruct (message_ok a false (zeros nonce_size) Sa) as [probe Pr].
  destruct (message_genuine a b false (zeros nonce_size) probe W Eb Na eq_refl Kb Pr) as [Gp Lp].
  pose proof (wf_reversed _ W) as Wr. rewrite <- Eb in Wr.
  set (b1 := set_counters (u_next b) (u_round b) (u_sent b) (u_responses b + 1) b).
  destruct (message_ok b1 true (u_nonce a) Sb) as [reply Rp].
  pose proof (send_probes_spec (u_remote a) probe (u_sent a) ltac:(lia)) as S. unfold tick.
  guard_false by (rewrite Fi, !orb_false_iff, Z.ltb_ge, Z.geb_leb, Z.leb_gt; auto). rewrite Pr.
  destruct (send_probes (u_remote a) probe (u_sent a)) as [ds sent] eqn:E. destruct S as (_ & _ & F).
  match goal with |- context [(?x, Ok ds) = _] => set (a1 := x) end.
  assert (Ga : genuine a1 true (u_nonce b) (u_nonce a) reply /\ len reply = probe_size).
  { apply (message_genuine b1 a1 true (u_nonce a) reply); [exact Wr|by cbn; rewrite Eb, reversed_reversed|done..|exact Rp]. }
  destruct Ga as [Ga Lr].
  exists a1, (select from_b a1), b1, ds. split; [done|]. split.
  { intros ->. destruct (u_remote a) as [|c l]; [by apply elem_of_nil in Hb|]. cbn [send_probes] in E.
    destruct (u_sent a >=? max_probes) eqn:G; bool_prop; [lia|]. by destruct (send_probes _ _ _). }
  intros d Hd. exists reply. rewrite Forall_forall in F. destruct (F d Hd) as [_ ->].
  rewrite (receive_genuine _ _ _ b false (u_nonce a) (zeros nonce_size)) by done. cbv zeta. fold b1. rewrite Rp.
  rewrite (receive_genuine _ _ _ a1 true (u_nonce b) (u_nonce a)) by done.
  by rewrite bool_decide_eq_true_2.
Qed.

(** C23: Hole punching is authentic and succeeds between honest peers.  Whatever datagrams arrive and whenever the
    session is driven, every endpoint it verified or selected is one of the peer's candidates, and
    from it came, before the five-second deadline, a reply signed with the identity key of the peer over exactly
    the reversed binding (network, key epoch, generations, devices and session keys) and echoing the nonce
    this session drew.  It never sends more than 32 probes and 32 replies, all to candidates, and it starts only
    for the local device and a peer whose signed key verifies.  If the sessions of both ends hold each other's keys
    and the same exchange seen from both sides, and each knows a candidate of the other, then a probe of one is
    answered by the other and the answer makes the first select the endpoint it came from. *)
Theorem hole_punching :
  (forall (secret : bytes) (peer : SignedDeviceKey) (b : PeerBinding) (remote : list Candidate) (now : Z)
    (random : option bytes) (s0 s : PunchSession) (es : list punch_event) (ds : list ProbeDatagram),
  wf_binding b -> new_punch secret peer b remote now random = Ok s0 -> punch_run es s0 = (s, ds) ->
  (forall e, u_selected s = Some e \/ e ∈ u_verified s -> answered s0 es e) /\
  random = Some (u_nonce s0) /\ u_deadline s0 = now + 5000 * ms /\
  u_sent s <= max_probes /\ len ds <= 2 * max_probes /\ Forall (fun d => p_destination d ∈ map endpoint remote) ds /\
  identity_device_id secret = Ok (b_local_device b) /\ verify_signed_device_key peer (b_peer_device b) = Ok true) /\
  (forall (L : CryptoLaws C) (a b : PunchSession) (from_a from_b : Endpoint) (t t' t'' : Z),
  wf_binding (u_binding a) -> u_binding b = reversed (u_binding a) ->
  identity_public_key (u_peer_key a) = ed25519_public (u_identity b) ->
  identity_public_key (u_peer_key b) = ed25519_public (u_identity a) ->
  length (u_nonce a) = 32%nat -> length (u_nonce b) = 32%nat ->
  (forall m, is_Some (ed25519_sign (u_identity a) m)) -> (forall m, is_Some (ed25519_sign (u_identity b) m)) ->
  from_a ∈ map endpoint (u_remote b) -> from_b ∈ map endpoint (u_remote a) ->
  finished t a = false -> u_next a <= t -> u_sent a < max_probes -> u_responses a < max_probes -> u_responses b < max_probes ->
  t' < u_deadline b -> t'' < u_deadline a ->
  exists a1 a2 b1 ds, tick t a = (a1, Ok ds) /\ ds <> [] /\
    forall d, d ∈ ds -> exists reply,
      receive from_a (p_bytes d) t' b = (b1, Some (mk_probe from_a reply)) /\
      receive from_b reply t'' a1 = (a2, None) /\ u_selected a2 = Some from_b).
Proof. split; [exact punch_authentic|exact @punch_completes]. Qed.

(** ** Authorization *)

(** The network state covers the binding: the first network with its id has its epoch and address, lists the
    peer with that address and key, and its policy lets the two talk. *)
Lemma binding_covered_spec b key local peer l :
  binding_covered b key local peer l = true <->
  exists l1 n l2, l = l1 ++ n :: l2 /\ Forall (fun m => state_network_id (active_peers m) <> b_network_id b) l1 /\
    state_network_id (active_peers n) = b_network_id b /\
    (forall p, policy (active_peers n) = Some p -> policy_allows p (b_local_device b) (b_peer_device b) = true) /\
    ks_epoch (active_key n) = b_key_epoch b /\ state_key_epoch (active_peers n) = b_key_epoch b /\
    own_address (active_peers n) = local /\
    mk_peer (b_peer_device b) peer (Some key) ∈ peers (active_peers n).
Proof.
  induction l as [|n l IH]; cbn [binding_covered]; [split; [done|intros (l1 & n & l2 & E & _); by destruct l1]|].
  destruct (decide (state_network_id (active_peers n) = b_network_id b)) as [E|E].
  - rewrite bool_decide_eq_true_2 by done. cbn [negb]. split.
    + intros H. destruct (match policy _ with Some _ => _ | None => _ end) eqn:P; [done|].
      destruct (_ || _) eqn:G; [done|]. bool_prop. apply existsb_exists in H as (p & Hp & Ep). bool_prop. subst.
      exists [], n, l. split_and!; try done; [intros q Hq; rewrite Hq in P; by bool_prop|].
      apply list_elem_of_In in Hp. destruct p as [d a k]. cbn in *. by subst.
    + intros (l1 & n' & l2 & El & F & Ei & Po & E1 & E2 & E3 & Hp).
      assert (n' = n) as ->. { destruct l1 as [|m l1]; [by injection El|]. injection El as <- _. by apply Forall_cons in F as [? _]. }
      guard_false by (destruct (policy (active_peers n)) as [q|]; [by rewrite (Po q)|done]).
      rewrite E1, E2, E3, !Z.eqb_refl. cbn [negb orb]. apply existsb_exists. eexists. split; [apply list_elem_of_In; exact Hp|].
      cbn. by rewrite !bool_decide_eq_true_2, Z.eqb_refl.
  - rewrite bool_decide_eq_false_2 by done. cbn [negb]. rewrite IH. split.
    + intros (l1 & n' & l2 & -> & F & H). exists (n :: l1), n', l2. split; [done|]. split; [by constructor|done].
    + intros (l1 & n' & l2 & El & F & H). destruct l1 as [|m l1]; [injection El as <- <-; by destruct H|].
      injection El as <- ->. apply Forall_cons in F as [_ F]. by exists l1, n', l2.
Qed.

Lemma peer_proof_accepted {L : CryptoLaws C} secret key b a c proof :
  identity_public_key key = ed25519_public secret -> encryption_public_key key = b_local_session b ->
  verify_signed_device_key key (b_local_device b) = Ok true ->
  sign_peer_binding secret b a c = Ok proof -> verify_peer_binding key b a c proof = Ok true.
Proof.
  intros Ei Es V H. unfold sign_peer_binding, identity_sign in H. destruct (identity_device_id _); [|done].
  destruct (_ && fresh a c) eqn:G; [|done]. destruct (ed25519_sign _ _) as [sg|] eqn:S; [|done]. destruct (_ =? _); [|done].
  apply Ok_inj in H as <-. bool_prop. unfold verify_peer_binding. rewrite H0, Es, bool_decide_eq_true_2, V, Ei by done. cbn.
  unfold verify_signature. by rewrite (sign_verifies _ _ _ S).
Qed.
End Punch.

(** ** Two peers *)

Section Concrete.
#[local] Existing Instance toy_crypto.

Definition punch_alice : bytes := replicate 32 x05.
Definition punch_bob : bytes := replicate 32 x06.
Definition alice_binding : PeerBinding := mk_binding (replicate 16 x01) 2 3 4 punch_alice punch_bob punch_alice punch_bob.
Definition alice_at : Endpoint := mk_endpoint 0x0a000001 1000.
Definition bob_at : Endpoint := mk_endpoint 0x0a000002 2000.
Definition at_endpoint (e : Endpoint) : Candidate := mk_candidate e Candidates.host 1.
Definition session_of (secret peer : bytes) (b : PeerBinding) (remote : Endpoint) (nonce : bytes) : PunchSession :=
  mk_punch secret (toy_signed_key peer) b [at_endpoint remote] nonce (0 + 5000 * ms) 0 0 0 0 None [].
Definition alice_punch : PunchSession := session_of punch_alice punch_bob alice_binding bob_at (replicate 32 x07).
Definition bob_punch : PunchSession := session_of punch_bob punch_alice (reversed alice_binding) alice_at (replicate 32 x08).

Definition probe_of (s : PunchSession) : bytes := match message false (zeros 32) s with Ok bs => bs | Throw _ => [] end.
Definition reply_of (s : PunchSession) (echo : bytes) : bytes := match message true echo s with Ok bs => bs | Throw _ => [] end.
Definition alice_events : list punch_event :=
  [pe_tick 0; pe_receive alice_at (reply_of bob_punch (replicate 32 x07)) 1; pe_receive bob_at (reply_of bob_punch (replicate 32 x09)) 2;
   pe_receive bob_at (reply_of bob_punch (replicate 32 x07)) 3].

Lemma alice_binding_wf : wf_binding alice_binding.
Proof. repeat split; try reflexivity; vm_compute; congruence. Defined.

Lemma hole_punching_witness :
  (u_selected (fst (punch_run alice_events alice_punch)) = Some bob_at /\ answered alice_punch alice_events bob_at) /\
  exists a1 ds, tick 0 alice_punch = (a1, Ok ds) /\ ds <> [].
Proof.
  destruct (hole_punching (C := toy_crypto)) as [Au Co]. split.
  - assert (S : u_selected (fst (punch_run alice_events alice_punch)) = Some bob_at) by (vm_compute; reflexivity).
    split; [exact S|]. destruct (punch_run alice_events alice_punch) as [s ds] eqn:E.
    destruct (Au punch_alice (toy_signed_key punch_bob) alice_binding [at_endpoint bob_at] 0 (Some (replicate 32 x07))
      alice_punch s alice_events ds alice_binding_wf) as (A & _); [vm_compute; reflexivity|exact E|]. apply A. left. exact S.
  - destruct (Co toy_laws alice_punch bob_punch alice_at bob_at 0 1 2) as (a1 & _ & _ & ds & T & N & _);
      try (reflexivity || lia || (vm_compute; congruence)).
    + apply alice_binding_wf.
    + intros m. by eexists.
    + intros m. by eexists.
    + by left.
    + by left.
    + exists a1, ds. exact (conj T N).
Defined.
End Concrete.
