(* ===== verification/Connectivity.v ===== *)
(** * Choosing a candidate pair

    p2p/connectivity.hpp and .cpp: the checklist of candidate pairs of two devices, the
    attempts made on each and the nomination of the best one that answered.  Time is the steady
    clock in nanoseconds. *)
From Stdlib Require Import Sorting.Sorted.
From S2P Require Import Prelude Wire Candidates Punch.

Inductive IceRole := controlling | controlled.
Inductive CheckState := waiting | in_progress | succeeded | failed.
Inductive ConnectivityState := checking | connected | unreachable. (* ConnectivityState::failed *)
#[global] Instance IceRole_eq_dec : EqDecision IceRole.
Proof. solve_decision. Defined.
#[global] Instance CheckState_eq_dec : EqDecision CheckState.
Proof. solve_decision. Defined.
#[global] Instance ConnectivityState_eq_dec : EqDecision ConnectivityState.
Proof. solve_decision. Defined.

Record CandidatePair := mk_pair {
  cp_local : Candidate; cp_remote : Candidate; cp_priority : Z; cp_state : CheckState; cp_attempts : Z; cp_rtt : option Z }.

Record ConnectivityChecks := mk_checks {
  ck_local : bytes; ck_peer : bytes; ck_role : IceRole; ck_pairs : list CandidatePair;
  ck_deadline : Z; ck_next : Z; ck_state : ConnectivityState }.

(** [std::array<std::byte>::operator<]. *)
Fixpoint bytes_lt (a b : bytes) : bool :=
  match a, b with
  | x :: a, y :: b => if b2z x <? b2z y then true else if b2z y <? b2z x then false else bytes_lt a b
  | [], _ :: _ => true
  | _, [] => false
  end.

Definition role_of (local peer : bytes) : IceRole := if bytes_lt local peer then controlling else controlled.

(** [(uint64(min(g,d)) << 32) + 2 * max(g,d) + (g > d ? 1 : 0)], which wraps at 64 bits. *)
Definition pair_priority (role : IceRole) (local remote : Z) : Z :=
  let g := match role with controlling => local | controlled => remote end in
  let d := match role with controlling => remote | controlled => local end in
  (Z.shiftl (Z.min g d) 32 + 2 * Z.max g d + (if g >? d then 1 else 0)) mod 2 ^ 64.

(** [std::stable_sort] by descending priority. *)
Fixpoint insert_pair (p : CandidatePair) (l : list CandidatePair) : list CandidatePair :=
  match l with
  | [] => [p]
  | q :: l' => if cp_priority q >? cp_priority p then q :: insert_pair p l' else p :: l
  end.
Definition sort_pairs (l : list CandidatePair) : list CandidatePair := foldr insert_pair [] l.

Definition valid_pair (a b : Candidate) : bool :=
  usable_endpoint (endpoint a) true && usable_endpoint (endpoint b) true &&
  negb (priority a =? 0) && negb (priority b =? 0).
Definition make_pair (role : IceRole) (a b : Candidate) : CandidatePair :=
  mk_pair a b (pair_priority role (priority a) (priority b)) waiting 0 None.
Definition all_pairs (locals remotes : list Candidate) : list (Candidate * Candidate) :=
  concat (map (fun a => map (fun b => (a, b)) remotes) locals).

Definition new_checks (local peer : bytes) (locals remotes : list Candidate) (now : Z) : result ConnectivityChecks :=
  check! negb (bool_decide (local = peer) || (len locals =? 0) || (len remotes =? 0) || (len locals >? max_candidates) ||
               (len remotes >? max_candidates)) else invalid_argument in
  check! forallb (fun ab => valid_pair (fst ab) (snd ab)) (all_pairs locals remotes) else invalid_argument in
  let role := role_of local peer in
  Ok (mk_checks local peer role (sort_pairs (map (fun ab => make_pair role (fst ab) (snd ab)) (all_pairs locals remotes)))
        (now + 5000 * ms) now checking).

Definition resolve_role_conflict (peer_role : IceRole) (c : ConnectivityChecks) : ConnectivityChecks :=
  if bool_decide (ck_role c = peer_role)
  then mk_checks (ck_local c) (ck_peer c) (role_of (ck_local c) (ck_peer c)) (ck_pairs c) (ck_deadline c) (ck_next c) (ck_state c)
  else c.

Definition set_pairs (l : list CandidatePair) (c : ConnectivityChecks) : ConnectivityChecks :=
  mk_checks (ck_local c) (ck_peer c) (ck_role c) l (ck_deadline c) (ck_next c) (ck_state c).
Definition set_state (s : ConnectivityState) (c : ConnectivityChecks) : ConnectivityChecks :=
  mk_checks (ck_local c) (ck_peer c) (ck_role c) (ck_pairs c) (ck_deadline c) (ck_next c) s.
Definition with_state (s : CheckState) (p : CandidatePair) : CandidatePair :=
  mk_pair (cp_local p) (cp_remote p) (cp_priority p) s (cp_attempts p) (cp_rtt p).

(** The loop of [nominate]: the first pair that decides. *)
Fixpoint scan (late : bool) (l : list CandidatePair) : option (option CandidatePair) :=
  match l with
  | [] => None
  | p :: l =>
      if bool_decide (cp_state p = succeeded) then Some (Some p)
      else if negb late && negb (bool_decide (cp_state p = failed)) then Some None
      else scan late l
  end.

Definition nominate (now : Z) (c : ConnectivityChecks) : ConnectivityChecks * option CandidatePair :=
  if bool_decide (ck_state c = unreachable) then (c, None)
  else
    match scan (now >=? ck_deadline c) (ck_pairs c) with
    | Some (Some p) => (set_state connected c, Some p)
    | Some None => (c, None)
    | None => (set_state unreachable c, None)
    end.

(** [std::find_if] of a pair to try, which is marked as tried. *)
Definition to_try (p : CandidatePair) : bool :=
  bool_decide (cp_state p = waiting) || (bool_decide (cp_state p = in_progress) && (cp_attempts p <? 3)).
Fixpoint try_first (l : list CandidatePair) : option (CandidatePair * list CandidatePair) :=
  match l with
  | [] => None
  | p :: l =>
      if to_try p
      then let p := mk_pair (cp_local p) (cp_remote p) (cp_priority p) in_progress ((cp_attempts p + 1) mod 2 ^ 32) (cp_rtt p) in
           Some (p, p :: l)
      else match try_first l with Some (q, l) => Some (q, p :: l) | None => None end
  end.

Definition next (now : Z) (c : ConnectivityChecks) : ConnectivityChecks * option CandidatePair :=
  if negb (bool_decide (ck_state c = checking)) || (now <? ck_next c) then (c, None)
  else if now >=? ck_deadline c then
    let c := set_pairs (map (fun p => if bool_decide (cp_state p = succeeded) then p else with_state failed p) (ck_pairs c)) c in
    (fst (nominate now c), None)
  else
    match try_first (ck_pairs c) with
    | None => (fst (nominate now c), None)
    | Some (p, l) =>
        (mk_checks (ck_local c) (ck_peer c) (ck_role c) l (ck_deadline c) (now + 100 * ms) (ck_state c), Some p)
    end.

Definition is_pair (local remote : Endpoint) (p : CandidatePair) : bool :=
  bool_decide (endpoint (cp_local p) = local) && bool_decide (endpoint (cp_remote p) = remote).

Definition note_probe (local remote : Endpoint) (c : ConnectivityChecks) : ConnectivityChecks :=
  if negb (bool_decide (ck_state c = checking)) then c
  else set_pairs (map (fun p =>
    if is_pair local remote p && negb (bool_decide (cp_state p = succeeded)) && negb (bool_decide (cp_state p = failed))
    then mk_pair (cp_local p) (cp_remote p) (cp_priority p) in_progress ((cp_attempts p + 1) mod 2 ^ 32) (cp_rtt p)
    else p) (ck_pairs c)) c.

Definition check_result (local remote : Endpoint) (success : bool) (rtt : option Z) (c : ConnectivityChecks) : ConnectivityChecks :=
  if negb (bool_decide (ck_state c = checking)) then c
  else set_pairs (map (fun p =>
    if is_pair local remote p && bool_decide (cp_state p = in_progress)
    then mk_pair (cp_local p) (cp_remote p) (cp_priority p)
           (if success then succeeded else if cp_attempts p >=? 3 then failed else waiting) (cp_attempts p)
           (if success then rtt else None)
    else p) (ck_pairs c)) c.

(** ** Calls in any order *)

Inductive check_event :=
| ck_conflict (role : IceRole) | ck_try (now : Z) | ck_probe (local remote : Endpoint)
| ck_result (local remote : Endpoint) (success : bool) (rtt : option Z) | ck_nominate (now : Z).

Definition check_step (e : check_event) (c : ConnectivityChecks) : ConnectivityChecks :=
  match e with
  | ck_conflict r => resolve_role_conflict r c
  | ck_try now => fst (next now c)
  | ck_probe l r => note_probe l r c
  | ck_result l r ok rtt => check_result l r ok rtt c
  | ck_nominate now => fst (nominate now c)
  end.
Definition check_run (es : list check_event) (c : ConnectivityChecks) : ConnectivityChecks := foldl (fun c e => check_step e c) c es.

(** ** Both ends rank the pairs alike *)

Lemma bytes_lt_total a b : a <> b -> bytes_lt b a = negb (bytes_lt a b).
Proof.
  revert b. induction a as [|x a IH]; intros [|y b] N; cbn; try done.
  destruct (Z.ltb_spec (b2z x) (b2z y)), (Z.ltb_spec (b2z y) (b2z x)); try done; try lia.
  apply IH. intros ->. apply N. f_equal. apply b2z_inj. lia.
Qed.

Definition opposite (r : IceRole) : IceRole := match r with controlling => controlled | controlled => controlling end.

Lemma roles_opposite a b : a <> b -> role_of b a = opposite (role_of a b).
Proof. intros N. unfold role_of. rewrite (bytes_lt_total a b N). by destruct (bytes_lt a b). Qed.
Lemma pair_priority_opposite r x y : pair_priority (opposite r) y x = pair_priority r x y.
Proof. by destruct r. Qed.

Lemma all_pairs_cons_r l x r : all_pairs l (x :: r) ≡ₚ map (fun a => (a, x)) l ++ all_pairs l r.
Proof.
  induction l as [|a l IH]; [done|]. unfold all_pairs in *. cbn [map concat app].
  rewrite IH. constructor. rewrite !app_assoc. f_equiv. apply Permutation_app_comm.
Qed.
Lemma all_pairs_swap l r : map (fun ab => (snd ab, fst ab)) (all_pairs r l) ≡ₚ all_pairs l r.
Proof.
  induction r as [|x r IH].
  - unfold all_pairs. cbn. induction l as [|a l IH]; [done|exact IH].
  - rewrite all_pairs_cons_r. unfold all_pairs at 1. cbn [map concat]. rewrite map_app, map_map. cbn [fst snd]. by f_equiv.
Qed.

Lemma insert_pair_perm p l : insert_pair p l ≡ₚ p :: l.
Proof.
  induction l as [|q l IH]; [done|]. cbn. destruct (_ >? _); [|done]. rewrite IH. apply Permutation_swap.
Qed.
Lemma sort_pairs_perm l : sort_pairs l ≡ₚ l.
Proof. induction l as [|p l IH]; [done|]. cbn. by rewrite insert_pair_perm, IH. Qed.

(** Descending priorities. *)
Definition ranked (l : list CandidatePair) : Prop := StronglySorted (fun p q => cp_priority q <= cp_priority p) l.

Lemma insert_pair_ranked p l : ranked l -> ranked (insert_pair p l).
Proof.
  induction l as [|q l IH]; intros S; cbn; [by repeat constructor|]. apply StronglySorted_inv in S as [S F].
  destruct (Z.gtb_spec (cp_priority q) (cp_priority p)).
  - constructor; [by apply IH|]. rewrite Forall_forall in *. intros x Hx.
    rewrite insert_pair_perm in Hx. apply elem_of_cons in Hx as [->|Hx]; [lia|by apply F].
  - constructor; [by constructor|]. constructor; [lia|]. eapply Forall_impl; [exact F|]. intros x ?. cbn in *. lia.
Qed.
Lemma sort_pairs_ranked l : ranked (sort_pairs l).
Proof. induction l as [|p l IH]; [constructor|]. cbn. by apply insert_pair_ranked. Qed.

(** What a pair is, apart from how its check goes. *)
Definition pair_key (p : CandidatePair) : Candidate * Candidate * Z := (cp_local p, cp_remote p, cp_priority p).

Lemma checks_agree local peer locals remotes now now' c d :
  new_checks local peer locals remotes now = Ok c -> new_checks peer local remotes locals now' = Ok d ->
  ck_role d = opposite (ck_role c) /\
  map pair_key (ck_pairs c) ≡ₚ map (fun p => (cp_remote p, cp_local p, cp_priority p)) (ck_pairs d) /\
  ranked (ck_pairs c) /\ ranked (ck_pairs d).
Proof.
  unfold new_checks. intros H1 H2. ok_inv H1. ok_inv H2. bool_prop. subst c d. cbn [ck_role ck_pairs].
  split_and!; [by apply roles_opposite| |apply sort_pairs_ranked..].
  unfold pair_key. rewrite !sort_pairs_perm, !map_map. rewrite <- (all_pairs_swap locals remotes), map_map.
  rewrite (roles_opposite local peer) by done. erewrite map_ext; [done|]. intros [a b]. cbn. by rewrite pair_priority_opposite.
Qed.

(** ** What the calls keep *)

Definition has_succeeded (l : list CandidatePair) : Prop := Exists (fun p => cp_state p = succeeded) l.

(** After the calls [es] on the fresh checks [c0]: the pairs are those of the checklist, one has
    succeeded only on a reported success, and the state says whether one has. *)
Record check_inv (c0 : ConnectivityChecks) (es : list check_event) (c : ConnectivityChecks) : Prop := mk_check_inv {
  ci_keys : map pair_key (ck_pairs c) = map pair_key (ck_pairs c0);
  ci_deadline : ck_deadline c = ck_deadline c0;
  ci_reported : forall p, p ∈ ck_pairs c -> cp_state p = succeeded ->
    exists rtt, ck_result (endpoint (cp_local p)) (endpoint (cp_remote p)) true rtt ∈ es;
  ci_connected : ck_state c = connected -> has_succeeded (ck_pairs c);
  ci_unreachable : ck_state c = unreachable -> ~ has_succeeded (ck_pairs c) }.

Lemma is_pair_spec l r p : is_pair l r p = true <-> endpoint (cp_local p) = l /\ endpoint (cp_remote p) = r.
Proof. unfold is_pair. by rewrite andb_true_iff, !bool_decide_eq_true. Qed.

Lemma scan_some late l p : scan late l = Some (Some p) ->
  exists a b, l = a ++ p :: b /\ cp_state p = succeeded /\
    Forall (fun q => cp_state q <> succeeded /\ (late = false -> cp_state q = failed)) a.
Proof.
  induction l as [|q l IH]; cbn; [done|]. case_bool_decide as E.
  - intros [= ->]. by exists [], l.
  - destruct (negb late && _) eqn:B; [done|]. intros (a & b & -> & S & F)%IH. exists (q :: a), b. split_and!; [done..|].
    constructor; [|done]. split; [done|]. intros ->. cbn in B. by bool_prop.
Qed.
Lemma scan_none late l : scan late l = None -> ~ has_succeeded l.
Proof.
  unfold has_succeeded. induction l as [|q l IH]; cbn; [by intros _ ?%Exists_nil|]. case_bool_decide; [done|].
  destruct (negb late && _); [done|]. intros N%IH [?|?]%Exists_cons; done.
Qed.
Lemma scan_late l : scan true l <> Some None.
Proof. induction l as [|q l IH]; cbn; [done|]. by case_bool_decide. Qed.

Lemma scan_has late l p : scan late l = Some (Some p) -> has_succeeded l.
Proof. intros (a & b & -> & S & _)%scan_some. apply Exists_app. right. by constructor. Qed.

(** How a call may change a pair. *)
Definition advances (es : list check_event) (p q : CandidatePair) : Prop :=
  pair_key q = pair_key p /\
  (cp_state q = succeeded -> cp_state p = succeeded \/
    exists rtt, ck_result (endpoint (cp_local p)) (endpoint (cp_remote p)) true rtt ∈ es).
Lemma advances_refl es p : advances es p p.
Proof. split; auto. Qed.
Lemma advances_map es (f : CandidatePair -> CandidatePair) l :
  (forall p, advances es p (f p)) -> Forall2 (advances es) l (map f l).
Proof. intros A. induction l; cbn; by constructor. Qed.

Lemma inv_set_pairs c0 es c l nx : check_inv c0 es c -> ck_state c = checking -> Forall2 (advances es) (ck_pairs c) l ->
  check_inv c0 es (mk_checks (ck_local c) (ck_peer c) (ck_role c) l (ck_deadline c) nx (ck_state c)).
Proof.
  intros [K D R _ _] E A. split; cbn; [|done| |congruence..].
  - rewrite <- K. clear -A. induction A as [|p q l l' [A _] _ IH]; cbn; congruence.
  - intros q Hq Sq. apply list_elem_of_lookup in Hq as [i Hq].
    destruct (Forall2_lookup_r _ _ _ _ _ A Hq) as (p & Hp & Kp & [S | (rtt & Hr)]%(fun f => f Sq)); unfold pair_key in Kp; injection Kp as -> -> _.
    + apply R; [by eapply list_elem_of_lookup_2|done].
    + by exists rtt.
Qed.

Lemma inv_nominate c0 es now c : check_inv c0 es c -> check_inv c0 es (fst (nominate now c)).
Proof.
  intros I. unfold nominate. case_bool_decide as E; [done|]. pose proof I as [K D R _ _].
  destruct (scan _ _) as [[p| ]|] eqn:S; [|done|]; (split; cbn; [done..| |]; try done).
  - intros _. by eapply scan_has.
  - intros _. by eapply scan_none.
Qed.

Lemma try_first_advances es l p l' : try_first l = Some (p, l') -> Forall2 (advances es) l l'.
Proof.
  revert l'. induction l as [|q l IH]; intros l'; cbn; [done|]. destruct (to_try q) eqn:T.
  - intros [= _ <-]. constructor; [by split|]. apply Forall_Forall2_diag, Forall_true, advances_refl.
  - destruct (try_first l) as [[? k]|]; [|done]. intros [= -> <-]. constructor; [apply advances_refl|by apply IH].
Qed.

Lemma inv_step c0 es e c : check_inv c0 es c -> check_inv c0 (es ++ [e]) (check_step e c).
Proof.
  intros I0. assert (I : check_inv c0 (es ++ [e]) c).
  { destruct I0 as [K D R X Y]. split; try done. intros p Hp Sp. destruct (R p Hp Sp) as [rtt ?]. exists rtt. set_solver. }
  clear I0. destruct e as [r|now|l r|l r ok rtt|now]; cbn [check_step].
  - unfold resolve_role_conflict. case_bool_decide; [|done]. by destruct I.
  - unfold next. destruct (_ || _) eqn:G; [done|]. bool_prop. destruct (now >=? _).
    + apply inv_nominate, inv_set_pairs; [done..|]. apply advances_map. intros p. case_bool_decide; [apply advances_refl|by split].
    + destruct (try_first _) as [[p l]|] eqn:T; [|by apply inv_nominate]. apply inv_set_pairs; [done..|]. by eapply try_first_advances.
  - unfold note_probe. case_bool_decide; [|done]. apply inv_set_pairs; [done..|]. apply advances_map. intros p.
    destruct (_ && _); [by split|apply advances_refl].
  - unfold check_result. case_bool_decide; [|done]. apply inv_set_pairs; [done..|]. apply advances_map. intros p.
    destruct (_ && _) eqn:B; [|apply advances_refl]. apply andb_true_iff in B as [[<- <-]%is_pair_spec _]. split; [done|]. cbn.
    destruct ok; [|by destruct (_ >=? _)]. intros _. right. exists rtt. set_solver.
  - by apply inv_nominate.
Qed.

Lemma inv_run local peer locals remotes now c0 es : new_checks local peer locals remotes now = Ok c0 ->
  check_inv c0 es (check_run es c0).
Proof.
  intros N. induction es as [|e es IH] using rev_ind; [|unfold check_run; rewrite foldl_snoc; by apply inv_step].
  unfold new_checks in N. ok_inv N. subst c0. unfold check_run. cbn [foldl]. split; cbn; try done.
  intros p Hp. rewrite sort_pairs_perm in Hp. apply list_elem_of_fmap in Hp as (? & -> & _). done.
Qed.

Lemma decided_step c0 es e c : check_inv c0 es c -> ck_state c <> checking ->
  ck_state (check_step e c) = ck_state c /\ ck_pairs (check_step e c) = ck_pairs c.
Proof.
  intros [_ _ _ X Y] N. destruct e; cbn [check_step]; unfold resolve_role_conflict, next, note_probe, check_result;
    try (by case_bool_decide); try (by rewrite bool_decide_false by done).
  unfold nominate. case_bool_decide as U; [done|]. destruct (ck_state c) eqn:E; [done| |done].
  destruct (scan _ _) as [[p| ]|] eqn:S; cbn; [done|done|]. by apply scan_none in S; destruct S; apply X.
Qed.

Lemma ranked_keys l l' : map pair_key l = map pair_key l' -> ranked l' -> ranked l.
Proof.
  revert l'. induction l as [|p l IH]; intros [|q l'] E R; try done.
  cbn in E. injection E as _ _ P E. apply StronglySorted_inv in R as [R F]. constructor; [by eapply IH|].
  clear IH R. revert l' E F. induction l as [|x l IH]; intros [|y l'] E F; try done.
  cbn in E. injection E as _ _ P' E. apply Forall_cons in F as [? F]. constructor; [congruence|by eapply IH].
Qed.

(** What a nomination says of the pairs, once they are ranked. *)
Lemma nominate_best now c c' p : ranked (ck_pairs c) -> nominate now c = (c', Some p) ->
  p ∈ ck_pairs c /\ cp_state p = succeeded /\ ck_state c' = connected /\
  (forall q, q ∈ ck_pairs c -> cp_state q = succeeded -> cp_priority q <= cp_priority p) /\
  (now < ck_deadline c -> forall q, q ∈ ck_pairs c -> cp_priority p < cp_priority q -> cp_state q = failed).
Proof.
  unfold nominate. intros R. case_bool_decide as U; [done|]. destruct (scan _ _) as [[p'| ]|] eqn:S; intros [= <- ->].
  apply scan_some in S as (a & b & E & Sp & F). rewrite E in R |- *. clear U. rewrite Forall_forall in F.
  assert (B : forall q, q ∈ b -> cp_priority q <= cp_priority p).
  { clear -R. induction a as [|x a IH]; apply StronglySorted_inv in R as [R F]; [|by apply IH]. by rewrite Forall_forall in F. }
  split_and!; [set_solver|done|done| |].
  - intros q [Hq|[->|Hq]%elem_of_cons]%elem_of_app Sq; [by destruct (F q Hq)|done|by apply B].
  - intros L q [Hq|[->|Hq]%elem_of_cons]%elem_of_app G; [|lia|specialize (B q Hq); lia]. apply (F q Hq). lia.
Qed.

Lemma nominate_late now c : ck_deadline c <= now -> (ck_state c = unreachable -> ~ has_succeeded (ck_pairs c)) ->
  ck_state (fst (nominate now c)) <> checking /\
  (ck_state (fst (nominate now c)) = connected <-> has_succeeded (ck_pairs c)).
Proof.
  intros D Y. unfold nominate. case_bool_decide as U; cbn; [rewrite U; split; [done|split; [done|by intros ?%Y]]|].
  replace (now >=? _) with true by lia. destruct (scan _ _) as [[p| ]|] eqn:S; cbn.
  - split; [done|]. split; [|done]. intros _. by eapply scan_has.
  - by apply scan_late in S.
  - apply scan_none in S. by split.
Qed.


