(* ===== verification/PathDiagnostics.v ===== *)
(** * Path diagnostics

    protocol/path_diagnostics.hpp and .cpp with core/error.hpp and .cpp: what a client reports of
    its relay connection and of the path to each peer, the codec of the report, the names shown to
    the user, and the classification of an error message. *)
From S2P Require Import Prelude Wire.

(** The [unassigned_*] constructors are enumeration values without a named constant. *)
Inductive PathKind := path_none | relay_quic | relay_tls | direct_quic | unassigned_path_kind (raw : Z).
Inductive PathLifecycle := path_stopped | path_connecting | path_authenticated | path_failed | unassigned_lifecycle (raw : Z).
Inductive PathReason :=
| awaiting_relay | relayed | direct_ready | direct_unreachable | udp_blocked | degraded | revalidating | path_revoked
| connection_stopped | unassigned_reason (raw : Z).
Inductive ErrorCode :=
| no_error | connection_failed | authentication_failed | timeout | backpressure | packet_rejected | adapter_failed
| unsupported | error_revoked | unassigned_error (raw : Z).

Definition path_kind_value (k : PathKind) : Z :=
  match k with path_none => 0 | relay_quic => 1 | relay_tls => 2 | direct_quic => 3 | unassigned_path_kind raw => raw end.
Definition path_kind_cast (raw : Z) : PathKind :=
  match raw with 0 => path_none | 1 => relay_quic | 2 => relay_tls | 3 => direct_quic | _ => unassigned_path_kind raw end.
Definition lifecycle_value (l : PathLifecycle) : Z :=
  match l with path_stopped => 0 | path_connecting => 1 | path_authenticated => 2 | path_failed => 3 | unassigned_lifecycle raw => raw end.
Definition lifecycle_cast (raw : Z) : PathLifecycle :=
  match raw with 0 => path_stopped | 1 => path_connecting | 2 => path_authenticated | 3 => path_failed | _ => unassigned_lifecycle raw end.
Definition reason_value (r : PathReason) : Z :=
  match r with
  | awaiting_relay => 0 | relayed => 1 | direct_ready => 2 | direct_unreachable => 3 | udp_blocked => 4 | degraded => 5
  | revalidating => 6 | path_revoked => 7 | connection_stopped => 8 | unassigned_reason raw => raw end.
Definition reason_cast (raw : Z) : PathReason :=
  match raw with
  | 0 => awaiting_relay | 1 => relayed | 2 => direct_ready | 3 => direct_unreachable | 4 => udp_blocked | 5 => degraded
  | 6 => revalidating | 7 => path_revoked | 8 => connection_stopped | _ => unassigned_reason raw end.
Definition error_value (e : ErrorCode) : Z :=
  match e with
  | no_error => 0 | connection_failed => 1 | authentication_failed => 2 | timeout => 3 | backpressure => 4
  | packet_rejected => 5 | adapter_failed => 6 | unsupported => 7 | error_revoked => 8 | unassigned_error raw => raw end.
Definition error_cast (raw : Z) : ErrorCode :=
  match raw with
  | 0 => no_error | 1 => connection_failed | 2 => authentication_failed | 3 => timeout | 4 => backpressure
  | 5 => packet_rejected | 6 => adapter_failed | 7 => unsupported | 8 => error_revoked | _ => unassigned_error raw end.

Record PathStatus := mk_path_status {
  ps_kind : PathKind; ps_lifecycle : PathLifecycle; ps_rtt_us : option Z; ps_sent_bytes : Z; ps_received_bytes : Z;
  ps_reason : PathReason; ps_error : ErrorCode; ps_sent_packets : Z; ps_received_packets : Z; ps_dropped_packets : Z;
  ps_lost : option Z; ps_retransmitted : option Z; ps_retransmittable : option Z; ps_reconnects : Z }.
Record PeerPathStatus := mk_peer_path { pp_network : bytes; pp_device : bytes; pp_ipv4 : Z; pp_path : PathStatus }.
Record PathDiagnostics := mk_path_diagnostics { pd_relay : PathStatus; pd_peers : list PeerPathStatus; pd_truncated : bool }.

Definition max_diagnostic_peers : Z := 256.

Definition validate_path (p : PathStatus) : result unit :=
  check! negb ((path_kind_value (ps_kind p) >? path_kind_value direct_quic) ||
               (lifecycle_value (ps_lifecycle p) >? lifecycle_value path_failed) ||
               (reason_value (ps_reason p) >? reason_value connection_stopped) ||
               (error_value (ps_error p) >? error_value error_revoked)) else invalid_argument in Ok tt.

(** [(a ? 1 : 0) | (b ? 2 : 0) | ...] over the optional fields. *)
Definition flag (o : option Z) (bit : Z) : Z := match o with Some _ => bit | None => 0 end.
Definition value_or_zero (o : option Z) : Z := match o with Some v => v | None => 0 end.
Definition path_flags (p : PathStatus) : Z :=
  Z.lor (Z.lor (Z.lor (flag (ps_rtt_us p) 1) (flag (ps_lost p) 2)) (flag (ps_retransmitted p) 4)) (flag (ps_retransmittable p) 8).

Definition write_path (p : PathStatus) : result bytes :=
  let* _ := validate_path p in
  Ok (put_be 1 (path_kind_value (ps_kind p)) ++ put_be 1 (lifecycle_value (ps_lifecycle p)) ++
      put_be 1 (reason_value (ps_reason p)) ++ put_be 1 (error_value (ps_error p)) ++ put_be 1 (path_flags p) ++
      put_be 4 (value_or_zero (ps_rtt_us p)) ++ put_be 8 (ps_sent_bytes p) ++ put_be 8 (ps_received_bytes p) ++
      put_be 8 (ps_sent_packets p) ++ put_be 8 (ps_received_packets p) ++ put_be 8 (ps_dropped_packets p) ++
      put_be 8 (value_or_zero (ps_lost p)) ++ put_be 8 (value_or_zero (ps_retransmitted p)) ++
      put_be 8 (value_or_zero (ps_retransmittable p)) ++ put_be 4 (ps_reconnects p)).

Definition present (flags bit v : Z) : option Z := if negb (Z.land flags bit =? 0) then Some v else None.
Definition stray (flags bit v : Z) : bool := (Z.land flags bit =? 0) && negb (v =? 0).

Definition read_path (r : BinaryReader.t) : result (PathStatus * BinaryReader.t) :=
  let* (kind, r) := BinaryReader.get 1 r in
  let* (lifecycle, r) := BinaryReader.get 1 r in
  let* (reason, r) := BinaryReader.get 1 r in
  let* (error, r) := BinaryReader.get 1 r in
  let* (flags, r) := BinaryReader.get 1 r in
  check! Z.land flags (Z.lnot 15) =? 0 else invalid_argument in
  let* (rtt, r) := BinaryReader.get 4 r in
  let* (sent_bytes, r) := BinaryReader.get 8 r in
  let* (received_bytes, r) := BinaryReader.get 8 r in
  let* (sent, r) := BinaryReader.get 8 r in
  let* (received, r) := BinaryReader.get 8 r in
  let* (dropped, r) := BinaryReader.get 8 r in
  let* (lost, r) := BinaryReader.get 8 r in
  let* (retransmitted, r) := BinaryReader.get 8 r in
  let* (retransmittable, r) := BinaryReader.get 8 r in
  check! negb (stray flags 1 rtt || stray flags 2 lost || stray flags 4 retransmitted || stray flags 8 retransmittable)
    else invalid_argument in
  let* (reconnects, r) := BinaryReader.get 4 r in
  let p := mk_path_status (path_kind_cast kind) (lifecycle_cast lifecycle) (present flags 1 rtt) sent_bytes received_bytes
    (reason_cast reason) (error_cast error) sent received dropped (present flags 2 lost) (present flags 4 retransmitted)
    (present flags 8 retransmittable) reconnects in
  let* _ := validate_path p in
  Ok (p, r).

Definition diagnostics_magic : Z := 0x4c4c5044.

Definition write_peer (p : PeerPathStatus) : result bytes :=
  let* path := write_path (pp_path p) in Ok (pp_network p ++ pp_device p ++ put_be 4 (pp_ipv4 p) ++ path).
Definition read_peer (r : BinaryReader.t) : result (PeerPathStatus * BinaryReader.t) :=
  let* (network, r) := BinaryReader.array 16 r in
  let* (device, r) := BinaryReader.array 32 r in
  let* (ipv4, r) := BinaryReader.get 4 r in
  let* (path, r) := read_path r in
  Ok (mk_peer_path network device ipv4 path, r).

Definition encode_path_diagnostics (v : PathDiagnostics) : result bytes :=
  check! negb (len (pd_peers v) >? max_diagnostic_peers) else length_error in
  let* relay := write_path (pd_relay v) in
  let* peers := map_result write_peer (pd_peers v) in
  Ok (put_be 4 diagnostics_magic ++ put_be 1 1 ++ put_be 1 (Z.b2z (pd_truncated v)) ++ put_be 2 (len (pd_peers v)) ++
      relay ++ concat peers).

Definition decode_path_diagnostics (value : bytes) : result PathDiagnostics :=
  let* (magic, r) := BinaryReader.get 4 value in
  check! magic =? diagnostics_magic else invalid_argument in
  let* (version, r) := BinaryReader.get 1 r in
  check! version =? 1 else invalid_argument in
  let* (flags, r) := BinaryReader.get 1 r in
  let* (count, r) := BinaryReader.get 2 r in
  check! negb ((flags >? 1) || (count >? max_diagnostic_peers)) else invalid_argument in
  let* (relay, r) := read_path r in
  let* (peers, r) := BinaryReader.read_n (Z.to_nat count) read_peer r in
  let* _ := BinaryReader.finish r in
  Ok (mk_path_diagnostics relay peers (negb (flags =? 0))).

(** ** Names and error classes *)

Definition path_kind_name (k : PathKind) : bytes :=
  match k with
  | path_none => str "Unavailable" | relay_quic => str "Relay QUIC" | relay_tls => str "Relay TLS/TCP"
  | direct_quic => str "Direct QUIC" | unassigned_path_kind _ => str "Unavailable"
  end.
Definition path_reason_name (r : PathReason) : bytes :=
  match r with
  | awaiting_relay => str "Waiting for relay authentication" | relayed => str "Using the relay"
  | direct_ready => str "Authenticated direct path selected" | direct_unreachable => str "Direct path unavailable"
  | udp_blocked => str "Relay UDP unavailable; using TLS/TCP" | degraded => str "Direct path quality degraded"
  | revalidating => str "Network path is being revalidated" | path_revoked => str "Network membership or key changed"
  | connection_stopped | unassigned_reason _ => str "Connection stopped"
  end.

(** [std::tolower] in the default locale. *)
Definition tolower (b : byte) : Z := if (65 <=? b2z b) && (b2z b <=? 90) then b2z b + 32 else b2z b.
Fixpoint starts_with (word message : bytes) : bool :=
  match word, message with
  | [], _ => true
  | _, [] => false
  | w :: word, m :: message => (tolower m =? tolower w) && starts_with word message
  end.
(** [std::search] of a nonempty word. *)
Fixpoint contains (message word : bytes) : bool :=
  starts_with word message || match message with [] => false | _ :: message => contains message word end.

Definition classify_error (message : bytes) : ErrorCode :=
  if contains message (str "auth") || contains message (str "certificate") || contains message (str "credential") then authentication_failed
  else if contains message (str "timeout") || contains message (str "timed out") then timeout
  else if contains message (str "queue") || contains message (str "backpressure") then backpressure
  else if contains message (str "revok") || contains message (str "epoch") then error_revoked
  else if contains message (str "packet") then packet_rejected
  else if contains message (str "adapter") || contains message (str "wintun") then adapter_failed
  else if contains message (str "unsupported") || contains message (str "capability") then unsupported
  else connection_failed.

Definition error_summary (e : ErrorCode) : bytes :=
  match e with
  | no_error => [] | connection_failed => str "Connection unavailable" | authentication_failed => str "Peer authentication failed"
  | timeout => str "Connection timed out" | backpressure => str "Send queue is full" | packet_rejected => str "Network packet rejected"
  | adapter_failed => str "Virtual adapter failed" | unsupported => str "Peer does not support this feature"
  | error_revoked => str "Network membership or session key changed" | unassigned_error _ => str "Connection unavailable"
  end.

(** ** Field types *)

Definition word_option (n : nat) (o : option Z) : Prop := match o with Some v => word n v | None => True end.

Definition wf_path (p : PathStatus) : Prop :=
  (word 1 (path_kind_value (ps_kind p)) /\ path_kind_cast (path_kind_value (ps_kind p)) = ps_kind p) /\
  (word 1 (lifecycle_value (ps_lifecycle p)) /\ lifecycle_cast (lifecycle_value (ps_lifecycle p)) = ps_lifecycle p) /\
  (word 1 (reason_value (ps_reason p)) /\ reason_cast (reason_value (ps_reason p)) = ps_reason p) /\
  (word 1 (error_value (ps_error p)) /\ error_cast (error_value (ps_error p)) = ps_error p) /\
  (word_option 4 (ps_rtt_us p) /\ word_option 8 (ps_lost p) /\ word_option 8 (ps_retransmitted p) /\ word_option 8 (ps_retransmittable p)) /\
  word 8 (ps_sent_bytes p) /\ word 8 (ps_received_bytes p) /\ word 8 (ps_sent_packets p) /\ word 8 (ps_received_packets p) /\
  word 8 (ps_dropped_packets p) /\ word 4 (ps_reconnects p).
Definition wf_peer_path (p : PeerPathStatus) : Prop :=
  length (pp_network p) = 16%nat /\ length (pp_device p) = 32%nat /\ word 4 (pp_ipv4 p) /\ wf_path (pp_path p).
Definition wf_diagnostics (v : PathDiagnostics) : Prop := wf_path (pd_relay v) /\ Forall wf_peer_path (pd_peers v).

Lemma path_kind_value_cast raw : path_kind_value (path_kind_cast raw) = raw.
Proof. unfold path_kind_cast. repeat case_match; by subst. Qed.
Lemma lifecycle_value_cast raw : lifecycle_value (lifecycle_cast raw) = raw.
Proof. unfold lifecycle_cast. repeat case_match; by subst. Qed.
Lemma reason_value_cast raw : reason_value (reason_cast raw) = raw.
Proof. unfold reason_cast. repeat case_match; by subst. Qed.
Lemma error_value_cast raw : error_value (error_cast raw) = raw.
Proof. unfold error_cast. repeat case_match; by subst. Qed.

(** ** The optional fields *)

Lemma word_value_or_zero n o : word_option n o -> word n (value_or_zero o).
Proof. destruct o; cbn; [done|]. intros _. unfold word. lia. Qed.

(** The flags of a status say which of its optional fields are present. *)
Lemma path_flags_spec p (F := path_flags p) :
  word 1 F /\ Z.land F (Z.lnot 15) = 0 /\
  present F 1 (value_or_zero (ps_rtt_us p)) = ps_rtt_us p /\ present F 2 (value_or_zero (ps_lost p)) = ps_lost p /\
  present F 4 (value_or_zero (ps_retransmitted p)) = ps_retransmitted p /\
  present F 8 (value_or_zero (ps_retransmittable p)) = ps_retransmittable p /\
  stray F 1 (value_or_zero (ps_rtt_us p)) || stray F 2 (value_or_zero (ps_lost p)) ||
  stray F 4 (value_or_zero (ps_retransmitted p)) || stray F 8 (value_or_zero (ps_retransmittable p)) = false.
Proof.
  subst F. unfold path_flags. destruct (ps_rtt_us p), (ps_lost p), (ps_retransmitted p), (ps_retransmittable p);
    cbn [flag value_or_zero]; split_and!; first [reflexivity | by split; vm_compute].
Qed.

Lemma small_flags f : word 1 f -> Z.land f (Z.lnot 15) = 0 ->
  f = flag (present f 1 1) 1 + flag (present f 2 1) 2 + flag (present f 4 1) 4 + flag (present f 8 1) 8 /\ f < 16.
Proof.
  intros W Z0. assert (E : f = Z.land f 15).
  { rewrite <- (Z.lor_0_r (Z.land f 15)), <- Z0, <- Z.land_lor_distr_r. change (Z.lor 15 (Z.lnot 15)) with (-1). by rewrite Z.land_m1_r. }
  change 15 with (Z.ones 4) in E. rewrite Z.land_ones in E by lia. pose proof (Z.mod_pos_bound f (2 ^ 4) eq_refl).
  assert (C : f ∈ map Z.of_nat (seq 0 16)) by (apply list_elem_of_fmap; exists (Z.to_nat f); rewrite elem_of_seq; lia).
  cbn in C. repeat (apply elem_of_cons in C as [->|C]; [done|]). by apply not_elem_of_nil in C.
Qed.

(** Reading flags and fields back gives fields that write the same. *)
Lemma read_flags f a b c d (p : PathStatus) : word 1 f -> Z.land f (Z.lnot 15) = 0 ->
  stray f 1 a = false -> stray f 2 b = false -> stray f 4 c = false -> stray f 8 d = false ->
  ps_rtt_us p = present f 1 a -> ps_lost p = present f 2 b -> ps_retransmitted p = present f 4 c -> ps_retransmittable p = present f 8 d ->
  path_flags p = f /\ value_or_zero (ps_rtt_us p) = a /\ value_or_zero (ps_lost p) = b /\
  value_or_zero (ps_retransmitted p) = c /\ value_or_zero (ps_retransmittable p) = d.
Proof.
  intros W Z0 S1 S2 S3 S4 E1 E2 E3 E4. destruct (small_flags f W Z0) as [B _].
  unfold path_flags. rewrite E1, E2, E3, E4. clear E1 E2 E3 E4.
  assert (V : forall bit v, stray f bit v = false -> value_or_zero (present f bit v) = v).
  { intros bit v. unfold stray, present. destruct (Z.land f bit =? 0); cbn; [|done]. destruct (Z.eqb_spec v 0); [by subst|done]. }
  rewrite !V by done. split_and!; try done. clear V S1 S2 S3 S4 W Z0.
  unfold present in *. destruct (negb (Z.land f 1 =? 0)), (negb (Z.land f 2 =? 0)), (negb (Z.land f 4 =? 0)), (negb (Z.land f 8 =? 0)); cbn in B |- *; by rewrite B.
Qed.

(** ** The codec *)

Lemma read_path_app p bs rest : wf_path p -> write_path p = Ok bs -> read_path (bs ++ rest) = Ok (p, rest).
Proof.
  intros ([K K'] & [L L'] & [R R'] & [X X'] & (O1 & O2 & O3 & O4) & W) H. destruct W as (W1 & W2 & W3 & W4 & W5 & W6).
  apply word_value_or_zero in O1, O2, O3, O4. destruct (path_flags_spec p) as (F & Z0 & P1 & P2 & P3 & P4 & S).
  unfold write_path in H. ok_inv H. subst bs. unfold read_path. rewrite <- !app_assoc. br_read. rewrite Z0.
  cbn [Z.eqb]. br_read. rewrite S. cbn [negb]. br_read. rewrite K', L', R', X', P1, P2, P3, P4. destruct p. cbn in *. by rewrite E.
Qed.

Lemma read_path_inv data p r : read_path data = Ok (p, r) -> wf_path p /\ forall bs, write_path p = Ok bs -> data = bs ++ r.
Proof.
  unfold read_path. intros H. ok_inv H. injection H as <- <-. br_inv. bool_prop.
  match goal with H : validate_path ?q = _ |- _ => set (p := q) in *; rename H into V end.
  match goal with Z0 : Z.land ?f (Z.lnot 15) = 0, W : word 1 ?f, S1 : stray ?f 1 ?a = false, S2 : stray ?f 2 ?b = false,
    S3 : stray ?f 4 ?c = false, S4 : stray ?f 8 ?d = false |- _ =>
    destruct (read_flags f a b c d p W Z0 S1 S2 S3 S4 eq_refl eq_refl eq_refl eq_refl) as (EF & E1 & E2 & E3 & E4) end.
  split.
  - unfold wf_path. subst p. cbn [ps_kind ps_lifecycle ps_reason ps_error ps_rtt_us ps_lost ps_retransmitted ps_retransmittable
      ps_sent_bytes ps_received_bytes ps_sent_packets ps_received_packets ps_dropped_packets ps_reconnects].
    rewrite !path_kind_value_cast, !lifecycle_value_cast, !reason_value_cast, !error_value_cast.
    split_and!; try done; unfold present; by destruct (negb _).
  - intros bs. unfold write_path. rewrite V, EF, E1, E2, E3, E4. intros B. apply Ok_inj in B as <-. subst p.
    cbn [ps_kind ps_lifecycle ps_reason ps_error ps_sent_bytes ps_received_bytes ps_sent_packets ps_received_packets ps_dropped_packets ps_reconnects].
    rewrite !path_kind_value_cast, !lifecycle_value_cast, !reason_value_cast, !error_value_cast. by rewrite <- !app_assoc.
Qed.

Lemma read_path_valid data p r : read_path data = Ok (p, r) -> validate_path p = Ok tt.
Proof. unfold read_path. intros H. ok_inv H. injection H as <- _. by match goal with u : unit |- _ => destruct u end. Qed.

Lemma peer_status_app p bs rest : wf_peer_path p -> write_peer p = Ok bs -> read_peer (bs ++ rest) = Ok (p, rest).
Proof.
  intros (L1 & L2 & W & P) H. unfold write_peer in H. ok_inv H. subst bs. unfold read_peer. rewrite <- !app_assoc. br_read.
  rewrite (read_path_app _ _ _ P E). by destruct p.
Qed.
Lemma peer_status_inv data p r : read_peer data = Ok (p, r) -> wf_peer_path p /\ forall bs, write_peer p = Ok bs -> data = bs ++ r.
Proof.
  unfold read_peer. intros H. ok_inv H. injection H as <- <-. br_inv.
  match goal with E : read_path _ = Ok _ |- _ => apply read_path_inv in E as [W D] end. split; [done|].
  intros bs B. unfold write_peer in B. ok_inv B. subst bs. cbn in *. rewrite (D _ ltac:(eassumption)). by rewrite <- !app_assoc.
Qed.

Lemma valid_writes p : validate_path p = Ok tt -> is_ok (write_path p) = true.
Proof. unfold write_path. by intros ->. Qed.
Lemma read_peers_write n data l r : BinaryReader.read_n n read_peer data = Ok (l, r) -> is_ok (map_result write_peer l) = true.
Proof.
  revert data l. induction n as [|n IH]; intros data l H; cbn in H; ok_inv H; injection H as <- <-; [done|].
  apply IH in E0. cbn [map_result]. unfold read_peer in E. ok_inv E. injection E as <- <-.
  match goal with E : read_path _ = Ok _ |- _ => apply read_path_valid, valid_writes in E as V end. unfold write_peer at 1. cbn [pp_path].
  destruct (write_path _); [|done]. by destruct (map_result _ _).
Qed.

Lemma path_diagnostics_codec b v : decode_path_diagnostics b = Ok v <-> wf_diagnostics v /\ encode_path_diagnostics v = Ok b.
Proof.
  unfold max_diagnostic_peers. split.
  - unfold decode_path_diagnostics. intros H. ok_inv H. bool_prop. subst. br_inv.
    match goal with E : read_path _ = Ok _ |- _ => pose proof (valid_writes _ (read_path_valid _ _ _ E)) as WR; apply read_path_inv in E as [W D] end.
    match goal with E : BinaryReader.read_n _ _ _ = Ok _ |- _ =>
      pose proof (read_peers_write _ _ _ _ E) as WP; apply (BinaryReader.read_n_put_inv _ _ _ peer_status_inv) in E as (L & F & DP) end.
    split; [done|]. unfold encode_path_diagnostics. cbn [pd_peers pd_relay pd_truncated].
    destruct (write_path _) as [w|]; [|done]. destruct (map_result _ _) as [ws|]; [|done].
    unfold max_diagnostic_peers in *. words. guard_true by (unfold len; lia).
    rewrite (D _ eq_refl), (DP _ eq_refl), app_nil_r. do 2 f_equal.
    match goal with |- context [Z.b2z (negb (?f =? 0))] => replace (Z.b2z (negb (f =? 0))) with f by (destruct (Z.eqb_spec f 0); cbn; lia) end.
    do 3 f_equal. f_equal. unfold len. lia.
  - intros [[W F] H]. unfold encode_path_diagnostics in H. ok_inv H. subst b. bool_prop. unfold max_diagnostic_peers in *.
    pose proof (len_nonneg (pd_peers v)). unfold decode_path_diagnostics.
    rewrite BinaryReader.get_app by done. rewrite Z.eqb_refl. br_read. cbn [Z.eqb Pos.eqb].
    rewrite BinaryReader.get_app by (destruct (pd_truncated v); done). br_read.
    guard_true by (unfold max_diagnostic_peers; destruct (pd_truncated v); cbn; lia). rewrite (read_path_app _ _ _ W E).
    replace (Z.to_nat (len (pd_peers v))) with (length (pd_peers v)) by (unfold len; lia).
    rewrite <- (app_nil_r (concat _)), (BinaryReader.read_n_put _ _ _ peer_status_app _ _ _ F E0). cbn [BinaryReader.finish].
    destruct v as [? ? []]; done.
Qed.

(** ** Searching a message *)

Lemma starts_with_spec w m : starts_with w m = true <-> exists x b, m = x ++ b /\ map tolower x = map tolower w.
Proof.
  revert m. induction w as [|c w IH]; intros m; cbn.
  - split; [|done]. intros _. by exists [], m.
  - destruct m as [|d m]; [split; [done|]; by intros ([|? ?] & ? & ? & ?)|]. rewrite andb_true_iff, IH, Z.eqb_eq. split.
    + intros [E (x & b & -> & F)]. exists (d :: x), b. cbn. by rewrite E, F.
    + intros ([|e x] & b & D & F); [done|]. cbn in *. injection D as -> ->. injection F as E F. split; [done|]. by exists x, b.
Qed.

Lemma contains_spec m w : contains m w = true <-> exists a x b, m = a ++ x ++ b /\ map tolower x = map tolower w.
Proof.
  induction m as [|c m IH]; cbn [contains]; rewrite orb_true_iff, starts_with_spec; [|rewrite IH]; split.
  - intros [(x & b & E & F) | ?]; [|done]. by exists [], x, b.
  - intros ([|?] & x & y & E & F); [|done]. left. by exists x, y.
  - intros [(x & b & E & F) | (a & x & b & -> & F)]; [by exists [], x, b|by exists (c :: a), x, b].
  - intros ([|d a] & x & b & E & F); [left; by exists x, b|]. right. injection E as -> ->. by exists a, x, b.
Qed.

Lemma starts_with_case w m m' : map tolower m = map tolower m' -> starts_with w m = starts_with w m'.
Proof.
  revert m m'. induction w as [|c w IH]; intros [|d m] [|e m'] E; cbn in *; try done. injection E as E F. by rewrite E, (IH _ _ F).
Qed.
Lemma contains_case w m m' : map tolower m = map tolower m' -> contains m w = contains m' w.
Proof.
  revert m'. induction m as [|c m IH]; intros [|d m'] E; try done. cbn [contains].
  rewrite (starts_with_case w _ _ E). cbn in E. injection E as _ F. by rewrite (IH _ F).
Qed.

Definition classified (e : ErrorCode) : Prop := 1 <= error_value e <= error_value error_revoked /\ error_summary e <> [].
Lemma classify_error_classified m : classified (classify_error m).
Proof. unfold classify_error. repeat case_match; done. Qed.

(** The path report codec is exact: a report decodes from a payload exactly when the payload is the
    encoding of that well-typed report, absent fields being zero and flagged so; encoding refuses more
    than 256 peers with a length error and otherwise only states outside the enumerations.  An error
    message has the class of the words it contains whatever their case, an authentication word deciding
    first; the class is always one a report can carry and has a text to show. *)
Lemma path_diagnostics_exact (payload : bytes) :
  (forall v, decode_path_diagnostics payload = Ok v <-> wf_diagnostics v /\ encode_path_diagnostics v = Ok payload) /\
  (forall v, encode_path_diagnostics v = Throw length_error <-> 256 < len (pd_peers v)) /\
  (forall v, len (pd_peers v) <= 256 ->
     is_ok (encode_path_diagnostics v) = is_ok (validate_path (pd_relay v)) && forallb (fun p => is_ok (validate_path (pp_path p))) (pd_peers v)) /\
  (forall m m', map tolower m = map tolower m' -> classify_error m = classify_error m') /\
  (forall m, classify_error m = authentication_failed <->
     exists w, w ∈ [str "auth"; str "certificate"; str "credential"] /\ exists a x b, m = a ++ x ++ b /\ map tolower x = map tolower w) /\
  (forall m, classified (classify_error m)).
Proof.
  split; [intros v; apply path_diagnostics_codec|].
  assert (V : forall p, validate_path p = Ok tt \/ validate_path p = Throw invalid_argument)
    by (intros p; unfold validate_path; destruct (negb _); auto).
  assert (P : forall l, (exists bs, map_result write_peer l = Ok bs) /\ forallb (fun p => is_ok (validate_path (pp_path p))) l = true \/
              map_result write_peer l = Throw invalid_argument /\ forallb (fun p => is_ok (validate_path (pp_path p))) l = false).
  { induction l as [|p l IH]; [left; split; [by exists []|done]|]. cbn. unfold write_peer at 1 3, write_path.
    destruct (V (pp_path p)) as [-> | ->]; cbn; [|by right]. destruct IH as [[[bs ->] ->] | [-> ->]]; [left|by right]. split; [by eexists|done]. }
  split_and!.
  - intros v. unfold encode_path_diagnostics, max_diagnostic_peers, write_path. destruct (Z.gtb_spec (len (pd_peers v)) 256); cbn; [by split|].
    split; [|lia]. destruct (V (pd_relay v)) as [-> | ->]; [|done]. destruct (P (pd_peers v)) as [[[? ->] _] | [-> _]]; done.
  - intros v L. unfold encode_path_diagnostics, max_diagnostic_peers, write_path. guard_true by lia.
    destruct (V (pd_relay v)) as [-> | ->]; [|done]. destruct (P (pd_peers v)) as [[[? ->] ->] | [-> ->]]; done.
  - intros m m' E. unfold classify_error. by rewrite !(contains_case _ _ _ E).
  - intros m. unfold classify_error. setoid_rewrite <- contains_spec. split.
    + destruct (_ || _) eqn:E; [intros _|by repeat case_match]. rewrite !orb_true_iff in E.
      destruct E as [[E|E]|E]; eexists; (split; [|exact E]); rewrite !elem_of_cons; auto.
    + intros (w & Hw & E). rewrite !elem_of_cons in Hw. destruct Hw as [-> | [-> | [-> | Hw]]]; [by rewrite E, ?orb_true_r..|by apply not_elem_of_nil in Hw].
  - apply classify_error_classified.
Qed.
