(* ===== verification/PathQuality.v ===== *)
(** * Choosing between the direct path and the relay

    p2p/path_quality.hpp and .cpp: the smoothed round trip and loss of the direct path and the
    hysteresis of the switch between it and the relay.  Time is the steady clock in nanoseconds,
    its epoch standing for "never switched". *)
From S2P Require Import Prelude Wire PathDiagnostics Punch.

Record QualitySample := mk_quality { q_authenticated : bool; q_rtt_us : option Z; q_sent : Z; q_lost : Z }.
Record PathDecision := mk_decision { d_direct : bool; d_reason : PathReason }.
Record PathSelector := mk_selector {
  direct_ : bool; seen_ : bool; healthy_ : Z; bad_ : Z; sent_ : Z; lost_ : Z; rtt_ : option Z; loss_ : option Z; changed_ : Z }.

Definition new_selector : PathSelector := mk_selector false false 0 0 0 0 None None 0.

(** [static_cast<uint32_t>((3ULL * old + v) / 4)], the first value as it is. *)
Definition smooth (old : option Z) (v : Z) : Z :=
  match old with Some o => ((3 * o + v) mod 2 ^ 64 / 4) mod 2 ^ 32 | None => v end.

Definition next_rtt (d : QualitySample) (s : PathSelector) : option Z :=
  match q_rtt_us d with Some v => Some (smooth (rtt_ s) v) | None => rtt_ s end.
Definition next_loss (d : QualitySample) (s : PathSelector) : option Z :=
  if seen_ s && (q_sent d >=? sent_ s) && (q_lost d >=? lost_ s) && (q_sent d >? sent_ s) then
    let count := q_sent d - sent_ s in
    let lost := Z.min (q_lost d - lost_ s) count in
    let current := ((lost * 10000) mod 2 ^ 64 / count) mod 2 ^ 32 in
    Some (smooth (loss_ s) current)
  else loss_ s.

Definition ceiling (relay : option Z) : Z := Z.max 250000 (match relay with Some r => 4 * r | None => 250000 end).
Definition good (rtt loss relay : option Z) : bool :=
  match rtt with Some r => r <=? ceiling relay | None => false end &&
  match loss with Some l => l <=? 1000 | None => true end.

Definition hold (changed now : Z) : bool := negb (changed =? 0) && (now - changed <? 2000 * ms).

Definition sample (d : QualitySample) (relay : option Z) (now : Z) (s : PathSelector) : PathSelector * PathDecision :=
  if negb (q_authenticated d) then
    (mk_selector false false 0 0 (sent_ s) (lost_ s) None None (if direct_ s then now else changed_ s),
     mk_decision false direct_unreachable)
  else
    let rtt := next_rtt d s in
    let loss := next_loss d s in
    let good := good rtt loss relay in
    let healthy := if good then Z.min (healthy_ s + 1) 3 else 0 in
    let bad := if good then 0 else Z.min (bad_ s + 1) 3 in
    let switch := negb (hold (changed_ s) now) && ((direct_ s && (bad >=? 3)) || (negb (direct_ s) && (healthy >=? 3))) in
    let direct := if switch then negb (direct_ s) else direct_ s in
    let changed := if switch then now else changed_ s in
    (mk_selector direct true healthy bad (q_sent d) (q_lost d) rtt loss changed,
     mk_decision direct (if direct then direct_ready else if good then revalidating else degraded)).

(** ** A history of samples *)

Inductive verdict := unauthenticated | healthy | poor.
#[global] Instance verdict_eq_dec : EqDecision verdict.
Proof. solve_decision. Defined.

Definition event : Type := QualitySample * option Z * Z.
Definition time (e : event) : Z := snd e.
Definition sample_event (e : event) (s : PathSelector) : PathSelector := fst (sample (fst (fst e)) (snd (fst e)) (snd e) s).
Definition decision (e : event) (s : PathSelector) : PathDecision := snd (sample (fst (fst e)) (snd (fst e)) (snd e) s).
Definition judge (e : event) (s : PathSelector) : verdict :=
  let d := fst (fst e) in
  if negb (q_authenticated d) then unauthenticated
  else if good (next_rtt d s) (next_loss d s) (snd (fst e)) then healthy else poor.

(** The selector after the samples, what was judged of each and when the path switched, newest first. *)
Record history := mk_history { h_selector : PathSelector; h_verdicts : list verdict; h_switches : list Z }.
Definition observe (e : event) (h : history) : history :=
  let s := h_selector h in
  mk_history (sample_event e s) (judge e s :: h_verdicts h)
    (if bool_decide (direct_ (sample_event e s) = direct_ s) then h_switches h else time e :: h_switches h).
Definition observe_all (es : list event) : history := foldl (fun h e => observe e h) (mk_history new_selector [] []) es.

(** How many of the newest samples in a row were judged [v]. *)
Fixpoint streak (v : verdict) (l : list verdict) : Z :=
  match l with [] => 0 | w :: l => if bool_decide (w = v) then 1 + streak v l else 0 end.

Definition last_switch (l : list Z) : Z := match l with t :: _ => t | [] => 0 end.

Definition wf_event (e : event) : Prop :=
  word_option 4 (q_rtt_us (fst (fst e))) /\ word 8 (q_sent (fst (fst e))) /\ word 8 (q_lost (fst (fst e))).

Record selector_inv (h : history) : Prop := mk_selector_inv {
  si_healthy : healthy_ (h_selector h) = Z.min 3 (streak healthy (h_verdicts h));
  si_bad : bad_ (h_selector h) = Z.min 3 (streak poor (h_verdicts h));
  si_changed : changed_ (h_selector h) = last_switch (h_switches h);
  si_rtt : word_option 4 (rtt_ (h_selector h));
  si_loss : match loss_ (h_selector h) with Some l => 0 <= l <= 10000 | None => True end;
  si_counters : word 8 (sent_ (h_selector h)) /\ word 8 (lost_ (h_selector h));
  si_direct : direct_ (h_selector h) = true -> hd unauthenticated (h_verdicts h) <> unauthenticated }.

Lemma streak_nonneg v l : 0 <= streak v l.
Proof. induction l; cbn; [lia|]. case_bool_decide; lia. Qed.

Lemma smooth_range m old v : 0 <= m < 2 ^ 32 -> 0 <= v <= m -> match old with Some o => 0 <= o <= m | None => True end ->
  0 <= smooth old v <= m.
Proof.
  intros M V O. unfold smooth. destruct old as [o|]; [|done]. rewrite (Z.mod_small (3 * o + v)) by lia.
  rewrite Z.mod_small; [|split; [apply Z.div_pos; lia|]]; (split; [apply Z.div_pos; lia|]) || idtac;
    apply Z.div_le_upper_bound || apply Z.div_lt_upper_bound; lia.
Qed.

Lemma next_rtt_word d s : word_option 4 (q_rtt_us d) -> word_option 4 (rtt_ s) -> word_option 4 (next_rtt d s).
Proof.
  unfold next_rtt, word_option. destruct (q_rtt_us d) as [v|]; [|done]. intros V R. words.
  pose proof (smooth_range (2 ^ 32 - 1) (rtt_ s) v) as B. destruct (rtt_ s); words; lia.
Qed.
Lemma next_loss_range d s : word 8 (sent_ s) -> word 8 (q_sent d) ->
  match loss_ s with Some l => 0 <= l <= 10000 | None => True end ->
  match next_loss d s with Some l => 0 <= l <= 10000 | None => True end.
Proof.
  intros W W' L. unfold next_loss. destruct (_ && _) eqn:G; [|done]. bool_prop. words. apply smooth_range; [lia| |done].
  set (count := q_sent d - sent_ s). set (l := Z.min _ _). assert (0 < count) by lia. assert (0 <= l <= count) by lia.
  pose proof (Z.mod_pos_bound (l * 10000) (2 ^ 64) eq_refl). pose proof (Z.mod_le (l * 10000) (2 ^ 64) ltac:(lia) eq_refl).
  assert (0 <= (l * 10000) mod 2 ^ 64 / count <= 10000).
  { split; [apply Z.div_pos; lia|]. apply Z.div_le_upper_bound; nia. }
  rewrite Z.mod_small; lia.
Qed.

(** One sample of an authenticated path, by cases. *)
Lemma sample_spec e s (s' := sample_event e s) :
  (judge e s = unauthenticated /\ direct_ s' = false /\ healthy_ s' = 0 /\ bad_ s' = 0 /\ rtt_ s' = None /\ loss_ s' = None /\
   sent_ s' = sent_ s /\ lost_ s' = lost_ s /\ changed_ s' = (if direct_ s then time e else changed_ s) /\
   decision e s = mk_decision false direct_unreachable) \/
  (judge e s <> unauthenticated /\ q_authenticated (fst (fst e)) = true /\
   healthy_ s' = (if bool_decide (judge e s = healthy) then Z.min (healthy_ s + 1) 3 else 0) /\
   bad_ s' = (if bool_decide (judge e s = poor) then Z.min (bad_ s + 1) 3 else 0) /\
   rtt_ s' = next_rtt (fst (fst e)) s /\ loss_ s' = next_loss (fst (fst e)) s /\
   sent_ s' = q_sent (fst (fst e)) /\ lost_ s' = q_lost (fst (fst e)) /\
   (let w := negb (hold (changed_ s) (time e)) && ((direct_ s && (bad_ s' >=? 3)) || (negb (direct_ s) && (healthy_ s' >=? 3))) in
    direct_ s' = (if w then negb (direct_ s) else direct_ s) /\ changed_ s' = (if w then time e else changed_ s)) /\
   decision e s = mk_decision (direct_ s')
     (if direct_ s' then direct_ready else if bool_decide (judge e s = healthy) then revalidating else degraded)).
Proof.
  subst s'. unfold sample_event, judge, decision, sample, time. destruct e as [[d relay] now]. cbn [fst snd].
  destruct (q_authenticated d) eqn:A; cbn [negb]; [right|left; done].
  destruct (good _ _ _) eqn:G; split_and!; done.
Qed.

Lemma observe_inv e h : wf_event e -> selector_inv h -> selector_inv (observe e h).
Proof.
  intros (W1 & W2 & W3) [I1 I2 I3 I4 I5 [I6 I7] I8]. unfold observe. set (s := h_selector h) in *.
  destruct (sample_spec e s) as [(J & D & H & B & R & L & S & T & C & _) | (J & _ & H & B & R & L & S & T & (D & C) & _)];
    split; cbn [h_selector h_verdicts h_switches streak hd]; rewrite ?R, ?L, ?S, ?T, ?H, ?B; try done.
  - by rewrite J.
  - by rewrite J.
  - rewrite C, D. destruct (direct_ s); [by rewrite bool_decide_false|by rewrite bool_decide_true].
  - by rewrite D.
  - pose proof (streak_nonneg healthy (h_verdicts h)). destruct (bool_decide (judge e s = healthy)); lia.
  - pose proof (streak_nonneg poor (h_verdicts h)). destruct (bool_decide (judge e s = poor)); lia.
  - rewrite C, D. destruct (_ && _); [|by rewrite bool_decide_true]. by rewrite bool_decide_false by (by destruct (direct_ s)).
  - by apply next_rtt_word.
  - by apply next_loss_range.
Qed.

Lemma observe_all_inv es : Forall wf_event es -> selector_inv (observe_all es).
Proof.
  intros F. induction es as [|e es IH] using rev_ind; [by split|]. unfold observe_all. rewrite foldl_snoc.
  apply Forall_app in F as [F W]. apply observe_inv; [by apply (Forall_singleton wf_event e)|by apply IH].
Qed.

(** At least two seconds since the last switch, or no switch so far. *)
Definition settled (l : list Z) (now : Z) : Prop := last_switch l = 0 \/ last_switch l + 2000 * ms <= now.
Lemma hold_settled l now : hold (last_switch l) now = false <-> settled l now.
Proof. unfold hold, settled. rewrite andb_false_iff, negb_false_iff, Z.eqb_eq, Z.ltb_ge. lia. Qed.

(** The direct path is used only while its samples are authenticated.  It is taken exactly when the
    three newest samples in a row were healthy and the last switch is two seconds old, left exactly when a
    sample is not authenticated or the three newest were poor and the last switch is two seconds old, and
    the decision reports the path in use with the reason for it; the smoothed round trip stays a 32-bit
    number and the smoothed loss at most ten thousand basis points, wrap-around included. *)
Lemma path_selection es e (h := observe_all es) (h' := observe e h) :
  Forall wf_event es -> wf_event e ->
  let s := h_selector h in let s' := h_selector h' in
  (direct_ s' = true -> q_authenticated (fst (fst e)) = true) /\
  (direct_ s = false -> (direct_ s' = true <-> 3 <= streak healthy (h_verdicts h') /\ settled (h_switches h) (time e))) /\
  (direct_ s = true -> (direct_ s' = false <-> judge e s = unauthenticated \/
     3 <= streak poor (h_verdicts h') /\ settled (h_switches h) (time e))) /\
  decision e s = mk_decision (direct_ s')
    (match judge e s with
     | unauthenticated => direct_unreachable
     | v => if direct_ s' then direct_ready else if bool_decide (v = healthy) then revalidating else degraded end) /\
  word_option 4 (rtt_ s') /\ match loss_ s' with Some l => 0 <= l <= 10000 | None => True end.
Proof.
  intros F W s s'. pose proof (observe_all_inv es F) as I. fold h in I. pose proof (observe_inv e h W I) as [H' B' _ R' L' _ _].
  fold h' in H', B', R', L'. destruct I as [_ _ C _ _ _ _]. fold s in C. fold s' in H', B', R', L'.
  assert (E' : s' = sample_event e s) by done.
  destruct (sample_spec e s) as [(J & D & _ & _ & _ & _ & _ & _ & _ & X) | (J & A & _ & _ & _ & _ & _ & _ & (D & _) & X)]; rewrite <- E' in *.
  - assert (N : streak healthy (h_verdicts h') = 0) by (subst h'; cbn; fold s; by rewrite J). rewrite N, D, X, J.
    split_and!; try done; intros _; split; try done; [lia|by left].
  - rewrite H', B', C in D. split_and!; try done.
    + intros ES. rewrite ES in D. rewrite D, <- hold_settled. destruct (hold _ _); cbn [negb andb orb]; [split; [done|by intros [_ ?]]|].
      destruct (Z.geb_spec (Z.min 3 (streak healthy (h_verdicts h'))) 3); cbn [negb andb orb]; (split; [intros ?; try done|intros [? _]; try done; try lia]); split; [lia|done].
    + intros ES. rewrite ES in D. rewrite D, <- hold_settled. destruct (hold _ _); cbn [negb andb orb]; [split; [done|by intros [?|[_ ?]]]|].
      destruct (Z.geb_spec (Z.min 3 (streak poor (h_verdicts h'))) 3); cbn [negb andb orb]; (split; [intros ?; try done; right|intros [?|[? _]]; try done; try lia]); split; [lia|done].
    + rewrite X. by destruct (judge e s).
Qed.
