(* ===== verification/LanDiscovery.v ===== *)
(** * Guarding fan-out traffic

    network/lan_discovery.hpp and .cpp: the shape, rate and repetition checks on broadcast and
    discovery packets; network/packet_history.hpp and .cpp: the memory of fan-out packets that were
    injected, so that the host reflecting one is noticed.  Time is the steady clock in
    nanoseconds; a [std::map] keyed by digest is a [gmap] whose order is that of the digests. *)
From Stdlib Require Import Sorting.Sorted.
From S2P Require Import Ipv4 Multicast Prelude Double Crypto RelayStore.

Record DiscoveryCounters := mk_counters { c_forwarded : Z; c_rate_limited : Z; c_duplicate : Z; c_invalid : Z }.
Record LanDiscoveryGuard := mk_guard {
  g_initialized : bool; g_packets : double; g_bytes : double; g_updated : Z; g_recent : gmap bytes Z; g_counters : DiscoveryCounters }.
Definition new_guard : LanDiscoveryGuard := mk_guard false (d_of_Z 32) (d_of_Z 65536) 0 ∅ (mk_counters 0 0 0 0).

Inductive outcome := forwarded | rate_limited | duplicate | invalid.
#[global] Instance outcome_eq_dec : EqDecision outcome.
Proof. solve_decision. Defined.

(** [++counters_.x]. *)
Definition bump (z : Z) : Z := (z + 1) mod 2 ^ 64.
Definition count (o : outcome) (c : DiscoveryCounters) : DiscoveryCounters :=
  match o with
  | forwarded => mk_counters (bump (c_forwarded c)) (c_rate_limited c) (c_duplicate c) (c_invalid c)
  | rate_limited => mk_counters (c_forwarded c) (bump (c_rate_limited c)) (c_duplicate c) (c_invalid c)
  | duplicate => mk_counters (c_forwarded c) (c_rate_limited c) (bump (c_duplicate c)) (c_invalid c)
  | invalid => mk_counters (c_forwarded c) (c_rate_limited c) (c_duplicate c) (bump (c_invalid c))
  end.

Definition integer (bs : bytes) (offset length : nat) : Z := get_at 4 bs offset length.

(** The groups of mDNS, LLMNR and SSDP and the port each service uses. *)
Definition is_discovery (destination : Z) : bool :=
  (destination =? 0xe00000fb) || (destination =? 0xe00000fc) || (destination =? 0xeffffffa).
Definition discovery_port (destination : Z) : Z :=
  if destination =? 0xe00000fb then 5353 else if destination =? 0xe00000fc then 5355 else 1900.

Definition header_of (packet : bytes) : Z := Z.land (at_z packet 0) 15 * 4.
Definition bad_header (packet : bytes) : bool :=
  negb (Z.shiftr (at_z packet 0) 4 =? 4) || (header_of packet <? 20) || (header_of packet >? len packet) ||
  negb (integer packet 2 2 =? len packet) || (at_z packet 8 =? 0).
Definition bad_discovery (packet : bytes) : bool :=
  let destination := integer packet 16 4 in
  let header := header_of packet in
  negb (at_z packet 9 =? 17) || negb (Z.land (integer packet 6 2) 0x3fff =? 0) || (len packet - header <? 8) ||
  negb (integer packet (Z.to_nat header + 2) 2 =? discovery_port destination) ||
  negb (integer packet (Z.to_nat header + 4) 2 =? len packet - header) ||
  ((destination =? 0xe00000fb) && negb (at_z packet 8 =? 255)).

(** [std::erase_if] of entries of at least this age, and [std::min_element] by age. *)
Definition expire_older (age now : Z) (m : gmap bytes Z) : gmap bytes Z := filter (fun e => now - snd e < age) m.
Definition oldest (m : gmap bytes Z) : option bytes :=
  match order_by (fun e => [snd e; be_value (fst e)]) (map_to_list m) with e :: _ => Some (fst e) | [] => None end.
Definition erase_oldest (m : gmap bytes Z) : gmap bytes Z :=
  match oldest m with Some k => delete k m | None => m end.

Definition finish (o : outcome) (packets bytes_ : double) (updated : Z) (recent : gmap bytes Z) (g : LanDiscoveryGuard)
    : bool * LanDiscoveryGuard :=
  (bool_decide (o = forwarded), mk_guard true packets bytes_ updated recent (count o (g_counters g))).

(** The buckets and the time they were filled at. *)
Definition refill (now : Z) (g : LanDiscoveryGuard) : double * double * Z :=
  let updated := if g_initialized g then g_updated g else now in
  if now >? updated then
    let seconds := d_seconds (now - updated) in
    (d_min (d_of_Z 32) (d_add (g_packets g) (d_mul seconds (d_of_Z 16))),
     d_min (d_of_Z 65536) (d_add (g_bytes g) (d_mul seconds (d_of_Z 32768))), now)
  else (g_packets g, g_bytes g, updated).

Section Guard.
Context {C : Crypto}.

Definition permit (packet : bytes) (now : Z) (g : LanDiscoveryGuard) : bool * LanDiscoveryGuard :=
  let reject := (false, mk_guard (g_initialized g) (g_packets g) (g_bytes g) (g_updated g) (g_recent g) (count invalid (g_counters g))) in
  if len packet <? 20 then reject
  else if bad_header packet then reject
  else
    let discovery := is_discovery (integer packet 16 4) in
    if discovery && bad_discovery packet then reject
    else
      let '(packets, bytes_, updated) := refill now g in
      let recent := expire_older 100000000 now (g_recent g) in
      let spend digest :=
        if d_lt packets (d_of_Z 1) || d_lt bytes_ (d_of_Z (len packet)) then finish rate_limited packets bytes_ updated recent g
        else
          let recent := match digest with
            | Some d => <[d := now]> (if Z.of_nat (size recent) =? 128 then erase_oldest recent else recent)
            | None => recent end in
          finish forwarded (d_sub packets (d_of_Z 1)) (d_sub bytes_ (d_of_Z (len packet))) updated recent g in
      if discovery then
        match sha256 packet with
        | None => finish invalid packets bytes_ updated recent g
        | Some digest =>
            if bool_decide (is_Some (recent !! digest)) then finish duplicate packets bytes_ updated recent g else spend (Some digest)
        end
      else spend None.

(** ** Packets that were injected *)

(** The time to live and the header checksum, which forwarding changes, are left out. *)
Definition normalized (packet : bytes) : bytes :=
  if len packet >=? 20 then <[8%nat := x00]> (<[10%nat := x00]> (<[11%nat := x00]> packet)) else packet.
Definition fingerprint (packet : bytes) : result bytes :=
  match sha256 (normalized packet) with Some d => Ok d | None => Throw runtime_error end.

Definition history_age : Z := 2000000000.
Definition history_contains (packet : bytes) (now : Z) (m : gmap bytes Z) : result bool * gmap bytes Z :=
  let m := expire_older history_age now m in
  match fingerprint packet with Ok d => (Ok (bool_decide (is_Some (m !! d))), m) | Throw e => (Throw e, m) end.
Definition history_remember (packet : bytes) (now : Z) (m : gmap bytes Z) : result unit * gmap bytes Z :=
  let m := expire_older history_age now m in
  let m := if Z.of_nat (size m) >=? 256 then erase_oldest m else m in
  match fingerprint packet with Ok d => (Ok tt, <[d := now]> m) | Throw e => (Throw e, m) end.
End Guard.

(** ** Entries and their age *)

Lemma expire_lookup age now m k t : expire_older age now m !! k = Some t <-> m !! k = Some t /\ now - t < age.
Proof. unfold expire_older. by rewrite map_lookup_filter_Some. Qed.
Lemma expire_size age now m : (size (expire_older age now m) <= size m)%nat.
Proof. apply map_subseteq_size, map_filter_subseteq. Qed.

Lemma oldest_some m k : oldest m = Some k -> exists t, m !! k = Some t /\ forall k' t', m !! k' = Some t' -> t <= t'.
Proof.
  unfold oldest. set (key := fun e : bytes * Z => [snd e; be_value (fst e)]).
  pose proof (order_by_perm key (map_to_list m)) as P. pose proof (order_by_sorted key (map_to_list m)) as S.
  destruct (order_by key (map_to_list m)) as [|[k0 t] l]; [done|]. intros [= ->]. exists t. split.
  - apply elem_of_map_to_list. rewrite <- P. by left.
  - intros k' t' H. apply elem_of_map_to_list in H. rewrite <- P in H. apply elem_of_cons in H as [[= -> ->]|H]; [lia|].
    apply StronglySorted_inv in S as [_ F]. rewrite Forall_forall in F. specialize (F _ H). unfold key in F. cbn in F.
    apply orb_true_iff in F. destruct F as [F|F]; bool_prop; lia.
Qed.
Lemma oldest_none m : oldest m = None -> m = ∅.
Proof.
  unfold oldest. pose proof (order_by_perm (fun e : bytes * Z => [snd e; be_value (fst e)]) (map_to_list m)) as P.
  destruct (order_by _ _); [|done]. intros _. apply map_to_list_empty_iff. by apply Permutation_nil.
Qed.
Lemma erase_oldest_size m : m <> ∅ -> size m = S (size (erase_oldest m)).
Proof.
  intros N. unfold erase_oldest. destruct (oldest m) as [k|] eqn:E; [|by apply oldest_none in E].
  apply oldest_some in E as (t & H & _). rewrite map_size_delete, H.
  assert (size m <> 0%nat) by (by rewrite map_size_empty_iff). cbn. lia.
Qed.
Lemma erase_oldest_lookup m k t : m !! k = Some t ->
  erase_oldest m !! k = Some t \/ (erase_oldest m !! k = None /\ forall k' t', m !! k' = Some t' -> t <= t').
Proof.
  intros H. unfold erase_oldest. destruct (oldest m) as [o|] eqn:E; [|by left]. apply oldest_some in E as (t0 & H0 & O).
  destruct (decide (o = k)) as [->|N]; [right|left; by rewrite lookup_delete_ne].
  split; [apply lookup_delete_eq|]. rewrite H in H0. injection H0 as ->. exact O.
Qed.

(** ** What is let through *)

Record well_formed (packet : bytes) : Prop := mk_well_formed {
  wfp_size : 20 <= len packet;
  wfp_version : Z.shiftr (at_z packet 0) 4 = 4;
  wfp_header : 20 <= header_of packet <= len packet;
  wfp_length : integer packet 2 2 = len packet;
  wfp_ttl : at_z packet 8 <> 0 }.
(** mDNS, LLMNR and SSDP: the group and the port of each. *)
Definition discovery_services : list (Z * Z) := [(0xe00000fb, 5353); (0xe00000fc, 5355); (0xeffffffa, 1900)].
Definition for_discovery (packet : bytes) : Prop := integer packet 16 4 ∈ map fst discovery_services.
(** An unfragmented UDP packet to the port of the group's service. *)
Record discovery_packet (packet : bytes) : Prop := mk_discovery_packet {
  dp_udp : at_z packet 9 = 17;
  dp_whole : Z.land (integer packet 6 2) 0x3fff = 0;
  dp_room : header_of packet + 8 <= len packet;
  dp_port : (integer packet 16 4, integer packet (Z.to_nat (header_of packet) + 2) 2) ∈ discovery_services;
  dp_length : integer packet (Z.to_nat (header_of packet) + 4) 2 = len packet - header_of packet;
  dp_mdns : integer packet 16 4 = 0xe00000fb -> at_z packet 8 = 255 }.

Lemma bad_header_false packet : (len packet <? 20) = false /\ bad_header packet = false <-> well_formed packet.
Proof.
  unfold bad_header. rewrite Z.ltb_ge, !orb_false_iff, !negb_false_iff, !Z.eqb_eq, Z.ltb_ge, Z.gtb_ltb, Z.ltb_ge, Z.eqb_neq. split.
  - intros (L & (((A & B) & D) & E) & F). by split.
  - intros [L A [B D] E F]. done.
Qed.
Lemma is_discovery_spec packet : is_discovery (integer packet 16 4) = true <-> for_discovery packet.
Proof. unfold is_discovery, for_discovery. cbn. rewrite !orb_true_iff, !Z.eqb_eq, !elem_of_cons, elem_of_nil. tauto. Qed.
Lemma discovery_port_spec a p : a ∈ map fst discovery_services -> p = discovery_port a <-> (a, p) ∈ discovery_services.
Proof.
  cbn. unfold discovery_services. rewrite !elem_of_cons, elem_of_nil. intros [->|[->|[->|[]]]]; unfold discovery_port; cbn; (split; [intros ->; auto|]); rewrite elem_of_nil;
    intros [[=]|[[=]|[[=]|[]]]]; subst; done.
Qed.
Lemma bad_discovery_false packet : for_discovery packet -> bad_discovery packet = false <-> discovery_packet packet.
Proof.
  intros D. unfold bad_discovery. cbv zeta. rewrite !orb_false_iff, !negb_false_iff, andb_false_iff, negb_false_iff, !Z.eqb_eq, Z.ltb_ge, Z.eqb_neq.
  rewrite (discovery_port_spec _ _ D). split.
  - intros [[[[[H1 H2] H3] H4] H5] H6]. split; try done; [lia|]. intros E. destruct H6; done.
  - intros [H1 H2 H3 H4 H5 H6]. split_and!; try done; [lia|]. destruct (decide (integer packet 16 4 = 0xe00000fb)); auto.
Qed.

Lemma insert_size_le (m : gmap bytes Z) k t : (size (<[k := t]> m) <= S (size m))%nat.
Proof. rewrite map_size_insert. destruct (m !! k); cbn; lia. Qed.

(** The tokens at [now] of a bucket that held [tokens] at [since], gains [rate] a second and holds at most [cap]. *)
Definition available (cap rate : Z) (tokens : double) (since now : Z) : double :=
  if since <? now then d_min (d_of_Z cap) (d_add tokens (d_mul (d_seconds (now - since)) (d_of_Z rate))) else tokens.
Definition since (g : LanDiscoveryGuard) (now : Z) : Z := if g_initialized g then g_updated g else now.
Definition packet_tokens (g : LanDiscoveryGuard) (now : Z) : double := available 32 16 (g_packets g) (since g now) now.
Definition byte_tokens (g : LanDiscoveryGuard) (now : Z) : double := available 65536 32768 (g_bytes g) (since g now) now.
Lemma refill_spec now g : refill now g = (packet_tokens g now, byte_tokens g now, Z.max (since g now) now).
Proof.
  unfold refill, packet_tokens, byte_tokens, available. fold (since g now). rewrite Z.gtb_ltb. destruct (Z.ltb_spec (since g now) now).
  - by rewrite Z.max_r by lia.
  - by rewrite Z.max_l by lia.
Qed.
(** What [g'] holds after a packet that took [n] tokens and [b] bytes. *)
Definition tokens_left (g g' : LanDiscoveryGuard) (now : Z) (taken : option Z) : Prop :=
  g_updated g' = Z.max (since g now) now /\
  match taken with
  | Some size => g_packets g' = d_sub (packet_tokens g now) (d_of_Z 1) /\ g_bytes g' = d_sub (byte_tokens g now) (d_of_Z size)
  | None => g_packets g' = packet_tokens g now /\ g_bytes g' = byte_tokens g now
  end.
Definition affords (packet : bytes) (g : LanDiscoveryGuard) (now : Z) : Prop :=
  d_lt (packet_tokens g now) (d_of_Z 1) = false /\ d_lt (byte_tokens g now) (d_of_Z (len packet)) = false.
Definition seen_before (digest : bytes) (now : Z) (g : LanDiscoveryGuard) : Prop := exists t, g_recent g !! digest = Some t /\ now - t < 100000000.

Section Permit.
Context `{Crypto} (packet : bytes) (now : Z) (g : LanDiscoveryGuard).
Let g' := snd (permit packet now g).
Let kept := expire_older 100000000 now (g_recent g).

(** Every call of [permit] by the outcome it counts. *)
Inductive permit_outcome : outcome -> Prop :=
| po_rejected : ~ (well_formed packet /\ (for_discovery packet -> discovery_packet packet)) ->
    g_recent g' = g_recent g -> g_packets g' = g_packets g -> g_bytes g' = g_bytes g -> permit_outcome invalid
| po_unhashed : well_formed packet -> for_discovery packet -> discovery_packet packet -> sha256 packet = None ->
    g_recent g' = kept -> tokens_left g g' now None -> permit_outcome invalid
| po_duplicate d : well_formed packet -> for_discovery packet -> discovery_packet packet -> sha256 packet = Some d -> seen_before d now g ->
    g_recent g' = kept -> tokens_left g g' now None -> permit_outcome duplicate
| po_limited : well_formed packet -> (for_discovery packet -> discovery_packet packet /\ exists d, sha256 packet = Some d /\ ~ seen_before d now g) ->
    ~ affords packet g now -> g_recent g' = kept -> tokens_left g g' now None -> permit_outcome rate_limited
| po_plain : well_formed packet -> ~ for_discovery packet -> affords packet g now ->
    g_recent g' = kept -> tokens_left g g' now (Some (len packet)) -> permit_outcome forwarded
| po_discovery d : well_formed packet -> for_discovery packet -> discovery_packet packet -> sha256 packet = Some d -> ~ seen_before d now g ->
    affords packet g now -> g_recent g' = <[d := now]> (if Z.of_nat (size kept) =? 128 then erase_oldest kept else kept) ->
    tokens_left g g' now (Some (len packet)) -> permit_outcome forwarded.

Lemma seen_before_kept d : seen_before d now g <-> is_Some (kept !! d).
Proof. unfold seen_before, kept, is_Some. by setoid_rewrite expire_lookup. Qed.
Lemma affords_spec : d_lt (packet_tokens g now) (d_of_Z 1) || d_lt (byte_tokens g now) (d_of_Z (len packet)) = false <-> affords packet g now.
Proof. apply orb_false_iff. Qed.

Lemma permit_cases : exists o, fst (permit packet now g) = bool_decide (o = forwarded) /\ g_counters g' = count o (g_counters g) /\ permit_outcome o.
Proof.
  pose proof po_rejected as Pr. pose proof po_unhashed as Pu. pose proof po_duplicate as Pd. pose proof po_limited as Pl. pose proof po_plain as Pp.
  pose proof po_discovery as Py. assert (E : exists r, r = permit packet now g) by (by eexists). destruct E as [r E].
  unfold g' in Pr, Pu, Pd, Pl, Pp, Py |- *. rewrite <- E in Pr, Pu, Pd, Pl, Pp, Py |- *.
  unfold permit in E. rewrite refill_spec in E. cbv zeta in E. fold kept in E.
  destruct (len packet <? 20) eqn:L; [|destruct (bad_header packet) eqn:B].
  1,2: subst r; exists invalid; split; [done|]; split; [done|]; apply Pr; [|done..]; intros [W _]; apply bad_header_false in W; destruct W; congruence.
  assert (W : well_formed packet) by (by apply bad_header_false). destruct (is_discovery _) eqn:D; cbn [andb] in E.
  - apply is_discovery_spec in D. destruct (bad_discovery packet) eqn:B2.
    { subst r. exists invalid. split; [done|]. split; [done|]. apply Pr; [|done..]. intros [_ X]. apply (bad_discovery_false _ D) in X; [congruence|done]. }
    apply (bad_discovery_false _ D) in B2. destruct (sha256 packet) as [d|] eqn:S; [|subst r; exists invalid; split; [done|]; split; [done|]; by apply Pu].
    destruct (bool_decide_reflect (is_Some (kept !! d))) as [K|K]; rewrite <- seen_before_kept in K.
    { subst r. exists duplicate. split; [done|]. split; [done|]. by apply (Pd d). }
    destruct (_ || _) eqn:T.
    { subst r. exists rate_limited. split; [done|]. split; [done|]. apply Pl; try done; [intros _; split; [done|]; by exists d|]. intros X. apply affords_spec in X. congruence. }
    apply affords_spec in T. subst r. exists forwarded. split; [done|]. split; [done|]. by apply (Py d).
  - assert (Nd : ~ for_discovery packet) by (intros X; apply is_discovery_spec in X; congruence). destruct (_ || _) eqn:T.
    { subst r. exists rate_limited. split; [done|]. split; [done|]. apply Pl; try done. intros X. apply affords_spec in X. congruence. }
    apply affords_spec in T. subst r. exists forwarded. split; [done|]. split; [done|]. by apply Pp.
Qed.
(** What is permitted. *)
Lemma permit_exact : fst (permit packet now g) = true <->
  well_formed packet /\ affords packet g now /\
  (for_discovery packet -> discovery_packet packet /\ exists d, sha256 packet = Some d /\ ~ seen_before d now g).
Proof.
  destruct permit_cases as (o & -> & _ & O). rewrite bool_decide_eq_true.
  destruct O as [N _ _ _|W D P S _ _|d W D P S B _ _|W D N _ _|W D A _ _|d W D P S B A _ _]; (split; [intros E; try discriminate E|intros (W' & A' & D')]).
  - destruct N. split; [done|]. intros X. by apply D'.
  - destruct (D' D) as (_ & d & E & _). congruence.
  - destruct (D' D) as (_ & d' & E & N). rewrite S in E. injection E as <-. done.
  - done.
  - done.
  - done.
  - split_and!; try done. intros _. split; [done|]. by exists d.
  - done.
Qed.
Lemma permit_recent_size : (size (g_recent g) <= 128)%nat -> (size (g_recent g') <= 128)%nat.
Proof.
  intros S. destruct permit_cases as (o & _ & _ & R). pose proof (expire_size 100000000 now (g_recent g)) as E. fold kept in E.
  destruct R as [_ -> _ _|_ _ _ _ -> _|d _ _ _ _ _ -> _|_ _ _ -> _|_ _ _ -> _|d _ _ _ _ _ _ -> _]; try lia.
  etrans; [apply insert_size_le|]. destruct (Z.eqb_spec (Z.of_nat (size kept)) 128) as [E'|E']; [|lia].
  assert (kept <> ∅) by (intros X; rewrite X, map_size_empty in E'; lia). rewrite <- erase_oldest_size by done. lia.
Qed.
End Permit.

Lemma normalized_changes packet a b c : 20 <= len packet -> normalized (<[8%nat := a]> (<[10%nat := b]> (<[11%nat := c]> packet))) = normalized packet.
Proof.
  unfold normalized, len. intros L20. rewrite !length_insert. replace (_ >=? 20) with true by lia.
  apply list_eq. intros i. destruct (decide (i < length packet)%nat) as [L|L].
  - destruct (decide (i = 8)%nat) as [->|N8]; [by rewrite !list_lookup_insert_eq by (rewrite ?length_insert; lia)|].
    destruct (decide (i = 10)%nat) as [->|N10];
      [rewrite !(list_lookup_insert_ne _ 8 10) by done; by rewrite !list_lookup_insert_eq by (rewrite ?length_insert; lia)|].
    destruct (decide (i = 11)%nat) as [->|N11];
      [rewrite !(list_lookup_insert_ne _ 8 11), !(list_lookup_insert_ne _ 10 11) by done; by rewrite !list_lookup_insert_eq by (rewrite ?length_insert; lia)|].
    by rewrite !list_lookup_insert_ne by done.
  - rewrite !lookup_ge_None_2 by (rewrite ?length_insert; lia). done.
Qed.

Lemma history_contains_spec `{Crypto} packet now m :
  fst (history_contains packet now m) = Ok true <->
  exists d t, fingerprint packet = Ok d /\ m !! d = Some t /\ now - t < history_age.
Proof.
  unfold history_contains. destruct (fingerprint packet) as [d|e]; cbn; [|split; [done|by intros (? & ? & ? & _)]]. split.
  - intros E. apply Ok_inj, bool_decide_eq_true in E as [t E]. apply expire_lookup in E as [E A]. by exists d, t.
  - intros (d' & t & [= <-] & L & A). f_equal. apply bool_decide_eq_true. exists t. by apply expire_lookup.
Qed.

Lemma history_remember_size `{Crypto} packet now m : (size m <= 256)%nat -> (size (snd (history_remember packet now m)) <= 256)%nat.
Proof.
  intros S. unfold history_remember. pose proof (expire_size history_age now m). set (r := expire_older _ _ _) in *.
  assert (B : (size (if Z.of_nat (size r) >=? 256 then erase_oldest r else r) < 256)%nat).
  { destruct (Z.geb_spec (Z.of_nat (size r)) 256); [|lia]. assert (r <> ∅) by (intros X; rewrite X, map_size_empty in *; lia).
    pose proof (erase_oldest_size r ltac:(done)). lia. }
  destruct (fingerprint packet); cbn; [|lia]. etrans; [apply insert_size_le|]. lia.
Qed.

(** ** Both memories over any sequence of calls *)

(** [log] lists what was put in, with the time; a memory of that age and size still has an entry that is young enough
    while fewer than [cap] were put in since (at its time or later). *)
Definition since_then (log : list (bytes * Z)) (t : Z) : Z := Z.of_nat (length (List.filter (fun e => t <=? snd e) log)).
Record remembers (cap age clock : Z) (log : list (bytes * Z)) (m : gmap bytes Z) : Prop := mk_remembers {
  rm_sound d t : m !! d = Some t -> (d, t) ∈ log;
  rm_complete d t : (d, t) ∈ log -> clock - t < age -> since_then log t < cap -> exists t', m !! d = Some t' /\ t <= t';
  rm_past d t : (d, t) ∈ log -> t <= clock }.

Lemma since_then_size (log : list (bytes * Z)) (m : gmap bytes Z) t : (forall d u, m !! d = Some u -> (d, u) ∈ log /\ t <= u) -> Z.of_nat (size m) <= since_then log t.
Proof.
  intros F. unfold since_then. apply inj_le. rewrite <- length_map_to_list. apply NoDup_incl_length.
  - apply NoDup_ListNoDup, NoDup_map_to_list.
  - intros [d u] H. apply list_elem_of_In, elem_of_map_to_list in H. destruct (F _ _ H) as [L T]. apply filter_In. split; [by apply list_elem_of_In|]. by apply Z.leb_le.
Qed.
Lemma since_then_app log e t : since_then log t <= since_then (log ++ [e]) t.
Proof. unfold since_then. rewrite List.filter_app, length_app. lia. Qed.

Lemma remembers_expire cap age clock now log m : clock <= now -> remembers cap age clock log m -> remembers cap age now log (expire_older age now m).
Proof.
  intros L [S Cm P]. split.
  - intros d t [H _]%expire_lookup. by apply S.
  - intros d t H A N. destruct (Cm d t H) as (t' & E & T); [lia|done|]. exists t'. split; [|done]. apply expire_lookup. split; [done|lia].
  - intros d t H. specialize (P d t H). lia.
Qed.
Lemma remembers_evict cap age clock log m : cap <= Z.of_nat (size m) -> remembers cap age clock log m -> remembers cap age clock log (erase_oldest m).
Proof.
  intros Sz [S Cm P]. split; [|intros d t H A N|done].
  - intros d t H. apply S. unfold erase_oldest in H. destruct (oldest m); [by apply lookup_delete_Some in H as [_ H]|done].
  - destruct (Cm d t H A N) as (t' & E & T). exists t'. split; [|done]. destruct (erase_oldest_lookup m d t' E) as [?|[_ O]]; [done|exfalso].
    pose proof (since_then_size log m t) as X. assert (Z.of_nat (size m) <= since_then log t); [|lia]. apply X. intros d' u Hu. split; [by apply S|]. specialize (O _ _ Hu). lia.
Qed.
Lemma remembers_insert cap age clock now log m d : clock <= now -> remembers cap age now log m -> remembers cap age now (log ++ [(d, now)]) (<[d := now]> m).
Proof.
  intros L [S Cm P]. split.
  - intros d' t H. apply elem_of_app. apply lookup_insert_Some in H as [[<- <-]|[_ H]]; [right; by left|left; by apply S].
  - intros d' t H A N. apply elem_of_app in H. destruct (decide (d' = d)) as [->|Nd].
    + exists now. rewrite lookup_insert_eq. split; [done|]. destruct H as [H|H]; [by apply (P d)|]. apply list_elem_of_singleton in H. by injection H as ->.
    + destruct H as [H|H]; [|apply list_elem_of_singleton in H; congruence]. pose proof (since_then_app log (d, now) t).
      destruct (Cm d' t H) as (t' & E & T); [done|lia|]. exists t'. by rewrite lookup_insert_ne.
  - intros d' t H. apply elem_of_app in H as [H|H]; [by apply (P d')|]. apply list_elem_of_singleton in H. injection H as -> ->. lia.
Qed.
Lemma remembers_nothing cap age clock : remembers cap age clock [] ∅.
Proof. split; intros d t; rewrite ?lookup_empty; try done; intros H; by apply not_elem_of_nil in H. Qed.

Section Runs.
Context `{Crypto}.

(** A guard after calls of [permit], with the digests of the discovery packets it let through. *)
Inductive guard_run : Z -> list (bytes * Z) -> LanDiscoveryGuard -> Prop :=
| gr_new clock : guard_run clock [] new_guard
| gr_permit clock log g packet now : guard_run clock log g -> clock <= now ->
    guard_run now (log ++ match sha256 packet with
      | Some d => if fst (permit packet now g) && bool_decide (for_discovery packet) then [(d, now)] else []
      | None => [] end) (snd (permit packet now g)).
Lemma guard_remembers clock log g : guard_run clock log g -> remembers 128 100000000 clock log (g_recent g).
Proof.
  induction 1 as [clock|clock log g packet now _ IH L]; [apply remembers_nothing|].
  assert (Later : remembers 128 100000000 now log (g_recent g)) by (destruct IH as [S Cm P]; split; [done|intros d t Hd A N; apply Cm; [done|lia|done]|intros d t Hd; specialize (P d t Hd); lia]).
  apply (remembers_expire _ _ clock now) in IH; [|done].
  destruct (permit_cases packet now g) as (o & E & _ & O). rewrite E.
  assert (Nothing : forall b, b = false -> log ++ match sha256 packet with Some d => if b then [(d, now)] else [] | None => [] end = log)
    by (intros b ->; destruct (sha256 packet); apply app_nil_r).
  destruct O as [_ Rc _ _|_ _ _ _ Rc _|d _ _ _ _ _ Rc _|_ _ _ Rc _|_ D _ Rc _|d _ D _ S _ _ Rc _]; rewrite Rc.
  - by rewrite Nothing.
  - by rewrite Nothing.
  - by rewrite Nothing.
  - by rewrite Nothing.
  - rewrite Nothing; [done|]. by rewrite (bool_decide_eq_false_2 _ D), andb_false_r.
  - rewrite S, !bool_decide_eq_true_2 by done. cbn [andb]. apply (remembers_insert _ _ now); [lia|].
    destruct (Z.eqb_spec (Z.of_nat (size (expire_older 100000000 now (g_recent g)))) 128); [|done]. apply remembers_evict; [lia|done].
Qed.
(** A packet that was let through is not let through again within 100 ms, and only such a packet counts as a duplicate. *)
Lemma guard_refuses clock log g packet d now : guard_run clock log g -> clock <= now -> for_discovery packet -> sha256 packet = Some d ->
  (forall t, (d, t) ∈ log -> now - t < 100000000 -> since_then log t < 128 -> fst (permit packet now g) = false) /\
  (c_duplicate (g_counters (snd (permit packet now g))) <> c_duplicate (g_counters g) -> exists t, (d, t) ∈ log /\ now - t < 100000000).
Proof.
  intros R L D S. pose proof (guard_remembers _ _ _ R) as M. split.
  - intros t I A N. apply not_true_iff_false. intros P. apply permit_exact in P as (_ & _ & F). destruct (F D) as (_ & d' & S' & B). rewrite S in S'. injection S' as <-.
    apply B. apply (remembers_expire _ _ clock now) in M; [|done]. destruct (rm_complete _ _ _ _ _ M d t I A N) as (t' & E & _). apply expire_lookup in E as [E A']. by exists t'.
  - intros N. destruct (permit_cases packet now g) as (o & _ & E & O). rewrite E in N.
    destruct O as [_ _ _ _|_ _ _ _ _ _|d' _ _ _ S' (t & I & A) _ _|_ _ _ _ _|_ _ _ _ _|d' _ _ _ _ _ _ _ _]; try done. rewrite S in S'. injection S' as <-.
    exists t. split; [|done]. by apply (rm_sound _ _ _ _ _ M).
Qed.

(** The injected packets after calls of [remember] and [contains]. *)
Inductive history_run : Z -> list (bytes * Z) -> gmap bytes Z -> Prop :=
| hr_new clock : history_run clock [] ∅
| hr_remember clock log m packet now : history_run clock log m -> clock <= now ->
    history_run now (log ++ match fingerprint packet with Ok d => [(d, now)] | Throw _ => [] end) (snd (history_remember packet now m))
| hr_contains clock log m packet now : history_run clock log m -> clock <= now -> history_run now log (snd (history_contains packet now m)).
Lemma history_remembers clock log m : history_run clock log m -> remembers 256 history_age clock log m.
Proof.
  induction 1 as [clock|clock log m packet now _ IH L|clock log m packet now _ IH L]; [apply remembers_nothing|..]; apply (remembers_expire _ _ clock now) in IH; try done.
  - unfold history_remember. set (r := expire_older _ _ _) in *.
    assert (M : remembers 256 history_age now log (if Z.of_nat (size r) >=? 256 then erase_oldest r else r)) by (destruct (Z.geb_spec (Z.of_nat (size r)) 256); [apply remembers_evict; [lia|done]|done]).
    destruct (fingerprint packet) as [d|]; cbn; [|by rewrite app_nil_r]. by apply (remembers_insert _ _ now).
  - unfold history_contains. by destruct (fingerprint packet).
Qed.
(** A packet counts as reflected only if its like was injected less than two seconds ago, and always then unless 256 were injected since. *)
Lemma history_exact clock log m packet d now : history_run clock log m -> clock <= now -> fingerprint packet = Ok d ->
  (fst (history_contains packet now m) = Ok true -> exists t, (d, t) ∈ log /\ now - t < 2000000000) /\
  (forall t, (d, t) ∈ log -> now - t < 2000000000 -> since_then log t < 256 -> fst (history_contains packet now m) = Ok true) /\
  is_ok (fst (history_contains packet now m)) = true.
Proof.
  intros R L F. pose proof (history_remembers _ _ _ R) as M. split_and!.
  - intros C. apply history_contains_spec in C as (d' & t & F' & I & A). rewrite F in F'. injection F' as <-. exists t. split; [by apply (rm_sound _ _ _ _ _ M)|done].
  - intros t I A N. apply history_contains_spec. apply (remembers_expire _ _ clock now) in M; [|done].
    destruct (rm_complete _ _ _ _ _ M d t I A N) as (t' & E & _). apply expire_lookup in E as [E A']. by exists d, t'.
  - unfold history_contains. by rewrite F.
Qed.
Lemma guard_run_size clock log g : guard_run clock log g -> (size (g_recent g) <= 128)%nat.
Proof. induction 1; [cbn; rewrite map_size_empty; lia|by apply permit_recent_size]. Qed.
Lemma history_run_size clock log m : history_run clock log m -> (size m <= 256)%nat.
Proof.
  induction 1 as [clock|clock log m packet now _ IH _|clock log m packet now _ IH _]; [rewrite map_size_empty; lia|by apply history_remember_size|].
  unfold history_contains. pose proof (expire_size history_age now m). destruct (fingerprint packet); cbn; lia.
Qed.
End Runs.

(** C34: Fan-out traffic is guarded.  In every state of the multicast membership reachable by reports and host
    synchronizations, at most 64 groups with at most 64 sources each and at most 256 host groups are kept, and only
    scoped multicast groups are ever received.  A report that is not accepted changes nothing; an accepted one turns
    the live source filters into those RFC 3376 prescribes for the report (join and leave for the older versions),
    and while no host list overrides them, a group that has a filter is received exactly from the sources it wants.
    Each call of [permit] counts exactly one outcome and permits a packet exactly when it is a well-formed IPv4 packet, the
    buckets (32 packets and 64 KiB, refilled by 16 packets and 32 KiB a second, never above that) hold a packet and its
    bytes, and, for a discovery group, it is an unfragmented UDP packet to that service's port that is not remembered; what
    is permitted is paid for.  Over any calls of a guard: a discovery packet that was let through is refused for 100 ms, as long
    as fewer than 128 were let through since (the oldest gives way then), and only such a packet counts as a duplicate.  Over
    any calls of a history: a packet counts as reflected only if one with the same fingerprint was remembered less than two
    seconds ago, and always then, as long as fewer than 256 were remembered since.  The fingerprint ignores the time to
    live and the header checksum; at most 128 digests and 256 injected packets are kept. *)
Theorem fanout_guarded `{Crypto} (packet : bytes) (clock now : Z) (log : list (bytes * Z)) (g : LanDiscoveryGuard) (m : gmap bytes Z)
    (mm : MulticastMembership) (ipv4 : bytes) :
  (reachable mm ->
  ((size (groups_ mm) <= 64)%nat /\ map_Forall (fun _ e => (size (sources e) <= 64)%nat) (groups_ mm) /\
   match host_groups_ mm with Some hosts => (size hosts <= 256)%nat | None => True end) /\
  (forall g s, is_ipv4_scoped_multicast g = false -> receives mm g s now = false) /\
  (let (r, mm') := observe mm ipv4 now in
   if decide (r = accepted) then
     (forall g s, wanted (groups_ mm') g s =
        report_filter (drop (ihl ipv4) ipv4) (wanted (live_groups now (groups_ mm))) g s) /\
     (forall g s, host_groups_ mm = None -> is_Some (groups_ mm' !! g) -> receives mm' g s now = wanted (groups_ mm') g s)
   else mm' = mm)) /\
  (guard_run clock log g -> clock <= now ->
   let '(ok, g') := permit packet now g in
   (ok = true <-> well_formed packet /\ affords packet g now /\
      (for_discovery packet -> discovery_packet packet /\ exists d, sha256 packet = Some d /\ ~ seen_before d now g)) /\
   (exists o, ok = bool_decide (o = forwarded) /\ g_counters g' = count o (g_counters g)) /\
   (ok = true -> tokens_left g g' now (Some (len packet))) /\
   (size (g_recent g') <= 128)%nat /\
   (forall d, for_discovery packet -> sha256 packet = Some d ->
      (forall t, (d, t) ∈ log -> now - t < 100000000 -> since_then log t < 128 -> ok = false) /\
      (c_duplicate (g_counters g') <> c_duplicate (g_counters g) -> exists t, (d, t) ∈ log /\ now - t < 100000000))) /\
  (history_run clock log m -> clock <= now ->
   (size m <= 256)%nat /\
   forall d, fingerprint packet = Ok d ->
     (fst (history_contains packet now m) = Ok true -> exists t, (d, t) ∈ log /\ now - t < 2000000000) /\
     (forall t, (d, t) ∈ log -> now - t < 2000000000 -> since_then log t < 256 -> fst (history_contains packet now m) = Ok true) /\
     is_ok (fst (history_contains packet now m)) = true) /\
  (forall a b c, 20 <= len packet -> fingerprint (<[8%nat := a]> (<[10%nat := b]> (<[11%nat := c]> packet))) = fingerprint packet).
Proof.
  split; [apply multicast_membership|]. split_and!.
  - intros R L. pose proof (permit_exact packet now g) as Ex. pose proof (permit_cases packet now g) as Ca. pose proof (guard_run_size _ _ _ R) as Sz.
    apply (permit_recent_size packet now) in Sz. pose proof (fun d => guard_refuses clock log g packet d now R L) as Re.
    destruct (permit packet now g) as [ok g'] eqn:E. cbn [fst snd] in *. destruct Ca as (o & Eo & Ec & O). split_and!; try done; [by exists o|].
    intros Ok. rewrite Ok in Eo. symmetry in Eo. apply bool_decide_eq_true in Eo as ->. inversion O; match goal with X : tokens_left _ _ _ (Some _) |- _ => by rewrite E in X end.
  - intros R L. split; [by eapply history_run_size|]. intros d. by apply (history_exact clock).
  - intros a b c L. unfold fingerprint. by rewrite normalized_changes.
Qed.

(** An mDNS query from 10.0.0.2: let through once, not repeated within 100 ms, and noticed when the host reflects
    it with another time to live. *)
Definition mdns_query : bytes :=
  put_be 4 0x45000020 ++ put_be 4 0 ++ put_be 4 0xff110000 ++ put_be 4 0x0a000002 ++ put_be 4 0xe00000fb ++ put_be 4 0x14e914e9 ++ put_be 4 0x000c0000 ++ put_be 4 0x61626364.
Lemma fanout_guarded_witness :
  receives (snd (observe empty_membership igmp_v2 7)) 0xef010203 0x0a400003 7 =
  wanted (groups_ (snd (observe empty_membership igmp_v2 7))) 0xef010203 0x0a400003 /\
  fst (permit (C := toy_crypto) mdns_query 5 new_guard) = true /\
  fst (permit (C := toy_crypto) mdns_query 6 (snd (permit (C := toy_crypto) mdns_query 5 new_guard))) = false /\
  fst (history_contains (C := toy_crypto) mdns_query 100 (snd (history_remember (C := toy_crypto) mdns_query 7 ∅))) = Ok true.
Proof.
  split; [|split; [|split]].
  - destruct (fanout_guarded (H := toy_crypto) mdns_query 7 7 [] new_guard ∅ empty_membership igmp_v2) as (M & _).
    destruct (M reach_empty) as (_ & _ & T).
    destruct (observe empty_membership igmp_v2 7) as [r m'] eqn:E. vm_compute in E. injection E as <- <-.
    rewrite decide_True in T by reflexivity. destruct T as [_ T]. cbn [fst snd]. apply T; [reflexivity|]. vm_compute. eexists. reflexivity.
  - vm_compute. reflexivity.
  - pose proof (gr_permit (H := toy_crypto) 5 [] new_guard mdns_query 5 (gr_new 5) (Z.le_refl 5)) as R.
    destruct (sha256 (Crypto := toy_crypto) mdns_query) as [d|] eqn:Sd; [|vm_compute in Sd; discriminate Sd].
    assert (D : for_discovery mdns_query) by (left; reflexivity).
    assert (P : fst (permit (C := toy_crypto) mdns_query 5 new_guard) = true) by (vm_compute; reflexivity).
    rewrite P, (bool_decide_eq_true_2 _ D) in R. cbn [andb app] in R.
    destruct (fanout_guarded (H := toy_crypto) mdns_query 5 6 [(d, 5)] (snd (permit (C := toy_crypto) mdns_query 5 new_guard)) ∅ empty_membership igmp_v2) as (_ & G & _).
    specialize (G R ltac:(lia)). destruct (permit _ 6 _) as [ok g']. destruct G as (_ & _ & _ & _ & G). cbn [fst].
    apply (proj1 (G d D Sd) 5); [left|lia|vm_compute; reflexivity].
  - pose proof (hr_remember (H := toy_crypto) 7 [] ∅ mdns_query 7 (hr_new 7) (Z.le_refl 7)) as R.
    destruct (fingerprint (C := toy_crypto) mdns_query) as [d|] eqn:Fd; [|vm_compute in Fd; discriminate Fd]. cbn [app] in R.
    destruct (fanout_guarded (H := toy_crypto) mdns_query 7 100 [(d, 7)] new_guard (snd (history_remember (C := toy_crypto) mdns_query 7 ∅)) empty_membership igmp_v2) as (_ & _ & G & _).
    destruct (G R ltac:(lia)) as (_ & G'). apply (proj1 (proj2 (G' d Fd)) 7); [left|lia|vm_compute; reflexivity].
Defined.
