(* ===== verification/GameDiagnostics.v ===== *)
(** * Game diagnostics

    protocol/game_diagnostics.hpp and .cpp: the counters of the virtual adapter and of the
    discovery traffic of each network, and their codec. *)
From S2P Require Import Prelude Wire Ipv4 PathDiagnostics.

Record GameNetworkStatus := mk_game_network {
  gn_network : bytes; gn_address : Z; gn_subnet : Z; gn_prefix : Z; gn_online : Z;
  gn_sent : Z; gn_received : Z; gn_rate_limited : Z; gn_duplicates : Z; gn_invalid : Z; gn_reflections : Z }.
Record GameDiagnostics := mk_game {
  gd_mtu : Z; gd_adapter_failed : bool; gd_truncated : bool; gd_rejected : Z; gd_networks : list GameNetworkStatus }.

Definition max_game_diagnostic_networks : Z := 256.

(** The loop over the networks with the ids seen so far. *)
Fixpoint validate_networks (ids : gset bytes) (l : list GameNetworkStatus) : result unit :=
  match l with
  | [] => Ok tt
  | n :: l =>
      check! is_ipv4_host (gn_address n) (gn_subnet n) (gn_prefix n) && bool_decide (gn_network n ∉ ids) &&
             negb (bool_decide (gn_network n = replicate 16 x00)) else invalid_argument in
      validate_networks ({[gn_network n]} ∪ ids) l
  end.
Definition validate_game (v : GameDiagnostics) : result unit :=
  check! negb ((gd_mtu v <? 576) || (gd_mtu v >? 9000) || (len (gd_networks v) >? max_game_diagnostic_networks)) else invalid_argument in
  validate_networks ∅ (gd_networks v).

Definition game_magic : Z := 0x4c4c4744.
Definition game_flags (v : GameDiagnostics) : Z := Z.lor (if gd_adapter_failed v then 1 else 0) (if gd_truncated v then 2 else 0).

Definition put_network (n : GameNetworkStatus) : bytes :=
  gn_network n ++ put_be 4 (gn_address n) ++ put_be 4 (gn_subnet n) ++ put_be 1 (gn_prefix n) ++ put_be 4 (gn_online n) ++
  put_be 8 (gn_sent n) ++ put_be 8 (gn_received n) ++ put_be 8 (gn_rate_limited n) ++ put_be 8 (gn_duplicates n) ++
  put_be 8 (gn_invalid n) ++ put_be 8 (gn_reflections n).

Definition encode_game_diagnostics (v : GameDiagnostics) : result bytes :=
  let* _ := validate_game v in
  Ok (put_be 4 game_magic ++ put_be 1 1 ++ put_be 1 (game_flags v) ++ put_be 2 (gd_mtu v) ++ put_be 8 (gd_rejected v) ++
      put_be 2 (len (gd_networks v)) ++ concat (map put_network (gd_networks v))).

Definition get_network (r : BinaryReader.t) : result (GameNetworkStatus * BinaryReader.t) :=
  let* (network, r) := BinaryReader.array 16 r in
  let* (address, r) := BinaryReader.get 4 r in
  let* (subnet, r) := BinaryReader.get 4 r in
  let* (prefix, r) := BinaryReader.get 1 r in
  let* (online, r) := BinaryReader.get 4 r in
  let* (sent, r) := BinaryReader.get 8 r in
  let* (received, r) := BinaryReader.get 8 r in
  let* (limited, r) := BinaryReader.get 8 r in
  let* (duplicates, r) := BinaryReader.get 8 r in
  let* (invalid, r) := BinaryReader.get 8 r in
  let* (reflections, r) := BinaryReader.get 8 r in
  Ok (mk_game_network network address subnet prefix online sent received limited duplicates invalid reflections, r).

Definition decode_game_diagnostics (bs : bytes) : result GameDiagnostics :=
  let* (magic, r) := BinaryReader.get 4 bs in
  check! magic =? game_magic else invalid_argument in
  let* (version, r) := BinaryReader.get 1 r in
  check! version =? 1 else invalid_argument in
  let* (flags, r) := BinaryReader.get 1 r in
  check! negb (flags >? 3) else invalid_argument in
  let* (mtu, r) := BinaryReader.get 2 r in
  let* (rejected, r) := BinaryReader.get 8 r in
  let* (count, r) := BinaryReader.get 2 r in
  check! negb (count >? max_game_diagnostic_networks) else invalid_argument in
  let* (networks, r) := BinaryReader.read_n (Z.to_nat count) get_network r in
  let* _ := BinaryReader.finish r in
  let v := mk_game mtu (negb (Z.land flags 1 =? 0)) (negb (Z.land flags 2 =? 0)) rejected networks in
  let* _ := validate_game v in
  Ok v.

(** ** Field types *)

Definition wf_game_network (n : GameNetworkStatus) : Prop :=
  length (gn_network n) = 16%nat /\ word 4 (gn_address n) /\ word 4 (gn_subnet n) /\ word 1 (gn_prefix n) /\ word 4 (gn_online n) /\
  word 8 (gn_sent n) /\ word 8 (gn_received n) /\ word 8 (gn_rate_limited n) /\ word 8 (gn_duplicates n) /\
  word 8 (gn_invalid n) /\ word 8 (gn_reflections n).
Definition wf_game (v : GameDiagnostics) : Prop :=
  word 2 (gd_mtu v) /\ word 8 (gd_rejected v) /\ Forall wf_game_network (gd_networks v).

Lemma get_network_app n rest : wf_game_network n -> get_network (put_network n ++ rest) = Ok (n, rest).
Proof.
  intros (L & W). destruct W as (? & ? & ? & ? & ? & ? & ? & ? & ? & ?). unfold get_network, put_network.
  rewrite <- !app_assoc. br_read. by destruct n.
Qed.
Lemma get_network_inv data n r : get_network data = Ok (n, r) -> data = put_network n ++ r /\ wf_game_network n.
Proof.
  unfold get_network. intros H. ok_inv H. injection H as <- <-. br_inv. split; [|done].
  unfold put_network. cbn [gn_network gn_address gn_subnet gn_prefix gn_online gn_sent gn_received gn_rate_limited gn_duplicates gn_invalid gn_reflections].
  by rewrite <- !app_assoc.
Qed.

Lemma game_flags_spec v : word 1 (game_flags v) /\ (game_flags v >? 3) = false /\
  negb (Z.land (game_flags v) 1 =? 0) = gd_adapter_failed v /\ negb (Z.land (game_flags v) 2 =? 0) = gd_truncated v.
Proof. unfold game_flags. by destruct (gd_adapter_failed v), (gd_truncated v). Qed.
Lemma game_flags_read f mtu rejected networks : word 1 f -> f <= 3 ->
  game_flags (mk_game mtu (negb (Z.land f 1 =? 0)) (negb (Z.land f 2 =? 0)) rejected networks) = f.
Proof.
  intros W L. words. assert (C : f ∈ [0; 1; 2; 3]) by (rewrite !elem_of_cons; lia).
  rewrite !elem_of_cons in C. destruct C as [-> | [-> | [-> | [-> | C]]]]; [done..|by apply not_elem_of_nil in C].
Qed.

(** What a valid report is. *)
Definition game_ok (v : GameDiagnostics) : Prop :=
  576 <= gd_mtu v <= 9000 /\ len (gd_networks v) <= 256 /\ NoDup (map gn_network (gd_networks v)) /\
  Forall (fun n => is_ipv4_host (gn_address n) (gn_subnet n) (gn_prefix n) = true /\ gn_network n <> replicate 16 x00) (gd_networks v).

Lemma validate_networks_spec ids l : validate_networks ids l = Ok tt <->
  NoDup (map gn_network l) /\ (forall n, n ∈ l -> gn_network n ∉ ids) /\
  Forall (fun n => is_ipv4_host (gn_address n) (gn_subnet n) (gn_prefix n) = true /\ gn_network n <> replicate 16 x00) l.
Proof.
  revert ids. induction l as [|n l IH]; intros ids; cbn [validate_networks map].
  { split; [|done]. intros _. split; [constructor|]. split; [|constructor]. intros n Hn. by apply not_elem_of_nil in Hn. }
  rewrite NoDup_cons, Forall_cons. destruct (_ && _) eqn:G.
  - rewrite !andb_true_iff, bool_decide_eq_true, negb_true_iff, bool_decide_eq_false in G. destruct G as [[G1 G2] G3].
    rewrite IH. split.
    + intros (N & D & F). split_and!; try done.
      * intros X. apply list_elem_of_fmap in X as (m & E & Hm). apply (D m Hm). set_solver.
      * intros m [->|Hm]%elem_of_cons; [done|]. intros X. apply (D m Hm). set_solver.
    + intros ([N1 N] & D & _ & F). split_and!; try done. intros m Hm X. apply elem_of_union in X as [X|X]; [|by apply (D m); [right|]].
      apply elem_of_singleton in X. apply N1. rewrite <- X. by apply list_elem_of_fmap_2.
  - split; [done|]. intros (_ & D & [Hh Z0] & _). exfalso. rewrite Hh, bool_decide_true, bool_decide_false in G; [done|done|]. apply D. left.
Qed.
Lemma validate_game_spec v : validate_game v = Ok tt <-> game_ok v.
Proof.
  unfold validate_game, game_ok, max_game_diagnostic_networks. pose proof (len_nonneg (gd_networks v)). destruct (negb _) eqn:G.
  - bool_prop. rewrite validate_networks_spec. split.
    + intros (N & _ & F). split_and!; try done; lia.
    + intros (_ & _ & N & F). split_and!; try done.
  - split; [done|]. intros (? & ? & _). exfalso. apply negb_false_iff in G. rewrite !orb_true_iff, Z.ltb_lt, !Z.gtb_lt in G. lia.
Qed.

Lemma game_diagnostics_codec bs v : decode_game_diagnostics bs = Ok v <-> wf_game v /\ encode_game_diagnostics v = Ok bs.
Proof.
  split.
  - unfold decode_game_diagnostics, max_game_diagnostic_networks. intros H. ok_inv H. bool_prop. subst. br_inv.
    match goal with E : BinaryReader.read_n _ _ _ = Ok _ |- _ => apply (BinaryReader.read_n_inv _ put_network wf_game_network get_network_inv) in E as (-> & L & F) end.
    split; [by split_and!|]. unfold encode_game_diagnostics.
    match goal with E : validate_game _ = Ok _ |- _ => rewrite E end. f_equal. rewrite game_flags_read by done. cbn [gd_mtu gd_rejected gd_networks].
    rewrite app_nil_r. words. repeat f_equal. unfold len. lia.
  - intros [(W1 & W2 & F) H]. unfold encode_game_diagnostics in H. destruct (validate_game v) as [[]|] eqn:V; [|done].
    apply Ok_inj in H as <-. apply validate_game_spec in V as S. destruct S as (_ & S & _). pose proof (len_nonneg (gd_networks v)).
    destruct (game_flags_spec v) as (G1 & G2 & G3 & G4). unfold decode_game_diagnostics, max_game_diagnostic_networks.
    rewrite BinaryReader.get_app by done. rewrite Z.eqb_refl. br_read. cbn [Z.eqb Pos.eqb]. rewrite G2. cbn [negb]. br_read.
    guard_true by lia. replace (Z.to_nat (len (gd_networks v))) with (length (gd_networks v)) by (unfold len; lia).
    rewrite <- (app_nil_r (concat _)).
    rewrite BinaryReader.read_n_app by (intros n r Hn; apply get_network_app; rewrite Forall_forall in F; auto).
    cbn [BinaryReader.finish]. rewrite G3, G4. destruct v. cbn in *. by rewrite V.
Qed.

(** The codecs of both reports and the classes of error messages. *)
Lemma diagnostics_exact (payload : bytes) :
  (forall v, decode_path_diagnostics payload = Ok v <-> wf_diagnostics v /\ encode_path_diagnostics v = Ok payload) /\
  (forall v, encode_path_diagnostics v = Throw length_error <-> 256 < len (pd_peers v)) /\
  (forall v, len (pd_peers v) <= 256 ->
     is_ok (encode_path_diagnostics v) = is_ok (validate_path (pd_relay v)) && forallb (fun p => is_ok (validate_path (pp_path p))) (pd_peers v)) /\
  (forall v, decode_game_diagnostics payload = Ok v <-> wf_game v /\ encode_game_diagnostics v = Ok payload) /\
  (forall v, is_ok (encode_game_diagnostics v) = true <-> game_ok v) /\
  (forall m m', map tolower m = map tolower m' -> classify_error m = classify_error m') /\
  (forall m, classify_error m = authentication_failed <->
     exists w, w ∈ [str "auth"; str "certificate"; str "credential"] /\ exists a x b, m = a ++ x ++ b /\ map tolower x = map tolower w) /\
  (forall m, classified (classify_error m)).
Proof.
  destruct (path_diagnostics_exact payload) as (P1 & P2 & P3 & P4 & P5 & P6). split_and!; try done.
  - intros v. apply game_diagnostics_codec.
  - intros v. rewrite <- validate_game_spec. unfold encode_game_diagnostics. destruct (validate_game v) as [[]|]; by split.
Qed.
