(* ===== verification/PacketBridge.v ===== *)
(** * The virtual packet bridge

    transport/packet_bridge.hpp and .cpp: the sessions a client keeps per network, what happens to
    a packet its adapter emits and to one the relay or a peer delivers.  Sessions are shared
    pointers, so they live in a heap; the map of sessions holds locations.  The handlers [send_] and
    [inject_] are the events a call emits, each with the bridge at that moment, which is where the call ends when
    the handler throws.  Calls take the
    mutex in turns: whatever other threads do while it is free is the argument [others], one bridge
    transformer per gap.  The steady clock of a call is its argument [now] (nanoseconds). *)
From S2P Require Import LanDiscovery GameDiagnostics Multicast.
From S2P Require Import Prelude Ipv4 NetworkPolicy NetworkMessages PacketMessages Crypto PacketCipher RelayStore RoutedNetwork.

Record Session := mk_session {
  s_peers : NetworkPeerState; s_key : NetworkKeySnapshot; s_own_key : SignedDeviceKey; s_own_device : bytes; s_cipher : Cipher;
  s_multicast : MulticastMembership; s_outbound : LanDiscoveryGuard; s_inbound : gmap bytes LanDiscoveryGuard;
  s_injected : gmap bytes Z; s_reflected : Z }.

Record Bridge := mk_bridge {
  heap_ : gmap nat Session; next_ : nat; sessions_ : gmap bytes nat; accept_routes_ : bool; forward_ : bool; mtu_ : Z }.
Definition new_bridge : Bridge := mk_bridge ∅ 0 ∅ false false 65535.

Inductive output := sent (p : EncryptedNetworkPacket) | injected (packet : bytes).

(** ** Calls *)

Definition B (A : Type) : Type := Bridge -> result A * Bridge * list (output * Bridge).
Definition ret {A} (a : A) : B A := fun b => (Ok a, b, []).
Definition pure {A} (r : result A) : B A := fun b => (r, b, []).
Definition bind {A A'} (m : B A) (k : A -> B A') : B A' := fun b =>
  match m b with
  | (Ok a, b, l) => match k a b with (r, b, l') => (r, b, l ++ l') end
  | (Throw e, b, l) => (Throw e, b, l)
  end.
Local Notation "'let!' x := m 'in' k" := (bind m (fun x => k))
  (at level 10, x name, m at level 100, k at level 200, format "'[v' 'let!'  x  :=  m  'in' '/' k ']'").
Local Notation "m ;; k" := (bind m (fun _ => k)) (at level 100, right associativity).
Definition get : B Bridge := fun b => (Ok b, b, []).
Definition emit (x : output) : B unit := fun b => (Ok tt, b, [(x, b)]).
(** The mutex is free: other calls run. *)
Definition yield (f : Bridge -> Bridge) : B unit := fun b => (Ok tt, f b, []).

(** A default for [deref]; locations in use are always in the heap. *)
Definition no_state : NetworkPeerState := mk_peer_state [] 0 0 0 0 [] [] 0 None.
Definition dead_session : Session :=
  mk_session no_state (mk_key_snapshot 0 []) (mk_signed_key [] [] [] [] []) [] (mk_cipher [] 0 [] [] [] 0 0 0 false [] [] 0 ∅)
    empty_membership new_guard ∅ ∅ 0.
Definition deref (l : nat) (b : Bridge) : Session := default dead_session (heap_ b !! l).
Definition store (l : nat) (s : Session) (b : Bridge) : Bridge :=
  mk_bridge (<[l := s]> (heap_ b)) (next_ b) (sessions_ b) (accept_routes_ b) (forward_ b) (mtu_ b).
Definition update (l : nat) (f : Session -> Session) : B unit := fun b => (Ok tt, store l (f (deref l b)) b, []).
Definition set_sessions (m : gmap bytes nat) (b : Bridge) : Bridge :=
  mk_bridge (heap_ b) (next_ b) m (accept_routes_ b) (forward_ b) (mtu_ b).
(** [std::make_shared]. *)
Definition alloc (s : Session) : B nat := fun b =>
  (Ok (next_ b), mk_bridge (<[next_ b := s]> (heap_ b)) (S (next_ b)) (sessions_ b) (accept_routes_ b) (forward_ b) (mtu_ b), []).

Definition set_cipher (c : Cipher) (s : Session) : Session :=
  mk_session (s_peers s) (s_key s) (s_own_key s) (s_own_device s) c (s_multicast s) (s_outbound s) (s_inbound s) (s_injected s) (s_reflected s).
Definition set_multicast (m : MulticastMembership) (s : Session) : Session :=
  mk_session (s_peers s) (s_key s) (s_own_key s) (s_own_device s) (s_cipher s) m (s_outbound s) (s_inbound s) (s_injected s) (s_reflected s).
Definition set_outbound (g : LanDiscoveryGuard) (s : Session) : Session :=
  mk_session (s_peers s) (s_key s) (s_own_key s) (s_own_device s) (s_cipher s) (s_multicast s) g (s_inbound s) (s_injected s) (s_reflected s).
Definition set_inbound (m : gmap bytes LanDiscoveryGuard) (s : Session) : Session :=
  mk_session (s_peers s) (s_key s) (s_own_key s) (s_own_device s) (s_cipher s) (s_multicast s) (s_outbound s) m (s_injected s) (s_reflected s).
Definition set_injected (m : gmap bytes Z) (s : Session) : Session :=
  mk_session (s_peers s) (s_key s) (s_own_key s) (s_own_device s) (s_cipher s) (s_multicast s) (s_outbound s) (s_inbound s) m (s_reflected s).
Definition reflect (s : Session) : Session :=
  mk_session (s_peers s) (s_key s) (s_own_key s) (s_own_device s) (s_cipher s) (s_multicast s) (s_outbound s) (s_inbound s) (s_injected s)
    (bump (s_reflected s)).
(** A session that adopts a new peer state: the cipher follows, guards of devices that left are dropped. *)
Definition adopt (c : Cipher) (st : NetworkPeerState) (s : Session) : Session :=
  mk_session st (s_key s) (s_own_key s) (s_own_device s) c (s_multicast s) (s_outbound s)
    (filter (fun e => fst e ∈ map peer_device_id (peers st)) (s_inbound s)) (s_injected s) (s_reflected s).

(** The sessions in the order of [std::map]. *)
Definition in_order (m : gmap bytes nat) : list (bytes * nat) := order_by (fun e => [be_value (fst e)]) (map_to_list m).

Definition set_routing_options (routes forward : bool) (b : Bridge) : Bridge :=
  mk_bridge (heap_ b) (next_ b) (sessions_ b) routes forward (mtu_ b).
Definition set_mtu (mtu : Z) (b : Bridge) : result Bridge :=
  check! negb (mtu <? 68) else invalid_argument in
  Ok (mk_bridge (heap_ b) (next_ b) (sessions_ b) (accept_routes_ b) (forward_ b) mtu).
Definition synchronize_multicast (groups : option (list Z)) (b : Bridge) : Bridge :=
  foldl (fun b e => store (snd e) (set_multicast (synchronize (s_multicast (deref (snd e) b)) groups) (deref (snd e) b)) b)
    b (in_order (sessions_ b)).
Definition clear (b : Bridge) : Bridge := set_sessions ∅ b.

Definition reflected_packets (b : Bridge) : Z :=
  foldl (fun count e => (count + s_reflected (deref (snd e) b)) mod 2 ^ 64) 0 (in_order (sessions_ b)).

Section Bridge.
Context {C : Crypto}.

(** ** Following the session state *)

(** Overlap with the networks already checked. *)
Fixpoint check_networks (before l : list NetworkPeerState) : result unit :=
  match l with
  | [] => Ok tt
  | st :: l =>
      check! is_ipv4_host (own_address st) (subnet_address st) (prefix_length st) else invalid_argument in
      check! negb (existsb (fun p =>
          let mask := ipv4_mask (Z.min (prefix_length st) (prefix_length p)) in
          bool_decide (state_network_id st = state_network_id p) ||
          (Z.land (subnet_address st) mask =? Z.land (subnet_address p) mask)) before) else invalid_argument in
      check_networks (before ++ [st]) l
  end.

Definition valid_state (n : ActiveNetworkPacketState) : bool :=
  let st := active_peers n in
  negb ((state_key_epoch st =? 0) || negb (state_key_epoch st =? ks_epoch (active_key n)) || (own_address st =? 0) ||
        (prefix_length st =? 0) || (prefix_length st >? 30) ||
        negb (Z.land (own_address st) (ipv4_mask (prefix_length st)) =? subnet_address st)).

(** Whether the session of a network is kept. *)
Definition reusable (me : PacketIdentitySnapshot) (n : ActiveNetworkPacketState) (s : Session) : bool :=
  bool_decide (s_key s = active_key n) && (own_address (s_peers s) =? own_address (active_peers n)) &&
  bool_decide (s_own_key s = pi_signed_key me).

(** [updated.emplace]: an existing entry stays. *)
Definition emplace (id : bytes) (l : nat) (m : gmap bytes nat) : gmap bytes nat :=
  match m !! id with Some _ => m | None => <[id := l]> m end.

(** A session with a cipher of its own; [draw] is the random nonce prefix. *)
Definition new_session (me : PacketIdentitySnapshot) (draw : option bytes) (n : ActiveNetworkPacketState) : result Session :=
  let st := active_peers n in
  let* c := make_cipher (state_network_id st) (state_key_epoch st) (ks_key (active_key n)) (pi_device_id me) (pi_signed_key me)
              (own_address st) draw in
  let* c := update_peers c st in
  Ok (mk_session st (active_key n) (pi_signed_key me) (pi_device_id me) c empty_membership new_guard ∅ ∅ 0).

(** The second loop; [draws] are the nonce prefixes, one per network. *)
Fixpoint sync_loop (me : PacketIdentitySnapshot) (draws : nat -> option bytes) (i : nat) (l : list ActiveNetworkPacketState)
    (updated : gmap bytes nat) : B (gmap bytes nat) :=
  match l with
  | [] => ret updated
  | n :: l =>
      let st := active_peers n in
      let id := state_network_id st in
      if negb (valid_state n) then pure (Throw invalid_argument)
      else
        let! b := get in
        let old := match sessions_ b !! id with
          | Some loc => if reusable me n (deref loc b) then Some loc else None
          | None => None end in
        match old with
        | Some loc =>
            (if bool_decide (s_peers (deref loc b) = st) then ret tt
             else let! c := pure (update_peers (s_cipher (deref loc b)) st) in update loc (adopt c st)) ;;
            sync_loop me draws (S i) l (emplace id loc updated)
        | None =>
            let! s := pure (new_session me (draws i) n) in
            let! loc := alloc s in
            if bool_decide (is_Some (updated !! id)) then pure (Throw invalid_argument)
            else sync_loop me draws (S i) l (emplace id loc updated)
        end
  end.

Definition synchronize (identity : option PacketIdentitySnapshot) (networks : list ActiveNetworkPacketState)
    (draws : nat -> option bytes) : B unit :=
  match identity with
  | None => yield (set_sessions ∅)
  | Some me =>
      pure (check_networks [] (map active_peers networks)) ;;
      let! updated := sync_loop me draws 0 networks ∅ in
      yield (set_sessions updated)
  end.

(** ** Sending through a session *)

(** [send_(session->cipher->encrypt(packet))]. *)
Definition encrypt_and_send (loc : nat) (packet : bytes) : B unit := fun b =>
  match encrypt (s_cipher (deref loc b)) packet with
  | (r, c) =>
      let b := store loc (set_cipher c (deref loc b)) b in
      match r with Ok p => (Ok tt, b, [(sent p, b)]) | Throw e => (Throw e, b, []) end
  end.

Fixpoint for_each {A} (l : list A) (f : A -> B unit) : B unit :=
  match l with [] => ret tt | x :: l => f x ;; for_each l f end.

(** What to do with a packet for a routed subnet: nothing special, drop it, or send it on. *)
Inductive routing := not_routed | swallowed | towards (destination : Z).

Definition gateway_peer (p : NetworkPeerState) (gateway : bytes) : option NetworkPeer :=
  List.find (fun v => bool_decide (peer_device_id v = gateway) && has_key v) (peers p).
Definition member_at (p : NetworkPeerState) (address : Z) : option NetworkPeer :=
  List.find (fun v => (ipv4_address v =? address) && has_key v) (peers p).

Definition route_decision (b : Bridge) (s : Session) (pol : NetworkPolicy) (route : RoutedSubnet) (h : Ipv4Header) : routing :=
  let p := s_peers s in
  if (source h =? own_address p) && subnet_contains (address route) (prefix route) (destination h) then
    if negb (accept_routes_ b) || negb (route_allows pol route (s_own_device s)) then swallowed
    else match gateway_peer p (gateway route) with None => swallowed | Some peer => towards (ipv4_address peer) end
  else if bool_decide (gateway route = s_own_device s) && subnet_contains (address route) (prefix route) (source h) then
    match member_at p (destination h) with
    | None => swallowed
    | Some peer => if negb (forward_ b) || negb (route_allows pol route (peer_device_id peer)) then swallowed else towards (ipv4_address peer)
    end
  else not_routed.

(** The first route that takes the packet, over all sessions and their routes in order. *)
Fixpoint first_route (b : Bridge) (s : Session) (pol : NetworkPolicy) (h : Ipv4Header) (l : list RoutedSubnet) : routing :=
  match l with
  | [] => not_routed
  | route :: l =>
      match route_decision b s pol route h with
      | not_routed => first_route b s pol h l
      | towards d => if d =? 0 then first_route b s pol h l else towards d
      | swallowed => swallowed
      end
  end.
Fixpoint first_session (b : Bridge) (h : Ipv4Header) (l : list (bytes * nat)) : option (nat * option Z) :=
  match l with
  | [] => None
  | (_, loc) :: l =>
      match policy (s_peers (deref loc b)) with
      | None => first_session b h l
      | Some pol =>
          match first_route b (deref loc b) pol h (routes pol) with
          | not_routed => first_session b h l
          | swallowed => Some (loc, None)
          | towards d => Some (loc, Some d)
          end
      end
  end.

Definition max_inner : Z := 65515.
Definition outbound_routed (packet : bytes) : B bool :=
  let! h := pure (inspect_ipv4 packet) in
  let! b := get in
  match first_session b h (in_order (sessions_ b)) with
  | None => ret false
  | Some (_, None) => ret true
  | Some (loc, Some destination) =>
      let own := own_address (s_peers (deref loc b)) in
      let! safe := pure (safe_routed_ipv4 packet) in
      if negb safe then ret true
      else
        let inner_mtu := Z.min (mtu_ b) max_inner in
        if (len packet >? inner_mtu) && dont_fragment h then
          if source h =? own then
            let! error := pure (ipv4_fragmentation_needed packet own inner_mtu) in
            match error with Some e => emit (injected e) ;; ret true | None => ret true end
          else ret true
        else
          let! fragments := pure (fragment_ipv4 packet inner_mtu) in
          for_each fragments (fun fragment =>
            let! outer := pure (encapsulate_routed_ipv4 fragment own destination) in encrypt_and_send loc outer) ;;
          ret true
  end.

(** ** Packets the adapter emits *)

(** What one session makes of the packet: pass on to the next session, drop it, or take it. *)
Inductive claim := passes | drops | takes.

Definition fanout_of (st : NetworkPeerState) (destination : Z) : bool :=
  is_ipv4_fanout_destination destination (subnet_address st) (prefix_length st).

Definition consider (loc : nat) (packet : bytes) (now : Z) : B claim :=
  let! b := get in
  let st := s_peers (deref loc b) in
  let src := read_ipv4 packet 12 in
  let dst := read_ipv4 packet 16 in
  let fanout := fanout_of st dst in
  let! reflected :=
    (if fanout then
       let (r, m) := history_contains packet now (s_injected (deref loc b)) in
       update loc (set_injected m) ;; pure r
     else ret false) in
  if reflected then update loc reflect ;; ret drops
  else if (src =? own_address st) &&
          (bool_decide (at_ packet 9 = x02) || (Z.land dst (ipv4_mask (prefix_length st)) =? subnet_address st) || fanout) then
    let (report, m) := observe (s_multicast (deref loc b)) packet now in
    update loc (set_multicast m) ;;
    if negb (bool_decide (report = not_igmp)) then ret drops
    else if fanout && (len packet >? Z.min (mtu_ b) 1400) then ret drops
    else if fanout then
      let (ok, g) := permit packet now (s_outbound (deref loc b)) in
      update loc (set_outbound g) ;; (if ok then ret takes else ret drops)
    else ret takes
  else ret passes.

(** The loop over the sessions: the session that takes the packet and the MTU then in force. *)
Fixpoint find_session (l : list (bytes * nat)) (packet : bytes) (now : Z) : B (option (nat * Z)) :=
  match l with
  | [] => ret None
  | (_, loc) :: l =>
      let! c := consider loc packet now in
      match c with
      | passes => find_session l packet now
      | drops => ret None
      | takes => let! b := get in ret (Some (loc, mtu_ b))
      end
  end.

Definition outbound (others : nat -> Bridge -> Bridge) (packet : bytes) (now : Z) : B unit :=
  if len packet <? min_virtual_ipv4_packet_size then ret tt
  else
    let! routed := outbound_routed packet in
    if (routed : bool) then ret tt
    else
      let! header := pure (inspect_ipv4 packet) in
      yield (others 0%nat) ;;
      let! b := get in
      let! selected := find_session (in_order (sessions_ b)) packet now in
      yield (others 1%nat) ;;
      match selected with
      | None => ret tt
      | Some (loc, mtu) =>
          if (len packet >? mtu) && dont_fragment header then
            let! error := pure (ipv4_fragmentation_needed packet (read_ipv4 packet 12) mtu) in
            match error with Some e => emit (injected e) | None => ret tt end
          else
            let! fragments := pure (fragment_ipv4 packet mtu) in
            for_each (zip (seq 2 (length fragments)) fragments) (fun f =>
              encrypt_and_send loc (snd f) ;; yield (others (fst f)))
      end.

(** ** Packets that are delivered *)

(** Whether a routed packet may come in over a route, as a request to this gateway or as a reply from one. *)
Definition admits (b : Bridge) (s : Session) (pol : NetworkPolicy) (sender : NetworkPeer) (h : Ipv4Header) (route : RoutedSubnet) : bool :=
  (forward_ b && bool_decide (gateway route = s_own_device s) && (source h =? ipv4_address sender) &&
   is_ipv4_host (destination h) (address route) (prefix route) && route_allows pol route (peer_device_id sender)) ||
  (accept_routes_ b && bool_decide (gateway route = peer_device_id sender) && (destination h =? own_address (s_peers s)) &&
   is_ipv4_host (source h) (address route) (prefix route) && route_allows pol route (s_own_device s)).

Definition inbound_routed (d : ForwardedNetworkPacket) (outer : bytes) : B bool :=
  let! inner := pure (decapsulate_routed_ipv4 outer) in
  let! h := pure (inspect_ipv4 inner) in
  let! b := get in
  match sessions_ b !! network_id (packet d) with
  | None => ret false
  | Some loc =>
      let s := deref loc b in
      match policy (s_peers s) with
      | None => ret false
      | Some pol =>
          if negb (state_key_epoch (s_peers s) =? key_epoch (packet d)) then ret false
          else
            let! safe := pure (safe_routed_ipv4 inner) in
            if negb safe then ret false
            else
              match gateway_peer (s_peers s) (sender_device_id d) with
              | None => ret false
              | Some sender =>
                  if negb (policy_allows pol (s_own_device s) (sender_device_id d)) then ret false
                  else if existsb (admits b s pol sender h) (routes pol) then
                    let! fragments := pure (fragment_ipv4 inner (mtu_ b)) in
                    for_each fragments (fun f => emit (injected f)) ;; ret true
                  else ret false
              end
      end
  end.

(** The session is still the one of its network and still lists the sender as it did. *)
Definition still_current (d : ForwardedNetworkPacket) (loc : nat) (before : NetworkPeerState) (b : Bridge) : bool :=
  bool_decide (sessions_ b !! network_id (packet d) = Some loc) &&
  match List.find (fun p => bool_decide (peer_device_id p = sender_device_id d)) (peers before) with
  | None => false
  | Some p => bool_decide (p ∈ peers (s_peers (deref loc b)))
  end.

(** The checks on a fan-out packet, all under the mutex; whether to go on. *)
Definition admit_fanout (d : ForwardedNetworkPacket) (loc : nat) (before : NetworkPeerState) (mtu : Z) (plaintext : bytes) (now : Z)
    : B bool :=
  let! b := get in
  let s := deref loc b in
  if negb (still_current d loc before b) then ret false
  else if len plaintext >? Z.min mtu 1400 then ret false
  else if is_ipv4_multicast (destination_ipv4 (packet d)) &&
          negb (receives (s_multicast s) (destination_ipv4 (packet d)) (read_ipv4 plaintext 12) now) then ret false
  else
    let (ok, g) := permit plaintext now (default new_guard (s_inbound s !! sender_device_id d)) in
    update loc (set_inbound (<[sender_device_id d := g]> (s_inbound s))) ;;
    if negb ok then ret false
    else
      let (r, m) := history_remember plaintext now (s_injected s) in
      update loc (set_injected m) ;; pure r ;; ret true.

Fixpoint inject_all (others : nat -> Bridge -> Bridge) (d : ForwardedNetworkPacket) (loc : nat) (before : NetworkPeerState)
    (i : nat) (l : list bytes) : B unit :=
  match l with
  | [] => ret tt
  | f :: l =>
      let! b := get in
      if negb (still_current d loc before b) then ret tt
      else emit (injected f) ;; yield (others i) ;; inject_all others d loc before (S i) l
  end.

(** [session->cipher->decrypt]. *)
Definition decrypt_with (loc : nat) (d : ForwardedNetworkPacket) : B bytes := fun b =>
  match decrypt (s_cipher (deref loc b)) (packet d) (sender_device_id d) with
  | (r, c) => (r, store loc (set_cipher c (deref loc b)) b, [])
  end.

Definition inbound (others : nat -> Bridge -> Bridge) (d : ForwardedNetworkPacket) (now : Z) : B unit :=
  let! b := get in
  match sessions_ b !! network_id (packet d) with
  | None => ret tt
  | Some loc =>
      let before := s_peers (deref loc b) in
      let mtu := mtu_ b in
      yield (others 0%nat) ;;
      let! plaintext := decrypt_with loc d in
      yield (others 1%nat) ;;
      if bool_decide (at_ plaintext 9 = x04) && match policy before with Some _ => true | None => false end
      then inbound_routed d plaintext ;; ret tt
      else
        let! header := pure (inspect_ipv4 plaintext) in
        let! go :=
          (if fanout_of before (destination_ipv4 (packet d)) then admit_fanout d loc before mtu plaintext now else ret true) in
        if negb go then ret tt
        else
          yield (others 2%nat) ;;
          if (len plaintext >? mtu) && dont_fragment header then
            let! error := pure (ipv4_fragmentation_needed plaintext (own_address before) mtu) in
            match error with Some e => encrypt_and_send loc e | None => ret tt end
          else
            let! fragments := pure (fragment_ipv4 plaintext mtu) in
            inject_all others d loc before 3 fragments
  end.

(** ** Diagnostics *)

Definition game_network (id : bytes) (s : Session) : GameNetworkStatus :=
  let st := s_peers s in
  let out := g_counters (s_outbound s) in
  let add := fun x y => (x + y) mod 2 ^ 64 in
  foldl (fun n e =>
      let c := g_counters (snd e) in
      mk_game_network (gn_network n) (gn_address n) (gn_subnet n) (gn_prefix n) (gn_online n) (gn_sent n)
        (add (gn_received n) (c_forwarded c)) (add (gn_rate_limited n) (c_rate_limited c))
        (add (gn_duplicates n) (c_duplicate c)) (add (gn_invalid n) (c_invalid c)) (gn_reflections n))
    (mk_game_network id (own_address st) (subnet_address st) (prefix_length st) (len (List.filter has_key (peers st)) mod 2 ^ 32)
       (c_forwarded out) 0 (c_rate_limited out) (c_duplicate out) (c_invalid out) (s_reflected s))
    (order_by (fun e => [be_value (fst e)]) (map_to_list (s_inbound s))).
Definition game_diagnostics (b : Bridge) : GameDiagnostics :=
  let all := in_order (sessions_ b) in
  let shown := take (Z.to_nat max_game_diagnostic_networks) all in
  mk_game (mtu_ b) false (len all >? max_game_diagnostic_networks) 0 (map (fun e => game_network (fst e) (deref (snd e) b)) shown).
End Bridge.

(** ** What every session satisfies *)

(** The receivers of a cipher are those of listed peers with a key the policy lets talk to this device, and those the
    policy lets send fan-out packets to it are marked. *)
Definition fans_out (st : NetworkPeerState) (own peer : bytes) : bool :=
  match policy st with Some pl => policy_fanout_allows pl own peer | None => true end.
Definition talks (st : NetworkPeerState) (own peer : bytes) : Prop :=
  match policy st with Some pl => policy_allows pl own peer = true | None => True end.
Definition is_managed (st : NetworkPeerState) : bool := match policy st with Some pl => managed pl | None => false end.
Definition receivers_listed (c : Cipher) (own : bytes) (st : NetworkPeerState) : Prop :=
  forall id r, peers_ c !! id = Some r -> exists p k, p ∈ peers st /\ peer_device_id p = id /\ signed_key p = Some k /\
    ipv4_address p = receiver_ipv4 r /\ encryption_public_key k = session_public_key r /\ talks st own id /\ fanout_allowed r = fans_out st own id.

Record session_ok (s : Session) : Prop := mk_session_ok {
  so_network : network_id_ (s_cipher s) = state_network_id (s_peers s);
  so_epoch : key_epoch_ (s_cipher s) = state_key_epoch (s_peers s) /\ state_key_epoch (s_peers s) = ks_epoch (s_key s);
  so_address : own_ipv4_address_ (s_cipher s) = own_address (s_peers s);
  so_subnet : subnet_address_ (s_cipher s) = subnet_address (s_peers s) /\ prefix_length_ (s_cipher s) = prefix_length (s_peers s);
  so_host : is_ipv4_host (own_address (s_peers s)) (subnet_address (s_peers s)) (prefix_length (s_peers s)) = true;
  so_device : own_device_id_ (s_cipher s) = s_own_device s;
  so_listed : receivers_listed (s_cipher s) (s_own_device s) (s_peers s);
  so_managed : managed_ (s_cipher s) = is_managed (s_peers s);
  so_sequence : 0 <= next_sequence_ (s_cipher s) <= 2 ^ 32 - 1 }.

(** What can happen to a session: its cipher encrypts, decrypts or follows a new state, which drops the guards of the devices
    that left and no others; a guard or the history of injected packets is asked, and keeps what it then knows; the multicast
    memberships change; a reflection is counted. *)
Inductive session_step {C : Crypto} : Session -> Session -> Prop :=
| ss_encrypt s pkt r c : encrypt (s_cipher s) pkt = (r, c) -> session_step s (set_cipher c s)
| ss_decrypt s p sender r c : decrypt (s_cipher s) p sender = (r, c) -> session_step s (set_cipher c s)
| ss_adopt s st c : update_peers (s_cipher s) st = Ok c -> session_step s (adopt c st s)
| ss_report s packet now : session_step s (set_multicast (snd (observe (s_multicast s) packet now)) s)
| ss_groups s groups : session_step s (set_multicast (Multicast.synchronize (s_multicast s) groups) s)
| ss_recognise s packet now : session_step s (set_injected (snd (history_contains packet now (s_injected s))) s)
| ss_remember s packet now : session_step s (set_injected (snd (history_remember packet now (s_injected s))) s)
| ss_outbound s packet now : session_step s (set_outbound (snd (permit packet now (s_outbound s))) s)
| ss_inbound s device packet now :
    session_step s (set_inbound (<[device := snd (permit packet now (default new_guard (s_inbound s !! device)))]> (s_inbound s)) s)
| ss_reflect s : session_step s (reflect s).

(** What stays of a session whatever happens to it; its sequence numbers are only ever used up. *)
Record follows {C : Crypto} (s s' : Session) : Prop := mk_follows {
  fo_network : state_network_id (s_peers s') = state_network_id (s_peers s);
  fo_address : own_address (s_peers s') = own_address (s_peers s);
  fo_key : s_key s' = s_key s;
  fo_own : s_own_key s' = s_own_key s /\ s_own_device s' = s_own_device s;
  fo_outgoing : outgoing_key_ (s_cipher s') = outgoing_key_ (s_cipher s) /\
                outgoing_nonce_prefix_ (s_cipher s') = outgoing_nonce_prefix_ (s_cipher s);
  fo_sequence : next_sequence_ (s_cipher s) <= next_sequence_ (s_cipher s');
  fo_steps : rtc session_step s s' }.

Record bridge_ok (b : Bridge) : Prop := mk_bridge_ok {
  bo_heap : forall l s, heap_ b !! l = Some s -> session_ok s /\ (l < next_ b)%nat;
  bo_sessions : forall id l, sessions_ b !! id = Some l -> exists s, heap_ b !! l = Some s /\ state_network_id (s_peers s) = id;
  bo_mtu : 68 <= mtu_ b <= 65535 }.

(** How a bridge may change, by this thread or by others. *)
Record evolves {C : Crypto} (b b' : Bridge) : Prop := mk_evolves {
  ev_ok : bridge_ok b';
  ev_heap : forall l s, heap_ b !! l = Some s -> exists s', heap_ b' !! l = Some s' /\ follows s s' }.

Section Evolution.
Context {C : Crypto}.
Lemma follows_refl s : follows s s.
Proof. split; try done. Qed.
Lemma follows_trans s1 s2 s3 : follows s1 s2 -> follows s2 s3 -> follows s1 s3.
Proof. intros [? ? ? [? ?] [? ?] ? ?] [? ? ? [? ?] [? ?] ? ?]. split; try (split; congruence); try congruence; [lia|by etrans]. Qed.
Lemma evolves_refl b : bridge_ok b -> evolves b b.
Proof. intros O. split; [done|]. intros l s H. exists s. by split; [|apply follows_refl]. Qed.
Lemma evolves_trans b1 b2 b3 : evolves b1 b2 -> evolves b2 b3 -> evolves b1 b3.
Proof.
  intros [_ H1] [O H2]. split; [done|]. intros l s H. destruct (H1 l s H) as (s2 & Hs2 & F2).
  destruct (H2 l s2 Hs2) as (s3 & Hs3 & F3). exists s3. split; [done|]. by eapply follows_trans.
Qed.

Lemma deref_eq l b s : heap_ b !! l = Some s -> deref l b = s.
Proof. unfold deref. by intros ->. Qed.
Lemma evolves_deref b b' l s : evolves b b' -> heap_ b !! l = Some s ->
  heap_ b' !! l = Some (deref l b') /\ follows s (deref l b') /\ session_ok (deref l b').
Proof.
  intros [O H] L. destruct (H l s L) as (s' & L' & F). rewrite (deref_eq _ _ _ L'). split; [done|]. split; [done|]. by apply (bo_heap _ O l).
Qed.

Lemma store_evolves l s s' b : bridge_ok b -> heap_ b !! l = Some s -> session_ok s' -> follows s s' -> evolves b (store l s' b).
Proof.
  intros O L S F. split.
  - destruct O as [O1 O2 O3]. split; [| |done].
    + intros k t. cbn. destruct (decide (l = k)) as [<-|N]; [rewrite lookup_insert_eq; intros [= <-]; split; [done|by apply (O1 l s)]|].
      rewrite lookup_insert_ne by done. apply O1.
    + intros id k H. destruct (O2 id k H) as (t & Ht & E). cbn. destruct (decide (l = k)) as [<-|N].
      * exists s'. rewrite lookup_insert_eq. split; [done|]. rewrite (fo_network _ _ F). congruence.
      * exists t. by rewrite lookup_insert_ne.
  - intros k t H. cbn. destruct (decide (l = k)) as [<-|N].
    + exists s'. rewrite lookup_insert_eq. split; [done|]. congruence.
    + exists t. rewrite lookup_insert_ne by done. split; [done|apply follows_refl].
Qed.
End Evolution.
