(* ===== verification/BridgeSafety.v ===== *)
(** * The bridge is safe under interleaving

    Every operation of [PacketBridge] keeps what a session is and only uses up its sequence numbers,
    whatever other threads do in between under the same terms; so what is injected was authenticated
    by a session that is still current, and what is sent was encrypted by a session of the network. *)
From S2P Require Import LanDiscovery GameDiagnostics Multicast.
From S2P Require Import Prelude Ipv4 NetworkPolicy NetworkMessages PacketMessages Crypto PacketCipher RelayStore RoutedNetwork PacketBridge.

Section Safety.
Context {C : Crypto}.

(** [m] started in [b] evolves the bridge, emits only [Q] and ends with [R] unless it throws. *)
Definition triple {A} (b : Bridge) (m : B A) (Q : output -> Bridge -> Prop) (R : A -> Bridge -> Prop) : Prop :=
  match m b with
  | (r, b', l) => evolves b b' /\ Forall (fun e => (evolves b (snd e) /\ evolves (snd e) b') /\ Q (fst e) (snd e)) l /\
      match r with Ok a => R a b' | Throw _ => True end
  end.

Lemma triple_bind {A A'} b (m : B A) (k : A -> B A') Q R S :
  triple b m Q R -> (forall a b1, evolves b b1 -> R a b1 -> triple b1 (k a) Q S) -> triple b (bind m k) Q S.
Proof.
  unfold triple, bind. destruct (m b) as [[[a|e] b1] l]; intros (E & F & HR) K; [|done].
  specialize (K a b1 E HR). destruct (k a b1) as [[r b2] l']. destruct K as (E' & F' & HS).
  split; [by eapply evolves_trans|]. split; [|done]. apply Forall_app. split.
  - eapply Forall_impl; [exact F|]. intros [x bx] [[? ?] ?]. cbn in *. split; [split; [done|by eapply evolves_trans]|done].
  - eapply Forall_impl; [exact F'|]. intros [x bx] [[? ?] ?]. cbn in *. split; [split; [by eapply evolves_trans|done]|done].
Qed.
Lemma triple_ret {A} b (a : A) Q (R : A -> Bridge -> Prop) : bridge_ok b -> R a b -> triple b (ret a) Q R.
Proof. intros O H. split; [by apply evolves_refl|]. split; [constructor|done]. Qed.
Lemma triple_pure {A} b (r : result A) Q : bridge_ok b -> triple b (pure r) Q (fun a b' => r = Ok a /\ b' = b).
Proof. intros O. split; [by apply evolves_refl|]. split; [constructor|]. by destruct r. Qed.
Lemma triple_get b Q : bridge_ok b -> triple b get Q (fun a b' => a = b /\ b' = b).
Proof. intros O. split; [by apply evolves_refl|]. split; [constructor|done]. Qed.
Lemma triple_emit b x (Q : output -> Bridge -> Prop) : bridge_ok b -> Q x b -> triple b (emit x) Q (fun _ b' => b' = b).
Proof. intros O H. split; [by apply evolves_refl|]. split; [|done]. constructor; [|constructor]. split; [split; by apply evolves_refl|done]. Qed.
Lemma triple_yield b f Q : evolves b (f b) -> triple b (yield f) Q (fun _ b' => b' = f b).
Proof. intros E. split; [done|]. split; [constructor|done]. Qed.
Lemma triple_update b l s f Q : bridge_ok b -> heap_ b !! l = Some s -> session_ok (f s) -> follows s (f s) ->
  triple b (update l f) Q (fun _ b' => b' = store l (f s) b).
Proof.
  intros O L S F. unfold triple, update. rewrite (deref_eq _ _ _ L). split; [by apply (store_evolves l s)|]. split; [constructor|done].
Qed.
Lemma triple_weaken {A} b (m : B A) (Q Q' : output -> Bridge -> Prop) (R R' : A -> Bridge -> Prop) : triple b m Q R ->
  (forall x b', evolves b b' -> Q x b' -> Q' x b') -> (forall a b', evolves b b' -> R a b' -> R' a b') -> triple b m Q' R'.
Proof.
  unfold triple. destruct (m b) as [[r b'] l]. intros (E & F & H) W V. split; [done|]. split.
  - eapply Forall_impl; [exact F|]. intros [x bx] [[? ?] ?]. cbn in *. split; [done|by apply W].
  - destruct r; [|done]. by apply V.
Qed.
Lemma triple_for_each {A} (l : list A) (f : A -> B unit) (Q : output -> Bridge -> Prop) (I : Bridge -> Prop) :
  (forall x b, x ∈ l -> bridge_ok b -> I b -> triple b (f x) Q (fun _ b' => I b')) ->
  forall b, bridge_ok b -> I b -> triple b (for_each l f) Q (fun _ b' => I b').
Proof.
  induction l as [|x l IH]; intros H b O HI; cbn [for_each]; [by apply triple_ret|].
  eapply triple_bind; [by apply H; [left|..]|]. intros u b1 E HI1. apply IH; [|by destruct E|done].
  intros y b2 Hy. apply H. by right.
Qed.

(** ** Sessions *)

Lemma session_ok_fields s s' : session_ok s -> s_peers s' = s_peers s -> s_key s' = s_key s -> s_own_device s' = s_own_device s ->
  s_cipher s' = s_cipher s -> session_ok s'.
Proof. intros [? ? ? ? ? ? ? ? ?] E1 E2 E3 E4. split; rewrite ?E1, ?E2, ?E3, ?E4; done. Qed.
Lemma follows_fields s s' : s_peers s' = s_peers s -> s_key s' = s_key s -> s_own_key s' = s_own_key s -> s_own_device s' = s_own_device s ->
  s_cipher s' = s_cipher s -> session_step s s' -> follows s s'.
Proof. intros E1 E2 E3 E4 E5 St. split; rewrite ?E1, ?E2, ?E3, ?E4, ?E5; try done. by apply rtc_once. Qed.

Lemma encrypted_session s pkt r c : session_ok s -> encrypt (s_cipher s) pkt = (r, c) ->
  session_ok (set_cipher c s) /\ follows s (set_cipher c s).
Proof.
  intros O E. destruct (encrypt_inv _ _ _ _ E) as [[-> _] | [-> N]].
  - split; [by eapply session_ok_fields|apply follows_fields; try done; by eapply ss_encrypt].
  - destruct O as [O1 O2 O3 O4 O5 O6 O7 O8 O9]. split; [|split; cbn; try done; [lia|by eapply rtc_once, ss_encrypt]]. split; try done. cbn. lia.
Qed.

Lemma record_sequence_fields r p : receiver_ipv4 (record_sequence r p) = receiver_ipv4 r /\
  session_public_key (record_sequence r p) = session_public_key r /\ fanout_allowed (record_sequence r p) = fanout_allowed r.
Proof. unfold record_sequence. repeat case_match; done. Qed.
Lemma decrypted_session s p sender r c : session_ok s -> decrypt (s_cipher s) p sender = (r, c) ->
  session_ok (set_cipher c s) /\ follows s (set_cipher c s).
Proof.
  intros O E. assert (St : session_step s (set_cipher c s)) by (by eapply ss_decrypt).
  destruct r as [pt|e]; [|apply decrypt_throw in E as ->; split; [by eapply session_ok_fields|by apply follows_fields]].
  destruct (decrypt_ok _ _ _ _ _ E) as (r & L & -> & _). destruct O as [O1 O2 O3 O4 O5 O6 O7 O8 O9].
  split; [|by split; try done; apply rtc_once]. split; try done. cbn. intros id q. cbn [peers_ set_peers].
  destruct (decide (sender = id)) as [<-|N]; [|rewrite lookup_insert_ne by done; apply O7].
  rewrite lookup_insert_eq. intros [= <-]. destruct (record_sequence_fields r p) as (-> & -> & ->). by apply O7.
Qed.

Lemma triple_send b loc s pkt (Q : output -> Bridge -> Prop) : bridge_ok b -> heap_ b !! loc = Some s ->
  (forall p c b', encrypt (s_cipher s) pkt = (Ok p, c) -> b' = store loc (set_cipher c s) b -> Q (sent p) b') ->
  triple b (encrypt_and_send loc pkt) Q (fun _ _ => True).
Proof.
  intros O L H. unfold triple, encrypt_and_send. rewrite (deref_eq _ _ _ L). destruct (encrypt (s_cipher s) pkt) as [r c] eqn:E.
  destruct (encrypted_session s pkt r c) as [S F]; [by apply (bo_heap _ O loc)|done|].
  pose proof (store_evolves loc s _ b O L S F) as V. destruct r as [p|e]; (split; [done|]); (split; [|done]); [|constructor].
  constructor; [|constructor]. split; [split; [done|apply evolves_refl; by destruct V]|]. by apply (H p c).
Qed.

Lemma triple_decrypt b loc s d Q : bridge_ok b -> heap_ b !! loc = Some s ->
  triple b (decrypt_with loc d) Q (fun pt b' => exists c, decrypt (s_cipher s) (packet d) (sender_device_id d) = (Ok pt, c) /\
    b' = store loc (set_cipher c s) b).
Proof.
  intros O L. unfold triple, decrypt_with. rewrite (deref_eq _ _ _ L). destruct (decrypt _ _ _) as [r c] eqn:E.
  destruct (decrypted_session s _ _ r c ltac:(by apply (bo_heap _ O loc)) E) as [S F].
  split; [by apply (store_evolves loc s)|]. split; [constructor|]. destruct r; [|done]. by exists c.
Qed.

(** ** Following the session state *)

Lemma update_loop_listed c pol l : forall updated m,
  update_loop c pol l updated = Ok m ->
  forall id r, m !! id = Some r -> updated !! id = Some r \/
    exists p k, p ∈ l /\ peer_device_id p = id /\ signed_key p = Some k /\ ipv4_address p = receiver_ipv4 r /\
      encryption_public_key k = session_public_key r /\
      match pol with Some pl => policy_allows pl (own_device_id_ c) id = true | None => True end.
Proof.
  induction l as [|p l IH]; intros updated m H id r Hm; cbn [update_loop] in H; [ok_inv H; subst; by left|].
  assert (W : forall q k, q ∈ l /\ peer_device_id q = id /\ signed_key q = Some k /\ ipv4_address q = receiver_ipv4 r /\
      encryption_public_key k = session_public_key r /\ match pol with Some pl => policy_allows pl (own_device_id_ c) id = true | None => True end ->
      exists q k, q ∈ p :: l /\ peer_device_id q = id /\ signed_key q = Some k /\ ipv4_address q = receiver_ipv4 r /\
      encryption_public_key k = session_public_key r /\ match pol with Some pl => policy_allows pl (own_device_id_ c) id = true | None => True end).
  { intros q k (? & Q). exists q, k. split; [by right|done]. }
  destruct (signed_key p) as [k|] eqn:K; [|destruct (IH _ _ H id r Hm) as [?|(q & k & Q)]; [by left|right; by eapply W]].
  destruct (match pol with Some _ => _ | None => false end) eqn:A; [destruct (IH _ _ H id r Hm) as [?|(q & k' & Q)]; [by left|right; by eapply W]|].
  ok_inv H. destruct (IH _ _ H id r Hm) as [Hu|(q & k' & Q)]; [|right; by eapply W].
  destruct (updated !! peer_device_id p) eqn:U; [by left|].
  destruct (decide (id = peer_device_id p)) as [->|Hne]; [|rewrite lookup_insert_ne in Hu by done; by left].
  rewrite lookup_insert_eq in Hu. injection Hu as <-. right. exists p, k. split; [left|]. split; [done|]. split; [done|].
  assert (Eq : ipv4_address p = receiver_ipv4 a0 /\ encryption_public_key k = session_public_key a0).
  { destruct (peers_ c !! peer_device_id p) as [r0|].
    - destruct (bool_decide _ && _) eqn:B in E0; [apply Ok_inj in E0 as <-; bool_prop; by subst|]. ok_inv E0. by subst.
    - ok_inv E0. by subst. }
  destruct Eq as [-> ->]. split; [done|]. split; [done|]. destruct pol; [|done]. by apply negb_false_iff in A.
Qed.

(** What [update_peers] keeps and what it makes of the receivers. *)
Lemma update_peers_spec c st c' : update_peers c st = Ok c' ->
  network_id_ c' = network_id_ c /\ key_epoch_ c' = key_epoch_ c /\ own_ipv4_address_ c' = own_ipv4_address_ c /\
  own_device_id_ c' = own_device_id_ c /\ outgoing_key_ c' = outgoing_key_ c /\ outgoing_nonce_prefix_ c' = outgoing_nonce_prefix_ c /\
  next_sequence_ c' = next_sequence_ c /\ subnet_address_ c' = subnet_address st /\ prefix_length_ c' = prefix_length st /\
  state_network_id st = network_id_ c /\ state_key_epoch st = key_epoch_ c /\ own_address st = own_ipv4_address_ c /\
  receivers_listed c' (own_device_id_ c) st /\ managed_ c' = is_managed st.
Proof.
  unfold update_peers. intros H. ok_inv H. subst c'. bool_prop. cbn. split_and!; try done. intros id r. cbn [peers_].
  rewrite map_lookup_imap. destruct (a0 !! id) as [r0|] eqn:L; [|done]. cbn. intros [= <-].
  destruct (update_loop_listed _ _ _ _ _ E0 id r0 L) as [X|(p & k & X)]; [by rewrite lookup_empty in X|]. exists p, k. by split_and!; try apply X.
Qed.

Lemma adopted_session s st c : session_ok s -> update_peers (s_cipher s) st = Ok c ->
  is_ipv4_host (own_address st) (subnet_address st) (prefix_length st) = true ->
  session_ok (adopt c st s) /\ follows s (adopt c st s).
Proof.
  intros [O1 [O2 O2'] O3 O4 O5 O6 O7 O8 O9] U Hh. destruct (update_peers_spec _ _ _ U) as (E1 & E2 & E3 & E4 & E5 & E6 & E7 & E8 & E9 & E10 & E11 & E12 & L & Em).
  rewrite O6 in L. split; split; cbn; try done; try congruence; try (split; congruence); try lia. by apply rtc_once, ss_adopt.
Qed.
Lemma new_session_ok me draw n s : new_session me draw n = Ok s -> valid_state n = true ->
  is_ipv4_host (own_address (active_peers n)) (subnet_address (active_peers n)) (prefix_length (active_peers n)) = true ->
  session_ok s /\ s_peers s = active_peers n /\ s_key s = active_key n /\ s_own_key s = pi_signed_key me /\
  s_own_device s = pi_device_id me /\ next_sequence_ (s_cipher s) = 0 /\ draw = Some (outgoing_nonce_prefix_ (s_cipher s)) /\
  s_injected s = ∅ /\ s_inbound s = ∅.
Proof.
  unfold new_session. intros H V Hh. ok_inv H. subst s. unfold make_cipher in E. ok_inv E. destruct draw as [pre|]; [|done]. ok_inv E. subst a.
  destruct (update_peers_spec _ _ _ E0) as (F1 & F2 & F3 & F4 & F5 & F6 & F7 & F8 & F9 & F10 & F11 & F12 & L & Fm). cbn in *.
  unfold valid_state in V. bool_prop. split_and!; try done; [|congruence]. split; cbn; try done; try congruence.
  rewrite F7. lia.
Qed.

Lemma alloc_evolves s b : bridge_ok b -> session_ok s ->
  evolves b (mk_bridge (<[next_ b := s]> (heap_ b)) (S (next_ b)) (sessions_ b) (accept_routes_ b) (forward_ b) (mtu_ b)).
Proof.
  intros [O1 O2 O3] S. assert (N : heap_ b !! next_ b = None).
  { destruct (heap_ b !! next_ b) eqn:E; [|done]. apply O1 in E as [_ ?]. lia. }
  split; [split; cbn; [| |done]|].
  - intros l t. destruct (decide (next_ b = l)) as [<-|Ne]; [rewrite lookup_insert_eq; intros [= <-]; split; [done|lia]|].
    rewrite lookup_insert_ne by done. intros H. destruct (O1 _ _ H). split; [done|lia].
  - intros id l H. destruct (O2 id l H) as (t & Ht & E). exists t. rewrite lookup_insert_ne by congruence. done.
  - intros l t H. exists t. cbn. rewrite lookup_insert_ne by congruence. split; [done|apply follows_refl].
Qed.

(** The session a network has after the loop: the old one when it can be kept, with all it has used up,
    and a new one with a fresh nonce prefix otherwise. *)
Definition kept_session (me : PacketIdentitySnapshot) (b0 : Bridge) (n : ActiveNetworkPacketState) : option nat :=
  match sessions_ b0 !! state_network_id (active_peers n) with
  | Some loc => if reusable me n (deref loc b0) then Some loc else None
  | None => None
  end.
Definition sync_entry (me : PacketIdentitySnapshot) (draws : nat -> option bytes) (b0 b : Bridge) (n : ActiveNetworkPacketState) (loc : nat) : Prop :=
  exists s, heap_ b !! loc = Some s /\ s_peers s = active_peers n /\ s_key s = active_key n /\ s_own_key s = pi_signed_key me /\
    match kept_session me b0 n with
    | Some old => loc = old /\ follows (deref old b0) s /\ next_sequence_ (s_cipher s) = next_sequence_ (s_cipher (deref old b0))
    | None => heap_ b0 !! loc = None /\ next_sequence_ (s_cipher s) = 0 /\ exists i, draws i = Some (outgoing_nonce_prefix_ (s_cipher s))
    end.

Definition id_of (n : ActiveNetworkPacketState) : bytes := state_network_id (active_peers n).

Record sync_inv (me : PacketIdentitySnapshot) (draws : nat -> option bytes) (b0 : Bridge) (done_ : list ActiveNetworkPacketState)
    (updated : gmap bytes nat) (b : Bridge) : Prop := mk_sync_inv {
  yi_evolves : evolves b0 b;
  yi_same : sessions_ b = sessions_ b0 /\ mtu_ b = mtu_ b0 /\ accept_routes_ b = accept_routes_ b0 /\ forward_ b = forward_ b0;
  yi_rest : forall id loc, id ∉ map id_of done_ -> sessions_ b0 !! id = Some loc -> heap_ b !! loc = heap_ b0 !! loc;
  yi_next : (next_ b0 <= next_ b)%nat;
  yi_updated : forall id, is_Some (updated !! id) <-> id ∈ map id_of done_;
  yi_entries : forall n, n ∈ done_ -> exists loc, updated !! id_of n = Some loc /\ sync_entry me draws b0 b n loc }.

(** Entries do not see a change at a location none of them has. *)
Lemma sync_entry_frame me draws b0 b b' n loc l : sync_entry me draws b0 b n loc -> loc <> l ->
  (forall k, k <> l -> heap_ b' !! k = heap_ b !! k) -> sync_entry me draws b0 b' n loc.
Proof. intros (s & H & R) N F. exists s. by rewrite F. Qed.

Lemma emplace_new (id : bytes) (l : nat) (m : gmap bytes nat) : m !! id = None -> emplace id l m = <[id := l]> m.
Proof. unfold emplace. by intros ->. Qed.

Lemma sync_inv_add me draws b0 D up b b' n l : bridge_ok b0 -> sync_inv me draws b0 D up b -> id_of n ∉ map id_of D ->
  evolves b b' -> sessions_ b' = sessions_ b /\ mtu_ b' = mtu_ b /\ accept_routes_ b' = accept_routes_ b /\ forward_ b' = forward_ b ->
  (next_ b <= next_ b')%nat -> (forall k, k <> l -> heap_ b' !! k = heap_ b !! k) ->
  (forall s, heap_ b !! l = Some s -> state_network_id (s_peers s) = id_of n) ->
  sync_entry me draws b0 b' n l -> sync_inv me draws b0 (D ++ [n]) (emplace (id_of n) l up) b'.
Proof.
  intros O0 [Y1 (Y2 & Y2' & Y2'' & Y2''') Y3 Y4 Y5 Y6] N E (S1 & S2 & S3 & S4) Nx Fr Own En.
  assert (U : up !! id_of n = None). { destruct (up !! id_of n) eqn:X; [|done]. exfalso. apply N, Y5. by eexists. }
  rewrite (emplace_new _ _ _ U). split.
  - by eapply evolves_trans.
  - split_and!; congruence.
  - intros id loc Nid L. rewrite map_app, not_elem_of_app in Nid. destruct Nid as [Nid Nid'].
    assert (Nn : id <> id_of n) by (intros ->; apply Nid'; left). specialize (Y3 id loc Nid L). rewrite Fr; [done|].
    intros ->. destruct (bo_sessions _ O0 _ _ L) as (s & Hs & Es). rewrite Hs in Y3. apply Own in Y3. congruence.
  - lia.
  - intros id. rewrite lookup_insert_is_Some', Y5, map_app, elem_of_app. cbn. rewrite list_elem_of_singleton. split; [intros [-> | ?]; auto|intros [? | ->]; auto].
  - intros m [Hm|Hm]%elem_of_app.
    + destruct (Y6 m Hm) as (loc & Lm & Em). exists loc. assert (Nm : id_of n <> id_of m).
      { intros X. apply N. rewrite X. by apply list_elem_of_fmap_2. }
      rewrite lookup_insert_ne by done. split; [done|]. eapply sync_entry_frame; [exact Em| |exact Fr].
      intros ->. destruct Em as (s & Hs & Ps & _). apply Own in Hs. unfold id_of in *. congruence.
    + apply list_elem_of_singleton in Hm as ->. exists l. by rewrite lookup_insert_eq.
Qed.

Lemma sync_loop_spec me draws b0 : bridge_ok b0 -> forall l D up i b, sync_inv me draws b0 D up b ->
  NoDup (map id_of (D ++ l)) ->
  Forall (fun n => is_ipv4_host (own_address (active_peers n)) (subnet_address (active_peers n)) (prefix_length (active_peers n)) = true) l ->
  match sync_loop me draws i l up b with
  | (Ok up', b', outs) => outs = [] /\ sync_inv me draws b0 (D ++ l) up' b' /\ Forall (fun n => valid_state n = true) l
  | (Throw _, b', outs) => outs = [] /\ evolves b0 b' /\ sessions_ b' = sessions_ b0 /\ mtu_ b' = mtu_ b0
  end.
Proof.
  intros O0. induction l as [|n l IH]; intros D up i b Y ND F; cbn [sync_loop]; [by rewrite app_nil_r|].
  apply Forall_cons in F as [Fn F]. pose proof Y as [Y1 (Y2 & Y2' & Y2'' & Y2''') Y3 Y4 Y5 Y6].
  destruct (valid_state n) eqn:V; cbn [negb]; [|done].
  assert (N : id_of n ∉ map id_of D).
  { rewrite map_app in ND. apply NoDup_app in ND as (_ & ND & _). intros X. apply (ND _ X). left. }
  assert (NL : NoDup (map id_of ((D ++ [n]) ++ l))) by by rewrite <- app_assoc.
  assert (Pre : forall b1 up1, sync_inv me draws b0 (D ++ [n]) up1 b1 ->
    match sync_loop me draws (S i) l up1 b1 with
    | (Ok up', b', outs) => outs = [] /\ sync_inv me draws b0 (D ++ n :: l) up' b' /\ Forall (fun n => valid_state n = true) (n :: l)
    | (Throw _, b', outs) => outs = [] /\ evolves b0 b' /\ sessions_ b' = sessions_ b0 /\ mtu_ b' = mtu_ b0
    end).
  { intros b1 up1 Y'. specialize (IH _ up1 (S i) b1 Y' NL F). destruct (sync_loop _ _ _ _ _ _) as [[[up'|e] b'] outs]; [|done].
    rewrite <- app_assoc in IH. destruct IH as (? & ? & ?). split_and!; [done..|by constructor]. }
  assert (K : match sessions_ b !! id_of n with Some loc => if reusable me n (deref loc b) then Some loc else None | None => None end
              = kept_session me b0 n).
  { unfold kept_session. fold (id_of n). rewrite Y2. destruct (sessions_ b0 !! id_of n) as [loc|] eqn:L; [|done].
    unfold deref. by rewrite (Y3 _ _ N L). }
  unfold bind, get. cbn [fst snd]. fold (id_of n). rewrite K. destruct (kept_session me b0 n) as [loc|] eqn:KS.
  - unfold kept_session in KS. fold (id_of n) in KS. destruct (sessions_ b0 !! id_of n) as [loc'|] eqn:L; [|done].
    destruct (reusable me n (deref loc' b0)) eqn:Re; [|done]. injection KS as ->.
    destruct (bo_sessions _ O0 _ _ L) as (s0 & Hs0 & Es0). pose proof (Y3 _ _ N L) as Hb. rewrite Hs0 in Hb.
    rewrite (deref_eq _ _ _ Hs0) in Re. rewrite (deref_eq _ _ _ Hb). unfold reusable in Re. bool_prop.
    assert (KS : kept_session me b0 n = Some loc).
    { unfold kept_session. fold (id_of n). rewrite L, (deref_eq _ _ _ Hs0). unfold reusable.
      rewrite !bool_decide_true by done. by replace (_ =? _) with true by lia. }
    assert (Ob : bridge_ok b) by by destruct Y1.
    case_bool_decide as P; cbn [ret pure fst snd].
    + match goal with |- context [sync_loop me draws (S i) l ?u b] => specialize (Pre b u) end.
      destruct (sync_loop _ _ _ _ _ _) as [[[up'|e] b'] outs]; apply Pre.
      * eapply sync_inv_add; try done; [by apply evolves_refl|intros s Hs; congruence|].
        exists s0. rewrite KS, (deref_eq _ _ _ Hs0). split_and!; done.
      * eapply sync_inv_add; try done; [by apply evolves_refl|intros s Hs; congruence|].
        exists s0. rewrite KS, (deref_eq _ _ _ Hs0). split_and!; done.
    + destruct (update_peers (s_cipher s0) (active_peers n)) as [c|e] eqn:U; cbn [fst snd]; [|done].
      unfold update. cbn [fst snd]. rewrite (deref_eq _ _ _ Hb).
      destruct (adopted_session s0 (active_peers n) c ltac:(by apply (bo_heap _ O0 loc)) U Fn) as [So Fo].
      assert (Y' : sync_inv me draws b0 (D ++ [n]) (emplace (id_of n) loc up) (store loc (adopt c (active_peers n) s0) b)).
      { eapply sync_inv_add; try done; [by apply (store_evolves loc s0)|intros k Nk; cbn; by rewrite lookup_insert_ne|intros s Hs; congruence|].
        exists (adopt c (active_peers n) s0). cbn. rewrite lookup_insert_eq, KS, (deref_eq _ _ _ Hs0). split_and!; try done.
        destruct (update_peers_spec _ _ _ U) as (_ & _ & _ & _ & _ & _ & E7 & _). done. }
      specialize (Pre _ _ Y'). destruct (sync_loop _ _ _ _ _ _) as [[[up'|e] b'] outs]; done.
  - destruct (new_session me (draws i) n) as [s|e] eqn:NS; cbn [pure fst snd]; [|done].
    destruct (new_session_ok _ _ _ _ NS V Fn) as (So & P1 & P2 & P3 & _ & P4 & P5 & _). unfold alloc. cbn [fst snd].
    assert (Ob : bridge_ok b) by by destruct Y1. pose proof (alloc_evolves s b Ob So) as Ev.
    set (b1 := mk_bridge _ _ _ _ _ _) in *. destruct (bool_decide _) eqn:X; bool_prop.
    + exfalso. apply N. by apply Y5.
    + assert (Nx : heap_ b !! next_ b = None).
      { destruct (heap_ b !! next_ b) eqn:Q; [|done]. apply (bo_heap _ Ob) in Q as [_ ?]. lia. }
      assert (N0 : heap_ b0 !! next_ b = None).
      { destruct (heap_ b0 !! next_ b) eqn:Q; [|done]. apply (bo_heap _ O0) in Q as [_ ?]. lia. }
      assert (Y' : sync_inv me draws b0 (D ++ [n]) (emplace (id_of n) (next_ b) up) b1).
      { eapply sync_inv_add; try done; [cbn; lia|intros k Nk; cbn; by rewrite lookup_insert_ne|intros t Ht; congruence|].
        exists s. cbn. rewrite lookup_insert_eq, KS. split_and!; try done. by exists i. }
      specialize (Pre _ _ Y'). destruct (sync_loop _ _ _ _ _ _) as [[[up'|e'] b'] outs]; done.
Qed.

(** ** The networks of a snapshot *)

Definition state_hosts (st : NetworkPeerState) : Prop := is_ipv4_host (own_address st) (subnet_address st) (prefix_length st) = true.
Definition in_subnet (st : NetworkPeerState) (x : Z) : Prop := subnet_contains (subnet_address st) (prefix_length st) x = true.

Lemma common_prefix a p b q x : word 4 x -> subnet_contains a p x = true -> subnet_contains b q x = true ->
  Z.land a (ipv4_mask (Z.min p q)) = Z.land b (ipv4_mask (Z.min p q)).
Proof.
  intros W. rewrite !subnet_contains_spec by done. intros [Hp Ea] [Hq Eb].
  assert (D : forall s k, 0 < k <= 32 -> x / 2 ^ (32 - k) * 2 ^ (32 - k) = s -> word 4 s).
  { intros s k Hk <-. words. assert (0 < 2 ^ (32 - k)) by (apply Z.pow_pos_nonneg; lia).
    pose proof (Z.mul_div_le x (2 ^ (32 - k)) ltac:(lia)). pose proof (Z.div_pos x (2 ^ (32 - k)) ltac:(lia) ltac:(lia)). nia. }
  rewrite !land_mask by (eauto || lia). f_equal.
  assert (X : forall s k, 0 < k <= 32 -> 32 - k <= 32 - Z.min p q -> x / 2 ^ (32 - k) * 2 ^ (32 - k) = s ->
    s / 2 ^ (32 - Z.min p q) = x / 2 ^ (32 - Z.min p q)).
  { intros s k Hk Hle E. apply (div_pow2_mono _ _ (32 - k)); [lia|]. apply contains_div; [apply Z.pow_pos_nonneg; lia|done]. }
  rewrite (X a p), (X b q) by (done || lia). done.
Qed.

Lemma check_networks_ok l : forall before, check_networks before l = Ok tt -> NoDup (map state_network_id before) ->
  NoDup (map state_network_id (before ++ l)) /\ Forall state_hosts l /\
  (forall st p x, st ∈ l -> p ∈ before -> word 4 x -> in_subnet st x -> in_subnet p x -> False) /\
  (forall i j st p x, l !! i = Some st -> l !! j = Some p -> word 4 x -> in_subnet st x -> in_subnet p x -> i = j).
Proof.
  induction l as [|st l IH]; intros before H N; cbn [check_networks] in H.
  - rewrite app_nil_r. split; [done|]. split; [constructor|]. split; [intros st p x X; by apply not_elem_of_nil in X|done].
  - ok_inv H. bool_prop.
    assert (D : forall p, p ∈ before -> state_network_id st <> state_network_id p /\ (forall x, word 4 x -> in_subnet st x -> in_subnet p x -> False)).
    { intros p Hp. match goal with G : existsb _ before = false |- _ => rename G into Ge end.
      assert (Gp : (fun p => let mask := ipv4_mask (Z.min (prefix_length st) (prefix_length p)) in
          bool_decide (state_network_id st = state_network_id p) ||
          (Z.land (subnet_address st) mask =? Z.land (subnet_address p) mask)) p = false).
      { apply not_true_is_false. intros T. apply not_true_iff_false in Ge. apply Ge, existsb_exists. exists p. split; [by apply list_elem_of_In|done]. }
      cbn in Gp. rewrite orb_false_iff, bool_decide_eq_false, Z.eqb_neq in Gp. destruct Gp as [G1 G2]. split; [done|].
      intros x W X Y. apply G2. by apply (common_prefix _ _ _ _ x). }
    destruct (IH (before ++ [st]) H) as (ND & F & A & B).
    { rewrite map_app. apply NoDup_app. split; [done|]. split; [|apply NoDup_singleton].
      intros id Hid X. apply list_elem_of_singleton in X as ->. apply list_elem_of_fmap in Hid as (p & E & Hp). by apply (D p Hp). }
    rewrite <- app_assoc in ND. split_and!; [done|by constructor| |].
    + intros st' p x [->|Hst]%elem_of_cons Hp W X Y; [by apply (proj2 (D p Hp) x)|].
      apply (A st' p x); try done. apply elem_of_app. by left.
    + assert (Bs : forall j p x, l !! j = Some p -> word 4 x -> in_subnet st x -> in_subnet p x -> False).
      { intros j p x Hj W X Y. apply (A p st x); try done; [by eapply list_elem_of_lookup_2|]. apply elem_of_app. right. left. }
      intros [|i] [|j] a c x Ha Hc W X Y; cbn in *; [done|injection Ha as <-|injection Hc as <-|].
      * exfalso. by apply (Bs j c x).
      * exfalso. by apply (Bs i a x).
      * f_equal. by apply (B i j a c x).
Qed.

Lemma sessions_evolves b0 b m : evolves b0 b ->
  (forall id l, m !! id = Some l -> exists s, heap_ b !! l = Some s /\ state_network_id (s_peers s) = id) ->
  evolves b0 (set_sessions m b).
Proof. intros [[O1 O2 O3] H] S. split; [|done]. split; [done| |done]. exact S. Qed.

(** Following a session snapshot is exact and keeps nonces safe.  Without an identity every session is
    dropped.  Otherwise, unless it throws, the bridge has a session for exactly the networks of the
    snapshot, whose ids differ and whose subnets share no address, each with the given peer state and
    network key: the session it had, when its key, address and signed key are the same, with its sequence
    counter where it was, and else a new one at sequence zero with a newly drawn nonce prefix.  A
    throw leaves the map of sessions as it was.  No session ever changes its network, address, keys or
    nonce prefix or goes back to an earlier sequence number. *)
Lemma synchronize_spec b identity networks draws r b' outs :
  bridge_ok b -> synchronize identity networks draws b = (r, b', outs) ->
  outs = [] /\ evolves b b' /\
  match identity, r with
  | None, _ => r = Ok tt /\ sessions_ b' = ∅
  | Some _, Throw _ => sessions_ b' = sessions_ b
  | Some me, Ok _ =>
      NoDup (map id_of networks) /\ Forall (fun n => valid_state n = true) networks /\
      (forall i j n m x, networks !! i = Some n -> networks !! j = Some m -> word 4 x ->
         in_subnet (active_peers n) x -> in_subnet (active_peers m) x -> i = j) /\
      (forall id, is_Some (sessions_ b' !! id) <-> id ∈ map id_of networks) /\
      (forall n, n ∈ networks -> exists loc, sessions_ b' !! id_of n = Some loc /\ sync_entry me draws b b' n loc)
  end.
Proof.
  intros O. unfold synchronize. destruct identity as [me|].
  - unfold bind, pure. destruct (check_networks [] (map active_peers networks)) as [[]|e] eqn:K; cbn [fst snd].
    2: { intros [= <- <- <-]. split; [done|]. split; [by apply evolves_refl|done]. }
    destruct (check_networks_ok _ [] K ltac:(constructor)) as (ND & F & _ & Dj). cbn [app] in ND. rewrite map_map in ND.
    pose proof (sync_loop_spec me draws b O networks [] ∅ 0 b) as L. cbn [app] in L.
    assert (Y : sync_inv me draws b [] ∅ b).
    { split; [by apply evolves_refl|done|done|done| |intros n X; by apply not_elem_of_nil in X]. intros id. rewrite lookup_empty. split; [by intros [? ?]|]. intros X. by apply not_elem_of_nil in X. }
    rewrite Forall_map in F. specialize (L Y ND F).
    destruct (sync_loop _ _ _ _ _ _) as [[[up|e] b1] outs1]; cbn [fst snd]; [|by intros [= <- <- <-]; destruct L as (? & ? & ? & ?)].
    destruct L as (-> & [Y1 _ _ _ Y5 Y6] & V). unfold yield. intros [= <- <- <-]. split; [done|]. split.
    + apply sessions_evolves; [done|]. intros id loc Hl. assert (Hi : is_Some (up !! id)) by by eexists.
      apply Y5, list_elem_of_fmap in Hi as (n & -> & Hn). destruct (Y6 n Hn) as (loc' & L' & s & Hs & Ps & _).
      assert (loc' = loc) as -> by congruence. exists s. split; [done|]. by rewrite Ps.
    + split_and!; try done. intros i j n m x Hi Hj. apply (Dj i j (active_peers n) (active_peers m) x); by rewrite list_lookup_fmap, ?Hi, ?Hj.
  - unfold yield. intros [= <- <- <-]. split; [done|]. split; [|done]. apply sessions_evolves; [by apply evolves_refl|].
    intros id l. by rewrite lookup_empty.
Qed.

(** ** Packets the adapter emits *)

(** What the policy says of a packet the session encrypts: in a managed network a member of the destination's address that may talk
    to this device, or for a fan-out address some member that may receive fan-out packets. *)
Definition policy_lets (s : Session) (p : EncryptedNetworkPacket) : Prop :=
  let st := s_peers s in
  is_managed st = true ->
  exists q k, q ∈ peers st /\ signed_key q = Some k /\ talks st (s_own_device s) (peer_device_id q) /\
    if fanout_of st (destination_ipv4 p) then fans_out st (s_own_device s) (peer_device_id q) = true else ipv4_address q = destination_ipv4 p.

Lemma encrypted_lets s pkt p c : session_ok s -> encrypt (s_cipher s) pkt = (Ok p, c) -> policy_lets s p.
Proof.
  intros O E Mg. pose proof E as E'. unfold encrypt in E. destruct (ipv4_addresses pkt) as [[src dst]|] eqn:Ea; [|done].
  destruct (negb (src =? _) || _ || _); [done|].
  assert (Dp : destination_ipv4 p = dst).
  { destruct (encrypt_ok _ _ _ _ E') as (d & aad & ct & t & Ed & _ & _ & _ & _ & _ & ->). cbn. rewrite Ea in Ed. by injection Ed. }
  rewrite (so_managed _ O), Mg in E. destruct (so_subnet _ O) as [-> ->] in E. rewrite Dp. unfold fanout_of.
  destruct (is_ipv4_fanout_destination dst _ _); cbn [negb andb orb] in E.
  - destruct (bool_decide_reflect (map_Exists (fun _ r => fanout_allowed r = true) (peers_ (s_cipher s)))) as [(id & r & L & F)|]; [|done].
    destruct (so_listed _ O id r L) as (q & k & Hq & <- & Hk & _ & _ & T & Ef). exists q, k. split_and!; try done. congruence.
  - destruct (bool_decide_reflect (map_Exists (fun _ r => receiver_ipv4 r = dst) (peers_ (s_cipher s)))) as [(id & r & L & F)|]; [|done].
    destruct (so_listed _ O id r L) as (q & k & Hq & <- & Hk & Ei & _ & T & _). exists q, k. split_and!; try done. congruence.
Qed.

Section Outbound.
Context (others : nat -> Bridge -> Bridge) (others_ok : forall k b, bridge_ok b -> evolves b (others k b)).
Context (packet : bytes) (now : Z) (b0 : Bridge).

(** Session [s] takes the packet at this MTU: its own address is the source, the destination is in its
    subnet or a fan-out address, and a fan-out packet is small, not one that was injected and permitted. *)
Definition taken (s : Session) (mtu : Z) : Prop :=
  let dst := read_ipv4 packet 16 in
  read_ipv4 packet 12 = own_address (s_peers s) /\ at_ packet 9 <> x02 /\
  (Z.land dst (ipv4_mask (prefix_length (s_peers s))) = subnet_address (s_peers s) \/ fanout_of (s_peers s) dst = true) /\
  (fanout_of (s_peers s) dst = true -> len packet <= Z.min mtu 1400 /\
     fst (history_contains packet now (s_injected s)) = Ok false /\ fst (permit packet now (s_outbound s)) = true).
(** The guard that permitted a fan-out packet is kept with what it then knows. *)
Definition noted_outbound (s s1 : Session) : Prop :=
  fanout_of (s_peers s) (read_ipv4 packet 16) = true -> s_outbound s1 = snd (permit packet now (s_outbound s)).

(** A route of the session's policy sends the packet to [dst]: the packet is this member's own, for the route's subnet, which
    the member accepts and is allowed to use, and [dst] is the gateway; or it comes from the subnet this member is the gateway of and forwards
    for, and [dst] is a member that is allowed to use the route. *)
Definition uses_route (b : Bridge) (s : Session) (pol : NetworkPolicy) (route : RoutedSubnet) (h : Ipv4Header) (dst : Z) : Prop :=
  (source h = own_address (s_peers s) /\ subnet_contains (address route) (prefix route) (destination h) = true /\
   accept_routes_ b = true /\ route_allows pol route (s_own_device s) = true /\
   exists q, q ∈ peers (s_peers s) /\ peer_device_id q = gateway route /\ has_key q = true /\ ipv4_address q = dst) \/
  (gateway route = s_own_device s /\ subnet_contains (address route) (prefix route) (source h) = true /\ forward_ b = true /\
   exists q, q ∈ peers (s_peers s) /\ ipv4_address q = destination h /\ has_key q = true /\
     route_allows pol route (peer_device_id q) = true /\ ipv4_address q = dst).
Definition routed_to (b : Bridge) (s : Session) (dst : Z) : Prop :=
  exists h pol route, inspect_ipv4 packet = Ok h /\ policy (s_peers s) = Some pol /\ route ∈ routes pol /\
    uses_route b s pol route h dst /\ dst <> 0 /\ safe_routed_ipv4 packet = Ok true.

(** [p] is the encryption of [plain] by the session at [loc], which has just used up a sequence number. *)
Definition sealed_by (bx : Bridge) (loc : nat) (s : Session) (plain : bytes) (p : EncryptedNetworkPacket) : Prop :=
  session_ok s /\ policy_lets s p /\ exists c, encrypt (s_cipher s) plain = (Ok p, c) /\ heap_ bx !! loc = Some (set_cipher c s).

(** The session that takes a packet is the one a network has when the mutex is taken for the loop over the sessions; a routed
    packet goes through the session a network has when the call begins. *)
Definition outbound_output (x : output) (bx : Bridge) : Prop :=
  match x with
  | sent p => exists id loc s plain, sealed_by bx loc s plain p /\
      ((exists s1 fs, let b1 := others 0%nat b0 in sessions_ b1 !! id = Some loc /\ heap_ b1 !! loc = Some (deref loc b1) /\
          taken (deref loc b1) (mtu_ b1) /\ follows (deref loc b1) s1 /\ noted_outbound (deref loc b1) s1 /\ follows s1 s /\
          fragment_ipv4 packet (mtu_ b1) = Ok fs /\ plain ∈ fs) \/
       (exists dst fs f, sessions_ b0 !! id = Some loc /\ heap_ b0 !! loc = Some (deref loc b0) /\
          routed_to b0 (deref loc b0) dst /\ follows (deref loc b0) s /\ fragment_ipv4 packet (Z.min (mtu_ b0) max_inner) = Ok fs /\ f ∈ fs /\
          encapsulate_routed_ipv4 f (own_address (s_peers (deref loc b0))) dst = Ok plain))
  | injected e => exists h router mtu, inspect_ipv4 packet = Ok h /\ dont_fragment h = true /\ mtu < len packet /\
      ipv4_fragmentation_needed packet router mtu = Ok (Some e)
  end.

Lemma route_decision_uses b s pol route h dst : route_decision b s pol route h = towards dst -> uses_route b s pol route h dst.
Proof.
  unfold route_decision. destruct (_ && _) eqn:G1.
  - bool_prop. destruct (accept_routes_ b) eqn:A; cbn [negb orb]; [|done]. destruct (route_allows pol route (s_own_device s)) eqn:R; cbn [negb]; [|done].
    unfold gateway_peer. destruct (List.find _ _) as [q|] eqn:F; [|done]. intros [= <-]. apply find_some in F as [Hq Gq]. apply list_elem_of_In in Hq. bool_prop.
    left. split_and!; try done. by exists q.
  - clear G1. destruct (_ && _) eqn:G2; [|done]. bool_prop. unfold member_at. destruct (List.find _ _) as [q|] eqn:F; [|done].
    apply find_some in F as [Hq Gq]. apply list_elem_of_In in Hq. bool_prop.
    destruct (forward_ b) eqn:Fw; cbn [negb orb]; [|done]. destruct (route_allows pol route (peer_device_id q)) eqn:R; cbn [negb]; [|done]. intros [= <-].
    right. split_and!; try done. by exists q.
Qed.
Lemma first_route_spec b s pol h l : 
  match first_route b s pol h l with
  | towards dst => exists route, route ∈ l /\ route_decision b s pol route h = towards dst /\ dst <> 0
  | _ => True
  end.
Proof.
  induction l as [|r l IH]; cbn [first_route]; [done|]. destruct (route_decision b s pol r h) as [| |d] eqn:R; [|done|].
  - destruct (first_route _ _ _ _ _); [done|done|]. destruct IH as (q & Hq & IH). exists q. split; [by right|done].
  - destruct (Z.eqb_spec d 0) as [->|N].
    + destruct (first_route _ _ _ _ _); [done|done|]. destruct IH as (q & Hq & IH). exists q. split; [by right|done].
    + exists r. split; [left|done].
Qed.
Lemma first_session_spec b h l loc dst : first_session b h l = Some (loc, Some dst) ->
  (exists id, (id, loc) ∈ l) /\ exists pol route, policy (s_peers (deref loc b)) = Some pol /\ route ∈ routes pol /\
    route_decision b (deref loc b) pol route h = towards dst /\ dst <> 0.
Proof.
  induction l as [|[id k] l IH]; cbn [first_session]; [done|]. intros H.
  assert (Later : first_session b h l = Some (loc, Some dst) -> (exists id0, (id0, loc) ∈ (id, k) :: l) /\ exists pol route,
    policy (s_peers (deref loc b)) = Some pol /\ route ∈ routes pol /\ route_decision b (deref loc b) pol route h = towards dst /\ dst <> 0).
  { intros X. destruct (IH X) as [[i Hi] ?]. split; [exists i; by right|done]. }
  destruct (policy (s_peers (deref k b))) as [pol|] eqn:P; [|by apply Later].
  pose proof (first_route_spec b (deref k b) pol h (routes pol)) as F.
  destruct (first_route _ _ _ _ _); [by apply Later|done|]. injection H as -> ->. destruct F as (route & Hr & D & N).
  split; [exists id; left|]. by exists pol, route.
Qed.

Lemma in_order_elem (m : gmap bytes nat) id loc : (id, loc) ∈ in_order m <-> m !! id = Some loc.
Proof. unfold in_order. rewrite order_by_perm. apply elem_of_map_to_list. Qed.

Lemma triple_outbound_routed : bridge_ok b0 -> triple b0 (outbound_routed packet) outbound_output (fun routed b' => routed = false -> b' = b0).
Proof.
  intros O. unfold outbound_routed. eapply triple_bind; [by apply triple_pure|]. intros h b1 _ [Eh ->].
  eapply triple_bind; [by apply triple_get|]. intros b2 b1 _ [-> ->].
  destruct (first_session b0 h _) as [[loc [dst|]]|] eqn:F; [|by apply triple_ret..].
  destruct (first_session_spec _ _ _ _ _ F) as ([id Hid] & pol & route & P & Hr & D & N). apply in_order_elem in Hid. apply route_decision_uses in D.
  destruct (bo_sessions _ O _ _ Hid) as (s & Hs & _). assert (Es0 : deref loc b0 = s) by (by apply deref_eq). rewrite Es0 in *.
  eapply triple_bind; [by apply triple_pure|]. intros safe b1 _ [Es ->]. destruct safe; cbn [negb]; [|by apply triple_ret].
  destruct (_ && _) eqn:G; bool_prop.
  - destruct (source h =? _); [|by apply triple_ret]. eapply triple_bind; [by apply triple_pure|].
    intros [e|] b1 _ [Ee ->]; [|by apply triple_ret]. eapply triple_bind; [apply triple_emit; [done|]|intros u b1 E _; apply triple_ret; [by destruct E|done]].
    cbn. exists h, (own_address (s_peers s)), (Z.min (mtu_ b0) max_inner). done.
  - eapply triple_bind; [by apply triple_pure|]. intros fs b1 _ [Ef ->].
    eapply triple_bind; [|intros u b1 E _; apply triple_ret; [by destruct E|done]].
    apply (triple_for_each fs _ outbound_output (fun b' => evolves b0 b')); [|done|by apply evolves_refl].
    intros f b1 Hf O1 E1. eapply triple_bind; [by apply triple_pure|]. intros outer b2 _ [Eo ->].
    destruct (evolves_deref _ _ _ _ E1 Hs) as (Hs1 & Fo & So). 
    eapply triple_weaken; [apply (triple_send b1 loc _ outer outbound_output O1 Hs1)|done|].
    + intros p c b' Ec ->. cbn. exists id, loc, (deref loc b1), outer.
      split; [split; [done|]; split; [by eapply encrypted_lets|]; exists c; cbn; by rewrite lookup_insert_eq|].
      right. exists dst, fs, f. rewrite Es0. split_and!; try done. by exists h, pol, route.
    + intros u b2 E2 _. by eapply evolves_trans.
Qed.

Lemma observe_not_igmp m : 20 <= len packet -> fst (observe m packet now) = not_igmp -> at_ packet 9 <> x02.
Proof.
  unfold observe. intros L. replace (len packet <? 20) with false by lia. cbn [orb]. case_bool_decide; cbn [negb]; [|done].
  repeat case_match; done.
Qed.

(** A change of a session's own bookkeeping. *)
Lemma triple_note b loc s f Q : bridge_ok b -> heap_ b !! loc = Some s ->
  (forall t, s_peers (f t) = s_peers t /\ s_key (f t) = s_key t /\ s_own_key (f t) = s_own_key t /\ s_own_device (f t) = s_own_device t /\
     s_cipher (f t) = s_cipher t) -> session_step s (f s) ->
  triple b (update loc f) Q (fun _ b' => b' = store loc (f s) b).
Proof.
  intros O L F St. destruct (F s) as (? & ? & ? & ? & ?).
  apply triple_update; [done..| |by apply follows_fields]. eapply session_ok_fields; [by apply (bo_heap _ O loc)|done..].
Qed.
Lemma store_lookup loc s b : heap_ (store loc s b) !! loc = Some s.
Proof. cbn. apply lookup_insert_eq. Qed.

(** What a look at a session leaves of the bridge: all other sessions, and the map. *)
Definition only_at (loc : nat) (b b' : Bridge) : Prop :=
  sessions_ b' = sessions_ b /\ mtu_ b' = mtu_ b /\ forall k, k <> loc -> heap_ b' !! k = heap_ b !! k.
Lemma only_at_refl loc b : only_at loc b b.
Proof. done. Qed.
Lemma only_at_store loc b b' s : only_at loc b b' -> only_at loc b (store loc s b').
Proof. intros (S & M & F). split_and!; try done. intros k N. cbn. rewrite lookup_insert_ne by done. by apply F. Qed.
#[local] Hint Resolve only_at_refl only_at_store : core.

Lemma triple_consider b loc s : 20 <= len packet -> bridge_ok b -> heap_ b !! loc = Some s ->
  triple b (consider loc packet now) outbound_output (fun c b' => only_at loc b b' /\
    (c = takes -> taken s (mtu_ b) /\ exists s1, heap_ b' !! loc = Some s1 /\ noted_outbound s s1)).
Proof.
  intros L20 O L. unfold consider. eapply triple_bind; [by apply triple_get|]. intros b1 b2 _ [-> ->]. rewrite (deref_eq _ _ _ L).
  set (dst := read_ipv4 packet 16). set (fan := fanout_of (s_peers s) dst).
  eapply (triple_bind _ _ _ _ (fun refl b' => only_at loc b b' /\
    (exists t, heap_ b' !! loc = Some t /\ s_multicast t = s_multicast s /\ s_outbound t = s_outbound s) /\
    (fan = true -> refl = false -> fst (history_contains packet now (s_injected s)) = Ok false))).
  { destruct fan; [|apply triple_ret; [done|]; split_and!; [done|by exists s|done]].
    pose proof (ss_recognise s packet now) as St. destruct (history_contains packet now (s_injected s)) as [r m]. cbn [snd] in St.
    eapply triple_bind; [by apply (triple_note b loc s)|].
    intros u b1 E ->. eapply triple_weaken; [apply triple_pure; by destruct E|done|]. intros refl b' _ [-> ->]. split_and!; [auto| |by intros _ ->].
    exists (set_injected m s). split; [apply store_lookup|done]. }
  intros refl b1 E1 (S1 & (t & Ht & Tm & To) & Hist). assert (O1 : bridge_ok b1) by by destruct E1.
  destruct refl.
  { eapply triple_bind; [apply (triple_note b1 loc t); [done|done|done|apply ss_reflect]|]. intros u b2 E2 ->. apply triple_ret; [by destruct E2|]. split; [auto|done]. }
  destruct ((_ =? own_address (s_peers s)) && _) eqn:G; [|apply triple_ret; [done|]; by split]. apply andb_true_iff in G as [G1 G2]. apply Z.eqb_eq in G1.
  pose proof (ss_report t packet now) as St. rewrite Tm in St. destruct (observe (s_multicast s) packet now) as [report m] eqn:Ob. cbn [snd] in St.
  eapply triple_bind; [by apply (triple_note b1 loc t)|].
  intros u b2 E2 ->. assert (O2 : bridge_ok (store loc (set_multicast m t) b1)) by by destruct E2.
  destruct (decide (report = not_igmp)) as [->|Nr]; [rewrite bool_decide_true by done; cbn [negb]|rewrite bool_decide_false by done; cbn [negb]; apply triple_ret; [done|]; split; [auto|done]].
  assert (N9 : at_ packet 9 <> x02) by (eapply observe_not_igmp; [done|by rewrite Ob]).
  rewrite bool_decide_false in G2 by done. cbn [orb] in G2. apply orb_true_iff in G2. rewrite Z.eqb_eq in G2.
  destruct fan eqn:Fan; cbn [andb].
  - destruct (Z.gtb_spec (len packet) (Z.min (mtu_ b) 1400)); [apply triple_ret; [done|]; split; [auto|done]|].
    pose proof (ss_outbound (set_multicast m t) packet now) as Sp. cbn [s_outbound set_multicast] in Sp. rewrite To in Sp.
    destruct (permit packet now (s_outbound s)) as [ok g] eqn:Pe. cbn [snd] in Sp.
    eapply triple_bind; [apply (triple_note _ loc (set_multicast m t)); [done|apply store_lookup|done|done]|].
    intros u' b3 E3 ->. destruct ok; apply triple_ret; try (by destruct E3); (split; [auto|]); [|done]. intros _. split.
    + split; [done|]. split; [done|]. split; [by right|]. intros _. split; [lia|]. split; [by apply Hist|by rewrite Pe].
    + eexists. split; [apply store_lookup|]. intros _. by rewrite Pe.
  - apply triple_ret; [done|]. split; [auto|]. intros _. split.
    + split; [done|]. split; [done|]. split; [by destruct G2; [left|]|]. fold dst fan. by rewrite Fan.
    + eexists. split; [apply store_lookup|]. unfold noted_outbound. fold dst fan. by rewrite Fan.
Qed.

Lemma triple_find_session l : 20 <= len packet -> forall b, bridge_ok b -> NoDup (map snd l) ->
  (forall id loc, (id, loc) ∈ l -> exists s, heap_ b !! loc = Some s) ->
  triple b (find_session l packet now) outbound_output (fun r b' => forall loc mtu, r = Some (loc, mtu) ->
    mtu = mtu_ b /\ (exists id, (id, loc) ∈ l) /\ taken (deref loc b) mtu /\
    exists s1, heap_ b' !! loc = Some s1 /\ noted_outbound (deref loc b) s1 /\ follows (deref loc b) s1).
Proof.
  intros L20. induction l as [|[id loc] l IH]; intros b O Nd Hl; cbn [find_session]; [by apply triple_ret|]. cbn in Nd. apply NoDup_cons in Nd as [Nn Nd].
  destruct (Hl id loc ltac:(left)) as [s Hs]. eapply triple_bind; [by apply (triple_consider b loc s)|].
  intros c b1 E ((S1 & M1 & F1) & T). assert (O1 : bridge_ok b1) by by destruct E. destruct c.
  - assert (Same : forall id' loc', (id', loc') ∈ l -> deref loc' b1 = deref loc' b).
    { intros id' loc' H'. unfold deref. rewrite F1; [done|]. intros ->. apply Nn. change loc with (snd (id', loc)). by apply list_elem_of_fmap_2. }
    eapply triple_weaken; [apply IH; [done|done|]|done|].
    + intros id' loc' H'. destruct (Hl id' loc' ltac:(by right)) as [t Ht]. destruct (evolves_deref _ _ _ _ E Ht) as (? & _). by eexists.
    + intros r b' _ H loc' mtu Er. destruct (H loc' mtu Er) as (-> & (id' & Hi) & Tk & s1 & H1 & H2 & H3). rewrite (Same id' loc' Hi) in *.
      rewrite M1 in *. split_and!; [done|exists id'; by right|done|]. by exists s1.
  - by apply triple_ret.
  - eapply triple_bind; [by apply triple_get|]. intros b2 b3 _ [-> ->]. apply triple_ret; [done|]. intros loc' mtu [= <- <-].
    rewrite M1, (deref_eq _ _ _ Hs). destruct (T eq_refl) as (Tk & s1 & H1 & H2). split_and!; [done|exists id; left|done|].
    exists s1. split_and!; [done|done|]. destruct (evolves_deref _ _ _ _ E Hs) as (Hd & Fo & _). assert (deref loc b1 = s1) as <- by congruence. done.
Qed.

(** Two networks never share a session. *)
Lemma session_locations b : bridge_ok b -> NoDup (map snd (in_order (sessions_ b))).
Proof.
  intros O. apply NoDup_fmap_2_strong.
  - intros [i l] [j k] Hi Hj E. cbn in E. subst k. apply in_order_elem in Hi, Hj.
    destruct (bo_sessions _ O _ _ Hi) as (s & Hs & Es), (bo_sessions _ O _ _ Hj) as (t & Ht & Et). congruence.
  - unfold in_order. rewrite order_by_perm. apply NoDup_map_to_list.
Qed.

Lemma triple_outbound : bridge_ok b0 -> triple b0 (outbound others packet now) outbound_output (fun _ _ => True).
Proof.
  intros O. unfold outbound, min_virtual_ipv4_packet_size. destruct (Z.ltb_spec (len packet) 20); [by apply triple_ret|].
  eapply triple_bind; [by apply triple_outbound_routed|]. intros routed b1 E1 Same. assert (O1 : bridge_ok b1) by by destruct E1.
  destruct routed; [by apply triple_ret|]. rewrite (Same eq_refl) in *. clear Same b1 O1.
  eapply triple_bind; [by apply triple_pure|]. intros h b2 _ [Eh ->].
  eapply triple_bind; [apply triple_yield, (others_ok 0%nat b0 O)|]. intros u b2 E2 ->. assert (O2 : bridge_ok (others 0%nat b0)) by by destruct E2.
  eapply triple_bind; [by apply triple_get|]. intros b3 b4 _ [-> ->].
  eapply triple_bind; [apply triple_find_session; [done|done|by apply session_locations|]|].
  { intros id loc Hin. apply in_order_elem in Hin. destruct (bo_sessions _ O2 _ _ Hin) as (s & Hs & _). by exists s. }
  intros sel b3 E3 Sel. assert (O3 : bridge_ok b3) by by destruct E3.
  eapply triple_bind; [apply triple_yield, (others_ok 1%nat b3 O3)|]. intros u' b4 E4 ->. assert (O4 : bridge_ok (others 1%nat b3)) by by destruct E4.
  destruct sel as [[loc mtu]|]; [|by apply triple_ret]. destruct (Sel loc mtu eq_refl) as (-> & (id & Hid) & T & s1 & Hs & No & Fo). clear Sel.
  apply in_order_elem in Hid. set (b1 := others 0%nat b0) in *.
  destruct (_ && _) eqn:G; bool_prop.
  - eapply triple_bind; [by apply triple_pure|]. intros [e|] b5 _ [Ee ->]; [|by apply triple_ret].
    eapply triple_weaken; [apply (triple_emit _ _ outbound_output); [done|]|done|done]. cbn. exists h, (read_ipv4 packet 12), (mtu_ b1). split_and!; try done; lia.
  - eapply triple_bind; [by apply triple_pure|]. intros fs b5 _ [Ef ->]. destruct (evolves_deref _ _ _ _ E4 Hs) as (Hs4 & Fo4 & _).
    eapply triple_weaken; [apply (triple_for_each _ _ outbound_output (fun b' => evolves (others 1%nat b3) b')); [|done|by apply evolves_refl]|done|done].
    intros [k f] b5 Hin O5 E5. cbn [fst snd]. assert (Hf : f ∈ fs).
    { apply elem_of_zip_r in Hin. done. }
    destruct (evolves_deref _ _ _ _ E5 Hs4) as (Hs5 & Fo5 & So5).
    eapply triple_bind; [apply (triple_send b5 loc _ f outbound_output O5 Hs5)|].
    + intros p c b' Ec ->. cbn. exists id, loc, (deref loc b5), f.
      split; [split; [done|]; split; [by eapply encrypted_lets|]; exists c; cbn; by rewrite lookup_insert_eq|].
      left. exists s1, fs. destruct (bo_sessions _ O2 _ _ Hid) as (s0 & Hs0 & _). fold b1. rewrite (deref_eq _ _ _ Hs0) in *.
      split_and!; try done. by eapply follows_trans.
    + intros u2 b6 E6 _. assert (O6 : bridge_ok b6) by by destruct E6.
      eapply triple_weaken; [apply triple_yield, (others_ok k b6 O6)|done|]. intros u3 b7 E7 _. eapply evolves_trans; [exact E5|]. by eapply evolves_trans.
Qed.
End Outbound.

(** ** Packets that are delivered *)

Lemma fragments_fit pkt mtu fs f : 68 <= mtu -> fragment_ipv4 pkt mtu = Ok fs -> f ∈ fs -> len f <= mtu.
Proof.
  intros M H. destruct (inspect_ipv4 pkt) as [info|] eqn:I; [|unfold fragment_ipv4 in H; ok_inv H; congruence].
  pose proof (fragment_ipv4_spec pkt info mtu M I) as S. destruct (Z.leb_spec (len pkt) mtu).
  - rewrite H in S. apply Ok_inj in S as ->. intros X. by apply list_elem_of_singleton in X as ->.
  - destruct (dont_fragment info); [congruence|]. destruct S as (fs' & next & E & _ & F). assert (fs' = fs) as -> by congruence.
    clear -F. induction F as [opts off body f' (_ & L & _)|opts off body rest f' fs (_ & L & _) _ _ _ IH]; intros X.
    + by apply list_elem_of_singleton in X as ->.
    + apply elem_of_cons in X as [->|X]; [done|by apply IH].
Qed.

Section Inbound.
Context (others : nat -> Bridge -> Bridge) (others_ok : forall k b, bridge_ok b -> evolves b (others k b)).
Context (d : ForwardedNetworkPacket) (now : Z) (b0 : Bridge).

(** [plaintext] is what session [s] opens the delivery to: it comes from a device the session lists with a
    key and the policy lets talk to this one (and send fan-out packets, if it is one), carries that device's address and the destination it was
    sent to, and belongs to the session's network and key epoch. *)
Definition authentic (s : Session) (plaintext : bytes) : Prop :=
  (exists p k, p ∈ peers (s_peers s) /\ peer_device_id p = sender_device_id d /\ signed_key p = Some k /\
     talks (s_peers s) (s_own_device s) (sender_device_id d) /\
     (fanout_of (s_peers s) (destination_ipv4 (packet d)) = true -> fans_out (s_peers s) (s_own_device s) (sender_device_id d) = true) /\
     ipv4_addresses plaintext = Ok (ipv4_address p, destination_ipv4 (packet d))) /\
  network_id (packet d) = state_network_id (s_peers s) /\ key_epoch (packet d) = state_key_epoch (s_peers s).

Lemma decrypt_fanout c p sender pt c' r : decrypt c p sender = (Ok pt, c') -> peers_ c !! sender = Some r ->
  is_ipv4_fanout_destination (destination_ipv4 p) (subnet_address_ c) (prefix_length_ c) = true -> fanout_allowed r = true.
Proof.
  unfold decrypt. intros H L F. rewrite L, F in H. destruct (encode_encrypted_network_packet_header p); [|done]. destruct (bool_decide _ && _); [|done].
  destruct (_ || _); [|done]. by destruct (fanout_allowed r).
Qed.
Lemma decrypted_authentic s pt c : session_ok s -> decrypt (s_cipher s) (packet d) (sender_device_id d) = (Ok pt, c) -> authentic s pt.
Proof.
  intros O E. destruct (decrypt_ok _ _ _ _ _ E) as (r & L & _ & _ & _ & A & N & K).
  destruct (so_listed _ O _ _ L) as (p & k & Hp & Ep & Ek & Ei & _ & Po & Fo). split.
  - exists p, k. split_and!; try done; [|by rewrite Ei]. unfold fanout_of. destruct (so_subnet _ O) as [<- <-]. intros F. rewrite <- Fo. by eapply decrypt_fanout.
  - rewrite N, K, (so_network _ O). split; [done|apply (so_epoch _ O)].
Qed.

(** A route lets a packet from the sender in: as a request to this member, which is the gateway and forwards, from the sender's own address into
    the route's subnet; or as an answer from the gateway, out of the subnet to this member, which accepts routes.  The one who uses the
    route is allowed to. *)
Definition comes_over (b : Bridge) (s : Session) (pol : NetworkPolicy) (sender : NetworkPeer) (h : Ipv4Header) (route : RoutedSubnet) : Prop :=
  (forward_ b = true /\ gateway route = s_own_device s /\ source h = ipv4_address sender /\
   is_ipv4_host (destination h) (address route) (prefix route) = true /\ route_allows pol route (peer_device_id sender) = true) \/
  (accept_routes_ b = true /\ gateway route = peer_device_id sender /\ destination h = own_address (s_peers s) /\
   is_ipv4_host (source h) (address route) (prefix route) = true /\ route_allows pol route (s_own_device s) = true).
Lemma admits_over b s pol sender h route : admits b s pol sender h route = true <-> comes_over b s pol sender h route.
Proof. unfold admits, comes_over. rewrite orb_true_iff, !andb_true_iff, !bool_decide_eq_true, !Z.eqb_eq. tauto. Qed.

(** A routed packet [inner] that may be injected in [b]. *)
Definition route_admits (b : Bridge) (inner : bytes) : Prop :=
  exists h loc pol sender route, inspect_ipv4 inner = Ok h /\ safe_routed_ipv4 inner = Ok true /\
    sessions_ b !! network_id (packet d) = Some loc /\ policy (s_peers (deref loc b)) = Some pol /\
    state_key_epoch (s_peers (deref loc b)) = key_epoch (packet d) /\
    sender ∈ peers (s_peers (deref loc b)) /\ peer_device_id sender = sender_device_id d /\ has_key sender = true /\
    policy_allows pol (s_own_device (deref loc b)) (sender_device_id d) = true /\
    route ∈ routes pol /\ comes_over b (deref loc b) pol sender h route.

(** What a fan-out packet passed before it was injected. *)
Definition fanout_admitted (s : Session) (mtu : Z) (plaintext : bytes) : Prop :=
  len plaintext <= Z.min mtu 1400 /\
  (is_ipv4_multicast (destination_ipv4 (packet d)) = true ->
     receives (s_multicast s) (destination_ipv4 (packet d)) (read_ipv4 plaintext 12) now = true) /\
  fst (permit plaintext now (default new_guard (s_inbound s !! sender_device_id d))) = true.
(** The sender's guard that permitted it is kept with what it then knows, and the packet is remembered. *)
Definition noted_inbound (s s1 : Session) (plaintext : bytes) : Prop :=
  s_inbound s1 !! sender_device_id d = Some (snd (permit plaintext now (default new_guard (s_inbound s !! sender_device_id d)))) /\
  s_injected s1 = snd (history_remember plaintext now (s_injected s)).

(** The delivery is opened by the network's session in the bridge the decryption finds, and checked in the bridge found then. *)
Definition opening : Bridge := others 0%nat b0.
Definition checking (loc : nat) (c : Cipher) : Bridge := others 1%nat (store loc (set_cipher c (deref loc opening)) opening).
(** The checks the packet passed when the mutex was taken for them left the session [s1]. *)
Definition passed (loc : nat) (c : Cipher) (plaintext : bytes) (s1 : Session) : Prop :=
  let s := deref loc (checking loc c) in
  follows s s1 /\ (fanout_of (s_peers (deref loc b0)) (destination_ipv4 (packet d)) = true -> fanout_admitted s (mtu_ b0) plaintext /\ noted_inbound s s1 plaintext).

Definition inbound_output (x : output) (bx : Bridge) : Prop :=
  exists loc plaintext c, sessions_ b0 !! network_id (packet d) = Some loc /\ heap_ b0 !! loc = Some (deref loc b0) /\
    heap_ opening !! loc = Some (deref loc opening) /\ follows (deref loc b0) (deref loc opening) /\
    decrypt (s_cipher (deref loc opening)) (packet d) (sender_device_id d) = (Ok plaintext, c) /\ authentic (deref loc opening) plaintext /\
    match x with
    | injected f =>
        (still_current d loc (s_peers (deref loc b0)) bx = true /\ len f <= mtu_ b0 /\
         (exists fs, fragment_ipv4 plaintext (mtu_ b0) = Ok fs /\ f ∈ fs) /\
         exists s1, passed loc c plaintext s1 /\ heap_ bx !! loc = Some (deref loc bx) /\ follows s1 (deref loc bx)) \/
        (at_ plaintext 9 = x04 /\ bx = checking loc c /\ len f <= mtu_ bx /\ exists inner fs, decapsulate_routed_ipv4 plaintext = Ok inner /\ route_admits bx inner /\
           fragment_ipv4 inner (mtu_ bx) = Ok fs /\ f ∈ fs)
    | sent p => exists e s1 s2, mtu_ b0 < len plaintext /\ passed loc c plaintext s1 /\ follows s1 s2 /\ sealed_by bx loc s2 e p /\
        ipv4_fragmentation_needed plaintext (own_address (s_peers (deref loc b0))) (mtu_ b0) = Ok (Some e)
    end.

Lemma find_spec {A} (f : A -> bool) l x : List.find f l = Some x -> x ∈ l /\ f x = true.
Proof. intros H. apply find_some in H as [H1 H2]. split; [by apply list_elem_of_In|done]. Qed.

(** What is known once session [s] at [loc] has opened the delivery to [pt]. *)
Definition opened_to (loc : nat) (pt : bytes) (c : Cipher) : Prop :=
  sessions_ b0 !! network_id (packet d) = Some loc /\ heap_ b0 !! loc = Some (deref loc b0) /\
  heap_ opening !! loc = Some (deref loc opening) /\ follows (deref loc b0) (deref loc opening) /\
  decrypt (s_cipher (deref loc opening)) (packet d) (sender_device_id d) = (Ok pt, c) /\ authentic (deref loc opening) pt.

Lemma triple_inbound_routed loc pt c : bridge_ok (checking loc c) -> opened_to loc pt c -> at_ pt 9 = x04 ->
  triple (checking loc c) (inbound_routed d pt) inbound_output (fun _ _ => True).
Proof.
  set (b := checking loc c). intros O Op P4. unfold inbound_routed. eapply triple_bind; [by apply triple_pure|]. intros inner b1 _ [Ei ->].
  eapply triple_bind; [by apply triple_pure|]. intros h b1 _ [Eh ->]. eapply triple_bind; [by apply triple_get|]. intros b1 b2 _ [-> ->].
  destruct (sessions_ b !! network_id (packet d)) as [k|] eqn:L; [|by apply triple_ret].
  destruct (policy (s_peers (deref k b))) as [pol|] eqn:Po; [|by apply triple_ret].
  destruct (Z.eqb_spec (state_key_epoch (s_peers (deref k b))) (key_epoch (packet d))) as [Ep|]; cbn [negb]; [|by apply triple_ret].
  eapply triple_bind; [by apply triple_pure|]. intros safe b1 _ [Es ->]. destruct safe; cbn [negb]; [|by apply triple_ret].
  destruct (gateway_peer _ _) as [sender|] eqn:Gp; [|by apply triple_ret]. apply find_spec in Gp as [Hse Gs]. bool_prop.
  destruct (policy_allows _ _ _) eqn:Al; cbn [negb]; [|by apply triple_ret].
  destruct (existsb _ _) eqn:Ex; [|by apply triple_ret]. apply existsb_exists in Ex as (route & Hr & Ad). apply list_elem_of_In in Hr. apply admits_over in Ad.
  eapply triple_bind; [by apply triple_pure|]. intros fs b1 _ [Ef ->].
  eapply triple_bind; [|intros u b1 E _; apply triple_ret; [by destruct E|done]].
  apply (triple_for_each fs _ inbound_output (fun b' => b' = b)); [|done|done]. intros f b1 Hf _ ->.
  eapply triple_weaken; [apply (triple_emit b _ inbound_output O)|done|done].
  destruct Op as (P1 & P2 & P3 & P5 & P6 & P7). exists loc, pt, c. split_and!; try done. right. split; [done|]. split; [done|].
  split; [by eapply fragments_fit; [apply (bo_mtu _ O)|..]|].
  exists inner, fs. split_and!; try done. by exists h, k, pol, sender, route.
Qed.

Lemma triple_admit_fanout b loc t before mtu pt : bridge_ok b -> heap_ b !! loc = Some t ->
  triple b (admit_fanout d loc before mtu pt now) inbound_output (fun go b' => go = true -> fanout_admitted t mtu pt /\
    exists s1, heap_ b' !! loc = Some s1 /\ follows t s1 /\ noted_inbound t s1 pt).
Proof.
  intros O L. unfold admit_fanout. eapply triple_bind; [by apply triple_get|]. intros b1 b2 _ [-> ->]. rewrite (deref_eq _ _ _ L).
  destruct (still_current _ _ _ _); cbn [negb]; [|by apply triple_ret]. destruct (Z.gtb_spec (len pt) (Z.min mtu 1400)); [by apply triple_ret|].
  destruct (_ && _) eqn:Mc; [by apply triple_ret|]. pose proof (ss_inbound t (sender_device_id d) pt now) as Si. destruct (permit _ _ _) as [ok g] eqn:Pe. cbn [snd] in Si.
  set (t1 := set_inbound (<[sender_device_id d := g]> (s_inbound t)) t) in *.
  eapply triple_bind; [by apply (triple_note b loc t)|]. intros u b1 E1 ->. assert (O1 : bridge_ok (store loc t1 b)) by by destruct E1.
  destruct ok; cbn [negb]; [|by apply triple_ret]. pose proof (ss_remember t1 pt now) as Sr. change (s_injected t1) with (s_injected t) in Sr.
  destruct (history_remember _ _ _) as [r m] eqn:Hr. cbn [snd] in Sr. set (t2 := set_injected m t1) in *.
  eapply triple_bind; [apply (triple_note _ loc t1 _ _ O1 (store_lookup _ _ _)); done|]. intros u' b2 E2 ->. assert (O2 : bridge_ok (store loc t2 (store loc t1 b))) by by destruct E2.
  eapply triple_bind; [by apply triple_pure|]. intros u2 b3 _ [_ ->]. apply triple_ret; [done|]. intros _. split.
  - split; [lia|]. split; [|by rewrite Pe]. intros M. rewrite M in Mc. cbn [andb] in Mc. by apply negb_false_iff in Mc.
  - exists t2. split; [apply store_lookup|]. split; [apply (follows_trans t t1 t2); by apply follows_fields|]. split; [cbn; by rewrite lookup_insert_eq, Pe|by rewrite Hr].
Qed.

Lemma triple_inject_all loc pt c s1 fs : opened_to loc pt c -> fragment_ipv4 pt (mtu_ b0) = Ok fs -> 68 <= mtu_ b0 -> passed loc c pt s1 ->
  forall l i b, bridge_ok b -> (forall f, f ∈ l -> f ∈ fs) -> heap_ b !! loc = Some (deref loc b) -> follows s1 (deref loc b) ->
  triple b (inject_all others d loc (s_peers (deref loc b0)) i l) inbound_output (fun _ _ => True).
Proof.
  intros Op Ef Mt Ps. induction l as [|f l IH]; intros i b O Hl Hh Fo; cbn [inject_all]; [by apply triple_ret|].
  eapply triple_bind; [by apply triple_get|]. intros b1 b2 _ [-> ->]. destruct (still_current _ _ _ _) eqn:Cu; cbn [negb]; [|by apply triple_ret].
  eapply triple_bind; [apply (triple_emit b _ inbound_output O)|].
  - destruct Op as (P1 & P2 & P3 & P5 & P6 & P7). exists loc, pt, c. split_and!; try done. left. assert (Hf : f ∈ fs) by (apply Hl; left).
    split_and!; try done; [by eapply fragments_fit|by exists fs|by exists s1].
  - intros u b1 _ ->. eapply triple_bind; [apply triple_yield, (others_ok i b O)|]. intros u' b2 E2 ->. destruct (evolves_deref _ _ _ _ E2 Hh) as (Hh' & Fo' & _).
    apply IH; [by destruct E2|intros g Hg; apply Hl; by right|done|by eapply follows_trans].
Qed.

Lemma triple_inbound : bridge_ok b0 -> triple b0 (inbound others d now) inbound_output (fun _ _ => True).
Proof.
  intros O. unfold inbound. eapply triple_bind; [by apply triple_get|]. intros b1 b2 _ [-> ->].
  destruct (sessions_ b0 !! network_id (packet d)) as [loc|] eqn:L; [|by apply triple_ret].
  destruct (bo_sessions _ O _ _ L) as (s0 & Hs0 & _). pose proof (deref_eq _ _ _ Hs0) as D0.
  eapply triple_bind; [apply triple_yield, (others_ok 0%nat b0 O)|]. intros u b1 E1 ->. fold opening in *. assert (O1 : bridge_ok opening) by by destruct E1.
  destruct (evolves_deref _ _ _ _ E1 Hs0) as (Hs1 & Fo1 & So1). rewrite <- D0 in Fo1, Hs0.
  eapply triple_bind; [apply (triple_decrypt _ loc _ d inbound_output O1 Hs1)|]. intros pt b2 E2 (c & Ed & ->).
  assert (Op : opened_to loc pt c) by (split_and!; try done; by eapply decrypted_authentic).
  set (b2 := store loc (set_cipher c (deref loc opening)) opening) in *. assert (O2 : bridge_ok b2) by by destruct E2.
  assert (Hs2 : heap_ b2 !! loc = Some (set_cipher c (deref loc opening))) by apply store_lookup.
  eapply triple_bind; [apply triple_yield, (others_ok 1%nat b2 O2)|]. intros u' b3 E3 ->.
  destruct (evolves_deref _ _ _ _ E3 Hs2) as (Hs3 & _ & _). change (others 1%nat b2) with (checking loc c) in *. assert (O3 : bridge_ok (checking loc c)) by by destruct E3.
  destruct (_ && _) eqn:R.
  { apply andb_true_iff in R as [R _]. apply bool_decide_eq_true in R.
    eapply triple_bind; [by apply triple_inbound_routed|]. intros u2 b4 E4 _. apply triple_ret; [by destruct E4|done]. }
  eapply triple_bind; [by apply triple_pure|]. intros h b4 _ [Eh ->].
  eapply (triple_bind _ _ _ _ (fun go b4 => go = true -> exists s1, heap_ b4 !! loc = Some s1 /\ passed loc c pt s1)).
  { unfold passed. destruct (fanout_of _ _).
    - eapply triple_weaken; [by apply (triple_admit_fanout _ loc)|done|]. intros go b4 _ G Go. destruct (G Go) as (A & s1 & H1 & F1 & N1). exists s1. split; [done|]. by split.
    - apply triple_ret; [done|]. intros _. exists (deref loc (checking loc c)). split; [done|]. split; [apply follows_refl|done]. }
  intros go b4 E4 Fan. assert (O4 : bridge_ok b4) by by destruct E4. destruct go; cbn [negb]; [|by apply triple_ret]. destruct (Fan eq_refl) as (s1 & Hs4 & Ps).
  eapply triple_bind; [apply triple_yield, (others_ok 2%nat b4 O4)|]. intros u2 b5 E5 ->. assert (O5 : bridge_ok (others 2%nat b4)) by by destruct E5.
  destruct (evolves_deref _ _ _ _ E5 Hs4) as (Hs5 & Fo5 & So5).
  destruct ((len pt >? mtu_ b0) && dont_fragment h) eqn:G.
  - eapply triple_bind; [by apply triple_pure|]. intros [e|] b6 _ [Ee ->]; [|by apply triple_ret]. bool_prop.
    apply (triple_send _ loc _ e inbound_output O5 Hs5). intros p c' b' Ec ->. pose proof Op as (P1 & P2 & P3 & P5 & P6 & P7). exists loc, pt, c. split_and!; try done.
    exists e, s1, (deref loc (others 2%nat b4)). split; [lia|]. split_and!; try done. split; [done|]. split; [by eapply encrypted_lets|]. exists c'. split; [done|apply store_lookup].
  - eapply triple_bind; [by apply triple_pure|]. intros fs b6 _ [Ef ->].
    by apply (triple_inject_all loc pt c s1 fs Op Ef (proj1 (bo_mtu _ O)) Ps).
Qed.
End Inbound.

(** ** Every operation, in any order *)

(** Other threads, between the turns of a call, may do anything that lets the bridge evolve. *)
Definition well_behaved (others : nat -> Bridge -> Bridge) : Prop := forall k b, bridge_ok b -> evolves b (others k b).

Inductive bridge_step : Bridge -> Bridge -> Prop :=
| bs_synchronize identity networks draws b r b' outs :
    synchronize identity networks draws b = (r, b', outs) -> bridge_step b b'
| bs_outbound others packet now b r b' outs :
    well_behaved others -> outbound others packet now b = (r, b', outs) -> bridge_step b b'
| bs_inbound others d now b r b' outs :
    well_behaved others -> inbound others d now b = (r, b', outs) -> bridge_step b b'
(** A handler throws at an output: the call ends there. *)
| bs_outbound_refused others packet now b r b' outs x bx :
    well_behaved others -> outbound others packet now b = (r, b', outs) -> (x, bx) ∈ outs -> bridge_step b bx
| bs_inbound_refused others d now b r b' outs x bx :
    well_behaved others -> inbound others d now b = (r, b', outs) -> (x, bx) ∈ outs -> bridge_step b bx
| bs_routing b routes forward : bridge_step b (set_routing_options routes forward b)
| bs_mtu b mtu b' : word 2 mtu -> set_mtu mtu b = Ok b' -> bridge_step b b'
| bs_multicast b groups : bridge_step b (synchronize_multicast groups b)
| bs_clear b : bridge_step b (clear b).

Lemma multicast_evolves groups (l : list (bytes * nat)) : forall b, bridge_ok b -> (forall id loc, (id, loc) ∈ l -> exists s, heap_ b !! loc = Some s) ->
  evolves b (foldl (fun b e => store (snd e) (set_multicast (Multicast.synchronize (s_multicast (deref (snd e) b)) groups) (deref (snd e) b)) b) b l).
Proof.
  induction l as [|[id loc] l IH]; intros b O Hl; cbn [foldl]; [by apply evolves_refl|]. destruct (Hl id loc ltac:(left)) as [s Hs]. cbn [snd].
  assert (E : evolves b (store loc (set_multicast (Multicast.synchronize (s_multicast (deref loc b)) groups) (deref loc b)) b)).
  { rewrite (deref_eq _ _ _ Hs). apply (store_evolves loc s); [done..| |apply follows_fields; try done; apply ss_groups].
    eapply session_ok_fields; [by apply (bo_heap _ O loc)|done..]. }
  eapply evolves_trans; [exact E|]. apply IH; [by destruct E|]. intros id' loc' H'. destruct (Hl id' loc' ltac:(by right)) as [t Ht].
  destruct (evolves_deref _ _ _ _ E Ht) as (? & _). by eexists.
Qed.

Lemma bridge_step_evolves b b' : bridge_ok b -> bridge_step b b' -> evolves b b'.
Proof.
  intros O St. revert O.
  destruct St as [identity networks draws b1 r b2 outs H|others packet now b1 r b2 outs W H|others d now b1 r b2 outs W H|others packet now b1 r b2 outs x bx W H Hx|others d now b1 r b2 outs x bx W H Hx|b1 x y|b1 mtu b2 W H|b1 groups|b1]; intros O.
  - by destruct (synchronize_spec b1 identity networks draws r b2 outs O H) as (_ & ? & _).
  - pose proof (triple_outbound others W packet now b1 O) as T. unfold triple in T. rewrite H in T. by destruct T.
  - pose proof (triple_inbound others W d now b1 O) as T. unfold triple in T. rewrite H in T. by destruct T.
  - pose proof (triple_outbound others W packet now b1 O) as T. unfold triple in T. rewrite H in T. destruct T as (_ & F & _). rewrite Forall_forall in F. by apply (F (x, bx)).
  - pose proof (triple_inbound others W d now b1 O) as T. unfold triple in T. rewrite H in T. destruct T as (_ & F & _). rewrite Forall_forall in F. by apply (F (x, bx)).
  - destruct O as [O1 O2 O3]. split; [by split|]. intros l s Hs. exists s. split; [done|apply follows_refl].
  - unfold set_mtu in H. ok_inv H. subst b2. bool_prop. destruct O as [O1 O2 O3]. words. split; [split; cbn; [done|done|lia]|].
    intros l s Hs. exists s. split; [done|apply follows_refl].
  - apply multicast_evolves; [done|]. intros id loc Hin. apply in_order_elem in Hin. destruct (bo_sessions _ O _ _ Hin) as (s & ? & _). by exists s.
  - apply sessions_evolves; [by apply evolves_refl|]. intros id l. by rewrite lookup_empty.
Qed.

Lemma new_bridge_ok : bridge_ok new_bridge.
Proof. split; cbn; [intros l s; by rewrite lookup_empty|intros id l; by rewrite lookup_empty|lia]. Qed.

Definition bridge_reachable (b : Bridge) : Prop := rtc bridge_step new_bridge b.
Lemma bridge_steps_evolve b b' : bridge_ok b -> rtc bridge_step b b' -> evolves b b'.
Proof.
  intros O H. induction H as [b|b1 b2 b3 S _ IH]; [by apply evolves_refl|].
  pose proof (bridge_step_evolves _ _ O S) as E. eapply evolves_trans; [exact E|]. apply IH. by destruct E.
Qed.
Lemma reachable_bridge_ok b : bridge_reachable b -> bridge_ok b.
Proof. intros H. by destruct (bridge_steps_evolve _ _ new_bridge_ok H). Qed.

Lemma inbound_authentic others d now b r b' outs :
  bridge_reachable b -> (forall k b1, rtc bridge_step b1 (others k b1)) -> inbound others d now b = (r, b', outs) ->
  evolves b b' /\ forall x bx, (x, bx) ∈ outs -> (evolves b bx /\ evolves bx b') /\ inbound_output others d now b x bx.
Proof.
  intros R W H. assert (W' : well_behaved others) by (intros k b1 O1; by apply bridge_steps_evolve).
  pose proof (triple_inbound others W' d now b (reachable_bridge_ok _ R)) as T. unfold triple in T. rewrite H in T.
  destruct T as (E & F & _). split; [done|]. intros x bx Hx. rewrite Forall_forall in F. by apply (F (x, bx)).
Qed.

Lemma outbound_confined others packet now b r b' outs :
  bridge_reachable b -> (forall k b1, rtc bridge_step b1 (others k b1)) -> outbound others packet now b = (r, b', outs) ->
  evolves b b' /\ forall x bx, (x, bx) ∈ outs -> (evolves b bx /\ evolves bx b') /\ outbound_output others packet now b x bx.
Proof.
  intros R W H. assert (W' : well_behaved others) by (intros k b1 O1; by apply bridge_steps_evolve).
  pose proof (triple_outbound others W' packet now b (reachable_bridge_ok _ R)) as T. unfold triple in T. rewrite H in T.
  destruct T as (E & F & _). split; [done|]. intros x bx Hx. rewrite Forall_forall in F. by apply (F (x, bx)).
Qed.

(** C14: What passes the bridge is authentic and confined to its networks, in any reachable bridge and whatever other calls run
    meanwhile.  Every bridge on the way has the sessions of the one before, each changed only by the steps a session can make:
    it keeps its network, address, keys and nonce prefix, never goes back in its sequence numbers, and its fan-out guards and history
    of injected packets only ever continue from what they know (the guards of devices that leave are dropped).
    What a delivery injects comes from the plaintext that the network's session opened, in the bridge the decryption found,
    sent by a device that session lists with a key and the policy lets talk to this one, with that device's address as its
    source.  It fits the MTU and is either a fragment of the plaintext, injected while that session is still the
    network's and lists the sender as before (and, for a fan-out destination, allowed by the policy, small, wanted by the host's multicast
    memberships, permitted by the sender's guard, which keeps what it then knows, and remembered), or a fragment of a routed packet that a
    route of the policy lets in: to this gateway, which forwards, from the address of a member allowed to use the route, or from the route's
    gateway to this member, which accepts routes and is allowed to use it.  What it sends back is only the encrypted notice
    that the plaintext needs fragmenting.
    What is sent for a packet of the adapter was encrypted by a session of a network under the next sequence number, in a managed
    network only for a member the policy lets this one talk to (or, to a fan-out address, when there is one the policy lets
    fan out), and is either a fragment of the packet, whose source is the session's own address and whose destination is in its
    subnet or a fan-out address (then small, not one that was injected in the last two seconds and permitted by the outbound
    guard, which keeps what it then knows; a multicast report never leaves), or a fragment wrapped for the gateway of a route this
    member accepts and is allowed to use, or, by the gateway that forwards, for a member allowed to use it; and only the notice
    that a packet that must not be fragmented is too large is injected. *)
Theorem bridge_packets_safe others packet d now b :
  bridge_reachable b -> (forall k b1, rtc bridge_step b1 (others k b1)) ->
  (forall r b' outs, inbound others d now b = (r, b', outs) ->
     evolves b b' /\ forall x bx, (x, bx) ∈ outs -> (evolves b bx /\ evolves bx b') /\ inbound_output others d now b x bx) /\
  (forall r b' outs, outbound others packet now b = (r, b', outs) ->
     evolves b b' /\ forall x bx, (x, bx) ∈ outs -> (evolves b bx /\ evolves bx b') /\ outbound_output others packet now b x bx).
Proof. intros R W. split; intros r b' outs; [by apply inbound_authentic|by apply outbound_confined]. Qed.
End Safety.
