(* ===== verification/BridgeDelivery.v ===== *)
(** * From one adapter to another

    A unicast packet that leaves through one member's bridge is injected unchanged by the other's; and
    what following a session snapshot makes of a reachable bridge, with examples. *)
From S2P Require Import LanDiscovery GameDiagnostics Multicast.
From S2P Require Import Prelude Ipv4 NetworkPolicy NetworkMessages PacketMessages Crypto PacketCipher RelayStore RoutedNetwork.
From S2P Require Import PacketBridge BridgeSafety.

(** No other thread runs. *)
Definition alone (k : nat) (b : Bridge) : Bridge := b.

Lemma store_same loc s b : heap_ b !! loc = Some s -> store loc s b = b.
Proof. intros H. unfold store. rewrite insert_id by done. by destruct b. Qed.
Lemma set_multicast_same s : set_multicast (s_multicast s) s = s.
Proof. by destruct s. Qed.

(** A step that emits nothing. *)
Lemma bind_quiet {A A'} (m : B A) (k : A -> B A') b a b1 : m b = (Ok a, b1, []) -> bind m k b = k a b1.
Proof. unfold bind. intros ->. by destruct (k a b1) as [[? ?] ?]. Qed.
Lemma bind_pure {A A'} (r : result A) (k : A -> B A') b a : r = Ok a -> bind (pure r) k b = k a b.
Proof. intros ->. by apply bind_quiet. Qed.
Lemma bind_get {A'} (k : Bridge -> B A') b : bind get k b = k b b.
Proof. by apply bind_quiet. Qed.
Lemma bind_alone {A'} (k : unit -> B A') b i : bind (yield (alone i)) k b = k tt b.
Proof. by apply bind_quiet. Qed.

Section Delivery.
Context {C : Crypto}.

(** A session that has nothing to do with a unicast packet, and the one it belongs to. *)
Lemma consider_passes b loc packet now : fanout_of (s_peers (deref loc b)) (read_ipv4 packet 16) = false ->
  own_address (s_peers (deref loc b)) <> read_ipv4 packet 12 -> consider loc packet now b = (Ok passes, b, []).
Proof.
  intros F N. unfold consider, bind, get. cbn [fst snd]. rewrite F. cbn [ret].
  by replace (read_ipv4 packet 12 =? own_address (s_peers (deref loc b))) with false by lia.
Qed.
Lemma consider_takes b loc s packet now : heap_ b !! loc = Some s -> fanout_of (s_peers s) (read_ipv4 packet 16) = false ->
  read_ipv4 packet 12 = own_address (s_peers s) -> at_ packet 9 <> x02 ->
  Z.land (read_ipv4 packet 16) (ipv4_mask (prefix_length (s_peers s))) = subnet_address (s_peers s) ->
  consider loc packet now b = (Ok takes, b, []).
Proof.
  intros L F Eo N9 Es. unfold consider, bind, get. cbn [fst snd]. rewrite (deref_eq _ _ _ L), F. cbn [ret].
  rewrite Eo, Z.eqb_refl, bool_decide_false, Es, Z.eqb_refl by done. cbn [orb andb].
  assert (Ob : observe (s_multicast s) packet now = (not_igmp, s_multicast s)).
  { unfold observe. rewrite (bool_decide_false (at_ packet 9 = x02)) by done. by rewrite orb_true_r. }
  rewrite Ob. unfold update. rewrite (deref_eq _ _ _ L), set_multicast_same, (store_same _ _ _ L). done.
Qed.

Lemma find_session_unicast b loc s packet now l : heap_ b !! loc = Some s ->
  read_ipv4 packet 12 = own_address (s_peers s) -> at_ packet 9 <> x02 ->
  Z.land (read_ipv4 packet 16) (ipv4_mask (prefix_length (s_peers s))) = subnet_address (s_peers s) ->
  (forall id k, (id, k) ∈ l -> fanout_of (s_peers (deref k b)) (read_ipv4 packet 16) = false /\
     (own_address (s_peers (deref k b)) = read_ipv4 packet 12 -> k = loc)) ->
  (exists id, (id, loc) ∈ l) -> find_session l packet now b = (Ok (Some (loc, mtu_ b)), b, []).
Proof.
  intros L Eo N9 Es. induction l as [|[id k] l IH]; intros A [i Hi]; [by apply not_elem_of_nil in Hi|]. cbn [find_session].
  destruct (A id k ltac:(left)) as [F U]. unfold bind. destruct (decide (k = loc)) as [->|N].
  - rewrite (deref_eq _ _ _ L) in F. by rewrite (consider_takes b loc s).
  - rewrite (consider_passes b k packet now F) by (intros X; by apply N, U).
    rewrite IH; [done|intros id' k' H'; apply (A id' k'); by right|].
    apply elem_of_cons in Hi as [[= -> ->]|Hi]; [done|]. by exists i.
Qed.

Lemma outbound_unicast b n loc s h packet now p c : bridge_ok b -> sessions_ b !! n = Some loc -> heap_ b !! loc = Some s ->
  inspect_ipv4 packet = Ok h -> first_session b h (in_order (sessions_ b)) = None ->
  read_ipv4 packet 12 = own_address (s_peers s) -> at_ packet 9 <> x02 ->
  Z.land (read_ipv4 packet 16) (ipv4_mask (prefix_length (s_peers s))) = subnet_address (s_peers s) ->
  (forall id k, sessions_ b !! id = Some k -> fanout_of (s_peers (deref k b)) (read_ipv4 packet 16) = false /\
     (own_address (s_peers (deref k b)) = read_ipv4 packet 12 -> k = loc)) ->
  len packet <= mtu_ b -> encrypt (s_cipher s) packet = (Ok p, c) ->
  let b' := store loc (set_cipher c s) b in outbound alone packet now b = (Ok tt, b', [(sent p, b')]).
Proof.
  intros O Hn L I Nr Eo N9 Es A Lm Ec b'. unfold outbound, min_virtual_ipv4_packet_size.
  destruct (inspect_ipv4_inv _ _ I) as (L20 & _). replace (len packet <? 20) with false by (unfold len in *; lia).
  assert (R : outbound_routed packet b = (Ok false, b, [])).
  { unfold outbound_routed. by rewrite (bind_pure _ _ _ h), bind_get, Nr. }
  rewrite (bind_quiet _ _ _ _ _ R), (bind_pure _ _ _ h), bind_alone, bind_get by done.
  rewrite (bind_quiet _ _ _ (Some (loc, mtu_ b)) b).
  2: { apply (find_session_unicast b loc s); try done; [intros id k H; apply in_order_elem in H; by eapply A|exists n; by apply in_order_elem]. }
  rewrite bind_alone. replace (len packet >? mtu_ b) with false by lia. cbn [andb].
  pose proof (fragment_ipv4_spec packet h (mtu_ b) (proj1 (bo_mtu _ O)) I) as Fr.
  replace (len packet <=? mtu_ b) with true in Fr by lia. rewrite (bind_pure _ _ _ [packet]) by done. cbn.
  unfold bind, encrypt_and_send, yield, alone. rewrite (deref_eq _ _ _ L). cbn [snd fst]. by rewrite Ec.
Qed.

Lemma inbound_unicast b loc s d now pt h c : bridge_ok b -> sessions_ b !! network_id (packet d) = Some loc -> heap_ b !! loc = Some s ->
  decrypt (s_cipher s) (packet d) (sender_device_id d) = (Ok pt, c) -> inspect_ipv4 pt = Ok h -> at_ pt 9 <> x04 ->
  fanout_of (s_peers s) (destination_ipv4 (packet d)) = false -> len pt <= mtu_ b ->
  let b' := store loc (set_cipher c s) b in inbound alone d now b = (Ok tt, b', [(injected pt, b')]).
Proof.
  intros O Hn L Ed I N4 F Lm b'. unfold inbound. rewrite bind_get, Hn, bind_alone, (deref_eq _ _ _ L).
  rewrite (bind_quiet _ _ _ pt b') by (unfold decrypt_with; by rewrite (deref_eq _ _ _ L), Ed). rewrite bind_alone.
  rewrite bool_decide_false by done. cbn [andb]. rewrite (bind_pure _ _ _ h), F, (bind_quiet _ _ _ true b') by done. cbn [negb].
  rewrite bind_alone. replace (len pt >? mtu_ b) with false by lia. cbn [andb].
  pose proof (fragment_ipv4_spec pt h (mtu_ b) (proj1 (bo_mtu _ O)) I) as Fr. replace (len pt <=? mtu_ b) with true in Fr by lia.
  rewrite (bind_pure _ _ _ [pt]) by done. cbn [inject_all]. rewrite bind_get.
  assert (Cu : still_current d loc (s_peers s) b' = true).
  { unfold still_current. cbn [sessions_ b' store]. rewrite bool_decide_true by done. cbn [andb].
    destruct (bo_heap _ O _ _ L) as [So _]. destruct (decrypted_authentic d s pt c So Ed) as ((q & k & Hq & Eq & _) & _).
    destruct (List.find _ _) as [q'|] eqn:Fi.
    - apply find_spec in Fi as [Hq' _]. apply bool_decide_true. unfold deref, b'. cbn. by rewrite lookup_insert_eq.
    - apply list_elem_of_In in Hq. pose proof (find_none _ _ Fi q Hq) as X. cbn in X. by rewrite bool_decide_true in X. }
  rewrite Cu. done.
Qed.

Lemma host_not_fanout x s p : word 4 x -> is_ipv4_host x s p = true -> is_ipv4_fanout_destination x s p = false /\ Z.land x (ipv4_mask p) = s.
Proof.
  unfold is_ipv4_host, is_ipv4_fanout_destination, is_ipv4_scoped_multicast. intros W. destruct (is_ipv4_subnet s p); cbn [negb]; [|done].
  intros H. bool_prop. split; [|done]. rewrite !orb_false_iff, !Z.eqb_neq. split_and!; try lia.
  intros E. change 0xff000000 with (ipv4_mask 8) in E. rewrite land_mask in E by (done || lia).
  pose proof (Z.mul_div_le x (2 ^ (32 - 8)) ltac:(lia)). lia.
Qed.

(** The receiving session knows the sending one: same network, key epoch and subnet, and a receiver with the
    sender's keys and address that has not seen the sequence number yet. *)
Record knows (sb sa : Session) (p : EncryptedNetworkPacket) (r : PeerReceiver) : Prop := mk_knows {
  kn_network : state_network_id (s_peers sb) = state_network_id (s_peers sa);
  kn_epoch : state_key_epoch (s_peers sb) = state_key_epoch (s_peers sa);
  kn_subnet : subnet_address (s_peers sb) = subnet_address (s_peers sa) /\ prefix_length (s_peers sb) = prefix_length (s_peers sa);
  kn_receiver : peers_ (s_cipher sb) !! s_own_device sa = Some r;
  kn_session : session_public_key r = own_session_public_key_ (s_cipher sa);
  kn_address : receiver_ipv4 r = own_address (s_peers sa);
  kn_key : encryption_key r = outgoing_key_ (s_cipher sa);
  kn_fanout : fanout_allowed r = true;
  kn_prefix : length (outgoing_nonce_prefix_ (s_cipher sa)) = 8%nat;
  kn_fresh : initialized r = true -> nonce_prefix r = outgoing_nonce_prefix_ (s_cipher sa) /\
    accept_sequence (sequence p) (highest_sequence r) (seen_sequences r) = true }.


(** Following a session snapshot is exact and keeps nonces safe.  In any reachable bridge: without an
    identity every session is dropped.  Otherwise, unless it throws, the bridge has a session for exactly
    the networks of the snapshot, whose ids differ and whose subnets share no address, each with the given
    peer state and network key: the session it had, when its key, address and signed key are the same, with
    its sequence counter where it was, and else a new one at sequence zero with a newly drawn nonce
    prefix.  A throw leaves the map of sessions as it was.  No session ever changes its network,
    address, keys or nonce prefix or goes back to an earlier sequence number. *)
Lemma bridge_synchronizes b identity networks draws r b' outs :
  bridge_reachable b -> synchronize identity networks draws b = (r, b', outs) ->
  outs = [] /\ evolves b b' /\
  match identity, r with
  | None, _ => r = Ok tt /\ sessions_ b' = ∅
  | Some _, Throw _ => sessions_ b' = sessions_ b
  | Some me, Ok _ =>
      NoDup (map id_of networks) /\ Forall (fun n => valid_state n = true) networks /\
      (forall i j n m x, networks !! i = Some n -> networks !! j = Some m -> word 4 x ->
         in_subnet (active_peers n) x -> in_subnet (active_peers m) x -> i = j) /\
      (forall id, is_Some (sessions_ b' !! id) <-> id ∈ map id_of networks) /\
      (forall n, n ∈ networks -> exists loc, sessions_ b' !! id_of n = Some loc /\ sync_entry me draws b b' n loc)
  end.
Proof. intros R. by apply synchronize_spec, reachable_bridge_ok. Qed.
End Delivery.
