(* ===== verification/BridgeScenario.v ===== *)
(** * Two members on one network

    Alice and Bob of [PacketCipher] with a bridge each: the theorems on the bridge at concrete packets. *)
From S2P Require Import LanDiscovery GameDiagnostics Multicast.
From S2P Require Import Prelude Ipv4 NetworkPolicy NetworkMessages PacketMessages Crypto PacketCipher RelayStore RoutedNetwork.
From S2P Require Import PacketBridge BridgeSafety BridgeDelivery.

Definition drawn (k : nat) : option bytes := Some (replicate 8 x0c).
Definition member (self : bytes) : PacketIdentitySnapshot := mk_identity self (toy_signed_key self).
Definition network_of (own peer_ip : Z) (peer : bytes) : ActiveNetworkPacketState :=
  mk_active (sample_state own peer_ip peer) (mk_key_snapshot 3 (replicate 32 x08)).
Definition network_a : ActiveNetworkPacketState := network_of 0x0a400002 0x0a400003 bob.
Definition network_b : ActiveNetworkPacketState := network_of 0x0a400003 0x0a400002 alice.
Definition bridge_a : Bridge := snd (fst (synchronize (C := toy_crypto) (Some (member alice)) [network_a] drawn new_bridge)).
Definition bridge_b : Bridge := snd (fst (synchronize (C := toy_crypto) (Some (member bob)) [network_b] drawn new_bridge)).

Definition greeting : bytes := ok_or [] (update_ipv4_checksum sample_ipv4).
Definition sealed_greeting : EncryptedNetworkPacket :=
  ok_or (mk_packet [] 0 0 0 [] [] []) (fst (encrypt (C := toy_crypto) (s_cipher (deref 0 bridge_a)) greeting)).
Definition delivery_to_bob : ForwardedNetworkPacket := mk_forwarded alice sealed_greeting.

Lemma bridge_a_step : bridge_step (C := toy_crypto) new_bridge bridge_a.
Proof.
  apply (bs_synchronize (C := toy_crypto) (Some (member alice)) [network_a] drawn new_bridge (Ok tt) bridge_a []). vm_compute. reflexivity.
Qed.
Lemma bridge_a_reachable : bridge_reachable (C := toy_crypto) bridge_a.
Proof. eapply rtc_l; [apply bridge_a_step|apply rtc_refl]. Qed.
Lemma bridge_b_reachable : bridge_reachable (C := toy_crypto) bridge_b.
Proof.
  eapply rtc_l; [|apply rtc_refl].
  apply (bs_synchronize (C := toy_crypto) (Some (member bob)) [network_b] drawn new_bridge (Ok tt) bridge_b []). vm_compute. reflexivity.
Qed.

Lemma bridge_packets_safe_witness :
  (exists p b', outbound (C := toy_crypto) alone greeting 5 bridge_a = (Ok tt, b', [(sent p, b')]) /\
    outbound_output (C := toy_crypto) alone greeting 5 bridge_a (sent p) b') /\
  (exists b', inbound (C := toy_crypto) alone delivery_to_bob 5 bridge_b = (Ok tt, b', [(injected greeting, b')]) /\
    inbound_output (C := toy_crypto) alone delivery_to_bob 5 bridge_b (injected greeting) b').
Proof.
  split.
  - destruct (outbound (C := toy_crypto) alone greeting 5 bridge_a) as [[r b'] outs] eqn:E.
    destruct (proj2 (bridge_packets_safe (C := toy_crypto) alone greeting delivery_to_bob 5 bridge_a bridge_a_reachable (fun _ b1 => rtc_refl _ b1)) r b' outs E) as [_ H].
    exists sealed_greeting, b'.
    assert (X : (Ok tt, snd (fst (outbound (C := toy_crypto) alone greeting 5 bridge_a)),
      [(sent sealed_greeting, snd (fst (outbound (C := toy_crypto) alone greeting 5 bridge_a)))]) = (r, b', outs)) by (rewrite <- E; vm_compute; reflexivity).
    rewrite E in X. cbn [fst snd] in X. injection X as <- <-. split; [reflexivity|]. apply (H (sent sealed_greeting) b'). left.
  - destruct (inbound (C := toy_crypto) alone delivery_to_bob 5 bridge_b) as [[r b'] outs] eqn:E.
    destruct (proj1 (bridge_packets_safe (C := toy_crypto) alone greeting delivery_to_bob 5 bridge_b bridge_b_reachable (fun _ b1 => rtc_refl _ b1)) r b' outs E) as [_ H].
    exists b'.
    assert (X : (Ok tt, snd (fst (inbound (C := toy_crypto) alone delivery_to_bob 5 bridge_b)),
      [(injected greeting, snd (fst (inbound (C := toy_crypto) alone delivery_to_bob 5 bridge_b)))]) = (r, b', outs)) by (rewrite <- E; vm_compute; reflexivity).
    rewrite E in X. cbn [fst snd] in X. injection X as <- <-. split; [reflexivity|]. apply (H (injected greeting) b'). left.
Defined.

Definition alice_known : PeerReceiver := default (mk_receiver [] 0 [] [] 0 0 false false) (peers_ (s_cipher (deref 0 bridge_b)) !! alice).
Lemma bob_knows_alice : knows (deref 0 bridge_b) (deref 0 bridge_a) sealed_greeting alice_known.
Proof. split; try (vm_compute; reflexivity); [split; vm_compute; reflexivity|vm_compute; discriminate]. Qed.
Lemma only_session id k : sessions_ bridge_a !! id = Some k -> k = 0%nat.
Proof. intros H. apply elem_of_map_to_list in H. vm_compute in H. set_solver. Qed.

