(* ===== verification/VirtualNetwork.v ===== *)
(** * The virtual network of a client

    network/virtual_network.hpp and .cpp: the adapter, the bridge and the packet path put together, and how they
    follow the snapshots of the session.  [VirtualAdapter] and [PacketPath] are interfaces with an implementation
    per platform: a call of one is an entry of the log, with whether it returned or threw, which [world] decides
    from the position in the log and the call.  Every operation but the packet handlers takes the lifecycle mutex. *)
From S2P Require Import LanDiscovery GameDiagnostics Multicast Ethernet.
From S2P Require Import Prelude Ipv4 NetworkPolicy NetworkMessages PacketMessages Crypto PacketCipher RelayStore RoutedNetwork.
From S2P Require Import PacketBridge BridgeSafety BridgeDelivery BridgeScenario.

(** The calls on the adapter and on the path that can be seen from outside. *)
Inductive net_call :=
| adapter_start | adapter_stop | configure (a : VirtualNetworkAddress) | remove (id : bytes) | configure_routing (c : RoutingConfiguration)
| inject (packet : bytes) | path_start | path_stop | path_handler (set : bool) | path_send (p : EncryptedNetworkPacket).

Record VirtualNetwork := mk_virtual_network {
  vn_bridge : Bridge; vn_started : bool; vn_accept_routes : bool; vn_forward : bool; vn_installed : gmap bytes VirtualNetworkAddress;
  vn_rejected : Z; vn_log : list (net_call * bool) }.

Definition set_vn_bridge x (v : VirtualNetwork) : VirtualNetwork :=
  mk_virtual_network x (vn_started v) (vn_accept_routes v) (vn_forward v) (vn_installed v) (vn_rejected v) (vn_log v).
Definition set_vn_started x (v : VirtualNetwork) : VirtualNetwork :=
  mk_virtual_network (vn_bridge v) x (vn_accept_routes v) (vn_forward v) (vn_installed v) (vn_rejected v) (vn_log v).
Definition set_vn_options x y (v : VirtualNetwork) : VirtualNetwork :=
  mk_virtual_network (vn_bridge v) (vn_started v) x y (vn_installed v) (vn_rejected v) (vn_log v).
Definition set_vn_installed x (v : VirtualNetwork) : VirtualNetwork :=
  mk_virtual_network (vn_bridge v) (vn_started v) (vn_accept_routes v) (vn_forward v) x (vn_rejected v) (vn_log v).
Definition warn (v : VirtualNetwork) : VirtualNetwork :=
  mk_virtual_network (vn_bridge v) (vn_started v) (vn_accept_routes v) (vn_forward v) (vn_installed v) ((vn_rejected v + 1) mod 2 ^ 64) (vn_log v).
Definition log_call c ok (v : VirtualNetwork) : VirtualNetwork :=
  mk_virtual_network (vn_bridge v) (vn_started v) (vn_accept_routes v) (vn_forward v) (vn_installed v) (vn_rejected v) (vn_log v ++ [(c, ok)]).

(** The packet mtu of the adapter is checked by the bridge. *)
Definition new_virtual_network (packet_mtu : Z) : result VirtualNetwork :=
  let* b := set_mtu packet_mtu new_bridge in
  Ok (mk_virtual_network b false false false ∅ 0 []).

(** ** Operations *)

Definition V (A : Type) : Type := VirtualNetwork -> result A * VirtualNetwork.
Definition vret {A} (a : A) : V A := fun v => (Ok a, v).
Definition vpure {A} (r : result A) : V A := fun v => (r, v).
Definition vbind {A B} (m : V A) (k : A -> V B) : V B := fun v => match m v with (Ok a, v) => k a v | (Throw e, v) => (Throw e, v) end.
Local Notation "'let!' x := m 'in' k" := (vbind m (fun x => k))
  (at level 10, x name, m at level 100, k at level 200, format "'[v' 'let!'  x  :=  m  'in' '/' k ']'").
Local Notation "m ;; k" := (vbind m (fun _ => k)) (at level 100, right associativity).
Definition vget : V VirtualNetwork := fun v => (Ok v, v).
Definition vput (f : VirtualNetwork -> VirtualNetwork) : V unit := fun v => (Ok tt, f v).
(** [catch (...)] around [m]: [h] runs, then the exception goes on. *)
Definition on_throw {A} (m : V A) (h : V unit) : V A := fun v =>
  match m v with
  | (Ok a, v) => (Ok a, v)
  | (Throw e, v) => match h v with (Ok _, v) => (Throw e, v) | (Throw e', v) => (Throw e', v) end
  end.
(** [catch (...) {}]. *)
Definition ignore (m : V unit) : V unit := fun v => (Ok tt, snd (m v)).
Fixpoint vfor {A} (l : list A) (f : A -> V unit) : V unit := match l with [] => vret tt | x :: l => f x ;; vfor l f end.

Section VirtualNetwork.
Context {C : Crypto} (world : nat -> net_call -> bool).

Definition call (c : net_call) : V unit := fun v =>
  let ok := world (length (vn_log v)) c in ((if ok then Ok tt else Throw runtime_error), log_call c ok v).
(** A call that is [noexcept]. *)
Definition note (c : net_call) : V unit := vput (log_call c true).

Definition no_routing : RoutingConfiguration := mk_routing [] [].

Definition start : V unit :=
  let! v := vget in
  if vn_started v then vpure (Throw logic_error)
  else
    call (path_handler true) ;;
    on_throw (call adapter_start ;; call path_start ;; vput (set_vn_started true))
      (note adapter_stop ;; vput (fun v => set_vn_bridge (clear (vn_bridge v)) v) ;; call (path_handler false) ;; note path_stop).

Definition set_options (accept_routes forward : bool) : V unit :=
  vput (set_vn_options accept_routes forward) ;;
  vput (fun v => set_vn_bridge (set_routing_options accept_routes forward (vn_bridge v)) v) ;;
  if negb accept_routes && negb forward then call (configure_routing no_routing) else vret tt.

(** The addresses of a snapshot, in the order of [std::map]. *)
Definition address_of (n : ActiveNetworkPacketState) : VirtualNetworkAddress :=
  let p := active_peers n in mk_address (state_network_id p) (own_address p) (subnet_address p) (prefix_length p).
Fixpoint desired_addresses (l : list ActiveNetworkPacketState) (m : gmap bytes VirtualNetworkAddress) : result (gmap bytes VirtualNetworkAddress) :=
  match l with
  | [] => Ok m
  | n :: l =>
      let id := state_network_id (active_peers n) in
      check! negb (bool_decide (is_Some (m !! id))) else invalid_argument in
      desired_addresses l (<[id := address_of n]> m)
  end.
Definition addresses_in_order (m : gmap bytes VirtualNetworkAddress) : list (bytes * VirtualNetworkAddress) :=
  order_by (fun e => [be_value (fst e)]) (map_to_list m).
Definition install (e : bytes * VirtualNetworkAddress) : V unit :=
  call (configure (snd e)) ;; vput (fun v => set_vn_installed (<[fst e := snd e]> (vn_installed v)) v).
Definition uninstall (id : bytes) : V unit :=
  note (remove id) ;; vput (fun v => set_vn_installed (delete id (vn_installed v)) v).
Definition clear_bridge : V unit := vput (fun v => set_vn_bridge (clear (vn_bridge v)) v).
Definition follow (snapshot : NetworkSnapshot) (draws : nat -> option bytes) : V unit := fun v =>
  match synchronize (identity snapshot) (active_networks snapshot) draws (vn_bridge v) with (r, b, _) => (r, set_vn_bridge b v) end.
(** [groups] is what [multicast_groups] of the adapter returns. *)
Definition synchronize_body (snapshot : NetworkSnapshot) (draws : nat -> option bytes) (groups : result (option (list Z))) : V unit :=
  let! desired := vpure (desired_addresses (match identity snapshot with Some _ => active_networks snapshot | None => [] end) ∅) in
  vfor (addresses_in_order desired) install ;;
  let! v := vget in
  let! routing := vpure (routing_configuration snapshot (vn_accept_routes v) (vn_forward v)) in
  on_throw (call (configure_routing routing)) (clear_bridge ;; ignore (call (configure_routing no_routing))) ;;
  follow snapshot draws ;;
  let! joined := vpure groups in
  vput (fun v => set_vn_bridge (synchronize_multicast joined (vn_bridge v)) v) ;;
  let! v := vget in
  vfor (addresses_in_order (vn_installed v)) (fun e => if bool_decide (is_Some (desired !! fst e)) then vret tt else uninstall (fst e)).
Definition synchronize_network (snapshot : NetworkSnapshot) (draws : nat -> option bytes) (groups : result (option (list Z))) : V unit :=
  let! v := vget in
  if negb (vn_started v) then vpure (Throw logic_error)
  else on_throw (synchronize_body snapshot draws groups) (clear_bridge ;; ignore (call (configure_routing no_routing))).

Definition stop_network : V unit :=
  let! v := vget in
  if negb (vn_started v) then vret tt
  else
    clear_bridge ;;
    ignore (call (configure_routing no_routing)) ;;
    vfor (addresses_in_order (vn_installed v)) (fun e => note (remove (fst e))) ;;
    note adapter_stop ;;
    ignore (call (path_handler false)) ;;
    note path_stop ;;
    vput (fun v => set_vn_started false (set_vn_installed ∅ v)).

(** ** Packets *)

Definition call_of (x : output) : net_call := match x with sent p => path_send p | injected packet => inject packet end.
(** What the bridge emits goes to the path and the adapter until one of them throws. *)
Fixpoint carry_out (outs : list (output * Bridge)) (r : result unit) (b : Bridge) : V unit :=
  match outs with
  | [] => vput (set_vn_bridge b) ;; vpure r
  | (x, bx) :: outs => vput (set_vn_bridge bx) ;; call (call_of x) ;; carry_out outs r b
  end.
(** An exception of the bridge is counted. *)
Definition guarded (m : V unit) : V unit := fun v => match m v with (Ok _, v) => (Ok tt, v) | (Throw _, v) => (Ok tt, warn v) end.
Definition on_incoming (others : nat -> Bridge -> Bridge) (d : ForwardedNetworkPacket) (now : Z) : V unit :=
  guarded (fun v => match inbound others d now (vn_bridge v) with (r, b, outs) => carry_out outs r b v end).
Definition on_outgoing (others : nat -> Bridge -> Bridge) (packet : bytes) (now : Z) : V unit :=
  guarded (fun v => match outbound others packet now (vn_bridge v) with (r, b, outs) => carry_out outs r b v end).

(** [failed]: the adapter's pump has failed. *)
Definition network_diagnostics (failed : bool) (v : VirtualNetwork) : GameDiagnostics :=
  let d := game_diagnostics (vn_bridge v) in
  mk_game (gd_mtu d) failed (gd_truncated d) (vn_rejected v) (gd_networks d).

Inductive net_event :=
| ne_start | ne_options (accept_routes forward : bool) | ne_stop
| ne_synchronize (snapshot : NetworkSnapshot) (draws : nat -> option bytes) (groups : result (option (list Z)))
| ne_incoming (others : nat -> Bridge -> Bridge) (d : ForwardedNetworkPacket) (now : Z)
| ne_outgoing (others : nat -> Bridge -> Bridge) (packet : bytes) (now : Z).
Definition handle_net (e : net_event) : V unit :=
  match e with
  | ne_start => start
  | ne_options accept_routes forward => set_options accept_routes forward
  | ne_stop => stop_network
  | ne_synchronize snapshot draws groups => synchronize_network snapshot draws groups
  | ne_incoming others d now => on_incoming others d now
  | ne_outgoing others packet now => on_outgoing others packet now
  end.
End VirtualNetwork.

(** ** What the log says *)

(** The addresses the adapter was given and not relieved of. *)
Definition installed_after (m : gmap bytes VirtualNetworkAddress) (e : net_call * bool) : gmap bytes VirtualNetworkAddress :=
  match e with
  | (configure a, true) => <[va_network_id a := a]> m
  | (remove id, _) => delete id m
  | _ => m
  end.
Definition configured (log : list (net_call * bool)) : gmap bytes VirtualNetworkAddress := foldl installed_after ∅ log.
(** The last routing the adapter was asked for, and whether it agreed. *)
Definition routing_after (o : option (RoutingConfiguration * bool)) (e : net_call * bool) : option (RoutingConfiguration * bool) :=
  match e with (configure_routing c, ok) => Some (c, ok) | _ => o end.
Definition last_routing (log : list (net_call * bool)) : option (RoutingConfiguration * bool) := foldl routing_after None log.

(** The addresses of a snapshot: one for each network, if there is an identity. *)
Definition wants (snapshot : NetworkSnapshot) (id : bytes) (a : VirtualNetworkAddress) : Prop :=
  is_Some (identity snapshot) /\ exists n, n ∈ active_networks snapshot /\ id_of n = id /\ address_of n = a.

Section Reachable.
Context {C : Crypto}.

Definition fair (e : net_event) : Prop :=
  match e with ne_incoming others _ _ | ne_outgoing others _ _ => well_behaved others | _ => True end.
Inductive net_reach : VirtualNetwork -> Prop :=
| nr_new mtu v : word 2 mtu -> new_virtual_network mtu = Ok v -> net_reach v
| nr_step world e v : net_reach v -> fair e -> net_reach (snd (handle_net world e v)).

Record net_inv (v : VirtualNetwork) : Prop := mk_net_inv {
  ni_bridge : bridge_reachable (vn_bridge v);
  ni_installed : configured (vn_log v) = vn_installed v }.

(** [m] keeps [P] whether it returns or throws. *)
Definition keeps {A} (P : VirtualNetwork -> Prop) (m : V A) : Prop := forall v, P v -> P (snd (m v)).
Lemma net_bind {A B} P (m : V A) (k : A -> V B) : keeps P m -> (forall a, keeps P (k a)) -> keeps P (vbind m k).
Proof. intros M K v H. specialize (M v H). unfold vbind. destruct (m v) as [[a|e] v1]; [by apply K|done]. Qed.
Lemma net_ret {A} P (a : A) : keeps P (vret a).
Proof. by intros v. Qed.
Lemma net_pure {A} P (r : result A) : keeps P (vpure r).
Proof. by intros v. Qed.
Lemma keeps_bind_pure {A B} P (r : result A) (k : A -> V B) : (forall a, r = Ok a -> keeps P (k a)) -> keeps P (vbind (vpure r) k).
Proof. intros K v H. unfold vbind, vpure. destruct r as [a|e]; [by apply K|done]. Qed.
Lemma keeps_get P : keeps P vget.
Proof. by intros v. Qed.
Lemma keeps_on_throw {A} P (m : V A) h : keeps P m -> keeps P h -> keeps P (on_throw m h).
Proof.
  intros M K v H. specialize (M v H). unfold on_throw. destruct (m v) as [[a|e] v1]; [done|]. specialize (K v1 M). by destruct (h v1) as [[?|?] v2].
Qed.
Lemma keeps_ignore P m : keeps P m -> keeps P (ignore m).
Proof. intros M v H. by apply M. Qed.
Lemma keeps_for_elem {A} P (l : list A) f : (forall x, x ∈ l -> keeps P (f x)) -> keeps P (vfor l f).
Proof. intros F. induction l as [|x l IH]; [apply net_ret|]. apply net_bind; [apply F; left|intros _]. apply IH. intros y Hy. apply F. by right. Qed.
Lemma keeps_for {A} P (l : list A) f : (forall x, keeps P (f x)) -> keeps P (vfor l f).
Proof. intros F. by apply keeps_for_elem. Qed.
Create HintDb net.
#[local] Hint Resolve net_bind net_ret net_pure keeps_get keeps_on_throw keeps_ignore keeps_for : net.

(** Calls that do not concern addresses. *)
Definition neutral (c : net_call) : bool := match c with configure _ | remove _ => false | _ => true end.
Lemma configured_app l l' : configured (l ++ l') = foldl installed_after (configured l) l'.
Proof. apply foldl_app. Qed.
Lemma configured_neutral calls : forall l, Forall (fun e => neutral (fst e) = true) calls -> configured (l ++ calls) = configured l.
Proof.
  induction calls as [|[c ok] calls IH]; intros l F; [by rewrite app_nil_r|]. apply Forall_cons in F as [N F].
  rewrite cons_middle, app_assoc, IH by done. rewrite configured_app. cbn in *. by destruct c.
Qed.
Lemma last_routing_app l c ok : last_routing (l ++ [(configure_routing c, ok)]) = Some (c, ok).
Proof. unfold last_routing. by rewrite foldl_app. Qed.

Lemma inv_log c ok v : neutral c = true -> net_inv v -> net_inv (log_call c ok v).
Proof. intros N [B I]. split; [done|]. cbn. rewrite configured_neutral; [done|]. by constructor. Qed.
Lemma keeps_call world c : neutral c = true -> keeps net_inv (call world c).
Proof. intros N v I. by apply inv_log. Qed.
Lemma keeps_note c : neutral c = true -> keeps net_inv (note c).
Proof. intros N v I. by apply inv_log. Qed.
Lemma keeps_bridge f : (forall b, bridge_step b (f b)) -> keeps net_inv (vput (fun v => set_vn_bridge (f (vn_bridge v)) v)).
Proof. intros F v [B I]. split; [|done]. cbn. eapply rtc_r; [exact B|apply F]. Qed.
Lemma keeps_clear : keeps net_inv clear_bridge.
Proof. apply keeps_bridge. intros b. apply bs_clear. Qed.
Lemma keeps_install world e : va_network_id (snd e) = fst e -> keeps net_inv (install world e).
Proof.
  intros N v [B I]. unfold install, vbind, call. destruct (world _ _); split; cbn; try done; rewrite configured_app; cbn; [|done]. by rewrite N, I.
Qed.
Lemma keeps_uninstall id : keeps net_inv (uninstall id).
Proof. intros v [B I]. split; cbn; [done|]. rewrite configured_app. cbn. by rewrite I. Qed.
Lemma keeps_follow snapshot draws : keeps net_inv (follow snapshot draws).
Proof.
  intros v [B I]. unfold follow. destruct (synchronize _ _ _ _) as [[r b] outs] eqn:E. split; [|done]. cbn. eapply rtc_r; [exact B|]. by eapply bs_synchronize.
Qed.
#[local] Hint Resolve keeps_call keeps_note keeps_clear keeps_uninstall keeps_follow : net.

Lemma addresses_elem m id a : (id, a) ∈ addresses_in_order m <-> m !! id = Some a.
Proof. unfold addresses_in_order. rewrite order_by_perm. apply elem_of_map_to_list. Qed.
Lemma addresses_nodup m : NoDup (map fst (addresses_in_order m)).
Proof. unfold addresses_in_order. rewrite (order_by_perm _ (map_to_list m)). apply NoDup_fst_map_to_list. Qed.

Lemma desired_spec l : forall m d, desired_addresses l m = Ok d ->
  forall id a, d !! id = Some a <-> m !! id = Some a \/ exists n, n ∈ l /\ id_of n = id /\ address_of n = a.
Proof.
  induction l as [|n l IH]; intros m d H id a; cbn [desired_addresses] in H.
  - apply Ok_inj in H as <-. split; [by left|]. intros [?|(n & Hn & _)]; [done|by apply elem_of_nil in Hn].
  - case_bool_decide as E; [done|]. cbn [negb] in H. apply eq_None_not_Some in E. rewrite (IH _ _ H). fold (id_of n).
    destruct (decide (id_of n = id)) as [Eq|Ne].
    + subst id. fold (id_of n) in E. rewrite lookup_insert_eq, E. split; [intros [[= <-]|(k & Hk & X & <-)]|intros [?|(k & Hk & X & <-)]]; [right; exists n; split; [left|done]|right; exists k; split; [by right|done]|done|].
      apply elem_of_cons in Hk as [->|Hk]; [by left|]. right. by exists k.
    + rewrite lookup_insert_ne by done. split; (intros [?|(k & Hk & X & <-)]; [by left|]); right; exists k; (split; [|done]); [by right|].
      apply elem_of_cons in Hk as [->|Hk]; [done|done].
Qed.
Lemma desired_ids l m d id a : desired_addresses l m = Ok d -> m = ∅ -> (id, a) ∈ addresses_in_order d -> va_network_id a = id.
Proof. intros H -> E. apply addresses_elem in E. rewrite (desired_spec _ _ _ H) in E. destruct E as [E|(n & _ & <- & <-)]; [by rewrite lookup_empty in E|done]. Qed.

Lemma keeps_body world snapshot draws groups : keeps net_inv (synchronize_body world snapshot draws groups).
Proof.
  unfold synchronize_body. apply keeps_bind_pure. intros d E. apply net_bind.
  - apply keeps_for_elem. intros [id a] He. apply keeps_install. by eapply desired_ids.
  - intros _. apply net_bind; [apply keeps_get|intros v0]. apply keeps_bind_pure. intros routing _.
    apply net_bind; [auto 6 with net|intros _]. apply net_bind; [auto with net|intros _]. apply keeps_bind_pure. intros joined _.
    apply net_bind; [apply keeps_bridge; intros b; apply bs_multicast|intros _]. apply net_bind; [apply keeps_get|intros v1].
    apply keeps_for. intros [id x]. case_bool_decide; auto with net.
Qed.

(** The loop of [stop] relieves the adapter of every address. *)
Lemma removals l : forall v, exists v', vfor l (fun e : bytes * VirtualNetworkAddress => note (remove (fst e))) v = (Ok tt, v') /\
  vn_bridge v' = vn_bridge v /\ vn_started v' = vn_started v /\ vn_installed v' = vn_installed v /\
  last_routing (vn_log v') = last_routing (vn_log v) /\
  forall id, configured (vn_log v') !! id = if bool_decide (id ∈ map fst l) then None else configured (vn_log v) !! id.
Proof.
  induction l as [|[k a] l IH]; intros v; cbn [vfor map].
  - exists v. split_and!; try done.
  - destruct (IH (log_call (remove k) true v)) as (v' & E & B & S & I & R & H). exists v'.
    split_and!; [exact E|done|done|done|rewrite R; unfold last_routing; cbn [log_call vn_log]; by rewrite foldl_app|].
    intros id. rewrite H. cbn [log_call vn_log]. rewrite configured_app. cbn [foldl installed_after].
    destruct (decide (id = k)) as [->|Ne]; [rewrite lookup_delete_eq, (bool_decide_true (k ∈ k :: _)) by left; by case_bool_decide|].
    rewrite lookup_delete_ne by done. destruct (bool_decide_reflect (id ∈ map fst l)) as [X|X];
      [rewrite bool_decide_true by (by right); done|rewrite bool_decide_false; [done|]]. intros [?|?]%elem_of_cons; done.
Qed.
Lemma stop_spec world v : net_inv v -> vn_started v = true -> exists v', stop_network world v = (Ok tt, v') /\
  vn_started v' = false /\ vn_installed v' = ∅ /\ configured (vn_log v') = ∅ /\ sessions_ (vn_bridge v') = ∅ /\
  bridge_reachable (vn_bridge v') /\ exists ok, last_routing (vn_log v') = Some (no_routing, ok).
Proof.
  intros [B I] S. unfold stop_network, vbind at 1, vget. rewrite S. cbn [negb]. unfold clear_bridge, vbind, ignore, call, vput. cbn [snd log_call vn_log set_vn_bridge].
  set (v1 := log_call _ _ _). destruct (removals (addresses_in_order (vn_installed v)) v1) as (v2 & E & B2 & S2 & I2 & R2 & H2). rewrite E.
  eexists. split; [reflexivity|]. cbn. assert (Cf : configured (vn_log v2) = ∅).
  { apply map_eq. intros id. rewrite H2, lookup_empty. case_bool_decide as X; [done|]. unfold v1. cbn. rewrite configured_neutral by (by constructor). rewrite I.
    destruct (vn_installed v !! id) as [a|] eqn:F; [|done]. destruct X. apply list_elem_of_fmap. exists (id, a). split; [done|]. by apply addresses_elem. }
  split_and!; try done.
  - rewrite <- !app_assoc. rewrite configured_neutral by (by repeat constructor). done.
  - rewrite B2. done.
  - rewrite B2. cbn. eapply rtc_r; [exact B|apply bs_clear].
  - eexists. unfold last_routing. rewrite !foldl_app. cbn [foldl routing_after]. fold (last_routing (vn_log v2)). rewrite R2. unfold v1. cbn. apply last_routing_app.
Qed.

(** ** Packets *)

Lemma carry_out_spec world outs r b : forall v r' v', carry_out world outs r b v = (r', v') ->
  exists calls, vn_log v' = vn_log v ++ calls /\ map fst calls `prefix_of` map (fun o => call_of (fst o)) outs /\
    vn_installed v' = vn_installed v /\ vn_started v' = vn_started v /\ vn_rejected v' = vn_rejected v /\
    (vn_bridge v' = b \/ exists x, (x, vn_bridge v') ∈ outs) /\
    (r' = Ok tt <-> r = Ok tt /\ Forall (fun e => snd e = true) calls /\ map fst calls = map (fun o => call_of (fst o)) outs).
Proof.
  induction outs as [|[x bx] outs IH]; intros v r' v' H; cbn [carry_out] in H.
  - unfold vbind, vput, vpure in H. injection H as <- <-. exists []. cbn. rewrite app_nil_r. split_and!; try done; [by left|]. split; [intros ->; split_and!; [done|constructor|done]|by intros (-> & _)].
  - unfold vbind, vput, call in H. cbn [set_vn_bridge vn_log] in H. destruct (world _ _).
    + apply IH in H as (calls & L & P & I & S & R & B & Ok'). exists ((call_of x, true) :: calls). cbn in *. rewrite L, <- app_assoc. split_and!; try done.
      * by apply prefix_cons.
      * destruct B as [B|[y Hy]]; [by left|]. right. exists y. by right.
      * rewrite Ok', Forall_cons. split; [intros (-> & F & ->)|intros (-> & [_ F] & [= E])]; done.
    + injection H as <- <-. exists [(call_of x, false)]. cbn. split_and!; try done; [apply prefix_cons, prefix_nil|right; exists x; left|].
      split; [done|]. intros (_ & F & _). apply Forall_cons in F as [F _]. done.
Qed.
Lemma call_of_neutral calls (outs : list (output * Bridge)) : map fst calls `prefix_of` map (fun o => call_of (fst o)) outs ->
  Forall (fun e : net_call * bool => neutral (fst e) = true) calls.
Proof.
  intros [rest E]. apply Forall_forall. intros e He. assert (X : fst e ∈ map (fun o => call_of (fst o)) outs).
  { rewrite E. apply elem_of_app. left. by apply list_elem_of_fmap_2. } apply list_elem_of_fmap in X as ([[p|p] bx] & -> & _); done.
Qed.
Lemma keeps_carry world outs r b v : net_inv v -> (forall b', (b' = b \/ exists x, (x, b') ∈ outs) -> bridge_step (vn_bridge v) b') ->
  net_inv (snd (guarded (carry_out world outs r b) v)).
Proof.
  intros [B I] St. unfold guarded. destruct (carry_out world outs r b v) as [r' v'] eqn:E. destruct (carry_out_spec _ _ _ _ _ _ _ E) as (calls & L & P & I' & _ & _ & Hb & _).
  assert (G : net_inv v') by (split; [eapply rtc_r; [exact B|by apply St]|]; rewrite L, configured_neutral by (by eapply call_of_neutral); congruence).
  destruct r' as [[]|]; [done|]. by destruct G.
Qed.
Lemma keeps_handle world e : fair e -> keeps net_inv (handle_net world e).
Proof.
  destruct e as [|x y| |snapshot draws groups|others d now|others packet now]; cbn [fair handle_net]; intros W.
  - apply net_bind; [apply keeps_get|intros v0]. destruct (vn_started v0); [apply net_pure|]. apply net_bind; [by apply keeps_call|intros _].
    apply keeps_on_throw; repeat (apply net_bind; [by apply keeps_call || by apply keeps_note || apply keeps_clear|intros _]); [|by apply keeps_note]. by intros v [].
  - intros v [B I]. unfold set_options, vbind, vput. cbn [set_vn_options set_vn_bridge vn_bridge].
    assert (G : net_inv (mk_virtual_network (set_routing_options x y (vn_bridge v)) (vn_started v) x y (vn_installed v) (vn_rejected v) (vn_log v)))
      by (split; [eapply rtc_r; [exact B|apply bs_routing]|done]).
    destruct (_ && _); [by apply keeps_call|done].
  - intros v I. destruct (vn_started v) eqn:S.
    + destruct (stop_spec world v I S) as (v' & E & _ & I' & Cf & _ & R & _). rewrite E. split; [done|]. cbn. congruence.
    + unfold stop_network, vbind, vget. by rewrite S.
  - apply net_bind; [apply keeps_get|intros v0]. destruct (vn_started v0); cbn [negb]; [|apply net_pure].
    apply keeps_on_throw; [apply keeps_body|auto 6 with net].
  - intros v I. unfold on_incoming, guarded. destruct (inbound others d now (vn_bridge v)) as [[r b] outs] eqn:E. apply (keeps_carry world outs r b v I).
    intros b' [->|[x Hx]]; [by eapply bs_inbound|by eapply bs_inbound_refused].
  - intros v I. unfold on_outgoing, guarded. destruct (outbound others packet now (vn_bridge v)) as [[r b] outs] eqn:E. apply (keeps_carry world outs r b v I).
    intros b' [->|[x Hx]]; [by eapply bs_outbound|by eapply bs_outbound_refused].
Qed.
Lemma net_reach_inv v : net_reach v -> net_inv v.
Proof.
  induction 1 as [mtu v W H|world e v _ IH F]; [|by apply keeps_handle].
  unfold new_virtual_network in H. destruct (set_mtu mtu new_bridge) as [b|] eqn:E; [|done]. apply Ok_inj in H as <-.
  split; [|done]. eapply rtc_r; [apply rtc_refl|]. by eapply bs_mtu.
Qed.

(** ** Following a snapshot *)

Lemma installs world l : forall v r v', NoDup (map fst l) -> vfor l (install world) v = (r, v') ->
  vn_bridge v' = vn_bridge v /\ vn_accept_routes v' = vn_accept_routes v /\ vn_forward v' = vn_forward v /\
  (r = Ok tt -> (forall id a, (id, a) ∈ l -> vn_installed v' !! id = Some a) /\
                (forall id, id ∉ map fst l -> vn_installed v' !! id = vn_installed v !! id)).
Proof.
  induction l as [|[k a] l IH]; intros v r v' N H; cbn [vfor map] in *.
  - injection H as <- <-. split_and!; try done. intros _. split; [|done]. intros id a Ha. by apply elem_of_nil in Ha.
  - apply NoDup_cons in N as [Nk N]. unfold install, vbind, call, vput in H. cbn [fst snd] in H. destruct (world _ _); [|by injection H as <- <-].
    apply IH in H as (B & X & Y & K); [|done]. split_and!; try done. intros E. destruct (K E) as [K1 K2]. split.
    + intros id x Hx. apply elem_of_cons in Hx as [[= -> ->]|Hx]; [|by apply K1]. rewrite K2 by done. cbn. apply lookup_insert_eq.
    + intros id Hi. apply not_elem_of_cons in Hi as [Ne Hi]. rewrite K2 by done. cbn. by apply lookup_insert_ne.
Qed.
Lemma uninstalls (d : gmap bytes VirtualNetworkAddress) l : forall v, exists v',
  vfor l (fun e : bytes * VirtualNetworkAddress => if bool_decide (is_Some (d !! fst e)) then vret tt else uninstall (fst e)) v = (Ok tt, v') /\
  vn_bridge v' = vn_bridge v /\ last_routing (vn_log v') = last_routing (vn_log v) /\
  forall id, vn_installed v' !! id = if bool_decide (id ∈ map fst l) && negb (bool_decide (is_Some (d !! id))) then None else vn_installed v !! id.
Proof.
  induction l as [|[k a] l IH]; intros v; cbn [vfor map fst]; [by exists v|]. unfold vbind at 1.
  destruct (bool_decide_reflect (is_Some (d !! k))) as [Dk|Dk]; cbn [vret uninstall].
  - destruct (IH v) as (v' & E & B & R & H). exists v'. split_and!; try done. intros id. rewrite H. destruct (decide (id = k)) as [->|Ne].
    + rewrite (bool_decide_true (is_Some _)) by done. by rewrite !andb_false_r.
    + assert (X : bool_decide (id ∈ k :: map fst l) = bool_decide (id ∈ map fst l)) by (apply bool_decide_ext; rewrite elem_of_cons; naive_solver). by rewrite X.
  - destruct (IH (set_vn_installed (delete k (vn_installed v)) (log_call (remove k) true v))) as (v' & E & B & R & H). exists v'.
    split_and!; [exact E|done|rewrite R; unfold last_routing; cbn; by rewrite foldl_app|]. intros id. rewrite H. cbn [set_vn_installed vn_installed log_call]. destruct (decide (id = k)) as [->|Ne].
    + rewrite lookup_delete_eq, (bool_decide_false (is_Some _)) by done. rewrite (bool_decide_true (k ∈ k :: _)) by left. by case_bool_decide.
    + assert (X : bool_decide (id ∈ k :: map fst l) = bool_decide (id ∈ map fst l)) by (apply bool_decide_ext; rewrite elem_of_cons; naive_solver). by rewrite X, lookup_delete_ne.
Qed.

(** What the bridge keeps of a snapshot it follows. *)
Definition bridge_follows (snapshot : NetworkSnapshot) (draws : nat -> option bytes) (b b' : Bridge) : Prop :=
  match identity snapshot with
  | None => sessions_ b' = ∅
  | Some me =>
      (forall i j n m x, active_networks snapshot !! i = Some n -> active_networks snapshot !! j = Some m -> word 4 x ->
         in_subnet (active_peers n) x -> in_subnet (active_peers m) x -> i = j) /\
      (forall id, is_Some (sessions_ b' !! id) <-> id ∈ map id_of (active_networks snapshot)) /\
      (forall n, n ∈ active_networks snapshot -> exists loc, sessions_ b' !! id_of n = Some loc /\ sync_entry me draws b b' n loc)
  end.
Lemma follow_spec snapshot draws v r v' : net_inv v -> follow snapshot draws v = (r, v') ->
  vn_log v' = vn_log v /\ vn_installed v' = vn_installed v /\ (r = Ok tt -> bridge_follows snapshot draws (vn_bridge v) (vn_bridge v')).
Proof.
  intros [B _] H. unfold follow in H. destruct (synchronize _ _ _ _) as [[r' b] outs] eqn:E. injection H as <- <-.
  pose proof (bridge_synchronizes _ _ _ _ _ _ _ B E) as (_ & _ & S). split_and!; [done..|]. intros ->. unfold bridge_follows. cbn.
  destruct (identity snapshot); [|by destruct S]. by destruct S as (_ & _ & ? & ? & ?).
Qed.
Lemma synchronize_exact world snapshot draws groups v v' : net_inv v -> synchronize_network world snapshot draws groups v = (Ok tt, v') ->
  (forall id a, vn_installed v' !! id = Some a <-> wants snapshot id a) /\
  (exists cfg, routing_configuration snapshot (vn_accept_routes v) (vn_forward v) = Ok cfg /\ last_routing (vn_log v') = Some (cfg, true)) /\
  (exists b joined, groups = Ok joined /\ vn_bridge v' = synchronize_multicast joined b /\ bridge_follows snapshot draws (vn_bridge v) b).
Proof.
  intros I H. unfold synchronize_network, vbind at 1, vget in H. destruct (vn_started v); [|done]. cbn [negb] in H.
  unfold on_throw at 1 in H. destruct (synchronize_body world snapshot draws groups v) as [[[]|e] v0] eqn:Eb; cycle 1.
  { by destruct ((clear_bridge ;; ignore (call world (configure_routing no_routing))) v0) as [[?|?] ?]. }
  injection H as ->. unfold synchronize_body in Eb. unfold vbind at 1, vpure at 1 in Eb. destruct (desired_addresses _ ∅) as [d|] eqn:Ed; [|done].
  unfold vbind at 1 in Eb. destruct (vfor _ (install world) v) as [[[]|e] v1] eqn:E1; [|done].
  destruct (installs world _ v _ v1 (addresses_nodup d) E1) as (B1 & X1 & Y1 & K). destruct (K eq_refl) as [K1 K2]. clear K.
  assert (I1 : net_inv v1).
  { pose proof (keeps_for_elem net_inv (addresses_in_order d) (install world)) as Kp. specialize (Kp ltac:(intros [id a] He; apply keeps_install; by eapply desired_ids) v I).
    by rewrite E1 in Kp. }
  unfold vbind at 1, vget at 1 in Eb. rewrite X1, Y1 in Eb. unfold vbind at 1, vpure at 1 in Eb. destruct (routing_configuration _ _ _) as [cfg|] eqn:Ec; [|done].
  unfold vbind at 1, on_throw, call at 1 in Eb. destruct (world _ (configure_routing cfg)); cycle 1.
  { by destruct ((clear_bridge ;; ignore (call world (configure_routing no_routing))) _) as [[?|?] ?]. }
  set (v2 := log_call _ true v1) in Eb. unfold vbind at 1 in Eb. destruct (follow snapshot draws v2) as [[[]|e] v3] eqn:E3; [|done].
  destruct (follow_spec snapshot draws v2 _ v3 (inv_log (configure_routing cfg) true v1 eq_refl I1) E3) as (L3 & I3 & F3). specialize (F3 eq_refl).
  unfold vbind at 1, vpure in Eb. destruct groups as [joined|]; [|done]. unfold vbind at 1, vput at 1 in Eb. unfold vbind at 1, vget in Eb.
  destruct (uninstalls d (addresses_in_order (vn_installed v3)) (set_vn_bridge (synchronize_multicast joined (vn_bridge v3)) v3)) as (v4 & E4 & B4 & R4 & H4).
  assert (v4 = v') as -> by (cbn [set_vn_bridge vn_installed] in Eb; unfold set_vn_bridge in E4, Eb; rewrite E4 in Eb; by injection Eb).
  split_and!.
  - intros id a. rewrite H4. cbn [set_vn_bridge vn_installed]. rewrite I3. cbn [v2 log_call vn_installed].
    assert (W : wants snapshot id a <-> d !! id = Some a).
    { rewrite (desired_spec _ _ _ Ed), lookup_empty. unfold wants. destruct (identity snapshot); [split; [intros [_ ?]; by right|intros [?|?]; [done|by split]]|].
      split; [intros [[? ?] _]; done|]. intros [?|(n & Hn & _)]; [done|by apply elem_of_nil in Hn]. }
    rewrite W. destruct (d !! id) as [x|] eqn:Dx.
    + rewrite (bool_decide_true (is_Some _)) by done. rewrite andb_false_r. rewrite (K1 id x); [done|]. by apply addresses_elem.
    + rewrite (bool_decide_false (is_Some None)) by (by intros [? ?]). rewrite andb_true_r. case_bool_decide as Hin; [done|].
      destruct (vn_installed v1 !! id) as [y|] eqn:Y; [|done]. destruct Hin. apply list_elem_of_fmap. exists (id, y). split; [done|]. by apply addresses_elem.
  - exists cfg. split; [done|]. rewrite R4. cbn [set_vn_bridge vn_log]. rewrite L3. apply last_routing_app.
  - exists (vn_bridge v3), joined. split_and!; [done|by rewrite B4|]. by rewrite <- B1.
Qed.
Lemma synchronize_fails world snapshot draws groups v e v' : vn_started v = true -> synchronize_network world snapshot draws groups v = (Throw e, v') ->
  sessions_ (vn_bridge v') = ∅ /\ exists ok, last_routing (vn_log v') = Some (no_routing, ok).
Proof.
  intros S H. unfold synchronize_network, vbind at 1, vget in H. rewrite S in H. cbn [negb] in H. unfold on_throw in H.
  destruct (synchronize_body world snapshot draws groups v) as [[?|?] v0]; [done|]. injection H as _ <-. split; [done|]. eexists. apply last_routing_app.
Qed.
(** Without sessions a bridge neither sends nor injects. *)
Lemma silent others b : (forall k b, sessions_ b = ∅ -> sessions_ (others k b) = ∅) -> sessions_ b = ∅ ->
  (forall packet now, snd (outbound others packet now b) = []) /\ (forall d now, snd (inbound others d now b) = []).
Proof.
  intros Q S. split.
  - intros packet now. unfold outbound. destruct (_ <? _); [done|]. unfold bind at 1, outbound_routed, bind at 1, pure. destruct (inspect_ipv4 packet) as [h|]; [|done].
    assert (E : in_order ∅ = []) by (vm_compute; reflexivity). unfold bind, get, yield. cbn -[in_order]. rewrite S, E. cbn -[in_order].
    rewrite (Q 0%nat b S), E. done.
  - intros d now. unfold inbound, bind at 1, get. rewrite S, lookup_empty. done.
Qed.

(** A packet handler returned after carrying out some of [outs] in order, and counted a rejection unless it finished. *)
Definition carried (v : VirtualNetwork) (r : result unit) (outs : list (output * Bridge)) (res : result unit * VirtualNetwork) : Prop :=
  exists v' calls, res = (Ok tt, v') /\ vn_log v' = vn_log v ++ calls /\ map fst calls `prefix_of` map (fun o => call_of (fst o)) outs /\
    let finished := r = Ok tt /\ Forall (fun c => snd c = true) calls /\ map fst calls = map (fun o => call_of (fst o)) outs in
    (vn_rejected v' = vn_rejected v /\ finished \/ vn_rejected v' = (vn_rejected v + 1) mod 2 ^ 64 /\ ~ finished).
Lemma carried_out world outs r b v : carried v r outs (guarded (carry_out world outs r b) v).
Proof.
  unfold guarded. destruct (carry_out world outs r b v) as [r' v'] eqn:Ec. destruct (carry_out_spec _ _ _ _ _ _ _ Ec) as (calls & L & P & _ & _ & Rj & _ & Iff).
  destruct r' as [[]|x].
  - exists v', calls. split_and!; try done. left. split; [done|]. by apply Iff.
  - exists (warn v'), calls. split_and!; try done. right. split; [cbn; by rewrite Rj|]. intros X. apply Iff in X. done.
Qed.

(** C16: the virtual network follows the session.  Whatever calls, packets and failures of the adapter came before: a
    synchronization that returns has given the adapter exactly the addresses of the snapshot and taken back every
    other, has set the routing computed from it, and the bridge has exactly one session per network of the snapshot
    (whose subnets share no address), kept with its nonce state when its key and address are unchanged and otherwise new; one that throws leaves no
    session, so that no packet is sent or injected, and routing withdrawn.  Stopping takes back every address that
    was ever given; starting that fails leaves the bridge without sessions.  The packet handlers never throw: they carry
    out what the bridge emits, in order, up to the first call that fails, and count one rejected packet exactly when they
    do not finish.  The addresses the adapter holds are at every moment those recorded as installed. *)
Theorem virtual_network_follows v :
  net_reach v ->
  (bridge_reachable (vn_bridge v) /\ configured (vn_log v) = vn_installed v) /\
  (forall world snapshot draws groups, vn_started v = true ->
     match synchronize_network world snapshot draws groups v with
     | (Ok _, v') =>
         (forall id a, vn_installed v' !! id = Some a <-> wants snapshot id a) /\
         (exists cfg, routing_configuration snapshot (vn_accept_routes v) (vn_forward v) = Ok cfg /\ last_routing (vn_log v') = Some (cfg, true)) /\
         (exists b joined, groups = Ok joined /\ vn_bridge v' = synchronize_multicast joined b /\ bridge_follows snapshot draws (vn_bridge v) b)
     | (Throw _, v') =>
         (exists ok, last_routing (vn_log v') = Some (no_routing, ok)) /\ sessions_ (vn_bridge v') = ∅ /\
         forall others, (forall k b, sessions_ b = ∅ -> sessions_ (others k b) = ∅) ->
           (forall packet now, snd (outbound others packet now (vn_bridge v')) = []) /\ (forall d now, snd (inbound others d now (vn_bridge v')) = [])
     end) /\
  (forall world, vn_started v = true -> exists v', stop_network world v = (Ok tt, v') /\ vn_started v' = false /\
     configured (vn_log v') = ∅ /\ sessions_ (vn_bridge v') = ∅) /\
  (forall world e v', vn_started v = false -> start world v = (Throw e, v') ->
     vn_started v' = false /\ (sessions_ (vn_bridge v) = ∅ -> sessions_ (vn_bridge v') = ∅)) /\
  (forall world others packet now, let '(r, _, outs) := outbound others packet now (vn_bridge v) in carried v r outs (on_outgoing world others packet now v)) /\
  (forall world others d now, let '(r, _, outs) := inbound others d now (vn_bridge v) in carried v r outs (on_incoming world others d now v)).
Proof.
  intros R. pose proof (net_reach_inv v R) as I. split_and!.
  - apply (ni_bridge _ I).
  - apply (ni_installed _ I).
  - intros world snapshot draws groups S. destruct (synchronize_network world snapshot draws groups v) as [[[]|e] v'] eqn:E; [by apply (synchronize_exact world)|].
    destruct (synchronize_fails _ _ _ _ _ _ _ S E) as [Em L]. split_and!; try done. intros others Q. by apply silent.
  - intros world S. destruct (stop_spec world v I S) as (v' & E & S' & _ & Cf & Se & _). by exists v'.
  - intros world e v' S H. unfold start, vbind at 1, vget in H. rewrite S in H. unfold vbind at 1, call at 1 in H. destruct (world _ _); [|injection H as _ <-; by split].
    unfold on_throw in H. destruct ((call world adapter_start ;; _) _) as [[?|?] v1] eqn:E1; [done|].
    assert (S1 : vn_started v1 = false).
    { unfold vbind, call, vput in E1. destruct (world _ adapter_start); [|by injection E1 as _ <-]. destruct (world _ path_start); [done|by injection E1 as _ <-]. }
    unfold vbind, note, call, vput in H. destruct (world _ (path_handler false)); injection H as _ <-; by split.
  - intros world others packet now. destruct (outbound others packet now (vn_bridge v)) as [[r b] outs] eqn:E. unfold on_outgoing, guarded. rewrite E. apply carried_out.
  - intros world others d now. destruct (inbound others d now (vn_bridge v)) as [[r b] outs] eqn:E. unfold on_incoming, guarded. rewrite E. apply carried_out.
Qed.
End Reachable.

(** ** Alice's adapter *)

Definition willing (k : nat) (c : net_call) : bool := true.
Definition alice_snapshot : NetworkSnapshot := mk_snapshot (Some (member alice)) [network_a].
Definition alice_fresh : VirtualNetwork := ok_or (mk_virtual_network new_bridge false false false ∅ 0 []) (new_virtual_network 1400).
Definition alice_up : VirtualNetwork := snd (handle_net (C := toy_crypto) willing ne_start alice_fresh).

Lemma virtual_network_follows_witness :
  exists v', synchronize_network (C := toy_crypto) willing alice_snapshot drawn (Ok None) alice_up = (Ok tt, v') /\
    vn_installed v' !! id_of network_a = Some (address_of network_a).
Proof.
  assert (R : net_reach (C := toy_crypto) alice_up).
  { apply (nr_step willing ne_start); [|done]. apply (nr_new 1400); [split; lia|]. vm_compute. reflexivity. }
  destruct (virtual_network_follows (C := toy_crypto) alice_up R) as (_ & S & _). specialize (S willing alice_snapshot drawn (Ok None) eq_refl).
  assert (E : is_ok (fst (synchronize_network (C := toy_crypto) willing alice_snapshot drawn (Ok None) alice_up)) = true) by (vm_compute; reflexivity).
  destruct (synchronize_network willing alice_snapshot drawn (Ok None) alice_up) as [[[]|e] v']; [|discriminate E]. exists v'. split; [reflexivity|].
  destruct S as [S _]. apply S. split; [by eexists|]. exists network_a. split; [left|by split].
Defined.
