(* ===== verification/ClientCache.v ===== *)
(** * What a client knows of its networks

    transport/quic.cpp, [QuicRelayClient::Impl]: the data under [peer_state_mutex_] (peer states, network
    keys, policy leases, revisions, received candidates and the negotiated capabilities) and the
    operations on it, each one critical section of the code.  Time is the steady clock in nanoseconds;
    [std::map]s are [gmap]s, iterated in the order of their keys. *)
From S2P Require Import Candidates Capabilities.
From S2P Require Import Prelude Ipv4 NetworkPolicy NetworkMessages PacketMessages Crypto RelayStore RoutedNetwork.

Record Cache := mk_cache {
  own_signed_key_ : option SignedDeviceKey; negotiated_ : NegotiatedCapabilities; candidate_inbox_ : list CandidateExchange;
  network_keys_ : gmap bytes NetworkKeySnapshot; peer_states_ : gmap bytes NetworkPeerState;
  policy_leases_ : gmap bytes Z; peer_revisions_ : gmap bytes Z }.

(** [clear_peer_states]. *)
Definition empty_cache : Cache := mk_cache None default_selection [] ∅ ∅ ∅ ∅.

Definition set_own_key (k : option SignedDeviceKey) (c : Cache) : Cache :=
  mk_cache k (negotiated_ c) (candidate_inbox_ c) (network_keys_ c) (peer_states_ c) (policy_leases_ c) (peer_revisions_ c).
Definition set_negotiated (n : NegotiatedCapabilities) (c : Cache) : Cache :=
  mk_cache (own_signed_key_ c) n (candidate_inbox_ c) (network_keys_ c) (peer_states_ c) (policy_leases_ c) (peer_revisions_ c).
Definition set_inbox (l : list CandidateExchange) (c : Cache) : Cache :=
  mk_cache (own_signed_key_ c) (negotiated_ c) l (network_keys_ c) (peer_states_ c) (policy_leases_ c) (peer_revisions_ c).
Definition set_keys (m : gmap bytes NetworkKeySnapshot) (c : Cache) : Cache :=
  mk_cache (own_signed_key_ c) (negotiated_ c) (candidate_inbox_ c) m (peer_states_ c) (policy_leases_ c) (peer_revisions_ c).
Definition set_leases (m : gmap bytes Z) (c : Cache) : Cache :=
  mk_cache (own_signed_key_ c) (negotiated_ c) (candidate_inbox_ c) (network_keys_ c) (peer_states_ c) m (peer_revisions_ c).

Definition has_policy (st : NetworkPeerState) : bool := match policy st with Some _ => true | None => false end.

Definition lease_time : Z := 6000000000.
Definition policy_current (now : Z) (c : Cache) (st : NetworkPeerState) : bool :=
  negb (has_policy st) ||
  match policy_leases_ c !! state_network_id st with Some t => now - t <? lease_time | None => false end.

(** ** Reading *)

Definition cached_peer_state (now : Z) (id : bytes) (c : Cache) : option NetworkPeerState :=
  match peer_states_ c !! id with Some st => if policy_current now c st then Some st else None | None => None end.
Definition cached_peer_states (now : Z) (c : Cache) : list NetworkPeerState :=
  List.filter (policy_current now c) (map snd (order_by (fun e => [be_value (fst e)]) (map_to_list (peer_states_ c)))).
Definition cached_network_key (now : Z) (id : bytes) (c : Cache) : option NetworkKeySnapshot :=
  match peer_states_ c !! id with
  | Some st => if policy_current now c st then network_keys_ c !! id else None
  | None => network_keys_ c !! id
  end.

(** The condition of [send_encrypted_packet]. *)
Definition sendable (now : Z) (p : EncryptedNetworkPacket) (c : Cache) : bool :=
  match peer_states_ c !! network_id p, network_keys_ c !! network_id p with
  | Some st, Some key =>
      policy_current now c st && (state_key_epoch st =? key_epoch p) && (ks_epoch key =? key_epoch p) &&
      negb (own_address st =? destination_ipv4 p)
  | _, _ => false
  end.

(** The condition of [handle_forwarded_packet]. *)
Definition receivable (now : Z) (d : ForwardedNetworkPacket) (c : Cache) : bool :=
  match peer_states_ c !! network_id (packet d) with
  | Some st =>
      policy_current now c st && (state_key_epoch st =? key_epoch (packet d)) &&
      ((own_address st =? destination_ipv4 (packet d)) ||
       is_ipv4_fanout_destination (destination_ipv4 (packet d)) (subnet_address st) (prefix_length st)) &&
      existsb (fun p => bool_decide (peer_device_id p = sender_device_id d) && has_key p) (peers st)
  | None => false
  end.

(** ** Writing *)

Section Cache.
Context {C : Crypto}.

Fixpoint verify_keys (l : list NetworkPeer) : result unit :=
  match l with
  | [] => Ok tt
  | p :: l =>
      match signed_key p with
      | None => verify_keys l
      | Some k => let* ok := verify_signed_device_key k (peer_device_id p) in check! ok else runtime_error in verify_keys l
      end
  end.
Definition verify_peer_keys (st : NetworkPeerState) : result unit := verify_keys (peers st).

(** A state that is older than what is known, or the revoked revision itself. *)
Definition outdated (st : NetworkPeerState) (c : Cache) : bool :=
  match peer_revisions_ c !! state_network_id st with
  | Some r => (state_revision st <? r) || ((state_revision st =? r) && negb (bool_decide (is_Some (peer_states_ c !! state_network_id st))))
  | None => false
  end.

(** The key of another epoch goes. *)
Definition drop_old_key (st : NetworkPeerState) (m : gmap bytes NetworkKeySnapshot) : gmap bytes NetworkKeySnapshot :=
  match m !! state_network_id st with
  | Some k => if negb (ks_epoch k =? state_key_epoch st) then delete (state_network_id st) m else m
  | None => m
  end.

(** The critical section of [apply_peer_state]: the network's key when this device owns the network.
    [draw] is what the random source delivers for a new one. *)
Definition store_state (me : bytes) (draw : option bytes) (st : NetworkPeerState) (c : Cache) : result (option bytes) * Cache :=
  let id := state_network_id st in
  let owner := bool_decide (state_owner st = me) in
  let keys := drop_old_key st (network_keys_ c) in
  let stored := fun keys key =>
    let leases := if has_policy st && negb (bool_decide (peer_states_ c !! id = Some st)) then delete id (policy_leases_ c)
                  else policy_leases_ c in
    (Ok key, mk_cache (own_signed_key_ c) (negotiated_ c) (candidate_inbox_ c) keys (<[id := st]> (peer_states_ c)) leases
               (<[id := state_revision st]> (peer_revisions_ c))) in
  if owner then
    match keys !! id with
    | Some k => stored keys (Some (ks_key k))
    | None =>
        match draw with
        | None => (Throw runtime_error, set_keys keys c)
        | Some key => stored (<[id := mk_key_snapshot (state_key_epoch st) key]> keys) (Some key)
        end
    end
  else stored keys None.

(** The owner's key an envelope is to be opened with, when the envelope is for the cached state. *)
Definition envelope_state (e : NetworkKeyEnvelope) (c : Cache) : option NetworkPeerState :=
  match peer_states_ c !! env_network_id e with
  | Some st => if negb (state_key_epoch st =? env_epoch e) || negb (bool_decide (state_owner st = env_owner e)) then None else Some st
  | None => None
  end.
Definition envelope_owner_key (e : NetworkKeyEnvelope) (c : Cache) : result (option SignedDeviceKey) :=
  match envelope_state e c with
  | None => Ok None
  | Some st =>
      match List.find (fun p => bool_decide (peer_device_id p = env_owner e)) (peers st) with
      | Some p => match signed_key p with Some k => Ok (Some k) | None => Throw runtime_error end
      | None => Throw runtime_error
      end
  end.

(** The second critical section of [apply_network_key_envelope]. *)
Definition store_key (e : NetworkKeyEnvelope) (key : bytes) (c : Cache) : result unit * Cache :=
  match envelope_state e c with
  | None => (Ok tt, c)
  | Some _ =>
      let stored := (Ok tt, set_keys (<[env_network_id e := mk_key_snapshot (env_epoch e) key]> (network_keys_ c)) c) in
      match network_keys_ c !! env_network_id e with
      | Some k =>
          if ks_epoch k =? env_epoch e then (if negb (bool_decide (ks_key k = key)) then Throw runtime_error else Ok tt, c)
          else stored
      | None => stored
      end
  end.

Definition revoke (r : NetworkPeerRevocation) (c : Cache) : Cache :=
  let id := revoked_network_id r in
  let old := match peer_revisions_ c !! id with Some known => revocation_revision r <? known | None => false end in
  if old then c
  else mk_cache (own_signed_key_ c) (negotiated_ c) (candidate_inbox_ c) (delete id (network_keys_ c)) (delete id (peer_states_ c))
         (delete id (policy_leases_ c)) (<[id := revocation_revision r]> (peer_revisions_ c)).

(** A fetched state renews the lease when it is the cached one. *)
Definition renew_lease (st : NetworkPeerState) (id : bytes) (requested : Z) (c : Cache) : Cache :=
  if bool_decide (peer_states_ c !! id = Some st) && has_policy st
  then set_leases (<[id := Z.max (default 0 (policy_leases_ c !! id)) requested]> (policy_leases_ c)) c
  else c.

Definition max_inbox : Z := 64.
Definition wanted_candidates (me : bytes) (request : Z) (x : CandidateExchange) (c : Cache) : bool :=
  match own_signed_key_ c, peer_states_ c !! x_network_id x with
  | Some own, Some st =>
      (request =? 0) && supports (negotiated_ c) peer_candidates && bool_decide (x_recipient x = me) &&
      bool_decide (recipient_session x = encryption_public_key own) && (x_key_epoch x =? state_key_epoch st) &&
      match List.find (fun p => bool_decide (peer_device_id p = x_sender x)) (peers st) with
      | Some p => match signed_key p with Some k => bool_decide (encryption_public_key k = sender_session x) | None => false end
      | None => false
      end
  | _, _ => false
  end.
Definition keep_candidates (me : bytes) (request : Z) (x : CandidateExchange) (c : Cache) : Cache :=
  if wanted_candidates me request x c && (len (candidate_inbox_ c) <? max_inbox)
  then set_inbox (candidate_inbox_ c ++ [x]) c else c.

(** ** Consistency *)

Definition verified_peer (p : NetworkPeer) : Prop :=
  forall k, signed_key p = Some k -> verify_signed_device_key k (peer_device_id p) = Ok true.

Record state_ok (st : NetworkPeerState) : Prop := mk_state_ok {
  st_epoch : state_key_epoch st <> 0; st_owner : is_zero (state_owner st) = false; st_peers : Forall verified_peer (peers st) }.

Record cache_ok (c : Cache) : Prop := mk_cache_ok {
  ck_keys : forall id k, network_keys_ c !! id = Some k -> exists st, peer_states_ c !! id = Some st /\ ks_epoch k = state_key_epoch st;
  ck_states : forall id st, peer_states_ c !! id = Some st ->
    state_network_id st = id /\ peer_revisions_ c !! id = Some (state_revision st) /\ state_ok st;
  ck_inbox : len (candidate_inbox_ c) <= max_inbox }.

(** What an operation that is not [clear_peer_states] does to the cache. *)
Record advances (c c' : Cache) : Prop := mk_advances {
  av_revision : forall id r, peer_revisions_ c !! id = Some r -> exists r', peer_revisions_ c' !! id = Some r' /\ r <= r';
  av_revoked : forall id r st, peer_revisions_ c !! id = Some r -> peer_states_ c !! id = None ->
    peer_states_ c' !! id = Some st -> r < state_revision st }.

Lemma empty_cache_ok : cache_ok empty_cache.
Proof. split; [done..|]. vm_compute. congruence. Qed.

Lemma cache_advances_refl c : advances c c.
Proof. split; [intros id r H; exists r; split; [done|lia]|congruence]. Qed.
Lemma cache_advances_trans c1 c2 c3 : cache_ok c2 -> cache_ok c3 -> advances c1 c2 -> advances c2 c3 -> advances c1 c3.
Proof.
  intros O2 O3 [R1 V1] [R2 V2]. split.
  - intros id r H. destruct (R1 id r H) as (r' & H' & L). destruct (R2 id r' H') as (r'' & H'' & L'). exists r''. split; [done|lia].
  - intros id r st H N S. destruct (R1 id r H) as (r' & H' & L). destruct (peer_states_ c2 !! id) as [st2|] eqn:E.
    + pose proof (V1 id r st2 H N E). destruct (ck_states _ O2 id st2 E) as (_ & E2 & _). destruct (R2 id _ E2) as (r3 & E3 & L3).
      destruct (ck_states _ O3 id st S) as (_ & E3' & _). assert (r3 = state_revision st) by congruence. lia.
    + pose proof (V2 id r' st H' E S). lia.
Qed.

(** What may have become of the keys: each is kept, drawn by the owner or opened from an envelope. *)
Definition keys_kept (c c' : Cache) (new : bytes -> NetworkKeySnapshot -> Prop) : Prop :=
  forall id k, network_keys_ c' !! id = Some k -> network_keys_ c !! id = Some k \/ new id k.

Lemma drop_old_key_lookup st m id k : drop_old_key st m !! id = Some k <->
  m !! id = Some k /\ (id = state_network_id st -> ks_epoch k = state_key_epoch st).
Proof.
  unfold drop_old_key. destruct (m !! state_network_id st) as [k0|] eqn:E.
  - destruct (ks_epoch k0 =? state_key_epoch st) eqn:G; cbn [negb]; bool_prop.
    + split; [intros H; split; [done|intros ->; congruence]|by intros [H _]].
    + destruct (decide (id = state_network_id st)) as [->|N].
      * rewrite lookup_delete_eq. split; [done|]. intros [H X]. assert (k = k0) by congruence. subst. by destruct G; apply X.
      * rewrite lookup_delete_ne by done. split; [intros H; split; [done|by intros ->]|by intros [H _]].
  - split; [intros H; split; [done|intros ->; congruence]|by intros [H _]].
Qed.

Lemma outdated_spec st c : outdated st c = false ->
  (forall r, peer_revisions_ c !! state_network_id st = Some r -> r <= state_revision st /\
     (peer_states_ c !! state_network_id st = None -> r < state_revision st)).
Proof.
  unfold outdated. intros H r E. rewrite E in H. apply orb_false_iff in H as [H1 H2]. bool_prop. split; [done|]. intros N.
  rewrite N, bool_decide_false in H2 by (by intros [? ?]). cbn in H2. rewrite andb_true_r in H2. bool_prop. lia.
Qed.

(** The shape of the cache a stored state leaves. *)
Record stored (me : bytes) (draw : option bytes) (st : NetworkPeerState) (c c' : Cache) (key : option bytes) : Prop := mk_stored {
  sd_states : peer_states_ c' = <[state_network_id st := st]> (peer_states_ c);
  sd_revisions : peer_revisions_ c' = <[state_network_id st := state_revision st]> (peer_revisions_ c);
  sd_leases : forall id t, policy_leases_ c' !! id = Some t -> policy_leases_ c !! id = Some t /\
    (id = state_network_id st -> has_policy st = true -> peer_states_ c !! id = Some st);
  sd_rest : own_signed_key_ c' = own_signed_key_ c /\ negotiated_ c' = negotiated_ c /\ candidate_inbox_ c' = candidate_inbox_ c;
  sd_key : key = None /\ state_owner st <> me \/
    state_owner st = me /\ exists k, key = Some k /\ network_keys_ c' !! state_network_id st = Some (mk_key_snapshot (state_key_epoch st) k);
  sd_keys : forall id k, network_keys_ c' !! id = Some k ->
    (id = state_network_id st -> ks_epoch k = state_key_epoch st) /\
    (network_keys_ c !! id = Some k \/
     id = state_network_id st /\ state_owner st = me /\ draw = Some (ks_key k) /\
       forall k0, network_keys_ c !! id = Some k0 -> ks_epoch k0 <> ks_epoch k) }.

Lemma store_state_spec me draw st c :
  (exists key c', store_state me draw st c = (Ok key, c') /\ stored me draw st c c' key) \/
  store_state me draw st c = (Throw runtime_error, set_keys (drop_old_key st (network_keys_ c)) c).
Proof.
  unfold store_state. set (id := state_network_id st).
  assert (L : forall i t, (if has_policy st && negb (bool_decide (peer_states_ c !! id = Some st)) then delete id (policy_leases_ c)
      else policy_leases_ c) !! i = Some t -> policy_leases_ c !! i = Some t /\ (i = id -> has_policy st = true -> peer_states_ c !! i = Some st)).
  { intros i t. destruct (has_policy st) eqn:P; cbn [andb]; [|by auto].
    destruct (bool_decide_reflect (peer_states_ c !! id = Some st)); cbn [negb]; [intros; split; [done|]; by intros ->|].
    destruct (decide (i = id)) as [->|N]; [by rewrite lookup_delete_eq|]. rewrite lookup_delete_ne by done. done. }
  destruct (bool_decide_reflect (state_owner st = me)) as [O|O].
  - destruct (drop_old_key st (network_keys_ c) !! id) as [k|] eqn:E.
    + left. eexists _, _. split; [done|]. pose proof (proj1 (drop_old_key_lookup _ _ _ _) E) as [Ek Ee].
      split; try done.
      * right. split; [done|]. exists (ks_key k). split; [done|]. cbn. fold id. rewrite E. f_equal. destruct k. cbn in *. by rewrite Ee.
      * cbn. intros i k' H. apply drop_old_key_lookup in H as [H X]. split; [done|by left].
    + destruct draw as [key|]; [|by right]. left. eexists _, _. split; [done|]. split; try done.
      * right. split; [done|]. exists key. split; [done|]. cbn. fold id. by rewrite lookup_insert_eq.
      * cbn. fold id. intros i k'. destruct (decide (i = id)) as [->|N].
        -- rewrite lookup_insert_eq. intros [= <-]. split; [done|]. right. cbn. split_and!; try done.
           intros k0 H0 X. assert (Y : drop_old_key st (network_keys_ c) !! id = Some k0) by (by apply drop_old_key_lookup). congruence.
        -- rewrite lookup_insert_ne by done. intros H. apply drop_old_key_lookup in H as [H X]. split; [done|by left].
  - left. eexists _, _. split; [done|]. split; try done; [by left|].
    cbn. intros i k' H. apply drop_old_key_lookup in H as [H X]. split; [done|by left].
Qed.

Lemma stored_ok me draw st c c' key : cache_ok c -> state_ok st -> outdated st c = false -> stored me draw st c c' key ->
  cache_ok c' /\ advances c c'.
Proof.
  intros O So Od S. pose proof (outdated_spec _ _ Od) as R. destruct S as [S1 S2 _ (_ & _ & S3) _ S4]. set (id := state_network_id st) in *. split; split.
  - intros i k H. destruct (S4 i k H) as [E [K|(-> & _)]]; rewrite S1.
    + destruct (decide (i = id)) as [->|N]; [exists st; rewrite lookup_insert_eq; split; [done|by apply E]|].
      rewrite lookup_insert_ne by done. by apply (ck_keys _ O).
    + exists st. rewrite lookup_insert_eq. split; [done|by apply E].
  - intros i st'. rewrite S1, S2. destruct (decide (i = id)) as [->|N].
    + rewrite !lookup_insert_eq. intros [= <-]. done.
    + rewrite !lookup_insert_ne by done. apply (ck_states _ O).
  - rewrite S3. apply (ck_inbox _ O).
  - intros i r H. rewrite S2. destruct (decide (i = id)) as [->|N].
    + rewrite lookup_insert_eq. exists (state_revision st). split; [done|]. by apply R.
    + rewrite lookup_insert_ne by done. exists r. split; [done|lia].
  - intros i r st' H N. rewrite S1. destruct (decide (i = id)) as [->|Ni]; [|rewrite lookup_insert_ne by done; congruence].
    rewrite lookup_insert_eq. intros [= <-]. by apply R.
Qed.

Lemma drop_ok st c : cache_ok c -> cache_ok (set_keys (drop_old_key st (network_keys_ c)) c).
Proof. intros [K S I]. split; [|exact S|exact I]. intros id k H. apply drop_old_key_lookup in H as [H _]. by apply K. Qed.

Lemma store_key_spec e key c r c' : cache_ok c -> store_key e key c = (r, c') ->
  cache_ok c' /\ peer_states_ c' = peer_states_ c /\ peer_revisions_ c' = peer_revisions_ c /\ policy_leases_ c' = policy_leases_ c /\
  (own_signed_key_ c' = own_signed_key_ c /\ negotiated_ c' = negotiated_ c /\ candidate_inbox_ c' = candidate_inbox_ c) /\
  forall id k, network_keys_ c' !! id = Some k -> network_keys_ c !! id = Some k \/
    (id = env_network_id e /\ k = mk_key_snapshot (env_epoch e) key /\ is_Some (envelope_state e c) /\
     forall k0, network_keys_ c !! id = Some k0 -> ks_epoch k0 <> ks_epoch k).
Proof.
  intros O. unfold store_key. destruct (envelope_state e c) as [st|] eqn:E.
  2:{ intros [= <- <-]. split_and!; try done. intros; by left. }
  match goal with |- _ -> ?G => assert (X : network_keys_ c !! env_network_id e = None \/ (exists k, network_keys_ c !! env_network_id e = Some k /\ ks_epoch k <> env_epoch e) ->
    (Ok tt, set_keys (<[env_network_id e := mk_key_snapshot (env_epoch e) key]> (network_keys_ c)) c) = (r, c') -> G) end.
  { intros New [= <- <-].
    assert (St : peer_states_ c !! env_network_id e = Some st /\ state_key_epoch st = env_epoch e).
    { clear New. revert E. unfold envelope_state. destruct (peer_states_ c !! env_network_id e) as [st'|]; [|done]. destruct (_ || _) eqn:G; [done|]. intros [= ->]. bool_prop. done. }
    refine (conj _ (conj eq_refl (conj eq_refl (conj eq_refl (conj (conj eq_refl (conj eq_refl eq_refl)) _))))).
    - destruct O as [K S I]. split; [|exact S|exact I]. cbn. intros id k. destruct (decide (id = env_network_id e)) as [->|N].
      + rewrite lookup_insert_eq. intros [= <-]. exists st. split; [apply St|]. cbn. symmetry. apply St.
      + rewrite lookup_insert_ne by done. apply K.
    - cbn. intros id k. destruct (decide (id = env_network_id e)) as [->|N].
      + rewrite lookup_insert_eq. intros [= <-]. right. split; [done|]. split; [done|]. split; [by eexists|]. cbn. intros k0 H0.
        destruct New as [New|(k1 & H1 & N1)]; congruence.
      + rewrite lookup_insert_ne by done. by left. }
  destruct (network_keys_ c !! env_network_id e) as [k|] eqn:Ek; [|apply X; by left].
  destruct (ks_epoch k =? env_epoch e) eqn:G; bool_prop; [|apply X; right; by exists k].
  intros [= _ <-]. split_and!; try done. intros; by left.
Qed.

Lemma revoke_spec r c : cache_ok c ->
  cache_ok (revoke r c) /\ advances c (revoke r c) /\ network_keys_ (revoke r c) ⊆ network_keys_ c /\
  peer_states_ (revoke r c) ⊆ peer_states_ c /\ policy_leases_ (revoke r c) ⊆ policy_leases_ c /\
  own_signed_key_ (revoke r c) = own_signed_key_ c /\ negotiated_ (revoke r c) = negotiated_ c /\ candidate_inbox_ (revoke r c) = candidate_inbox_ c.
Proof.
  intros O. unfold revoke. set (id := revoked_network_id r).
  destruct (match peer_revisions_ c !! id with Some _ => _ | None => _ end) eqn:E; [by split_and!; try done; apply cache_advances_refl|].
  split_and!; cbn; try apply delete_subseteq; try done.
  - destruct O as [K S I]. split; cbn; [| |done].
    + intros i k. rewrite !lookup_delete_Some. intros [N H]. destruct (K i k H) as (st & Hs & Es). exists st. by rewrite lookup_delete_ne.
    + intros i st. rewrite lookup_delete_Some. intros [N H]. rewrite lookup_insert_ne by done. by apply S.
  - split; cbn.
    + intros i v H. destruct (decide (i = id)) as [->|N]; [|rewrite lookup_insert_ne by done; exists v; split; [done|lia]].
      rewrite lookup_insert_eq. rewrite H in E. bool_prop. eexists. split; [done|lia].
    + intros i v st H N. rewrite lookup_delete_Some. intros [_ X]. congruence.
Qed.

Lemma renew_lease_spec st id t c :
  (renew_lease st id t c = c) \/
  (peer_states_ c !! id = Some st /\ has_policy st = true /\
   renew_lease st id t c = set_leases (<[id := Z.max (default 0 (policy_leases_ c !! id)) t]> (policy_leases_ c)) c).
Proof. unfold renew_lease. destruct (_ && _) eqn:E; [right; bool_prop|left]; done. Qed.

Lemma keep_candidates_spec me q x c : cache_ok c ->
  cache_ok (keep_candidates me q x c) /\ peer_states_ (keep_candidates me q x c) = peer_states_ c /\
  network_keys_ (keep_candidates me q x c) = network_keys_ c /\ policy_leases_ (keep_candidates me q x c) = policy_leases_ c /\
  peer_revisions_ (keep_candidates me q x c) = peer_revisions_ c.
Proof.
  intros O. unfold keep_candidates. destruct (_ && _) eqn:E; [|done]. split_and!; try done. bool_prop.
  destruct O as [K S I]. split; [done..|]. cbn. rewrite len_app. unfold len at 2. cbn. lia.
Qed.

Lemma advances_same c c' : peer_states_ c' = peer_states_ c -> peer_revisions_ c' = peer_revisions_ c -> advances c c'.
Proof. intros E1 E2. split; rewrite ?E1, ?E2; [intros id r H; exists r; split; [done|lia]|congruence]. Qed.

Lemma verify_peer_keys_ok st : verify_peer_keys st = Ok tt -> Forall verified_peer (peers st).
Proof.
  unfold verify_peer_keys. induction (peers st) as [|p l IH]; [constructor|]. cbn. intros H. constructor.
  - intros k E. rewrite E in H. destruct (verify_signed_device_key k (peer_device_id p)) as [[]|]; done.
  - apply IH. destruct (signed_key p); [|done]. by destruct (verify_signed_device_key _ _) as [[]|].
Qed.

(** What is used is covered by the cache. *)
Lemma sendable_spec now p c : sendable now p c = true <->
  exists st key, peer_states_ c !! network_id p = Some st /\ network_keys_ c !! network_id p = Some key /\ policy_current now c st = true /\
    state_key_epoch st = key_epoch p /\ ks_epoch key = key_epoch p /\ own_address st <> destination_ipv4 p.
Proof.
  unfold sendable. destruct (peer_states_ c !! _) as [st|]; [|split; [done|by intros (? & ? & ? & _)]].
  destruct (network_keys_ c !! _) as [key|]; [|split; [done|by intros (? & ? & _ & ? & _)]].
  rewrite !andb_true_iff, negb_true_iff, !Z.eqb_eq, Z.eqb_neq. split.
  - intros [[[A B] D] E]. by exists st, key.
  - intros (st' & key' & [= <-] & [= <-] & A & B & D & E). done.
Qed.
End Cache.
