(* ===== verification/QuicSend.v ===== *)
(** * Sending over QUIC

    transport/quic.cpp: [send_frame], [send_datagram], [complete_send] and [complete_datagram_send].  A send
    reserves room in the connection's budget and holds the ticket until MsQuic reports the send
    complete; [TlsChannel::enqueue] (transport/tls.cpp) does the same until the bytes are written.  Whether MsQuic takes a buffer is the argument [taken]. *)
From S2P Require Import Limits.
From S2P Require Import Prelude Codec.

Inductive QUIC_STATUS := quic_success | quic_invalid_parameter | quic_out_of_memory | quic_failed.
#[global] Instance QUIC_STATUS_eq_dec : EqDecision QUIC_STATUS.
Proof. solve_decision. Defined.
Definition quic_succeeded (s : QUIC_STATUS) : bool := bool_decide (s = quic_success).

(** A budget and the tickets of the sends MsQuic holds. *)
Record Sends := mk_sends { sends_budget : BudgetState; sends_live : list Ticket }.
Definition new_sends (limits : SendQueueLimits) : result Sends :=
  let* b := make_budget limits in Ok (mk_sends b []).

Definition is_control (t : MessageType) : bool :=
  negb (bool_decide (t = network_packet_send)) && negb (bool_decide (t = network_packet_forward)).

(** Reserve, hand over, and give the room back when the buffer is not taken. *)
Definition submit (size : Z) (control valid taken : bool) (s : Sends) : QUIC_STATUS * Sends :=
  match reserve (sends_budget s) size control with
  | (None, b) => (quic_out_of_memory, mk_sends b (sends_live s))
  | (Some t, b) =>
      if negb valid then (quic_out_of_memory, mk_sends (release b t) (sends_live s))
      else if taken then (quic_success, mk_sends b (t :: sends_live s))
      else (quic_failed, mk_sends (release b t) (sends_live s))
  end.

Definition send_frame (f : Frame) (taken : bool) (s : Sends) : QUIC_STATUS * Sends :=
  if len (payload f) >? max_payload_size then (quic_invalid_parameter, s)
  else submit (frame_header_size + len (payload f)) (is_control (type_ f)) (is_ok (encode_frame f)) taken s.

Definition send_datagram (payload : bytes) (taken : bool) (s : Sends) : QUIC_STATUS * Sends :=
  submit (len payload) false true taken s.

(** transport/tls.cpp, [TlsChannel::enqueue]: the same bookkeeping for a TLS channel, whose queue takes a frame
    while the channel is open. *)
Definition enqueue (f : Frame) (open : bool) (s : Sends) : bool * Sends :=
  let (status, s) := send_frame f open s in (quic_succeeded status, s).

(** The completion of the [i]-th outstanding send. *)
Definition complete_send (i : nat) (s : Sends) : Sends :=
  match sends_live s !! i with
  | Some t => mk_sends (release (sends_budget s) t) (delete i (sends_live s))
  | None => s
  end.

(** ** The budget holds exactly the outstanding sends *)

Definition sends_ok (l : SendQueueLimits) (s : Sends) : Prop :=
  exists ts, Permutation ts (sends_live s) /\ budget_reach l (sends_budget s) ts.

Lemma new_sends_ok l s : new_sends l = Ok s -> sends_ok l s.
Proof. unfold new_sends. intros H. ok_inv H. subst s. exists []. split; [done|by apply br_make]. Qed.

Lemma budget_reach_give_back l b ts size control t b' : budget_reach l b ts -> word 8 size -> reserve b size control = (Some t, b') ->
  budget_reach l (release b' t) ts.
Proof. intros R W E. apply (br_release l b' (t :: ts) t ts); [by eapply br_reserve|done]. Qed.

Lemma submit_ok l size control valid taken s : word 8 size -> sends_ok l s -> sends_ok l (snd (submit size control valid taken s)).
Proof.
  intros W (ts & P & R). unfold submit. destruct (reserve (sends_budget s) size control) as [[t|] b] eqn:E.
  - destruct valid; cbn [negb]; [|exists ts; split; [done|by eapply budget_reach_give_back]].
    destruct taken; [|exists ts; split; [done|by eapply budget_reach_give_back]].
    exists (t :: ts). split; [by rewrite P|by eapply br_reserve].
  - exists ts. split; [done|]. by eapply br_reject.
Qed.

Lemma send_frame_ok l f taken s : sends_ok l s -> sends_ok l (snd (send_frame f taken s)).
Proof.
  intros O. unfold send_frame, max_payload_size. destruct (len (payload f) >? _) eqn:G; [done|]. bool_prop. apply submit_ok; [|done].
  pose proof (len_nonneg (payload f)). unfold frame_header_size. words. lia.
Qed.
Lemma send_datagram_ok l p taken s : word 8 (len p) -> sends_ok l s -> sends_ok l (snd (send_datagram p taken s)).
Proof. apply submit_ok. Qed.
Lemma complete_send_ok l i s : sends_ok l s -> sends_ok l (complete_send i s).
Proof.
  intros (ts & P & R). unfold complete_send. destruct (sends_live s !! i) as [t|] eqn:E; [|by exists ts].
  exists (delete i (sends_live s)). split; [done|]. apply (br_release l _ ts); [done|]. rewrite P. by apply delete_Permutation.
Qed.

(** Only a successful send leaves a ticket, and it was a frame that can be encoded. *)
Lemma send_frame_success f taken s : fst (send_frame f taken s) = quic_success -> taken = true /\ is_ok (encode_frame f) = true.
Proof.
  unfold send_frame, submit. destruct (_ >? _); [done|]. destruct (reserve _ _ _) as [[t|] b]; [|done].
  destruct (is_ok (encode_frame f)); cbn [negb]; [|done]. by destruct taken.
Qed.
