(* ===== verification/RelayClient.v ===== *)
(** * The relay client

    transport/quic.cpp, [QuicRelayClient::Impl]: one connection attempt at a time, over QUIC or over TLS, the
    control requests that wait for an answer, the queue of received events and the cache of
    [ClientCache].  Every callback of MsQuic, every frame of a TLS channel and every call of the application
    is an operation on the state [Client].  Sends, random draws, the clock and MsQuic's answers are the record
    [World] of a call; [sizeof] of the two queued types is the class [Layout].  Handles of MsQuic and shared
    pointers are the flags whether they are set; a waiting request lives in the list [r_controls], which
    is never shortened, so that a waiter can read its outcome after the request left the pending map.
    Log messages and the condition variables are left out. *)
From S2P Require Import Limits Candidates Capabilities QuicSend PathDiagnostics UserAccess NetworkManagement Handshake.
From S2P Require Import Prelude Codec StreamDecoder Ipv4 NetworkPolicy NetworkMessages PacketMessages Crypto RelayStore RoutedNetwork ClientCache.

Class Layout := { sizeof_forwarded : Z; sizeof_event : Z }.
Class LayoutLaws (L : Layout) :=
  { forwarded_fits : 0 < sizeof_forwarded < 2 ^ 16; event_fits : 0 < sizeof_event < 2 ^ 16 }.

(** What a call meets outside: the steady clock, random draws, whether each buffer is taken, whether MsQuic opens
    a stream and accepts the connection settings. *)
Record World := mk_world {
  w_now : Z; w_key : option bytes; w_nonce : nat -> option bytes; w_hello : option bytes; w_secret : option bytes;
  w_frame : Frame -> bool; w_datagram : bytes -> bool; w_settings : bool; w_open : bool }.

(** ** State *)

Record PendingControl := mk_control {
  pc_type : MessageType; pc_operation : NetworkOperation; pc_network : option bytes; pc_id : Z; pc_requested : Z;
  pc_response : option Frame; pc_failed : bool; pc_finished : bool }.

Record Attempt := mk_attempt {
  a_connection : bool; a_tcp : bool; a_stream : bool; a_authenticated : bool; a_ever : bool; a_quic : bool; a_shutdown : bool;
  a_complete : bool; a_datagram : Z; a_session : option bytes; a_pending : gmap Z nat; a_sends : Sends;
  a_handshake : ClientHandshake; a_deadline : Z; a_decoder : StreamDecoder }.

Inductive Message := network_message (e : NetworkEvent) | packet_message (d : ForwardedNetworkPacket).
(** The queued messages with their tickets, and the ticket of the one being handled. *)
Record EventQueue := mk_queue { q_events : list (Message * Ticket); q_busy : option Ticket; q_budget : BudgetState }.

(** The identity and the options. *)
Record Me := mk_me { me_secret : bytes; me_device : bytes; me_token : bytes; me_negotiates : bool; me_auth_timeout : Z }.

Record Client := mk_relay_client {
  r_me : Me; r_connected : bool; r_authenticated : bool; r_stop : bool; r_session : option bytes; r_cache : Cache;
  r_attempt : Attempt; r_active : bool; r_controls : list PendingControl; r_next_id : Z; r_queue : EventQueue;
  r_sent : Z; r_received : Z; r_dropped : Z; r_datagrams : Z; r_error : ErrorCode }.

Definition put_a_connection v (r : Attempt) : Attempt :=
  mk_attempt v (a_tcp r) (a_stream r) (a_authenticated r) (a_ever r) (a_quic r) (a_shutdown r) (a_complete r) (a_datagram r) (a_session r) (a_pending r) (a_sends r) (a_handshake r) (a_deadline r) (a_decoder r).
Definition put_a_tcp v (r : Attempt) : Attempt :=
  mk_attempt (a_connection r) v (a_stream r) (a_authenticated r) (a_ever r) (a_quic r) (a_shutdown r) (a_complete r) (a_datagram r) (a_session r) (a_pending r) (a_sends r) (a_handshake r) (a_deadline r) (a_decoder r).
Definition put_a_stream v (r : Attempt) : Attempt :=
  mk_attempt (a_connection r) (a_tcp r) v (a_authenticated r) (a_ever r) (a_quic r) (a_shutdown r) (a_complete r) (a_datagram r) (a_session r) (a_pending r) (a_sends r) (a_handshake r) (a_deadline r) (a_decoder r).
Definition put_a_authenticated v (r : Attempt) : Attempt :=
  mk_attempt (a_connection r) (a_tcp r) (a_stream r) v (a_ever r) (a_quic r) (a_shutdown r) (a_complete r) (a_datagram r) (a_session r) (a_pending r) (a_sends r) (a_handshake r) (a_deadline r) (a_decoder r).
Definition put_a_ever v (r : Attempt) : Attempt :=
  mk_attempt (a_connection r) (a_tcp r) (a_stream r) (a_authenticated r) v (a_quic r) (a_shutdown r) (a_complete r) (a_datagram r) (a_session r) (a_pending r) (a_sends r) (a_handshake r) (a_deadline r) (a_decoder r).
Definition put_a_quic v (r : Attempt) : Attempt :=
  mk_attempt (a_connection r) (a_tcp r) (a_stream r) (a_authenticated r) (a_ever r) v (a_shutdown r) (a_complete r) (a_datagram r) (a_session r) (a_pending r) (a_sends r) (a_handshake r) (a_deadline r) (a_decoder r).
Definition put_a_shutdown v (r : Attempt) : Attempt :=
  mk_attempt (a_connection r) (a_tcp r) (a_stream r) (a_authenticated r) (a_ever r) (a_quic r) v (a_complete r) (a_datagram r) (a_session r) (a_pending r) (a_sends r) (a_handshake r) (a_deadline r) (a_decoder r).
Definition put_a_complete v (r : Attempt) : Attempt :=
  mk_attempt (a_connection r) (a_tcp r) (a_stream r) (a_authenticated r) (a_ever r) (a_quic r) (a_shutdown r) v (a_datagram r) (a_session r) (a_pending r) (a_sends r) (a_handshake r) (a_deadline r) (a_decoder r).
Definition put_a_datagram v (r : Attempt) : Attempt :=
  mk_attempt (a_connection r) (a_tcp r) (a_stream r) (a_authenticated r) (a_ever r) (a_quic r) (a_shutdown r) (a_complete r) v (a_session r) (a_pending r) (a_sends r) (a_handshake r) (a_deadline r) (a_decoder r).
Definition put_a_session v (r : Attempt) : Attempt :=
  mk_attempt (a_connection r) (a_tcp r) (a_stream r) (a_authenticated r) (a_ever r) (a_quic r) (a_shutdown r) (a_complete r) (a_datagram r) v (a_pending r) (a_sends r) (a_handshake r) (a_deadline r) (a_decoder r).
Definition put_a_pending v (r : Attempt) : Attempt :=
  mk_attempt (a_connection r) (a_tcp r) (a_stream r) (a_authenticated r) (a_ever r) (a_quic r) (a_shutdown r) (a_complete r) (a_datagram r) (a_session r) v (a_sends r) (a_handshake r) (a_deadline r) (a_decoder r).
Definition put_a_sends v (r : Attempt) : Attempt :=
  mk_attempt (a_connection r) (a_tcp r) (a_stream r) (a_authenticated r) (a_ever r) (a_quic r) (a_shutdown r) (a_complete r) (a_datagram r) (a_session r) (a_pending r) v (a_handshake r) (a_deadline r) (a_decoder r).
Definition put_a_handshake v (r : Attempt) : Attempt :=
  mk_attempt (a_connection r) (a_tcp r) (a_stream r) (a_authenticated r) (a_ever r) (a_quic r) (a_shutdown r) (a_complete r) (a_datagram r) (a_session r) (a_pending r) (a_sends r) v (a_deadline r) (a_decoder r).
Definition put_a_deadline v (r : Attempt) : Attempt :=
  mk_attempt (a_connection r) (a_tcp r) (a_stream r) (a_authenticated r) (a_ever r) (a_quic r) (a_shutdown r) (a_complete r) (a_datagram r) (a_session r) (a_pending r) (a_sends r) (a_handshake r) v (a_decoder r).
Definition put_a_decoder v (r : Attempt) : Attempt :=
  mk_attempt (a_connection r) (a_tcp r) (a_stream r) (a_authenticated r) (a_ever r) (a_quic r) (a_shutdown r) (a_complete r) (a_datagram r) (a_session r) (a_pending r) (a_sends r) (a_handshake r) (a_deadline r) v.

Definition put_r_connected v (r : Client) : Client :=
  mk_relay_client (r_me r) v (r_authenticated r) (r_stop r) (r_session r) (r_cache r) (r_attempt r) (r_active r) (r_controls r) (r_next_id r) (r_queue r) (r_sent r) (r_received r) (r_dropped r) (r_datagrams r) (r_error r).
Definition put_r_authenticated v (r : Client) : Client :=
  mk_relay_client (r_me r) (r_connected r) v (r_stop r) (r_session r) (r_cache r) (r_attempt r) (r_active r) (r_controls r) (r_next_id r) (r_queue r) (r_sent r) (r_received r) (r_dropped r) (r_datagrams r) (r_error r).
Definition put_r_stop v (r : Client) : Client :=
  mk_relay_client (r_me r) (r_connected r) (r_authenticated r) v (r_session r) (r_cache r) (r_attempt r) (r_active r) (r_controls r) (r_next_id r) (r_queue r) (r_sent r) (r_received r) (r_dropped r) (r_datagrams r) (r_error r).
Definition put_r_session v (r : Client) : Client :=
  mk_relay_client (r_me r) (r_connected r) (r_authenticated r) (r_stop r) v (r_cache r) (r_attempt r) (r_active r) (r_controls r) (r_next_id r) (r_queue r) (r_sent r) (r_received r) (r_dropped r) (r_datagrams r) (r_error r).
Definition put_r_cache v (r : Client) : Client :=
  mk_relay_client (r_me r) (r_connected r) (r_authenticated r) (r_stop r) (r_session r) v (r_attempt r) (r_active r) (r_controls r) (r_next_id r) (r_queue r) (r_sent r) (r_received r) (r_dropped r) (r_datagrams r) (r_error r).
Definition put_r_attempt v (r : Client) : Client :=
  mk_relay_client (r_me r) (r_connected r) (r_authenticated r) (r_stop r) (r_session r) (r_cache r) v (r_active r) (r_controls r) (r_next_id r) (r_queue r) (r_sent r) (r_received r) (r_dropped r) (r_datagrams r) (r_error r).
Definition put_r_active v (r : Client) : Client :=
  mk_relay_client (r_me r) (r_connected r) (r_authenticated r) (r_stop r) (r_session r) (r_cache r) (r_attempt r) v (r_controls r) (r_next_id r) (r_queue r) (r_sent r) (r_received r) (r_dropped r) (r_datagrams r) (r_error r).
Definition put_r_controls v (r : Client) : Client :=
  mk_relay_client (r_me r) (r_connected r) (r_authenticated r) (r_stop r) (r_session r) (r_cache r) (r_attempt r) (r_active r) v (r_next_id r) (r_queue r) (r_sent r) (r_received r) (r_dropped r) (r_datagrams r) (r_error r).
Definition put_r_next_id v (r : Client) : Client :=
  mk_relay_client (r_me r) (r_connected r) (r_authenticated r) (r_stop r) (r_session r) (r_cache r) (r_attempt r) (r_active r) (r_controls r) v (r_queue r) (r_sent r) (r_received r) (r_dropped r) (r_datagrams r) (r_error r).
Definition put_r_queue v (r : Client) : Client :=
  mk_relay_client (r_me r) (r_connected r) (r_authenticated r) (r_stop r) (r_session r) (r_cache r) (r_attempt r) (r_active r) (r_controls r) (r_next_id r) v (r_sent r) (r_received r) (r_dropped r) (r_datagrams r) (r_error r).
Definition put_r_sent v (r : Client) : Client :=
  mk_relay_client (r_me r) (r_connected r) (r_authenticated r) (r_stop r) (r_session r) (r_cache r) (r_attempt r) (r_active r) (r_controls r) (r_next_id r) (r_queue r) v (r_received r) (r_dropped r) (r_datagrams r) (r_error r).
Definition put_r_received v (r : Client) : Client :=
  mk_relay_client (r_me r) (r_connected r) (r_authenticated r) (r_stop r) (r_session r) (r_cache r) (r_attempt r) (r_active r) (r_controls r) (r_next_id r) (r_queue r) (r_sent r) v (r_dropped r) (r_datagrams r) (r_error r).
Definition put_r_dropped v (r : Client) : Client :=
  mk_relay_client (r_me r) (r_connected r) (r_authenticated r) (r_stop r) (r_session r) (r_cache r) (r_attempt r) (r_active r) (r_controls r) (r_next_id r) (r_queue r) (r_sent r) (r_received r) v (r_datagrams r) (r_error r).
Definition put_r_datagrams v (r : Client) : Client :=
  mk_relay_client (r_me r) (r_connected r) (r_authenticated r) (r_stop r) (r_session r) (r_cache r) (r_attempt r) (r_active r) (r_controls r) (r_next_id r) (r_queue r) (r_sent r) (r_received r) (r_dropped r) v (r_error r).
Definition put_r_error v (r : Client) : Client :=
  mk_relay_client (r_me r) (r_connected r) (r_authenticated r) (r_stop r) (r_session r) (r_cache r) (r_attempt r) (r_active r) (r_controls r) (r_next_id r) (r_queue r) (r_sent r) (r_received r) (r_dropped r) (r_datagrams r) v.

Inductive output := out_frame (f : Frame) | out_datagram (payload : bytes) | out_shutdown | out_tcp_stop | out_event (m : Message).

(** ** Calls *)

Definition M (A : Type) : Type := Client -> result A * Client * list output.
Definition mret {A} (a : A) : M A := fun c => (Ok a, c, []).
Definition mpure {A} (r : result A) : M A := fun c => (r, c, []).
Definition mbind {A B} (m : M A) (k : A -> M B) : M B := fun c =>
  match m c with
  | (Ok a, c, l) => match k a c with (r, c, l') => (r, c, l ++ l') end
  | (Throw e, c, l) => (Throw e, c, l)
  end.
Local Notation "'let!' x := m 'in' k" := (mbind m (fun x => k))
  (at level 10, x name, m at level 100, k at level 200, format "'[v' 'let!'  x  :=  m  'in' '/' k ']'").
Local Notation "m ;; k" := (mbind m (fun _ => k)) (at level 100, right associativity).
Definition mget : M Client := fun c => (Ok c, c, []).
Definition mput (f : Client -> Client) : M unit := fun c => (Ok tt, f c, []).
Definition memit (x : output) : M unit := fun c => (Ok tt, c, [x]).
Definition mthrow {A} (e : exn) : M A := mpure (Throw e).
(** [if (!b) throw]. *)
Definition mcheck (b : bool) : M unit := if b then mret tt else mthrow runtime_error.
(** A critical section of [peer_state_mutex_]. *)
Definition mcache {A} (f : Cache -> result A * Cache) : M A := fun c =>
  match f (r_cache c) with (r, k) => (r, put_r_cache k c, []) end.
Definition on_attempt (f : Attempt -> Attempt) : M unit := mput (fun c => put_r_attempt (f (r_attempt c)) c).
Fixpoint mfor {A} (l : list A) (f : A -> M unit) : M unit :=
  match l with [] => mret tt | x :: l => f x ;; mfor l f end.

Definition bump64 (z : Z) : Z := (z + 1) mod 2 ^ 64.
Definition record_error (message : bytes) : Client -> Client := put_r_error (classify_error message).
Definition clear_peer_states : Client -> Client := put_r_cache empty_cache.
Definition clear_session : Client -> Client := put_r_session None.

(** [fail_pending]: every pending request is finished with a failure. *)
Definition fail_control (p : PendingControl) : PendingControl :=
  mk_control (pc_type p) (pc_operation p) (pc_network p) (pc_id p) (pc_requested p) (pc_response p) true true.
Definition fail_pending (c : Client) : Client :=
  let waiting := map snd (map_to_list (a_pending (r_attempt c))) in
  put_r_attempt (put_a_pending ∅ (r_attempt c))
    (put_r_controls (imap (fun i p => if bool_decide (i ∈ waiting) then fail_control p else p) (r_controls c)) c).

(** The waiter gives up: the request leaves the map and nobody will read its outcome. *)
Definition abandon (l : nat) (id : Z) (c : Client) : Client :=
  put_r_attempt (put_a_pending (delete id (a_pending (r_attempt c))) (r_attempt c))
    (put_r_controls (alter fail_control l (r_controls c)) c).

Section Client.
Context {C : Crypto} {T : TokenMac} {L : Layout}.

(** [send_client_frame], and the sends of packets. *)
Definition transmit (w : World) (f : Frame) : M bool := fun c =>
  let a := r_attempt c in
  if a_tcp a || a_stream a then
    match enqueue f (w_frame w f) (a_sends a) with
    | (ok, s) => (Ok ok, put_r_attempt (put_a_sends s a) c, if ok then [out_frame f] else [])
    end
  else (Ok false, c, []).
Definition transmit_datagram (w : World) (payload : bytes) : M bool := fun c =>
  let a := r_attempt c in
  match send_datagram payload (w_datagram w payload) (a_sends a) with
  | (status, s) =>
      (Ok (quic_succeeded status), put_r_attempt (put_a_sends s a) c, if quic_succeeded status then [out_datagram payload] else [])
  end.

Definition serving (c : Client) : bool := r_authenticated c && negb (r_stop c).
(** The attempt can carry requests and packets. *)
Definition usable (c : Client) : bool :=
  r_active c && a_authenticated (r_attempt c) && (a_stream (r_attempt c) || a_tcp (r_attempt c)) && negb (r_stop c).

(** *** Peer states and keys *)

(** The envelopes for the members with a key; one that cannot be sealed is left out.  [w_nonce] is drawn per member. *)
Fixpoint seal_all (w : World) (secret : bytes) (encryption : bytes) (st : NetworkPeerState) (key : bytes) (i : nat) (l : list NetworkPeer)
    : list NetworkKeyEnvelope :=
  match l with
  | [] => []
  | p :: l =>
      match signed_key p with
      | None => seal_all w secret encryption st key (S i) l
      | Some k =>
          match seal_network_key secret encryption k (peer_device_id p) (state_network_id st) (state_key_epoch st) key (w_nonce w i) with
          | Ok e => e :: seal_all w secret encryption st key (S i) l
          | Throw _ => seal_all w secret encryption st key (S i) l
          end
      end
  end.

Definition apply_peer_state (w : World) (encryption : bytes) (st : NetworkPeerState) : M unit :=
  mpure (verify_peer_keys st) ;;
  mcheck (negb ((state_key_epoch st =? 0) || is_zero (state_owner st))) ;;
  let! c := mget in
  if negb (serving c) then mret tt
  else if outdated st (r_cache c) then mret tt
  else
    let! key := mcache (store_state (me_device (r_me c)) (w_key w) st) in
    match key with
    | None => mret tt
    | Some key =>
        match seal_all w (me_secret (r_me c)) encryption st key 0 (peers st) with
        | [] => mret tt
        | envelopes =>
            let! payload := mpure (encode_network_key_publish_request (mk_publish envelopes)) in
            let! ok := transmit w (mk_frame network_key_publish_request 0 payload) in
            mcheck ok
        end
    end.

(** [others] is what other threads do while the key is opened without the lock. *)
Definition apply_network_key_envelope (others : Client -> Client) (encryption : bytes) (e : NetworkKeyEnvelope) : M unit :=
  let! c := mget in
  if negb (serving c) then mret tt
  else
    let! owner := mpure (envelope_owner_key e (r_cache c)) in
    match owner with
    | None => mret tt
    | Some owner =>
        let! key := mpure (open_network_key encryption e owner (me_device (r_me c))) in
        mput others ;;
        let! c := mget in
        if negb (serving c) then mret tt else mcache (store_key e key)
    end.

Definition apply_peer_revocation (r : NetworkPeerRevocation) : M unit :=
  let! c := mget in
  if negb (serving c) then mret tt else mput (fun c => put_r_cache (revoke r (r_cache c)) c).

(** *** Received packets and events *)

Definition push_event (m : Message) (t : Ticket) (b : BudgetState) (q : EventQueue) : EventQueue :=
  mk_queue (q_events q ++ [(m, t)]) (q_busy q) b.

Definition handle_forwarded_packet (w : World) (payload : bytes) : M unit :=
  let! d := mpure (decode_forwarded_network_packet payload) in
  let! c := mget in
  if negb (receivable (w_now w) d (r_cache c)) then mput (put_r_dropped (bump64 (r_dropped c)))
  else
    let q := r_queue c in
    match reserve (q_budget q) (sizeof_forwarded + len (ciphertext (packet d))) false with
    | (None, b) => mput (fun c => put_r_dropped (bump64 (r_dropped c)) (put_r_queue (mk_queue (q_events q) (q_busy q) b) c))
    | (Some t, b) => mput (fun c => put_r_received (bump64 (r_received c)) (put_r_queue (push_event (packet_message d) t b q) c))
    end.

(** A network event makes room by dropping the oldest entry of the queue. *)
Definition queue_event (e : NetworkEvent) (q : EventQueue) : option EventQueue * EventQueue :=
  match reserve (q_budget q) sizeof_event true with
  | (Some t, b) => (Some (push_event (network_message e) t b q), q)
  | (None, b) =>
      match q_events q with
      | [] => (None, mk_queue [] (q_busy q) b)
      | (_, old) :: rest =>
          match reserve (release b old) sizeof_event true with
          | (Some t, b) => (Some (push_event (network_message e) t b (mk_queue rest (q_busy q) b)), q)
          | (None, b) => (None, mk_queue rest (q_busy q) b)
          end
      end
  end.
Definition handle_event (f : Frame) : M unit :=
  mcheck (request_id f =? 0) ;;
  let! e := mpure (decode_network_event (payload f)) in
  let! c := mget in
  match queue_event e (r_queue c) with
  | (Some q, _) => mput (put_r_queue q)
  | (None, q) => mput (put_r_queue q) ;; mthrow runtime_error
  end.

(** [dispatch_network_events]: the worker takes the first entry and hands it to the handler; its ticket is released
    when the handler is done. *)
Definition dispatch_take : M unit :=
  let! c := mget in
  match q_events (r_queue c), q_busy (r_queue c) with
  | (m, t) :: rest, None => mput (put_r_queue (mk_queue rest (Some t) (q_budget (r_queue c)))) ;; memit (out_event m)
  | _, _ => mret tt
  end.
Definition dispatch_done : M unit :=
  let! c := mget in
  match q_busy (r_queue c) with
  | Some t => mput (put_r_queue (mk_queue (q_events (r_queue c)) None (release (q_budget (r_queue c)) t)))
  | None => mret tt
  end.

(** *** Requests *)

(** [next_request_id_.fetch_add(1)] until the id can be used; [None] is running out of fuel. *)
Fixpoint fresh_id (fuel : nat) (pending : gmap Z nat) (next : Z) : option (Z * Z) :=
  match fuel with
  | O => None
  | S fuel =>
      let after := (next + 1) mod 2 ^ 32 in
      if (next =? 0) || (next =? capability_request_id) || bool_decide (is_Some (pending !! next))
      then fresh_id fuel pending after else Some (next, after)
  end.

(** The part of [request_control] up to the wait: the place of the waiting request. *)
Definition start_request (w : World) (type : MessageType) (payload : bytes) (operation : NetworkOperation) (network : option bytes) (timeout : Z)
    : M nat :=
  (if timeout <=? 0 then mthrow invalid_argument else mret tt) ;;
  let! c := mget in
  mcheck (usable c) ;;
  let pending := a_pending (r_attempt c) in
  match fresh_id (3 + size pending) pending (r_next_id c) with
  | None => mthrow runtime_error
  | Some (id, next) =>
      let l := length (r_controls c) in
      mput (fun c => put_r_attempt (put_a_pending (<[id := l]> pending) (r_attempt c))
             (put_r_controls (r_controls c ++ [mk_control type operation network id (w_now w) None false false]) (put_r_next_id next c))) ;;
      let! ok := transmit w (mk_frame type id payload) in
      if ok then mret l else mput (abandon l id) ;; mthrow runtime_error
  end.

(** The waiter wakes: the answer came, the request failed, or the time is up. *)
Definition finish_request (l : nat) : M Frame :=
  let! c := mget in
  match r_controls c !! l with
  | None => mthrow runtime_error
  | Some p =>
      if negb (pc_finished p) then mput (abandon l (pc_id p)) ;; mthrow runtime_error
      else if pc_failed p then mthrow runtime_error
      else match pc_response p with Some f => mret f | None => mthrow logic_error end
  end.

(** What an answer must be for the request it names; [true] when it reports a failure. *)
Definition check_response (p : PendingControl) (f : Frame) : result bool :=
  let t := type_ f in
  let access := bool_decide (pc_type p = user_access_request) in
  let management := bool_decide (pc_type p = network_management_request) in
  if management && bool_decide (t = network_management_result) then
    let* _ := decode_management_result (payload f) in Ok false
  else if access && bool_decide (t = user_access_result) then
    let* _ := decode_access_result (payload f) in Ok false
  else if bool_decide (t = network_operation_result) && negb access && negb management then
    let* r := decode_network_operation_result (payload f) in
    check! bool_decide (operation r = pc_operation p) else runtime_error in
    check! match pc_network p with Some id => bool_decide (result_network_id r = id) | None => true end else runtime_error in
    Ok false
  else if bool_decide (t = network_list_result) && bool_decide (pc_operation p = op_list) then
    let* _ := decode_network_list_result (payload f) in Ok false
  else if bool_decide (t = network_peer_state_result) && bool_decide (pc_operation p = op_peer_state) then
    let* st := decode_network_peer_state (payload f) in
    let* _ := verify_peer_keys st in
    check! bool_decide (pc_network p = Some (state_network_id st)) else runtime_error in
    Ok false
  else if bool_decide (t = error) then
    check! bool_decide (payload f = []) else runtime_error in Ok true
  else Throw runtime_error.

Definition answer_control (f : Frame) (failed : bool) (p : PendingControl) : PendingControl :=
  mk_control (pc_type p) (pc_operation p) (pc_network p) (pc_id p) (pc_requested p) (Some f) failed true.
Definition handle_response (f : Frame) : M unit :=
  mcheck (negb (request_id f =? 0)) ;;
  let! c := mget in
  match a_pending (r_attempt c) !! request_id f with
  | None => mret tt
  | Some l =>
      match r_controls c !! l with
      | None => mthrow logic_error
      | Some p =>
          let! failed := mpure (check_response p f) in
          mput (fun c => put_r_attempt (put_a_pending (delete (request_id f) (a_pending (r_attempt c))) (r_attempt c))
                 (put_r_controls (<[l := answer_control f failed p]> (r_controls c)) c))
      end
  end.

(** *** Frames *)

Definition handle_capabilities (f : Frame) : M unit :=
  let! selected :=
    (if bool_decide (type_ f = network_list_result) then
       let! s := mpure (decode_capability_selection (payload f)) in
       mcheck ((wire_version s =? protocol_version) && (Z.land (features s) (Z.lnot supported_capabilities) =? 0)) ;; mret s
     else mcheck (bool_decide (type_ f = error) || bool_decide (type_ f = network_operation_result)) ;; mret default_selection) in
  mput (fun c => put_r_cache (set_negotiated selected (r_cache c)) c).

Definition handle_control_frame (w : World) (others : Client -> Client) (f : Frame) : M unit :=
  let! c := mget in
  let t := type_ f in
  let unrequested := request_id f =? 0 in
  if bool_decide (t = peer_candidates_ack) then mcheck (bool_decide (payload f = []))
  else if bool_decide (t = peer_candidates_forward) then
    let! x := mpure (decode_candidates (payload f)) in
    mput (fun c => put_r_cache (keep_candidates (me_device (r_me c)) (request_id f) x (r_cache c)) c)
  else if request_id f =? capability_request_id then handle_capabilities f
  else if bool_decide (t = network_packet_forward) then mcheck unrequested ;; handle_forwarded_packet w (payload f)
  else if bool_decide (t = network_peer_state_update) then
    mcheck unrequested ;;
    let! key := mpure (client_encryption_key (a_handshake (r_attempt c))) in
    let! st := mpure (decode_network_peer_state (payload f)) in
    apply_peer_state w key st
  else if bool_decide (t = network_peer_state_revoked) then
    mcheck unrequested ;; let! r := mpure (decode_network_peer_revocation (payload f)) in apply_peer_revocation r
  else if bool_decide (t = network_key_envelope) then
    mcheck unrequested ;;
    let! key := mpure (client_encryption_key (a_handshake (r_attempt c))) in
    let! e := mpure (decode_network_key_envelope (payload f)) in
    apply_network_key_envelope others key e
  else if unrequested && bool_decide (t = network_operation_result) then
    let! r := mpure (decode_network_operation_result (payload f)) in
    mcheck (bool_decide (operation r = op_key_publish))
  else if bool_decide (t = error) && unrequested then mcheck (bool_decide (payload f = []))
  else if bool_decide (t = network_event) then handle_event f
  else handle_response f.

(** A handshake call on the attempt's own handshake. *)
Definition with_handshake {A} (h : ClientHandshake -> ClientHandshake * result A) : M A := fun c =>
  match h (a_handshake (r_attempt c)) with
  | (h, r) => (r, put_r_attempt (put_a_handshake h (r_attempt c)) c, [])
  end.

Definition shut_down (c : Client) : output := if a_tcp (r_attempt c) then out_tcp_stop else out_shutdown.

(** The authentication frames go out on the stream that was opened, which becomes the control stream only at the end. *)
Definition transmit_auth (w : World) (f : Frame) : M bool := fun c =>
  let a := r_attempt c in
  match enqueue f (w_frame w f) (a_sends a) with
  | (ok, s) => (Ok ok, put_r_attempt (put_a_sends s a) c, if ok then [out_frame f] else [])
  end.

Definition handle_auth_frame (w : World) (f : Frame) : M unit :=
  if bool_decide (type_ f = server_hello) then
    let! reply := with_handshake (handle_challenge f) in
    let! ok := transmit_auth w reply in mcheck ok
  else
    mcheck (bool_decide (type_ f = auth_result)) ;;
    let! accepted := with_handshake (handle_result f) in
    if negb accepted then
      mput (record_error (str "relay authentication rejected")) ;; let! c := mget in memit (shut_down c)
    else
      let! c := mget in
      let h := a_handshake (r_attempt c) in
      match client_session_id h with
      | None => mthrow runtime_error
      | Some session =>
          (if a_tcp (r_attempt c) then mret tt else mcheck (w_settings w)) ;;
          mput (put_r_session (Some session)) ;;
          match client_signed_device_key h with
          | None => mthrow runtime_error
          | Some key =>
              mput (fun c => put_r_cache (set_own_key (Some key) (r_cache c)) c) ;;
              mput (fun c =>
                let a := put_a_session (Some session) (put_a_ever true (r_attempt c)) in
                if negb (r_stop c) && (a_connection a || a_tcp a)
                then put_r_authenticated true (put_r_attempt (put_a_authenticated true (put_a_stream (negb (a_tcp a)) a)) c)
                else put_r_attempt a c) ;;
              if me_negotiates (r_me c) then
                let! offer := mpure (encode_capability_offer default_offer) in
                let! ok := transmit w (mk_frame network_list_request capability_request_id offer) in mcheck ok
              else mret tt
          end
      end.

Definition handle_frame (w : World) (others : Client -> Client) (f : Frame) : M unit :=
  let! c := mget in
  if client_authenticated (a_handshake (r_attempt c)) then handle_control_frame w others f else handle_auth_frame w f.

(** *** Callbacks *)

(** [push] never runs out of fuel. *)
Definition decode_bytes (bs : bytes) : M (list Frame) := fun c =>
  match default (Throw runtime_error, a_decoder (r_attempt c)) (push (a_decoder (r_attempt c)) bs) with
  | (r, d) => (r, put_r_attempt (put_a_decoder d (r_attempt c)) c, [])
  end.
(** An exception shuts the connection down. *)
Definition or_shut_down (m : M unit) : M unit := fun c =>
  match m c with (Ok _, c, l) => (Ok tt, c, l) | (Throw _, c, l) => (Ok tt, c, l ++ [out_shutdown]) end.

(** QUIC_STREAM_EVENT_RECEIVE, one buffer. *)
Definition on_stream_receive (w : World) (others : Client -> Client) (bs : bytes) : M unit :=
  let! c := mget in
  if negb (client_authenticated (a_handshake (r_attempt c))) && (w_now w >=? a_deadline (r_attempt c)) then memit out_shutdown
  else or_shut_down (let! frames := decode_bytes bs in mfor frames (handle_frame w others)).

(** QUIC_STREAM_EVENT_SHUTDOWN_COMPLETE of the control stream. *)
Definition on_stream_closed : M unit :=
  let! c := mget in
  if a_stream (r_attempt c) then
    on_attempt (fun a => put_a_authenticated false (put_a_stream false a)) ;;
    mput (fun c => fail_pending (clear_peer_states (put_r_authenticated false c)))
  else mret tt.

Definition disconnected (c : Client) : Client :=
  clear_peer_states (clear_session (put_r_authenticated false (put_r_connected false c))).

(** SHUTDOWN_INITIATED_BY_TRANSPORT and _BY_PEER. *)
Definition on_shutdown_initiated (message : bytes) : M unit :=
  mput (record_error message) ;; mput disconnected ;;
  on_attempt (fun a => put_a_authenticated false (put_a_stream false a)) ;; mput fail_pending.

(** SHUTDOWN_COMPLETE of the connection. *)
Definition on_shutdown_complete : M unit :=
  mput disconnected ;;
  on_attempt (fun a => put_a_connection false (put_a_stream false (put_a_authenticated false (put_a_datagram 0 (put_a_session None a))))) ;;
  mput fail_pending ;; on_attempt (put_a_complete true) ;; mput (put_r_active false).

Definition on_datagram_state (enabled : bool) (length : Z) : M unit := on_attempt (put_a_datagram (if enabled then length else 0)).
Definition on_datagram_received (w : World) (payload : bytes) : M unit := fun c =>
  if negb (a_authenticated (r_attempt c)) || r_stop c then (Ok tt, c, [])
  else match handle_forwarded_packet w payload c with
       | (Ok _, c, l) => (Ok tt, put_r_datagrams (bump64 (r_datagrams c)) c, l)
       | (Throw _, c, l) => (Ok tt, c, l)
       end.
Definition on_send_complete (i : nat) : M unit := on_attempt (fun a => put_a_sends (complete_send i (a_sends a)) a).

(** CONNECTED: [open_control_stream] starts the handshake. *)
Definition open_control_stream (w : World) : M unit :=
  let! c := mget in
  let me := r_me c in
  match w_secret w with
  | None => mthrow runtime_error
  | Some secret =>
      if negb (w_open w) then memit out_shutdown
      else
        on_attempt (fun a => put_a_deadline (w_now w + me_auth_timeout me) (put_a_decoder (mk_decoder [] 0)
          (put_a_handshake (new_client (me_secret me) (me_token me) secret) a))) ;;
        let! hello := with_handshake (begin_handshake 1 (w_hello w)) in
        let! ok := transmit_auth w hello in
        if ok then mret tt else memit out_shutdown
  end.
Definition on_connected (w : World) : M unit :=
  on_attempt (put_a_quic true) ;;
  mput (fun c => clear_peer_states (clear_session (put_r_authenticated false (put_r_connected true c)))) ;;
  open_control_stream w.

(** *** Attempts *)

Definition fresh_attempt (sends : Sends) (tcp connection : bool) (h : ClientHandshake) (deadline : Z) : Attempt :=
  mk_attempt connection tcp false false false false false false 0 None ∅ sends h deadline (mk_decoder [] 0).
Definition no_handshake : ClientHandshake := close_client (new_client [] [] []).

(** What MsQuic makes of a new connection. *)
Inductive Start := open_failed (message : bytes) | start_failed (message : bytes) | started.

(** A new attempt begins when the last one is over. *)
Definition idle (c : Client) : bool := negb (r_active c) && bool_decide (a_pending (r_attempt c) = ∅).
Definition start_attempt (s : Start) (sends : Sends) : M unit :=
  let! c := mget in
  mcheck (idle c) ;;
  let over := put_a_complete true (fresh_attempt sends false false no_handshake 0) in
  match s with
  | open_failed message => mput (put_r_attempt over) ;; mput (record_error message)
  | start_failed message => mput (put_r_attempt over) ;; (if r_stop c then mret tt else mput (record_error message))
  | started => if r_stop c then mput (put_r_attempt over) else mput (fun c => put_r_active true (put_r_attempt (fresh_attempt sends false true no_handshake 0) c))
  end.

(** [run_tcp_attempt] up to the loop over the frames of the channel. *)
Definition start_tcp (w : World) (sends : Sends) : M unit :=
  let! c := mget in
  mcheck (idle c) ;;
  if r_stop c then mret tt
  else
    let me := r_me c in
    match w_secret w with
    | None => mthrow runtime_error
    | Some secret =>
        mput (fun c => put_r_connected true (put_r_active true
          (put_r_attempt (fresh_attempt sends true false (new_client (me_secret me) (me_token me) secret) (w_now w + me_auth_timeout me)) c))) ;;
        let! hello := with_handshake (begin_handshake 1 (w_hello w)) in
        let! ok := transmit_auth w hello in mcheck ok
    end.
(** ... and after it; [failure] is the error that is recorded, if any. *)
Definition finish_tcp (failure : option bytes) : M unit :=
  match failure with Some message => mput (record_error message) | None => mret tt end ;;
  mput (fun c => fail_pending (put_r_attempt (put_a_tcp false (put_a_authenticated false (r_attempt c))) c)) ;;
  mput disconnected ;; mput (put_r_active false).

Definition run_begins : M unit :=
  mput (fun c => clear_peer_states (put_r_error no_error (put_r_authenticated false (put_r_connected false (put_r_stop false c))))).
Definition finish_run : M unit := mput disconnected.

Definition stop : M unit :=
  mput (put_r_stop true) ;;
  let! c := mget in
  (if r_active c then
     on_attempt (put_a_authenticated false) ;; mput fail_pending ;;
     (if a_tcp (r_attempt c) then memit out_tcp_stop else mret tt) ;;
     (if a_connection (r_attempt c) && negb (a_shutdown (r_attempt c))
      then on_attempt (put_a_shutdown true) ;; memit out_shutdown else mret tt)
   else mret tt) ;;
  mput clear_peer_states.

(** *** Calls of the application *)

Definition send_encrypted_packet (w : World) (p : EncryptedNetworkPacket) : M unit :=
  let! payload := mpure (encode_encrypted_network_packet p) in
  let! c := mget in
  mcheck (sendable (w_now w) p (r_cache c)) ;;
  mcheck (usable c) ;;
  let a := r_attempt c in
  let! ok :=
    (if negb (a_tcp a) && negb (a_datagram a =? 0) && (len payload <=? a_datagram a)
     then transmit_datagram w payload
     else transmit w (mk_frame network_packet_send 0 payload)) in
  if ok then mput (fun c => put_r_sent (bump64 (r_sent c)) c)
  else
    mput (fun c => record_error (str "encrypted packet send queue full") (put_r_dropped (bump64 (r_dropped c)) c)) ;;
    mthrow runtime_error.

Definition publish_peer_candidates (w : World) (x : CandidateExchange) : M bool :=
  let! c := mget in
  if negb (supports (negotiated_ (r_cache c)) peer_candidates) then mret false
  else
    let! payload := mpure (encode_candidates x) in
    if negb (r_active c) || negb (a_authenticated (r_attempt c)) || r_stop c then mret false
    else transmit w (mk_frame peer_candidates_send 0 payload).
Definition take_peer_candidates : M (list CandidateExchange) := fun c =>
  (Ok (candidate_inbox_ (r_cache c)), put_r_cache (set_inbox [] (r_cache c)) c, []).

Definition cached_packet_identity (c : Client) : option PacketIdentitySnapshot :=
  match own_signed_key_ (r_cache c) with
  | Some k => if r_authenticated c then Some (mk_identity (me_device (r_me c)) k) else None
  | None => None
  end.

(** The requests of the public interface. *)
Inductive Call :=
| call_manage (q : ManagementRequest) | call_access (q : AccessRequest) | call_create (name : bytes) | call_list
| call_join (id : bytes) | call_leave (id : bytes) | call_invite (id device : bytes) | call_approve (id device : bytes)
| call_kick (id device : bytes) | call_fetch (id : bytes).

Definition required_capability (a : AccessAction) : Capability :=
  let v := action_value a in
  if (action_value act_invite_issue <=? v) && (v <=? action_value act_invite_revoke) then invitation_codes
  else if v >=? action_value act_password_set then password_networks else user_accounts.

Definition request_of (k : Cache) (call : Call) : result (MessageType * bytes * NetworkOperation * option bytes) :=
  let simple := fun t r op => let* p := r in Ok (t, p, op, None) in
  match call with
  | call_manage q =>
      check! supports (negotiated_ k) managed_networks else runtime_error in
      simple network_management_request (encode_management_request q) op_list
  | call_access q =>
      check! supports (negotiated_ k) (required_capability (ar_action q)) else runtime_error in
      simple user_access_request (encode_access_request q) op_list
  | call_create name => simple network_create_request (encode_network_create_request (mk_create name)) op_create
  | call_list => simple network_list_request encode_network_list_request op_list
  | call_join id => simple network_join_request (encode_network_selection_request (mk_network_selection id)) op_join
  | call_leave id => simple network_leave_request (encode_network_selection_request (mk_network_selection id)) op_leave
  | call_invite id d => simple network_invite_request (encode_network_member_request (mk_member_request id d)) op_invite
  | call_approve id d => simple network_approve_request (encode_network_member_request (mk_member_request id d)) op_approve
  | call_kick id d => simple network_kick_request (encode_network_member_request (mk_member_request id d)) op_kick
  | call_fetch id =>
      let* p := encode_network_selection_request (mk_network_selection id) in
      Ok (network_peer_state_request, p, op_peer_state, Some id)
  end.

Definition start_call (w : World) (call : Call) (timeout : Z) : M nat :=
  let! c := mget in
  let! q := mpure (request_of (r_cache c) call) in
  match q with (type, payload, operation, network) => start_request w type payload operation network timeout end.

Inductive Reply :=
| reply_management (r : ManagementResult) | reply_access (r : AccessResult) | reply_operation (r : NetworkOperationResult)
| reply_list (c : NetworkResultCode) (r : NetworkListResult) | reply_state (c : NetworkResultCode) (st : option NetworkPeerState).

(** What the caller makes of the answer; a fetched state renews the lease of the cached one it confirms. *)
Definition finish_call (l : nat) (call : Call) : M Reply :=
  let! before := mget in
  let requested := match r_controls before !! l with Some p => pc_requested p | None => 0 end in
  let! f := finish_request l in
  match call with
  | call_manage q =>
      let! r := mpure (decode_management_result (payload f)) in
      mcheck (bool_decide (ms_action r = mq_action q) && bool_decide (ms_network_id r = mq_network_id q)) ;; mret (reply_management r)
  | call_access q =>
      let! r := mpure (decode_access_result (payload f)) in
      mcheck (bool_decide (as_action r = ar_action q)) ;; mret (reply_access r)
  | call_list =>
      if bool_decide (type_ f = network_list_result) then
        let! r := mpure (decode_network_list_result (payload f)) in mret (reply_list success r)
      else let! r := mpure (decode_network_operation_result (payload f)) in mret (reply_list (code r) (mk_list_result []))
  | call_fetch id =>
      if bool_decide (type_ f = network_peer_state_result) then
        let! st := mpure (decode_network_peer_state (payload f)) in
        mpure (verify_peer_keys st) ;;
        mput (fun c => put_r_cache (renew_lease st id requested (r_cache c)) c) ;;
        mret (reply_state success (Some st))
      else let! r := mpure (decode_network_operation_result (payload f)) in mret (reply_state (code r) None)
  | _ => let! r := mpure (decode_network_operation_result (payload f)) in mret (reply_operation r)
  end.
End Client.
