(* ===== verification/ClientSafety.v ===== *)
(** * Safety of the relay client

    The invariant of [RelayClient]'s state, its preservation by every callback and call in any order, and what
    follows for the networks, keys and policies a client acts on. *)
From S2P Require Import Limits Candidates Capabilities QuicSend PathDiagnostics UserAccess NetworkManagement Handshake.
From S2P Require Import Prelude Codec StreamDecoder Ipv4 NetworkPolicy NetworkMessages PacketMessages Crypto RelayStore RoutedNetwork ClientCache RelayClient.

Local Notation "'let!' x := m 'in' k" := (mbind m (fun x => k))
  (at level 10, x name, m at level 100, k at level 200, format "'[v' 'let!'  x  :=  m  'in' '/' k ']'").
Local Notation "m ;; k" := (mbind m (fun _ => k)) (at level 100, right associativity).

Section Safety.
Context {C : Crypto} {T : TokenMac} {L : Layout} {LL : LayoutLaws L}.

(** ** The invariant *)

Definition tickets_of (q : EventQueue) : list Ticket := option_list (q_busy q) ++ map snd (q_events q).
Definition queue_ok (q : EventQueue) : Prop :=
  exists ts, Permutation ts (tickets_of q) /\ budget_reach default_queue_limits (q_budget q) ts.

(** A request that was answered holds an answer that fits it. *)
Record control_ok (p : PendingControl) : Prop := mk_control_ok {
  co_requested : 0 <= pc_requested p;
  co_answer : pc_finished p = true -> pc_failed p = false ->
    exists f, pc_response p = Some f /\ request_id f = pc_id p /\ check_response p f = Ok false }.

(** The relay confirmed this state in answer to a request sent at that time. *)
Definition confirmed (controls : list PendingControl) (id : bytes) (t : Z) (st : NetworkPeerState) : Prop :=
  exists l p f, controls !! l = Some p /\ pc_network p = Some id /\ pc_requested p = t /\ pc_finished p = true /\ pc_failed p = false /\
    pc_response p = Some f /\ type_ f = network_peer_state_result /\ decode_network_peer_state (payload f) = Ok st.

(** [on] is whether the client serves: one that does not knows no network and holds no key. *)
Record parts_ok (on : bool) (k : Cache) (pending : gmap Z nat) (sends : Sends) (controls : list PendingControl) (q : EventQueue) : Prop := mk_parts_ok {
  po_cache : cache_ok k;
  po_quiet : on = false -> peer_states_ k = ∅ /\ peer_revisions_ k = ∅;
  po_pending : forall id l, pending !! id = Some l -> exists p, controls !! l = Some p /\ pc_id p = id /\ pc_finished p = false;
  po_waiting : forall l p, controls !! l = Some p -> pc_finished p = false -> pending !! pc_id p = Some l;
  po_controls : Forall control_ok controls;
  po_leases : forall id t st, policy_leases_ k !! id = Some t -> peer_states_ k !! id = Some st -> has_policy st = true -> confirmed controls id t st;
  po_sends : sends_ok default_queue_limits sends;
  po_queue : queue_ok q }.
Definition client_ok (c : Client) : Prop :=
  parts_ok (serving c) (r_cache c) (a_pending (r_attempt c)) (a_sends (r_attempt c)) (r_controls c) (r_queue c).

(** ** Reasoning about calls *)

(** A relation between the states before and after a call. *)
Class Course (R : Client -> Client -> Prop) := {
  course_refl : forall c, R c c;
  course_trans : forall c1 c2 c3, client_ok c2 -> client_ok c3 -> R c1 c2 -> R c2 c3 -> R c1 c3 }.

(** Within a session: a client that serves afterwards served before, and nothing it knows was taken back; the keys it
    has are the ones it had and those of [source]. *)
Definition KeySource : Type := bytes -> NetworkKeySnapshot -> Prop.
Record within (source : KeySource) (c c' : Client) : Prop := mk_within {
  wi_me : r_me c' = r_me c;
  wi_serving : serving c' = true -> serving c = true /\ advances (r_cache c) (r_cache c');
  wi_keys : keys_kept (r_cache c) (r_cache c') source }.
#[local] Instance within_course source : Course (within source).
Proof.
  split.
  - intros c. split; [done|intros H; split; [done|apply cache_advances_refl]|]. intros id k H. by left.
  - intros c1 c2 c3 O2 O3 [E1 S1 K1] [E2 S2 K2]. split; [congruence| |].
    + intros H. destruct (S2 H) as [H2 A2]. destruct (S1 H2) as [H1 A1]. split; [done|].
      apply (cache_advances_trans _ (r_cache c2)); [apply O2|apply O3|done|done].
    + intros id k H. destruct (K2 id k H) as [H2|]; [|by right]. by apply K1.
Qed.
#[local] Hint Resolve within_course : core.

Definition runs {A} (R : Client -> Client -> Prop) (c : Client) (m : M A) : Prop :=
  forall r c' l, m c = (r, c', l) -> client_ok c' /\ R c c'.

Lemma runs_pure {A} R `{!Course R} c (r : result A) : client_ok c -> runs R c (mpure r).
Proof. intros O r' c' l [= <- <- <-]. split; [done|apply course_refl]. Qed.
Lemma runs_ret {A} R `{!Course R} c (a : A) : client_ok c -> runs R c (mret a).
Proof. apply runs_pure, _. Qed.
Lemma runs_check R `{!Course R} c b : client_ok c -> runs R c (mcheck b).
Proof. intros O. unfold mcheck. destruct b; by apply runs_pure. Qed.
Lemma runs_emit R `{!Course R} c x : client_ok c -> runs R c (memit x).
Proof. intros O r c' l [= <- <- <-]. split; [done|apply course_refl]. Qed.
Lemma runs_put R c f : client_ok (f c) -> R c (f c) -> runs R c (mput f).
Proof. intros O Rc r c' l [= <- <- <-]. done. Qed.
Lemma runs_bind {A B} R `{!Course R} c (m : M A) (k : A -> M B) :
  runs R c m -> (forall a c1 l, m c = (Ok a, c1, l) -> client_ok c1 -> runs R c1 (k a)) -> runs R c (mbind m k).
Proof.
  intros Hm Hk r c' l. unfold mbind. destruct (m c) as [[[a|e] c1] l1] eqn:E.
  - destruct (Hm _ _ _ E) as [O1 R1]. destruct (k a c1) as [[r2 c2] l2] eqn:E2. intros [= <- <- <-].
    destruct (Hk a c1 l1 eq_refl O1 _ _ _ E2) as [O2 R2]. split; [done|]. by apply (course_trans c c1 c2).
  - intros [= <- <- <-]. by apply (Hm _ _ _ E).
Qed.
Lemma runs_get {A} R `{!Course R} c (k : Client -> M A) : runs R c (k c) -> runs R c (mbind mget k).
Proof.
  intros H r c' l. unfold mbind, mget. destruct (k c c) as [[r2 c2] l2] eqn:E. intros [= <- <- <-]. by apply (H _ _ _ E).
Qed.
(** After a part that leaves the state alone. *)
Lemma runs_then {A B} R `{!Course R} c (r : result A) (k : A -> M B) :
  client_ok c -> (forall a, r = Ok a -> runs R c (k a)) -> runs R c (mbind (mpure r) k).
Proof.
  intros O H. apply runs_bind; [done|by apply runs_pure|]. intros a c1 l [= -> <- <-] _. by apply H.
Qed.
Lemma runs_guard {B} R `{!Course R} c b (k : M B) : client_ok c -> (b = true -> runs R c k) -> runs R c (mcheck b ;; k).
Proof. intros O H. unfold mcheck. destruct b; (apply runs_then; [done|done|]); [intros _ _; by apply H|done]. Qed.
(** Changes of fields the invariant does not speak of. *)
Lemma ok_same c c' : serving c' = serving c -> r_cache c' = r_cache c -> a_pending (r_attempt c') = a_pending (r_attempt c) ->
  a_sends (r_attempt c') = a_sends (r_attempt c) -> r_controls c' = r_controls c -> r_queue c' = r_queue c -> client_ok c -> client_ok c'.
Proof. unfold client_ok. by intros -> -> -> -> -> ->. Qed.
Lemma within_same source c c' : r_cache c' = r_cache c -> r_me c' = r_me c -> serving c' = serving c -> within source c c'.
Proof. intros E M S. split; [done| |]; rewrite ?E, ?S; [intros H; split; [done|apply cache_advances_refl]|]. intros id k H. by left. Qed.
(** A change of the cache alone, made while serving. *)
Lemma within_cache source c k : advances (r_cache c) k -> keys_kept (r_cache c) k source -> within source c (put_r_cache k c).
Proof. by split. Qed.
Lemma ok_sends c s : client_ok c -> sends_ok default_queue_limits s -> client_ok (put_r_attempt (put_a_sends s (r_attempt c)) c).
Proof. intros [] Hs. by split. Qed.
Lemma ok_queue c q : client_ok c -> queue_ok q -> client_ok (put_r_queue q c).
Proof. intros [] Hs. by split. Qed.

(** A cache whose leases are still confirmed. *)
Lemma ok_cache c k : client_ok c -> cache_ok k -> (serving c = false -> peer_states_ k = ∅ /\ peer_revisions_ k = ∅) ->
  (forall id t st, policy_leases_ k !! id = Some t -> peer_states_ k !! id = Some st -> has_policy st = true -> confirmed (r_controls c) id t st) ->
  client_ok (put_r_cache k c).
Proof. intros [] K Q Hl. by split. Qed.
Lemma ok_cleared c : client_ok c -> client_ok (clear_peer_states c).
Proof. intros O. apply ok_cache; [done|apply empty_cache_ok|done|]. intros id t st H. cbn in H. by rewrite lookup_empty in H. Qed.

Lemma enqueue_ok l f open s : sends_ok l s -> sends_ok l (snd (enqueue f open s)).
Proof. intros O. unfold enqueue. pose proof (send_frame_ok l f open s O). by destruct (send_frame f open s). Qed.

Lemma runs_transmit R `{!Course R} c w f : client_ok c -> (forall s, R c (put_r_attempt (put_a_sends s (r_attempt c)) c)) -> runs R c (transmit w f).
Proof.
  intros O Hs r c' l. unfold transmit. destruct (_ || _); [|intros [= <- <- <-]; split; [done|apply course_refl]].
  pose proof (enqueue_ok default_queue_limits f (w_frame w f) _ (po_sends _ _ _ _ _ _ O)) as S.
  destruct (enqueue _ _ _) as [ok s]. intros [= <- <- <-]. split; [by apply ok_sends|apply Hs].
Qed.
Lemma runs_transmit_auth R `{!Course R} c w f : client_ok c -> (forall s, R c (put_r_attempt (put_a_sends s (r_attempt c)) c)) -> runs R c (transmit_auth w f).
Proof.
  intros O Hs r c' l. unfold transmit_auth.
  pose proof (enqueue_ok default_queue_limits f (w_frame w f) _ (po_sends _ _ _ _ _ _ O)) as S.
  destruct (enqueue _ _ _) as [ok s]. intros [= <- <- <-]. split; [by apply ok_sends|apply Hs].
Qed.

(** ** Peer states and keys *)

(** A key this device drew for a network it owns; a key the network's owner sealed for it, opened with the verified key
    of the owner. *)
Definition drawn (w : World) (me : bytes) (st : NetworkPeerState) : KeySource := fun id k =>
  id = state_network_id st /\ state_owner st = me /\ ks_epoch k = state_key_epoch st /\ w_key w = Some (ks_key k).
Definition from_owner (e : NetworkKeyEnvelope) (st : NetworkPeerState) (c : Client) : Prop :=
  peer_states_ (r_cache c) !! env_network_id e = Some st /\ state_key_epoch st = env_epoch e /\ state_owner st = env_owner e.
(** The client opens the envelope in [c] and stores the key in [c']: in both the cached network has the envelope's sender
    as its owner, and the key it is opened with is the one the cached state lists for that owner. *)
Definition opened (encryption me : bytes) (c c' : Client) (e : NetworkKeyEnvelope) : KeySource := fun id k =>
  id = env_network_id e /\ ks_epoch k = env_epoch e /\
  (exists st p owner, from_owner e st c /\ In p (peers st) /\ peer_device_id p = state_owner st /\ signed_key p = Some owner /\
     verify_signed_device_key owner (state_owner st) = Ok true /\ open_network_key encryption e owner me = Ok (ks_key k)) /\
  exists st, from_owner e st c'.
Definition allows (source new : KeySource) : Prop := forall id k, new id k -> source id k.

Lemma runs_apply_peer_state source c w key st : client_ok c -> allows source (drawn w (me_device (r_me c)) st) ->
  runs (within source) c (apply_peer_state w key st).
Proof.
  intros O Al. unfold apply_peer_state. apply runs_then; [done|done|]. intros [] V. apply runs_guard; [done|done|]. intros G.
  apply runs_get; [done|]. destruct (serving c) eqn:Sv; cbn [negb]; [|by apply runs_ret]. destruct (outdated st (r_cache c)) eqn:Od; [by apply runs_ret|].
  assert (So : state_ok st) by (bool_prop; split; [done..|by apply verify_peer_keys_ok]).
  apply runs_bind; [done| |].
  - intros r c' l. unfold mcache. destruct (store_state_spec (me_device (r_me c)) (w_key w) st (r_cache c)) as [(k & k' & E & S) | E]; rewrite E;
      intros [= <- <- <-].
    + destruct (stored_ok _ _ _ _ _ _ (po_cache _ _ _ _ _ _ O) So Od S) as [K A]. split; [apply ok_cache; [done|done|congruence|]|apply within_cache; [done|]].
      * intros id t st' Hl Hs P. apply (sd_leases _ _ _ _ _ _ S) in Hl as [Hl Y]. rewrite (sd_states _ _ _ _ _ _ S) in Hs.
        destruct (decide (id = state_network_id st)) as [->|N].
        -- rewrite lookup_insert_eq in Hs. injection Hs as <-. apply (po_leases _ _ _ _ _ _ O); auto.
        -- rewrite lookup_insert_ne in Hs by done. by apply (po_leases _ _ _ _ _ _ O).
      * intros id k0 Hk. destruct (sd_keys _ _ _ _ _ _ S id k0 Hk) as [Ee [Old|(-> & Me & Dr & _)]]; [by left|]. right. apply Al. split; [done|]. auto.
    + split; [|apply within_cache; [by apply advances_same|]].
      * apply ok_cache; [done|apply drop_ok, O|congruence|]. intros id t st' Hl Hs P. by apply (po_leases _ _ _ _ _ _ O).
      * intros id k0 Hk. apply drop_old_key_lookup in Hk as [Hk _]. by left.
  - intros k c1 l _ O1. destruct k as [k|]; [|by apply runs_ret]. destruct (seal_all _ _ _ _ _ _ _) as [|e es]; [by apply runs_ret|].
    apply runs_then; [done|done|]. intros p _. apply runs_bind; [done|apply runs_transmit; [done|done|intros s; by apply within_same]|].
    intros ok c2 l2 _ O2. by apply runs_check.
Qed.

(** What other threads do meanwhile. *)
Definition lawful (source : KeySource) (others : Client -> Client) : Prop :=
  forall c, client_ok c -> client_ok (others c) /\ within source c (others c).

Lemma envelope_from_owner e st c : envelope_state e (r_cache c) = Some st <-> from_owner e st c.
Proof.
  unfold envelope_state, from_owner. destruct (peer_states_ _ !! _) as [st'|]; [|split; [done|by intros [? _]]].
  destruct (state_key_epoch st' =? env_epoch e) eqn:E; cbn [negb orb]; bool_prop; [|split; [done|by intros ([= <-] & X & _)]].
  destruct (bool_decide_reflect (state_owner st' = env_owner e)); cbn [negb]; (split; [intros [= <-]; done|by intros ([= <-] & _ & X)]).
Qed.
Lemma envelope_owner_verified e c owner : cache_ok (r_cache c) -> envelope_owner_key e (r_cache c) = Ok (Some owner) ->
  exists st p, from_owner e st c /\ In p (peers st) /\ peer_device_id p = state_owner st /\ signed_key p = Some owner /\
    verify_signed_device_key owner (state_owner st) = Ok true.
Proof.
  intros O. unfold envelope_owner_key. destruct (envelope_state _ _) as [st|] eqn:E; [|done]. apply envelope_from_owner in E.
  destruct (List.find _ _) as [p|] eqn:F; [|done]. apply List.find_some in F as [I D]. bool_prop.
  destruct (signed_key p) as [s|] eqn:Sk; [|done]. intros [= ->]. pose proof E as (Es & _ & Eo). destruct (ck_states _ O _ _ Es) as (_ & _ & [_ _ Vp]).
  rewrite List.Forall_forall in Vp. exists st, p. rewrite Eo. split_and!; try done. rewrite <- D. by apply (Vp p I).
Qed.

Lemma runs_apply_key source c others key e : lawful source others -> client_ok c -> allows source (opened key (me_device (r_me c)) c (others c) e) ->
  runs (within source) c (apply_network_key_envelope others key e).
Proof.
  intros W O Al. unfold apply_network_key_envelope. apply runs_get; [done|]. destruct (serving c) eqn:Sv; cbn [negb]; [|by apply runs_ret].
  apply runs_then; [done|done|]. intros [owner|] Ow; [|by apply runs_ret]. apply runs_then; [done|done|]. intros k Op.
  apply runs_bind; [done|by apply runs_put; apply W|]. intros [] c1 l [= <- <-] O1. apply runs_get; [done|].
  destruct (serving (others c)) eqn:Sv1; cbn [negb]; [|by apply runs_ret]. intros r c' l'. unfold mcache.
  destruct (store_key e k (r_cache (others c))) as [r1 k1] eqn:E. intros [= <- <- <-].
  destruct (store_key_spec _ _ _ _ _ (po_cache _ _ _ _ _ _ O1) E) as (K & S1 & S2 & S3 & _ & S4).
  split; [|apply within_cache; [by apply advances_same|]].
  - apply ok_cache; [done|done|congruence|]. intros id t st. rewrite S1, S3. apply (po_leases _ _ _ _ _ _ O1).
  - intros id k0 Hk. destruct (S4 id k0 Hk) as [|(-> & -> & [st1 E1] & _)]; [by left|]. right. apply Al. split; [done|]. split; [done|].
    destruct (envelope_owner_verified e c owner (po_cache _ _ _ _ _ _ O) Ow) as (st & p & F & I & D & Sk & V). split; [by exists st, p, owner|].
    exists st1. by apply envelope_from_owner.
Qed.

Lemma runs_revocation source c r : client_ok c -> runs (within source) c (apply_peer_revocation r).
Proof.
  intros O. unfold apply_peer_revocation. apply runs_get; [done|]. destruct (serving c) eqn:Sv; cbn [negb]; [|by apply runs_ret].
  destruct (revoke_spec r _ (po_cache _ _ _ _ _ _ O)) as (K & A & Ks & S & Le & _). apply runs_put.
  - apply ok_cache; [done|done|congruence|]. intros id t st Hl Hs. apply (po_leases _ _ _ _ _ _ O); [by eapply lookup_weaken|by eapply lookup_weaken].
  - apply within_cache; [done|]. intros id k H. left. by eapply lookup_weaken.
Qed.

(** ** The event queue *)

Lemma queue_room q size control : word 8 size -> queue_ok q ->
  match reserve (q_budget q) size control with
  | (Some t, b) => forall m, queue_ok (push_event m t b q)
  | (None, b) => queue_ok (mk_queue (q_events q) (q_busy q) b)
  end.
Proof.
  intros W (ts & P & R). destruct (reserve _ _ _) as [[t|] b] eqn:E.
  - intros m. exists (t :: ts). split; [|by eapply br_reserve]. unfold push_event, tickets_of in *. cbn. rewrite map_app, P. cbn.
    rewrite app_assoc. by rewrite (Permutation_app_comm _ [t]).
  - exists ts. split; [done|by eapply br_reject].
Qed.

Lemma queue_pop q m t rest : q_events q = (m, t) :: rest -> queue_ok q -> forall b, b = release (q_budget q) t -> queue_ok (mk_queue rest (q_busy q) b).
Proof.
  intros E (ts & P & R) b ->. exists (tickets_of (mk_queue rest (q_busy q) (q_budget q))). split; [done|].
  apply (br_release _ _ ts); [done|]. rewrite P. unfold tickets_of. rewrite E. cbn. by rewrite Permutation_middle.
Qed.

Lemma word8_event : word 8 sizeof_event.
Proof. pose proof event_fits. words. lia. Qed.

Lemma queue_event_ok e q : queue_ok q -> match queue_event e q with (Some q', _) => queue_ok q' | (None, q') => queue_ok q' end.
Proof.
  intros O. unfold queue_event. pose proof (queue_room q _ true word8_event O) as H.
  destruct (reserve (q_budget q) sizeof_event true) as [[t|] b]; [apply H|].
  destruct (q_events q) as [|[m old] rest] eqn:E; [done|].
  pose proof (queue_pop (mk_queue ((m, old) :: rest) (q_busy q) b) m old rest eq_refl H _ eq_refl) as H2. cbn in H2.
  pose proof (queue_room _ _ true word8_event H2) as H3. cbn in H3. destruct (reserve (release b old) sizeof_event true) as [[t|] b2]; [apply H3|done].
Qed.

Lemma forwarded_size payload d : decode_forwarded_network_packet payload = Ok d -> word 8 (sizeof_forwarded + len (ciphertext (packet d))).
Proof.
  intros H. apply forwarded_packet_exact in H as [_ H]. unfold encode_forwarded_network_packet in H. ok_inv H.
  match goal with E : encode_encrypted_network_packet _ = Ok _ |- _ => apply encode_encrypted_inv in E as [V _] end.
  pose proof (valid_packet_ciphertext _ V).
  pose proof forwarded_fits. pose proof (len_nonneg (ciphertext (packet d))). words. unfold max_virtual_ipv4_packet_size in *. lia.
Qed.

Lemma runs_forwarded source c w payload : client_ok c -> runs (within source) c (handle_forwarded_packet w payload).
Proof.
  intros O. unfold handle_forwarded_packet. apply runs_then; [done|done|]. intros d D. apply runs_get; [done|].
  destruct (receivable _ _ _); cbn [negb]; [|by apply runs_put; [|apply within_same]].
  pose proof (queue_room _ _ false (forwarded_size _ _ D) (po_queue _ _ _ _ _ _ O)) as Q.
  destruct (reserve _ _ _) as [[t|] b]; (apply runs_put; [|by apply within_same]).
  - apply (ok_same (put_r_queue (push_event (packet_message d) t b (r_queue c)) c)); try done. by apply ok_queue.
  - apply (ok_same (put_r_queue (mk_queue (q_events (r_queue c)) (q_busy (r_queue c)) b) c)); try done. by apply ok_queue.
Qed.

Lemma runs_event source c f : client_ok c -> runs (within source) c (handle_event f).
Proof.
  intros O. unfold handle_event. apply runs_guard; [done|done|]. intros _. apply runs_then; [done|done|]. intros e _. apply runs_get; [done|].
  pose proof (queue_event_ok e _ (po_queue _ _ _ _ _ _ O)) as Q. destruct (queue_event e (r_queue c)) as [[q|] q'].
  - apply runs_put; [by apply ok_queue|by apply within_same].
  - apply runs_bind; [done|apply runs_put; [by apply ok_queue|by apply within_same]|]. intros [] c1 l _ O1. by apply runs_pure.
Qed.

Lemma runs_dispatch source c : client_ok c -> runs (within source) c dispatch_take /\ runs (within source) c dispatch_done.
Proof.
  intros O. pose proof (po_queue _ _ _ _ _ _ O) as (ts & P & R). unfold tickets_of in P. split; (apply runs_get; [done|]).
  - destruct (q_events (r_queue c)) as [|[m t] rest] eqn:E; [by apply runs_ret|]. destruct (q_busy (r_queue c)) eqn:B; [by apply runs_ret|].
    apply runs_bind; [done| |intros [] c1 l _ O1; by apply runs_emit]. apply runs_put; [|by apply within_same]. apply ok_queue; [done|].
    exists ts. by split.
  - destruct (q_busy (r_queue c)) as [t|] eqn:B; [|by apply runs_ret]. apply runs_put; [|by apply within_same]. apply ok_queue; [done|].
    exists (map snd (q_events (r_queue c))). split; [done|]. by apply (br_release _ _ ts).
Qed.

(** ** Requests *)

Definition settled (controls controls' : list PendingControl) : Prop :=
  forall l p, controls !! l = Some p -> pc_finished p = true -> controls' !! l = Some p.
Lemma confirmed_mono controls controls' id t st : settled controls controls' -> confirmed controls id t st -> confirmed controls' id t st.
Proof. intros S (l & p & f & H & E1 & E2 & F & R). exists l, p, f. split; [by apply S|done]. Qed.

Definition with_requests (pending : gmap Z nat) (controls : list PendingControl) (c : Client) : Client :=
  put_r_attempt (put_a_pending pending (r_attempt c)) (put_r_controls controls c).
Lemma ok_requests c pending controls : client_ok c -> settled (r_controls c) controls -> Forall control_ok controls ->
  (forall id l, pending !! id = Some l -> exists p, controls !! l = Some p /\ pc_id p = id /\ pc_finished p = false) ->
  (forall l p, controls !! l = Some p -> pc_finished p = false -> pending !! pc_id p = Some l) ->
  client_ok (with_requests pending controls c).
Proof.
  intros [] S F P W. split; try done. intros id t st Hl Hs Hp. eapply confirmed_mono; [exact S|]. eapply po_leases0; eassumption.
Qed.

(** A waiting request gets its outcome. *)
Lemma ok_settle c l p p' : client_ok c -> r_controls c !! l = Some p -> pc_finished p = false -> pc_finished p' = true -> control_ok p' ->
  client_ok (with_requests (delete (pc_id p) (a_pending (r_attempt c))) (<[l := p']> (r_controls c)) c).
Proof.
  intros O Hl Fp Fp' Kp'. pose proof (po_waiting _ _ _ _ _ _ O l p Hl Fp) as Pl. apply ok_requests; [done| | | |].
  - intros l' q Hq Fq. rewrite list_lookup_insert_ne; [done|]. intros ->. congruence.
  - apply Forall_insert; [apply O|done].
  - intros id l' H. apply lookup_delete_Some in H as [N H]. destruct (po_pending _ _ _ _ _ _ O id l' H) as (q & Hq & Ei & Fq).
    exists q. rewrite list_lookup_insert_ne; [done|]. intros ->. congruence.
  - intros l' q Hq Fq. destruct (decide (l = l')) as [<-|N].
    + rewrite list_lookup_insert_eq in Hq by (by eapply lookup_lt_Some). congruence.
    + rewrite list_lookup_insert_ne in Hq by done. pose proof (po_waiting _ _ _ _ _ _ O l' q Hq Fq) as Pq.
      rewrite lookup_delete_ne; [done|]. intros E. rewrite E in Pl. congruence.
Qed.

Lemma fail_control_ok p : 0 <= pc_requested p -> control_ok (fail_control p).
Proof. intros H. split; [done|]. done. Qed.
Lemma ok_abandon c l p : client_ok c -> r_controls c !! l = Some p -> pc_finished p = false -> client_ok (abandon l (pc_id p) c).
Proof.
  intros O Hl Fp. unfold abandon. replace (alter fail_control l (r_controls c)) with (<[l := fail_control p]> (r_controls c)).
  - apply (ok_settle c l p); try done. apply fail_control_ok. pose proof (po_controls _ _ _ _ _ _ O) as F. rewrite Forall_lookup in F. by apply (F l p).
  - apply list_eq. intros i. destruct (decide (i = l)) as [->|N].
    + rewrite list_lookup_insert_eq by (by eapply lookup_lt_Some). by rewrite list_lookup_alter_eq, Hl.
    + by rewrite list_lookup_insert_ne, list_lookup_alter_ne.
Qed.

Lemma ok_fail_pending c : client_ok c -> client_ok (fail_pending c).
Proof.
  intros O. unfold fail_pending. set (waiting := map snd _). set (controls := imap _ _).
  assert (Lk : forall l q, controls !! l = Some q -> exists p, r_controls c !! l = Some p /\ q = (if bool_decide (l ∈ waiting) then fail_control p else p)).
  { intros l q. unfold controls. rewrite list_lookup_imap. destruct (r_controls c !! l) as [p|]; [|done]. intros [= <-]. by exists p. }
  assert (In : forall l p, r_controls c !! l = Some p -> pc_finished p = false -> l ∈ waiting).
  { intros l p Hl Fp. pose proof (po_waiting _ _ _ _ _ _ O l p Hl Fp) as W. apply list_elem_of_fmap. exists (pc_id p, l). split; [done|].
    by apply elem_of_map_to_list. }
  assert (Un : forall l q, controls !! l = Some q -> pc_finished q = true).
  { intros l q H. destruct (Lk l q H) as (p & Hp & ->). destruct (bool_decide_reflect (l ∈ waiting)) as [|N]; [done|].
    destruct (pc_finished p) eqn:Fp; [done|]. by destruct (N (In l p Hp Fp)). }
  apply (ok_requests c ∅ controls O).
  - intros l p Hl Fp. unfold controls. rewrite list_lookup_imap, Hl. cbn. f_equal. rewrite bool_decide_false; [done|].
    intros X. apply list_elem_of_fmap in X as ([id l'] & E & X). cbn in E. subst l'. apply elem_of_map_to_list in X.
    destruct (po_pending _ _ _ _ _ _ O id l X) as (p' & Hp' & _ & Fp'). congruence.
  - apply Forall_lookup. intros l q H. destruct (Lk l q H) as (p & Hp & ->). pose proof (po_controls _ _ _ _ _ _ O) as F.
    rewrite Forall_lookup in F. specialize (F l p Hp). destruct (bool_decide _); [by apply fail_control_ok, F|done].
  - intros id l H. by rewrite lookup_empty in H.
  - intros l q H Fq. specialize (Un l q H). congruence.
Qed.

(** Request ids: an id in use, the reserved one and zero are never given out, and with fewer than 2^32 - 3 requests
    pending there is a free one. *)
Lemma fresh_id_free fuel pending next id after : fresh_id fuel pending next = Some (id, after) ->
  id <> 0 /\ id <> capability_request_id /\ pending !! id = None.
Proof.
  revert next. induction fuel as [|fuel IH]; [done|]. intros next. cbn. destruct (_ || _ || _) eqn:E; [apply IH|]. intros [= <- <-].
  apply orb_false_iff in E as [E E3]. apply orb_false_iff in E as [E1 E2]. bool_prop.
  split; [done|]. split; [done|]. by apply eq_None_not_Some.
Qed.

Definition tried (next : Z) (i : nat) : Z := match i with O => next | S _ => (next + Z.of_nat i) mod 2 ^ 32 end.
Lemma tried_succ next i : tried ((next + 1) mod 2 ^ 32) i = tried next (S i).
Proof.
  destruct i as [|i]; [done|]. unfold tried. rewrite Zplus_mod_idemp_l. f_equal. lia.
Qed.
Lemma fresh_id_none fuel pending next i : fresh_id fuel pending next = None -> (i < fuel)%nat ->
  tried next i = 0 \/ tried next i = capability_request_id \/ is_Some (pending !! tried next i).
Proof.
  revert next i. induction fuel as [|fuel IH]; [lia|]. intros next i. cbn [fresh_id]. destruct (_ || _ || _) eqn:E; [|done]. intros H Hi.
  destruct i as [|i].
  - unfold tried. apply orb_true_iff in E as [E|E]; [apply orb_true_iff in E as [E|E]|]; bool_prop; auto.
  - rewrite <- tried_succ. apply IH; [done|lia].
Qed.
Lemma tried_inj next i j : Z.of_nat i < 2 ^ 32 -> Z.of_nat j < 2 ^ 32 -> tried next i = tried next j -> i = j.
Proof.
  assert (Sm : forall n k, 0 <= k < 2 ^ 32 -> (n + k) mod 2 ^ 32 = n mod 2 ^ 32 -> k = 0).
  { intros n k K H. replace k with ((n + k - n) mod 2 ^ 32); [rewrite Zminus_mod, H, Z.sub_diag; by apply Z.mod_0_l|].
    replace (n + k - n) with k by lia. by apply Z.mod_small. }
  assert (W : forall a b, (a <= b)%nat -> Z.of_nat b < 2 ^ 32 -> tried next a = tried next b -> a = b).
  { intros a b Lab B H. destruct b as [|b]; [lia|]. destruct a as [|a]; cbn [tried] in H.
    - assert (R := Z.mod_pos_bound (next + Z.of_nat (S b)) (2 ^ 32) eq_refl). rewrite <- H in R. rewrite <- (Z.mod_small next (2 ^ 32) R) in H at 1.
      specialize (Sm next (Z.of_nat (S b)) ltac:(lia) (eq_sym H)). lia.
    - specialize (Sm (next + Z.of_nat (S a)) (Z.of_nat b - Z.of_nat a) ltac:(lia)). rewrite H in Sm.
      specialize (Sm ltac:(f_equal; lia)). lia. }
  intros Hi Hj H. destruct (Nat.le_ge_cases i j) as [Lij|Lji]; [by apply W|symmetry; by apply W].
Qed.
Lemma fresh_id_returns pending next : 3 + Z.of_nat (size pending) <= 2 ^ 32 -> is_Some (fresh_id (3 + size pending) pending next).
Proof.
  intros Hs. destruct (fresh_id _ _ _) as [x|] eqn:E; [by eexists|]. exfalso.
  pose proof (fun i => fresh_id_none _ _ _ i E) as Taken. set (ids := map (tried next) (seq 0 (3 + size pending))).
  set (blocked := 0 :: capability_request_id :: map fst (map_to_list pending)).
  assert (Nd : NoDup ids).
  { apply NoDup_fmap_2_strong; [|apply NoDup_seq]. intros i j Hi Hj. apply elem_of_seq in Hi, Hj. apply tried_inj; lia. }
  assert (Sub : ids ⊆ blocked).
  { intros z Hz. apply list_elem_of_fmap in Hz as (i & -> & Hi). apply elem_of_seq in Hi. unfold blocked. rewrite !elem_of_cons.
    destruct (Taken i ltac:(lia)) as [H|[H|[l H]]]; [by left|by right; left|]. right; right. apply list_elem_of_fmap. exists (tried next i, l).
    split; [done|by apply elem_of_map_to_list]. }
  pose proof (submseteq_length _ _ (NoDup_submseteq _ _ Nd Sub)) as Le. unfold ids, blocked in Le. cbn [length] in Le.
  rewrite !length_map, length_seq, length_map_to_list in Le. lia.
Qed.

Lemma transmit_keeps w f c r c' l : transmit w f c = (r, c', l) -> r_controls c' = r_controls c /\ r_cache c' = r_cache c.
Proof. unfold transmit. destruct (_ || _); [destruct (enqueue _ _ _)|]; by intros [= <- <- <-]. Qed.

Lemma ok_new_request c id next type operation network now : client_ok c -> 0 <= now -> a_pending (r_attempt c) !! id = None ->
  client_ok (with_requests (<[id := length (r_controls c)]> (a_pending (r_attempt c)))
    (r_controls c ++ [mk_control type operation network id now None false false]) (put_r_next_id next c)).
Proof.
  intros O Now Free. set (p := mk_control _ _ _ _ _ _ _ _). set (n := length (r_controls c)).
  assert (Old : forall l q, r_controls c !! l = Some q -> (r_controls c ++ [p]) !! l = Some q /\ l <> n).
  { intros l q H. split; [by apply lookup_app_l_Some|]. apply lookup_lt_Some in H. unfold n. lia. }
  assert (New : (r_controls c ++ [p]) !! n = Some p).
  { unfold n. rewrite lookup_app_r by lia. by rewrite Nat.sub_diag. }
  apply (ok_requests (put_r_next_id next c)); [done| | | |].
  - intros l q H _. by apply Old.
  - apply Forall_app. split; [apply O|]. constructor; [by split|constructor].
  - intros i l H. destruct (decide (i = id)) as [->|N].
    + rewrite lookup_insert_eq in H. injection H as <-. by exists p.
    + rewrite lookup_insert_ne in H by done. destruct (po_pending _ _ _ _ _ _ O i l H) as (q & Hq & E & F). exists q. split; [by apply Old|done].
  - intros l q H F. destruct (decide (l = n)) as [->|N].
    + assert (q = p) as -> by congruence. cbn. by rewrite lookup_insert_eq.
    + apply lookup_app_Some in H as [H|[Ge H]].
      * pose proof (po_waiting _ _ _ _ _ _ O l q H F) as W. rewrite lookup_insert_ne; [done|]. intros E. rewrite E in Free. congruence.
      * exfalso. apply list_lookup_singleton_Some in H as [H _]. unfold n in N. lia.
Qed.

Lemma runs_start_request source c w type payload operation network timeout : client_ok c -> 0 <= w_now w ->
  runs (within source) c (start_request w type payload operation network timeout).
Proof.
  intros O Now. unfold start_request. apply runs_bind; [done|by destruct (_ <=? _); apply runs_pure|].
  intros [] c1 l1 E1 O1. apply runs_get; [done|]. apply runs_guard; [done|done|]. intros _.
  destruct (fresh_id _ _ _) as [[id next]|] eqn:Ef; [|by apply runs_pure]. apply fresh_id_free in Ef as (_ & _ & Free).
  apply runs_bind; [done|apply runs_put; [by apply ok_new_request|by apply within_same]|].
  intros [] c2 l2 [= <- _] O2. apply runs_bind; [done|apply runs_transmit; [done|done|intros s; by apply within_same]|].
  intros ok c3 l3 E3 O3. destruct ok; [by apply runs_ret|]. apply transmit_keeps in E3 as [Ec _].
  apply runs_bind; [done|apply runs_put|intros [] c4 l4 _ O4; by apply runs_pure]; [|by apply within_same].
  eapply (ok_abandon c3 _ (mk_control type operation network id (w_now w) None false false)); [done| |done].
  rewrite Ec. cbn. rewrite lookup_app_r by lia. by rewrite Nat.sub_diag.
Qed.

Lemma runs_finish_request source c l : client_ok c -> runs (within source) c (finish_request l).
Proof.
  intros O. unfold finish_request. apply runs_get; [done|]. destruct (r_controls c !! l) as [p|] eqn:E; [|by apply runs_pure].
  destruct (pc_finished p) eqn:F; cbn [negb].
  - destruct (pc_failed p); [by apply runs_pure|]. destruct (pc_response p); by apply runs_pure.
  - apply runs_bind; [done|apply runs_put; [by apply ok_abandon|by apply within_same]|]. intros [] c1 l1 _ O1. by apply runs_pure.
Qed.
(** The answer that is handed out is the one that was found to fit. *)
Lemma finish_request_answer c l f c' o : finish_request l c = (Ok f, c', o) ->
  c' = c /\ exists p, r_controls c !! l = Some p /\ pc_finished p = true /\ pc_failed p = false /\ pc_response p = Some f.
Proof.
  unfold finish_request, mbind, mget. destruct (r_controls c !! l) as [p|] eqn:E; [|done]. destruct (pc_finished p) eqn:F; cbn [negb]; [|done].
  destruct (pc_failed p) eqn:Fl; [done|]. destruct (pc_response p) as [g|] eqn:R; [|done]. intros [= <- <- <-]. split; [done|]. by exists p.
Qed.

Lemma runs_response source c f : client_ok c -> runs (within source) c (handle_response f).
Proof.
  intros O. unfold handle_response. apply runs_guard; [done|done|]. intros _. apply runs_get; [done|].
  destruct (a_pending (r_attempt c) !! request_id f) as [l|] eqn:Pe; [|by apply runs_ret].
  destruct (po_pending _ _ _ _ _ _ O _ _ Pe) as (p & Hp & Id & Fp). rewrite Hp. apply runs_then; [done|done|]. intros failed Ck.
  apply runs_put; [|by apply within_same]. rewrite <- Id. apply (ok_settle c l p); [done|done|done|done|].
  pose proof (po_controls _ _ _ _ _ _ O) as Fa. rewrite Forall_lookup in Fa. split; [by apply (Fa l p)|]. cbn. intros _ ->. by exists f.
Qed.

Lemma ok_with_cache c k : client_ok c -> cache_ok k -> peer_states_ k = peer_states_ (r_cache c) -> peer_revisions_ k = peer_revisions_ (r_cache c) ->
  policy_leases_ k = policy_leases_ (r_cache c) -> client_ok (put_r_cache k c).
Proof.
  intros O K S Rv Le. apply ok_cache; [done|done| |].
  - rewrite S, Rv. apply (po_quiet _ _ _ _ _ _ O).
  - intros id t st. rewrite S, Le. apply (po_leases _ _ _ _ _ _ O).
Qed.

Lemma runs_capabilities source c f : client_ok c -> runs (within source) c (handle_capabilities f).
Proof.
  intros O. unfold handle_capabilities. apply runs_bind; [done| |].
  - destruct (bool_decide _).
    + apply runs_then; [done|done|]. intros s _. apply runs_guard; [done|done|]. intros _. by apply runs_ret.
    + apply runs_guard; [done|done|]. intros _. by apply runs_ret.
  - intros s c1 l _ O1. apply runs_put.
    + apply ok_with_cache; try done. by destruct (po_cache _ _ _ _ _ _ O1).
    + apply within_cache; [by apply advances_same|]. intros id k H. by left.
Qed.

Lemma runs_candidates source c q x : client_ok c ->
  runs (within source) c (mput (fun c => put_r_cache (keep_candidates (me_device (r_me c)) q x (r_cache c)) c)).
Proof.
  intros O. destruct (keep_candidates_spec (me_device (r_me c)) q x _ (po_cache _ _ _ _ _ _ O)) as (K & S & Ks & Le & Rv). apply runs_put.
  - by apply ok_with_cache.
  - apply within_cache; [by apply advances_same|]. intros id k. rewrite Ks. by left.
Qed.

(** ** Frames *)

(** The keys a frame may bring. *)
Definition frame_source (w : World) (others : Client -> Client) (c : Client) (f : Frame) : KeySource := fun id k =>
  (type_ f = network_peer_state_update /\ exists st, decode_network_peer_state (payload f) = Ok st /\ drawn w (me_device (r_me c)) st id k) \/
  (type_ f = network_key_envelope /\ exists encryption e, client_encryption_key (a_handshake (r_attempt c)) = Ok encryption /\
     decode_network_key_envelope (payload f) = Ok e /\ opened encryption (me_device (r_me c)) c (others c) e id k).

Lemma runs_control_frame source c w others f : lawful source others -> client_ok c -> allows source (frame_source w others c f) ->
  runs (within source) c (handle_control_frame w others f).
Proof.
  intros W O Al. unfold handle_control_frame. apply runs_get; [done|].
  destruct (bool_decide (type_ f = peer_candidates_ack)); [by apply runs_check|].
  destruct (bool_decide (type_ f = peer_candidates_forward)); [apply runs_then; [done|done|]; intros x _; by apply runs_candidates|].
  destruct (_ =? capability_request_id); [by apply runs_capabilities|].
  destruct (bool_decide (type_ f = network_packet_forward)); [apply runs_guard; [done|done|]; intros _; by apply runs_forwarded|].
  destruct (bool_decide_reflect (type_ f = network_peer_state_update)) as [Up|_].
  { apply runs_guard; [done|done|]. intros _. apply runs_then; [done|done|]. intros key _. apply runs_then; [done|done|]. intros st D.
    apply runs_apply_peer_state; [done|]. intros id k H. apply Al. left. split; [done|]. by exists st. }
  destruct (bool_decide (type_ f = network_peer_state_revoked)).
  { apply runs_guard; [done|done|]. intros _. apply runs_then; [done|done|]. intros r _. by apply runs_revocation. }
  destruct (bool_decide_reflect (type_ f = network_key_envelope)) as [En|_].
  { apply runs_guard; [done|done|]. intros _. apply runs_then; [done|done|]. intros key Hk. apply runs_then; [done|done|]. intros e D.
    apply runs_apply_key; [done|done|]. intros id k H. apply Al. right. split; [done|]. by exists key, e. }
  destruct (_ && bool_decide (type_ f = network_operation_result)); [apply runs_then; [done|done|]; intros r _; by apply runs_check|].
  destruct (bool_decide (type_ f = error) && _); [by apply runs_check|].
  destruct (bool_decide (type_ f = network_event)); [by apply runs_event|by apply runs_response].
Qed.

(** The handshake itself starts a session; it brings no network key. *)
Definition keeps (source : KeySource) (c c' : Client) : Prop := r_me c' = r_me c /\ keys_kept (r_cache c) (r_cache c') source.
#[local] Instance keeps_course source : Course (keeps source).
Proof.
  split; [intros c; split; [done|]; intros id k H; by left|]. intros c1 c2 c3 _ _ [E1 K1] [E2 K2]. split; [congruence|].
  intros id k H. destruct (K2 id k H) as [H2|]; [by apply K1|by right].
Qed.
#[local] Hint Resolve keeps_course : core.
Lemma keeps_same source c c' : r_me c' = r_me c -> network_keys_ (r_cache c') = network_keys_ (r_cache c) -> keeps source c c'.
Proof. intros E1 E2. split; [done|]. intros id k. rewrite E2. by left. Qed.
Lemma runs_within_keeps {A} source c (m : M A) : runs (within source) c m -> runs (keeps source) c m.
Proof. intros H r c' l E. destruct (H r c' l E) as [O [E1 _ K]]. by split; [|split]. Qed.

Lemma runs_handshake {A} source c (h : ClientHandshake -> ClientHandshake * result A) : client_ok c -> runs (within source) c (with_handshake h).
Proof.
  intros O r c' l. unfold with_handshake. destruct (h _) as [h' r']. intros [= <- <- <-]. split; [|by apply within_same].
  by apply (ok_same c).
Qed.

Lemma ok_authenticated c : client_ok c -> client_ok (put_r_authenticated true c).
Proof.
  intros O. destruct (serving (put_r_authenticated true c)) eqn:Sv.
  - destruct O. split; try done. fold (serving (put_r_authenticated true c)). congruence.
  - destruct O as [? Q]. split; try done. intros _. apply Q. revert Sv. unfold serving. cbn. destruct (r_stop c); [by rewrite andb_false_r|done].
Qed.

Lemma runs_auth_frame source c w f : client_ok c -> runs (keeps source) c (handle_auth_frame w f).
Proof.
  intros O. unfold handle_auth_frame. destruct (bool_decide _).
  { apply runs_bind; [done|by apply runs_within_keeps, runs_handshake|]. intros reply c1 l1 _ O1.
    apply runs_bind; [done|apply runs_transmit_auth; [done|done|intros s; by apply keeps_same]|]. intros ok c2 l2 _ O2. by apply runs_check. }
  apply runs_guard; [done|done|]. intros _. apply runs_bind; [done|by apply runs_within_keeps, runs_handshake|]. intros ok c1 l1 _ O1.
  destruct ok; cbn [negb].
  2:{ apply runs_bind; [done|apply runs_put; [by apply (ok_same c1)|by apply keeps_same]|]. intros [] c2 l2 _ O2. apply runs_get; [done|]. by apply runs_emit. }
  apply runs_get; [done|]. destruct (client_session_id _) as [session|]; [|by apply runs_pure].
  apply runs_bind; [done|by destruct (a_tcp _); [apply runs_ret|apply runs_check]|]. intros [] c2 l2 _ O2.
  apply runs_bind; [done|apply runs_put; [by apply (ok_same c2)|by apply keeps_same]|]. intros [] c3 l3 _ O3.
  destruct (client_signed_device_key _) as [key|]; [|by apply runs_pure].
  apply runs_bind; [done|apply runs_put; [apply ok_with_cache; try done; by destruct (po_cache _ _ _ _ _ _ O3)|by apply keeps_same]|]. intros [] c4 l4 _ O4.
  apply runs_bind; [done| |].
  - apply runs_put; [|destruct (_ && _); by apply keeps_same]. destruct (_ && _).
    + apply (ok_same (put_r_authenticated true c4)); try done. by apply ok_authenticated.
    + by apply (ok_same c4).
  - intros [] c5 l5 _ O5. destruct (me_negotiates _); [|by apply runs_ret]. apply runs_then; [done|done|]. intros offer _.
    apply runs_bind; [done|apply runs_transmit; [done|done|intros s; by apply keeps_same]|]. intros ok c6 l6 _ O6. by apply runs_check.
Qed.

Lemma runs_frame source c w others f : lawful source others -> client_ok c -> allows source (frame_source w others c f) ->
  runs (keeps source) c (handle_frame w others f).
Proof.
  intros W O Al. unfold handle_frame. apply runs_get; [done|]. destruct (client_authenticated _); [by apply runs_within_keeps, runs_control_frame|by apply runs_auth_frame].
Qed.
End Safety.
