(* ===== verification/ClientSession.v ===== *)
(** * The relay client over time

    Every callback, call and worker step of [RelayClient] as an event, performed in any order: the reachable states of
    a client, what the invariant of [ClientSafety] says of them, which keys a frame may bring, and when packets
    leave and enter. *)
From S2P Require Import Limits Candidates Capabilities QuicSend PathDiagnostics UserAccess NetworkManagement Handshake.
From S2P Require Import Prelude Codec StreamDecoder Ipv4 NetworkPolicy NetworkMessages PacketMessages Crypto RelayStore RoutedNetwork ClientCache RelayClient ClientSafety.

Local Notation "'let!' x := m 'in' k" := (mbind m (fun x => k))
  (at level 10, x name, m at level 100, k at level 200, format "'[v' 'let!'  x  :=  m  'in' '/' k ']'").
Local Notation "m ;; k" := (mbind m (fun _ => k)) (at level 100, right associativity).

Section Session.
Context {C : Crypto} {T : TokenMac} {L : Layout} {LL : LayoutLaws L}.
#[local] Instance within_course' source : Course (within source) := within_course source.
#[local] Instance keeps_course' source : Course (keeps source) := keeps_course source.
#[local] Hint Resolve within_course keeps_course : core.

(** ** Events *)

Inductive ClientEvent :=
| ev_stream (w : World) (others : Client -> Client) (bs : bytes) | ev_frame (w : World) (others : Client -> Client) (f : Frame)
| ev_stream_closed | ev_shutdown (message : bytes) | ev_shutdown_complete | ev_datagrams (enabled : bool) (length : Z)
| ev_datagram (w : World) (payload : bytes) | ev_sent (i : nat) | ev_connected (w : World)
| ev_attempt (s : Start) (sends : Sends) | ev_tcp (w : World) (sends : Sends) | ev_tcp_over (failure : option bytes)
| ev_run | ev_run_over | ev_stop | ev_dispatch | ev_dispatched
| ev_send (w : World) (p : EncryptedNetworkPacket) | ev_publish (w : World) (x : CandidateExchange) | ev_take
| ev_call (w : World) (call : Call) (limit : Z) | ev_answer (l : nat) (call : Call).

Definition quietly {A} (m : M A) : M unit := m ;; mret tt.
Definition perform (e : ClientEvent) : M unit :=
  match e with
  | ev_stream w others bs => on_stream_receive w others bs
  | ev_frame w others f => handle_frame w others f
  | ev_stream_closed => on_stream_closed
  | ev_shutdown message => on_shutdown_initiated message
  | ev_shutdown_complete => on_shutdown_complete
  | ev_datagrams enabled n => on_datagram_state enabled n
  | ev_datagram w payload => on_datagram_received w payload
  | ev_sent i => on_send_complete i
  | ev_connected w => on_connected w
  | ev_attempt s sends => start_attempt s sends
  | ev_tcp w sends => start_tcp w sends
  | ev_tcp_over failure => finish_tcp failure
  | ev_run => run_begins
  | ev_run_over => finish_run
  | ev_stop => stop
  | ev_dispatch => dispatch_take
  | ev_dispatched => dispatch_done
  | ev_send w p => send_encrypted_packet w p
  | ev_publish w x => quietly (publish_peer_candidates w x)
  | ev_take => quietly take_peer_candidates
  | ev_call w call limit => quietly (start_call w call limit)
  | ev_answer l call => quietly (finish_call l call)
  end.

Definition asked_network (call : Call) : option bytes := match call with call_fetch id => Some id | _ => None end.

(** When an event can happen: clocks do not go below zero, packets have the widths of their types, the sends of an attempt start empty, other threads
    behave, and the waiter of a request is the call that made it. *)
Definition event_ok (source : KeySource) (c : Client) (e : ClientEvent) : Prop :=
  match e with
  | ev_stream w others _ | ev_frame w others _ => lawful source others
  | ev_attempt _ sends | ev_tcp _ sends => new_sends default_queue_limits = Ok sends
  | ev_call w _ _ => 0 <= w_now w
  | ev_send _ p => wf_packet p
  | ev_answer l call => exists p, r_controls c !! l = Some p /\ pc_network p = asked_network call
  | _ => True
  end.

Definition first_client (me : Me) : result Client :=
  let* sends := new_sends default_queue_limits in
  let* b := make_budget default_queue_limits in
  Ok (mk_relay_client me false false false None empty_cache (put_a_complete true (fresh_attempt sends false false no_handshake 0)) false [] 2
        (mk_queue [] None b) 0 0 0 0 no_error).

Inductive client_reachable (me : Me) : Client -> Prop :=
| cr_first c : first_client me = Ok c -> client_reachable me c
| cr_event source c e r c' l : client_reachable me c -> event_ok source c e -> perform e c = (r, c', l) -> client_reachable me c'.

(** ** Every event keeps the invariant *)

Lemma runs_on_attempt source c f : client_ok c ->
  a_pending (f (r_attempt c)) = a_pending (r_attempt c) -> sends_ok default_queue_limits (a_sends (f (r_attempt c))) -> runs (within source) c (on_attempt f).
Proof.
  intros O P Sn. apply runs_put; [|by apply within_same].
  unfold client_ok. cbn. rewrite P. destruct O. by split.
Qed.
Lemma runs_attempt_flags source c f : client_ok c ->
  a_pending (f (r_attempt c)) = a_pending (r_attempt c) -> a_sends (f (r_attempt c)) = a_sends (r_attempt c) -> runs (within source) c (on_attempt f).
Proof. intros O P Sn. apply runs_on_attempt; [done|done|]. rewrite Sn. apply O. Qed.
(** A client that stops serving may forget everything. *)
Lemma within_ended source c c' : r_me c' = r_me c -> serving c' = false -> network_keys_ (r_cache c') = ∅ -> within source c c'.
Proof. intros E S K. split; [done|congruence|]. intros id k. by rewrite K, lookup_empty. Qed.

Lemma ok_ended c c' : client_ok c -> r_cache c' = empty_cache -> a_pending (r_attempt c') = a_pending (r_attempt c) ->
  a_sends (r_attempt c') = a_sends (r_attempt c) -> r_controls c' = r_controls c -> r_queue c' = r_queue c -> client_ok c'.
Proof.
  intros O E P Sn Co Q. unfold client_ok. rewrite E, P, Sn, Co, Q. destruct O. by split; try apply empty_cache_ok.
Qed.
Lemma ok_sends_of c : client_ok c -> sends_ok default_queue_limits (a_sends (r_attempt c)).
Proof. apply po_sends. Qed.

Lemma runs_end source c f : client_ok c -> r_me (f c) = r_me c -> serving (f c) = false -> r_cache (f c) = empty_cache ->
  a_pending (r_attempt (f c)) = a_pending (r_attempt c) -> a_sends (r_attempt (f c)) = a_sends (r_attempt c) ->
  r_controls (f c) = r_controls c -> r_queue (f c) = r_queue c -> runs (within source) c (mput f).
Proof.
  intros O M S K P Sn Co Q. apply runs_put; [|apply within_ended; [done|done|by rewrite K]]. apply (ok_ended c); try done.
Qed.
Lemma runs_fail_pending source c : client_ok c -> runs (within source) c (mput fail_pending).
Proof. intros O. apply runs_put; [by apply ok_fail_pending|by apply within_same]. Qed.
Lemma runs_record_error source c m : client_ok c -> runs (within source) c (mput (record_error m)).
Proof. intros O. apply runs_put; [by apply (ok_same c)|by apply within_same]. Qed.

Ltac next := apply runs_bind; [done| |intros ? ? ? _ ?].

Lemma runs_callbacks source c : client_ok c ->
  runs (within source) c on_stream_closed /\ (forall m, runs (within source) c (on_shutdown_initiated m)) /\ runs (within source) c on_shutdown_complete /\
  (forall enabled n, runs (within source) c (on_datagram_state enabled n)) /\ (forall i, runs (within source) c (on_send_complete i)).
Proof.
  intros O. split_and!.
  - unfold on_stream_closed. apply runs_get; [done|]. destruct (a_stream _); [|by apply runs_ret]. next; [by apply runs_attempt_flags|].
    apply runs_put; [|by apply within_ended]. apply ok_fail_pending. by eapply ok_ended; [eassumption|..].
  - intros m. unfold on_shutdown_initiated. next; [by apply runs_record_error|]. next; [by apply runs_end|]. next; [by apply runs_attempt_flags|].
    by apply runs_fail_pending.
  - unfold on_shutdown_complete. next; [by apply runs_end|]. next; [by apply runs_attempt_flags|]. next; [by apply runs_fail_pending|].
    next; [by apply runs_attempt_flags|]. apply runs_put; [by eapply ok_same; [..|eassumption]|by apply within_same].
  - intros enabled n. unfold on_datagram_state. by apply runs_attempt_flags.
  - intros i. unfold on_send_complete. apply runs_on_attempt; [done|done|]. by apply complete_send_ok, ok_sends_of.
Qed.

Lemma runs_stop source c : client_ok c -> runs (within source) c stop.
Proof.
  intros O. assert (O1 : client_ok (clear_peer_states (put_r_stop true c))) by by apply (ok_ended c).
  assert (Off : forall x, serving (put_r_stop true x) = false) by (intros x; apply andb_false_r).
  intros r c' l. unfold stop, mbind, mput, mget, on_attempt, memit, mret. cbn. destruct (r_active c).
  2:{ intros [= <- <- <-]. split; [done|]. apply within_ended; [done|apply Off|done]. }
  cbn. destruct (a_tcp (r_attempt c)); cbn; destruct (a_connection (r_attempt c) && negb (a_shutdown (r_attempt c))); cbn; intros [= <- <- <-];
    (split; [|apply within_ended; [done|apply Off|done]]);
    by apply (ok_same (fail_pending (clear_peer_states (put_r_stop true c)))); [..|apply ok_fail_pending].
Qed.

Lemma ok_new_attempt c a : client_ok c -> a_pending (r_attempt c) = ∅ -> a_pending a = ∅ -> sends_ok default_queue_limits (a_sends a) ->
  client_ok (put_r_attempt a c).
Proof. intros O P Pa Sn. unfold client_ok. cbn. rewrite Pa, <- P. destruct O. by split. Qed.

Lemma idle_pending c : idle c = true -> a_pending (r_attempt c) = ∅.
Proof. unfold idle. intros H. by bool_prop. Qed.

Lemma runs_attempts source c w s sends failure : client_ok c -> new_sends default_queue_limits = Ok sends ->
  runs (within source) c (start_attempt s sends) /\ runs (within source) c (start_tcp w sends) /\ runs (within source) c (finish_tcp failure) /\
  runs (within source) c run_begins /\ runs (within source) c finish_run.
Proof.
  intros O Sn. apply new_sends_ok in Sn. split_and!.
  - unfold start_attempt. apply runs_get; [done|]. apply runs_guard; [done|done|]. intros I. apply idle_pending in I.
    assert (P : forall v, a_pending v = ∅ -> a_sends v = sends -> runs (within source) c (mput (put_r_attempt v))).
    { intros v Pv Sv. apply runs_put; [|by apply within_same]. apply ok_new_attempt; try done. by rewrite Sv. }
    destruct s as [m|m|].
    + next; [by apply P|]. by apply runs_record_error.
    + next; [by apply P|]. destruct (r_stop c); [by apply runs_ret|by apply runs_record_error].
    + destruct (r_stop c); [by apply P|]. apply runs_put; [|by apply within_same]. by apply (ok_new_attempt c).
  - unfold start_tcp. apply runs_get; [done|]. apply runs_guard; [done|done|]. intros I. apply idle_pending in I.
    destruct (r_stop c); [by apply runs_ret|]. destruct (w_secret w) as [x|]; [|by apply runs_pure].
    next; [apply runs_put; [by apply (ok_new_attempt c)|by apply within_same]|]. next; [by apply runs_handshake|].
    next; [apply runs_transmit_auth; [done|done|intros z; by apply within_same]|]. by apply runs_check.
  - unfold finish_tcp. next; [destruct failure; [by apply runs_record_error|by apply runs_ret]|].
    next; [apply runs_put; [|by apply within_same]|].
    { apply ok_fail_pending. by eapply ok_same; [..|eassumption]. }
    next; [by apply runs_end|]. apply runs_put; [by eapply ok_same; [..|eassumption]|by apply within_same].
  - by apply runs_end.
  - by apply runs_end.
Qed.

Lemma runs_connected source c w : client_ok c -> runs (within source) c (on_connected w).
Proof.
  intros O. unfold on_connected. next; [by apply runs_attempt_flags|]. next; [by apply runs_end|]. unfold open_control_stream. apply runs_get; [done|].
  destruct (w_secret w) as [x|]; [|by apply runs_pure]. destruct (w_open w); cbn [negb]; [|by apply runs_emit].
  next; [by apply runs_attempt_flags|]. next; [by apply runs_handshake|].
  apply runs_bind; [done|apply runs_transmit_auth; [done|done|intros z; by apply within_same]|]. intros ok c9 l9 _ O9.
  destruct ok; [by apply runs_ret|by apply runs_emit].
Qed.

Lemma runs_datagram source c w payload : client_ok c -> runs (within source) c (on_datagram_received w payload).
Proof.
  intros O r c' l. unfold on_datagram_received. destruct (_ || _); [intros [= <- <- <-]; split; [done|apply course_refl]|].
  destruct (handle_forwarded_packet w payload c) as [[[u|e] c1] l1] eqn:E; intros [= <- <- <-];
    destruct (runs_forwarded source c w payload O _ _ _ E) as [O1 W1]; [|done].
  split; [by apply (ok_same c1)|]. by destruct W1.
Qed.

(** ** Calls of the application *)

Lemma runs_quietly {A} source c (m : M A) : runs (within source) c m -> runs (within source) c (quietly m).
Proof. intros H. apply runs_bind; [done|done|]. intros x c1 l _ O1. by apply runs_ret. Qed.

Lemma runs_transmit_datagram source c w payload : client_ok c -> word 8 (len payload) -> runs (within source) c (transmit_datagram w payload).
Proof.
  intros O W r c' l. unfold transmit_datagram. pose proof (send_datagram_ok default_queue_limits payload (w_datagram w payload) _ W (ok_sends_of _ O)) as S.
  destruct (send_datagram _ _ _) as [status s]. intros [= <- <- <-]. split; [by apply ok_sends|by apply within_same].
Qed.

Lemma runs_send source c w p : wf_packet p -> client_ok c -> runs (within source) c (send_encrypted_packet w p).
Proof.
  intros Wf O. unfold send_encrypted_packet. apply runs_then; [done|done|]. intros payload E. apply runs_get; [done|].
  apply runs_guard; [done|done|]. intros _. apply runs_guard; [done|done|]. intros _. apply runs_bind; [done| |].
  - destruct (_ && _ && _); [apply runs_transmit_datagram; [done|]|apply runs_transmit; [done|done|intros s; by apply within_same]].
    pose proof (encode_encrypted_len _ _ Wf E). apply encode_encrypted_inv in E as (V & _). apply valid_packet_ciphertext in V. words. lia.
  - intros ok c1 l _ O1. destruct ok; [apply runs_put; [by apply (ok_same c1)|by apply within_same]|].
    next; [apply runs_put; [by apply (ok_same c1)|by apply within_same]|]. by apply runs_pure.
Qed.

Lemma runs_publish source c w x : client_ok c -> runs (within source) c (publish_peer_candidates w x).
Proof.
  intros O. unfold publish_peer_candidates. apply runs_get; [done|]. destruct (supports _ _); cbn [negb]; [|by apply runs_ret].
  apply runs_then; [done|done|]. intros payload _. destruct (_ || _ || _); [by apply runs_ret|].
  apply runs_transmit; [done|done|intros s; by apply within_same].
Qed.
Lemma runs_take source c : client_ok c -> runs (within source) c take_peer_candidates.
Proof.
  intros O r c' l [= <- <- <-]. split.
  - apply ok_with_cache; try done. destruct (po_cache _ _ _ _ _ _ O). split; try done; vm_compute; congruence.
  - apply within_cache; [by apply advances_same|]. intros id k H. by left.
Qed.

Lemma runs_start_call source c w call limit : client_ok c -> 0 <= w_now w -> runs (within source) c (start_call w call limit).
Proof.
  intros O Now. unfold start_call. apply runs_get; [done|]. apply runs_then; [done|done|]. intros [[[type payload] op] network] _.
  by apply runs_start_request.
Qed.

(** The lease that a fetched state renews is confirmed by the answer it came with. *)
Lemma runs_renew source c l p f st id : client_ok c -> r_controls c !! l = Some p -> pc_finished p = true -> pc_failed p = false ->
  pc_response p = Some f -> pc_network p = Some id -> type_ f = network_peer_state_result -> decode_network_peer_state (payload f) = Ok st ->
  runs (within source) c (mput (fun c => put_r_cache (renew_lease st id (pc_requested p) (r_cache c)) c)).
Proof.
  intros O Hp Fi Fl Rf Nw Ty De. assert (Cf : confirmed (r_controls c) id (pc_requested p) st) by (by exists l, p, f).
  pose proof (po_controls _ _ _ _ _ _ O) as Fa. rewrite Forall_lookup in Fa. destruct (Fa l p Hp) as [Rq _].
  destruct (renew_lease_spec st id (pc_requested p) (r_cache c)) as [E|(Es & Hpol & E)]; (apply runs_put; [|]); rewrite E.
  - by apply (ok_same c).
  - by apply within_same.
  - apply ok_cache; [done|by destruct (po_cache _ _ _ _ _ _ O)|apply (po_quiet _ _ _ _ _ _ O)|]. cbn. intros id' t st' Hl Hs Hp'.
    destruct (decide (id' = id)) as [->|N]; [|rewrite lookup_insert_ne in Hl by done; by apply (po_leases _ _ _ _ _ _ O)].
    rewrite lookup_insert_eq in Hl. injection Hl as <-. assert (st' = st) as -> by congruence.
    destruct (policy_leases_ (r_cache c) !! id) as [t0|] eqn:Et; [|cbn; by rewrite Z.max_r].
    change (default 0 (Some t0)) with t0. destruct (Z.max_spec t0 (pc_requested p)) as [[_ ->]|[_ ->]]; [done|]. by apply (po_leases _ _ _ _ _ _ O).
  - apply within_cache; [by apply advances_same|]. intros i k H. by left.
Qed.

Lemma runs_finish_call source c l p call : client_ok c -> r_controls c !! l = Some p -> pc_network p = asked_network call ->
  runs (within source) c (finish_call l call).
Proof.
  intros O Hp Nw. unfold finish_call. apply runs_get; [done|]. rewrite Hp. apply runs_bind; [done|by apply runs_finish_request|].
  intros f c1 o E O1. apply finish_request_answer in E as (-> & p' & Hp' & Fi & Fl & Rf). assert (p' = p) as -> by congruence.
  destruct call; try (apply runs_then; [done|done|]; intros r _; try (apply runs_guard; [done|done|]; intros _); by apply runs_ret).
  - destruct (bool_decide _); (apply runs_then; [done|done|]); intros r _; by apply runs_ret.
  - destruct (bool_decide_reflect (type_ f = network_peer_state_result)) as [Ty|_]; (apply runs_then; [done|done|]); [|intros r _; by apply runs_ret].
    intros st De. apply runs_then; [done|done|]. intros [] _. next; [by apply (runs_renew source c l p f)|]. by apply runs_ret.
Qed.

(** ** All events *)

(** The frames handled of a list, each with the client that handles it. *)
Fixpoint frame_clients (w : World) (others : Client -> Client) (l : list Frame) (c : Client) : list (Frame * Client) :=
  match l with
  | [] => []
  | f :: l => (f, c) :: match handle_frame w others f c with (Ok _, c1, _) => frame_clients w others l c1 | _ => [] end
  end.
Definition stream_clients (w : World) (others : Client -> Client) (bs : bytes) (c : Client) : list (Frame * Client) :=
  match decode_bytes bs c with (Ok frames, c1, _) => frame_clients w others frames c1 | _ => [] end.
(** The keys an event may bring. *)
Definition event_source (c : Client) (e : ClientEvent) : KeySource :=
  match e with
  | ev_frame w others f => frame_source w others c f
  | ev_stream w others bs => fun id k => exists f c', (f, c') ∈ stream_clients w others bs c /\ frame_source w others c' f id k
  | _ => fun _ _ => False
  end.
(** Whether the event may be part of the authentication of a new session. *)
Definition authenticates (c : Client) (e : ClientEvent) : bool :=
  match e with ev_frame _ _ _ => negb (client_authenticated (a_handshake (r_attempt c))) | ev_stream _ _ _ => true | _ => false end.

Lemma runs_event_within source c e : event_ok source c e -> client_ok c -> authenticates c e = false -> allows source (event_source c e) ->
  runs (within source) c (perform e).
Proof.
  intros Ok O A Al. pose proof (runs_callbacks source c O) as (R1 & R2 & R3 & R4 & R5). destruct (runs_dispatch source c O) as [R6 R7].
  destruct e; cbn [perform event_ok event_source authenticates] in *; try done.
  - unfold handle_frame. apply runs_get; [done|]. destruct (client_authenticated _); [by apply runs_control_frame|done].
  - by apply runs_datagram.
  - by apply runs_connected.
  - by apply (runs_attempts source c (mk_world 0 None (fun _ => None) None None (fun _ => false) (fun _ => false) false false) s sends None).
  - by apply (runs_attempts source c w started sends None).
  - destruct (new_sends default_queue_limits) as [sends|] eqn:E; [|by vm_compute in E].
    by apply (runs_attempts source c (mk_world 0 None (fun _ => None) None None (fun _ => false) (fun _ => false) false false) started sends failure).
  - by apply runs_end.
  - by apply runs_end.
  - by apply runs_stop.
  - by apply runs_send.
  - by apply runs_quietly, runs_publish.
  - by apply runs_quietly, runs_take.
  - by apply runs_quietly, runs_start_call.
  - destruct Ok as (p & Hp & Nw). by apply runs_quietly, (runs_finish_call source c l p).
Qed.

Lemma runs_decode source c bs : client_ok c -> runs (within source) c (decode_bytes bs).
Proof.
  intros O r c' l. unfold decode_bytes. destruct (default _ _) as [r1 d]. intros [= <- <- <-]. split; [by apply (ok_same c)|by apply within_same].
Qed.
Lemma runs_frames source c w others l : lawful source others -> client_ok c ->
  (forall f c', (f, c') ∈ frame_clients w others l c -> allows source (frame_source w others c' f)) -> runs (keeps source) c (mfor l (handle_frame w others)).
Proof.
  intros W O. revert c O. induction l as [|f l IH]; intros c O Al; [by apply runs_ret|]. cbn.
  assert (R := runs_frame source c w others f W O (Al f c ltac:(by left))). apply runs_bind; [done|done|]. intros [] c1 l1 E O1.
  apply IH; [done|]. intros g c' Hg. apply Al. cbn [frame_clients]. rewrite E. by right.
Qed.

Lemma runs_event_keeps source c e : event_ok source c e -> client_ok c -> allows source (event_source c e) -> runs (keeps source) c (perform e).
Proof.
  intros Ok O Al. destruct (authenticates c e) eqn:A; [|by apply runs_within_keeps, runs_event_within].
  destruct e as [w others bs|w others f| | | | | | | | | | | | | | | | | | | |]; try done; cbn [perform event_ok event_source] in *; [|by apply runs_frame].
  unfold on_stream_receive. apply runs_get; [done|]. destruct (_ && _); [by apply runs_emit|].
  assert (R : runs (keeps source) c (let! frames := decode_bytes bs in mfor frames (handle_frame w others))).
  { apply runs_bind; [done|by apply runs_within_keeps, runs_decode|]. intros frames c1 l1 E O1.
    apply runs_frames; [done|done|]. intros f c' Hf id k H. apply Al. exists f, c'. unfold stream_clients. by rewrite E. }
  intros r c' l. unfold or_shut_down. destruct (mbind _ _ c) as [[[x|x] c1] l1] eqn:E; intros [= <- <- <-]; by apply (R _ _ _ E).
Qed.

Lemma first_client_ok me c : first_client me = Ok c -> client_ok c /\ r_me c = me.
Proof.
  unfold first_client. intros H. ok_inv H. subst c. split; [|done].
  match goal with E : new_sends _ = Ok _, F : make_budget _ = Ok _ |- _ => apply new_sends_ok in E; rename E into Sn; rename F into Bu end.
  split; try done; try apply empty_cache_ok. exists []. split; [done|by apply br_make].
Qed.

Lemma client_reachable_ok me c : client_reachable me c -> client_ok c /\ r_me c = me.
Proof.
  induction 1 as [c H|source c e r c' l _ [IH M] Ok E]; [by apply first_client_ok|].
  assert (W : event_ok (fun _ _ => True) c e).
  { assert (Lw : forall others, lawful source others -> lawful (fun _ _ => True) others).
    { intros others Lo c0 O0. destruct (Lo c0 O0) as [O1 [E1 S1 K1]]. split; [done|]. split; [done|done|]. intros id k H. destruct (K1 id k H); auto. }
    destruct e; cbn in *; try done; by apply Lw. }
  destruct (runs_event_keeps (fun _ _ => True) c e W IH ltac:(done) _ _ _ E) as [O' [M' _]]. split; [done|congruence].
Qed.

(** ** What holds of a client *)

Lemma lawful_weaken (source source' : KeySource) others : allows source' source -> lawful source others -> lawful source' others.
Proof.
  intros Al Lo c O. destruct (Lo c O) as [O1 [E1 S1 K1]]. split; [done|]. split; [done|done|]. intros id k H.
  destruct (K1 id k H); [by left|right; by apply Al].
Qed.
Lemma event_ok_weaken source source' c e : allows source' source -> event_ok source c e -> event_ok source' c e.
Proof. intros Al. destruct e; cbn; try done; by apply lawful_weaken. Qed.

(** C22: The state a client is in after any callbacks, frames, calls and worker steps in any order is consistent.
    Every cached key is of the epoch of its cached network, every cached network has its own id, its revision and
    verified member keys.  A client that is not authenticated, or is told to stop, knows no network and holds no key.
    A request id is pending exactly when one request waits under it, a free id is found while fewer than 2^32 - 2
    requests wait, and an answer that is handed out fits its request.  Both send budgets hold exactly the
    outstanding sends and the queued events.  Outside the authentication of a new session no event takes a
    network back to an older revision, or brings a revoked one back at the revision of its revocation. *)
Theorem client_state_consistent (me : Me) (c : Client) (R : client_reachable me c) :
  cache_ok (r_cache c) /\
  (serving c = false -> peer_states_ (r_cache c) = ∅ /\ network_keys_ (r_cache c) = ∅) /\
  (forall id l, a_pending (r_attempt c) !! id = Some l <-> exists p, r_controls c !! l = Some p /\ pc_id p = id /\ pc_finished p = false) /\
  (3 + Z.of_nat (size (a_pending (r_attempt c))) <= 2 ^ 32 -> exists id next,
     fresh_id (3 + size (a_pending (r_attempt c))) (a_pending (r_attempt c)) (r_next_id c) = Some (id, next) /\
     id <> 0 /\ id <> capability_request_id /\ a_pending (r_attempt c) !! id = None) /\
  (forall l f c' o, finish_request l c = (Ok f, c', o) ->
     exists p, r_controls c !! l = Some p /\ request_id f = pc_id p /\ check_response p f = Ok false) /\
  sends_ok default_queue_limits (a_sends (r_attempt c)) /\ queue_ok (r_queue c) /\
  (forall source e r c' o, event_ok source c e -> authenticates c e = false -> perform e c = (r, c', o) -> serving c' = true ->
     serving c = true /\ advances (r_cache c) (r_cache c')).
Proof.
  destruct (client_reachable_ok me c R) as [O _]. split_and!.
  - apply O.
  - intros Off. destruct (po_quiet _ _ _ _ _ _ O Off) as [S _]. split; [done|]. apply map_empty. intros id.
    destruct (network_keys_ (r_cache c) !! id) as [k|] eqn:E; [|done]. destruct (ck_keys _ (po_cache _ _ _ _ _ _ O) id k E) as (st & Hs & _).
    by rewrite S, lookup_empty in Hs.
  - intros id l. split; [apply (po_pending _ _ _ _ _ _ O)|]. intros (p & Hp & <- & F). by apply (po_waiting _ _ _ _ _ _ O).
  - intros Few. destruct (fresh_id_returns _ (r_next_id c) Few) as [[id next] E]. exists id, next. split; [done|]. by apply fresh_id_free in E.
  - intros l f c' o E. apply finish_request_answer in E as (_ & p & Hp & Fi & Fl & Rf). exists p. split; [done|].
    pose proof (po_controls _ _ _ _ _ _ O) as Fa. rewrite Forall_lookup in Fa. destruct (Fa l p Hp) as [_ An].
    destruct (An Fi Fl) as (g & Rg & Id & Ck). assert (g = f) as -> by congruence. done.
  - apply O.
  - apply O.
  - intros source e r c' o Ok A E Sv. apply (event_ok_weaken _ (fun _ _ => True)) in Ok; [|done].
    destruct (runs_event_within _ c e Ok O A ltac:(done) _ _ _ E) as [_ [_ W _]]. by apply W.
Qed.

(** A state that may be used: one without a policy, or one the relay confirmed in answer to a request sent less
    than six seconds ago. *)
Definition usable_state (now : Z) (c : Client) (id : bytes) (st : NetworkPeerState) : Prop :=
  peer_states_ (r_cache c) !! id = Some st /\ state_network_id st = id /\
  (has_policy st = true -> exists t, now - t < lease_time /\ confirmed (r_controls c) id t st).
Lemma current_usable now c id st : client_ok c -> peer_states_ (r_cache c) !! id = Some st -> policy_current now (r_cache c) st = true ->
  usable_state now c id st.
Proof.
  intros O E. destruct (ck_states _ (po_cache _ _ _ _ _ _ O) id st E) as (Id & _). unfold policy_current, usable_state. rewrite Id. intros H.
  split; [done|]. split; [done|]. intros P. rewrite P in H. cbn in H. destruct (policy_leases_ (r_cache c) !! id) as [t|] eqn:Et; [|done].
  exists t. bool_prop. split; [done|]. by apply (po_leases _ _ _ _ _ _ O).
Qed.

Lemma transmit_output w f c ok c' l : transmit w f c = (Ok ok, c', l) -> l = (if ok then [out_frame f] else []).
Proof. unfold transmit. destruct (_ || _); [destruct (enqueue _ _ _)|]; by intros [= <- <- <-]. Qed.
Lemma send_output w p c c' l : client_ok c -> send_encrypted_packet w p c = (Ok tt, c', l) ->
  exists st key payload, usable_state (w_now w) c (network_id p) st /\ network_keys_ (r_cache c) !! network_id p = Some key /\
    state_key_epoch st = key_epoch p /\ ks_epoch key = key_epoch p /\ own_address st <> destination_ipv4 p /\
    usable c = true /\ encode_encrypted_network_packet p = Ok payload /\
    (l = [out_datagram payload] \/ l = [out_frame (mk_frame network_packet_send 0 payload)]).
Proof.
  intros O. unfold send_encrypted_packet, mbind at 1, mpure. destruct (encode_encrypted_network_packet p) as [payload|] eqn:E; [|done].
  unfold mbind at 1, mget. unfold mbind at 1, mcheck. destruct (sendable _ _ _) eqn:S; [|done]. cbn [mret].
  unfold mbind at 1. destruct (usable c) eqn:U; [|done]. cbn [mret]. unfold mbind at 1.
  apply sendable_spec in S as (st & key & Es & Ek & P & E1 & E2 & E3). intros H.
  exists st, key, payload. split; [by apply current_usable|]. split_and!; try done.
  destruct (_ && _ && _).
  - left. revert H. unfold transmit_datagram. destruct (send_datagram _ _ _) as [status s]. destruct (quic_succeeded status); cbn; by intros [= <- <-].
  - right. revert H. destruct (transmit _ _ _) as [[[[]|] c1] l1] eqn:Et; cbn; try done. apply transmit_output in Et as ->. by intros [= <- <-].
Qed.

Lemma forwarded_queued w payload c r c' l : client_ok c -> handle_forwarded_packet w payload c = (r, c', l) ->
  q_events (r_queue c') = q_events (r_queue c) \/
  exists d t st peer, decode_forwarded_network_packet payload = Ok d /\ q_events (r_queue c') = q_events (r_queue c) ++ [(packet_message d, t)] /\
    usable_state (w_now w) c (network_id (packet d)) st /\ state_key_epoch st = key_epoch (packet d) /\
    (own_address st = destination_ipv4 (packet d) \/ is_ipv4_fanout_destination (destination_ipv4 (packet d)) (subnet_address st) (prefix_length st) = true) /\
    In peer (peers st) /\ peer_device_id peer = sender_device_id d /\ verified_peer peer /\ has_key peer = true.
Proof.
  intros O. unfold handle_forwarded_packet, mbind at 1, mpure. destruct (decode_forwarded_network_packet payload) as [d|] eqn:D; [|intros [= <- <- <-]; by left].
  unfold mbind, mget. destruct (receivable _ _ _) eqn:V; cbn [negb]; [|intros [= <- <- <-]; by left].
  destruct (reserve _ _ _) as [[t|] b]; intros [= <- <- <-]; [|by left]. right. revert V. unfold receivable.
  destruct (peer_states_ (r_cache c) !! network_id (packet d)) as [st|] eqn:Es; [|done]. rewrite !andb_true_iff, orb_true_iff, !Z.eqb_eq.
  intros [[[P E1] E2] E3]. apply existsb_exists in E3 as (peer & I & E3). bool_prop.
  exists d, t, st, peer. split; [done|]. split; [done|]. split; [by apply current_usable|]. split_and!; try done.
  destruct (ck_states _ (po_cache _ _ _ _ _ _ O) _ _ Es) as (_ & _ & [_ _ Vp]). rewrite List.Forall_forall in Vp. by apply Vp.
Qed.

(** Where the keys of a client come from, and when packets leave and enter. *)
Lemma client_acts_authorized (me : Me) (c : Client) (R : client_reachable me c) :
  (forall source e r c' o, event_ok source c e -> perform e c = (r, c', o) ->
     keys_kept (r_cache c) (r_cache c') (fun id k => source id k \/ event_source c e id k)) /\
  (forall w p c' o, send_encrypted_packet w p c = (Ok tt, c', o) ->
     exists st key payload, usable_state (w_now w) c (network_id p) st /\ network_keys_ (r_cache c) !! network_id p = Some key /\
       state_key_epoch st = key_epoch p /\ ks_epoch key = key_epoch p /\ own_address st <> destination_ipv4 p /\
       usable c = true /\ encode_encrypted_network_packet p = Ok payload /\
       (o = [out_datagram payload] \/ o = [out_frame (mk_frame network_packet_send 0 payload)])) /\
  (forall w payload r c' o, handle_forwarded_packet w payload c = (r, c', o) ->
     q_events (r_queue c') = q_events (r_queue c) \/
     exists d t st peer, decode_forwarded_network_packet payload = Ok d /\ q_events (r_queue c') = q_events (r_queue c) ++ [(packet_message d, t)] /\
       usable_state (w_now w) c (network_id (packet d)) st /\ state_key_epoch st = key_epoch (packet d) /\
       (own_address st = destination_ipv4 (packet d) \/ is_ipv4_fanout_destination (destination_ipv4 (packet d)) (subnet_address st) (prefix_length st) = true) /\
       In peer (peers st) /\ peer_device_id peer = sender_device_id d /\ verified_peer peer /\ has_key peer = true).
Proof.
  destruct (client_reachable_ok me c R) as [O _]. split_and!.
  - intros source e r c' o Ok E. set (all := fun id k => _).
    apply (event_ok_weaken _ all) in Ok; [|intros id k H; by left].
    destruct (runs_event_keeps all c e Ok O ltac:(intros id k H; by right) _ _ _ E) as [_ [_ K]]. done.
  - intros w p c' o. by apply send_output.
  - intros w payload r c' o. by apply forwarded_queued.
Qed.
End Session.
