(* ===== verification/ClientScenario.v ===== *)
(** * A client joins and sends

    Alice of [PacketCipher] connects over TLS, authenticates, learns of the network she owns, whose policy she has
    confirmed, and sends a packet to Bob: the theorems on the relay client at concrete states. *)
From S2P Require Import Limits Candidates Capabilities QuicSend PathDiagnostics UserAccess NetworkManagement Handshake.
From S2P Require Import Prelude Codec StreamDecoder Ipv4 NetworkPolicy NetworkMessages PacketMessages Crypto PacketCipher RelayStore RoutedNetwork.
From S2P Require Import ClientCache RelayClient ClientSafety ClientSession.

#[local] Existing Instance toy_crypto.
#[local] Existing Instance toy_mac.
#[global] Instance sample_layout : Layout := {| sizeof_forwarded := 200; sizeof_event := 64 |}.
#[global] Instance sample_layout_laws : LayoutLaws sample_layout.
Proof. split; vm_compute; split; reflexivity. Qed.

Definition client_me : Me := mk_me alice alice hs_token true 5.
Definition world_at (now : Z) : World :=
  mk_world now (Some (replicate 32 x08)) (fun _ => Some (replicate 12 x09)) (Some hs_cn) (Some alice) (fun _ => true) (fun _ => true) true true.
Definition empty_sends : Sends := ok_or (mk_sends (mk_budget default_queue_limits 0 0 0) []) (new_sends default_queue_limits).
Definition undisturbed (c : Client) : Client := c.
Definition after (e : ClientEvent) (c : Client) : Client := snd (fst (perform e c)).

Definition governed : NetworkPeerState :=
  let st := sample_state 0x0a400002 0x0a400003 bob in
  mk_peer_state (state_network_id st) 1 (subnet_address st) 24 (own_address st) (peers st) alice 3 (Some default_policy).
Definition governed_bytes : bytes := ok_or [] (encode_network_peer_state governed).
Definition frame_event (f : Frame) : ClientEvent := ev_frame (world_at 10) undisturbed f.

Definition client_events : list ClientEvent :=
  [ev_run; ev_tcp (world_at 1) empty_sends; frame_event (mk_frame server_hello 1 hs_sn);
   frame_event (mk_frame auth_result 1 (x01 :: hs_session)); frame_event (mk_frame network_peer_state_update 0 governed_bytes);
   ev_call (world_at 20) (call_fetch sample_network) 500; frame_event (mk_frame network_peer_state_result 2 governed_bytes);
   ev_answer 0 (call_fetch sample_network)].
Definition client_start : Client :=
  ok_or (mk_relay_client client_me false false false None empty_cache (fresh_attempt empty_sends false false no_handshake 0) false [] 2
    (mk_queue [] None (mk_budget default_queue_limits 0 0 0)) 0 0 0 0 no_error) (first_client client_me).
Definition client_ready : Client := fold_left (fun c e => after e c) client_events client_start.

Definition no_keys : KeySource := fun _ _ => False.
Lemma undisturbed_lawful : lawful no_keys undisturbed.
Proof. intros c O. split; [done|by apply within_same]. Qed.

Fixpoint possible (es : list ClientEvent) (c : Client) : Prop :=
  match es with [] => True | e :: es => event_ok no_keys c e /\ possible es (after e c) end.
Lemma reachable_event me e c : client_reachable me c -> event_ok no_keys c e -> client_reachable me (after e c).
Proof.
  intros R Ok. destruct (perform e c) as [[r c'] l] eqn:E. apply (cr_event me no_keys c e r _ l R Ok). unfold after. by rewrite E.
Qed.
Lemma reachable_after me es c : client_reachable me c -> possible es c -> client_reachable me (fold_left (fun c e => after e c) es c).
Proof.
  revert c. induction es as [|e es IH]; intros c R; [done|]. intros [Ok P]. cbn. apply IH; [by apply reachable_event|done].
Qed.

Lemma client_ready_reachable : client_reachable client_me client_ready.
Proof.
  apply reachable_after; [apply cr_first; vm_compute; reflexivity|].
  split; [exact I|]. split; [vm_compute; reflexivity|]. do 3 (split; [exact undisturbed_lawful|]). split; [vm_compute; discriminate|].
  split; [exact undisturbed_lawful|]. split; [|exact I].
  eexists. split; [vm_compute; reflexivity|reflexivity].
Qed.

(** Told to stop, Alice forgets the network. *)
Lemma client_state_consistent_witness :
  serving client_ready = true /\ serving (after ev_stop client_ready) = false /\ peer_states_ (r_cache (after ev_stop client_ready)) = ∅.
Proof.
  split; [vm_compute; reflexivity|]. split; [vm_compute; reflexivity|].
  assert (R : client_reachable client_me (after ev_stop client_ready)) by exact (reachable_event _ ev_stop _ client_ready_reachable I).
  apply (client_state_consistent client_me (after ev_stop client_ready) R). vm_compute. reflexivity.
Defined.
