(* ===== verification/Directory.v ===== *)
(** * The relay directory

    auth/directory.hpp and .cpp: the signed catalog of relays, its encoding and verification, and the choice of
    the relay a client starts with.  Strings are byte strings; the fetch of the catalog is the argument
    [fetch] of [resolve_bootstrap]. *)
From S2P Require Import Prelude Wire Codec NetworkMessages Crypto Handshake.

Inductive DirectoryScope := scope_legacy | scope_official | scope_self_hosted | unassigned_scope (raw : Z).
#[global] Instance DirectoryScope_eq_dec : EqDecision DirectoryScope.
Proof. solve_decision. Defined.
Definition scope_value (s : DirectoryScope) : Z :=
  match s with scope_legacy => 0 | scope_official => 1 | scope_self_hosted => 2 | unassigned_scope raw => raw end.
Definition scope_cast (raw : Z) : DirectoryScope :=
  match raw with 0 => scope_legacy | 1 => scope_official | 2 => scope_self_hosted | _ => unassigned_scope raw end.

Record RelayEndpoint := mk_relay {
  re_id : bytes; re_host : bytes; re_port : Z; re_region : bytes; re_capacity : Z; re_version : Z; re_authority : bytes; re_health_key : bytes }.
#[global] Instance RelayEndpoint_eq_dec : EqDecision RelayEndpoint.
Proof. solve_decision. Defined.
(** The members that have defaults. *)
Definition plain_relay (id host : bytes) (port : Z) : RelayEndpoint := mk_relay id host port [] 0 protocol_version [] (zeros 32).

Record DirectoryCatalog := mk_catalog {
  dc_issued : Z; dc_expires : Z; dc_relays : list RelayEndpoint; dc_scope : DirectoryScope; dc_revision : Z }.

(** ** Encoding *)

(** The letters, digits, dots and dashes of identifiers. *)
Definition name_char (b : byte) : bool :=
  let c := b2z b in
  ((97 <=? c) && (c <=? 122)) || ((65 <=? c) && (c <=? 90)) || ((48 <=? c) && (c <=? 57)) || (c =? 46) || (c =? 45).
Definition valid_text (limit : Z) (s : bytes) : bool := negb (bool_decide (s = [])) && negb (len s >? limit) && forallb name_char s.
Definition put_text (limit : Z) (s : bytes) : result bytes :=
  check! valid_text limit s else invalid_argument in Ok (put_be 2 (len s) ++ s).
Definition get_text (r : BinaryReader.t) : result (bytes * BinaryReader.t) :=
  let* (n, r) := BinaryReader.get 2 r in BinaryReader.bytes_ n r.

Definition max_capacity : Z := 1000000.
Definition regional_ok (addresses : gset (bytes * Z)) (e : RelayEndpoint) : bool :=
  negb ((re_capacity e =? 0) || (re_capacity e >? max_capacity) || (re_version e =? 0) || is_zero (re_health_key e) ||
        bool_decide ((re_host e, re_port e) ∈ addresses)).
Definition plain_ok (e : RelayEndpoint) : bool :=
  negb (negb (bool_decide (re_region e = [])) || negb (re_capacity e =? 0) || negb (bool_decide (re_authority e = [])) ||
        negb (is_zero (re_health_key e)) || negb (re_version e =? protocol_version)).

(** The loop over the relays with the ids and addresses seen so far. *)
Fixpoint put_relays (regional : bool) (ids : gset bytes) (addresses : gset (bytes * Z)) (l : list RelayEndpoint) : result bytes :=
  match l with
  | [] => Ok []
  | e :: l =>
      check! bool_decide (re_id e ∉ ids) && negb (re_port e =? 0) else invalid_argument in
      let* id := put_text 64 (re_id e) in
      let* host := put_text 253 (re_host e) in
      if regional then
        check! regional_ok addresses e else invalid_argument in
        let* region := put_text 32 (re_region e) in
        let* authority := put_text 64 (re_authority e) in
        let* rest := put_relays regional ({[re_id e]} ∪ ids) ({[(re_host e, re_port e)]} ∪ addresses) l in
        Ok (id ++ host ++ put_be 2 (re_port e) ++ region ++ put_be 4 (re_capacity e) ++ put_be 2 (re_version e) ++ authority ++ re_health_key e ++ rest)
      else
        check! plain_ok e else invalid_argument in
        let* rest := put_relays regional ({[re_id e]} ∪ ids) addresses l in
        Ok (id ++ host ++ put_be 2 (re_port e) ++ rest)
  end.

Definition max_directory_relays : Z := 32.
Definition is_regional (c : DirectoryCatalog) : bool := negb (bool_decide (dc_scope c = scope_legacy)).
Definition plain_magic : Z := 0x4c4c4431.
Definition regional_magic : Z := 0x4c4c4432.

Definition directory_body (c : DirectoryCatalog) : result bytes :=
  check! negb (bool_decide (dc_relays c = []) || (len (dc_relays c) >? max_directory_relays) || (dc_expires c <=? dc_issued c) ||
               (dc_expires c - dc_issued c >? 86400000)) else invalid_argument in
  let regional := is_regional c in
  check! negb ((regional && ((scope_value (dc_scope c) >? scope_value scope_self_hosted) || (dc_revision c =? 0))) ||
               (negb regional && negb (dc_revision c =? 0))) else invalid_argument in
  let* relays := put_relays regional ∅ ∅ (dc_relays c) in
  Ok (put_be 4 (if regional then regional_magic else plain_magic) ++ put_be 8 (dc_issued c) ++ put_be 8 (dc_expires c) ++
      (if regional then put_be 8 (dc_revision c) ++ put_be 1 (scope_value (dc_scope c)) else []) ++
      put_be 1 (len (dc_relays c)) ++ relays).

(** ** Decoding *)

Definition get_relay (regional : bool) (r : BinaryReader.t) : result (RelayEndpoint * BinaryReader.t) :=
  let* (id, r) := get_text r in
  let* (host, r) := get_text r in
  let* (port, r) := BinaryReader.get 2 r in
  if regional then
    let* (region, r) := get_text r in
    let* (capacity, r) := BinaryReader.get 4 r in
    let* (version, r) := BinaryReader.get 2 r in
    let* (authority, r) := get_text r in
    let* (key, r) := BinaryReader.array 32 r in
    Ok (mk_relay id host port region capacity version authority key, r)
  else Ok (plain_relay id host port, r).

Definition read_catalog (bs : bytes) : result DirectoryCatalog :=
  let* (magic, r) := BinaryReader.get 4 bs in
  check! (magic =? plain_magic) || (magic =? regional_magic) else invalid_argument in
  let* (issued, r) := BinaryReader.get 8 r in
  let* (expires, r) := BinaryReader.get 8 r in
  let regional := magic =? regional_magic in
  let* (head, r) :=
    if regional then
      let* (revision, r) := BinaryReader.get 8 r in
      let* (scope, r) := BinaryReader.get 1 r in
      check! negb (bool_decide (scope_cast scope = scope_legacy)) else invalid_argument in
      Ok ((revision, scope_cast scope), r)
    else Ok ((0, scope_legacy), r) in
  let* (count, r) := BinaryReader.get 1 r in
  check! negb (count >? max_directory_relays) else invalid_argument in
  let* (relays, r) := BinaryReader.read_n (Z.to_nat count) (get_relay regional) r in
  let* _ := BinaryReader.finish r in
  let c := mk_catalog issued expires relays (snd head) (fst head) in
  let* _ := directory_body c in
  Ok c.

(** [parse_directory_key]. *)
Definition hex_digit (b : byte) : result Z :=
  let c := b2z b in
  if (48 <=? c) && (c <=? 57) then Ok (c - 48)
  else if (97 <=? c) && (c <=? 102) then Ok (c - 97 + 10)
  else if (65 <=? c) && (c <=? 70) then Ok (c - 65 + 10)
  else Throw invalid_argument.
Fixpoint hex_pairs (s : bytes) : result bytes :=
  match s with
  | a :: b :: s =>
      let* x := hex_digit a in
      let* y := hex_digit b in
      let* rest := hex_pairs s in
      Ok (z2b (Z.lor (Z.shiftl x 4) y) :: rest)
  | _ => Ok []
  end.
Definition parse_directory_key (hex : bytes) : result bytes :=
  check! len hex =? 64 else invalid_argument in
  let* key := hex_pairs hex in
  check! negb (is_zero key) else invalid_argument in
  Ok key.

Section Directory.
Context {C : Crypto}.

Definition sign_directory (c : DirectoryCatalog) (identity : bytes) : result bytes :=
  let* bs := directory_body c in
  let* signature := identity_sign identity bs in
  Ok (bs ++ signature).

Definition verify_directory (response key : bytes) (now_ms : Z) : result DirectoryCatalog :=
  check! negb ((len response <? 85) || (len response >? 16384)) else invalid_argument in
  let payload := take (length response - 64) response in
  let signature := drop (length response - 64) response in
  let* ok := verify_signature key payload signature in
  check! ok else invalid_argument in
  let* c := read_catalog payload in
  check! negb ((now_ms <? dc_issued c) || (now_ms >=? dc_expires c)) else invalid_argument in
  Ok c.

(** The options of [RuntimeConfig] that name the directory. *)
Record BootstrapConfig := mk_bootstrap {
  bc_relay_host : bytes; bc_relay_port : Z; bc_mode : bytes; bc_url : bytes; bc_public_key : bytes; bc_relay_id : bytes }.
Record BootstrapResult := mk_bootstrap_result {
  br_relay : RelayEndpoint; br_from_directory : bool; br_failed : bool; br_pool : list RelayEndpoint; br_expires : Z; br_revision : Z }.

Definition wanted_relay (config : BootstrapConfig) (e : RelayEndpoint) : bool :=
  (re_version e =? protocol_version) && (bool_decide (bc_relay_id config = []) || bool_decide (re_id e = bc_relay_id config)).

(** The body of the [try]. *)
Definition bootstrap_from (config : BootstrapConfig) (fetch : bytes -> result bytes) (now_ms : Z) : result BootstrapResult :=
  let* response := fetch (bc_url config) in
  let* key := parse_directory_key (bc_public_key config) in
  let* c := verify_directory response key now_ms in
  let expected := if bool_decide (bc_mode config = str "official") then scope_official else scope_self_hosted in
  check! negb (negb (bool_decide (dc_scope c = scope_legacy)) && negb (bool_decide (dc_scope c = expected))) else runtime_error in
  match List.find (wanted_relay config) (dc_relays c) with
  | None => Throw runtime_error
  | Some e =>
      let pool :=
        if negb (bool_decide (dc_scope c = scope_legacy)) && bool_decide (bc_relay_id config = [])
        then List.filter (fun p => bool_decide (re_authority p = re_authority e) && (re_version p =? protocol_version)) (dc_relays c)
        else [e] in
      Ok (mk_bootstrap_result e true false pool (dc_expires c) (dc_revision c))
  end.
Definition resolve_bootstrap (config : BootstrapConfig) (fetch : bytes -> result bytes) (now_ms : Z) : BootstrapResult :=
  let manual := plain_relay (str "manual") (bc_relay_host config) (bc_relay_port config) in
  if bool_decide (bc_mode config = str "manual") then mk_bootstrap_result manual false false [] 0 0
  else match bootstrap_from config fetch now_ms with
       | Ok r => r
       | Throw _ => mk_bootstrap_result manual false true [] 0 0
       end.
End Directory.

(** ** The encoding is read back exactly *)

Definition text_bytes (s : bytes) : bytes := put_be 2 (len s) ++ s.
Definition relay_bytes (regional : bool) (e : RelayEndpoint) : bytes :=
  text_bytes (re_id e) ++ text_bytes (re_host e) ++ put_be 2 (re_port e) ++
  if regional then text_bytes (re_region e) ++ put_be 4 (re_capacity e) ++ put_be 2 (re_version e) ++ text_bytes (re_authority e) ++ re_health_key e
  else [].

Definition wf_relay (e : RelayEndpoint) : Prop :=
  word 2 (re_port e) /\ word 4 (re_capacity e) /\ word 2 (re_version e) /\ length (re_health_key e) = 32%nat.
Definition wf_catalog (c : DirectoryCatalog) : Prop :=
  word 8 (dc_issued c) /\ word 8 (dc_expires c) /\ word 8 (dc_revision c) /\ word 1 (scope_value (dc_scope c)) /\
  scope_cast (scope_value (dc_scope c)) = dc_scope c /\ Forall wf_relay (dc_relays c).

(** What each relay of an encoded catalog satisfies. *)
Record relay_fields (regional : bool) (e : RelayEndpoint) : Prop := mk_relay_fields {
  rf_id : valid_text 64 (re_id e) = true; rf_host : valid_text 253 (re_host e) = true; rf_port : re_port e <> 0;
  rf_regional : regional = true -> valid_text 32 (re_region e) = true /\ valid_text 64 (re_authority e) = true /\
    0 < re_capacity e <= max_capacity /\ re_version e <> 0 /\ is_zero (re_health_key e) = false;
  rf_plain : regional = false -> plain_ok e = true }.

Lemma put_text_ok limit s bs : put_text limit s = Ok bs -> valid_text limit s = true /\ bs = text_bytes s.
Proof. unfold put_text. intros H. ok_inv H. by subst. Qed.
Lemma valid_text_len limit s : valid_text limit s = true -> len s <= limit.
Proof. unfold valid_text. intros H. bool_prop. lia. Qed.

Lemma put_relays_ok regional ids addresses l bs : Forall wf_relay l -> put_relays regional ids addresses l = Ok bs ->
  bs = concat (map (relay_bytes regional) l) /\ Forall (relay_fields regional) l.
Proof.
  revert ids addresses bs. induction l as [|e l IH]; intros ids addresses bs F H; cbn [put_relays] in H.
  { apply Ok_inj in H as <-. by split. }
  apply Forall_cons in F as [We F]. ok_inv H. destruct We as (_ & Wc & _). words.
  repeat match goal with E : put_text _ _ = Ok _ |- _ => apply put_text_ok in E as [? ->] end.
  destruct regional; ok_inv H; subst bs;
    repeat match goal with E : put_text _ _ = Ok _ |- _ => apply put_text_ok in E as [? ->] end;
    match goal with E : put_relays _ _ _ _ = Ok _ |- _ => apply (IH _ _ _ F) in E as [-> Fl] end;
    (split; [cbn [map concat]; unfold relay_bytes; rewrite <- ?app_assoc; by rewrite ?app_nil_r|constructor; [|done]]); bool_prop.
  - split; try done. intros _. unfold regional_ok in *. bool_prop. split_and!; try done; lia.
  - by split.
Qed.

Lemma directory_text_app s rest : len s < 65536 -> get_text (text_bytes s ++ rest) = Ok (s, rest).
Proof.
  intros L. unfold get_text, text_bytes. rewrite <- app_assoc, BinaryReader.get_app by (pose proof (len_nonneg s); words; lia).
  by apply BinaryReader.bytes_app.
Qed.
Lemma directory_text_inv data s r : get_text data = Ok (s, r) -> data = text_bytes s ++ r.
Proof.
  unfold get_text. intros H. ok_inv H. br_inv. apply BinaryReader.bytes_inv in H as [-> L]. words. unfold text_bytes.
  rewrite L by lia. by rewrite <- app_assoc.
Qed.

Lemma get_relay_app regional e rest : wf_relay e -> relay_fields regional e -> get_relay regional (relay_bytes regional e ++ rest) = Ok (e, rest).
Proof.
  intros (Wp & Wc & Wv & Lk) [Vi Vh _ Vr Vp]. apply valid_text_len in Vi, Vh. unfold get_relay, relay_bytes. rewrite <- !app_assoc.
  rewrite directory_text_app by lia. rewrite directory_text_app by lia. br_read. destruct regional.
  - destruct (Vr eq_refl) as (V1 & V2 & _). apply valid_text_len in V1, V2. rewrite <- !app_assoc.
    rewrite directory_text_app by lia. br_read. rewrite directory_text_app by lia. br_read. by destruct e.
  - specialize (Vp eq_refl). unfold plain_ok in Vp. bool_prop.
    assert (K : re_health_key e = zeros 32) by (unfold zeros; rewrite <- Lk; by apply is_zero_iff).
    destruct e. cbn in *. by subst.
Qed.
Lemma get_relay_inv regional data e r : get_relay regional data = Ok (e, r) -> data = relay_bytes regional e ++ r /\ wf_relay e.
Proof.
  unfold get_relay. intros H. ok_inv H.
  repeat match goal with E : get_text _ = Ok _ |- _ => apply directory_text_inv in E end. subst. br_inv. destruct regional.
  - ok_inv H. injection H as <- <-. repeat match goal with E : get_text _ = Ok _ |- _ => apply directory_text_inv in E end. subst. br_inv.
    split; [|done]. unfold relay_bytes. cbn [re_id re_host re_port re_region re_capacity re_version re_authority re_health_key]. by rewrite <- !app_assoc.
  - apply Ok_inj in H. injection H as <- <-. split; [|done]. unfold relay_bytes. cbn. by rewrite <- !app_assoc.
Qed.

Lemma regional_scope c : wf_catalog c -> is_regional c = true <-> scope_value (dc_scope c) <> 0.
Proof.
  intros (_ & _ & _ & _ & E & _). unfold is_regional. rewrite negb_true_iff, bool_decide_eq_false. split.
  - intros N Z0. apply N. rewrite <- E, Z0. done.
  - intros N D. apply N. by rewrite D.
Qed.

Lemma scope_cast_value z : word 1 z -> scope_value (scope_cast z) = z.
Proof.
  intros W. words. destruct z as [|p|p]; [done| |lia]. destruct p as [p|p|]; [|destruct p|]; done.
Qed.

(** The layout of a catalog, and what an encoded one satisfies. *)
Definition catalog_bytes (c : DirectoryCatalog) : bytes :=
  put_be 4 (if is_regional c then regional_magic else plain_magic) ++ put_be 8 (dc_issued c) ++ put_be 8 (dc_expires c) ++
  (if is_regional c then put_be 8 (dc_revision c) ++ put_be 1 (scope_value (dc_scope c)) else []) ++
  put_be 1 (len (dc_relays c)) ++ concat (map (relay_bytes (is_regional c)) (dc_relays c)).
Record catalog_ok (c : DirectoryCatalog) : Prop := mk_catalog_ok {
  co_count : 0 < len (dc_relays c) <= max_directory_relays;
  co_time : dc_issued c < dc_expires c <= dc_issued c + 86400000;
  co_revision : dc_revision c = 0 <-> dc_scope c = scope_legacy;
  co_scope : dc_scope c ∈ [scope_legacy; scope_official; scope_self_hosted];
  co_relays : Forall (relay_fields (is_regional c)) (dc_relays c) }.

Lemma directory_body_ok c bs : wf_catalog c -> directory_body c = Ok bs -> bs = catalog_bytes c /\ catalog_ok c.
Proof.
  intros (Wi & We & Wr & Ws & Es & F) H. unfold directory_body in H. ok_inv H. subst bs. words.
  match goal with E : put_relays _ _ _ _ = Ok _ |- _ => apply (put_relays_ok _ _ _ _ _ F) in E as [-> Fl] end.
  split; [done|]. bool_prop. pose proof (len_nonneg (dc_relays c)).
  assert (len (dc_relays c) <> 0) by (unfold len; destruct (dc_relays c); [done|cbn; lia]).
  assert (Rg : is_regional c = negb (bool_decide (dc_scope c = scope_legacy))) by done.
  destruct (bool_decide_reflect (dc_scope c = scope_legacy)) as [E|E]; cbn [negb] in Rg; rewrite Rg in *; cbn [negb andb orb] in *; bool_prop.
  - split; rewrite ?Rg; try done; try lia. rewrite E. by left.
  - split; rewrite ?Rg; try done; try lia. rewrite !elem_of_cons. destruct (dc_scope c) as [| | |r]; auto. exfalso. cbn in *.
    destruct r as [|p|p]; [done| |lia]. destruct p as [p|p|]; [lia|destruct p; [lia|lia|done]|done].
Qed.

(** A catalog is read from exactly the bytes it is signed as. *)
Lemma catalog_codec bs c : read_catalog bs = Ok c <-> wf_catalog c /\ directory_body c = Ok bs.
Proof.
  split.
  - unfold read_catalog. intros H. ok_inv H. subst c. bool_prop.
    match goal with E : BinaryReader.read_n _ _ _ = Ok _ |- _ => apply (BinaryReader.read_n_inv _ _ wf_relay (get_relay_inv _)) in E as (-> & Ln & F) end.
    br_inv.
    match goal with E : (if ?z =? _ then _ else _) = Ok _, M : (?z =? _) || _ = true, B : directory_body ?v = Ok ?b |- _ =>
      rename E into Hd; rename M into Mg; rename z into mg; rename B into Bd; set (c := v) in *; rename b into body end.
    assert (W : wf_catalog c /\ put_be 4 mg ++ put_be 8 x0 ++ put_be 8 x1 ++ r1 = catalog_bytes c).
    { destruct (mg =? regional_magic) eqn:Em; bool_prop.
      - ok_inv Hd. pose proof (f_equal fst Hd) as E1. pose proof (f_equal snd Hd) as E2. cbn [fst snd] in E1, E2. subst. br_inv. bool_prop.
        assert (Rg : is_regional c = true) by (unfold is_regional, c; cbn; by rewrite bool_decide_false).
        split; [unfold wf_catalog, c; cbn; rewrite scope_cast_value by done; by split_and!|].
        unfold catalog_bytes. rewrite Rg. unfold c. cbn [dc_issued dc_expires dc_revision dc_scope dc_relays fst snd].
        rewrite scope_cast_value by done. rewrite app_nil_r, <- !app_assoc. words. repeat f_equal. unfold len. lia.
      - apply Ok_inj in Hd. pose proof (f_equal fst Hd) as E1. pose proof (f_equal snd Hd) as E2. cbn [fst snd] in E1, E2. subst x2 r1. apply orb_true_iff in Mg as [Mg|Mg]; bool_prop; [|done]. subst mg.
        split; [unfold wf_catalog, c; cbn; by split_and!|]. unfold catalog_bytes. change (is_regional c) with false. unfold c.
        cbn [dc_issued dc_expires dc_relays]. rewrite app_nil_r. cbn [app]. words. repeat f_equal. unfold len. lia. }
    destruct W as [W E]. split; [done|]. rewrite Bd. f_equal. destruct (directory_body_ok c body W Bd) as [-> _]. by symmetry.
  - intros [W H]. destruct (directory_body_ok c bs W H) as [E K]. destruct K as [Kc Kt Kr Ks Kf]. destruct W as (Wi & We & Wr & Ws & Es & F).
    unfold read_catalog. rewrite E. unfold catalog_bytes. unfold max_directory_relays in *.
    assert (Rd : forall r, r = is_regional c ->
      BinaryReader.read_n (Z.to_nat (len (dc_relays c))) (get_relay r) (concat (map (relay_bytes r) (dc_relays c)) ++ []) = Ok (dc_relays c, [])).
    { intros r ->. replace (Z.to_nat (len (dc_relays c))) with (length (dc_relays c)) by (unfold len; lia).
      apply BinaryReader.read_n_app. intros e rest He. rewrite Forall_forall in F, Kf. apply get_relay_app; auto. }
    assert (Wl : word 1 (len (dc_relays c))) by (words; lia).
    rewrite <- (app_nil_r (concat _)). destruct (is_regional c) eqn:Rg; rewrite <- ?app_assoc.
    + rewrite BinaryReader.get_app by done. change (regional_magic =? regional_magic) with true. rewrite orb_true_r. br_read.
      rewrite Es. unfold is_regional in Rg. rewrite Rg. br_read. guard_true by lia. rewrite (Rd true) by done. cbn [BinaryReader.finish fst snd].
      destruct c. cbn in *. by rewrite H.
    + rewrite BinaryReader.get_app by done. change (plain_magic =? plain_magic) with true. change (plain_magic =? regional_magic) with false. cbn [orb app]. br_read.
      guard_true by lia. rewrite (Rd false) by done. cbn [BinaryReader.finish fst snd]. unfold is_regional in Rg. bool_prop.
      destruct c. cbn in *. subst. rewrite (proj2 Kr eq_refl) in *. by rewrite H.
Qed.

Section Trust.
Context {C : Crypto}.

(** A response is accepted exactly when it is a catalog signed with the pinned key and inside its lifetime. *)
Lemma verify_directory_spec response key now c : verify_directory response key now = Ok c <->
  exists payload signature, response = payload ++ signature /\ length signature = 64%nat /\ 85 <= len response <= 16384 /\
    verify_signature key payload signature = Ok true /\ wf_catalog c /\ directory_body c = Ok payload /\ dc_issued c <= now < dc_expires c.
Proof.
  unfold verify_directory. split.
  - intros H. ok_inv H. subst c. bool_prop. match goal with E : read_catalog _ = Ok _ |- _ => apply catalog_codec in E as [W B] end.
    exists (take (length response - 64) response), (drop (length response - 64) response).
    rewrite take_drop, length_drop. unfold len in *. split_and!; try congruence; try done; try lia.
  - intros (payload & signature & -> & Ls & Sz & V & W & B & T). guard_true by lia.
    replace (length (payload ++ signature) - 64)%nat with (length payload) by (rewrite length_app; lia).
    rewrite take_app_length, drop_app_length, V. rewrite (proj2 (catalog_codec payload c)) by done. guard_true by lia. done.
Qed.

Lemma sign_verify_directory {L : CryptoLaws C} c identity response now : wf_catalog c -> sign_directory c identity = Ok response ->
  len response <= 16384 -> dc_issued c <= now < dc_expires c -> verify_directory response (ed25519_public identity) now = Ok c.
Proof.
  intros W H Sz T. unfold sign_directory, identity_sign in H. ok_inv H. subst response.
  match goal with E : (match ed25519_sign _ ?b with _ => _ end) = Ok _ |- _ => destruct (ed25519_sign identity b) as [sg|] eqn:Es; [|done]; destruct (_ =? _); [|done]; apply Ok_inj in E; subst sg end.
  pose proof (sign_length _ _ _ Es). apply verify_directory_spec. eexists _, _. split_and!; try done; try lia.
  - destruct (directory_body_ok c _ W E) as [-> _]. unfold catalog_bytes. rewrite !len_app. unfold len. rewrite !length_put_be. lia.
  - unfold verify_signature. by rewrite (sign_verifies _ _ _ Es).
Qed.

(** What the start relay is: the configured one, or one of a verified catalog of the configured scope. *)
Definition bootstrap_ok (config : BootstrapConfig) (fetch : bytes -> result bytes) (now : Z) (r : BootstrapResult) : Prop :=
  (br_from_directory r = false /\ br_relay r = plain_relay (str "manual") (bc_relay_host config) (bc_relay_port config) /\ br_pool r = []) \/
  (br_from_directory r = true /\ br_failed r = false /\ bc_mode config <> str "manual" /\
   exists response key c, fetch (bc_url config) = Ok response /\ parse_directory_key (bc_public_key config) = Ok key /\
     verify_directory response key now = Ok c /\ br_expires r = dc_expires c /\ br_revision r = dc_revision c /\
     (dc_scope c = scope_legacy \/ dc_scope c = (if bool_decide (bc_mode config = str "official") then scope_official else scope_self_hosted)) /\
     br_relay r ∈ br_pool r /\ (bc_relay_id config <> [] -> re_id (br_relay r) = bc_relay_id config) /\
     Forall (fun p => p ∈ dc_relays c /\ re_version p = protocol_version /\ re_authority p = re_authority (br_relay r)) (br_pool r)).
Lemma bootstrap_trusted config fetch now : bootstrap_ok config fetch now (resolve_bootstrap config fetch now).
Proof.
  unfold resolve_bootstrap. destruct (bool_decide_reflect (bc_mode config = str "manual")) as [|Nm]; [by left|].
  destruct (bootstrap_from config fetch now) as [r|] eqn:H; [|by left]. right. unfold bootstrap_from in H. ok_inv H.
  match goal with E : verify_directory _ _ _ = Ok ?c |- _ => rename c into cat end.
  destruct (List.find (wanted_relay config) (dc_relays cat)) as [e|] eqn:Fe; [|done]. apply Ok_inj in H as <-.
  apply List.find_some in Fe as [I W]. apply list_elem_of_In in I. unfold wanted_relay in W. apply andb_true_iff in W as [Wv Wi]. bool_prop.
  cbn [br_from_directory br_failed br_relay br_pool br_expires br_revision]. split_and!; try done.
  eexists _, _, cat. split_and!; try done.
  - match goal with G : negb (bool_decide (dc_scope cat = scope_legacy)) && _ = false |- _ => rename G into Gs end.
    destruct (bool_decide_reflect (dc_scope cat = scope_legacy)); [by left|]. right. cbn in Gs. by bool_prop.
  - destruct (negb _ && bool_decide (bc_relay_id config = [])); [|by left]. apply list_elem_of_In, List.filter_In. split; [by apply list_elem_of_In|]. apply andb_true_iff.
    split; [by apply bool_decide_eq_true|by apply Z.eqb_eq].
  - intros N. apply orb_true_iff in Wi as [Wi|Wi]; bool_prop; done.
  - destruct (negb _ && bool_decide (bc_relay_id config = [])).
    + apply Forall_forall. intros p Hp. apply list_elem_of_In, List.filter_In in Hp as [Hp Q]. apply list_elem_of_In in Hp. by bool_prop.
    + constructor; [done|constructor].
Qed.
End Trust.
