(* ===== verification/RelayHealth.v ===== *)
(** * Relay health

    auth/relay_health.hpp and .cpp: the report a relay signs in answer to a challenge, and how a client checks it
    against the directory's entry for that relay. *)
From S2P Require Import Prelude Wire Codec NetworkMessages Crypto Handshake Directory.

Record RelayHealth := mk_health {
  rh_nonce : bytes; rh_relay : bytes; rh_authority : bytes; rh_issued : Z; rh_uptime : Z; rh_capacity : Z; rh_active : Z; rh_upstream_rtt : Z;
  rh_forwarded : Z; rh_forwarded_bytes : Z; rh_dropped : Z; rh_admitted : Z; rh_admitted_bytes : Z; rh_quota : Z; rh_control : Z;
  rh_accounting : bool; rh_ready : bool }.

Definition health_ok (v : RelayHealth) : bool :=
  negb (is_zero (rh_nonce v) || (rh_capacity v =? 0) || (rh_capacity v >? max_capacity) || (rh_active v >? rh_capacity v)) &&
  negb (negb (rh_accounting v) && (negb (rh_admitted v =? 0) || negb (rh_admitted_bytes v =? 0) || negb (rh_quota v =? 0) || negb (rh_control v =? 0))).

Definition health_magic : Z := 0x4c4c4831.
Definition accounting_magic : Z := 0x4c4c4832.
Definition health_body (v : RelayHealth) : result bytes :=
  check! health_ok v else invalid_argument in
  let* relay := put_text 64 (rh_relay v) in
  let* authority := put_text 64 (rh_authority v) in
  Ok (put_be 4 (if rh_accounting v then accounting_magic else health_magic) ++ put_be 2 protocol_version ++ relay ++ authority ++ rh_nonce v ++
      put_be 8 (rh_issued v) ++ put_be 8 (rh_uptime v) ++ put_be 4 (rh_capacity v) ++ put_be 4 (rh_active v) ++ put_be 4 (rh_upstream_rtt v) ++
      put_be 8 (rh_forwarded v) ++ put_be 8 (rh_forwarded_bytes v) ++ put_be 8 (rh_dropped v) ++
      (if rh_accounting v then put_be 8 (rh_admitted v) ++ put_be 8 (rh_admitted_bytes v) ++ put_be 8 (rh_quota v) ++ put_be 8 (rh_control v) else []) ++
      put_be 1 (if rh_ready v then 1 else 0)).

Definition read_health (version : Z) (bs : bytes) : result RelayHealth :=
  let* (magic, r) := BinaryReader.get 4 bs in
  check! (magic =? health_magic) || (magic =? accounting_magic) else invalid_argument in
  let* (v, r) := BinaryReader.get 2 r in
  check! v =? version else invalid_argument in
  let* (relay, r) := get_text r in
  let* (authority, r) := get_text r in
  let* (nonce, r) := BinaryReader.array 32 r in
  let* (issued, r) := BinaryReader.get 8 r in
  let* (uptime, r) := BinaryReader.get 8 r in
  let* (capacity, r) := BinaryReader.get 4 r in
  let* (active, r) := BinaryReader.get 4 r in
  let* (rtt, r) := BinaryReader.get 4 r in
  let* (forwarded, r) := BinaryReader.get 8 r in
  let* (forwarded_bytes, r) := BinaryReader.get 8 r in
  let* (dropped, r) := BinaryReader.get 8 r in
  let accounting := magic =? accounting_magic in
  let* (counters, r) :=
    if accounting then
      let* (a, r) := BinaryReader.get 8 r in
      let* (b, r) := BinaryReader.get 8 r in
      let* (q, r) := BinaryReader.get 8 r in
      let* (k, r) := BinaryReader.get 8 r in
      Ok ((a, b, q, k), r)
    else Ok ((0, 0, 0, 0), r) in
  let* (ready, r) := BinaryReader.get 1 r in
  check! negb (ready >? 1) else invalid_argument in
  let* _ := BinaryReader.finish r in
  let '(a, b, q, k) := counters in
  let v := mk_health nonce relay authority issued uptime capacity active rtt forwarded forwarded_bytes dropped a b q k accounting (negb (ready =? 0)) in
  let* _ := health_body v in
  Ok v.

Definition max_health_age : Z := 30000.
Definition health_age (issued now : Z) : Z := if issued >? now then issued - now else now - issued.

Section Health.
Context {C : Crypto}.

Definition sign_relay_health (v : RelayHealth) (identity : bytes) : result bytes :=
  let* bs := health_body v in
  let* signature := identity_sign identity bs in
  Ok (bs ++ signature).

Definition verify_relay_health (encoded : bytes) (expected : RelayEndpoint) (nonce : bytes) (now_ms : Z) : result RelayHealth :=
  check! negb ((len encoded <? 64) || (len encoded >? 512) || is_zero (re_health_key expected) || is_zero nonce) else invalid_argument in
  let bs := take (length encoded - 64) encoded in
  let signature := drop (length encoded - 64) encoded in
  let* ok := verify_signature (re_health_key expected) bs signature in
  check! ok else runtime_error in
  let* v := read_health (re_version expected) bs in
  check! bool_decide (rh_relay v = re_id expected) && bool_decide (rh_authority v = re_authority expected) &&
         (rh_capacity v =? re_capacity expected) && bool_decide (rh_nonce v = nonce) &&
         negb (health_age (rh_issued v) now_ms >? max_health_age) else runtime_error in
  Ok v.
End Health.

(** ** The report is read back exactly *)

Definition health_bytes (version : Z) (v : RelayHealth) : bytes :=
  put_be 4 (if rh_accounting v then accounting_magic else health_magic) ++ put_be 2 version ++ text_bytes (rh_relay v) ++ text_bytes (rh_authority v) ++
  rh_nonce v ++ put_be 8 (rh_issued v) ++ put_be 8 (rh_uptime v) ++ put_be 4 (rh_capacity v) ++ put_be 4 (rh_active v) ++ put_be 4 (rh_upstream_rtt v) ++
  put_be 8 (rh_forwarded v) ++ put_be 8 (rh_forwarded_bytes v) ++ put_be 8 (rh_dropped v) ++
  (if rh_accounting v then put_be 8 (rh_admitted v) ++ put_be 8 (rh_admitted_bytes v) ++ put_be 8 (rh_quota v) ++ put_be 8 (rh_control v) else []) ++
  put_be 1 (if rh_ready v then 1 else 0).

Definition wf_health (v : RelayHealth) : Prop :=
  length (rh_nonce v) = 32%nat /\ word 8 (rh_issued v) /\ word 8 (rh_uptime v) /\ word 4 (rh_capacity v) /\ word 4 (rh_active v) /\
  word 4 (rh_upstream_rtt v) /\ word 8 (rh_forwarded v) /\ word 8 (rh_forwarded_bytes v) /\ word 8 (rh_dropped v) /\
  word 8 (rh_admitted v) /\ word 8 (rh_admitted_bytes v) /\ word 8 (rh_quota v) /\ word 8 (rh_control v).
Definition health_valid (v : RelayHealth) : Prop :=
  health_ok v = true /\ valid_text 64 (rh_relay v) = true /\ valid_text 64 (rh_authority v) = true.

Lemma health_body_spec v bs : health_body v = Ok bs <-> health_valid v /\ bs = health_bytes protocol_version v.
Proof.
  unfold health_body, health_valid, put_text. split.
  - destruct (health_ok v), (valid_text 64 (rh_relay v)), (valid_text 64 (rh_authority v)); try done. intros H. by apply Ok_inj in H as <-.
  - intros [(-> & -> & ->) ->]. unfold text_bytes. done.
Qed.
Lemma health_valid_body v : health_valid v <-> is_ok (health_body v) = true.
Proof.
  split; [intros H; by rewrite (proj2 (health_body_spec v _) (conj H eq_refl))|].
  destruct (health_body v) as [bs|] eqn:E; [|done]. intros _. by apply health_body_spec in E as [? _].
Qed.

Lemma health_codec version bs v : word 2 version -> read_health version bs = Ok v <-> wf_health v /\ health_valid v /\ bs = health_bytes version v.
Proof.
  intros Wv. split.
  - unfold read_health. intros H. ok_inv H. subst. bool_prop.
    repeat match goal with E : get_text _ = Ok _ |- _ => apply directory_text_inv in E end. subst. br_inv.
    match goal with E : (if ?z =? accounting_magic then _ else _) = Ok _, M : (?z =? _) || _ = true |- _ => rename E into Hd; rename M into Mg; rename z into mg end.
    match goal with E : health_body _ = Ok _ |- _ => apply health_body_spec in E as [Hv _] end.
    match goal with H : ?z <= 1 |- _ => rename z into ready; rename H into Hr end.
    assert (Er : put_be 1 (if negb (ready =? 0) then 1 else 0) = put_be 1 ready).
    { words. destruct (ready =? 0) eqn:R; bool_prop; [by subst|]. cbn [negb]. f_equal. lia. }
    unfold health_bytes. cbn -[put_be app text_bytes]. rewrite Er.
    destruct (mg =? accounting_magic) eqn:Em; bool_prop.
    + ok_inv Hd. pose proof (f_equal fst Hd) as Hfst. pose proof (f_equal snd Hd) as Hsnd. cbn [fst snd] in Hfst, Hsnd. injection Hfst as <- <- <- <-. subst. br_inv.
      split; [by split_and!|]. split; [done|]. by rewrite <- !app_assoc.
    + apply Ok_inj in Hd. pose proof (f_equal fst Hd) as Hfst. pose proof (f_equal snd Hd) as Hsnd. cbn [fst snd] in Hfst, Hsnd. injection Hfst as <- <- <- <-.
      apply orb_true_iff in Mg as [Mg|Mg]; bool_prop; [|done]. subst. split; [by split_and!|]. split; [done|]. cbn [app]. by rewrite app_nil_r.
  - intros ((W1 & W2 & W3 & W4 & W5 & W6 & W7 & W8 & W9 & W10 & W11 & W12 & W13) & Hv & ->). pose proof Hv as Hv'. destruct Hv' as (Ho & V1 & V2).
    apply valid_text_len in V1, V2. unfold read_health, health_bytes. unfold health_ok in Ho. bool_prop.
    assert (Wr : word 1 (if rh_ready v then 1 else 0)) by (by destruct (rh_ready v)).
    rewrite BinaryReader.get_app by (by destruct (rh_accounting v)).
    replace (_ || _) with true by (by destruct (rh_accounting v)).
    replace (_ =? accounting_magic) with (rh_accounting v) by (by destruct (rh_accounting v)).
    rewrite BinaryReader.get_app by done. rewrite Z.eqb_refl, directory_text_app by lia. rewrite directory_text_app by lia. br_read.
    destruct (rh_accounting v) eqn:Ac; rewrite <- ?app_assoc; cbn [app]; br_read; rewrite <- (app_nil_r (put_be 1 _)), BinaryReader.get_app by done;
      cbn [BinaryReader.finish].
    + replace (negb (_ >? 1)) with true by (by destruct (rh_ready v)). replace (negb (_ =? 0)) with (rh_ready v) by (by destruct (rh_ready v)).
      match goal with |- context [health_body ?x] => replace x with v by (destruct v; cbn in *; by subst) end.
      by rewrite (proj2 (health_body_spec v _) (conj Hv eq_refl)).
    + replace (negb (_ >? 1)) with true by (by destruct (rh_ready v)). replace (negb (_ =? 0)) with (rh_ready v) by (by destruct (rh_ready v)).
      match goal with |- context [health_body ?x] => replace x with v by (destruct v; cbn in *; bool_prop; by subst) end.
      by rewrite (proj2 (health_body_spec v _) (conj Hv eq_refl)).
Qed.

Section Trust.
Context {C : Crypto}.

(** A report is accepted exactly when it is signed with the directory's key for the relay, answers this challenge,
    agrees with the directory and was issued within 30 seconds. *)
Definition health_trusted (encoded : bytes) (expected : RelayEndpoint) (nonce : bytes) (now : Z) (v : RelayHealth) : Prop :=
  exists payload signature, encoded = payload ++ signature /\ length signature = 64%nat /\ len encoded <= 512 /\
    is_zero (re_health_key expected) = false /\ is_zero nonce = false /\
    verify_signature (re_health_key expected) payload signature = Ok true /\
    payload = health_bytes (re_version expected) v /\ wf_health v /\ health_valid v /\
    rh_relay v = re_id expected /\ rh_authority v = re_authority expected /\ rh_capacity v = re_capacity expected /\ rh_nonce v = nonce /\
    Z.abs (rh_issued v - now) <= max_health_age.

Lemma verify_health_spec encoded expected nonce now v : word 2 (re_version expected) ->
  verify_relay_health encoded expected nonce now = Ok v <-> health_trusted encoded expected nonce now v.
Proof.
  intros Wv. assert (Ag : health_age (rh_issued v) now = Z.abs (rh_issued v - now)).
  { unfold health_age. destruct (rh_issued v >? now) eqn:G; bool_prop; lia. }
  unfold verify_relay_health, health_trusted. split.
  - intros H. ok_inv H. subst. bool_prop. match goal with E : read_health _ _ = Ok _ |- _ => apply (health_codec _ _ _ Wv) in E as (Wf & Va & E) end.
    exists (take (length encoded - 64) encoded), (drop (length encoded - 64) encoded).
    rewrite take_drop, length_drop. rewrite <- Ag. unfold len in *. split_and!; try congruence; try done; try lia.
  - intros (payload & signature & -> & Ls & Sz & Nk & Nn & V & -> & Wf & Va & E1 & E2 & E3 & E4 & Age).
    assert (Sg : 64 <= len (health_bytes (re_version expected) v ++ signature)) by (rewrite len_app; pose proof (len_nonneg (health_bytes (re_version expected) v)); unfold len at 2; lia).
    rewrite Nk, Nn, !orb_false_r. guard_true by lia.
    replace (length (health_bytes (re_version expected) v ++ signature) - 64)%nat with (length (health_bytes (re_version expected) v)) by (rewrite length_app; lia).
    rewrite take_app_length, drop_app_length, V. rewrite (proj2 (health_codec _ _ v Wv)) by done.
    rewrite E1, E2, E3, E4, !bool_decide_eq_true_2, Z.eqb_refl, Ag by done. guard_true by lia. done.
Qed.

(** What a relay signs is accepted by a client whose directory has the relay's entry. *)
Lemma sign_verify_health {L : CryptoLaws C} v identity encoded expected now :
  wf_health v -> sign_relay_health v identity = Ok encoded -> re_health_key expected = ed25519_public identity ->
  is_zero (re_health_key expected) = false -> re_version expected = protocol_version -> re_id expected = rh_relay v ->
  re_authority expected = rh_authority v -> re_capacity expected = rh_capacity v -> Z.abs (rh_issued v - now) <= max_health_age ->
  verify_relay_health encoded expected (rh_nonce v) now = Ok v.
Proof.
  intros Wf H K Nk Ve Ei Ea Ec Age. unfold sign_relay_health, identity_sign in H. ok_inv H. subst encoded.
  match goal with E : health_body _ = Ok _ |- _ => apply health_body_spec in E as [Va ->] end.
  match goal with E : (match ed25519_sign _ ?b with _ => _ end) = Ok _ |- _ => destruct (ed25519_sign identity b) as [sg|] eqn:Es; [|done]; destruct (_ =? _); [|done]; apply Ok_inj in E; subst sg end.
  pose proof (sign_length _ _ _ Es) as Ls. apply verify_health_spec; [by rewrite Ve|]. eexists _, _. destruct Va as (Ho & V1 & V2).
  pose proof Ho as Ho'. unfold health_ok in Ho'. bool_prop.
  split_and!; try done; try congruence.
  - apply valid_text_len in V1, V2. rewrite len_app. unfold health_bytes, text_bytes. rewrite !len_app. unfold len in *. destruct Wf as (Ln & _).
    rewrite !length_put_be, Ls, Ln. destruct (rh_accounting v); rewrite ?length_app, ?length_put_be; cbn; lia.
  - unfold verify_signature. rewrite K. by rewrite (sign_verifies _ _ _ Es).
Qed.
End Trust.
