(* ===== verification/RelayPool.v ===== *)
(** * Choosing a relay

    transport/relay_pool.hpp and .cpp (the relays of one authority with what is known of each), the checks of
    transport/relay_probe.cpp on the answer to a challenge, and [QuicRelayClient::Impl::scan_pool] of
    transport/quic.cpp, which refreshes the catalog, probes the relays that are due and chooses one.  Steady time is
    in nanoseconds, wall time in milliseconds; what a probe meets (the nonce drawn, whether the channel opens, the frames
    that arrive) and the clocks are arguments. *)
From S2P Require Import Prelude Wire Codec NetworkMessages Crypto Directory RelayHealth.

Record RelayProbe := mk_relay_probe { pr_health : RelayHealth; pr_rtt : Z }. (* microseconds *)
Record Node := mk_node { nd_endpoint : RelayEndpoint; nd_sample : option RelayProbe; nd_observed : Z; nd_retry : Z; nd_failures : Z }.
Record RelayPool := mk_pool { nodes_ : list Node; authority_ : bytes; active_ : bytes; activated_ : Z }.
Definition no_pool : RelayPool := mk_pool [] [] [] 0.

Definition second : Z := 1000000000.

(** ** The pool *)

Definition acceptable (authority : bytes) (ids : gset bytes) (e : RelayEndpoint) : bool :=
  negb (bool_decide (authority = []) || negb (bool_decide (re_authority e = authority)) || is_zero (re_health_key e) ||
        negb (re_version e =? protocol_version) || (re_capacity e =? 0) || (re_port e =? 0) || bool_decide (re_id e ∈ ids)).
(** A relay that stays keeps what is known of it. *)
Definition carry (old : list Node) (e : RelayEndpoint) : Node :=
  match List.find (fun n => bool_decide (nd_endpoint n = e)) old with Some n => n | None => mk_node e None 0 0 0 end.
Fixpoint carry_all (authority : bytes) (ids : gset bytes) (old : list Node) (l : list RelayEndpoint) : result (list Node) :=
  match l with
  | [] => Ok []
  | e :: l =>
      check! acceptable authority ids e else invalid_argument in
      let* rest := carry_all authority ({[re_id e]} ∪ ids) old l in
      Ok (carry old e :: rest)
  end.
Definition pool_update (endpoints : list RelayEndpoint) (p : RelayPool) : result RelayPool :=
  match endpoints with
  | [] => Throw invalid_argument
  | first :: _ =>
      check! negb (len endpoints >? 32) else invalid_argument in
      let authority := if bool_decide (authority_ p = []) then re_authority first else authority_ p in
      let* next := carry_all authority ∅ (nodes_ p) endpoints in
      Ok (mk_pool next authority (active_ p) (activated_ p))
  end.
Definition new_pool (endpoints : list RelayEndpoint) : result RelayPool := pool_update endpoints no_pool.

Definition is_due (now : Z) (n : Node) : bool :=
  (now >=? nd_retry n) && (match nd_sample n with None => true | Some _ => now - nd_observed n >=? 2 * second end).
Definition pool_due (now : Z) (p : RelayPool) : list RelayEndpoint := map nd_endpoint (List.filter (is_due now) (nodes_ p)).

Definition sample_fits (authority : bytes) (e : RelayEndpoint) (s : RelayProbe) : bool :=
  negb (negb (bool_decide (rh_relay (pr_health s) = re_id e)) || negb (bool_decide (rh_authority (pr_health s) = authority)) ||
        negb (rh_capacity (pr_health s) =? re_capacity e) || (rh_active (pr_health s) >? re_capacity e) || (pr_rtt s <? 0) || (pr_rtt s >? 10000000)).
(** [find_if] and the assignments through the iterator. *)
Fixpoint note_sample (e : RelayEndpoint) (s : RelayProbe) (now : Z) (l : list Node) : list Node :=
  match l with
  | [] => []
  | n :: l => if bool_decide (nd_endpoint n = e) then mk_node e (Some s) now 0 0 :: l else n :: note_sample e s now l
  end.
Definition pool_observe (e : RelayEndpoint) (s : RelayProbe) (now : Z) (p : RelayPool) : result RelayPool :=
  if negb (existsb (fun n => bool_decide (nd_endpoint n = e)) (nodes_ p)) then Ok p
  else
    check! sample_fits (authority_ p) e s else invalid_argument in
    Ok (mk_pool (note_sample e s now (nodes_ p)) (authority_ p) (active_ p) (activated_ p)).

Definition fail_node (now : Z) (n : Node) : Node :=
  let failures := Z.min (nd_failures n + 1) 6 in
  mk_node (nd_endpoint n) None (nd_observed n) (now + Z.min (Z.shiftl 1 (failures - 1)) 30 * second) failures.
Definition pool_failed (id : bytes) (now : Z) (p : RelayPool) : RelayPool :=
  mk_pool (map (fun n => if bool_decide (re_id (nd_endpoint n) = id) then fail_node now n else n) (nodes_ p)) (authority_ p) (active_ p) (activated_ p).
Definition pool_activate (id : bytes) (now : Z) (p : RelayPool) : RelayPool :=
  if negb (bool_decide (active_ p = id)) then mk_pool (nodes_ p) (authority_ p) id now else p.

(** [std::string::operator<]. *)
Fixpoint bytes_ltb (a b : bytes) : bool :=
  match a, b with
  | _, [] => false
  | [], _ :: _ => true
  | x :: a, y :: b => (b2z x <? b2z y) || ((b2z x =? b2z y) && bytes_ltb a b)
  end.

Definition sample_score (e : RelayEndpoint) (s : RelayProbe) : Z :=
  (pr_rtt s + rh_upstream_rtt (pr_health s) + (15000 * rh_active (pr_health s)) mod 2 ^ 64 / re_capacity e) mod 2 ^ 64.
Definition score (n : Node) : Z := match nd_sample n with Some s => sample_score (nd_endpoint n) s | None => 0 end.
Definition eligible (now : Z) (n : Node) : bool :=
  match nd_sample n with
  | Some s => rh_ready (pr_health s) && (rh_active (pr_health s) <? re_capacity (nd_endpoint n)) && (now >=? nd_retry n) && (now - nd_observed n <? 5 * second)
  | None => false
  end.
Definition better (n best : Node) : bool :=
  (score n <? score best) || ((score n =? score best) && bytes_ltb (re_id (nd_endpoint n)) (re_id (nd_endpoint best))).
(** The loop: the best relay and the active one. *)
Definition survey_step (active : bytes) (now : Z) (found : option Node * option Node) (n : Node) : option Node * option Node :=
  if negb (eligible now n) then found
  else
    (match fst found with None => Some n | Some best => if better n best then Some n else Some best end,
     if bool_decide (re_id (nd_endpoint n) = active) then Some n else snd found).
Definition survey (active : bytes) (now : Z) (l : list Node) : option Node * option Node := fold_left (survey_step active now) l (None, None).
Definition pool_choose (now : Z) (p : RelayPool) : option RelayEndpoint :=
  match survey (active_ p) now (nodes_ p) with
  | (Some best, Some active) =>
      Some (nd_endpoint (if (now - activated_ p <? 30 * second) || ((score best * 4) mod 2 ^ 64 >=? (score active * 3) mod 2 ^ 64) then active else best))
  | (Some best, None) => Some (nd_endpoint best)
  | (None, _) => None
  end.

(** ** A probe *)

(** What one call of [probe_relay] meets: the steady time and the stop flag when it is called, whether the TLS channel
    connects, the nonce drawn, whether the challenge is queued and when, whether the channel runs without an error, the
    frames it hands over (each with the wall time and the steady time of its handling), and time and stop flag at the end. *)
Record ProbeRun := mk_probe_run {
  pb_called : Z; pb_stopping : bool; pb_connected : bool; pb_nonce : option bytes; pb_queued : bool; pb_challenged : Z; pb_ran : bool;
  pb_frames : list (Z * Z * Frame); pb_finished : Z; pb_stopped : bool }.

Section Probe.
Context {C : Crypto}.

(** The answer to a challenge. *)
Definition probe_answer (e : RelayEndpoint) (nonce : bytes) (accounting : bool) (now_ms rtt : Z) (f : Frame) : result RelayProbe :=
  check! negb (negb (bool_decide (type_ f = relay_health_result)) || negb (request_id f =? 1)) else runtime_error in
  let* health := verify_relay_health (payload f) e nonce now_ms in
  check! negb (accounting && negb (rh_accounting health)) else runtime_error in
  Ok (mk_relay_probe health rtt).
(** The frame handler: the result so far and whether there was a failure; a second frame is one. *)
Definition probe_frame (e : RelayEndpoint) (nonce : bytes) (accounting : bool) (challenged : Z) (found : option RelayProbe * bool) (arrival : Z * Z * Frame) :
    option RelayProbe * bool :=
  let '(now_ms, at_time, f) := arrival in
  match found with
  | (None, false) => match probe_answer e nonce accounting now_ms ((at_time - challenged) / 1000) f with Ok s => (Some s, false) | Throw _ => (None, true) end
  | _ => (None, true)
  end.
Definition probe_relay (e : RelayEndpoint) (timeout_ms : Z) (accounting : bool) (run : ProbeRun) : result RelayProbe :=
  check! negb ((timeout_ms <? 50) || (timeout_ms >? 10000) || pb_stopping run) else invalid_argument in
  let deadline := pb_called run + timeout_ms * 1000000 in
  check! pb_connected run else runtime_error in
  match pb_nonce run with
  | None => Throw runtime_error
  | Some nonce =>
      check! pb_queued run && pb_ran run else runtime_error in
      match fold_left (probe_frame e nonce accounting (pb_challenged run)) (pb_frames run) (None, false) with
      | (Some s, false) => check! negb (pb_stopped run || (pb_finished run >=? deadline)) else runtime_error in Ok s
      | _ => Throw runtime_error
      end
  end.
End Probe.

(** ** The client's scan *)

Record Scanner := mk_scanner { sc_pool : RelayPool; sc_revision : Z; sc_expires : Z; sc_next_refresh : Z }.
(** What one scan meets: the clocks, the refreshed directory (if there is a refresher), and each probe with the time
    [measured_at]; a relay the workers do not come to before they are stopped has none. *)
Record ScanInput := mk_scan {
  in_utc : Z; in_now : Z; in_refresh : option (result BootstrapResult); in_due : Z; in_probe : RelayEndpoint -> option (ProbeRun * Z);
  in_end : Z; in_utc_end : Z }.

Section Scan.
Context {C : Crypto}.

Definition refresh_catalog (i : ScanInput) (s : Scanner) : Scanner :=
  match in_refresh i with
  | None => s
  | Some refreshed =>
      if (in_utc i + 60000 >=? sc_expires s) && (in_now i >=? sc_next_refresh s) then
        let next := in_now i + 30 * second in
        let kept := mk_scanner (sc_pool s) (sc_revision s) (sc_expires s) next in
        match refreshed with
        | Throw _ => kept
        | Ok r =>
            if br_from_directory r && (br_revision r >=? sc_revision s) && (br_expires r >? in_utc i) then
              match pool_update (br_pool r) (sc_pool s) with
              | Ok p => mk_scanner p (br_revision r) (br_expires r) next
              | Throw _ => kept
              end
            else kept
        end
      else s
  end.
Definition probe_timeout : Z := 2000.
Definition sample_of (i : ScanInput) (e : RelayEndpoint) : option (RelayProbe * Z) :=
  match in_probe i e with
  | Some (run, at_time) => match probe_relay e probe_timeout false run with Ok s => Some (s, at_time) | Throw _ => None end
  | None => None
  end.
Fixpoint note_probes (i : ScanInput) (l : list RelayEndpoint) (p : RelayPool) : result RelayPool :=
  match l with
  | [] => Ok p
  | e :: l =>
      let* p := match sample_of i e with Some (s, at_time) => pool_observe e s at_time p | None => Ok (pool_failed (re_id e) (in_end i) p) end in
      note_probes i l p
  end.
Definition with_pool (p : RelayPool) (s : Scanner) : Scanner := mk_scanner p (sc_revision s) (sc_expires s) (sc_next_refresh s).
Definition scan_pool (i : ScanInput) (s : Scanner) : result (option RelayEndpoint * Scanner) :=
  let s := refresh_catalog i s in
  if in_utc i >=? sc_expires s then Ok (None, s)
  else
    let* p := note_probes i (pool_due (in_due i) (sc_pool s)) (sc_pool s) in
    Ok (if in_utc_end i >=? sc_expires s then None else pool_choose (in_end i) p, with_pool p s).

(** What [run_loop] does with the pool beside scanning: the chosen relay becomes the active one, a lost one has failed. *)
Inductive pool_act := act_scan (i : ScanInput) | act_activate (id : bytes) (now : Z) | act_lose (id : bytes) (now : Z).
Definition pool_step (a : pool_act) (s : Scanner) : result (option RelayEndpoint * Scanner) :=
  match a with
  | act_scan i => scan_pool i s
  | act_activate id now => Ok (None, with_pool (pool_activate id now (sc_pool s)) s)
  | act_lose id now => Ok (None, with_pool (pool_failed id now (sc_pool s)) s)
  end.
End Scan.

(** ** The pool holds verified relays of one authority *)

Section Trusted.
Context {C : Crypto}.

(** A probe that was made: of which relay, what it met, and the time noted for it. *)
Record Probed := mk_probed { pd_relay : RelayEndpoint; pd_run : ProbeRun; pd_at : Z }.
(** The only frame that came answers this probe's own challenge: the relay the directory names signed it over the nonce
    drawn for the probe, within 30 seconds of the time it was handled at. *)
Definition answered (e : RelayEndpoint) (run : ProbeRun) (s : RelayProbe) : Prop :=
  exists nonce now_ms at_time f, pb_nonce run = Some nonce /\ pb_frames run = [(now_ms, at_time, f)] /\ type_ f = relay_health_result /\ request_id f = 1 /\
    health_trusted (payload f) e nonce now_ms (pr_health s) /\ pr_rtt s = (at_time - pb_challenged run) / 1000.
(** The steady clock does not go back during a probe. *)
Definition steady (run : ProbeRun) : Prop :=
  pb_called run <= pb_challenged run /\ forall now_ms at_time f, (now_ms, at_time, f) ∈ pb_frames run -> pb_challenged run <= at_time <= pb_finished run.

(** The sample was given by a probe of that relay noted for that time. *)
Definition sample_trusted (h : list Probed) (e : RelayEndpoint) (t : Z) (s : RelayProbe) : Prop :=
  (exists run, mk_probed e run t ∈ h /\ answered e run s) /\ 0 <= pr_rtt s <= 10000000.

Section Known.
Context (h : list Probed).

Record node_ok (authority : bytes) (n : Node) : Prop := mk_node_ok {
  no_authority : re_authority (nd_endpoint n) = authority; no_key : is_zero (re_health_key (nd_endpoint n)) = false;
  no_version : re_version (nd_endpoint n) = protocol_version; no_port : re_port (nd_endpoint n) <> 0;
  no_sample : forall s, nd_sample n = Some s -> sample_trusted h (nd_endpoint n) (nd_observed n) s;
  no_failures : 0 <= nd_failures n <= 6 }.
Record pool_ok (p : RelayPool) : Prop := mk_pool_ok {
  po_count : len (nodes_ p) <= 32;
  po_ids : NoDup (map (fun n => re_id (nd_endpoint n)) (nodes_ p));
  po_named : nodes_ p <> [] -> authority_ p <> [];
  po_nodes : Forall (node_ok (authority_ p)) (nodes_ p) }.

Lemma no_pool_ok : pool_ok no_pool.
Proof. split; [vm_compute; congruence|constructor|done|constructor]. Qed.

Lemma carry_endpoint old e : nd_endpoint (carry old e) = e.
Proof.
  unfold carry. destruct (List.find _ _) as [n|] eqn:F; [|done]. apply List.find_some in F as [_ F]. by bool_prop.
Qed.
Lemma carry_ok authority old ids e : Forall (node_ok authority) old -> acceptable authority ids e = true -> node_ok authority (carry old e).
Proof.
  intros F A. unfold acceptable in A. bool_prop. unfold carry. destruct (List.find _ _) as [n|] eqn:Fn.
  - apply List.find_some in Fn as [I _]. rewrite List.Forall_forall in F. by apply F.
  - split; cbn; try done.
Qed.

Lemma carry_all_spec authority ids old l next : carry_all authority ids old l = Ok next ->
  map nd_endpoint next = l /\ NoDup (map re_id l) /\ (forall e, e ∈ l -> re_id e ∉ ids) /\
  (l <> [] -> authority <> []) /\ (Forall (node_ok authority) old -> Forall (node_ok authority) next).
Proof.
  revert ids next. induction l as [|e l IH]; intros ids next H; cbn [carry_all] in H.
  - apply Ok_inj in H as <-. split_and!; try done; [constructor|intros e He; by apply not_elem_of_nil in He].
  - ok_inv H. subst next. match goal with E : carry_all _ _ _ _ = Ok _ |- _ => apply IH in E as (M & N & D & _ & F) end.
    match goal with G : acceptable _ _ _ = true |- _ => pose proof G as A; rename G into Gk end. unfold acceptable in A. bool_prop.
    cbn [map]. rewrite carry_endpoint, M. split_and!; try done.
    + constructor; [|done]. intros X. apply list_elem_of_fmap in X as (e' & E & He'). apply (D e' He'). rewrite <- E. apply elem_of_union_l. by apply elem_of_singleton.
    + intros e' [->|He']%elem_of_cons; [done|]. intros X. apply (D e' He'). by apply elem_of_union_r.
    + intros Fo. constructor; [by apply (carry_ok _ _ ids)|by apply F].
Qed.

Lemma pool_update_ok l p p' : pool_ok p -> pool_update l p = Ok p' ->
  pool_ok p' /\ map nd_endpoint (nodes_ p') = l /\ (authority_ p = [] \/ authority_ p' = authority_ p).
Proof.
  intros [Pc Pi Pn Pf] H. unfold pool_update in H. destruct l as [|e l]; [done|]. ok_inv H. subst p'. bool_prop. cbn.
  match goal with E : carry_all _ _ _ _ = Ok _ |- _ => apply carry_all_spec in E as (M & N & _ & Na & F) end.
  split_and!; [|done|].
  - split; cbn.
    + rewrite <- M in *. unfold len in *. by rewrite length_map in *.
    + by rewrite <- M, map_map in N.
    + intros _. by apply Na.
    + apply F. destruct (bool_decide_reflect (authority_ p = [])) as [E|_]; [|done].
      destruct (nodes_ p) as [|n ns]; [constructor|]. exfalso. by apply Pn.
  - destruct (bool_decide_reflect (authority_ p = [])); [by left|by right].
Qed.

Lemma note_sample_spec e s now l : NoDup (map (fun n => re_id (nd_endpoint n)) l) ->
  map nd_endpoint (note_sample e s now l) = map nd_endpoint l /\
  forall authority, Forall (node_ok authority) l -> sample_trusted h e now s -> Forall (node_ok authority) (note_sample e s now l).
Proof.
  induction l as [|n l IH]; [done|]. cbn. intros [_ N]%NoDup_cons. destruct (IH N) as [M F]. destruct (bool_decide_reflect (nd_endpoint n = e)) as [E|E]; cbn.
  - split; [by rewrite E|]. intros a [Hn Hl]%Forall_cons T. constructor; [|done]. destruct Hn. rewrite E in *. split; cbn; try done. by intros s' [= <-].
  - split; [by rewrite M|]. intros a [Hn Hl]%Forall_cons T. constructor; [done|]. by apply F.
Qed.

Lemma ids_of l l' : map nd_endpoint l = map nd_endpoint l' -> map (fun n => re_id (nd_endpoint n)) l = map (fun n => re_id (nd_endpoint n)) l'.
Proof. intros E. rewrite <- !(map_map nd_endpoint re_id). by rewrite E. Qed.

(** The nodes after a change that keeps the relays. *)
Lemma pool_ok_nodes p l : pool_ok p -> map nd_endpoint l = map nd_endpoint (nodes_ p) -> Forall (node_ok (authority_ p)) l ->
  forall a t, pool_ok (mk_pool l (authority_ p) a t).
Proof.
  intros [Pc Pi Pn Pf] M F a t. assert (Ln : length l = length (nodes_ p)) by (apply (f_equal (@length _)) in M; by rewrite !length_map in M).
  split; cbn; [unfold len in *; by rewrite Ln| |by intros H; apply Pn; intros E; rewrite E in Ln; destruct l|done].
  by rewrite (ids_of _ _ M).
Qed.

Lemma sample_fits_ok p e t s n : pool_ok p -> n ∈ nodes_ p -> nd_endpoint n = e -> sample_trusted h e t s -> sample_fits (authority_ p) e s = true.
Proof.
  intros O I E [(run & _ & nonce & now & at_time & f & _ & _ & _ & _ & (payload & sg & _ & _ & _ & _ & _ & _ & _ & _ & Va & E1 & E2 & E3 & _) & _) Rt].
  pose proof (po_nodes _ O) as F. rewrite Forall_forall in F. destruct (F n I) as [Au _ _ _ _ _]. rewrite E in Au.
  destruct Va as (Ho & _). unfold health_ok in Ho. bool_prop. unfold sample_fits. rewrite E1, E2, Au, !bool_decide_eq_true_2 by done. cbn.
  rewrite E3, Z.eqb_refl. cbn. rewrite negb_true_iff, !orb_false_iff, !Z.gtb_ltb, !Z.ltb_ge. lia.
Qed.

(** A verified sample is always taken. *)
Lemma pool_observe_ok e s now p : pool_ok p -> sample_trusted h e now s ->
  exists p', pool_observe e s now p = Ok p' /\ pool_ok p' /\ map nd_endpoint (nodes_ p') = map nd_endpoint (nodes_ p) /\ authority_ p' = authority_ p.
Proof.
  intros O T. unfold pool_observe. destruct (existsb _ _) eqn:X; cbn [negb]; [|by exists p].
  apply existsb_exists in X as (n & I & E). apply list_elem_of_In in I. bool_prop. rewrite (sample_fits_ok p e now s n) by done.
  destruct (note_sample_spec e s now (nodes_ p) (po_ids _ O)) as [M F]. eexists. split; [done|]. cbn. split; [|done].
  apply pool_ok_nodes; [done|done|]. apply F; [apply O|done].
Qed.
Lemma pool_failed_ok id now p : pool_ok p -> pool_ok (pool_failed id now p) /\
  map nd_endpoint (nodes_ (pool_failed id now p)) = map nd_endpoint (nodes_ p).
Proof.
  intros O. unfold pool_failed. cbn.
  assert (M : map nd_endpoint (map (fun n => if bool_decide (re_id (nd_endpoint n) = id) then fail_node now n else n) (nodes_ p)) = map nd_endpoint (nodes_ p)).
  { rewrite map_map. apply map_ext. intros n. by destruct (bool_decide _). }
  split; [|done]. apply pool_ok_nodes; [done|done|]. apply Forall_map, (Forall_impl _ _ _ (po_nodes _ O)). intros n [].
  destruct (bool_decide _); split; cbn; try done; lia.
Qed.
Lemma pool_activate_ok id now p : pool_ok p -> pool_ok (pool_activate id now p).
Proof. intros O. unfold pool_activate. destruct (negb _); [|done]. apply pool_ok_nodes; [done|done|apply O]. Qed.

(** ** The choice *)

Lemma bytes_ltb_trans a b c : bytes_ltb a b = true -> bytes_ltb b c = true -> bytes_ltb a c = true.
Proof.
  revert b c. induction a as [|x a IH]; intros [|y b] [|z c]; cbn; try done. rewrite !orb_true_iff, !andb_true_iff, !Z.ltb_lt, !Z.eqb_eq.
  intros [H|[H H']] [G|[G G']]; [left; lia|left; lia|left; lia|right]. split; [lia|by apply (IH b)].
Qed.
Lemma better_trans n m b : better n m = true -> better m b = true -> better n b = true.
Proof.
  unfold better. rewrite !orb_true_iff, !andb_true_iff, !Z.ltb_lt, !Z.eqb_eq. intros [H|[H H']] [G|[G G']]; [left; lia|left; lia|left; lia|right].
  split; [lia|by eapply bytes_ltb_trans].
Qed.

(** The best of the eligible relays: none is better. *)
Definition best_of (now : Z) (l : list Node) (b : Node) : Prop := b ∈ l /\ eligible now b = true /\ forall n, n ∈ l -> eligible now n = true -> better n b = false.

Lemma bytes_ltb_irrefl a : bytes_ltb a a = false.
Proof. induction a as [|x a IH]; [done|]. cbn. by rewrite Z.ltb_irrefl, Z.eqb_refl, IH. Qed.
Lemma better_irrefl n : better n n = false.
Proof. unfold better. by rewrite Z.ltb_irrefl, Z.eqb_refl, bytes_ltb_irrefl. Qed.

Lemma survey_spec active now l :
  match fst (survey active now l) with
  | Some b => best_of now l b
  | None => forall n, n ∈ l -> eligible now n = false
  end /\
  match snd (survey active now l) with
  | Some a => a ∈ l /\ eligible now a = true /\ re_id (nd_endpoint a) = active
  | None => forall n, n ∈ l -> eligible now n = true -> re_id (nd_endpoint n) <> active
  end.
Proof.
  unfold survey. induction l as [|n l IH] using rev_ind; [split; intros n Hn; by apply not_elem_of_nil in Hn|].
  rewrite fold_left_app. cbn [fold_left]. destruct (fold_left _ l _) as [b a]. cbn [fst snd] in IH. destruct IH as [Ib Ia].
  unfold survey_step. destruct (eligible now n) eqn:E; cbn [negb fst snd].
  - split.
    + destruct b as [b|].
      * destruct Ib as (Hb & Eb & Mb). destruct (better n b) eqn:G.
        -- split; [by apply elem_of_app; right; left|]. split; [done|]. intros m [Hm|Hm]%elem_of_app Em.
           ++ destruct (better m n) eqn:X; [|done]. rewrite <- (Mb m Hm Em). symmetry. by eapply better_trans.
           ++ apply list_elem_of_singleton in Hm as ->. apply better_irrefl.
        -- split; [by apply elem_of_app; left|]. split; [done|]. intros m [Hm|Hm]%elem_of_app Em; [by apply Mb|]. by apply list_elem_of_singleton in Hm as ->.
      * split; [by apply elem_of_app; right; left|]. split; [done|]. intros m [Hm|Hm]%elem_of_app Em; [rewrite Ib in Em; done|].
        apply list_elem_of_singleton in Hm as ->. apply better_irrefl.
    + destruct (bool_decide_reflect (re_id (nd_endpoint n) = active)) as [Ai|Ai].
      * split; [by apply elem_of_app; right; left|done].
      * destruct a as [a|]; [destruct Ia as (Ha & Ea & Ia); split; [by apply elem_of_app; left|done]|].
        intros m [Hm|Hm]%elem_of_app Em; [by apply Ia|]. by apply list_elem_of_singleton in Hm as ->.
  - split.
    + destruct b as [b|].
      * destruct Ib as (Hb & Eb & Mb). split; [by apply elem_of_app; left|]. split; [done|]. intros m [Hm|Hm]%elem_of_app Em; [by apply Mb|].
        apply list_elem_of_singleton in Hm as ->. congruence.
      * intros m [Hm|Hm]%elem_of_app; [by apply Ib|]. by apply list_elem_of_singleton in Hm as ->.
    + destruct a as [a|]; [destruct Ia as (Ha & Ea & Ia); split; [by apply elem_of_app; left|done]|].
      intros m [Hm|Hm]%elem_of_app Em; [by apply Ia|]. apply list_elem_of_singleton in Hm as ->. congruence.
Qed.

(** The sum of the score never leaves 64 bits. *)
Lemma score_bound authority n : node_ok authority n -> 0 <= score n < 2 ^ 40.
Proof.
  intros [_ _ _ _ St _]. unfold score. destruct (nd_sample n) as [s|]; [|lia].
  destruct (St s eq_refl) as [(run & _ & nonce & now & at_time & f & _ & _ & _ & _ & (payload & sg & _ & _ & _ & _ & _ & _ & _ & Wf & Va & _ & _ & E3 & _) & _) Rt].
  destruct Va as (Ho & _). unfold health_ok in Ho. bool_prop. destruct Wf as (_ & _ & _ & Wc & Wa & Wu & _). words.
  unfold sample_score, max_capacity in *. rewrite <- E3.
  assert (D : 0 <= 15000 * rh_active (pr_health s) / rh_capacity (pr_health s) <= 15000).
  { split; [apply Z.div_pos; lia|]. apply Z.div_le_upper_bound; [lia|]. nia. }
  rewrite (Z.mod_small (15000 * _)) by lia. rewrite Z.mod_small by lia. lia.
Qed.

(** What the choice guarantees. *)
Record chosen (now : Z) (p : RelayPool) (e : RelayEndpoint) : Prop := mk_chosen {
  cn_node : exists n s, n ∈ nodes_ p /\ nd_endpoint n = e /\ nd_sample n = Some s /\ sample_trusted h e (nd_observed n) s /\
    rh_ready (pr_health s) = true /\ rh_active (pr_health s) < re_capacity e /\ nd_retry n <= now /\ now - nd_observed n < 5 * second;
  cn_best : exists b, best_of now (nodes_ p) b /\
    (e = nd_endpoint b \/
     exists a, a ∈ nodes_ p /\ e = nd_endpoint a /\ re_id e = active_ p /\ (now - activated_ p < 30 * second \/ score b * 4 >= score a * 3)) }.

Lemma pool_choose_spec now p : pool_ok p ->
  (forall e, pool_choose now p = Some e -> chosen now p e) /\
  (pool_choose now p = None <-> forall n, n ∈ nodes_ p -> eligible now n = false) /\
  (forall n, n ∈ nodes_ p -> eligible now n = true -> re_id (nd_endpoint n) = active_ p -> now - activated_ p < 30 * second ->
     pool_choose now p = Some (nd_endpoint n)).
Proof.
  intros O. pose proof (survey_spec (active_ p) now (nodes_ p)) as [Sb Sa]. unfold pool_choose.
  assert (Nd : forall n, n ∈ nodes_ p -> eligible now n = true -> exists n' s, n' ∈ nodes_ p /\ nd_endpoint n' = nd_endpoint n /\ nd_sample n' = Some s /\ sample_trusted h (nd_endpoint n) (nd_observed n') s /\
    rh_ready (pr_health s) = true /\ rh_active (pr_health s) < re_capacity (nd_endpoint n) /\ nd_retry n' <= now /\ now - nd_observed n' < 5 * second).
  { intros n I E. unfold eligible in E. destruct (nd_sample n) as [s|] eqn:Es; [|done]. bool_prop. exists n, s. pose proof (po_nodes _ O) as F. rewrite Forall_forall in F.
    destruct (F n I). split_and!; try done. by apply no_sample0. }
  assert (Sm : forall n, n ∈ nodes_ p -> 0 <= score n < 2 ^ 40).
  { intros n I. pose proof (po_nodes _ O) as F. rewrite Forall_forall in F. by eapply score_bound, F. }
  destruct (survey _ _ _) as [[b|] a]; cbn [fst snd] in *.
  - pose proof Sb as (Hb & Eb & _). pose proof (Sm b Hb). destruct a as [a|].
    + destruct Sa as (Ha & Ea & Ai). pose proof (Sm a Ha). rewrite !Z.mod_small by lia.
      set (stay := (now - activated_ p <? 30 * second) || (score b * 4 >=? score a * 3)). split_and!.
      * intros e [= <-]. split; [destruct stay; by apply Nd|]. exists b. split; [done|]. destruct stay eqn:St; [|by left]. right. exists a. split_and!; try done.
        unfold stay in St. apply orb_true_iff in St as [St|St]; bool_prop; [by left|right; lia].
      * split; [done|]. intros N. by rewrite (N b Hb) in Eb.
      * intros n Hn En Ai' Lt. assert (stay = true) as -> by (unfold stay; apply orb_true_iff; left; by apply Z.ltb_lt).
        f_equal. pose proof (po_ids _ O) as Nd'. apply list_elem_of_lookup in Hn as [i Hi]; apply list_elem_of_lookup in Ha as [j Hj].
        assert (i = j); [|congruence]. apply (NoDup_lookup _ i j (active_ p) Nd'); rewrite list_lookup_fmap; [rewrite Hi|rewrite Hj]; cbn; by f_equal.
    + split_and!.
      * intros e [= <-]. split; [by apply Nd|]. exists b. split; [done|]. by left.
      * split; [done|]. intros N. by rewrite (N b Hb) in Eb.
      * intros n Hn En Ai. by destruct (Sa n Hn En).
  - split_and!; [done|done|]. intros n Hn En. by rewrite (Sb n Hn) in En.
Qed.

(** ** Scans *)

Definition relays_of (p : RelayPool) : list RelayEndpoint := map nd_endpoint (nodes_ p).
Definition probes_in (i : ScanInput) (l : list RelayEndpoint) : Prop := forall e s t, e ∈ l -> sample_of i e = Some (s, t) -> sample_trusted h e t s.

Lemma note_probes_ok i l p : pool_ok p -> probes_in i l ->
  exists p', note_probes i l p = Ok p' /\ pool_ok p' /\ relays_of p' = relays_of p /\ authority_ p' = authority_ p.
Proof.
  unfold relays_of. revert p. induction l as [|e l IH]; intros p O P; cbn; [by exists p|].
  destruct (sample_of i e) as [[s t]|] eqn:E.
  - destruct (pool_observe_ok e s t p O (P e s t ltac:(by left) E)) as (p1 & E1 & O1 & M1 & A1). rewrite E1.
    destruct (IH p1 O1) as (p2 & E2 & O2 & M2 & A2); [intros x s' t' Hx; apply P; by right|]. exists p2. split_and!; [done|done|congruence|congruence].
  - destruct (pool_failed_ok (re_id e) (in_end i) p O) as [O1 M1]. destruct (IH _ O1) as (p2 & E2 & O2 & M2 & A2); [intros x s' t' Hx; apply P; by right|].
    exists p2. split_and!; [done|done|congruence|done].
Qed.
End Known.
Arguments relays_of : clear implicits.

(** A probe that succeeds is answered by the relay. *)
Lemma probe_settled e nonce accounting challenged l found : found <> (None, false) ->
  match fold_left (probe_frame e nonce accounting challenged) l found with (Some s, false) => l = [] /\ found = (Some s, false) | _ => True end.
Proof.
  revert found. induction l as [|[[u a] f] l IH]; intros found H; cbn [fold_left].
  - by destruct found as [[s|] []].
  - specialize (IH (None, true) ltac:(done)).
    replace (probe_frame e nonce accounting challenged found (u, a, f)) with (@None RelayProbe, true) by (by destruct found as [[s|] []]).
    destruct (fold_left _ _ _) as [[s|] []]; try done. by destruct IH.
Qed.
Lemma probe_relay_answered e timeout accounting run s : word 2 (re_version e) -> steady run -> probe_relay e timeout accounting run = Ok s ->
  answered e run s /\ 0 <= pr_rtt s <= 10000000.
Proof.
  intros W [C1 C2] H. unfold probe_relay in H. ok_inv H. destruct (pb_nonce run) as [nonce|] eqn:En; [|done].
  destruct (pb_queued run && pb_ran run); [|done].
  destruct (pb_frames run) as [|[[u a] f] l] eqn:Ef; [done|]. cbn [fold_left] in H. unfold probe_frame at 2 in H.
  destruct (probe_answer e nonce accounting u _ f) as [s'|] eqn:Ea.
  - pose proof (probe_settled e nonce accounting (pb_challenged run) l (Some s', false) ltac:(done)) as X. destruct (fold_left _ _ _) as [[s1|] []]; try done.
    destruct X as [-> [= <-]]. ok_inv H. subst s'. bool_prop. specialize (C2 u a f ltac:(by left)). unfold probe_answer in Ea. ok_inv Ea. subst s. bool_prop.
    split; [exists nonce, u, a, f; split_and!; try done; by apply verify_health_spec|]. cbn [pr_rtt].
    split; [apply Z.div_pos; lia|]. apply Z.div_le_upper_bound; lia.
  - pose proof (probe_settled e nonce accounting (pb_challenged run) l (None, true) ltac:(done)) as X. destruct (fold_left _ _ _) as [[s1|] []]; try done. by destruct X.
Qed.

(** A refresh keeps the catalog or takes a newer verified one whole. *)
Definition refreshed (i : ScanInput) (s s' : Scanner) : Prop :=
  (relays_of (sc_pool s') = relays_of (sc_pool s) /\ sc_revision s' = sc_revision s /\ sc_expires s' = sc_expires s) \/
  exists r, in_refresh i = Some (Ok r) /\ br_from_directory r = true /\ sc_revision s <= br_revision r /\ in_utc i < br_expires r /\
    relays_of (sc_pool s') = br_pool r /\ sc_revision s' = br_revision r /\ sc_expires s' = br_expires r.
Lemma refresh_catalog_ok h i s : pool_ok h (sc_pool s) -> authority_ (sc_pool s) <> [] ->
  pool_ok h (sc_pool (refresh_catalog i s)) /\ refreshed i s (refresh_catalog i s) /\ authority_ (sc_pool (refresh_catalog i s)) = authority_ (sc_pool s).
Proof.
  intros O Na. unfold refresh_catalog, refreshed. destruct (in_refresh i) as [[r|]|] eqn:E; [| |by split_and!; [|left|]].
  - destruct (_ && _); [|by split_and!; [|left|]]. destruct (_ && _ && _) eqn:G; [|by split_and!; [|left|]]. bool_prop.
    destruct (pool_update (br_pool r) (sc_pool s)) as [p|] eqn:U; [|by split_and!; [|left|]].
    destruct (pool_update_ok _ _ _ _ O U) as (O' & M & A). split_and!; [done| |cbn; by destruct A]. right. exists r. split_and!; try done; lia.
  - destruct (_ && _); by split_and!; [|left|].
Qed.

(** The probes a scan makes. *)
Definition probes_made (i : ScanInput) (s : Scanner) : list Probed :=
  let s := refresh_catalog i s in
  if in_utc i >=? sc_expires s then []
  else omap (fun e => '(run, t) ← in_probe i e; Some (mk_probed e run t)) (pool_due (in_due i) (sc_pool s)).
Definition clock_steady (i : ScanInput) : Prop := forall e run t, in_probe i e = Some (run, t) -> steady run.

(** The scanners a client reaches from the relays it starts with, whose authority it pins, with the probes it made. *)
Definition act_probes (a : pool_act) (s : Scanner) : list Probed := match a with act_scan i => probes_made i s | _ => [] end.
Definition act_steady (a : pool_act) : Prop := match a with act_scan i => clock_steady i | _ => True end.
Inductive scanner_reach (authority : bytes) : Scanner -> list Probed -> Prop :=
| sr_new endpoints p revision expires next : new_pool endpoints = Ok p -> re_authority <$> head endpoints = Some authority ->
    scanner_reach authority (mk_scanner p revision expires next) []
| sr_step a s h o s' : scanner_reach authority s h -> act_steady a -> pool_step a s = Ok (o, s') -> scanner_reach authority s' (h ++ act_probes a s).

Definition pinned (authority : bytes) (h : list Probed) (s : Scanner) : Prop :=
  pool_ok h (sc_pool s) /\ authority_ (sc_pool s) = authority /\ authority <> [].

Lemma pool_ok_mono h h' p : (forall x, x ∈ h -> x ∈ h') -> pool_ok h p -> pool_ok h' p.
Proof.
  intros H [Pc Pi Pn Pf]. split; [done..|]. apply (Forall_impl _ _ _ Pf). intros n [N1 N2 N3 N4 N5 N6]. split; try done.
  intros s Es. destruct (N5 s Es) as [(run & I & A) Rt]. split; [|done]. exists run. auto.
Qed.
Lemma due_in now p e : e ∈ pool_due now p -> e ∈ relays_of p.
Proof.
  intros H. apply list_elem_of_fmap in H as (n & -> & H). apply list_elem_of_In, List.filter_In in H as [H _]. apply list_elem_of_In in H.
  by apply list_elem_of_fmap_2.
Qed.
Lemma probes_trusted h i s : pool_ok h (sc_pool (refresh_catalog i s)) -> clock_steady i -> (in_utc i >=? sc_expires (refresh_catalog i s)) = false ->
  probes_in (h ++ probes_made i s) i (pool_due (in_due i) (sc_pool (refresh_catalog i s))).
Proof.
  intros O St Ex e x t He Hs. unfold sample_of in Hs. destruct (in_probe i e) as [[run t']|] eqn:Ei; [|done].
  destruct (probe_relay e probe_timeout false run) as [x'|] eqn:Er; [|done]. injection Hs as -> ->.
  pose proof (due_in _ _ _ He) as Hr. apply list_elem_of_fmap in Hr as (n & -> & Hn). pose proof (po_nodes _ _ O) as F. rewrite Forall_forall in F.
  destruct (F n Hn) as [_ _ V _ _ _]. destruct (probe_relay_answered (nd_endpoint n) probe_timeout false run x) as [A Rt]; [by rewrite V|by eapply St|done|].
  split; [|done]. exists run. split; [|done]. apply elem_of_app. right. unfold probes_made. rewrite Ex. apply list_elem_of_omap. exists (nd_endpoint n). by rewrite Ei.
Qed.

(** A scan of a pinned pool. *)
Definition scanned (authority : bytes) (h : list Probed) (i : ScanInput) (s s' : Scanner) (o : option RelayEndpoint) : Prop :=
  refreshed i s s' /\ (forall e, e ∈ relays_of (sc_pool s') -> re_authority e = authority) /\
  forall e, o = Some e -> e ∈ relays_of (sc_pool s') /\ re_authority e = authority /\ chosen h (in_end i) (sc_pool s') e /\ in_utc_end i < sc_expires s'.
Lemma pinned_relays authority h s e : pinned authority h s -> e ∈ relays_of (sc_pool s) -> re_authority e = authority.
Proof.
  intros (O & <- & _) H. apply list_elem_of_fmap in H as (n & -> & Hn). pose proof (po_nodes _ _ O) as F. rewrite Forall_forall in F. by destruct (F n Hn).
Qed.
Lemma scan_pool_ok authority h i s : pinned authority h s -> clock_steady i ->
  exists o s', scan_pool i s = Ok (o, s') /\ pinned authority (h ++ probes_made i s) s' /\ scanned authority (h ++ probes_made i s) i s s' o.
Proof.
  intros (O & A & Na) St. unfold scan_pool. rewrite <- A in Na. destruct (refresh_catalog_ok h i s O Na) as (O1 & R & A1). set (s1 := refresh_catalog i s) in *.
  assert (Oh : pool_ok (h ++ probes_made i s) (sc_pool s1)) by (apply (pool_ok_mono h); [|done]; intros x Hx; apply elem_of_app; by left).
  destruct (in_utc i >=? sc_expires s1) eqn:Ex.
  - exists None, s1. assert (P : pinned authority (h ++ probes_made i s) s1) by (split_and!; [done|congruence..]).
    split; [done|]. split; [done|]. split; [done|]. split; [|done]. intros e. by apply (pinned_relays _ (h ++ probes_made i s)).
  - destruct (note_probes_ok _ i (pool_due (in_due i) (sc_pool s1)) (sc_pool s1) Oh (probes_trusted h i s O1 St Ex)) as (p & E & Op & M & Ap). rewrite E.
    eexists _, _. split; [done|]. set (s2 := with_pool p s1). assert (P : pinned authority (h ++ probes_made i s) s2) by (split_and!; [done|cbn; congruence|congruence]).
    split; [done|]. split; [unfold refreshed in *; cbn; by rewrite M|]. split; [intros e; by apply (pinned_relays _ (h ++ probes_made i s))|].
    intros e. destruct (in_utc_end i >=? sc_expires s1) eqn:G; [done|]. bool_prop. intros H.
    destruct (pool_choose_spec _ (in_end i) p Op) as [Ch _]. specialize (Ch e H). destruct (Ch) as [(n & x & Hn & En & _) _].
    assert (I : e ∈ relays_of (sc_pool s2)) by (rewrite <- En; by apply list_elem_of_fmap_2).
    split_and!; [done|by apply (pinned_relays _ (h ++ probes_made i s) s2)|done|cbn; lia].
Qed.
Lemma scanner_pinned authority s h : scanner_reach authority s h -> pinned authority h s.
Proof.
  induction 1 as [endpoints p revision expires next E A|a s h o s' R IH St E].
  - pose proof E as E'. unfold new_pool in E. destruct (pool_update_ok [] endpoints no_pool p (no_pool_ok _) E) as (O & _ & _). unfold new_pool, pool_update in E'.
    destruct endpoints as [|first l]; [done|]. injection A as <-. ok_inv E'. subst p. cbn [authority_ no_pool sc_pool] in *. rewrite bool_decide_true in * by done. cbn.
    split; [done|]. split; [done|]. cbn [carry_all] in E0. ok_inv E0. unfold acceptable in *. bool_prop. done.
  - destruct a as [i|id now|id now]; cbn [pool_step act_probes] in *.
    + destruct (scan_pool_ok authority h i s IH St) as (o' & s1 & E1 & P & _). rewrite E1 in E. by injection E as -> ->.
    + apply Ok_inj in E. injection E as <- <-. rewrite app_nil_r. destruct IH as (O & A & N). split; [by apply pool_activate_ok|]. split; [|done].
      cbn. unfold pool_activate. by destruct (negb _).
    + apply Ok_inj in E. injection E as <- <-. rewrite app_nil_r. destruct IH as (O & A & N). split; [by apply pool_failed_ok|done].
Qed.

(** C35: The relay a client uses is one its directory vouches for and that just proved itself.  A catalog is accepted
    exactly when it is the encoding of a well-formed catalog signed with the pinned key and inside its lifetime; the
    bootstrap takes the configured relay, or a relay of such a catalog of the configured scope and the same protocol,
    with a pool of relays of the same authority.  A health report is accepted exactly when it is signed with the
    key the catalog gives the relay, answers the fresh challenge, agrees with the catalog and is at most 30
    seconds old.  The authority of the first relays a client is given stays pinned: whatever scans, activations and losses
    follow, every relay of the pool is of that authority.  A scan never throws; it keeps the relays or takes a catalog of no
    older revision whole, and what it chooses is a relay of the pinned authority in the unexpired catalog, for which a
    probe this client made less than five seconds ago met as its only frame a report signed by that relay over the nonce
    drawn for that very probe, ready and not full; it is either the best of all such relays or the active one, kept for 30
    seconds and while no other is a quarter better.  After a failure a relay is left alone for 1 to 30 seconds. *)
Theorem relay_choice_trusted :
  (forall response key now c, verify_directory response key now = Ok c <->
     exists payload signature, response = payload ++ signature /\ length signature = 64%nat /\ 85 <= len response <= 16384 /\
       verify_signature key payload signature = Ok true /\ wf_catalog c /\ directory_body c = Ok payload /\ dc_issued c <= now < dc_expires c) /\
  (forall config fetch now, bootstrap_ok config fetch now (resolve_bootstrap config fetch now)) /\
  (forall encoded e nonce now v, word 2 (re_version e) ->
     verify_relay_health encoded e nonce now = Ok v <-> health_trusted encoded e nonce now v) /\
  (forall authority s h, scanner_reach authority s h ->
     (forall e, e ∈ relays_of (sc_pool s) -> re_authority e = authority) /\
     (forall i, clock_steady i -> exists o s', scan_pool i s = Ok (o, s') /\ scanned authority (h ++ probes_made i s) i s s' o) /\
     (forall now n, n ∈ nodes_ (sc_pool s) -> eligible now n = true -> re_id (nd_endpoint n) = active_ (sc_pool s) ->
        now - activated_ (sc_pool s) < 30 * second -> pool_choose now (sc_pool s) = Some (nd_endpoint n)) /\
     (forall now n, n ∈ nodes_ (sc_pool s) -> 1 * second <= nd_retry (fail_node now n) - now <= 30 * second /\ is_due now (fail_node now n) = false)).
Proof.
  split_and!.
  - intros. apply verify_directory_spec.
  - intros. apply bootstrap_trusted.
  - intros. by apply verify_health_spec.
  - intros authority s h R. pose proof (scanner_pinned authority s h R) as P. pose proof P as (O & _). split_and!.
    + intros e. by apply (pinned_relays _ h).
    + intros i St. destruct (scan_pool_ok authority h i s P St) as (o & s' & E & _ & Sc). by exists o, s'.
    + intros now n. by apply (pool_choose_spec h now _ O).
    + intros now n Hn. pose proof (po_nodes _ _ O) as F. rewrite Forall_forall in F. destruct (F n Hn) as [_ _ _ _ _ [F1 F2]].
      unfold is_due, fail_node, second. cbn [nd_retry nd_failures].
      assert (B : 1 <= Z.min (Z.shiftl 1 (Z.min (nd_failures n + 1) 6 - 1)) 30 <= 30).
      { rewrite Z.shiftl_1_l. pose proof (Z.pow_pos_nonneg 2 (Z.min (nd_failures n + 1) 6 - 1) eq_refl ltac:(lia)). lia. }
      split; [lia|]. apply andb_false_iff. left. rewrite Z.geb_leb. apply Z.leb_gt. lia.
Qed.
End Trusted.

(** ** One relay, probed and chosen *)

#[local] Existing Instance toy_crypto.
Definition home_key : bytes := replicate 32 x05.
Definition home : RelayEndpoint := mk_relay (str "home") (str "relay.example") 4433 (str "eu") 100 protocol_version (str "club") home_key.
Definition home_health : RelayHealth := mk_health (replicate 32 x07) (str "home") (str "club") 5000 1 100 3 0 0 0 0 0 0 0 0 false true.
Definition home_report : bytes := match sign_relay_health home_health home_key with Ok bs => bs | Throw _ => [] end.
(** The challenge of 10 s is answered 20 ms later, at the wall time 6000. *)
Definition home_run : ProbeRun :=
  mk_probe_run (10 * second) false true (Some (replicate 32 x07)) true (10 * second) true
    [(6000, 10 * second + 20000000, mk_frame relay_health_result 1 home_report)] (10 * second + 30000000) false.
Definition home_scanner : Scanner := mk_scanner (match new_pool [home] with Ok p => p | Throw _ => no_pool end) 1 900000 0.
Definition home_scan : ScanInput :=
  mk_scan 6000 (10 * second) None (10 * second) (fun e => if bool_decide (e = home) then Some (home_run, 10 * second + 30000000) else None) (11 * second) 6100.

Lemma home_reached : scanner_reach (str "club") home_scanner [].
Proof. by apply (sr_new _ [home]). Qed.
Lemma home_steady : clock_steady home_scan.
Proof.
  intros e run t H. cbn in H. destruct (bool_decide_reflect (e = home)) as [->|]; [|done]. injection H as <- <-. split; [done|].
  intros u a f Hf. apply list_elem_of_singleton in Hf as [= -> -> ->]. cbn. unfold second. lia.
Qed.

Lemma relay_choice_trusted_witness :
  exists s', scan_pool home_scan home_scanner = Ok (Some home, s') /\ chosen (probes_made home_scan home_scanner) (11 * second) (sc_pool s') home.
Proof.
  destruct relay_choice_trusted as (_ & _ & _ & Sc).
  destruct (Sc _ _ _ home_reached) as (_ & Scan & _). destruct (Scan home_scan home_steady) as (o & s' & E & _ & _ & Ch).
  assert (o = Some home) as -> by (apply (f_equal (fun r => match r with Ok x => fst x | Throw _ => None end)) in E; vm_compute in E; exact (eq_sym E)).
  exists s'. split; [exact E|]. apply (Ch home eq_refl).
Defined.
