(* ===== verification/RelayServer.v ===== *)
(** * The relay server

    transport/quic.cpp, [QuicRelayServer::Impl] of a standalone relay (one without an upstream authority): admission of
    connections over QUIC and TLS, their handshakes, the table of active control streams, and how frames and packets
    of authenticated devices reach [ControlChannel] and what it returns reaches the devices.  A connection is named
    by its handle; a QUIC connection has one control stream.  Clocks, random draws and whether a buffer is
    taken are the record [ServerWorld]; log messages are left out. *)
From S2P Require Import Limits ForwardingQuota QuicSend JoinTarget Handshake Directory RelayHealth.
From S2P Require Import Prelude Codec StreamDecoder Capabilities NetworkPolicy NetworkMessages PacketMessages Crypto RelayStore NetworkService ServiceAccess ServiceSafety ControlChannel.

Record ServerOptions := mk_server_options {
  so_token : bytes; so_auth_timeout : Z; so_queue : SendQueueLimits; so_max_connections : Z; so_control_rate : Z; so_health_rate : Z;
  so_health_identity : option bytes; so_relay_id : bytes; so_authority : bytes }.

Record ServerWorld := mk_server_world {
  sw_now : Z; sw_env : Ambient; sw_random : option bytes; sw_draws : list (option bytes); sw_taken : Z -> Frame -> bool;
  sw_taken_datagram : Z -> bytes -> bool; sw_settings : bool; sw_utc : Z; sw_uptime : Z }.

(** ** State *)

(** [ConnectionContext] with its stream, or [TcpContext]. *)
Record Connection := mk_connection {
  k_tcp : bool; k_handshake : ServerHandshake; k_rejected : bool; k_started : bool; k_datagram : Z;
  k_sends : Sends; k_rate : ControlRateLimit; k_decoder : StreamDecoder; k_admission : Ticket }.
Record ActiveControlStream := mk_active_stream { as_device : bytes; as_handle : Z; as_tcp : bool }.

Record Relay := mk_relay_server {
  v_channel : NetworkControlChannel; v_connections : gmap Z Connection; v_active : list ActiveControlStream; v_admissions : BudgetState;
  v_health_rate : ControlRateLimit; v_running : bool; v_forwarded : Z; v_forwarded_bytes : Z; v_dropped : Z }.

Definition put_k_handshake x (k : Connection) : Connection :=
  mk_connection (k_tcp k) x (k_rejected k) (k_started k) (k_datagram k) (k_sends k) (k_rate k) (k_decoder k) (k_admission k).
Definition put_k_rejected x (k : Connection) : Connection :=
  mk_connection (k_tcp k) (k_handshake k) x (k_started k) (k_datagram k) (k_sends k) (k_rate k) (k_decoder k) (k_admission k).
Definition put_k_started x (k : Connection) : Connection :=
  mk_connection (k_tcp k) (k_handshake k) (k_rejected k) x (k_datagram k) (k_sends k) (k_rate k) (k_decoder k) (k_admission k).
Definition put_k_datagram x (k : Connection) : Connection :=
  mk_connection (k_tcp k) (k_handshake k) (k_rejected k) (k_started k) x (k_sends k) (k_rate k) (k_decoder k) (k_admission k).
Definition put_k_sends x (k : Connection) : Connection :=
  mk_connection (k_tcp k) (k_handshake k) (k_rejected k) (k_started k) (k_datagram k) x (k_rate k) (k_decoder k) (k_admission k).
Definition put_k_rate x (k : Connection) : Connection :=
  mk_connection (k_tcp k) (k_handshake k) (k_rejected k) (k_started k) (k_datagram k) (k_sends k) x (k_decoder k) (k_admission k).
Definition put_k_decoder x (k : Connection) : Connection :=
  mk_connection (k_tcp k) (k_handshake k) (k_rejected k) (k_started k) (k_datagram k) (k_sends k) (k_rate k) x (k_admission k).

Definition put_v_channel x (v : Relay) : Relay :=
  mk_relay_server x (v_connections v) (v_active v) (v_admissions v) (v_health_rate v) (v_running v) (v_forwarded v) (v_forwarded_bytes v) (v_dropped v).
Definition put_v_connections x (v : Relay) : Relay :=
  mk_relay_server (v_channel v) x (v_active v) (v_admissions v) (v_health_rate v) (v_running v) (v_forwarded v) (v_forwarded_bytes v) (v_dropped v).
Definition put_v_active x (v : Relay) : Relay :=
  mk_relay_server (v_channel v) (v_connections v) x (v_admissions v) (v_health_rate v) (v_running v) (v_forwarded v) (v_forwarded_bytes v) (v_dropped v).
Definition put_v_admissions x (v : Relay) : Relay :=
  mk_relay_server (v_channel v) (v_connections v) (v_active v) x (v_health_rate v) (v_running v) (v_forwarded v) (v_forwarded_bytes v) (v_dropped v).
Definition put_v_health_rate x (v : Relay) : Relay :=
  mk_relay_server (v_channel v) (v_connections v) (v_active v) (v_admissions v) x (v_running v) (v_forwarded v) (v_forwarded_bytes v) (v_dropped v).
Definition put_v_running x (v : Relay) : Relay :=
  mk_relay_server (v_channel v) (v_connections v) (v_active v) (v_admissions v) (v_health_rate v) x (v_forwarded v) (v_forwarded_bytes v) (v_dropped v).
Definition put_v_counters f b d (v : Relay) : Relay :=
  mk_relay_server (v_channel v) (v_connections v) (v_active v) (v_admissions v) (v_health_rate v) (v_running v) f b d.

(** What leaves: answers on the connection itself, frames and packets for a device, and shutdowns. *)
Inductive relay_output :=
| out_reply (h : Z) (f : Frame) | out_to (h : Z) (device : bytes) (f : Frame) | out_packet (h : Z) (device payload : bytes)
| out_close (h : Z).

(** ** Calls *)

Definition R (A : Type) : Type := Relay -> result A * Relay * list relay_output.
Definition rret {A} (a : A) : R A := fun v => (Ok a, v, []).
Definition rpure {A} (r : result A) : R A := fun v => (r, v, []).
Definition rbind {A B} (m : R A) (k : A -> R B) : R B := fun v =>
  match m v with
  | (Ok a, v, l) => match k a v with (r, v, l') => (r, v, l ++ l') end
  | (Throw e, v, l) => (Throw e, v, l)
  end.
Local Notation "'let!' x := m 'in' k" := (rbind m (fun x => k))
  (at level 10, x name, m at level 100, k at level 200, format "'[v' 'let!'  x  :=  m  'in' '/' k ']'").
Local Notation "m ;; k" := (rbind m (fun _ => k)) (at level 100, right associativity).
Definition rget : R Relay := fun v => (Ok v, v, []).
Definition rput (f : Relay -> Relay) : R unit := fun v => (Ok tt, f v, []).
Definition remit (x : relay_output) : R unit := fun v => (Ok tt, v, [x]).
Definition rcheck (b : bool) : R unit := if b then rret tt else rpure (Throw runtime_error).
(** A call whose exceptions are logged. *)
Definition rtry (m : R unit) : R unit := fun v => match m v with (_, v, l) => (Ok tt, v, l) end.
Fixpoint rfor {A} (l : list A) (f : A -> R unit) : R unit :=
  match l with [] => rret tt | x :: l => f x ;; rfor l f end.
(** A call of the control channel. *)
Definition on_channel {A} (m : CM A) : R A := fun v =>
  let (r, c) := m (v_channel v) in (r, put_v_channel c v, []).
(** The connection an event is for, and a change of it. *)
Definition rconn (h : Z) : R Connection := fun v =>
  (match v_connections v !! h with Some k => Ok k | None => Throw logic_error end, v, []).
Definition on_conn (h : Z) (f : Connection -> Connection) : R unit := rput (fun v => put_v_connections (alter f h (v_connections v)) v).

Section Relay.
Context {C : Crypto} {T : TokenMac} {Pw : PasswordHash} (o : ServerOptions).

(** ** Sending *)

(** [send_frame] on the stream, or [TlsChannel::enqueue]. *)
Definition send_on (w : ServerWorld) (h : Z) (f : Frame) : R bool := fun v =>
  match v_connections v !! h with
  | None => (Ok false, v, [])
  | Some k =>
      let (ok, s) := enqueue f (sw_taken w h f) (k_sends k) in
      (Ok ok, put_v_connections (<[h := put_k_sends s k]> (v_connections v)) v, [])
  end.
Definition send_datagram_on (w : ServerWorld) (h : Z) (payload : bytes) : R bool := fun v =>
  match v_connections v !! h with
  | None => (Ok false, v, [])
  | Some k =>
      let (status, s) := send_datagram payload (sw_taken_datagram w h payload) (k_sends k) in
      (Ok (quic_succeeded status), put_v_connections (<[h := put_k_sends s k]> (v_connections v)) v, [])
  end.

(** An answer on the connection itself; the caller throws when it cannot be sent. *)
Definition reply (w : ServerWorld) (h : Z) (f : Frame) : R unit :=
  let! ok := send_on w h f in rcheck ok ;; remit (out_reply h f).

Definition route_control_event (w : ServerWorld) (routed : RoutedControlFrame) : R unit :=
  let! v := rget in
  rfor (v_active v) (fun a =>
    if negb (bool_decide (as_device a = recipient_device_id routed)) then rret tt
    else
      let! ok := send_on w (as_handle a) (frame routed) in
      remit (if ok then out_to (as_handle a) (recipient_device_id routed) (frame routed) else out_close (as_handle a))).
Definition route_control_events (w : ServerWorld) (events : list RoutedControlFrame) : R unit := rfor events (route_control_event w).

Definition note_forwarded (ok : bool) (size : Z) : R unit := rput (fun v =>
  if ok then put_v_counters ((v_forwarded v + 1) mod 2 ^ 64) ((v_forwarded_bytes v + size) mod 2 ^ 64) (v_dropped v) v
  else put_v_counters (v_forwarded v) (v_forwarded_bytes v) ((v_dropped v + 1) mod 2 ^ 64) v).

(** The first active stream of the recipient gets the packet: as a datagram when one can hold it. *)
Definition route_encrypted_packet (w : ServerWorld) (routed : RoutedEncryptedPacket) : R unit :=
  rtry (
    let! payload := rpure (encode_forwarded_network_packet (delivery routed)) in
    let! v := rget in
    match List.find (fun a => bool_decide (as_device a = recipient routed)) (v_active v) with
    | None => rret tt
    | Some a =>
        let h := as_handle a in
        let! k := rconn h in
        let datagram := negb (as_tcp a) && negb (k_datagram k =? 0) && (len payload <=? k_datagram k) in
        let f := mk_frame network_packet_forward 0 payload in
        let! ok := if datagram then send_datagram_on w h payload else send_on w h f in
        note_forwarded ok (len payload) ;;
        if ok then remit (if datagram then out_packet h (recipient routed) payload else out_to h (recipient routed) f) else rret tt
    end).

(** ** The table of active streams *)

(** The loop of [register_control_stream]: a TLS stream of the device gives way, a QUIC stream refuses. *)
Fixpoint displace (device : bytes) (l : list ActiveControlStream) : bool * list ActiveControlStream * list Z :=
  match l with
  | [] => (true, [], [])
  | a :: l =>
      if negb (bool_decide (as_device a = device)) then
        match displace device l with (ok, l', stopped) => (ok, a :: l', stopped) end
      else if as_tcp a then
        match displace device l with (ok, l', stopped) => (ok, l', as_handle a :: stopped) end
      else (false, a :: l, [])
  end.
Definition register_control_stream (h : Z) (device : bytes) : R bool :=
  let! v := rget in
  match displace device (v_active v) with
  | (ok, l, stopped) =>
      rput (put_v_active (if ok then l ++ [mk_active_stream device h false] else l)) ;;
      rfor stopped (fun s => remit (out_close s)) ;; rret ok
  end.
Definition register_tcp (h : Z) (device : bytes) : R bool :=
  let! v := rget in
  if existsb (fun a => bool_decide (as_device a = device)) (v_active v) then rret false
  else rput (put_v_active (v_active v ++ [mk_active_stream device h true])) ;; rret true.
Definition erase_active (h : Z) (tcp : bool) : R unit :=
  rput (fun v => put_v_active (List.filter (fun a => negb ((as_handle a =? h) && Bool.eqb (as_tcp a) tcp)) (v_active v)) v).

(** ** Health *)

Definition nonce_part (f : Frame) : bytes := take 32 (payload f).
Definition wants_accounting (f : Frame) : bool := (len (payload f) =? 33) && bool_decide (last (payload f) = Some x02).
Definition health_response (w : ServerWorld) (f : Frame) : R Frame :=
  let accounting := wants_accounting f in
  match so_health_identity o with
  | None => rpure (Throw runtime_error)
  | Some identity =>
      rcheck (negb ((request_id f =? 0) || (negb (len (payload f) =? 32) && negb accounting))) ;;
      let! v := rget in
      match ForwardingQuota.allow (v_health_rate v) (sw_now w) with
      | (ok, rate) =>
          rput (put_v_health_rate rate) ;; rcheck ok ;;
          let active := len (v_active v) mod 2 ^ 32 in
          let capacity := so_max_connections o mod 2 ^ 32 in
          let m := q_metrics (quota_ (service_ (v_channel v))) in
          let pick := fun z => if accounting then z else 0 in
          let health := mk_health (nonce_part f) (so_relay_id o) (so_authority o) (sw_utc w) (sw_uptime w) capacity active 0
            (v_forwarded v) (v_forwarded_bytes v) (v_dropped v)
            (pick (admitted_deliveries m)) (pick (admitted_bytes m)) (pick (quota_rejections m)) (pick (control_rejections m))
            accounting (v_running v && (active <? capacity)) in
          let! bs := rpure (sign_relay_health health identity) in
          rret (mk_frame relay_health_result (request_id f) bs)
      end
  end.

(** ** Handshakes *)

(** A call of the connection's handshake.  A session id of zeros is drawn again: [sw_draws] are the draws up to the first that
    is used; a list without one, for which the source would go on drawing, counts as a failed proof. *)
Definition with_server_handshake {A} (h : Z) (call : ServerHandshake -> ServerHandshake * result A) : R A :=
  let! k := rconn h in
  match call (k_handshake k) with
  | (s, r) => on_conn h (put_k_handshake s) ;; rpure r
  end.
Definition answer_proof (w : ServerWorld) (f : Frame) (s : ServerHandshake) : ServerHandshake * result Frame :=
  default (s, Throw runtime_error) (handle_proof f (sw_now w) (sw_draws w) s).
Definition answer_auth (w : ServerWorld) (h : Z) (f : Frame) : R Frame :=
  if bool_decide (type_ f = client_hello) then with_server_handshake h (handle_hello f (sw_now w) (sw_random w))
  else if bool_decide (type_ f = client_auth) then with_server_handshake h (answer_proof w f)
  else rpure (Throw runtime_error).

(** The session of a connection that authenticated. *)
Definition begin_session (w : ServerWorld) (h : Z) : R unit :=
  let! k := rconn h in
  let! device := rpure (server_device_id (k_handshake k)) in
  let! session := rpure (server_session_id (k_handshake k)) in
  let! key := rpure (server_signed_device_key (k_handshake k)) in
  let! events := on_channel (note_authenticated device session key (sw_env w)) in
  route_control_events w events.
Definition end_session (w : ServerWorld) (h : Z) : R unit :=
  let! k := rconn h in
  if negb (server_authenticated (k_handshake k)) then rret tt
  else
    let! device := rpure (server_device_id (k_handshake k)) in
    let! session := rpure (server_session_id (k_handshake k)) in
    rtry (let! events := on_channel (note_disconnected device session) in route_control_events w events).

(** ** Frames of an authenticated device *)

Definition route_payload (w : ServerWorld) (actor payload : bytes) : R unit :=
  let! routed := on_channel (route_packet actor payload (sw_env w)) in
  rfor routed (route_encrypted_packet w).
Definition allow_control (w : ServerWorld) (h : Z) : R unit :=
  let! k := rconn h in
  match ForwardingQuota.allow (k_rate k) (sw_now w) with (ok, rate) => on_conn h (put_k_rate rate) ;; rcheck ok end.
Definition handle_device_frame (w : ServerWorld) (h : Z) (actor : bytes) (f : Frame) : R unit :=
  if bool_decide (type_ f = network_packet_send) then rcheck (request_id f =? 0) ;; route_payload w actor (payload f)
  else
    allow_control w h ;;
    let! d := on_channel (handle_authenticated actor f (sw_env w)) in
    reply w h (response d) ;; route_control_events w (dispatch_events d).

(** *** TLS *)

Definition handle_tcp_frame (w : ServerWorld) (h : Z) (f : Frame) : R unit :=
  let! expired := with_server_handshake h (fun s => let (s, b) := expire (sw_now w) s in (s, Ok b)) in
  rcheck (negb expired) ;;
  let! k := rconn h in
  if negb (server_authenticated (k_handshake k)) then
    if bool_decide (type_ f = relay_health_request) then
      let! answer := health_response w f in
      reply w h answer ;; on_conn h (put_k_rejected true)
    else
      let! answer := answer_auth w h f in
      let! k := rconn h in
      (if bool_decide (type_ f = client_auth) then on_conn h (put_k_rejected (server_rejected (k_handshake k))) else rret tt) ;;
      reply w h answer ;;
      if server_authenticated (k_handshake k) then
        let! device := rpure (server_device_id (k_handshake k)) in
        let! ok := register_tcp h device in
        rcheck ok ;; begin_session w h
      else rret tt
  else
    let! actor := rpure (server_device_id (k_handshake k)) in
    handle_device_frame w h actor f.

(** The connection's context goes and gives its admission back. *)
Definition drop_connection (h : Z) : R unit := rput (fun v =>
  match v_connections v !! h with
  | Some k => put_v_admissions (release (v_admissions v) (k_admission k)) (put_v_connections (delete h (v_connections v)) v)
  | None => v
  end).
Definition close_tcp (w : ServerWorld) (h : Z) : R unit :=
  let! k := rconn h in
  (if server_authenticated (k_handshake k) then erase_active h true ;; end_session w h else rret tt) ;; drop_connection h.

(** *** QUIC *)

Definition handle_auth_stream (w : ServerWorld) (h : Z) (f : Frame) : R unit :=
  let! answer := answer_auth w h f in
  let! k := rconn h in
  let authenticated := bool_decide (type_ f = client_auth) && server_authenticated (k_handshake k) in
  (if authenticated then rcheck (sw_settings w) else rret tt) ;;
  reply w h answer ;;
  (if bool_decide (type_ f = client_auth) && server_rejected (k_handshake k) then remit (out_close h) else rret tt) ;;
  if authenticated then
    let! device := rpure (server_device_id (k_handshake k)) in
    let! ok := register_control_stream h device in
    rcheck ok ;; begin_session w h
  else rret tt.

Definition handle_quic_frame (w : ServerWorld) (h : Z) (f : Frame) : R unit :=
  let! k := rconn h in
  if server_authenticated (k_handshake k) then
    let! actor := rpure (server_device_id (k_handshake k)) in handle_device_frame w h actor f
  else handle_auth_stream w h f.

Definition decode_on (h : Z) (bs : bytes) : R (list Frame) :=
  let! k := rconn h in
  match default (Throw runtime_error, k_decoder k) (push (k_decoder k) bs) with
  | (r, d) => on_conn h (put_k_decoder d) ;; rpure r
  end.
(** An exception shuts the connection down. *)
Definition or_close (h : Z) (m : R unit) : R unit := fun v =>
  match m v with (Ok _, v, l) => (Ok tt, v, l) | (Throw _, v, l) => (Ok tt, v, l ++ [out_close h]) end.

(** QUIC_STREAM_EVENT_RECEIVE, one buffer. *)
Definition on_stream_bytes (w : ServerWorld) (h : Z) (bs : bytes) : R unit :=
  or_close h (
    let! expired := with_server_handshake h (fun s => let (s, b) := expire (sw_now w) s in (s, Ok b)) in
    if (expired : bool) then remit (out_close h)
    else let! frames := decode_on h bs in rfor frames (handle_quic_frame w h)).
(** SHUTDOWN_COMPLETE of the control stream. *)
Definition close_control_stream (h : Z) : R unit := erase_active h false.

(** PEER_STREAM_STARTED: one stream per connection. *)
Definition on_stream_started (h : Z) : R unit :=
  let! k := rconn h in
  if k_started k then remit (out_close h) else on_conn h (fun k => put_k_decoder (mk_decoder [] 0) (put_k_started true k)).
Definition on_datagram_length (h : Z) (enabled : bool) (length : Z) : R unit := on_conn h (put_k_datagram (if enabled then length else 0)).
Definition on_datagram (w : ServerWorld) (h : Z) (payload : bytes) : R unit :=
  let! k := rconn h in
  if negb (server_authenticated (k_handshake k)) then rret tt
  else
    let! actor := rpure (server_device_id (k_handshake k)) in
    rtry (route_payload w actor payload).
(** SHUTDOWN_COMPLETE of the connection. *)
Definition on_quic_closed (w : ServerWorld) (h : Z) : R unit := erase_active h false ;; end_session w h ;; drop_connection h.
Definition on_sent (h : Z) (i : nat) : R unit := on_conn h (fun k => put_k_sends (complete_send i (k_sends k)) k).

(** ** New connections *)

(** Over QUIC ([on_listener_event]) or TLS (the accept loop and the factory of [initialize]); [h] is the handle of the new
    connection. *)
Definition accept_connection (w : ServerWorld) (h : Z) (tcp : bool) : R unit :=
  let! v := rget in
  match reserve (v_admissions v) 1 true with
  | (None, b) => rput (put_v_admissions b)
  | (Some t, b) =>
      let! hs := rpure (new_server (so_token o) h (sw_now w + so_auth_timeout o)) in
      let! sends := rpure (new_sends (so_queue o)) in
      let! rate := rpure (make_rate_limit (so_control_rate o)) in
      rput (fun v => put_v_admissions b (put_v_connections (<[h := mk_connection tcp hs false tcp 0 sends rate (mk_decoder [] 0) t]> (v_connections v)) v))
  end.

Definition new_relay (s : Service) : result Relay :=
  let* b := make_budget (mk_queue_limits (so_max_connections o) (so_max_connections o) 0 0) in
  let* rate := make_rate_limit (so_health_rate o) in
  Ok (mk_relay_server (mk_channel s ∅) ∅ [] b rate false 0 0 0).

Inductive RelayEvent :=
| re_accept (w : ServerWorld) (h : Z) (tcp : bool) | re_tcp_frame (w : ServerWorld) (h : Z) (f : Frame) | re_tcp_closed (w : ServerWorld) (h : Z)
| re_stream_started (h : Z) | re_stream (w : ServerWorld) (h : Z) (bs : bytes) | re_stream_closed (h : Z)
| re_datagram_length (h : Z) (enabled : bool) (length : Z) | re_datagram (w : ServerWorld) (h : Z) (payload : bytes)
| re_closed (w : ServerWorld) (h : Z) | re_sent (h : Z) (i : nat) | re_running (running : bool).
Definition relay_step (e : RelayEvent) : R unit :=
  match e with
  | re_accept w h tcp => accept_connection w h tcp
  | re_tcp_frame w h f => handle_tcp_frame w h f
  | re_tcp_closed w h => close_tcp w h
  | re_stream_started h => on_stream_started h
  | re_stream w h bs => on_stream_bytes w h bs
  | re_stream_closed h => close_control_stream h
  | re_datagram_length h enabled n => on_datagram_length h enabled n
  | re_datagram w h payload => on_datagram w h payload
  | re_closed w h => on_quic_closed w h
  | re_sent h i => on_sent h i
  | re_running b => rput (put_v_running b)
  end.
Definition event_handle (e : RelayEvent) : Z :=
  match e with
  | re_accept _ h _ | re_tcp_frame _ h _ | re_tcp_closed _ h | re_stream_started h | re_stream _ h _ | re_stream_closed h
  | re_datagram_length h _ _ | re_datagram _ h _ | re_closed _ h | re_sent h _ => h
  | re_running _ => 0
  end.
End Relay.
