(* ===== verification/RelayServerSafety.v ===== *)
(** * Safety of the relay server

    The invariant of [RelayServer]'s state under any order of events on any connections, and that a connection acts
    and receives only in the name of the device that authenticated on it. *)
From S2P Require Import Limits ForwardingQuota QuicSend JoinTarget Handshake Directory RelayHealth.
From S2P Require Import Prelude Codec StreamDecoder Capabilities NetworkPolicy NetworkMessages PacketMessages Crypto RelayStore NetworkService ServiceAccess ServiceSafety ControlChannel RelayServer.

Local Notation "'let!' x := m 'in' k" := (rbind m (fun x => k))
  (at level 10, x name, m at level 100, k at level 200, format "'[v' 'let!'  x  :=  m  'in' '/' k ']'").
Local Notation "m ;; k" := (rbind m (fun _ => k)) (at level 100, right associativity).

Section Safety.
Context {C : Crypto} {T : TokenMac} {Pw : PasswordHash} (o : ServerOptions).

(** ** The invariant *)

(** [d] authenticated on the connection [h]. *)
Definition named (v : Relay) (h : Z) (d : bytes) : Prop :=
  exists k, v_connections v !! h = Some k /\ server_authenticated (k_handshake k) = true /\ s_device_id (k_handshake k) = d.

(** The connection's handshake went through calls of its own, its budget counts its sends, and the length of its
    datagrams is a word. *)
Definition conn_ok (h : Z) (k : Connection) : Prop :=
  sends_ok (so_queue o) (k_sends k) /\ word 8 (k_datagram k) /\
  exists deadline es s0, new_server (so_token o) h deadline = Ok s0 /\ run es s0 = Some (k_handshake k).

Definition admission_limits : SendQueueLimits := mk_queue_limits (so_max_connections o) (so_max_connections o) 0 0.
Definition tickets (m : gmap Z Connection) : list Ticket := map snd (map_to_list (k_admission <$> m)).

Record relay_ok (v : Relay) : Prop := mk_relay_ok {
  ro_conns : forall h k, v_connections v !! h = Some k -> conn_ok h k;
  ro_active : forall a, a ∈ v_active v -> exists k, v_connections v !! as_handle a = Some k /\ k_tcp k = as_tcp a /\
    server_authenticated (k_handshake k) = true /\ s_device_id (k_handshake k) = as_device a;
  ro_devices : NoDup (map as_device (v_active v));
  ro_channel : channel_reachable (v_channel v);
  ro_admissions : exists ts, Permutation ts (tickets (v_connections v)) /\ budget_reach admission_limits (v_admissions v) ts }.

(** What a call for the connection [h] does: sessions stay, only [h] may gain one, and the channel is used in the name of
    the device on [h]. *)
Definition channel_steps (es : list ChannelEvent) (c : NetworkControlChannel) : NetworkControlChannel := fold_left (fun c e => channel_step e c) es c.
Definition kind (v : Relay) (h : Z) (tcp : bool) : Prop := exists k, v_connections v !! h = Some k /\ k_tcp k = tcp.
Record serves (h : Z) (v v' : Relay) : Prop := mk_serves {
  se_stays : forall h' d, named v h' d -> named v' h' d;
  se_kind : forall h' t, kind v h' t -> kind v' h' t;
  se_others : forall h' d, h' <> h -> named v' h' d -> named v h' d;
  se_channel : exists es, v_channel v' = channel_steps es (v_channel v) /\ Forall (fun e => named v' h (event_actor e)) es }.
Definition out_ok (h : Z) (v : Relay) (x : relay_output) : Prop :=
  match x with out_reply h' _ => h' = h | out_to h' d _ | out_packet h' d _ => named v h' d | out_close _ => True end.

Lemma serves_refl h v : serves h v v.
Proof. split; [done..|]. by exists []. Qed.
Lemma serves_trans h v1 v2 v3 : serves h v1 v2 -> serves h v2 v3 -> serves h v1 v3.
Proof.
  intros [S1 K1 B1 (es1 & E1 & F1)] [S2 K2 B2 (es2 & E2 & F2)]. split; [auto..|]. exists (es1 ++ es2). split.
  - unfold channel_steps in *. by rewrite fold_left_app, <- E1.
  - apply Forall_app. split; [|done]. apply (Forall_impl _ _ _ F1). intros e. apply S2.
Qed.
Lemma out_ok_mono h v v' x : serves h v v' -> out_ok h v x -> out_ok h v' x.
Proof. intros [S _ _ _]. destruct x; cbn; auto. Qed.

(** ** Reasoning about calls *)

Definition rruns {A} (h : Z) (v : Relay) (m : R A) : Prop :=
  forall r v' l, m v = (r, v', l) -> relay_ok v' /\ serves h v v' /\ Forall (out_ok h v') l.

Lemma rruns_pure {A} h v (r : result A) : relay_ok v -> rruns h v (rpure r).
Proof. intros O r' v' l [= <- <- <-]. split; [done|]. split; [apply serves_refl|constructor]. Qed.
Lemma rruns_ret {A} h v (a : A) : relay_ok v -> rruns h v (rret a).
Proof. apply rruns_pure. Qed.
Lemma rruns_check h v b : relay_ok v -> rruns h v (rcheck b).
Proof. intros O. unfold rcheck. destruct b; by apply rruns_pure. Qed.
Lemma rruns_emit h v x : relay_ok v -> out_ok h v x -> rruns h v (remit x).
Proof. intros O X r' v' l [= <- <- <-]. split; [done|]. split; [apply serves_refl|by constructor]. Qed.
Lemma rruns_put h v f : relay_ok (f v) -> serves h v (f v) -> rruns h v (rput f).
Proof. intros O S r' v' l [= <- <- <-]. split; [done|]. split; [done|constructor]. Qed.
Lemma rruns_bind {A B} h v (m : R A) (k : A -> R B) : rruns h v m ->
  (forall a v1 l, m v = (Ok a, v1, l) -> relay_ok v1 -> serves h v v1 -> rruns h v1 (k a)) -> rruns h v (rbind m k).
Proof.
  intros Hm Hk r v' l. unfold rbind. destruct (m v) as [[[a|e] v1] l1] eqn:E.
  - destruct (Hm _ _ _ E) as (O1 & S1 & F1). destruct (k a v1) as [[r2 v2] l2] eqn:E2. intros [= <- <- <-].
    destruct (Hk a v1 l1 eq_refl O1 S1 _ _ _ E2) as (O2 & S2 & F2). split; [done|]. split; [by eapply serves_trans|].
    apply Forall_app. split; [|done]. apply (Forall_impl _ _ _ F1). intros x. by apply out_ok_mono.
  - intros [= <- <- <-]. by apply (Hm _ _ _ E).
Qed.
Lemma rruns_get {A} h v (k : Relay -> R A) : rruns h v (k v) -> rruns h v (rbind rget k).
Proof. intros H r v' l. unfold rbind, rget. destruct (k v v) as [[r2 v2] l2] eqn:E. intros [= <- <- <-]. by apply (H _ _ _ E). Qed.
Lemma rruns_then {A B} h v (r : result A) (k : A -> R B) : relay_ok v -> (forall a, r = Ok a -> rruns h v (k a)) -> rruns h v (rbind (rpure r) k).
Proof. intros O H. apply rruns_bind; [by apply rruns_pure|]. intros a v1 l [= -> <- <-] _ _. by apply H. Qed.
Lemma rruns_guard {B} h v b (k : R B) : relay_ok v -> (b = true -> rruns h v k) -> rruns h v (rcheck b ;; k).
Proof. intros O H. unfold rcheck. destruct b; (apply rruns_then; [done|]); [intros _ _; by apply H|done]. Qed.
Lemma rruns_conn {A} h v h' (k : Connection -> R A) : relay_ok v ->
  (forall c, v_connections v !! h' = Some c -> rruns h v (k c)) -> rruns h v (rbind (rconn h') k).
Proof.
  intros O H. apply rruns_bind.
  - intros r v' l [= <- <- <-]. split; [done|]. split; [apply serves_refl|constructor].
  - intros a v1 l E _ _. unfold rconn in E. destruct (v_connections v !! h') as [c|]; [|done]. injection E as -> <- <-. by apply H.
Qed.
Lemma rruns_try h v m : rruns h v m -> rruns h v (rtry m).
Proof. intros H r v' l. unfold rtry. destruct (m v) as [[r1 v1] l1] eqn:E. intros [= <- <- <-]. by apply (H _ _ _ E). Qed.
Lemma rruns_for {A} h v (l : list A) f : relay_ok v -> (forall x v1, x ∈ l -> relay_ok v1 -> serves h v v1 -> rruns h v1 (f x)) -> rruns h v (rfor l f).
Proof.
  revert v. induction l as [|x l IH]; intros v O H; cbn; [by apply rruns_ret|]. apply rruns_bind.
  - apply H; [by left|done|apply serves_refl].
  - intros [] v1 l1 _ O1 S1. apply IH; [done|]. intros y v2 Hy O2 S2. apply H; [by right|done|by eapply serves_trans].
Qed.
Lemma rruns_or_close h v m : rruns h v m -> rruns h v (or_close h m).
Proof.
  intros H r v' l. unfold or_close. destruct (m v) as [[[u|e] v1] l1] eqn:E; intros [= <- <- <-]; destruct (H _ _ _ E) as (O1 & S1 & F1);
    (split; [done|]); (split; [done|]); [done|]. apply Forall_app. split; [done|]. by constructor.
Qed.

(** ** Changes of one connection *)

Lemma named_conns v v' : v_connections v' = v_connections v -> forall h d, named v h d -> named v' h d.
Proof. unfold named. by intros ->. Qed.
Lemma serves_same h v v' : v_connections v' = v_connections v -> v_channel v' = v_channel v -> serves h v v'.
Proof. intros E1 E2. split; [by apply named_conns|unfold kind; by rewrite E1|by intros h' d _; apply named_conns|]. exists []. by rewrite E2. Qed.

Lemma ok_set_conn v h k k' : relay_ok v -> v_connections v !! h = Some k -> k_tcp k' = k_tcp k -> k_admission k' = k_admission k -> conn_ok h k' ->
  (server_authenticated (k_handshake k) = true -> k_handshake k' = k_handshake k) ->
  relay_ok (put_v_connections (<[h := k']> (v_connections v)) v) /\
  forall x, x = h \/ k_handshake k' = k_handshake k -> serves x v (put_v_connections (<[h := k']> (v_connections v)) v).
Proof.
  intros O Hk Et Ea Ok' Au. split.
  - destruct O as [Oc Oa Od Och Oad]. split; cbn; try done.
    + intros h' c. destruct (decide (h' = h)) as [->|N]; [rewrite lookup_insert_eq; by intros [= <-]|rewrite lookup_insert_ne by done; apply Oc].
    + intros a Ha. destruct (Oa a Ha) as (c & Hc & E1 & E2 & E3). destruct (decide (as_handle a = h)) as [E|N].
      * exists k'. rewrite E, lookup_insert_eq. rewrite E in Hc. assert (c = k) as -> by congruence. rewrite Au by done. split_and!; try done; congruence.
      * exists c. by rewrite lookup_insert_ne.
    + unfold tickets in *. rewrite fmap_insert, Ea, insert_id by (by rewrite lookup_fmap, Hk). done.
  - intros x Hx. split; [..|by exists []]; intros h' d.
    + intros (c & Hc & E1 & E2). destruct (decide (h' = h)) as [->|N].
      * exists k'. cbn. rewrite lookup_insert_eq. assert (c = k) as -> by congruence. by rewrite Au.
      * exists c. cbn. by rewrite lookup_insert_ne.
    + intros (c & Hc & <-). destruct (decide (h' = h)) as [->|N]; [exists k'|exists c]; cbn.
      * rewrite lookup_insert_eq. assert (c = k) as -> by congruence. done.
      * by rewrite lookup_insert_ne.
    + intros N (c & Hc & E1 & E2). cbn in Hc. destruct (decide (h' = h)) as [->|N'].
      * rewrite lookup_insert_eq in Hc. injection Hc as ->. exists k. destruct Hx as [->|<-]; done.
      * rewrite lookup_insert_ne in Hc by done. by exists c.
Qed.

(** A change that leaves the handshake alone. *)
Definition harmless (f : Connection -> Connection) (k : Connection) : Prop :=
  k_tcp (f k) = k_tcp k /\ k_admission (f k) = k_admission k /\ k_handshake (f k) = k_handshake k /\
  sends_ok (so_queue o) (k_sends (f k)) /\ word 8 (k_datagram (f k)).
Lemma alter_present (f : Connection -> Connection) h (m : gmap Z Connection) k : m !! h = Some k -> alter f h m = <[h := f k]> m.
Proof.
  intros E. apply map_eq. intros i. destruct (decide (i = h)) as [->|N]; [by rewrite lookup_alter_eq, lookup_insert_eq, E|by rewrite lookup_alter_ne, lookup_insert_ne].
Qed.
Lemma alter_absent (f : Connection -> Connection) h (m : gmap Z Connection) : m !! h = None -> alter f h m = m.
Proof. intros E. apply map_eq. intros i. destruct (decide (i = h)) as [->|N]; [by rewrite lookup_alter_eq, E|by rewrite lookup_alter_ne]. Qed.

Lemma rruns_set h v k k' : relay_ok v -> v_connections v !! h = Some k -> k_tcp k' = k_tcp k -> k_admission k' = k_admission k -> conn_ok h k' ->
  (server_authenticated (k_handshake k) = true -> k_handshake k' = k_handshake k) -> forall f, f k = k' -> rruns h v (on_conn h f).
Proof.
  intros O E Et Ea Ok' Au f <-. destruct (ok_set_conn v h k (f k) O E Et Ea Ok' Au) as [O' S'].
  apply rruns_put; rewrite (alter_present f h _ k E); [done|]. apply S'. by left.
Qed.
Lemma rruns_on_conn h v f : relay_ok v -> (forall k, v_connections v !! h = Some k -> conn_ok h k -> harmless f k) -> rruns h v (on_conn h f).
Proof.
  intros O H. destruct (v_connections v !! h) as [k|] eqn:E.
  - destruct (H k eq_refl (ro_conns _ O _ _ E)) as (H1 & H2 & H3 & H4 & H5). eapply rruns_set; eauto.
    split_and!; [done..|]. rewrite H3. by apply (ro_conns _ O).
  - apply rruns_put; rewrite alter_absent by done; [by destruct v|by apply serves_same].
Qed.

(** ** Sending *)

Lemma ok_put_sends h v h' k s : relay_ok v -> v_connections v !! h' = Some k -> sends_ok (so_queue o) s ->
  relay_ok (put_v_connections (<[h' := put_k_sends s k]> (v_connections v)) v) /\ serves h v (put_v_connections (<[h' := put_k_sends s k]> (v_connections v)) v).
Proof.
  intros O E S. destruct (ok_set_conn v h' k (put_k_sends s k) O E) as [O' S']; try done; [|split; [done|apply S'; by right]].
  destruct (ro_conns _ O _ _ E) as (_ & W & H). by split_and!.
Qed.
Lemma rruns_send_on h v w h' f : relay_ok v -> rruns h v (send_on w h' f).
Proof.
  intros O r v' l. unfold send_on. destruct (v_connections v !! h') as [k|] eqn:E; [|by apply rruns_ret].
  destruct (ro_conns _ O _ _ E) as [Sk _]. pose proof (send_frame_ok (so_queue o) f (sw_taken w h' f) _ Sk) as S. unfold enqueue.
  destruct (send_frame f _ _) as [status s]. intros [= <- <- <-]. destruct (ok_put_sends h v h' k s O E S). done.
Qed.
Lemma rruns_send_datagram_on h v w h' p : word 8 (len p) -> relay_ok v -> rruns h v (send_datagram_on w h' p).
Proof.
  intros W O r v' l. unfold send_datagram_on. destruct (v_connections v !! h') as [k|] eqn:E; [|by apply rruns_ret].
  destruct (ro_conns _ O _ _ E) as [Sk _]. pose proof (send_datagram_ok (so_queue o) p (sw_taken_datagram w h' p) _ W Sk) as S.
  destruct (send_datagram p _ _) as [status s]. intros [= <- <- <-]. destruct (ok_put_sends h v h' k s O E S). done.
Qed.
Lemma rruns_reply h v w f : relay_ok v -> rruns h v (reply w h f).
Proof.
  intros O. unfold reply. apply rruns_bind; [by apply rruns_send_on|]. intros ok v1 l _ O1 _. apply rruns_guard; [done|]. intros _. by apply rruns_emit.
Qed.

Lemma active_named v a : relay_ok v -> a ∈ v_active v -> named v (as_handle a) (as_device a).
Proof. intros O Ha. destruct (ro_active _ O a Ha) as (k & Hk & _ & Au & D). by exists k. Qed.

Lemma rruns_route_event h v w routed : relay_ok v -> rruns h v (route_control_event w routed).
Proof.
  intros O. unfold route_control_event. apply rruns_get. apply rruns_for; [done|]. intros a v1 Ha O1 S1.
  destruct (bool_decide_reflect (as_device a = recipient_device_id routed)) as [E|]; cbn [negb]; [|by apply rruns_ret].
  apply rruns_bind; [by apply rruns_send_on|]. intros ok v2 l _ O2 S2. apply rruns_emit; [done|]. destruct ok; [|done]. cbn. rewrite <- E.
  by apply (se_stays _ _ _ S2), (se_stays _ _ _ S1), active_named.
Qed.
Lemma rruns_route_events h v w l : relay_ok v -> rruns h v (route_control_events w l).
Proof. intros O. apply rruns_for; [done|]. intros x v1 _ O1 _. by apply rruns_route_event. Qed.

Lemma rruns_note h v ok n : relay_ok v -> rruns h v (note_forwarded ok n).
Proof. intros O. apply rruns_put; destruct ok; [by destruct O..|by apply serves_same|by apply serves_same]. Qed.
Lemma rruns_forwarded h v a m n x : relay_ok v -> a ∈ v_active v -> rruns h v m -> (forall v2, named v2 (as_handle a) (as_device a) -> out_ok h v2 x) ->
  rruns h v (rbind m (fun ok => note_forwarded ok n ;; if ok then remit x else rret tt)).
Proof.
  intros O Ha Hm Hx. apply rruns_bind; [done|]. intros b v1 l _ O1 S1. apply rruns_bind; [by apply rruns_note|].
  intros u v2 l2 _ O2 S2. destruct b; [|by apply rruns_ret]. apply rruns_emit; [done|]. apply Hx.
  by apply (se_stays _ _ _ S2), (se_stays _ _ _ S1), active_named.
Qed.
Lemma rruns_route_packet h v w routed : relay_ok v -> rruns h v (route_encrypted_packet w routed).
Proof.
  intros O. unfold route_encrypted_packet. apply rruns_try, rruns_then; [done|]. intros payload _. apply rruns_get.
  destruct (List.find _ _) as [a|] eqn:F; [|by apply rruns_ret]. apply find_some in F as [Ha E]. bool_prop. apply list_elem_of_In in Ha.
  apply rruns_conn; [done|]. intros k Hk. destruct (_ && _) eqn:D.
  - apply (rruns_forwarded h v a); [done|done| |by intros v2; cbn; rewrite E]. apply rruns_send_datagram_on; [|done].
    destruct (ro_conns _ O _ _ Hk) as (_ & W & _). pose proof (len_nonneg payload). bool_prop. words. lia.
  - apply (rruns_forwarded h v a); [done|done| |by intros v2; cbn; rewrite E]. by apply rruns_send_on.
Qed.

(** ** Handshakes *)

(** A call of a handshake leaves a state its history explains, and changes nothing once the handshake is over. *)
Definition fair {A} (call : ServerHandshake -> ServerHandshake * result A) : Prop := forall s,
  (waiting s = false -> fst (call s) = s) /\ (fst (call s) = s \/ exists e, Handshake.serve e s = Some (fst (call s))).
Lemma fair_hello f now random : fair (handle_hello f now random).
Proof. intros s. split; [|by right; exists (ev_hello f now random)]. intros W. by destruct (settled_calls_throw f now random [] s W) as [-> _]. Qed.
Lemma fair_proof w f : fair (answer_proof w f).
Proof.
  intros s. unfold answer_proof. split.
  - intros W. by destruct (settled_calls_throw f (sw_now w) None (sw_draws w) s W) as (_ & -> & _).
  - destruct (handle_proof f (sw_now w) (sw_draws w) s) as [[s' r]|] eqn:E; [right|by left]. exists (ev_proof f (sw_now w) (sw_draws w)). cbn. by rewrite E.
Qed.
Lemma fair_expire now : fair (fun s => let (s, b) := expire now s in (s, Ok b)).
Proof.
  intros s.
  assert (E : fst (let (s0, b) := expire now s in (s0, Ok b)) = fst (expire now s)) by (by destruct (expire now s)). split.
  - intros W. rewrite E. by apply (settled_calls_throw (mk_frame client_hello 0 []) now None [] s W).
  - right. exists (ev_expire now). cbn. by rewrite E.
Qed.
Lemma authenticated_settled s : server_authenticated s = true -> waiting s = false.
Proof. unfold server_authenticated, waiting. intros H. bool_prop. by rewrite H. Qed.

Lemma rruns_handshake {A} h v (call : ServerHandshake -> ServerHandshake * result A) : fair call -> relay_ok v -> rruns h v (with_server_handshake h call).
Proof.
  intros F O. apply rruns_conn; [done|]. intros k Hk. destruct (F (k_handshake k)) as [F1 F2]. destruct (call (k_handshake k)) as [s r]. cbn in F1, F2.
  apply rruns_bind; [|intros u v1 l _ O1 _; by apply rruns_pure].
  destruct (ro_conns _ O _ _ Hk) as (Sk & W & deadline & es & s0 & N & Rn).
  apply (rruns_set h v k (put_k_handshake s k)); try done; [|intros Au; by apply F1, authenticated_settled].
  split_and!; [done..|]. destruct F2 as [->|[e E]]; [by exists deadline, es, s0|]. exists deadline, (es ++ [e]), s0. split; [done|]. rewrite run_snoc, Rn. exact E.
Qed.
Lemma rruns_answer h v w f : relay_ok v -> rruns h v (answer_auth w h f).
Proof.
  intros O. unfold answer_auth. repeat case_match; [apply rruns_handshake; [apply fair_hello|done]|apply rruns_handshake; [apply fair_proof|done]|by apply rruns_pure].
Qed.

(** ** The channel *)

Lemma rruns_channel {A} h v (m : CM A) e : relay_ok v -> snd (m (v_channel v)) = channel_step e (v_channel v) -> named v h (event_actor e) -> rruns h v (on_channel m).
Proof.
  intros O E N r v' l. unfold on_channel. destruct (m (v_channel v)) as [r1 c]. cbn in E. subst c. intros [= <- <- <-]. split; [|split; [|constructor]].
  - destruct O. split; try done. cbn. by apply cr_step.
  - split; [done..|]. exists [e]. split; [done|]. by apply Forall_singleton.
Qed.
Lemma device_named v h k d : v_connections v !! h = Some k -> server_device_id (k_handshake k) = Ok d -> named v h d.
Proof.
  unfold server_device_id. intros E H. exists k. destruct (server_authenticated (k_handshake k)); [|done]. injection H as <-. done.
Qed.
Lemma rruns_begin h v w : relay_ok v -> rruns h v (begin_session w h).
Proof.
  intros O. apply rruns_conn; [done|]. intros k Hk. apply rruns_then; [done|]. intros d Hd. apply rruns_then; [done|]. intros i _.
  apply rruns_then; [done|]. intros key _. apply rruns_bind; [|intros l v1 l1 _ O1 _; by apply rruns_route_events].
  apply (rruns_channel h v _ (ce_authenticated d i key (sw_env w))); [done..|]. by eapply device_named.
Qed.
Lemma rruns_end h v w : relay_ok v -> rruns h v (end_session w h).
Proof.
  intros O. apply rruns_conn; [done|]. intros k Hk. destruct (negb _); [by apply rruns_ret|]. apply rruns_then; [done|]. intros d Hd.
  apply rruns_then; [done|]. intros i _. apply rruns_try, rruns_bind; [|intros l v1 l1 _ O1 _; by apply rruns_route_events].
  apply (rruns_channel h v _ (ce_disconnected d i)); [done..|]. by eapply device_named.
Qed.
Lemma rruns_route_payload h v w actor p : relay_ok v -> named v h actor -> rruns h v (route_payload w actor p).
Proof.
  intros O N. apply rruns_bind; [by apply (rruns_channel h v _ (ce_packet actor p (sw_env w)))|]. intros l v1 l1 _ O1 _.
  apply rruns_for; [done|]. intros x v2 _ O2 _. by apply rruns_route_packet.
Qed.
Lemma rruns_allow h v w : relay_ok v -> rruns h v (allow_control w h).
Proof.
  intros O. apply rruns_conn; [done|]. intros k Hk. destruct (ForwardingQuota.allow _ _) as [ok rate].
  apply rruns_bind; [|intros u v1 l _ O1 _; by apply rruns_check]. apply rruns_on_conn; [done|]. intros k' _ (S & W & _). by split_and!.
Qed.
Lemma rruns_device_frame h v w actor f : relay_ok v -> named v h actor -> rruns h v (handle_device_frame w h actor f).
Proof.
  intros O N. unfold handle_device_frame. case_match; [apply rruns_guard; [done|]; intros _; by apply rruns_route_payload|].
  apply rruns_bind; [by apply rruns_allow|]. intros u v1 l _ O1 S1. apply rruns_bind.
  - apply (rruns_channel h v1 _ (ce_frame actor f (sw_env w))); [done..|]. by apply (se_stays _ _ _ S1).
  - intros d v2 l2 _ O2 _. apply rruns_bind; [by apply rruns_reply|]. intros [] v3 l3 _ O3 _. by apply rruns_route_events.
Qed.

(** ** The table of active streams *)

Lemma displace_spec device l ok l' stopped : displace device l = (ok, l', stopped) ->
  sublist l' l /\ (ok = true -> forall a, a ∈ l' -> as_device a <> device).
Proof.
  revert ok l' stopped. induction l as [|a l IH]; intros ok l' stopped; cbn.
  - intros [= <- <- <-]. split; [done|]. intros _ a Ha. by apply elem_of_nil in Ha.
  - destruct (displace device l) as [[ok1 l1] st1]. destruct (IH _ _ _ eq_refl) as [Sb D].
    destruct (bool_decide_reflect (as_device a = device)) as [E|N]; cbn [negb].
    + destruct (as_tcp a); intros [= <- <- <-]; [split; [by apply sublist_cons|done]|done].
    + intros [= <- <- <-]. split; [by apply sublist_skip|]. intros -> b [->|Hb]%elem_of_cons; [done|by apply D].
Qed.
Lemma sublist_map {A B} (f : A -> B) l l' : sublist l l' -> sublist (map f l) (map f l').
Proof. induction 1; cbn; by constructor. Qed.
Lemma filter_sublist_bool {A} (f : A -> bool) l : sublist (List.filter f l) l.
Proof. induction l as [|a l IH]; cbn; [done|]. destruct (f a); by constructor. Qed.

Lemma ok_shrink_active v l : relay_ok v -> sublist l (v_active v) -> relay_ok (put_v_active l v).
Proof.
  intros [Oc Oa Od Och Oad] S. split; try done.
  - cbn. intros a Ha. apply Oa. by eapply elem_of_sublist.
  - cbn. apply (sublist_map as_device) in S. by eapply sublist_NoDup.
Qed.
Lemma ok_grow_active v h d tcp : relay_ok v -> named v h d -> kind v h tcp -> (forall a, a ∈ v_active v -> as_device a <> d) ->
  relay_ok (put_v_active (v_active v ++ [mk_active_stream d h tcp]) v).
Proof.
  intros [Oc Oa Od Och Oad] (k & Hk & Au & D) (k' & Hk' & Kt) F. split; try done; cbn.
  - intros a [Ha|Ha]%elem_of_app; [by apply Oa|]. apply list_elem_of_singleton in Ha as ->. cbn. exists k. split_and!; try done. congruence.
  - rewrite map_app. apply NoDup_app. split_and!; [done| |apply NoDup_singleton]. intros x Hx Ex. apply list_elem_of_singleton in Ex as ->.
    apply list_elem_of_In, in_map_iff in Hx as (a & E & Ha). apply (F a); [by apply list_elem_of_In|done].
Qed.
Lemma rruns_register h v d : relay_ok v -> named v h d -> kind v h false -> rruns h v (register_control_stream h d).
Proof.
  intros O N K. apply rruns_get. destruct (displace d (v_active v)) as [[ok l] stopped] eqn:E. apply displace_spec in E as [S D].
  apply rruns_bind.
  - pose proof (ok_shrink_active v l O S) as O'. apply rruns_put; [|by apply serves_same]. destruct ok; [|done].
    exact (ok_grow_active (put_v_active l v) h d false O' N K (D eq_refl)).
  - intros u v1 l1 _ O1 _. apply rruns_bind; [|intros u2 v2 l2 _ O2 _; by apply rruns_ret].
    apply rruns_for; [done|]. intros x v2 _ O2 _. by apply rruns_emit.
Qed.
Lemma rruns_register_tcp h v d : relay_ok v -> named v h d -> kind v h true -> rruns h v (register_tcp h d).
Proof.
  intros O N K. apply rruns_get. destruct (existsb _ _) eqn:E; [by apply rruns_ret|].
  apply rruns_bind; [|intros u v1 l _ O1 _; by apply rruns_ret]. apply rruns_put; [|by apply serves_same].
  apply ok_grow_active; [done..|]. intros a Ha D. apply Bool.not_true_iff_false in E. destruct E. apply existsb_exists. exists a.
  split; [by apply list_elem_of_In|]. by apply bool_decide_eq_true_2.
Qed.
Lemma rruns_erase h v h' tcp : relay_ok v -> rruns h v (erase_active h' tcp).
Proof. intros O. apply rruns_put; [|by apply serves_same]. apply ok_shrink_active; [done|]. apply filter_sublist_bool. Qed.

(** ** Frames *)

Lemma rruns_health h v w f : relay_ok v -> rruns h v (health_response o w f).
Proof.
  intros O. unfold health_response. destruct (so_health_identity o) as [identity|]; [|by apply rruns_pure]. apply rruns_guard; [done|]. intros _. apply rruns_get.
  destruct (ForwardingQuota.allow _ _) as [ok rate]. apply rruns_bind; [apply rruns_put; [by destruct O|by apply serves_same]|].
  intros u v1 l _ O1 _. apply rruns_guard; [done|]. intros _. apply rruns_then; [done|]. intros bs _. by apply rruns_ret.
Qed.
Lemma rruns_rejected h v b : relay_ok v -> rruns h v (on_conn h (put_k_rejected b)).
Proof. intros O. apply rruns_on_conn; [done|]. intros k _ (S & W & _). by split_and!. Qed.

(** What was read of the connection is still true of its name after more calls. *)
Lemma device_still v v1 h k d : serves h v v1 -> v_connections v !! h = Some k -> server_device_id (k_handshake k) = Ok d -> named v1 h d.
Proof. intros S Hk Hd. apply (se_stays _ _ _ S). by eapply device_named. Qed.

Lemma rruns_tcp_frame h v w f : relay_ok v -> kind v h true -> rruns h v (handle_tcp_frame o w h f).
Proof.
  intros O K. unfold handle_tcp_frame. apply rruns_bind; [apply rruns_handshake; [apply fair_expire|done]|].
  intros expired v1 l1 _ O1 S1. apply rruns_guard; [done|]. intros _. apply rruns_conn; [done|]. intros k Hk. destruct (negb _).
  - case_match.
    + apply rruns_bind; [by apply rruns_health|]. intros a v2 l2 _ O2 _. apply rruns_bind; [by apply rruns_reply|].
      intros u v3 l3 _ O3 _. by apply rruns_rejected.
    + apply rruns_bind; [by apply rruns_answer|]. intros a v2 l2 _ O2 S2. apply rruns_conn; [done|]. intros k2 Hk2.
      apply rruns_bind; [case_match; [by apply rruns_rejected|by apply rruns_ret]|]. intros u v3 l3 _ O3 S3.
      apply rruns_bind; [by apply rruns_reply|]. intros u2 v4 l4 _ O4 S4. case_match; [|by apply rruns_ret].
      apply rruns_then; [done|]. intros d Hd. apply rruns_bind.
      * apply rruns_register_tcp; [done| |].
        -- eapply (device_still v2); [by eapply serves_trans|done..].
        -- by apply (se_kind _ _ _ S4), (se_kind _ _ _ S3), (se_kind _ _ _ S2), (se_kind _ _ _ S1).
      * intros ok v5 l5 _ O5 _. apply rruns_guard; [done|]. intros _. by apply rruns_begin.
  - apply rruns_then; [done|]. intros d Hd. apply rruns_device_frame; [done|]. by eapply device_named.
Qed.

Lemma rruns_auth_stream h v w f : relay_ok v -> kind v h false -> rruns h v (handle_auth_stream w h f).
Proof.
  intros O K. unfold handle_auth_stream. apply rruns_bind; [by apply rruns_answer|]. intros a v2 l2 _ O2 S2.
  apply rruns_conn; [done|]. intros k2 Hk2. apply rruns_bind; [case_match; [by apply rruns_check|by apply rruns_ret]|]. intros u v3 l3 _ O3 S3.
  apply rruns_bind; [by apply rruns_reply|]. intros u2 v4 l4 _ O4 S4.
  apply rruns_bind; [case_match; [by apply rruns_emit|by apply rruns_ret]|]. intros u5 v5 l5 _ O5 S5. case_match; [|by apply rruns_ret].
  apply rruns_then; [done|]. intros d Hd. apply rruns_bind.
  - apply rruns_register; [done| |].
    + eapply (device_still v2); [by eapply serves_trans, serves_trans|done..].
    + by apply (se_kind _ _ _ S5), (se_kind _ _ _ S4), (se_kind _ _ _ S3), (se_kind _ _ _ S2).
  - intros ok v6 l6 _ O6 _. apply rruns_guard; [done|]. intros _. by apply rruns_begin.
Qed.
Lemma rruns_quic_frame h v w f : relay_ok v -> kind v h false -> rruns h v (handle_quic_frame w h f).
Proof.
  intros O K. apply rruns_conn; [done|]. intros k Hk. case_match; [|by apply rruns_auth_stream].
  apply rruns_then; [done|]. intros d Hd. apply rruns_device_frame; [done|]. by eapply device_named.
Qed.
Lemma rruns_decode h v bs : relay_ok v -> rruns h v (decode_on h bs).
Proof.
  intros O. apply rruns_conn; [done|]. intros k _. destruct (default _ _) as [r d].
  apply rruns_bind; [|intros u v1 l _ O1 _; by apply rruns_pure]. apply rruns_on_conn; [done|]. intros k' _ (S & W & _). by split_and!.
Qed.
Lemma rruns_stream h v w bs : relay_ok v -> kind v h false -> rruns h v (on_stream_bytes w h bs).
Proof.
  intros O K. apply rruns_or_close, rruns_bind; [apply rruns_handshake; [apply fair_expire|done]|]. intros [] v1 l1 _ O1 S1; [by apply rruns_emit|].
  apply rruns_bind; [by apply rruns_decode|]. intros frames v2 l2 _ O2 S2. apply rruns_for; [done|]. intros f v3 _ O3 S3.
  apply rruns_quic_frame; [done|]. by apply (se_kind _ _ _ S3), (se_kind _ _ _ S2), (se_kind _ _ _ S1).
Qed.
Lemma rruns_stream_started h v : relay_ok v -> rruns h v (on_stream_started h).
Proof.
  intros O. apply rruns_conn; [done|]. intros k _. case_match; [by apply rruns_emit|]. apply rruns_on_conn; [done|]. intros k' _ (S & W & _). by split_and!.
Qed.
Lemma rruns_datagram_length h v enabled n : relay_ok v -> word 2 n -> rruns h v (on_datagram_length h enabled n).
Proof.
  intros O Wn. apply rruns_on_conn; [done|]. intros k' _ (S & W & _). split_and!; try done. cbn. words. destruct enabled; lia.
Qed.
Lemma rruns_datagram h v w p : relay_ok v -> rruns h v (on_datagram w h p).
Proof.
  intros O. apply rruns_conn; [done|]. intros k Hk. case_match; [by apply rruns_ret|]. apply rruns_then; [done|]. intros d Hd.
  apply rruns_try, rruns_route_payload; [done|]. by eapply device_named.
Qed.
Lemma rruns_sent h v i : relay_ok v -> rruns h v (on_sent h i).
Proof. intros O. apply rruns_on_conn; [done|]. intros k' _ (S & W & _). split_and!; try done. cbn. by apply complete_send_ok. Qed.

(** ** Connections come and go *)

Lemma rruns_accept h v w tcp : relay_ok v -> v_connections v !! h = None -> rruns h v (accept_connection o w h tcp).
Proof.
  intros O F. apply rruns_get. assert (W1 : word 8 1) by (words; lia). destruct (reserve _ _ _) as [[t|] b] eqn:Rs.
  - apply rruns_then; [done|]. intros hs Hn. apply rruns_then; [done|]. intros sends Hs. apply rruns_then; [done|]. intros rate _.
    pose proof O as [Oc Oa Od Och (ts & P & Rb)]. apply rruns_put; [split|split]; cbn; try done.
    + intros h' k. destruct (decide (h' = h)) as [->|N]; [|rewrite lookup_insert_ne by done; apply Oc].
      rewrite lookup_insert_eq. intros [= <-]. split_and!; [by apply new_sends_ok|cbn; words; lia|]. by eexists _, [], hs.
    + intros a Ha. destruct (Oa a Ha) as (k & Hk & X). exists k. rewrite lookup_insert_ne by congruence. done.
    + exists (t :: ts). split; [|by eapply br_reserve]. unfold tickets. rewrite fmap_insert, map_to_list_insert by (by rewrite lookup_fmap, F).
      cbn. by constructor.
    + intros h' d (k & Hk & X). exists k. cbn. rewrite lookup_insert_ne by congruence. done.
    + intros h' d (k & Hk & X). exists k. cbn. rewrite lookup_insert_ne by congruence. done.
    + intros h' d N (k & Hk & X). cbn in Hk. rewrite lookup_insert_ne in Hk by done. by exists k.
    + by exists [].
  - destruct O as [Oc Oa Od Och (ts & P & Rb)]. apply rruns_put; [|by apply serves_same]. split; try done. exists ts. split; [done|]. by eapply br_reject.
Qed.

(** What an event on the connection [h] may do. *)
Record step_ok (h : Z) (v v' : Relay) (l : list relay_output) : Prop := mk_step_ok {
  sk_keeps : relay_ok v';
  sk_others : forall h' d, h' <> h -> named v' h' d <-> named v h' d;
  sk_acts : exists es, v_channel v' = channel_steps es (v_channel v) /\ Forall (fun e => named v h (event_actor e) \/ named v' h (event_actor e)) es;
  sk_sends : Forall (fun x => out_ok h v x \/ out_ok h v' x) l }.
Lemma rruns_step {A} h v (m : R A) r v' l : rruns h v m -> m v = (r, v', l) -> step_ok h v v' l.
Proof.
  intros H E. destruct (H _ _ _ E) as (O & [St Ki Ot (es & Ec & F)] & Fo). split; [done| | |].
  - intros h' d N. split; [by apply Ot|apply St].
  - exists es. split; [done|]. apply (Forall_impl _ _ _ F). by right.
  - apply (Forall_impl _ _ _ Fo). by right.
Qed.

Definition keeps_active {A} (m : R A) : Prop := forall v r v' l, m v = (r, v', l) -> v_active v' = v_active v.
Lemma active_bind {A B} (m : R A) (k : A -> R B) : keeps_active m -> (forall a, keeps_active (k a)) -> keeps_active (rbind m k).
Proof.
  intros Hm Hk v r v' l. unfold rbind. destruct (m v) as [[[a|e] v1] l1] eqn:E; [|intros [= <- <- <-]; by eapply Hm].
  destruct (k a v1) as [[r2 v2] l2] eqn:E2. intros [= <- <- <-]. rewrite (Hk _ _ _ _ _ E2). by eapply Hm.
Qed.
Lemma active_for {A} (l : list A) f : (forall x, keeps_active (f x)) -> keeps_active (rfor l f).
Proof. intros H. induction l as [|x l IH]; cbn; [by intros v r v' l [= <- <- <-]|]. apply active_bind; [done|]. by intros _. Qed.
Lemma active_pure {A} (r : result A) : keeps_active (rpure r).
Proof. by intros v r' v' l [= <- <- <-]. Qed.
Lemma keeps_route_events w l : keeps_active (route_control_events w l).
Proof.
  apply active_for. intros x. apply active_bind; [by intros v r v' l' [= <- <- <-]|]. intros v0. apply active_for. intros a. case_match; [apply active_pure|].
  apply active_bind; [|intros ok; by intros v r v' l' [= <- <- <-]]. intros v r v' l'. unfold send_on. destruct (v_connections v !! as_handle a) as [k|]; [|by intros [= <- <- <-]].
  destruct (enqueue _ _ _). by intros [= <- <- <-].
Qed.
Lemma keeps_end_session w h : keeps_active (end_session w h).
Proof.
  apply active_bind; [by intros v r v' l [= <- <- <-]|]. intros k. case_match; [apply active_pure|]. apply active_bind; [apply active_pure|]. intros d.
  apply active_bind; [apply active_pure|]. intros i v r v' l. unfold rtry.
  assert (K : keeps_active (rbind (on_channel (note_disconnected d i)) (route_control_events w))).
  { apply active_bind; [|apply keeps_route_events]. intros v1 r1 v1' l1. unfold on_channel. destruct (note_disconnected d i _). by intros [= <- <- <-]. }
  destruct (rbind _ _ v) as [[r1 v1] l1] eqn:E. intros [= <- <- <-]. by eapply K.
Qed.

Lemma named_unique v h d d' : named v h d -> named v h d' -> d = d'.
Proof. intros (k & Hk & _ & <-) (k' & Hk' & _ & <-). congruence. Qed.
Lemma end_session_named w h v r v1 l : relay_ok v -> end_session w h v = (r, v1, l) -> forall h' d, named v1 h' d -> named v h' d.
Proof.
  intros O E h' d N. destruct (rruns_end h v w O _ _ _ E) as (_ & [St _ Ot _] & _). destruct (decide (h' = h)) as [->|Ne]; [|by apply Ot].
  unfold end_session, rbind, rconn in E. destruct (v_connections v !! h) as [k|] eqn:Hk; [|by injection E as <- <- <-].
  destruct (server_authenticated (k_handshake k)) eqn:A; cbn [negb] in E; [|by injection E as <- <- <-].
  assert (N0 : named v h (s_device_id (k_handshake k))) by (by exists k). by rewrite (named_unique _ _ _ _ N (St _ _ N0)).
Qed.

Definition dropped (h : Z) (v : Relay) : Relay :=
  match v_connections v !! h with
  | Some k => put_v_admissions (release (v_admissions v) (k_admission k)) (put_v_connections (delete h (v_connections v)) v)
  | None => v
  end.
Lemma dropped_ok h v : relay_ok v -> (forall a, a ∈ v_active v -> as_handle a <> h) ->
  relay_ok (dropped h v) /\ v_channel (dropped h v) = v_channel v /\ forall h' d, h' <> h -> named (dropped h v) h' d <-> named v h' d.
Proof.
  intros O Ac. unfold dropped. destruct (v_connections v !! h) as [k|] eqn:E; [|done]. destruct O as [Oc Oa Od Och (ts & P & Rb)]. split_and!; [split|..]; cbn; try done.
  - intros h' c. rewrite lookup_delete_Some. intros [_ X]. by apply Oc.
  - intros a Ha. destruct (Oa a Ha) as (c & Hc & X). exists c. rewrite lookup_delete_ne; [done|]. intros X'. by apply (Ac a Ha).
  - exists (tickets (delete h (v_connections v))). split; [done|]. apply (br_release _ _ ts); [done|]. rewrite P. unfold tickets.
    rewrite fmap_delete, <- (map_to_list_delete _ h (k_admission k)) by (by rewrite lookup_fmap, E). done.
  - intros h' d N. unfold named. cbn. by rewrite lookup_delete_ne.
Qed.
Lemma close_step h v v1 l : relay_ok v1 -> serves h v v1 -> (forall h' d, named v1 h' d -> named v h' d) -> Forall (out_ok h v1) l ->
  (forall a, a ∈ v_active v1 -> as_handle a <> h) -> step_ok h v (dropped h v1) l.
Proof.
  intros O1 [St _ Ot (es & Ec & F)] Nb Fo Ac. destruct (dropped_ok h v1 O1 Ac) as (O2 & Ch & Nm). split; [done| | |].
  - intros h' d N. rewrite Nm by done. split; [by apply Nb|apply St].
  - exists es. split; [by rewrite Ch|]. apply (Forall_impl _ _ _ F). intros e X. left. by apply Nb.
  - apply (Forall_impl _ _ _ Fo). intros x X. left. destruct x; cbn in *; auto.
Qed.

Definition erased (h : Z) (tcp : bool) (v : Relay) : Relay :=
  put_v_active (List.filter (fun a => negb ((as_handle a =? h) && Bool.eqb (as_tcp a) tcp)) (v_active v)) v.
Lemma erased_none h tcp v : relay_ok v -> kind v h tcp -> forall a, a ∈ v_active (erased h tcp v) -> as_handle a <> h.
Proof.
  intros O (k & Hk & Kt) a Ha E. cbn in Ha. apply list_elem_of_In, filter_In in Ha as [Ha B]. apply list_elem_of_In in Ha.
  destruct (ro_active _ O a Ha) as (k' & Hk' & T' & _). rewrite E in Hk'. assert (k' = k) as -> by congruence.
  rewrite E, Z.eqb_refl, <- T', Kt, Bool.eqb_reflx in B. done.
Qed.
Lemma closing h tcp v w r v1 l : relay_ok v -> kind v h tcp -> end_session w h (erased h tcp v) = (r, v1, l) -> step_ok h v (dropped h v1) l.
Proof.
  intros O K E. assert (Oe : relay_ok (erased h tcp v)) by (apply ok_shrink_active; [done|apply filter_sublist_bool]).
  destruct (rruns_end h _ w Oe _ _ _ E) as (O1 & S1 & F1). apply close_step; try done.
  - apply (serves_trans h v (erased h tcp v)); [by apply serves_same|done].
  - intros h' d N. exact (end_session_named w h _ _ _ _ Oe E h' d N).
  - rewrite (keeps_end_session w h _ _ _ _ E). by apply erased_none.
Qed.
Lemma end_session_returns h tcp v w e v1 l : kind v h tcp -> end_session w h (erased h tcp v) <> (Throw e, v1, l).
Proof.
  intros (k & Hk & _). unfold end_session, rbind, rconn. cbn [erased put_v_active v_connections]. rewrite Hk. cbn.
  unfold server_device_id, server_session_id. destruct (server_authenticated (k_handshake k)); cbn [negb]; [|done]. cbn.
  unfold rtry. by destruct (on_channel _ _) as [[[] ?] ?]; try destruct (route_control_events _ _ _) as [[? ?] ?].
Qed.
Lemma quic_closed_step h v w r v' l : relay_ok v -> kind v h false -> on_quic_closed w h v = (r, v', l) -> step_ok h v v' l.
Proof.
  intros O K. unfold on_quic_closed, rbind. cbn -[end_session]. change (put_v_active _ v) with (erased h false v).
  destruct (end_session w h (erased h false v)) as [[r1 v1] l1] eqn:E. pose proof (closing h false v w r1 v1 l1 O K E) as S.
  destruct r1 as [u|e]; intros [= <- <- <-]; [by rewrite app_nil_r|]. exfalso. clear S. revert E. apply end_session_returns. exact K.
Qed.
Lemma tcp_closed_step h v w r v' l : relay_ok v -> kind v h true -> close_tcp w h v = (r, v', l) -> step_ok h v v' l.
Proof.
  intros O K. pose proof K as (k & Hk & Kt). unfold close_tcp. unfold rbind at 1. unfold rconn. rewrite Hk. destruct (server_authenticated (k_handshake k)) eqn:A.
  - unfold rbind. cbn -[end_session]. change (put_v_active _ v) with (erased h true v).
    destruct (end_session w h (erased h true v)) as [[r1 v1] l1] eqn:E. pose proof (closing h true v w r1 v1 l1 O K E) as S.
    destruct r1 as [u|e]; intros [= <- <- <-]; [by rewrite app_nil_r|]. exfalso. clear S. revert E. apply end_session_returns. exact K.
  - intros H. assert (v' = dropped h v /\ l = []) as [-> ->] by (unfold dropped; rewrite Hk; cbn in H; rewrite Hk in H; by injection H as _ <- <-). apply close_step; [done|apply serves_refl|done|done|].
    intros a Ha Eh. destruct (ro_active _ O a Ha) as (k' & Hk' & _ & A' & _). rewrite Eh in Hk'. congruence.
Qed.

(** ** Any order of events *)

(** An event is for a connection of its kind; a new connection has a new handle; a datagram length is a 16-bit number. *)
Definition event_fits (v : Relay) (e : RelayEvent) : Prop :=
  match e with
  | re_accept _ h _ => v_connections v !! h = None
  | re_tcp_frame _ h _ | re_tcp_closed _ h => kind v h true
  | re_stream _ h _ | re_closed _ h => kind v h false
  | re_datagram_length _ _ n => word 2 n
  | re_stream_started _ | re_stream_closed _ | re_datagram _ _ _ | re_sent _ _ | re_running _ => True
  end.
Lemma relay_step_ok e v r v' l : relay_ok v -> event_fits v e -> relay_step o e v = (r, v', l) -> step_ok (event_handle e) v v' l.
Proof.
  intros O F. destruct e as [w h tcp|w h f|w h|h|w h bs|h|h enabled n|w h p|w h|h i|b]; cbn [relay_step event_handle event_fits] in *.
  3: by apply tcp_closed_step. 8: by apply quic_closed_step. all: apply rruns_step.
  - by apply rruns_accept.
  - by apply rruns_tcp_frame.
  - by apply rruns_stream_started.
  - by apply rruns_stream.
  - by apply rruns_erase.
  - by apply rruns_datagram_length.
  - by apply rruns_datagram.
  - by apply rruns_sent.
  - apply rruns_put; [by destruct O|by apply serves_same].
Qed.

Inductive relay_reachable : Relay -> Prop :=
| rr_start s v : service_reachable s -> new_relay o s = Ok v -> relay_reachable v
| rr_step e v r v' l : relay_reachable v -> event_fits v e -> relay_step o e v = (r, v', l) -> relay_reachable v'.
Lemma relay_reachable_ok v : relay_reachable v -> relay_ok v.
Proof.
  induction 1 as [s v Rs H|e v r v' l _ IH F H]; [|by apply (relay_step_ok e v r v' l)]. unfold new_relay in H. ok_inv H. subst v. split; cbn.
  - intros h k Hk. by rewrite lookup_empty in Hk.
  - intros x Hx. by apply elem_of_nil in Hx.
  - constructor.
  - by apply cr_start.
  - exists []. split; [done|]. by apply br_make.
Qed.

(** The proof that authenticated a connection. *)
Definition proved (h : Z) (d : bytes) : Prop :=
  exists deadline s0 s before between after hello t nonce c proof t' draws p,
    new_server (so_token o) h deadline = Ok s0 /\
    run (before ++ ev_hello hello t (Some nonce) :: between ++ ev_proof proof t' draws :: after) s0 = Some s /\ server_device_id s = Ok d /\
    hello_accepted deadline hello t c /\ proof_accepted (so_token o) deadline proof t' nonce c p /\ make_device_id (hello_public_key c) = Ok d.
Lemma named_proved v h d : relay_ok v -> named v h d -> proved h d.
Proof.
  intros O (k & Hk & A & D). destruct (ro_conns _ O _ _ Hk) as (_ & _ & deadline & es & s0 & N & Rn).
  destruct (run_history _ _ _ _ _ _ N Rn) as (H & T1 & T2 & _). pose proof A as A'. unfold server_authenticated in A'. bool_prop. unfold history in H. rewrite A' in H.
  destruct H as (_ & _ & before & between & after & f & now & nonce & c & f' & now' & draws & p & -> & Ha & Pa & _ & _ & Dv).
  exists deadline, s0, (k_handshake k), before, between, after, f, now, nonce, c, f', now', draws, p.
  rewrite <- T1, <- T2. split_and!; try done; [by rewrite T1, T2|unfold server_device_id; by rewrite A, D|by rewrite <- D].
Qed.

Lemma held_frames_all ts : held_frames (fun _ => true) ts = len ts.
Proof. induction ts as [|t ts IH]; [done|]. cbn [held_frames]. rewrite IH, len_cons. lia. Qed.
Lemma connections_bounded v : word 8 (so_max_connections o) -> relay_ok v -> Z.of_nat (size (v_connections v)) <= so_max_connections o.
Proof.
  intros W O. destruct (ro_admissions _ O) as (ts & P & Rb). apply budget_reach_inv in Rb; [|split_and!; cbn; [done..|words; lia|words; lia]].
  destruct Rb as (_ & _ & Ef & _ & _ & _ & _ & _ & _ & U & _). cbn in U. rewrite Ef, held_frames_all in U. unfold len in U.
  rewrite P in U. unfold tickets in U. rewrite length_map in U.
  rewrite <- map_size_fmap with (f := k_admission), <- length_map_to_list. done.
Qed.

(** C19: the relay serves devices only in their own name.  From the start of a relay on, whatever happens on its
    connections in whatever order, an event on one connection changes nothing about who is authenticated on the others, uses
    the control channel only in the name of the device authenticated on that connection, answers on that connection only, and
    hands frames and packets for a device only to connections that authenticated as it, which each did with a proof over
    its own keys and nonces under the relay's token.  A device has at most one active stream, which belongs to such a connection, the
    connections never exceed the limit, and the channel stays one of which the theorems on the channel hold. *)
Theorem relay_serves_authenticated (v v' : Relay) (e : RelayEvent) (r : result unit) (l : list relay_output) :
  word 8 (so_max_connections o) -> relay_reachable v -> event_fits v e -> relay_step o e v = (r, v', l) ->
  (forall h d, h <> event_handle e -> named v' h d <-> named v h d) /\
  (exists es, v_channel v' = channel_steps es (v_channel v) /\
     Forall (fun x => named v (event_handle e) (event_actor x) \/ named v' (event_handle e) (event_actor x)) es) /\
  Forall (fun x => match x with
                   | out_reply h _ => h = event_handle e
                   | out_to h d _ | out_packet h d _ => named v h d \/ named v' h d
                   | out_close _ => True
                   end) l /\
  (forall h d, named v' h d -> proved h d) /\
  (forall a, a ∈ v_active v' -> named v' (as_handle a) (as_device a)) /\ NoDup (map as_device (v_active v')) /\
  Z.of_nat (size (v_connections v')) <= so_max_connections o /\ channel_reachable (v_channel v').
Proof.
  intros W Rv F E. destruct (relay_step_ok e v r v' l (relay_reachable_ok v Rv) F E) as [O Ot Ac Se]. split_and!; try done.
  - apply (Forall_impl _ _ _ Se). intros x. destruct x; cbn; tauto.
  - intros h d. by apply named_proved.
  - intros a. by apply active_named.
  - apply O.
  - by apply connections_bounded.
  - apply O.
Qed.
End Safety.
