(* ===== verification/RelayServerScenario.v ===== *)
(** * A running relay server

    The relay of [ServiceScenario] with the owner on a TLS connection and the guest on a QUIC connection: both
    authenticate, and a packet of the owner reaches the guest's stream. *)
From S2P Require Import Limits ForwardingQuota QuicSend JoinTarget Handshake Directory RelayHealth.
From S2P Require Import Prelude Codec StreamDecoder Capabilities NetworkPolicy NetworkMessages PacketMessages Crypto RelayStore StoreInvariant NetworkService ServiceAccess ServiceSafety ServiceScenario ControlChannel ChannelScenario RelayServer RelayServerSafety.

#[local] Instance flat_hash : PasswordHash := {| scrypt password salt := Some (take 32 (password ++ replicate 32 x00)) |}.
#[local] Existing Instance toy_crypto.
#[local] Existing Instance toy_mac.

Definition rs_options : ServerOptions :=
  mk_server_options hs_token 10000 (mk_queue_limits 1000000 100 1000 10) 8 32 32 None [] [].
Definition rs_world : ServerWorld :=
  mk_server_world 1000 amb (Some hs_sn) hs_draws (fun _ _ => true) (fun _ _ => true) true 1000 10.

Definition key_hello (device : bytes) : Frame := mk_frame client_hello 7 (device ++ hs_key ++ hs_cn).
Definition key_proof (device : bytes) : Frame :=
  let transcript := make_auth_transcript device hs_key hs_cn hs_sn in
  mk_frame client_auth 7 (resize 64 (device ++ transcript) ++ resize 32 (hs_token ++ transcript)).
Definition on_wire (f : Frame) : bytes := match encode_frame f with Ok bs => bs | Throw _ => [] end.
Definition rs_events : list RelayEvent :=
  [re_accept rs_world 3 true; re_accept rs_world 4 false; re_stream_started 4; re_tcp_frame rs_world 3 (key_hello owner_id);
   re_stream rs_world 4 (on_wire (key_hello guest_id)); re_tcp_frame rs_world 3 (key_proof owner_id);
   re_stream rs_world 4 (on_wire (key_proof guest_id))].
Definition after (e : RelayEvent) (v : Relay) : Relay := snd (fst (relay_step rs_options e v)).
Definition rs_start : Relay := match new_relay rs_options svc_joined with Ok v => v | Throw _ => mk_relay_server ch_start ∅ [] (mk_budget (so_queue rs_options) 0 0 0) default_rate_limit false 0 0 0 end.
Definition rs_ready : Relay := fold_left (fun v e => after e v) rs_events rs_start.
(** A packet of the owner in the epoch both sessions are in. *)
Definition owner_packet : Frame :=
  mk_frame network_packet_send 0
    (match encode_encrypted_network_packet (packet_to 1 (key_epoch_for (service_ (v_channel rs_ready)) home_id) 0x0a400002) with
     | Ok bs => bs | Throw _ => [] end).
Definition rs_send : RelayEvent := re_tcp_frame rs_world 3 owner_packet.
Definition rs_outputs : list relay_output := snd (relay_step rs_options rs_send rs_ready).

Fixpoint all_fit (es : list RelayEvent) (v : Relay) : Prop :=
  match es with [] => True | e :: es => event_fits v e /\ all_fit es (after e v) end.
Lemma all_fit_reachable es v : relay_reachable rs_options v -> all_fit es v -> relay_reachable rs_options (fold_left (fun v e => after e v) es v).
Proof.
  revert v. induction es as [|e es IH]; intros v Rv; cbn; [done|]. intros [F Fs]. apply IH; [|done]. unfold after.
  destruct (relay_step rs_options e v) as [[r v'] l] eqn:E. by eapply rr_step.
Qed.
Lemma rs_ready_reachable : relay_reachable rs_options rs_ready.
Proof.
  apply all_fit_reachable.
  - eapply rr_start; [exact svc_joined_reachable|reflexivity].
  - cbn [all_fit rs_events event_fits]. split_and!; try exact I; try (vm_compute; reflexivity); vm_compute; eexists; split; reflexivity.
Qed.

Lemma relay_serves_authenticated_witness :
  (exists f, rs_outputs = [out_to 4 guest_id f]) /\ named (after rs_send rs_ready) 4 guest_id /\ proved rs_options 4 guest_id.
Proof.
  assert (F : event_fits rs_ready rs_send) by (vm_compute; eexists; split; reflexivity).
  assert (N : named rs_ready 4 guest_id) by (vm_compute; eexists; split_and!; reflexivity).
  assert (W : word 8 (so_max_connections rs_options)) by (vm_compute; split; discriminate || reflexivity).
  assert (E : relay_step rs_options rs_send rs_ready = (fst (fst (relay_step rs_options rs_send rs_ready)), after rs_send rs_ready, rs_outputs))
    by (unfold after, rs_outputs; by destruct (relay_step _ _ _) as [[? ?] ?]).
  destruct (relay_serves_authenticated rs_options rs_ready _ rs_send _ _ W rs_ready_reachable F E) as (Ot & _ & _ & Pr & _).
  split; [vm_compute; eexists; reflexivity|]. assert (N' : named (after rs_send rs_ready) 4 guest_id) by (apply Ot; [discriminate|exact N]).
  split; [exact N'|]. apply Pr. exact N'.
Defined.
