(* ===== verification/Config.v ===== *)
(** * Configuration files

    core/config.hpp and .cpp, and the log levels of core/logger.hpp and .cpp: the settings of a client or relay, the
    parser of [key=value] lines and the three validators.  A setting is named by its field, and a configuration gives
    each field its value, so that two configurations are compared field by field ([config_equiv]).  A
    [std::filesystem::path] is its bytes.  The line numbers of the messages are left out. *)
From S2P Require Import Prelude PathDiagnostics Directory.

(** ** Settings *)

Inductive TextField :=
| bootstrap_mode | directory_url | directory_public_key | directory_relay_id | p2p_stun_host | relay_host | listen_host
| tls_certificate_file | tls_private_key_file | device_identity_file | auth_token_file | relay_database_file
| relay_id | relay_authority | relay_health_identity_file | relay_upstream_host | relay_upstream_id
| relay_upstream_health_public_key | log_directory.
Inductive NumberField :=
| virtual_mtu | p2p_stun_port | relay_port | relay_upstream_port | relay_upstream_capacity | quic_handshake_timeout_ms
| authentication_timeout_ms | quic_idle_timeout_ms | quic_keep_alive_interval_ms | reconnect_initial_delay_ms
| reconnect_max_delay_ms | relay_max_connections | relay_max_tls_handshakes | relay_send_queue_bytes
| relay_send_queue_frames | relay_control_requests_per_second | relay_health_requests_per_second
| relay_device_bytes_per_second | relay_network_bytes_per_second | relay_authority_bytes_per_second
| relay_device_deliveries_per_second | relay_network_deliveries_per_second | relay_authority_deliveries_per_second
| log_max_size_bytes | log_max_files.
Inductive FlagField := accept_routed_subnets | gateway_forwarding | p2p_enabled.
Inductive LogLevel := lvl_trace | lvl_debug | lvl_info | lvl_warning | lvl_error | lvl_off.
#[global] Instance TextField_eq_dec : EqDecision TextField.
Proof. solve_decision. Defined.
#[global] Instance NumberField_eq_dec : EqDecision NumberField.
Proof. solve_decision. Defined.
#[global] Instance FlagField_eq_dec : EqDecision FlagField.
Proof. solve_decision. Defined.
#[global] Instance LogLevel_eq_dec : EqDecision LogLevel.
Proof. solve_decision. Defined.

Record RuntimeConfig := mk_config { text : TextField -> bytes; number : NumberField -> Z; flag : FlagField -> bool; log_level : LogLevel }.

Definition default_text (f : TextField) : bytes :=
  match f with
  | bootstrap_mode => str "manual"
  | listen_host => str "0.0.0.0"
  | device_identity_file => str "data/device.identity"
  | auth_token_file => str "data/auth.token"
  | relay_database_file => str "data/relay.db"
  | log_directory => str "logs"
  | _ => []
  end.
Definition default_number (f : NumberField) : Z :=
  match f with
  | virtual_mtu => 1400
  | p2p_stun_port => 3478
  | relay_port | relay_upstream_port => 4433
  | relay_upstream_capacity | relay_max_connections => 128
  | quic_handshake_timeout_ms | authentication_timeout_ms => 10000
  | quic_idle_timeout_ms => 60000
  | quic_keep_alive_interval_ms => 15000
  | reconnect_initial_delay_ms => 1000
  | reconnect_max_delay_ms => 30000
  | relay_max_tls_handshakes => 16
  | relay_send_queue_bytes => 4 * 1024 * 1024
  | relay_send_queue_frames => 256
  | relay_control_requests_per_second => 32
  | relay_health_requests_per_second => 64
  | relay_device_bytes_per_second => 8 * 1024 * 1024
  | relay_network_bytes_per_second => 32 * 1024 * 1024
  | relay_authority_bytes_per_second => 64 * 1024 * 1024
  | relay_device_deliveries_per_second => 8192
  | relay_network_deliveries_per_second => 32768
  | relay_authority_deliveries_per_second => 65536
  | log_max_size_bytes => 5 * 1024 * 1024
  | log_max_files => 5
  end.
Definition default_config : RuntimeConfig :=
  mk_config default_text default_number (fun f => match f with p2p_enabled => true | _ => false end) lvl_info.

(** The bytes of the field's type. *)
Definition width (f : NumberField) : nat :=
  match f with
  | virtual_mtu | p2p_stun_port | relay_port | relay_upstream_port => 2
  | log_max_size_bytes | log_max_files => 8
  | _ => 4
  end.
(** What the parser lets through before the cast to that type. *)
Definition parsed_range (f : NumberField) : Z * Z :=
  match f with
  | relay_health_requests_per_second => (1, 1000)
  | relay_device_bytes_per_second | relay_network_bytes_per_second | relay_authority_bytes_per_second => (1, 1024 * 1024 * 1024)
  | relay_device_deliveries_per_second | relay_network_deliveries_per_second | relay_authority_deliveries_per_second => (1, 1000000)
  | relay_upstream_port | p2p_stun_port => (1, 65535)
  | relay_upstream_capacity => (1, 4096)
  | virtual_mtu => (576, 9000)
  | relay_port => (0, 2 ^ 16 - 1)
  | log_max_size_bytes | log_max_files => (0, 2 ^ 64 - 1)
  | _ => (0, 2 ^ 32 - 1)
  end.

Inductive Key := text_key (f : TextField) | number_key (f : NumberField) | flag_key (f : FlagField) | level_key.
#[global] Instance Key_eq_dec : EqDecision Key.
Proof. solve_decision. Defined.

Definition key_table : list (bytes * Key) :=
  [(str "bootstrap_mode", text_key bootstrap_mode); (str "directory_url", text_key directory_url);
   (str "directory_public_key", text_key directory_public_key); (str "directory_relay_id", text_key directory_relay_id);
   (str "relay_health_requests_per_second", number_key relay_health_requests_per_second);
   (str "relay_device_bytes_per_second", number_key relay_device_bytes_per_second);
   (str "relay_network_bytes_per_second", number_key relay_network_bytes_per_second);
   (str "relay_authority_bytes_per_second", number_key relay_authority_bytes_per_second);
   (str "relay_device_deliveries_per_second", number_key relay_device_deliveries_per_second);
   (str "relay_network_deliveries_per_second", number_key relay_network_deliveries_per_second);
   (str "relay_authority_deliveries_per_second", number_key relay_authority_deliveries_per_second);
   (str "relay_upstream_host", text_key relay_upstream_host); (str "relay_upstream_id", text_key relay_upstream_id);
   (str "relay_upstream_health_public_key", text_key relay_upstream_health_public_key);
   (str "relay_upstream_port", number_key relay_upstream_port); (str "relay_upstream_capacity", number_key relay_upstream_capacity);
   (str "relay_id", text_key relay_id); (str "relay_authority", text_key relay_authority);
   (str "relay_health_identity_file", text_key relay_health_identity_file); (str "virtual_mtu", number_key virtual_mtu);
   (str "accept_routed_subnets", flag_key accept_routed_subnets); (str "gateway_forwarding", flag_key gateway_forwarding);
   (str "p2p_enabled", flag_key p2p_enabled); (str "p2p_stun_host", text_key p2p_stun_host); (str "p2p_stun_port", number_key p2p_stun_port);
   (str "relay_host", text_key relay_host); (str "relay_port", number_key relay_port); (str "listen_host", text_key listen_host);
   (str "tls_certificate_file", text_key tls_certificate_file); (str "tls_private_key_file", text_key tls_private_key_file);
   (str "device_identity_file", text_key device_identity_file); (str "auth_token_file", text_key auth_token_file);
   (str "relay_database_file", text_key relay_database_file); (str "quic_handshake_timeout_ms", number_key quic_handshake_timeout_ms);
   (str "authentication_timeout_ms", number_key authentication_timeout_ms); (str "quic_idle_timeout_ms", number_key quic_idle_timeout_ms);
   (str "quic_keep_alive_interval_ms", number_key quic_keep_alive_interval_ms);
   (str "reconnect_initial_delay_ms", number_key reconnect_initial_delay_ms); (str "reconnect_max_delay_ms", number_key reconnect_max_delay_ms);
   (str "relay_max_connections", number_key relay_max_connections); (str "relay_max_tls_handshakes", number_key relay_max_tls_handshakes);
   (str "relay_send_queue_bytes", number_key relay_send_queue_bytes); (str "relay_send_queue_frames", number_key relay_send_queue_frames);
   (str "relay_control_requests_per_second", number_key relay_control_requests_per_second); (str "log_level", level_key);
   (str "log_directory", text_key log_directory); (str "log_max_size_bytes", number_key log_max_size_bytes);
   (str "log_max_files", number_key log_max_files)].
Definition key_of (name : bytes) : option Key := snd <$> List.find (fun e => bool_decide (fst e = name)) key_table.

(** ** Text *)

Definition is_space (b : byte) : bool := (b2z b =? 32) || ((9 <=? b2z b) && (b2z b <=? 13)).
Fixpoint skip_spaces (s : bytes) : bytes :=
  match s with c :: rest => if is_space c then skip_spaces rest else s | [] => [] end.
Definition trim (s : bytes) : bytes := reverse (skip_spaces (reverse (skip_spaces s))).

(** [find] of a character: what is before it, and after it if it is there. *)
Fixpoint cut (c : byte) (s : bytes) : bytes * option bytes :=
  match s with
  | [] => ([], None)
  | x :: rest => if bool_decide (x = c) then ([], Some rest) else let (a, b) := cut c rest in (x :: a, b)
  end.
(** The lines the loop of [parse_config] visits. *)
Fixpoint lines (s : bytes) : list bytes :=
  match s with
  | [] => []
  | c :: rest =>
      if bool_decide (c = x0a) then [] :: lines rest
      else match lines rest with l :: ls => (c :: l) :: ls | [] => [[c]] end
  end.
Definition drop_return (line : bytes) : bytes :=
  if bool_decide (last line = Some x0d) then take (length line - 1) line else line.

Definition is_digit (b : byte) : bool := (48 <=? b2z b) && (b2z b <=? 57).
Definition decimal (s : bytes) : Z := foldl (fun n d => n * 10 + (b2z d - 48)) 0 s.
(** [std::from_chars] of an unsigned type with that maximum, which must read the whole text. *)
Definition from_chars (maximum : Z) (s : bytes) : option Z :=
  if negb (bool_decide (s = [])) && forallb is_digit s && (decimal s <=? maximum) then Some (decimal s) else None.
Definition parse_unsigned (s : bytes) : result Z :=
  match from_chars (2 ^ 64 - 1) s with Some n => Ok n | None => Throw runtime_error end.

Definition level_table : list (bytes * LogLevel) :=
  [(str "trace", lvl_trace); (str "debug", lvl_debug); (str "info", lvl_info); (str "warn", lvl_warning);
   (str "warning", lvl_warning); (str "error", lvl_error); (str "off", lvl_off)].
Definition parse_log_level (s : bytes) : result LogLevel :=
  match List.find (fun e => bool_decide (map b2z (fst e) = map tolower s)) level_table with
  | Some e => Ok (snd e)
  | None => Throw invalid_argument
  end.

(** ** The parser *)

(** A line: [None] for an empty one or a comment. *)
Definition read_line (line : bytes) : result (option (bytes * bytes)) :=
  let line := trim (drop_return line) in
  match line with
  | [] => Ok None
  | c :: _ =>
      if bool_decide (c = x23) then Ok None
      else
        match cut x3d line with
        | (_, None) => Throw runtime_error
        | (name, Some rest) =>
            let name := trim name in
            let value := trim rest in
            check! negb (bool_decide (name = [])) else runtime_error in
            check! negb (bool_decide (value = [])) else runtime_error in
            Ok (Some (name, value))
        end
  end.

Inductive Setting := set_text (f : TextField) (s : bytes) | set_number (f : NumberField) (n : Z) | set_flag (f : FlagField) (b : bool) | set_level (l : LogLevel).
Definition setting_key (x : Setting) : Key :=
  match x with set_text f _ => text_key f | set_number f _ => number_key f | set_flag f _ => flag_key f | set_level _ => level_key end.

(** The branch of the key. *)
Definition read_setting (name value : bytes) : result Setting :=
  match key_of name with
  | None => Throw runtime_error
  | Some (text_key f) => Ok (set_text f value)
  | Some (number_key f) =>
      let* n := parse_unsigned value in
      check! (fst (parsed_range f) <=? n) && (n <=? snd (parsed_range f)) else runtime_error in
      Ok (set_number f (n mod 2 ^ (8 * Z.of_nat (width f))))
  | Some (flag_key f) =>
      check! bool_decide (value = str "true") || bool_decide (value = str "false") else runtime_error in
      Ok (set_flag f (bool_decide (value = str "true")))
  | Some level_key => match parse_log_level value with Ok l => Ok (set_level l) | Throw _ => Throw runtime_error end
  end.
Definition assign (x : Setting) (c : RuntimeConfig) : RuntimeConfig :=
  match x with
  | set_text f s => mk_config (fun g => if bool_decide (g = f) then s else text c g) (number c) (flag c) (log_level c)
  | set_number f n => mk_config (text c) (fun g => if bool_decide (g = f) then n else number c g) (flag c) (log_level c)
  | set_flag f b => mk_config (text c) (number c) (fun g => if bool_decide (g = f) then b else flag c g) (log_level c)
  | set_level l => mk_config (text c) (number c) (flag c) l
  end.

Definition parse_line (line : bytes) (state : gset bytes * RuntimeConfig) : result (gset bytes * RuntimeConfig) :=
  let* read := read_line line in
  match read with
  | None => Ok state
  | Some (name, value) =>
      check! negb (bool_decide (name ∈ fst state)) else runtime_error in
      let* x := read_setting name value in
      Ok ({[name]} ∪ fst state, assign x (snd state))
  end.

(** ** Validation *)

Definition any_of (set : bytes) (s : bytes) : bool := existsb (fun c => bool_decide (c ∈ set)) s.
(** A host that contains "://" contains a slash. *)
Definition invalid_host (host : bytes) : bool :=
  bool_decide (host = []) || (len host >? 253) || any_of [x2f; x5c] host || existsb is_space host.
Definition is_xdigit (b : byte) : bool := is_digit b || ((97 <=? b2z b) && (b2z b <=? 102)) || ((65 <=? b2z b) && (b2z b <=? 70)).

(** The loop over the four parts of the address. *)
Fixpoint check_parts (remaining : nat) (first : bool) (host : bytes) : result unit :=
  match remaining with
  | O => Ok tt
  | S n =>
      let (segment, rest) := cut x2e host in
      match from_chars (2 ^ 32 - 1) segment with
      | None => Throw runtime_error
      | Some v =>
          check! negb ((v >? 255) || (negb (n =? 0)%nat && bool_decide (rest = None)) || ((n =? 0)%nat && negb (bool_decide (rest = None))) ||
                       (first && ((v =? 0) || (v =? 127) || (v >=? 224)))) else runtime_error in
          check_parts n false (default [] rest)
      end
  end.

Definition within (c : RuntimeConfig) (f : NumberField) (lo hi : Z) : bool := negb ((number c f <? lo) || (number c f >? hi)).
Definition blank (c : RuntimeConfig) (f : TextField) : bool := bool_decide (text c f = []).
Definition url_specials : bytes := [x0d; x0a; x09; x20; x40; x23; x5c].

Definition validate_config (c : RuntimeConfig) : result unit :=
  let mode := text c bootstrap_mode in
  let url := text c directory_url in
  let key := text c directory_public_key in
  check! bool_decide (mode = str "manual") || bool_decide (mode = str "official") || bool_decide (mode = str "self_hosted") else runtime_error in
  check! bool_decide (mode = str "manual") ||
         (bool_decide (take 8 url = str "https://") && negb (len url >? 2048) && negb (any_of url_specials url) &&
          (len key =? 64) && forallb is_xdigit key && negb (bool_decide (key = replicate 64 x30))) else runtime_error in
  check! within c virtual_mtu 576 9000 else runtime_error in
  check! negb (number c p2p_stun_port =? 0) else runtime_error in
  let* _ := if blank c p2p_stun_host then Ok tt else check_parts 4 true (text c p2p_stun_host) in
  check! blank c relay_host || negb (invalid_host (text c relay_host)) else runtime_error in
  check! negb (number c relay_port =? 0) else runtime_error in
  check! negb (invalid_host (text c listen_host)) else runtime_error in
  check! Bool.eqb (blank c tls_certificate_file) (blank c tls_private_key_file) else runtime_error in
  check! within c quic_handshake_timeout_ms 1000 60000 else runtime_error in
  check! within c authentication_timeout_ms 1000 60000 else runtime_error in
  check! within c quic_idle_timeout_ms 5000 600000 else runtime_error in
  check! negb ((number c quic_keep_alive_interval_ms =? 0) || (number c quic_keep_alive_interval_ms >=? number c quic_idle_timeout_ms)) else runtime_error in
  check! within c reconnect_initial_delay_ms 100 60000 else runtime_error in
  check! within c reconnect_max_delay_ms (number c reconnect_initial_delay_ms) 300000 else runtime_error in
  check! negb (blank c log_directory) else runtime_error in
  check! within c relay_max_connections 1 4096 && within c relay_max_tls_handshakes 1 (number c relay_max_connections) &&
         within c relay_send_queue_bytes (256 * 1024) (64 * 1024 * 1024) && within c relay_send_queue_frames 32 4096 &&
         within c relay_control_requests_per_second 1 10000 else runtime_error in
  check! within c log_max_size_bytes (64 * 1024) (1024 * 1024 * 1024) else runtime_error in
  check! within c log_max_files 1 32 else runtime_error in
  Ok tt.

Definition max_config_size : Z := 1024 * 1024.
Definition parse_config (content : bytes) : result RuntimeConfig :=
  check! negb (len content >? max_config_size) else runtime_error in
  let* state := fold_result parse_line (lines content) (∅, default_config) in
  let* _ := validate_config (snd state) in
  Ok (snd state).
(** [None] is a file that cannot be opened or read. *)
Definition load_config (file : option bytes) : result RuntimeConfig :=
  match file with Some content => parse_config content | None => Throw runtime_error end.

Definition upstream_configured (c : RuntimeConfig) : bool :=
  negb (blank c relay_upstream_host) || negb (blank c relay_upstream_id) || negb (blank c relay_upstream_health_public_key).
Definition validate_relay_config (c : RuntimeConfig) : result unit :=
  let key := text c relay_upstream_health_public_key in
  check! within c relay_health_requests_per_second 1 1000 && within c relay_device_bytes_per_second 1 (1024 * 1024 * 1024) &&
         within c relay_network_bytes_per_second 1 (1024 * 1024 * 1024) && within c relay_authority_bytes_per_second 1 (1024 * 1024 * 1024) &&
         within c relay_device_deliveries_per_second 1 1000000 && within c relay_network_deliveries_per_second 1 1000000 &&
         within c relay_authority_deliveries_per_second 1 1000000 else runtime_error in
  check! negb (upstream_configured c) ||
         negb (invalid_host (text c relay_upstream_host) || blank c relay_upstream_id || blank c relay_health_identity_file ||
               (number c relay_upstream_port =? 0) || negb (within c relay_upstream_capacity 1 4096) || negb (len key =? 64) ||
               negb (forallb is_xdigit key) || forallb (fun b => bool_decide (b = x30)) key) else runtime_error in
  let* _ := validate_config c in
  check! (blank c relay_health_identity_file && blank c relay_id && blank c relay_authority) ||
         (negb (blank c relay_health_identity_file) && valid_text 64 (text c relay_id) && valid_text 64 (text c relay_authority)) else runtime_error in
  check! negb (blank c tls_certificate_file || blank c tls_private_key_file) else runtime_error in
  check! negb (blank c relay_upstream_host && blank c auth_token_file) else runtime_error in
  check! negb (blank c relay_upstream_host && blank c relay_database_file) else runtime_error in
  Ok tt.
Definition validate_service_config (c : RuntimeConfig) : result unit :=
  let* _ := validate_config c in
  check! negb (blank c device_identity_file) else runtime_error in
  check! negb ((negb (blank c relay_host) || negb (bool_decide (text c bootstrap_mode = str "manual"))) && blank c auth_token_file) else runtime_error in
  Ok tt.

(** ** Configurations field by field *)

(** The field a key names, as the setting that would give it its value. *)
Definition value_at (c : RuntimeConfig) (k : Key) : Setting :=
  match k with
  | text_key f => set_text f (text c f)
  | number_key f => set_number f (number c f)
  | flag_key f => set_flag f (flag c f)
  | level_key => set_level (log_level c)
  end.
#[global] Instance config_equiv : Equiv RuntimeConfig := fun c c' => forall k, value_at c k = value_at c' k.
#[global] Instance config_equivalence : Equivalence (≡@{RuntimeConfig}).
Proof.
  split.
  - by intros c k.
  - intros c c' E k. by rewrite E.
  - intros a b c E1 E2 k. by rewrite E1, E2.
Qed.
Lemma config_equiv_fields (c c' : RuntimeConfig) : c ≡ c' -> (forall f, text c f = text c' f) /\ (forall f, number c f = number c' f).
Proof.
  intros E. split; intros f; [specialize (E (text_key f))|specialize (E (number_key f))]; by injection E.
Qed.
Ltac by_fields := intros c c' E; apply config_equiv_fields in E as [Et En];
  unfold validate_relay_config, validate_service_config, validate_config, upstream_configured, within, blank; by rewrite ?Et, ?En.
#[global] Instance validate_config_proper : Proper ((≡) ==> (=)) validate_config.
Proof. by_fields. Qed.
#[global] Instance validate_service_config_proper : Proper ((≡) ==> (=)) validate_service_config.
Proof. by_fields. Qed.
#[global] Instance validate_relay_config_proper : Proper ((≡) ==> (=)) validate_relay_config.
Proof. by_fields. Qed.

Lemma value_at_key c k : setting_key (value_at c k) = k.
Proof. by destruct k. Qed.
Lemma value_at_assign x c k : value_at (assign x c) k = if bool_decide (k = setting_key x) then x else value_at c k.
Proof.
  destruct x, k; cbn; try (rewrite bool_decide_false by congruence; done); try (by rewrite bool_decide_true by done);
    repeat case_bool_decide; congruence.
Qed.
Definition assign_all (l : list Setting) (c : RuntimeConfig) : RuntimeConfig := foldl (fun c x => assign x c) c l.
Lemma value_at_all l c k : NoDup (map setting_key l) ->
  (forall x, x ∈ l -> setting_key x = k -> value_at (assign_all l c) k = x) /\
  ((forall x, x ∈ l -> setting_key x <> k) -> value_at (assign_all l c) k = value_at c k).
Proof.
  revert c. induction l as [|y l IH]; intros c ND.
  - split; [|done]. intros x Hx. by apply not_elem_of_nil in Hx.
  - apply NoDup_cons in ND as [Ny ND]. destruct (IH (assign y c) ND) as [I1 I2].
    change (assign_all (y :: l) c) with (assign_all l (assign y c)). split.
    + intros x Hx E. apply elem_of_cons in Hx as [->|Hx]; [|by apply I1]. rewrite I2, value_at_assign, bool_decide_true; [done|done|].
      intros x Hx Ex. apply Ny. apply list_elem_of_In, in_map_iff. exists x. split; [congruence|by apply list_elem_of_In].
    + intros F. rewrite I2, value_at_assign, bool_decide_false; [done| |by intros x Hx; apply F; right].
      intros E. apply (F y); [by left|done].
Qed.

(** ** Keys *)

Lemma key_table_distinct : NoDup (map snd key_table).
Proof. apply (bool_decide_unpack _). vm_compute. exact I. Qed.
Lemma key_of_table n k : key_of n = Some k -> (n, k) ∈ key_table.
Proof.
  unfold key_of. destruct (List.find _ key_table) as [[m j]|] eqn:F; [|done]. apply find_some in F as [F E]. bool_prop. cbn in *. intros [= <-].
  subst m. by apply list_elem_of_In.
Qed.
Lemma nodup_snd {A B} (l : list (A * B)) a b k : NoDup (map snd l) -> (a, k) ∈ l -> (b, k) ∈ l -> a = b.
Proof.
  induction l as [|[x y] l IH]; intros ND Ha Hb; [by apply not_elem_of_nil in Ha|]. cbn in ND. apply NoDup_cons in ND as [N ND].
  assert (X : forall z, (z, y) ∈ l -> y ∈ map snd l) by (intros z Hz; apply list_elem_of_In, in_map_iff; exists (z, y); by rewrite <- list_elem_of_In).
  apply elem_of_cons in Ha as [Ea|Ha]; apply elem_of_cons in Hb as [Eb|Hb]; simplify_eq; [done|by destruct N; eapply X|by destruct N; eapply X|by apply IH].
Qed.
Lemma key_of_inj a b k : key_of a = Some k -> key_of b = Some k -> a = b.
Proof. intros Ha Hb. apply (nodup_snd key_table a b k); [exact key_table_distinct|by apply key_of_table..]. Qed.

Lemma read_setting_key n v x : read_setting n v = Ok x -> key_of n = Some (setting_key x).
Proof.
  unfold read_setting. destruct (key_of n) as [[f|f|f|]|]; [intros [= <-]; done| | | |done].
  - intros H. ok_inv H. by subst x.
  - intros H. ok_inv H. by subst x.
  - destruct (parse_log_level v); [|done]. by intros [= <-].
Qed.

(** ** What the loop reads *)

Fixpoint settings (ls : list bytes) : result (list (bytes * Setting)) :=
  match ls with
  | [] => Ok []
  | line :: ls =>
      let* read := read_line line in
      match read with
      | None => settings ls
      | Some (name, value) =>
          let* x := read_setting name value in
          let* rest := settings ls in
          Ok ((name, x) :: rest)
      end
  end.
Lemma settings_keys ls l : settings ls = Ok l -> Forall (fun e => key_of (fst e) = Some (setting_key (snd e))) l.
Proof.
  revert l. induction ls as [|line ls IH]; intros l; cbn; [by intros [= <-]|]. destruct (read_line line) as [[[n v]|]|]; [|apply IH|done].
  intros H. ok_inv H. subst l. constructor; [by eapply read_setting_key|by apply IH].
Qed.
Lemma distinct_keys (l : list (bytes * Setting)) :
  Forall (fun e => key_of (fst e) = Some (setting_key (snd e))) l -> NoDup (map fst l) -> NoDup (map setting_key (map snd l)).
Proof.
  induction 1 as [|[n x] l K F IH]; cbn; [constructor|]. intros [N ND]%NoDup_cons. constructor; [|by apply IH]. intros Hx. apply N.
  rewrite map_map in Hx. apply list_elem_of_In, in_map_iff in Hx as ([m y] & E & Hy). cbn in *. apply list_elem_of_In in Hy as Hy'.
  rewrite Forall_forall in F. pose proof (F _ Hy') as Ky. cbn in Ky. rewrite E in Ky. rewrite (key_of_inj _ _ _ K Ky).
  apply list_elem_of_In, in_map_iff. by exists (m, y).
Qed.

Lemma parse_lines ls keys c c' :
  (exists keys', fold_result parse_line ls (keys, c) = Ok (keys', c')) <->
  exists l, settings ls = Ok l /\ NoDup (map fst l) /\ (forall n, n ∈ map fst l -> n ∉ keys) /\ c' = assign_all (map snd l) c.
Proof.
  revert keys c. induction ls as [|line ls IH]; intros keys c; cbn.
  - split.
    + intros (k & [= <- <-]). exists []. split_and!; [done|constructor| |done]. intros n Hn. by apply not_elem_of_nil in Hn.
    + intros (l & [= <-] & _ & _ & ->). by exists keys.
  - unfold parse_line at 1. destruct (read_line line) as [[[n v]|]|]; [| |split; [by intros [? ?]|by intros (? & ? & _)]].
    2:{ apply IH. }
    cbn [fst snd]. destruct (read_setting n v) as [x|]; cycle 1.
    { split; [intros (k & H); by destruct (negb _)|by intros (? & ? & _)]. }
    destruct (bool_decide_reflect (n ∈ keys)) as [Hn|Hn]; cbn [negb].
    + split; [by intros [? ?]|]. intros (l & H & _ & F & _). destruct (settings ls) as [r|]; [|done]. injection H as <-. cbn in F.
      exfalso. by apply (F n); [left|].
    + rewrite (IH ({[n]} ∪ keys) (assign x c)). split.
      * intros (l & -> & ND & F & ->). exists ((n, x) :: l). split_and!; [done| | |done]; cbn.
        -- constructor; [|done]. intros Hl. apply (F n Hl). set_solver.
        -- intros m [->|Hm]%elem_of_cons; [done|]. pose proof (F m Hm). set_solver.
      * intros (l & H & ND & F & ->). destruct (settings ls) as [r|]; [|done]. injection H as <-. cbn in ND, F. apply NoDup_cons in ND as [N ND].
        exists r. split_and!; try done. intros m Hm [->%elem_of_singleton|Hk]%elem_of_union; [done|]. apply (F m); [by right|done].
Qed.
Lemma parse_config_spec content c :
  parse_config content = Ok c <->
  len content <= max_config_size /\ validate_config c = Ok tt /\
  exists l, settings (lines content) = Ok l /\ NoDup (map fst l) /\ c = assign_all (map snd l) default_config.
Proof.
  unfold parse_config. rewrite Z.gtb_ltb. destruct (max_config_size <? len content) eqn:G; cbn [negb]; bool_prop.
  { split; [done|]. intros [H _]. lia. }
  pose proof (parse_lines (lines content) ∅ default_config c) as P. split.
  - intros H. destruct (fold_result _ _ _) as [[k d]|] eqn:E; [|done]. cbn in H. destruct (validate_config d) as [[]|] eqn:Vd; [|done]. injection H as ->.
    split; [lia|]. split; [done|]. destruct P as [P _]. destruct P as (l & H1 & H2 & _ & H3); [by exists k|]. by exists l.
  - intros (_ & Vc & l & H1 & H2 & H3). destruct P as [_ P]. destruct P as (k & ->); [exists l; split_and!; [done|done|set_solver|done]|]. cbn. by rewrite Vc.
Qed.

(** ** The order of lines *)

Lemma settings_perm ls ls' : Permutation ls ls' ->
  match settings ls, settings ls' with Ok l, Ok l' => Permutation l l' | Throw _, Throw _ => True | _, _ => False end.
Proof.
  induction 1 as [|line ls ls' _ IH|a b ls|ls1 ls2 ls3 _ IH1 _ IH2]; cbn.
  - done.
  - destruct (read_line line) as [[[n v]|]|]; [|done|done]. destruct (read_setting n v); [|done]. destruct (settings ls), (settings ls'); try done.
    by constructor.
  - destruct (read_line a) as [[[n v]|]|]; destruct (read_line b) as [[[m w]|]|]; try done;
      repeat (destruct (read_setting _ _); try done); destruct (settings ls); try done. constructor.
  - destruct (settings ls1), (settings ls2), (settings ls3); try done. by etransitivity.
Qed.
Lemma assign_all_perm l l' c : Permutation l l' -> NoDup (map setting_key l) -> assign_all l c ≡ assign_all l' c.
Proof.
  intros P ND k. assert (ND' : NoDup (map setting_key l')) by (by rewrite <- P). destruct (value_at_all l c k ND) as [A1 A2]. destruct (value_at_all l' c k ND') as [B1 B2].
  destruct (decide (k ∈ map setting_key l)) as [Hk|Hk].
  - apply list_elem_of_In, in_map_iff in Hk as (x & Ex & Hx). apply list_elem_of_In in Hx. rewrite (A1 x), (B1 x); [done|by rewrite <- P|done|done|done].
  - assert (N : forall x, x ∈ l -> setting_key x <> k) by (intros x Hx E; apply Hk; apply list_elem_of_In, in_map_iff; exists x; by rewrite <- list_elem_of_In).
    rewrite A2, B2; [done|intros x Hx; apply N; by rewrite P|done].
Qed.

(** ** What a configuration text says

    The format on its own terms: the name of every setting, the texts of a number, a flag and a log level, and the shape of
    a line.  None of it is computed by the parser's functions. *)

Definition text_name (f : TextField) : bytes :=
  match f with
  | bootstrap_mode => str "bootstrap_mode" | directory_url => str "directory_url" | directory_public_key => str "directory_public_key"
  | directory_relay_id => str "directory_relay_id" | p2p_stun_host => str "p2p_stun_host" | relay_host => str "relay_host"
  | listen_host => str "listen_host" | tls_certificate_file => str "tls_certificate_file" | tls_private_key_file => str "tls_private_key_file"
  | device_identity_file => str "device_identity_file" | auth_token_file => str "auth_token_file" | relay_database_file => str "relay_database_file"
  | relay_id => str "relay_id" | relay_authority => str "relay_authority" | relay_health_identity_file => str "relay_health_identity_file"
  | relay_upstream_host => str "relay_upstream_host" | relay_upstream_id => str "relay_upstream_id"
  | relay_upstream_health_public_key => str "relay_upstream_health_public_key" | log_directory => str "log_directory"
  end.
Definition number_name (f : NumberField) : bytes :=
  match f with
  | virtual_mtu => str "virtual_mtu" | p2p_stun_port => str "p2p_stun_port" | relay_port => str "relay_port"
  | relay_upstream_port => str "relay_upstream_port" | relay_upstream_capacity => str "relay_upstream_capacity"
  | quic_handshake_timeout_ms => str "quic_handshake_timeout_ms" | authentication_timeout_ms => str "authentication_timeout_ms"
  | quic_idle_timeout_ms => str "quic_idle_timeout_ms" | quic_keep_alive_interval_ms => str "quic_keep_alive_interval_ms"
  | reconnect_initial_delay_ms => str "reconnect_initial_delay_ms" | reconnect_max_delay_ms => str "reconnect_max_delay_ms"
  | relay_max_connections => str "relay_max_connections" | relay_max_tls_handshakes => str "relay_max_tls_handshakes"
  | relay_send_queue_bytes => str "relay_send_queue_bytes" | relay_send_queue_frames => str "relay_send_queue_frames"
  | relay_control_requests_per_second => str "relay_control_requests_per_second"
  | relay_health_requests_per_second => str "relay_health_requests_per_second"
  | relay_device_bytes_per_second => str "relay_device_bytes_per_second" | relay_network_bytes_per_second => str "relay_network_bytes_per_second"
  | relay_authority_bytes_per_second => str "relay_authority_bytes_per_second"
  | relay_device_deliveries_per_second => str "relay_device_deliveries_per_second"
  | relay_network_deliveries_per_second => str "relay_network_deliveries_per_second"
  | relay_authority_deliveries_per_second => str "relay_authority_deliveries_per_second"
  | log_max_size_bytes => str "log_max_size_bytes" | log_max_files => str "log_max_files"
  end.
Definition flag_name (f : FlagField) : bytes :=
  match f with
  | accept_routed_subnets => str "accept_routed_subnets" | gateway_forwarding => str "gateway_forwarding" | p2p_enabled => str "p2p_enabled"
  end.
(** The numbers a line may give. *)
Definition number_allowed (f : NumberField) (n : Z) : Prop :=
  match f with
  | virtual_mtu => 576 <= n <= 9000
  | p2p_stun_port | relay_upstream_port => 1 <= n <= 65535
  | relay_port => n <= 65535
  | relay_upstream_capacity => 1 <= n <= 4096
  | relay_health_requests_per_second => 1 <= n <= 1000
  | relay_device_bytes_per_second | relay_network_bytes_per_second | relay_authority_bytes_per_second => 1 <= n <= 2 ^ 30
  | relay_device_deliveries_per_second | relay_network_deliveries_per_second | relay_authority_deliveries_per_second => 1 <= n <= 1000000
  | log_max_size_bytes | log_max_files => n < 2 ^ 64
  | _ => n < 2 ^ 32
  end.
Definition level_names : list (bytes * LogLevel) :=
  [(str "trace", lvl_trace); (str "debug", lvl_debug); (str "info", lvl_info); (str "warn", lvl_warning); (str "warning", lvl_warning);
   (str "error", lvl_error); (str "off", lvl_off)].

(** Decimal digits and the number they denote, most significant first. *)
Inductive decimal_text : bytes -> Z -> Prop :=
| dt_one d : 0 <= d <= 9 -> decimal_text [z2b (48 + d)] d
| dt_more s n d : decimal_text s n -> 0 <= d <= 9 -> decimal_text (s ++ [z2b (48 + d)]) (10 * n + d).

Inductive says : bytes -> bytes -> Setting -> Prop :=
| says_text f v : says (text_name f) v (set_text f v)
| says_number f v n : decimal_text v n -> number_allowed f n -> says (number_name f) v (set_number f n)
| says_true f : says (flag_name f) (str "true") (set_flag f true)
| says_false f : says (flag_name f) (str "false") (set_flag f false)
| says_level l name v : (name, l) ∈ level_names -> map tolower v = map b2z name -> says (str "log_level") v (set_level l).

(** Space, tab, line feed, vertical tab, form feed and carriage return. *)
Definition blanks : bytes := [x20; x09; x0a; x0b; x0c; x0d].
Definition spaces (s : bytes) : Prop := Forall (fun c => c ∈ blanks) s.
Definition word_text (s : bytes) : Prop :=
  s <> [] /\ (forall c, head s = Some c -> c ∉ blanks) /\ (forall c, last s = Some c -> c ∉ blanks).
Inductive line_says : bytes -> option (bytes * Setting) -> Prop :=
| line_blank a : spaces a -> line_says a None
| line_comment a r : spaces a -> line_says (a ++ x23 :: r) None
| line_setting a n b c v d x : spaces a -> spaces b -> spaces c -> spaces d ->
    word_text n -> x3d ∉ n -> head n <> Some x23 -> word_text v -> says n v x ->
    line_says (a ++ n ++ b ++ x3d :: c ++ v ++ d) (Some (n, x)).
(** A text and its lines; a last line that is empty is none. *)
Inductive text_lines : bytes -> list bytes -> Prop :=
| tl_nil : text_lines [] []
| tl_last l : l <> [] -> x0a ∉ l -> text_lines l [l]
| tl_line l s ls : x0a ∉ l -> text_lines s ls -> text_lines (l ++ x0a :: s) (l :: ls).
(** The settings a text gives, in order. *)
Definition gives (content : bytes) (l : list (bytes * Setting)) : Prop :=
  exists ls os, text_lines content ls /\ Forall2 line_says ls os /\ l = omap id os.
(** The configuration has the value of each setting given and the default elsewhere. *)
Definition configured_by (l : list (bytes * Setting)) (c : RuntimeConfig) : Prop :=
  (forall n x, (n, x) ∈ l -> value_at c (setting_key x) = x) /\
  (forall k, (forall n x, (n, x) ∈ l -> setting_key x <> k) -> value_at c k = value_at default_config k).

Lemma is_space_blank c : is_space c = bool_decide (c ∈ blanks).
Proof. destruct c; reflexivity. Qed.
Lemma space_true c : is_space c = true <-> c ∈ blanks.
Proof. rewrite is_space_blank. apply bool_decide_eq_true. Qed.
Lemma space_false c : is_space c = false <-> c ∉ blanks.
Proof. rewrite is_space_blank. apply bool_decide_eq_false. Qed.

(** ** Writing a configuration *)

(** A text that trimming leaves alone and that fits on a line. *)
Definition plain (s : bytes) : Prop := word_text s /\ (x0a ∉ s).
Definition plain_name (s : bytes) : Prop := plain s /\ (x3d ∉ s) /\ head s <> Some x23.
Definition render (l : list (bytes * bytes)) : bytes := concat (map (fun e => fst e ++ x3d :: snd e ++ [x0a]) l).

Lemma cut_found c a b : c ∉ a -> cut c (a ++ c :: b) = (a, Some b).
Proof.
  induction a as [|x a IH]; intros N; cbn; [by rewrite bool_decide_true|]. apply not_elem_of_cons in N as [Nx N].
  rewrite bool_decide_false by done. by rewrite IH.
Qed.
Lemma cut_absent c a : c ∉ a -> cut c a = (a, None).
Proof. induction a as [|x a IH]; intros N; cbn; [done|]. apply not_elem_of_cons in N as [Nx N]. rewrite bool_decide_false by done. by rewrite IH. Qed.
Lemma cut_inv c s a r : cut c s = (a, r) -> (c ∉ a) /\ s = match r with Some b => a ++ c :: b | None => a end.
Proof.
  revert a. induction s as [|x s IH]; intros a; cbn; [intros [= <- <-]; split; [apply not_elem_of_nil|done]|].
  destruct (bool_decide_reflect (x = c)) as [->|N]; [intros [= <- <-]; split; [apply not_elem_of_nil|done]|].
  destruct (cut c s) as [a' r'] eqn:E. intros [= <- <-]. destruct (IH _ eq_refl) as [Na ->]. split; [apply not_elem_of_cons; by split|]. by destruct r'.
Qed.
Lemma lines_cons a s : x0a ∉ a -> lines (a ++ x0a :: s) = a :: lines s.
Proof.
  induction a as [|x a IH]; intros N; cbn; [done|]. apply not_elem_of_cons in N as [Nx N]. rewrite bool_decide_false by congruence. by rewrite IH.
Qed.
Lemma skip_none s : (forall c, head s = Some c -> is_space c = false) -> skip_spaces s = s.
Proof. destruct s as [|c s]; [done|]. intros H. cbn. by rewrite H. Qed.
Lemma trim_nothing s : (forall c, head s = Some c -> is_space c = false) -> (forall c, last s = Some c -> is_space c = false) -> trim s = s.
Proof.
  intros H L. unfold trim. rewrite (skip_none s) by done. rewrite skip_none; [by rewrite reverse_involutive|]. intros c. rewrite head_reverse. apply L.
Qed.
Lemma read_rendered n v : plain_name n -> plain v -> read_line (n ++ x3d :: v) = Ok (Some (n, v)).
Proof.
  intros (((Nn & Hn & Ln) & _) & En & Cn) ((Nv & Hv & Lv) & _). setoid_rewrite <- space_false in Hn. setoid_rewrite <- space_false in Ln.
  setoid_rewrite <- space_false in Hv. setoid_rewrite <- space_false in Lv. unfold read_line.
  assert (La : last (n ++ x3d :: v) = last v) by (rewrite last_app; destruct v as [|y v]; [done|]; rewrite last_cons_cons; destruct (last (y :: v)) eqn:E; [done|]; by apply last_None in E).
  assert (D : drop_return (n ++ x3d :: v) = n ++ x3d :: v).
  { unfold drop_return. rewrite La. rewrite bool_decide_false; [done|]. intros E. by specialize (Lv _ E). }
  rewrite D, trim_nothing; [|destruct n; [done|exact Hn]|by rewrite La]. destruct n as [|c n]; [done|]. cbn [app].
  rewrite bool_decide_false by (intros ->; by apply Cn). change (c :: n ++ x3d :: v) with ((c :: n) ++ x3d :: v). rewrite (cut_found x3d (c :: n) v En), !trim_nothing by done. by rewrite !bool_decide_false.
Qed.
Lemma settings_rendered l : Forall (fun e => plain_name (fst e) /\ plain (snd e)) l ->
  settings (lines (render l)) = fold_right (fun e r => let* x := read_setting (fst e) (snd e) in let* rest := r in Ok ((fst e, x) :: rest)) (Ok []) l.
Proof.
  induction 1 as [|[n v] l [Hn Hv] _ IH]; cbn [fold_right fst snd]; [done|]. cbn in Hn, Hv. unfold render. cbn [map concat fst snd].
  assert (N : x0a ∉ n ++ x3d :: v).
  { destruct Hn as ((_ & X) & _). destruct Hv as (_ & Y). rewrite not_elem_of_app, not_elem_of_cons. by split_and!. }
  replace ((n ++ x3d :: v ++ [x0a]) ++ _) with ((n ++ x3d :: v) ++ x0a :: render l) by (unfold render; rewrite <- !app_assoc; cbn [app]; by rewrite <- app_assoc).
  rewrite lines_cons by done. cbn [settings]. by rewrite read_rendered, IH.
Qed.

(** *** The parser reads what the text says *)

Lemma is_digit_text c : is_digit c = true <-> exists d, 0 <= d <= 9 /\ c = z2b (48 + d).
Proof.
  unfold is_digit. rewrite andb_true_iff, !Z.leb_le. split.
  - intros H. exists (b2z c - 48). split; [lia|]. replace (48 + (b2z c - 48)) with (b2z c) by lia. by rewrite z2b_b2z.
  - intros (d & H & ->). rewrite b2z_z2b, Z.mod_small by lia. lia.
Qed.
Lemma decimal_snoc s c : decimal (s ++ [c]) = 10 * decimal s + (b2z c - 48).
Proof. unfold decimal. rewrite foldl_app. cbn. lia. Qed.
Lemma decimal_spec s v : s <> [] /\ forallb is_digit s = true /\ decimal s = v <-> decimal_text s v.
Proof.
  split.
  - revert v. induction s as [|c s IH] using rev_ind; intros v (N & F & E); [done|]. rewrite forallb_app, andb_true_iff in F. destruct F as [F D].
    cbn in D. rewrite andb_true_r in D. apply is_digit_text in D as (d & Rd & ->). rewrite decimal_snoc, b2z_z2b, Z.mod_small in E by lia.
    destruct s as [|y s]; [cbn in E; assert (v = d) as -> by lia; by constructor|]. subst v.
    replace (48 + d - 48) with d by lia. constructor; [|done]. by apply IH.
  - induction 1 as [d R|s n d _ (N & F & E) R].
    + split; [done|]. split; [cbn; rewrite andb_true_r; apply is_digit_text; by exists d|]. unfold decimal. cbn [foldl]. rewrite b2z_z2b, Z.mod_small by lia. lia.
    + split; [by destruct s|]. split; [rewrite forallb_app, F; cbn; rewrite andb_true_r; apply is_digit_text; by exists d|].
      rewrite decimal_snoc, b2z_z2b, Z.mod_small by lia. lia.
Qed.
Lemma from_chars_spec maximum s v : from_chars maximum s = Some v <-> decimal_text s v /\ v <= maximum.
Proof.
  rewrite <- decimal_spec. unfold from_chars. split.
  - destruct (_ && _ && _) eqn:G; [|done]. intros [= <-]. rewrite !andb_true_iff, negb_true_iff, bool_decide_eq_false, Z.leb_le in G. tauto.
  - intros ((N & F & <-) & L). rewrite bool_decide_eq_false_2, F by done. apply Z.leb_le in L. by rewrite L.
Qed.
Lemma decimal_nonneg s v : decimal_text s v -> 0 <= v.
Proof. induction 1; lia. Qed.

Definition name_of (k : Key) : bytes :=
  match k with text_key f => text_name f | number_key f => number_name f | flag_key f => flag_name f | level_key => str "log_level" end.
Lemma key_of_spec n k : key_of n = Some k <-> n = name_of k.
Proof.
  split.
  - intros H. apply key_of_table in H. assert (T : Forall (fun e => fst e = name_of (snd e)) key_table) by (repeat (constructor; [reflexivity|]); constructor).
    rewrite Forall_forall in T. apply (T _ H).
  - intros ->. destruct k as [f|f|f|]; [destruct f..|]; vm_compute; reflexivity.
Qed.
Lemma key_of_name k : key_of (name_of k) = Some k.
Proof. by apply key_of_spec. Qed.
Lemma parse_log_level_spec v l : parse_log_level v = Ok l <-> exists name, (name, l) ∈ level_names /\ map tolower v = map b2z name.
Proof.
  unfold parse_log_level. split.
  - destruct (List.find _ level_table) as [[n x]|] eqn:F; [|done]. apply find_some in F as [F E]. bool_prop. cbn in *. intros [= <-].
    exists n. split; [by apply list_elem_of_In|done].
  - intros (name & H & E). rewrite E. clear E v. unfold level_names in H.
    repeat (apply elem_of_cons in H as [H|H]; [injection H as -> ->; vm_compute; reflexivity|]). by apply not_elem_of_nil in H.
Qed.
Lemma number_allowed_spec f n : 0 <= n <= 2 ^ 64 - 1 ->
  (fst (parsed_range f) <=? n) && (n <=? snd (parsed_range f)) = true <-> number_allowed f n.
Proof. intros R. rewrite andb_true_iff, !Z.leb_le. destruct f; cbn; lia. Qed.
Lemma allowed_word f n : 0 <= n -> number_allowed f n -> word (width f) n.
Proof. destruct f; cbn; unfold word; cbn; lia. Qed.

Lemma read_setting_spec n v x : read_setting n v = Ok x <-> says n v x.
Proof.
  split.
  - unfold read_setting, parse_unsigned. destruct (key_of n) as [k|] eqn:K; [|done]. apply key_of_spec in K as ->. destruct k as [f|f|f|]; cbn [name_of].
    + intros [= <-]. constructor.
    + destruct (from_chars _ v) as [m|] eqn:F; [|done]. apply from_chars_spec in F as [D L]. pose proof (decimal_nonneg _ _ D) as N.
      destruct (_ && _) eqn:G; [|done]. apply number_allowed_spec in G; [|lia]. intros [= <-].
      rewrite (word_mod _ _ (allowed_word _ _ N G)). by constructor.
    + destruct (bool_decide_reflect (v = str "true")) as [->|]; cbn [orb]; [intros [= <-]; constructor|].
      destruct (bool_decide_reflect (v = str "false")) as [->|]; [intros [= <-]; constructor|done].
    + destruct (parse_log_level v) as [l|] eqn:P; [|done]. intros [= <-]. apply parse_log_level_spec in P as (name & H & E). by econstructor.
  - unfold read_setting, parse_unsigned. destruct 1 as [f v|f v m D A|f|f|l name v H E].
    + change (text_name f) with (name_of (text_key f)). by rewrite key_of_name.
    + change (number_name f) with (name_of (number_key f)); rewrite key_of_name. pose proof (decimal_nonneg _ _ D) as N.
      assert (L : m <= 2 ^ 64 - 1) by (pose proof (allowed_word f m N A) as W; destruct f; unfold word in W; cbn in W; lia).
      rewrite (proj2 (from_chars_spec _ _ _) (conj D L)). rewrite (proj2 (number_allowed_spec f m (conj N L)) A).
      by rewrite (word_mod _ _ (allowed_word _ _ N A)).
    + change (flag_name f) with (name_of (flag_key f)). by rewrite key_of_name.
    + change (flag_name f) with (name_of (flag_key f)). by rewrite key_of_name.
    + change (str "log_level") with (name_of level_key); rewrite key_of_name. by rewrite (proj2 (parse_log_level_spec v l) (ex_intro _ _ (conj H E))).
Qed.

Lemma skip_spaces_spec s : exists a, s = a ++ skip_spaces s /\ spaces a /\ (forall c, head (skip_spaces s) = Some c -> c ∉ blanks).
Proof.
  induction s as [|c s (a & E & Sa & H)]; [exists []; split_and!; [done|constructor|done]|]. cbn. destruct (is_space c) eqn:Sc.
  - exists (c :: a). cbn. split_and!; [by rewrite <- E|constructor; [by apply space_true|done]|done].
  - exists []. split_and!; [done|constructor|]. cbn. intros x [= <-]. by apply space_false.
Qed.
(** Spaces in front go, up to the first character that is none. *)
Lemma skip_spaces_app a s : spaces a -> (forall c, head s = Some c -> c ∉ blanks) -> skip_spaces (a ++ s) = s.
Proof.
  induction 1 as [|c a Hc _ IH]; intros H; cbn; [|by rewrite (proj2 (space_true c) Hc); apply IH].
  apply skip_none. intros c E. by apply space_false, H.
Qed.
Lemma spaces_reverse a : spaces a -> spaces (reverse a).
Proof. unfold spaces. rewrite !Forall_forall. setoid_rewrite elem_of_reverse. done. Qed.
Lemma trim_spec s : exists a b, s = a ++ trim s ++ b /\ spaces a /\ spaces b /\ (trim s = [] \/ word_text (trim s)).
Proof.
  destruct (skip_spaces_spec s) as (a & E & Sa & H). destruct (skip_spaces_spec (reverse (skip_spaces s))) as (b & E' & Sb & H').
  exists a, (reverse b). assert (R : skip_spaces s = trim s ++ reverse b).
  { unfold trim. rewrite <- reverse_app, <- E'. by rewrite reverse_involutive. }
  split_and!; [by rewrite <- R|done|by apply spaces_reverse|]. destruct (trim s) as [|c m] eqn:T; [by left|right].
  split; [done|]. split; [intros x Hx; apply H; by rewrite R|]. intros x Hx. apply H'. rewrite <- head_reverse in Hx.
  unfold trim in T. rewrite <- T, reverse_involutive in Hx. done.
Qed.
Lemma trim_app a m b : spaces a -> spaces b -> m = [] \/ word_text m -> trim (a ++ m ++ b) = m.
Proof.
  intros Sa Sb [->|(N & H & L)]; unfold trim.
  - cbn [app]. assert (S : spaces (a ++ b)) by (by apply Forall_app). rewrite <- (app_nil_r (a ++ b)), skip_spaces_app; [done|done|done].
  - rewrite skip_spaces_app; [|done|]. 2:{ intros c. destruct m; [done|]. apply H. }
    rewrite reverse_app, skip_spaces_app; [apply reverse_involutive|by apply spaces_reverse|]. intros c. rewrite head_reverse. apply L.
Qed.
Lemma trim_return s : trim (drop_return s) = trim s.
Proof.
  unfold drop_return. destruct (bool_decide_reflect (last s = Some x0d)) as [E|]; [|done]. apply last_Some in E as (s' & ->).
  rewrite length_app. cbn [length]. rewrite Nat.add_sub, take_app_length. destruct (trim_spec s') as (a & b & E & Sa & Sb & W).
  rewrite E at 2. rewrite <- !app_assoc, trim_app; [done|done| |done]. apply Forall_app. split; [done|]. constructor; [|constructor]. vm_compute. set_solver.
Qed.

Lemma word_text_ne s : word_text s -> bool_decide (s = []) = false.
Proof. intros [N _]. by apply bool_decide_eq_false. Qed.
(** The three shapes of a line. *)
Definition line_shape (line : bytes) (r : option (bytes * bytes)) : Prop :=
  match r with
  | None => spaces line \/ exists a s, spaces a /\ line = a ++ x23 :: s
  | Some (n, v) => exists a b c d, spaces a /\ spaces b /\ spaces c /\ spaces d /\ word_text n /\ (x3d ∉ n) /\ head n <> Some x23 /\ word_text v /\
      line = a ++ n ++ b ++ x3d :: c ++ v ++ d
  end.
Lemma read_line_shape line r : read_line line = Ok r -> line_shape line r.
Proof.
  unfold read_line. rewrite trim_return. cbv zeta.
  destruct (trim_spec line) as (a & d & E & Sa & Sd & W). destruct (trim line) as [|c m] eqn:T.
  { intros [= <-]. left. rewrite E. by apply Forall_app. }
  destruct (bool_decide_reflect (c = x23)) as [->|Nc]; [intros [= <-]; right; by exists a, (m ++ d)|].
  destruct (cut x3d (c :: m)) as [n [v|]] eqn:Cu; [|done]. apply cut_inv in Cu as [Nn Ecm]. intros H. ok_inv H. subst r.
  destruct (trim_spec n) as (a1 & b1 & E1 & Sa1 & Sb1 & W1). destruct (trim_spec v) as (c1 & d1 & E2 & Sc1 & Sd1 & W2).
  rewrite negb_true_iff, bool_decide_eq_false in *. destruct W1 as [|W1]; [done|]. destruct W2 as [|W2]; [done|].
  assert (Na : a1 = []).
  { destruct a1 as [|y a1]; [done|]. exfalso. rewrite E1 in Ecm. cbn in Ecm. injection Ecm as <- _. destruct W as [|(_ & W & _)]; [done|].
    apply (W c); [done|]. by inversion Sa1. }
  subst a1. cbn [app] in E1. exists a, b1, c1, (d1 ++ d). split_and!; try done.
  + by apply Forall_app.
  + intros I. apply Nn. rewrite E1. apply elem_of_app. by left.
  + intros Hd. apply Nc. rewrite E1 in Ecm. destruct (trim n) as [|y tn]; [done|]. cbn in Ecm, Hd. congruence.
  + rewrite E, Ecm. rewrite E1 at 1. rewrite E2 at 1. rewrite <- !app_assoc. cbn [app]. by rewrite <- !app_assoc.
Qed.
Lemma read_setting_line line n v : line_shape line (Some (n, v)) -> read_line line = Ok (Some (n, v)).
Proof.
  unfold read_line. rewrite trim_return. cbv zeta.
  intros (a & b & c & d & Sa & Sb & Sc & Sd & Wn & Nn & Hn & Wv & ->).
  assert (Wm : word_text (n ++ b ++ x3d :: c ++ v)).
  { destruct Wn as (N & H & _), Wv as (N' & _ & L'). split; [by destruct n|]. split; [intros y; destruct n; [done|apply H]|].
    intros y Hy. apply L'. rewrite <- Hy, app_comm_cons, !app_assoc. rewrite last_app. destruct (last v) eqn:E; [done|]. by apply last_None in E. }
  replace (a ++ n ++ b ++ x3d :: c ++ v ++ d) with (a ++ (n ++ b ++ x3d :: c ++ v) ++ d) by (by rewrite <- !app_assoc; cbn [app]; rewrite <- !app_assoc).
  rewrite trim_app; [|done|done|by right]. destruct n as [|y n]; [by destruct Wn|]. cbn [app]. rewrite bool_decide_eq_false_2 by (intros ->; by apply Hn).
  assert (Nb : x3d ∉ (y :: n) ++ b).
  { rewrite not_elem_of_app. split; [done|]. intros I. unfold spaces in Sb. rewrite Forall_forall in Sb. apply Sb in I. vm_compute in I. set_solver. }
  replace (y :: n ++ b ++ x3d :: c ++ v) with (((y :: n) ++ b) ++ x3d :: c ++ v) by (by rewrite <- app_assoc).
  assert (Tn : trim ((y :: n) ++ b) = y :: n) by (apply (trim_app [] (y :: n) b); [constructor|done|by right]).
  assert (Tv : trim (c ++ v) = v) by (rewrite <- (app_nil_r v) at 1; apply trim_app; [done|constructor|by right]).
  rewrite (cut_found x3d _ _ Nb), Tn, Tv. by rewrite !word_text_ne.
Qed.
Lemma read_no_setting_line line : line_shape line None -> read_line line = Ok None.
Proof.
  unfold read_line. rewrite trim_return. cbv zeta.
  intros [S|(a & s & Sa & ->)].
  * assert (T : trim line = []) by (rewrite <- (app_nil_r line); apply (trim_app line [] []); [done|constructor|by left]). by rewrite T.
  * destruct (trim_spec (x23 :: s)) as (a' & b' & E & Sa' & Sb' & W). assert (Na : a' = []).
    { destruct a' as [|y a']; [done|]. exfalso. cbn in E. injection E as <- _. inversion Sa' as [|? ? X]. vm_compute in X. set_solver. }
    subst a'. cbn [app] in E. rewrite E. rewrite trim_app; [|done|done|done]. destruct (trim (x23 :: s)) as [|y m].
    { cbn in E. subst b'. inversion Sb' as [|? ? X]. vm_compute in X. set_solver. }
    cbn in E. injection E as <- _. done.
Qed.
Lemma read_line_spec line r : read_line line = Ok r <-> line_shape line r.
Proof. split; [apply read_line_shape|]. destruct r as [[n v]|]; [apply read_setting_line|apply read_no_setting_line]. Qed.

Lemma lines_one l : x0a ∉ l -> lines l = match l with [] => [] | _ => [l] end.
Proof.
  induction l as [|c l IH]; [done|]. intros [Nc Nl]%not_elem_of_cons. cbn. rewrite bool_decide_eq_false_2 by done. rewrite IH by done. by destruct l.
Qed.
Lemma text_lines_spec content ls : text_lines content ls <-> lines content = ls.
Proof.
  split.
  - induction 1 as [|l N H|l s ls H _ IH]; [done| |by rewrite lines_cons, IH]. rewrite lines_one by done. by destruct l.
  - intros <-. remember (length content) as n eqn:E. revert content E. induction (lt_wf n) as [n _ IH]. intros s E.
    destruct (cut x0a s) as [l [r|]] eqn:C; apply cut_inv in C as [N ->].
    + rewrite lines_cons by done. constructor; [done|]. eapply IH; [|reflexivity]. rewrite length_app in E. cbn in E. lia.
    + rewrite lines_one by done. destruct l; by constructor.
Qed.
Lemma line_says_spec line o : line_says line o <->
  match read_line line with
  | Ok None => o = None
  | Ok (Some (n, v)) => exists x, says n v x /\ o = Some (n, x)
  | Throw _ => False
  end.
Proof.
  split.
  - destruct 1 as [a S|a r S|a n b c v d x Sa Sb Sc Sd Wn Nn Hn Wv Y].
    + by rewrite (proj2 (read_line_spec a None) (or_introl S)).
    + by rewrite (proj2 (read_line_spec _ None) (or_intror (ex_intro _ a (ex_intro _ r (conj S eq_refl))))).
    + assert (R : read_line (a ++ n ++ b ++ x3d :: c ++ v ++ d) = Ok (Some (n, v))) by (apply read_line_spec; by exists a, b, c, d).
      rewrite R. by exists x.
  - destruct (read_line line) as [[[n v]|]|] eqn:R; [| |done]; apply read_line_spec in R.
    + intros (x & Y & ->). destruct R as (a & b & c & d & Sa & Sb & Sc & Sd & Wn & Nn & Hn & Wv & ->). by constructor.
    + intros ->. destruct R as [S|(a & s & S & ->)]; by constructor.
Qed.
Lemma settings_spec ls l : settings ls = Ok l <-> exists os, Forall2 line_says ls os /\ l = omap id os.
Proof.
  revert l. induction ls as [|line ls IH]; intros l; cbn.
  - split; [intros [= <-]; by exists []|]. intros (os & F & ->). by inversion F.
  - assert (H : (exists os, Forall2 line_says (line :: ls) os /\ l = omap id os) <->
      exists o os, line_says line o /\ Forall2 line_says ls os /\ l = omap id (o :: os)).
    { split; [intros (os & F & ->); inversion F; subst; eauto 10|intros (o & os & L & F & ->); exists (o :: os); eauto]. }
    rewrite H. setoid_rewrite line_says_spec. destruct (read_line line) as [[[n v]|]|]; [| |naive_solver].
    + split.
      * intros R. ok_inv R. subst l. match goal with Q : settings ls = Ok ?r |- _ => apply IH in Q as (os & F & ->) end.
        match goal with Q : read_setting n v = Ok ?x |- _ => apply read_setting_spec in Q; exists (Some (n, x)), os end. eauto.
      * intros (o & os & (x & Y & ->) & F & ->). apply read_setting_spec in Y as ->. by rewrite (proj2 (IH (omap id os)) (ex_intro _ os (conj F eq_refl))).
    + rewrite IH. split; [intros (os & F & ->); by exists None, os|]. intros (o & os & -> & F & ->). by exists os.
Qed.
Lemma gives_spec content l : gives content l <-> settings (lines content) = Ok l.
Proof.
  unfold gives. rewrite settings_spec. split.
  - intros (ls & os & T & F & ->). apply text_lines_spec in T as <-. by exists os.
  - intros (os & F & ->). exists (lines content), os. split; [by apply text_lines_spec|done].
Qed.

(** ** Valid configurations *)

Definition octet (s : bytes) (v : Z) : Prop := decimal_text s v /\ v <= 255.
Lemma octet_spec s v : octet s v <-> from_chars (2 ^ 32 - 1) s = Some v /\ v <= 255.
Proof. unfold octet. rewrite from_chars_spec. split; [intros [D V]; split_and!; [done|lia|done]|tauto]. Qed.
(** Four decimal numbers of a unicast address. *)
Definition unicast_ipv4 (host : bytes) : Prop := exists a b c d va vb vc vd,
  host = a ++ x2e :: b ++ x2e :: c ++ x2e :: d /\ octet a va /\ octet b vb /\ octet c vc /\ octet d vd /\ va <> 0 /\ va <> 127 /\ va < 224.

Lemma digits_no_dot maximum s v : from_chars maximum s = Some v -> x2e ∉ s.
Proof.
  unfold from_chars. destruct (_ && _ && _) eqn:G; [|done]. intros _. bool_prop. intros Hd.
  match goal with F : forallb is_digit s = true |- _ => rewrite forallb_forall in F; by apply list_elem_of_In, F in Hd end.
Qed.
Definition bad_first (v : Z) : bool := (v =? 0) || (v =? 127) || (v >=? 224).
Lemma bad_first_spec v : bad_first v = false <-> v <> 0 /\ v <> 127 /\ v < 224.
Proof. unfold bad_first. rewrite !orb_false_iff, !Z.eqb_neq, Z.geb_leb, Z.leb_gt. tauto. Qed.
Lemma check_parts_step n first host :
  check_parts (S n) first host = Ok tt <->
  exists a v, octet a v /\ (first = true -> v <> 0 /\ v <> 127 /\ v < 224) /\
    match n with O => host = a | S _ => exists rest, host = a ++ x2e :: rest /\ check_parts n false rest = Ok tt end.
Proof.
  cbn [check_parts]. split.
  - destruct (cut x2e host) as [a r] eqn:E. apply cut_inv in E as [Na ->]. destruct (from_chars _ a) as [v|] eqn:Fv; [|done].
    change ((v =? 0) || (v =? 127) || (v >=? 224)) with (bad_first v).
    intros H. destruct (negb _) eqn:G in H; [|done]. rewrite negb_true_iff, !orb_false_iff in G. destruct G as (((G1 & G2) & G3) & G4).
    exists a, v. split; [apply octet_spec; split; [done|bool_prop; lia]|]. split; [intros ->; by apply bad_first_spec|].
    destruct n as [|n]; cbn in *; bool_prop; [by subst r|]. destruct r as [b|]; [|done]. by exists b.
  - intros (a & v & Oa & First & H). apply octet_spec in Oa as [Fv V]. pose proof (digits_no_dot _ _ _ Fv) as Na.
    assert (G1 : (v >? 255) = false) by (rewrite Z.gtb_ltb; apply Z.ltb_ge; lia).
    assert (G4 : first && bad_first v = false) by (destruct first; [by apply bad_first_spec, First|done]).
    destruct n as [|n]; [subst host; rewrite cut_absent, Fv by done|destruct H as (rest & -> & H); rewrite cut_found, Fv by done];
      change ((v =? 0) || (v =? 127) || (v >=? 224)) with (bad_first v); by rewrite G1, G4.
Qed.
Lemma check_parts_spec host : check_parts 4 true host = Ok tt <-> unicast_ipv4 host.
Proof.
  unfold unicast_ipv4. rewrite check_parts_step. setoid_rewrite check_parts_step. setoid_rewrite check_parts_step. setoid_rewrite check_parts_step. split.
  - intros (a & va & Oa & Fa & r & -> & b & vb & Ob & _ & r2 & -> & c & vc & Oc & _ & r3 & -> & d & vd & Od & _ & ->).
    destruct Fa as (? & ? & ?); [done|]. by exists a, b, c, d, va, vb, vc, vd.
  - intros (a & b & c & d & va & vb & vc & vd & -> & Oa & Ob & Oc & Od & H).
    exists a, va. split; [done|]. split; [done|]. eexists. split; [done|]. exists b, vb. split; [done|]. split; [done|]. eexists. split; [done|].
    exists c, vc. split; [done|]. split; [done|]. eexists. split; [done|]. by exists d, vd.
Qed.

Definition host_ok (h : bytes) : Prop := h <> [] /\ len h <= 253 /\ (x2f ∉ h) /\ (x5c ∉ h) /\ Forall (fun c => c ∉ blanks) h.
Definition hex_key (k : bytes) : Prop := len k = 64 /\ Forall (fun c => c ∈ str "0123456789abcdefABCDEF") k /\ k <> replicate 64 x30.

(** What [validate_config] accepts. *)
Record valid_config (c : RuntimeConfig) : Prop := mk_valid_config {
  vc_mode : text c bootstrap_mode ∈ [str "manual"; str "official"; str "self_hosted"];
  vc_directory : text c bootstrap_mode <> str "manual" ->
    take 8 (text c directory_url) = str "https://" /\ len (text c directory_url) <= 2048 /\
    (forall x, x ∈ url_specials -> x ∉ text c directory_url) /\ hex_key (text c directory_public_key);
  vc_mtu : 576 <= number c virtual_mtu <= 9000;
  vc_stun : number c p2p_stun_port <> 0 /\ (text c p2p_stun_host <> [] -> unicast_ipv4 (text c p2p_stun_host));
  vc_relay : number c relay_port <> 0 /\ (text c relay_host <> [] -> host_ok (text c relay_host));
  vc_listen : host_ok (text c listen_host);
  vc_tls : text c tls_certificate_file = [] <-> text c tls_private_key_file = [];
  vc_timeouts : 1000 <= number c quic_handshake_timeout_ms <= 60000 /\ 1000 <= number c authentication_timeout_ms <= 60000 /\
    5000 <= number c quic_idle_timeout_ms <= 600000 /\ number c quic_keep_alive_interval_ms <> 0 /\
    number c quic_keep_alive_interval_ms < number c quic_idle_timeout_ms;
  vc_reconnect : 100 <= number c reconnect_initial_delay_ms <= 60000 /\ number c reconnect_initial_delay_ms <= number c reconnect_max_delay_ms <= 300000;
  vc_limits : 1 <= number c relay_max_connections <= 4096 /\ 1 <= number c relay_max_tls_handshakes <= number c relay_max_connections /\
    256 * 1024 <= number c relay_send_queue_bytes <= 64 * 1024 * 1024 /\ 32 <= number c relay_send_queue_frames <= 4096 /\
    1 <= number c relay_control_requests_per_second <= 10000;
  vc_log : text c log_directory <> [] /\ 64 * 1024 <= number c log_max_size_bytes <= 1024 * 1024 * 1024 /\ 1 <= number c log_max_files <= 32 }.

Lemma within_spec c f lo hi : within c f lo hi = true <-> lo <= number c f <= hi.
Proof. unfold within. rewrite negb_true_iff, orb_false_iff, Z.ltb_ge, Z.gtb_ltb, Z.ltb_ge. lia. Qed.
Lemma blank_spec c f : blank c f = true <-> text c f = [].
Proof. unfold blank. apply bool_decide_eq_true. Qed.
Lemma any_of_spec set s : any_of set s = false <-> forall x, x ∈ set -> x ∉ s.
Proof.
  unfold any_of. rewrite <- not_true_iff_false, existsb_exists. split.
  - intros N x Hx Hs. apply N. exists x. rewrite <- list_elem_of_In, bool_decide_eq_true. done.
  - intros F (x & Hx & B). rewrite bool_decide_eq_true in B. by apply (F x B), list_elem_of_In.
Qed.
Lemma invalid_host_spec h : invalid_host h = false <-> host_ok h.
Proof.
  unfold invalid_host, host_ok. rewrite !orb_false_iff, bool_decide_eq_false, Z.gtb_ltb, Z.ltb_ge, any_of_spec, Forall_forall.
  assert (E : existsb is_space h = false <-> forall x, x ∈ h -> x ∉ blanks).
  { setoid_rewrite <- space_false. rewrite <- not_true_iff_false, existsb_exists. split.
    - intros N x Hx. apply not_true_iff_false. intros B. apply N. exists x. by rewrite <- list_elem_of_In.
    - intros F (x & Hx & B). rewrite F in B; [done|]. by apply list_elem_of_In. }
  rewrite E. split.
  - intros (((H1 & H2) & H3) & H4). split_and!; try done; apply H3; [left|right; left].
  - intros (H1 & H2 & H3 & H4 & H5). split_and!; try done. intros x [->|[->|Hx]%elem_of_cons]%elem_of_cons; [done|done|]. by apply not_elem_of_nil in Hx.
Qed.

Lemma check_iff {A} b e (k : result A) x : (check! b else e in k) = Ok x <-> b = true /\ k = Ok x.
Proof. destruct b; naive_solver. Qed.
Lemma then_iff {A} (m : result unit) (k : result A) x : (let* _ := m in k) = Ok x <-> m = Ok tt /\ k = Ok x.
Proof. destruct m as [[]|]; cbn; naive_solver. Qed.
Lemma is_xdigit_spec c : is_xdigit c = true <-> c ∈ str "0123456789abcdefABCDEF".
Proof. assert (E : is_xdigit c = bool_decide (c ∈ str "0123456789abcdefABCDEF")) by (destruct c; reflexivity). rewrite E. apply bool_decide_eq_true. Qed.
Lemma hex_key_spec k : (len k =? 64) && forallb is_xdigit k && negb (bool_decide (k = replicate 64 x30)) = true <-> hex_key k.
Proof.
  unfold hex_key. rewrite !andb_true_iff, Z.eqb_eq, forallb_forall, negb_true_iff, bool_decide_eq_false, Forall_forall.
  setoid_rewrite <- is_xdigit_spec. setoid_rewrite list_elem_of_In. tauto.
Qed.
Lemma directory_spec c :
  bool_decide (text c bootstrap_mode = str "manual") ||
    (bool_decide (take 8 (text c directory_url) = str "https://") && negb (len (text c directory_url) >? 2048) && negb (any_of url_specials (text c directory_url)) &&
     (len (text c directory_public_key) =? 64) && forallb is_xdigit (text c directory_public_key) && negb (bool_decide (text c directory_public_key = replicate 64 x30))) = true <->
  (text c bootstrap_mode <> str "manual" ->
    take 8 (text c directory_url) = str "https://" /\ len (text c directory_url) <= 2048 /\
    (forall x, x ∈ url_specials -> x ∉ text c directory_url) /\ hex_key (text c directory_public_key)).
Proof.
  rewrite <- hex_key_spec, <- any_of_spec. destruct (bool_decide_reflect (text c bootstrap_mode = str "manual")) as [E|N]; [split; [by intros _ ?|done]|].
  cbn [orb]. rewrite !andb_true_iff, !negb_true_iff, bool_decide_eq_true, Z.gtb_ltb, Z.ltb_ge. tauto.
Qed.
Lemma stun_spec c : (if blank c p2p_stun_host then Ok tt else check_parts 4 true (text c p2p_stun_host)) = Ok tt <->
  (text c p2p_stun_host <> [] -> unicast_ipv4 (text c p2p_stun_host)).
Proof.
  rewrite <- check_parts_spec. destruct (blank c p2p_stun_host) eqn:B; unfold blank in B; bool_prop; [split; [by intros _ ?|done]|]. split; [done|]. auto.
Qed.
Lemma host_given c f : blank c f || negb (invalid_host (text c f)) = true <-> (text c f <> [] -> host_ok (text c f)).
Proof.
  rewrite <- invalid_host_spec. unfold blank. destruct (bool_decide_reflect (text c f = [])) as [E|N]; cbn [orb]; [split; [by intros _ ?|done]|].
  rewrite negb_true_iff. split; [done|]. auto.
Qed.
Lemma listen_spec h : negb (invalid_host h) = true <-> host_ok h.
Proof. by rewrite negb_true_iff, invalid_host_spec. Qed.
Lemma both_blank c f g : Bool.eqb (blank c f) (blank c g) = true <-> (text c f = [] <-> text c g = []).
Proof. rewrite <- !blank_spec, eqb_true_iff. destruct (blank c f), (blank c g); naive_solver. Qed.
Lemma mode_spec c : bool_decide (text c bootstrap_mode = str "manual") || bool_decide (text c bootstrap_mode = str "official") ||
    bool_decide (text c bootstrap_mode = str "self_hosted") = true <-> text c bootstrap_mode ∈ [str "manual"; str "official"; str "self_hosted"].
Proof. rewrite !orb_true_iff, !bool_decide_eq_true, !elem_of_cons, elem_of_nil. tauto. Qed.
Lemma given_spec c f : negb (blank c f) = true <-> text c f <> [].
Proof. by rewrite negb_true_iff, <- not_true_iff_false, blank_spec. Qed.
Lemma nonzero_spec z : negb (z =? 0) = true <-> z <> 0.
Proof. by rewrite negb_true_iff, Z.eqb_neq. Qed.
Lemma keep_alive_spec a b : negb ((a =? 0) || (a >=? b)) = true <-> a <> 0 /\ a < b.
Proof. by rewrite negb_true_iff, orb_false_iff, Z.eqb_neq, Z.geb_leb, Z.leb_gt. Qed.

Lemma validate_config_spec c : validate_config c = Ok tt <-> valid_config c.
Proof.
  unfold validate_config. cbv zeta. rewrite !check_iff, then_iff, !check_iff.
  rewrite mode_spec, directory_spec, stun_spec, host_given, listen_spec, both_blank, !nonzero_spec, keep_alive_spec, given_spec, !andb_true_iff, !within_spec.
  split; [intros H; decompose [and] H; by split|].
  intros [M D Mt [S1 S2] [R1 R2] L T (T1 & T2 & T3 & T4 & T5) (C1 & C2) (L1 & L2 & L3 & L4 & L5) (G1 & G2 & G3)]. split_and!; first [assumption|apply M|lia|done].
Qed.

(** ** Errors *)

Definition only_runtime {A} (r : result A) : Prop := forall e, r = Throw e -> e = runtime_error.
Lemma only_ok {A} (a : A) : only_runtime (Ok a).
Proof. by intros e. Qed.
Lemma only_check {A} b (k : result A) : only_runtime k -> only_runtime (check! b else runtime_error in k).
Proof. destruct b; [done|]. by intros _ e [= <-]. Qed.
Lemma only_then {A B} (m : result A) (k : A -> result B) : only_runtime m -> (forall a, only_runtime (k a)) -> only_runtime (let* x := m in k x).
Proof. intros Hm Hk e. destruct m as [a|e']; [apply Hk|]. intros [= <-]. by apply Hm. Qed.
Lemma only_throw {A} : only_runtime (Throw runtime_error : result A).
Proof. by intros e [= <-]. Qed.
Create HintDb errors.
#[local] Hint Resolve only_ok only_check only_then only_throw : errors.

Lemma check_parts_errors n first host : only_runtime (check_parts n first host).
Proof.
  revert first host. induction n as [|n IH]; intros first host; cbn; [by auto with errors|]. destruct (cut x2e host) as [a r].
  destruct (from_chars _ a); auto with errors.
Qed.
Lemma validate_config_errors c : only_runtime (validate_config c).
Proof.
  unfold validate_config. cbv zeta. repeat apply only_check. apply only_then; [destruct (blank _ _); [apply only_ok|apply check_parts_errors]|].
  intros _. repeat apply only_check. apply only_ok.
Qed.
Lemma parse_line_errors line st : only_runtime (parse_line line st).
Proof.
  unfold parse_line. apply only_then.
  - unfold read_line. cbv zeta. destruct (trim (drop_return line)) as [|c l]; [apply only_ok|]. case_match; [apply only_ok|]. destruct (cut x3d (c :: l)) as [n [v|]]; auto with errors.
  - intros [[n v]|]; [|apply only_ok]. apply only_check, only_then; [|auto with errors]. unfold read_setting, parse_unsigned.
    destruct (key_of n) as [[f|f|f|]|]; [auto with errors| |auto with errors| |auto with errors].
    + apply only_then; [destruct (from_chars _ v); auto with errors|]. auto with errors.
    + destruct (parse_log_level v); auto with errors.
Qed.
Lemma fold_errors {A B} (f : A -> B -> result B) l b : (forall x b, only_runtime (f x b)) -> only_runtime (fold_result f l b).
Proof. intros F. revert b. induction l as [|x l IH]; intros b; cbn; [apply only_ok|]. apply only_then; [apply F|apply IH]. Qed.
Lemma parse_config_errors content : only_runtime (parse_config content).
Proof.
  unfold parse_config. apply only_check, only_then; [apply fold_errors; intros; apply parse_line_errors|]. intros st.
  apply only_then; [apply validate_config_errors|auto with errors].
Qed.

(** ** Widths *)

Definition wf_config (c : RuntimeConfig) : Prop := forall f, word (width f) (number c f).
Lemma number_fits f n : fst (parsed_range f) <= n <= snd (parsed_range f) -> word (width f) n.
Proof. destruct f; cbn; unfold word; cbn; lia. Qed.
Lemma read_setting_number n v f z : read_setting n v = Ok (set_number f z) -> word (width f) z /\ from_chars (2 ^ 64 - 1) v = Some z.
Proof.
  unfold read_setting, parse_unsigned. destruct (key_of n) as [[g|g|g|]|]; try done.
  - destruct (from_chars _ v) as [m|]; [|done]. destruct (_ && _) eqn:G; [|done]. intros [= -> <-]. bool_prop.
    assert (W : word (width f) m) by (apply number_fits; done). by rewrite (word_mod _ _ W).
  - intros H. by ok_inv H.
  - by destruct (parse_log_level v).
Qed.
Lemma settings_fit ls l : settings ls = Ok l -> forall n f z, (n, set_number f z) ∈ l -> word (width f) z.
Proof.
  revert l. induction ls as [|line ls IH]; intros l; cbn; [intros [= <-] n f z H; by apply not_elem_of_nil in H|].
  destruct (read_line line) as [[[n v]|]|]; [|apply IH|done]. destruct (read_setting n v) as [x|] eqn:E; [|done].
  destruct (settings ls) as [r|]; [|done]. intros [= <-] m f z [Em|Hm]%elem_of_cons; [|by eapply IH]. simplify_eq. by apply read_setting_number in E as [? _].
Qed.
Lemma default_fits : wf_config default_config.
Proof. intros f. destruct f; unfold word; cbn; lia. Qed.
Lemma parsed_values content c l : parse_config content = Ok c -> settings (lines content) = Ok l ->
  (forall n x, (n, x) ∈ l -> value_at c (setting_key x) = x) /\
  (forall k, (forall n x, (n, x) ∈ l -> setting_key x <> k) -> value_at c k = value_at default_config k).
Proof.
  intros P Sl. apply parse_config_spec in P as (_ & _ & l' & Sl' & ND & ->). rewrite Sl in Sl'. injection Sl' as <-.
  pose proof (distinct_keys l (settings_keys _ _ Sl) ND) as NK. split.
  - intros n x Hx. apply (value_at_all _ default_config (setting_key x) NK); [|done]. apply list_elem_of_In, in_map_iff. exists (n, x). by rewrite <- list_elem_of_In.
  - intros k F. apply (value_at_all _ default_config k NK). intros x Hx. apply list_elem_of_In, in_map_iff in Hx as ([n y] & <- & Hy). eapply F. by apply list_elem_of_In.
Qed.
Lemma parsed_fits content c : parse_config content = Ok c -> wf_config c.
Proof.
  intros P f. pose proof P as Q. apply parse_config_spec in Q as (_ & _ & l & Sl & ND & _). destruct (parsed_values _ _ _ P Sl) as [V D].
  destruct (decide (number_key f ∈ map (fun e => setting_key (snd e)) l)) as [H|H].
  - apply list_elem_of_In, in_map_iff in H as ([n x] & E & Hx). cbn in E. apply list_elem_of_In in Hx. pose proof (V _ _ Hx) as Vx. rewrite E in Vx. cbn in Vx.
    subst x. by apply (settings_fit _ _ Sl) in Hx.
  - assert (Df : value_at c (number_key f) = value_at default_config (number_key f)).
    { apply D. intros n x Hx E. apply H. apply list_elem_of_In, in_map_iff. exists (n, x). by rewrite <- list_elem_of_In. }
    injection Df as ->. apply default_fits.
Qed.
Definition same_outcome (r r' : result RuntimeConfig) : Prop :=
  match r, r' with Ok c, Ok c' => c ≡ c' | Throw _, Throw _ => True | _, _ => False end.
Lemma parse_reordered_ok content content' c : len content' <= max_config_size -> Permutation (lines content) (lines content') ->
  parse_config content = Ok c -> exists c', parse_config content' = Ok c' /\ c ≡ c'.
Proof.
  intros L P H. apply parse_config_spec in H as (_ & Vc & l & Sl & ND & ->). pose proof (settings_perm _ _ P) as Q. rewrite Sl in Q.
  destruct (settings (lines content')) as [l'|] eqn:Sl'; [|done]. pose proof (distinct_keys l (settings_keys _ _ Sl) ND) as NK.
  assert (E : assign_all (map snd l) default_config ≡ assign_all (map snd l') default_config) by (apply assign_all_perm; [by rewrite Q|done]).
  exists (assign_all (map snd l') default_config). split; [|done]. apply parse_config_spec. split; [done|]. split; [by rewrite <- E|]. exists l'. split_and!; [done|by rewrite <- Q|done].
Qed.
Lemma parse_reordered content content' : len content <= max_config_size -> len content' <= max_config_size -> Permutation (lines content) (lines content') ->
  same_outcome (parse_config content) (parse_config content').
Proof.
  intros L L' P. destruct (parse_config content) as [c|] eqn:E.
  - destruct (parse_reordered_ok _ _ _ L' P E) as (c' & -> & Q). exact Q.
  - destruct (parse_config content') as [c'|] eqn:E'; [|done]. symmetry in P. destruct (parse_reordered_ok _ _ _ L P E') as (c & X & _). congruence.
Qed.

(** What the parser accepts, against the settings the text gives. *)
Lemma configured_by_all l c : NoDup (map fst l) -> Forall (fun e => key_of (fst e) = Some (setting_key (snd e))) l ->
  configured_by l c <-> c ≡ assign_all (map snd l) default_config.
Proof.
  intros ND K. pose proof (distinct_keys l K ND) as NK.
  assert (In : forall x, x ∈ map snd l <-> exists n, (n, x) ∈ l).
  { intros x. rewrite list_elem_of_In, in_map_iff. split.
    - intros ([n y] & <- & H). exists n. by apply list_elem_of_In.
    - intros [n H]. exists (n, x). by rewrite <- list_elem_of_In. }
  split.
  - intros [V D] k. destruct (value_at_all (map snd l) default_config k NK) as [A B]. destruct (decide (k ∈ map setting_key (map snd l))) as [H|H].
    + apply list_elem_of_In, in_map_iff in H as (x & Ek & Hx). apply list_elem_of_In in Hx. rewrite (A x Hx Ek). apply In in Hx as [n Hx]. rewrite <- Ek. by apply (V n).
    + assert (N : forall x, x ∈ map snd l -> setting_key x <> k).
      { intros x Hx Ek. apply H, list_elem_of_In, in_map_iff. exists x. by rewrite <- list_elem_of_In. }
      rewrite (B N). apply D. intros n x Hx. apply N, In. by exists n.
  - intros E. split.
    + intros n x Hx. rewrite E. apply (value_at_all _ default_config (setting_key x) NK); [|done]. apply In. by exists n.
    + intros k N. rewrite E. apply (value_at_all _ default_config k NK). intros x [n Hx]%In. by apply (N n).
Qed.
Lemma parse_config_given content c : parse_config content = Ok c ->
  len content <= max_config_size /\ valid_config c /\ exists l, gives content l /\ NoDup (map fst l) /\ configured_by l c.
Proof.
  intros H. apply parse_config_spec in H as (L & V & l & Sl & ND & E). split; [done|]. split; [by apply validate_config_spec|].
  exists l. split; [by apply gives_spec|]. split; [done|]. apply configured_by_all; [done|by eapply settings_keys|by rewrite E].
Qed.
Lemma given_parsed content l c : len content <= max_config_size -> gives content l -> NoDup (map fst l) -> configured_by l c -> valid_config c ->
  exists c', parse_config content = Ok c' /\ c' ≡ c.
Proof.
  intros L G ND C V. apply gives_spec in G. apply configured_by_all in C; [|done|by eapply settings_keys]. exists (assign_all (map snd l) default_config).
  split; [|done]. apply parse_config_spec. split; [done|]. split; [|by exists l]. rewrite <- C. by apply validate_config_spec.
Qed.
(** A written configuration gives the settings written. *)
Lemma gives_rendered l r : Forall (fun e => plain_name (fst e) /\ plain (snd e)) l ->
  gives (render l) r <-> Forall2 (fun e s => fst s = fst e /\ says (fst e) (snd e) (snd s)) l r.
Proof.
  intros F. rewrite gives_spec, settings_rendered by done. clear F. revert r. induction l as [|e l IH]; intros r; cbn [fold_right].
  - split; [intros [= <-]; constructor|]. intros F. by inversion F.
  - split.
    + intros H. ok_inv H. subst r. constructor; [split; [done|by apply read_setting_spec]|by apply IH].
    + intros F. inversion F as [|? [n x] ? r' [En Y] F']; subst. cbn in En, Y. subst n. apply read_setting_spec in Y as ->. by rewrite (proj2 (IH r') F').
Qed.

(** C36: a configuration file means what its lines say, and only sound values get through.  A text is accepted exactly when it has at
    most 1 MiB, every line is blank, a comment or [name = value] with spaces around either, the name being one of a setting and
    the value a text, a decimal number in its range, true or false, or a log level in any case, no name comes twice and the
    outcome is valid; each setting then has the value its line gives, and the default if there is none, whatever the order of
    the lines; text written as [name=value] lines is read back.  Every number fits its machine type, so the casts lose
    nothing, and is inside the range the rest of the program relies on ([valid_config]).  Everything else is refused with a
    [runtime_error].  What a line says ([line_says], [says]) is a table of names and a grammar written apart from the parser. *)
Theorem configuration_exact (content : bytes) :
  (forall c, parse_config content = Ok c ->
     len content <= 2 ^ 20 /\ valid_config c /\ wf_config c /\ exists l, gives content l /\ NoDup (map fst l) /\ configured_by l c) /\
  (forall l c, len content <= 2 ^ 20 -> gives content l -> NoDup (map fst l) -> configured_by l c -> valid_config c ->
     exists c', parse_config content = Ok c' /\ c' ≡ c) /\
  (forall content' ls ls', len content <= 2 ^ 20 -> len content' <= 2 ^ 20 -> text_lines content ls -> text_lines content' ls' -> Permutation ls ls' ->
     same_outcome (parse_config content) (parse_config content')) /\
  (forall l r, Forall (fun e => plain_name (fst e) /\ plain (snd e)) l ->
     gives (render l) r <-> Forall2 (fun e s => fst s = fst e /\ says (fst e) (snd e) (snd s)) l r) /\
  (forall e, parse_config content = Throw e -> e = runtime_error).
Proof.
  split_and!.
  - intros c P. destruct (parse_config_given _ _ P) as (L & V & G). split_and!; [done|done|by eapply parsed_fits|done].
  - apply given_parsed.
  - intros content' ls ls' L L' <-%text_lines_spec <-%text_lines_spec P. by apply parse_reordered.
  - apply gives_rendered.
  - apply parse_config_errors.
Qed.

Definition sample_config : bytes := str "# lan" ++ x0d :: x0a :: str " relay_port = 5000 " ++ x0a :: str "log_level=WARN" ++ [x0a].
Definition reordered_config : bytes := str "log_level=WARN" ++ x0a :: str "# lan" ++ x0d :: x0a :: str " relay_port = 5000 " ++ [x0a].
Definition sample_settings : list (bytes * Setting) := [(str "relay_port", set_number relay_port 5000); (str "log_level", set_level lvl_warning)].
Lemma sample_gives : gives sample_config sample_settings.
Proof. apply gives_spec. vm_compute. reflexivity. Defined.
Lemma configuration_exact_witness :
  same_outcome (parse_config sample_config) (parse_config reordered_config) /\
  exists c, parse_config sample_config = Ok c /\ number c relay_port = 5000 /\ log_level c = lvl_warning /\ number c virtual_mtu = 1400.
Proof.
  destruct (configuration_exact sample_config) as (_ & G & P & _). split.
  - apply (P reordered_config (lines sample_config) (lines reordered_config)); [vm_compute; discriminate|vm_compute; discriminate|by apply text_lines_spec..|].
    vm_compute. apply (Permutation_app_comm [_; _] [_]).
  - assert (ND : NoDup (map fst sample_settings)) by (apply (bool_decide_unpack _); vm_compute; exact I).
    destruct (G sample_settings (assign_all (map snd sample_settings) default_config)) as (c & Hc & E);
      [vm_compute; discriminate|exact sample_gives|exact ND| | |].
    + apply configured_by_all; [exact ND|repeat constructor|done].
    + apply validate_config_spec. vm_compute. reflexivity.
    + exists c. split; [exact Hc|]. pose proof (E (number_key relay_port)) as E1. pose proof (E level_key) as E2. pose proof (E (number_key virtual_mtu)) as E3.
      injection E1 as ->. injection E2 as ->. injection E3 as ->. done.
Defined.
