(* ===== verification/LocalControl.v ===== *)
(** * Local control messages

    protocol/local_control.hpp and .cpp: the messages between the user interface and the service over a local pipe, with
    little-endian numbers, and the two payloads the relay protocol does not have. *)
From S2P Require Import PathDiagnostics GameDiagnostics.
From S2P Require Import Prelude Wire Capabilities PacketMessages Candidates NetworkPolicy NetworkMessages AuditEvent UserAccess NetworkManagement.

(** ** Little-endian numbers *)

(** [(value >> (8 * i)) & 0xff] for each [i]. *)
Fixpoint put_le (n : nat) (v : Z) : bytes :=
  match n with O => [] | S n => z2b v :: put_le n (Z.shiftr v 8) end.
(** [value |= byte << (8 * i)] for each [i], from [i] on. *)
Fixpoint get_le (i : Z) (bs : bytes) : Z :=
  match bs with [] => 0 | b :: bs => Z.lor (Z.shiftl (b2z b) (8 * i)) (get_le (i + 1) bs) end.
Fixpoint le_value (bs : bytes) : Z := match bs with [] => 0 | b :: bs => le_value bs * 256 + b2z b end.

Lemma le_value_nonneg bs : 0 <= le_value bs.
Proof. induction bs as [|b bs IH]; cbn; [lia|]. pose proof (b2z_range b). lia. Qed.
Lemma get_le_value i bs : 0 <= i -> get_le i bs = Z.shiftl (le_value bs) (8 * i).
Proof.
  revert i. induction bs as [|b bs IH]; intros i Hi; cbn; [by rewrite Z.shiftl_0_l|]. rewrite IH by lia.
  replace (8 * (i + 1)) with (8 + 8 * i) by lia. rewrite <- Z.shiftl_shiftl, <- Z.shiftl_lor by lia.
  rewrite Z.lor_comm, shift_or_byte by apply le_value_nonneg. done.
Qed.
Lemma length_put_le n v : length (put_le n v) = n.
Proof. revert v. induction n as [|n IH]; intros v; cbn; [done|]. by rewrite IH. Qed.
Lemma word_S n v : word (S n) v <-> 0 <= v /\ word n (Z.shiftr v 8).
Proof.
  unfold word. rewrite Z.shiftr_div_pow2 by lia. replace (8 * Z.of_nat (S n)) with (8 + 8 * Z.of_nat n) by lia. rewrite Z.pow_add_r by lia. change (2 ^ 8) with 256.
  pose proof (Z.div_mod v 256). pose proof (Z.mod_pos_bound v 256). split; intros H1; (split; [|split || idtac]); try lia; apply Z.div_pos; lia.
Qed.
Lemma get_put_le n v : word n v -> get_le 0 (put_le n v) = v.
Proof.
  rewrite get_le_value by lia. rewrite Z.shiftl_0_r. revert v. induction n as [|n IH]; intros v W; cbn; [unfold word in W; cbn in W; lia|].
  apply word_S in W as [N W]. rewrite IH, b2z_z2b, Z.shiftr_div_pow2 by (done || lia). pose proof (Z.div_mod v 256). change (2 ^ 8) with 256. lia.
Qed.
Lemma put_get_le n bs : length bs = n -> put_le n (get_le 0 bs) = bs /\ word n (get_le 0 bs).
Proof.
  rewrite get_le_value by lia. rewrite Z.shiftl_0_r. revert n. induction bs as [|b bs IH]; intros n <-; [done|]. destruct (IH _ eq_refl) as [E W].
  pose proof (b2z_range b). pose proof (le_value_nonneg bs). cbn [length put_le le_value].
  assert (Sh : Z.shiftr (le_value bs * 256 + b2z b) 8 = le_value bs).
  { rewrite Z.shiftr_div_pow2 by lia. change (2 ^ 8) with 256. rewrite Z.add_comm, Z.div_add by lia. rewrite Z.div_small by lia. lia. }
  split; [|apply word_S; rewrite Sh; split; [lia|done]]. rewrite Sh, E. f_equal. apply b2z_inj. rewrite b2z_z2b, Z.add_comm, Z_mod_plus_full. apply Z.mod_small. lia.
Qed.

(** ** Messages *)

Inductive LocalCommand :=
| cmd_status | cmd_list | cmd_create | cmd_join | cmd_leave | cmd_invite | cmd_approve | cmd_kick | cmd_stop | cmd_diagnostics | cmd_peers
| cmd_activity | cmd_path_diagnostics | cmd_game_diagnostics | cmd_user_access | cmd_network_management | cmd_routing_options
| unassigned_command (raw : Z).
Definition command_value (c : LocalCommand) : Z :=
  match c with
  | cmd_status => 1 | cmd_list => 2 | cmd_create => 3 | cmd_join => 4 | cmd_leave => 5 | cmd_invite => 6 | cmd_approve => 7 | cmd_kick => 8
  | cmd_stop => 9 | cmd_diagnostics => 10 | cmd_peers => 11 | cmd_activity => 12 | cmd_path_diagnostics => 13 | cmd_game_diagnostics => 14
  | cmd_user_access => 15 | cmd_network_management => 16 | cmd_routing_options => 17 | unassigned_command raw => raw
  end.
Definition commands : list LocalCommand :=
  [cmd_status; cmd_list; cmd_create; cmd_join; cmd_leave; cmd_invite; cmd_approve; cmd_kick; cmd_stop; cmd_diagnostics; cmd_peers;
   cmd_activity; cmd_path_diagnostics; cmd_game_diagnostics; cmd_user_access; cmd_network_management; cmd_routing_options].
Definition command_cast (raw : Z) : LocalCommand := default (unassigned_command raw) (List.find (fun c => command_value c =? raw) commands).
Definition valid_command (c : LocalCommand) : bool := (1 <=? command_value c) && (command_value c <=? 17).

Record LocalMessage := mk_local { lm_command : LocalCommand; lm_response : bool; lm_error : bool; lm_payload : bytes }.

Definition max_local_control_payload : Z := 512 * 1024.
Definition local_control_header_size : nat := 12.
Definition local_magic : bytes := str "LLCP".
Definition message_flags (m : LocalMessage) : Z := Z.lor (if lm_response m then 1 else 0) (if lm_error m then 2 else 0).

Definition encode_local_message (m : LocalMessage) : result bytes :=
  check! negb (negb (valid_command (lm_command m)) || (lm_error m && negb (lm_response m)) || (len (lm_payload m) >? max_local_control_payload)) else invalid_argument in
  Ok (local_magic ++ [x01; z2b (command_value (lm_command m)); z2b (message_flags m); x00] ++ put_le 4 (len (lm_payload m)) ++ lm_payload m).
Definition decode_local_message (bs : bytes) : result LocalMessage :=
  check! negb ((len bs <? 12) || negb (at_z bs 4 =? 1) || negb (at_z bs 7 =? 0) || negb (Z.land (at_z bs 6) (Z.lnot 3) =? 0)) else invalid_argument in
  check! bool_decide (slice 0 4 bs = local_magic) else invalid_argument in
  let length_ := get_le 0 (slice 8 4 bs) in
  let command := command_cast (at_z bs 5) in
  let flags := at_z bs 6 in
  check! negb (negb (valid_command command) || (negb (Z.land flags 2 =? 0) && (Z.land flags 1 =? 0)) || (length_ >? max_local_control_payload) ||
               negb (len bs =? 12 + length_)) else invalid_argument in
  Ok (mk_local command (negb (Z.land flags 1 =? 0)) (negb (Z.land flags 2 =? 0)) (drop 12 bs)).

(** ** Diagnostics *)

Inductive ClientConfigurationState := configured | unconfigured | invalid_credentials | unassigned_configuration (raw : Z).
Definition configuration_value (s : ClientConfigurationState) : Z :=
  match s with configured => 0 | unconfigured => 1 | invalid_credentials => 2 | unassigned_configuration raw => raw end.
Definition configuration_cast (raw : Z) : ClientConfigurationState :=
  match raw with 0 => configured | 1 => unconfigured | 2 => invalid_credentials | _ => unassigned_configuration raw end.
Record LocalDiagnostics := mk_local_diagnostics {
  ld_connected : bool; ld_authenticated : bool; ld_tcp_fallback : bool; ld_configuration : ClientConfigurationState; ld_active_networks : Z;
  ld_rtt : option Z; ld_sent : Z; ld_received : Z; ld_reconnects : Z; ld_error : bytes }.

Definition no_rtt : Z := 2 ^ 32 - 1.
Definition inactive (d : LocalDiagnostics) : bool :=
  negb (ld_connected d || ld_authenticated d || ld_tcp_fallback d || negb (ld_active_networks d =? 0)).
Definition flag_byte (b : bool) : byte := if b then x01 else x00.
Definition encode_local_diagnostics (d : LocalDiagnostics) : result bytes :=
  check! negb ((len (ld_error d) >? 512) || (configuration_value (ld_configuration d) >? 2) ||
               (negb (configuration_value (ld_configuration d) =? 0) && negb (inactive d))) else invalid_argument in
  Ok ([flag_byte (ld_connected d); flag_byte (ld_authenticated d); flag_byte (ld_tcp_fallback d); z2b (configuration_value (ld_configuration d))] ++
      put_le 4 (ld_active_networks d) ++ put_le 4 (default no_rtt (ld_rtt d)) ++ put_le 8 (ld_sent d) ++ put_le 8 (ld_received d) ++
      put_le 4 (ld_reconnects d) ++ put_le 2 (len (ld_error d)) ++ ld_error d).
Definition read_le (bs : bytes) (offset count : nat) : Z := get_le 0 (slice offset count bs).
Definition decode_local_diagnostics (bs : bytes) : result LocalDiagnostics :=
  check! negb ((len bs <? 34) || (at_z bs 0 >? 1) || (at_z bs 1 >? 1) || (at_z bs 2 >? 1) || (at_z bs 3 >? 2) ||
               (negb (at_z bs 3 =? 0) && (negb (at_z bs 0 =? 0) || negb (at_z bs 1 =? 0) || negb (at_z bs 2 =? 0)))) else invalid_argument in
  let error_size := read_le bs 32 2 in
  check! negb ((error_size >? 512) || negb (len bs =? 34 + error_size)) else invalid_argument in
  let configuration := configuration_cast (at_z bs 3) in
  let active := read_le bs 4 4 in
  check! negb (negb (configuration_value configuration =? 0) && negb (active =? 0)) else invalid_argument in
  let rtt := read_le bs 8 4 in
  Ok (mk_local_diagnostics (at_z bs 0 =? 1) (at_z bs 1 =? 1) (at_z bs 2 =? 1) configuration active (if negb (rtt =? no_rtt) then Some rtt else None)
        (read_le bs 12 8) (read_le bs 20 8) (read_le bs 28 4) (slice 34 (Z.to_nat error_size) bs)).

(** ** Activity *)

Record LocalActivity := mk_activity { la_device : bytes; la_requests : list NetworkEvent }.
Fixpoint encode_events (l : list NetworkEvent) : result bytes :=
  match l with [] => Ok [] | e :: l => let* bs := encode_network_event e in let* rest := encode_events l in Ok (bs ++ rest) end.
Definition encode_local_activity (a : LocalActivity) : result bytes :=
  check! negb (len (la_requests a) >? 128) else invalid_argument in
  let* events := encode_events (la_requests a) in
  Ok (la_device a ++ z2b (len (la_requests a)) :: events).
Definition event_size : nat := 1 + network_id_size + network_device_id_size.
Fixpoint decode_events (count : nat) (bs : bytes) : result (list NetworkEvent) :=
  match count with
  | O => Ok []
  | S count =>
      let* e := decode_network_event (take event_size bs) in
      let* rest := decode_events count (drop event_size bs) in
      Ok (e :: rest)
  end.
Definition decode_local_activity (bs : bytes) : result LocalActivity :=
  check! negb (len bs <? 33) else invalid_argument in
  let count := at_z bs 32 in
  check! negb ((count >? 128) || negb (len bs =? 33 + count * Z.of_nat event_size)) else invalid_argument in
  let* events := decode_events (Z.to_nat count) (drop 33 bs) in
  Ok (mk_activity (slice 0 32 bs) events).

(** ** The encodings are read back exactly *)

Definition wf_local (m : LocalMessage) : Prop := command_cast (command_value (lm_command m)) = lm_command m.
Lemma command_cast_value raw : command_value (command_cast raw) = raw.
Proof.
  unfold command_cast. destruct (List.find _ commands) as [c|] eqn:E; [|done]. apply find_some in E as [_ E]. bool_prop. done.
Qed.
Lemma known_flags z : 0 <= z -> Z.land z (Z.lnot 3) = 0 -> z = 0 \/ z = 1 \/ z = 2 \/ z = 3.
Proof.
  intros N E. assert (X : z = Z.land z 3).
  { apply Z.bits_inj'. intros i Hi. rewrite Z.land_spec. apply (f_equal (fun w => Z.testbit w i)) in E. rewrite Z.land_spec, Z.lnot_spec, Z.bits_0 in E by done.
    destruct (Z.testbit z i), (Z.testbit 3 i); done. }
  change 3 with (Z.ones 2) in X. rewrite Z.land_ones in X by lia. pose proof (Z.mod_pos_bound z (2 ^ 2)). change (2 ^ 2) with 4 in *. lia.
Qed.
Lemma header_parts bs : 12 <= len bs -> bs = slice 0 4 bs ++ [at_ bs 4; at_ bs 5; at_ bs 6; at_ bs 7] ++ slice 8 4 bs ++ drop 12 bs.
Proof.
  intros L. unfold len in L. assert (E : drop 12 bs = slice 12 (length bs - 12) bs) by (unfold slice; rewrite take_ge; [done|rewrite length_drop; lia]).
  rewrite E. assert (F : [at_ bs 4; at_ bs 5; at_ bs 6; at_ bs 7] = slice 4 4 bs) by (rewrite !slice_cons by lia; unfold slice; by rewrite take_0).
  rewrite F, !slice_join_app by lia. rewrite slice_join. symmetry. apply slice_all. lia.
Qed.
Lemma local_message_exact bs m : decode_local_message bs = Ok m <-> wf_local m /\ encode_local_message m = Ok bs.
Proof.
  unfold decode_local_message, encode_local_message, wf_local. cbv zeta. split.
  - intros H. ok_inv H. subst m. cbn [lm_command lm_response lm_error lm_payload]. rewrite command_cast_value. split; [done|].
    rewrite !negb_true_iff, !orb_false_iff, !negb_false_iff in *. destruct G as (((L & V1) & V7) & Fl). destruct G1 as (((Vc & Fe) & Mx) & Sz). bool_prop.
    pose proof (header_parts bs ltac:(lia)) as Hb. unfold len in L, Sz. destruct (put_get_le 4 (slice 8 4 bs)) as [Pl Wl]; [apply length_slice; lia|].
    assert (Ll : len (drop 12 bs) = get_le 0 (slice 8 4 bs)) by (unfold len; rewrite length_drop; lia). rewrite Ll, Pl, Vc.
    pose proof (known_flags (at_z bs 6) (proj1 (at_z_range bs 6)) Fl) as F6.
    guard_true by (rewrite !negb_true_iff, !orb_false_iff; cbn [negb]; split_and!; [done|destruct F6 as [E|[E|[E|E]]]; by rewrite E in *|rewrite Z.gtb_ltb; apply Z.ltb_ge; lia]).
    f_equal. etransitivity; [|symmetry; exact Hb]. rewrite G0. unfold message_flags. cbn [lm_response lm_error].
    assert (B : forall i z, at_z bs i = z -> at_ bs i = z2b z) by (intros i z <-; unfold at_z; by rewrite z2b_b2z).
    rewrite (B 4%nat 1 V1), (B 5%nat _ eq_refl), (B 7%nat 0 V7). destruct F6 as [E|[E|[E|E]]]; rewrite (B 6%nat _ E), E; done.
  - intros [W H]. ok_inv H. rewrite !negb_true_iff, !orb_false_iff, !negb_false_iff in *. destruct G as ((Vc & Fe) & Mx). bool_prop. subst bs.
    set (p := lm_payload m) in *. pose proof (len_nonneg p). unfold max_local_control_payload in *.
    assert (Wp : word 4 (len p)) by (words; lia). pose proof (length_put_le 4 (len p)) as Lp.
    assert (Lq : len (put_le 4 (len p)) = 4) by (unfold len at 1; by rewrite Lp).
    assert (Ln : forall a b c d, len (local_magic ++ [a; b; c; d] ++ put_le 4 (len p) ++ p) = 12 + len p) by (intros; rewrite !len_app, Lq; change (len local_magic) with 4; change (len [a; b; c; d]) with 4; lia).
    assert (Sl : forall a b c d, slice 8 4 (local_magic ++ [a; b; c; d] ++ put_le 4 (len p) ++ p) = put_le 4 (len p)).
    { intros. rewrite (slice_skip _ _ 4) by (done || lia). rewrite (slice_skip _ _ 4) by (done || lia). by apply slice_here. }
    assert (Dr : forall a b c d, drop 12 (local_magic ++ [a; b; c; d] ++ put_le 4 (len p) ++ p) = p).
    { intros. change 12%nat with (4 + (4 + 4))%nat. rewrite <- !drop_drop. change (drop 4 (drop 4 (drop 4 (local_magic ++ [a; b; c; d] ++ put_le 4 (len p) ++ p)))) with (drop 4 (put_le 4 (len p) ++ p)). by apply drop_app_length'. }
    rewrite Ln, Sl, Dr, get_put_le by done.
    assert (At : forall a b c d, at_z (local_magic ++ [a; b; c; d] ++ put_le 4 (len p) ++ p) 4 = b2z a /\ at_z (local_magic ++ [a; b; c; d] ++ put_le 4 (len p) ++ p) 5 = b2z b /\
      at_z (local_magic ++ [a; b; c; d] ++ put_le 4 (len p) ++ p) 6 = b2z c /\ at_z (local_magic ++ [a; b; c; d] ++ put_le 4 (len p) ++ p) 7 = b2z d) by done.
    destruct (At x01 (z2b (command_value (lm_command m))) (z2b (message_flags m)) x00) as (-> & -> & -> & ->).
    unfold valid_command in Vc. bool_prop. rewrite !b2z_z2b, (Z.mod_small (command_value (lm_command m))) by lia. rewrite W.
    assert (Fl : message_flags m = 0 \/ message_flags m = 1 \/ message_flags m = 3).
    { unfold message_flags. destruct (lm_response m), (lm_error m); cbn in *; auto. done. }
    unfold valid_command. guard_true by (rewrite negb_true_iff, !orb_false_iff; split_and!; [apply Z.ltb_ge; lia|done|done|destruct Fl as [-> |[-> | ->]]; done]).
    rewrite bool_decide_true by done.
    guard_true by (rewrite negb_true_iff, !orb_false_iff, negb_false_iff, andb_true_iff, !Z.leb_le, Z.gtb_ltb, Z.ltb_ge, negb_false_iff, Z.eqb_eq; split_and!; try lia; destruct Fl as [-> |[-> | ->]]; done).
    unfold message_flags. destruct m as [c [] [] q]; done.
Qed.

(** Fields within their types and, since 2^32 - 1 means that there is no round-trip time, none of that value. *)
Definition wf_local_diagnostics (d : LocalDiagnostics) : Prop :=
  (forall raw, ld_configuration d <> unassigned_configuration raw) /\
  word 4 (ld_active_networks d) /\ (forall r, ld_rtt d = Some r -> 0 <= r < 2 ^ 32 - 1) /\ word 8 (ld_sent d) /\ word 8 (ld_received d) /\ word 4 (ld_reconnects d).
Lemma configuration_cast_value z : 0 <= z -> configuration_value (configuration_cast z) = z.
Proof. intros N. destruct z as [|p|p]; [done| |lia]. destruct p as [p|p|]; [|destruct p|]; done. Qed.

(** The fixed part: four flags and six numbers. *)
Lemma diagnostic_parts bs : 34 <= len bs ->
  bs = [at_ bs 0; at_ bs 1; at_ bs 2; at_ bs 3] ++ slice 4 4 bs ++ slice 8 4 bs ++ slice 12 8 bs ++ slice 20 8 bs ++ slice 28 4 bs ++ slice 32 2 bs ++ slice 34 (length bs - 34) bs.
Proof.
  intros L. unfold len in L.
  assert (F : [at_ bs 0; at_ bs 1; at_ bs 2; at_ bs 3] = slice 0 4 bs) by (rewrite !slice_cons by lia; unfold slice; by rewrite take_0).
  rewrite F, !slice_join_app by lia. rewrite slice_join. symmetry. apply slice_all. lia.
Qed.
Lemma read_le_parts a b c d n1 n2 n3 n4 n5 n6 e :
  word 4 n1 -> word 4 n2 -> word 8 n3 -> word 8 n4 -> word 4 n5 -> word 2 n6 ->
  let bs := [a; b; c; d] ++ put_le 4 n1 ++ put_le 4 n2 ++ put_le 8 n3 ++ put_le 8 n4 ++ put_le 4 n5 ++ put_le 2 n6 ++ e in
  len bs = 34 + len e /\ read_le bs 4 4 = n1 /\ read_le bs 8 4 = n2 /\ read_le bs 12 8 = n3 /\ read_le bs 20 8 = n4 /\ read_le bs 28 4 = n5 /\ read_le bs 32 2 = n6 /\
  drop 34 bs = e.
Proof.
  intros W1 W2 W3 W4 W5 W6 bs. unfold read_le.
  assert (Sk : forall x y k off n, length x = k -> (k <= off)%nat -> slice off n (x ++ y) = slice (off - k) n y) by apply slice_skip.
  assert (D : drop 34 bs = e).
  { unfold bs. change 34%nat with (4 + (4 + (4 + (8 + (8 + (4 + 2))))))%nat. rewrite <- !drop_drop. change (drop 4 ([a; b; c; d] ++ ?x)) with x.
    cbn [app]. cbn [drop]. rewrite !drop_app_length' by (by rewrite length_put_le). done. }
  split; [unfold bs; rewrite !len_app; unfold len; rewrite !length_put_le; cbn [length]; lia|].
  unfold bs. rewrite !(Sk [a; b; c; d] _ 4%nat) by (done || lia). cbn [Nat.sub].
  rewrite (slice_here (put_le 4 n1)) by apply length_put_le. rewrite !(Sk (put_le 4 n1) _ 4%nat) by (apply length_put_le || lia). cbn [Nat.sub].
  rewrite (slice_here (put_le 4 n2)) by apply length_put_le. rewrite !(Sk (put_le 4 n2) _ 4%nat) by (apply length_put_le || lia). cbn [Nat.sub].
  rewrite (slice_here (put_le 8 n3)) by apply length_put_le. rewrite !(Sk (put_le 8 n3) _ 8%nat) by (apply length_put_le || lia). cbn [Nat.sub].
  rewrite (slice_here (put_le 8 n4)) by apply length_put_le. rewrite !(Sk (put_le 8 n4) _ 8%nat) by (apply length_put_le || lia). cbn [Nat.sub].
  rewrite (slice_here (put_le 4 n5)) by apply length_put_le. rewrite !(Sk (put_le 4 n5) _ 4%nat) by (apply length_put_le || lia). cbn [Nat.sub].
  rewrite (slice_here (put_le 2 n6)) by apply length_put_le. rewrite !get_put_le by done. done.
Qed.
Lemma flag_byte_z b z : 0 <= z <= 1 -> b2z b = z -> b = flag_byte (z =? 1).
Proof. intros R <-. apply b2z_inj. destruct (Z.eqb_spec (b2z b) 1) as [E|N]; cbn; change (b2z x01) with 1; change (b2z x00) with 0; lia. Qed.
Lemma flag_byte_value b : b2z (flag_byte b) = if b then 1 else 0.
Proof. by destruct b. Qed.

Lemma local_diagnostics_encoded bs d : decode_local_diagnostics bs = Ok d -> wf_local_diagnostics d /\ encode_local_diagnostics d = Ok bs.
Proof.
  unfold decode_local_diagnostics. cbv zeta. intros H. ok_inv H. subst d.
  rewrite !negb_true_iff, ?orb_false_iff, ?negb_false_iff in *. destruct G as (((((L & F0) & F1) & F2) & F3) & Ci). destruct G0 as [Es Sz]. bool_prop.
  pose proof (diagnostic_parts bs ltac:(lia)) as Hb. unfold len in L, Sz.
  pose proof (at_z_range bs 0). pose proof (at_z_range bs 1). pose proof (at_z_range bs 2). pose proof (at_z_range bs 3).
  assert (P : forall off n, (off + n <= length bs)%nat -> put_le n (read_le bs off n) = slice off n bs /\ word n (read_le bs off n)).
  { intros off n B. unfold read_le. apply put_get_le. apply length_slice. lia. }
  destruct (P 4 4)%nat as [P1 W1]; [lia|]. destruct (P 8 4)%nat as [P2 W2]; [lia|]. destruct (P 12 8)%nat as [P3 W3]; [lia|].
  destruct (P 20 8)%nat as [P4 W4]; [lia|]. destruct (P 28 4)%nat as [P5 W5]; [lia|]. destruct (P 32 2)%nat as [P6 W6]; [lia|].
  set (rtt := if negb (read_le bs 8 4 =? no_rtt) then Some (read_le bs 8 4) else None).
  assert (Er : default no_rtt rtt = read_le bs 8 4) by (unfold rtt; destruct (Z.eqb_spec (read_le bs 8 4) no_rtt) as [E|]; [by rewrite E|done]).
  assert (Se : len (slice 34 (Z.to_nat (read_le bs 32 2)) bs) = read_le bs 32 2) by (unfold len; rewrite length_slice by lia; lia).
  split.
  - unfold wf_local_diagnostics. cbn [ld_configuration ld_active_networks ld_rtt ld_sent ld_received ld_reconnects]. 
    split_and!; try done; try lia.
    + intros raw E. apply (f_equal configuration_value) in E as E'. rewrite configuration_cast_value in E' by lia. cbn in E'. subst raw.
      assert (at_z bs 3 = 0 \/ at_z bs 3 = 1 \/ at_z bs 3 = 2) as [X|[X|X]] by lia; rewrite X in E; discriminate E.
    + intros r. unfold rtt, no_rtt in *. destruct (Z.eqb_spec (read_le bs 8 4) (2 ^ 32 - 1)); [done|]. intros [= <-]. words. lia.
  - unfold encode_local_diagnostics, inactive. cbn [ld_connected ld_authenticated ld_tcp_fallback ld_configuration ld_active_networks ld_rtt ld_sent ld_received ld_reconnects ld_error].
    rewrite configuration_cast_value in * by lia. rewrite Se, Er, P1, P2, P3, P4, P5, P6.
    assert (Gd : negb (at_z bs 3 =? 0) && negb (negb ((at_z bs 0 =? 1) || (at_z bs 1 =? 1) || (at_z bs 2 =? 1) || negb (read_le bs 4 4 =? 0))) = false).
    { destruct (at_z bs 3 =? 0); [done|]. cbn [negb andb] in *. rewrite !orb_false_iff, !negb_false_iff in Ci. destruct Ci as ((C0 & C1) & C2). bool_prop. by rewrite C0, C1, C2, G1. }
    rewrite Gd. guard_true by (rewrite orb_false_r, negb_true_iff, orb_false_iff, !Z.gtb_ltb, !Z.ltb_ge; lia).
    f_equal. etransitivity; [|symmetry; exact Hb]. replace (length bs - 34)%nat with (Z.to_nat (read_le bs 32 2)) by lia.
    rewrite <- (flag_byte_z (at_ bs 0) (at_z bs 0)), <- (flag_byte_z (at_ bs 1) (at_z bs 1)), <- (flag_byte_z (at_ bs 2) (at_z bs 2)) by (done || lia).
    unfold at_z. by rewrite z2b_b2z.
Qed.
Lemma local_diagnostics_exact bs d : decode_local_diagnostics bs = Ok d <-> wf_local_diagnostics d /\ encode_local_diagnostics d = Ok bs.
Proof.
  split; [apply local_diagnostics_encoded|]. intros [(Kn & W1 & Wr & W3 & W4 & W5) H]. unfold encode_local_diagnostics in H. ok_inv H.
  assert (Wc : configuration_cast (configuration_value (ld_configuration d)) = ld_configuration d) by (destruct (ld_configuration d); [done..|by exfalso; eapply Kn]).
  assert (Nc : 0 <= configuration_value (ld_configuration d)) by (destruct (ld_configuration d); [done..|by exfalso; eapply Kn]).
  rewrite negb_true_iff, !orb_false_iff in G. destruct G as ((Le & Cm) & Ia). bool_prop. pose proof (len_nonneg (ld_error d)).
  assert (W2 : word 4 (default no_rtt (ld_rtt d))) by (destruct (ld_rtt d) as [r|]; [specialize (Wr r eq_refl)|unfold no_rtt]; cbn; words; lia). assert (W6 : word 2 (len (ld_error d))) by (words; lia).
  set (f := [_; _; _; _]) in H. pose proof (read_le_parts (flag_byte (ld_connected d)) (flag_byte (ld_authenticated d)) (flag_byte (ld_tcp_fallback d)) (z2b (configuration_value (ld_configuration d)))
    _ _ _ _ _ _ (ld_error d) W1 W2 W3 W4 W5 W6) as R. fold f in R. cbv zeta in R. rewrite H in R. destruct R as (Ln & R1 & R2 & R3 & R4 & R5 & R6 & Dr).
  assert (A : at_z bs 0 = (if ld_connected d then 1 else 0) /\ at_z bs 1 = (if ld_authenticated d then 1 else 0) /\ at_z bs 2 = (if ld_tcp_fallback d then 1 else 0) /\ at_z bs 3 = configuration_value (ld_configuration d)).
  { rewrite <- H. unfold at_z, at_. cbn [f app nth]. rewrite !flag_byte_value, b2z_z2b, Z.mod_small by lia. done. }
  destruct A as (A0 & A1 & A2 & A3). unfold decode_local_diagnostics. cbv zeta. rewrite Ln, A0, A1, A2, A3, R1, R2, R3, R4, R5, R6, Wc.
  unfold inactive in Ia. set (cfg := configuration_value (ld_configuration d)) in *.
  assert (I1 : negb (cfg =? 0) && (negb ((if ld_connected d then 1 else 0) =? 0) || negb ((if ld_authenticated d then 1 else 0) =? 0) || negb ((if ld_tcp_fallback d then 1 else 0) =? 0)) = false /\
    negb (cfg =? 0) && negb (ld_active_networks d =? 0) = false).
  { destruct (cfg =? 0); [done|]. cbn [negb andb] in *. destruct (ld_connected d), (ld_authenticated d), (ld_tcp_fallback d), (ld_active_networks d =? 0); done. }
  destruct I1 as [I1 I2]. rewrite I1, I2.
  assert (B : forall b : bool, ((if b then 1 else 0) >? 1) = false) by (by intros []). rewrite !B.
  guard_true by (rewrite !orb_false_r, negb_true_iff, !orb_false_iff, Z.ltb_ge, Z.gtb_ltb, Z.ltb_ge; lia).
  guard_true by (rewrite negb_true_iff, orb_false_iff, negb_false_iff, Z.eqb_eq, Z.gtb_ltb, Z.ltb_ge; lia). cbn [negb]. f_equal.
  replace (slice 34 _ bs) with (ld_error d).
  2:{ unfold slice. rewrite Dr. rewrite take_ge; [done|]. unfold len. lia. }
  assert (O : forall b : bool, ((if b then 1 else 0) =? 1) = b) by (by intros []). rewrite !O.
  destruct d as [a b c cf n r sn rc rn e]. cbn in *. f_equal. destruct r as [r|]; cbn; [|done]. assert (Nr : r <> no_rtt) by (specialize (Wr r eq_refl); unfold no_rtt; lia). apply Z.eqb_neq in Nr. by rewrite Nr.
Qed.

(** A round-trip time of 2^32 - 1 is sent as none at all. *)
Definition without_rtt (d : LocalDiagnostics) : LocalDiagnostics :=
  mk_local_diagnostics (ld_connected d) (ld_authenticated d) (ld_tcp_fallback d) (ld_configuration d) (ld_active_networks d) None (ld_sent d) (ld_received d)
    (ld_reconnects d) (ld_error d).
Lemma local_diagnostics_rtt bs d : wf_local_diagnostics (without_rtt d) -> ld_rtt d = Some (2 ^ 32 - 1) -> encode_local_diagnostics d = Ok bs ->
  decode_local_diagnostics bs = Ok (without_rtt d).
Proof.
  intros W R H. apply local_diagnostics_exact. split; [done|]. rewrite <- H. unfold encode_local_diagnostics, inactive, without_rtt.
  cbn [ld_connected ld_authenticated ld_tcp_fallback ld_configuration ld_active_networks ld_rtt ld_sent ld_received ld_reconnects ld_error]. by rewrite R.
Qed.

Definition wf_activity (a : LocalActivity) : Prop := length (la_device a) = 32%nat /\ Forall wf_event (la_requests a).
Lemma event_length e bs : wf_event e -> encode_network_event e = Ok bs -> length bs = event_size.
Proof.
  intros (W1 & W2) H. unfold encode_network_event in H. ok_inv H. subst bs. rewrite !length_app, length_put_be, W1, W2. done.
Qed.
Lemma events_exact count bs l : length bs = (count * event_size)%nat ->
  decode_events count bs = Ok l <-> length l = count /\ Forall wf_event l /\ encode_events l = Ok bs.
Proof.
  pose proof network_results_exact as (_ & _ & Ev & _).
  revert bs l. induction count as [|count IH]; intros bs l L.
  - destruct bs; [|done]. cbn. split; [intros [= <-]; by split_and!|]. intros (Ll & _). by destruct l.
  - cbn [decode_events]. split.
    + intros H. ok_inv H. subst l. match goal with E : decode_network_event _ = Ok _ |- _ => apply Ev in E as [We Ee] end.
      match goal with E : decode_events _ _ = Ok _ |- _ => apply IH in E as (Ln & F & Er); [|rewrite length_drop; lia] end.
      cbn [length encode_events]. rewrite Ee, Er, take_drop. split_and!; [by rewrite Ln|by constructor|done].
    + intros (Ln & F & H). destruct l as [|e l]; [done|]. apply Forall_cons in F as [We F]. cbn [encode_events] in H. ok_inv H. subst bs.
      match goal with E : encode_network_event e = Ok ?b, E2 : encode_events l = Ok ?r |- _ => pose proof (event_length e b We E) as Le;
        rewrite take_app_length', drop_app_length' by done; rewrite (proj2 (Ev b e) (conj We E)); rewrite (proj2 (IH r l ltac:(rewrite length_app in L; lia))); [done|by split_and!; [injection Ln|..]] end.
Qed.
Lemma events_length l bs : Forall wf_event l -> encode_events l = Ok bs -> length bs = (length l * event_size)%nat.
Proof.
  intros F. revert bs. induction F as [|e l We F IH]; intros bs H; cbn in H; [by injection H as <-|]. ok_inv H. subst bs.
  rewrite length_app. match goal with E : encode_network_event e = Ok ?b, E2 : encode_events l = Ok ?r |- _ => rewrite (event_length e b We E), (IH r E2) end. done.
Qed.
Lemma local_activity_exact bs a : decode_local_activity bs = Ok a <-> wf_activity a /\ encode_local_activity a = Ok bs.
Proof.
  unfold decode_local_activity, encode_local_activity, wf_activity. cbv zeta. split.
  - intros H. ok_inv H. subst a. rewrite !negb_true_iff, ?orb_false_iff, ?negb_false_iff in *. destruct G0 as [Cm Sz]. bool_prop. unfold len in *.
    pose proof (at_z_range bs 32). unfold event_size in *. cbn in Sz.
    match goal with E : decode_events _ _ = Ok _ |- _ => apply events_exact in E as (Ln & F & Er); [|rewrite length_drop; unfold event_size; cbn; lia] end.
    cbn [la_device la_requests]. split; [split; [apply length_slice; lia|done]|]. unfold len. rewrite Ln, Er.
    guard_true by (rewrite negb_true_iff, Z.gtb_ltb, Z.ltb_ge; lia). f_equal. rewrite Z2Nat.id by lia. unfold at_z. rewrite z2b_b2z.
    assert (E : drop 33 bs = slice 33 (length bs - 33) bs) by (unfold slice; rewrite take_ge; [done|rewrite length_drop; lia]).
    change (at_ bs 32 :: drop 33 bs) with ([at_ bs 32] ++ drop 33 bs). rewrite E, <- slice_one, !slice_join_app, slice_join by lia. apply slice_all. lia.
  - intros [[Ld F] H]. ok_inv H. subst bs. bool_prop. match goal with E : encode_events _ = Ok ?b |- _ => pose proof (events_length _ _ F E) as Le; rename b into ev; rename E into Ee end.
    pose proof (len_nonneg (la_requests a)). unfold len in *. rewrite !length_app. cbn [length]. rewrite Ld, Le.
    assert (At : at_z (la_device a ++ z2b (Z.of_nat (length (la_requests a))) :: ev) 32 = Z.of_nat (length (la_requests a))).
    { unfold at_z, at_. rewrite app_nth2 by lia. rewrite Ld. cbn [Nat.sub nth]. rewrite b2z_z2b, Z.mod_small by lia. done. }
    rewrite At. guard_true by (rewrite negb_true_iff, Z.ltb_ge; lia).
    guard_true by (rewrite negb_true_iff, orb_false_iff, negb_false_iff, Z.eqb_eq, Z.gtb_ltb, Z.ltb_ge; unfold event_size; cbn; lia).
    assert (Dr : drop 33 (la_device a ++ z2b (Z.of_nat (length (la_requests a))) :: ev) = ev).
    { change 33%nat with (32 + 1)%nat. rewrite <- drop_drop, drop_app_length' by done. done. }
    rewrite Dr, Nat2Z.id, (proj2 (events_exact (length (la_requests a)) ev (la_requests a) Le)) by done.
    rewrite slice_here by done. by destruct a.
Qed.

(** C39: Every message codec is exact.  A request of a device to the relay (create, list, selection, member),
    a result (operation result, network list, event), a peer state with its optional policy, a peer revocation, a
    sealed key, a key publication, an encrypted packet, a forwarded packet, an access request or result, a management
    request or result (with the embedded policy, the pending devices and the audit log), a candidate exchange, a
    capability offer or selection, a message of the local pipe, the connection diagnostics, the pending join requests, a report
    on the paths and one on the virtual networks decode
    from a payload if and only if the payload is the encoding of that value with each field within its type (integers within
    their width, identifiers of their size, enumeration values by their name), so nothing the encoders refuse is accepted and no
    value has two encodings.  Two values cannot be sent and are left out of it: an access request carries its approval flag for
    the password, invitation-link and protected-network actions only, the flag of any other action being read back as false; and
    connection diagnostics with a round-trip time of exactly 2^32 - 1 are read back without one.  Only packets that pass [valid_packet] (non-zero network,
    destination, epoch and sequence, nonce bound to the sequence, 20 to 65535 bytes of ciphertext) are ever decoded;
    the texts of access requests never contain a NUL or a line break; every candidate exchange is between two
    distinct devices, lives between one and thirty seconds and names one to eight usable, pairwise distinct
    endpoints of known kinds; no payload is both an offer and a selection, and both sides
    of a negotiation compute the same selection, the highest version both ranges contain with exactly the features
    both offer, or the legacy one when the ranges are disjoint, and it can be encoded.  Encoding the paths
    refuses more than 256 peers with a length error and otherwise only states outside the
    enumerations; the networks are encoded exactly when the MTU is 576 to 9000, there are at most 256 networks with
    different non-zero ids and each address is a host of its subnet.  An error message has the class of the words it contains
    whatever their case, an authentication word deciding first; the class is always one a report can carry and has a text to show. *)
Theorem messages_exact (payload : bytes) :
  (forall r, decode_network_create_request payload = Ok r <-> encode_network_create_request r = Ok payload) /\
  (decode_network_list_request payload = Ok tt <-> encode_network_list_request = Ok payload) /\
  (forall r, decode_network_selection_request payload = Ok r <-> wf_network_selection r /\ encode_network_selection_request r = Ok payload) /\
  (forall r, decode_network_member_request payload = Ok r <-> wf_member_request r /\ encode_network_member_request r = Ok payload) /\
  (forall r, decode_network_operation_result payload = Ok r <-> wf_operation_result r /\ encode_network_operation_result r = Ok payload) /\
  (forall r, decode_network_list_result payload = Ok r <-> Forall wf_summary (networks r) /\ encode_network_list_result r = Ok payload) /\
  (forall e, decode_network_event payload = Ok e <-> wf_event e /\ encode_network_event e = Ok payload) /\
  (forall s, decode_network_peer_state payload = Ok s <-> wf_peer_state s /\ encode_network_peer_state s = Ok payload) /\
  (forall r, decode_network_peer_revocation payload = Ok r <-> wf_revocation r /\ encode_network_peer_revocation r = Ok payload) /\
  (forall e, decode_network_key_envelope payload = Ok e <-> wf_envelope e /\ encode_network_key_envelope e = Ok payload) /\
  (forall r, decode_network_key_publish_request payload = Ok r <-> Forall wf_envelope (envelopes r) /\ encode_network_key_publish_request r = Ok payload) /\
  (forall p, decode_encrypted_network_packet payload = Ok p <-> wf_packet p /\ encode_encrypted_network_packet p = Ok payload) /\
  (forall p, decode_forwarded_network_packet payload = Ok p <-> wf_forwarded p /\ encode_forwarded_network_packet p = Ok payload) /\
  (forall p, decode_encrypted_network_packet payload = Ok p -> valid_packet p = true) /\
  (forall x, decode_access_request payload = Ok x <-> wf_access_request x /\ encode_access_request x = Ok payload) /\
  (forall x, typed_access_request x -> encode_access_request x = Ok payload ->
     decode_access_request payload = Ok (if bool_decide (ar_action x ∈ approval_actions) then x else without_approval x)) /\
  (forall x, decode_access_result payload = Ok x <-> wf_access_result x /\ encode_access_result x = Ok payload) /\
  (forall q, decode_management_request payload = Ok q <-> wf_management_request q /\ encode_management_request q = Ok payload) /\
  (forall q, decode_management_result payload = Ok q <-> wf_management_result q /\ encode_management_result q = Ok payload) /\
  (forall x, decode_access_request payload = Ok x ->
     forallb plain_char (ar_text x) = true /\ forallb plain_char (ar_secret x) = true) /\
  (forall x, decode_candidates payload = Ok x <-> wf_exchange x /\ encode_candidates x = Ok payload) /\
  (forall x, is_ok (encode_candidates x) = true <-> exchange_ok x) /\
  (forall o, decode_capability_offer payload = Ok o <-> wf_offer o /\ encode_capability_offer o = Ok payload) /\
  (forall s, decode_capability_selection payload = Ok s <-> wf_selection s /\ encode_capability_selection s = Ok payload) /\
  (forall o s, ~ (decode_capability_offer payload = Ok o /\ decode_capability_selection payload = Ok s)) /\
  (forall a b s, wf_offer a -> wf_offer b -> negotiate_capabilities a b = Ok s ->
    negotiate_capabilities b a = Ok s /\ is_ok (encode_capability_selection s) = true /\ wf_selection s /\
    if legacy s
    then s = default_selection /\
         (forall v, ~ (minimum_version a <= v <= maximum_version a /\ minimum_version b <= v <= maximum_version b))
    else (minimum_version a <= wire_version s <= maximum_version a /\
          minimum_version b <= wire_version s <= maximum_version b /\
          forall v, minimum_version a <= v <= maximum_version a ->
                    minimum_version b <= v <= maximum_version b -> v <= wire_version s) /\
         (forall c, supports s c = true <->
            Z.land (offered a) (capability_bit c) <> 0 /\ Z.land (offered b) (capability_bit c) <> 0)) /\
  (forall m, decode_local_message payload = Ok m <-> wf_local m /\ encode_local_message m = Ok payload) /\
  (forall d, decode_local_diagnostics payload = Ok d <-> wf_local_diagnostics d /\ encode_local_diagnostics d = Ok payload) /\
  (forall d, wf_local_diagnostics (without_rtt d) -> ld_rtt d = Some (2 ^ 32 - 1) -> encode_local_diagnostics d = Ok payload ->
     decode_local_diagnostics payload = Ok (without_rtt d)) /\
  (forall a, decode_local_activity payload = Ok a <-> wf_activity a /\ encode_local_activity a = Ok payload) /\
  (forall v, decode_path_diagnostics payload = Ok v <-> wf_diagnostics v /\ encode_path_diagnostics v = Ok payload) /\
  (forall v, encode_path_diagnostics v = Throw length_error <-> 256 < len (pd_peers v)) /\
  (forall v, len (pd_peers v) <= 256 ->
     is_ok (encode_path_diagnostics v) = is_ok (validate_path (pd_relay v)) && forallb (fun p => is_ok (validate_path (pp_path p))) (pd_peers v)) /\
  (forall v, decode_game_diagnostics payload = Ok v <-> wf_game v /\ encode_game_diagnostics v = Ok payload) /\
  (forall v, is_ok (encode_game_diagnostics v) = true <-> game_ok v) /\
  (forall m m', map tolower m = map tolower m' -> classify_error m = classify_error m') /\
  (forall m, classify_error m = authentication_failed <->
     exists w, w ∈ [str "auth"; str "certificate"; str "credential"] /\ exists a x b, m = a ++ x ++ b /\ map tolower x = map tolower w) /\
  (forall m, classified (classify_error m)).
Proof.
  pose proof (control_messages_exact payload) as N. decompose [and] N. split_and!; try done; try (by apply diagnostics_exact).
  - intros x. apply access_request_approval.
  - intros m. apply local_message_exact.
  - intros d. apply local_diagnostics_exact.
  - intros d. apply local_diagnostics_rtt.
  - intros a. apply local_activity_exact.
Qed.

Lemma messages_exact_witness :
  let a := mk_offer 4 6 7 in let b := mk_offer 5 5 13 in
  negotiate_capabilities b a = Ok (mk_selection 5 5 false) /\ supports (mk_selection 5 5 false) peer_candidates = true /\
  classify_error (str "TLS Certificate expired") = classify_error (str "tls CERTIFICATE EXPIRED").
Proof.
  pose proof (messages_exact []) as H. do 25 apply proj2 in H. destruct H as (N & _ & _ & _ & _ & _ & _ & _ & _ & _ & C & _).
  destruct (N (mk_offer 4 6 7) (mk_offer 5 5 13) (mk_selection 5 5 false)) as (E & _ & _ & _ & F);
    [unfold wf_offer; words; cbn; lia | unfold wf_offer; words; cbn; lia | reflexivity |].
  split; [exact E|]. split; [apply F; split; discriminate|]. apply C. vm_compute. reflexivity.
Defined.
