(* ===== verification/LocalService.v ===== *)
(** * The service's answers to local requests

    apps/service/client_runtime.cpp: the handler of the local pipe of a running client ([run_runtime_impl]) and of one that waits
    for a server ([wait_for_server]), the list of pending join requests, and which configuration is used
    ([run_client]); transport/posix_control.cpp: one request of the pipe.  What the handler reads of the relay client is
    the state of [RelayClient], a call of it is answered by [lw_call]; the adapter's and the packet path's reports
    are arguments. *)
From S2P Require Import Candidates Capabilities PathDiagnostics GameDiagnostics RoutedNetwork UserAccess NetworkManagement Config LocalControl.
From S2P Require Import Prelude Wire NetworkPolicy NetworkMessages Crypto ClientCache RelayClient.

Record LocalWorld := mk_local_world {
  lw_now : Z; lw_client : Client; lw_tcp : bool; lw_call : Call -> result Reply; lw_windows : bool;
  lw_set_routing : bool -> bool -> result unit; lw_relay_path : PathStatus; lw_peer_paths : list PeerPathStatus;
  lw_rejected : Z; lw_pump_failed : bool; lw_game : GameDiagnostics; lw_rtt : option Z; lw_sent : Z; lw_received : Z; lw_reconnects : Z }.

Record LocalState := mk_local_state { requests_ : list NetworkEvent; accept_routes_ : bool; forward_ : bool; stop_requested_ : bool }.

(** ** Pending join requests *)

Definition same_request (network device : bytes) (e : NetworkEvent) : bool := bool_decide (event_network_id e = network) && bool_decide (event_device_id e = device).
Definition forget (network device : bytes) (l : list NetworkEvent) : list NetworkEvent := List.filter (fun e => negb (same_request network device e)) l.
Definition max_requests : nat := 128.
(** [set_network_event_handler]. *)
Definition note_event (e : NetworkEvent) (l : list NetworkEvent) : list NetworkEvent :=
  let l := forget (event_network_id e) (event_device_id e) l in
  if bool_decide (kind e = join_requested) then (if (length l =? max_requests)%nat then drop 1 l else l) ++ [e] else l.
Definition on_network_event (e : NetworkEvent) (s : LocalState) : LocalState :=
  mk_local_state (note_event e (requests_ s)) (accept_routes_ s) (forward_ s) (stop_requested_ s).

(** ** The running client *)

Definition L (A : Type) : Type := LocalState -> result A * LocalState.
Definition lpure {A} (r : result A) : L A := fun s => (r, s).
Definition lbind {A B} (m : L A) (k : A -> L B) : L B := fun s => match m s with (Ok a, s) => k a s | (Throw e, s) => (Throw e, s) end.
Definition lput (f : LocalState -> LocalState) : L unit := fun s => (Ok tt, f s).
Definition lget : L LocalState := fun s => (Ok s, s).
Local Notation "'let!' x := m 'in' k" := (lbind m (fun x => k))
  (at level 10, x name, m at level 100, k at level 200, format "'[v' 'let!'  x  :=  m  'in' '/' k ']'").
Local Notation "m ;; k" := (lbind m (fun _ => k)) (at level 100, right associativity).
Definition no_payload (p : bytes) : result unit := check! bool_decide (p = []) else invalid_argument in Ok tt.

(** The four bytes of [count], the lowest first. *)
Definition status_payload (w : LocalWorld) : bytes :=
  let c := lw_client w in
  [flag_byte (r_connected c); flag_byte (r_authenticated c); flag_byte (lw_tcp w); x00] ++ put_le 4 (len (cached_peer_states (lw_now w) (r_cache c))).

(** The answer of a call, of the kind the caller expects. *)
Definition operation_reply (r : Reply) : result NetworkOperationResult := match r with reply_operation x => Ok x | _ => Throw logic_error end.
Definition management_reply (r : Reply) : result ManagementResult := match r with reply_management x => Ok x | _ => Throw logic_error end.
Definition access_reply (r : Reply) : result AccessResult := match r with reply_access x => Ok x | _ => Throw logic_error end.
Definition list_reply (r : Reply) : result (NetworkResultCode * NetworkListResult) := match r with reply_list c x => Ok (c, x) | _ => Throw logic_error end.

(** A peer that has no measured path of its own gets the relay's, or none while it is offline. *)
Definition default_path (relay : PathStatus) (p : NetworkPeer) : PathStatus :=
  match signed_key p with
  | Some _ => relay
  | None => mk_path_status path_none path_stopped (ps_rtt_us relay) (ps_sent_bytes relay) (ps_received_bytes relay) connection_stopped (ps_error relay)
      (ps_sent_packets relay) (ps_received_packets relay) (ps_dropped_packets relay) (ps_lost relay) (ps_retransmitted relay) (ps_retransmittable relay) (ps_reconnects relay)
  end.
Definition known_path (network device : bytes) (p : PeerPathStatus) : bool := bool_decide (pp_network p = network) && bool_decide (pp_device p = device).
Definition add_peer (relay : PathStatus) (network : bytes) (found : list PeerPathStatus * bool) (p : NetworkPeer) : list PeerPathStatus * bool :=
  let (peers, truncated) := found in
  if existsb (known_path network (peer_device_id p)) peers then found
  else if len peers >=? max_diagnostic_peers then (peers, true)
  else (peers ++ [mk_peer_path network (peer_device_id p) (ipv4_address p) (default_path relay p)], truncated).
Definition all_paths (relay : PathStatus) (measured : list PeerPathStatus) (states : list NetworkPeerState) : list PeerPathStatus * bool :=
  fold_left (fun found st => fold_left (add_peer relay (state_network_id st)) (peers st) found) states (measured, false).
Definition path_report (w : LocalWorld) : PathDiagnostics :=
  let relay := lw_relay_path w in
  let (peers, truncated) := all_paths relay (lw_peer_paths w) (cached_peer_states (lw_now w) (r_cache (lw_client w))) in
  mk_path_diagnostics
    (mk_path_status (ps_kind relay) (ps_lifecycle relay) (ps_rtt_us relay) (ps_sent_bytes relay) (ps_received_bytes relay) (ps_reason relay)
       (if lw_pump_failed w then adapter_failed else ps_error relay) (ps_sent_packets relay) (ps_received_packets relay)
       ((ps_dropped_packets relay + lw_rejected w) mod 2 ^ 64) (ps_lost relay) (ps_retransmitted relay) (ps_retransmittable relay) (ps_reconnects relay))
    peers truncated.

(** The requests to the networks this device owns. *)
Definition activity (w : LocalWorld) (l : list NetworkEvent) : LocalActivity :=
  let device := match cached_packet_identity (lw_client w) with Some i => pi_device_id i | None => zeros network_device_id_size end in
  mk_activity device (List.filter (fun e => match cached_peer_state (lw_now w) (event_network_id e) (r_cache (lw_client w)) with
                                            | Some st => bool_decide (state_owner st = device)
                                            | None => false end) l).
Definition local_diagnostics (w : LocalWorld) : LocalDiagnostics :=
  let c := lw_client w in
  mk_local_diagnostics (r_connected c) (r_authenticated c) (lw_tcp w) configured (len (cached_peer_states (lw_now w) (r_cache c)) mod 2 ^ 32)
    (lw_rtt w) (lw_sent w) (lw_received w) (lw_reconnects w) (error_summary (r_error c)).

(** invite, approve and kick: a change that went through answers the request. *)
Definition member_operation (w : LocalWorld) (call : bytes -> bytes -> Call) (payload : bytes) : L bytes :=
  let! m := lpure (decode_network_member_request payload) in
  let! reply := lpure (lw_call w (call (member_network_id m) (member_device_id m))) in
  let! r := lpure (operation_reply reply) in
  (if bool_decide (code r = success)
   then lput (fun s => mk_local_state (forget (member_network_id m) (member_device_id m) (requests_ s)) (accept_routes_ s) (forward_ s) (stop_requested_ s))
   else lpure (Ok tt)) ;;
  lpure (encode_network_operation_result r).

Definition set_routing (w : LocalWorld) (payload : bytes) : L unit :=
  if bool_decide (payload = []) then lpure (Ok tt)
  else
    lpure (check! (len payload =? 2) && (at_z payload 0 <=? 1) && (at_z payload 1 <=? 1) else invalid_argument in Ok tt) ;;
    let routes := at_z payload 0 =? 1 in
    let gateway := at_z payload 1 =? 1 in
    lpure (check! negb (negb (lw_windows w) && gateway) else runtime_error in Ok tt) ;;
    lpure (lw_set_routing w routes gateway) ;;
    lput (fun s => mk_local_state (requests_ s) routes gateway (stop_requested_ s)).

Definition handle_command (w : LocalWorld) (c : LocalCommand) (payload : bytes) : L bytes :=
  match c with
  | cmd_status => lpure (no_payload payload) ;; lpure (Ok (status_payload w))
  | cmd_list =>
      lpure (decode_network_list_request payload) ;;
      let! reply := lpure (lw_call w call_list) in
      let! r := lpure (list_reply reply) in
      lpure (check! bool_decide (fst r = success) else runtime_error in encode_network_list_result (snd r))
  | cmd_routing_options =>
      set_routing w payload ;;
      let! s := lget in lpure (Ok [flag_byte (accept_routes_ s); flag_byte (forward_ s)])
  | cmd_network_management =>
      let! q := lpure (decode_management_request payload) in
      let! reply := lpure (lw_call w (call_manage q)) in
      let! r := lpure (management_reply reply) in lpure (encode_management_result r)
  | cmd_user_access =>
      let! q := lpure (decode_access_request payload) in
      let! reply := lpure (lw_call w (call_access q)) in
      let! r := lpure (access_reply reply) in lpure (encode_access_result r)
  | cmd_create =>
      let! q := lpure (decode_network_create_request payload) in
      let! reply := lpure (lw_call w (call_create (create_name q))) in
      let! r := lpure (operation_reply reply) in lpure (encode_network_operation_result r)
  | cmd_join | cmd_leave =>
      let! q := lpure (decode_network_selection_request payload) in
      let! reply := lpure (lw_call w (match c with cmd_join => call_join | _ => call_leave end (selection_id q))) in
      let! r := lpure (operation_reply reply) in lpure (encode_network_operation_result r)
  | cmd_invite => member_operation w call_invite payload
  | cmd_approve => member_operation w call_approve payload
  | cmd_kick => member_operation w call_kick payload
  | cmd_peers =>
      let! q := lpure (decode_network_selection_request payload) in
      match cached_peer_state (lw_now w) (selection_id q) (r_cache (lw_client w)) with
      | None => lpure (Throw runtime_error)
      | Some st => lpure (encode_network_peer_state st)
      end
  | cmd_activity => lpure (no_payload payload) ;; let! s := lget in lpure (encode_local_activity (activity w (requests_ s)))
  | cmd_stop =>
      lpure (no_payload payload) ;; lput (fun s => mk_local_state (requests_ s) (accept_routes_ s) (forward_ s) true) ;; lpure (Ok [])
  | cmd_path_diagnostics => lpure (no_payload payload) ;; lpure (encode_path_diagnostics (path_report w))
  | cmd_game_diagnostics => lpure (no_payload payload) ;; lpure (encode_game_diagnostics (lw_game w))
  | cmd_diagnostics => lpure (no_payload payload) ;; lpure (encode_local_diagnostics (local_diagnostics w))
  | unassigned_command _ => lpure (Ok [])
  end.

(** ** The client that waits for a server *)

Definition no_path : PathStatus := mk_path_status path_none path_stopped None 0 0 awaiting_relay no_error 0 0 0 None None None 0.
Definition waiting_command (credentials_bad : bool) (c : LocalCommand) (payload : bytes) : L bytes :=
  let state := if credentials_bad then invalid_credentials else unconfigured in
  match c with
  | cmd_status => lpure (no_payload payload) ;; lpure (Ok ([x00; x00; x00; z2b (configuration_value state)] ++ replicate 4 x00))
  | cmd_diagnostics =>
      lpure (no_payload payload) ;;
      lpure (encode_local_diagnostics (mk_local_diagnostics false false false state 0 None 0 0 0
        (if credentials_bad then str "Server credentials are missing or invalid" else [])))
  | cmd_list => lpure (decode_network_list_request payload) ;; lpure (encode_network_list_result (mk_list_result []))
  | cmd_activity => lpure (no_payload payload) ;; lpure (encode_local_activity (mk_activity (zeros network_device_id_size) []))
  | cmd_path_diagnostics => lpure (no_payload payload) ;; lpure (encode_path_diagnostics (mk_path_diagnostics no_path [] false))
  | cmd_game_diagnostics => lpure (no_payload payload) ;; lpure (encode_game_diagnostics (mk_game 1400 false false 0 []))
  | cmd_stop =>
      lpure (no_payload payload) ;; lput (fun s => mk_local_state (requests_ s) (accept_routes_ s) (forward_ s) true) ;; lpure (Ok [])
  | _ => lpure (Throw runtime_error)
  end.

(** Whether a relay is selected, and the configuration after an update of the file: an invalid one is ignored. *)
Definition selected (c : RuntimeConfig) : bool := negb (blank c relay_host) || negb (bool_decide (text c bootstrap_mode = str "manual")).
Definition updated_config (file : option bytes) (c : RuntimeConfig) : RuntimeConfig :=
  match (let* u := load_config file in let* _ := validate_service_config u in Ok u) with Ok u => u | Throw _ => c end.

(** ** One request of the pipe *)

(** [what] is the text of an exception. *)
Definition serve_request (what : exn -> bytes) (handler : LocalCommand -> bytes -> L bytes) (bs : bytes) (s : LocalState) : option bytes * LocalState :=
  match decode_local_message bs with
  | Throw _ => (None, s)
  | Ok m =>
      if lm_response m || lm_error m then (None, s)
      else
        match handler (lm_command m) (lm_payload m) s with
        | (r, s) =>
            let answer := match r with
                          | Ok p => mk_local (lm_command m) true false p
                          | Throw e => mk_local (lm_command m) true true (take 4096 (what e))
                          end in
            (match encode_local_message answer with Ok out => Some out | Throw _ => None end, s)
        end
  end.

(** ** The pending requests *)

Definition request_id_of (e : NetworkEvent) : bytes * bytes := (event_network_id e, event_device_id e).
Record requests_ok (l : list NetworkEvent) : Prop := mk_requests_ok {
  rk_bound : (length l <= max_requests)%nat; rk_unique : NoDup (map request_id_of l);
  rk_kinds : Forall (fun e => kind e = join_requested) l; rk_valid : Forall (fun e => wf_event e /\ is_ok (encode_network_event e) = true) l }.

Lemma sublist_filter {A} (f : A -> bool) l : sublist (List.filter f l) l.
Proof. induction l as [|a l IH]; cbn; [done|]. destruct (f a); by constructor. Qed.
Lemma map_sublist {A B} (f : A -> B) l l' : sublist l l' -> sublist (map f l) (map f l').
Proof. induction 1; cbn; by constructor. Qed.
Lemma requests_shrink l l' : requests_ok l -> sublist l' l -> requests_ok l'.
Proof.
  intros [B U K V] S. split.
  - apply sublist_length in S. lia.
  - apply (map_sublist request_id_of) in S. by eapply sublist_NoDup.
  - rewrite Forall_forall in *. intros x Hx. apply K. by eapply elem_of_sublist.
  - rewrite Forall_forall in *. intros x Hx. apply V. by eapply elem_of_sublist.
Qed.
Lemma forget_ok n d l : requests_ok l -> requests_ok (forget n d l).
Proof. intros O. by eapply requests_shrink, sublist_filter. Qed.
Lemma forget_gone n d l e : e ∈ forget n d l -> request_id_of e <> (n, d).
Proof.
  intros H [= E1 E2]. apply list_elem_of_In, filter_In in H as [_ B]. unfold same_request in B. by rewrite !bool_decide_true in B.
Qed.
Lemma note_event_ok e l : requests_ok l -> wf_event e -> is_ok (encode_network_event e) = true -> requests_ok (note_event e l).
Proof.
  intros O W V. unfold note_event. set (f := forget _ _ l). assert (Of : requests_ok f) by by apply forget_ok.
  destruct (bool_decide_reflect (kind e = join_requested)) as [K|]; [|done].
  set (g := if (length f =? max_requests)%nat then drop 1 f else f).
  assert (Sg : sublist g f) by (unfold g; destruct (_ =? _)%nat; [apply sublist_drop|done]).
  assert (Lg : (length g < max_requests)%nat).
  { unfold g. pose proof (rk_bound _ Of). destruct (Nat.eqb_spec (length f) max_requests); [rewrite length_drop|]; unfold max_requests in *; lia. }
  destruct (requests_shrink f g Of Sg) as [B U Kg Vg]. split.
  - rewrite length_app. cbn. lia.
  - rewrite map_app. apply NoDup_app. split_and!; [done| |apply NoDup_singleton]. intros x Hx Ex. apply list_elem_of_singleton in Ex as ->.
    apply list_elem_of_In, in_map_iff in Hx as (y & Ey & Hy). apply list_elem_of_In in Hy. apply (elem_of_sublist _ f) in Hy; [|done]. by apply (forget_gone _ _ _ _ Hy).
  - apply Forall_app. split; [done|by constructor].
  - apply Forall_app. split; [done|by constructor].
Qed.

(** ** What a request changes *)

Definition stays {A} (P : LocalState -> Prop) (m : L A) : Prop := forall s, P s -> P (snd (m s)).
Lemma stays_pure {A} P (r : result A) : stays P (lpure r).
Proof. by intros s. Qed.
Lemma stays_bind {A B} P (m : L A) (k : A -> L B) : stays P m -> (forall a, stays P (k a)) -> stays P (lbind m k).
Proof. intros Hm Hk s O. unfold lbind. specialize (Hm s O). destruct (m s) as [[a|e] s']; [by apply Hk|done]. Qed.
Lemma stays_put P f : (forall s, P s -> P (f s)) -> stays P (lput f).
Proof. done. Qed.
Lemma stays_get P : stays P lget.
Proof. by intros s. Qed.
Create HintDb local.
#[local] Hint Resolve stays_pure stays_bind stays_put stays_get : local.

Definition state_ok (s : LocalState) : Prop := requests_ok (requests_ s).
Lemma stays_member w call payload : stays state_ok (member_operation w call payload).
Proof.
  unfold member_operation. apply stays_bind; [apply stays_pure|]. intros m. apply stays_bind; [apply stays_pure|]. intros r. apply stays_bind; [apply stays_pure|]. intros x.
  apply stays_bind; [|intros; apply stays_pure]. case_match; [|apply stays_pure]. apply stays_put. intros s. apply forget_ok.
Qed.
Lemma stays_routing w payload : stays state_ok (set_routing w payload).
Proof. unfold set_routing. case_match; auto 8 with local. Qed.
Lemma stays_command w c payload : stays state_ok (handle_command w c payload).
Proof.
  destruct c; cbn [handle_command]; auto using stays_member, stays_routing with local.
  apply stays_bind; [apply stays_pure|]. intros q. case_match; apply stays_pure.
Qed.

(** A command that takes no payload refuses one. *)
Definition bare_commands : list LocalCommand := [cmd_status; cmd_activity; cmd_stop; cmd_path_diagnostics; cmd_game_diagnostics; cmd_diagnostics].
Lemma bare_refused w c payload s : c ∈ bare_commands -> payload <> [] -> handle_command w c payload s = (Throw invalid_argument, s).
Proof.
  intros Hc N. assert (E : no_payload payload = Throw invalid_argument) by (unfold no_payload; by rewrite bool_decide_false).
  unfold bare_commands in Hc. rewrite !elem_of_cons in Hc. destruct Hc as [->|[->|[->|[->|[->|[->|Hc]]]]]]; [..|by apply not_elem_of_nil in Hc];
    cbn [handle_command]; unfold lbind, lpure; by rewrite E.
Qed.
(** A change of the members that went through answers the request. *)
Lemma member_answered w call payload s p s' : member_operation w call payload s = (Ok p, s') ->
  exists m r, decode_network_member_request payload = Ok m /\ lw_call w (call (member_network_id m) (member_device_id m)) = Ok (reply_operation r) /\
    encode_network_operation_result r = Ok p /\
    requests_ s' = if bool_decide (code r = success) then forget (member_network_id m) (member_device_id m) (requests_ s) else requests_ s.
Proof.
  unfold member_operation, lbind, lpure. destruct (decode_network_member_request payload) as [m|] eqn:Em; [|done].
  destruct (lw_call w _) as [reply|] eqn:Er; [|done]. destruct reply as [| |r| |]; try done. cbn [operation_reply].
  destruct (bool_decide (code r = success)) eqn:C; cbn; intros [= H <-]; exists m, r; by rewrite C.
Qed.

(** ** Reports *)

Definition path_id (p : PeerPathStatus) : bytes * bytes := (pp_network p, pp_device p).
Definition listed (found : list PeerPathStatus * bool) (network device : bytes) : Prop := (network, device) ∈ map path_id (fst found) \/ snd found = true.
Record paths_ok (measured : list PeerPathStatus) (found : list PeerPathStatus * bool) : Prop := mk_paths_ok {
  po_measured : measured `prefix_of` fst found; po_bound : len (fst found) <= max_diagnostic_peers; po_unique : NoDup (map path_id (fst found)) }.

Lemma known_listed network device l : existsb (known_path network device) l = true <-> (network, device) ∈ map path_id l.
Proof.
  rewrite existsb_exists, list_elem_of_In, in_map_iff. unfold known_path, path_id. split.
  - intros (p & Hp & B). apply andb_true_iff in B as [B1 B2]. bool_prop. exists p. split; [congruence|done].
  - intros (p & [= E1 E2] & Hp). exists p. split; [done|]. by rewrite !bool_decide_true.
Qed.
Lemma add_peer_ok measured relay network found p : paths_ok measured found ->
  paths_ok measured (add_peer relay network found p) /\ listed (add_peer relay network found p) network (peer_device_id p) /\
  (forall n d, listed found n d -> listed (add_peer relay network found p) n d).
Proof.
  intros [M B U]. destruct found as [l t]. unfold add_peer. cbn [fst snd] in *. destruct (existsb _ l) eqn:E.
  { apply known_listed in E. split_and!; [done|by left|done]. }
  destruct (len l >=? max_diagnostic_peers) eqn:G; bool_prop; [split_and!; [done|by right|by right]|]. cbn [fst snd]. split_and!.
  - split; cbn [fst].
    + by apply prefix_app_r.
    + rewrite len_app, len_cons, len_nil. lia.
    + rewrite map_app. apply NoDup_app. split_and!; [done| |apply NoDup_singleton]. intros x Hx Ex. apply list_elem_of_singleton in Ex as ->.
      apply not_true_iff_false in E. apply E. by apply known_listed.
  - left. cbn. rewrite map_app, elem_of_app. right. by left.
  - intros n d [H|H]; [left|by right]. cbn. rewrite map_app, elem_of_app. by left.
Qed.
Lemma add_peers_ok measured relay network l found : paths_ok measured found ->
  let found' := fold_left (add_peer relay network) l found in
  paths_ok measured found' /\ (forall n d, listed found n d -> listed found' n d) /\ (forall p, p ∈ l -> listed found' network (peer_device_id p)).
Proof.
  revert found. induction l as [|p l IH]; intros found O; cbn; [split_and!; [done|done|]; intros p Hp; by apply not_elem_of_nil in Hp|].
  destruct (add_peer_ok measured relay network found p O) as (O1 & L1 & M1). destruct (IH _ O1) as (O2 & M2 & L2). split_and!; [done|auto|].
  intros q Hq. apply elem_of_cons in Hq as [->|Hq]; auto.
Qed.
Lemma all_paths_ok relay measured states : len measured <= max_diagnostic_peers -> NoDup (map path_id measured) ->
  paths_ok measured (all_paths relay measured states) /\
  forall st p, st ∈ states -> p ∈ peers st -> listed (all_paths relay measured states) (state_network_id st) (peer_device_id p).
Proof.
  intros B U. unfold all_paths. assert (O : paths_ok measured (measured, false)) by (split; cbn; [done|done|done]). revert O. generalize (measured, false).
  induction states as [|st states IH]; intros found O; cbn; [split; [done|]; intros st p Hst; by apply not_elem_of_nil in Hst|].
  destruct (add_peers_ok measured relay (state_network_id st) (peers st) found O) as (O1 & _ & L1). destruct (IH _ O1) as [O2 L2]. split; [done|].
  intros st' p Hst Hp. apply elem_of_cons in Hst as [->|Hst]; [|by apply L2]. clear IH L2 O2. specialize (L1 p Hp). revert O1 L1.
  generalize (fold_left (add_peer relay (state_network_id st)) (peers st) found). intros f O1 L1. revert f O1 L1.
  induction states as [|st2 states IH]; intros f O1 L1; cbn; [done|]. destruct (add_peers_ok measured relay (state_network_id st2) (peers st2) f O1) as (O2 & M2 & _). apply IH; auto.
Qed.

Lemma encode_events_ok l : Forall (fun e => wf_event e /\ is_ok (encode_network_event e) = true) l -> is_ok (encode_events l) = true.
Proof. induction 1 as [|e l [_ V] _ IH]; cbn; [done|]. destruct (encode_network_event e); [|done]. by destruct (encode_events l). Qed.
Lemma activity_answered w l : requests_ok l -> is_ok (encode_local_activity (activity w l)) = true.
Proof.
  intros O. unfold encode_local_activity, activity. cbn [la_requests la_device]. set (f := List.filter _ l).
  pose proof (requests_shrink l f O (sublist_filter _ l)) as [B _ _ V]. pose proof (encode_events_ok f V) as E.
  guard_true by (rewrite negb_true_iff, Z.gtb_ltb, Z.ltb_ge; unfold len, max_requests in *; lia). by destruct (encode_events f).
Qed.
Lemma diagnostics_answered w : is_ok (encode_local_diagnostics (local_diagnostics w)) = true.
Proof.
  unfold encode_local_diagnostics, local_diagnostics. cbn [ld_error ld_configuration configuration_value].
  guard_true by (destruct (r_error (lw_client w)); vm_compute; reflexivity). done.
Qed.
Lemma paths_answered w : len (lw_peer_paths w) <= max_diagnostic_peers -> NoDup (map path_id (lw_peer_paths w)) -> len (pd_peers (path_report w)) <= max_diagnostic_peers.
Proof.
  intros B U. unfold path_report. destruct (all_paths_ok (lw_relay_path w) (lw_peer_paths w) (cached_peer_states (lw_now w) (r_cache (lw_client w))) B U) as [[_ Bo _] _].
  destruct (all_paths _ _ _) as [l t]. exact Bo.
Qed.

(** ** The pipe *)

Lemma serve_request_answers what handler bs m s r s' : decode_local_message bs = Ok m -> lm_response m = false -> lm_error m = false ->
  handler (lm_command m) (lm_payload m) s = (r, s') ->
  (forall p, r = Ok p -> len p <= max_local_control_payload) ->
  exists out answer, serve_request what handler bs s = (Some out, s') /\ decode_local_message out = Ok answer /\ lm_command answer = lm_command m /\ lm_response answer = true /\
    lm_error answer = negb (is_ok r) /\ (forall p, r = Ok p -> lm_payload answer = p).
Proof.
  intros D R E H B. unfold serve_request. rewrite D, R, E, H. cbn [orb]. apply local_message_exact in D as [W Em]. unfold encode_local_message in Em. ok_inv Em.
  rewrite !negb_true_iff, !orb_false_iff, !negb_false_iff in G. destruct G as ((Vc & _) & _).
  set (a := match r with Ok p => _ | Throw e => _ end).
  assert (Ca : lm_command a = lm_command m /\ lm_response a = true /\ len (lm_payload a) <= max_local_control_payload).
  { unfold a. destruct r as [p|e]; cbn; (split; [done|]); (split; [done|]); [by apply B|]. unfold len. rewrite length_take. unfold max_local_control_payload. lia. }
  destruct Ca as (C1 & C2 & C3). assert (Ea : exists out, encode_local_message a = Ok out).
  { unfold encode_local_message. rewrite C1, C2, Vc. eexists.
    guard_true by (rewrite negb_true_iff, !orb_false_iff, andb_false_r, Z.gtb_ltb, Z.ltb_ge; split_and!; [done|done|lia]). done. }
  destruct Ea as [out Ea]. rewrite Ea. exists out, a. split; [done|]. split; [apply local_message_exact; split; [|done]; unfold wf_local; by rewrite C1|].
  split_and!; [done|done|by unfold a; destruct r|]. intros p ->. done.
Qed.
Lemma updated_valid file c : validate_service_config c = Ok tt -> validate_service_config (updated_config file c) = Ok tt.
Proof.
  intros V. unfold updated_config. destruct (load_config file) as [u|]; [|done]. destruct (validate_service_config u) as [[]|] eqn:E; done.
Qed.

(** C38: the service answers the user interface.  A well-formed request gets one answer, with its command, an error message when the handler threw; anything else is not
    answered and changes nothing.  The pending requests stay at most 128, unique and valid, whatever is asked and
    whatever events come, so they can always be shown; a change of the members that went through removes the request it answers.  A
    report of the paths lists every peer of every known network once, or says that it is truncated, and never exceeds its limit;
    the diagnostics are always answered.  Commands that take no payload refuse one.  A configuration file that is not
    valid never replaces a valid one. *)
Theorem local_requests_answered :
  (forall what handler bs m s r s', decode_local_message bs = Ok m -> lm_response m = false -> lm_error m = false ->
     handler (lm_command m) (lm_payload m) s = (r, s') -> (forall p, r = Ok p -> len p <= max_local_control_payload) ->
     exists out answer, serve_request what handler bs s = (Some out, s') /\ decode_local_message out = Ok answer /\ lm_command answer = lm_command m /\
       lm_response answer = true /\ lm_error answer = negb (is_ok r) /\ (forall p, r = Ok p -> lm_payload answer = p)) /\
  (forall w c payload s, state_ok s -> state_ok (snd (handle_command w c payload s))) /\
  (forall e s, state_ok s -> wf_event e -> is_ok (encode_network_event e) = true -> state_ok (on_network_event e s)) /\
  (forall w s, state_ok s -> is_ok (encode_local_activity (activity w (requests_ s))) = true /\ is_ok (encode_local_diagnostics (local_diagnostics w)) = true) /\
  (forall w call payload s p s', member_operation w call payload s = (Ok p, s') ->
     exists m r, decode_network_member_request payload = Ok m /\ lw_call w (call (member_network_id m) (member_device_id m)) = Ok (reply_operation r) /\
       encode_network_operation_result r = Ok p /\
       requests_ s' = if bool_decide (code r = success) then forget (member_network_id m) (member_device_id m) (requests_ s) else requests_ s) /\
  (forall relay measured states, len measured <= max_diagnostic_peers -> NoDup (map path_id measured) ->
     paths_ok measured (all_paths relay measured states) /\
     forall st p, st ∈ states -> p ∈ peers st -> listed (all_paths relay measured states) (state_network_id st) (peer_device_id p)) /\
  (forall w c payload s, c ∈ bare_commands -> payload <> [] -> handle_command w c payload s = (Throw invalid_argument, s)) /\
  (forall file c, validate_service_config c = Ok tt -> validate_service_config (updated_config file c) = Ok tt).
Proof.
  split_and!.
  - intros what handler bs m s r s'. apply serve_request_answers.
  - intros w c payload. apply stays_command.
  - intros e s. apply note_event_ok.
  - intros w s O. split; [by apply activity_answered|apply diagnostics_answered].
  - intros w call payload s p s'. apply member_answered.
  - intros relay measured states. apply all_paths_ok.
  - intros w c payload s. apply bare_refused.
  - intros file c. apply updated_valid.
Qed.
Definition status_request : LocalMessage := mk_local cmd_status false false [].
Definition idle : LocalState := mk_local_state [] false false false.
Definition status_bytes : bytes := match encode_local_message status_request with Ok bs => bs | Throw _ => [] end.
Lemma local_requests_answered_witness :
  (exists out answer, serve_request (fun _ => []) (waiting_command false) status_bytes idle = (Some out, idle) /\ decode_local_message out = Ok answer /\
     lm_command answer = cmd_status /\ lm_error answer = false /\ len (lm_payload answer) = 8) /\
  state_ok idle /\
  validate_service_config (updated_config (Some (str "nonsense")) default_config) = Ok tt.
Proof.
  destruct local_requests_answered as (A & _ & _ & _ & _ & _ & _ & U). split_and!.
  - destruct (A (fun _ => []) (waiting_command false) status_bytes status_request idle (Ok [x00; x00; x00; x01; x00; x00; x00; x00]) idle)
      as (out & answer & S & D & C & _ & E & P); [vm_compute; reflexivity..| |].
    + intros p [= <-]. vm_compute. discriminate.
    + exists out, answer. split_and!; [done|done|done|done|]. by rewrite (P _ eq_refl).
  - split; cbn; [unfold max_requests; lia|constructor|constructor|constructor].
  - apply U. vm_compute. reflexivity.
Defined.
