(* ===== verification/LocalCandidates.v ===== *)
(** * The candidates of this device

    p2p/local_candidates.hpp and .cpp: which addresses of its interfaces a device offers a peer, in which order;
    and [discover_stun_endpoint] of p2p/stun.cpp over the datagrams that arrive in time.  The list of
    interfaces is the operating system's. *)
From stdpp Require Import sorting.
From S2P Require Import Prelude Wire Ipv4 RelayStore Candidates Stun.

Record InterfaceAddress := mk_interface {
  if_name : bytes; if_ipv4 : Z; if_index : Z; if_up : bool; if_loopback : bool; if_tunnel : bool }.
#[global] Instance InterfaceAddress_eq_dec : EqDecision InterfaceAddress.
Proof. solve_decision. Defined.
Record ExcludedSubnet := mk_excluded { ex_address : Z; ex_prefix : Z }.

(** Whether an excluded subnet holds the address; every one is looked at. *)
Fixpoint excludes (l : list ExcludedSubnet) (ipv4 : Z) : result bool :=
  match l with
  | [] => Ok false
  | s :: l =>
      check! negb (ex_prefix s >? 32) else invalid_argument in
      let mask := ipv4_mask (ex_prefix s) in
      let* rest := excludes l ipv4 in
      Ok ((Z.land ipv4 mask =? Z.land (ex_address s) mask) || rest)
  end.

Definition private_ipv4 (a : Z) : bool :=
  (Z.shiftr a 24 =? 10) || (Z.land a 0xfff00000 =? 0xac100000) || (Z.land a 0xffff0000 =? 0xc0a80000).
Definition host_priority (i : InterfaceAddress) : Z :=
  let preference := if if_loopback i then 100 else if private_ipv4 (if_ipv4 i) then 126 else 120 in
  Z.lor (Z.lor (Z.shiftl preference 24) (Z.shiftl (65535 - Z.min (if_index i) 65535) 8)) 255.

Fixpoint gather (l : list InterfaceAddress) (port : Z) (excluded : list ExcludedSubnet) (loopback : bool) (seen : list Endpoint) : result (list Candidate) :=
  match l with
  | [] => Ok []
  | i :: l =>
      let e := mk_endpoint (if_ipv4 i) port in
      if negb (if_up i) || if_tunnel i || (negb loopback && if_loopback i) || negb (usable_endpoint e loopback) then gather l port excluded loopback seen
      else
        let* skip := excludes excluded (if_ipv4 i) in
        if skip || bool_decide (e ∈ seen) then gather l port excluded loopback seen
        else
          let* rest := gather l port excluded loopback (e :: seen) in
          Ok (mk_candidate e host (host_priority i) :: rest)
  end.
(** [std::sort] by descending priority, then by endpoint; no two endpoints are equal. *)
Definition candidate_key (c : Candidate) : list Z := [- priority c; ep_ipv4 (endpoint c); ep_port (endpoint c)].
Definition gather_local_candidates (interfaces : list InterfaceAddress) (port : Z) (excluded : list ExcludedSubnet) (loopback : bool)
    : result (list Candidate) :=
  let* l := gather interfaces port excluded loopback [] in
  Ok (take (Z.to_nat max_candidates) (order_by candidate_key l)).

(** The first answer of [server] among the datagrams received before the deadline; [sent]: the request left. *)
Fixpoint first_answer (server : Endpoint) (t : bytes) (received : list (Endpoint * bytes)) : option Candidate :=
  match received with
  | [] => None
  | (source, bs) :: received => match stun_answer server source bs t with Some c => Some c | None => first_answer server t received end
  end.
Definition discover_stun_endpoint (server : Endpoint) (timeout : Z) (draw : option bytes) (sent : bool) (received : list (Endpoint * bytes))
    : result (option Candidate) :=
  if negb (usable_endpoint server false) || (timeout <=? 0) then Ok None
  else match draw with
       | None => Throw runtime_error
       | Some t => Ok (if sent then first_answer server t received else None)
       end.

(** ** What is offered *)

Definition offered (interfaces : list InterfaceAddress) (port : Z) (excluded : list ExcludedSubnet) (loopback : bool) (c : Candidate) : Prop :=
  exists i, i ∈ interfaces /\ if_up i = true /\ if_tunnel i = false /\ (if_loopback i = true -> loopback = true) /\
    endpoint c = mk_endpoint (if_ipv4 i) port /\ usable_endpoint (endpoint c) loopback = true /\ cand_kind c = host /\ priority c = host_priority i /\
    excludes excluded (if_ipv4 i) = Ok false.

Lemma host_priority_nonzero i : host_priority i <> 0.
Proof.
  unfold host_priority. intros H. apply (f_equal (fun z => Z.testbit z 0)) in H. rewrite Z.lor_spec in H. change (Z.testbit 255 0) with true in H.
  rewrite orb_true_r in H. by rewrite Z.bits_0 in H.
Qed.
Lemma usable_loopback e loopback : usable_endpoint e loopback = true -> usable_endpoint e true = true.
Proof. unfold usable_endpoint. rewrite !andb_true_iff. intros (((((? & ?) & ?) & _) & ?) & ?). by split_and!. Qed.
Lemma gather_spec l port excluded loopback : forall seen cs, gather l port excluded loopback seen = Ok cs ->
  Forall (offered l port excluded loopback) cs /\ NoDup (map endpoint cs) /\ (forall c, c ∈ cs -> endpoint c ∉ seen).
Proof.
  induction l as [|i l IH]; intros seen cs H; cbn [gather] in H.
  { apply Ok_inj in H as <-. split_and!; [constructor..|]. intros c Hc. by apply elem_of_nil in Hc. }
  assert (M : forall cs, Forall (offered l port excluded loopback) cs -> Forall (offered (i :: l) port excluded loopback) cs).
  { intros cs0 F. eapply Forall_impl; [exact F|]. intros c (j & Hj & R). exists j. split; [by right|done]. }
  destruct (_ || _) eqn:G in H; [destruct (IH _ _ H) as (A & B & D); split_and!; auto|].
  destruct (excludes excluded (if_ipv4 i)) as [skip|] eqn:X; [|done]. destruct (skip || _) eqn:K in H; [destruct (IH _ _ H) as (A & B & D); split_and!; auto|].
  destruct (gather l port excluded loopback _) as [rest|] eqn:E; [|done]. apply Ok_inj in H as <-. destruct (IH _ _ E) as (A & B & D).
  bool_prop. split_and!.
  - constructor; [|by apply M]. exists i. split_and!; try done; [left| |by subst skip]. intros L. destruct loopback; [done|]. by rewrite L in *.
  - cbn. apply NoDup_cons. split; [|done]. intros Hin. apply list_elem_of_fmap in Hin as (c & Ec & Hc). apply (D c Hc). rewrite <- Ec. left.
  - intros c Hc. apply elem_of_cons in Hc as [->|Hc]; [done|]. intros Hs. apply (D c Hc). by right.
Qed.

(** Local candidates are valid for an exchange: at most eight distinct usable endpoints with a priority, each of an interface
    that is up, is no tunnel and lies in no excluded subnet, best first. *)
Lemma local_candidates_valid interfaces port excluded loopback l : gather_local_candidates interfaces port excluded loopback = Ok l ->
  len l <= max_candidates /\ validate_candidates [] l = Ok tt /\ Forall (offered interfaces port excluded loopback) l /\
  StronglySorted (fun a b => key_le (candidate_key a) (candidate_key b) = true) l.
Proof.
  unfold gather_local_candidates. destruct (gather _ _ _ _ _) as [cs|] eqn:E; [|done]. intros H. apply Ok_inj in H as <-.
  destruct (gather_spec _ _ _ _ _ _ E) as (F & N & _). set (o := order_by candidate_key cs). pose proof (order_by_perm candidate_key cs) as P.
  assert (F' : Forall (offered interfaces port excluded loopback) (take (Z.to_nat max_candidates) o)).
  { apply Forall_take. unfold o. by rewrite P. }
  split_and!; [|apply validate_candidates_spec; split_and!| |].
  - unfold len. rewrite length_take. unfold max_candidates. lia.
  - eapply Forall_impl; [exact F'|]. intros c (i & _ & _ & _ & _ & Ee & U & K & Pr & _). split_and!; [by eapply usable_loopback|rewrite Pr; apply host_priority_nonzero|by left].
  - rewrite <- firstn_map. apply (sublist_NoDup _ (map endpoint o)); [unfold o; by rewrite P|apply sublist_take].
  - intros c _. apply not_elem_of_nil.
  - exact F'.
  - pose proof (order_by_sorted candidate_key cs) as S. fold o in S. rewrite <- (take_drop (Z.to_nat max_candidates) o) in S. by apply StronglySorted_app_1_l in S.
Qed.
