(* ===== verification/DirectQuic.v ===== *)
(** * The direct connection to a peer

    p2p/direct_quic.hpp and .cpp: the QUIC connections two members open to each other, the signed exchange that
    authenticates them and the packets they carry.  Every call and callback takes the mutex, so each is one step; a
    connection is named by its place in [connections], which only grows until [stop] clears it.  MsQuic's answers (whether
    a handle opens, whether a buffer is taken), its statistics, the clock and the nonces drawn are arguments; the
    certificate is left out. *)
From S2P Require Import Connectivity Limits ForwardingQuota QuicSend Candidates RoutedNetwork Punch PathDiagnostics PathQuality.
From S2P Require Import Prelude Wire Codec StreamDecoder NetworkPolicy NetworkMessages PacketMessages Crypto Handshake.

Inductive PacketSendResult := accepted | unavailable | backpressure | invalid_packet.
#[global] Instance PacketSendResult_eq_dec : EqDecision PacketSendResult.
Proof. solve_decision. Defined.

Record DirectQuicOptions := mk_direct_options {
  o_binding : PeerBinding; o_peer_key : SignedDeviceKey; o_local_ipv4 : Z; o_peer_ipv4 : Z; o_local_port : Z }.

Record Peering := mk_peering {
  c_stream : bool; c_outgoing : bool; c_hello : bool; c_proof : bool; c_authorized : bool; c_closed : bool;
  c_nonce : bytes; c_peer_nonce : option bytes; c_datagram_size : Z; c_decoder : StreamDecoder; c_sends : Sends; c_rate : ControlRateLimit }.

Record Direct := mk_direct {
  dq_connections : list Peering; dq_started : bool; dq_stopping : bool; dq_lease_valid : bool; dq_bound_port : Z;
  dq_sent : Z; dq_received : Z; dq_dropped : Z; dq_sent_bytes : Z; dq_received_bytes : Z }.

Definition set_c_stream x (c : Peering) : Peering :=
  mk_peering x (c_outgoing c) (c_hello c) (c_proof c) (c_authorized c) (c_closed c) (c_nonce c) (c_peer_nonce c) (c_datagram_size c) (c_decoder c) (c_sends c) (c_rate c).
Definition set_c_hello (c : Peering) : Peering :=
  mk_peering (c_stream c) (c_outgoing c) true (c_proof c) (c_authorized c) (c_closed c) (c_nonce c) (c_peer_nonce c) (c_datagram_size c) (c_decoder c) (c_sends c) (c_rate c).
Definition set_c_proof (c : Peering) : Peering :=
  mk_peering (c_stream c) (c_outgoing c) (c_hello c) true (c_authorized c) (c_closed c) (c_nonce c) (c_peer_nonce c) (c_datagram_size c) (c_decoder c) (c_sends c) (c_rate c).
Definition set_c_authorized x (c : Peering) : Peering :=
  mk_peering (c_stream c) (c_outgoing c) (c_hello c) (c_proof c) x (c_closed c) (c_nonce c) (c_peer_nonce c) (c_datagram_size c) (c_decoder c) (c_sends c) (c_rate c).
Definition set_c_closed (c : Peering) : Peering :=
  mk_peering (c_stream c) (c_outgoing c) (c_hello c) (c_proof c) (c_authorized c) true (c_nonce c) (c_peer_nonce c) (c_datagram_size c) (c_decoder c) (c_sends c) (c_rate c).
Definition set_c_peer_nonce x (c : Peering) : Peering :=
  mk_peering (c_stream c) (c_outgoing c) (c_hello c) (c_proof c) (c_authorized c) (c_closed c) (c_nonce c) (Some x) (c_datagram_size c) (c_decoder c) (c_sends c) (c_rate c).
Definition set_c_datagram_size x (c : Peering) : Peering :=
  mk_peering (c_stream c) (c_outgoing c) (c_hello c) (c_proof c) (c_authorized c) (c_closed c) (c_nonce c) (c_peer_nonce c) x (c_decoder c) (c_sends c) (c_rate c).
Definition set_c_decoder x (c : Peering) : Peering :=
  mk_peering (c_stream c) (c_outgoing c) (c_hello c) (c_proof c) (c_authorized c) (c_closed c) (c_nonce c) (c_peer_nonce c) (c_datagram_size c) x (c_sends c) (c_rate c).
Definition set_c_sends x (c : Peering) : Peering :=
  mk_peering (c_stream c) (c_outgoing c) (c_hello c) (c_proof c) (c_authorized c) (c_closed c) (c_nonce c) (c_peer_nonce c) (c_datagram_size c) (c_decoder c) x (c_rate c).
Definition set_c_rate x (c : Peering) : Peering :=
  mk_peering (c_stream c) (c_outgoing c) (c_hello c) (c_proof c) (c_authorized c) (c_closed c) (c_nonce c) (c_peer_nonce c) (c_datagram_size c) (c_decoder c) (c_sends c) x.

Definition set_connections l (d : Direct) : Direct :=
  mk_direct l (dq_started d) (dq_stopping d) (dq_lease_valid d) (dq_bound_port d) (dq_sent d) (dq_received d) (dq_dropped d) (dq_sent_bytes d) (dq_received_bytes d).
Definition set_lease x (d : Direct) : Direct :=
  mk_direct (dq_connections d) (dq_started d) (dq_stopping d) x (dq_bound_port d) (dq_sent d) (dq_received d) (dq_dropped d) (dq_sent_bytes d) (dq_received_bytes d).
Definition set_started port (d : Direct) : Direct :=
  mk_direct (dq_connections d) true (dq_stopping d) (dq_lease_valid d) port (dq_sent d) (dq_received d) (dq_dropped d) (dq_sent_bytes d) (dq_received_bytes d).
Definition count_sent size (d : Direct) : Direct :=
  mk_direct (dq_connections d) (dq_started d) (dq_stopping d) (dq_lease_valid d) (dq_bound_port d)
    ((dq_sent d + 1) mod 2 ^ 64) (dq_received d) (dq_dropped d) ((dq_sent_bytes d + size) mod 2 ^ 64) (dq_received_bytes d).
Definition count_received size (d : Direct) : Direct :=
  mk_direct (dq_connections d) (dq_started d) (dq_stopping d) (dq_lease_valid d) (dq_bound_port d)
    (dq_sent d) ((dq_received d + 1) mod 2 ^ 64) (dq_dropped d) (dq_sent_bytes d) ((dq_received_bytes d + size) mod 2 ^ 64).
Definition count_dropped (d : Direct) : Direct :=
  mk_direct (dq_connections d) (dq_started d) (dq_stopping d) (dq_lease_valid d) (dq_bound_port d)
    (dq_sent d) (dq_received d) ((dq_dropped d + 1) mod 2 ^ 64) (dq_sent_bytes d) (dq_received_bytes d).

(** What leaves: bytes on a connection's stream or as a datagram, a packet for the receive handler, a shutdown. *)
Inductive direct_output :=
| put_bytes (i : nat) (datagram : bool) (bs : bytes) | deliver (p : ForwardedNetworkPacket) | shut (i : nat).

(** Whether MsQuic takes a buffer, whether the receive handler returns, and the clock. *)
Record DirectWorld := mk_direct_world { w_taken : bytes -> bool; w_handled : ForwardedNetworkPacket -> bool; w_now : Z }.

(** ** Calls *)

Definition D (A : Type) : Type := Direct -> result A * Direct * list direct_output.
Definition dret {A} (a : A) : D A := fun d => (Ok a, d, []).
Definition dpure {A} (r : result A) : D A := fun d => (r, d, []).
Definition dbind {A B} (m : D A) (k : A -> D B) : D B := fun d =>
  match m d with
  | (Ok a, d, l) => match k a d with (r, d, l') => (r, d, l ++ l') end
  | (Throw e, d, l) => (Throw e, d, l)
  end.
Local Notation "'let!' x := m 'in' k" := (dbind m (fun x => k))
  (at level 10, x name, m at level 100, k at level 200, format "'[v' 'let!'  x  :=  m  'in' '/' k ']'").
Local Notation "m ;; k" := (dbind m (fun _ => k)) (at level 100, right associativity).
Definition dget : D Direct := fun d => (Ok d, d, []).
Definition dput (f : Direct -> Direct) : D unit := fun d => (Ok tt, f d, []).
Definition demit (x : direct_output) : D unit := fun d => (Ok tt, d, [x]).
Definition dcheck (b : bool) : D unit := if b then dret tt else dpure (Throw runtime_error).
Fixpoint dfor {A} (l : list A) (f : A -> D unit) : D unit := match l with [] => dret tt | x :: l => f x ;; dfor l f end.
Definition dconn (i : nat) : D Peering := fun d => (match dq_connections d !! i with Some c => Ok c | None => Throw logic_error end, d, []).
Definition dalter (i : nat) (f : Peering -> Peering) : D unit := dput (fun d => set_connections (alter f i (dq_connections d)) d).

Section Direct.
Context {C : Crypto} (identity : bytes) (o : DirectQuicOptions).

(** The constructor: the conditions up to the first that fails. *)
Definition direct_authorized : result bool :=
  let b := o_binding o in
  let* id := identity_device_id identity in
  if negb (bool_decide (id = b_local_device b)) then Ok false
  else
    let* verified := verify_signed_device_key (o_peer_key o) (b_peer_device b) in
    Ok (verified && bool_decide (encryption_public_key (o_peer_key o) = b_peer_session b) && negb (b_key_epoch b =? 0) &&
        negb (b_local_generation b =? 0) && negb (b_peer_generation b =? 0) && negb (o_local_ipv4 o =? 0) && negb (o_peer_ipv4 o =? 0) &&
        negb (o_local_ipv4 o =? o_peer_ipv4 o)).
Definition new_direct : result Direct :=
  let* ok := direct_authorized in
  check! ok else invalid_argument in
  Ok (mk_direct [] false false false 0 0 0 0 0 0).

(** A connection draws its nonce when it is made. *)
Definition new_peering (outgoing : bool) (random : option bytes) : result Peering :=
  match random with
  | None => Throw runtime_error
  | Some nonce =>
      let* s := new_sends default_queue_limits in
      let* r := make_rate_limit 32 in
      Ok (mk_peering false outgoing false false false false nonce None 0 (mk_decoder [] 0) s r)
  end.

Definition initiates : bool := bytes_lt (b_local_device (o_binding o)) (b_peer_device (o_binding o)).
Definition listens : bool := bytes_lt (b_peer_device (o_binding o)) (b_local_device (o_binding o)).

(** The first authorized connection of the wanted direction, else the last authorized one. *)
Fixpoint choose (i : nat) (fallback : option nat) (l : list Peering) : option nat :=
  match l with
  | [] => fallback
  | c :: l =>
      if c_authorized c && negb (c_closed c) then (if Bool.eqb (c_outgoing c) initiates then Some i else choose (S i) (Some i) l)
      else choose (S i) fallback l
  end.
Definition selected (d : Direct) : option nat := choose 0 None (dq_connections d).

(** ** Lifecycle *)

Definition stop (d : Direct) : Direct :=
  if dq_stopping d then d
  else mk_direct [] false true (dq_lease_valid d) (dq_bound_port d) (dq_sent d) (dq_received d) (dq_dropped d) (dq_sent_bytes d) (dq_received_bytes d).
(** The source sets [stopping], lets the mutex go while MsQuic closes the handles, and then clears the list; a callback that
    runs in between finds [stopping] set and only drops, so the two halves are one step here.
    [bound] is the port MsQuic gives, or its failure. *)
Definition start (bound : result Z) : D unit :=
  let! d := dget in
  if dq_started d then dret tt
  else
    dcheck (dq_lease_valid d && negb (dq_stopping d)) ;;
    match bound with Ok port => dput (set_started port) | Throw e => dput stop ;; dpure (Throw e) end.
Definition synchronize (snapshot : NetworkSnapshot) : D unit :=
  let! valid := dpure (peer_binding_authorized (o_binding o) (o_peer_key o) (o_local_ipv4 o) (o_peer_ipv4 o) snapshot) in
  dput (set_lease valid) ;;
  if (valid : bool) then dret tt
  else dput (fun d => set_connections (map (set_c_authorized false) (dq_connections d)) d) ;; dput stop.
(** [opened]: the handle is there; [configured]: it is bound and starts. *)
Definition connect (endpoint : Endpoint) (random : option bytes) (opened configured : bool) : D unit :=
  let! d := dget in
  if listens || negb (dq_started d) || dq_stopping d || negb (usable_endpoint endpoint false) || (len (dq_connections d) >=? 8) ||
     bool_decide (is_Some (selected d)) then dret tt
  else
    let! c := dpure (new_peering true random) in
    dcheck opened ;;
    let i := length (dq_connections d) in
    dput (fun d => set_connections (dq_connections d ++ [c]) d) ;;
    if configured then dret tt else dalter i set_c_closed ;; demit (shut i) ;; dpure (Throw runtime_error).
(** NEW_CONNECTION of the listener. *)
Definition accept (random : option bytes) (configured : bool) : D unit :=
  let! d := dget in
  if dq_stopping d || (len (dq_connections d) >=? 8) then dret tt
  else
    match new_peering false random with
    | Throw _ => dret tt
    | Ok c => dput (fun d => set_connections (dq_connections d ++ [if configured then c else set_c_closed c]) d)
    end.

(** ** The exchange *)

Definition output (w : DirectWorld) (i : nat) (bs : bytes) (datagram control : bool) : D bool :=
  let! c := dconn i in
  let (status, s) := submit (len bs) control true (w_taken w bs) (c_sends c) in
  dalter i (set_c_sends s) ;;
  if quic_succeeded status then demit (put_bytes i datagram bs) ;; dret true else dret false.
(** A control frame on the stream; the caller throws when it cannot be sent. *)
Definition put_frame (w : DirectWorld) (i : nat) (f : Frame) : D unit :=
  let! bs := dpure (encode_frame f) in
  let! ok := output w i bs false true in dcheck ok.
Definition hello_frame (nonce : bytes) : Frame := mk_frame client_hello 0 (encode_binding (o_binding o) ++ nonce).
Definition hello (w : DirectWorld) (i : nat) : D unit :=
  let! c := dconn i in
  if c_hello c || negb (c_stream c) then dret tt
  else dalter i set_c_hello ;; put_frame w i (hello_frame (c_nonce c)).
Definition proof (w : DirectWorld) (i : nat) : D unit :=
  let! c := dconn i in
  if c_proof c then dret tt
  else
    match c_peer_nonce c with
    | None => dret tt
    | Some theirs =>
        dalter i set_c_proof ;;
        let! signature := dpure (sign_peer_binding identity (o_binding o) (c_nonce c) theirs) in
        put_frame w i (mk_frame client_auth 0 signature)
    end.
Definition ours (p : EncryptedNetworkPacket) (address : Z) : bool :=
  bool_decide (network_id p = b_network_id (o_binding o)) && (key_epoch p =? b_key_epoch (o_binding o)) && (destination_ipv4 p =? address).
Definition data (w : DirectWorld) (i : nat) (bs : bytes) : D unit :=
  let! c := dconn i in
  let! d := dget in
  if negb (c_authorized c) || dq_stopping d || negb (dq_lease_valid d) then dput count_dropped
  else
    let! p := dpure (decode_encrypted_network_packet bs) in
    if negb (ours p (o_local_ipv4 o)) then dput count_dropped
    else
      dput (count_received (len bs)) ;;
      let forwarded := mk_forwarded (b_peer_device (o_binding o)) p in
      demit (deliver forwarded) ;; dcheck (w_handled w forwarded).
(** The nonce, and the rest of the payload. *)
Definition read_hello (bs : bytes) : result (bytes * BinaryReader.t) :=
  let* (binding, r) := BinaryReader.bytes_ 168 bs in
  let* b := decode_binding binding in
  check! bool_decide (b = reversed (o_binding o)) else runtime_error in
  BinaryReader.array 32 r.
Definition read_signature (bs : bytes) : result bytes :=
  let* (signature, r) := BinaryReader.array 64 bs in
  let* _ := BinaryReader.finish r in
  Ok signature.
Definition on_frame (w : DirectWorld) (i : nat) (f : Frame) : D unit :=
  let! d := dget in
  dcheck (dq_lease_valid d && negb (dq_stopping d)) ;;
  dcheck (request_id f =? 0) ;;
  if bool_decide (type_ f = network_packet_send) then data w i (payload f)
  else
    let! c := dconn i in
    let (allowed, rate) := ForwardingQuota.allow (c_rate c) (w_now w) in
    dalter i (set_c_rate rate) ;;
    dcheck allowed ;;
    match type_ f with
    | client_hello =>
        dcheck (bool_decide (c_peer_nonce c = None)) ;;
        let! read := dpure (read_hello (payload f)) in
        dalter i (set_c_peer_nonce (fst read)) ;;
        dpure (BinaryReader.finish (snd read)) ;;
        hello w i ;; proof w i
    | client_auth =>
        let! signature := dpure (read_signature (payload f)) in
        dcheck (negb (c_authorized c)) ;;
        match c_peer_nonce c with
        | None => dpure (Throw runtime_error)
        | Some theirs =>
            dcheck (c_proof c) ;;
            let! valid := dpure (verify_peer_binding (o_peer_key o) (reversed (o_binding o)) theirs (c_nonce c) signature) in
            dcheck valid ;;
            dalter i (set_c_authorized true)
        end
    | _ => dpure (Throw runtime_error)
    end.

(** ** Callbacks *)

(** An exception revokes the connection and shuts it down. *)
Definition or_shut (i : nat) (m : D unit) : D unit := fun d =>
  match m d with
  | (Ok _, d, l) => (Ok tt, d, l)
  | (Throw _, d, l) => (Ok tt, set_connections (alter (set_c_authorized false) i (dq_connections d)) (count_dropped d), l ++ [shut i])
  end.
(** [opened]: the stream opens; [running]: it starts. *)
Definition on_connected (w : DirectWorld) (i : nat) (opened running : bool) : D unit :=
  or_shut i (
    let! c := dconn i in
    let! d := dget in
    if c_outgoing c && negb (dq_stopping d) then dcheck opened ;; dalter i (set_c_stream true) ;; dcheck running ;; hello w i
    else dret tt).
Definition on_peer_stream (i : nat) : D unit :=
  let! d := dget in
  let! c := dconn i in
  if dq_stopping d || c_closed c then dret tt
  else or_shut i (dcheck (negb (c_outgoing c || c_stream c)) ;; dalter i (set_c_stream true)).
Definition on_datagram (w : DirectWorld) (i : nat) (bs : bytes) : D unit := or_shut i (data w i bs).
Definition stream_limit : Z := 128 * 1024.
Definition decode_at (i : nat) (bs : bytes) : D (list Frame) :=
  let! c := dconn i in
  match default (Throw runtime_error, c_decoder c) (push (c_decoder c) bs) with
  | (r, decoder) => dalter i (set_c_decoder decoder) ;; dpure r
  end.
Definition on_buffer (w : DirectWorld) (i : nat) (bs : bytes) : D unit :=
  let! frames := decode_at i bs in
  dfor frames (on_frame w i) ;;
  let! c := dconn i in dcheck (negb (buffered_size (c_decoder c) >? stream_limit)).
Definition on_receive (w : DirectWorld) (i : nat) (total : Z) (buffers : list bytes) : D unit :=
  or_shut i (
    let! d := dget in
    if dq_stopping d then dret tt else dcheck (negb (total >? stream_limit)) ;; dfor buffers (on_buffer w i)).
Definition on_complete (i k : nat) : D unit := dalter i (fun c => set_c_sends (complete_send k (c_sends c)) c).

(** ** The packet path *)

Definition is_authenticated (d : Direct) : bool := negb (dq_stopping d) && dq_lease_valid d && bool_decide (is_Some (selected d)).
Definition send (w : DirectWorld) (p : EncryptedNetworkPacket) : D PacketSendResult :=
  let! d := dget in
  match selected d with
  | None => dret unavailable
  | Some i =>
      if dq_stopping d || negb (dq_lease_valid d) then dret unavailable
      else if negb (ours p (o_peer_ipv4 o)) then dret invalid_packet
      else
        let! bs := dpure (encode_encrypted_network_packet p) in
        let! c := dconn i in
        let datagram := negb (c_datagram_size c =? 0) && (len bs <=? c_datagram_size c) in
        let! out := dpure (if datagram then Ok bs else encode_frame (mk_frame network_packet_send 0 bs)) in
        let! ok := output w i out datagram false in
        if (ok : bool) then dput (count_sent (len bs)) ;; dret accepted else dput count_dropped ;; dret backpressure
  end.

(** What MsQuic reports of the selected connection: round trip, packets sent, suspected and spuriously lost, retransmittable. *)
Record Statistics := mk_statistics { st_rtt : Z; st_sent : Z; st_suspected : Z; st_spurious : Z; st_retransmittable : Z }.
Definition st_lost (st : Statistics) : Z := if st_suspected st >=? st_spurious st then st_suspected st - st_spurious st else 0.
Definition direct_status (stats : option Statistics) (d : Direct) : PathStatus :=
  let c := bool_decide (is_Some (selected d)) in
  let stats := if c then stats else None in
  mk_path_status (if c then direct_quic else path_none)
    (if c then path_authenticated else if dq_started d then path_connecting else path_stopped) (st_rtt <$> stats) (dq_sent_bytes d) (dq_received_bytes d)
    (if c then direct_ready else direct_unreachable) no_error (dq_sent d) (dq_received d) (dq_dropped d)
    (st_lost <$> stats) None (st_retransmittable <$> stats) 0.
Definition quality (stats : option Statistics) (d : Direct) : QualitySample :=
  match selected d with
  | None => mk_quality false None 0 0
  | Some _ =>
      if dq_stopping d || negb (dq_lease_valid d) then mk_quality false None 0 0
      else match stats with Some st => mk_quality true (Some (st_rtt st)) (st_sent st) (st_lost st) | None => mk_quality true None 0 0 end
  end.

(** ** Everything that can happen *)

Inductive direct_event :=
| de_synchronize (snapshot : NetworkSnapshot) | de_start (bound : result Z)
| de_connect (endpoint : Endpoint) (random : option bytes) (opened configured : bool) | de_accept (random : option bytes) (configured : bool)
| de_stop | de_send (w : DirectWorld) (p : EncryptedNetworkPacket) | de_connected (w : DirectWorld) (i : nat) (opened running : bool) | de_peer_stream (i : nat)
| de_datagram_size (i : nat) (n : Z) | de_datagram (w : DirectWorld) (i : nat) (bs : bytes) | de_sent (i k : nat)
| de_shutdown (i : nat) | de_closed (i : nat) | de_receive (w : DirectWorld) (i : nat) (total : Z) (buffers : list bytes).
Definition handle (e : direct_event) : D unit :=
  match e with
  | de_synchronize snapshot => synchronize snapshot
  | de_start bound => start bound
  | de_connect endpoint random opened configured => connect endpoint random opened configured
  | de_accept random configured => accept random configured
  | de_stop => dput stop
  | de_send w p => send w p ;; dret tt
  | de_connected w i opened running => on_connected w i opened running
  | de_peer_stream i => on_peer_stream i
  | de_datagram_size i n => dalter i (set_c_datagram_size n)
  | de_datagram w i bs => on_datagram w i bs
  | de_sent i k => on_complete i k
  | de_shutdown i => dalter i (set_c_authorized false)
  | de_closed i => dalter i (fun c => set_c_authorized false (set_c_closed c))
  | de_receive w i total buffers => on_receive w i total buffers
  end.
Definition step (e : direct_event) (d : Direct) : Direct := snd (fst (handle e d)).
Definition outputs (e : direct_event) (d : Direct) : list direct_output := snd (handle e d).
End Direct.

(** ** What is known of a connection *)

Section Safety.
Context {C : Crypto} (identity : bytes) (o : DirectQuicOptions).
Let binding := o_binding o.

(** The frames a receive event makes the decoder of its connection yield. *)
Fixpoint decode_buffers (decoder : StreamDecoder) (buffers : list bytes) : list Frame :=
  match buffers with
  | [] => []
  | bs :: buffers =>
      match default (Throw runtime_error, decoder) (push decoder bs) with
      | (Ok frames, decoder) => frames ++ decode_buffers decoder buffers
      | (Throw _, _) => []
      end
  end.
Definition decoded (e : direct_event) (d : Direct) (i : nat) : list Frame :=
  match e with
  | de_receive _ j _ buffers => if bool_decide (j = i) then match dq_connections d !! i with Some c => decode_buffers (c_decoder c) buffers | None => [] end else []
  | _ => []
  end.
Definition sending (e : direct_event) : option EncryptedNetworkPacket := match e with de_send _ p => Some p | _ => None end.

(** The states a direct path reaches, with the frames received on each connection. *)
Inductive direct_reach : Direct -> (nat -> list Frame) -> Prop :=
| dr_new d : new_direct identity o = Ok d -> direct_reach d (fun _ => [])
| dr_step e d g : direct_reach d g -> direct_reach (step identity o e d) (fun i => g i ++ decoded e d i).

(** The peer named its nonce in a hello for this very binding and signed it with the nonce of this connection. *)
Definition greeted (theirs : bytes) (h : list Frame) : Prop :=
  exists f, f ∈ h /\ type_ f = client_hello /\ (encode_binding (reversed binding) ++ theirs) `prefix_of` payload f.
Definition signed (nonce theirs : bytes) (h : list Frame) : Prop :=
  exists f, f ∈ h /\ type_ f = client_auth /\ verify_peer_binding (o_peer_key o) (reversed binding) theirs nonce (payload f) = Ok true.
Definition trusted (nonce : bytes) (h : list Frame) : Prop := exists theirs, greeted theirs h /\ signed nonce theirs h.

Definition conn_ok (h : list Frame) (c : Peering) : Prop :=
  (forall theirs, c_peer_nonce c = Some theirs -> greeted theirs h) /\
  (c_authorized c = true -> exists theirs, c_peer_nonce c = Some theirs /\ signed (c_nonce c) theirs h).
Record direct_inv (g : nat -> list Frame) (d : Direct) : Prop := mk_direct_inv {
  di_bound : len (dq_connections d) <= 8; di_stopped : dq_stopping d = true -> dq_connections d = [];
  di_conn : forall i c, dq_connections d !! i = Some c -> conn_ok (g i) c }.

(** Bytes of the exchange, and of a packet. *)
Definition control_bytes (nonce : bytes) (bs : bytes) : Prop :=
  encode_frame (hello_frame o nonce) = Ok bs \/
  exists theirs signature, sign_peer_binding identity binding nonce theirs = Ok signature /\ encode_frame (mk_frame client_auth 0 signature) = Ok bs.
Definition packet_bytes (p : EncryptedNetworkPacket) (datagram : bool) (bs : bytes) : Prop :=
  exists body, encode_encrypted_network_packet p = Ok body /\
    if datagram then bs = body else encode_frame (mk_frame network_packet_send 0 body) = Ok bs.

(** The packets, still encoded, that an event brings on a connection: a datagram, or the packet frames of the stream. *)
Definition arrives (e : direct_event) (d : Direct) (i : nat) (bs : bytes) : Prop :=
  match e with
  | de_datagram _ j body => j = i /\ body = bs
  | _ => exists f, f ∈ decoded e d i /\ type_ f = network_packet_send /\ payload f = bs
  end.
(** A connection that is authorized when the event begins, or that the event itself brings a proof for. *)
Definition vouched_for (e : direct_event) (d : Direct) (i : nat) : Prop :=
  (exists c, dq_connections d !! i = Some c /\ c_authorized c = true) \/ exists f, f ∈ decoded e d i /\ type_ f = client_auth.

(** What an event may emit, given the packet it sends, the packets it brings, the connections it finds vouched for, the
    lease, whether the path is stopping and the nonces. *)
Section Outputs.
Variables (g : nat -> list Frame) (packet_sent : option EncryptedNetworkPacket) (arrived : nat -> bytes -> Prop) (was : nat -> Prop)
  (lease stopping : bool) (nonces : list bytes).
Definition usable (i : nat) : Prop :=
  lease = true /\ stopping = false /\ was i /\ exists nonce, nonces !! i = Some nonce /\ trusted nonce (g i).
Definition output_ok (x : direct_output) : Prop :=
  match x with
  | shut _ => True
  | deliver p => sender_device_id p = b_peer_device binding /\ ours o (packet p) (o_local_ipv4 o) = true /\
      exists i bs, arrived i bs /\ decode_encrypted_network_packet bs = Ok (packet p) /\ usable i
  | put_bytes i datagram bs =>
      (datagram = false /\ exists nonce, nonces !! i = Some nonce /\ control_bytes nonce bs) \/
      (exists p, packet_sent = Some p /\ ours o p (o_peer_ipv4 o) = true /\ usable i /\ packet_bytes p datagram bs)
  end.

Definition known (i : nat) (c : Peering) : Prop := conn_ok (g i) c /\ (c_authorized c = true -> was i).
Definition weak (d : Direct) : Prop :=
  direct_inv g d /\ dq_lease_valid d = lease /\ dq_stopping d = stopping /\ map c_nonce (dq_connections d) = nonces /\
  forall i c, dq_connections d !! i = Some c -> c_authorized c = true -> was i.
Definition strong (decoders : list StreamDecoder) (d : Direct) : Prop := weak d /\ map c_decoder (dq_connections d) = decoders.
Definition triple {A} (P : Direct -> Prop) (m : D A) (Q : A -> Direct -> Prop) : Prop := forall d, P d ->
  match m d with (Ok a, d', l) => Q a d' /\ Forall output_ok l | (Throw _, d', l) => weak d' /\ Forall output_ok l end.

Lemma dtriple_bind {A B} P (m : D A) Q (k : A -> D B) R : triple P m Q -> (forall a, triple (Q a) (k a) R) -> triple P (dbind m k) R.
Proof.
  intros Hm Hk d Pd. unfold dbind. specialize (Hm d Pd). destruct (m d) as [[[a|e] d'] l]; [|done]. destruct Hm as [Qd Fl].
  specialize (Hk a d' Qd). destruct (k a d') as [[[b|e] d''] l']; destruct Hk as [R1 F']; (split; [done|by apply Forall_app]).
Qed.
Lemma dtriple_ret {A} P (a : A) (Q : A -> Direct -> Prop) : (forall d, P d -> Q a d) -> triple P (dret a) Q.
Proof. intros H d Pd. cbn. auto. Qed.
Lemma dtriple_pure {A} decoders (r : result A) : triple (strong decoders) (dpure r) (fun a d => strong decoders d /\ r = Ok a).
Proof. intros d Pd. destruct r as [a|e]; cbn; [auto|]. split; [apply Pd|constructor]. Qed.
Lemma triple_check decoders b : triple (strong decoders) (dcheck b) (fun _ d => strong decoders d /\ b = true).
Proof. intros d Pd. destruct b; cbn; [auto|]. split; [apply Pd|constructor]. Qed.
Lemma triple_checked decoders b : triple (strong decoders) (dcheck b) (fun _ => strong decoders).
Proof. intros d Pd. destruct b; cbn; [auto|]. split; [apply Pd|constructor]. Qed.
Lemma triple_put P f (Q : unit -> Direct -> Prop) : (forall d, P d -> Q tt (f d)) -> triple P (dput f) Q.
Proof. intros H d Pd. cbn. auto. Qed.
Lemma dtriple_emit P x : output_ok x -> triple P (demit x) (fun _ => P).
Proof. intros O d Pd. cbn. auto. Qed.
(** The fact [P] a step established is at hand for the rest. *)
Lemma triple_fact {A} (P : Prop) S (m : D A) Q : (P -> triple S m Q) -> triple (fun d => S d /\ P) m Q.
Proof. intros H d [Sd Pd]. by apply H. Qed.
Lemma dtriple_get {A} decoders (k : Direct -> D A) Q :
  (forall d, dq_lease_valid d = lease -> dq_stopping d = stopping -> triple (strong decoders) (k d) Q) -> triple (strong decoders) (dbind dget k) Q.
Proof.
  intros H d Pd. unfold dbind, dget. specialize (H d (proj1 (proj2 (proj1 Pd))) (proj1 (proj2 (proj2 (proj1 Pd)))) d Pd).
  by destruct (k d d) as [[r d'] l].
Qed.
Lemma triple_conn {A} decoders i (k : Peering -> D A) Q :
  (forall c, known i c -> nonces !! i = Some (c_nonce c) -> decoders !! i = Some (c_decoder c) -> triple (strong decoders) (k c) Q) ->
  triple (strong decoders) (dbind (dconn i) k) Q.
Proof.
  intros H d Pd. unfold dbind, dconn. destruct (dq_connections d !! i) as [c|] eqn:E; [|split; [apply Pd|constructor]].
  pose proof Pd as [[I (_ & _ & N & Wa)] Dc]. assert (N1 : nonces !! i = Some (c_nonce c)) by (by rewrite <- N, list_lookup_fmap, E).
  assert (D1 : decoders !! i = Some (c_decoder c)) by (by rewrite <- Dc, list_lookup_fmap, E).
  specialize (H c (conj (di_conn _ _ I i c E) (Wa i c E)) N1 D1 d Pd). by destruct (k c d) as [[r d'] l].
Qed.
Lemma map_alter {B} (h : Peering -> B) f i l : (forall c, h (f c) = h c) -> map h (alter f i l) = map h l.
Proof.
  intros H. apply list_eq. intros j. rewrite !list_lookup_fmap, list_lookup_alter. case_decide as E; [subst j|done].
  destruct (l !! i); cbn; [|done]. by rewrite H.
Qed.
Lemma alter_strong decoders i f d : (forall c, dq_connections d !! i = Some c -> known i c -> known i (f c)) ->
  (forall c, c_nonce (f c) = c_nonce c) -> (forall c, c_decoder (f c) = c_decoder c) -> strong decoders d ->
  strong decoders (set_connections (alter f i (dq_connections d)) d).
Proof.
  intros K Nf Df [[[B S Cn] (L & S' & N & Wa)] Dc]. split; [split; [split; cbn|split_and!; cbn; [done|done| |]]|cbn].
  - unfold len in *. by rewrite length_alter.
  - intros St. rewrite S by done. done.
  - intros j c. rewrite list_lookup_alter. case_decide as E; [subst j|apply Cn]. destruct (dq_connections d !! i) as [c'|] eqn:E; [|done].
    intros [= <-]. apply (K c' eq_refl (conj (Cn i c' E) (Wa i c' E))).
  - by rewrite map_alter.
  - intros j c. rewrite list_lookup_alter. case_decide as E; [subst j|apply Wa]. destruct (dq_connections d !! i) as [c'|] eqn:E; [|done].
    intros [= <-]. apply (K c' eq_refl (conj (Cn i c' E) (Wa i c' E))).
  - by rewrite map_alter.
Qed.
Lemma triple_alter decoders i f : (forall c, known i c -> known i (f c)) -> (forall c, c_nonce (f c) = c_nonce c) ->
  (forall c, c_decoder (f c) = c_decoder c) -> triple (strong decoders) (dalter i f) (fun _ => strong decoders).
Proof. intros K Nf Df. apply triple_put. intros d Pd. apply alter_strong; auto. Qed.
Lemma triple_counters decoders f : (forall d, dq_connections (f d) = dq_connections d /\ dq_lease_valid (f d) = dq_lease_valid d /\ dq_stopping (f d) = dq_stopping d) ->
  triple (strong decoders) (dput f) (fun _ => strong decoders).
Proof.
  intros K. apply triple_put. intros d [[[B S Cn] (L & S' & N & Wa)] Dc]. destruct (K d) as (K1 & K2 & K3).
  split; [split; [split|split_and!]|]; rewrite ?K1, ?K2, ?K3; assumption.
Qed.
Lemma triple_for {A} decoders (l : list A) f : (forall x, x ∈ l -> triple (strong decoders) (f x) (fun _ => strong decoders)) ->
  triple (strong decoders) (dfor l f) (fun _ => strong decoders).
Proof.
  induction l as [|x l IH]; intros H; cbn; [by apply dtriple_ret|]. eapply dtriple_bind; [apply H; by left|]. intros []. apply IH. intros y Hy. apply H. by right.
Qed.

(** ** The exchange *)

Lemma output_kept w i bs datagram control decoders : output_ok (put_bytes i datagram bs) ->
  triple (strong decoders) (output w i bs datagram control) (fun _ => strong decoders).
Proof.
  intros O. unfold output. apply triple_conn. intros c _ _ _. destruct (submit _ _ _ _ _) as [status s].
  eapply dtriple_bind; [by apply triple_alter|]. intros []. destruct (quic_succeeded status); [|by apply dtriple_ret].
  eapply dtriple_bind; [by apply dtriple_emit|]. intros []. by apply dtriple_ret.
Qed.
Lemma put_frame_kept w i f nonce decoders : nonces !! i = Some nonce -> (forall bs, encode_frame f = Ok bs -> control_bytes nonce bs) ->
  triple (strong decoders) (put_frame w i f) (fun _ => strong decoders).
Proof.
  intros N H. unfold put_frame. eapply dtriple_bind; [apply dtriple_pure|]. intros bs. apply triple_fact. intros E.
  eapply dtriple_bind; [apply output_kept; left; split; [done|]; exists nonce; auto|]. intros ok. apply triple_checked.
Qed.
Lemma hello_kept w i decoders : triple (strong decoders) (hello o w i) (fun _ => strong decoders).
Proof.
  unfold hello. apply triple_conn. intros c _ N _. destruct (_ || _); [by apply dtriple_ret|].
  eapply dtriple_bind; [by apply triple_alter|]. intros []. apply (put_frame_kept w i _ (c_nonce c)); [done|]. intros bs E. by left.
Qed.
Lemma proof_kept w i decoders : triple (strong decoders) (proof identity o w i) (fun _ => strong decoders).
Proof.
  unfold proof. apply triple_conn. intros c _ N _. destruct (c_proof c); [by apply dtriple_ret|].
  destruct (c_peer_nonce c) as [theirs|]; [|by apply dtriple_ret]. eapply dtriple_bind; [by apply triple_alter|]. intros [].
  eapply dtriple_bind; [apply dtriple_pure|]. intros s. apply triple_fact. intros E. apply (put_frame_kept w i _ (c_nonce c)); [done|].
  intros bs Eb. right. by exists theirs, s.
Qed.
Lemma data_kept w i bs decoders : arrived i bs -> triple (strong decoders) (data o w i bs) (fun _ => strong decoders).
Proof.
  intros Ar. unfold data. apply triple_conn. intros c [[Gr Au] Wi] N _. apply dtriple_get. intros d L S.
  destruct (negb (c_authorized c) || _ || _) eqn:G; [by apply triple_counters|]. rewrite !orb_false_iff, !negb_false_iff in G. destruct G as [[A St] Le].
  eapply dtriple_bind; [apply dtriple_pure|]. intros p. apply triple_fact. intros Dp. destruct (ours o p _) eqn:O; cbn [negb]; [|by apply triple_counters].
  eapply dtriple_bind; [by apply triple_counters|]. intros []. eapply dtriple_bind.
  - apply dtriple_emit. cbn. split; [done|]. split; [done|]. exists i, bs. split; [done|]. split; [done|]. split; [congruence|]. split; [congruence|].
    split; [by apply Wi|].
    exists (c_nonce c). split; [done|]. destruct (Au A) as (theirs & Pn & Sg). exists theirs. auto.
  - intros []. apply triple_checked.
Qed.
Lemma read_hello_spec bs nonce r : read_hello o bs = Ok (nonce, r) -> (encode_binding (reversed binding) ++ nonce) `prefix_of` bs.
Proof.
  unfold read_hello. intros H. ok_inv H. br_inv. apply binding_exact in E0 as [_ ->]. apply BinaryReader.bytes_inv in E as [-> _]. bool_prop. subst. exists r. by rewrite <- app_assoc.
Qed.
Lemma read_signature_spec bs s : read_signature bs = Ok s -> bs = s.
Proof. unfold read_signature. intros H. ok_inv H. br_inv. subst. by rewrite app_nil_r. Qed.

(** The same, while the connection at [i] is known to agree with [c]. *)
Definition agrees (c c' : Peering) : Prop := c_authorized c' = c_authorized c /\ c_peer_nonce c' = c_peer_nonce c /\ c_nonce c' = c_nonce c.
Definition strong_at (i : nat) (c : Peering) (decoders : list StreamDecoder) (d : Direct) : Prop :=
  strong decoders d /\ exists c', dq_connections d !! i = Some c' /\ agrees c c'.
Lemma at_conn {A} decoders i (k : Peering -> D A) Q : (forall c, known i c -> triple (strong_at i c decoders) (k c) Q) ->
  triple (strong decoders) (dbind (dconn i) k) Q.
Proof.
  intros H d Pd. unfold dbind, dconn. destruct (dq_connections d !! i) as [c|] eqn:E; [|split; [apply Pd|constructor]].
  specialize (H c (conj (di_conn _ _ (proj1 (proj1 Pd)) i c E) (proj2 (proj2 (proj2 (proj2 (proj1 Pd)))) i c E)) d). assert (P : strong_at i c decoders d) by (split; [done|]; by exists c).
  specialize (H P). by destruct (k c d) as [[r d'] l].
Qed.
Lemma at_pure {A B} i c decoders (r : result A) (k : A -> D B) Q : (forall a, r = Ok a -> triple (strong_at i c decoders) (k a) Q) ->
  triple (strong_at i c decoders) (dbind (dpure r) k) Q.
Proof.
  intros H d Pd. unfold dbind, dpure. destruct r as [a|e]; [|split; [apply Pd|constructor]]. specialize (H a eq_refl d Pd).
  by destruct (k a d) as [[r d'] l].
Qed.
Lemma at_check {B} i c decoders b (k : unit -> D B) Q : (b = true -> triple (strong_at i c decoders) (k tt) Q) ->
  triple (strong_at i c decoders) (dbind (dcheck b) k) Q.
Proof.
  intros H. destruct b; [|intros d Pd; split; [apply Pd|constructor]]. intros d Pd. specialize (H eq_refl d Pd). unfold dbind, dcheck, dret.
  by destruct (k tt d) as [[r d'] l].
Qed.
Lemma at_alter {B} i c decoders f (k : unit -> D B) Q : (forall c', agrees c' (f c')) -> (forall c', c_decoder (f c') = c_decoder c') ->
  triple (strong_at i c decoders) (k tt) Q -> triple (strong_at i c decoders) (dbind (dalter i f) k) Q.
Proof.
  intros Af Df H d [Pd (c' & E & Ag)]. unfold dbind, dalter, dput. set (d1 := set_connections _ d).
  assert (P : strong_at i c decoders d1).
  { split.
    - apply alter_strong; [|by apply Af|done|done]. intros x _ [[Gr Au] Wi]. destruct (Af x) as (A1 & A2 & A3). split; [split|]; rewrite ?A1, ?A2, ?A3; done.
    - exists (f c'). split; [cbn; by rewrite list_lookup_alter_eq, E|]. destruct (Af c') as (A1 & A2 & A3), Ag as (B1 & B2 & B3). split_and!; congruence. }
  specialize (H d1 P). by destruct (k tt d1) as [[r d'] l].
Qed.
Lemma at_set i c decoders f : (forall c', known i c' -> agrees c c' -> known i (f c')) -> (forall c', c_nonce (f c') = c_nonce c') ->
  (forall c', c_decoder (f c') = c_decoder c') -> triple (strong_at i c decoders) (dalter i f) (fun _ => strong decoders).
Proof.
  intros K Nf Df d [Pd (c' & E & Ag)]. cbn. split; [|constructor]. apply alter_strong; [|done..]. intros x Ex. rewrite E in Ex. injection Ex as <-. auto.
Qed.
(** A frame of the stream: what it proves is among the frames received. *)
Lemma on_frame_kept w i f decoders : f ∈ g i -> (type_ f = network_packet_send -> arrived i (payload f)) -> (type_ f = client_auth -> was i) -> triple (strong decoders) (on_frame identity o w i f) (fun _ => strong decoders).
Proof.
  intros Hf Ar Wi. unfold on_frame. apply dtriple_get. intros d _ _. eapply dtriple_bind; [apply triple_checked|]. intros [].
  eapply dtriple_bind; [apply triple_checked|]. intros []. destruct (bool_decide (type_ f = network_packet_send)) eqn:Tp; [bool_prop; by apply data_kept, Ar|]. apply at_conn. intros c Oc.
  destruct (ForwardingQuota.allow _ _) as [allowed rate]. apply at_alter; [done|done|]. apply at_check. intros _.
  destruct (type_ f) eqn:T; try (intros d' Pd; split; [apply Pd|constructor]).
  - apply at_check. intros Pn. bool_prop. apply at_pure. intros [nonce r] Rh. apply read_hello_spec in Rh. eapply dtriple_bind; [apply at_set; [|done..]|].
    { intros c' [[Gr Au] Wc] (A1 & A2 & _). split; [|exact Wc]. split; cbn; [intros theirs [= <-]; by exists f|]. intros A. destruct (Au A) as (theirs & X & _). congruence. }
    intros []. eapply dtriple_bind; [apply dtriple_pure|]. intros []. apply triple_fact. intros _. eapply dtriple_bind; [apply hello_kept|]. intros []. apply proof_kept.
  - apply at_pure. intros s Rs. apply read_signature_spec in Rs. apply at_check. intros _.
    destruct (c_peer_nonce c) as [theirs|] eqn:Pn; [|intros d' Pd; split; [apply Pd|constructor]].
    apply at_check. intros _. apply at_pure. intros valid V. apply at_check. intros ->. apply at_set; [|done..].
    intros c' [[Gr _] _] (_ & A2 & A3). split; [|intros _; by apply Wi]. split; cbn; [done|]. intros _. exists theirs. split; [congruence|]. exists f. rewrite A3, Rs. done.
Qed.
Lemma triple_decoder decoders i x : triple (strong decoders) (dalter i (set_c_decoder x)) (fun _ => strong (<[i := x]> decoders)).
Proof.
  apply triple_put. intros d [[[B S Cn] (L & S' & N & Wa)] Dc]. split; [split; [split; cbn|split_and!; cbn; [done|done| |]]|cbn].
  - unfold len in *. by rewrite length_alter.
  - intros St. rewrite S by done. done.
  - intros j c. rewrite list_lookup_alter. case_decide as E; [subst j|apply Cn]. destruct (dq_connections d !! i) as [c'|] eqn:E; [|done].
    intros [= <-]. apply (Cn i c' E).
  - by rewrite map_alter.
  - intros j c. rewrite list_lookup_alter. case_decide as E; [subst j|apply Wa]. destruct (dq_connections d !! i) as [c'|] eqn:E; [|done].
    intros [= <-]. apply (Wa i c' E).
  - rewrite <- Dc. apply list_eq. intros j. rewrite list_lookup_fmap, list_lookup_alter, list_lookup_insert. case_decide as E; [subst j|].
    + destruct (dq_connections d !! i) as [c'|] eqn:E.
      * cbn. rewrite decide_True; [done|]. split; [done|]. rewrite length_map. by eapply lookup_lt_Some.
      * cbn. rewrite decide_False; [by rewrite list_lookup_fmap, E|]. intros [_ H]. rewrite length_map in H. apply lookup_lt_is_Some in H as [? H]. congruence.
    + rewrite decide_False by tauto. by rewrite list_lookup_fmap.
Qed.
Definition noted (i : nat) (f : Frame) : Prop :=
  f ∈ g i /\ (type_ f = network_packet_send -> arrived i (payload f)) /\ (type_ f = client_auth -> was i).
Lemma on_buffers_kept w i buffers decoders decoder : decoders !! i = Some decoder -> (forall f, f ∈ decode_buffers decoder buffers -> noted i f) ->
  triple (strong decoders) (dfor buffers (on_buffer identity o w i)) (fun _ => weak).
Proof.
  revert decoders decoder. induction buffers as [|bs buffers IH]; intros decoders decoder E H; cbn [dfor]; [apply dtriple_ret; intros d Pd; apply Pd|].
  cbn [decode_buffers] in H. unfold on_buffer at 1, decode_at. eapply dtriple_bind; [eapply dtriple_bind|].
  - apply triple_conn. intros c _ _ Ec. rewrite E in Ec. injection Ec as <-.
    instantiate (1 := fun frames d => exists decoder', push decoder bs = Some (Ok frames, decoder') /\ strong (<[i := decoder']> decoders) d).
    destruct (push decoder bs) as [[r decoder']|] eqn:P; cbn [default from_option].
    + eapply dtriple_bind; [apply triple_decoder|]. intros [] d Pd. destruct r as [frames|e]; cbn; [split; [by exists decoder'|constructor]|split; [apply Pd|constructor]].
    + eapply dtriple_bind; [apply triple_decoder|]. intros [] d Pd. cbn. split; [apply Pd|constructor].
  - intros frames. instantiate (1 := fun _ d => exists decoder' frames, push decoder bs = Some (Ok frames, decoder') /\ strong (<[i := decoder']> decoders) d).
    intros d (decoder' & P & Pd). rewrite P in H. cbn in H.
    apply (dtriple_bind (strong (<[i := decoder']> decoders)) _ (fun _ => strong (<[i := decoder']> decoders))); [| |done].
    + apply triple_for. intros f Hf. destruct (H f) as (Hg & Ar & Wi); [apply elem_of_app; by left|]. by apply on_frame_kept.
    + intros []. apply triple_conn. intros c _ _ _ d' Pd'. destruct (negb _); cbn; [split; [by exists decoder', frames|constructor]|split; [apply Pd'|constructor]].
  - intros [] d (decoder' & frames & P & Pd). rewrite P in H. cbn in H. apply (IH (<[i := decoder']> decoders) decoder'); [| |done].
    + apply list_lookup_insert_eq. by eapply lookup_lt_Some.
    + intros f Hf. apply H, elem_of_app. by right.
Qed.
Lemma or_shut_kept i m P d : triple P m (fun _ => weak) -> P d ->
  match or_shut i m d with (_, d', l) => weak d' /\ Forall output_ok l end.
Proof.
  intros H Pd. unfold or_shut. specialize (H d Pd). destruct (m d) as [[[u|e] d'] l]; [done|]. destruct H as [[[B S Cn] (L & S' & N & Wa)] F].
  split; [split; [split; cbn|split_and!; cbn; [done|done|by rewrite map_alter|]]|apply Forall_app; split; [done|by repeat constructor]].
  - unfold len in *. by rewrite length_alter.
  - intros St. by rewrite S.
  - intros j c. rewrite list_lookup_alter. case_decide as E; [subst j|apply Cn]. destruct (dq_connections d' !! i) as [c'|] eqn:E; [|done].
    intros [= <-]. split; [apply (Cn i c' E)|done].
  - intros j c. rewrite list_lookup_alter. case_decide as E; [subst j|apply Wa]. by destruct (dq_connections d' !! i) as [c'|]; [intros [= <-]|].
Qed.
Lemma weaken {A} P (m : D A) decoders : triple P m (fun _ => strong decoders) -> triple P m (fun _ => weak).
Proof. intros H d Pd. specialize (H d Pd). destruct (m d) as [[[a|e] d'] l]; [|done]. destruct H as [Q F]. split; [apply Q|done]. Qed.
Lemma on_connected_kept w i opened running decoders d : strong decoders d ->
  match on_connected o w i opened running d with (_, d', l) => weak d' /\ Forall output_ok l end.
Proof.
  apply or_shut_kept, (weaken _ _ decoders), triple_conn. intros c _ _ _. apply dtriple_get. intros d' _ _. destruct (_ && _); [|by apply dtriple_ret].
  eapply dtriple_bind; [apply triple_checked|]. intros []. eapply dtriple_bind; [by apply triple_alter|]. intros [].
  eapply dtriple_bind; [apply triple_checked|]. intros []. apply hello_kept.
Qed.
Lemma on_receive_kept w i total buffers d : weak d -> (forall c, dq_connections d !! i = Some c -> forall f, f ∈ decode_buffers (c_decoder c) buffers -> noted i f) ->
  match on_receive identity o w i total buffers d with (_, d', l) => weak d' /\ Forall output_ok l end.
Proof.
  intros W H. assert (Pd : strong (map c_decoder (dq_connections d)) d) by done. revert Pd. apply or_shut_kept. apply dtriple_get. intros d' _ _.
  destruct (dq_stopping d'); [apply dtriple_ret; by intros x [X _]|]. eapply dtriple_bind; [apply triple_checked|]. intros [].
  destruct (dq_connections d !! i) as [c|] eqn:E.
  - apply (on_buffers_kept w i buffers _ (c_decoder c)); [by rewrite list_lookup_fmap, E|]. by apply H.
  - destruct buffers as [|bs buffers]; cbn [dfor]; [apply dtriple_ret; by intros x [X _]|]. intros x [X Dx].
    assert (En : dq_connections x !! i = None).
    { apply lookup_ge_None. apply lookup_ge_None in E. rewrite <- (length_map c_decoder), Dx, length_map. done. }
    unfold dbind, on_buffer, decode_at, dbind, dconn. rewrite En. cbn. split; [done|constructor].
Qed.
End Outputs.

(** ** Any event *)

Lemma choose_some l i0 fallback i : choose o i0 fallback l = Some i ->
  fallback = Some i \/ exists c, (i0 <= i)%nat /\ l !! (i - i0)%nat = Some c /\ c_authorized c = true /\ c_closed c = false.
Proof.
  revert i0 fallback. induction l as [|c l IH]; intros i0 fallback H; cbn in H; [by left|].
  assert (Later : forall fb, choose o (S i0) fb l = Some i -> fb = Some i \/
    exists c', (i0 <= i)%nat /\ (c :: l) !! (i - i0)%nat = Some c' /\ c_authorized c' = true /\ c_closed c' = false).
  { intros fb Hf. destruct (IH _ _ Hf) as [|(c' & Le & E & A)]; [by left|]. right. exists c'. split; [lia|].
    replace (i - i0)%nat with (S (i - S i0)) by lia. by split. }
  destruct (c_authorized c && negb (c_closed c)) eqn:A; [|by apply Later]. apply andb_true_iff in A as [A1 A2]. apply negb_true_iff in A2.
  assert (Here : forall k : nat, Some i0 = Some k -> exists c', (i0 <= k)%nat /\ (c :: l) !! (k - i0)%nat = Some c' /\ c_authorized c' = true /\ c_closed c' = false).
  { intros k [= <-]. exists c. split; [lia|]. by rewrite Nat.sub_diag. }
  destruct (Bool.eqb _ _); [right; by apply Here|]. destruct (Later _ H) as [F|F]; right; [by apply Here|done].
Qed.
Lemma selected_some d i : selected o d = Some i -> exists c, dq_connections d !! i = Some c /\ c_authorized c = true /\ c_closed c = false.
Proof. intros H. destruct (choose_some _ _ _ _ H) as [|(c & _ & E & A)]; [done|]. rewrite Nat.sub_0_r in E. by exists c. Qed.

Definition allowed (g : nat -> list Frame) (e : direct_event) (d : Direct) : direct_output -> Prop :=
  output_ok g (sending e) (arrives e d) (vouched_for e d) (dq_lease_valid d) (dq_stopping d) (map c_nonce (dq_connections d)).
Definition good_step (g : nat -> list Frame) (e : direct_event) (d d' : Direct) (l : list direct_output) : Prop :=
  direct_inv g d' /\ Forall (allowed g e d) l /\ (dq_stopping d = true -> dq_stopping d' = true).
Lemma weak_self g e d : direct_inv g d -> weak g (vouched_for e d) (dq_lease_valid d) (dq_stopping d) (map c_nonce (dq_connections d)) d.
Proof. intros I. split; [done|]. split_and!; [done..|]. intros i c E A. left. by exists c. Qed.
Lemma weak_good g e d d' l : weak g (vouched_for e d) (dq_lease_valid d) (dq_stopping d) (map c_nonce (dq_connections d)) d' /\ Forall (allowed g e d) l -> good_step g e d d' l.
Proof. intros [[I (_ & S & _)] F]. split_and!; [done|done|by rewrite S]. Qed.

Lemma trusted_conn (g : nat -> list Frame) i c : conn_ok (g i) c -> c_authorized c = true -> trusted (c_nonce c) (g i).
Proof. intros [Gr Au] A. destruct (Au A) as (theirs & Pn & Sg). exists theirs. auto. Qed.
Lemma send_kept g w p d : direct_inv g d -> match send o w p d with (_, d', l) => good_step g (de_send w p) d d' l end.
Proof.
  intros I. pose proof (weak_self g (de_send w p) d I) as W. assert (Rest : good_step g (de_send w p) d d []) by (apply weak_good; by split).
  unfold send, dbind at 1, dget. destruct (selected o d) as [i|] eqn:Se; [|exact Rest].
  destruct (dq_stopping d || _) eqn:L; [exact Rest|]. destruct (ours o p _) eqn:O; cbn [negb]; [|exact Rest].
  apply orb_false_iff in L as [St L]. apply negb_false_iff in L. destruct (selected_some d i Se) as (c & Ec & Ac & _).
  assert (U : usable g (vouched_for (de_send w p) d) (dq_lease_valid d) (dq_stopping d) (map c_nonce (dq_connections d)) i).
  { split; [done|]. split; [done|]. split; [left; by exists c|]. exists (c_nonce c). split; [by rewrite list_lookup_fmap, Ec|]. apply trusted_conn; [by apply (di_conn _ _ I)|done]. }
  set (decoders := map c_decoder (dq_connections d)).
  match goal with |- match (match ?m d with _ => _ end) with _ => _ end =>
    assert (T : triple g (Some p) (arrives (de_send w p) d) (vouched_for (de_send w p) d) (dq_lease_valid d) (dq_stopping d) (map c_nonce (dq_connections d))
                  (strong g (vouched_for (de_send w p) d) (dq_lease_valid d) (dq_stopping d) (map c_nonce (dq_connections d)) decoders) m
                  (fun _ => weak g (vouched_for (de_send w p) d) (dq_lease_valid d) (dq_stopping d) (map c_nonce (dq_connections d)))) end.
  { eapply dtriple_bind; [apply dtriple_pure|]. intros bs. apply triple_fact. intros Eb. apply triple_conn. intros c' _ _ _.
    set (dg := negb _ && _). eapply dtriple_bind; [apply dtriple_pure|]. intros out. apply triple_fact. intros Eo.
    eapply dtriple_bind; [apply output_kept; right; exists p; split; [done|]; split; [done|]; split; [done|]; exists bs; split; [done|]; by destruct dg; [injection Eo as ->|]|].
    intros ok. destruct ok; (eapply dtriple_bind; [apply (weaken _ _ _ _ _ _ _ _ _ decoders); by apply triple_counters|]); intros []; by apply dtriple_ret. }
  specialize (T d (conj W eq_refl)).
  match goal with |- match (match ?m d with _ => _ end) with _ => _ end => destruct (m d) as [[[r|e] d'] l]; apply weak_good, T end.
Qed.

Lemma conn_ok_mono (h h' : list Frame) c : (forall f, f ∈ h -> f ∈ h') -> conn_ok h c -> conn_ok h' c.
Proof.
  intros H [Gr Au]. split.
  - intros theirs E. destruct (Gr theirs E) as (f & Hf & T). exists f. auto.
  - intros A. destruct (Au A) as (theirs & E & f & Hf & T). exists theirs. split; [done|]. exists f. auto.
Qed.
Lemma direct_inv_mono g g' d : (forall i f, f ∈ g i -> f ∈ g' i) -> direct_inv g d -> direct_inv g' d.
Proof. intros H [B S Cn]. split; [done..|]. intros i c E. apply (conn_ok_mono (g i)); auto. Qed.

Lemma new_conn_ok h outgoing random c : new_peering outgoing random = Ok c -> conn_ok h c.
Proof. unfold new_peering. destruct random as [nonce|]; [|done]. intros H. ok_inv H. subst c. by split. Qed.
Lemma append_conn g c d : direct_inv g d -> dq_stopping d = false -> len (dq_connections d) < 8 -> (forall h, conn_ok h c) ->
  direct_inv g (set_connections (dq_connections d ++ [c]) d).
Proof.
  intros [B S Cn] St L Oc. split; cbn.
  - rewrite len_app, len_cons, len_nil. lia.
  - congruence.
  - intros i c'. rewrite lookup_app. destruct (dq_connections d !! i) as [x|] eqn:E; [intros [= <-]; by apply Cn|].
    intros H. apply list_lookup_singleton_Some in H as [_ <-]. apply Oc.
Qed.
Lemma change_conn g i f d : direct_inv g d -> (forall c, conn_ok (g i) c -> conn_ok (g i) (f c)) -> direct_inv g (set_connections (alter f i (dq_connections d)) d).
Proof.
  intros [B S Cn] K. split; cbn.
  - unfold len in *. by rewrite length_alter.
  - intros St. by rewrite S.
  - intros j c. rewrite list_lookup_alter. case_decide as E; [subst j|apply Cn]. destruct (dq_connections d !! i) as [c'|] eqn:E; [|done].
    intros [= <-]. apply K. by apply Cn.
Qed.
Lemma stop_inv g d : direct_inv g d -> direct_inv g (stop d) /\ dq_stopping (stop d) = true.
Proof. intros I. unfold stop. destruct (dq_stopping d) eqn:S; [done|]. split; [split; cbn; [rewrite len_nil; lia|done|done]|done]. Qed.
Lemma closed_ok h c : conn_ok h c -> conn_ok h (set_c_closed c).
Proof. done. Qed.
Lemma revoked_ok h c : conn_ok h c -> conn_ok h (set_c_authorized false c).
Proof. intros [Gr _]. by split. Qed.

Lemma connect_kept g endpoint random opened configured d : direct_inv g d ->
  match connect o endpoint random opened configured d with (_, d', l) => good_step g (de_connect endpoint random opened configured) d d' l end.
Proof.
  intros I. unfold connect, dbind, dget. destruct (listens o || _ || _ || _ || _ || _) eqn:G; [by split_and!|]. rewrite !orb_false_iff in G.
  destruct G as (((((_ & _) & St) & _) & L) & _). bool_prop. unfold dpure. destruct (new_peering true random) as [c|] eqn:E; [|by split_and!].
  destruct opened; cbn; [|by split_and!].
  assert (I' : direct_inv g (set_connections (dq_connections d ++ [c]) d)) by (apply append_conn; [done|done|lia|intros h; by eapply new_conn_ok]).
  destruct configured; cbn; [by split_and!|]. split_and!; [by apply (change_conn g (length (dq_connections d)) set_c_closed _ I')|by repeat constructor|done].
Qed.
Lemma accept_kept g random configured d : direct_inv g d ->
  match accept random configured d with (_, d', l) => good_step g (de_accept random configured) d d' l end.
Proof.
  intros I. unfold accept, dbind, dget. destruct (dq_stopping d || _) eqn:G; [by split_and!|]. apply orb_false_iff in G as [St L]. bool_prop.
  destruct (new_peering false random) as [c|] eqn:E; [|by split_and!]. cbn. split_and!; [|done|done].
  apply append_conn; [done|done|lia|]. intros h. destruct configured; [|apply closed_ok]; by eapply new_conn_ok.
Qed.
Lemma synchronize_kept g snapshot d : direct_inv g d ->
  match synchronize o snapshot d with (_, d', l) => good_step g (de_synchronize snapshot) d d' l end.
Proof.
  intros I. unfold synchronize, dbind, dpure. destruct (peer_binding_authorized _ _ _ _ _) as [valid|]; [|by split_and!]. cbn.
  assert (I1 : direct_inv g (set_lease valid d)) by (destruct I; by split). destruct valid; cbn; [by split_and!|].
  assert (I2 : direct_inv g (set_connections (map (set_c_authorized false) (dq_connections d)) (set_lease false d))).
  { destruct I as [B S Cn]. split; cbn; [unfold len in *; by rewrite length_map|intros St; by rewrite S|].
    intros i c. rewrite list_lookup_fmap. destruct (dq_connections d !! i) as [c'|] eqn:E; [|done]. intros [= <-]. by apply revoked_ok, Cn. }
  destruct (stop_inv g _ I2) as [I3 S3]. by split_and!.
Qed.
Lemma start_kept g bound d : direct_inv g d -> match start bound d with (_, d', l) => good_step g (de_start bound) d d' l end.
Proof.
  intros I. unfold start, dbind, dget. destruct (dq_started d); [by split_and!|]. destruct (dq_lease_valid d && _); cbn; [|by split_and!].
  destruct bound as [port|e]; cbn; [split_and!; [by destruct I|done|done]|]. destruct (stop_inv g d I) as [I' S']. by split_and!.
Qed.
Lemma peer_stream_kept g i d : direct_inv g d -> match on_peer_stream i d with (_, d', l) => good_step g (de_peer_stream i) d d' l end.
Proof.
  intros I. unfold on_peer_stream, dbind at 1, dget, dbind at 1, dconn. destruct (dq_connections d !! i) as [c|] eqn:E; [|by split_and!].
  destruct (dq_stopping d || c_closed c); [by split_and!|]. unfold or_shut. destruct (negb _); cbn; (split_and!; [|by repeat constructor|done]); [by apply change_conn|].
  apply (change_conn g i (set_c_authorized false) (count_dropped d)); [by destruct I|]. apply revoked_ok.
Qed.

(** One step: what was received is known, the invariant is kept, and what is emitted is allowed. *)
Lemma step_kept g e d : direct_inv g d -> (forall i f, f ∈ decoded e d i -> f ∈ g i) -> match handle identity o e d with (_, d', l) => good_step g e d d' l end.
Proof.
  intros I Dec. pose proof (weak_self g e d I) as W. set (ds := map c_decoder (dq_connections d)).
  assert (Str : strong g (vouched_for e d) (dq_lease_valid d) (dq_stopping d) (map c_nonce (dq_connections d)) ds d) by done.
  destruct e as [snapshot|bound|endpoint random opened configured|random configured| |w p|w i opened running|i|i n|w i bs|i k|i|i|w i total buffers]; cbn [handle].
  - by apply synchronize_kept.
  - by apply start_kept.
  - by apply connect_kept.
  - by apply accept_kept.
  - cbn. destruct (stop_inv g d I) as [I' S']. by split_and!.
  - unfold dbind. pose proof (send_kept g w p d I) as K. destruct (send o w p d) as [[[r|e] d'] l]; [|done]. cbn. by rewrite app_nil_r.
  - pose proof (on_connected_kept g (sending (de_connected w i opened running)) (arrives (de_connected w i opened running) d) _ _ _ _ w i opened running ds d Str) as K.
    destruct (on_connected o w i opened running d) as [[r d'] l]. by apply weak_good.
  - by apply peer_stream_kept.
  - cbn. split_and!; [|done|done]. by apply change_conn.
  - pose proof (or_shut_kept g (sending (de_datagram w i bs)) (arrives (de_datagram w i bs) d) _ _ _ _ i (data o w i bs) _ d
      (weaken _ _ _ _ _ _ _ _ _ ds (data_kept _ _ _ _ _ _ _ w i bs ds (conj eq_refl eq_refl))) Str) as K.
    unfold on_datagram. destruct (or_shut i _ d) as [[r d'] l]. by apply weak_good.
  - cbn. split_and!; [|done|done]. by apply change_conn.
  - cbn. split_and!; [|done|done]. apply change_conn; [done|]. apply revoked_ok.
  - cbn. split_and!; [|done|done]. apply change_conn; [done|]. intros c Oc. by apply revoked_ok, closed_ok.
  - assert (Dec' : forall c, dq_connections d !! i = Some c -> forall f, f ∈ decode_buffers (c_decoder c) buffers ->
      noted g (arrives (de_receive w i total buffers) d) (vouched_for (de_receive w i total buffers) d) i f).
    { intros c E f Hf. assert (Hd : f ∈ decoded (de_receive w i total buffers) d i) by (cbn; by rewrite bool_decide_true, E).
      split_and!; [by apply Dec|intros T; by exists f|intros T; right; by exists f]. }
    pose proof (on_receive_kept g (sending (de_receive w i total buffers)) _ _ _ _ _ w i total buffers d W Dec') as K.
    destruct (on_receive identity o w i total buffers d) as [[r d'] l]. by apply weak_good.
Qed.
Lemma direct_reach_inv d g : direct_reach d g -> direct_inv g d.
Proof.
  induction 1 as [d H|e d g R IH].
  - unfold new_direct in H. ok_inv H. subst d. split; cbn; [rewrite len_nil; lia|done|done].
  - set (g' := fun i => g i ++ decoded e d i). assert (I : direct_inv g' d) by (apply (direct_inv_mono g); [|done]; intros i f Hf; apply elem_of_app; by left).
    pose proof (step_kept g' e d I) as K. unfold step. destruct (handle identity o e d) as [[r d'] l]. apply K. intros i f Hf. apply elem_of_app. by right.
Qed.
End Safety.

(** ** Two members open a path *)

Lemma push_frame f bs : word 4 (request_id f) -> encode_frame f = Ok bs -> push (mk_decoder [] 0) bs = Some (Ok [f], mk_decoder [] 0).
Proof.
  intros W E. pose proof (push_all_segments [f] [bs] [bs]) as P. cbn [push_all concat] in P.
  assert (F : Forall2 (fun f bs => wf_frame f /\ encode_frame f = Ok bs) [f] [bs]) by (constructor; [by split|constructor]). specialize (P F eq_refl).
  destruct (push (mk_decoder [] 0) bs) as [[[fs|e] d]|]; [|done|done]. injection P as P1 P2. by rewrite app_nil_r in P1; subst.
Qed.
Lemma control_sent (s : Sends) (bs : bytes) taken : 0 < len bs <= 1024 -> budget_limits (sends_budget s) = default_queue_limits -> used_bytes (sends_budget s) <= 4096 ->
  0 <= used_bytes (sends_budget s) -> 0 <= used_frames (sends_budget s) <= 16 -> taken = true ->
  submit (len bs) true true taken s = (quic_success,
    mk_sends (mk_budget default_queue_limits (used_bytes (sends_budget s) + len bs) (used_frames (sends_budget s) + 1) (rejected_ (sends_budget s)))
      (mk_ticket (len bs) true :: sends_live s)).
Proof.
  intros B Lm U U0 F ->. unfold submit, reserve. rewrite Lm. cbn [limit_bytes limit_frames default_queue_limits].
  match goal with |- context [if ?b then (None, _) else _] => assert (G : b = false) end.
  { rewrite !orb_false_iff, Z.eqb_neq, !Z.gtb_ltb, !Z.ltb_ge, Z.geb_leb, Z.leb_gt. lia. }
  rewrite G, !Z.mod_small by lia. done.
Qed.

Section Opening.
Context {C : Crypto} {L : CryptoLaws C} (secret : bytes) (o : DirectQuicOptions) (nonce theirs proof_bytes : bytes) (w : DirectWorld).
Hypothesis (Wb : wf_binding (o_binding o)) (Ln : length nonce = 32%nat) (Lt : length theirs = 32%nat).
Hypothesis (Sg : sign_peer_binding secret (o_binding o) nonce theirs = Ok proof_bytes).
Hypothesis (Tk : forall bs, w_taken w bs = true).
Let mine : bytes := header (message_type_value client_hello) 0 200 ++ encode_binding (o_binding o) ++ nonce.
Let mine_proof : bytes := header (message_type_value client_auth) 0 64 ++ proof_bytes.

Lemma hello_encoded : encode_frame (hello_frame o nonce) = Ok mine /\ len mine = 216.
Proof.
  assert (P : len (encode_binding (o_binding o) ++ nonce) = 200) by (unfold len; rewrite length_app, length_encode_binding, Ln by done; done).
  split; [|unfold mine; by rewrite len_app, len_header, P]. rewrite encode_frame_total; cbn [type_ payload hello_frame request_id]; [by rewrite P|done|].
  rewrite P. unfold max_payload_size. lia.
Qed.
Lemma signature_length : length proof_bytes = 64%nat.
Proof.
  unfold sign_peer_binding, identity_sign in Sg. destruct (identity_device_id secret); [|done]. destruct (_ && Punch.fresh _ _) in Sg; [|done].
  destruct (ed25519_sign _ _) as [sg|] eqn:S; [|done]. destruct (_ =? _) in Sg; [|done]. apply Ok_inj in Sg as <-. by eapply sign_length.
Qed.
Lemma proof_encoded : encode_frame (mk_frame client_auth 0 proof_bytes) = Ok mine_proof /\ len mine_proof = 80.
Proof.
  pose proof signature_length as P. assert (P' : len proof_bytes = 64) by (unfold len; lia).
  split; [|unfold mine_proof; by rewrite len_app, len_header, P']. rewrite encode_frame_total; cbn [type_ payload request_id]; [by rewrite P'|done|].
  rewrite P'. unfold max_payload_size. lia.
Qed.

(** A path whose only connection is at [c]. *)
Definition with_one (c : Peering) (d : Direct) : Prop := dq_connections d = [c] /\ dq_lease_valid d = true /\ dq_stopping d = false /\ dq_started d = true.
(** At most [k] small control frames are outstanding. *)
Definition roomy (k : Z) (s : Sends) : Prop :=
  budget_limits (sends_budget s) = default_queue_limits /\ 0 <= used_bytes (sends_budget s) <= 512 * k /\ 0 <= used_frames (sends_budget s) <= k.

Lemma put_frame_sent k f bs c d : with_one c d -> roomy k (c_sends c) -> k <= 7 -> encode_frame f = Ok bs -> 0 < len bs <= 512 ->
  exists s, roomy (k + 1) s /\ put_frame w 0 f d = (Ok tt, set_connections [set_c_sends s c] d, [put_bytes 0 false bs]).
Proof.
  intros (Ec & _) (R1 & R2 & R3) K E B. unfold put_frame, dbind, dpure, output, dbind, dconn. rewrite E, Ec. cbn [lookup list_lookup].
  rewrite (control_sent (c_sends c) bs (w_taken w bs)) by (done || lia). eexists. split; [|cbn; rewrite Ec; reflexivity].
  split; [done|]. cbn. lia.
Qed.

Definition greeting (c : Peering) : list direct_output := if c_hello c then [] else [put_bytes 0 false mine].
Lemma hello_sent k c d : with_one c d -> roomy k (c_sends c) -> k <= 7 -> c_stream c = true -> c_nonce c = nonce ->
  exists s, roomy (k + 1) s /\ hello o w 0 d = (Ok tt, set_connections [set_c_sends s (set_c_hello c)] d, greeting c).
Proof.
  intros W Ro K St Nn. pose proof W as (Ec & Le & Sp & Sd). unfold hello, dbind at 1, dconn, greeting. rewrite Ec. cbn [lookup list_lookup]. rewrite St.
  destruct (c_hello c) eqn:Hc; cbn [orb negb].
  - exists (c_sends c). split; [destruct Ro as (R1 & R2 & R3); split; [done|]; lia|]. cbn. destruct d, c. cbn in *. by subst.
  - destruct hello_encoded as [Eh Lh]. unfold dbind at 1, dalter, dput. rewrite Ec, Nn. cbn [alter list_alter].
    destruct (put_frame_sent k (hello_frame o nonce) mine (set_c_hello c) (set_connections [set_c_hello c] d)) as (s & R & E); [done|done|done|done|lia|].
    exists s. split; [done|]. by rewrite E.
Qed.
Lemma proof_sent k c d : with_one c d -> roomy k (c_sends c) -> k <= 7 -> c_proof c = false -> c_nonce c = nonce -> c_peer_nonce c = Some theirs ->
  exists s, roomy (k + 1) s /\ proof secret o w 0 d = (Ok tt, set_connections [set_c_sends s (set_c_proof c)] d, [put_bytes 0 false mine_proof]).
Proof.
  intros W Ro K Pr Nn Pn. pose proof W as (Ec & Le & Sp & Sd). unfold proof, dbind at 1, dconn. rewrite Ec. cbn [lookup list_lookup]. rewrite Pr, Pn.
  destruct proof_encoded as [Ep Lp]. unfold dbind at 1, dalter, dput. rewrite Ec, Nn. cbn [alter list_alter]. unfold dbind at 1, dpure. rewrite Sg.
  destruct (put_frame_sent k (mk_frame client_auth 0 proof_bytes) mine_proof (set_c_proof c) (set_connections [set_c_proof c] d)) as (s & R & E); [done|done|done|done|lia|].
  exists s. split; [done|]. by rewrite E.
Qed.
(** The peer's hello: this side answers with its own, unless it was first, and with its proof. *)
Lemma hello_answered (o' : DirectQuicOptions) r c d : o_binding o' = reversed (o_binding o) -> with_one c d -> roomy 2 (c_sends c) ->
  c_stream c = true -> c_proof c = false -> c_peer_nonce c = None -> c_authorized c = false -> c_nonce c = nonce -> ForwardingQuota.allow (c_rate c) (w_now w) = (true, r) ->
  exists s, roomy 4 s /\ on_frame secret o w 0 (hello_frame o' theirs) d =
    (Ok tt, set_connections [mk_peering true (c_outgoing c) true true false (c_closed c) nonce (Some theirs) (c_datagram_size c) (c_decoder c) s r] d,
     greeting c ++ [put_bytes 0 false mine_proof]).
Proof.
  intros Eb W Ro St Pr Pn Au Nn Al. pose proof W as (Ec & Le & Sp & Sd).
  assert (Rh : read_hello o (encode_binding (o_binding o') ++ theirs) = Ok (theirs, [])).
  { unfold read_hello. rewrite Eb, BinaryReader.bytes_app by (unfold len; by rewrite length_encode_binding by (by apply wf_reversed)).
    rewrite (proj2 (binding_exact _ (reversed (o_binding o)))) by (split; [by apply wf_reversed|done]). rewrite bool_decide_true by done.
    rewrite <- (app_nil_r theirs) at 1. unfold BinaryReader.array. rewrite BinaryReader.bytes_app by (unfold len; by rewrite Lt). done. }
  destruct hello_encoded as [Eh Lh], proof_encoded as [Ep Lp].
  unfold on_frame, dbind at 1, dget. rewrite Le, Sp. unfold dbind at 1, dcheck at 1. cbn [andb negb dret]. unfold dbind at 1, dcheck at 1.
  cbn [request_id hello_frame Z.eqb dret type_ payload]. rewrite bool_decide_false by done. unfold dbind at 1, dconn. rewrite Ec. cbn [lookup list_lookup].
  rewrite Al. unfold dbind at 1, dalter at 1, dput. rewrite Ec. cbn [alter list_alter]. unfold dbind at 1, dcheck at 1. cbn [dret].
  unfold dbind at 1, dcheck at 1. rewrite Pn, bool_decide_true by done. cbn [dret]. unfold dbind at 1, dpure at 1. rewrite Rh. cbn [fst snd].
  unfold dbind at 1, dalter at 1, dput. cbn [alter list_alter dq_connections set_connections]. unfold dbind at 1, dpure at 1. cbn [BinaryReader.finish].
  set (c1 := set_c_peer_nonce theirs (set_c_rate r c)). set (d1 := set_connections [c1] (set_connections [set_c_rate r c] d)).
  destruct (hello_sent 2 c1 d1) as (s1 & R1 & E1); [done|done|lia|done|done|].
  destruct (proof_sent 3 (set_c_sends s1 (set_c_hello c1)) (set_connections [set_c_sends s1 (set_c_hello c1)] d1)) as (s2 & R2 & E2); [done|done|lia|done|done|done|].
  unfold dbind at 1. rewrite E1, E2. exists s2. split; [done|]. unfold d1, c1, greeting, set_c_sends, set_c_hello, set_c_proof, set_c_peer_nonce, set_c_rate. cbn. rewrite Au, St, Nn. destruct (c_hello c); reflexivity.
Qed.
(** The peer's proof authorizes the connection. *)
Lemma proof_accepted s' r c d : with_one c d -> c_proof c = true -> c_peer_nonce c = Some theirs -> c_authorized c = false -> c_nonce c = nonce -> length s' = 64%nat ->
  ForwardingQuota.allow (c_rate c) (w_now w) = (true, r) -> verify_peer_binding (o_peer_key o) (reversed (o_binding o)) theirs nonce s' = Ok true ->
  on_frame secret o w 0 (mk_frame client_auth 0 s') d = (Ok tt, set_connections [set_c_authorized true (set_c_rate r c)] d, []).
Proof.
  intros W Pr Pn Au Nn Ls Al V. pose proof W as (Ec & Le & Sp & Sd).
  assert (Rs : read_signature s' = Ok s').
  { unfold read_signature, BinaryReader.array. rewrite <- (app_nil_r s') at 1. rewrite BinaryReader.bytes_app by (unfold len; by rewrite Ls). done. }
  unfold on_frame, dbind, dget, dcheck, dconn, dpure, dalter, dput. rewrite Le, Sp. cbn [andb negb dret request_id Z.eqb type_ payload].
  rewrite bool_decide_false by done. rewrite Ec. cbn [lookup list_lookup]. rewrite Al, Rs, Au, Pn, Pr, Nn, V. cbn. by rewrite Ec.
Qed.
(** One buffer that is one frame. *)
Lemma frame_received f bs c c' d d' l : with_one c d -> c_decoder c = mk_decoder [] 0 -> word 4 (request_id f) -> encode_frame f = Ok bs ->
  on_frame secret o w 0 f d = (Ok tt, d', l) -> dq_connections d' = [c'] -> c_decoder c' = mk_decoder [] 0 -> on_buffer secret o w 0 bs d = (Ok tt, d', l).
Proof.
  intros (Ec & _) Dc Wf E H Ec' Dc'. unfold on_buffer, decode_at, dbind, dconn, dalter, dput, dpure. rewrite Ec. cbn [lookup list_lookup].
  rewrite Dc, (push_frame f bs Wf E). unfold id. cbn [default from_option].
  rewrite Ec. cbn [alter list_alter].
  assert (Es : set_connections [set_c_decoder (mk_decoder [] 0) c] d = d) by (destruct d, c; cbn in *; by subst). rewrite Es. cbn [app dfor]. unfold dbind. rewrite H.
  cbn [dret]. rewrite Ec'. cbn [lookup list_lookup]. rewrite Dc'. replace (negb (buffered_size (mk_decoder [] 0) >? stream_limit)) with true by reflexivity. cbn. by rewrite ?app_nil_r.
Qed.
End Opening.

Fixpoint run {C : Crypto} (secret : bytes) (o : DirectQuicOptions) (es : list direct_event) (d : Direct) : Direct * list direct_output :=
  match es with
  | [] => (d, [])
  | e :: es => let (d', l) := run secret o es (step secret o e d) in (d', outputs secret o e d ++ l)
  end.

Lemma run_app {C : Crypto} secret o es es' d :
  run secret o (es ++ es') d = let (d1, l) := run secret o es d in let (d2, l') := run secret o es' d1 in (d2, l ++ l').
Proof.
  revert d. induction es as [|e es IH]; intros d; cbn [app run]; [by destruct (run secret o es' d)|]. rewrite IH. destruct (run secret o es _) as [d1 l].
  destruct (run secret o es' d1) as [d2 l']. by rewrite app_assoc.
Qed.

Section Pair.
Context {C : Crypto} {L : CryptoLaws C}.

(** Both ends are constructed, know each other's keys, draw fresh nonces and can sign; MsQuic takes every buffer. *)
Record peers_ready (sa sb : bytes) (oa ob : DirectQuicOptions) (na nb : bytes) (w w' : DirectWorld) (a0 b0 : Direct) : Prop := mk_peers_ready {
  pr_new_a : new_direct sa oa = Ok a0; pr_new_b : new_direct sb ob = Ok b0; pr_role : initiates oa = true;
  pr_wf : wf_binding (o_binding oa); pr_reversed : o_binding ob = reversed (o_binding oa);
  pr_key_a : identity_public_key (o_peer_key oa) = ed25519_public sb; pr_key_b : identity_public_key (o_peer_key ob) = ed25519_public sa;
  pr_lengths : length na = 32%nat /\ length nb = 32%nat; pr_fresh : Punch.fresh na nb = true;
  pr_signs : is_ok (sign_peer_binding sa (o_binding oa) na nb) = true /\ is_ok (sign_peer_binding sb (o_binding ob) nb na) = true;
  pr_taken : (forall bs, w_taken w bs = true) /\ (forall bs, w_taken w' bs = true);
  pr_rate : fst (ForwardingQuota.allow (snd (ForwardingQuota.allow default_rate_limit (w_now w))) (w_now w')) = true }.

Lemma new_direct_ok secret o d : new_direct secret o = Ok d ->
  d = mk_direct [] false false false 0 0 0 0 0 0 /\ identity_device_id secret = Ok (b_local_device (o_binding o)) /\
  verify_signed_device_key (o_peer_key o) (b_peer_device (o_binding o)) = Ok true /\ encryption_public_key (o_peer_key o) = b_peer_session (o_binding o).
Proof.
  unfold new_direct, direct_authorized. destruct (identity_device_id secret) as [id|]; [|done]. destruct (bool_decide_reflect (id = b_local_device (o_binding o))) as [->|]; [|done].
  cbn [negb]. destruct (verify_signed_device_key _ _) as [v|]; [|done]. intros H. destruct (v && _ && _ && _ && _ && _ && _ && _) eqn:G; [|done].
  apply Ok_inj in H as <-. destruct v; [|done]. rewrite !andb_true_iff in G. destruct G as (((((((_ & G) & _) & _) & _) & _) & _) & _). bool_prop. done.
Qed.

Lemma first_allowed t : exists r, ForwardingQuota.allow default_rate_limit t = (true, r) /\ fst (ForwardingQuota.allow r t) = true.
Proof.
  unfold ForwardingQuota.allow at 1. cbn [updated_ default_rate_limit tokens_ rate_ capacity_].
  match goal with |- context [if ?b then _ else _] => replace b with false by (vm_compute; reflexivity) end. eexists. split; [done|].
  unfold ForwardingQuota.allow. cbn [updated_ tokens_ rate_ capacity_]. rewrite Z.gtb_ltb, Z.ltb_irrefl.
  match goal with |- context [if ?b then _ else _] => replace b with false by (vm_compute; reflexivity) end. done.
Qed.

Definition empty_sends : Sends := mk_sends (mk_budget default_queue_limits 0 0 0) [].
Definition new_connection (outgoing stream : bool) (nonce : bytes) : Peering :=
  mk_peering stream outgoing false false false false nonce None 0 (mk_decoder [] 0) empty_sends default_rate_limit.
Lemma new_peering_ok outgoing nonce : new_peering outgoing (Some nonce) = Ok (new_connection outgoing false nonce).
Proof. reflexivity. Qed.
Definition opened (port : Z) (c : Peering) : Direct := mk_direct [c] true false true port 0 0 0 0 0.
Definition fresh_direct : Direct := mk_direct [] false false false 0 0 0 0 0 0.

Lemma bytes_lt_irrefl a : bytes_lt a a = false.
Proof. induction a as [|x a IH]; cbn; [done|]. by rewrite Z.ltb_irrefl. Qed.
Lemma initiates_alone o : initiates o = true -> listens o = false.
Proof.
  unfold initiates, listens. intros H. rewrite bytes_lt_total, H; [done|]. intros E. rewrite E, bytes_lt_irrefl in H. done.
Qed.
Lemma roomy_empty : roomy 0 empty_sends.
Proof. split; [done|]. cbn. lia. Qed.

(** The initiator connects and says hello; the other side accepts. *)
Lemma initiator_opens secret o nonce w snapshot port e : wf_binding (o_binding o) -> length nonce = 32%nat -> (forall bs, w_taken w bs = true) ->
  initiates o = true -> peer_binding_authorized (o_binding o) (o_peer_key o) (o_local_ipv4 o) (o_peer_ipv4 o) snapshot = Ok true -> usable_endpoint e false = true ->
  exists hello s, encode_frame (hello_frame o nonce) = Ok hello /\ len hello = 216 /\ roomy 1 s /\
    run secret o [de_synchronize snapshot; de_start (Ok port); de_connect e (Some nonce) true true; de_connected w 0 true true] fresh_direct =
    (opened port (set_c_sends s (set_c_hello (new_connection true true nonce))), [put_bytes 0 false hello]).
Proof.
  intros Wb Ln Tk In Au Us. destruct (hello_encoded o nonce nonce Wb Ln Ln) as [Eh Lh]. pose proof (initiates_alone o In) as Li.
  destruct (hello_sent o nonce nonce w Wb Ln Ln Tk 0 (new_connection true true nonce) (opened port (new_connection true true nonce))) as (s & R & E); [done|apply roomy_empty|lia|done|done|].
  eexists _, s. split; [exact Eh|]. split; [done|]. split; [done|].
  assert (E1 : handle secret o (de_synchronize snapshot) fresh_direct = (Ok tt, set_lease true fresh_direct, [])) by (cbn; unfold synchronize, dbind, dpure; by rewrite Au).
  assert (E3 : handle secret o (de_connect e (Some nonce) true true) (set_started port (set_lease true fresh_direct)) = (Ok tt, opened port (new_connection true false nonce), [])).
  { cbn [handle]. unfold connect, dbind, dget. rewrite Li, Us. reflexivity. }
  assert (E4 : handle secret o (de_connected w 0 true true) (opened port (new_connection true false nonce)) =
    (Ok tt, opened port (set_c_sends s (set_c_hello (new_connection true true nonce))), greeting o nonce (new_connection true true nonce))).
  { cbn [handle]. unfold on_connected, or_shut, dbind, dconn, dget, dcheck, dalter, dput, dret. cbn -[hello greeting].
    match goal with |- context [hello o w 0 ?d] => change d with (opened port (new_connection true true nonce)) end. rewrite E. reflexivity. }
  cbn [run]. unfold step, outputs. rewrite E1. cbn [fst snd]. change (handle secret o (de_start (Ok port)) (set_lease true fresh_direct)) with (@Ok unit tt, set_started port (set_lease true fresh_direct), @nil direct_output).
  cbn [fst snd]. rewrite E3. cbn [fst snd]. rewrite E4. reflexivity.
Qed.
Lemma responder_opens secret o nonce snapshot port :
  peer_binding_authorized (o_binding o) (o_peer_key o) (o_local_ipv4 o) (o_peer_ipv4 o) snapshot = Ok true ->
  run secret o [de_synchronize snapshot; de_start (Ok port); de_accept (Some nonce) true; de_peer_stream 0] fresh_direct = (opened port (new_connection false true nonce), []).
Proof.
  intros Au. assert (E1 : handle secret o (de_synchronize snapshot) fresh_direct = (Ok tt, set_lease true fresh_direct, [])) by (cbn; unfold synchronize, dbind, dpure; by rewrite Au).
  cbn [run]. unfold step, outputs. rewrite E1. reflexivity.
Qed.
Lemma receive_frames secret o w total bs c d d' l : with_one c d -> total <= stream_limit -> on_buffer secret o w 0 bs d = (Ok tt, d', l) ->
  handle secret o (de_receive w 0 total [bs]) d = (Ok tt, d', l).
Proof.
  intros (_ & _ & Sp & _) T E. cbn [handle]. unfold on_receive, or_shut. unfold dbind at 1, dget. rewrite Sp.
  replace (negb (total >? stream_limit)) with true by (symmetry; rewrite negb_true_iff, Z.gtb_ltb, Z.ltb_ge; lia). unfold dbind at 1, dcheck, dret. cbn [dfor].
  unfold dbind at 1. rewrite E. cbn. by rewrite app_nil_r.
Qed.
Lemma receive_two secret o w total bs bs' c d c' d' d'' l l' : with_one c d -> total <= stream_limit -> on_buffer secret o w 0 bs d = (Ok tt, d', l) ->
  with_one c' d' -> on_buffer secret o w 0 bs' d' = (Ok tt, d'', l') ->
  handle secret o (de_receive w 0 total [bs; bs']) d = (Ok tt, d'', l ++ l').
Proof.
  intros (_ & _ & Sp & _) T E _ E'. cbn [handle]. unfold on_receive, or_shut. unfold dbind at 1, dget. rewrite Sp.
  replace (negb (total >? stream_limit)) with true by (symmetry; rewrite negb_true_iff, Z.gtb_ltb, Z.ltb_ge; lia). unfold dbind at 1, dcheck, dret. cbn [dfor].
  unfold dbind at 1. rewrite E. unfold dbind at 1. rewrite E'. cbn. by rewrite app_nil_r.
Qed.

Definition settled (outgoing : bool) (nonce theirs : bytes) (s : Sends) (r : ControlRateLimit) : Peering :=
  mk_peering true outgoing true true true false nonce (Some theirs) 0 (mk_decoder [] 0) s r.
Lemma settled_authenticated o port outgoing nonce theirs s r : is_authenticated o (opened port (settled outgoing nonce theirs s r)) = true /\
  selected o (opened port (settled outgoing nonce theirs s r)) = Some 0%nat.
Proof. unfold is_authenticated, selected. cbn. by destruct (Bool.eqb outgoing (initiates o)). Qed.

(** The four messages. *)
Lemma exchange_completes sa sb oa ob na nb w w' a0 b0 snap_a snap_b port_a port_b e : peers_ready sa sb oa ob na nb w w' a0 b0 ->
  peer_binding_authorized (o_binding oa) (o_peer_key oa) (o_local_ipv4 oa) (o_peer_ipv4 oa) snap_a = Ok true ->
  peer_binding_authorized (o_binding ob) (o_peer_key ob) (o_local_ipv4 ob) (o_peer_ipv4 ob) snap_b = Ok true -> usable_endpoint e false = true ->
  exists hello_a hello_b proof_a proof_b a1 b1 s_a s_b r_a r_b,
    let a2 := opened port_a (settled true na nb s_a r_a) in
    let b2 := opened port_b (settled false nb na s_b r_b) in
    roomy 4 s_a /\
    run sa oa [de_synchronize snap_a; de_start (Ok port_a); de_connect e (Some na) true true; de_connected w 0 true true] a0 = (a1, [put_bytes 0 false hello_a]) /\
    run sb ob [de_synchronize snap_b; de_start (Ok port_b); de_accept (Some nb) true; de_peer_stream 0; de_receive w 0 (len hello_a) [hello_a]] b0 =
      (b1, [put_bytes 0 false hello_b; put_bytes 0 false proof_b]) /\
    run sa oa [de_receive w 0 (len hello_b + len proof_b) [hello_b; proof_b]] a1 = (a2, [put_bytes 0 false proof_a]) /\
    run sb ob [de_receive w' 0 (len proof_a) [proof_a]] b1 = (b2, []).
Proof.
  intros [Na Nb Ro Wb Rv Ka Kb [La Lb] Fr [Sga Sgb] [Tk Tk'] Rate] Aa Ab Us.
  destruct (new_direct_ok _ _ _ Na) as (-> & Ia & Va & Ea). destruct (new_direct_ok _ _ _ Nb) as (-> & Ib & Vb & Eb).
  destruct (sign_peer_binding sa _ na nb) as [sga|] eqn:Sa; [|done]. destruct (sign_peer_binding sb _ nb na) as [sgb|] eqn:Sb; [|done].
  assert (Wb' : wf_binding (o_binding ob)) by (rewrite Rv; by apply wf_reversed).
  assert (Rv' : o_binding oa = reversed (o_binding ob)) by (by rewrite Rv, reversed_reversed).
  assert (Pa : verify_peer_binding (o_peer_key oa) (reversed (o_binding oa)) nb na sgb = Ok true).
  { rewrite <- Rv. apply (peer_proof_accepted sb); rewrite ?Rv; cbn; try done. by rewrite <- Rv. }
  assert (Pb : verify_peer_binding (o_peer_key ob) (reversed (o_binding ob)) na nb sga = Ok true).
  { rewrite <- Rv'. apply (peer_proof_accepted sa); try done; by rewrite Rv' || (rewrite Rv; cbn; rewrite <- ?Rv). }
  destruct (initiator_opens sa oa na w snap_a port_a e Wb La Tk Ro Aa Us) as (ha & s0 & Eha & Lha & R0 & RunA).
  pose proof (responder_opens sb ob nb snap_b port_b Ab) as RunB.
  destruct (first_allowed (w_now w)) as (r1 & Al1 & Al2). destruct (ForwardingQuota.allow r1 (w_now w)) as [ok r2] eqn:Al2'. cbn in Al2. subst ok.
  rewrite Al1 in Rate. cbn in Rate. destruct (ForwardingQuota.allow r1 (w_now w')) as [ok r3] eqn:Al3. cbn in Rate. subst ok.
  destruct (hello_encoded ob nb na Wb' Lb La) as [Ehb Lhb].
  destruct (proof_encoded sa oa na nb sga La Lb Sa) as [Epa Lpa]. destruct (proof_encoded sb ob nb na sgb Lb La Sb) as [Epb Lpb].
  set (cb := new_connection false true nb). set (db := opened port_b cb).
  destruct (hello_answered sb ob nb na sgb w Wb' Lb La Sb Tk oa r1 cb db Rv') as (sb1 & Rb1 & Fb); [done|split; [done|cbn; lia]|done..|].
  assert (W0 : word 4 0) by (split; lia).
  pose proof (frame_received sb ob w (hello_frame oa na) ha cb _ db _ _ (conj eq_refl (conj eq_refl (conj eq_refl eq_refl))) eq_refl W0 Eha Fb eq_refl eq_refl) as Bb.
  apply (receive_frames sb ob w (len ha) ha cb db) in Bb; [|done|rewrite Lha; unfold stream_limit; lia].
  set (ca := set_c_sends s0 (set_c_hello (new_connection true true na))) in *. set (da := opened port_a ca) in *.
  destruct (hello_answered sa oa na nb sga w Wb La Lb Sa Tk ob r1 ca da Rv) as (sa1 & Ra1 & Fa); [done|destruct R0 as (X & Y & Z); split; [done|cbn; lia]|done..|].
  pose proof (frame_received sa oa w (hello_frame ob nb) _ ca _ da _ _ (conj eq_refl (conj eq_refl (conj eq_refl eq_refl))) eq_refl W0 Ehb Fa eq_refl eq_refl) as Ba.
  set (ca1 := mk_peering true _ true true false _ na (Some nb) _ _ sa1 r1) in Fa, Ba. set (da1 := set_connections [ca1] da) in *.
  pose proof (proof_accepted sa oa na nb w sgb r2 ca1 da1 (conj eq_refl (conj eq_refl (conj eq_refl eq_refl))) eq_refl eq_refl eq_refl eq_refl
    (signature_length sb ob nb na sgb Sb) Al2' Pa) as Fa2.
  pose proof (frame_received sa oa w (mk_frame client_auth 0 sgb) _ ca1 _ da1 _ _ (conj eq_refl (conj eq_refl (conj eq_refl eq_refl))) eq_refl W0 Epb Fa2 eq_refl eq_refl) as Ba2.
  set (cb1 := mk_peering true _ true true false _ nb (Some na) _ _ sb1 r1) in Fb, Bb. set (db1 := set_connections [cb1] db) in *.
  pose proof (proof_accepted sb ob nb na w' sga r3 cb1 db1 (conj eq_refl (conj eq_refl (conj eq_refl eq_refl))) eq_refl eq_refl eq_refl eq_refl
    (signature_length sa oa na nb sga Sa) Al3 Pb) as Fb2.
  pose proof (frame_received sb ob w' (mk_frame client_auth 0 sga) _ cb1 _ db1 _ _ (conj eq_refl (conj eq_refl (conj eq_refl eq_refl))) eq_refl W0 Epa Fb2 eq_refl eq_refl) as Bb2.
  apply (receive_frames sb ob w' (len (header (message_type_value client_auth) 0 64 ++ sga)) _ cb1 db1) in Bb2; [|done|rewrite Lpa; unfold stream_limit; lia].
  set (hb := header _ _ _ ++ encode_binding _ ++ nb) in *. set (pb := header _ _ _ ++ sgb) in *. set (pa := header _ _ _ ++ sga) in *.
  assert (Ba3 := receive_two sa oa w (len hb + len pb) hb pb ca da ca1 da1 _ _ _ (conj eq_refl (conj eq_refl (conj eq_refl eq_refl)))
    ltac:(rewrite Lhb, Lpb; unfold stream_limit; lia) Ba (conj eq_refl (conj eq_refl (conj eq_refl eq_refl))) Ba2).
  exists ha, hb, pa, pb, da, db1, sa1, sb1, r2, r3. cbv zeta. split; [exact Ra1|]. split; [exact RunA|]. split_and!.
  - change [de_synchronize snap_b; de_start (Ok port_b); de_accept (Some nb) true; de_peer_stream 0; de_receive w 0 (len ha) [ha]] with
      ([de_synchronize snap_b; de_start (Ok port_b); de_accept (Some nb) true; de_peer_stream 0] ++ [de_receive w 0 (len ha) [ha]]).
    change (mk_direct [] false false false 0 0 0 0 0 0) with fresh_direct. rewrite run_app, RunB. cbn [run]. unfold step, outputs. fold cb db. rewrite Bb. reflexivity.
  - cbn [run]. unfold step, outputs. rewrite Ba3. reflexivity.
  - cbn [run]. unfold step, outputs. rewrite Bb2. reflexivity.
Qed.

(** A packet of the path crosses it unchanged. *)
Lemma data_sent s (bs : bytes) : roomy 4 s -> 0 < len bs <= 100000 -> exists s', submit (len bs) false true true s = (quic_success, s').
Proof.
  intros (Lm & U & F) B. unfold submit, reserve. rewrite Lm. cbn [limit_bytes limit_frames reserved_control_bytes reserved_control_frames default_queue_limits].
  match goal with |- context [if ?b then (None, _) else _] => assert (G : b = false) end.
  { rewrite !orb_false_iff, Z.eqb_neq, !Z.gtb_ltb, !Z.ltb_ge, Z.geb_leb, Z.leb_gt. lia. }
  rewrite G. by eexists.
Qed.
Lemma packet_length p body : wf_packet p -> encode_encrypted_network_packet p = Ok body -> 0 < len body <= 70000 /\ decode_encrypted_network_packet body = Ok p.
Proof.
  intros W E. assert (D : decode_encrypted_network_packet body = Ok p) by (by apply encrypted_packet_exact). split; [|done].
  unfold decode_encrypted_network_packet in D. destruct (_ || _) eqn:G in D; [done|]. apply orb_false_iff in G as [G1 G2]. bool_prop.
  unfold min_virtual_ipv4_packet_size, max_virtual_ipv4_packet_size in *. assert (Z.of_nat fixed_size <= 200) by (vm_compute; discriminate). lia.
Qed.
Lemma packet_crosses oa ob sb na nb s_a s_b r_a r_b port_a port_b w p body :
  o_binding ob = reversed (o_binding oa) -> o_local_ipv4 ob = o_peer_ipv4 oa -> roomy 4 s_a -> (forall bs, w_taken w bs = true) -> (forall x, w_handled w x = true) ->
  wf_packet p -> encode_encrypted_network_packet p = Ok body -> ours oa p (o_peer_ipv4 oa) = true ->
  exists bs a3, send oa w p (opened port_a (settled true na nb s_a r_a)) = (Ok accepted, a3, [put_bytes 0 false bs]) /\
    outputs sb ob (de_receive w 0 (len bs) [bs]) (opened port_b (settled false nb na s_b r_b)) = [deliver (mk_forwarded (b_local_device (o_binding oa)) p)].
Proof.
  intros Rv Ad Ro Tk Hd Wp Eb O. destruct (packet_length p body Wp Eb) as [B D].
  set (a2 := opened port_a (settled true na nb s_a r_a)). set (cb := settled false nb na s_b r_b). set (b2 := opened port_b cb).
  assert (Ef : encode_frame (mk_frame network_packet_send 0 body) = Ok (header (message_type_value network_packet_send) 0 (len body) ++ body)).
  { apply encode_frame_total; cbn; [done|]. unfold max_payload_size. lia. }
  set (bs := header _ _ _ ++ body) in Ef. assert (Lb : len bs = 16 + len body) by (unfold bs; by rewrite len_app, len_header).
  destruct (data_sent s_a bs Ro ltac:(lia)) as [s' Es]. exists bs. eexists. split.
  - unfold send, dbind, dget, a2. rewrite (proj2 (settled_authenticated oa port_a true na nb s_a r_a)). cbn [a2 opened dq_stopping dq_lease_valid orb negb]. rewrite O. cbn [negb].
    unfold dpure at 1. rewrite Eb. unfold dconn. cbn [opened dq_connections lookup list_lookup settled c_datagram_size Z.eqb negb andb]. unfold dpure. rewrite Ef.
    unfold output, dbind, dconn. cbn [opened dq_connections lookup list_lookup settled c_sends]. rewrite Tk, Es. cbn. reflexivity.
  - assert (Fb : on_frame sb ob w 0 (mk_frame network_packet_send 0 body) b2 = (Ok tt, count_received (len body) b2, [deliver (mk_forwarded (b_local_device (o_binding oa)) p)])).
    { unfold on_frame, dbind at 1, dget. cbn [b2 opened dq_lease_valid dq_stopping andb negb]. unfold dbind at 1, dcheck at 1. cbn [dret]. unfold dbind at 1, dcheck at 1.
      cbn [request_id Z.eqb dret type_]. rewrite bool_decide_true by done. unfold data, dbind, dconn, dget, dpure. cbn [opened dq_connections lookup list_lookup cb settled c_authorized dq_stopping dq_lease_valid negb orb payload].
      rewrite D. assert (O' : ours ob p (o_local_ipv4 ob) = true) by (unfold ours in *; by rewrite Rv, Ad). rewrite O', Rv. cbn. rewrite Hd. reflexivity. }
    apply (frame_received sb ob w (mk_frame network_packet_send 0 body) bs cb cb b2) in Fb; [|done|done|split; cbn; lia|done|done|done].
    apply (receive_frames sb ob w (len bs) bs cb b2) in Fb; [|done|unfold stream_limit; lia]. unfold outputs. by rewrite Fb.
Qed.
End Pair.

(** C24: the direct path is authentic, and opens.  Whatever the two ends' callbacks do in any order: at most eight connections
    exist; a connection is authorized only after a hello for this very binding and a signature by the peer's device over that
    hello's nonce and the connection's own fresh nonce arrived on it; packets are handed to the adapter only while the
    membership lease is valid, each decoded from bytes that arrived on such a connection itself (one authorized when the event
    began, or for which the event brought the proof), under the peer's name and addressed to this member under the binding's
    network and epoch; nothing leaves but the exchange itself and, to such a connection, the packet that was to
    be sent to the peer.  A snapshot that no longer covers the binding stops the path, and a stopped path
    stays stopped and neither sends nor delivers.  Two members that know each other's keys authenticate each other in four
    messages, and a packet sent then is delivered unchanged under its sender's name. *)
Theorem direct_path_secure {C : Crypto} {L : CryptoLaws C} :
  (forall identity o d g, direct_reach identity o d g ->
     len (dq_connections d) <= 8 /\
     (forall i c, dq_connections d !! i = Some c -> c_authorized c = true -> trusted o (c_nonce c) (g i)) /\
     (forall e x, x ∈ outputs identity o e d ->
        output_ok identity o (fun i => g i ++ decoded e d i) (sending e) (arrives e d) (vouched_for e d) (dq_lease_valid d) (dq_stopping d) (map c_nonce (dq_connections d)) x) /\
     (dq_stopping d = true -> forall e, dq_stopping (step identity o e d) = true /\ forall x, x ∈ outputs identity o e d -> exists i, x = shut i) /\
     (forall snapshot, peer_binding_authorized (o_binding o) (o_peer_key o) (o_local_ipv4 o) (o_peer_ipv4 o) snapshot = Ok false ->
        dq_stopping (step identity o (de_synchronize snapshot) d) = true)) /\
  (forall sa sb oa ob na nb w w' a0 b0 snap_a snap_b port_a port_b e, peers_ready sa sb oa ob na nb w w' a0 b0 ->
     peer_binding_authorized (o_binding oa) (o_peer_key oa) (o_local_ipv4 oa) (o_peer_ipv4 oa) snap_a = Ok true ->
     peer_binding_authorized (o_binding ob) (o_peer_key ob) (o_local_ipv4 ob) (o_peer_ipv4 ob) snap_b = Ok true -> usable_endpoint e false = true ->
     exists hello_a hello_b proof_a proof_b a1 b1 a2 b2,
       run sa oa [de_synchronize snap_a; de_start (Ok port_a); de_connect e (Some na) true true; de_connected w 0 true true] a0 = (a1, [put_bytes 0 false hello_a]) /\
       run sb ob [de_synchronize snap_b; de_start (Ok port_b); de_accept (Some nb) true; de_peer_stream 0; de_receive w 0 (len hello_a) [hello_a]] b0 =
         (b1, [put_bytes 0 false hello_b; put_bytes 0 false proof_b]) /\
       run sa oa [de_receive w 0 (len hello_b + len proof_b) [hello_b; proof_b]] a1 = (a2, [put_bytes 0 false proof_a]) /\
       run sb ob [de_receive w' 0 (len proof_a) [proof_a]] b1 = (b2, []) /\
       is_authenticated oa a2 = true /\ is_authenticated ob b2 = true /\
       forall p body, o_local_ipv4 ob = o_peer_ipv4 oa -> (forall x, w_handled w x = true) -> wf_packet p -> encode_encrypted_network_packet p = Ok body ->
         ours oa p (o_peer_ipv4 oa) = true ->
         exists bs a3, send oa w p a2 = (Ok accepted, a3, [put_bytes 0 false bs]) /\
           outputs sb ob (de_receive w 0 (len bs) [bs]) b2 = [deliver (mk_forwarded (b_local_device (o_binding oa)) p)]).
Proof.
  split.
  - intros identity o d g R. pose proof (direct_reach_inv identity o d g R) as I. set (g' := fun e i => g i ++ decoded e d i).
    assert (Ig : forall e, direct_inv o (g' e) d) by (intros e; apply (direct_inv_mono o g); [|done]; intros i f Hf; apply elem_of_app; by left).
    assert (K : forall e, good_step identity o (g' e) e d (step identity o e d) (outputs identity o e d)).
    { intros e. pose proof (step_kept identity o (g' e) e d (Ig e)) as K. unfold step, outputs. destruct (handle identity o e d) as [[r d'] l]. apply K.
      intros i f Hf. apply elem_of_app. by right. }
    split_and!.
    + apply (di_bound _ _ _ I).
    + intros i c E A. apply trusted_conn; [by apply (di_conn _ _ _ I)|done].
    + intros e x Hx. destruct (K e) as (_ & F & _). rewrite Forall_forall in F. by apply F.
    + intros St e. destruct (K e) as (_ & F & S). split; [by apply S|]. intros x Hx. rewrite Forall_forall in F. specialize (F x Hx).
      unfold allowed in F. rewrite (di_stopped _ _ _ I St), St in F. destruct x as [i dg bs|p|i]; [| |by exists i].
      * destruct F as [(_ & n & N & _)|(p & _ & _ & (_ & X & _) & _)]; done.
      * destruct F as (_ & _ & i & bs & _ & _ & _ & X & _). done.
    + intros snapshot E. unfold step. cbn [handle]. unfold synchronize, dbind, dpure. rewrite E. cbn. unfold stop. cbn. by destruct (dq_stopping d) eqn:S.
  - intros sa sb oa ob na nb w w' a0 b0 snap_a snap_b port_a port_b e Rd Aa Ab Us.
    destruct (exchange_completes _ _ _ _ _ _ _ _ _ _ snap_a snap_b port_a port_b e Rd Aa Ab Us) as (ha & hb & pa & pb & a1 & b1 & s_a & s_b & r_a & r_b & Ro & R1 & R2 & R3 & R4).
    exists ha, hb, pa, pb, a1, b1, (opened port_a (settled true na nb s_a r_a)), (opened port_b (settled false nb na s_b r_b)). split_and!; try done; try apply settled_authenticated.
    intros p body Ad Hd Wp Ep O. apply (packet_crosses oa ob sb na nb s_a s_b r_a r_b port_a port_b w p body); try done; [apply Rd|apply Rd].
Qed.

(** ** Alice and Bob *)

Section Concrete.
#[local] Existing Instance toy_crypto.
Definition easy_world : DirectWorld := mk_direct_world (fun _ => true) (fun _ => true) 5.
Definition alice_options : DirectQuicOptions := mk_direct_options alice_binding (toy_signed_key punch_bob) 0x0a400002 0x0a400003 4000.
Definition bob_options : DirectQuicOptions := mk_direct_options (reversed alice_binding) (toy_signed_key punch_alice) 0x0a400003 0x0a400002 4001.
Definition view_of (me peer : bytes) (own other : Z) : NetworkSnapshot :=
  mk_snapshot (Some (mk_identity me (toy_signed_key me)))
    [mk_active (mk_peer_state (replicate 16 x01) 1 0x0a400000 24 own [mk_peer peer other (Some (toy_signed_key peer))] me 2 None) (mk_key_snapshot 2 (replicate 32 x08))].
Definition direct_start : Direct := mk_direct [] false false false 0 0 0 0 0 0.
Definition alice_view : NetworkSnapshot := view_of punch_alice punch_bob 0x0a400002 0x0a400003.
Definition bob_view : NetworkSnapshot := view_of punch_bob punch_alice 0x0a400003 0x0a400002.

Lemma alice_and_bob_ready : peers_ready (C := toy_crypto) punch_alice punch_bob alice_options bob_options (replicate 32 x07) (replicate 32 x08) easy_world easy_world direct_start direct_start.
Proof. split; [vm_compute; reflexivity..|apply alice_binding_wf| | | | | | | |]; try (vm_compute; (reflexivity || (split; reflexivity))); by split. Qed.

Lemma direct_path_secure_witness :
  (exists a1 bytes, run (C := toy_crypto) punch_alice alice_options
     [de_synchronize alice_view; de_start (Ok 4000); de_connect bob_at (Some (replicate 32 x07)) true true; de_connected easy_world 0 true true] direct_start =
     (a1, [put_bytes 0 false bytes])) /\
  dq_stopping (step (C := toy_crypto) punch_alice alice_options (de_synchronize bob_view) direct_start) = true.
Proof.
  destruct (direct_path_secure (C := toy_crypto) (L := toy_laws)) as [S O]. split.
  - destruct (O punch_alice punch_bob alice_options bob_options (replicate 32 x07) (replicate 32 x08) easy_world easy_world direct_start direct_start
      alice_view bob_view 4000 4001 bob_at alice_and_bob_ready) as (h & _ & _ & _ & a1 & _ & _ & _ & R & _); [vm_compute; reflexivity..|]. exists a1, h. exact R.
  - assert (R : direct_reach punch_alice alice_options direct_start (fun _ => [])) by (constructor; vm_compute; reflexivity).
    destruct (S _ _ _ _ R) as (_ & _ & _ & _ & St). apply St. vm_compute. reflexivity.
Defined.
End Concrete.
