(* ===== verification/PeerPath.v ===== *)
(** * The path to each peer

    session/peer_packet_path.hpp and .cpp: for each member of the active networks, the candidates that are exchanged, the
    hole punching, the direct connection and the choice between it and the relay.  One turn of the worker looks at
    every peer; [send] and the callbacks of direct connections run on other threads and are steps of their own.
    The session (snapshot, capabilities, received candidates), sockets, interfaces, random draws and the clock of a turn
    are the record [PathWorld]; what is drawn while a peer is prepared is indexed by the generation it is given. *)
From S2P Require Import Connectivity Limits ForwardingQuota QuicSend Candidates RelayStore RoutedNetwork Punch PathDiagnostics PathQuality Stun LocalCandidates.
From S2P Require Import Prelude Wire Codec StreamDecoder NetworkPolicy NetworkMessages PacketMessages Crypto Handshake DirectQuic.

Record Peer := mk_path_peer {
  p_binding : PeerBinding; p_key : SignedDeviceKey; p_local_ip : Z; p_peer_ip : Z; p_local : list Candidate; p_remote : list Candidate;
  p_socket : option Z; p_punch : option PunchSession; p_checks : option ConnectivityChecks; p_direct : option (DirectQuicOptions * Direct);
  p_selector : PathSelector; p_sampled : Z; p_use_direct : bool; p_send_failed : bool; p_reason : PathReason; p_created : Z; p_expires : Z;
  p_attempt_started : Z; p_published : bool; p_waiting : bool; p_was_authenticated : bool; p_retry : RevalidationBackoff; p_response_to : Z }.

Definition regenerate (local peer : Z) (b : PeerBinding) : PeerBinding :=
  mk_binding (b_network_id b) (b_key_epoch b) local peer (b_local_device b) (b_peer_device b) (b_local_session b) (b_peer_session b).

Definition closed (p : Peer) : Peer :=
  mk_path_peer (p_binding p) (p_key p) (p_local_ip p) (p_peer_ip p) (p_local p) (p_remote p) None None None None (p_selector p)
    (p_sampled p) false (p_send_failed p) (p_reason p) (p_created p) (p_expires p) (p_attempt_started p) (p_published p)
    (p_waiting p) (p_was_authenticated p) (p_retry p) (p_response_to p).
Definition renewed (generation now : Z) (p : Peer) : Peer :=
  mk_path_peer (regenerate generation 0 (p_binding p)) (p_key p) (p_local_ip p) (p_peer_ip p) [] [] (p_socket p) (p_punch p)
    (p_checks p) (p_direct p) new_selector 0 (p_use_direct p) (p_send_failed p) revalidating now (p_expires p)
    (p_attempt_started p) false true false (Limits.started (p_retry p)) 0.
Definition set_p_binding x (p : Peer) : Peer :=
  mk_path_peer x (p_key p) (p_local_ip p) (p_peer_ip p) (p_local p) (p_remote p) (p_socket p) (p_punch p) (p_checks p) (p_direct p)
    (p_selector p) (p_sampled p) (p_use_direct p) (p_send_failed p) (p_reason p) (p_created p) (p_expires p)
    (p_attempt_started p) (p_published p) (p_waiting p) (p_was_authenticated p) (p_retry p) (p_response_to p).
Definition set_p_local x (p : Peer) : Peer :=
  mk_path_peer (p_binding p) (p_key p) (p_local_ip p) (p_peer_ip p) x (p_remote p) (p_socket p) (p_punch p) (p_checks p) (p_direct p)
    (p_selector p) (p_sampled p) (p_use_direct p) (p_send_failed p) (p_reason p) (p_created p) (p_expires p)
    (p_attempt_started p) (p_published p) (p_waiting p) (p_was_authenticated p) (p_retry p) (p_response_to p).
Definition set_p_socket x (p : Peer) : Peer :=
  mk_path_peer (p_binding p) (p_key p) (p_local_ip p) (p_peer_ip p) (p_local p) (p_remote p) x (p_punch p) (p_checks p) (p_direct p)
    (p_selector p) (p_sampled p) (p_use_direct p) (p_send_failed p) (p_reason p) (p_created p) (p_expires p)
    (p_attempt_started p) (p_published p) (p_waiting p) (p_was_authenticated p) (p_retry p) (p_response_to p).
Definition set_p_punch x (p : Peer) : Peer :=
  mk_path_peer (p_binding p) (p_key p) (p_local_ip p) (p_peer_ip p) (p_local p) (p_remote p) (p_socket p) x (p_checks p) (p_direct p)
    (p_selector p) (p_sampled p) (p_use_direct p) (p_send_failed p) (p_reason p) (p_created p) (p_expires p)
    (p_attempt_started p) (p_published p) (p_waiting p) (p_was_authenticated p) (p_retry p) (p_response_to p).
Definition set_p_checks x (p : Peer) : Peer :=
  mk_path_peer (p_binding p) (p_key p) (p_local_ip p) (p_peer_ip p) (p_local p) (p_remote p) (p_socket p) (p_punch p) x (p_direct p)
    (p_selector p) (p_sampled p) (p_use_direct p) (p_send_failed p) (p_reason p) (p_created p) (p_expires p)
    (p_attempt_started p) (p_published p) (p_waiting p) (p_was_authenticated p) (p_retry p) (p_response_to p).
Definition set_p_direct x (p : Peer) : Peer :=
  mk_path_peer (p_binding p) (p_key p) (p_local_ip p) (p_peer_ip p) (p_local p) (p_remote p) (p_socket p) (p_punch p) (p_checks p) x
    (p_selector p) (p_sampled p) (p_use_direct p) (p_send_failed p) (p_reason p) (p_created p) (p_expires p)
    (p_attempt_started p) (p_published p) (p_waiting p) (p_was_authenticated p) (p_retry p) (p_response_to p).
Definition set_p_use_direct x (p : Peer) : Peer :=
  mk_path_peer (p_binding p) (p_key p) (p_local_ip p) (p_peer_ip p) (p_local p) (p_remote p) (p_socket p) (p_punch p) (p_checks p)
    (p_direct p) (p_selector p) (p_sampled p) x (p_send_failed p) (p_reason p) (p_created p) (p_expires p)
    (p_attempt_started p) (p_published p) (p_waiting p) (p_was_authenticated p) (p_retry p) (p_response_to p).
Definition set_p_send_failed x (p : Peer) : Peer :=
  mk_path_peer (p_binding p) (p_key p) (p_local_ip p) (p_peer_ip p) (p_local p) (p_remote p) (p_socket p) (p_punch p) (p_checks p)
    (p_direct p) (p_selector p) (p_sampled p) (p_use_direct p) x (p_reason p) (p_created p) (p_expires p)
    (p_attempt_started p) (p_published p) (p_waiting p) (p_was_authenticated p) (p_retry p) (p_response_to p).
Definition set_p_reason x (p : Peer) : Peer :=
  mk_path_peer (p_binding p) (p_key p) (p_local_ip p) (p_peer_ip p) (p_local p) (p_remote p) (p_socket p) (p_punch p) (p_checks p)
    (p_direct p) (p_selector p) (p_sampled p) (p_use_direct p) (p_send_failed p) x (p_created p) (p_expires p)
    (p_attempt_started p) (p_published p) (p_waiting p) (p_was_authenticated p) (p_retry p) (p_response_to p).
Definition set_p_published x (p : Peer) : Peer :=
  mk_path_peer (p_binding p) (p_key p) (p_local_ip p) (p_peer_ip p) (p_local p) (p_remote p) (p_socket p) (p_punch p) (p_checks p)
    (p_direct p) (p_selector p) (p_sampled p) (p_use_direct p) (p_send_failed p) (p_reason p) (p_created p) (p_expires p)
    (p_attempt_started p) x (p_waiting p) (p_was_authenticated p) (p_retry p) (p_response_to p).
Definition set_p_waiting x (p : Peer) : Peer :=
  mk_path_peer (p_binding p) (p_key p) (p_local_ip p) (p_peer_ip p) (p_local p) (p_remote p) (p_socket p) (p_punch p) (p_checks p)
    (p_direct p) (p_selector p) (p_sampled p) (p_use_direct p) (p_send_failed p) (p_reason p) (p_created p) (p_expires p)
    (p_attempt_started p) (p_published p) x (p_was_authenticated p) (p_retry p) (p_response_to p).
Definition set_p_was_authenticated x (p : Peer) : Peer :=
  mk_path_peer (p_binding p) (p_key p) (p_local_ip p) (p_peer_ip p) (p_local p) (p_remote p) (p_socket p) (p_punch p) (p_checks p)
    (p_direct p) (p_selector p) (p_sampled p) (p_use_direct p) (p_send_failed p) (p_reason p) (p_created p) (p_expires p)
    (p_attempt_started p) (p_published p) (p_waiting p) x (p_retry p) (p_response_to p).
Definition set_p_retry x (p : Peer) : Peer :=
  mk_path_peer (p_binding p) (p_key p) (p_local_ip p) (p_peer_ip p) (p_local p) (p_remote p) (p_socket p) (p_punch p) (p_checks p)
    (p_direct p) (p_selector p) (p_sampled p) (p_use_direct p) (p_send_failed p) (p_reason p) (p_created p) (p_expires p)
    (p_attempt_started p) (p_published p) (p_waiting p) (p_was_authenticated p) x (p_response_to p).
Definition set_p_response_to x (p : Peer) : Peer :=
  mk_path_peer (p_binding p) (p_key p) (p_local_ip p) (p_peer_ip p) (p_local p) (p_remote p) (p_socket p) (p_punch p) (p_checks p)
    (p_direct p) (p_selector p) (p_sampled p) (p_use_direct p) (p_send_failed p) (p_reason p) (p_created p) (p_expires p)
    (p_attempt_started p) (p_published p) (p_waiting p) (p_was_authenticated p) (p_retry p) x.
Definition set_p_attempt_started x (p : Peer) : Peer :=
  mk_path_peer (p_binding p) (p_key p) (p_local_ip p) (p_peer_ip p) (p_local p) (p_remote p) (p_socket p) (p_punch p) (p_checks p)
    (p_direct p) (p_selector p) (p_sampled p) (p_use_direct p) (p_send_failed p) (p_reason p) (p_created p) (p_expires p) x
    (p_published p) (p_waiting p) (p_was_authenticated p) (p_retry p) (p_response_to p).
Definition sampled_at (now : Z) (s : PathSelector) (d : PathDecision) (p : Peer) : Peer :=
  mk_path_peer (p_binding p) (p_key p) (p_local_ip p) (p_peer_ip p) (p_local p) (p_remote p) (p_socket p) (p_punch p) (p_checks p)
    (p_direct p) s (now + 200 * ms) (d_direct d) (p_send_failed p) (d_reason d) (p_created p) (p_expires p)
    (p_attempt_started p) (p_published p) (p_waiting p) (p_was_authenticated p) (p_retry p) (p_response_to p).
Definition learned (candidates : list Candidate) (expires : Z) (p : Peer) : Peer :=
  mk_path_peer (p_binding p) (p_key p) (p_local_ip p) (p_peer_ip p) (p_local p) candidates (p_socket p) None None (p_direct p)
    (p_selector p) (p_sampled p) (p_use_direct p) (p_send_failed p) revalidating (p_created p) expires (p_attempt_started p)
    (p_published p) (p_waiting p) (p_was_authenticated p) (p_retry p) (p_response_to p).

Definition peer_key : Type := bytes * bytes.
Record PeerPath := mk_peer_path_state {
  pp_peers : gmap peer_key Peer; pp_enabled : bool; pp_requested : Z; pp_completed : Z; pp_interfaces : option (list InterfaceAddress);
  pp_next_scan : Z; pp_generation : Z; pp_next_offer : Z; pp_active : bool; pp_handler : bool }.
Definition set_pp_peers x (s : PeerPath) : PeerPath :=
  mk_peer_path_state x (pp_enabled s) (pp_requested s) (pp_completed s) (pp_interfaces s) (pp_next_scan s) (pp_generation s) (pp_next_offer s) (pp_active s) (pp_handler s).
Definition set_pp_enabled x (s : PeerPath) : PeerPath :=
  mk_peer_path_state (pp_peers s) x (pp_requested s) (pp_completed s) (pp_interfaces s) (pp_next_scan s) (pp_generation s) (pp_next_offer s) (pp_active s) (pp_handler s).
Definition set_pp_requested x (s : PeerPath) : PeerPath :=
  mk_peer_path_state (pp_peers s) (pp_enabled s) x (pp_completed s) (pp_interfaces s) (pp_next_scan s) (pp_generation s) (pp_next_offer s) (pp_active s) (pp_handler s).
Definition set_pp_completed x (s : PeerPath) : PeerPath :=
  mk_peer_path_state (pp_peers s) (pp_enabled s) (pp_requested s) x (pp_interfaces s) (pp_next_scan s) (pp_generation s) (pp_next_offer s) (pp_active s) (pp_handler s).
Definition set_pp_scan l next (s : PeerPath) : PeerPath :=
  mk_peer_path_state (pp_peers s) (pp_enabled s) (pp_requested s) (pp_completed s) (Some l) next (pp_generation s) (pp_next_offer s) (pp_active s) (pp_handler s).
Definition set_pp_generation x (s : PeerPath) : PeerPath :=
  mk_peer_path_state (pp_peers s) (pp_enabled s) (pp_requested s) (pp_completed s) (pp_interfaces s) (pp_next_scan s) x (pp_next_offer s) (pp_active s) (pp_handler s).
Definition set_pp_next_offer x (s : PeerPath) : PeerPath :=
  mk_peer_path_state (pp_peers s) (pp_enabled s) (pp_requested s) (pp_completed s) (pp_interfaces s) (pp_next_scan s) (pp_generation s) x (pp_active s) (pp_handler s).
Definition set_pp_receiver active handler (s : PeerPath) : PeerPath :=
  mk_peer_path_state (pp_peers s) (pp_enabled s) (pp_requested s) (pp_completed s) (pp_interfaces s) (pp_next_scan s) (pp_generation s) (pp_next_offer s) active handler.
Definition next_generation (s : PeerPath) : Z := (pp_generation s + 1) mod 2 ^ 64.
Definition set_peer k p (s : PeerPath) : PeerPath := set_pp_peers (<[k := p]> (pp_peers s)) s.

Record PeerPathOptions := mk_path_options { po_enabled : bool; po_loopback : bool; po_stun : list Endpoint }.

(** What leaves: an offer (and whether the session took it), a datagram of the probe socket, a connection to an endpoint, what a
    direct connection does, a packet for the relay, a packet for the receive handler. *)
Inductive path_output :=
| offer (x : CandidateExchange) (taken : bool) | probe (destination : Endpoint) (bs : bytes) | connecting (k : peer_key) (e : Endpoint) | direct_out (k : peer_key) (x : direct_output)
| relayed_packet (p : EncryptedNetworkPacket) | handed (p : ForwardedNetworkPacket).

Record PathWorld := mk_path_world {
  pw_now : Z; pw_snapshot : NetworkSnapshot; pw_capable : bool; pw_relay_rtt : option Z; pw_offers : list CandidateExchange;
  pw_clock : Z -> Z; pw_interfaces : Z -> list InterfaceAddress; pw_socket : Z -> option Z;
  pw_stun : Z -> Endpoint -> option bytes * bool * list (Endpoint * bytes);
  pw_publish : CandidateExchange -> result bool; pw_nonce : peer_key -> option bytes; pw_probe : Endpoint -> bytes -> bool;
  pw_datagrams : peer_key -> list (Endpoint * bytes); pw_bound : peer_key -> result Z; pw_draw : peer_key -> option bytes;
  pw_opened : peer_key -> bool * bool; pw_stats : peer_key -> option Statistics }.

(** ** Calls *)

Definition U (S A : Type) : Type := S -> result A * S * list path_output.
Definition uret {S A} (a : A) : U S A := fun s => (Ok a, s, []).
Definition upure {S A} (r : result A) : U S A := fun s => (r, s, []).
Definition ubind {S A B} (m : U S A) (k : A -> U S B) : U S B := fun s =>
  match m s with
  | (Ok a, s, l) => match k a s with (r, s, l') => (r, s, l ++ l') end
  | (Throw e, s, l) => (Throw e, s, l)
  end.
Local Notation "'let!' x := m 'in' k" := (ubind m (fun x => k))
  (at level 10, x name, m at level 100, k at level 200, format "'[v' 'let!'  x  :=  m  'in' '/' k ']'").
Local Notation "m ;; k" := (ubind m (fun _ => k)) (at level 100, right associativity).
Definition uget {S} : U S S := fun s => (Ok s, s, []).
Definition uput {S} (f : S -> S) : U S unit := fun s => (Ok tt, f s, []).
Definition uemit {S} (x : path_output) : U S unit := fun s => (Ok tt, s, [x]).
Definition uwhen {S} (b : bool) (m : U S unit) : U S unit := if b then m else uret tt.
Fixpoint ufor {S A} (l : list A) (f : A -> U S unit) : U S unit := match l with [] => uret tt | x :: l => f x ;; ufor l f end.

Section PeerPath.
Context {C : Crypto} (identity : bytes) (me : bytes) (options : PeerPathOptions).

(** The constructor; [me] is the device id of [identity]. *)
Definition new_peer_path : result PeerPath :=
  check! negb (len (po_stun options) >? 2) else invalid_argument in
  check! forallb (fun e => usable_endpoint e (po_loopback options)) (po_stun options) else invalid_argument in
  Ok (mk_peer_path_state ∅ (po_enabled options) 0 0 None 0 0 0 false false).

(** [entries()], in the order of [std::map]. *)
Definition entries (m : gmap peer_key Peer) : list (peer_key * Peer) :=
  order_by (fun e => [be_value (fst (fst e)); be_value (snd (fst e))]) (map_to_list m).

(** ** Preparing a peer *)

Definition excluded_of (s : NetworkSnapshot) : list ExcludedSubnet :=
  map (fun n => mk_excluded (subnet_address (active_peers n)) (prefix_length (active_peers n))) (active_networks s).
(** A STUN server's answer joins the local candidates. *)
Definition add_reflexive (c : option Candidate) (l : list Candidate) : list Candidate :=
  match c with
  | Some c => if usable_endpoint (endpoint c) (po_loopback options) && negb (bool_decide (endpoint c ∈ map endpoint l)) && (len l <? max_candidates)
              then l ++ [c] else l
  | None => l
  end.
Fixpoint ask_servers (w : PathWorld) (g : Z) (servers : list Endpoint) : U Peer unit :=
  match servers with
  | [] => uret tt
  | server :: servers =>
      let '(draw, sent, received) := pw_stun w g server in
      let! c := upure (discover_stun_endpoint server 200 draw sent received) in
      uput (fun p => set_p_local (add_reflexive c (p_local p)) p) ;; ask_servers w g servers
  end.
Definition gathered (l : list Candidate) : list Candidate :=
  if negb (bool_decide (po_stun options = [])) && (len l =? max_candidates) then removelast l else l.
(** [g] is the new generation. *)
Definition prepare_peer (w : PathWorld) (g : Z) : U Peer unit :=
  uput closed ;;
  uput (renewed g (pw_clock w g)) ;;
  let! port := upure (match pw_socket w g with Some port => Ok port | None => Throw runtime_error end) in
  uput (set_p_socket (Some port)) ;;
  let! l := upure (gather_local_candidates (pw_interfaces w g) port (excluded_of (pw_snapshot w)) (po_loopback options)) in
  uput (set_p_local (gathered l)) ;;
  ask_servers w g (po_stun options) ;;
  let! p := uget in
  uwhen (bool_decide (p_local p = [])) (uput (fun p => set_p_reason direct_unreachable (set_p_socket None p))).

(** A step of one peer of the map; a peer that is gone is left alone. *)
Definition at_peer (k : peer_key) (m : U Peer unit) : U PeerPath unit := fun s =>
  match pp_peers s !! k with
  | None => (Ok tt, s, [])
  | Some p => match m p with (r, p, l) => (r, set_peer k p s, l) end
  end.
Definition prepare (w : PathWorld) (k : peer_key) : U PeerPath unit :=
  let! s := uget in
  let g := next_generation s in
  uput (set_pp_generation g) ;; at_peer k (prepare_peer w g).

Definition fresh_peer (n : ActiveNetworkPacketState) (session : bytes) (member : NetworkPeer) (key : SignedDeviceKey) : Peer :=
  mk_path_peer (mk_binding (state_network_id (active_peers n)) (ks_epoch (active_key n)) 0 0 me (peer_device_id member) session (encryption_public_key key))
    key (own_address (active_peers n)) (ipv4_address member) [] [] None None None None new_selector 0 false false revalidating 0 0 0 false true false
    fresh_revalidation 0.
(** The peer joins the map once it is prepared. *)
Definition create (w : PathWorld) (n : ActiveNetworkPacketState) (member : NetworkPeer) : U PeerPath unit := fun s =>
  match RoutedNetwork.identity (pw_snapshot w), signed_key member with
  | Some mine, Some key =>
      let g := next_generation s in
      match prepare_peer w g (fresh_peer n (encryption_public_key (pi_signed_key mine)) member key) with
      | (Ok _, p, l) => (Ok tt, set_peer (state_network_id (active_peers n), peer_device_id member) p (set_pp_generation g s), l)
      | (Throw e, _, l) => (Throw e, set_pp_generation g s, l)
      end
  | _, _ => (Ok tt, s, [])
  end.

(** ** Following the session *)

(** A network of the snapshot still lists the peer under its key and epoch. *)
Definition still_listed (s : NetworkSnapshot) (p : Peer) : bool :=
  match RoutedNetwork.identity s with
  | None => false
  | Some mine =>
      bool_decide (encryption_public_key (pi_signed_key mine) = b_local_session (p_binding p)) &&
      existsb (fun n => bool_decide (state_network_id (active_peers n) = b_network_id (p_binding p)) && (ks_epoch (active_key n) =? b_key_epoch (p_binding p)) &&
        existsb (fun m => bool_decide (peer_device_id m = b_peer_device (p_binding p)) && bool_decide (signed_key m = Some (p_key p))) (peers (active_peers n)))
        (active_networks s)
  end.
Definition peer_authorized (s : NetworkSnapshot) (p : Peer) : result bool :=
  peer_binding_authorized (p_binding p) (p_key p) (p_local_ip p) (p_peer_ip p) s.
Definition drop_peer (k : peer_key) (s : PeerPath) : PeerPath := set_pp_peers (delete k (pp_peers s)) s.
Definition cleanup (w : PathWorld) (k : peer_key) : U PeerPath unit :=
  let! s := uget in
  match pp_peers s !! k with
  | None => uret tt
  | Some p =>
      let! valid := upure (peer_authorized (pw_snapshot w) p) in
      if (negb valid && negb (b_peer_generation (p_binding p) =? 0)) || negb (still_listed (pw_snapshot w) p) then uput (drop_peer k) else uret tt
  end.

(** Equal up to order: the code compares the lists sorted by all fields. *)
Definition count (i : InterfaceAddress) (l : list InterfaceAddress) : nat := length (List.filter (fun j => bool_decide (j = i)) l).
Definition same_interfaces (a b : list InterfaceAddress) : bool :=
  bool_decide (length a = length b) && forallb (fun i => bool_decide (count i a = count i b)) a.
(** Whether the interfaces changed since the last scan, at most once a second. *)
Definition scan_interfaces (w : PathWorld) : U PeerPath bool :=
  let! s := uget in
  if pw_now w >=? pp_next_scan s then
    let l := pw_interfaces w 0 in
    uput (set_pp_scan l (pw_now w + 1000 * ms)) ;;
    uret (match pp_interfaces s with Some old => negb (same_interfaces l old) | None => false end)
  else uret false.

(** The members without a path yet, two of them at most. *)
Fixpoint create_missing (w : PathWorld) (created : Z) (l : list (ActiveNetworkPacketState * NetworkPeer)) : U PeerPath unit :=
  match l with
  | [] => uret tt
  | (n, m) :: l =>
      if negb (has_key m) || match policy (active_peers n) with Some p => negb (policy_allows p me (peer_device_id m)) | None => false end
      then create_missing w created l
      else
        let! s := uget in
        if bool_decide (is_Some (pp_peers s !! (state_network_id (active_peers n), peer_device_id m))) || (Z.of_nat (size (pp_peers s)) >=? 64)
        then create_missing w created l
        else (if created <? 2 then create w n m else uret tt) ;; create_missing w (created + 1) l
  end.
Definition members (s : NetworkSnapshot) : list (ActiveNetworkPacketState * NetworkPeer) :=
  concat (map (fun n => map (fun m => (n, m)) (peers (active_peers n))) (active_networks s)).

(** Candidates a peer sent: an offer restarts this side, unless this side's own offer goes first; an answer must be to the
    generation that is waiting for it. *)
Definition take_candidates (w : PathWorld) (x : CandidateExchange) : U PeerPath unit :=
  let k := (x_network_id x, x_sender x) in
  let adopt := at_peer k (uput (fun p =>
    learned (candidates x) (pw_now w + lifetime_ms x * ms) (set_p_binding (regenerate (b_local_generation (p_binding p)) (generation x) (p_binding p)) p))) in
  let! s := uget in
  match pp_peers s !! k with
  | None => uret tt
  | Some p =>
      let b := p_binding p in
      if (generation x <=? b_peer_generation b) || negb (bool_decide (sender_session x = b_peer_session b)) ||
         negb (bool_decide (recipient_session x = b_local_session b)) || negb (x_key_epoch x =? b_key_epoch b) || bool_decide (p_local p = []) then uret tt
      else if response_to_generation x =? 0 then
        if p_waiting p && bytes_lt (b_local_device b) (b_peer_device b) then
          uwhen (p_published p) (
            let g := next_generation s in
            uput (set_pp_generation g) ;;
            at_peer k (uput (fun p => set_p_published false (set_p_binding (regenerate g (b_peer_generation (p_binding p)) (p_binding p)) p))))
        else
          prepare w k ;;
          at_peer k (uput (fun p => set_p_waiting false (set_p_response_to (generation x) p))) ;; adopt
      else if negb (p_waiting p) || negb (response_to_generation x =? b_local_generation b) then uret tt
      else at_peer k (uput (fun p => set_p_retry (Limits.started (p_retry p)) (set_p_waiting false p))) ;; adopt
  end.

(** ** The turn of a peer *)

(** The peer and when the next offer may be made. *)
Definition T (A : Type) : Type := U (Peer * Z) A.
Definition tpeer : T Peer := fun s => (Ok (fst s), s, []).
Definition tput (f : Peer -> Peer) : T unit := fun s => (Ok tt, (f (fst s), snd s), []).
Definition fail_retry (now : Z) : T unit := tput (fun p => set_p_retry (Limits.failed (p_retry p) now) p).
Definition retreat (now : Z) : T unit := tput (set_p_reason direct_unreachable) ;; fail_retry now.

(** A call of the direct connection. *)
Definition with_direct {A} (k : peer_key) (o : DirectQuicOptions) (m : D A) : T A := fun s =>
  match p_direct (fst s) with
  | Some (_, d) => match m d with (r, d, l) => (r, (set_p_direct (Some (o, d)) (fst s), snd s), map (direct_out k) l) end
  | None => (Throw logic_error, s, [])
  end.
Definition measured (failed : bool) (q : QualitySample) : QualitySample :=
  if failed then mk_quality false (q_rtt_us q) (q_sent q) (q_lost q) else q.
Definition watch (w : PathWorld) (k : peer_key) (o : DirectQuicOptions) : T unit :=
  with_direct k o (DirectQuic.synchronize o (pw_snapshot w)) ;;
  let! p := tpeer in
  match p_direct p with
  | None => uret tt
  | Some (_, d) =>
      let authenticated := is_authenticated o d in
      uwhen (authenticated && negb (p_was_authenticated p)) (tput (fun p => set_p_retry (Limits.healthy (p_retry p)) p)) ;;
      uwhen (negb authenticated && (p_was_authenticated p || (pw_now w - p_attempt_started p >=? 6000 * ms))) (fail_retry (pw_now w)) ;;
      tput (set_p_was_authenticated authenticated) ;;
      uwhen (pw_now w >=? p_sampled p) (
        let (s, decision) := sample (measured (p_send_failed p) (quality o (pw_stats w k) d)) (pw_relay_rtt w) (pw_now w) (p_selector p) in
        tput (fun p => sampled_at (pw_now w) s decision (set_p_send_failed false p)))
  end.

Definition exchange_of (p : Peer) : CandidateExchange :=
  let b := p_binding p in
  mk_exchange (b_network_id b) (b_local_device b) (b_peer_device b) (b_local_session b) (b_peer_session b) (b_key_epoch b)
    (b_local_generation b) (p_response_to p) 30000 (p_local p).
Definition publish (w : PathWorld) : T unit :=
  let! p := tpeer in
  let x := exchange_of p in
  let! taken := upure (pw_publish w x) in
  uemit (offer x taken) ;;
  (fun s => (Ok tt, (set_p_published taken (fst s), pw_now w + 250 * ms), [])).

(** The checks of every local candidate with one remote endpoint. *)
Definition each_local (f : Endpoint -> ConnectivityChecks -> ConnectivityChecks) (p : Peer) (c : ConnectivityChecks) : ConnectivityChecks :=
  foldl (fun c l => f (endpoint l) c) c (p_local p).
Definition with_checks (f : Peer -> ConnectivityChecks -> ConnectivityChecks) : T unit :=
  let! p := tpeer in
  match p_checks p with Some c => tput (set_p_checks (Some (f p c))) | None => upure (Throw logic_error) end.
Definition begin_checks (w : PathWorld) (k : peer_key) : T unit :=
  let! p := tpeer in
  match p_punch p with
  | Some _ => uret tt
  | None =>
      let! u := upure (new_punch identity (p_key p) (p_binding p) (p_remote p) (pw_now w) (pw_nonce w k)) in
      tput (set_p_punch (Some u)) ;;
      let! c := upure (new_checks (b_local_device (p_binding p)) (b_peer_device (p_binding p)) (p_local p) (p_remote p) (pw_now w)) in
      tput (set_p_checks (Some c))
  end.
Definition with_punch {A} (f : PunchSession -> PunchSession * result A) : T A := fun s =>
  match p_punch (fst s) with
  | Some u => let (u, r) := f u in (r, (set_p_punch (Some u) (fst s), snd s), [])
  | None => (Throw logic_error, s, [])
  end.
Definition send_probe (w : PathWorld) (d : ProbeDatagram) : T unit :=
  uemit (probe (p_destination d) (p_bytes d)) ;;
  uwhen (pw_probe w (p_destination d) (p_bytes d)) (with_checks (each_local (fun l => note_probe l (p_destination d)))).
Definition hear (w : PathWorld) (d : Endpoint * bytes) : T unit :=
  let! reply := with_punch (fun u => let (u, reply) := receive (fst d) (snd d) (pw_now w) u in (u, Ok reply)) in
  match reply with Some r => uemit (probe (p_destination r) (p_bytes r)) | None => uret tt end.
Definition report_verified : T unit :=
  let! p := tpeer in
  match p_punch p with
  | Some u => ufor (u_verified u) (fun e => with_checks (each_local (fun l => check_result l e true None)))
  | None => upure (Throw logic_error)
  end.
Definition nominated (w : PathWorld) : T (option CandidatePair) :=
  let! p := tpeer in
  match p_checks p with
  | None => upure (Throw logic_error)
  | Some c =>
      let (c, best) := nominate (pw_now w) c in
      tput (set_p_checks (Some c)) ;;
      match best with
      | Some best => uret (Some best)
      | None => uwhen (bool_decide (ck_state c = unreachable)) (retreat (pw_now w)) ;; uret None
      end
  end.
Definition options_of (p : Peer) (port : Z) : DirectQuicOptions := mk_direct_options (p_binding p) (p_key p) (p_local_ip p) (p_peer_ip p) port.
(** The constructor, [synchronize], [start] and [connect]; the connection is kept when none of them throws. *)
Definition first_steps (w : PathWorld) (k : peer_key) (o : DirectQuicOptions) (remote : Endpoint) : D unit :=
  dbind (DirectQuic.synchronize o (pw_snapshot w)) (fun _ => dbind (DirectQuic.start (pw_bound w k)) (fun _ =>
    DirectQuic.connect o remote (pw_draw w k) (fst (pw_opened w k)) (snd (pw_opened w k)))).
Definition open_direct (w : PathWorld) (k : peer_key) (remote : Endpoint) : T unit :=
  let! p := tpeer in
  let o := options_of p (default 0 (p_socket p)) in
  tput (set_p_socket None) ;;
  let! d := upure (new_direct identity o) in
  uemit (connecting k remote) ;;
  fun s =>
    match first_steps w k o remote d with
    | (Ok _, d, l) => (Ok tt, (set_p_direct (Some (o, d)) (set_p_attempt_started (pw_now w) (fst s)), snd s), map (direct_out k) l)
    | (Throw e, _, l) => (Throw e, s, map (direct_out k) l)
    end.
Definition check_pairs (w : PathWorld) (k : peer_key) : T unit :=
  begin_checks w k ;;
  let! probes := with_punch (tick (pw_now w)) in
  ufor probes (send_probe w) ;;
  ufor (take 32 (pw_datagrams w k)) (hear w) ;;
  report_verified ;;
  let! best := nominated w in
  match best with Some best => open_direct w k (endpoint (cp_remote best)) | None => uret tt end.

Definition turn (w : PathWorld) (k : peer_key) : T unit :=
  let! p := tpeer in
  if pending_ (p_retry p) then uret tt
  else
    match p_direct p with
    | Some (o, _) => watch w k o
    | None =>
        if bool_decide (p_socket p = None) || bool_decide (p_local p = []) then fail_retry (pw_now w)
        else
          (fun s => uwhen (negb (p_published p) && (pw_now w >=? snd s)) (publish w) s) ;;
          let! p := tpeer in
          if negb (p_published p) || bool_decide (p_remote p = []) then uwhen (pw_now w - p_created p >=? 8000 * ms) (fail_retry (pw_now w))
          else if pw_now w >=? p_expires p then retreat (pw_now w)
          else check_pairs w k
    end.
Definition turn_at (w : PathWorld) (k : peer_key) : U PeerPath unit := fun s =>
  match pp_peers s !! k with
  | None => (Ok tt, s, [])
  | Some p => match turn w k (p, pp_next_offer s) with (r, (p, next), l) => (r, set_pp_next_offer next (set_peer k p s), l) end
  end.

(** ** The worker *)

Definition keys (s : PeerPath) : list peer_key := map fst (entries (pp_peers s)).
Definition update (w : PathWorld) : U PeerPath unit :=
  let! s := uget in
  ufor (keys s) (cleanup w) ;;
  let! s := uget in
  if negb (pp_enabled s) then uput (set_pp_peers ∅)
  else if bool_decide (RoutedNetwork.identity (pw_snapshot w) = None) || negb (pw_capable w) then uret tt
  else
    let! moved := scan_interfaces w in
    uwhen (negb (pp_requested s =? pp_completed s) || moved) (ufor (keys s) (prepare w)) ;;
    uput (set_pp_completed (pp_requested s)) ;;
    ufor (keys s) (fun k => fun s => uwhen (match pp_peers s !! k with Some p => due (p_retry p) (pw_now w) | None => false end) (prepare w k) s) ;;
    create_missing w 0 (members (pw_snapshot w)) ;;
    ufor (pw_offers w) (take_candidates w) ;;
    let! s := uget in
    ufor (keys s) (turn_at w).

(** ** Packets *)

(** The direct connection is tried: enabled, no revalidation outstanding, selected, and the binding still covered. *)
Definition direct_chosen (snapshot : NetworkSnapshot) (s : PeerPath) (p : Peer) : result bool :=
  if pp_enabled s && (pp_requested s =? pp_completed s) && p_use_direct p && bool_decide (is_Some (p_direct p)) then peer_authorized snapshot p else Ok false.
Definition direct_failed (p : Peer) : Peer := set_p_reason direct_unreachable (set_p_send_failed true (set_p_use_direct false p)).
(** Whether the direct connection took the packet. *)
Definition send_direct (world : DirectWorld) (packet : EncryptedNetworkPacket) (k : peer_key) (p : Peer) : U PeerPath bool := fun s =>
  match p_direct p with
  | Some (o, d) =>
      match DirectQuic.send o world packet d with
      | (Ok r, d, l) =>
          let taken := bool_decide (r = accepted) in
          let p := set_p_direct (Some (o, d)) p in
          (Ok taken, set_peer k (if taken then p else direct_failed p) s, map (direct_out k) l)
      | (Throw e, d, l) => (Throw e, set_peer k (set_p_direct (Some (o, d)) p) s, map (direct_out k) l)
      end
  | None => (Ok false, s, [])
  end.
Definition carries (packet : EncryptedNetworkPacket) (e : peer_key * Peer) : bool :=
  bool_decide (b_network_id (p_binding (snd e)) = network_id packet) && (p_peer_ip (snd e) =? destination_ipv4 packet).
(** [relay] is what the relay's path answers. *)
Definition send_packet (snapshot : NetworkSnapshot) (world : DirectWorld) (relay : PacketSendResult) (packet : EncryptedNetworkPacket)
    : U PeerPath PacketSendResult :=
  let! s := uget in
  let! taken := (match List.find (carries packet) (entries (pp_peers s)) with
    | Some (k, p) => let! chosen := upure (direct_chosen snapshot s p) in if (chosen : bool) then send_direct world packet k p else uret false
    | None => uret false
    end : U PeerPath bool) in
  if (taken : bool) then uret accepted else uemit (relayed_packet packet) ;; uret relay.

(** What a direct connection delivers passes only while the snapshot of that moment covers its binding and the path runs. *)
Definition delivered (snapshot : NetworkSnapshot) (s : PeerPath) (k : peer_key) (p : Peer) (x : direct_output) : list path_output :=
  match x with
  | deliver f =>
      match peer_authorized snapshot p with
      | Ok true => if pp_active s && pp_handler s then [handed f] else []
      | _ => []
      end
  | _ => [direct_out k x]
  end.
Definition on_direct (snapshot : NetworkSnapshot) (k : peer_key) (e : direct_event) : U PeerPath unit := fun s =>
  match pp_peers s !! k with
  | Some p =>
      match p_direct p with
      | Some (o, d) =>
          match DirectQuic.handle identity o e d with
          | (_, d, l) => (Ok tt, set_peer k (set_p_direct (Some (o, d)) p) s, concat (map (delivered snapshot s k p) l))
          end
      | None => (Ok tt, s, [])
      end
  | None => (Ok tt, s, [])
  end.
(** The relay delivers a packet. *)
Definition on_relayed (f : ForwardedNetworkPacket) : U PeerPath unit := fun s => (Ok tt, s, if pp_active s && pp_handler s then [handed f] else []).

Definition peer_status (relay : PathStatus) (stats : peer_key -> option Statistics) (s : PeerPath) : list PeerPathStatus :=
  map (fun e : peer_key * Peer =>
    let p := snd e in
    let status :=
      match p_direct p with
      | Some (o, d) => if p_use_direct p && is_authenticated o d then Some (direct_status o (stats (fst e)) d) else None
      | None => None
      end in
    let status := match status with
      | Some st => st
      | None =>
          if path_kind_value (ps_kind relay) =? path_kind_value relay_tls then relay
          else mk_path_status (ps_kind relay) (ps_lifecycle relay) (ps_rtt_us relay) (ps_sent_bytes relay) (ps_received_bytes relay) (p_reason p)
                 (ps_error relay) (ps_sent_packets relay) (ps_received_packets relay) (ps_dropped_packets relay) (ps_lost relay)
                 (ps_retransmitted relay) (ps_retransmittable relay) (ps_reconnects relay)
      end in
    mk_peer_path (b_network_id (p_binding p)) (b_peer_device (p_binding p)) (p_peer_ip p) status) (entries (pp_peers s)).

(** ** Everything that can happen *)

(** The parts of a worker's turn are events too, so that other threads may run between them. *)
Inductive path_event :=
| pe_update (w : PathWorld) | pe_cleanup (w : PathWorld) (k : peer_key) | pe_prepare (w : PathWorld) (k : peer_key)
| pe_create (w : PathWorld) | pe_candidates (w : PathWorld) (x : CandidateExchange) | pe_turn (w : PathWorld) (k : peer_key)
| pe_enable (x : bool) | pe_revalidate | pe_start | pe_stop | pe_handler (set : bool)
| pe_send (snapshot : NetworkSnapshot) (world : DirectWorld) (relay : PacketSendResult) (packet : EncryptedNetworkPacket)
| pe_direct (snapshot : NetworkSnapshot) (k : peer_key) (e : direct_event) | pe_relayed (f : ForwardedNetworkPacket).
Definition handle_path (e : path_event) : U PeerPath unit :=
  match e with
  | pe_update w => update w
  | pe_cleanup w k => cleanup w k
  | pe_prepare w k => prepare w k
  | pe_create w => create_missing w 0 (members (pw_snapshot w))
  | pe_candidates w x => take_candidates w x
  | pe_turn w k => turn_at w k
  | pe_enable x => uput (set_pp_enabled x)
  | pe_revalidate => uput (fun s => set_pp_requested ((pp_requested s + 1) mod 2 ^ 64) s)
  | pe_start => uput (fun s => set_pp_receiver true (pp_handler s) s)
  | pe_stop => uput (fun s => set_pp_peers ∅ (set_pp_receiver false (pp_handler s) s))
  | pe_handler set => uput (fun s => set_pp_receiver (pp_active s) set s)
  | pe_send snapshot world relay packet => send_packet snapshot world relay packet ;; uret tt
  | pe_direct snapshot k e => on_direct snapshot k e
  | pe_relayed f => on_relayed f
  end.
End PeerPath.
