(* ===== verification/PeerPathSafety.v ===== *)
(** * Safety of the peer paths

    The invariant of [PeerPath]'s state under any order of turns, calls and callbacks: what is known of a peer whose direct
    connection exists or is in use, where connections are opened to, and which way packets go. *)
From S2P Require Import Connectivity Limits ForwardingQuota QuicSend Candidates RelayStore RoutedNetwork Punch PathDiagnostics PathQuality Stun LocalCandidates.
From S2P Require Import Prelude Wire Codec StreamDecoder NetworkPolicy NetworkMessages PacketMessages Crypto Handshake DirectQuic PeerPath.

Local Notation "'let!' x := m 'in' k" := (ubind m (fun x => k))
  (at level 10, x name, m at level 100, k at level 200, format "'[v' 'let!'  x  :=  m  'in' '/' k ']'").
Local Notation "m ;; k" := (ubind m (fun _ => k)) (at level 100, right associativity).

Section Safety.
Context {C : Crypto} (identity me : bytes) (options : PeerPathOptions).

(** ** What is known of a peer *)

(** A punch session of this binding, after the calls [es]. *)
Definition punched (p : Peer) (u : PunchSession) : Prop :=
  exists now nonce u0 es, new_punch identity (p_key p) (p_binding p) (p_remote p) now nonce = Ok u0 /\ fst (punch_run es u0) = u.
Definition candidates_ok (l : list Candidate) : Prop := Forall candidate_ok l /\ len l <= max_candidates.

Record peer_inv (k : peer_key) (p : Peer) : Prop := mk_peer_inv {
  pi_key : k = (b_network_id (p_binding p), b_peer_device (p_binding p));
  pi_binding : b_local_device (p_binding p) = me /\ encryption_public_key (p_key p) = b_peer_session (p_binding p);
  pi_local : candidates_ok (p_local p);
  pi_remote : p_remote p <> [] -> p_waiting p = false /\ b_peer_device (p_binding p) <> me /\ candidates_ok (p_remote p);
  pi_selector : exists es, Forall PathQuality.wf_event es /\ p_selector p = h_selector (observe_all es);
  pi_use : p_use_direct p = true -> is_Some (p_direct p) /\ direct_ (p_selector p) = true;
  pi_punch : forall u, p_punch p = Some u -> p_remote p <> [] /\ punched p u;
  pi_checks : match p_punch p, p_checks p with
    | Some u, Some c => forall q, q ∈ ck_pairs c -> cp_state q = succeeded -> endpoint (cp_remote q) ∈ u_verified u
    | None, None => True
    | _, _ => False
    end;
  pi_direct : forall o d, p_direct p = Some (o, d) -> (exists port, o = options_of p port) /\ (exists g, direct_reach identity o d g) /\
    exists u e, p_punch p = Some u /\ e ∈ u_verified u }.

(** The fields the invariant speaks of. *)
Definition core (p : Peer) :=
  (p_binding p, p_key p, p_local_ip p, p_peer_ip p, p_local p, p_remote p, p_punch p, p_checks p, p_direct p, p_selector p, p_use_direct p, p_waiting p).
Lemma inv_core k p p' : core p = core p' -> peer_inv k p -> peer_inv k p'.
Proof. destruct p, p'. unfold core. cbn. intros [= -> -> -> -> -> -> -> -> -> -> -> ->] []. split; assumption. Qed.

(** ** Rules *)

Definition verified_for (k : peer_key) (e : Endpoint) : Prop :=
  exists key b remote now nonce u0 es, k = (b_network_id b, b_peer_device b) /\ b_local_device b = me /\ encryption_public_key key = b_peer_session b /\
    new_punch identity key b remote now nonce = Ok u0 /\ e ∈ u_verified (fst (punch_run es u0)).
(** What a turn of the worker puts out. *)
Definition quiet (x : path_output) : Prop :=
  match x with
  | offer x _ => x_sender x = me
  | probe _ _ | direct_out _ (shut _) => True
  | connecting k e => verified_for k e
  | _ => False
  end.
Definition tri {S A} (P : S -> Prop) (m : U S A) (Q : A -> S -> Prop) (E : S -> Prop) : Prop :=
  forall s, P s -> match m s with (r, s', l) => Forall quiet l /\ match r with Ok a => Q a s' | Throw _ => E s' end end.

Lemma tri_bind {S A B} P (m : U S A) Q (k : A -> U S B) R E : tri P m Q E -> (forall a, tri (Q a) (k a) R E) -> tri P (ubind m k) R E.
Proof.
  intros M K s H. specialize (M s H). unfold ubind. destruct (m s) as [[[a|e] s1] l]; destruct M as [F X]; [|done].
  specialize (K a s1 X). destruct (k a s1) as [[r s2] l']. destruct K as [F' Y]. split; [by apply Forall_app|done].
Qed.
Lemma tri_ret {S A} (a : A) (Q : A -> S -> Prop) E : tri (Q a) (uret a) Q E.
Proof. intros s H. by split. Qed.
Lemma tri_pure {S A} (P : S -> Prop) (r : result A) (Q : A -> S -> Prop) (E : S -> Prop) :
  (forall a s, r = Ok a -> P s -> Q a s) -> (forall s, P s -> E s) -> tri P (upure r) Q E.
Proof. intros G X s H. unfold upure. destruct r; (split; [done|]); auto. Qed.
Lemma tri_get {S} (P : S -> Prop) E : tri P uget (fun a s => a = s /\ P s) E.
Proof. intros s H. by split. Qed.
Lemma tri_put {S} (P Q : S -> Prop) f E : (forall s, P s -> Q (f s)) -> tri P (uput f) (fun _ => Q) E.
Proof. intros G s H. split; [done|by apply G]. Qed.
Lemma tri_emit {S} (P : S -> Prop) x E : quiet x -> tri P (uemit x) (fun _ => P) E.
Proof. intros G s H. split; [by constructor|done]. Qed.
Lemma tri_emit_in {S} (P : S -> Prop) x E : (forall s, P s -> quiet x) -> tri P (uemit x) (fun _ => P) E.
Proof. intros G s H. split; [constructor; [by eapply G|constructor]|done]. Qed.
Lemma tri_weaken {S A} (P P' : S -> Prop) (m : U S A) (Q Q' : A -> S -> Prop) E : tri P m Q E -> (forall s, P' s -> P s) -> (forall a s, Q a s -> Q' a s) -> tri P' m Q' E.
Proof. intros M X Y s H. specialize (M s (X s H)). destruct (m s) as [[[a|e] s'] l]; destruct M; split; auto. Qed.
Lemma tri_when {S} (P : S -> Prop) b m E : (b = true -> tri P m (fun _ => P) E) -> tri P (uwhen b m) (fun _ => P) E.
Proof. destruct b; [auto|]. intros _ s H. by split. Qed.
Lemma tri_for {S A} (P : S -> Prop) (l : list A) f E : (forall x, x ∈ l -> tri P (f x) (fun _ => P) E) -> tri P (ufor l f) (fun _ => P) E.
Proof.
  intros F. induction l as [|x l IH]; [apply (tri_ret tt (fun _ => P))|]. cbn [ufor]. eapply tri_bind; [apply F; left|]. intros ?; cbn beta. apply IH. intros y Hy. apply F. by right.
Qed.
Lemma tri_if {S A} (P : S -> Prop) (b : bool) (m n : U S A) Q E : (b = true -> tri P m Q E) -> (b = false -> tri P n Q E) -> tri P (if b then m else n) Q E.
Proof. destruct b; auto. Qed.

(** ** Preparing *)

(** No connection and no checks under way. *)
Definition calm (k : peer_key) (p : Peer) : Prop := peer_inv k p /\ p_direct p = None /\ p_punch p = None.
Lemma no_samples : exists es, Forall PathQuality.wf_event es /\ new_selector = h_selector (observe_all es).
Proof. by exists []. Qed.
Lemma calm_closed k p : peer_inv k p -> calm k (closed p).
Proof.
  intros [K B L R S _ _ _ _]. split; [|done]. split; cbn; try done.
Qed.
Lemma calm_renewed k g now p : calm k p -> calm k (renewed g now p).
Proof.
  intros ([K B L R S Us Pu Ch Di] & D & P). split; [|done]. split; cbn; try done.
  - apply no_samples.
  - intros X. destruct (Us X) as [[? Y] _]. congruence.
  - intros u. congruence.
  - intros o d. congruence.
Qed.
Lemma calm_core k p p' : core p = core p' -> calm k p -> calm k p'.
Proof. intros E (I & D & P). split; [by eapply inv_core|]. unfold core in E. by injection E as ? ? ? ? ? ? <- ? <- ? ? ?. Qed.
Lemma calm_local k l p : candidates_ok l -> calm k p -> calm k (set_p_local l p).
Proof. intros G ([K B L R S Us Pu Ch Di] & D & P). split; [|done]. by split. Qed.

Lemma exists_last_or {A} (l : list A) : l = [] \/ exists x l', l = l' ++ [x].
Proof. destruct l as [|y l]; [by left|]. right. destruct (exists_last (l := y :: l)) as (l' & x & ->); [done|]. by exists x, l'. Qed.
Lemma removelast_ok l : candidates_ok l -> candidates_ok (removelast l).
Proof.
  intros [F N]. destruct (exists_last_or l) as [->|(x & l' & ->)]; [done|]. rewrite removelast_last. apply Forall_app in F as [F _]. split; [done|].
  rewrite len_app in N. pose proof (len_nonneg [x]). lia.
Qed.
Lemma gathered_ok interfaces port excluded loopback l : gather_local_candidates interfaces port excluded loopback = Ok l -> candidates_ok (gathered options l).
Proof.
  intros H. destruct (local_candidates_valid _ _ _ _ _ H) as (N & V & _). apply validate_candidates_spec in V as (F & _).
  unfold gathered. destruct (_ && _); [apply removelast_ok|]; by split.
Qed.
Lemma discovered server t draw sent received c : discover_stun_endpoint server t draw sent received = Ok (Some c) -> usable_endpoint (endpoint c) (po_loopback options) = true -> candidate_ok c.
Proof.
  intros H U. unfold discover_stun_endpoint in H. destruct (_ || _); [done|]. destruct draw as [x|]; [|done]. destruct sent; [|done]. apply Ok_inj in H.
  induction received as [|[source bs] received IH]; cbn [first_answer] in H; [done|]. destruct (stun_answer server source bs x) as [d|] eqn:E; [|by apply IH].
  injection H as ->. unfold stun_answer in E. destruct (negb _); [done|]. destruct (parse_stun_binding_response _ _) as [[e|]|]; [|done..]. injection E as <-.
  split_and!; [by eapply usable_loopback|done|by right].
Qed.
Lemma reflexive_ok c l : (forall x, c = Some x -> usable_endpoint (endpoint x) (po_loopback options) = true -> candidate_ok x) -> candidates_ok l -> candidates_ok (add_reflexive options c l).
Proof.
  intros G [F N]. unfold add_reflexive. destruct c as [x|]; [|by split]. destruct (_ && _ && _) eqn:E; [|by split]. rewrite !andb_true_iff in E. destruct E as [[U _] L].
  apply Z.ltb_lt in L. split; [apply Forall_app; split; [done|by constructor; [apply G|constructor]]|]. rewrite len_app. change (len [x]) with 1. lia.
Qed.

Lemma tri_servers k w g l : tri (calm k) (ask_servers options w g l) (fun _ => calm k) (peer_inv k).
Proof.
  induction l as [|server l IH]; cbn [ask_servers]; [apply (tri_ret tt (fun _ => calm k))|]. destruct (pw_stun w g server) as [[draw sent] received].
  eapply tri_bind; [apply (tri_pure _ _ (fun c p => calm k p /\ discover_stun_endpoint server 200 draw sent received = Ok c)); [by intros|by intros p []]|].
  intros c. eapply tri_bind; [|intros ?; exact IH]. apply tri_put. intros p [G D]. apply calm_local; [|done]. apply reflexive_ok; [|apply G].
  intros x -> U. by eapply discovered.
Qed.
Lemma tri_prepare k w g : tri (peer_inv k) (prepare_peer options w g) (fun _ => calm k) (peer_inv k).
Proof.
  unfold prepare_peer. eapply tri_bind; [apply (tri_put _ (calm k)), calm_closed|]. intros ?. eapply tri_bind; [apply (tri_put _ (calm k)); intros p; apply calm_renewed|]. intros ?.
  eapply tri_bind; [apply (tri_pure _ _ (fun _ => calm k)); [by intros|by intros p []]|]. intros port.
  eapply tri_bind; [apply (tri_put _ (calm k)); intros p; by apply calm_core|]. intros ?.
  eapply tri_bind; [apply (tri_pure _ _ (fun l p => calm k p /\ candidates_ok (gathered options l))); [|by intros p []]|].
  { intros l p H G. split; [done|]. by eapply gathered_ok. }
  intros l. eapply tri_bind; [apply (tri_put _ (calm k)); intros p [G X]; by apply calm_local|]. intros ?.
  eapply tri_bind; [apply tri_servers|]. intros ?. eapply tri_bind; [apply tri_get|]. intros p. cbn beta.
  eapply tri_weaken; [apply (tri_when (calm k))|by intros s []|done]. intros _. apply tri_put. intros q. by apply calm_core.
Qed.
Lemma fresh_inv n session m key : peer_inv (state_network_id (active_peers n), peer_device_id m) (fresh_peer me n session m key).
Proof.
  split; cbn; try done. apply no_samples.
Qed.

(** ** The turn of a peer *)

Definition world_ok (w : PathWorld) : Prop :=
  (forall k st, pw_stats w k = Some st -> word 4 (st_rtt st) /\ word 8 (st_sent st) /\ word 8 (st_suspected st) /\ word 8 (st_spurious st)) /\
  Forall (fun x => exchange_ok x /\ x_recipient x = me) (pw_offers w).

Definition tinv (k : peer_key) (s : Peer * Z) : Prop := peer_inv k (fst s).
Lemma tri_tpeer (P : Peer * Z -> Prop) E : tri P tpeer (fun p s => p = fst s /\ P s) E.
Proof. intros s H. by split. Qed.
Lemma tri_tput (P Q : Peer * Z -> Prop) f E : (forall p n, P (p, n) -> Q (f p, n)) -> tri P (tput f) (fun _ => Q) E.
Proof. intros G [p n] H. split; [done|by apply G]. Qed.
Lemma tri_fail_retry k now E : tri (tinv k) (fail_retry now) (fun _ => tinv k) E.
Proof. apply tri_tput. intros p n. unfold tinv. cbn [fst]. by apply inv_core. Qed.
Lemma tri_give_up k now E : tri (tinv k) (retreat now) (fun _ => tinv k) E.
Proof. eapply tri_bind; [apply (tri_tput _ (tinv k)); intros p n; unfold tinv; cbn [fst]; by apply inv_core|intros ?; apply tri_fail_retry]. Qed.

(** A call of the direct connection leaves it reachable. *)
Lemma direct_step_inv k o d e p : peer_inv k p -> p_direct p = Some (o, d) -> peer_inv k (set_p_direct (Some (o, step identity o e d)) p).
Proof.
  intros [K B L R S Us Pu Ch Di] D. destruct (Di o d D) as (Op & (g & G) & V). split; try done.
  - cbn. intros X. split; [by eexists|]. by apply Us.
  - cbn. intros o' d' [= <- <-]. split_and!; [done|eexists; by apply dr_step|done].
Qed.
Lemma synchronize_quiet o snapshot d : snd (DirectQuic.synchronize o snapshot d) = [].
Proof. unfold DirectQuic.synchronize, dbind, dpure. destruct (peer_binding_authorized _ _ _ _ _) as [[]|]; done. Qed.

Definition watching (k : peer_key) (o : DirectQuicOptions) (s : Peer * Z) : Prop := peer_inv k (fst s) /\ exists d, p_direct (fst s) = Some (o, d).
Lemma tri_watch_sync k o w : tri (watching k o) (with_direct k o (DirectQuic.synchronize o (pw_snapshot w))) (fun _ => watching k o) (tinv k).
Proof.
  intros [p n] [I [d D]]. cbn [fst] in *. unfold with_direct. cbn [fst snd]. rewrite D. pose proof (synchronize_quiet o (pw_snapshot w) d) as Q.
  pose proof (direct_step_inv k o d (de_synchronize (pw_snapshot w)) p I D) as I'. unfold step in I'. cbn [handle] in I'.
  destruct (DirectQuic.synchronize o (pw_snapshot w) d) as [[r d'] l]. cbn [fst snd] in *. subst l. split; [done|]. destruct r; [|done]. split; [done|]. by exists d'.
Qed.
Lemma watching_core k o p p' n : core p = core p' -> watching k o (p, n) -> watching k o (p', n).
Proof. intros E [I [d D]]. split; [by eapply inv_core|]. exists d. unfold core in E. cbn in *. by injection E as ? ? ? ? ? ? ? ? <- ? ? ?. Qed.
Lemma quality_wf w k o d rtt now failed : world_ok w -> PathQuality.wf_event (measured failed (quality o (pw_stats w k) d), rtt, now).
Proof.
  intros [St _]. unfold PathQuality.wf_event. cbn [fst snd]. assert (Z0 : word 8 0) by (split; lia).
  assert (G : word_option 4 (q_rtt_us (quality o (pw_stats w k) d)) /\ word 8 (q_sent (quality o (pw_stats w k) d)) /\ word 8 (q_lost (quality o (pw_stats w k) d))).
  { unfold quality. destruct (selected o d); [|done]. destruct (_ || _); [done|]. destruct (pw_stats w k) as [st|] eqn:E; [|done].
    destruct (St k st E) as (R & S & A & B). cbn. split_and!; try done. unfold st_lost. destruct (Z.geb_spec (st_suspected st) (st_spurious st)); [|done]. words. lia. }
  by destruct failed.
Qed.
Lemma sample_direct q rtt now s : d_direct (snd (sample q rtt now s)) = direct_ (fst (sample q rtt now s)).
Proof. unfold sample. by destruct (negb _). Qed.
Lemma tri_watch k w o : world_ok w -> tri (watching k o) (watch w k o) (fun _ => tinv k) (tinv k).
Proof.
  intros W. eapply tri_bind; [apply tri_watch_sync|]. intros ?. eapply tri_bind; [apply tri_tpeer|]. intros p. cbn beta.
  assert (X : forall s, p = fst s /\ watching k o s -> exists d, p_direct p = Some (o, d)) by (intros s [-> [_ [d D]]]; by exists d).
  destruct (p_direct p) as [[o' d]|] eqn:D; cycle 1.
  { intros s H. destruct (X s H) as [d ?]. done. }
  set (same := fun s : Peer * Z => watching k o s /\ p_selector (fst s) = p_selector p).
  eapply (tri_bind _ _ (fun _ => same)).
  { eapply tri_weaken; [apply (tri_when same)|by intros s [-> H]|done]. intros _. apply tri_tput. intros q n [H S]. split; [by eapply watching_core; [|exact H]|done]. }
  intros ?. eapply (tri_bind _ _ (fun _ => same)).
  { apply tri_when. intros _. apply tri_tput. intros q n [H S]. split; [by eapply watching_core; [|exact H]|done]. }
  intros ?. eapply (tri_bind _ _ (fun _ => same)); [apply tri_tput; intros q n [H S]; split; [by eapply watching_core; [|exact H]|done]|].
  intros ?. eapply (tri_weaken same same _ (fun _ => tinv k)); [|done|done]. destruct (_ >=? _); cbn [uwhen]; [|intros s [[H _] _]; by split].
  destruct (sample _ _ _ _) as [sel dec] eqn:Sm. apply tri_tput. intros q n [[I [d' D']] S]. cbn [fst] in *. destruct I as [K B L R (es & Fe & Se) Us Pu Ch Di].
  set (e := (measured (p_send_failed p) (quality o (pw_stats w k) d), pw_relay_rtt w, pw_now w) : PathQuality.event).
  split; try done; cbn.
  - exists (es ++ [e]). split; [apply Forall_app; split; [done|constructor; [by apply quality_wf|constructor]]|].
    unfold observe_all. rewrite foldl_app. cbn. fold (observe_all es). unfold sample_event, e. cbn [fst snd]. rewrite <- Se, S, Sm. done.
  - intros X'. split; [by eexists|]. pose proof (sample_direct (measured (p_send_failed p) (quality o (pw_stats w k) d)) (pw_relay_rtt w) (pw_now w) (p_selector p)) as Y.
    rewrite Sm in Y. cbn in Y. congruence.
Qed.

(** ** Checks *)

Lemma punch_run_snoc es e u : fst (punch_run (es ++ [e]) u) = fst (punch_step e (fst (punch_run es u))).
Proof.
  revert u. induction es as [|x es IH]; intros u; cbn [punch_run app]; [cbn [fst]; by destruct (punch_step e u)|]. destruct (punch_step x u) as [u1 ds]. specialize (IH u1).
  destruct (punch_run (es ++ [e]) u1), (punch_run es u1). done.
Qed.
Lemma verified_grows e u x : x ∈ u_verified u -> x ∈ u_verified (fst (punch_step e u)).
Proof.
  intros H. destruct e as [now|source bs now]; cbn [punch_step].
  - unfold tick. destruct (_ || _); [done|]. destruct (message _ _ _); [|done]. by destruct (send_probes _ _ _).
  - unfold receive. destruct (_ || _ || _); [done|]. destruct (negb _); [done|]. destruct (read_probe u bs) as [[[[kind nonce] echo]|]|]; [|done..].
    destruct (kind =? 2); [destruct (bool_decide (echo = _)); [|done]; cbn; destruct (bool_decide _); [done|apply elem_of_app; by left]|].
    by destruct (message true nonce _).
Qed.
(** Every pair that succeeded ends at a verified endpoint. *)
Definition succeeds_in (l : list Endpoint) (c : ConnectivityChecks) : Prop := forall q, q ∈ ck_pairs c -> cp_state q = succeeded -> endpoint (cp_remote q) ∈ l.
Lemma inv_punch k p u e : peer_inv k p -> p_punch p = Some u -> peer_inv k (set_p_punch (Some (fst (punch_step e u))) p).
Proof.
  intros [K B L R S Us Pu Ch Di] P. destruct (Pu u P) as (Rn & now & nonce & u0 & es & N & E). split; try done; cbn.
  - intros u' [= <-]. split; [done|]. exists now, nonce, u0, (es ++ [e]). split; [done|]. by rewrite punch_run_snoc, E.
  - rewrite P in Ch. destruct (p_checks p) as [c|]; [|done]. intros q Hq Sq. apply verified_grows. by apply Ch.
  - intros o d D. destruct (Di o d D) as (Op & G & u1 & x & P1 & V). split_and!; [done|done|]. eexists _, x. split; [done|]. rewrite P in P1. injection P1 as <-. by apply verified_grows.
Qed.
Lemma inv_checks k p u c : peer_inv k p -> p_punch p = Some u -> succeeds_in (u_verified u) c -> peer_inv k (set_p_checks (Some c) p).
Proof. intros [K B L R S Us Pu Ch Di] P G. split; try done. cbn. by rewrite P. Qed.

Lemma probe_succeeds l e V c : succeeds_in V c -> succeeds_in V (note_probe l e c).
Proof.
  intros G. unfold note_probe. destruct (negb _); [done|]. intros q Hq S. cbn in Hq. apply list_elem_of_fmap in Hq as (p & -> & Hp).
  destruct (_ && _ && _) in S |- *; [done|by apply G].
Qed.
Lemma result_succeeds l e rtt V c : e ∈ V -> succeeds_in V c -> succeeds_in V (check_result l e true rtt c).
Proof.
  intros He G. unfold check_result. destruct (negb _); [done|]. intros q Hq S. cbn in Hq. apply list_elem_of_fmap in Hq as (p & -> & Hp).
  destruct (is_pair l e p && _) eqn:X in S |- *; [|by apply G]. apply andb_true_iff in X as [X _]. unfold is_pair in X. bool_prop. cbn. congruence.
Qed.
Lemma each_succeeds f p V c : (forall l c, succeeds_in V c -> succeeds_in V (f l c)) -> succeeds_in V c -> succeeds_in V (each_local f p c).
Proof. intros F. unfold each_local. revert c. induction (p_local p) as [|l ls IH]; intros c G; [done|]. cbn. by apply IH, F. Qed.
Lemma nominate_pairs now c : ck_pairs (fst (nominate now c)) = ck_pairs c.
Proof. unfold nominate. case_bool_decide; [done|]. by destruct (scan _ _) as [[?|]|]. Qed.
Lemma nominated_succeeded now c q : snd (nominate now c) = Some q -> q ∈ ck_pairs c /\ cp_state q = succeeded.
Proof.
  unfold nominate. case_bool_decide; [done|]. destruct (scan _ _) as [[x|]|] eqn:E; [|done..]. intros [= ->]. apply scan_some in E as (a & b & -> & S & _). split; [|done].
  apply elem_of_app. right. left.
Qed.
Lemma new_checks_ok local peer locals remotes now : local <> peer -> locals <> [] -> remotes <> [] -> candidates_ok locals -> candidates_ok remotes ->
  exists c, new_checks local peer locals remotes now = Ok c /\ forall V, succeeds_in V c.
Proof.
  intros N L R [Fl Ll] [Fr Lr]. unfold new_checks. rewrite bool_decide_false by done.
  assert (Ne : forall l : list Candidate, l <> [] -> (len l =? 0) = false) by (intros [|x l] X; [done|]; rewrite len_cons; pose proof (len_nonneg l); lia).
  rewrite (Ne _ L), (Ne _ R). replace (len locals >? max_candidates) with false by lia. replace (len remotes >? max_candidates) with false by lia. cbn [orb negb].
  assert (V : forallb (fun ab => valid_pair (fst ab) (snd ab)) (all_pairs locals remotes) = true).
  { apply forallb_forall. intros [a b] H. apply list_elem_of_In in H. unfold all_pairs in H. apply list_elem_of_In, in_concat in H as (l & Hl & Hab). apply list_elem_of_In in Hl, Hab.
    apply list_elem_of_fmap in Hl as (a' & -> & Ha). apply list_elem_of_fmap in Hab as (b' & [= -> ->] & Hb). rewrite Forall_forall in Fl, Fr.
    destruct (Fl a' Ha) as (U1 & P1 & _), (Fr b' Hb) as (U2 & P2 & _). unfold valid_pair. cbn [fst snd]. rewrite U1, U2. cbn. rewrite !(proj2 (Z.eqb_neq _ _)) by done. done. }
  rewrite V. eexists. split; [done|]. intros W q Hq S. cbn in Hq. rewrite sort_pairs_perm in Hq. apply list_elem_of_fmap in Hq as (ab & -> & _). done.
Qed.

(** Checks are under way and no connection exists. *)
Definition active (k : peer_key) (s : Peer * Z) : Prop := peer_inv k (fst s) /\ p_direct (fst s) = None /\ is_Some (p_punch (fst s)).
Definition ready (k : peer_key) (s : Peer * Z) : Prop :=
  peer_inv k (fst s) /\ p_direct (fst s) = None /\ p_local (fst s) <> [] /\ p_remote (fst s) <> [].
Lemma tri_begin k w : tri (ready k) (begin_checks identity w k) (fun _ => active k) (tinv k).
Proof.
  intros [p n] (I & D & L & R). cbn [fst] in *. unfold begin_checks, ubind at 1, tpeer. cbn [fst]. destruct (p_punch p) as [u|] eqn:P.
  { split; [done|]. cbn. split_and!; [done|done|by eexists]. }
  unfold ubind at 1, upure at 1. destruct (new_punch _ _ _ _ _ _) as [u|] eqn:N; [|by split]. unfold ubind, tput, upure. cbn [fst snd].
  destruct I as [K [Bm Bk] Lo Re S Us Pu Ch Di]. destruct (Re R) as (Wa & Ne & Rc).
  destruct (new_checks_ok (b_local_device (p_binding p)) (b_peer_device (p_binding p)) (p_local p) (p_remote p) (pw_now w)) as (c & Ec & Sc); try done; [congruence|].
  rewrite Ec. split; [done|]. cbn [fst snd app]. split_and!; [|done|by eexists]. split; try done; cbn.
  - intros u' [= <-]. split; [done|]. by exists (pw_now w), (pw_nonce w k), u, [].
  - apply Sc.
  - intros o d. cbn. by rewrite D.
Qed.
Lemma tri_with_punch {A} k (f : PunchSession -> PunchSession * result A) :
  (forall u, exists e, fst (f u) = fst (punch_step e u)) -> tri (active k) (with_punch f) (fun _ => active k) (tinv k).
Proof.
  intros F [p n] (I & D & [u P]). cbn [fst] in *. unfold with_punch. cbn [fst snd]. rewrite P. destruct (F u) as [e E]. pose proof (inv_punch k p u e I P) as I'.
  rewrite <- E in I'. destruct (f u) as [u' r]. cbn in *. split; [done|]. destruct r; [|done]. split_and!; [done|done|by eexists].
Qed.
Lemma tri_with_checks k u f : (forall p c, succeeds_in (u_verified u) c -> succeeds_in (u_verified u) (f p c)) ->
  tri (fun s => active k s /\ p_punch (fst s) = Some u) (with_checks f) (fun _ s => active k s /\ p_punch (fst s) = Some u) (tinv k).
Proof.
  intros F [p n] [(I & D & _) P]. cbn [fst] in *. unfold with_checks, ubind, tpeer, tput. cbn [fst snd]. pose proof (pi_checks _ _ I) as Ch. rewrite P in Ch.
  destruct (p_checks p) as [c|] eqn:Ec; [|done]. split; [done|]. cbn. split; [|done]. split_and!; [|done|by eexists]. eapply inv_checks; [done|done|]. by apply F.
Qed.
Lemma tri_send_probe k w d : tri (active k) (send_probe w d) (fun _ => active k) (tinv k).
Proof.
  unfold send_probe. eapply tri_bind; [by apply tri_emit|]. intros ?. cbn beta. apply tri_when. intros _ [p n] A. pose proof A as (_ & _ & [u P]).
  pose proof (tri_with_checks k u (each_local (fun l => note_probe l (p_destination d)))) as T.
  specialize (T ltac:(intros q c; apply each_succeeds; intros; by apply probe_succeeds) (p, n) (conj A P)).
  destruct (with_checks _ (p, n)) as [[[?|?] s'] l]; destruct T as [Q T]; split; try done. by destruct T.
Qed.
Lemma tri_hear k w d : tri (active k) (hear w d) (fun _ => active k) (tinv k).
Proof.
  unfold hear. eapply tri_bind; [apply tri_with_punch|].
  { intros u. exists (pe_receive (fst d) (snd d) (pw_now w)). cbn. by destruct (receive _ _ _ u). }
  intros [r|]; cbn beta; [by apply tri_emit|]. intros s A. by split.
Qed.
Lemma tri_report k : tri (active k) report_verified (fun _ => active k) (tinv k).
Proof.
  intros s A. pose proof A as (_ & _ & [u P]). unfold report_verified, ubind at 1, tpeer. rewrite P.
  pose proof (tri_for (fun s => active k s /\ p_punch (fst s) = Some u) (u_verified u)
    (fun e => with_checks (each_local (fun l => check_result l e true None))) (tinv k)) as T.
  specialize (T ltac:(intros e He; apply tri_with_checks; intros q c; apply each_succeeds; intros; by apply result_succeeds) s (conj A P)).
  destruct (ufor _ _ s) as [[[a|e] s'] l]; destruct T as [Q T]; split; try done. by destruct T.
Qed.
Definition chosen_in (k : peer_key) (e : Endpoint) (s : Peer * Z) : Prop := active k s /\ exists u, p_punch (fst s) = Some u /\ e ∈ u_verified u.
Lemma tri_nominated k w : tri (active k) (nominated w)
  (fun best s => match best with Some q => chosen_in k (endpoint (cp_remote q)) s | None => tinv k s end) (tinv k).
Proof.
  intros [p n] (I & D & [u P]). cbn [fst] in *. unfold nominated, ubind at 1, tpeer. cbn [fst]. pose proof (pi_checks _ _ I) as Ch. rewrite P in Ch.
  destruct (p_checks p) as [c|] eqn:Ec; [|done]. pose proof (nominate_pairs (pw_now w) c) as Np. pose proof (nominated_succeeded (pw_now w) c) as Ns.
  destruct (nominate (pw_now w) c) as [c' best]. cbn [fst snd] in *. unfold ubind at 1, tput. cbn [fst snd].
  assert (I' : peer_inv k (set_p_checks (Some c') p)) by (eapply inv_checks; [done|done|]; intros q Hq; rewrite Np in Hq; by apply Ch).
  destruct best as [q|].
  - split; [done|]. destruct (Ns q eq_refl) as [Hq Sq]. cbn. split; [split_and!; [done|done|by eexists]|]. exists u. split; [done|by apply Ch].
  - cbn [app]. unfold ubind, uwhen. destruct (bool_decide _); [|by split]. split; [done|]. unfold tinv. cbn. by eapply inv_core; [|exact I'].
Qed.

(** ** Opening a connection *)

Lemma start_quiet bound d : snd (DirectQuic.start bound d) = [].
Proof.
  unfold DirectQuic.start, dbind, dget. destruct (dq_started d); [done|]. unfold dcheck. destruct (_ && _); [|done]. cbn. by destruct bound.
Qed.
Lemma connect_quiet o e random opened configured d : Forall (fun x => exists i, x = shut i) (snd (DirectQuic.connect o e random opened configured d)).
Proof.
  unfold DirectQuic.connect, dbind, dget. destruct (_ || _); [constructor|]. unfold dpure. destruct (new_peering true random) as [c|]; [|constructor].
  unfold dcheck. destruct opened; [|constructor]. cbn. destruct configured; cbn; [constructor|]. constructor; [by eexists|constructor].
Qed.
Lemma shuts_quiet k l : Forall (fun x => exists i, x = shut i) l -> Forall quiet (map (direct_out k) l).
Proof. intros F. apply Forall_map. eapply Forall_impl; [exact F|]. by intros x [i ->]. Qed.
Lemma first_steps_reach w k o e d0 r d l : new_direct identity o = Ok d0 -> first_steps w k o e d0 = (r, d, l) ->
  Forall (fun x => exists i, x = shut i) l /\ (r = Ok tt -> exists g, direct_reach identity o d g).
Proof.
  intros N H. unfold first_steps, dbind at 1 in H. pose proof (synchronize_quiet o (pw_snapshot w) d0) as Q1.
  pose proof (dr_step identity o (de_synchronize (pw_snapshot w)) d0 _ (dr_new identity o d0 N)) as R1. unfold step in R1. cbn [handle] in R1.
  destruct (DirectQuic.synchronize o (pw_snapshot w) d0) as [[[[]|e1] d1] l1]; cbn [fst snd] in *; subst l1; [|injection H as <- <- <-; by split].
  unfold dbind in H. pose proof (start_quiet (pw_bound w k) d1) as Q2.
  pose proof (dr_step identity o (de_start (pw_bound w k)) d1 _ R1) as R2. unfold step in R2. cbn [handle] in R2.
  destruct (DirectQuic.start (pw_bound w k) d1) as [[[[]|e2] d2] l2]; cbn [fst snd] in *; subst l2; [|injection H as <- <- <-; by split].
  pose proof (connect_quiet o e (pw_draw w k) (fst (pw_opened w k)) (snd (pw_opened w k)) d2) as Q3.
  pose proof (dr_step identity o (de_connect e (pw_draw w k) (fst (pw_opened w k)) (snd (pw_opened w k))) d2 _ R2) as R3. unfold step in R3. cbn [handle] in R3.
  destruct (DirectQuic.connect o e _ _ _ d2) as [[r3 d3] l3]. cbn [fst snd app] in *. injection H as <- <- <-. split; [done|]. intros _. by eexists.
Qed.
Lemma tri_open k w e : tri (chosen_in k e) (open_direct identity w k e) (fun _ => tinv k) (tinv k).
Proof.
  intros [p n] [(I & D & _) (u & P & V)]. cbn [fst] in *. unfold open_direct, ubind at 1, tpeer, ubind at 1, tput, ubind at 1, upure. cbn [fst snd].
  assert (I' : peer_inv k (set_p_socket None p)) by (by eapply inv_core; [|exact I]).
  set (o := options_of p (default 0 (p_socket p))). destruct (new_direct identity o) as [d0|] eqn:N; [|by split].
  unfold ubind, uemit. cbn [fst snd]. assert (Vf : verified_for k e).
  { destruct I as [-> [Bm Bk] _ _ _ _ Pu _ _]. destruct (Pu u P) as (_ & now & nonce & u0 & es & Nu & Eu).
    exists (p_key p), (p_binding p), (p_remote p), now, nonce, u0, es. split_and!; try done. by rewrite Eu. }
  destruct (first_steps w k o e d0) as [[r d] l] eqn:F. destruct (first_steps_reach _ _ _ _ _ _ _ _ N F) as [Q G].
  destruct r as [[]|x]; cbn [app]; (split; [constructor; [exact Vf|by apply shuts_quiet]|]); [|done]. unfold tinv. cbn [fst].
  destruct I' as [K B L R S Us Pu Ch Di]. split; try done; cbn.
  - intros X. destruct (Us X) as [[? Y] _]. cbn in Y. congruence.
  - intros o' d' [= <- <-]. split_and!; [by eexists|by apply G|]. by exists u, e.
Qed.
Lemma tri_check_pairs k w : tri (ready k) (check_pairs identity w k) (fun _ => tinv k) (tinv k).
Proof.
  unfold check_pairs. eapply tri_bind; [apply tri_begin|]. intros ?. cbn beta. eapply tri_bind; [apply tri_with_punch|].
  { intros u. exists (pe_tick (pw_now w)). cbn. by destruct (tick _ u). }
  intros probes. cbn beta. eapply tri_bind; [apply tri_for; intros d _; apply tri_send_probe|]. intros ?. cbn beta.
  eapply tri_bind; [apply tri_for; intros d _; apply tri_hear|]. intros ?. cbn beta. eapply tri_bind; [apply tri_report|]. intros ?. cbn beta.
  eapply tri_bind; [apply tri_nominated|]. intros [q|]; cbn beta; [apply tri_open|]. intros s H. by split.
Qed.
Lemma tri_publish k w (P : Peer * Z -> Prop) : (forall s, P s -> tinv k s) -> (forall p n x m, P (p, n) -> P (set_p_published x p, m)) -> tri P (publish w) (fun _ => P) (tinv k).
Proof.
  intros X Y [p n] H. unfold publish, ubind at 1, tpeer, ubind at 1, upure. cbn [fst snd]. destruct (pw_publish w (exchange_of p)) as [b|]; [|split; [done|by apply X]].
  unfold ubind, uemit. cbn [app fst snd]. split; [|by eapply Y]. constructor; [|constructor]. apply X in H. by destruct H as [_ [Bm _] _ _ _ _ _ _ _].
Qed.
Lemma tri_turn k w : world_ok w -> tri (tinv k) (turn identity w k) (fun _ => tinv k) (tinv k).
Proof.
  intros W. unfold turn. eapply tri_bind; [apply tri_tpeer|]. intros p. cbn beta. apply tri_if; [intros _ s [_ H]; by split|intros _].
  destruct (p_direct p) as [[o d]|] eqn:D.
  { eapply tri_weaken; [by apply tri_watch| |done]. intros s [-> H]. split; [done|]. by exists d. }
  apply tri_if; [intros _; eapply tri_weaken; [apply tri_fail_retry|by intros s [_ ?]|done]|]. intros G. apply orb_false_iff in G as [_ G]. bool_prop.
  set (P := fun s : Peer * Z => tinv k s /\ p_direct (fst s) = None /\ p_local (fst s) <> []).
  eapply (tri_bind _ _ (fun _ => P)).
  { intros s [-> H]. assert (Ps : P s) by (by split_and!). destruct (_ && _); cbn [uwhen]; [|by split]. refine (tri_publish k w P _ _ s Ps); [by intros s' []|].
    intros q n x m (I & E & Lq). split_and!; [by eapply inv_core; [|exact I]|done|done]. }
  intros ?. cbn beta. eapply tri_bind; [apply tri_tpeer|]. intros q. cbn beta. apply tri_if; intros G1.
  { eapply tri_weaken; [apply (tri_when (tinv k)); intros _; apply tri_fail_retry|by intros s [_ [? _]]|done]. }
  apply tri_if; intros _; [eapply tri_weaken; [apply tri_give_up|by intros s [_ [? _]]|done]|].
  eapply tri_weaken; [apply tri_check_pairs| |done]. apply orb_false_iff in G1 as [_ G1]. bool_prop. intros s (-> & I & E & L). by split_and!.
Qed.

(** ** All peers *)

Record path_inv (s : PeerPath) : Prop := mk_path_inv {
  pt_bound : Z.of_nat (size (pp_peers s)) <= 64;
  pt_peers : forall k p, pp_peers s !! k = Some p -> peer_inv k p }.
(** The peers are all that matters. *)
Lemma path_inv_peers s s' : pp_peers s' = pp_peers s -> path_inv s -> path_inv s'.
Proof. intros E [B P]. split; by rewrite E. Qed.
Lemma path_inv_set k p s : path_inv s -> is_Some (pp_peers s !! k) -> peer_inv k p -> path_inv (set_peer k p s).
Proof.
  intros [B P] [q K] I. split; cbn.
  - rewrite map_size_insert, K. done.
  - intros k' p'. destruct (decide (k = k')) as [<-|N]; [rewrite lookup_insert_eq; by intros [= <-]|rewrite lookup_insert_ne by done; apply P].
Qed.
Lemma path_inv_sub m s : path_inv s -> m ⊆ pp_peers s -> path_inv (set_pp_peers m s).
Proof.
  intros [B P] Su. split; cbn.
  - pose proof (map_subseteq_size _ _ Su). lia.
  - intros k p H. apply P. by eapply lookup_weaken.
Qed.
Definition keeps {A} (m : U PeerPath A) : Prop := tri path_inv m (fun _ => path_inv) path_inv.
Lemma keeps_at k (m : U Peer unit) : tri (peer_inv k) m (fun _ => peer_inv k) (peer_inv k) -> keeps (at_peer k m).
Proof.
  intros M s I. unfold at_peer. destruct (pp_peers s !! k) as [p|] eqn:E; [|by split]. specialize (M p (pt_peers _ I k p E)). destruct (m p) as [[r p'] l].
  destruct M as [Q M]. split; [done|]. assert (peer_inv k p') by (by destruct r). destruct r; by apply path_inv_set.
Qed.
Lemma keeps_put f : (forall s, pp_peers (f s) = pp_peers s) -> keeps (uput f).
Proof. intros F. apply tri_put. intros s. by apply path_inv_peers. Qed.
Lemma keeps_prepare w k : keeps (prepare options w k).
Proof.
  unfold prepare. eapply tri_bind; [apply tri_get|]. intros s. cbn beta. eapply (tri_weaken path_inv _ _ (fun _ => path_inv)); [|by intros s' [_ H]|done].
  eapply tri_bind; [by apply keeps_put|]. intros ?. cbn beta. apply keeps_at. eapply tri_weaken; [apply tri_prepare|done|]. by intros ? q [].
Qed.
Lemma keeps_create w n m : forall s, path_inv s -> Z.of_nat (size (pp_peers s)) < 64 ->
  match create me options w n m s with (r, s', l) => Forall quiet l /\ path_inv s' end.
Proof.
  intros s I B. unfold create. destruct (RoutedNetwork.identity _) as [mine|]; [|by split]. destruct (signed_key m) as [key|]; [|by split].
  pose proof (tri_prepare _ w (next_generation s) _ (fresh_inv n (encryption_public_key (pi_signed_key mine)) m key)) as T.
  destruct (prepare_peer options w _ _) as [[[[]|e] p] l]; destruct T as [Q T]; (split; [done|]); [|by eapply path_inv_peers; [|exact I]].
  destruct T as [T _]. destruct I as [Bd P]. split; cbn.
  - rewrite map_size_insert. destruct (pp_peers s !! _); cbn; lia.
  - intros k' p'. destruct (decide ((state_network_id (active_peers n), peer_device_id m) = k')) as [<-|N]; [rewrite lookup_insert_eq; by intros [= <-]|rewrite lookup_insert_ne by done; apply P].
Qed.
Lemma keeps_create_missing w l : forall created, keeps (create_missing me options w created l).
Proof.
  induction l as [|[n m] l IH]; intros created s I; cbn [create_missing]; [by split|]. destruct (_ || _); [by apply IH|].
  unfold ubind at 1, uget. destruct (_ || _) eqn:G.
  { specialize (IH created s I). destruct (create_missing me options w created l s) as [[r s'] l']. done. }
  apply orb_false_iff in G as [_ G]. rewrite Z.geb_leb, Z.leb_gt in G.
  assert (K : match (if created <? 2 then create me options w n m else uret tt) s with (r, s', l) => Forall quiet l /\ path_inv s' end)
    by (destruct (created <? 2); [by apply keeps_create|by split]).
  unfold ubind. destruct ((if created <? 2 then create me options w n m else uret tt) s) as [[[[]|e] s1] l1]; destruct K as [Q K]; [|by split].
  specialize (IH (created + 1) s1 K). destruct (create_missing me options w (created + 1) l s1) as [[r s2] l2]. destruct IH as [Q2 I2]. split; [cbn [app]; by apply Forall_app|done].
Qed.
Lemma keeps_cleanup w k : keeps (cleanup w k).
Proof.
  intros s I. unfold cleanup, ubind at 1, uget. destruct (pp_peers s !! k) as [p|]; [|by split]. unfold ubind, upure. destruct (peer_authorized _ p) as [v|]; [|by split].
  destruct (_ || _); (split; [done|]); [|done]. apply path_inv_sub; [done|]. apply delete_subseteq.
Qed.

(** A connection exists only when an answer has been taken. *)
Lemma waiting_calm k p : peer_inv k p -> p_waiting p = true -> p_direct p = None.
Proof.
  intros [K B L R S Us Pu Ch Di] W. destruct (p_direct p) as [[o d]|] eqn:D; [|done]. destruct (Di o d eq_refl) as (_ & _ & u & e & P & _).
  destruct (Pu u P) as [Rn _]. destruct (R Rn). congruence.
Qed.
Definition answering (k : peer_key) (p : Peer) : Prop := peer_inv k p /\ p_direct p = None /\ p_waiting p = false.
Lemma learned_inv k x w p : exchange_ok x -> x_recipient x = me -> k = (x_network_id x, x_sender x) -> answering k p ->
  peer_inv k (learned (candidates x) (pw_now w + lifetime_ms x * ms) (set_p_binding (regenerate (b_local_generation (p_binding p)) (generation x) (p_binding p)) p)).
Proof.
  intros X Rc Ek ([K [Bm Bk] L R S Us Pu Ch Di] & D & Wa). destruct X as (_ & _ & _ & Ne & _ & _ & _ & _ & _ & Le & F & _). split; cbn; try done.
  - intros _. split_and!; [done| |split; [done|lia]]. rewrite K in Ek. injection Ek as _ ->. congruence.
  - intros o d. congruence.
Qed.
(** Steps at one entry, with what is known of it in between. *)
Definition holding (k : peer_key) (P : Peer -> Prop) (s : PeerPath) : Prop := path_inv s /\ forall p, pp_peers s !! k = Some p -> P p.
Lemma tri_at k (P Q : Peer -> Prop) (m : U Peer unit) : (forall p, Q p -> peer_inv k p) -> tri P m (fun _ => Q) (peer_inv k) ->
  tri (holding k P) (at_peer k m) (fun _ => holding k Q) path_inv.
Proof.
  intros X M s [I H]. unfold at_peer. destruct (pp_peers s !! k) as [p|] eqn:E; cycle 1.
  { split; [done|]. split; [done|]. intros p Hp. congruence. }
  specialize (M p (H p eq_refl)). destruct (m p) as [[r p'] l]. destruct M as [Qt M]. split; [done|]. destruct r.
  - split; [apply path_inv_set; [done|by rewrite E|by apply X]|]. intros q. cbn. rewrite lookup_insert_eq. by intros [= <-].
  - apply path_inv_set; [done|by rewrite E|done].
Qed.
Lemma holding_put k P f : (forall s, pp_peers (f s) = pp_peers s) -> tri (holding k P) (uput f) (fun _ => holding k P) path_inv.
Proof. intros F. apply tri_put. intros s [I H]. split; [by eapply path_inv_peers; [apply F|exact I]|by rewrite F]. Qed.
Lemma tri_prepare_at k w : tri path_inv (prepare options w k) (fun _ => holding k (calm k)) path_inv.
Proof.
  unfold prepare. eapply tri_bind; [apply tri_get|]. intros s. cbn beta. eapply (tri_bind _ _ (fun _ => holding k (peer_inv k))).
  { eapply tri_weaken; [apply (holding_put k (peer_inv k)); done|intros s' [_ I]; split; [done|apply I]|done]. }
  intros ?. cbn beta. apply tri_at; [by intros p []|]. apply tri_prepare.
Qed.
Lemma keeps_take w x : exchange_ok x -> x_recipient x = me -> keeps (take_candidates options w x).
Proof.
  intros X Rc. unfold take_candidates. set (k := (x_network_id x, x_sender x)). cbv zeta. fold k. set (adopt := at_peer k (uput (fun p => learned _ _ _))).
  assert (Ad : tri (holding k (answering k)) adopt (fun _ => path_inv) path_inv).
  { eapply tri_weaken; [apply (tri_at k (answering k) (peer_inv k)); [done|]|done|by intros ? s []]. apply tri_put. intros p. by apply learned_inv. }
  eapply tri_bind; [apply tri_get|]. intros s. cbn beta. destruct (pp_peers s !! k) as [p|] eqn:E; [|intros s' [_ I]; by split].
  apply tri_if; [intros _ s' [_ I]; by split|intros _]. apply tri_if; intros _.
  - apply tri_if; intros G.
    + eapply tri_weaken; [apply (tri_when (holding k (fun q => peer_inv k q /\ p_waiting q = true)))| |by intros ? s' []].
      * intros _. eapply tri_bind; [by apply holding_put|]. intros ?. cbn beta. apply tri_at; [by intros q []|]. apply tri_put. intros q [I Wq].
        pose proof (waiting_calm _ _ I Wq) as D. destruct I as [K B L R S Us Pu Ch Di]. split; [|done]. split; cbn; try done.
        -- intros u P. destruct (Pu u P) as [Rn _]. destruct (R Rn). congruence.
        -- intros o d. congruence.
      * intros s' [<- I]. split; [done|]. intros q Hq. pose proof (eq_trans (eq_sym E) Hq) as Eq. injection Eq as <-. apply andb_true_iff in G as [G _]. split; [by apply I|done].
    + eapply (tri_weaken path_inv _ _ (fun _ => path_inv)); [|by intros s' [_ I]|done]. eapply tri_bind; [apply tri_prepare_at|]. intros ?. cbn beta.
      eapply tri_bind; [|intros ?; exact Ad]. apply tri_at; [by intros q []|]. apply tri_put. intros q (I & D & P). destruct I as [K B L R S Us Pu Ch Di].
      split; [|done]. split; cbn; try done. intros Rn. destruct (R Rn) as (_ & ? & ?). done.
  - apply tri_if; intros G; [intros s' [_ I]; by split|]. apply orb_false_iff in G as [Wp _]. apply negb_false_iff in Wp.
    eapply (tri_bind _ _ (fun _ => holding k (answering k))); [|intros ?; exact Ad].
    eapply (tri_weaken (holding k (fun q => peer_inv k q /\ p_waiting q = true))); [apply (tri_at k _ (answering k)); [by intros q []|]| |done].
    + apply tri_put. intros q [I Wq]. pose proof (waiting_calm _ _ I Wq) as D. destruct I as [K B L R S Us Pu Ch Di]. split; [|done]. split; cbn; try done.
      intros Rn. destruct (R Rn) as (_ & ? & ?). done.
    + intros s' [<- I]. split; [done|]. intros q Hq. pose proof (eq_trans (eq_sym E) Hq) as Eq. injection Eq as <-. split; [by apply I|done].
Qed.
Lemma keeps_turn w k : world_ok w -> keeps (turn_at identity w k).
Proof.
  intros W s I. unfold turn_at. destruct (pp_peers s !! k) as [p|] eqn:E; [|by split].
  pose proof (tri_turn k w W (p, pp_next_offer s) (pt_peers _ I k p E)) as T. destruct (turn identity w k (p, pp_next_offer s)) as [[r [p' n]] l]. destruct T as [Q T].
  split; [done|]. assert (path_inv (set_pp_next_offer n (set_peer k p' s))).
  { eapply path_inv_peers; [|apply (path_inv_set k p' s I); [by rewrite E|]]; [done|]. by destruct r. }
  by destruct r.
Qed.

Lemma keeps_update w : world_ok w -> keeps (update identity me options w).
Proof.
  intros W. unfold update. eapply tri_bind; [apply tri_get|]. intros s0. cbn beta.
  eapply (tri_bind _ _ (fun _ => path_inv)); [eapply tri_weaken; [apply (tri_for path_inv); intros k _; apply keeps_cleanup|by intros s []|done]|]. intros ?.
  eapply tri_bind; [apply tri_get|]. intros s. cbn beta. eapply (tri_weaken path_inv _ _ (fun _ => path_inv)); [|by intros s' []|done].
  apply tri_if; intros _; [apply tri_put; intros s' I; apply path_inv_sub; [done|apply map_empty_subseteq]|]. apply tri_if; intros _; [intros s' I; by split|].
  eapply (tri_bind _ _ (fun _ => path_inv)).
  { intros s' I. unfold scan_interfaces, ubind, uget. cbn. destruct (_ >=? _); (split; [done|]); [by eapply path_inv_peers; [|exact I]|done]. }
  intros moved. cbn beta. eapply tri_bind; [apply tri_when; intros _; apply tri_for; intros k _; apply keeps_prepare|]. intros ?. cbn beta.
  eapply tri_bind; [by apply keeps_put|]. intros ?. cbn beta. eapply tri_bind; [apply tri_for; intros k _ s' I|].
  { destruct (match pp_peers s' !! k with Some _ => _ | None => _ end); cbn [uwhen]; [by apply keeps_prepare|by split]. }
  intros ?. cbn beta. eapply tri_bind; [apply keeps_create_missing|]. intros ?. cbn beta. eapply tri_bind; [apply tri_for; intros x Hx|].
  { destruct W as [_ O]. rewrite Forall_forall in O. destruct (O x Hx) as [X R]. exact (keeps_take w x X R). }
  intros ?. cbn beta. eapply tri_bind; [apply tri_get|]. intros s'. cbn beta. eapply tri_weaken; [apply (tri_for path_inv); intros k _; by apply keeps_turn|by intros ? []|done].
Qed.

(** ** Packets *)

Lemma send_outcome o w p d r d' l : DirectQuic.send o w p d = (r, d', l) ->
  r = Ok accepted /\ is_authenticated o d = true /\ ours o p (o_peer_ipv4 o) = true /\ (exists i dg bs, l = [put_bytes i dg bs]) \/ r <> Ok accepted /\ l = [].
Proof.
  unfold DirectQuic.send, dbind at 1, dget. destruct (selected o d) as [i|] eqn:Se; [|intros [= <- <- <-]; by right]. destruct (_ || _) eqn:G; [intros [= <- <- <-]; by right|].
  destruct (negb (ours o p _)) eqn:Ou; [intros [= <- <- <-]; by right|]. unfold dpure, dbind at 1. destruct (encode_encrypted_network_packet p) as [bs|]; [|intros [= <- <- <-]; by right].
  unfold dconn, dbind at 1. destruct (dq_connections d !! i) as [c|] eqn:Ec; [|intros [= <- <- <-]; by right]. cbv zeta.
  set (dg := negb _ && _). unfold dbind at 1. destruct (if dg then Ok bs else _) as [out|]; [|intros [= <- <- <-]; by right].
  unfold dbind at 1, output, dbind at 1, dconn. rewrite Ec. destruct (submit _ _ _ _ _) as [status sn]. unfold dbind at 1, dalter at 1, dput at 1. cbn [app].
  destruct (quic_succeeded status); intros [= <- <- <-]; [left|by right]. apply orb_false_iff in G as [G1 G2]. apply negb_false_iff in G2, Ou.
  split_and!; [done|unfold is_authenticated; by rewrite G1, G2, Se|done|by eexists _, _, _].
Qed.
Lemma send_step o w p d : snd (fst (DirectQuic.send o w p d)) = step identity o (de_send w p) d.
Proof. unfold step. cbn [handle]. unfold dbind. by destruct (DirectQuic.send o w p d) as [[[?|?] d'] l]. Qed.

Lemma entries_elem (m : gmap peer_key Peer) k p : (k, p) ∈ entries m <-> m !! k = Some p.
Proof. unfold entries. rewrite order_by_perm. apply elem_of_map_to_list. Qed.

(** The packet may go over the direct connection of this peer. *)
Definition direct_permitted (snapshot : NetworkSnapshot) (s : PeerPath) (k : peer_key) (p : Peer) (packet : EncryptedNetworkPacket) : Prop :=
  pp_peers s !! k = Some p /\ b_network_id (p_binding p) = network_id packet /\ p_peer_ip p = destination_ipv4 packet /\
  pp_enabled s = true /\ pp_requested s = pp_completed s /\ p_use_direct p = true /\ peer_authorized snapshot p = Ok true /\
  exists o d, p_direct p = Some (o, d) /\ is_authenticated o d = true.
(** Exactly one way: accepted by a permitted direct connection, or passed to the relay after a connection that refused it is given up. *)
Lemma send_packet_spec snapshot world relay packet s : path_inv s ->
  match send_packet snapshot world relay packet s with
  | (r, s', l) => path_inv s' /\
      (forall x, x ∈ l -> x = relayed_packet packet \/ exists k i dg bs p, x = direct_out k (put_bytes i dg bs) /\ direct_permitted snapshot s k p packet) /\
      match r with
      | Ok r =>
          (r = accepted /\ exists k i dg bs, l = [direct_out k (put_bytes i dg bs)]) \/
          (r = relay /\ l = [relayed_packet packet] /\
           forall k p, List.find (carries packet) (entries (pp_peers s)) = Some (k, p) -> direct_chosen snapshot s p = Ok true ->
             exists p', pp_peers s' !! k = Some p' /\ p_use_direct p' = false)
      | Throw _ => relayed_packet packet ∉ l
      end
  end.
Proof.
  intros I. unfold send_packet, ubind at 1, uget. destruct (List.find (carries packet) (entries (pp_peers s))) as [[k p]|] eqn:F; cycle 1.
  { cbn. split; [done|]. split; [intros x Hx; left; set_solver|]. right. split_and!; done. }
  apply find_some in F as [Hin Ca]. apply list_elem_of_In, entries_elem in Hin. unfold carries in Ca. bool_prop. cbn [snd] in *.
  unfold ubind at 1 2, upure. destruct (direct_chosen snapshot s p) as [[]|] eqn:Ch; cycle 1.
  { cbn. split; [done|]. split; [intros x Hx; left; set_solver|]. right. split_and!; try done. intros k' p' [= <- <-]. congruence. }
  { cbn. split_and!; [done|intros x Hx; by apply elem_of_nil in Hx|apply not_elem_of_nil]. }
  unfold direct_chosen in Ch. destruct (_ && _) eqn:G in Ch; [|done]. rewrite !andb_true_iff in G. destruct G as [[[G1 G2] G3] G4]. bool_prop.
  unfold send_direct. destruct (p_direct p) as [[o d]|] eqn:D; [|by destruct G4].
  pose proof (direct_step_inv k o d (de_send world packet) p (pt_peers _ I k p Hin) D) as I'. rewrite <- send_step in I'.
  destruct (DirectQuic.send o world packet d) as [[r d'] l] eqn:Se. cbn [fst snd] in I'. destruct (send_outcome _ _ _ _ _ _ _ Se) as [(-> & Au & _ & i & dg & bs & ->)|[Nr ->]].
  - rewrite bool_decide_true by done. cbn. split_and!; [apply path_inv_set; [done|by rewrite Hin|done]| |left; split; [done|by eexists _, _, _, _]].
    intros x Hx. right. exists k, i, dg, bs, p. split; [set_solver|]. split_and!; try done. by exists o, d.
  - destruct r as [r|e]; cbn.
    + rewrite bool_decide_false by congruence. cbn. split_and!.
      * apply path_inv_set; [done|by rewrite Hin|]. destruct I' as [K B L R S Us Pu Chk Di]. split; done.
      * intros x Hx. left. set_solver.
      * right. split_and!; try done. intros k' p' [= <- <-] _. eexists. rewrite lookup_insert_eq. by split.
    + split_and!; [apply path_inv_set; [done|by rewrite Hin|done]|intros x Hx; by apply elem_of_nil in Hx|apply not_elem_of_nil].
Qed.

Definition fair (e : path_event) : Prop :=
  match e with
  | pe_update w | pe_turn w _ => world_ok w
  | pe_candidates _ x => exchange_ok x /\ x_recipient x = me
  | _ => True
  end.
Definition path_step (e : path_event) (s : PeerPath) : PeerPath := snd (fst (handle_path identity me options e s)).
Definition path_outputs (e : path_event) (s : PeerPath) : list path_output := snd (handle_path identity me options e s).
Inductive path_reach : PeerPath -> Prop :=
| pr_new s : new_peer_path options = Ok s -> path_reach s
| pr_step e s : path_reach s -> fair e -> path_reach (path_step e s).

(** A connection is opened only to a candidate of the peer that returned a signed echo of this attempt's nonce. *)
Definition reached (k : peer_key) (e : Endpoint) : Prop :=
  exists key b remote now nonce u0 es, k = (b_network_id b, b_peer_device b) /\ b_local_device b = me /\ encryption_public_key key = b_peer_session b /\
    new_punch identity key b remote now nonce = Ok u0 /\ (wf_binding b -> answered u0 es e).
Definition sound_output (s : PeerPath) (e : path_event) (x : path_output) : Prop :=
  match x with
  | handed f => pp_active s = true /\ pp_handler s = true /\
      (e = pe_relayed f \/ exists snapshot k de p o d, e = pe_direct snapshot k de /\ pp_peers s !! k = Some p /\ p_direct p = Some (o, d) /\
         deliver f ∈ outputs identity o de d /\ peer_authorized snapshot p = Ok true)
  | relayed_packet packet => exists snapshot world relay, e = pe_send snapshot world relay packet
  | direct_out k (put_bytes i dg bs) =>
      (exists snapshot world relay packet p, e = pe_send snapshot world relay packet /\ direct_permitted snapshot s k p packet) \/
      (exists snapshot de p o d, e = pe_direct snapshot k de /\ pp_peers s !! k = Some p /\ p_direct p = Some (o, d) /\ put_bytes i dg bs ∈ outputs identity o de d)
  | direct_out _ (deliver _) => False
  | direct_out _ (shut _) | probe _ _ => True
  | connecting k e => reached k e
  | offer x _ => x_sender x = me
  end.
Lemma quiet_sound s e x : quiet x -> sound_output s e x.
Proof.
  destruct x as [x b|e' bs|k e'|k []|p|f]; cbn; try done. intros (key & b & remote & now & nonce & u0 & es & K & M & Ek & N & V).
  exists key, b, remote, now, nonce, u0, es. split_and!; try done. intros W. destruct (punch_run es u0) as [u ds] eqn:R.
  destruct (punch_authentic _ _ _ _ _ _ _ _ _ _ W N R) as [A _]. apply A. by right.
Qed.
Lemma on_direct_spec snapshot k de s : path_inv s ->
  path_inv (path_step (pe_direct snapshot k de) s) /\ forall x, x ∈ path_outputs (pe_direct snapshot k de) s -> sound_output s (pe_direct snapshot k de) x.
Proof.
  intros I. unfold path_step, path_outputs. cbn [handle_path]. unfold on_direct. destruct (pp_peers s !! k) as [p|] eqn:E; [|split; [done|intros x Hx; by apply elem_of_nil in Hx]].
  destruct (p_direct p) as [[o d]|] eqn:D; [|split; [done|intros x Hx; by apply elem_of_nil in Hx]].
  pose proof (direct_step_inv k o d de p (pt_peers _ I k p E) D) as I'. unfold step in I'. assert (O : outputs identity o de d = snd (handle identity o de d)) by done.
  destruct (handle identity o de d) as [[r d'] l]. cbn [fst snd] in *. split; [apply path_inv_set; [done|by rewrite E|done]|].
  intros x Hx. apply list_elem_of_In, in_concat in Hx as (l' & Hl & Hx). apply list_elem_of_In in Hl, Hx. apply list_elem_of_fmap in Hl as (y & -> & Hy).
  unfold delivered in Hx. destruct y as [i dg bs|f|i].
  - apply list_elem_of_singleton in Hx as ->. cbn. right. exists snapshot, de, p, o, d. split_and!; try done. by rewrite O.
  - destruct (peer_authorized snapshot p) as [[]|] eqn:A; [|by apply elem_of_nil in Hx..]. destruct (_ && _) eqn:G; [|by apply elem_of_nil in Hx].
    apply list_elem_of_singleton in Hx as ->. apply andb_true_iff in G as [G1 G2]. cbn. split_and!; try done. right. exists snapshot, k, de, p, o, d. split_and!; try done. by rewrite O.
  - apply list_elem_of_singleton in Hx as ->. done.
Qed.
Lemma path_step_sound e s : path_inv s -> fair e ->
  path_inv (path_step e s) /\ forall x, x ∈ path_outputs e s -> sound_output s e x.
Proof.
  intros I W. assert (Kp : keeps (handle_path identity me options e) -> path_inv (path_step e s) /\ forall x, x ∈ path_outputs e s -> sound_output s e x).
  { intros K. specialize (K s I). unfold path_step, path_outputs. destruct (handle_path identity me options e s) as [[r s'] l]. destruct K as [Q K].
    split; [by destruct r|]. intros x Hx. rewrite Forall_forall in Q. by apply quiet_sound, Q. }
  destruct e as [w|w k|w k|w|w x|w k|x| | | |x|snapshot world relay packet|snapshot k de|f].
  1-11: apply Kp; cbn [handle_path]; clear Kp.
  - by apply keeps_update.
  - apply keeps_cleanup.
  - apply keeps_prepare.
  - apply keeps_create_missing.
  - destruct W. by apply keeps_take.
  - by apply keeps_turn.
  - by apply keeps_put.
  - by apply keeps_put.
  - by apply keeps_put.
  - apply tri_put. intros s' I'. apply path_inv_sub; [by eapply path_inv_peers; [|exact I']|apply map_empty_subseteq].
  - by apply keeps_put.
  - pose proof (send_packet_spec snapshot world relay packet s I) as S. unfold path_step, path_outputs. cbn [handle_path]. unfold ubind.
    destruct (send_packet snapshot world relay packet s) as [[r s'] l]. destruct S as (I' & Ou & _).
    assert (G : forall x, x ∈ l -> sound_output s (pe_send snapshot world relay packet) x).
    { intros x Hx. destruct (Ou x Hx) as [->|(k & i & dg & bs & p & -> & P)]; cbn; [by eexists _, _, _|]. left. by eexists _, _, _, _, p. }
    destruct r; (split; [exact I'|]); intros x Hx; cbn in Hx; rewrite ?app_nil_r in Hx; by apply G.
  - by apply on_direct_spec.
  - unfold path_step, path_outputs. cbn. split; [done|]. intros x Hx. destruct (_ && _) eqn:G; [|by apply elem_of_nil in Hx]. apply list_elem_of_singleton in Hx as ->.
    apply andb_true_iff in G as [G1 G2]. cbn. split_and!; try done. by left.
Qed.
Lemma path_reach_inv s : path_reach s -> path_inv s.
Proof.
  induction 1 as [s H|e s _ IH F]; [|by apply path_step_sound]. unfold new_peer_path in H. destruct (negb _); [|done]. destruct (forallb _ _); [|done].
  apply Ok_inj in H as <-. split; cbn; [by rewrite map_size_empty|]. intros k p. by rewrite lookup_empty.
Qed.
(** What is left of a peer after the cleanup. *)
Lemma cleanup_spec w k s s' l : cleanup w k s = (Ok tt, s', l) ->
  forall p, pp_peers s' !! k = Some p -> still_listed (pw_snapshot w) p = true /\ (b_peer_generation (p_binding p) <> 0 -> peer_authorized (pw_snapshot w) p = Ok true).
Proof.
  unfold cleanup, ubind at 1, uget. destruct (pp_peers s !! k) as [q|] eqn:E; [|intros [= <- <-] p Hp; congruence]. unfold ubind, upure.
  destruct (peer_authorized _ q) as [v|] eqn:A; [|done]. destruct (_ || _) eqn:G; intros [= <- <-] p Hp; [cbn in Hp; by rewrite lookup_delete_eq in Hp|].
  rewrite E in Hp. injection Hp as <-. apply orb_false_iff in G as [G1 G2]. split; [by destruct (still_listed _ q)|]. intros N. destruct v; [done|]. cbn in G1.
  apply negb_false_iff, Z.eqb_eq in G1. done.
Qed.
Lemma disabled_empties w s s' l : pp_enabled s = false -> update identity me options w s = (Ok tt, s', l) -> pp_peers s' = ∅.
Proof.
  intros E H. unfold update, ubind at 1, uget in H.
  assert (T : tri (fun s => pp_enabled s = false) (ufor (keys s) (cleanup w)) (fun _ s => pp_enabled s = false) (fun _ => True)).
  { clear H. apply tri_for. intros k _ s0 E0. unfold cleanup, ubind at 1, uget. destruct (pp_peers s0 !! k) as [p|]; [|by split]. unfold ubind, upure.
    destruct (peer_authorized _ p) as [v|]; [|by split]. destruct (_ || _); (split; [done|exact E0]). }
  specialize (T s E). unfold ubind at 1 in H. destruct (ufor (keys s) (cleanup w) s) as [[[[]|e] s1] l1]; [|done]. destruct T as [_ E1].
  unfold ubind at 1, uget in H. rewrite E1 in H. by injection H as <- _.
Qed.

End Safety.

(** ** Alice follows Bob *)

Section Concrete.
#[local] Existing Instance toy_crypto.
Definition plain_options : PeerPathOptions := mk_path_options true false [].
Definition wire : InterfaceAddress := mk_interface [] 0xc0a80102 3 true false false.
Definition first_world : PathWorld :=
  mk_path_world (10 * ms) alice_view true None [] (fun _ => 10 * ms) (fun _ => [wire]) (fun _ => Some 4000) (fun _ _ => (None, false, []))
    (fun _ => Ok true) (fun _ => Some (replicate 32 x07)) (fun _ _ => true) (fun _ => []) (fun _ => Ok 4000) (fun _ => Some (replicate 32 x07))
    (fun _ => (true, true)) (fun _ => None).
Definition alice_path : PeerPath := mk_peer_path_state ∅ true 0 0 None 0 0 0 false false.
Definition alice_follows : PeerPath := path_step punch_alice punch_alice plain_options (pe_update first_world) alice_path.
Definition to_bob : EncryptedNetworkPacket := mk_packet (replicate 16 x01) 0x0a400003 2 1 [] [] [].

Lemma alice_follows_reach : path_reach punch_alice punch_alice plain_options alice_follows.
Proof. apply pr_step; [apply pr_new; vm_compute; reflexivity|]. split; [by intros k st|constructor]. Qed.

End Concrete.
