(* ===== verification/RelaySession.v ===== *)
(** * The session with a relay

    session/relay_session.hpp and .cpp: the thread that runs the relay client and the snapshot of its active networks;
    session/relay_packet_path.hpp and .cpp: the relay as a packet path; and [QuicRelayClient::Impl::diagnostics] of
    transport/quic.cpp, which the path reports.  A snapshot and a report read the client several times while
    other threads go on: [seen] is the client as each read finds it, [now] the clock then.  What run returns or throws and
    what MsQuic and the TLS channel count are arguments. *)
From S2P Require Import Limits Candidates Capabilities QuicSend PathDiagnostics UserAccess NetworkManagement Handshake.
From S2P Require Import Prelude Codec StreamDecoder Ipv4 NetworkPolicy NetworkMessages PacketMessages Crypto PacketCipher RelayStore RoutedNetwork.
From S2P Require Import DirectQuic.
From S2P Require Import ClientCache RelayClient ClientSafety ClientSession ClientScenario.

(** ** The worker thread *)

Record Session := mk_session { ss_worker : bool; ss_finished : bool; ss_error : option exn; ss_client : Client }.
Definition new_session (c : Client) : Session := mk_session false true None c.

(** [thread]: whether the thread could be created; one that was not leaves the session finished and throws. *)
Definition start (thread : bool) (s : Session) : result unit * Session :=
  if ss_worker s then (Throw logic_error, s)
  else if thread then (Ok tt, mk_session true false None (ss_client s))
  else (Throw runtime_error, mk_session false true None (ss_client s)).

(** [client_.run] returned, or threw, and the thread ends. *)
Definition worker_ends (outcome : result unit) (s : Session) : Session :=
  if ss_worker s && negb (ss_finished s)
  then mk_session true true (match outcome with Ok _ => ss_error s | Throw e => Some e end) (ss_client s) else s.

Section Session.
Context {C : Crypto} {T : TokenMac} {L : Layout}.

(** The client is told to stop, and the thread, which then ends with [outcome] if it had not, is joined. *)
Definition stop (outcome : result unit) (s : Session) : Session * list output :=
  let '(_, c, o) := RelayClient.stop (ss_client s) in
  let s := worker_ends outcome (mk_session (ss_worker s) (ss_finished s) (ss_error s) c) in
  (mk_session false (ss_finished s) (ss_error s) (ss_client s), o).

Definition rethrow_error (s : Session) : result unit := match ss_error s with Some e => Throw e | None => Ok tt end.

(** ** The snapshot *)

Definition no_snapshot : NetworkSnapshot := mk_snapshot None [].

(** The networks among [states] whose key, read from the [i]th client on, is of their epoch. *)
Fixpoint keyed_networks (now : nat -> Z) (seen : nat -> Client) (i : nat) (states : list NetworkPeerState) : list ActiveNetworkPacketState :=
  match states with
  | [] => []
  | st :: states =>
      let rest := keyed_networks now seen (S i) states in
      match cached_network_key (now i) (state_network_id st) (r_cache (seen i)) with
      | Some key => if ks_epoch key =? state_key_epoch st then mk_active st key :: rest else rest
      | None => rest
      end
  end.

Definition snapshot (now : nat -> Z) (seen : nat -> Client) : NetworkSnapshot :=
  if negb (r_authenticated (seen 0%nat)) then no_snapshot
  else
    let identity := cached_packet_identity (seen 1%nat) in
    let states := match identity with Some _ => cached_peer_states (now 2%nat) (r_cache (seen 2%nat)) | None => [] end in
    let networks := keyed_networks now seen 3 states in
    if negb (r_authenticated (seen (3 + length states)%nat)) then no_snapshot else mk_snapshot identity networks.

(** ** The relay as a packet path *)

(** [between] and [after]: what other threads do before the packet is handed over and after it was refused. *)
Definition send (w : World) (between after : Client -> Client) (p : EncryptedNetworkPacket) (c : Client)
  : PacketSendResult * Client * list output :=
  if negb (r_authenticated c) then (unavailable, c, [])
  else
    match send_encrypted_packet w p (between c) with
    | (Ok _, c, o) => (accepted, c, o)
    | (Throw invalid_argument, c, o) => (invalid_packet, c, o)
    | (Throw _, c, o) => ((if r_authenticated (after c) then backpressure else unavailable), after c, o)
    end.

(** ** Reports *)

(** The bytes a connection sent and received. *)
Record Traffic := mk_traffic { t_sent_bytes : Z; t_received_bytes : Z }.
Record ClientDiagnostics := mk_client_diagnostics {
  cd_error : ErrorCode; cd_sent : Z; cd_received : Z; cd_dropped : Z; cd_lost : option Z; cd_retransmittable : option Z; cd_connected : bool;
  cd_authenticated : bool; cd_tcp_fallback : bool; cd_rtt_us : option Z; cd_traffic : Traffic; cd_reconnects : Z }.

(** [channel] is the traffic of the TLS channel, [quic] what MsQuic reports of the connection, if it is there and the call succeeds. *)
Definition diagnostics (reconnects : Z) (channel : Traffic) (quic : option (Statistics * Traffic)) (seen : nat -> Client) : ClientDiagnostics :=
  let report := mk_client_diagnostics (r_error (seen 5%nat)) (r_sent (seen 2%nat)) (r_received (seen 3%nat)) (r_dropped (seen 4%nat)) in
  let report := fun lost retransmittable => report lost retransmittable (r_connected (seen 0%nat)) (r_authenticated (seen 1%nat)) in
  let attempt := r_attempt (seen 7%nat) in
  if negb (r_active (seen 6%nat)) then report None None false None (mk_traffic 0 0) reconnects
  else if a_tcp attempt then report None None (a_authenticated attempt) None channel reconnects
  else match quic with
       | Some (st, traffic) =>
           report (Some (if st_suspected st >? st_spurious st then st_suspected st - st_spurious st else 0)) (Some (st_retransmittable st)) false
             (if negb (st_rtt st =? 0) then Some (st_rtt st) else None) traffic reconnects
       | None => report None None false None (mk_traffic 0 0) reconnects
       end.

Definition status (finished : bool) (d : ClientDiagnostics) : PathStatus :=
  mk_path_status
    (if negb (cd_authenticated d) then path_none else if cd_tcp_fallback d then relay_tls else relay_quic)
    (if cd_authenticated d then path_authenticated else if finished then path_stopped else path_connecting)
    (cd_rtt_us d) (t_sent_bytes (cd_traffic d)) (t_received_bytes (cd_traffic d))
    (if negb (cd_authenticated d) then awaiting_relay else if cd_tcp_fallback d then udp_blocked else relayed)
    (cd_error d) (cd_sent d) (cd_received d) (cd_dropped d) (cd_lost d) None (cd_retransmittable d) (cd_reconnects d).

(** A stopped session has no thread, is finished and its client serves nobody; it can be started again, which clears the error. *)
Lemma stop_ends outcome s s' o : (ss_worker s = false -> ss_finished s = true) -> stop outcome s = (s', o) ->
  ss_worker s' = false /\ ss_finished s' = true /\ serving (ss_client s') = false /\ start true s' = (Ok tt, mk_session true false None (ss_client s')).
Proof.
  intros F. unfold stop. destruct (RelayClient.stop (ss_client s)) as [[r c] l] eqn:E. intros [= <- <-]. split; [done|].
  assert (Q : r_stop c = true).
  { revert E. unfold RelayClient.stop, mbind, mput, mget, on_attempt, memit, mret. generalize (ss_client s). intros c0. cbn. destruct c0 as [????? ? [[] [] ????[]????????] [] ????????]; cbn; by intros [= _ <- _]. }
  unfold worker_ends. destruct (ss_worker s) eqn:W, (ss_finished s) eqn:Fi; cbn; unfold serving; rewrite Q, ?andb_false_r; split_and!; try done; by specialize (F eq_refl).
Qed.

(** ** Snapshots *)

Lemma cached_states_elem now k st : In st (cached_peer_states now k) -> exists id, peer_states_ k !! id = Some st /\ policy_current now k st = true.
Proof.
  unfold cached_peer_states. intros [H P]%filter_In. apply list_elem_of_In, list_elem_of_fmap in H as ([id st'] & -> & H).
  rewrite order_by_perm in H. apply elem_of_map_to_list in H. by exists id.
Qed.
Lemma cached_states_ids now k : cache_ok k -> NoDup (map state_network_id (cached_peer_states now k)).
Proof.
  intros [_ St _]. unfold cached_peer_states. set (l := order_by _ _).
  assert (F : forall e, e ∈ l -> state_network_id (snd e) = fst e).
  { intros [id st] H. unfold l in H. rewrite order_by_perm in H. apply elem_of_map_to_list in H. by destruct (St id st H). }
  assert (N : NoDup (map fst l)). { unfold l. rewrite order_by_perm. apply NoDup_fst_map_to_list. }
  clearbody l. induction l as [|e l IH]; [constructor|]. cbn in *. apply NoDup_cons in N as [Ne N].
  assert (IH' := IH (fun e' H => F e' (list_elem_of_further e' e l H)) N). destruct (policy_current _ _ _); [|done]. cbn. constructor; [|done].
  rewrite (F e (list_elem_of_here e l)). intros Hin. apply Ne. apply list_elem_of_fmap in Hin as (st & -> & H). apply list_elem_of_In, filter_In in H as [H _].
  apply list_elem_of_In, list_elem_of_fmap in H as (e' & -> & H). rewrite (F e') by set_solver. by apply list_elem_of_fmap_2.
Qed.

(** A network of the snapshot had its state in a client seen before its key was found in a later one. *)
Lemma keyed_elem now seen i states a : In a (keyed_networks now seen i states) ->
  exists j, (i <= j < i + length states)%nat /\ In (active_peers a) states /\
    cached_network_key (now j) (state_network_id (active_peers a)) (r_cache (seen j)) = Some (active_key a) /\
    ks_epoch (active_key a) = state_key_epoch (active_peers a).
Proof.
  revert i. induction states as [|st states IH]; intros i; cbn; [done|].
  assert (Rest : In a (keyed_networks now seen (S i) states) -> exists j, (i <= j < i + S (length states))%nat /\ (st = active_peers a \/ In (active_peers a) states) /\
    cached_network_key (now j) (state_network_id (active_peers a)) (r_cache (seen j)) = Some (active_key a) /\ ks_epoch (active_key a) = state_key_epoch (active_peers a)).
  { intros (j & J & H & K)%IH. exists j. split; [lia|]. split; [by right|done]. }
  destruct (cached_network_key _ _ _) as [key|] eqn:K; [|done]. destruct (ks_epoch key =? _) eqn:E; [|done].
  intros [<-|H]; [|by apply Rest]. exists i. apply Z.eqb_eq in E. split; [lia|]. split; [by left|done].
Qed.
Lemma keyed_sublist now seen i states : sublist (map active_peers (keyed_networks now seen i states)) states.
Proof.
  revert i. induction states as [|st states IH]; intros i; cbn; [constructor|].
  destruct (cached_network_key _ _ _) as [key|]; [destruct (_ =? _)|]; by constructor.
Qed.
(** Nothing that could be used is left out when nobody interferes. *)
Lemma keyed_complete t c i states st key : In st states -> cached_network_key t (state_network_id st) (r_cache c) = Some key -> ks_epoch key = state_key_epoch st ->
  In (mk_active st key) (keyed_networks (fun _ => t) (fun _ => c) i states).
Proof.
  intros H K E. revert i. induction states as [|st' states IH]; intros i; cbn; [done|]. destruct H as [->|H].
  - rewrite K, E, Z.eqb_refl. by left.
  - destruct (cached_network_key t (state_network_id st') _); [destruct (_ =? _)|]; try right; by apply IH.
Qed.
Lemma cached_key_elem now k id key : cache_ok k -> cached_network_key now id k = Some key ->
  network_keys_ k !! id = Some key /\ exists st, peer_states_ k !! id = Some st /\ policy_current now k st = true.
Proof.
  intros O. unfold cached_network_key. destruct (peer_states_ k !! id) as [st|] eqn:E.
  - destruct (policy_current now k st) eqn:P; [|done]. intros H. split; [done|by exists st].
  - intros H. destruct (ck_keys _ O id key H) as (st & Es & _). congruence.
Qed.

(** What stands in a snapshot, by the clients its reads found. *)
Definition snapshot_entry (me : Me) (now : nat -> Z) (seen : nat -> Client) (s : NetworkSnapshot) (a : ActiveNetworkPacketState) : Prop :=
  let id := state_network_id (active_peers a) in
  (exists own, identity s = Some (mk_identity (me_device me) own) /\ own_signed_key_ (r_cache (seen 1%nat)) = Some own) /\
  usable_state (now 2%nat) (seen 2%nat) id (active_peers a) /\ Forall verified_peer (peers (active_peers a)) /\
  exists j st, (2 < j)%nat /\ usable_state (now j) (seen j) id st /\ network_keys_ (r_cache (seen j)) !! id = Some (active_key a) /\
    ks_epoch (active_key a) = state_key_epoch (active_peers a) /\ state_key_epoch st = state_key_epoch (active_peers a).

Context {LL : LayoutLaws L}.
Lemma snapshot_sound me now seen : (forall i, client_reachable me (seen i)) ->
  NoDup (map (fun a => state_network_id (active_peers a)) (active_networks (snapshot now seen))) /\
  forall a, In a (active_networks (snapshot now seen)) -> snapshot_entry me now seen (snapshot now seen) a.
Proof.
  intros R. assert (O : forall i, client_ok (seen i)) by (intros i; exact (proj1 (client_reachable_ok me _ (R i)))). unfold snapshot.
  destruct (r_authenticated (seen 0%nat)); cbn [negb]; [|by split; [apply NoDup_nil_2|intros a []]].
  destruct (cached_packet_identity (seen 1%nat)) as [own|] eqn:I; cbn zeta; destruct (r_authenticated (seen _)); cbn [negb]; try by split; [constructor|intros a []].
  cbn [active_networks]. split.
  { apply (sublist_NoDup _ _ (cached_states_ids (now 2%nat) _ (po_cache _ _ _ _ _ _ (O 2%nat)))).
    rewrite <- (List.map_map active_peers state_network_id). apply fmap_sublist, keyed_sublist. }
  intros a (j & J & St & K & E)%keyed_elem. destruct (cached_states_elem _ _ _ St) as (id & Es & P).
  destruct (cached_key_elem _ _ _ _ (po_cache _ _ _ _ _ _ (O j)) K) as (Ek & st & Es' & P').
  destruct (ck_states _ (po_cache _ _ _ _ _ _ (O 2%nat)) id _ Es) as (<- & _ & [_ _ V]). split_and!.
  - unfold cached_packet_identity in I. destruct (own_signed_key_ _) as [k|]; [|done]. destruct (r_authenticated _); [|done]. injection I as <-.
    exists k. cbn. by destruct (client_reachable_ok me _ (R 1%nat)) as [_ ->].
  - by apply current_usable.
  - done.
  - exists j, st. split; [lia|]. split; [by apply current_usable|]. split_and!; try done.
    destruct (ck_keys _ (po_cache _ _ _ _ _ _ (O j)) _ _ Ek) as (st' & Es'' & E'). congruence.
Qed.

Lemma snapshot_complete me t c own : client_reachable me c -> r_authenticated c = true -> own_signed_key_ (r_cache c) = Some own ->
  forall id st key, peer_states_ (r_cache c) !! id = Some st -> policy_current t (r_cache c) st = true -> network_keys_ (r_cache c) !! id = Some key ->
  In (mk_active st key) (active_networks (snapshot (fun _ => t) (fun _ => c))).
Proof.
  intros R A Ow id st key Es P Ek. destruct (client_reachable_ok me c R) as [O _].
  destruct (ck_states _ (po_cache _ _ _ _ _ _ O) id st Es) as (<- & _). destruct (ck_keys _ (po_cache _ _ _ _ _ _ O) _ key Ek) as (st' & Es' & E).
  unfold snapshot, cached_packet_identity. rewrite A, Ow. cbn [negb active_networks]. apply keyed_complete.
  - unfold cached_peer_states. apply filter_In. split; [|done]. apply list_elem_of_In, list_elem_of_fmap. exists (state_network_id st, st). split; [done|].
    rewrite order_by_perm. by apply elem_of_map_to_list.
  - unfold cached_network_key. by rewrite Es, P.
  - congruence.
Qed.

(** ** Sending *)

Lemma send_refused w p c e c' o : send_encrypted_packet w p c = (Throw e, c', o) ->
  o = [] /\ (e = invalid_argument <-> encode_encrypted_network_packet p = Throw invalid_argument).
Proof.
  unfold send_encrypted_packet, mbind at 1, mpure. destruct (encode_encrypted_network_packet p) as [payload|e'] eqn:E; cycle 1.
  { intros [= <- <- <-]. split; [done|]. split; congruence. }
  assert (N : e <> invalid_argument -> e = invalid_argument <-> Ok payload = Throw invalid_argument) by done.
  unfold mbind at 1, mget. unfold mbind at 1, mcheck. destruct (sendable _ _ _); [|intros [= <- <- <-]; split; [done|by apply N]]. cbn [mret].
  unfold mbind at 1. destruct (usable c); [|intros [= <- <- <-]; split; [done|by apply N]]. cbn [mret]. unfold mbind at 1. destruct (_ && _ && _).
  - unfold transmit_datagram. destruct (send_datagram _ _ _) as [status s]. destruct (quic_succeeded status); cbn; [done|]. intros [= <- <- <-]. split; [done|by apply N].
  - destruct (transmit _ _ _) as [[[ok|] c1] l1] eqn:Et; [|unfold transmit in Et; by repeat case_match]. apply transmit_output in Et as ->.
    destruct ok; cbn; [done|]. intros [= <- <- <-]. split; [done|by apply N].
Qed.

Lemma send_outcomes source w between after p c r c' o : client_ok c -> lawful source between -> send w between after p c = (r, c', o) ->
  (r <> accepted -> o = []) /\
  (r = invalid_packet <-> r_authenticated c = true /\ encode_encrypted_network_packet p = Throw invalid_argument) /\
  (r = accepted -> exists st key payload, r_authenticated c = true /\ usable_state (w_now w) (between c) (network_id p) st /\
     network_keys_ (r_cache (between c)) !! network_id p = Some key /\ state_key_epoch st = key_epoch p /\ ks_epoch key = key_epoch p /\
     own_address st <> destination_ipv4 p /\ encode_encrypted_network_packet p = Ok payload /\
     (o = [out_datagram payload] \/ o = [out_frame (mk_frame network_packet_send 0 payload)])).
Proof.
  intros O Lw. unfold send. destruct (r_authenticated c); cbn [negb]; [|by intros [= <- <- <-]; split_and!; [done|split; [done|by intros [? _]]|done]].
  destruct (send_encrypted_packet w p (between c)) as [[[[]|e] c1] l] eqn:E.
  - intros [= <- <- <-]. destruct (send_output _ _ _ _ _ (proj1 (Lw c O)) E) as (st & key & payload & Us & K & E1 & E2 & E3 & _ & En & Out).
    split_and!; [done|split; [done|intros [_ ?]; congruence]|]. intros _. by exists st, key, payload.
  - destruct (send_refused _ _ _ _ _ _ E) as [-> I]. destruct e; try destruct (r_authenticated (after c1)); intros [= <- <- <-]; split_and!; try done; by intuition.
Qed.

End Session.

#[local] Existing Instance toy_crypto.
#[local] Existing Instance toy_mac.

(** Alice's snapshot has the network she owns, and the relay path takes her packet for it. *)
Definition alice_seen : NetworkSnapshot := snapshot (fun _ => 30) (fun _ => client_ready).

