(* ===== verification/Logger.v ===== *)
(** * Log files

    core/logger.hpp and .cpp: the queue of records, the thread that writes them as lines of JSON and the rotation of the
    files.  Every use of the queue is one critical section.  The disk is a map from paths to contents; [fails] says which calls
    of the file system fail, and a write that fails leaves a part of the line.  Time points are milliseconds since the epoch
    of the system clock; the stream's own buffer is left out. *)
From S2P Require Import Prelude PathDiagnostics Config.

Definition queue_capacity : Z := 8192.

(** ** Lines *)

Record Entry := mk_entry { e_time : Z; e_level : LogLevel; e_message : bytes }.

Definition log_level_name (l : LogLevel) : bytes :=
  match l with
  | lvl_trace => str "trace" | lvl_debug => str "debug" | lvl_info => str "info" | lvl_warning => str "warn" | lvl_error => str "error" | lvl_off => str "off"
  end.
Definition level_value (l : LogLevel) : Z :=
  match l with lvl_trace => 0 | lvl_debug => 1 | lvl_info => 2 | lvl_warning => 3 | lvl_error => 4 | lvl_off => 5 end.

Definition hex_char (v : Z) : byte := z2b (if v <? 10 then 48 + v else 87 + v).
Definition escape_byte (b : byte) : bytes :=
  match b with
  | x22 => [x5c; x22] | x5c => [x5c; x5c] | x08 => [x5c; x62] | x0c => [x5c; x66] | x0a => [x5c; x6e] | x0d => [x5c; x72] | x09 => [x5c; x74]
  | _ => if b2z b <? 0x20 then [x5c; x75; x30; x30; hex_char (Z.land (Z.shiftr (b2z b) 4) 15); hex_char (Z.land (b2z b) 15)] else [b]
  end.
Definition escape_json (s : bytes) : bytes := flat_map escape_byte s.

(** The last [k] decimal digits, and [std::to_string] of a 64-bit number. *)
Fixpoint padded (k : nat) (n : Z) : bytes := match k with O => [] | S k => padded k (n / 10) ++ [z2b (48 + n mod 10)] end.
Fixpoint trim_zeros (s : bytes) : bytes := match s with x30 :: s => trim_zeros s | _ => s end.
Definition to_string (n : Z) : bytes := if n =? 0 then str "0" else trim_zeros (padded 20 n).

(** [gmtime_r]: year, month and day of a day counted from 1970-01-01. *)
Definition civil (days : Z) : Z * Z * Z :=
  let z := days + 719468 in
  let doe := z mod 146097 in
  let yoe := (doe - doe / 1460 + doe / 36524 - doe / 146096) / 365 in
  let doy := doe - (365 * yoe + yoe / 4 - yoe / 100) in
  let mp := (5 * doy + 2) / 153 in
  let month := if mp <? 10 then mp + 3 else mp - 9 in
  (yoe + z / 146097 * 400 + (if month <=? 2 then 1 else 0), month, doy - (153 * mp + 2) / 5 + 1).
Definition format_timestamp (t : Z) : bytes :=
  let seconds := t / 1000 in
  let '(year, month, day) := civil (seconds / 86400) in
  let clock := seconds mod 86400 in
  to_string year ++ str "-" ++ padded 2 month ++ str "-" ++ padded 2 day ++ str "T" ++
  padded 2 (clock / 3600) ++ str ":" ++ padded 2 (clock / 60 mod 60) ++ str ":" ++ padded 2 (clock mod 60) ++
  str "." ++ padded 3 (t mod 1000) ++ str "Z".

Definition quoted (s : bytes) : bytes := x22 :: s ++ [x22].
Definition line_of (component : bytes) (e : Entry) : bytes :=
  str "{" ++ quoted (str "timestamp") ++ str ":" ++ quoted (format_timestamp (e_time e)) ++
  str "," ++ quoted (str "level") ++ str ":" ++ quoted (log_level_name (e_level e)) ++
  str "," ++ quoted (str "component") ++ str ":" ++ quoted (escape_json component) ++
  str "," ++ quoted (str "message") ++ str ":" ++ quoted (escape_json (e_message e)) ++ str "}" ++ [x0a].

(** ** State *)

Record Logger := mk_logger {
  l_path : bytes; l_component : bytes; l_minimum : LogLevel; l_max_size : Z; l_max_files : Z; l_size : Z; l_queue : list Entry;
  l_writing : option Entry; l_failure : option exn; l_dropped : Z; l_stopping : bool; l_disk : gmap bytes bytes }.
Definition set_l_size v l := mk_logger (l_path l) (l_component l) (l_minimum l) (l_max_size l) (l_max_files l) v (l_queue l) (l_writing l) (l_failure l) (l_dropped l) (l_stopping l) (l_disk l).
Definition set_l_queue v l := mk_logger (l_path l) (l_component l) (l_minimum l) (l_max_size l) (l_max_files l) (l_size l) v (l_writing l) (l_failure l) (l_dropped l) (l_stopping l) (l_disk l).
Definition set_l_writing v l := mk_logger (l_path l) (l_component l) (l_minimum l) (l_max_size l) (l_max_files l) (l_size l) (l_queue l) v (l_failure l) (l_dropped l) (l_stopping l) (l_disk l).
Definition set_l_failure v l := mk_logger (l_path l) (l_component l) (l_minimum l) (l_max_size l) (l_max_files l) (l_size l) (l_queue l) (l_writing l) v (l_dropped l) (l_stopping l) (l_disk l).
Definition set_l_dropped v l := mk_logger (l_path l) (l_component l) (l_minimum l) (l_max_size l) (l_max_files l) (l_size l) (l_queue l) (l_writing l) (l_failure l) v (l_stopping l) (l_disk l).
Definition set_l_stopping v l := mk_logger (l_path l) (l_component l) (l_minimum l) (l_max_size l) (l_max_files l) (l_size l) (l_queue l) (l_writing l) (l_failure l) (l_dropped l) v (l_disk l).
Definition set_l_disk v l := mk_logger (l_path l) (l_component l) (l_minimum l) (l_max_size l) (l_max_files l) (l_size l) (l_queue l) (l_writing l) (l_failure l) (l_dropped l) (l_stopping l) v.

(** ** The file system *)

Definition rotated_path (path : bytes) (index : Z) : bytes := path ++ str "." ++ to_string index.

Inductive fs_call :=
| fs_remove (p : bytes) | fs_exists (p : bytes) | fs_rename (source destination : bytes) | fs_directories | fs_inspect | fs_size | fs_open | fs_write.
Definition W (A : Type) : Type := Logger -> result A * Logger.
Definition wret {A} (a : A) : W A := fun l => (Ok a, l).
Definition wbind {A B} (m : W A) (k : A -> W B) : W B := fun l => match m l with (Ok a, l) => k a l | (Throw e, l) => (Throw e, l) end.
Definition wput (f : Logger -> Logger) : W unit := fun l => (Ok tt, f l).
Definition wget : W Logger := fun l => (Ok l, l).
Local Notation "'let!' x := m 'in' k" := (wbind m (fun x => k))
  (at level 10, x name, m at level 100, k at level 200, format "'[v' 'let!'  x  :=  m  'in' '/' k ']'").
Local Notation "m ;; k" := (wbind m (fun _ => k)) (at level 100, right associativity).
Definition change_disk (f : gmap bytes bytes -> gmap bytes bytes) : W unit := wput (fun l => set_l_disk (f (l_disk l)) l).

Section Disk.
Variable fails : fs_call -> bool.
(** How much of a line a failing write leaves. *)
Variable part : nat.

Definition may (c : fs_call) : W unit := fun l => (if fails c then Throw runtime_error else Ok tt, l).

Definition remove_file (p : bytes) : W unit := may (fs_remove p) ;; change_disk (delete p).
Definition move_file (source destination : bytes) : W unit :=
  may (fs_exists source) ;;
  let! l := wget in
  match l_disk l !! source with
  | None => wret tt
  | Some content =>
      remove_file destination ;;
      may (fs_rename source destination) ;;
      change_disk (fun d => <[destination := content]> (delete source d))
  end.

Definition open_file : W unit :=
  may fs_directories ;; may fs_inspect ;;
  let! l := wget in
  (match l_disk l !! l_path l with Some content => may fs_size ;; wput (set_l_size (len content)) | None => wput (set_l_size 0) end) ;;
  may fs_open ;;
  wput (fun l => set_l_disk (<[l_path l := default [] (l_disk l !! l_path l)]> (l_disk l)) l).

(** [for (index = max_files_ - 1; index > 1; --index)]: [n] turns from [index] down. *)
Fixpoint move_older (path : bytes) (n : nat) (index : Z) : W unit :=
  match n with
  | O => wret tt
  | S n => move_file (rotated_path path (index - 1)) (rotated_path path index) ;; move_older path n (index - 1)
  end.
Definition rotate : W unit :=
  let! l := wget in
  (if l_max_files l =? 1 then remove_file (l_path l)
   else
     remove_file (rotated_path (l_path l) (l_max_files l - 1)) ;;
     move_older (l_path l) (Z.to_nat (l_max_files l - 2)) (l_max_files l - 1) ;;
     move_file (l_path l) (rotated_path (l_path l) 1)) ;;
  open_file.

Definition append (bs : bytes) : W unit :=
  wput (fun l => set_l_disk (<[l_path l := default [] (l_disk l !! l_path l) ++ bs]> (l_disk l)) l).
Definition write_record (e : Entry) : W unit :=
  let! l := wget in
  let line := line_of (l_component l) e in
  (if negb (l_size l =? 0) && ((l_size l + len line) mod 2 ^ 64 >? l_max_size l) then rotate else wret tt) ;;
  (fun l => if fails fs_write then (append (take part line) ;; (fun l => (Throw runtime_error, l))) l else append line l) ;;
  wput (fun l => set_l_size ((l_size l + len line) mod 2 ^ 64) l).

(** ** Operations *)

Definition new_logger (path component : bytes) (minimum : LogLevel) (max_size max_files : Z) (disk : gmap bytes bytes) : result Logger :=
  check! negb (bool_decide (path = [])) else invalid_argument in
  check! negb (bool_decide (component = [])) else invalid_argument in
  check! negb (max_size =? 0) else invalid_argument in
  check! negb (max_files =? 0) else invalid_argument in
  match open_file (mk_logger path component minimum max_size max_files 0 [] None None 0 false disk) with
  | (Ok _, l) => Ok l
  | (Throw e, _) => Throw e
  end.

(** The worker: it takes a record, writes it, and ends at the first failure. *)
Definition worker_takes (l : Logger) : Logger :=
  match l_failure l, l_writing l, l_queue l with
  | None, None, e :: q => set_l_writing (Some e) (set_l_queue q l)
  | _, _, _ => l
  end.
Definition worker_writes (l : Logger) : Logger :=
  match l_writing l with
  | None => l
  | Some e =>
      match write_record e l with
      | (Ok _, l) => set_l_writing None l
      | (Throw x, l) => set_l_writing None (set_l_queue [] (set_l_failure (Some x) l))
      end
  end.
End Disk.

Definition notice (now n : Z) : Entry := mk_entry now lvl_warning (str "dropped " ++ to_string n ++ str " log records").

(** Whether [log] considers the record at all. *)
Definition enabled (l : Logger) (level : LogLevel) : bool :=
  negb (bool_decide (l_minimum l = lvl_off) || bool_decide (level = lvl_off) || (level_value level <? level_value (l_minimum l))).
(** [noticed] and [now]: the clock when the notice and when the record is made. *)
Definition log (noticed now : Z) (level : LogLevel) (message : bytes) (l : Logger) : Logger :=
  if negb (enabled l level) then l
  else if l_stopping l || bool_decide (is_Some (l_failure l)) then l
  else if len (l_queue l) >=? queue_capacity then set_l_dropped ((l_dropped l + 1) mod 2 ^ 64) l
  else
    let l := if negb (l_dropped l =? 0) && (len (l_queue l) + 1 <? queue_capacity)
             then set_l_dropped 0 (set_l_queue (l_queue l ++ [notice noticed (l_dropped l)]) l) else l in
    set_l_queue (l_queue l ++ [mk_entry now level message]) l.

(** [flush] before it waits, what it waits for, and what it returns then; [flushed] is whether the stream could be flushed. *)
Definition flush_begins (now : Z) (l : Logger) : Logger :=
  if negb (l_dropped l =? 0) && (len (l_queue l) <? queue_capacity)
  then set_l_dropped 0 (set_l_queue (l_queue l ++ [notice now (l_dropped l)]) l) else l.
Definition drained (l : Logger) : bool :=
  bool_decide (is_Some (l_failure l)) || (bool_decide (l_queue l = []) && bool_decide (l_writing l = None)).
Definition flush_ends (flushed : bool) (l : Logger) : result unit :=
  match l_failure l with Some e => Throw e | None => if flushed then Ok tt else Throw runtime_error end.
Definition close (l : Logger) : Logger := set_l_stopping true l.

(** ** Text *)

Lemma decimal_app s t : decimal (s ++ t) = decimal s * 10 ^ len t + decimal t.
Proof.
  unfold decimal. rewrite foldl_app. generalize (foldl (fun n d => n * 10 + (b2z d - 48)) 0 s). induction t as [|d t IH] using rev_ind; intros a; [change (a = a * 1 + 0); lia|].
  rewrite !foldl_app, IH. cbn [foldl]. rewrite len_app, Z.pow_add_r by (apply len_nonneg || done). change (10 ^ len [d]) with 10. lia.
Qed.
Lemma decimal_padded k n : 0 <= n -> decimal (padded k n) = n mod 10 ^ Z.of_nat k.
Proof.
  revert n. induction k as [|k IH]; intros n N; [cbn; by rewrite Z.mod_1_r|]. cbn [padded]. rewrite decimal_app, IH by (apply Z.div_pos; lia).
  change (10 ^ len _) with 10. unfold decimal. cbn [foldl]. rewrite b2z_z2b, (Z.mod_small (48 + _)) by (pose proof (Z.mod_pos_bound n 10); lia).
  rewrite Nat2Z.inj_succ, Z.pow_succ_r by lia. rewrite Z.rem_mul_r by lia. lia.
Qed.
Lemma decimal_trim s : decimal (trim_zeros s) = decimal s.
Proof. induction s as [|d s IH]; [done|]. destruct d; try reflexivity. exact IH. Qed.
Lemma decimal_to_string n : 0 <= n < 2 ^ 64 -> decimal (to_string n) = n.
Proof.
  intros N. unfold to_string. destruct (n =? 0) eqn:E; [apply Z.eqb_eq in E; by subst|]. rewrite decimal_trim, decimal_padded by lia.
  apply Z.mod_small. cbn. lia.
Qed.

Fixpoint unescape (s : bytes) : bytes :=
  match s with
  | x5c :: x75 :: _ :: _ :: h :: l :: s => z2b ((b2z h - 48) * 16 + (if b2z l <? 97 then b2z l - 48 else b2z l - 87)) :: unescape s
  | x5c :: c :: s => (match c with x62 => x08 | x66 => x0c | x6e => x0a | x72 => x0d | x74 => x09 | c => c end) :: unescape s
  | c :: s => c :: unescape s
  | [] => []
  end.
Lemma unescape_escape s : unescape (escape_json s) = s.
Proof. induction s as [|b s IH]; [done|]. unfold escape_json in *. cbn [flat_map]. destruct b; cbn; by rewrite IH. Qed.

(** A byte string without control characters. *)
Definition printable (s : bytes) : Prop := Forall (fun b => 0x20 <= b2z b) s.
Lemma escape_printable s : printable (escape_json s).
Proof. unfold printable, escape_json. induction s as [|b s IH]; [constructor|]. cbn [flat_map]. apply Forall_app. split; [|done]. destruct b; vm_compute; repeat constructor; discriminate. Qed.
Lemma padded_printable k n : printable (padded k n).
Proof.
  revert n. induction k as [|k IH]; intros n; [constructor|]. cbn. apply Forall_app. split; [apply IH|]. constructor; [|constructor].
  pose proof (Z.mod_pos_bound n 10). rewrite b2z_z2b, Z.mod_small; lia.
Qed.
Lemma to_string_printable n : printable (to_string n).
Proof.
  unfold to_string. destruct (n =? 0); [repeat constructor; vm_compute; discriminate|]. pose proof (padded_printable 20 n) as P. revert P. generalize (padded 20 n).
  intros s P. induction P as [|b s H P IH]; [constructor|]. destruct b; try done; by constructor.
Qed.
Lemma str_printable s : forallb (fun b => 0x20 <=? b2z b) (str s) = true -> printable (str s).
Proof. intros H. unfold printable. apply Forall_forall. intros b Hb. rewrite forallb_forall in H. apply list_elem_of_In, H in Hb. lia. Qed.
Lemma quoted_printable s : printable s -> printable (quoted s).
Proof. intros P. constructor; [done|]. apply Forall_app. split; [done|by repeat constructor]. Qed.
Ltac print :=
  unfold printable in *;
  repeat first [done | apply escape_printable | apply padded_printable | apply to_string_printable | by apply str_printable | apply quoted_printable | apply Forall_app; split].

(** A record is one line, whatever the message holds. *)
Lemma line_ends component e : exists text, line_of component e = text ++ [x0a] /\ x0a ∉ text.
Proof.
  unfold line_of. set (name := log_level_name (e_level e)).
  assert (N : printable name) by (unfold name; destruct (e_level e); by apply str_printable).
  assert (F : printable (format_timestamp (e_time e))) by (unfold format_timestamp; destruct (civil _) as [[y m] d]; print).
  eexists. rewrite !app_assoc. split; [reflexivity|]. match goal with |- x0a ∉ ?t => assert (P : printable t) end.
  { print. }
  intros H. unfold printable in P. rewrite Forall_forall in P. specialize (P _ H). vm_compute in P. congruence.
Qed.
Lemma len_line component e : 0 < len (line_of component e).
Proof. destruct (line_ends component e) as (t & -> & _). rewrite len_app. change (len [x0a]) with 1. pose proof (len_nonneg t). lia. Qed.

(** ** Files *)

(** The current file is number 0. *)
Definition name (path : bytes) (i : nat) : bytes := if decide (i = 0%nat) then path else rotated_path path (Z.of_nat i).
Lemma name_inj path i j : Z.of_nat i < 2 ^ 64 -> Z.of_nat j < 2 ^ 64 -> name path i = name path j -> i = j.
Proof.
  intros I J. unfold name, rotated_path. destruct (decide (i = 0%nat)) as [->|], (decide (j = 0%nat)) as [->|]; [done|..].
  - intros H. apply (f_equal length) in H. rewrite !length_app in H. cbn in H. lia.
  - intros H. apply (f_equal length) in H. rewrite !length_app in H. cbn in H. lia.
  - intros H%app_inv_head%app_inv_head. apply (f_equal decimal) in H. rewrite !decimal_to_string in H; lia.
Qed.
Definition content (path : bytes) (d : gmap bytes bytes) (i : nat) : bytes := default [] (d !! name path i).
(** All files of the log, oldest first. *)
Definition whole (path : bytes) (n : nat) (d : gmap bytes bytes) : bytes := concat (map (content path d) (rev (seq 0 n))).
Lemma whole_succ path n d : whole path (S n) d = content path d n ++ whole path n d.
Proof. unfold whole. by rewrite seq_S, rev_unit. Qed.
Lemma whole_zero path n d : whole path (S n) d = concat (map (fun i => content path d (S i)) (rev (seq 0 n))) ++ content path d 0.
Proof. unfold whole. cbn [seq rev]. rewrite map_app, concat_app. cbn. rewrite app_nil_r, <- seq_shift, <- map_rev, map_map. done. Qed.

(** What a step of the file system may change: the log's own files. *)
Definition ours (path : bytes) (n : nat) (p : bytes) : Prop := exists i, (i < n)%nat /\ p = name path i.
Record framed (n : nat) (l l' : Logger) : Prop := mk_framed {
  fr_path : l_path l' = l_path l; fr_component : l_component l' = l_component l; fr_minimum : l_minimum l' = l_minimum l;
  fr_max_size : l_max_size l' = l_max_size l; fr_max_files : l_max_files l' = l_max_files l; fr_queue : l_queue l' = l_queue l;
  fr_failure : l_failure l' = l_failure l; fr_dropped : l_dropped l' = l_dropped l;
  fr_others : forall p, ~ ours (l_path l) n p -> l_disk l' !! p = l_disk l !! p }.
Lemma framed_refl n l : framed n l l.
Proof. by split. Qed.
Lemma framed_trans n a b c : framed n a b -> framed n b c -> framed n a c.
Proof.
  intros [? ? ? ? ? ? ? ? O1] [? ? ? ? ? ? ? ? O2]. split; try congruence. intros p H. rewrite O2, O1; [done|done|congruence].
Qed.
Definition within {A} (n : nat) (path : bytes) (m : W A) : Prop := forall l, l_path l = path -> framed n l (snd (m l)).
Lemma within_ret {A} n path (a : A) : within n path (wret a).
Proof. intros l _. apply framed_refl. Qed.
Lemma within_get n path : within n path wget.
Proof. intros l _. apply framed_refl. Qed.
Lemma within_bind {A B} n path (m : W A) (k : A -> W B) : within n path m -> (forall a, within n path (k a)) -> within n path (wbind m k).
Proof.
  intros M K l P. unfold wbind. specialize (M l P). destruct (m l) as [[a|e] l1]; cbn in *; [|done].
  apply (framed_trans _ _ l1); [done|]. apply K. by rewrite (fr_path _ _ _ M).
Qed.
Lemma within_may n path fails c : within n path (may fails c).
Proof. intros l _. apply framed_refl. Qed.
Lemma within_disk n path p f : ours path n p -> (forall d q, q <> p -> f d !! q = d !! q) -> within n path (change_disk f).
Proof. intros O H l P. split; try done. intros q Q. cbn. apply H. intros ->. apply Q. by rewrite P. Qed.
Lemma within_size n path v : within n path (wput (set_l_size v)).
Proof. intros l _. by split. Qed.
Create HintDb logdb.
#[local] Hint Resolve within_ret within_get within_may within_size : logdb.

Section Within.
Context (fails : fs_call -> bool) (part : nat).
Lemma within_remove n path p : ours path n p -> within n path (remove_file fails p).
Proof. intros O. apply within_bind; [apply within_may|intros _]. apply (within_disk n path p); [done|]. intros d q Q. by apply lookup_delete_ne. Qed.
Lemma within_move n path p q : ours path n p -> ours path n q -> within n path (move_file fails p q).
Proof.
  intros P Q. apply within_bind; [apply within_may|intros _]. apply within_bind; [apply within_get|intros l]. destruct (_ !! p) as [c|]; [|apply within_ret].
  apply within_bind; [by apply within_remove|intros _]. apply within_bind; [apply within_may|intros _]. intros l1 Hp. split; try done.
  intros x X. cbn. rewrite lookup_insert_ne, lookup_delete_ne; [done|intros ->; apply X; by rewrite Hp..].
Qed.
Lemma within_own n path (g : option bytes -> bytes) : (0 < n)%nat -> within n path (wput (fun l => set_l_disk (<[l_path l := g (l_disk l !! l_path l)]> (l_disk l)) l)).
Proof. intros N l _. split; try done. intros p P. cbn. apply lookup_insert_ne. intros <-. apply P. exists 0%nat. by split. Qed.
Lemma within_open n path : (0 < n)%nat -> within n path (open_file fails).
Proof.
  intros N. unfold open_file. do 3 (apply within_bind; [auto with logdb|intros ?]). apply within_bind.
  { destruct (_ !! _); [apply within_bind; intros|]; auto with logdb. }
  intros _. apply within_bind; [apply within_may|intros _]. by apply (within_own n path (default [])).
Qed.
Lemma ours_name n path i : (i < n)%nat -> ours path n (name path i).
Proof. by exists i. Qed.
Lemma rotated_name path i : (0 < i)%nat -> rotated_path path (Z.of_nat i) = name path i.
Proof. intros I. unfold name. by rewrite decide_False by lia. Qed.
Lemma within_older n path k i : (k < i < n)%nat -> within n path (move_older fails path k (Z.of_nat i)).
Proof.
  revert i. induction k as [|k IH]; intros i I; cbn [move_older]; [apply within_ret|]. destruct i as [|i]; [lia|].
  replace (Z.of_nat (S i) - 1) with (Z.of_nat i) by lia. rewrite !rotated_name by lia.
  apply within_bind; [apply within_move; apply ours_name; lia|intros _]. apply IH. lia.
Qed.
Lemma within_rotate n path : (0 < n)%nat -> forall l, l_path l = path -> l_max_files l = Z.of_nat n -> framed n l (snd (rotate fails l)).
Proof.
  intros N l P M. unfold rotate, wbind at 1, wget. rewrite P, M.
  change (framed n l (snd (((if Z.of_nat n =? 1 then remove_file fails path
    else remove_file fails (rotated_path path (Z.of_nat n - 1));; move_older fails path (Z.to_nat (Z.of_nat n - 2)) (Z.of_nat n - 1);;
         move_file fails path (rotated_path path 1)) ;; open_file fails) l))).
  apply (within_bind n path); [|intros _; by apply within_open|done]. destruct (Z.of_nat n =? 1) eqn:E.
  - apply within_remove. by exists 0%nat.
  - apply Z.eqb_neq in E. replace (Z.of_nat n - 1) with (Z.of_nat (n - 1)) by lia. change 1 with (Z.of_nat 1). rewrite !rotated_name by lia.
    apply within_bind; [apply within_remove, ours_name; lia|intros _]. apply within_bind; [apply within_older; lia|intros _].
    apply within_move; [by exists 0%nat|apply ours_name; lia].
Qed.
Lemma write_framed n e l : (0 < n)%nat -> l_max_files l = Z.of_nat n -> framed n l (snd (write_record fails part e l)).
Proof.
  intros N M. unfold write_record, wbind at 1, wget. set (line := line_of _ _).
  set (tail := fun _ : unit => _ ;; wput _). assert (T : forall a, within n (l_path l) (tail a)).
  { intros a. apply within_bind; [|intros _ l1 _; by split]. intros l1 P. destruct (fails fs_write).
    - apply (within_bind n (l_path l)); [|intros _ l2 _; apply framed_refl|done]. by apply (within_own n _ (fun o => default [] o ++ take part line)).
    - by apply (within_own n (l_path l) (fun o => default [] o ++ line)). }
  unfold wbind at 1. destruct (_ && _).
  - pose proof (within_rotate n (l_path l) N l eq_refl M) as R. destruct (rotate fails l) as [[[]|x] l1]; cbn in *; [|done].
    apply (framed_trans _ _ l1); [done|]. apply T. apply R.
  - apply T. done.
Qed.
End Within.

(** ** Rotation shifts the files by one *)

Section Rotation.
Context (fails : fs_call -> bool) (part : nat).
Lemma may_ok c l r l' : may fails c l = (Ok r, l') -> l' = l.
Proof. unfold may. destruct (fails c); by intros [= _ <-]. Qed.
Lemma wbind_ok {A B} (m : W A) (k : A -> W B) l b l' : wbind m k l = (Ok b, l') -> exists a l1, m l = (Ok a, l1) /\ k a l1 = (Ok b, l').
Proof. unfold wbind. destruct (m l) as [[a|e] l1]; [|done]. by exists a, l1. Qed.
Lemma remove_ok p l r l' : remove_file fails p l = (Ok r, l') -> l' = set_l_disk (delete p (l_disk l)) l.
Proof. intros ([] & l1 & ->%may_ok & H)%wbind_ok. by injection H as _ <-. Qed.
Lemma move_ok source destination l r l' : source <> destination -> move_file fails source destination l = (Ok r, l') ->
  exists d, l' = set_l_disk d l /\ d !! source = None /\
    d !! destination = (match l_disk l !! source with Some c => Some c | None => l_disk l !! destination end) /\
    forall p, p <> source -> p <> destination -> d !! p = l_disk l !! p.
Proof.
  intros N ([] & l1 & ->%may_ok & H)%wbind_ok. unfold wbind at 1, wget in H. destruct (l_disk l !! source) as [c|] eqn:E.
  - apply wbind_ok in H as ([] & l1 & ->%remove_ok & H). apply wbind_ok in H as ([] & l2 & ->%may_ok & H). injection H as _ <-.
    eexists. split; [reflexivity|]. cbn. split_and!.
    + by rewrite lookup_insert_ne, lookup_delete_eq.
    + by rewrite lookup_insert_eq.
    + intros p P Q. by rewrite lookup_insert_ne, lookup_delete_ne, lookup_delete_ne.
  - injection H as _ <-. exists (l_disk l). by destruct l.
Qed.
Lemma older_ok path k i l r l' : (k < i)%nat -> Z.of_nat i < 2 ^ 64 -> l_disk l !! name path i = None ->
  move_older fails path k (Z.of_nat i) l = (Ok r, l') ->
  exists d, l' = set_l_disk d l /\ d !! name path (i - k) = None /\
    (forall j, (i - k < j <= i)%nat -> d !! name path j = l_disk l !! name path (j - 1)) /\
    forall p, (forall j, (i - k <= j <= i)%nat -> p <> name path j) -> d !! p = l_disk l !! p.
Proof.
  revert i l. induction k as [|k IH]; intros i l K I E; cbn [move_older].
  - intros [= _ <-]. exists (l_disk l). rewrite Nat.sub_0_r. split; [by destruct l|]. split; [done|]. split; [lia|done].
  - destruct i as [|i]; [lia|]. replace (Z.of_nat (S i) - 1) with (Z.of_nat i) by lia. rewrite !rotated_name by lia.
    assert (Inj : forall a b, (a <= S i)%nat -> (b <= S i)%nat -> a <> b -> name path a <> name path b) by (intros a b A B Ne H; apply name_inj in H; lia).
    intros ([] & l1 & (d1 & -> & S1 & D1 & F1)%move_ok & H)%wbind_ok; [|apply Inj; lia].
    apply IH in H as (d & -> & S2 & D2 & F2); [|lia|lia|done]. exists d. split; [done|]. cbn [l_disk set_l_disk] in *. replace (S i - S k)%nat with (i - k)%nat by lia.
    split; [done|]. split.
    + intros j J. destruct (decide (j = S i)) as [->|].
      * rewrite F2 by (intros j Hj; apply Inj; lia). rewrite D1, E. replace (S i - 1)%nat with i by lia. by destruct (l_disk l !! name path i).
      * rewrite D2 by lia. apply F1; apply Inj; lia.
    + intros p P. rewrite F2 by (intros j J; apply P; lia). apply F1; apply P; lia.
Qed.
Lemma open_ok l r l' : open_file fails l = (Ok r, l') ->
  l' = set_l_disk (<[l_path l := content (l_path l) (l_disk l) 0]> (l_disk l)) (set_l_size (len (content (l_path l) (l_disk l) 0)) l).
Proof.
  intros ([] & l1 & ->%may_ok & H)%wbind_ok. apply wbind_ok in H as ([] & l1 & ->%may_ok & H). unfold wbind at 1, wget in H.
  apply wbind_ok in H as ([] & l1 & E & H). apply wbind_ok in H as ([] & l2 & ->%may_ok & H). injection H as _ <-.
  unfold content. change (name (l_path l) 0) with (l_path l). destruct (l_disk l !! l_path l) as [c|] eqn:D.
  - apply wbind_ok in E as ([] & l2 & ->%may_ok & E). injection E as <-. cbn. by rewrite D.
  - injection E as <-. cbn. by rewrite D.
Qed.
Lemma rotate_ok n l r l' : (0 < n)%nat -> Z.of_nat n < 2 ^ 64 -> l_max_files l = Z.of_nat n -> rotate fails l = (Ok r, l') ->
  exists d, l' = set_l_disk d (set_l_size 0 l) /\ d !! name (l_path l) 0 = Some [] /\
    forall i, (S i < n)%nat -> d !! name (l_path l) (S i) = l_disk l !! name (l_path l) i.
Proof.
  intros N Nb M. unfold rotate, wbind at 1, wget. rewrite M.
  assert (Inj : forall a b, (a < n)%nat -> (b < n)%nat -> a <> b -> name (l_path l) a <> name (l_path l) b) by (intros a b A B Ne H; apply name_inj in H; lia).
  intros ([] & l1 & Mv & ->%open_ok)%wbind_ok.
  assert (exists d, l1 = set_l_disk d l /\ d !! name (l_path l) 0 = None /\ forall i, (S i < n)%nat -> d !! name (l_path l) (S i) = l_disk l !! name (l_path l) i) as (d & -> & E & Sh).
  { destruct (Z.of_nat n =? 1) eqn:E1.
    - apply remove_ok in Mv as ->. eexists. split; [reflexivity|]. cbn. split; [apply lookup_delete_eq|lia].
    - apply Z.eqb_neq in E1. replace (Z.of_nat n - 1) with (Z.of_nat (n - 1)) in Mv by lia. change 1 with (Z.of_nat 1) in Mv. rewrite !rotated_name in Mv by lia.
      apply wbind_ok in Mv as ([] & l2 & ->%remove_ok & Mv). apply wbind_ok in Mv as ([] & l2 & Ol & Mv).
      apply older_ok in Ol as (d1 & -> & S1 & D1 & F1); [|lia|lia|apply lookup_delete_eq]. cbn [l_disk set_l_disk] in *.
      replace (n - 1 - Z.to_nat (Z.of_nat n - 2))%nat with 1%nat in * by lia.
      apply (move_ok (name (l_path l) 0)) in Mv as (d & -> & S2 & D2 & F2); [|apply Inj; lia]. exists d. split; [done|]. split; [done|]. cbn [l_disk set_l_disk] in *.
      intros [|i] I.
      + rewrite D2, S1, F1, lookup_delete_ne by (intros; apply Inj; lia). by destruct (l_disk l !! name (l_path l) 0).
      + rewrite F2 by (apply Inj; lia). rewrite D1 by lia. replace (S (S i) - 1)%nat with (S i) by lia. apply lookup_delete_ne, Inj; lia. }
  eexists. unfold content. cbn [l_disk l_path set_l_disk]. rewrite E. split; [reflexivity|]. split; [apply lookup_insert_eq|].
  intros i I. rewrite lookup_insert_ne by exact (Inj 0%nat (S i) N I ltac:(done)). by apply Sh.
Qed.
End Rotation.

(** ** Runs of a logger *)

Definition considered (l : Logger) (level : LogLevel) : bool := enabled l level && negb (l_stopping l || bool_decide (is_Some (l_failure l))).

(** The states a logger passes through, with the records it was given to write and those it has written, in order.  A line fits
    into memory. *)
Inductive logger_run (l0 : Logger) : Logger -> list Entry -> list Entry -> Prop :=
| run_start : logger_run l0 l0 [] []
| run_log l given written noticed now level message : logger_run l0 l given written ->
    logger_run l0 (log noticed now level message l) (if considered l level then given ++ [mk_entry now level message] else given) written
| run_flush l given written now : logger_run l0 l given written -> logger_run l0 (flush_begins now l) given written
| run_take l given written : logger_run l0 l given written -> logger_run l0 (worker_takes l) given written
| run_write l given written fails part e : logger_run l0 l given written -> l_writing l = Some e -> len (line_of (l_component l) e) < 2 ^ 62 ->
    let l' := worker_writes fails part l in
    logger_run l0 l' given (if decide (l_failure l' = None) then written ++ [e] else written)
| run_close l given written : logger_run l0 l given written -> logger_run l0 (close l) given written.

(** A queue of records and notices, each notice with its time and count. *)
Definition rendered (x : Entry + Z * Z) : Entry := match x with inl e => e | inr (t, k) => notice t k end.
Definition record_of (x : Entry + Z * Z) : list Entry := match x with inl e => [e] | inr _ => [] end.
Definition count_of (x : Entry + Z * Z) : Z := match x with inl _ => 0 | inr (_, k) => k end.
Definition records (order : list (Entry + Z * Z)) : list Entry := flat_map record_of order.
Definition counted (order : list (Entry + Z * Z)) : Z := foldr (fun x n => count_of x + n) 0 order.
Definition in_flight (l : Logger) : list Entry := (match l_writing l with Some e => [e] | None => [] end) ++ l_queue l.

(** Every record that was given is, in order, written or on its way, or it is counted in a notice or still to be counted. *)
Definition accounted (l : Logger) (given written : list Entry) : Prop :=
  0 <= l_dropped l /\
  exists order, map rendered order = written ++ in_flight l /\ sublist (records order) given /\ 0 <= counted order /\
    len given = len (records order) + counted order + l_dropped l.
Definition file_ok (max_size : Z) (component path : bytes) (disk : gmap bytes bytes) (written : list Entry) (c : bytes) : Prop :=
  len c <= max_size \/ (exists e, e ∈ written /\ c = line_of component e) \/ (exists j, c = content path disk j).

Lemma records_app a b : records (a ++ b) = records a ++ records b.
Proof. apply flat_map_app. Qed.
Lemma counted_app a b : counted (a ++ b) = counted a + counted b.
Proof. induction a as [|x a IH]; [done|]. change (count_of x + counted (a ++ b) = count_of x + counted a + counted b). lia. Qed.
Lemma accounted_push l l' given written x given' :
  accounted l given written -> l_writing l' = l_writing l -> l_queue l' = l_queue l ++ [rendered x] -> given' = given ++ record_of x ->
  l_dropped l' + count_of x = l_dropped l -> 0 <= l_dropped l' -> 0 <= count_of x -> accounted l' given' written.
Proof.
  intros (D & order & O & S & Cn & Ln) Wr Q -> C P Cx. split; [done|]. exists (order ++ [x]). unfold in_flight in *. rewrite Wr, Q, map_app, O, records_app, counted_app.
  cbn [map]. rewrite <- !app_assoc. split; [done|]. change (records [x]) with (record_of x ++ []). rewrite app_nil_r. split; [by apply sublist_app|].
  change (counted [x]) with (count_of x + 0). rewrite !len_app. split; lia.
Qed.
Lemma accounted_same l l' given written : accounted l given written -> in_flight l' = in_flight l -> l_dropped l' = l_dropped l -> accounted l' given written.
Proof. unfold accounted. by intros H -> ->. Qed.

(** The notice that is due, where there is room for it. *)
Definition with_notice (now room : Z) (l : Logger) : Logger :=
  if negb (l_dropped l =? 0) && (len (l_queue l) + room <? queue_capacity)
  then set_l_dropped 0 (set_l_queue (l_queue l ++ [notice now (l_dropped l)]) l) else l.
Lemma notice_accounted now room l given written : accounted l given written -> accounted (with_notice now room l) given written.
Proof.
  intros A. unfold with_notice. destruct (_ && _); [|done].
  apply (accounted_push l _ given _ (inr (now, l_dropped l))); try done; cbn; [by rewrite app_nil_r|apply A].
Qed.
Lemma log_accounted noticed now level message l given written :
  let given' := if considered l level then given ++ [mk_entry now level message] else given in
  len given' < 2 ^ 64 -> accounted l given written -> accounted (log noticed now level message l) given' written.
Proof.
  intros given' B A. subst given'. unfold considered, log in *. destruct (enabled l level); cbn [negb andb] in *; [|done].
  destruct (l_stopping l || _); cbn [negb] in *; [done|]. destruct (_ >=? _).
  - destruct A as (D & order & O & S & Cn & Ln). rewrite len_app in B. change (len [_]) with 1 in B. pose proof (len_nonneg (records order)).
    unfold accounted. cbn. rewrite Z.mod_small by lia. split; [lia|]. exists order. split; [done|]. split; [by apply sublist_inserts_r|].
    rewrite len_app. change (len [_]) with 1. split; lia.
  - apply (accounted_push (with_notice noticed 1 l) _ given _ (inl (mk_entry now level message))); try done; [by apply notice_accounted|apply Z.add_0_r|].
    apply (notice_accounted noticed 1) in A. apply A.
Qed.

(** What writing a line makes of the files: it is appended while it fits, or the files move on by one. *)
Definition wrote (path : bytes) (n : nat) (max_size : Z) (old new : gmap bytes bytes) (line : bytes) : Prop :=
  (content path new 0 = content path old 0 ++ line /\ (content path old 0 = [] \/ len (content path new 0) <= max_size) /\
   forall i, (S i < n)%nat -> content path new (S i) = content path old (S i)) \/
  (content path new 0 = line /\ forall i, (S i < n)%nat -> content path new (S i) = content path old i).
Lemma append_content path n d bs : Z.of_nat n < 2 ^ 64 -> let d' := <[path := default [] (d !! path) ++ bs]> d in
  content path d' 0 = content path d 0 ++ bs /\ forall i, (S i < n)%nat -> content path d' (S i) = content path d (S i).
Proof.
  intros N d'. unfold content, d'. split; [change (name path 0) with path; by rewrite lookup_insert_eq|]. intros i I. rewrite lookup_insert_ne; [done|].
  intros H. change path with (name path 0) in H at 1. apply name_inj in H; lia.
Qed.
Lemma write_ok fails part n e l r l' : (0 < n)%nat -> Z.of_nat n < 2 ^ 64 -> l_max_files l = Z.of_nat n ->
  l_size l = len (content (l_path l) (l_disk l) 0) -> l_size l + len (line_of (l_component l) e) < 2 ^ 64 ->
  write_record fails part e l = (Ok r, l') ->
  exists d, l' = set_l_disk d (set_l_size (len (content (l_path l) d 0)) l) /\ wrote (l_path l) n (l_max_size l) (l_disk l) d (line_of (l_component l) e).
Proof.
  intros N Nb M Sz B. unfold write_record, wbind at 1, wget. generalize dependent (line_of (l_component l) e). intros line B. pose proof (len_nonneg line).
  pose proof (len_nonneg (content (l_path l) (l_disk l) 0)).
  intros ([] & l1 & Ro & H1)%wbind_ok. apply wbind_ok in H1 as ([] & l2 & Ap & H2). injection H2 as _ <-.
  destruct (fails fs_write); [by apply wbind_ok in Ap as ([] & l3 & _ & ?)|]. injection Ap as <-.
  destruct (_ && _) eqn:G in Ro.
  - apply (rotate_ok fails n) in Ro as (d & -> & E & Sh); try done. cbn. rewrite (Z.mod_small (len line)) by lia.
    destruct (append_content (l_path l) n d line Nb) as [A1 A2]. eexists. split; [|right; split].
    + rewrite A1. unfold content. rewrite E. reflexivity.
    + rewrite A1. unfold content. by rewrite E.
    + intros i I. rewrite A2 by done. unfold content. by rewrite Sh.
  - injection Ro as <-. cbn. rewrite (Z.mod_small (l_size l + _)) by lia. destruct (append_content (l_path l) n (l_disk l) line Nb) as [A1 A2]. eexists. split; [|left; split; [done|split; [|done]]].
    + by rewrite A1, len_app, Sz.
    + apply andb_false_iff in G as [G|G].
      * left. apply negb_false_iff, Z.eqb_eq in G. rewrite Sz in G. destruct (content _ _ _) as [|b bs]; [done|]. rewrite len_cons in G. pose proof (len_nonneg bs). lia.
      * right. rewrite Z.mod_small in G by lia. rewrite A1, len_app. lia.
Qed.
Lemma wrote_whole path n max_size old new line : (0 < n)%nat -> wrote path n max_size old new line ->
  whole path n new `suffix_of` whole path n old ++ line.
Proof.
  destruct n as [|n]; [lia|]. intros _ W. assert (Ext : forall f g : nat -> bytes, (forall i, (i < n)%nat -> f i = g i) -> map f (rev (seq 0 n)) = map g (rev (seq 0 n))).
  { intros f g H. apply map_ext_in. intros i I%in_rev%in_seq. apply H. lia. }
  destruct W as [(C0 & _ & Cs)|(C0 & Cs)]; rewrite whole_zero, C0.
  - rewrite (Ext _ (fun i => content path old (S i))) by (intros i I; apply Cs; lia). rewrite (app_assoc _ (content path old 0) line), <- whole_zero. reflexivity.
  - rewrite (Ext _ (content path old)) by (intros i I; apply Cs; lia). fold (whole path n old). rewrite whole_succ, <- app_assoc. by eexists.
Qed.

Section Runs.
Context (path component : bytes) (max_size : Z) (n : nat) (disk : gmap bytes bytes).
Context (Nn : (0 < n)%nat) (Nb : Z.of_nat n < 2 ^ 64) (Mb : max_size < 2 ^ 62) (Db : forall p c, disk !! p = Some c -> len c < 2 ^ 62).

Record log_inv (l : Logger) (given written : list Entry) : Prop := mk_log_inv {
  li_conf : l_path l = path /\ l_component l = component /\ l_max_size l = max_size /\ l_max_files l = Z.of_nat n;
  li_queue : len (l_queue l) <= queue_capacity;
  li_others : forall p, ~ ours path n p -> l_disk l !! p = disk !! p;
  li_lines : Forall (fun e => len (line_of component e) < 2 ^ 62) written;
  li_failed : l_failure l <> None -> l_writing l = None;
  li_size : l_failure l = None -> l_size l = len (content path (l_disk l) 0);
  li_whole : l_failure l = None -> whole path n (l_disk l) `suffix_of` whole path n disk ++ concat (map (line_of component) written);
  li_files : l_failure l = None -> forall i, (i < n)%nat -> file_ok max_size component path disk written (content path (l_disk l) i);
  li_accounted : l_failure l = None -> len given < 2 ^ 64 -> accounted l given written }.

(** Steps on the queue leave the rest alone. *)
Definition queue_step (l l' : Logger) : Prop :=
  l_path l' = l_path l /\ l_component l' = l_component l /\ l_max_size l' = l_max_size l /\ l_max_files l' = l_max_files l /\
  l_disk l' = l_disk l /\ l_failure l' = l_failure l /\ l_size l' = l_size l.
Lemma log_inv_queue l l' given given' written : log_inv l given written -> queue_step l l' -> len (l_queue l') <= queue_capacity ->
  (l_failure l <> None -> l_writing l' = l_writing l) ->
  (l_failure l = None -> len given' < 2 ^ 64 -> accounted l' given' written) -> log_inv l' given' written.
Proof.
  intros [Cf Q O Ln Fd Sz Wh Fi Ac] (E1 & E2 & E3 & E4 & E5 & E6 & E7) Q' Fd' Ac'. split; rewrite ?E1, ?E2, ?E3, ?E4, ?E5, ?E6, ?E7; try done.
  intros F. rewrite Fd' by done. by apply Fd.
Qed.
Lemma with_notice_step now room l : queue_step l (with_notice now room l) /\ l_writing (with_notice now room l) = l_writing l /\
  l_stopping (with_notice now room l) = l_stopping l /\
  len (l_queue (with_notice now room l)) <= Z.max (len (l_queue l)) (if len (l_queue l) + room <? queue_capacity then len (l_queue l) + 1 else 0).
Proof.
  unfold with_notice. destruct (_ && _) eqn:G; cbn; (split; [by split_and!|]); (split; [done|]); (split; [done|]); [|lia].
  apply andb_true_iff in G as [_ G]. rewrite G, len_app. change (len [_]) with 1. lia.
Qed.
Lemma given_inv noticed now level message l given written : log_inv l given written ->
  log_inv (log noticed now level message l) (if considered l level then given ++ [mk_entry now level message] else given) written.
Proof.
  intros I. assert (A : l_failure l = None -> len (if considered l level then given ++ [mk_entry now level message] else given) < 2 ^ 64 ->
    accounted (log noticed now level message l) (if considered l level then given ++ [mk_entry now level message] else given) written).
  { intros F B. apply log_accounted; [done|]. apply I; [done|]. destruct (considered l level); [|done]. rewrite len_app in B. change (len [_]) with 1 in B. lia. }
  revert A. generalize (if considered l level then given ++ [mk_entry now level message] else given). intros given' A. pose proof (li_queue _ _ _ I) as Q.
  destruct (with_notice_step noticed 1 l) as (St & Wr & Sp & Ln). unfold log in *. destruct (negb (enabled l level)); [by apply (log_inv_queue l _ given)|].
  destruct (l_stopping l || bool_decide (is_Some (l_failure l))) eqn:F; [by apply (log_inv_queue l _ given)|].
  assert (Nf : l_failure l <> None -> False). { intros H. apply orb_false_iff in F as [_ F]. apply bool_decide_eq_false in F. apply F. by destruct (l_failure l). }
  destruct (_ >=? _) eqn:Fu; [by apply (log_inv_queue l _ given)|]. apply (log_inv_queue l _ given); [done|done| |by intros []%Nf|done].
  fold (with_notice noticed 1 l). cbn. rewrite len_app. change (len [_]) with 1. unfold queue_capacity in *. destruct (_ <? _) eqn:R in Ln; lia.
Qed.
Lemma log_inv_flush now l given written : log_inv l given written -> log_inv (flush_begins now l) given written.
Proof.
  intros I. destruct (with_notice_step now 0 l) as (St & Wr & _ & Ln). assert (E : flush_begins now l = with_notice now 0 l).
  { unfold flush_begins, with_notice. by rewrite Z.add_0_r. }
  rewrite E. pose proof (li_queue _ _ _ I). apply (log_inv_queue l _ given); try done.
  - destruct (_ <? _) eqn:R in Ln; unfold queue_capacity in *; lia.
  - intros F B. apply notice_accounted. by apply I.
Qed.
Lemma log_inv_take l given written : log_inv l given written -> log_inv (worker_takes l) given written.
Proof.
  intros I. unfold worker_takes. destruct (l_failure l) eqn:F; [done|]. destruct (l_writing l) eqn:Wr; [done|]. destruct (l_queue l) as [|e q] eqn:Q; [done|].
  pose proof (li_queue _ _ _ I) as B. rewrite Q, len_cons in B. apply (log_inv_queue l _ given); try done; cbn; [lia|].
  intros _ Bg. apply (accounted_same l); [by apply I|unfold in_flight; cbn; by rewrite Wr, Q|done].
Qed.
Lemma log_inv_write fails part l given written e : log_inv l given written -> l_writing l = Some e -> len (line_of (l_component l) e) < 2 ^ 62 ->
  let l' := worker_writes fails part l in
  log_inv l' given (if decide (l_failure l' = None) then written ++ [e] else written).
Proof.
  intros I Wr Le. assert (F : l_failure l = None). { destruct (l_failure l) eqn:F; [|done]. rewrite (li_failed _ _ _ I) in Wr by congruence. done. }
  destruct I as [(Ep & Ec & Em & En) Q O Ln Fd Sz Wh Fi Ac]. cbn zeta. unfold worker_writes. rewrite Wr.
  pose proof (write_framed fails part n e l Nn En) as [G1 G2 G3 G4 G5 G6 G7 G8 G9]. destruct (write_record fails part e l) as [[[]|x] l'] eqn:E; cbn [snd] in *.
  - assert (C0 : len (content path (l_disk l) 0) < 2 ^ 62).
    { destruct (Fi F 0%nat Nn) as [H|[(e' & H & ->)|(j & ->)]]; [lia|rewrite Forall_forall in Ln; by apply Ln|]. unfold content.
      destruct (disk !! name path j) as [c|] eqn:D; [by apply (Db _ _ D)|done]. }
    apply (write_ok fails part n) in E as (d & -> & Wrote); try done; [|rewrite Ep; by apply Sz|rewrite Sz by done; lia]. rewrite Ep, Ec, Em in *.
    cbn. rewrite decide_True by done. split; cbn; try done.
    + intros p P. rewrite <- O by done. by apply G9.
    + apply Forall_app. by split; [|constructor].
    + intros _. rewrite map_app, concat_app. cbn. rewrite app_nil_r, app_assoc. etransitivity; [by apply (wrote_whole path n max_size (l_disk l) d)|].
      destruct (Wh F) as [k ->]. exists k. by rewrite app_assoc.
    + intros _ i Hi. assert (Old : forall j, (j < n)%nat -> file_ok max_size component path disk (written ++ [e]) (content path (l_disk l) j)).
      { intros j Hj. destruct (Fi F j Hj) as [H|[(e' & H & ->)|H]]; [by left| |by right; right]. right. left. exists e'. split; [set_solver|done]. }
      assert (New : file_ok max_size component path disk (written ++ [e]) (line_of component e)) by (right; left; exists e; split; [set_solver|done]).
      destruct Wrote as [(W0 & Wl & Ws)|(W0 & Ws)], i as [|i]; rewrite ?W0, ?Ws by lia; try done; try (apply Old; lia).
      destruct Wl as [W1|W1]; [by rewrite W1|]. left. by rewrite <- W0.
    + intros _ B. destruct (Ac F B) as (D & order & Or & Rest). split; [done|]. exists order. split; [|done]. rewrite Or. unfold in_flight. cbn. rewrite Wr. by rewrite <- app_assoc.
  - cbn. rewrite decide_False by done. split; cbn; try done; try congruence; [by split_and!; congruence|].
    intros p P. rewrite G9 by congruence. by apply O.
Qed.
Lemma log_run_inv fails minimum l0 l given written : new_logger fails path component minimum max_size (Z.of_nat n) disk = Ok l0 ->
  logger_run l0 l given written -> log_inv l given written.
Proof.
  intros E R. induction R as [|l g w noticed now level message R IH|l g w now R IH|l g w R IH|l g w fl part e R IH Wr Le|l g w R IH].
  - unfold new_logger in E. do 4 (destruct (negb _); [|done]). destruct (open_file _ _) as [[[]|x] l'] eqn:Op; [|done]. injection E as <-. apply open_ok in Op as ->. cbn.
    assert (Sm : forall i, (i < n)%nat -> content path (<[path := content path disk 0]> disk) i = content path disk i).
    { intros i Hi. unfold content. destruct (decide (i = 0%nat)) as [->|]; [change (name path 0) with path; by rewrite lookup_insert_eq|].
      rewrite lookup_insert_ne; [done|]. intros H. change path with (name path 0) in H at 1. apply name_inj in H; lia. }
    split; cbn; try done.
    + intros p P. apply lookup_insert_ne. intros <-. apply P. by exists 0%nat.
    + intros _. by rewrite Sm.
    + intros _. rewrite app_nil_r. unfold whole. erewrite map_ext_in; [reflexivity|]. intros i Hi%in_rev%in_seq. apply Sm. lia.
    + intros _ i Hi. right. right. exists i. by apply Sm.
    + intros _ _. split; [done|]. exists []. by repeat split.
  - by apply given_inv.
  - by apply log_inv_flush.
  - by apply log_inv_take.
  - by apply log_inv_write.
  - apply (log_inv_queue l _ g); try done; [apply IH|]. intros F B. apply (accounted_same l); [by apply IH|done..].
Qed.
End Runs.

(** C40: The log is complete up to what it counts, and bounded.  Whatever is logged, flushed, taken and written in whatever order, with the
    file system failing at any call: at most 8192 records wait, and no path but the log file and its rotated files (at most the
    configured number in all) is touched.  Until a call fails, the records written and those on their way are, in order, records that
    were given and notices, and every other record that was given is counted exactly once, in a notice or in the count still to be
    reported; the files, oldest first, are what the disk held followed by every line written, less whole files at the front; and
    each file is no larger than the limit, or is a single line, or was there before.  After a failure nothing is written any more, and a
    flush reports it.  A record is one line that ends in the only line feed it has, and the message can be read back from its escaped text. *)
Theorem log_faithful (fails : fs_call -> bool) (path component : bytes) (minimum : LogLevel) (max_size : Z) (n : nat) (disk : gmap bytes bytes)
    (l0 l : Logger) (given written : list Entry) :
  Z.of_nat n < 2 ^ 64 -> max_size < 2 ^ 62 -> (forall p c, disk !! p = Some c -> len c < 2 ^ 62) ->
  new_logger fails path component minimum max_size (Z.of_nat n) disk = Ok l0 -> logger_run l0 l given written -> len given < 2 ^ 64 ->
  len (l_queue l) <= 8192 /\
  (forall p, (forall i, (i < n)%nat -> p <> name path i) -> l_disk l !! p = disk !! p) /\
  (l_failure l = None ->
     (exists order, map rendered order = written ++ in_flight l /\ sublist (records order) given /\
        len given = len (records order) + counted order + l_dropped l) /\
     whole path n (l_disk l) `suffix_of` whole path n disk ++ concat (map (line_of component) written) /\
     forall i, (i < n)%nat -> len (content path (l_disk l) i) <= max_size \/ (exists e, e ∈ written /\ content path (l_disk l) i = line_of component e) \/
       exists j, content path (l_disk l) i = content path disk j) /\
  (forall e, l_failure l = Some e -> worker_takes l = l /\ l_writing l = None /\ forall flushed, flush_ends flushed l = Throw e) /\
  (forall e, exists text, line_of component e = text ++ [x0a] /\ x0a ∉ text) /\
  (forall s, unescape (escape_json s) = s).
Proof.
  intros Nb Mb Db E R B. assert (Nn : (0 < n)%nat) by (destruct n; [|lia]; unfold new_logger in E; by do 3 (destruct (negb _); [|done])).
  destruct (log_run_inv path component max_size n disk Nn Nb Mb Db fails minimum l0 l given written E R) as [_ Q O _ Fd _ Wh Fi Ac]. split_and!.
  - done.
  - intros p P. apply O. intros (i & I & ->). by apply (P i I).
  - intros F. split_and!; [|by apply Wh|by apply Fi]. destruct (Ac F B) as (_ & order & Or & S & _ & Ln). by exists order.
  - intros e F. split_and!; [unfold worker_takes; by rewrite F|apply Fd; congruence|intros flushed; unfold flush_ends; by rewrite F].
  - apply line_ends.
  - apply unescape_escape.
Qed.

(** Two records of a relay whose files hold 120 bytes: the second line is in the log file, the first one in the rotated file. *)
Definition first_log : Logger :=
  match new_logger (fun _ => false) (str "relay.log") (str "relay") lvl_info 120 2 ∅ with
  | Ok l => l
  | Throw _ => mk_logger [] [] lvl_off 0 0 0 [] None None 0 false ∅
  end.
Definition leap_day : Z := 1709208000123.
Definition two_queued : Logger := log 0 (leap_day + 1) lvl_error (str "closed" ++ [x0a]) (log 0 leap_day lvl_info (str "started") first_log).
Definition write_one (l : Logger) : Logger := worker_writes (fun _ => false) 0 (worker_takes l).

Example timestamps : format_timestamp leap_day = str "2024-02-29T12:00:00.123Z" /\ format_timestamp 0 = str "1970-01-01T00:00:00.000Z".
Proof. by vm_compute. Qed.

Lemma log_faithful_witness :
  let l := write_one (write_one two_queued) in
  size (l_disk l) = 2%nat /\ whole (str "relay.log") 2 (l_disk l) `suffix_of`
    concat (map (line_of (str "relay")) [mk_entry leap_day lvl_info (str "started"); mk_entry (leap_day + 1) lvl_error (str "closed" ++ [x0a])]).
Proof.
  cbv zeta. split; [vm_compute; reflexivity|].
  assert (exists given written, logger_run first_log (write_one (write_one two_queued)) given written /\
    given = [mk_entry leap_day lvl_info (str "started"); mk_entry (leap_day + 1) lvl_error (str "closed" ++ [x0a])] /\ written = given) as (g & w & R & Eg & Ew).
  { eexists _, _. split.
    - unfold write_one. eapply run_write; [|vm_compute; reflexivity|vm_compute; reflexivity]. apply run_take. eapply run_write; [|vm_compute; reflexivity|vm_compute; reflexivity].
      apply run_take. unfold two_queued. apply run_log, run_log, run_start.
    - split; vm_compute; reflexivity. }
  destruct (log_faithful (fun _ => false) (str "relay.log") (str "relay") lvl_info 120 2 ∅ first_log _ g w ltac:(reflexivity) ltac:(reflexivity)
    ltac:(intros p c H; rewrite lookup_empty in H; discriminate H) ltac:(vm_compute; reflexivity) R ltac:(rewrite Eg; vm_compute; reflexivity)) as (_ & _ & H & _).
  destruct H as (_ & S & _); [vm_compute; reflexivity|]. rewrite Ew, Eg in S. exact S.
Defined.
