(* ===== verification/RegionalRelay.v ===== *)
(** * A regional relay

    transport/relay_bridge.hpp and .cpp, and what [QuicRelayServer::Impl] of transport/quic.cpp does when it has an upstream
    authority: every connection of a client gets a bridge, a TLS connection to the authority, and frames are copied both ways; the
    authority is probed, and without it there are no bridges.  A connection and a bridge are named by the order of their
    arrival.  The probe's answer, clocks, and whether a buffer is taken are arguments.  The handshake objects of a regional relay are
    never used and left out. *)
From S2P Require Import Limits ForwardingQuota QuicSend Handshake Directory RelayHealth RelayPool.
From S2P Require Import Prelude Codec StreamDecoder Crypto PacketCipher RelayServer.

(** ** State *)

(** [RelayBridge], with the connection its delivery is for. *)
Record UpBridge := mk_up {
  u_front : nat; u_stopping : bool; u_authenticated : bool; u_finished : bool; u_queued : list (Frame * Ticket); u_budget : BudgetState;
  u_channel : option Sends; u_deadline : Z }.
(** A connection: [TcpContext], or [ConnectionContext] with its stream and its [RegionalTarget]. *)
Record Front := mk_front {
  f_tcp : bool; f_bridge : option nat; f_rate : ControlRateLimit; f_datagram : Z; f_sends : Sends; f_decoder : StreamDecoder; f_started : bool;
  f_stream : bool; f_rejected : bool; f_admission : Ticket }.
Record Regional := mk_regional {
  g_fronts : gmap nat Front; g_next : nat; g_bridges : list UpBridge; g_live : list nat; g_admissions : BudgetState;
  g_health_rate : ControlRateLimit; g_running : bool; g_stopping : bool; g_verified : bool; g_ready : bool; g_rtt : Z;
  g_forwarded : Z; g_forwarded_bytes : Z; g_dropped : Z }.

Definition put_g_fronts x g := mk_regional x (g_next g) (g_bridges g) (g_live g) (g_admissions g) (g_health_rate g) (g_running g) (g_stopping g) (g_verified g) (g_ready g) (g_rtt g) (g_forwarded g) (g_forwarded_bytes g) (g_dropped g).
Definition put_g_next x g := mk_regional (g_fronts g) x (g_bridges g) (g_live g) (g_admissions g) (g_health_rate g) (g_running g) (g_stopping g) (g_verified g) (g_ready g) (g_rtt g) (g_forwarded g) (g_forwarded_bytes g) (g_dropped g).
Definition put_g_bridges x g := mk_regional (g_fronts g) (g_next g) x (g_live g) (g_admissions g) (g_health_rate g) (g_running g) (g_stopping g) (g_verified g) (g_ready g) (g_rtt g) (g_forwarded g) (g_forwarded_bytes g) (g_dropped g).
Definition put_g_live x g := mk_regional (g_fronts g) (g_next g) (g_bridges g) x (g_admissions g) (g_health_rate g) (g_running g) (g_stopping g) (g_verified g) (g_ready g) (g_rtt g) (g_forwarded g) (g_forwarded_bytes g) (g_dropped g).
Definition put_g_admissions x g := mk_regional (g_fronts g) (g_next g) (g_bridges g) (g_live g) x (g_health_rate g) (g_running g) (g_stopping g) (g_verified g) (g_ready g) (g_rtt g) (g_forwarded g) (g_forwarded_bytes g) (g_dropped g).
Definition put_g_health_rate x g := mk_regional (g_fronts g) (g_next g) (g_bridges g) (g_live g) (g_admissions g) x (g_running g) (g_stopping g) (g_verified g) (g_ready g) (g_rtt g) (g_forwarded g) (g_forwarded_bytes g) (g_dropped g).
Definition put_g_running x y g := mk_regional (g_fronts g) (g_next g) (g_bridges g) (g_live g) (g_admissions g) (g_health_rate g) x y (g_verified g) (g_ready g) (g_rtt g) (g_forwarded g) (g_forwarded_bytes g) (g_dropped g).
Definition put_g_authority x y z g := mk_regional (g_fronts g) (g_next g) (g_bridges g) (g_live g) (g_admissions g) (g_health_rate g) (g_running g) (g_stopping g) x y z (g_forwarded g) (g_forwarded_bytes g) (g_dropped g).
Definition put_g_counters x y z g := mk_regional (g_fronts g) (g_next g) (g_bridges g) (g_live g) (g_admissions g) (g_health_rate g) (g_running g) (g_stopping g) (g_verified g) (g_ready g) (g_rtt g) x y z.

Definition put_f_bridge x k := mk_front (f_tcp k) x (f_rate k) (f_datagram k) (f_sends k) (f_decoder k) (f_started k) (f_stream k) (f_rejected k) (f_admission k).
Definition put_f_rate x k := mk_front (f_tcp k) (f_bridge k) x (f_datagram k) (f_sends k) (f_decoder k) (f_started k) (f_stream k) (f_rejected k) (f_admission k).
Definition put_f_datagram x k := mk_front (f_tcp k) (f_bridge k) (f_rate k) x (f_sends k) (f_decoder k) (f_started k) (f_stream k) (f_rejected k) (f_admission k).
Definition put_f_sends x k := mk_front (f_tcp k) (f_bridge k) (f_rate k) (f_datagram k) x (f_decoder k) (f_started k) (f_stream k) (f_rejected k) (f_admission k).
Definition put_f_decoder x k := mk_front (f_tcp k) (f_bridge k) (f_rate k) (f_datagram k) (f_sends k) x (f_started k) (f_stream k) (f_rejected k) (f_admission k).
Definition put_f_stream x y k := mk_front (f_tcp k) (f_bridge k) (f_rate k) (f_datagram k) (f_sends k) (f_decoder k) x y (f_rejected k) (f_admission k).
Definition put_f_rejected x k := mk_front (f_tcp k) (f_bridge k) (f_rate k) (f_datagram k) (f_sends k) (f_decoder k) (f_started k) (f_stream k) x (f_admission k).

(** What happens: a frame taken by a bridge, sent upstream, received from upstream, delivered to a client (as a datagram or
    not), an answer of the relay itself, and a connection that is shut down. *)
Inductive regional_output :=
| go_in (b : nat) (f : Frame) | go_up (b : nat) (f : Frame) | go_from (b : nat) (f : Frame) | go_down (c : nat) (f : Frame) (datagram : bool)
| go_reply (c : nat) (f : Frame) | go_close (c : nat).

(** ** Calls *)

Definition G (A : Type) : Type := Regional -> result A * Regional * list regional_output.
Definition gret {A} (a : A) : G A := fun g => (Ok a, g, []).
Definition gpure {A} (r : result A) : G A := fun g => (r, g, []).
Definition gbind {A B} (m : G A) (k : A -> G B) : G B := fun g =>
  match m g with
  | (Ok a, g, l) => match k a g with (r, g, l') => (r, g, l ++ l') end
  | (Throw e, g, l) => (Throw e, g, l)
  end.
Local Notation "'let!' x := m 'in' k" := (gbind m (fun x => k))
  (at level 10, x name, m at level 100, k at level 200, format "'[v' 'let!'  x  :=  m  'in' '/' k ']'").
Local Notation "m ;; k" := (gbind m (fun _ => k)) (at level 100, right associativity).
Definition gget : G Regional := fun g => (Ok g, g, []).
Definition gput (f : Regional -> Regional) : G unit := fun g => (Ok tt, f g, []).
Definition gemit (x : regional_output) : G unit := fun g => (Ok tt, g, [x]).
Definition gcheck (b : bool) : G unit := if b then gret tt else gpure (Throw runtime_error).
Fixpoint gfor {A} (l : list A) (f : A -> G unit) : G unit := match l with [] => gret tt | x :: l => f x ;; gfor l f end.
Definition gfront (c : nat) : G Front := fun g => (match g_fronts g !! c with Some k => Ok k | None => Throw logic_error end, g, []).
Definition on_front (c : nat) (f : Front -> Front) : G unit := gput (fun g => put_g_fronts (alter f c (g_fronts g)) g).
Definition gbridge (b : nat) : G UpBridge := fun g => (match g_bridges g !! b with Some u => Ok u | None => Throw logic_error end, g, []).
Definition set_bridge (b : nat) (f : UpBridge -> UpBridge) (g : Regional) : Regional :=
  match g_bridges g !! b with Some u => put_g_bridges (<[b := f u]> (g_bridges g)) g | None => g end.
Definition on_bridge (b : nat) (f : UpBridge -> UpBridge) : G unit := gput (set_bridge b f).

Record RegionalWorld := mk_regional_world {
  gw_now : Z; gw_taken : Frame -> bool; gw_taken_datagram : bytes -> bool; gw_taken_up : Frame -> bool; gw_utc : Z; gw_uptime : Z }.

(** ** The bridge *)

Definition discard (l : list (Frame * Ticket)) (b : BudgetState) : BudgetState := foldl (fun b e => release b (snd e)) b l.
Definition stop_up (u : UpBridge) : UpBridge :=
  mk_up (u_front u) true (u_authenticated u) (u_finished u) [] (discard (u_queued u) (u_budget u)) (u_channel u) (u_deadline u).
Definition stop_bridge (b : nat) : G unit := on_bridge b stop_up.

Definition is_packet (f : Frame) : bool := bool_decide (type_ f = network_packet_send).
Definition bridge_send (b : nat) (f : Frame) : G bool :=
  let! u := gbridge b in
  if u_stopping u || u_finished u then gret false
  else match reserve (u_budget u) (len (payload f) + 12) (negb (is_packet f)) with
       | (None, budget) =>
           on_bridge b (fun u => mk_up (u_front u) (u_stopping u) (u_authenticated u) (u_finished u) (u_queued u) budget (u_channel u) (u_deadline u)) ;;
           gret false
       | (Some t, budget) =>
           on_bridge b (fun u => mk_up (u_front u) (u_stopping u) (u_authenticated u) (u_finished u) (u_queued u ++ [(f, t)]) budget (u_channel u) (u_deadline u)) ;;
           gemit (go_in b f) ;; gret true
       end.

(** [run] ends: nothing waits any more and the client's connection is closed. *)
Definition end_up (u : UpBridge) : UpBridge :=
  mk_up (u_front u) (u_stopping u) false true [] (discard (u_queued u) (u_budget u)) None (u_deadline u).
Definition end_bridge (b : nat) : G unit :=
  let! u := gbridge b in
  let! g := gget in
  on_bridge b end_up ;;
  match g_fronts g !! u_front u with Some _ => gemit (go_close (u_front u)) | None => gret tt end.

(** [TlsChannel::connect] returned, or threw. *)
Definition bridge_connects (auth_timeout : Z) (w : RegionalWorld) (limits : SendQueueLimits) (connected : bool) (b : nat) : G unit :=
  let! u := gbridge b in
  if u_finished u || bool_decide (is_Some (u_channel u)) then gret tt
  else if negb connected then end_bridge b
  else
    let! sends := gpure (new_sends limits) in
    on_bridge b (fun u => mk_up (u_front u) (u_stopping u) (u_authenticated u) (u_finished u) (u_queued u) (u_budget u) (Some sends) (gw_now w + auth_timeout)).

(** The frames of the queue go upstream; whether all were taken. *)
Fixpoint send_up (w : RegionalWorld) (b : nat) (l : list (Frame * Ticket)) (s : Sends) : bool * Sends * list regional_output :=
  match l with
  | [] => (true, s, [])
  | (f, _) :: l =>
      match enqueue f (gw_taken_up w f) s with
      | (true, s) => match send_up w b l s with (ok, s, o) => (ok, s, go_up b f :: o) end
      | (false, s) => (false, s, [])
      end
  end.
(** The function the channel polls. *)
Definition bridge_turn (w : RegionalWorld) (b : nat) : G unit :=
  let! u := gbridge b in
  match u_channel u with
  | None => gret tt
  | Some s =>
      if u_finished u then gret tt
      else if u_stopping u || (negb (u_authenticated u) && (gw_now w >=? u_deadline u)) then end_bridge b
      else
        match send_up w b (u_queued u) s with
        | (ok, s, o) =>
            (fun g => (Ok tt, set_bridge b (fun u => mk_up (u_front u) (u_stopping u) (u_authenticated u) (u_finished u) []
               (discard (u_queued u) (u_budget u)) (Some s) (u_deadline u)) g, o)) ;;
            if ok then gret tt else end_bridge b
        end
  end.

(** ** Towards the client *)

Definition note_passed (f : Frame) (ok : bool) : G unit :=
  if bool_decide (type_ f = network_packet_forward) then gput (fun g =>
    if ok then put_g_counters ((g_forwarded g + 1) mod 2 ^ 64) ((g_forwarded_bytes g + len (payload f)) mod 2 ^ 64) (g_dropped g) g
    else put_g_counters (g_forwarded g) (g_forwarded_bytes g) ((g_dropped g + 1) mod 2 ^ 64) g)
  else gret tt.
Definition as_datagram (k : Front) (f : Frame) : bool :=
  negb (f_tcp k) && bool_decide (type_ f = network_packet_forward) && negb (f_datagram k =? 0) && (len (payload f) <=? f_datagram k).
Definition deliver (w : RegionalWorld) (c : nat) (f : Frame) : G bool :=
  let! g := gget in
  match g_fronts g !! c with
  | None => gret false
  | Some k =>
      if negb (f_stream k) then gret false
      else
        let d := as_datagram k f in
        let (ok, s) :=
          if d then (let (st, s) := send_datagram (payload f) (gw_taken_datagram w (payload f)) (f_sends k) in (quic_succeeded st, s))
          else enqueue f (gw_taken w f) (f_sends k) in
        on_front c (put_f_sends s) ;; note_passed f ok ;;
        (if ok then gemit (go_down c f d) else gret tt) ;; gret ok
  end.

(** A frame of the authority. *)
Definition learns (f : Frame) (u : UpBridge) : result bool :=
  if bool_decide (type_ f = auth_result) then
    if u_authenticated u then Throw runtime_error else let* r := decode_auth_result (payload f) in Ok (accepted r)
  else Ok (u_authenticated u).
Definition bridge_receives (w : RegionalWorld) (b : nat) (f : Frame) : G unit :=
  let! u := gbridge b in
  if u_finished u || negb (bool_decide (is_Some (u_channel u))) then gret tt
  else
    match learns f u with
    | Throw _ => end_bridge b
    | Ok a =>
        on_bridge b (fun u => mk_up (u_front u) (u_stopping u) a (u_finished u) (u_queued u) (u_budget u) (u_channel u) (u_deadline u)) ;;
        gemit (go_from b f) ;;
        let! ok := deliver w (u_front u) f in
        if (ok : bool) then gret tt else end_bridge b
    end.

(** ** The relay *)

Section Regional.
Context {C : Crypto} (o : ServerOptions).

Definition finished (g : Regional) (b : nat) : bool := match g_bridges g !! b with Some u => u_finished u | None => true end.
Definition make_bridge (c : nat) : G nat :=
  gput (fun g => put_g_live (List.filter (fun b => negb (finished g b)) (g_live g)) g) ;;
  let! g := gget in
  gcheck (negb (g_stopping g || negb (g_verified g) || (len (g_live g) >=? so_max_connections o))) ;;
  let! budget := gpure (make_budget (so_queue o)) in
  let b := length (g_bridges g) in
  gput (fun g => put_g_live (g_live g ++ [b]) (put_g_bridges (g_bridges g ++ [mk_up c false false false [] budget None 0]) g)) ;;
  gret b.

(** One answer of the probe of the authority: its health and its round trip in microseconds. *)
Definition monitor_authority (sample : option (RelayHealth * Z)) : G unit :=
  match sample with
  | Some (health, rtt) => gput (put_g_authority true (rh_ready health) (Z.min rtt 10000000))
  | None => gput (fun g => put_g_authority false false (g_rtt g) g) ;; let! g := gget in gfor (g_live g) stop_bridge
  end.

Definition in_service (g : Regional) (b : nat) : bool :=
  match g_bridges g !! b with Some u => u_authenticated u && negb (u_finished u) | None => false end.
Definition regional_health (w : RegionalWorld) (f : Frame) : G Frame :=
  match so_health_identity o with
  | None => gpure (Throw runtime_error)
  | Some identity =>
      gcheck (negb ((request_id f =? 0) || (negb (len (payload f) =? 32) && negb (wants_accounting f)))) ;;
      let! g := gget in
      match ForwardingQuota.allow (g_health_rate g) (gw_now w) with
      | (ok, rate) =>
          gput (put_g_health_rate rate) ;; gcheck ok ;;
          let active := len (List.filter (in_service g) (g_live g)) mod 2 ^ 32 in
          let capacity := so_max_connections o mod 2 ^ 32 in
          let health := mk_health (nonce_part f) (so_relay_id o) (so_authority o) (gw_utc w) (gw_uptime w) capacity active (g_rtt g)
            (g_forwarded g) (g_forwarded_bytes g) (g_dropped g) 0 0 0 0 false
            (g_running g && (active <? capacity) && (g_verified g && g_ready g)) in
          let! bs := gpure (sign_relay_health health identity) in
          gret (mk_frame relay_health_result (request_id f) bs)
      end
  end.

(** The rate of the connection, then the bridge. *)
Definition pass_up (w : RegionalWorld) (c : nat) (b : nat) (f : Frame) : G unit :=
  (if is_packet f then gret tt
   else
     let! k := gfront c in
     match ForwardingQuota.allow (f_rate k) (gw_now w) with (ok, rate) => on_front c (put_f_rate rate) ;; gcheck ok end) ;;
  let! ok := bridge_send b f in gcheck ok.
(** The connection's bridge, made at its first frame. *)
Definition bridge_of (c : nat) : G nat :=
  let! k := gfront c in
  match f_bridge k with
  | Some b => gret b
  | None => let! b := make_bridge c in on_front c (put_f_bridge (Some b)) ;; gret b
  end.

Definition regional_tcp_frame (w : RegionalWorld) (c : nat) (f : Frame) : G unit :=
  let! k := gfront c in
  if negb (bool_decide (is_Some (f_bridge k))) && bool_decide (type_ f = relay_health_request) then
    let! answer := regional_health w f in
    let (ok, s) := enqueue answer (gw_taken w answer) (f_sends k) in
    on_front c (put_f_sends s) ;; gcheck ok ;; gemit (go_reply c answer) ;; on_front c (put_f_rejected true)
  else let! b := bridge_of c in pass_up w c b f.

Definition regional_decode (c : nat) (bs : bytes) : G (list Frame) :=
  let! k := gfront c in
  match default (Throw runtime_error, f_decoder k) (push (f_decoder k) bs) with
  | (r, d) => on_front c (put_f_decoder d) ;; gpure r
  end.
(** An exception shuts the connection down. *)
Definition or_shut (c : nat) (m : G unit) : G unit := fun g =>
  match m g with (Ok _, g, l) => (Ok tt, g, l) | (Throw _, g, l) => (Ok tt, g, l ++ [go_close c]) end.
Definition regional_stream_bytes (w : RegionalWorld) (c : nat) (bs : bytes) : G unit :=
  or_shut c (let! frames := regional_decode c bs in gfor frames (fun f => let! b := bridge_of c in pass_up w c b f)).
Definition regional_datagram (c : nat) (bs : bytes) : G unit :=
  let! k := gfront c in
  match f_bridge k with
  | None => gret tt
  | Some b =>
      let! u := gbridge b in
      if negb (u_authenticated u) then gret tt
      else
        let! ok := bridge_send b (mk_frame network_packet_send 0 bs) in
        if (ok : bool) then gret tt else gput (fun g => put_g_counters (g_forwarded g) (g_forwarded_bytes g) ((g_dropped g + 1) mod 2 ^ 64) g)
  end.

(** A second stream is refused. *)
Definition regional_stream_started (c : nat) : G unit :=
  let! k := gfront c in if f_started k then gemit (go_close c) else on_front c (fun k => put_f_decoder (mk_decoder [] 0) (put_f_stream true true k)).
Definition stop_bridge_of (c : nat) : G unit :=
  let! k := gfront c in match f_bridge k with Some b => stop_bridge b | None => gret tt end.
Definition regional_stream_closed (c : nat) : G unit := on_front c (put_f_stream true false) ;; stop_bridge_of c.
(** The end of a connection, over TLS or QUIC. *)
Definition regional_closed (c : nat) : G unit :=
  stop_bridge_of c ;;
  gput (fun g => match g_fronts g !! c with
                 | Some k => put_g_admissions (release (g_admissions g) (f_admission k)) (put_g_fronts (delete c (g_fronts g)) g)
                 | None => g
                 end).
Definition regional_accept (tcp : bool) : G unit :=
  let! g := gget in
  match reserve (g_admissions g) 1 true with
  | (None, b) => gput (put_g_admissions b)
  | (Some t, b) =>
      let! sends := gpure (new_sends (so_queue o)) in
      let! rate := gpure (make_rate_limit (so_control_rate o)) in
      gput (fun g => put_g_admissions b (put_g_next (S (g_next g))
        (put_g_fronts (<[g_next g := mk_front tcp None rate 0 sends (mk_decoder [] 0) tcp tcp false t]> (g_fronts g)) g)))
  end.
Definition regional_stop : G unit :=
  gput (put_g_running false true) ;; let! g := gget in gfor (g_live g) stop_bridge.

Inductive RegionalEvent :=
| ge_accept (tcp : bool) | ge_tcp_frame (w : RegionalWorld) (c : nat) (f : Frame) | ge_stream_started (c : nat)
| ge_stream (w : RegionalWorld) (c : nat) (bs : bytes) | ge_datagram_length (c : nat) (length : Z) | ge_datagram (c : nat) (bs : bytes)
| ge_stream_closed (c : nat) | ge_closed (c : nat) | ge_sent (c i : nat) | ge_start | ge_stop | ge_probed (sample : option (RelayHealth * Z))
| ge_connected (w : RegionalWorld) (connected : bool) (b : nat) | ge_turn (w : RegionalWorld) (b : nat) | ge_from (w : RegionalWorld) (b : nat) (f : Frame)
| ge_up_sent (b i : nat) | ge_up_failed (b : nat).
Definition regional_step (e : RegionalEvent) : G unit :=
  match e with
  | ge_accept tcp => regional_accept tcp
  | ge_tcp_frame w c f => regional_tcp_frame w c f
  | ge_stream_started c => regional_stream_started c
  | ge_stream w c bs => regional_stream_bytes w c bs
  | ge_datagram_length c n => on_front c (put_f_datagram n)
  | ge_datagram c bs => regional_datagram c bs
  | ge_stream_closed c => regional_stream_closed c
  | ge_closed c => regional_closed c
  | ge_sent c i => on_front c (fun k => put_f_sends (complete_send i (f_sends k)) k)
  | ge_start => let! g := gget in if g_stopping g then gpure (Throw logic_error) else gput (put_g_running true false)
  | ge_stop => regional_stop
  | ge_probed sample => monitor_authority sample
  | ge_connected w ok b => bridge_connects (so_auth_timeout o) w (so_queue o) ok b
  | ge_turn w b => bridge_turn w b
  | ge_from w b f => bridge_receives w b f
  | ge_up_sent b i => on_bridge b (fun u => mk_up (u_front u) (u_stopping u) (u_authenticated u) (u_finished u) (u_queued u) (u_budget u)
                        (fmap (complete_send i) (u_channel u)) (u_deadline u))
  | ge_up_failed b => let! u := gbridge b in if u_finished u then gret tt else end_bridge b
  end.
Definition new_regional : result Regional :=
  let* b := make_budget (mk_queue_limits (so_max_connections o) (so_max_connections o) 0 0) in
  let* rate := make_rate_limit (so_health_rate o) in
  Ok (mk_regional ∅ 0 [] [] b rate false false false false 0 0 0 0).
End Regional.

(** ** What passed through a bridge *)

Definition on_bridge_only (b : nat) (pick : regional_output -> option (nat * Frame)) (l : list regional_output) : list Frame :=
  flat_map (fun x => match pick x with Some (b', f) => if decide (b' = b) then [f] else [] | None => [] end) l.
Definition taken (b : nat) : list regional_output -> list Frame := on_bridge_only b (fun x => match x with go_in b f => Some (b, f) | _ => None end).
Definition ups (b : nat) : list regional_output -> list Frame := on_bridge_only b (fun x => match x with go_up b f => Some (b, f) | _ => None end).
Definition froms (b : nat) : list regional_output -> list Frame := on_bridge_only b (fun x => match x with go_from b f => Some (b, f) | _ => None end).
Definition downs (c : nat) : list regional_output -> list Frame := on_bridge_only c (fun x => match x with go_down c f _ => Some (c, f) | _ => None end).
Lemma only_app b pick l l' : on_bridge_only b pick (l ++ l') = on_bridge_only b pick l ++ on_bridge_only b pick l'.
Proof. apply flat_map_app. Qed.

(** Outputs about one bridge and one connection. *)
Definition about (b c : nat) (x : regional_output) : Prop :=
  match x with go_in b' _ | go_up b' _ | go_from b' _ => b' = b | go_down c' _ _ => c' = c | _ => True end.
Lemma only_other b pick l : (forall x b' f, x ∈ l -> pick x = Some (b', f) -> b' <> b) -> on_bridge_only b pick l = [].
Proof.
  induction l as [|x l IH]; intros H; [done|]. cbn. change (flat_map _ l) with (on_bridge_only b pick l). rewrite IH by (intros; eapply H; [by right|done]).
  rewrite app_nil_r. destruct (pick x) as [[b' f]|] eqn:E; [|done]. rewrite decide_False; [done|]. eapply H; [by left|done].
Qed.
Lemma about_other b c l b' : Forall (about b c) l -> b' <> b -> taken b' l = [] /\ ups b' l = [] /\ froms b' l = [].
Proof.
  intros A N. rewrite Forall_forall in A.
  split_and!; apply only_other; intros x b1 f Hx E; specialize (A x Hx); destruct x; cbn in *; try done; injection E as <- <-; congruence.
Qed.
Lemma about_down b c l c' : Forall (about b c) l -> c' <> c -> downs c' l = [].
Proof. intros A N. rewrite Forall_forall in A. apply only_other. intros x b1 f Hx E. specialize (A x Hx). destruct x; cbn in *; try done. injection E as <- <-. congruence. Qed.

Definition idle_up (u : UpBridge) : bool := u_stopping u || u_finished u.
Record up_inv (outs : list regional_output) (b : nat) (u : UpBridge) : Prop := mk_up_inv {
  ui_up : if idle_up u then ups b outs `prefix_of` taken b outs else taken b outs = ups b outs ++ map fst (u_queued u);
  ui_idle : idle_up u = true -> u_queued u = [];
  ui_auth : u_authenticated u = true -> exists f r, f ∈ froms b outs /\ type_ f = auth_result /\ decode_auth_result (payload f) = Ok r /\ accepted r = true;
  ui_down : if u_finished u then downs (u_front u) outs `prefix_of` froms b outs else downs (u_front u) outs = froms b outs }.

Section Invariant.
Context {C : Crypto} (o : ServerOptions).
Record reg_inv (g : Regional) (outs : list regional_output) : Prop := mk_reg_inv {
  ri_bridge : forall b u, g_bridges g !! b = Some u -> up_inv outs b u /\ (u_front u < g_next g)%nat;
  ri_front : forall c k b, g_fronts g !! c = Some k -> f_bridge k = Some b -> exists u, g_bridges g !! b = Some u /\ u_front u = c;
  ri_back : forall b u k, g_bridges g !! b = Some u -> g_fronts g !! u_front u = Some k -> f_bridge k = Some b;
  ri_unique : forall b b' u u', g_bridges g !! b = Some u -> g_bridges g !! b' = Some u' -> u_front u = u_front u' -> b = b';
  ri_next : forall c k, g_fronts g !! c = Some k -> (c < g_next g)%nat;
  ri_none : forall b, (length (g_bridges g) <= b)%nat -> taken b outs = [] /\ ups b outs = [] /\ froms b outs = [];
  ri_silent : forall c, (forall b u, g_bridges g !! b = Some u -> u_front u <> c) -> downs c outs = [];
  ri_live : forall b u, g_bridges g !! b = Some u -> u_finished u = false -> b ∈ g_live g;
  ri_bound : len (g_live g) <= Z.max 0 (so_max_connections o) }.

(** A step of one bridge, whose outputs are about it and its connection. *)
Lemma inv_update g outs b u u' g' l : reg_inv g outs -> g_bridges g !! b = Some u -> g_bridges g' = <[b := u']> (g_bridges g) ->
  (forall c, f_bridge <$> g_fronts g' !! c = f_bridge <$> g_fronts g !! c) -> g_next g' = g_next g -> g_live g' = g_live g ->
  u_front u' = u_front u -> (u_finished u' = false -> u_finished u = false) -> Forall (about b (u_front u)) l -> up_inv (outs ++ l) b u' ->
  reg_inv g' (outs ++ l).
Proof.
  intros [Br Fr Ba Un Nx No Si Li Bo] Eb Eg Ef En El Fu Fi Ab Ui. assert (Lb : (b < length (g_bridges g))%nat) by (by eapply lookup_lt_Some).
  assert (Look : forall b1 u1, g_bridges g' !! b1 = Some u1 -> (b1 = b /\ u1 = u') \/ (b1 <> b /\ g_bridges g !! b1 = Some u1)).
  { intros b1 u1. rewrite Eg. destruct (decide (b1 = b)) as [->|]; [rewrite list_lookup_insert_eq by done; intros [= <-]; by left|].
    rewrite list_lookup_insert_ne by done. by right. }
  assert (Old : forall b1 u1, g_bridges g' !! b1 = Some u1 -> exists u0, g_bridges g !! b1 = Some u0 /\ u_front u0 = u_front u1).
  { intros b1 u1 [[-> ->]|[_ H]]%Look; [by exists u|by exists u1]. }
  assert (Fronts : forall c k, g_fronts g' !! c = Some k -> exists k0, g_fronts g !! c = Some k0 /\ f_bridge k0 = f_bridge k).
  { intros c k H. specialize (Ef c). rewrite H in Ef. destruct (g_fronts g !! c) as [k0|]; [|done]. injection Ef as Ef. by exists k0. }
  split.
  - intros b1 u1 H. rewrite En. destruct (Look _ _ H) as [[-> ->]|[Ne H1]]; [rewrite Fu; split; [done|by apply (Br b u)]|]. destruct (Br _ _ H1) as [[A1 A2 A3 A4] A5].
    destruct (about_other _ _ _ b1 Ab Ne) as (T1 & T2 & T3). assert (D : downs (u_front u1) l = []).
    { apply (about_down _ _ _ _ Ab). intros E. apply Ne. by apply (Un b1 b u1 u). }
    assert (E1 : taken b1 (outs ++ l) = taken b1 outs) by (unfold taken in *; by rewrite only_app, T1, app_nil_r).
    assert (E2 : ups b1 (outs ++ l) = ups b1 outs) by (unfold ups in *; by rewrite only_app, T2, app_nil_r).
    assert (E3 : froms b1 (outs ++ l) = froms b1 outs) by (unfold froms in *; by rewrite only_app, T3, app_nil_r).
    assert (E4 : downs (u_front u1) (outs ++ l) = downs (u_front u1) outs) by (unfold downs in *; by rewrite only_app, D, app_nil_r).
    split; [|done]. split; rewrite ?E1, ?E2, ?E3, ?E4; done.
  - intros c k b1 H B. destruct (Fronts c k H) as (k0 & H0 & E0). destruct (Fr c k0 b1 H0 ltac:(congruence)) as (u0 & U0 & F0).
    rewrite Eg. destruct (decide (b1 = b)) as [->|]; [|rewrite list_lookup_insert_ne by done; by exists u0].
    rewrite list_lookup_insert_eq by done. exists u'. split; [done|congruence].
  - intros b1 u1 k H K. destruct (Old _ _ H) as (u0 & U0 & F0). destruct (Fronts _ k K) as (k0 & H0 & E0). rewrite <- E0. apply (Ba b1 u0); [done|congruence].
  - intros b1 b2 u1 u2 H1 H2 E. destruct (Old _ _ H1) as (v1 & V1 & W1), (Old _ _ H2) as (v2 & V2 & W2). apply (Un b1 b2 v1 v2); congruence.
  - intros c k H. rewrite En. destruct (Fronts c k H) as (k0 & H0 & _). by apply (Nx c k0).
  - intros b1 H. rewrite Eg, length_insert in H. destruct (No b1 H) as (N1 & N2 & N3). destruct (about_other _ _ _ b1 Ab ltac:(lia)) as (T1 & T2 & T3).
    unfold taken, ups, froms in *. rewrite !only_app, N1, N2, N3, T1, T2, T3. done.
  - intros c H. unfold downs. rewrite only_app. change (downs c outs ++ downs c l = []). rewrite (Si c), (about_down _ _ _ c Ab); [done| |].
    + intros ->. apply (H b u'); [|by rewrite Fu]. rewrite Eg. by rewrite list_lookup_insert_eq.
    + intros b1 u1 H1. destruct (decide (b1 = b)) as [->|Ne].
      * assert (u1 = u) as -> by congruence. rewrite <- Fu. apply (H b). rewrite Eg. by rewrite list_lookup_insert_eq.
      * apply (H b1). rewrite Eg. by rewrite list_lookup_insert_ne.
  - intros b1 u1 H F. rewrite El. destruct (Look _ _ H) as [[-> ->]|[_ H1]]; [apply (Li b u); auto|by apply (Li b1 u1)].
  - by rewrite El.
Qed.

Definition keeps {A} (m : G A) : Prop := forall g outs, reg_inv g outs -> match m g with (_, g', l) => reg_inv g' (outs ++ l) end.
Definition neutral (x : regional_output) : Prop := match x with go_reply _ _ | go_close _ => True | _ => False end.
Lemma neutral_only l : Forall neutral l -> forall b, taken b l = [] /\ ups b l = [] /\ froms b l = [] /\ downs b l = [].
Proof.
  intros N b. rewrite Forall_forall in N.
  split_and!; apply only_other; intros x b1 f Hx E; specialize (N x Hx); by destruct x.
Qed.
Lemma inv_same g g' outs l : reg_inv g outs -> g_bridges g' = g_bridges g -> (forall c, f_bridge <$> g_fronts g' !! c = f_bridge <$> g_fronts g !! c) ->
  g_next g' = g_next g -> g_live g' = g_live g -> Forall neutral l -> reg_inv g' (outs ++ l).
Proof.
  intros [Br Fr Ba Un Nx No Si Li Bo] Eg Ef En El Nl.
  assert (E : forall b, taken b (outs ++ l) = taken b outs /\ ups b (outs ++ l) = ups b outs /\ froms b (outs ++ l) = froms b outs /\ downs b (outs ++ l) = downs b outs).
  { intros b. destruct (neutral_only l Nl b) as (N1 & N2 & N3 & N4). unfold taken, ups, froms, downs in *. by rewrite !only_app, N1, N2, N3, N4, !app_nil_r. }
  assert (Fronts : forall c k, g_fronts g' !! c = Some k -> exists k0, g_fronts g !! c = Some k0 /\ f_bridge k0 = f_bridge k).
  { intros c k H. specialize (Ef c). rewrite H in Ef. destruct (g_fronts g !! c) as [k0|]; [|done]. injection Ef as Ef. by exists k0. }
  split; rewrite ?Eg, ?En, ?El; try done.
  - intros b u H. destruct (Br b u H) as [[A1 A2 A3 A4] A5], (E b) as (E1 & E2 & E3 & _), (E (u_front u)) as (_ & _ & _ & E4). split; [|done].
    split; rewrite ?E1, ?E2, ?E3, ?E4; done.
  - intros c k b H B. destruct (Fronts c k H) as (k0 & H0 & E0). apply (Fr c k0); [done|congruence].
  - intros b u k H K. destruct (Fronts _ k K) as (k0 & H0 & E0). rewrite <- E0. by apply (Ba b u).
  - intros c k H. destruct (Fronts c k H) as (k0 & H0 & _). by apply (Nx c k0).
  - intros b H. destruct (E b) as (-> & -> & -> & _). by apply No.
  - intros c H. destruct (E c) as (_ & _ & _ & ->). by apply Si.
Qed.

Lemma reg_keeps_ret {A} (a : A) : keeps (gret a).
Proof. intros g outs I. cbn. by rewrite app_nil_r. Qed.
Lemma reg_keeps_pure {A} (r : result A) : keeps (gpure r).
Proof. intros g outs I. cbn. by rewrite app_nil_r. Qed.
Lemma reg_keeps_get : keeps gget.
Proof. intros g outs I. cbn. by rewrite app_nil_r. Qed.
Lemma reg_keeps_check b : keeps (gcheck b).
Proof. destruct b; [apply reg_keeps_ret|apply reg_keeps_pure]. Qed.
Lemma reg_keeps_front c : keeps (gfront c).
Proof. intros g outs I. cbn. by rewrite app_nil_r. Qed.
Lemma reg_keeps_gbridge b : keeps (gbridge b).
Proof. intros g outs I. cbn. by rewrite app_nil_r. Qed.
Lemma reg_keeps_bind {A B} (m : G A) (k : A -> G B) : keeps m -> (forall a, keeps (k a)) -> keeps (gbind m k).
Proof.
  intros M K g outs I. unfold gbind. specialize (M g outs I). destruct (m g) as [[[a|e] g1] l]; [|done].
  specialize (K a g1 _ M). destruct (k a g1) as [[r g2] l']. by rewrite app_assoc.
Qed.
Lemma reg_keeps_for {A} (l : list A) (f : A -> G unit) : (forall x, keeps (f x)) -> keeps (gfor l f).
Proof. intros F. induction l as [|x l IH]; [apply reg_keeps_ret|]. apply reg_keeps_bind; [apply F|done]. Qed.
Lemma reg_keeps_emit x : neutral x -> keeps (gemit x).
Proof. intros N g outs I. apply (inv_same g); try done. by constructor. Qed.
Lemma reg_keeps_put f : (forall g, g_bridges (f g) = g_bridges g /\ g_fronts (f g) = g_fronts g /\ g_next (f g) = g_next g /\ g_live (f g) = g_live g) -> keeps (gput f).
Proof. intros F g outs I. destruct (F g) as (E1 & E2 & E3 & E4). apply (inv_same g); try done. intros c. by rewrite E2. Qed.
Lemma reg_keeps_on_front c f : (forall k, f_bridge (f k) = f_bridge k) -> keeps (on_front c f).
Proof.
  intros F g outs I. apply (inv_same g); try done. intros c'. cbn. destruct (decide (c' = c)) as [->|]; [|by rewrite lookup_alter_ne].
  rewrite lookup_alter_eq. destruct (g_fronts g !! c); cbn; [by rewrite F|done].
Qed.

(** Changes of one bridge. *)
Lemma reg_keeps_set b f : (forall outs u, up_inv outs b u -> up_inv outs b (f u)) -> (forall u, u_front (f u) = u_front u /\ (u_finished (f u) = false -> u_finished u = false)) ->
  keeps (on_bridge b f).
Proof.
  intros U F g outs I. cbn. unfold set_bridge. destruct (g_bridges g !! b) as [u|] eqn:E; [|by rewrite app_nil_r]. destruct (F u) as [F1 F2].
  apply (inv_update g outs b u (f u)); try done. rewrite app_nil_r. apply U. by apply (ri_bridge _ _ I).
Qed.
Lemma stop_up_inv outs b u : up_inv outs b u -> up_inv outs b (stop_up u).
Proof.
  intros [Up Id Au Do]. split; cbn; try done. unfold idle_up in *. destruct (u_stopping u || u_finished u); [done|]. rewrite Up. by eexists.
Qed.
Lemma end_up_inv outs b u : up_inv outs b u -> up_inv outs b (end_up u).
Proof.
  intros [Up Id Au Do]. split; cbn; try done.
  - unfold idle_up in *. cbn. rewrite orb_true_r. destruct (u_stopping u || u_finished u); [done|]. rewrite Up. by eexists.
  - destruct (u_finished u); [done|by rewrite Do].
Qed.
Lemma reg_keeps_stop b : keeps (stop_bridge b).
Proof. apply reg_keeps_set; [intros *; apply stop_up_inv|done]. Qed.
Lemma reg_keeps_end b : keeps (end_bridge b).
Proof.
  apply reg_keeps_bind; [apply reg_keeps_gbridge|intros u]. apply reg_keeps_bind; [apply reg_keeps_get|intros g]. apply reg_keeps_bind; [apply reg_keeps_set; [intros *; apply end_up_inv|done]|intros _].
  destruct (_ !! _); [by apply reg_keeps_emit|apply reg_keeps_ret].
Qed.

Ltac passed := unfold taken, ups, froms, downs; rewrite ?only_app; cbn; rewrite ?decide_True by done; rewrite ?app_nil_r.
Lemma reg_keeps_send b f : keeps (bridge_send b f).
Proof.
  intros g outs I. unfold bridge_send, gbind at 1, gbridge. destruct (g_bridges g !! b) as [u|] eqn:E; [|cbn; by rewrite app_nil_r].
  fold (idle_up u). destruct (idle_up u) eqn:Id; [cbn; by rewrite app_nil_r|]. destruct (ri_bridge _ _ I b u E) as [[Up _ Au Do] _]. rewrite Id in Up.
  destruct (reserve _ _ _) as [[t|] budget]; cbn; unfold set_bridge; rewrite E.
  - eapply (inv_update g outs b u); try reflexivity; try done; try by constructor. split; cbn.
    + unfold idle_up in *. cbn. rewrite Id, map_app. revert Up. passed. intros ->. by rewrite app_assoc.
    + unfold idle_up in *. cbn. congruence.
    + intros A. destruct (Au A) as (f0 & r & H & Rest). exists f0, r. split; [|done]. revert H. by passed.
    + revert Do. by passed.
  - eapply (inv_update g outs b u); try reflexivity; try done; try by constructor. rewrite app_nil_r. split; try done; unfold idle_up in *; cbn; [by rewrite Id|congruence].
Qed.
Lemma reg_keeps_connects w ok b : keeps (bridge_connects (so_auth_timeout o) w (so_queue o) ok b).
Proof.
  apply reg_keeps_bind; [apply reg_keeps_gbridge|intros u]. destruct (_ || _); [apply reg_keeps_ret|]. destruct (negb ok); [apply reg_keeps_end|].
  apply reg_keeps_bind; [apply reg_keeps_pure|intros s]. apply reg_keeps_set; [|done]. by intros outs u' [].
Qed.
Lemma send_up_spec w b c l s : match send_up w b l s with (ok, _, out) =>
  Forall (about b c) out /\ (exists rest, map fst l = ups b out ++ rest /\ (ok = true -> rest = [])) /\ taken b out = [] /\ froms b out = [] /\ forall c, downs c out = [] end.
Proof.
  revert s. induction l as [|[f t] l IH]; intros s; cbn; [by split_and!; [constructor|exists []|..]|]. destruct (enqueue _ _ _) as [[] s1].
  - specialize (IH s1). destruct (send_up w b l s1) as [[ok s2] out]. destruct IH as (A & (rest & M & R) & T1 & T2 & T3). split_and!; [by constructor| |done..].
    exists rest. split; [|done]. rewrite M. unfold ups, on_bridge_only. cbn. by rewrite decide_True.
  - split_and!; [constructor| |done..]. by exists (f :: map fst l).
Qed.
Lemma reg_keeps_turn w b : keeps (bridge_turn w b).
Proof.
  intros g outs I. unfold bridge_turn, gbind at 1, gbridge. destruct (g_bridges g !! b) as [u|] eqn:E; [|cbn; by rewrite app_nil_r].
  destruct (u_channel u) as [s|]; [|cbn; by rewrite app_nil_r]. destruct (u_finished u) eqn:Fi; [cbn; by rewrite app_nil_r|].
  destruct (u_stopping u || _) eqn:St; [pose proof (reg_keeps_end b g outs I) as K; by destruct (end_bridge b g) as [[? ?] ?]|].
  apply orb_false_iff in St as [St _]. destruct (ri_bridge _ _ I b u E) as [[Up _ Au Do] _]. unfold idle_up in Up. rewrite St, Fi in Up. rewrite Fi in Do.
  pose proof (send_up_spec w b (u_front u) (u_queued u) s) as Sp. destruct (send_up w b (u_queued u) s) as [[ok s'] out].
  destruct Sp as (A & (rest & M & R) & T1 & T2 & T3).
  assert (E1 : taken b (outs ++ out) = ups b (outs ++ out) ++ rest).
  { unfold taken, ups in *. rewrite !only_app, T1, app_nil_r, Up, M. by rewrite app_assoc. }
  assert (E3 : froms b (outs ++ out) = froms b outs) by (unfold froms in *; by rewrite only_app, T2, app_nil_r).
  assert (E4 : downs (u_front u) (outs ++ out) = downs (u_front u) outs) by (unfold downs in *; by rewrite only_app, T3, app_nil_r).
  unfold gbind at 1. unfold set_bridge at 1. rewrite E. destruct ok.
  - cbn. rewrite app_nil_r. eapply (inv_update g outs b u); try reflexivity; try done. split; unfold idle_up; cbn; rewrite ?St, ?Fi, ?E3, ?E4; try done.
    rewrite E1, R by done. done.
  - unfold end_bridge, gbind at 1, gbridge. cbn. rewrite list_lookup_insert_eq by (by eapply lookup_lt_Some). cbn. unfold set_bridge. cbn.
    rewrite list_lookup_insert_eq by (by eapply lookup_lt_Some). cbn. rewrite list_insert_insert_eq.
    set (g2 := put_g_bridges _ _). assert (reg_inv g2 (outs ++ out)).
    { eapply (inv_update g outs b u); try reflexivity; try done. split; unfold idle_up; cbn; rewrite ?orb_true_r, ?E4, ?E3; try done; [|by rewrite Do].
      rewrite E1. by eexists. }
    destruct (g_fronts g !! u_front u); cbn; [|by rewrite app_nil_r]. rewrite app_assoc. apply (inv_same g2); try done. by constructor.
Qed.

(** A delivery changes neither bridges nor whose they are, and puts out the frame if it succeeds. *)
Lemma deliver_spec w c f g : match deliver w c f g with (r, g', l) =>
  exists ok, r = Ok ok /\ g_bridges g' = g_bridges g /\ (forall c, f_bridge <$> g_fronts g' !! c = f_bridge <$> g_fronts g !! c) /\
    g_next g' = g_next g /\ g_live g' = g_live g /\ (if ok then exists d, l = [go_down c f d] else l = []) end.
Proof.
  unfold deliver, gbind at 1, gget. destruct (g_fronts g !! c) as [k|] eqn:E; [|cbn; by exists false].
  destruct (negb (f_stream k)); [cbn; by exists false|]. destruct (if as_datagram k f then _ else _) as [ok s].
  assert (F : forall c', f_bridge <$> alter (put_f_sends s) c (g_fronts g) !! c' = f_bridge <$> g_fronts g !! c').
  { intros c'. destruct (decide (c' = c)) as [->|]; [|by rewrite lookup_alter_ne]. rewrite lookup_alter_eq, E. done. }
  unfold note_passed. destruct (bool_decide _), ok; cbn; (eexists; split; [reflexivity|]; split_and!; [done|exact F|done|done|by try eexists]).
Qed.
Lemma reg_keeps_receives w b f : keeps (bridge_receives w b f).
Proof.
  intros g outs I. unfold bridge_receives, gbind at 1, gbridge. destruct (g_bridges g !! b) as [u|] eqn:E; [|cbn; by rewrite app_nil_r].
  destruct (_ || _) eqn:Ru; [cbn; by rewrite app_nil_r|]. apply orb_false_iff in Ru as [Fi _].
  destruct (learns f u) as [a|x] eqn:Le; [|pose proof (reg_keeps_end b g outs I) as K; by destruct (end_bridge b g) as [[? ?] ?]].
  destruct (ri_bridge _ _ I b u E) as [[Up Id Au Do] _]. rewrite Fi in Do.
  unfold gbind at 1, on_bridge, gput. unfold set_bridge at 1. rewrite E. set (u1 := mk_up _ _ a _ _ _ _ _). set (g1 := put_g_bridges _ g).
  unfold gbind at 1, gemit. unfold gbind at 1. pose proof (deliver_spec w (u_front u) f g1) as D. destruct (deliver w (u_front u) f g1) as [[r g2] l].
  destruct D as (ok & -> & Db & Df & Dn & Dl & Out).
  assert (Auth : forall l', (forall x, x ∈ l' -> exists d, x = go_down (u_front u) f d) -> a = true -> exists f0 r, f0 ∈ froms b (outs ++ go_from b f :: l') /\ type_ f0 = auth_result /\
    decode_auth_result (payload f0) = Ok r /\ accepted r = true).
  { intros l' _ ->. revert Le. unfold learns. unfold froms. rewrite only_app. cbn. rewrite decide_True by done. destruct (bool_decide _) eqn:T.
    - destruct (u_authenticated u); [done|]. intros H. destruct (decode_auth_result (payload f)) as [r|] eqn:De; [|done]. cbn in H. injection H as H.
      apply bool_decide_eq_true in T. exists f, r. split; [set_solver|done].
    - intros [= H]. destruct (Au H) as (f0 & r & Hin & Rest). exists f0, r. unfold froms in Hin. split; [set_solver|done]. }
  assert (Same : forall l', (forall x, x ∈ l' -> exists d, x = go_down (u_front u) f d) -> taken b (outs ++ go_from b f :: l') = taken b outs /\
    ups b (outs ++ go_from b f :: l') = ups b outs /\ froms b (outs ++ go_from b f :: l') = froms b outs ++ [f]).
  { intros l' Hl. change (outs ++ go_from b f :: l') with (outs ++ [go_from b f] ++ l'). unfold taken, ups, froms. rewrite !only_app.
    rewrite !(only_other b _ l') by (intros x b1 f1 Hx; destruct (Hl x Hx) as [d ->]; done). cbn. rewrite decide_True by done. by rewrite !app_nil_r. }
  destruct ok.
  - destruct Out as [d ->]. cbn. destruct (Same [go_down (u_front u) f d]) as (S1 & S2 & S3); [intros x ->%list_elem_of_singleton; by eexists|].
    apply (inv_update g outs b u u1); try done; [by repeat constructor|]. split; unfold idle_up in *; cbn.
    + rewrite S1, S2. done.
    + done.
    + apply Auth. intros x ->%list_elem_of_singleton. by eexists.
    + rewrite Fi, S3. unfold downs in *. rewrite only_app, Do. cbn. by rewrite decide_True.
  - subst l. destruct (Same []) as (S1 & S2 & S3); [intros x []%elem_of_nil|].
    unfold end_bridge, gbind at 1, gbridge. rewrite Db. cbn. rewrite list_lookup_insert_eq by (by eapply lookup_lt_Some). cbn. unfold set_bridge. rewrite Db. cbn.
    rewrite list_lookup_insert_eq by (by eapply lookup_lt_Some). cbn. rewrite list_insert_insert_eq. set (g3 := put_g_bridges _ g2).
    assert (reg_inv g3 (outs ++ [go_from b f])).
    { apply (inv_update g outs b u (end_up u1)); try done; [by repeat constructor|]. split; unfold idle_up in *; cbn; rewrite ?orb_true_r; try done.
      - rewrite S1, S2. destruct (u_stopping u || u_finished u); [done|]. rewrite Up. by eexists.
      - rewrite S3. unfold downs in *. rewrite only_app, Do. cbn. rewrite app_nil_r. by eexists. }
    destruct (g_fronts g2 !! u_front u); cbn; [|done]. change (go_from b f :: [go_close (u_front u)]) with ([go_from b f] ++ [go_close (u_front u)]).
    rewrite app_assoc. apply (inv_same g3); try done. by constructor.
Qed.

(** A new bridge for a connection that has none. *)
Lemma inv_new g outs c k budget g' : reg_inv g outs -> g_fronts g !! c = Some k -> f_bridge k = None -> len (g_live g) < so_max_connections o ->
  g_bridges g' = g_bridges g ++ [mk_up c false false false [] budget None 0] -> g_fronts g' = alter (put_f_bridge (Some (length (g_bridges g)))) c (g_fronts g) ->
  g_next g' = g_next g -> g_live g' = g_live g ++ [length (g_bridges g)] -> reg_inv g' outs.
Proof.
  intros [Br Fr Ba Un Nx No Si Li Bo] Ec Ek Lv Eb Ef En El. set (b := length (g_bridges g)) in *.
  assert (Look : forall b1 u1, g_bridges g' !! b1 = Some u1 -> g_bridges g !! b1 = Some u1 \/ (b1 = b /\ u1 = mk_up c false false false [] budget None 0)).
  { intros b1 u1. rewrite Eb. intros H%lookup_app_Some. destruct H as [H|[Ge H]]; [by left|]. right. apply list_lookup_singleton_Some in H as [H ->]. split; [|done]. unfold b in *. lia. }
  assert (Free : forall b1 u1, g_bridges g !! b1 = Some u1 -> u_front u1 <> c). { intros b1 u1 H E. rewrite <- E in Ec. rewrite (Ba b1 u1 k H Ec) in Ek. done. }
  assert (Fronts : forall c1 k1, g_fronts g' !! c1 = Some k1 -> (c1 = c /\ f_bridge k1 = Some b) \/ (c1 <> c /\ g_fronts g !! c1 = Some k1)).
  { intros c1 k1. rewrite Ef. destruct (decide (c1 = c)) as [->|]; [|rewrite lookup_alter_ne by done; by right]. rewrite lookup_alter_eq, Ec. intros [= <-]. by left. }
  assert (Lt : forall b1 u1, g_bridges g !! b1 = Some u1 -> (b1 < b)%nat) by (intros b1 u1 H; by eapply lookup_lt_Some).
  split.
  - intros b1 u1 [H|[-> ->]]%Look; [rewrite En; by apply Br|]. destruct (No b ltac:(done)) as (T1 & T2 & T3). split; [|rewrite En; by apply (Nx c k)].
    split; cbn; try done; [by rewrite T1, T2|]. rewrite T3. by apply Si.
  - intros c1 k1 b1 [[-> H]|[Ne H]]%Fronts B.
    + assert (b1 = b) as -> by congruence. exists (mk_up c false false false [] budget None 0). split; [|done]. rewrite Eb, lookup_app_r by done. by rewrite Nat.sub_diag.
    + destruct (Fr c1 k1 b1 H B) as (u1 & U1 & F1). exists u1. split; [|done]. rewrite Eb. by apply lookup_app_l_Some.
  - intros b1 u1 k1 [H|[-> ->]]%Look K.
    + destruct (Fronts _ _ K) as [[E _]|[_ H1]]; [by destruct (Free b1 u1 H)|by apply (Ba b1 u1)].
    + cbn in K. destruct (Fronts _ _ K) as [[_ E]|[Ne _]]; [done|by destruct Ne].
  - intros b1 b2 u1 u2 [H1|[-> ->]]%Look [H2|[-> ->]]%Look E; cbn in E; [by apply (Un b1 b2 u1 u2)|by destruct (Free b1 u1 H1)|by destruct (Free b2 u2 H2)|done].
  - intros c1 k1 [[-> _]|[_ H]]%Fronts; rewrite En; [by apply (Nx c k)|by apply (Nx c1 k1)].
  - intros b1 H. rewrite Eb, length_app in H. apply No. unfold b in *. lia.
  - intros c1 H. apply Si. intros b1 u1 H1. apply (H b1 u1). rewrite Eb. by apply lookup_app_l_Some.
  - intros b1 u1 [H|[-> ->]]%Look F; rewrite El; [|set_solver]. apply elem_of_app. left. by apply (Li b1 u1).
  - rewrite El, len_app. change (len [b]) with 1. lia.
Qed.
Lemma reg_keeps_prune : keeps (gput (fun g => put_g_live (List.filter (fun b => negb (finished g b)) (g_live g)) g)).
Proof.
  intros g outs [Br Fr Ba Un Nx No Si Li Bo]. cbn. rewrite app_nil_r. split; cbn; try done.
  - intros b u H F. apply list_elem_of_In, filter_In. split; [by apply list_elem_of_In, (Li b u)|]. unfold finished. by rewrite H, F.
  - pose proof (filter_length_le (fun b => negb (finished g b)) (g_live g)). unfold len in *. lia.
Qed.
Lemma reg_keeps_bridge_of c : keeps (bridge_of o c).
Proof.
  intros g outs I. unfold bridge_of, gbind at 1, gfront. destruct (g_fronts g !! c) as [k|] eqn:Ec; [|cbn; by rewrite app_nil_r].
  destruct (f_bridge k) as [b|] eqn:Eb; [cbn; by rewrite app_nil_r|]. unfold gbind at 1. unfold make_bridge, gbind at 1. pose proof (reg_keeps_prune g outs I) as I1.
  unfold gput in *. set (g1 := put_g_live _ g) in *. rewrite app_nil_r in I1. unfold gbind at 1, gget. unfold gbind at 1, gcheck.
  destruct (negb _) eqn:Gd; [|cbn; by rewrite app_nil_r]. cbn [gret]. unfold gbind at 1, gpure. destruct (make_budget _) as [budget|x]; [|cbn; by rewrite app_nil_r].
  cbn. rewrite app_nil_r. apply negb_true_iff, orb_false_iff in Gd as [_ Lv].
  apply (inv_new g1 outs c k budget); try done. rewrite Z.geb_leb in Lv. by apply Z.leb_gt in Lv.
Qed.
Lemma reg_keeps_pass w c b f : keeps (pass_up w c b f).
Proof.
  apply reg_keeps_bind; [|intros _; apply reg_keeps_bind; [apply reg_keeps_send|intros; apply reg_keeps_check]]. destruct (is_packet f); [apply reg_keeps_ret|].
  apply reg_keeps_bind; [apply reg_keeps_front|intros k]. destruct (allow _ _) as [ok rate]. apply reg_keeps_bind; [by apply reg_keeps_on_front|intros; apply reg_keeps_check].
Qed.
Lemma reg_keeps_stop_of c : keeps (stop_bridge_of c).
Proof. apply reg_keeps_bind; [apply reg_keeps_front|intros k]. destruct (f_bridge k); [apply reg_keeps_stop|apply reg_keeps_ret]. Qed.
Lemma reg_keeps_shut c m : keeps m -> keeps (or_shut c m).
Proof.
  intros M g outs I. unfold or_shut. specialize (M g outs I). destruct (m g) as [[[[]|e] g1] l]; [done|]. rewrite app_assoc. apply (inv_same g1); try done. by constructor.
Qed.
Lemma reg_keeps_closed c : keeps (regional_closed c).
Proof.
  apply reg_keeps_bind; [apply reg_keeps_stop_of|intros _]. intros g outs I. cbn. rewrite app_nil_r. destruct (g_fronts g !! c) as [k|] eqn:E; [|done].
  destruct I as [Br Fr Ba Un Nx No Si Li Bo]. split; cbn; try done.
  - intros c1 k1 b [_ H]%lookup_delete_Some B. by apply (Fr c1 k1).
  - intros b u k1 H [_ K]%lookup_delete_Some. by apply (Ba b u).
  - intros c1 k1 [_ H]%lookup_delete_Some. by apply (Nx c1 k1).
Qed.
Lemma reg_keeps_accept tcp : keeps (regional_accept o tcp).
Proof.
  apply reg_keeps_bind; [apply reg_keeps_get|intros g0]. destruct (reserve _ _ _) as [[t|] bd]; [|by apply reg_keeps_put].
  apply reg_keeps_bind; [apply reg_keeps_pure|intros s]. apply reg_keeps_bind; [apply reg_keeps_pure|intros rate].
  intros g outs [Br Fr Ba Un Nx No Si Li Bo]. cbn. rewrite app_nil_r. assert (Old : forall b u, g_bridges g !! b = Some u -> u_front u <> g_next g).
  { intros b u H E. destruct (Br b u H). lia. }
  split; cbn; try done.
  - intros b u H. destruct (Br b u H). split; [done|lia].
  - intros c k b [[<- <-]|[_ H]]%lookup_insert_Some; [done|]. by apply (Fr c k).
  - intros b u k H [[E _]|[_ K]]%lookup_insert_Some; [by destruct (Old b u H)|by apply (Ba b u)].
  - intros c k [[<- _]|[_ H]]%lookup_insert_Some; [lia|]. specialize (Nx c k H). lia.
Qed.
Lemma reg_keeps_health w f : keeps (regional_health o w f).
Proof.
  unfold regional_health. destruct (so_health_identity o); [|apply reg_keeps_pure]. apply reg_keeps_bind; [apply reg_keeps_check|intros _]. apply reg_keeps_bind; [apply reg_keeps_get|intros g].
  destruct (allow _ _) as [ok rate]. apply reg_keeps_bind; [by apply reg_keeps_put|intros _]. apply reg_keeps_bind; [apply reg_keeps_check|intros _].
  apply reg_keeps_bind; [apply reg_keeps_pure|intros bs]. apply reg_keeps_ret.
Qed.

Inductive regional_run : Regional -> list regional_output -> Prop :=
| rr_new g : new_regional o = Ok g -> regional_run g []
| rr_step g outs e r g' l : regional_run g outs -> regional_step o e g = (r, g', l) -> regional_run g' (outs ++ l).
Lemma step_keeps e : keeps (regional_step o e).
Proof.
  destruct e as [tcp|w c f|c|w c bs|c n|c bs|c|c|c i| | |sample|w ok b|w b|w b f|b i|b]; cbn.
  - apply reg_keeps_accept.
  - apply reg_keeps_bind; [apply reg_keeps_front|intros k]. destruct (_ && _); [|apply reg_keeps_bind; [apply reg_keeps_bridge_of|intros; apply reg_keeps_pass]].
    apply reg_keeps_bind; [apply reg_keeps_health|intros a]. destruct (enqueue _ _ _) as [ok s]. apply reg_keeps_bind; [by apply reg_keeps_on_front|intros _].
    apply reg_keeps_bind; [apply reg_keeps_check|intros _]. apply reg_keeps_bind; [by apply reg_keeps_emit|intros _]. by apply reg_keeps_on_front.
  - apply reg_keeps_bind; [apply reg_keeps_front|intros k]. destruct (f_started k); [by apply reg_keeps_emit|by apply reg_keeps_on_front].
  - apply reg_keeps_shut, reg_keeps_bind.
    + apply reg_keeps_bind; [apply reg_keeps_front|intros k]. destruct (default _ _) as [r d]. apply reg_keeps_bind; [by apply reg_keeps_on_front|intros; apply reg_keeps_pure].
    + intros frames. apply reg_keeps_for. intros f. apply reg_keeps_bind; [apply reg_keeps_bridge_of|intros; apply reg_keeps_pass].
  - by apply reg_keeps_on_front.
  - apply reg_keeps_bind; [apply reg_keeps_front|intros k]. destruct (f_bridge k) as [b|]; [|apply reg_keeps_ret]. apply reg_keeps_bind; [apply reg_keeps_gbridge|intros u].
    destruct (negb _); [apply reg_keeps_ret|]. apply reg_keeps_bind; [apply reg_keeps_send|intros ok]. destruct ok; [apply reg_keeps_ret|by apply reg_keeps_put].
  - apply reg_keeps_bind; [by apply reg_keeps_on_front|intros; apply reg_keeps_stop_of].
  - apply reg_keeps_closed.
  - by apply reg_keeps_on_front.
  - apply reg_keeps_bind; [apply reg_keeps_get|intros g]. destruct (g_stopping g); [apply reg_keeps_pure|by apply reg_keeps_put].
  - apply reg_keeps_bind; [by apply reg_keeps_put|intros _]. apply reg_keeps_bind; [apply reg_keeps_get|intros g]. apply reg_keeps_for. intros b. apply reg_keeps_stop.
  - destruct sample as [[h rtt]|]; [by apply reg_keeps_put|]. apply reg_keeps_bind; [by apply reg_keeps_put|intros _]. apply reg_keeps_bind; [apply reg_keeps_get|intros g].
    apply reg_keeps_for. intros b. apply reg_keeps_stop.
  - apply reg_keeps_connects.
  - apply reg_keeps_turn.
  - apply reg_keeps_receives.
  - apply reg_keeps_set; [by intros outs u []|done].
  - apply reg_keeps_bind; [apply reg_keeps_gbridge|intros u]. destruct (u_finished u); [apply reg_keeps_ret|apply reg_keeps_end].
Qed.
Lemma run_keeps g outs : regional_run g outs -> reg_inv g outs.
Proof.
  induction 1 as [g H|g outs e r g' l R IH E].
  - unfold new_regional in H. ok_inv H. subst g. split; cbn; try done. unfold len. cbn. lia.
  - pose proof (step_keeps e g outs IH) as K. by rewrite E in K.
Qed.

(** ** Where the frames of a bridge come from *)

Definition quiet {A} (m : G A) : Prop := forall g b f, go_in b f ∉ snd (m g).
Lemma quiet_silent {A} (m : G A) : (forall g, snd (m g) = []) -> quiet m.
Proof. intros H g b f. rewrite H. apply not_elem_of_nil. Qed.
Lemma quiet_bind {A B} (m : G A) (k : A -> G B) : quiet m -> (forall a, quiet (k a)) -> quiet (gbind m k).
Proof.
  intros M K g b f. unfold gbind. specialize (M g b f). destruct (m g) as [[[a|e] g1] l]; [|done]. specialize (K a g1 b f).
  destruct (k a g1) as [[r g2] l']. cbn in *. by intros [?|?]%elem_of_app.
Qed.
Lemma quiet_emit x : neutral x -> quiet (gemit x).
Proof. intros N g b f H. cbn in H. apply list_elem_of_singleton in H. by subst x. Qed.
Lemma quiet_for {A} (l : list A) (f : A -> G unit) : (forall x, quiet (f x)) -> quiet (gfor l f).
Proof. intros F. induction l as [|x l IH]; [by apply quiet_silent|]. apply quiet_bind; [apply F|done]. Qed.
Ltac calm := repeat first [apply quiet_bind; [|intros ?] | apply quiet_for; intros ? | by apply quiet_silent | by apply quiet_emit | case_match].
Lemma quiet_check b : quiet (gcheck b).
Proof. by destruct b; apply quiet_silent. Qed.
Lemma quiet_end b : quiet (end_bridge b).
Proof. unfold end_bridge, on_bridge. calm. Qed.
Lemma quiet_turn w b : quiet (bridge_turn w b).
Proof.
  unfold bridge_turn. apply quiet_bind; [by apply quiet_silent|intros u]. destruct (u_channel u) as [s|]; [|by apply quiet_silent].
  destruct (u_finished u); [by apply quiet_silent|]. destruct (_ || _); [apply quiet_end|].
  pose proof (send_up_spec w b 0 (u_queued u) s) as Sp. destruct (send_up w b (u_queued u) s) as [[ok s'] out]. destruct Sp as (A & _ & T & _).
  apply quiet_bind; [|intros _; destruct ok; [by apply quiet_silent|apply quiet_end]]. intros g b1 f H. cbn in H. rewrite Forall_forall in A. pose proof (A _ H) as E. cbn in E. subst b1.
  assert (X : f ∈ taken b out). { unfold taken, on_bridge_only. apply list_elem_of_In, in_flat_map. exists (go_in b f). split; [by apply list_elem_of_In|]. rewrite decide_True by done. by left. }
  rewrite T in X. by apply elem_of_nil in X.
Qed.
Lemma quiet_receives w b f : quiet (bridge_receives w b f).
Proof.
  unfold bridge_receives. apply quiet_bind; [by apply quiet_silent|intros u]. destruct (_ || _); [by apply quiet_silent|]. destruct (learns f u); [|apply quiet_end].
  apply quiet_bind; [by apply quiet_silent|intros _]. apply quiet_bind; [intros g b1 f1 H; cbn in H; by apply list_elem_of_singleton in H|intros _].
  apply quiet_bind; [|intros ok; destruct ok; [by apply quiet_silent|apply quiet_end]]. intros g b1 f1. pose proof (deliver_spec w (u_front u) f g) as D.
  destruct (deliver w (u_front u) f g) as [[r g2] l]. destruct D as (ok & _ & _ & _ & _ & _ & Out). cbn. destruct ok; [destruct Out as [d ->]|subst l]; intros H; [by apply list_elem_of_singleton in H|by apply elem_of_nil in H].
Qed.
Lemma quiet_health w f : quiet (regional_health o w f).
Proof. unfold regional_health, gcheck. calm. Qed.

Definition bridge_at (g : Regional) (c : nat) : option nat := g_fronts g !! c ≫= f_bridge.
Lemma bridge_at_alter f c c' g : (forall k, f_bridge (f k) = f_bridge k) -> bridge_at (put_g_fronts (alter f c (g_fronts g)) g) c' = bridge_at g c'.
Proof.
  intros F. unfold bridge_at. cbn. destruct (decide (c' = c)) as [->|]; [|by rewrite lookup_alter_ne]. rewrite lookup_alter_eq. destruct (g_fronts g !! c); cbn; [by rewrite F|done].
Qed.
Lemma send_fronts b f g : match bridge_send b f g with (_, g', l) => g_fronts g' = g_fronts g /\ forall b' f', go_in b' f' ∈ l -> b' = b /\ f' = f end.
Proof.
  unfold bridge_send, gbind at 1, gbridge. destruct (g_bridges g !! b) as [u|] eqn:E; [|cbn; split; [done|intros * []%elem_of_nil]].
  destruct (_ || _); [cbn; split; [done|intros * []%elem_of_nil]|]. destruct (reserve _ _ _) as [[t|] bd]; cbn; unfold set_bridge; rewrite E; (split; [done|]).
  - intros b' f' H. apply list_elem_of_singleton in H. by injection H as -> ->.
  - intros * []%elem_of_nil.
Qed.
Lemma pass_fronts w c b f g : match pass_up w c b f g with (_, g', l) =>
  (forall c', bridge_at g' c' = bridge_at g c') /\ forall b' f', go_in b' f' ∈ l -> b' = b /\ f' = f end.
Proof.
  unfold pass_up. set (first := if is_packet f then _ else _).
  assert (F : match first g with (_, g', l) => (forall c', bridge_at g' c' = bridge_at g c') /\ l = [] end).
  { unfold first. destruct (is_packet f); [done|]. unfold gbind at 1, gfront. destruct (g_fronts g !! c) as [k|]; [|done].
    destruct (allow _ _) as [[] rate]; cbn; (split; [|done]); intros c'; by apply bridge_at_alter. }
  unfold gbind at 1. destruct (first g) as [[[[]|e] g1] l]; destruct F as [F ->]; [|split; [done|intros * []%elem_of_nil]].
  unfold gbind. pose proof (send_fronts b f g1) as S. destruct (bridge_send b f g1) as [[[ok|e] g2] l]; destruct S as [S1 S2].
  - destruct ok; cbn; rewrite app_nil_r; (split; [intros c'; rewrite <- F; unfold bridge_at; by rewrite S1|done]).
  - cbn. split; [intros c'; rewrite <- F; unfold bridge_at; by rewrite S1|done].
Qed.
Lemma bridge_of_spec c g : match bridge_of o c g with (r, g', l) =>
  l = [] /\ (forall b, bridge_at g c = Some b -> bridge_at g' c = Some b) /\ (forall b, r = Ok b -> bridge_at g' c = Some b) /\
  (bridge_at g' c <> bridge_at g c -> g_verified g = true /\ g_stopping g = false) end.
Proof.
  unfold bridge_of, gbind at 1, gfront, bridge_at. destruct (g_fronts g !! c) as [k|] eqn:Ec; [|cbn; by rewrite Ec]. destruct (f_bridge k) as [b|] eqn:Eb.
  - cbn. rewrite Ec. cbn. rewrite Eb. split_and!; try done. by intros b' [= ->].
  - unfold make_bridge, gbind, gput, gget, gcheck. cbn. destruct (g_stopping g), (g_verified g); cbn; rewrite ?Ec; cbn; rewrite ?Eb; try done.
    destruct (_ >=? _); cbn; rewrite ?Ec; cbn; rewrite ?Eb; try done. unfold gpure. destruct (make_budget _); cbn; rewrite ?Ec; cbn; rewrite ?Eb; try done.
    rewrite lookup_alter_eq, Ec. cbn. split_and!; try done. by intros b [= <-].
Qed.
Lemma pass_spec w c f g : match (let! b := bridge_of o c in pass_up w c b f) g with (_, g', l) =>
  (forall b, bridge_at g c = Some b -> bridge_at g' c = Some b) /\ forall b' f', go_in b' f' ∈ l -> f' = f /\ bridge_at g' c = Some b' end.
Proof.
  unfold gbind at 1. pose proof (bridge_of_spec c g) as B. destruct (bridge_of o c g) as [[[b|e] g1] l]; destruct B as (-> & B1 & B2 & _); [|split; [done|intros * []%elem_of_nil]].
  pose proof (pass_fronts w c b f g1) as P. destruct (pass_up w c b f g1) as [[r g2] l]. destruct P as [P1 P2]. cbn. split; [intros b' H; rewrite P1; by apply B1|].
  intros b' f' H. destruct (P2 b' f' H) as [-> ->]. split; [done|]. rewrite P1. by apply B2.
Qed.
Lemma pass_all w c frames g : match gfor frames (fun f => let! b := bridge_of o c in pass_up w c b f) g with (_, g', l) =>
  (forall b, bridge_at g c = Some b -> bridge_at g' c = Some b) /\ forall b' f', go_in b' f' ∈ l -> f' ∈ frames /\ bridge_at g' c = Some b' end.
Proof.
  revert g. induction frames as [|f frames IH]; intros g; [cbn; split; [done|intros * []%elem_of_nil]|]. cbn [gfor]. unfold gbind at 1.
  pose proof (pass_spec w c f g) as P. destruct ((let! b := bridge_of o c in pass_up w c b f) g) as [[[[]|e] g1] l]; destruct P as [P1 P2]; cycle 1.
  { split; [done|]. intros b' f' H. destruct (P2 b' f' H) as [-> ?]. split; [by left|done]. }
  specialize (IH g1). destruct (gfor frames _ g1) as [[r g2] l']. destruct IH as [I1 I2]. split; [intros b H; by apply I1, P1|].
  intros b' f' [H|H]%elem_of_app; [destruct (P2 b' f' H) as [-> ?]; split; [by left|by apply I1]|destruct (I2 b' f' H); split; [by right|done]].
Qed.

(** [f] is a frame the client of connection [c] sent in the event: over TLS, over its stream, or as a datagram after the authority
    accepted it. *)
Definition client_frame (g : Regional) (e : RegionalEvent) (c : nat) (f : Frame) : Prop :=
  match e with
  | ge_tcp_frame _ c' f' => c' = c /\ f' = f
  | ge_stream _ c' bs => c' = c /\ exists k frames d, g_fronts g !! c = Some k /\ push (f_decoder k) bs = Some (Ok frames, d) /\ f ∈ frames
  | ge_datagram c' bs => c' = c /\ f = mk_frame network_packet_send 0 bs /\
      exists b u, bridge_at g c = Some b /\ g_bridges g !! b = Some u /\ u_authenticated u = true
  | _ => False
  end.
Lemma step_origin e g r g' l b f : regional_step o e g = (r, g', l) -> go_in b f ∈ l -> exists c, client_frame g e c f /\ bridge_at g' c = Some b.
Proof.
  intros E Hin. assert (Q : forall m : G unit, regional_step o e = m -> quiet m -> False). { intros m Em Qm. apply (Qm g b f). rewrite <- Em, E. done. }
  destruct e as [tcp|w c f0|c|w c bs|c n|c bs|c|c|c i| | |sample|w ok b0|w b0|w b0 f0|b0 i|b0]; cbn [regional_step] in *.
  - exfalso. eapply Q; [reflexivity|]. unfold regional_accept. calm.
  - exists c. unfold regional_tcp_frame in E. unfold gbind at 1, gfront in E. destruct (g_fronts g !! c) as [k|] eqn:Ec; [|injection E as <- <- <-; by apply elem_of_nil in Hin].
    destruct (_ && _).
    + exfalso. match type of E with (match ?t with _ => _ end) = _ => destruct t as [[r1 g1] l1] eqn:E1 end. injection E as <- <- <-.
      match type of E1 with ?m g = _ => assert (Qm : quiet m) end; [|apply (Qm g b f); by rewrite E1].
      apply quiet_bind; [apply quiet_health|intros a]. unfold gcheck, on_front. calm.
    + pose proof (pass_spec w c f0 g) as P. destruct ((let! b := bridge_of o c in pass_up w c b f0) g) as [[r1 g1] l1]. injection E as <- <- <-.
      destruct P as [_ P]. destruct (P b f Hin) as [-> ?]. done.
  - exfalso. eapply Q; [reflexivity|]. unfold regional_stream_started, on_front. calm.
  - exists c. unfold regional_stream_bytes, or_shut in E. unfold gbind at 1 in E. unfold regional_decode in E. unfold gbind at 1, gfront in E.
    destruct (g_fronts g !! c) as [k|] eqn:Ec; [|injection E as <- <- <-; by apply list_elem_of_singleton in Hin].
    destruct (push (f_decoder k) bs) as [[[frames|x] d]|] eqn:Ep; cbn in E; [|injection E as <- <- <-; by apply list_elem_of_singleton in Hin..].
    set (g1 := put_g_fronts _ g) in E. pose proof (pass_all w c frames g1) as P. destruct (gfor frames _ g1) as [[r1 g2] l1]. destruct P as [_ P].
    assert (H1 : go_in b f ∈ l1 /\ g' = g2). { destruct r1; injection E as <- <- <-; [done|]. apply elem_of_app in Hin as [?|H]; [done|by apply list_elem_of_singleton in H]. }
    destruct H1 as [H1 ->]. destruct (P b f H1) as [Hf Hb]. split; [|done]. split; [done|]. by exists k, frames, d.
  - exfalso. eapply Q; [reflexivity|]. unfold on_front. calm.
  - exists c. unfold regional_datagram in E. unfold gbind at 1, gfront in E. destruct (g_fronts g !! c) as [k|] eqn:Ec; [|injection E as <- <- <-; by apply elem_of_nil in Hin].
    destruct (f_bridge k) as [b0|] eqn:Eb; [|injection E as <- <- <-; by apply elem_of_nil in Hin]. unfold gbind at 1, gbridge in E.
    destruct (g_bridges g !! b0) as [u|] eqn:Eu; [|injection E as <- <- <-; by apply elem_of_nil in Hin].
    destruct (u_authenticated u) eqn:Ea; cbn [negb] in E; [|injection E as <- <- <-; by apply elem_of_nil in Hin].
    unfold gbind in E. pose proof (send_fronts b0 (mk_frame network_packet_send 0 bs) g) as S. destruct (bridge_send b0 _ g) as [[[ok|x] g1] l1]; destruct S as [S1 S2].
    + assert (H1 : go_in b f ∈ l1 /\ g_fronts g' = g_fronts g1). { destruct ok; injection E as <- <- <-; rewrite app_nil_r in Hin; done. }
      destruct H1 as [H1 H2]. destruct (S2 b f H1) as [-> ->]. unfold bridge_at. rewrite H2, S1, Ec. cbn. split; [|done]. split; [done|]. split; [done|].
      exists b0, u. unfold bridge_at. by rewrite Ec.
    + injection E as <- <- <-. destruct (S2 b f Hin) as [-> ->]. unfold bridge_at. rewrite S1, Ec. split; [|done]. split; [done|]. split; [done|]. exists b0, u. unfold bridge_at. by rewrite Ec.
  - exfalso. eapply Q; [reflexivity|]. unfold regional_stream_closed, stop_bridge_of, on_front, stop_bridge, on_bridge. calm.
  - exfalso. eapply Q; [reflexivity|]. unfold regional_closed, stop_bridge_of, stop_bridge, on_bridge. calm.
  - exfalso. eapply Q; [reflexivity|]. unfold on_front. calm.
  - exfalso. eapply Q; [reflexivity|]. calm.
  - exfalso. eapply Q; [reflexivity|]. unfold regional_stop, stop_bridge, on_bridge. calm.
  - exfalso. eapply Q; [reflexivity|]. unfold monitor_authority, stop_bridge, on_bridge. calm.
  - exfalso. eapply Q; [reflexivity|]. unfold bridge_connects, on_bridge. repeat first [apply quiet_end | apply quiet_bind; [|intros ?] | by apply quiet_silent | case_match].
  - exfalso. eapply Q; [reflexivity|apply quiet_turn].
  - exfalso. eapply Q; [reflexivity|apply quiet_receives].
  - exfalso. eapply Q; [reflexivity|]. unfold on_bridge. calm.
  - exfalso. eapply Q; [reflexivity|]. repeat first [apply quiet_end | apply quiet_bind; [|intros ?] | by apply quiet_silent | case_match].
Qed.

Lemma stop_all l g : exists g', gfor l stop_bridge g = (Ok tt, g', []) /\ g_verified g' = g_verified g /\
  forall b u', g_bridges g' !! b = Some u' -> exists u, g_bridges g !! b = Some u /\ u_finished u' = u_finished u /\ (u_stopping u = true \/ b ∈ l -> u_stopping u' = true).
Proof.
  revert g. induction l as [|b0 l IH]; intros g.
  - exists g. split; [done|]. split; [done|]. intros b u' H. exists u'. split; [done|]. split; [done|]. intros [?|[]%elem_of_nil]; done.
  - destruct (IH (set_bridge b0 stop_up g)) as (g' & E & V & H). exists g'. cbn. rewrite E. split; [done|]. split; [rewrite V; unfold set_bridge; by destruct (_ !! b0)|].
    intros b u' Hb. destruct (H b u' Hb) as (u1 & E1 & F1 & S1). unfold set_bridge in E1. destruct (g_bridges g !! b0) as [u0|] eqn:E0; cycle 1.
    { exists u1. split; [done|]. split; [done|]. intros [?|[->|?]%elem_of_cons]; [by apply S1; left|congruence|by apply S1; right]. }
    cbn in E1. destruct (decide (b = b0)) as [->|Ne].
    + rewrite list_lookup_insert_eq in E1 by (by eapply lookup_lt_Some). injection E1 as <-. exists u0. split; [done|]. split; [done|]. intros _. apply S1. by left.
    + rewrite list_lookup_insert_ne in E1 by done. exists u1. split; [done|]. split; [done|]. intros [?|[->|?]%elem_of_cons]; [by apply S1; left|done|by apply S1; right].
Qed.
Lemma health_spec w f g answer g' l : regional_health o w f g = (Ok answer, g', l) ->
  exists health identity, so_health_identity o = Some identity /\ sign_relay_health health identity = Ok (payload answer) /\ rh_nonce health = nonce_part f /\
    (rh_ready health = true -> g_running g = true /\ g_verified g = true /\ g_ready g = true /\ rh_active health < rh_capacity health).
Proof.
  unfold regional_health. destruct (so_health_identity o) as [identity|]; [|done]. unfold gbind at 1, gcheck. destruct (negb _); [|done]. cbn [gret].
  unfold gbind at 1, gget. destruct (allow _ _) as [ok rate]. unfold gbind at 1, gput. unfold gbind at 1. destruct ok; [|done]. cbn [gret].
  unfold gbind, gpure. destruct (sign_relay_health _ identity) as [bs|] eqn:Si; [|done]. intros [= <- _ _]. eexists _, identity. split; [done|]. split; [exact Si|].
  split; [done|]. cbn. rewrite !andb_true_iff, Z.ltb_lt. tauto.
Qed.

End Invariant.

(** A client reaches its authority through the relay: its hello goes up and the answer comes down. *)
Definition region : ServerOptions := mk_server_options [] 10000 (mk_queue_limits 1000000 100 1000 10) 8 32 32 None [] [].
Definition region_world : RegionalWorld := mk_regional_world 1000 (fun _ => true) (fun _ => true) (fun _ => true) 1000 10.
Definition region_hello : Frame := mk_frame client_hello 7 (replicate 96 x05).
Definition region_answer : Frame := mk_frame server_hello 7 (replicate 32 x06).
Definition region_events : list RegionalEvent :=
  [ge_start; ge_accept true; ge_probed (Some (home_health, 20)); ge_tcp_frame region_world 0 region_hello; ge_connected region_world true 0;
   ge_turn region_world 0; ge_from region_world 0 region_answer].
Section Scenario.
#[local] Existing Instance toy_crypto.
Fixpoint run_events (es : list RegionalEvent) (g : Regional) (outs : list regional_output) : Regional * list regional_output :=
  match es with [] => (g, outs) | e :: es => match regional_step region e g with (_, g', l) => run_events es g' (outs ++ l) end end.
Definition region_start : Regional :=
  match new_regional region with Ok g => g | Throw _ => mk_regional ∅ 0 [] [] (mk_budget default_queue_limits 0 0 0) default_rate_limit false false false false 0 0 0 0 end.
Lemma run_events_run es g outs : regional_run region g outs -> regional_run region (fst (run_events es g outs)) (snd (run_events es g outs)).
Proof.
  revert g outs. induction es as [|e es IH]; intros g outs R; [exact R|]. cbn. destruct (regional_step region e g) as [[r g'] l] eqn:E. apply IH. exact (rr_step region g outs e r g' l R E).
Qed.
End Scenario.
