(* ===== verification/Startup.v ===== *)
(** * Starting a relay and a client

    apps/relay/main.cpp and apps/service/client_runtime.cpp: how a configuration becomes the options of the relay server
    and of the relay client, with the checks of transport/quic.cpp ([validate_server_options],
    [validate_client_options]) and the limits of the network service.  The contents of files are arguments. *)
From S2P Require Import Limits ForwardingQuota QuicSend JoinTarget Handshake Directory RelayHealth RegionalRelay Config.
From S2P Require Import StoreInvariant ServiceScenario.
From S2P Require Import Prelude Codec Capabilities NetworkPolicy NetworkMessages PacketMessages Crypto RelayStore NetworkService ServiceAccess ServiceSafety ControlChannel RelayServer RelayServerSafety.

(** ** The relay *)

(** [QuicServerOptions]; [enable_quic] keeps its default. *)
Record QuicServerOptions := mk_quic_server_options {
  qs_listen_host : bytes; qs_port : Z; qs_certificate_file : bytes; qs_private_key_file : bytes; qs_auth_token_file : bytes;
  qs_handshake_timeout : Z; qs_authentication_timeout : Z; qs_idle_timeout : Z; qs_keep_alive_interval_ms : Z;
  qs_max_connections : Z; qs_max_tls_handshakes : Z; qs_send_queue : SendQueueLimits; qs_control_requests_per_second : Z;
  qs_relay_id : bytes; qs_authority : bytes; qs_health_identity_file : bytes; qs_upstream : option RelayEndpoint;
  qs_health_requests_per_second : Z }.

Definition upstream_ok (o : QuicServerOptions) (home : RelayEndpoint) : bool :=
  negb (bool_decide (re_host home = []) || (re_port home =? 0) || is_zero (re_health_key home) || negb (bool_decide (re_authority home = qs_authority o)) ||
        negb (re_version home =? protocol_version) || (re_capacity home =? 0) || bool_decide (qs_health_identity_file o = []) ||
        (bool_decide (re_host home = qs_listen_host o) && (re_port home =? qs_port o))).
Definition timeouts_ok (handshake authentication idle keep_alive : Z) : bool :=
  negb ((handshake <=? 0) || (authentication <=? 0) || (idle <=? 0) || (keep_alive =? 0) || (keep_alive >=? idle)).
Definition validate_server_options (o : QuicServerOptions) : result unit :=
  check! negb ((qs_max_connections o =? 0) || (qs_max_connections o >? 4096) || (qs_max_tls_handshakes o =? 0) ||
               (qs_max_tls_handshakes o >? qs_max_connections o) || (qs_control_requests_per_second o =? 0) ||
               (qs_health_requests_per_second o =? 0) || (qs_health_requests_per_second o >? 1000)) else invalid_argument in
  check! match qs_upstream o with Some home => upstream_ok o home | None => true end else invalid_argument in
  let* _ := make_budget (qs_send_queue o) in
  check! negb (bool_decide (qs_listen_host o = [])) else invalid_argument in
  check! negb (qs_port o =? 0) else invalid_argument in
  check! negb (bool_decide (qs_certificate_file o = []) || bool_decide (qs_private_key_file o = [])) else invalid_argument in
  check! negb (bool_decide (qs_upstream o = None) && bool_decide (qs_auth_token_file o = [])) else invalid_argument in
  check! timeouts_ok (qs_handshake_timeout o) (qs_authentication_timeout o) (qs_idle_timeout o) (qs_keep_alive_interval_ms o) else invalid_argument in
  Ok tt.

Definition standalone (c : RuntimeConfig) : bool := blank c relay_upstream_host.
(** The options [main] fills in; [queue] is the default of [SendQueueLimits] but for its size. *)
Definition relay_queue (c : RuntimeConfig) : SendQueueLimits :=
  mk_queue_limits (number c relay_send_queue_bytes) (number c relay_send_queue_frames)
    (reserved_control_bytes default_queue_limits) (reserved_control_frames default_queue_limits).
Definition upstream_endpoint (c : RuntimeConfig) : result RelayEndpoint :=
  let* key := parse_directory_key (text c relay_upstream_health_public_key) in
  Ok (mk_relay (text c relay_upstream_id) (text c relay_upstream_host) (number c relay_upstream_port) []
        (number c relay_upstream_capacity) protocol_version (text c relay_authority) key).
Definition options_with (c : RuntimeConfig) (upstream : option RelayEndpoint) : QuicServerOptions :=
  mk_quic_server_options (text c listen_host) (number c relay_port) (text c tls_certificate_file) (text c tls_private_key_file) (text c auth_token_file)
    (number c quic_handshake_timeout_ms) (number c authentication_timeout_ms) (number c quic_idle_timeout_ms) (number c quic_keep_alive_interval_ms)
    (number c relay_max_connections) (number c relay_max_tls_handshakes) (relay_queue c) (number c relay_control_requests_per_second)
    (text c relay_id) (text c relay_authority) (text c relay_health_identity_file) upstream (number c relay_health_requests_per_second).
Definition server_options (c : RuntimeConfig) : result QuicServerOptions :=
  if standalone c then Ok (options_with c None) else let* e := upstream_endpoint c in Ok (options_with c (Some e)).
Definition forwarding_limits (c : RuntimeConfig) : ForwardingLimits :=
  mk_forwarding_limits (number c relay_device_bytes_per_second) (number c relay_network_bytes_per_second)
    (number c relay_device_deliveries_per_second) (number c relay_network_deliveries_per_second) (number c relay_control_requests_per_second)
    (number c relay_authority_bytes_per_second) (number c relay_authority_deliveries_per_second).

(** What the machine answers when the relay starts: opening the log file, opening (and migrating) the database, the content of
    the token file, a random nonce, the key in the identity file, the transport with its certificate and its listener objects,
    and the two listeners on the given host and port. *)
Record Machine := mk_machine {
  m_log : bytes -> LogLevel -> Z -> Z -> result unit; m_database : bytes -> result Db; m_token : bytes -> option bytes; m_nonce : result bytes;
  m_identity : bytes -> result bytes; m_transport : QuicServerOptions -> result unit; m_quic_listener : bytes -> Z -> result unit;
  m_tls_listener : bytes -> Z -> result unit }.

Section Relay.
Context {C : Crypto} {T : TokenMac} {Pw : PasswordHash}.

(** The options the running server reads; a millisecond is a million ticks. *)
Definition running_options (o : QuicServerOptions) (token : bytes) (identity : option bytes) : ServerOptions :=
  mk_server_options token (qs_authentication_timeout o * 1000000) (qs_send_queue o) (qs_max_connections o) (qs_control_requests_per_second o)
    (qs_health_requests_per_second o) identity (qs_relay_id o) (qs_authority o).

(** The constructor of the server: the options are validated, the token made or loaded, the health identity loaded, the transport opened. *)
Definition construct_server (m : Machine) (o : QuicServerOptions) : result ServerOptions :=
  let* _ := make_rate_limit (qs_health_requests_per_second o) in
  let* _ := validate_server_options o in
  let* key := match qs_upstream o with
    | Some _ => let* nonce := m_nonce m in token_from_secret (hex_encode nonce)
    | None => token_load (qs_auth_token_file o) (m_token m (qs_auth_token_file o))
    end in
  let* health :=
    if bool_decide (qs_health_identity_file o = []) then Ok None
    else
      check! negb (bool_decide (qs_relay_id o = []) || bool_decide (qs_authority o = [])) else invalid_argument in
      let* identity := m_identity m (qs_health_identity_file o) in
      Ok (Some identity) in
  let* _ := m_transport m o in
  Ok (running_options o key health).
Definition start_listeners (m : Machine) (o : QuicServerOptions) : result unit :=
  let* _ := m_quic_listener m (qs_listen_host o) (qs_port o) in
  m_tls_listener m (qs_listen_host o) (qs_port o).

Inductive Started :=
| standalone_relay (o : QuicServerOptions) (ro : ServerOptions) (v : Relay)
| regional_relay (o : QuicServerOptions) (ro : ServerOptions) (g : Regional).
(** [main], from a configuration to the server that runs. *)
Definition start_relay (m : Machine) (c : RuntimeConfig) : result Started :=
  let* _ := validate_relay_config c in
  let* _ := m_log m (text c log_directory) (log_level c) (number c log_max_size_bytes) (number c log_max_files) in
  let* o := server_options c in
  if standalone c then
    let* db := m_database m (text c relay_database_file) in
    match set_forwarding_limits (forwarding_limits c) (fresh_service db) with
    | (Throw e, _) => Throw e
    | (Ok _, s) =>
        let* ro := construct_server m o in
        let* v := new_relay ro s in
        let* _ := start_listeners m o in
        Ok (standalone_relay o ro (put_v_running true v))
    end
  else
    let* ro := construct_server m o in
    let* g := new_regional ro in
    let* _ := start_listeners m o in
    Ok (regional_relay o ro (put_g_running true false g)).
End Relay.

(** ** The client *)

(** [QuicClientOptions] without the flags that keep their defaults. *)
Record QuicClientOptions := mk_quic_client_options {
  qc_relay_host : bytes; qc_port : Z; qc_identity_file : bytes; qc_auth_token_file : bytes; qc_handshake_timeout : Z;
  qc_authentication_timeout : Z; qc_idle_timeout : Z; qc_keep_alive_interval_ms : Z; qc_reconnect_initial_delay : Z;
  qc_reconnect_maximum_delay : Z; qc_tcp_probe_interval : Z; qc_relay_pool : list RelayEndpoint; qc_catalog_expires : Z; qc_catalog_revision : Z }.
Definition validate_client_options (o : QuicClientOptions) : result unit :=
  check! negb (bool_decide (qc_relay_host o = [])) else invalid_argument in
  check! negb (qc_port o =? 0) else invalid_argument in
  check! negb (bool_decide (qc_identity_file o = []) || bool_decide (qc_auth_token_file o = [])) else invalid_argument in
  check! timeouts_ok (qc_handshake_timeout o) (qc_authentication_timeout o) (qc_idle_timeout o) (qc_keep_alive_interval_ms o) else invalid_argument in
  check! negb ((qc_reconnect_initial_delay o <=? 0) || (qc_reconnect_maximum_delay o <? qc_reconnect_initial_delay o) || (qc_tcp_probe_interval o <=? 0)) else invalid_argument in
  Ok tt.

Definition bootstrap_config (c : RuntimeConfig) : BootstrapConfig :=
  mk_bootstrap (text c relay_host) (number c relay_port) (text c bootstrap_mode) (text c directory_url) (text c directory_public_key) (text c directory_relay_id).
Definition client_options (c : RuntimeConfig) (b : BootstrapResult) : QuicClientOptions :=
  let pooled := negb (br_revision b =? 0) in
  mk_quic_client_options (re_host (br_relay b)) (re_port (br_relay b)) (text c device_identity_file) (text c auth_token_file)
    (number c quic_handshake_timeout_ms) (number c authentication_timeout_ms) (number c quic_idle_timeout_ms) (number c quic_keep_alive_interval_ms)
    (number c reconnect_initial_delay_ms) (number c reconnect_max_delay_ms) 60000
    (if pooled then br_pool b else []) (if pooled then br_expires b else 0) (if pooled then br_revision b else 0).

(** The STUN server's address: the loop over the characters of [p2p_stun_host], in 32-bit arithmetic; an accepted host holds
    digits and dots only. *)
Definition stun_step (state : Z * Z) (c : byte) : Z * Z :=
  let (ipv4, octet) := state in
  if bool_decide (c = x2e) then (Z.lor (Z.shiftl ipv4 8 mod 2 ^ 32) octet, 0) else (ipv4, (octet * 10 + (b2z c - 48)) mod 2 ^ 32).
Definition stun_address (host : bytes) : Z :=
  let (ipv4, octet) := foldl stun_step (0, 0) host in Z.lor (Z.shiftl ipv4 8 mod 2 ^ 32) octet.

(** ** What the validators establish *)

Record relay_config_ok (c : RuntimeConfig) : Prop := mk_relay_config_ok {
  rc_valid : valid_config c;
  rc_health_rate : 1 <= number c relay_health_requests_per_second <= 1000;
  rc_bytes : 1 <= number c relay_device_bytes_per_second <= 2 ^ 30 /\ 1 <= number c relay_network_bytes_per_second <= 2 ^ 30 /\ 1 <= number c relay_authority_bytes_per_second <= 2 ^ 30;
  rc_deliveries : 1 <= number c relay_device_deliveries_per_second <= 1000000 /\ 1 <= number c relay_network_deliveries_per_second <= 1000000 /\
    1 <= number c relay_authority_deliveries_per_second <= 1000000;
  rc_upstream : upstream_configured c = true -> host_ok (text c relay_upstream_host) /\ text c relay_upstream_id <> [] /\ text c relay_health_identity_file <> [] /\
    number c relay_upstream_port <> 0 /\ 1 <= number c relay_upstream_capacity <= 4096 /\ hex_key (text c relay_upstream_health_public_key);
  rc_identity : (text c relay_health_identity_file = [] /\ text c relay_id = [] /\ text c relay_authority = []) \/
    (text c relay_health_identity_file <> [] /\ valid_text 64 (text c relay_id) = true /\ valid_text 64 (text c relay_authority) = true);
  rc_tls : text c tls_certificate_file <> [] /\ text c tls_private_key_file <> [];
  rc_files : standalone c = true -> text c auth_token_file <> [] /\ text c relay_database_file <> [] }.

Lemma zero_digits (k : bytes) : len k = 64 -> forallb (fun b => bool_decide (b = x30)) k = bool_decide (k = replicate 64 x30).
Proof.
  intros L. apply eq_true_iff_eq. rewrite forallb_forall, bool_decide_eq_true. unfold len in L. split.
  - intros F. replace 64%nat with (length k) by lia. clear L. induction k as [|b k IH]; [done|]. cbn. f_equal; [|apply IH; intros x Hx; apply F; by right].
    specialize (F b (or_introl eq_refl)). by bool_prop.
  - intros -> x Hx. apply list_elem_of_In, elem_of_replicate in Hx as [-> _]. by apply bool_decide_eq_true.
Qed.
Lemma upstream_spec c :
  negb (upstream_configured c) ||
    negb (invalid_host (text c relay_upstream_host) || blank c relay_upstream_id || blank c relay_health_identity_file ||
          (number c relay_upstream_port =? 0) || negb (within c relay_upstream_capacity 1 4096) || negb (len (text c relay_upstream_health_public_key) =? 64) ||
          negb (forallb is_xdigit (text c relay_upstream_health_public_key)) || forallb (fun b => bool_decide (b = x30)) (text c relay_upstream_health_public_key)) = true <->
  (upstream_configured c = true -> host_ok (text c relay_upstream_host) /\ text c relay_upstream_id <> [] /\ text c relay_health_identity_file <> [] /\
    number c relay_upstream_port <> 0 /\ 1 <= number c relay_upstream_capacity <= 4096 /\ hex_key (text c relay_upstream_health_public_key)).
Proof.
  destruct (upstream_configured c); cbn [negb orb]; [|split; [by intros _ ?|done]].
  rewrite negb_true_iff, !orb_false_iff, !negb_false_iff, invalid_host_spec, within_spec, <- hex_key_spec, Z.eqb_neq. unfold blank.
  rewrite !bool_decide_eq_false, !andb_true_iff, negb_true_iff. split.
  - intros (((((((H1 & H2) & H3) & H4) & H5) & H6) & H7) & H8) _. rewrite zero_digits in H8 by (by bool_prop). tauto.
  - intros H. destruct (H eq_refl) as (H1 & H2 & H3 & H4 & H5 & (H6 & H7) & H8). rewrite zero_digits by (by bool_prop). tauto.
Qed.
Lemma identity_spec c :
  (blank c relay_health_identity_file && blank c relay_id && blank c relay_authority) ||
    (negb (blank c relay_health_identity_file) && valid_text 64 (text c relay_id) && valid_text 64 (text c relay_authority)) = true <->
  (text c relay_health_identity_file = [] /\ text c relay_id = [] /\ text c relay_authority = []) \/
  (text c relay_health_identity_file <> [] /\ valid_text 64 (text c relay_id) = true /\ valid_text 64 (text c relay_authority) = true).
Proof. rewrite orb_true_iff, !andb_true_iff, given_spec, !blank_spec. tauto. Qed.
Lemma files_spec c f : negb (blank c relay_upstream_host && blank c f) = true <-> (standalone c = true -> text c f <> []).
Proof. unfold standalone. rewrite <- given_spec. destruct (blank c relay_upstream_host), (blank c f); cbn; naive_solver. Qed.
Lemma validate_relay_spec c : validate_relay_config c = Ok tt <-> relay_config_ok c.
Proof.
  unfold validate_relay_config. cbv zeta. rewrite !check_iff, then_iff, !check_iff, !andb_true_iff, !within_spec, validate_config_spec.
  rewrite upstream_spec, identity_spec, !files_spec, negb_true_iff, orb_false_iff, <- !not_true_iff_false, !blank_spec. split.
  - intros (((((((Q1 & Q2) & Q3) & Q4) & Q5) & Q6) & Q7) & U & V & I & T & F1 & F2 & _). split; first [done|lia|tauto].
  - intros [V Q1 (Q2 & Q3 & Q4) (Q5 & Q6 & Q7) U I T F]. change (2 ^ 30) with (1024 * 1024 * 1024) in *. split_and!; first [done|lia|tauto].
Qed.

(** ** The relay's options *)

Lemma hex_digit_ok b : is_xdigit b = true -> exists x, hex_digit b = Ok x /\ 0 <= x < 16 /\ (x = 0 -> b = x30).
Proof.
  unfold is_xdigit, is_digit, hex_digit. rewrite !orb_true_iff. cbv zeta. intros H.
  destruct ((48 <=? b2z b) && (b2z b <=? 57)) eqn:E1; [|destruct ((97 <=? b2z b) && (b2z b <=? 102)) eqn:E2; [|destruct ((65 <=? b2z b) && (b2z b <=? 70)) eqn:E3]].
  - eexists. split; [done|]. bool_prop. split; [lia|]. intros X. apply b2z_inj. change (b2z x30) with 48. lia.
  - eexists. split; [done|]. bool_prop. split; lia.
  - eexists. split; [done|]. bool_prop. split; lia.
  - destruct H as [[H|H]|H]; done.
Qed.
Lemma nibbles_zero x y : 0 <= x < 16 -> 0 <= y < 16 -> z2b (Z.lor (Z.shiftl x 4) y) = x00 -> x = 0 /\ y = 0.
Proof.
  intros Hx Hy E. apply (f_equal b2z) in E. assert (B : 0 <= Z.lor (Z.shiftl x 4) y < 256).
  { split; [apply Z.lor_nonneg; rewrite Z.shiftl_mul_pow2 by lia; lia|].
    apply Z.log2_lt_cancel. rewrite Z.log2_lor by (rewrite ?Z.shiftl_mul_pow2 by lia; lia). change (Z.log2 256) with 8.
    assert (Z.log2 y < 8) by (destruct (Z.eq_dec y 0) as [->|]; [done|]; apply Z.log2_lt_pow2; lia).
    assert (Z.log2 (Z.shiftl x 4) < 8) by (rewrite Z.shiftl_mul_pow2 by lia; destruct (Z.eq_dec x 0) as [->|]; [done|]; apply Z.log2_lt_pow2; lia). lia. }
  rewrite b2z_z2b in E. change (b2z x00) with 0 in E. rewrite Z.mod_small in E by lia. apply Z.lor_eq_0_iff in E as [E1 E2]. rewrite Z.shiftl_mul_pow2 in E1 by lia. lia.
Qed.
Lemma hex_pairs_ok n (s : bytes) : length s = (2 * n)%nat -> Forall (fun b => is_xdigit b = true) s ->
  exists key, hex_pairs s = Ok key /\ length key = n /\ (is_zero key = true -> s = replicate (2 * n) x30).
Proof.
  revert s. induction n as [|n IH]; intros s L F.
  - destruct s; [|done]. by exists [].
  - destruct s as [|a [|b s]]; cbn in L; [lia|lia|]. apply Forall_cons in F as [Fa F]. apply Forall_cons in F as [Fb F].
    destruct (IH s) as (key & E & Lk & Z0); [lia|done|]. destruct (hex_digit_ok a Fa) as (x & Ex & Rx & Zx). destruct (hex_digit_ok b Fb) as (y & Ey & Ry & Zy).
    cbn [hex_pairs]. rewrite Ex, Ey, E. eexists. split; [done|]. split; [cbn; by rewrite Lk|]. intros Z1. cbn in Z1. apply andb_true_iff in Z1 as [Z1 Z2]. bool_prop.
    destruct (nibbles_zero x y Rx Ry) as [X Y]; [done|]. rewrite (Zx X), (Zy Y), Z0 by done. by replace (2 * S n)%nat with (S (S (2 * n))) by lia.
Qed.
Lemma parse_hex_key k : hex_key k -> exists key, parse_directory_key k = Ok key /\ is_zero key = false.
Proof.
  intros (L & F & N). setoid_rewrite <- is_xdigit_spec in F. unfold len in L. destruct (hex_pairs_ok 32 k) as (key & E & _ & Z0); [lia|done|].
  exists key. assert (Zk : is_zero key = false) by (apply not_true_iff_false; intros Z1; by apply N, Z0).
  unfold parse_directory_key. unfold len. rewrite L, E, Zk. done.
Qed.

Lemma relay_limits_ok c s : relay_config_ok c -> exists q, configure s (forwarding_limits c) = Ok q.
Proof.
  intros [[_ _ _ _ _ _ _ _ _ (_ & _ & _ & _ & Cr) _] _ (B1 & B2 & B3) (D1 & D2 & D3) _ _ _ _]. unfold configure, forwarding_limits. cbn [device_bytes_per_second network_bytes_per_second device_deliveries_per_second network_deliveries_per_second control_per_second authority_bytes_per_second authority_deliveries_per_second].
  eexists. guard_true by (rewrite negb_true_iff, !orb_false_iff, !Z.eqb_neq, !Z.gtb_ltb, !Z.ltb_ge; lia). done.
Qed.
Lemma relay_queue_ok c : relay_config_ok c -> exists b, make_budget (relay_queue c) = Ok b.
Proof.
  intros [[_ _ _ _ _ _ _ _ _ (_ & _ & Q1 & Q2 & _) _] _ _ _ _ _ _ _]. unfold make_budget, relay_queue. cbn [limit_bytes limit_frames reserved_control_bytes reserved_control_frames default_queue_limits].
  eexists. guard_true by (rewrite negb_true_iff, !orb_false_iff, !Z.eqb_neq, !Z.geb_leb, !Z.leb_gt; lia). done.
Qed.

Lemma timeouts_given c : valid_config c ->
  timeouts_ok (number c quic_handshake_timeout_ms) (number c authentication_timeout_ms) (number c quic_idle_timeout_ms) (number c quic_keep_alive_interval_ms) = true.
Proof.
  intros [_ _ _ _ _ _ _ (T1 & T2 & T3 & T4 & T5) _ _ _]. unfold timeouts_ok. rewrite negb_true_iff, !orb_false_iff, !Z.leb_gt, Z.eqb_neq, Z.geb_leb, Z.leb_gt. lia.
Qed.

(** The relay is its own upstream. *)
Definition loops_back (c : RuntimeConfig) : Prop := text c relay_upstream_host = text c listen_host /\ number c relay_upstream_port = number c relay_port.
Lemma upstream_valid c : relay_config_ok c -> standalone c = false -> exists e, upstream_endpoint c = Ok e /\
  (upstream_ok (options_with c (Some e)) e = true <-> ~ loops_back c).
Proof.
  intros [V _ _ _ U _ _ _] S. destruct U as ((H1 & _) & H2 & H3 & H4 & H5 & H6); [unfold upstream_configured; unfold standalone in S; by rewrite S|].
  destruct (parse_hex_key _ H6) as (key & E & Z0). unfold upstream_endpoint. rewrite E. eexists. split; [done|].
  unfold upstream_ok, loops_back. cbn [re_host re_port re_health_key re_authority re_version re_capacity options_with qs_authority qs_health_identity_file qs_listen_host qs_port].
  rewrite Z0, Z.eqb_refl, (bool_decide_false _ H1), (bool_decide_false _ H3), (bool_decide_true (text c relay_authority = text c relay_authority)) by done. cbn [negb orb].
  rewrite negb_true_iff, !orb_false_iff, !Z.eqb_neq, andb_false_iff, bool_decide_eq_false, Z.eqb_neq.
  destruct (decide (text c relay_upstream_host = text c listen_host)), (decide (number c relay_upstream_port = number c relay_port)); split; intros X; try tauto; split_and!; try done; try lia; tauto.
Qed.
Lemma options_valid c up : relay_config_ok c -> (up = None -> text c auth_token_file <> []) ->
  validate_server_options (options_with c up) = Ok tt <-> match up with Some home => upstream_ok (options_with c up) home | None => true end = true.
Proof.
  intros O Tk. pose proof O as [V Hr _ _ _ _ [T1 T2] _]. pose proof V as [_ _ _ _ [Rp _] (Lh & _) _ _ _ (L1 & L2 & _ & _ & L5) _].
  destruct (relay_queue_ok c O) as [b Eb]. pose proof (timeouts_given c V) as Ti. unfold validate_server_options.
  set (u := match up with Some home => _ | None => _ end).
  cbn [options_with qs_max_connections qs_max_tls_handshakes qs_control_requests_per_second qs_health_requests_per_second qs_send_queue qs_listen_host qs_port qs_certificate_file qs_private_key_file qs_upstream qs_auth_token_file qs_handshake_timeout qs_authentication_timeout qs_idle_timeout qs_keep_alive_interval_ms].
  rewrite check_iff. change (match up with Some home => _ | None => _ end) with u. rewrite check_iff, Eb, !check_iff, Ti, !negb_true_iff, !orb_false_iff, !Z.eqb_neq, !Z.gtb_ltb, !Z.ltb_ge, andb_false_iff, !bool_decide_eq_false.
  assert (Au : up <> None \/ text c auth_token_file <> []) by (destruct up; [by left|right; by apply Tk]).
  split; [tauto|]. intros U. split_and!; try done; lia.
Qed.
Lemma server_options_valid c : relay_config_ok c -> exists o, server_options c = Ok o /\
  (standalone c = true -> o = options_with c None) /\ (validate_server_options o = Ok tt <-> standalone c = true \/ ~ loops_back c).
Proof.
  intros O. unfold server_options. destruct (standalone c) eqn:S.
  - eexists. split; [done|]. split; [done|]. rewrite options_valid; [by split; [left|]|done|]. intros _. by apply (rc_files _ O).
  - destruct (upstream_valid c O S) as (e & -> & U). eexists. split; [done|]. split; [done|]. rewrite options_valid by done. rewrite U. split; [by right|]. by intros [?|?].
Qed.

Section Started.
Context {C : Crypto} {T : TokenMac} {Pw : PasswordHash}.

(** What the options of the server must be: every limit and name from the configuration. *)
Record options_follow (c : RuntimeConfig) (o : QuicServerOptions) : Prop := mk_options_follow {
  of_listen : qs_listen_host o = text c listen_host /\ qs_port o = number c relay_port;
  of_files : qs_certificate_file o = text c tls_certificate_file /\ qs_private_key_file o = text c tls_private_key_file /\
    qs_auth_token_file o = text c auth_token_file /\ qs_health_identity_file o = text c relay_health_identity_file;
  of_timeouts : qs_handshake_timeout o = number c quic_handshake_timeout_ms /\ qs_authentication_timeout o = number c authentication_timeout_ms /\
    qs_idle_timeout o = number c quic_idle_timeout_ms /\ qs_keep_alive_interval_ms o = number c quic_keep_alive_interval_ms;
  of_connections : qs_max_connections o = number c relay_max_connections /\ qs_max_tls_handshakes o = number c relay_max_tls_handshakes;
  of_queue : limit_bytes (qs_send_queue o) = number c relay_send_queue_bytes /\ limit_frames (qs_send_queue o) = number c relay_send_queue_frames /\
    reserved_control_bytes (qs_send_queue o) = 65536 /\ reserved_control_frames (qs_send_queue o) = 8;
  of_rates : qs_control_requests_per_second o = number c relay_control_requests_per_second /\
    qs_health_requests_per_second o = number c relay_health_requests_per_second;
  of_names : qs_relay_id o = text c relay_id /\ qs_authority o = text c relay_authority;
  of_upstream : if standalone c then qs_upstream o = None
    else exists e, qs_upstream o = Some e /\ re_id e = text c relay_upstream_id /\ re_host e = text c relay_upstream_host /\
      re_port e = number c relay_upstream_port /\ re_capacity e = number c relay_upstream_capacity /\ re_authority e = text c relay_authority /\
      re_region e = [] /\ re_version e = protocol_version /\ parse_directory_key (text c relay_upstream_health_public_key) = Ok (re_health_key e) }.
(** ... and what the running server reads of them. *)
Definition runs_with (c : RuntimeConfig) (ro : ServerOptions) (key : bytes) (identity : option bytes) : Prop :=
  so_token ro = key /\ so_health_identity ro = identity /\ so_auth_timeout ro = number c authentication_timeout_ms * 1000000 /\
  limit_bytes (so_queue ro) = number c relay_send_queue_bytes /\ limit_frames (so_queue ro) = number c relay_send_queue_frames /\
  so_max_connections ro = number c relay_max_connections /\ so_control_rate ro = number c relay_control_requests_per_second /\
  so_health_rate ro = number c relay_health_requests_per_second /\ so_relay_id ro = text c relay_id /\ so_authority ro = text c relay_authority.
Definition quota_follows (c : RuntimeConfig) (l : ForwardingLimits) : Prop :=
  device_bytes_per_second l = number c relay_device_bytes_per_second /\ network_bytes_per_second l = number c relay_network_bytes_per_second /\
  authority_bytes_per_second l = number c relay_authority_bytes_per_second /\
  device_deliveries_per_second l = number c relay_device_deliveries_per_second /\
  network_deliveries_per_second l = number c relay_network_deliveries_per_second /\
  authority_deliveries_per_second l = number c relay_authority_deliveries_per_second /\ control_per_second l = number c relay_control_requests_per_second.

Lemma options_with_follow c o : server_options c = Ok o -> options_follow c o.
Proof.
  unfold server_options. destruct (standalone c) eqn:S.
  - intros [= <-]. split; try done. by rewrite S.
  - destruct (upstream_endpoint c) as [e|] eqn:E; [|done]. intros [= <-]. split; try done. rewrite S. exists e. unfold upstream_endpoint in E.
    destruct (parse_directory_key _) as [k|]; [|done]. by injection E as <-.
Qed.

(** The machine lets a relay with that configuration start. *)
Definition identity_of (m : Machine) (c : RuntimeConfig) (identity : option bytes) : Prop :=
  if bool_decide (text c relay_health_identity_file = []) then identity = None
  else exists i, m_identity m (text c relay_health_identity_file) = Ok i /\ identity = Some i.
Definition secret_of (m : Machine) (c : RuntimeConfig) (key : bytes) : Prop :=
  if standalone c then token_load (text c auth_token_file) (m_token m (text c auth_token_file)) = Ok key
  else exists nonce, m_nonce m = Ok nonce /\ token_from_secret (hex_encode nonce) = Ok key.
Definition machine_ready (m : Machine) (c : RuntimeConfig) (key : bytes) (identity : option bytes) : Prop :=
  m_log m (text c log_directory) (log_level c) (number c log_max_size_bytes) (number c log_max_files) = Ok tt /\
  (standalone c = true -> is_ok (m_database m (text c relay_database_file)) = true) /\ secret_of m c key /\ identity_of m c identity /\
  (exists o, options_follow c o /\ m_transport m o = Ok tt) /\
  m_quic_listener m (text c listen_host) (number c relay_port) = Ok tt /\ m_tls_listener m (text c listen_host) (number c relay_port) = Ok tt.

Lemma options_follow_unique c o o' : options_follow c o -> server_options c = Ok o' -> o = o'.
Proof.
  unfold server_options. intros [[? ?] (? & ? & ? & ?) (? & ? & ? & ?) [? ?] (? & ? & ? & ?) [? ?] [? ?] U].
  assert (E : forall up, qs_upstream o = up -> o = options_with c up).
  { intros up <-. destruct o as [? ? ? ? ? ? ? ? ? ? ? [? ? ? ?] ? ? ? ? ? ?]. cbn in *. unfold options_with, relay_queue. cbn. by subst. }
  destruct (standalone c); [intros [= <-]; by apply E|]. destruct U as (e & Ue & E1 & E2 & E3 & E4 & E5 & E6 & E7 & E8). unfold upstream_endpoint. rewrite E8.
  intros [= <-]. apply E. rewrite Ue. f_equal. destruct e. cbn in *. by subst.
Qed.

Lemma new_relay_ok c o token identity s : relay_config_ok c -> options_follow c o ->
  (exists v, new_relay (running_options o token identity) s = Ok v) /\ (exists g, new_regional (running_options o token identity) = Ok g).
Proof.
  intros [[_ _ _ _ _ _ _ _ _ (L1 & _) _] Hr _ _ _ _ _ _] [_ _ _ [Mc _] _ [_ Hq] _ _]. unfold new_relay, new_regional, running_options, make_budget, make_rate_limit.
  cbn [so_max_connections so_health_rate limit_bytes limit_frames reserved_control_bytes reserved_control_frames]. rewrite Mc, Hq.
  guard_true by (rewrite negb_true_iff, !orb_false_iff, !Z.eqb_neq, !Z.geb_leb, !Z.leb_gt; lia).
  guard_true by (rewrite negb_true_iff, Z.eqb_neq; lia). split; by eexists.
Qed.
Lemma running_follow c o key identity : options_follow c o -> runs_with c (running_options o key identity) key identity.
Proof. intros [_ _ (_ & ? & _) [? _] (? & ? & _) [? ?] [? ?] _]. unfold runs_with, running_options. cbn. split_and!; congruence. Qed.

(** The server is constructed exactly when the machine has what the options name. *)
Lemma construct_spec m c o ro : relay_config_ok c -> options_follow c o -> validate_server_options o = Ok tt ->
  construct_server m o = Ok ro <->
  m_transport m o = Ok tt /\ exists key identity, secret_of m c key /\ identity_of m c identity /\ ro = running_options o key identity.
Proof.
  intros O F V. pose proof F as [_ (_ & _ & Ft & Fi) _ _ _ [_ Hq] [Fn Fa] U]. unfold construct_server, secret_of, identity_of. rewrite V, Ft, Fi, Fn, Fa.
  assert (Rt : exists r, make_rate_limit (qs_health_requests_per_second o) = Ok r).
  { rewrite Hq. pose proof (rc_health_rate _ O). unfold make_rate_limit. guard_true by (rewrite negb_true_iff, Z.eqb_neq; lia). by eexists. }
  destruct Rt as [r ->].
  assert (Id : text c relay_health_identity_file <> [] -> negb (bool_decide (text c relay_id = []) || bool_decide (text c relay_authority = [])) = true).
  { intros N. destruct (rc_identity _ O) as [[? _]|(_ & V1 & V2)]; [done|]. unfold valid_text in V1, V2. bool_prop. by rewrite !bool_decide_false. }
  assert (Ky : forall key, match qs_upstream o with Some _ => let* nonce := m_nonce m in token_from_secret (hex_encode nonce)
      | None => token_load (text c auth_token_file) (m_token m (text c auth_token_file)) end = Ok key <->
      if standalone c then token_load (text c auth_token_file) (m_token m (text c auth_token_file)) = Ok key
      else exists nonce, m_nonce m = Ok nonce /\ token_from_secret (hex_encode nonce) = Ok key).
  { intros key. destruct (standalone c); [by rewrite U|]. destruct U as (e & -> & _). destruct (m_nonce m) as [n|]; naive_solver. }
  split.
  - destruct (match qs_upstream o with Some _ => _ | None => _ end) as [key|] eqn:K; [|done]. destruct (bool_decide_reflect (text c relay_health_identity_file = [])) as [N|N].
    + intros H. ok_inv H. subst ro. match goal with x : unit |- _ => destruct x end. split; [done|]. exists key, None. split_and!; [by apply Ky|done|done].
    + rewrite (Id N). intros H. ok_inv H. subst ro. match goal with X : m_transport m o = Ok ?u |- _ => destruct u end. split; [done|]. 
      match goal with X : match m_identity m _ with _ => _ end = Ok ?y |- _ => destruct (m_identity m (text c relay_health_identity_file)) as [i|] eqn:Ei; [|done]; injection X as <- end.
      exists key, (Some i). split_and!; [by apply Ky|by exists i|done].
  - intros (Tr & key & identity & K & I & ->). rewrite (proj2 (Ky key) K). destruct (bool_decide_reflect (text c relay_health_identity_file = [])) as [N|N].
    + rewrite I. by rewrite Tr.
    + destruct I as (i & Ei & ->). rewrite (Id N), Ei. by rewrite Tr.
Qed.
Lemma relay_starts m c : (exists x, start_relay m c = Ok x) <->
  relay_config_ok c /\ (standalone c = true \/ ~ loops_back c) /\ exists key identity, machine_ready m c key identity.
Proof.
  unfold start_relay, machine_ready. split.
  - intros [x H]. destruct (validate_relay_config c) as [[]|] eqn:Vc; [|done]. apply validate_relay_spec in Vc as O. split; [done|].
    destruct (m_log m _ _ _ _) as [[]|]; [|done]. destruct (server_options_valid c O) as (o & Eo & So & Vo). pose proof (options_with_follow c o Eo) as F. rewrite Eo in H.
    pose proof F as [[Lh Lp] _ _ _ _ _ _ _]. assert (X : exists ro, construct_server m o = Ok ro /\ start_listeners m o = Ok tt /\ (standalone c = true -> is_ok (m_database m (text c relay_database_file)) = true)).
    { destruct (standalone c); [destruct (m_database m _) as [db|]; [|done]; destruct (set_forwarding_limits _ _) as [[u|] s']; [|done]|];
        destruct (construct_server m o) as [ro|]; try done; exists ro; split; try done; ok_inv H; match goal with Y : start_listeners m o = Ok ?u |- _ => destruct u end; done. }
    destruct X as (ro & Ct & Ls & Db0). assert (Vs : validate_server_options o = Ok tt) by (unfold construct_server in Ct; destruct (make_rate_limit _), (validate_server_options o) as [[]|]; done).
    split; [by apply Vo|]. apply (construct_spec m c o ro O F Vs) in Ct as (Tr & key & identity & K & I & _). exists key, identity.
    unfold start_listeners in Ls. rewrite Lh, Lp in Ls. destruct (m_quic_listener m _ _) as [[]|]; [|done]. split_and!; try done. by exists o.
  - intros (O & Lb & key & identity & Lg & Db0 & K & I & (o & F & Tr) & Q & Tl). rewrite (proj2 (validate_relay_spec c) O), Lg.
    destruct (server_options_valid c O) as (o' & Eo & _ & Vo). rewrite Eo. pose proof (options_follow_unique c o o' F Eo) as <-.
    rewrite (proj2 (construct_spec m c o _ O F (proj2 Vo Lb)) (conj Tr (ex_intro _ key (ex_intro _ identity (conj K (conj I eq_refl)))))).
    assert (Ls : start_listeners m o = Ok tt) by (unfold start_listeners; destruct F as [[-> ->] _ _ _ _ _ _ _]; by rewrite Q). rewrite Ls.
    destruct (standalone c).
    + destruct (m_database m _) as [db|]; [|by discriminate Db0]. unfold set_forwarding_limits. destruct (relay_limits_ok c (quota_ (fresh_service db)) O) as [q Eq].
      rewrite Eq. destruct (new_relay_ok c o key identity (set_quota q (fresh_service db)) O F) as [[v ->] _]. by eexists.
    + destruct (new_relay_ok c o key identity (fresh_service empty_db) O F) as [_ [g ->]]. by eexists.
Qed.
(** What runs then. *)
Definition started_as (m : Machine) (c : RuntimeConfig) (key : bytes) (identity : option bytes) (x : Started) : Prop :=
  match x with
  | standalone_relay o ro v => standalone c = true /\ options_follow c o /\ runs_with c ro key identity /\ v_running v = true /\
      exists db, m_database m (text c relay_database_file) = Ok db /\ store_ (service_ (v_channel v)) = db /\
        quota_follows c (q_limits (quota_ (service_ (v_channel v)))) /\ (store_reachable db -> relay_reachable ro v)
  | regional_relay o ro g => standalone c = false /\ options_follow c o /\ runs_with c ro key identity /\ g_running g = true /\ regional_run ro g []
  end.
Lemma relay_started m c x : start_relay m c = Ok x -> exists key identity, secret_of m c key /\ identity_of m c identity /\ started_as m c key identity x.
Proof.
  unfold start_relay. intros H. destruct (validate_relay_config c) as [[]|] eqn:Vc; [|done]. apply validate_relay_spec in Vc as O.
  destruct (m_log m _ _ _ _) as [[]|]; [|done]. destruct (server_options_valid c O) as (o & Eo & _ & _). pose proof (options_with_follow c o Eo) as F. rewrite Eo in H.
  assert (Vs : forall ro, construct_server m o = Ok ro -> validate_server_options o = Ok tt)
    by (unfold construct_server; intros ro Ct; destruct (make_rate_limit _), (validate_server_options o) as [[]|]; done).
  destruct (standalone c) eqn:S.
  - destruct (m_database m _) as [db|] eqn:D; [|done]. destruct (set_forwarding_limits _ _) as [[u|] s'] eqn:Es; [|done]. ok_inv H. subst x.
    match goal with Y : construct_server m o = Ok ?r, Z : new_relay ?r s' = Ok ?w |- _ => rename Y into Ct; rename Z into Nv; rename r into ro; rename w into v end.
    apply (construct_spec m c o ro O F (Vs _ Ct)) in Ct as (_ & key & identity & K & I & ->). exists key, identity. split_and!; [done|done|].
    unfold started_as. split_and!; [done|done|by apply running_follow|done|]. exists db.
    assert (Ev : v_channel v = mk_channel s' ∅) by (unfold new_relay in Nv; ok_inv Nv; by subst v). cbn [put_v_running v_channel]. rewrite Ev. cbn [service_].
    assert (Sl : s' = serve 0 (fun _ => Throw runtime_error) (rq_limits (forwarding_limits c)) (fresh_service db)) by (cbn; by rewrite Es).
    unfold set_forwarding_limits, configure in Es. destruct (negb _) in Es; [|done]. injection Es as _ Es. split_and!; [done|by rewrite <- Es|by rewrite <- Es|].
    intros R. eapply (rr_step _ (re_running true) v); [eapply rr_start; [|exact Nv]; rewrite Sl; by apply sr_serve, sr_start|done|done].
  - ok_inv H. subst x. match goal with Y : construct_server m o = Ok ?r, Z : new_regional ?r = Ok ?w |- _ => rename Y into Ct; rename Z into Ng; rename r into ro; rename w into g end.
    apply (construct_spec m c o ro O F (Vs _ Ct)) in Ct as (_ & key & identity & K & I & ->). exists key, identity. split_and!; [done|done|].
    unfold started_as. split_and!; [done|done|by apply running_follow|done|]. change (@nil regional_output) with (@nil regional_output ++ []).
    eapply (RegionalRelay.rr_step _ g [] ge_start); [by apply rr_new|]. unfold new_regional in Ng. ok_inv Ng. by subst g.
Qed.

(** ** The client's options *)

Lemma directory_relay c fetch now : br_from_directory (resolve_bootstrap (bootstrap_config c) fetch now) = true ->
  re_host (br_relay (resolve_bootstrap (bootstrap_config c) fetch now)) <> [] /\ re_port (br_relay (resolve_bootstrap (bootstrap_config c) fetch now)) <> 0.
Proof.
  intros D. destruct (bootstrap_trusted (bootstrap_config c) fetch now) as [[F _]|(_ & _ & _ & response & key & cat & _ & _ & Vd & _ & _ & _ & In & _ & Fp)]; [congruence|].
  rewrite Forall_forall in Fp. destruct (Fp _ In) as (Hr & _). apply verify_directory_spec in Vd as (payload & sg & _ & _ & _ & _ & Wc & B & _).
  destruct (directory_body_ok _ _ Wc B) as [_ [_ _ _ _ Fr]]. rewrite Forall_forall in Fr. destruct (Fr _ Hr) as [_ Vh Vp _ _].
  unfold valid_text in Vh. bool_prop. done.
Qed.
(** What the options of the client must be. *)
Definition client_follows (c : RuntimeConfig) (b : BootstrapResult) (o : QuicClientOptions) : Prop :=
  qc_relay_host o = re_host (br_relay b) /\ qc_port o = re_port (br_relay b) /\
  qc_identity_file o = text c device_identity_file /\ qc_auth_token_file o = text c auth_token_file /\
  qc_handshake_timeout o = number c quic_handshake_timeout_ms /\ qc_authentication_timeout o = number c authentication_timeout_ms /\
  qc_idle_timeout o = number c quic_idle_timeout_ms /\ qc_keep_alive_interval_ms o = number c quic_keep_alive_interval_ms /\
  qc_reconnect_initial_delay o = number c reconnect_initial_delay_ms /\ qc_reconnect_maximum_delay o = number c reconnect_max_delay_ms /\
  (br_revision b <> 0 -> qc_relay_pool o = br_pool b /\ qc_catalog_expires o = br_expires b /\ qc_catalog_revision o = br_revision b) /\
  (br_revision b = 0 -> qc_relay_pool o = [] /\ qc_catalog_revision o = 0).
Lemma client_options_follow c b : client_follows c b (client_options c b).
Proof. unfold client_follows, client_options. cbn. split_and!; try done; destruct (Z.eqb_spec (br_revision b) 0); done. Qed.
(** The client's options are accepted unless the directory failed and no relay is configured to fall back on. *)
Lemma client_options_valid c fetch now : validate_service_config c = Ok tt -> text c relay_host <> [] \/ text c bootstrap_mode <> str "manual" ->
  let b := resolve_bootstrap (bootstrap_config c) fetch now in
  validate_client_options (client_options c b) = Ok tt <-> br_from_directory b = true \/ text c relay_host <> [].
Proof.
  intros Vs Sel b. unfold validate_service_config in Vs. rewrite then_iff, !check_iff, validate_config_spec in Vs. destruct Vs as (V & I & A & _).
  unfold blank in I, A. pose proof V as [_ _ _ _ [Rp _] _ _ _ (R1 & R2) _ _]. pose proof (timeouts_given c V) as Ti.
  assert (Tk : text c auth_token_file <> []).
  { destruct Sel as [N|N]; [rewrite (bool_decide_false _ N) in A|rewrite (bool_decide_false _ N), orb_true_r in A]; cbn in A; by bool_prop. }
  unfold validate_client_options, client_options. cbn [qc_relay_host qc_port qc_identity_file qc_auth_token_file qc_handshake_timeout qc_authentication_timeout qc_idle_timeout qc_keep_alive_interval_ms qc_reconnect_initial_delay qc_reconnect_maximum_delay qc_tcp_probe_interval].
  rewrite !check_iff, Ti, !negb_true_iff, !orb_false_iff, !bool_decide_eq_false, Z.eqb_neq, !Z.leb_gt, Z.ltb_ge. bool_prop.
  assert (P : re_port (br_relay b) <> 0 /\ (re_host (br_relay b) <> [] <-> br_from_directory b = true \/ text c relay_host <> [])).
  { destruct (br_from_directory b) eqn:D; [destruct (directory_relay c fetch now D) as [H1 H2]; split; [done|]; split; [by left|done]|].
    destruct (bootstrap_trusted (bootstrap_config c) fetch now) as [(_ & E & _)|(F & _)]; [|unfold b in D; congruence].
    unfold b. rewrite E. cbn. split; [done|]. split; [by right|]. by intros [?|?]. }
  destruct P as [P1 P2]. rewrite <- P2. split; [tauto|]. intros X. split_and!; try done; lia.
Qed.
End Started.

(** ** The STUN server *)

Lemma stun_digits s ipv4 : forallb is_digit s = true -> decimal s < 2 ^ 32 -> 0 <= decimal s /\ foldl stun_step (ipv4, 0) s = (ipv4, decimal s).
Proof.
  induction s as [|d s IH] using rev_ind; intros F B; [done|]. rewrite forallb_app in F. cbn in F. apply andb_true_iff in F as [F D]. rewrite andb_true_r in D.
  unfold is_digit in D. bool_prop. rewrite decimal_snoc in *. destruct IH as [N E]; [done|lia|]. split; [lia|]. rewrite foldl_app, E. cbn.
  rewrite bool_decide_false by (intros ->; done). rewrite Z.mod_small by lia. f_equal. lia.
Qed.
Lemma octet_digits s v : octet s v -> 0 <= v <= 255 /\ forall ipv4, foldl stun_step (ipv4, 0) s = (ipv4, v).
Proof.
  intros [H V]%octet_spec. unfold from_chars in H. destruct (_ && _ && _) eqn:G; [|done]. injection H as <-. bool_prop.
  match goal with F : forallb is_digit s = true |- _ => pose proof (fun i => stun_digits s i F ltac:(lia)) as X end. split; [destruct (X 0); lia|]. intros i. apply X.
Qed.
Lemma join_octet ip o : 0 <= ip < 2 ^ 24 -> 0 <= o <= 255 -> Z.lor (Z.shiftl ip 8 mod 2 ^ 32) o = ip * 256 + o.
Proof.
  intros Hi Ho. rewrite Z.mod_small by (rewrite Z.shiftl_mul_pow2 by lia; lia). replace o with (b2z (z2b o)) by (rewrite b2z_z2b; apply Z.mod_small; lia). apply shift_or_byte. lia.
Qed.
(** The address is the one the text denotes. *)
Lemma stun_address_spec a b c d va vb vc vd : octet a va -> octet b vb -> octet c vc -> octet d vd ->
  stun_address (a ++ x2e :: b ++ x2e :: c ++ x2e :: d) = va * 2 ^ 24 + vb * 2 ^ 16 + vc * 2 ^ 8 + vd.
Proof.
  intros Oa Ob Oc Od. destruct (octet_digits _ _ Oa) as [Ra Fa], (octet_digits _ _ Ob) as [Rb Fb], (octet_digits _ _ Oc) as [Rc Fc], (octet_digits _ _ Od) as [Rd Fd].
  unfold stun_address.
  rewrite foldl_app, Fa. cbn [foldl]. unfold stun_step at 2. rewrite bool_decide_true by done. rewrite join_octet by lia.
  rewrite foldl_app, Fb. cbn [foldl]. unfold stun_step at 2. rewrite bool_decide_true by done. rewrite join_octet by lia.
  rewrite foldl_app, Fc. cbn [foldl]. unfold stun_step at 2. rewrite bool_decide_true by done. rewrite join_octet by lia.
  rewrite Fd, join_octet by lia. lia.
Qed.

Section Exact.
Context {C : Crypto} {T : TokenMac} {Pw : PasswordHash}.

(** C37: what the validators accept, starts.  A relay comes up exactly when its configuration is a valid one of a relay
    ([relay_config_ok]), it is not its own upstream, and the machine gives it what it needs: the log file and, for a standalone
    relay, the database open, the token loads (or, for a relay with an upstream, one is made from a nonce), the health identity
    loads if one is configured, the transport opens with the certificate and key, and both listeners start.  The relay then
    runs with every limit, timeout, rate and name of the configuration, its traffic quota included, and a standalone relay is in
    a state of which [RelayServerSafety] speaks, a regional one in a state of [RegionalRelay].  The client's options are the
    configured ones, and are accepted exactly when the directory gave a relay or one is configured: a client that relies on the
    directory alone does not start while the directory cannot be reached.  The STUN address is the one its text denotes, a unicast
    address. *)
Theorem startup_exact (m : Machine) (c : RuntimeConfig) :
  ((exists x, start_relay m c = Ok x) <->
     relay_config_ok c /\ (standalone c = true \/ ~ loops_back c) /\ exists key identity, machine_ready m c key identity) /\
  (forall x, start_relay m c = Ok x -> exists key identity, secret_of m c key /\ identity_of m c identity /\ started_as m c key identity x) /\
  (forall b, client_follows c b (client_options c b)) /\
  (forall fetch now, validate_service_config c = Ok tt -> text c relay_host <> [] \/ text c bootstrap_mode <> str "manual" ->
     validate_client_options (client_options c (resolve_bootstrap (bootstrap_config c) fetch now)) = Ok tt <->
     br_from_directory (resolve_bootstrap (bootstrap_config c) fetch now) = true \/ text c relay_host <> []) /\
  (validate_config c = Ok tt -> text c p2p_stun_host <> [] -> exists a b d e va vb vd ve,
     text c p2p_stun_host = a ++ x2e :: b ++ x2e :: d ++ x2e :: e /\ octet a va /\ octet b vb /\ octet d vd /\ octet e ve /\
     va <> 0 /\ va <> 127 /\ va < 224 /\ stun_address (text c p2p_stun_host) = va * 2 ^ 24 + vb * 2 ^ 16 + vd * 2 ^ 8 + ve).
Proof.
  split; [apply relay_starts|]. split; [apply relay_started|]. split_and!.
  - apply client_options_follow.
  - intros fetch now. apply client_options_valid.
  - intros V N. apply validate_config_spec in V. destruct (vc_stun _ V) as [_ U]. destruct (U N) as (a & b & d & e & va & vb & vd & ve & E & Oa & Ob & Od & Oe & H).
    exists a, b, d, e, va, vb, vd, ve. rewrite E, (stun_address_spec _ _ _ _ _ _ _ _ Oa Ob Od Oe). destruct H as (H1 & H2 & H3). split_and!; done.
Qed.
End Exact.

(** ** A relay with two lines of configuration *)

#[local] Instance start_hash : PasswordHash := {| scrypt password salt := Some (take 32 (password ++ replicate 32 x00)) |}.
#[local] Existing Instance toy_crypto.
#[local] Existing Instance toy_mac.
Definition small_text : bytes :=
  render [(str "tls_certificate_file", str "relay.pem"); (str "tls_private_key_file", str "relay.key"); (str "relay_max_connections", str "20")].
Definition small_config : RuntimeConfig := match parse_config small_text with Ok c => c | Throw _ => default_config end.
Definition small_token : bytes := replicate 40 x61.

(** A client that names a directory and no relay. *)
Definition roaming_text : bytes :=
  render [(str "bootstrap_mode", str "official"); (str "directory_url", str "https://relays.example"); (str "directory_public_key", replicate 64 x61);
          (str "p2p_stun_host", str "9.8.7.6")].
Definition roaming_config : RuntimeConfig := match parse_config roaming_text with Ok c => c | Throw _ => default_config end.

(** A machine on which everything opens, with an empty database. *)
Definition small_machine : Machine :=
  mk_machine (fun _ _ _ _ => Ok tt) (fun _ => Ok empty_db) (fun _ => Some small_token) (Throw runtime_error) (fun _ => Throw runtime_error) (fun _ => Ok tt)
    (fun _ _ => Ok tt) (fun _ _ => Ok tt).
Lemma startup_exact_witness :
  (exists x, start_relay small_machine small_config = Ok x) /\
  validate_client_options (client_options roaming_config (resolve_bootstrap (bootstrap_config roaming_config) (fun _ => Throw runtime_error) 0)) <> Ok tt /\
  stun_address (text roaming_config p2p_stun_host) = 0x09080706.
Proof.
  destruct (startup_exact small_machine small_config) as (St & _). destruct (startup_exact small_machine roaming_config) as (_ & _ & _ & Cl & _). split; [|split].
  - apply St. split; [apply validate_relay_spec; vm_compute; reflexivity|]. split; [left; vm_compute; reflexivity|].
    eexists _, None. split; [reflexivity|]. split; [reflexivity|]. split; [vm_compute; reflexivity|]. split; [vm_compute; reflexivity|].
    split; [|split; reflexivity]. exists (options_with small_config None). split; [apply options_with_follow; vm_compute; reflexivity|reflexivity].
  - intros X. apply Cl in X; [|vm_compute; reflexivity|right; vm_compute; discriminate]. destruct X as [X|X]; [discriminate X|]. apply X. vm_compute. reflexivity.
  - vm_compute. reflexivity.
Defined.
